(* ===== verification/_CoqProject ===== *)
-Q . S2P
Prelude.v
GraphSearch.v
Strings.v
Json.v
EventTypes.v
ProjectionTypes.v
Guards.v
FoldRun.v
FoldControlFlow.v
FoldCorrection.v
FoldApprovals.v
FoldOperations.v
FoldLifecycle.v
IterationFold.v
EventIdentities.v
EventValidation.v
Fold.v
FoldFrames.v
ValidationProperties.v
HistoryProperties.v
AttemptProperties.v
LoopProperties.v
LockProperties.v
RunProperties.v
SagaProperties.v
OperationProperties.v
LifecycleProperties.v
ProjectionCache.v
ModelTypes.v
EngineExternals.v
ModelQueries.v
ModelIssues.v
ModelContracts.v
GraphContracts.v
ForkContracts.v
TopologicalOrder.v
LoopContracts.v
DurableContracts.v
ModelValidation.v
Readiness.v
ReadinessProperties.v
ModelProperties.v
Frontier.v
FrontierProperties.v
FrontierQueries.v
DefinitionValidation.v
ModelRoundTrips.v
HistoryRules.v
CursorProperties.v
AcceptedHistories.v
ParallelChildren.v
DagEngine.v
PolicyTypes.v
PolicyBundle.v
PolicyDescriptors.v
PolicyEvaluation.v
PolicyProperties.v
PolicyCache.v
DurableState.v
DurableStateProperties.v
StateRegisters.v
Schedules.v
DurableStore.v
LockQueue.v
Admission.v
PolicyQueue.v
DurableStoreProperties.v
LockHistories.v
LockTables.v
LockTransactions.v
TriggerProperties.v
StoreSafety.v
QueueProperties.v
Scenarios.v
Witnesses.v
EngineWitnesses.v
PolicyWitnesses.v
StateWitnesses.v
StoreWitnesses.v
TriggerWitnesses.v
