(* ===== verification/Prelude.v ===== *)
(** * The WOML durable event engine

    WOML runs workflows durably: everything that happens in a run is an event
    appended to the history of the run, the state of the run is the fold of that
    history, and a history must fit the compiled definition of its workflow.  This
    library models the core of the engine, the crate src/core/woml-engine: the
    event contract (event.rs, event/), the projection and its fold (projection.rs,
    projection/), the compiled model and its validation (model/), the readiness of
    nodes and the check of a history against a definition (engine/), the in-memory
    engine and store (engine.rs, store.rs), the durable store of events with its
    cache of folded states (durable/events/, durable/definitions.rs) and its lock
    queue (durable/transactions/locks/), the triggers that start runs
    (schedule.rs, interval.rs, durable/transactions/admission.rs) and the queue from
    which schedulers claim them (durable/transactions/policy.rs), the infrastructure
    policies that gate protected operations (infrastructure_policy.rs,
    infrastructure_policy_runtime.rs), and the durable user state of workflows
    (durable_state.rs).  Paths are relative to src/core/woml-engine/src.

    ** Events and the fold

    - A run event ([RunEvent], event.rs) has a schema version, an identifier, a
      run, a sequence number, a time, optionally the scope of a for-each iteration,
      and one of eighty payloads.  EventTypes.v has one record per payload and one
      inductive type per enum, with the names of the source; ProjectionTypes.v does
      the same for the state, [RunProjection] (projection/run.rs and siblings).
    - [RunEvent::validate] (event/validation.rs, event/identities.rs) accepts or
      rejects an event by itself: EventIdentities.v has the predicates on
      identifiers, EventValidation.v one definition per arm of the match and
      [validate_head] for the inheritance between the schema versions 1 to 20.
      Strings.v has the string functions of the Rust standard library on bytes.
    - [ProjectionFoldState::apply] (projection/fold.rs, Fold.v) checks one event
      against the history so far and dispatches it to a transition.  The
      transitions are the [apply_...] functions of projection/fold_*.rs: FoldRun.v
      (fold_run.rs, fold_attempts.rs), FoldControlFlow.v, FoldOperations.v
      (fold_operations.rs, fold_waits.rs, fold_locks.rs, fold_notifications.rs),
      FoldCorrection.v, FoldApprovals.v, FoldLifecycle.v; IterationFold.v has the
      transitions of work that belongs to one for-each iteration
      (projection/iteration_fold.rs);
      Guards.v the shared preconditions (projection/guards.rs, projection/run.rs).
    - [from_events] and [fold_events] (Fold.v) fold a history.
    - [projection_state_for_events] and [cache_projection_state]
      (durable/events/cache.rs, ProjectionCache.v) keep folded states of active
      runs; [world_step] is the way transactions use them.

    ** Definitions

    - ModelTypes.v has the compiled definition (model/contracts.rs and siblings),
      ModelQueries.v the lookups in it (model/queries.rs) and the delay of a retry
      (model/policies.rs), computed in double precision (EngineExternals.v).
    - [inspect_structure] and [inspect_executable_profile] (model/validation.rs,
      ModelValidation.v) list the issues of a definition.  ModelIssues.v has the
      issues, expressions and triggers, ModelContracts.v the lifecycle, policy,
      reusable and placement contracts, GraphContracts.v branches, parallel groups
      and approvals, ForkContracts.v forks and choices, LoopContracts.v for-each
      loops, DurableContracts.v waits, locks and sagas, TopologicalOrder.v the
      topological sort: one file of model/ is one or part of one of them.

    ** The engine

    - Readiness.v resolves references and chooses the arm of a branch or choice
      (engine/routing.rs, engine/context.rs), and computes the nodes that may start,
      through three indexes of the same graph (engine/readiness.rs,
      engine/readiness/index.rs); Frontier.v (engine/readiness/frontier.rs) keeps
      them incrementally.
    - DefinitionValidation.v (engine/validation.rs) checks one payload against the
      definition; HistoryRules.v has the cursor over the prefixes of a history
      (engine/history/prefix.rs), the rules that relate an event to its prefix
      (engine/history.rs, engine/history/validated.rs) and [check_history].  The record [PrefixReader] is the interface
      between the rules and what reads the prefixes: the rules are the same
      for the cursor and for the replay of every prefix.
    - DagEngine.v (engine.rs, store.rs) is the engine that appends checked events
      to the histories of its runs.

    ** The durable event store and the lock queue

    - DurableStore.v has the tables of definitions, runs, events, locks, triggers
      and claims ([StoreTables], durable/schema.rs), the read models of runs and of
      the runtime policy (durable/indexes/), the registration of definitions
      (durable/definitions.rs), the loading and appending of histories
      (durable/events/history.rs), the outcomes of historical schemas
      (durable/events/compatibility.rs) and the commits
      (durable/events/commits.rs): [append_payload_scoped] and
      [append_payloads_scoped_atomically].  A transaction returns new tables, or an
      error that leaves them as they were; transactions are immediate, so they are
      interleaved as whole steps.  Columns with JSON hold the decoded value.
    - LockQueue.v (durable/transactions/locks/) has every transaction on the locks:
      a run registers for a key, the oldest waiter in time is granted a lease with
      the next fencing token, leases are renewed, released, expired or handed over,
      waiters time out or are cancelled; scripts take programmatic leases in the
      same queue.  A lock of the workflow lives in the rows and in the history of
      its run, a programmatic lease in the rows only.
    - [store_step] (StoreSafety.v) is one step of the store: a definition is
      registered, a commit or a batch of events other than those of locks succeeds
      or fails, a transaction of the lock queue, on triggers or on claims commits, or
      the store is opened anew, which rebuilds the read models, drops expired claims
      and empties the cache.  Only the lock queue appends lock events in the source,
      and only claims append starts of executions; the latter matters to the rate
      limit alone, so it is the parameter [claims_start] of the steps.  A
      programmatic release names a session that [validate_programmatic_lock_input]
      admits.  Retention and the restoring of a backup, which delete or replace
      rows, are not steps, nor are the transactions of other parts of the store.

    ** Triggers and claims

    - Schedules.v (schedule.rs, interval.rs) parses cron expressions, matches
      instants against them in a time zone, searches the next or the latest instant
      minute by minute, and computes the grid of an interval.
    - Admission.v (durable/transactions/admission.rs, schedules.rs, intervals.rs)
      admits occurrences of triggers: each starts one run, identified by its source;
      an internal event of a run starts runs of its subscribers, with a lineage that
      is checked for cycles; the cursors of schedules and intervals move in the
      transaction that admits their occurrence.  [schedule_round] and
      [interval_round] are the bodies of the loops of webhook/schedules.rs and
      webhook/intervals.rs between two sleeps.
    - PolicyQueue.v (durable/transactions/policy.rs) lets a scheduler claim a run
      when its workflow has capacity, its rate allows a start and no earlier run of
      the queue could start; claims are renewed, suspended while a run waits,
      resumed, released, or expire.  [recover_store] is the end of the opening of a
      store (durable/opening.rs).

    ** Infrastructure policies

    - PolicyTypes.v has the bundles, descriptors, evidence and evaluators.
      PolicyBundle.v (infrastructure_policy.rs) validates a bundle, computes its
      canonical identity and checks its signature; an emergency overlay is a bundle
      that can only deny.
    - PolicyDescriptors.v (infrastructure_policy_runtime.rs) turns a capability call
      into the descriptor a policy judges, through one adapter per capability, and
      issues evidence.  PolicyEvaluation.v is the metered evaluator and its decision
      record, PolicyCache.v the cache of prepared evaluators.

    ** Durable user state

    - DurableState.v (durable_state.rs) has the three tables of the store with their
      constraints (durable/schema.rs), the operations get, has, set, delete,
      increment and set_if_absent, the call that runs one of them in a transaction
      or replays a recorded mutation ([execute]), the integrity check at opening
      ([open_with], [validate_store_integrity]) and the capability handler.
      [state_step] is one call by any process: transactions are immediate, so calls
      are interleaved as whole steps; a failure of SQLite is a step that changes
      nothing.

    ** Conventions

    A [&mut] argument becomes an argument and a result; [Result] becomes [result],
    which keeps a panic apart from an error; the [?] operator is [let?] and
    [check].  A transition of the source may change its state before it fails; its
    callers drop the state of a failed fold, so the model returns the state on
    success only.  u32 and u64 values are [N]; additions that the source does at
    machine width are [u32_add] and [u64_add], which wrap as the release profile
    does.  Times are [Z], in nanoseconds.  An f64 of a JSON value is its bit
    pattern; computed ones are [spec_float].  BTreeMap, HashMap and HashSet are
    [gmap] and [gset], with [btree_values] for iteration in key order.  A JSON
    object is an association list in insertion order (the crate enables
    preserve_order).  Formatted error messages keep their template.  Reads of the
    clock are arguments; the monotonic clock of the policy evaluator is a function
    from the number of the reading to the elapsed time.

    Third-party code (serde_json, the JSON canonicalizer, SHA-256, chrono, the
    precision of [f64::powi], base64, Ed25519, URL parsing) is the classes
    [Externals] of Guards.v, [EngineExternals] of EngineExternals.v,
    [PolicyExternals] of PolicyBundle.v, [StateExternals] of DurableState.v,
    [ScheduleExternals] of Schedules.v (time zones and the range of dates) and
    [StoreExternals] of DurableStore.v (UUIDs, the printing of dates, the equality of
    encoded definitions).  The theorems on the store assume nothing of them, except
    that [rate_limited] assumes that dates around its window are printed in their
    order.  The law of [EngineExternals] is the documented meaning of chrono's addition; the
    bounds on retry delays also assume that [powi] is exact on small powers of two.
    The theorems on durable state assume [StateLaws] (DurableStateProperties.v): canonical
    JSON is UTF-8, a value whose numbers are all read back exactly from their text
    ([exact_json]) is parsed back up to the nesting limit of serde_json, safe
    integers are written in decimal, chrono parses what it prints up to the year
    9999, and a digest has 64 hexadecimal digits.  The crate does not enable
    float_roundtrip, so fractions need not be exact: the theorems that a store can be
    reopened, reports no corruption and returns what was set ask for exact numbers
    of the calls concerned, the others do not.  The order of [HashMap::keys] is a parameter of
    ProjectionCache.v; one theorem assumes that it yields a key of a non-empty map.

    Recursion that is not structural has fuel, and each bound is proved to be
    enough where a theorem depends on it.  [validate] calls itself with a smaller
    schema version and is unrolled 21 times ([validate_closed_form]).  The searches
    of graphs follow each edge at most once: [search_fuel] is two more than the
    edges ([explore_reached] in GraphSearch.v), [count_topological] gets twice the
    nodes ([topological_exact]), the frontier one more than its queue and edges.
    The recursion of [node_is_complete_with] through joins ends on an acyclic graph
    within [completion_fuel]; out of fuel is a panic of the model, the divergence of
    the source, which [valid_definitions_return] excludes for valid definitions.
    A search of a schedule has the bound of the source, eight years of minutes; the
    list of its instants has one unit of fuel per minute of the span, and running out
    is a panic that [schedule_searches_exact] excludes; the ancestors of an internal
    event are at most 32, as in the source.

    ** The theorems

    - ValidationProperties.v: validation equals a closed form; each payload is
      confined to a window of schema versions.
    - FoldFrames.v is the interface between the fold and the property files: what
      each payload may change ([frame], [FrameField]), the inversion of an applied
      event, and the class [Invariant] of properties every event preserves.
    - HistoryProperties.v: histories are numbered, homogeneous and final.
    - AttemptProperties.v has an abstract ledger of attempts and retries, that the
      run implements it and that folding never panics.
    - LoopProperties.v: loops settle completely, within bounds, with ordered output;
      iterations implement the ledger too, are isolated from each other, and cannot
      own some payloads.
    - LockProperties.v: locks follow the life cycle of a lease.
    - RunProperties.v: the status machine of the run, the single outcome, what a
      finished run leaves behind, and a history that can never end.
    - SagaProperties.v, OperationProperties.v (operations, notifications and control
      flow), LifecycleProperties.v (lifecycle, waits and approvals): the protocols of
      the other parts, and that what is decided or settled is never
      rewritten, however a history is extended.
    - ProjectionCache.v: the cache is transparent and bounded.
    - GraphSearch.v has the searches of graphs and their exactness;
      ModelProperties.v: valid definitions have sound acyclic graphs, cycles are
      reported exactly, readiness returns on them, retry delays are bounded;
      ModelRoundTrips.v: what is encoded in identifiers and edges is decoded.
    - ReadinessProperties.v: the indexes agree, and the ready nodes are those of a
      declarative specification; FrontierProperties.v and
      FrontierQueries.v: the frontier answers as the scan, after construction and
      after every update.
    - CursorProperties.v: the check with the cursor equals the check that replays
      every prefix; AcceptedHistories.v and ParallelChildren.v: what an accepted
      history guarantees about attempts, retries, compensations, forks and parallel
      groups; DagEngine.v: the engine keeps accepted histories, and
      appending refines a log.
    - PolicyProperties.v states the verdict of a policy without meter and order of
      rules: the evaluator refines it, within its budget it
      always returns it, overlays only remove authority, decisions can be recorded,
      and verified policies carry a trusted signature; PolicyCache.v: the cache of
      evaluators is transparent and bounded.
    - DurableStateProperties.v: a store that only its calls have written can be opened
      again, with exact quotas, and a mutation commits once; StateRegisters.v: the
      calls refine one versioned register per key, conditional writes lose no update,
      what is set is read back, and corruption is never reported without cause, as
      far as numbers are exact.
    - DurableStoreProperties.v: what a commit does to the tables, with and without
      the cache; LockHistories.v: which locks a history holds; LockTables.v: the
      invariant of the lock tables ([locks_ok]) and how rows evolve;
      LockTransactions.v: every lock transaction preserves both; StoreSafety.v: keys
      are held once, fencing tokens rise, waiters are served in order, rows are
      consistent and bounded, a release hands the key over, commits extend one
      history and do not depend on the cache, and a run that ends while it holds a
      lock blocks its key.
    - Schedules.v: the searches of schedules are exact, a printed cron expression is
      parsed to its meaning, the grid of an interval is exact.  TriggerProperties.v
      has the invariants of occurrences, internal events and bindings ([triggers_ok])
      and what the transactions on triggers and claims change; QueueProperties.v: an
      occurrence admits one run, internal events form no cycle, a round of a schedule
      does what its policy says, and concurrency and rates are limited.
    - Scenarios.v has concrete histories; Witnesses.v, EngineWitnesses.v,
      PolicyWitnesses.v, StateWitnesses.v, StoreWitnesses.v and TriggerWitnesses.v
      apply the theorems to concrete inputs.

    ** What is not modelled

    Serialization of events and definitions; the correction index of the durable
    store, its migrations and its other transactions (waits, signals, approvals,
    ownership, run control); the recovery of runs whose scheduler was lost; the
    runtime, providers, remote execution and the other services, which perform I/O;
    the native bindings and the TypeScript packages.  The next parts to model are
    the durable waits and signals, and run control.

    This file holds what all others share: the [result] type and its notations,
    machine integers, options, lists, maps and their lemmas, record updates and
    the automation of the library. *)

From stdpp Require Export base gmap strings list fin_maps sets numbers sorting.
From Stdlib Require Import ZArith NArith Lia.

Declare Scope woml_scope.
Delimit Scope woml_scope with woml.
Open Scope woml_scope.

(** ** Outcomes of fallible Rust code *)

(** A Rust function that returns [Result<A, E>] either returns [Ok], returns
    [Err], or panics (index out of bounds, [expect] on [None]).  The release
    profile of the workspace has [panic = "abort"], so a panic ends the
    process; it is kept apart from [Err] so that its absence can be proved. *)
Inductive result (E A : Type) : Type :=
| Ok (a : A)
| Err (e : E)
| Panic (message : string).
Arguments Ok {E A} a.
Arguments Err {E A} e.
Arguments Panic {E A} message.

(** The [?] operator. *)
Definition result_bind {E A B} (k : A → result E B) (m : result E A) : result E B :=
  match m with
  | Ok a => k a
  | Err e => Err e
  | Panic s => Panic s
  end.

(** [Result::map_err]. *)
Definition map_err {E F A} (f : E → F) (m : result E A) : result F A :=
  match m with
  | Ok a => Ok a
  | Err e => Err (f e)
  | Panic s => Panic s
  end.

(** [if cond { return Err(e); }]. *)
Definition fail_if {E} (cond : bool) (e : E) : result E unit :=
  if cond then Err e else Ok tt.

(** [Option::ok_or_else]. *)
Definition ok_or {E A} (o : option A) (e : E) : result E A :=
  match o with Some a => Ok a | None => Err e end.

(** [Option::expect] and slice indexing: a panic on [None]. *)
Definition expect {E A} (o : option A) (message : string) : result E A :=
  match o with Some a => Ok a | None => Panic message end.

Definition is_ok {E A} (m : result E A) : bool :=
  match m with Ok _ => true | _ => false end.

Notation "'let?' x ':=' m 'in' k" := (result_bind (λ x, k) m)
  (at level 10, x pattern, m at level 100, k at level 200,
   format "'[v' 'let?'  x  ':='  m  'in' '/' k ']'") : woml_scope.
Notation "'check' m ';' k" := (result_bind (λ _ : unit, k) m)
  (at level 10, m at level 100, k at level 200,
   format "'[v' 'check'  m ';' '/' k ']'") : woml_scope.

Lemma result_bind_ok {E A B} (k : A → result E B) (m : result E A) (b : B) :
  result_bind k m = Ok b ↔ ∃ a, m = Ok a ∧ k a = Ok b.
Proof. destruct m; naive_solver. Qed.

Lemma result_bind_err {E A B} (k : A → result E B) (m : result E A) (e : E) :
  result_bind k m = Err e ↔ m = Err e ∨ ∃ a, m = Ok a ∧ k a = Err e.
Proof. destruct m; naive_solver. Qed.

Lemma fail_if_ok {E} (c : bool) (e : E) (u : unit) :
  fail_if c e = Ok u ↔ c = false.
Proof. destruct u, c; naive_solver. Qed.

Lemma fail_if_err {E} (c : bool) (e e' : E) : fail_if c e = Err e' ↔ c = true ∧ e = e'.
Proof. destruct c; naive_solver. Qed.

Lemma ok_or_err {E A} (o : option A) (e e' : E) : ok_or o e = Err e' ↔ o = None ∧ e = e'.
Proof. destruct o; naive_solver. Qed.

Lemma ok_or_ok {E A} (o : option A) (e : E) (a : A) :
  ok_or o e = Ok a ↔ o = Some a.
Proof. destruct o; naive_solver. Qed.

Lemma expect_ok {E A} (o : option A) (s : string) (a : A) :
  expect (E:=E) o s = Ok a ↔ o = Some a.
Proof. destruct o; naive_solver. Qed.

Lemma map_err_ok {E F A} (f : E → F) (m : result E A) (a : A) :
  map_err f m = Ok a ↔ m = Ok a.
Proof. destruct m; naive_solver. Qed.

Lemma Ok_inj {E A} (a b : A) : Ok (E:=E) a = Ok b → a = b.
Proof. congruence. Qed.

(** ** Machine integers *)

(** Unsigned machine integers are [N]; an addition at width [w] wraps, as in
    the release profile ([overflow-checks = false]). *)
Definition u32_modulus : N := 4294967296%N.
Definition u32_add (a b : N) : N := ((a + b) mod u32_modulus)%N.
(** [u64] and [usize] arithmetic, which wraps as well; [usize] has 64 bits. *)
Definition usize_modulus : N := 18446744073709551616%N.
Definition usize_add (a b : N) : N := ((a + b) mod usize_modulus)%N.
Definition usize_sub (a b : N) : N := ((a + usize_modulus - b) mod usize_modulus)%N.
(** [usize as u32]. *)
Definition as_u32 (n : nat) : N := (N.of_nat n mod u32_modulus)%N.

(** An [f64] is its IEEE-754 bit pattern. *)
Abbreviation f64 := N.
Definition f64_exponent (x : f64) : N := N.land (N.shiftr x 52) 2047.
Definition f64_mantissa (x : f64) : N := N.land x 4503599627370495.
Definition f64_is_finite (x : f64) : bool := negb (f64_exponent x =? 2047)%N.
Definition f64_is_nan (x : f64) : bool :=
  (f64_exponent x =? 2047)%N && negb (f64_mantissa x =? 0)%N.
(** [x < 0.0]. *)
Definition f64_lt_zero (x : f64) : bool :=
  N.testbit x 63 && negb (f64_is_nan x)
  && negb ((f64_exponent x =? 0)%N && (f64_mantissa x =? 0)%N).

(** [DateTime<Utc>]: nanoseconds since the epoch. *)
Abbreviation DateTime := Z.

(** [(lo..=hi).contains(&x)]. *)
Definition in_range (lo hi x : N) : bool := ((lo <=? x) && (x <=? hi))%N.

Lemma u32_add_small a b : (a + b < u32_modulus)%N → u32_add a b = (a + b)%N.
Proof. apply N.mod_small. Qed.

Lemma usize_sub_small a b : (b ≤ a < usize_modulus)%N → usize_sub a b = (a - b)%N.
Proof.
  intros [Hb Ha]. unfold usize_sub. replace (a + usize_modulus - b)%N with (a - b + 1 * usize_modulus)%N by lia.
  rewrite N.Div0.mod_add. apply N.mod_small. lia.
Qed.

Lemma as_u32_small n : (N.of_nat n < u32_modulus)%N → as_u32 n = N.of_nat n.
Proof. apply N.mod_small. Qed.

(** ** Record update *)

(** [Setter f] is the functional update of the field [f] of a record.  A record
    declares its eta expansion once as an instance of [Eta]; [mk_setter] derives
    the update of one field from it. *)
Class Eta (R : Type) := eta : R → R.
Class Setter {R T : Type} (field : R → T) := set_field : (T → T) → R → R.
Arguments set_field {R T} field {_} _ _.

Ltac mk_setter :=
  lazymatch goal with
  | |- @Setter ?R ?T ?field =>
      let i := constr:(_ : Eta R) in
      let h := lazymatch i with ?h => h end in
      let e := eval cbv delta [h] in h in
      lazymatch eval pattern field in e with
      | ?F _ =>
          let u := eval cbv beta in (λ (f : T → T), F (λ r : R, f (field r))) in
          exact u
      end
  end.

Notation "r <| field := v |>" := (set_field field (λ _, v) r)
  (at level 12, left associativity, v at level 200,
   format "r  <|  field  :=  v  |>") : woml_scope.
Notation "r <| field '::=' f |>" := (set_field field f r)
  (at level 12, left associativity, f at level 200,
   format "r  <|  field  ::=  f  |>") : woml_scope.

(** ** Equality tests *)

(** [x == y] and [x != y] of a type with decidable equality. *)
Notation "x == y" := (bool_decide (x = y)) (at level 70, no associativity) : woml_scope.
Notation "x != y" := (negb (bool_decide (x = y))) (at level 70, no associativity) : woml_scope.

(** [Option::is_some], [Option::is_none], [Option::is_some_and] and
    [Option::is_none_or]. *)
Definition is_some {A} (o : option A) : bool :=
  match o with Some _ => true | None => false end.
Definition is_none {A} (o : option A) : bool := negb (is_some o).
Definition is_some_and {A} (o : option A) (f : A → bool) : bool :=
  match o with Some a => f a | None => false end.
Definition is_none_or {A} (o : option A) (f : A → bool) : bool :=
  match o with Some a => f a | None => true end.

Lemma is_some_and_false {A} (o : option A) f :
  is_some_and o f = false → ∀ a, o = Some a → f a = false.
Proof. by intros Hf a ->. Qed.

Lemma is_some_false {A} (o : option A) : is_some o = false → o = None.
Proof. by destruct o. Qed.

Lemma existsb_eq_false {A B} `{EqDecision B} (f : A → B) b (l : list A) :
  existsb (λ a, f a == b) l = false → Forall (λ a, f a ≠ b) l.
Proof.
  induction l as [|a l IH]; simpl; [constructor|]. intros [Ha Hl]%orb_false_iff.
  constructor; [by apply bool_decide_eq_false in Ha|by apply IH].
Qed.

(** [Option::or] and [Option::or_else]. *)
Definition or_else {A} (first second : option A) : option A :=
  match first with Some a => Some a | None => second end.

Lemma filter_length_le {A} (f : A → bool) (l : list A) : length (List.filter f l) ≤ length l.
Proof. induction l as [|a l IH]; simpl; [done|]. destruct (f a); simpl; lia. Qed.

(** [Vec::is_empty]. *)
Definition is_empty {A} (l : list A) : bool :=
  match l with [] => true | _ => false end.

(** [iter().rev().find(f)]. *)
Definition find_last {A} (f : A → bool) (l : list A) : option A := List.find f (reverse l).

(** [iter().find_map(f)]. *)
Fixpoint find_map {A B} (f : A → option B) (l : list A) : option B :=
  match l with
  | [] => None
  | a :: l => match f a with Some b => Some b | None => find_map f l end
  end.

(** [iter().position(f)]. *)
Fixpoint position {A} (f : A → bool) (l : list A) : option nat :=
  match l with
  | [] => None
  | a :: l => if f a then Some O else S <$> position f l
  end.

(** [iter().max_by_key(key)]: of several maxima the last. *)
Definition max_by_key {A} (key : A → N) (l : list A) : option A :=
  foldl (λ best a,
    match best with
    | None => Some a
    | Some b => if (key b <=? key a)%N then Some a else Some b
    end) None l.

(** [sort_by_key(key)], which is stable. *)
Fixpoint insert_by_key {A} (key : A → N) (a : A) (l : list A) : list A :=
  match l with
  | [] => [a]
  | b :: l' => if (key a <=? key b)%N then a :: l else b :: insert_by_key key a l'
  end.
Definition sort_by_key {A} (key : A → N) (l : list A) : list A :=
  foldr (insert_by_key key) [] l.

(** [windows(2).all(|pair| f(pair[0], pair[1]))]. *)
Fixpoint windows_all {A} (f : A → A → bool) (l : list A) : bool :=
  match l with
  | a :: (b :: _) as l' => f a b && windows_all f l'
  | _ => true
  end.

Lemma find_app {A} (f : A → bool) (l1 l2 : list A) :
  List.find f (l1 ++ l2) = match List.find f l1 with Some a => Some a | None => List.find f l2 end.
Proof. induction l1 as [|a l1 IH]; simpl; [done|]. by destruct (f a). Qed.

Lemma find_Some_elem {A} (f : A → bool) (l : list A) a :
  List.find f l = Some a → a ∈ l ∧ f a = true.
Proof. intros [Hin ?]%find_some. by rewrite list_elem_of_In. Qed.

Lemma find_None_elem {A} (f : A → bool) (l : list A) a :
  List.find f l = None → a ∈ l → f a = false.
Proof. intros Hn Ha. apply (find_none _ _ Hn). by rewrite <-list_elem_of_In. Qed.

(** ** Traversals with effects *)

(** [iter().any(f)], [iter().all(f)] and [iter().filter(f)] for a closure that may not return;
    [any] and [all] stop at the first decisive element. *)
Fixpoint any_m {E A} (f : A → result E bool) (l : list A) : result E bool :=
  match l with
  | [] => Ok false
  | a :: l => result_bind (λ b : bool, if b then Ok true else any_m f l) (f a)
  end.
Fixpoint all_m {E A} (f : A → result E bool) (l : list A) : result E bool :=
  match l with
  | [] => Ok true
  | a :: l => result_bind (λ b : bool, if b then all_m f l else Ok false) (f a)
  end.
Fixpoint filter_m {E A} (f : A → result E bool) (l : list A) : result E (list A) :=
  match l with
  | [] => Ok []
  | a :: l => result_bind (λ b : bool, result_bind (λ l', Ok (if b then a :: l' else l')) (filter_m f l)) (f a)
  end.
(** [first && second] with a second operand that may not return. *)
Definition and_m {E} (first : bool) (second : result E bool) : result E bool :=
  if first then second else Ok false.

Section traversals.
Context {E A : Type}.
Implicit Types (f g : A → result E bool) (l : list A).

Lemma any_m_ext f g l : (∀ a, a ∈ l → f a = g a) → any_m f l = any_m g l.
Proof.
  induction l as [|a l IH]; intros Hfg; simpl; [done|]. rewrite Hfg by left.
  rewrite IH; [done|]. intros; apply Hfg; by right.
Qed.
Lemma all_m_ext f g l : (∀ a, a ∈ l → f a = g a) → all_m f l = all_m g l.
Proof.
  induction l as [|a l IH]; intros Hfg; simpl; [done|]. rewrite Hfg by left.
  rewrite IH; [done|]. intros; apply Hfg; by right.
Qed.
Lemma filter_m_ext f g l : (∀ a, a ∈ l → f a = g a) → filter_m f l = filter_m g l.
Proof.
  induction l as [|a l IH]; intros Hfg; simpl; [done|]. rewrite Hfg by left.
  rewrite IH; [done|]. intros; apply Hfg; by right.
Qed.

(** A closure that always returns traverses like a pure one. *)
Lemma any_m_pure f (p : A → bool) l : (∀ a, a ∈ l → f a = Ok (p a)) → any_m f l = Ok (existsb p l).
Proof.
  induction l as [|a l IH]; intros Hf; simpl; [done|]. rewrite Hf by left. simpl.
  destruct (p a); simpl; [done|]. apply IH. intros; apply Hf; by right.
Qed.
Lemma all_m_pure f (p : A → bool) l : (∀ a, a ∈ l → f a = Ok (p a)) → all_m f l = Ok (forallb p l).
Proof.
  induction l as [|a l IH]; intros Hf; simpl; [done|]. rewrite Hf by left. simpl.
  destruct (p a); simpl; [|done]. apply IH. intros; apply Hf; by right.
Qed.
Lemma filter_m_pure f (p : A → bool) l :
  (∀ a, a ∈ l → f a = Ok (p a)) → filter_m f l = Ok (List.filter p l).
Proof.
  induction l as [|a l IH]; intros Hf; simpl; [done|]. rewrite Hf by left. simpl.
  rewrite IH; [done|]. intros; apply Hf; by right.
Qed.

(** When every call returns [Ok], so does the traversal, with a pure closure. *)
Lemma all_m_true f l : all_m f l = Ok true ↔ Forall (λ a, f a = Ok true) l.
Proof.
  induction l as [|a l IH]; simpl; [split; [constructor|done]|].
  rewrite Forall_cons, <-IH. destruct (f a) as [[]| |]; simpl; naive_solver.
Qed.
Lemma any_m_ok f l : (∀ a, a ∈ l → ∃ b, f a = Ok b) → ∃ b, any_m f l = Ok b.
Proof.
  induction l as [|a l IH]; intros Hf; simpl; [by eexists|].
  destruct (Hf a) as [b ->]; [left|]. destruct b; simpl; [by eexists|]. apply IH. intros; apply Hf; by right.
Qed.
Lemma all_m_ok f l : (∀ a, a ∈ l → ∃ b, f a = Ok b) → ∃ b, all_m f l = Ok b.
Proof.
  induction l as [|a l IH]; intros Hf; simpl; [by eexists|].
  destruct (Hf a) as [b ->]; [left|]. destruct b; simpl; [|by eexists]. apply IH. intros; apply Hf; by right.
Qed.
Lemma filter_m_ok f l : (∀ a, a ∈ l → ∃ b, f a = Ok b) → ∃ l', filter_m f l = Ok l'.
Proof.
  induction l as [|a l IH]; intros Hf; simpl; [by eexists|].
  destruct (Hf a) as [b ->]; [left|]. simpl. destruct IH as [l' ->]; [intros; apply Hf; by right|]. by eexists.
Qed.
Lemma filter_m_elem f l l' a : filter_m f l = Ok l' → a ∈ l' ↔ a ∈ l ∧ f a = Ok true.
Proof.
  revert l'. induction l as [|b l IH]; intros l' Hf; simpl in Hf.
  { apply Ok_inj in Hf as <-. set_solver. }
  destruct (f b) as [c| |] eqn:Hb; simpl in Hf; try done.
  destruct (filter_m f l) as [l0| |]; simpl in Hf; try done. apply Ok_inj in Hf as <-.
  destruct c; rewrite ?elem_of_cons, IH by done.
  - split; [intros [->|[??]]; auto|]. intros [[->|?] ?]; auto.
  - split; [intros [??]; auto|]. intros [[->|?] ?]; [congruence|auto].
Qed.
End traversals.

(** ** Ordered maps *)

(** A [BTreeMap] is a [gmap] whose iteration order is that of its keys. *)
Class BTreeKey (K : Type) := key_leb : K → K → bool.
#[global] Instance string_btree_key : BTreeKey string := String.leb.
#[global] Instance N_btree_key : BTreeKey N := N.leb.

Section btree.
Context {K : Type} `{Countable K} `{!BTreeKey K} {V : Type}.

(** [BTreeMap::iter]. *)
Definition btree_iter (m : gmap K V) : list (K * V) :=
  merge_sort (λ a b : K * V, Is_true (key_leb a.1 b.1)) (map_to_list m).

(** [BTreeMap::values]. *)
Definition btree_values (m : gmap K V) : list V := (btree_iter m).*2.

(** [BTreeMap::contains_key] and [HashMap::contains_key]. *)
Definition contains_key (m : gmap K V) (k : K) : bool := is_some (m !! k).

Lemma btree_iter_Permutation (m : gmap K V) : btree_iter m ≡ₚ map_to_list m.
Proof. apply merge_sort_Permutation. Qed.

Lemma elem_of_btree_values (m : gmap K V) v :
  v ∈ btree_values m ↔ ∃ k, m !! k = Some v.
Proof.
  unfold btree_values. rewrite btree_iter_Permutation, list_elem_of_fmap.
  split.
  - intros ([k v'] & -> & Hk). exists k. by apply elem_of_map_to_list.
  - intros [k Hk]. exists (k, v). split; [done|]. by apply elem_of_map_to_list.
Qed.

(** [values().any(f)]. *)
Lemma existsb_values_true (f : V → bool) (m : gmap K V) :
  existsb f (btree_values m) = true ↔ ∃ k v, m !! k = Some v ∧ f v = true.
Proof.
  rewrite existsb_exists. setoid_rewrite <-list_elem_of_In.
  setoid_rewrite elem_of_btree_values. naive_solver.
Qed.

Lemma existsb_values_false (f : V → bool) (m : gmap K V) :
  existsb f (btree_values m) = false ↔ ∀ k v, m !! k = Some v → f v = false.
Proof.
  rewrite <-not_true_iff_false, existsb_values_true. split.
  - intros Hn k v Hk. destruct (f v) eqn:E; [|done]. exfalso; eauto.
  - intros Hall (k & v & Hk & E). specialize (Hall k v Hk). congruence.
Qed.

Lemma contains_key_true (m : gmap K V) k : contains_key m k = true ↔ ∃ v, m !! k = Some v.
Proof. unfold contains_key, is_some. destruct (m !! k); naive_solver. Qed.

Lemma contains_key_false (m : gmap K V) k : contains_key m k = false ↔ m !! k = None.
Proof. unfold contains_key, is_some. destruct (m !! k); naive_solver. Qed.
End btree.

(** ** Sorted lists *)

(** [slice::sort_by], which is stable, for an order given by [leb]. *)
Fixpoint insert_by {A} (leb : A → A → bool) (a : A) (l : list A) : list A :=
  match l with
  | [] => [a]
  | b :: l' => if leb a b then a :: l else b :: insert_by leb a l'
  end.
Definition sort_by {A} (leb : A → A → bool) (l : list A) : list A := foldr (insert_by leb) [] l.

(** [Vec::dedup]: drop the elements that equal their predecessor. *)
Fixpoint dedup {A} `{EqDecision A} (l : list A) : list A :=
  match l with
  | a :: (b :: _) as l' => if a == b then dedup l' else a :: dedup l'
  | _ => l
  end.

(** *** The order of strings *)

Lemma ascii_compare_refl a : Ascii.compare a a = Eq.
Proof. apply N.compare_refl. Qed.

Lemma string_compare_refl s : String.compare s s = Eq.
Proof. induction s as [|a s IH]; simpl; [done|]. by rewrite ascii_compare_refl. Qed.

Lemma string_compare_lt_trans s1 s2 s3 :
  String.compare s1 s2 = Lt → String.compare s2 s3 = Lt → String.compare s1 s3 = Lt.
Proof.
  revert s2 s3. induction s1 as [|a s1 IH]; intros [|b s2] [|c s3]; simpl; try done.
  unfold Ascii.compare.
  destruct (N.compare_spec (Ascii.N_of_ascii a) (Ascii.N_of_ascii b)) as [Hab|Hab|Hab],
           (N.compare_spec (Ascii.N_of_ascii b) (Ascii.N_of_ascii c)) as [Hbc|Hbc|Hbc]; try done;
  intros H12 H23.
  - rewrite Hab, Hbc, N.compare_refl. by eapply IH.
  - rewrite Hab, (proj2 (N.compare_lt_iff _ _) Hbc). done.
  - rewrite <-Hbc, (proj2 (N.compare_lt_iff _ _) Hab). done.
  - rewrite (proj2 (N.compare_lt_iff (Ascii.N_of_ascii a) (Ascii.N_of_ascii c))); [done|]. by etrans.
Qed.

#[global] Instance string_leb_total : Total (λ a b, Is_true (String.leb a b)).
Proof.
  intros a b. unfold String.leb. rewrite (String.compare_antisym b a).
  destruct (String.compare a b); simpl; auto.
Qed.

#[global] Instance string_leb_antisymm : AntiSymm (=) (λ a b, Is_true (String.leb a b)).
Proof.
  intros a b. unfold String.leb. rewrite (String.compare_antisym b a).
  destruct (String.compare a b) eqn:Hab; simpl; [|done|done]. intros _ _. by apply String.compare_eq_iff.
Qed.

#[global] Instance string_leb_trans : Transitive (λ a b, Is_true (String.leb a b)).
Proof.
  intros a b c. unfold String.leb.
  destruct (String.compare a b) eqn:Hab; [|..|done].
  - apply String.compare_eq_iff in Hab as ->. done.
  - destruct (String.compare b c) eqn:Hbc; [|..|done].
    + apply String.compare_eq_iff in Hbc as ->. by rewrite Hab.
    + intros _ _. by rewrite (string_compare_lt_trans _ _ _ Hab Hbc).
Qed.

(** *** Sorting *)

Section sorting.
Context {A : Type} (leb : A → A → bool).
Implicit Types l : list A.

Lemma insert_by_Permutation a l : insert_by leb a l ≡ₚ a :: l.
Proof.
  induction l as [|b l IH]; simpl; [done|]. destruct (leb a b); [done|].
  rewrite IH. constructor.
Qed.

Lemma sort_by_Permutation l : sort_by leb l ≡ₚ l.
Proof. induction l as [|a l IH]; simpl; [done|]. by rewrite insert_by_Permutation, IH. Qed.

Lemma elem_of_sort_by a l : a ∈ sort_by leb l ↔ a ∈ l.
Proof. by rewrite sort_by_Permutation. Qed.

Lemma sort_by_length l : length (sort_by leb l) = length l.
Proof. by rewrite sort_by_Permutation. Qed.

Context `{!Total (λ a b, Is_true (leb a b))}.

Lemma insert_by_Sorted a l :
  Sorted (λ a b, Is_true (leb a b)) l → Sorted (λ a b, Is_true (leb a b)) (insert_by leb a l).
Proof.
  induction 1 as [|b l Hl IH Hb]; simpl; [repeat constructor|].
  destruct (leb a b) eqn:Hab; [repeat constructor; auto; by rewrite Hab|].
  constructor; [done|]. destruct Hb as [|c l]; simpl.
  - constructor. destruct (total (λ a b, Is_true (leb a b)) a b) as [Hle|Hle]; [by rewrite Hab in Hle|done].
  - destruct (leb a c); constructor; [|done].
    destruct (total (λ a b, Is_true (leb a b)) a b) as [Hle|Hle]; [by rewrite Hab in Hle|done].
Qed.

Lemma sort_by_Sorted l : Sorted (λ a b, Is_true (leb a b)) (sort_by leb l).
Proof. induction l; simpl; [constructor|]. by apply insert_by_Sorted. Qed.
End sorting.

(** The order of a key. *)
Definition by_key {A} (key : A → string) (a b : A) : bool := String.leb (key a) (key b).

Section by_key.
Context {A : Type} (key : A → string).

#[global] Instance by_key_total : Total (λ a b, Is_true (by_key key a b)).
Proof. intros a b. apply (total (λ a b, Is_true (String.leb a b))). Qed.
#[global] Instance by_key_trans : Transitive (λ a b, Is_true (by_key key a b)).
Proof. intros a b c. unfold by_key. apply (transitivity (R:=λ a b, Is_true (String.leb a b))). Qed.

(** When the keys are distinct, the sorted list depends on the elements only. *)
Lemma sort_by_key_unique l1 l2 :
  NoDup (key <$> l1) → l1 ≡ₚ l2 → sort_by (by_key key) l1 = sort_by (by_key key) l2.
Proof.
  intros Hnd Hperm. apply (Sorted_unique_strong (λ a b, Is_true (by_key key a b))).
  - intros a b Ha Hb Hab Hba.
    assert (key a = key b) as Hk by (by apply (anti_symm (λ a b, Is_true (String.leb a b)))).
    rewrite elem_of_sort_by in Ha. rewrite sort_by_Permutation, <-Hperm in Hb.
    apply list_elem_of_lookup in Ha as [i Ha]. apply list_elem_of_lookup in Hb as [j Hb].
    assert (i = j) as ->; [|congruence].
    eapply (NoDup_lookup (key <$> l1)); [done|..]; rewrite list_lookup_fmap; [by rewrite Ha|].
    rewrite Hb. simpl. by rewrite Hk.
  - by apply sort_by_Sorted, _.
  - by apply sort_by_Sorted, _.
  - by rewrite !sort_by_Permutation.
Qed.
End by_key.

(** *** Removing repetitions *)

Lemma elem_of_dedup {A} `{EqDecision A} (l : list A) a : a ∈ dedup l ↔ a ∈ l.
Proof.
  induction l as [|b l IH]; [done|]. destruct l as [|c l]; [done|].
  change (dedup (b :: c :: l)) with (if b == c then dedup (c :: l) else b :: dedup (c :: l)).
  case_bool_decide as Hbc; [subst|]; rewrite ?elem_of_cons, IH, ?elem_of_cons; naive_solver.
Qed.

Lemma dedup_length {A} `{EqDecision A} (l : list A) : length (dedup l) ≤ length l.
Proof.
  induction l as [|b l IH]; [done|]. destruct l as [|c l]; [done|].
  change (dedup (b :: c :: l)) with (if b == c then dedup (c :: l) else b :: dedup (c :: l)).
  case_bool_decide; simpl in *; lia.
Qed.

(** ** Maps of evolving entries *)

(** Every entry of [m] is still there in [m'], changed as [R] allows. *)
Definition entries_evolve `{Countable K} {A} (R : A → A → Prop) (m m' : gmap K A) : Prop :=
  ∀ k a, m !! k = Some a → ∃ a', m' !! k = Some a' ∧ R a a'.

Section evolve.
Context `{Countable K} {A : Type} (R : A → A → Prop) `{!PreOrder R}.
Implicit Types m : gmap K A.

#[global] Instance entries_evolve_preorder : PreOrder (entries_evolve (K:=K) R).
Proof.
  split.
  - intros m k a Ha. by exists a.
  - intros x y z Hxy Hyz k a Ha. destruct (Hxy _ _ Ha) as (b & Hb & ?).
    destruct (Hyz _ _ Hb) as (c & ? & ?). exists c. split; [done|]. by etrans.
Qed.

Lemma entries_evolve_new m k a : m !! k = None → entries_evolve R m (<[k := a]> m).
Proof. intros Hn k' b Hb. exists b. by rewrite lookup_insert_ne by congruence. Qed.

Lemma entries_evolve_change m k a a' :
  m !! k = Some a → R a a' → entries_evolve R m (<[k := a']> m).
Proof.
  intros Ha HR k' b Hb. destruct (decide (k = k')) as [<-|Hne].
  - rewrite lookup_insert_eq. simplify_eq. by exists a'.
  - rewrite lookup_insert_ne by done. by exists b.
Qed.
End evolve.

(** ** Automation *)

Create HintDb woml.

(** Invert a successful run of monadic code: every bind, guard and lookup on the
    path becomes a hypothesis, every failing branch is discarded. *)
Ltac invert_ok_step :=
  match goal with
  | u : unit |- _ => destruct u
  | H : result_bind _ _ = Ok _ |- _ => apply result_bind_ok in H as (? & ? & ?)
  | H : fail_if _ _ = Ok _ |- _ => apply fail_if_ok in H
  | H : ok_or _ _ = Ok _ |- _ => apply ok_or_ok in H
  | H : expect _ _ = Ok _ |- _ => apply expect_ok in H
  | H : map_err _ _ = Ok _ |- _ => apply map_err_ok in H
  | H : Ok _ = Ok _ |- _ => apply Ok_inj in H; try subst
  | H : Err _ = Ok _ |- _ => discriminate H
  | H : Panic _ = Ok _ |- _ => discriminate H
  | H : (if ?b then _ else _) = Ok _ |- _ => destruct b eqn:?
  | H : match ?x with _ => _ end = Ok _ |- _ => destruct x eqn:?
  end.
Ltac invert_ok := repeat invert_ok_step.

(** Turn boolean guards that are known to be true or false into propositions. *)
Ltac simplify_guards :=
  repeat match goal with
  | H : context [_ || _ = false] |- _ => rewrite orb_false_iff in H
  | H : context [_ && _ = true] |- _ => rewrite andb_true_iff in H
  | H : context [negb _ = false] |- _ => rewrite negb_false_iff in H
  | H : context [negb _ = true] |- _ => rewrite negb_true_iff in H
  | H : bool_decide _ = true |- _ => apply bool_decide_eq_true in H
  | H : bool_decide _ = false |- _ => apply bool_decide_eq_false in H
  | H : (_ <=? _)%N = true |- _ => apply N.leb_le in H
  | H : (_ <=? _)%N = false |- _ => apply N.leb_gt in H
  | H : (_ <? _)%N = true |- _ => apply N.ltb_lt in H
  | H : (_ <? _)%N = false |- _ => apply N.ltb_ge in H
  | H : _ ∧ _ |- _ => destruct H
  end.

(** ** Absence of panics *)

Definition no_panic {E A} (m : result E A) : Prop := ∀ message, m ≠ Panic message.

Lemma no_panic_ok {E A} (a : A) : no_panic (E:=E) (Ok a).
Proof. by intros ?. Qed.
Lemma no_panic_err {E A} (e : E) : no_panic (A:=A) (Err e).
Proof. by intros ?. Qed.
Lemma no_panic_bind {E A B} (k : A → result E B) (m : result E A) :
  no_panic m → (∀ a, m = Ok a → no_panic (k a)) → no_panic (result_bind k m).
Proof. intros Hm Hk s. destruct m; simpl; [by apply Hk|done|by destruct (Hm message)]. Qed.
Lemma no_panic_fail_if {E} (c : bool) (e : E) : no_panic (fail_if c e).
Proof. by destruct c. Qed.
Lemma no_panic_ok_or {E A} (o : option A) (e : E) : no_panic (ok_or o e).
Proof. by destruct o. Qed.
Lemma no_panic_map_err {E F A} (f : E → F) (m : result E A) : no_panic m → no_panic (map_err f m).
Proof. destruct m; intros Hm s; [done|done|by destruct (Hm message)]. Qed.
#[export] Hint Resolve no_panic_ok no_panic_err no_panic_fail_if no_panic_ok_or no_panic_map_err : woml.

(** Follow the control flow of monadic code that contains no [expect]. *)
Ltac solve_no_panic :=
  repeat first
    [ solve [auto with woml]
    | apply no_panic_bind; [|intros ? ?]
    | apply no_panic_map_err
    | case_match
    | match goal with |- no_panic ?m => let m' := eval red in m in change (no_panic m') end ].
