(* ===== verification/GraphSearch.v ===== *)
(** * Worklist searches

    The engine explores graphs with a worklist and a set of visited nodes.  This
    file has the loops, with fuel, and shows that the fuel their callers give is
    enough: the loops compute reachability, in whatever order they visit. *)

From stdpp Require Export relations.
From S2P Require Import Prelude.

(** Membership in a filtered list. *)
Lemma elem_of_filterb {A} (f : A → bool) l a : a ∈ List.filter f l ↔ a ∈ l ∧ f a = true.
Proof. by rewrite !list_elem_of_In, filter_In. Qed.

Lemma NoDup_filterb {A} (f : A → bool) (l : list A) : NoDup l → NoDup (List.filter f l).
Proof. rewrite !NoDup_ListNoDup. apply List.NoDup_filter. Qed.

Section loops.
Context {K : Type} `{Countable K}.

(** [VecDeque::pop_front] with [push_back], and [Vec::pop] with [push]; the head of the list is
    the next element. *)
Definition as_queue (pending new : list K) : list K := pending ++ new.
Definition as_stack (pending new : list K) : list K := reverse new ++ pending.

(** [while let Some(id) = queue.pop_front() { if !active.insert(id) { continue; } ... }]: the set
    of the nodes that are reached. *)
Fixpoint explore (fuel : nat) (successors : K → list K) (active : gset K)
    (queue : list K) : gset K :=
  match fuel with
  | O => active
  | S fuel =>
      match queue with
      | [] => active
      | id :: queue =>
          if bool_decide (id ∈ active) then explore fuel successors active queue
          else explore fuel successors ({[id]} ∪ active) (as_queue queue (successors id))
      end
  end.

(** The same loop looking for [target], which does not go beyond [terminal].  [extend] adds the
    successors of a node to the worklist. *)
Fixpoint search (fuel : nat) (extend : list K → list K → list K)
    (successors : K → list K) (terminal target : K)
    (visited : gset K) (pending : list K) : bool :=
  match fuel with
  | O => false
  | S fuel =>
      match pending with
      | [] => false
      | candidate :: pending =>
          if bool_decide (candidate ∈ visited) then
            search fuel extend successors terminal target visited pending
          else
            let visited := {[candidate]} ∪ visited in
            if candidate == target then true
            else if candidate == terminal then
              search fuel extend successors terminal target visited pending
            else
              search fuel extend successors terminal target visited (extend pending (successors candidate))
      end
  end.

(** One step of a path. *)
Definition leads (successors : K → list K) (x y : K) : Prop := y ∈ successors x.

Lemma explore_ext fuel f g active queue :
  (∀ id, f id = g id) → explore fuel f active queue = explore fuel g active queue.
Proof.
  intros Hfg. revert active queue. induction fuel as [|fuel IH]; intros active queue; simpl; [done|].
  destruct queue as [|id queue]; [done|]. case_bool_decide; [apply IH|]. by rewrite Hfg, IH.
Qed.

Lemma search_ext fuel extend f g terminal target visited pending :
  (∀ id, f id = g id) →
  search fuel extend f terminal target visited pending = search fuel extend g terminal target visited pending.
Proof.
  intros Hfg. revert visited pending. induction fuel as [|fuel IH]; intros visited pending; simpl; [done|].
  destruct pending as [|id pending]; [done|]. repeat case_bool_decide; try apply IH; [done|].
  by rewrite Hfg, IH.
Qed.

End loops.

Section reachability.
(** The edges of the graph: their ends, and whether an edge may be followed. *)
Context {K : Type} `{Countable K} {E : Type} (src dst : E → K) (follow : E → bool) (edges : list E).

Definition successors_of (id : K) : list K :=
  dst <$> List.filter (λ e, (src e == id) && follow e) edges.

(** The edges that leave nodes outside [seen]: what the worklist may still receive. *)
Definition unexplored (seen : gset K) : nat :=
  length (List.filter (λ e, negb (bool_decide (src e ∈ seen))) edges).

Lemma unexplored_le seen : unexplored seen ≤ length edges.
Proof using Type. clear dst follow. unfold unexplored. induction edges as [|e l IH]; simpl; [done|]. case_match; simpl; lia. Qed.

Lemma unexplored_visit seen id :
  id ∉ seen → unexplored ({[id]} ∪ seen) + length (successors_of id) ≤ unexplored seen.
Proof.
  intros Hid. unfold unexplored, successors_of. rewrite length_fmap.
  induction edges as [|e l IH]; simpl; [done|].
  destruct (decide (src e = id)) as [He|He].
  - rewrite bool_decide_true by set_solver. rewrite (bool_decide_true (src e = id)) by done.
    rewrite bool_decide_false by congruence. destruct (follow e); simpl; lia.
  - rewrite (bool_decide_false (src e = id)) by done. simpl.
    destruct (decide (src e ∈ seen)).
    + rewrite !bool_decide_true by set_solver. simpl. lia.
    + rewrite !bool_decide_false by set_solver. simpl. lia.
Qed.

Lemma unexplored_mono seen seen' : seen ⊆ seen' → unexplored seen' ≤ unexplored seen.
Proof using Type.
  clear dst follow. intros Hs. unfold unexplored. induction edges as [|e l IH]; simpl; [done|].
  destruct (decide (src e ∈ seen)).
  - rewrite !bool_decide_true by set_solver. simpl. lia.
  - rewrite (bool_decide_false (src e ∈ seen)) by done. case_bool_decide; simpl; lia.
Qed.

(** The nodes that a path from the worklist reaches. *)
Definition reached_from (queue : list K) (x : K) : Prop :=
  ∃ start, start ∈ queue ∧ rtc (leads successors_of) start x.

(** What has been seen leads only to what has been seen or is in the worklist. *)
Definition closed (seen : gset K) (queue : list K) : Prop :=
  ∀ x y, x ∈ seen → y ∈ successors_of x → y ∈ seen ∨ y ∈ queue.

(** A node of the worklist that was seen before leads to nothing new. *)
Lemma closed_skip seen id queue :
  closed seen (id :: queue) → id ∈ seen → closed seen queue.
Proof.
  intros Hc Hid a b Ha Hb. destruct (Hc a b Ha Hb) as [?|Hq]; [auto|].
  apply elem_of_cons in Hq as [->|?]; auto.
Qed.

Lemma closed_reached seen queue x y :
  closed seen queue → x ∈ seen → rtc (leads successors_of) x y → y ∈ seen ∨ reached_from queue y.
Proof.
  intros Hc Hx Hxy. induction Hxy as [|a b c Hab Hbc IH]; [auto|].
  destruct (Hc a b Hx Hab) as [Hb|Hb]; [by apply IH|]. right. by exists b.
Qed.

(** With enough fuel the loop adds exactly the nodes that the worklist reaches. *)
Lemma explore_spec fuel active queue :
  length queue + unexplored active < fuel → closed active queue →
  ∀ x, x ∈ explore fuel successors_of active queue ↔ x ∈ active ∨ reached_from queue x.
Proof.
  revert active queue. induction fuel as [|fuel IH]; intros active queue Hfuel Hclosed x; [lia|].
  simpl. destruct queue as [|id queue].
  { split; [auto|]. intros [?|(start & Hs & _)]; [done|set_solver]. }
  simpl in Hfuel. case_bool_decide as Hid.
  - rewrite IH; [|lia|].
    + split; [intros [?|(s & ? & ?)]; [auto|right; exists s; set_solver]|].
      intros [?|(s & Hs & Hsx)]; [auto|]. apply elem_of_cons in Hs as [->|Hs]; [|right; by exists s].
      eapply closed_reached; [|done..]. by eapply closed_skip.
    + by eapply closed_skip.
  - pose proof (unexplored_visit active id Hid) as Hu.
    rewrite IH; [|unfold as_queue; rewrite length_app; lia|].
    + unfold reached_from, as_queue. split.
      * intros [Hx|(s & [Hs|Hs]%elem_of_app & Hsx)].
        -- apply elem_of_union in Hx as [->%elem_of_singleton|?]; [|auto].
           right. exists id. split; [left|done].
        -- right. exists s. split; [by right|done].
        -- right. exists id. split; [left|]. by eapply rtc_l.
      * intros [?|(s & Hs & Hsx)]; [set_solver|]. apply elem_of_cons in Hs as [->|Hs].
        -- apply rtc_inv in Hsx as [->|(y & Hy & Hyx)]; [set_solver|].
           right. exists y. split; [|done]. apply elem_of_app. by right.
        -- right. exists s. split; [|done]. apply elem_of_app. by left.
    + intros a b Ha Hb. unfold as_queue. apply elem_of_union in Ha as [->%elem_of_singleton|Ha].
      * right. apply elem_of_app. by right.
      * destruct (Hclosed a b Ha Hb) as [?|Hq]; [set_solver|].
        apply elem_of_cons in Hq as [->|?]; [set_solver|]. right. apply elem_of_app. by left.
Qed.

(** From nothing, the loop computes the nodes the worklist reaches. *)
Lemma explore_reached queue x :
  x ∈ explore (S (length queue + length edges)) successors_of ∅ queue ↔ reached_from queue x.
Proof.
  rewrite explore_spec.
  - set_solver.
  - pose proof (unexplored_le ∅). lia.
  - intros ? ? ?. set_solver.
Qed.
End reachability.

Section bounded_search.
Context {K : Type} `{Countable K} {E : Type} (src dst : E → K) (edges : list E) (terminal target : K).

(** The paths of a search stop at the terminal node. *)
Definition before_terminal (e : E) : bool := src e != terminal.
Abbreviation step := (leads (successors_of src dst before_terminal edges)).

Lemma successors_before_terminal id :
  successors_of src dst before_terminal edges id =
    if decide (id = terminal) then [] else successors_of src dst (λ _, true) edges id.
Proof.
  unfold successors_of, before_terminal. case_decide as Hid.
  - induction edges as [|e l IH]; simpl; [done|]. subst id. by case_bool_decide.
  - f_equal. induction edges as [|e l IH]; simpl; [done|].
    destruct (decide (src e = id)) as [He|He].
    + rewrite (bool_decide_true (src e = id)), (bool_decide_false (src e = terminal)) by congruence.
      simpl. by rewrite IH.
    + by rewrite (bool_decide_false (src e = id)).
Qed.

(** A search answers whether a path from the worklist reaches the target. *)
Lemma search_spec extend fuel visited pending :
  (∀ pending new x, x ∈ extend pending new ↔ x ∈ pending ∨ x ∈ new) →
  (∀ pending new, length (extend pending new) = length pending + length new) →
  length pending + unexplored src edges visited < fuel →
  closed src dst before_terminal edges visited pending → target ∉ visited →
  search fuel extend (successors_of src dst (λ _, true) edges) terminal target visited pending = true
  ↔ reached_from src dst before_terminal edges pending target.
Proof.
  intros Hin Hlen. revert visited pending.
  induction fuel as [|fuel IH]; intros visited pending Hfuel Hclosed Ht; [lia|].
  simpl. destruct pending as [|id pending].
  { split; [done|]. intros (s & Hs & _). set_solver. }
  simpl in Hfuel. case_bool_decide as Hid.
  { rewrite IH; [|lia| |done].
    - split; [intros (s & ? & ?); exists s; set_solver|].
      intros (s & Hs & Hst). apply elem_of_cons in Hs as [->|Hs]; [|by exists s].
      apply closed_skip in Hclosed; [|done].
      by destruct (closed_reached _ _ _ _ _ _ _ _ Hclosed Hid Hst).
    - by eapply closed_skip. }
  assert (∀ s, rtc step s target → s = id → id ≠ target →
            ∃ y, y ∈ successors_of src dst before_terminal edges id ∧ rtc step y target) as Hfirst.
  { intros s Hs -> Hne. apply rtc_inv in Hs as [?|(y & ? & ?)]; [done|by exists y]. }
  case_bool_decide as Htarget.
  { split; [|done]. intros _. subst id. exists target. split; [left|done]. }
  case_bool_decide as Hterminal.
  - rewrite IH; [| | |set_solver].
    + split; [intros (s & ? & ?); exists s; split; [by right|done]|].
      intros (s & Hs & Hst). apply elem_of_cons in Hs as [Hs|Hs]; [|by exists s].
      destruct (Hfirst s Hst Hs Htarget) as (y & Hy & _).
      rewrite successors_before_terminal, decide_True in Hy by done. set_solver.
    + assert (unexplored src edges ({[id]} ∪ visited) ≤ unexplored src edges visited); [|lia].
      apply unexplored_mono. set_solver.
    + intros a b Ha Hb. apply elem_of_union in Ha as [->%elem_of_singleton|Ha].
      * rewrite successors_before_terminal, decide_True in Hb by done. set_solver.
      * destruct (Hclosed a b Ha Hb) as [?|Hq]; [set_solver|].
        apply elem_of_cons in Hq as [->|?]; [set_solver|auto].
  - assert (successors_of src dst before_terminal edges id = successors_of src dst (λ _, true) edges id) as Hsucc.
    { by rewrite successors_before_terminal, decide_False. }
    rewrite IH; [| | |set_solver].
    + split.
      * intros (s & Hs & Hst). apply Hin in Hs as [Hs|Hs]; [exists s; split; [by right|done]|].
        exists id. split; [left|]. eapply rtc_l; [|done]. unfold leads. by rewrite Hsucc.
      * intros (s & Hs & Hst). apply elem_of_cons in Hs as [Hs|Hs].
        -- destruct (Hfirst s Hst Hs Htarget) as (y & Hy & Hyt). exists y. rewrite Hin.
           rewrite <-Hsucc. auto.
        -- exists s. rewrite Hin. auto.
    + rewrite Hlen. pose proof (unexplored_visit src dst (λ _, true) edges visited id Hid). lia.
    + intros a b Ha Hb. rewrite Hin. apply elem_of_union in Ha as [->%elem_of_singleton|Ha].
      * rewrite Hsucc in Hb. auto.
      * destruct (Hclosed a b Ha Hb) as [?|Hq]; [set_solver|].
        apply elem_of_cons in Hq as [->|?]; [set_solver|auto].
Qed.

Lemma as_queue_elem (pending new : list K) x : x ∈ as_queue pending new ↔ x ∈ pending ∨ x ∈ new.
Proof. apply elem_of_app. Qed.
Lemma as_stack_elem (pending new : list K) x : x ∈ as_stack pending new ↔ x ∈ pending ∨ x ∈ new.
Proof. unfold as_stack. rewrite elem_of_app, elem_of_reverse. tauto. Qed.
Lemma as_queue_length (pending new : list K) : length (as_queue pending new) = length pending + length new.
Proof. apply length_app. Qed.
Lemma as_stack_length (pending new : list K) : length (as_stack pending new) = length pending + length new.
Proof. unfold as_stack. rewrite length_app, length_reverse. lia. Qed.
End bounded_search.
