(* ===== verification/Strings.v ===== *)
(** * String functions of the Rust standard library

    A Rust [String] is its UTF-8 bytes.  This file models the [str], [char] and
    [u8] methods that the event contract calls, on [string] (a list of bytes). *)

From Stdlib Require Export Ascii.
From stdpp Require Import pretty.
From S2P Require Import Prelude.

(** ** Bytes *)

(** [u8::is_ascii_digit] and the like. *)
Definition byte_in (lo hi : N) (b : Ascii.ascii) : bool := in_range lo hi (Ascii.N_of_ascii b).
Definition is_ascii_digit (b : Ascii.ascii) : bool := byte_in 48 57 b.
Definition is_ascii_uppercase (b : Ascii.ascii) : bool := byte_in 65 90 b.
Definition is_ascii_lowercase (b : Ascii.ascii) : bool := byte_in 97 122 b.
Definition is_ascii_alphabetic (b : Ascii.ascii) : bool := is_ascii_uppercase b || is_ascii_lowercase b.
Definition is_ascii_alphanumeric (b : Ascii.ascii) : bool := is_ascii_alphabetic b || is_ascii_digit b.
(** A digit of a lower-case hexadecimal number. *)
Definition is_lower_hex (b : Ascii.ascii) : bool := is_ascii_digit b || byte_in 97 102 b.
Definition is_byte (c b : Ascii.ascii) : bool := Ascii.eqb c b.

(** [u8::to_ascii_lowercase]. *)
Definition to_lower (b : Ascii.ascii) : Ascii.ascii :=
  if is_ascii_uppercase b then Ascii.ascii_of_N (Ascii.N_of_ascii b + 32) else b.

(** ** Strings *)

(** [str::len]. *)
Definition str_len (s : string) : N := N.of_nat (String.length s).

(** [str::is_empty]. *)
Definition str_is_empty (s : string) : bool :=
  match s with EmptyString => true | _ => false end.

(** [bytes().all(f)]. *)
Fixpoint bytes_all (f : Ascii.ascii → bool) (s : string) : bool :=
  match s with EmptyString => true | String b s => f b && bytes_all f s end.

(** [as_bytes().first()] satisfies [f]. *)
Definition first_byte (f : Ascii.ascii → bool) (s : string) : bool :=
  match s with String b _ => f b | EmptyString => false end.

(** The bytes after the first. *)
Definition tail (s : string) : string :=
  match s with String _ s => s | EmptyString => EmptyString end.

(** [as_bytes().last()]. *)
Fixpoint last_byte (s : string) : option Ascii.ascii :=
  match s with
  | EmptyString => None
  | String b EmptyString => Some b
  | String _ s => last_byte s
  end.

(** [str::starts_with]. *)
Definition starts_with (prefix s : string) : bool := String.prefix prefix s.

(** [str::strip_prefix]. *)
Fixpoint strip_prefix (prefix value : string) : option string :=
  match prefix, value with
  | EmptyString, _ => Some value
  | String a prefix, String b value => if Ascii.eqb a b then strip_prefix prefix value else None
  | String _ _, EmptyString => None
  end.

Lemma strip_prefix_app p s : strip_prefix p (p +:+ s) = Some s.
Proof. induction p as [|a p IH]; simpl; [done|]. by rewrite Ascii.eqb_refl. Qed.

Lemma strip_prefix_Some p s r : strip_prefix p s = Some r → s = p +:+ r.
Proof.
  revert s. induction p as [|a p IH]; intros s; simpl; [by intros [= ->]|]. destruct s as [|b s]; [done|].
  destruct (Ascii.eqb_spec a b); [|done]. intros Hr%IH. by subst.
Qed.

Lemma starts_with_app prefix s : starts_with prefix (prefix +:+ s) = true.
Proof.
  unfold starts_with. induction prefix as [|b prefix IH]; simpl; [by destruct s|].
  by rewrite IH; case_match.
Qed.

Lemma str_len_app s t : str_len (s +:+ t) = (str_len s + str_len t)%N.
Proof. unfold str_len. induction s as [|b s IH]; simpl; [done|]. lia. Qed.

Lemma substring_all s : String.substring 0 (String.length s) s = s.
Proof. induction s as [|b s IH]; simpl; [done|]. by rewrite IH. Qed.

(** [str::strip_suffix]. *)
Definition strip_suffix (suffix value : string) : option string :=
  let keep := String.length value - String.length suffix in
  if (String.length suffix <=? String.length value)%nat
     && String.eqb (String.substring keep (String.length suffix) value) suffix
  then Some (String.substring 0 keep value)
  else None.

(** [str::split] at the bytes that satisfy [f]; the empty string has one segment. *)
Fixpoint split (f : Ascii.ascii → bool) (s : string) : list string :=
  match s with
  | EmptyString => [EmptyString]
  | String b s =>
      if f b then EmptyString :: split f s
      else match split f s with
           | segment :: segments => String b segment :: segments
           | [] => [String b EmptyString]
           end
  end.

(** [str::split_once]. *)
Definition split_once (pattern s : string) : option (string * string) :=
  match String.index 0 pattern s with
  | Some n =>
      let after := n + String.length pattern in
      Some (String.substring 0 n s,
            String.substring after (String.length s - after) s)
  | None => None
  end.

(** [str::to_ascii_lowercase]. *)
Fixpoint to_ascii_lowercase (s : string) : string :=
  match s with EmptyString => EmptyString | String b s => String (to_lower b) (to_ascii_lowercase s) end.

(** Some window of two bytes is the given pair: [windows(2).any(..)]. *)
Fixpoint has_pair (x y : Ascii.ascii) (s : string) : bool :=
  match s with
  | String a (String b _ as s) => (Ascii.eqb a x && Ascii.eqb b y) || has_pair x y s
  | _ => false
  end.

(** [str::parse::<u64>] of a non-empty string of digits. *)
Fixpoint digits_value (acc : N) (s : string) : N :=
  match s with
  | EmptyString => acc
  | String b s => digits_value (acc * 10 + (Ascii.N_of_ascii b - 48)) s
  end.
Definition parse_u64 (s : string) : option N :=
  if negb (str_is_empty s) && bytes_all is_ascii_digit s && (digits_value 0 s <? 2 ^ 64)%N
  then Some (digits_value 0 s) else None.

(** [str::parse::<usize>] (64-bit): one optional sign [+] before the digits. *)
Definition parse_usize (s : string) : option N :=
  match s with
  | String b s' => if Ascii.eqb b "+"%char then parse_u64 s' else parse_u64 s
  | EmptyString => None
  end.

(** [str::ends_with]. *)
Definition ends_with (suffix s : string) : bool :=
  match strip_suffix suffix s with Some _ => true | None => false end.

(** [str::contains]. *)
Definition str_contains (pattern s : string) : bool :=
  match String.index 0 pattern s with Some _ => true | None => false end.

(** [str::replace] of a non-empty pattern: every non-overlapping occurrence, from the left;
    [skip] bytes of the occurrence found last remain to be dropped. *)
Fixpoint replace_from (skip : nat) (pattern to s : string) : string :=
  match s with
  | EmptyString => EmptyString
  | String b s' =>
      match skip with
      | S skip => replace_from skip pattern to s'
      | O => if starts_with pattern s
             then to +:+ replace_from (pred (String.length pattern)) pattern to s'
             else String b (replace_from 0 pattern to s')
      end
  end.
Definition str_replace (pattern to s : string) : string := replace_from 0 pattern to s.

(** [format!("{n}")] of an unsigned integer. *)
Definition decimal (n : N) : string := pretty n.

(** [str::parse::<u32>]. *)
Definition parse_u32 (text : string) : option N :=
  n ← parse_usize text; if (n <? u32_modulus)%N then Some n else None.

(** [i64::to_string], the range of [i64] and [i64::checked_add]. *)
Definition i64_to_string (z : Z) : string := pretty z.
Definition in_i64 (z : Z) : bool := ((- 2 ^ 63 <=? z) && (z <? 2 ^ 63))%Z.
Definition i64_checked_add (a b : Z) : option Z :=
  if in_i64 (a + b) then Some (a + b)%Z else None.

(** ** Characters *)

(** [str::chars]: the code points of a UTF-8 string. *)
Definition continuation (b : Ascii.ascii) : N := N.land (Ascii.N_of_ascii b) 63.
Fixpoint chars (s : string) : list N :=
  match s with
  | EmptyString => []
  | String a s1 =>
      let n := Ascii.N_of_ascii a in
      if (n <? 128)%N then n :: chars s1
      else match s1 with
           | EmptyString => []
           | String b s2 =>
               if (n <? 224)%N
               then N.lor (N.shiftl (N.land n 31) 6) (continuation b) :: chars s2
               else match s2 with
                    | EmptyString => []
                    | String c s3 =>
                        if (n <? 240)%N
                        then N.lor (N.shiftl (N.land n 15) 12)
                               (N.lor (N.shiftl (continuation b) 6) (continuation c)) :: chars s3
                        else match s3 with
                             | EmptyString => []
                             | String d s4 =>
                                 N.lor (N.shiftl (N.land n 7) 18)
                                   (N.lor (N.shiftl (continuation b) 12)
                                      (N.lor (N.shiftl (continuation c) 6) (continuation d)))
                                 :: chars s4
                             end
                    end
           end
  end.

(** [chars().count()]. *)
Definition chars_count (s : string) : N := N.of_nat (length (chars s)).

(** [char::is_whitespace]: the Unicode property White_Space. *)
Definition is_whitespace (c : N) : bool :=
  in_range 9 13 c || (c =? 32)%N || (c =? 133)%N || (c =? 160)%N || (c =? 5760)%N
  || in_range 8192 8202 c || (c =? 8232)%N || (c =? 8233)%N || (c =? 8239)%N
  || (c =? 8287)%N || (c =? 12288)%N.

(** [char::is_control]: the Unicode category Cc. *)
Definition is_control (c : N) : bool := in_range 0 31 c || in_range 127 159 c.

Fixpoint drop_while {A} (f : A → bool) (l : list A) : list A :=
  match l with [] => [] | a :: l' => if f a then drop_while f l' else l end.

(** [s.trim() == s]. *)
Definition is_trimmed (s : string) : bool :=
  let cs := chars s in
  reverse (drop_while is_whitespace (reverse (drop_while is_whitespace cs))) == cs.

(** ** Separators *)

(** A string without a byte. *)
Definition free_of (c : Ascii.ascii) (s : string) : bool := bytes_all (λ b, negb (is_byte c b)) s.

Lemma string_app_assoc (a b c : string) : (a +:+ b) +:+ c = a +:+ b +:+ c.
Proof. induction a as [|x a IH]; [done|]. exact (f_equal (String x) IH). Qed.

Lemma string_app_nil (a : string) : a +:+ "" = a.
Proof. induction a as [|x a IH]; [done|]. exact (f_equal (String x) IH). Qed.

Lemma string_length_app (a b : string) : String.length (a +:+ b) = String.length a + String.length b.
Proof. induction a as [|c a IH]; simpl; [done|]. by rewrite IH. Qed.

Lemma substring_left (d s : string) : String.substring 0 (String.length d) (d +:+ s) = d.
Proof. induction d as [|a d IH]; simpl; [by destruct s|]. by rewrite IH. Qed.

Lemma substring_right (d s : string) n : String.substring (String.length d) n (d +:+ s) = String.substring 0 n s.
Proof. induction d as [|a d IH]; simpl; [done|]. by rewrite IH. Qed.

Lemma prefix_byte c a s : String.prefix (String c "") (String a s) = is_byte c a.
Proof.
  cbn [String.prefix]. unfold is_byte. destruct (Ascii.ascii_dec c a) as [->|Hn].
  - rewrite Ascii.eqb_refl. by destruct s.
  - symmetry. by apply Ascii.eqb_neq.
Qed.

Lemma index_byte_cons c a s :
  String.index 0 (String c "") (String a s)
  = if is_byte c a then Some 0 else S <$> String.index 0 (String c "") s.
Proof.
  change (String.index 0 (String c "") (String a s))
    with (if String.prefix (String c "") (String a s) then Some 0
          else match String.index 0 (String c "") s with Some n => Some (S n) | None => None end).
  rewrite prefix_byte. destruct (is_byte c a); [done|]. by destruct (String.index 0 _ s).
Qed.

Lemma index_byte c d s :
  free_of c d = true → String.index 0 (String c "") (d +:+ String c s) = Some (String.length d).
Proof.
  unfold free_of. induction d as [|a d IH]; intros Hd.
  { change (EmptyString +:+ String c s) with (String c s). rewrite index_byte_cons. unfold is_byte. by rewrite Ascii.eqb_refl. }
  simpl in Hd. apply andb_true_iff in Hd as [Ha Hd].
  change (String a d +:+ String c s) with (String a (d +:+ String c s)).
  rewrite index_byte_cons, IH by done. by destruct (is_byte c a).
Qed.

Lemma index_free c s : free_of c s = true → String.index 0 (String c "") s = None.
Proof.
  unfold free_of. induction s as [|a s IH]; intros Hs; [done|].
  simpl in Hs. apply andb_true_iff in Hs as [Ha Hs]. rewrite index_byte_cons, IH by done. by destruct (is_byte c a).
Qed.

Lemma split_once_byte c d s :
  free_of c d = true → split_once (String c "") (d +:+ String c s) = Some (d, s).
Proof.
  intros Hd. unfold split_once. rewrite index_byte by done. f_equal. f_equal; [apply substring_left|].
  change (String c s) with (String c "" +:+ s). rewrite <-string_app_assoc.
  rewrite <-string_length_app, substring_right, string_length_app.
  replace (String.length (d +:+ String c "") + String.length s - String.length (d +:+ String c "")) with (String.length s) by lia.
  apply substring_all.
Qed.

Lemma split_once_free c s : free_of c s = true → split_once (String c "") s = None.
Proof. intros Hs. unfold split_once. by rewrite index_free. Qed.

Lemma contains_byte c d s : free_of c d = true → str_contains (String c "") (d +:+ String c s) = true.
Proof. intros Hd. unfold str_contains. by rewrite index_byte. Qed.

Lemma contains_free c s : free_of c s = true → str_contains (String c "") s = false.
Proof. intros Hs. unfold str_contains. by rewrite index_free. Qed.

Lemma bytes_all_app f a b : bytes_all f (a +:+ b) = bytes_all f a && bytes_all f b.
Proof. induction a as [|x a IH]; [done|]. simpl. rewrite IH. by destruct (f x). Qed.

Lemma bytes_all_impl (f g : Ascii.ascii → bool) s :
  (∀ b, f b = true → g b = true) → bytes_all f s = true → bytes_all g s = true.
Proof.
  intros Hfg. induction s as [|a s IH]; [done|]. simpl. intros [Ha Hs]%andb_true_iff.
  by rewrite (Hfg a), IH.
Qed.

Lemma bytes_all_concat f sep l :
  bytes_all f sep = true → Forall (λ s, bytes_all f s = true) l →
  bytes_all f (String.concat sep l) = true.
Proof.
  intros Hsep. induction 1 as [|s l Hs Hl IH]; [done|]. destruct l as [|t l]; [done|].
  change (String.concat sep (s :: t :: l)) with (s +:+ (sep +:+ String.concat sep (t :: l))).
  by rewrite !bytes_all_app, Hs, Hsep, IH.
Qed.

Lemma split_free c s : free_of c s = true → split (is_byte c) s = [s].
Proof.
  unfold free_of. induction s as [|a s IH]; [done|]. simpl. intros [Ha Hs]%andb_true_iff.
  destruct (is_byte c a); [done|]. by rewrite IH.
Qed.

Lemma split_byte c d s : free_of c d = true → split (is_byte c) (d +:+ String c s) = d :: split (is_byte c) s.
Proof.
  unfold free_of. induction d as [|a d IH]; intros Hd.
  - change (EmptyString +:+ String c s) with (String c s). simpl. unfold is_byte at 1. by rewrite Ascii.eqb_refl.
  - simpl in Hd. apply andb_true_iff in Hd as [Ha Hd].
    change (String a d +:+ String c s) with (String a (d +:+ String c s)). simpl.
    destruct (is_byte c a); [done|]. by rewrite IH.
Qed.

Lemma split_concat c l :
  l ≠ [] → Forall (λ s, free_of c s = true) l → split (is_byte c) (String.concat (String c "") l) = l.
Proof.
  intros Hl Hf. induction Hf as [|s l Hs Hf IH]; [done|]. destruct l as [|s' l].
  - simpl. by apply split_free.
  - change (String.concat (String c "") (s :: s' :: l)) with (s +:+ String c (String.concat (String c "") (s' :: l))).
    by rewrite split_byte, IH.
Qed.

Lemma digits_free c d : is_ascii_digit c = false → bytes_all is_ascii_digit d = true → free_of c d = true.
Proof.
  intros Hc. apply bytes_all_impl. intros b Hb. unfold is_byte. destruct (Ascii.eqb_spec c b) as [->|]; [congruence|done].
Qed.

(** Two bytes in a row. *)
Lemma contains_pair c d s : str_contains (String c (String d "")) s = has_pair c d s.
Proof.
  unfold str_contains. induction s as [|a s IH]; [done|].
  change (String.index 0 (String c (String d "")) (String a s))
    with (if String.prefix (String c (String d "")) (String a s) then Some 0
          else match String.index 0 (String c (String d "")) s with Some n => Some (S n) | None => None end).
  destruct s as [|b s].
  { cbn [String.prefix]. by destruct (Ascii.ascii_dec c a). }
  assert (String.prefix (String c (String d "")) (String a (String b s)) = Ascii.eqb a c && Ascii.eqb b d) as ->.
  { cbn [String.prefix]. destruct (Ascii.ascii_dec c a) as [->|Hn].
    - rewrite Ascii.eqb_refl. destruct (Ascii.ascii_dec d b) as [->|Hn]; [rewrite Ascii.eqb_refl; by destruct s|].
      symmetry. by apply Ascii.eqb_neq.
    - symmetry. rewrite andb_false_iff. left. by apply Ascii.eqb_neq. }
  change (has_pair c d (String a (String b s))) with ((Ascii.eqb a c && Ascii.eqb b d) || has_pair c d (String b s)).
  rewrite <-IH. destruct (_ && _); [done|]. by destruct (String.index 0 _ (String b s)).
Qed.

Lemma has_pair_free c s r : free_of c s = true → has_pair c c (s +:+ r) = has_pair c c r.
Proof.
  unfold free_of. induction s as [|a s IH]; [done|]. simpl. intros [Ha Hs]%andb_true_iff.
  change (String a s +:+ r) with (String a (s +:+ r)). rewrite <-(IH Hs).
  destruct (s +:+ r) as [|b t] eqn:Hr; [done|]. unfold is_byte in Ha.
  simpl. by rewrite Ascii.eqb_sym, (proj1 (negb_true_iff _) Ha).
Qed.

Lemma has_pair_concat c l :
  Forall (λ s, free_of c s = true ∧ s ≠ "") l → has_pair c c (String.concat (String c "") l) = false.
Proof.
  induction 1 as [|s l [Hs Hne] Hf IH]; [done|]. destruct l as [|s' l].
  { simpl. rewrite <-(string_app_nil s). by rewrite has_pair_free. }
  change (String.concat (String c "") (s :: s' :: l)) with (s +:+ String c (String.concat (String c "") (s' :: l))).
  rewrite has_pair_free by done. inversion Hf as [|?? [Hs' Hne'] _]; subst.
  destruct (String.concat (String c "") (s' :: l)) as [|b r] eqn:Hc; [done|].
  change (has_pair c c (String c (String b r))) with ((Ascii.eqb c c && Ascii.eqb b c) || has_pair c c (String b r)).
  rewrite IH, orb_false_r. assert (Ascii.eqb b c = false) as ->; [|by rewrite andb_false_r].
  destruct s' as [|b' s']; [done|]. unfold free_of in Hs'. simpl in Hs'. apply andb_true_iff in Hs' as [Hb _].
  assert (b = b') as ->.
  { destruct l as [|s2 l]; [by injection Hc|].
    change (String b' (s' +:+ String c (String.concat (String c "") (s2 :: l))) = String b r) in Hc. by injection Hc. }
  rewrite Ascii.eqb_sym. by apply negb_true_iff.
Qed.
