(* ===== verification/Json.v ===== *)
(** * JSON values

    The data of [serde_json] that the engine stores and compares: [Value],
    [Number] and [Map].  The crate is built with the [preserve_order] feature,
    so a [Map] keeps insertion order and replacing a key keeps its position. *)

From S2P Require Import Prelude.

Module Number.
Inductive Number :=
| PosInt (n : N)
| NegInt (z : Z)
| Float (x : f64).
End Number.
Abbreviation Number := Number.Number.

Module Value.
Inductive Value :=
| Null
| Bool (b : bool)
| Number (n : Number)
| String (s : string)
| Array (values : list Value)
| Object (entries : list (string * Value)).
End Value.
Abbreviation Value := Value.Value.

(** [serde_json::Map<String, Value>]. *)
Abbreviation Map := (list (string * Value)).

(** [Map::get]. *)
Fixpoint map_get (m : Map) (k : string) : option Value :=
  match m with
  | [] => None
  | (k', v) :: m => if decide (k = k') then Some v else map_get m k
  end.

(** [Map::insert]: an existing key keeps its position. *)
Fixpoint map_insert (m : Map) (k : string) (v : Value) : Map :=
  match m with
  | [] => [(k, v)]
  | (k', v') :: m => if decide (k = k') then (k', v) :: m else (k', v') :: map_insert m k v
  end.

(** [Map::contains_key]. *)
Definition map_contains_key (m : Map) (k : string) : bool :=
  match map_get m k with Some _ => true | None => false end.

(** [Value::is_object]. *)
Definition is_object (v : Value) : bool :=
  match v with Value.Object _ => true | _ => false end.

(** [Value::as_str], [Value::as_object], [Value::as_u64] and [Value::is_string]. *)
Definition as_str (v : Value) : option string :=
  match v with Value.String s => Some s | _ => None end.
Definition as_object (v : Value) : option Map :=
  match v with Value.Object m => Some m | _ => None end.
Definition as_u64 (v : Value) : option N :=
  match v with Value.Number (Number.PosInt n) => Some n | _ => None end.
Definition is_string (v : Value) : bool := is_some (as_str v).

(** [Value::from(u32)]. *)
Definition value_from_u32 (n : N) : Value := Value.Number (Number.PosInt n).

Lemma map_get_insert_eq m k v : map_get (map_insert m k v) k = Some v.
Proof.
  induction m as [|[k' v'] m IH]; simpl; [by rewrite decide_True|].
  case_decide; simpl; [by rewrite decide_True|by rewrite decide_False].
Qed.

Lemma map_get_insert_ne m k k' v :
  k ≠ k' → map_get (map_insert m k v) k' = map_get m k'.
Proof.
  intros Hne. induction m as [|[j w] m IH]; simpl; [by rewrite decide_False|].
  case_decide as Hj; simpl; [subst; by rewrite !decide_False by congruence|].
  by rewrite IH.
Qed.

Lemma map_contains_key_insert m k k' v :
  map_contains_key (map_insert m k v) k' = bool_decide (k = k') || map_contains_key m k'.
Proof.
  unfold map_contains_key. case_bool_decide; simpl.
  - subst. by rewrite map_get_insert_eq.
  - by rewrite map_get_insert_ne.
Qed.

(** The keys of a map stay distinct under [insert]. *)
Lemma map_insert_keys m k v :
  (map_insert m k v).*1 = if decide (k ∈ m.*1) then m.*1 else m.*1 ++ [k].
Proof.
  induction m as [|[j w] m IH]; csimpl; [done|].
  destruct (decide (k = j)) as [->|Hj]; csimpl.
  - rewrite decide_True by left. reflexivity.
  - rewrite IH. repeat case_decide; set_solver.
Qed.

Lemma map_insert_NoDup m k v : NoDup m.*1 → NoDup (map_insert m k v).*1.
Proof.
  intros. rewrite map_insert_keys. case_decide; [done|].
  apply NoDup_app. split_and!; [done|set_solver|apply NoDup_singleton].
Qed.
