(* ===== verification/EventTypes.v ===== *)
(** * Run events

    The durable event contract of event.rs and its private children: one record
    per event payload, one inductive type per Rust enum, with the source's field
    and constructor names.  A Rust path [T::C] reads [T.C] here, and [x.f] reads
    [x.(T.f)]. *)

From S2P Require Import Prelude Json.

(** [CapabilityFailureKind], capability/contracts.rs. *)
Module CapabilityFailureKind.
Inductive CapabilityFailureKind :=
| InvalidInput
| InvalidResult
| UnsupportedCapability
| UnsupportedOperation
| UnsupportedVersion
| InputTooLarge
| ResultTooLarge
| FrameTooLarge
| TimedOut
| Cancelled
| HandlerCrashed
| WorkerCrashed
| HostCrashed
| TransportFailed
| ServiceRejected
| Interrupted
| Ambiguous.
#[global] Instance CapabilityFailureKind_eq_dec : EqDecision CapabilityFailureKind.
Proof. solve_decision. Defined.
End CapabilityFailureKind.
Abbreviation CapabilityFailureKind := CapabilityFailureKind.CapabilityFailureKind.

(** [CapabilityFailure], capability/contracts.rs. *)
Module CapabilityFailure.
Record CapabilityFailure := mk {
  kind : CapabilityFailureKind;
  code : string;
  message : string;
  retryable : bool;
  ambiguous : bool;
  details : option Map
}.
End CapabilityFailure.
Abbreviation CapabilityFailure := CapabilityFailure.CapabilityFailure.

(** [RemoteDispatchStateV1], remote_dispatch/contracts.rs. *)
Module RemoteDispatchStateV1.
Inductive RemoteDispatchStateV1 :=
| Requested
| Offered
| Accepted
| Started
| CancelRequested
| Succeeded
| Failed
| Cancelled
| Ambiguous
| Abandoned.
#[global] Instance RemoteDispatchStateV1_eq_dec : EqDecision RemoteDispatchStateV1.
Proof. solve_decision. Defined.
End RemoteDispatchStateV1.
Abbreviation RemoteDispatchStateV1 := RemoteDispatchStateV1.RemoteDispatchStateV1.

(** [InfrastructurePolicyEffectV1], infrastructure_policy.rs. *)
Module InfrastructurePolicyEffectV1.
Inductive InfrastructurePolicyEffectV1 :=
| Read
| IdempotentWrite
| UnsafeWrite.
#[global] Instance InfrastructurePolicyEffectV1_eq_dec : EqDecision InfrastructurePolicyEffectV1.
Proof. solve_decision. Defined.
End InfrastructurePolicyEffectV1.
Abbreviation InfrastructurePolicyEffectV1 := InfrastructurePolicyEffectV1.InfrastructurePolicyEffectV1.

(** [InfrastructurePolicyExecutionModeV1], infrastructure_policy.rs. *)
Module InfrastructurePolicyExecutionModeV1.
Inductive InfrastructurePolicyExecutionModeV1 :=
| Normal
| Compensation
| Cleanup
| Recovery.
#[global] Instance InfrastructurePolicyExecutionModeV1_eq_dec : EqDecision InfrastructurePolicyExecutionModeV1.
Proof. solve_decision. Defined.
End InfrastructurePolicyExecutionModeV1.
Abbreviation InfrastructurePolicyExecutionModeV1 := InfrastructurePolicyExecutionModeV1.InfrastructurePolicyExecutionModeV1.

(** [InfrastructurePolicyDecisionOutcomeV1], infrastructure_policy_runtime.rs. *)
Module InfrastructurePolicyDecisionOutcomeV1.
Inductive InfrastructurePolicyDecisionOutcomeV1 :=
| Allow
| Deny
| RequirementsUnsatisfied.
#[global] Instance InfrastructurePolicyDecisionOutcomeV1_eq_dec : EqDecision InfrastructurePolicyDecisionOutcomeV1.
Proof. solve_decision. Defined.
End InfrastructurePolicyDecisionOutcomeV1.
Abbreviation InfrastructurePolicyDecisionOutcomeV1 := InfrastructurePolicyDecisionOutcomeV1.InfrastructurePolicyDecisionOutcomeV1.

(** [InfrastructurePolicyReasonCodeV1], infrastructure_policy_runtime.rs. *)
Module InfrastructurePolicyReasonCodeV1.
Inductive InfrastructurePolicyReasonCodeV1 :=
| ExplicitDeny
| ExplicitAllow
| DefaultAllow
| DefaultDeny
| EnvironmentMismatch
| RequirementsUnsatisfied
| EvaluationBudgetExhausted
| InputUnsupported
| EmergencyDeny.
#[global] Instance InfrastructurePolicyReasonCodeV1_eq_dec : EqDecision InfrastructurePolicyReasonCodeV1.
Proof. solve_decision. Defined.
End InfrastructurePolicyReasonCodeV1.
Abbreviation InfrastructurePolicyReasonCodeV1 := InfrastructurePolicyReasonCodeV1.InfrastructurePolicyReasonCodeV1.

(** [InfrastructurePolicyEmergencyDenyV1], infrastructure_policy_runtime.rs. *)
Module InfrastructurePolicyEmergencyDenyV1.
Record InfrastructurePolicyEmergencyDenyV1 := mk {
  policy_id : string;
  policy_version : string;
  policy_digest : string;
  matched_rule_ids : list string
}.
#[global] Instance InfrastructurePolicyEmergencyDenyV1_eq_dec : EqDecision InfrastructurePolicyEmergencyDenyV1.
Proof. solve_decision. Defined.
End InfrastructurePolicyEmergencyDenyV1.
Abbreviation InfrastructurePolicyEmergencyDenyV1 := InfrastructurePolicyEmergencyDenyV1.InfrastructurePolicyEmergencyDenyV1.

(** [InfrastructurePolicyRequirementStatusV1], infrastructure_policy_runtime.rs. *)
Module InfrastructurePolicyRequirementStatusV1.
Inductive InfrastructurePolicyRequirementStatusV1 :=
| Satisfied
| Unsatisfied.
#[global] Instance InfrastructurePolicyRequirementStatusV1_eq_dec : EqDecision InfrastructurePolicyRequirementStatusV1.
Proof. solve_decision. Defined.
End InfrastructurePolicyRequirementStatusV1.
Abbreviation InfrastructurePolicyRequirementStatusV1 := InfrastructurePolicyRequirementStatusV1.InfrastructurePolicyRequirementStatusV1.

(** [InfrastructurePolicyRequirementResultV1], infrastructure_policy_runtime.rs. *)
Module InfrastructurePolicyRequirementResultV1.
Record InfrastructurePolicyRequirementResultV1 := mk {
  rule_id : string;
  requirement : string;
  status : InfrastructurePolicyRequirementStatusV1;
  required : N;
  received : N
}.
#[global] Instance InfrastructurePolicyRequirementResultV1_eq_dec : EqDecision InfrastructurePolicyRequirementResultV1.
Proof. solve_decision. Defined.
End InfrastructurePolicyRequirementResultV1.
Abbreviation InfrastructurePolicyRequirementResultV1 := InfrastructurePolicyRequirementResultV1.InfrastructurePolicyRequirementResultV1.

(** [InfrastructurePolicySafeOperationSummaryV1], infrastructure_policy_runtime.rs. *)
Module InfrastructurePolicySafeOperationSummaryV1.
Record InfrastructurePolicySafeOperationSummaryV1 := mk {
  workflow_id : string;
  capability : string;
  operation : string;
  effect : InfrastructurePolicyEffectV1;
  target : option string;
  executable : option string;
  execution_mode : InfrastructurePolicyExecutionModeV1
}.
#[global] Instance InfrastructurePolicySafeOperationSummaryV1_eq_dec : EqDecision InfrastructurePolicySafeOperationSummaryV1.
Proof. solve_decision. Defined.
End InfrastructurePolicySafeOperationSummaryV1.
Abbreviation InfrastructurePolicySafeOperationSummaryV1 := InfrastructurePolicySafeOperationSummaryV1.InfrastructurePolicySafeOperationSummaryV1.

(** [InfrastructurePolicyDecisionRecordV1], infrastructure_policy_runtime.rs. *)
Module InfrastructurePolicyDecisionRecordV1.
Record InfrastructurePolicyDecisionRecordV1 := mk {
  contract : string;
  contract_version : N;
  decision_id : string;
  policy_id : string;
  policy_version : string;
  policy_digest : string;
  descriptor_digest : string;
  outcome : InfrastructurePolicyDecisionOutcomeV1;
  matched_rule_ids : list string;
  operation : InfrastructurePolicySafeOperationSummaryV1;
  reason_codes : list InfrastructurePolicyReasonCodeV1;
  requirements : list InfrastructurePolicyRequirementResultV1;
  explanation : string;
  emergency_deny : option InfrastructurePolicyEmergencyDenyV1;
  evaluated_at : DateTime;
  evaluation_duration_micros : N;
  evaluation_instructions : N
}.
#[global] Instance InfrastructurePolicyDecisionRecordV1_eq_dec : EqDecision InfrastructurePolicyDecisionRecordV1.
Proof. solve_decision. Defined.
End InfrastructurePolicyDecisionRecordV1.
Abbreviation InfrastructurePolicyDecisionRecordV1 := InfrastructurePolicyDecisionRecordV1.InfrastructurePolicyDecisionRecordV1.

(** [LifecycleEventName], model/lifecycle.rs. *)
Module LifecycleEventName.
Inductive LifecycleEventName :=
| RunStart
| StepStart
| StepSuccess
| StepFailure
| StepComplete
| RunSuccess
| RunFailure
| RunCancel
| RunComplete.
#[global] Instance LifecycleEventName_eq_dec : EqDecision LifecycleEventName.
Proof. solve_decision. Defined.
End LifecycleEventName.
Abbreviation LifecycleEventName := LifecycleEventName.LifecycleEventName.

(** [LifecycleEventName::is_step], model/lifecycle.rs. *)
Definition is_step (name : LifecycleEventName) : bool :=
  match name with
  | LifecycleEventName.StepStart | LifecycleEventName.StepSuccess | LifecycleEventName.StepFailure
  | LifecycleEventName.StepComplete => true
  | _ => false
  end.

(** [QueueDiscipline], model/policies.rs. *)
Module QueueDiscipline.
Inductive QueueDiscipline :=
| WorkConservingFifo.
#[global] Instance QueueDiscipline_eq_dec : EqDecision QueueDiscipline.
Proof. solve_decision. Defined.
End QueueDiscipline.
Abbreviation QueueDiscipline := QueueDiscipline.QueueDiscipline.

(** [ApprovalTimeoutPolicy], event/approvals.rs. *)
Module ApprovalTimeoutPolicy.
Inductive ApprovalTimeoutPolicy :=
| Reject
| Fail.
#[global] Instance ApprovalTimeoutPolicy_eq_dec : EqDecision ApprovalTimeoutPolicy.
Proof. solve_decision. Defined.
End ApprovalTimeoutPolicy.
Abbreviation ApprovalTimeoutPolicy := ApprovalTimeoutPolicy.ApprovalTimeoutPolicy.

(** [ApprovalRequestedData], event/approvals.rs. *)
Module ApprovalRequestedData.
Record ApprovalRequestedData := mk {
  approval_id : string;
  request_id : string;
  expires_at : option DateTime;
  on_timeout : ApprovalTimeoutPolicy
}.
#[global] Instance ApprovalRequestedData_eq_dec : EqDecision ApprovalRequestedData.
Proof. solve_decision. Defined.
End ApprovalRequestedData.
Abbreviation ApprovalRequestedData := ApprovalRequestedData.ApprovalRequestedData.

(** [ApprovalDecision], event/approvals.rs. *)
Module ApprovalDecision.
Inductive ApprovalDecision :=
| Approved
| Rejected.
#[global] Instance ApprovalDecision_eq_dec : EqDecision ApprovalDecision.
Proof. solve_decision. Defined.
End ApprovalDecision.
Abbreviation ApprovalDecision := ApprovalDecision.ApprovalDecision.

(** [ApprovalDecisionSource], event/approvals.rs. *)
Module ApprovalDecisionSource.
Inductive ApprovalDecisionSource :=
| Human
| Timeout.
#[global] Instance ApprovalDecisionSource_eq_dec : EqDecision ApprovalDecisionSource.
Proof. solve_decision. Defined.
End ApprovalDecisionSource.
Abbreviation ApprovalDecisionSource := ApprovalDecisionSource.ApprovalDecisionSource.

(** [ApprovalResolution], event/approvals.rs. *)
Module ApprovalResolution.
Inductive ApprovalResolution :=
| Decision (decision : ApprovalDecision) (source : ApprovalDecisionSource)
| TimeoutFailure.
#[global] Instance ApprovalResolution_eq_dec : EqDecision ApprovalResolution.
Proof. solve_decision. Defined.
End ApprovalResolution.
Abbreviation ApprovalResolution := ApprovalResolution.ApprovalResolution.

(** [RichApprovalResolutionReason], event/approvals.rs. *)
Module RichApprovalResolutionReason.
Inductive RichApprovalResolutionReason :=
| Quorum
| Rejection
| Timeout
| Cancellation
| ArtifactInvalidated.
#[global] Instance RichApprovalResolutionReason_eq_dec : EqDecision RichApprovalResolutionReason.
Proof. solve_decision. Defined.
End RichApprovalResolutionReason.
Abbreviation RichApprovalResolutionReason := RichApprovalResolutionReason.RichApprovalResolutionReason.

(** [ApprovalResolvedData], event/approvals.rs. *)
Module ApprovalResolvedData.
Record ApprovalResolvedData := mk {
  approval_id : string;
  request_id : string;
  resolution : option ApprovalResolution;
  review_digest : option string;
  decision : option ApprovalDecision;
  reason : option RichApprovalResolutionReason;
  required : option N;
  received : option N;
  required_roles : option (list string);
  represented_roles : option (list string)
}.
#[global] Instance ApprovalResolvedData_eq_dec : EqDecision ApprovalResolvedData.
Proof. solve_decision. Defined.
End ApprovalResolvedData.
Abbreviation ApprovalResolvedData := ApprovalResolvedData.ApprovalResolvedData.

(** [ApprovalReviewRequestedData], event/approvals.rs. *)
Module ApprovalReviewRequestedData.
Record ApprovalReviewRequestedData := mk {
  approval_id : string;
  request_id : string;
  review_digest : string;
  directory_version : string;
  required : N;
  required_roles : list string
}.
#[global] Instance ApprovalReviewRequestedData_eq_dec : EqDecision ApprovalReviewRequestedData.
Proof. solve_decision. Defined.
End ApprovalReviewRequestedData.
Abbreviation ApprovalReviewRequestedData := ApprovalReviewRequestedData.ApprovalReviewRequestedData.

(** [ApprovalReviewerDecisionRecordedData], event/approvals.rs. *)
Module ApprovalReviewerDecisionRecordedData.
Record ApprovalReviewerDecisionRecordedData := mk {
  approval_id : string;
  request_id : string;
  review_digest : string;
  principal_id : string;
  decision : ApprovalDecision
}.
#[global] Instance ApprovalReviewerDecisionRecordedData_eq_dec : EqDecision ApprovalReviewerDecisionRecordedData.
Proof. solve_decision. Defined.
End ApprovalReviewerDecisionRecordedData.
Abbreviation ApprovalReviewerDecisionRecordedData := ApprovalReviewerDecisionRecordedData.ApprovalReviewerDecisionRecordedData.

(** [ApprovalQuorumProgressedData], event/approvals.rs. *)
Module ApprovalQuorumProgressedData.
Record ApprovalQuorumProgressedData := mk {
  approval_id : string;
  request_id : string;
  review_digest : string;
  required : N;
  received : N;
  required_roles : list string;
  represented_roles : list string
}.
#[global] Instance ApprovalQuorumProgressedData_eq_dec : EqDecision ApprovalQuorumProgressedData.
Proof. solve_decision. Defined.
End ApprovalQuorumProgressedData.
Abbreviation ApprovalQuorumProgressedData := ApprovalQuorumProgressedData.ApprovalQuorumProgressedData.

(** [ApprovalInvalidatedData], event/approvals.rs. *)
Module ApprovalInvalidatedData.
Record ApprovalInvalidatedData := mk {
  approval_id : string;
  request_id : string;
  review_digest : string;
  reason : RichApprovalResolutionReason
}.
#[global] Instance ApprovalInvalidatedData_eq_dec : EqDecision ApprovalInvalidatedData.
Proof. solve_decision. Defined.
End ApprovalInvalidatedData.
Abbreviation ApprovalInvalidatedData := ApprovalInvalidatedData.ApprovalInvalidatedData.

(** [ApprovalFailure], event/approvals.rs. *)
Module ApprovalFailure.
Record ApprovalFailure := mk {
  kind : string;
  code : string;
  message : string
}.
#[global] Instance ApprovalFailure_eq_dec : EqDecision ApprovalFailure.
Proof. solve_decision. Defined.
End ApprovalFailure.
Abbreviation ApprovalFailure := ApprovalFailure.ApprovalFailure.

(** [NotificationDeliveryRequestedData], event/notifications.rs. *)
Module NotificationDeliveryRequestedData.
Record NotificationDeliveryRequestedData := mk {
  approval_id : string;
  request_id : string;
  delivery_id : string;
  provider : string;
  destination : string
}.
#[global] Instance NotificationDeliveryRequestedData_eq_dec : EqDecision NotificationDeliveryRequestedData.
Proof. solve_decision. Defined.
End NotificationDeliveryRequestedData.
Abbreviation NotificationDeliveryRequestedData := NotificationDeliveryRequestedData.NotificationDeliveryRequestedData.

(** [NotificationDeliveryAttemptStartedData], event/notifications.rs. *)
Module NotificationDeliveryAttemptStartedData.
Record NotificationDeliveryAttemptStartedData := mk {
  approval_id : string;
  request_id : string;
  delivery_id : string;
  attempt : N;
  attempt_id : string;
  idempotency_key : string
}.
#[global] Instance NotificationDeliveryAttemptStartedData_eq_dec : EqDecision NotificationDeliveryAttemptStartedData.
Proof. solve_decision. Defined.
End NotificationDeliveryAttemptStartedData.
Abbreviation NotificationDeliveryAttemptStartedData := NotificationDeliveryAttemptStartedData.NotificationDeliveryAttemptStartedData.

(** [SlackProviderMessageIdentity], event/notifications.rs. *)
Module SlackProviderMessageIdentity.
Record SlackProviderMessageIdentity := mk {
  workspace_id : string;
  channel_id : string;
  message_id : string
}.
#[global] Instance SlackProviderMessageIdentity_eq_dec : EqDecision SlackProviderMessageIdentity.
Proof. solve_decision. Defined.
End SlackProviderMessageIdentity.
Abbreviation SlackProviderMessageIdentity := SlackProviderMessageIdentity.SlackProviderMessageIdentity.

(** [CommunicationProviderMessageIdentity], event/notifications.rs. *)
Module CommunicationProviderMessageIdentity.
Record CommunicationProviderMessageIdentity := mk {
  provider : string;
  account_id : string;
  conversation_id : string;
  message_id : string;
  thread_id : option string
}.
#[global] Instance CommunicationProviderMessageIdentity_eq_dec : EqDecision CommunicationProviderMessageIdentity.
Proof. solve_decision. Defined.
End CommunicationProviderMessageIdentity.
Abbreviation CommunicationProviderMessageIdentity := CommunicationProviderMessageIdentity.CommunicationProviderMessageIdentity.

(** [ProviderMessageIdentity], event/notifications.rs. *)
Module ProviderMessageIdentity.
Inductive ProviderMessageIdentity :=
| Slack (data : SlackProviderMessageIdentity)
| Communication (data : CommunicationProviderMessageIdentity).
#[global] Instance ProviderMessageIdentity_eq_dec : EqDecision ProviderMessageIdentity.
Proof. solve_decision. Defined.
End ProviderMessageIdentity.
Abbreviation ProviderMessageIdentity := ProviderMessageIdentity.ProviderMessageIdentity.

(** [NotificationDeliverySucceededData], event/notifications.rs. *)
Module NotificationDeliverySucceededData.
Record NotificationDeliverySucceededData := mk {
  approval_id : string;
  request_id : string;
  delivery_id : string;
  attempt : N;
  attempt_id : string;
  provider_message : ProviderMessageIdentity
}.
#[global] Instance NotificationDeliverySucceededData_eq_dec : EqDecision NotificationDeliverySucceededData.
Proof. solve_decision. Defined.
End NotificationDeliverySucceededData.
Abbreviation NotificationDeliverySucceededData := NotificationDeliverySucceededData.NotificationDeliverySucceededData.

(** [NotificationSafeFailure], event/notifications.rs. *)
Module NotificationSafeFailure.
Record NotificationSafeFailure := mk {
  kind : string;
  code : string;
  message : string;
  retryable : bool;
  retry_after_ms : option N
}.
#[global] Instance NotificationSafeFailure_eq_dec : EqDecision NotificationSafeFailure.
Proof. solve_decision. Defined.
End NotificationSafeFailure.
Abbreviation NotificationSafeFailure := NotificationSafeFailure.NotificationSafeFailure.

(** [NotificationDeliveryFailedData], event/notifications.rs. *)
Module NotificationDeliveryFailedData.
Record NotificationDeliveryFailedData := mk {
  approval_id : string;
  request_id : string;
  delivery_id : string;
  attempt : N;
  attempt_id : string;
  final_ : bool;
  failure : NotificationSafeFailure
}.
#[global] Instance NotificationDeliveryFailedData_eq_dec : EqDecision NotificationDeliveryFailedData.
Proof. solve_decision. Defined.
End NotificationDeliveryFailedData.
Abbreviation NotificationDeliveryFailedData := NotificationDeliveryFailedData.NotificationDeliveryFailedData.

(** [NotificationDecisionAcceptedData], event/notifications.rs. *)
Module NotificationDecisionAcceptedData.
Record NotificationDecisionAcceptedData := mk {
  approval_id : string;
  request_id : string;
  delivery_id : string;
  provider : string;
  provider_actor_id : string;
  decision : ApprovalDecision
}.
#[global] Instance NotificationDecisionAcceptedData_eq_dec : EqDecision NotificationDecisionAcceptedData.
Proof. solve_decision. Defined.
End NotificationDecisionAcceptedData.
Abbreviation NotificationDecisionAcceptedData := NotificationDecisionAcceptedData.NotificationDecisionAcceptedData.

(** [NotificationResolution], event/notifications.rs. *)
Module NotificationResolution.
Inductive NotificationResolution :=
| Approved
| Rejected
| TimeoutFailed.
#[global] Instance NotificationResolution_eq_dec : EqDecision NotificationResolution.
Proof. solve_decision. Defined.
End NotificationResolution.
Abbreviation NotificationResolution := NotificationResolution.NotificationResolution.

(** [NotificationMessageUpdateRequestedData], event/notifications.rs. *)
Module NotificationMessageUpdateRequestedData.
Record NotificationMessageUpdateRequestedData := mk {
  approval_id : string;
  request_id : string;
  delivery_id : string;
  update_id : string;
  resolution : NotificationResolution
}.
#[global] Instance NotificationMessageUpdateRequestedData_eq_dec : EqDecision NotificationMessageUpdateRequestedData.
Proof. solve_decision. Defined.
End NotificationMessageUpdateRequestedData.
Abbreviation NotificationMessageUpdateRequestedData := NotificationMessageUpdateRequestedData.NotificationMessageUpdateRequestedData.

(** [NotificationMessageUpdateAttemptStartedData], event/notifications.rs. *)
Module NotificationMessageUpdateAttemptStartedData.
Record NotificationMessageUpdateAttemptStartedData := mk {
  approval_id : string;
  request_id : string;
  delivery_id : string;
  update_id : string;
  attempt : N;
  attempt_id : string
}.
#[global] Instance NotificationMessageUpdateAttemptStartedData_eq_dec : EqDecision NotificationMessageUpdateAttemptStartedData.
Proof. solve_decision. Defined.
End NotificationMessageUpdateAttemptStartedData.
Abbreviation NotificationMessageUpdateAttemptStartedData := NotificationMessageUpdateAttemptStartedData.NotificationMessageUpdateAttemptStartedData.
(** A type alias in the source. *)
Abbreviation NotificationMessageUpdatedData := NotificationMessageUpdateAttemptStartedData.

(** [NotificationMessageUpdateFailedData], event/notifications.rs. *)
Module NotificationMessageUpdateFailedData.
Record NotificationMessageUpdateFailedData := mk {
  approval_id : string;
  request_id : string;
  delivery_id : string;
  update_id : string;
  attempt : N;
  attempt_id : string;
  final_ : bool;
  failure : NotificationSafeFailure
}.
#[global] Instance NotificationMessageUpdateFailedData_eq_dec : EqDecision NotificationMessageUpdateFailedData.
Proof. solve_decision. Defined.
End NotificationMessageUpdateFailedData.
Abbreviation NotificationMessageUpdateFailedData := NotificationMessageUpdateFailedData.NotificationMessageUpdateFailedData.

(** [NotificationRunFailure], event/notifications.rs. *)
Module NotificationRunFailure.
Record NotificationRunFailure := mk {
  kind : string;
  code : string;
  message : string
}.
#[global] Instance NotificationRunFailure_eq_dec : EqDecision NotificationRunFailure.
Proof. solve_decision. Defined.
End NotificationRunFailure.
Abbreviation NotificationRunFailure := NotificationRunFailure.NotificationRunFailure.

(** [ParallelFailurePolicy], event/failures.rs. *)
Module ParallelFailurePolicy.
Inductive ParallelFailurePolicy :=
| FailFast
| WaitAll.
#[global] Instance ParallelFailurePolicy_eq_dec : EqDecision ParallelFailurePolicy.
Proof. solve_decision. Defined.
End ParallelFailurePolicy.
Abbreviation ParallelFailurePolicy := ParallelFailurePolicy.ParallelFailurePolicy.

(** [ParallelFailure], event/failures.rs. *)
Module ParallelFailure.
Record ParallelFailure := mk {
  kind : string;
  code : string;
  message : string
}.
#[global] Instance ParallelFailure_eq_dec : EqDecision ParallelFailure.
Proof. solve_decision. Defined.
End ParallelFailure.
Abbreviation ParallelFailure := ParallelFailure.ParallelFailure.

(** [RunFailedDataV3], event/failures.rs. *)
Module RunFailedDataV3.
Inductive RunFailedDataV3 :=
| Parallel (parallel_id : string) (policy : ParallelFailurePolicy) (primary_node_id : string) (failed_node_ids : list string) (cancelled_node_ids : list string) (failure : ParallelFailure).
#[global] Instance RunFailedDataV3_eq_dec : EqDecision RunFailedDataV3.
Proof. solve_decision. Defined.
End RunFailedDataV3.
Abbreviation RunFailedDataV3 := RunFailedDataV3.RunFailedDataV3.

(** [RunFailedDataV4], event/failures.rs. *)
Module RunFailedDataV4.
Inductive RunFailedDataV4 :=
| Approval (approval_id : string) (request_id : string) (failure : ApprovalFailure).
#[global] Instance RunFailedDataV4_eq_dec : EqDecision RunFailedDataV4.
Proof. solve_decision. Defined.
End RunFailedDataV4.
Abbreviation RunFailedDataV4 := RunFailedDataV4.RunFailedDataV4.

(** [RunFailedDataV5], event/failures.rs. *)
Module RunFailedDataV5.
Inductive RunFailedDataV5 :=
| Notification (approval_id : string) (request_id : string) (failed_delivery_ids : list string) (failure : NotificationRunFailure).
#[global] Instance RunFailedDataV5_eq_dec : EqDecision RunFailedDataV5.
Proof. solve_decision. Defined.
End RunFailedDataV5.
Abbreviation RunFailedDataV5 := RunFailedDataV5.RunFailedDataV5.

(** [AttemptFailureKind], event/failures.rs. *)
Module AttemptFailureKind.
Inductive AttemptFailureKind :=
| ScriptThrew
| ScriptTimedOut
| InvalidScriptResult
| ContextTooLarge
| ResultTooLarge
| WorkerCrashed
| HostCrashed
| InvocationCancelled
| Interrupted
| ServiceFailed.
#[global] Instance AttemptFailureKind_eq_dec : EqDecision AttemptFailureKind.
Proof. solve_decision. Defined.
End AttemptFailureKind.
Abbreviation AttemptFailureKind := AttemptFailureKind.AttemptFailureKind.

(** [FailureSizeDetails], event/failures.rs. *)
Module FailureSizeDetails.
Record FailureSizeDetails := mk {
  actual_bytes : option N;
  limit_bytes : option N
}.
#[global] Instance FailureSizeDetails_eq_dec : EqDecision FailureSizeDetails.
Proof. solve_decision. Defined.
End FailureSizeDetails.
Abbreviation FailureSizeDetails := FailureSizeDetails.FailureSizeDetails.

(** [AttemptFailure], event/failures.rs. *)
Module AttemptFailure.
Record AttemptFailure := mk {
  kind : AttemptFailureKind;
  code : string;
  message : string;
  details : option FailureSizeDetails;
  capability : option string;
  operation : option string;
  call_id : option string;
  retryable : option bool;
  ambiguous : option bool;
  cause : option CapabilityFailure
}.
End AttemptFailure.
Abbreviation AttemptFailure := AttemptFailure.AttemptFailure.

(** [RunFailedDataV1], event/failures.rs. *)
Module RunFailedDataV1.
Record RunFailedDataV1 := mk {
  node_id : option string;
  attempt : option N;
  invocation_id : option string;
  failure : AttemptFailure
}.
End RunFailedDataV1.
Abbreviation RunFailedDataV1 := RunFailedDataV1.RunFailedDataV1.

(** [JsonValueType], event/failures.rs. *)
Module JsonValueType.
Inductive JsonValueType :=
| Null
| Number
| String
| Array
| Object.
#[global] Instance JsonValueType_eq_dec : EqDecision JsonValueType.
Proof. solve_decision. Defined.
End JsonValueType.
Abbreviation JsonValueType := JsonValueType.JsonValueType.

(** [BranchFailure], event/failures.rs. *)
Module BranchFailure.
Inductive BranchFailure :=
| BranchTestNotBoolean (code : string) (message : string) (actual_type : JsonValueType)
| ReferenceNotAvailable (code : string) (message : string)
| BranchSelectionInvalid (code : string) (message : string).
#[global] Instance BranchFailure_eq_dec : EqDecision BranchFailure.
Proof. solve_decision. Defined.
End BranchFailure.
Abbreviation BranchFailure := BranchFailure.BranchFailure.

(** [RunFailedDataV2], event/failures.rs. *)
Module RunFailedDataV2.
Inductive RunFailedDataV2 :=
| Attempt (node_id : string) (attempt : N) (invocation_id : string) (failure : AttemptFailure)
| Branch (branch_id : string) (arm_id : option string) (path : option (list string)) (failure : BranchFailure).
End RunFailedDataV2.
Abbreviation RunFailedDataV2 := RunFailedDataV2.RunFailedDataV2.

(** [RunFailedData], event/failures.rs. *)
Module RunFailedData.
Inductive RunFailedData :=
| V5 (data : RunFailedDataV5)
| V4 (data : RunFailedDataV4)
| V3 (data : RunFailedDataV3)
| V2 (data : RunFailedDataV2)
| V1 (data : RunFailedDataV1).
End RunFailedData.
Abbreviation RunFailedData := RunFailedData.RunFailedData.

(** [RunAdmissionTrigger], event/admission.rs. *)
Module RunAdmissionTrigger.
Record RunAdmissionTrigger := mk {
  id : string;
  handler : string
}.
#[global] Instance RunAdmissionTrigger_eq_dec : EqDecision RunAdmissionTrigger.
Proof. solve_decision. Defined.
End RunAdmissionTrigger.
Abbreviation RunAdmissionTrigger := RunAdmissionTrigger.RunAdmissionTrigger.

(** [RunAdmissionQueue], event/admission.rs. *)
Module RunAdmissionQueue.
Record RunAdmissionQueue := mk {
  name : string;
  discipline : QueueDiscipline
}.
#[global] Instance RunAdmissionQueue_eq_dec : EqDecision RunAdmissionQueue.
Proof. solve_decision. Defined.
End RunAdmissionQueue.
Abbreviation RunAdmissionQueue := RunAdmissionQueue.RunAdmissionQueue.

(** [RunAdmittedData], event/admission.rs. *)
Module RunAdmittedData.
Record RunAdmittedData := mk {
  definition_hash : string;
  policy_hash : string;
  trigger : RunAdmissionTrigger;
  payload : Map;
  queue : RunAdmissionQueue;
  admitted_at : DateTime;
  occurrence_sequence : N
}.
End RunAdmittedData.
Abbreviation RunAdmittedData := RunAdmittedData.RunAdmittedData.

(** [RunExecutionStartedData], event/admission.rs. *)
Module RunExecutionStartedData.
Record RunExecutionStartedData := mk {
  started_at : DateTime;
  timeout_at : option DateTime
}.
#[global] Instance RunExecutionStartedData_eq_dec : EqDecision RunExecutionStartedData.
Proof. solve_decision. Defined.
End RunExecutionStartedData.
Abbreviation RunExecutionStartedData := RunExecutionStartedData.RunExecutionStartedData.

(** [RunTimeoutReachedData], event/admission.rs. *)
Module RunTimeoutReachedData.
Record RunTimeoutReachedData := mk {
  deadline_at : DateTime;
  code : string
}.
#[global] Instance RunTimeoutReachedData_eq_dec : EqDecision RunTimeoutReachedData.
Proof. solve_decision. Defined.
End RunTimeoutReachedData.
Abbreviation RunTimeoutReachedData := RunTimeoutReachedData.RunTimeoutReachedData.

(** [RunCancellationRequestedData], event/admission.rs. *)
Module RunCancellationRequestedData.
Record RunCancellationRequestedData := mk {
  request_id : string
}.
#[global] Instance RunCancellationRequestedData_eq_dec : EqDecision RunCancellationRequestedData.
Proof. solve_decision. Defined.
End RunCancellationRequestedData.
Abbreviation RunCancellationRequestedData := RunCancellationRequestedData.RunCancellationRequestedData.

(** [RunIngress], event/execution.rs. *)
Module RunIngress.
Inductive RunIngress :=
| WorkflowCall (call_key : string).
#[global] Instance RunIngress_eq_dec : EqDecision RunIngress.
Proof. solve_decision. Defined.
End RunIngress.
Abbreviation RunIngress := RunIngress.RunIngress.

(** [RunStartedData], event/execution.rs. *)
Module RunStartedData.
Record RunStartedData := mk {
  workflow_id : string;
  definition_hash : string;
  trigger_id : option string;
  trigger_handler : option string;
  trigger_occurrence_id : option string;
  ingress : option RunIngress;
  trigger : Map
}.
End RunStartedData.
Abbreviation RunStartedData := RunStartedData.RunStartedData.

(** [StepAttemptStartedData], event/execution.rs. *)
Module StepAttemptStartedData.
Record StepAttemptStartedData := mk {
  node_id : string;
  attempt : N;
  invocation_id : string;
  handler : string;
  idempotency_key : option string
}.
#[global] Instance StepAttemptStartedData_eq_dec : EqDecision StepAttemptStartedData.
Proof. solve_decision. Defined.
End StepAttemptStartedData.
Abbreviation StepAttemptStartedData := StepAttemptStartedData.StepAttemptStartedData.

(** [StepAttemptSucceededData], event/execution.rs. *)
Module StepAttemptSucceededData.
Record StepAttemptSucceededData := mk {
  node_id : string;
  attempt : N;
  invocation_id : string;
  output : Value
}.
End StepAttemptSucceededData.
Abbreviation StepAttemptSucceededData := StepAttemptSucceededData.StepAttemptSucceededData.

(** [StepAttemptFailedData], event/execution.rs. *)
Module StepAttemptFailedData.
Record StepAttemptFailedData := mk {
  node_id : string;
  attempt : N;
  invocation_id : string;
  failure : AttemptFailure
}.
End StepAttemptFailedData.
Abbreviation StepAttemptFailedData := StepAttemptFailedData.StepAttemptFailedData.

(** [StepRetryScheduledData], event/execution.rs. *)
Module StepRetryScheduledData.
Record StepRetryScheduledData := mk {
  node_id : string;
  failed_attempt : N;
  next_attempt : N;
  scheduled_at : DateTime
}.
#[global] Instance StepRetryScheduledData_eq_dec : EqDecision StepRetryScheduledData.
Proof. solve_decision. Defined.
End StepRetryScheduledData.
Abbreviation StepRetryScheduledData := StepRetryScheduledData.StepRetryScheduledData.

(** [BranchSelectedData], event/execution.rs. *)
Module BranchSelectedData.
Record BranchSelectedData := mk {
  branch_id : string;
  arm_id : string
}.
#[global] Instance BranchSelectedData_eq_dec : EqDecision BranchSelectedData.
Proof. solve_decision. Defined.
End BranchSelectedData.
Abbreviation BranchSelectedData := BranchSelectedData.BranchSelectedData.

(** [ChoiceSelectedData], event/execution.rs. *)
Module ChoiceSelectedData.
Record ChoiceSelectedData := mk {
  choice_id : string;
  arm_id : string
}.
#[global] Instance ChoiceSelectedData_eq_dec : EqDecision ChoiceSelectedData.
Proof. solve_decision. Defined.
End ChoiceSelectedData.
Abbreviation ChoiceSelectedData := ChoiceSelectedData.ChoiceSelectedData.

(** [RunSucceededData], event/execution.rs. *)
Module RunSucceededData.
Record RunSucceededData := mk {
  terminal_node_id : string;
  result : Value
}.
End RunSucceededData.
Abbreviation RunSucceededData := RunSucceededData.RunSucceededData.

(** [ForkOpenedData], event/forks.rs. *)
Module ForkOpenedData.
Record ForkOpenedData := mk {
  fork_id : string
}.
#[global] Instance ForkOpenedData_eq_dec : EqDecision ForkOpenedData.
Proof. solve_decision. Defined.
End ForkOpenedData.
Abbreviation ForkOpenedData := ForkOpenedData.ForkOpenedData.

(** [ForkBranchOutcome], event/forks.rs. *)
Module ForkBranchOutcome.
Inductive ForkBranchOutcome :=
| Succeeded
| Failed
| Cancelled.
#[global] Instance ForkBranchOutcome_eq_dec : EqDecision ForkBranchOutcome.
Proof. solve_decision. Defined.
End ForkBranchOutcome.
Abbreviation ForkBranchOutcome := ForkBranchOutcome.ForkBranchOutcome.

(** [ForkBranchSettledData], event/forks.rs. *)
Module ForkBranchSettledData.
Record ForkBranchSettledData := mk {
  fork_id : string;
  branch_id : string;
  terminal_node_id : string;
  outcome : ForkBranchOutcome
}.
#[global] Instance ForkBranchSettledData_eq_dec : EqDecision ForkBranchSettledData.
Proof. solve_decision. Defined.
End ForkBranchSettledData.
Abbreviation ForkBranchSettledData := ForkBranchSettledData.ForkBranchSettledData.

(** [ForkJoinOutcome], event/forks.rs. *)
Module ForkJoinOutcome.
Inductive ForkJoinOutcome :=
| Succeeded
| Failed
| Cancelled.
#[global] Instance ForkJoinOutcome_eq_dec : EqDecision ForkJoinOutcome.
Proof. solve_decision. Defined.
End ForkJoinOutcome.
Abbreviation ForkJoinOutcome := ForkJoinOutcome.ForkJoinOutcome.

(** [ForkJoinSettledData], event/forks.rs. *)
Module ForkJoinSettledData.
Record ForkJoinSettledData := mk {
  fork_id : string;
  outcome : ForkJoinOutcome;
  blocking_branch_id : option string
}.
#[global] Instance ForkJoinSettledData_eq_dec : EqDecision ForkJoinSettledData.
Proof. solve_decision. Defined.
End ForkJoinSettledData.
Abbreviation ForkJoinSettledData := ForkJoinSettledData.ForkJoinSettledData.

(** [ParallelGroupStartedData], event/parallel.rs. *)
Module ParallelGroupStartedData.
Record ParallelGroupStartedData := mk {
  parallel_id : string
}.
#[global] Instance ParallelGroupStartedData_eq_dec : EqDecision ParallelGroupStartedData.
Proof. solve_decision. Defined.
End ParallelGroupStartedData.
Abbreviation ParallelGroupStartedData := ParallelGroupStartedData.ParallelGroupStartedData.

(** [ParallelGroupOutcome], event/parallel.rs. *)
Module ParallelGroupOutcome.
Inductive ParallelGroupOutcome :=
| Succeeded
| Failed.
#[global] Instance ParallelGroupOutcome_eq_dec : EqDecision ParallelGroupOutcome.
Proof. solve_decision. Defined.
End ParallelGroupOutcome.
Abbreviation ParallelGroupOutcome := ParallelGroupOutcome.ParallelGroupOutcome.

(** [ParallelGroupCompletedData], event/parallel.rs. *)
Module ParallelGroupCompletedData.
Record ParallelGroupCompletedData := mk {
  parallel_id : string;
  outcome : ParallelGroupOutcome;
  failed_node_ids : list string;
  cancelled_node_ids : list string
}.
#[global] Instance ParallelGroupCompletedData_eq_dec : EqDecision ParallelGroupCompletedData.
Proof. solve_decision. Defined.
End ParallelGroupCompletedData.
Abbreviation ParallelGroupCompletedData := ParallelGroupCompletedData.ParallelGroupCompletedData.

(** [InfrastructurePolicyDecisionRecordedData], event/policy.rs. *)
Module InfrastructurePolicyDecisionRecordedData.
Record InfrastructurePolicyDecisionRecordedData := mk {
  invocation_id : string;
  call_id : string;
  operation_key : string;
  decision : InfrastructurePolicyDecisionRecordV1
}.
#[global] Instance InfrastructurePolicyDecisionRecordedData_eq_dec : EqDecision InfrastructurePolicyDecisionRecordedData.
Proof. solve_decision. Defined.
End InfrastructurePolicyDecisionRecordedData.
Abbreviation InfrastructurePolicyDecisionRecordedData := InfrastructurePolicyDecisionRecordedData.InfrastructurePolicyDecisionRecordedData.

(** [RemoteDispatchTransitionedData], event/remote.rs. *)
Module RemoteDispatchTransitionedData.
Record RemoteDispatchTransitionedData := mk {
  dispatch_id : string;
  node_id : string;
  attempt : N;
  invocation_id : string;
  target : string;
  state : RemoteDispatchStateV1;
  worker_id : option string;
  terminal_digest : option string
}.
#[global] Instance RemoteDispatchTransitionedData_eq_dec : EqDecision RemoteDispatchTransitionedData.
Proof. solve_decision. Defined.
End RemoteDispatchTransitionedData.
Abbreviation RemoteDispatchTransitionedData := RemoteDispatchTransitionedData.RemoteDispatchTransitionedData.

(** [ForEachIterationScope], event/iterations.rs. *)
Module ForEachIterationScope.
Record ForEachIterationScope := mk {
  for_each_id : string;
  index : N
}.
#[global] Instance ForEachIterationScope_eq_dec : EqDecision ForEachIterationScope.
Proof. solve_decision. Defined.
End ForEachIterationScope.
Abbreviation ForEachIterationScope := ForEachIterationScope.ForEachIterationScope.

(** [ForEachOpenedData], event/iterations.rs. *)
Module ForEachOpenedData.
Record ForEachOpenedData := mk {
  for_each_id : string;
  total : N;
  items_digest : string;
  concurrency : N
}.
#[global] Instance ForEachOpenedData_eq_dec : EqDecision ForEachOpenedData.
Proof. solve_decision. Defined.
End ForEachOpenedData.
Abbreviation ForEachOpenedData := ForEachOpenedData.ForEachOpenedData.

(** [ForEachIterationIdentityData], event/iterations.rs. *)
Module ForEachIterationIdentityData.
Record ForEachIterationIdentityData := mk {
  for_each_id : string
}.
#[global] Instance ForEachIterationIdentityData_eq_dec : EqDecision ForEachIterationIdentityData.
Proof. solve_decision. Defined.
End ForEachIterationIdentityData.
Abbreviation ForEachIterationIdentityData := ForEachIterationIdentityData.ForEachIterationIdentityData.

(** [ForEachIterationSucceededData], event/iterations.rs. *)
Module ForEachIterationSucceededData.
Record ForEachIterationSucceededData := mk {
  for_each_id : string;
  result : option Value;
  result_digest : option string
}.
End ForEachIterationSucceededData.
Abbreviation ForEachIterationSucceededData := ForEachIterationSucceededData.ForEachIterationSucceededData.

(** [ForEachIterationFailureKind], event/iterations.rs. *)
Module ForEachIterationFailureKind.
Inductive ForEachIterationFailureKind :=
| ScriptThrew
| TimedOut
| NonJson
| WorkerCrashed
| HostCrashed
| ResultTooLarge
| ContextTooLarge
| Interrupted
| CapabilityFailed
| Cancelled.
#[global] Instance ForEachIterationFailureKind_eq_dec : EqDecision ForEachIterationFailureKind.
Proof. solve_decision. Defined.
End ForEachIterationFailureKind.
Abbreviation ForEachIterationFailureKind := ForEachIterationFailureKind.ForEachIterationFailureKind.

(** [ForEachIterationFailedData], event/iterations.rs. *)
Module ForEachIterationFailedData.
Record ForEachIterationFailedData := mk {
  for_each_id : string;
  failed_node_id : string;
  failure_kind : ForEachIterationFailureKind
}.
#[global] Instance ForEachIterationFailedData_eq_dec : EqDecision ForEachIterationFailedData.
Proof. solve_decision. Defined.
End ForEachIterationFailedData.
Abbreviation ForEachIterationFailedData := ForEachIterationFailedData.ForEachIterationFailedData.

(** [ForEachSkipReason], event/iterations.rs. *)
Module ForEachSkipReason.
Inductive ForEachSkipReason :=
| Failure
| Cancellation.
#[global] Instance ForEachSkipReason_eq_dec : EqDecision ForEachSkipReason.
Proof. solve_decision. Defined.
End ForEachSkipReason.
Abbreviation ForEachSkipReason := ForEachSkipReason.ForEachSkipReason.

(** [ForEachIterationSkippedData], event/iterations.rs. *)
Module ForEachIterationSkippedData.
Record ForEachIterationSkippedData := mk {
  for_each_id : string;
  reason : ForEachSkipReason
}.
#[global] Instance ForEachIterationSkippedData_eq_dec : EqDecision ForEachIterationSkippedData.
Proof. solve_decision. Defined.
End ForEachIterationSkippedData.
Abbreviation ForEachIterationSkippedData := ForEachIterationSkippedData.ForEachIterationSkippedData.

(** [ForEachSettledData], event/iterations.rs. *)
Module ForEachSettledData.
Record ForEachSettledData := mk {
  for_each_id : string;
  total : N;
  succeeded : N;
  failed : N;
  skipped : N;
  aggregate_digest : string
}.
#[global] Instance ForEachSettledData_eq_dec : EqDecision ForEachSettledData.
Proof. solve_decision. Defined.
End ForEachSettledData.
Abbreviation ForEachSettledData := ForEachSettledData.ForEachSettledData.

(** [LifecycleSubjectKind], event/lifecycle.rs. *)
Module LifecycleSubjectKind.
Inductive LifecycleSubjectKind :=
| Workflow
| Step.
#[global] Instance LifecycleSubjectKind_eq_dec : EqDecision LifecycleSubjectKind.
Proof. solve_decision. Defined.
End LifecycleSubjectKind.
Abbreviation LifecycleSubjectKind := LifecycleSubjectKind.LifecycleSubjectKind.

(** [LifecycleSubject], event/lifecycle.rs. *)
Module LifecycleSubject.
Record LifecycleSubject := mk {
  kind : LifecycleSubjectKind;
  id : string
}.
#[global] Instance LifecycleSubject_eq_dec : EqDecision LifecycleSubject.
Proof. solve_decision. Defined.
End LifecycleSubject.
Abbreviation LifecycleSubject := LifecycleSubject.LifecycleSubject.

(** [LifecycleHookRequestedData], event/lifecycle.rs. *)
Module LifecycleHookRequestedData.
Record LifecycleHookRequestedData := mk {
  hook_invocation_id : string;
  hook_id : string;
  event : LifecycleEventName;
  subject : LifecycleSubject
}.
#[global] Instance LifecycleHookRequestedData_eq_dec : EqDecision LifecycleHookRequestedData.
Proof. solve_decision. Defined.
End LifecycleHookRequestedData.
Abbreviation LifecycleHookRequestedData := LifecycleHookRequestedData.LifecycleHookRequestedData.

(** [LifecycleActionIdentityData], event/lifecycle.rs. *)
Module LifecycleActionIdentityData.
Record LifecycleActionIdentityData := mk {
  hook_invocation_id : string;
  action_id : string;
  attempt : N
}.
#[global] Instance LifecycleActionIdentityData_eq_dec : EqDecision LifecycleActionIdentityData.
Proof. solve_decision. Defined.
End LifecycleActionIdentityData.
Abbreviation LifecycleActionIdentityData := LifecycleActionIdentityData.LifecycleActionIdentityData.

(** [LifecycleFailureKind], event/lifecycle.rs. *)
Module LifecycleFailureKind.
Inductive LifecycleFailureKind :=
| ScriptThrew
| TimedOut
| NonJson
| WorkerCrashed
| HostCrashed
| Interrupted
| SizeLimitExceeded
| Cancelled
| ProviderFailed.
#[global] Instance LifecycleFailureKind_eq_dec : EqDecision LifecycleFailureKind.
Proof. solve_decision. Defined.
End LifecycleFailureKind.
Abbreviation LifecycleFailureKind := LifecycleFailureKind.LifecycleFailureKind.

(** [LifecycleFailure], event/lifecycle.rs. *)
Module LifecycleFailure.
Record LifecycleFailure := mk {
  kind : LifecycleFailureKind;
  code : string;
  message : string
}.
#[global] Instance LifecycleFailure_eq_dec : EqDecision LifecycleFailure.
Proof. solve_decision. Defined.
End LifecycleFailure.
Abbreviation LifecycleFailure := LifecycleFailure.LifecycleFailure.

(** [LifecycleActionFailedData], event/lifecycle.rs. *)
Module LifecycleActionFailedData.
Record LifecycleActionFailedData := mk {
  hook_invocation_id : string;
  action_id : string;
  attempt : N;
  failure : LifecycleFailure
}.
#[global] Instance LifecycleActionFailedData_eq_dec : EqDecision LifecycleActionFailedData.
Proof. solve_decision. Defined.
End LifecycleActionFailedData.
Abbreviation LifecycleActionFailedData := LifecycleActionFailedData.LifecycleActionFailedData.

(** [LifecycleHookCompletionStatus], event/lifecycle.rs. *)
Module LifecycleHookCompletionStatus.
Inductive LifecycleHookCompletionStatus :=
| Completed
| CompletedWithWarnings.
#[global] Instance LifecycleHookCompletionStatus_eq_dec : EqDecision LifecycleHookCompletionStatus.
Proof. solve_decision. Defined.
End LifecycleHookCompletionStatus.
Abbreviation LifecycleHookCompletionStatus := LifecycleHookCompletionStatus.LifecycleHookCompletionStatus.

(** [LifecycleHookCompletedData], event/lifecycle.rs. *)
Module LifecycleHookCompletedData.
Record LifecycleHookCompletedData := mk {
  hook_invocation_id : string;
  status : LifecycleHookCompletionStatus;
  failed_actions : N
}.
#[global] Instance LifecycleHookCompletedData_eq_dec : EqDecision LifecycleHookCompletedData.
Proof. solve_decision. Defined.
End LifecycleHookCompletedData.
Abbreviation LifecycleHookCompletedData := LifecycleHookCompletedData.LifecycleHookCompletedData.

(** [ReusableLifecycleHook], event/lifecycle.rs. *)
Module ReusableLifecycleHook.
Inductive ReusableLifecycleHook :=
| OnSuccess
| OnError
| OnComplete.
#[global] Instance ReusableLifecycleHook_eq_dec : EqDecision ReusableLifecycleHook.
Proof. solve_decision. Defined.
End ReusableLifecycleHook.
Abbreviation ReusableLifecycleHook := ReusableLifecycleHook.ReusableLifecycleHook.

(** [ReusableLifecycleOutcome], event/lifecycle.rs. *)
Module ReusableLifecycleOutcome.
Inductive ReusableLifecycleOutcome :=
| Succeeded
| Failed
| CompletedWithWarnings.
#[global] Instance ReusableLifecycleOutcome_eq_dec : EqDecision ReusableLifecycleOutcome.
Proof. solve_decision. Defined.
End ReusableLifecycleOutcome.
Abbreviation ReusableLifecycleOutcome := ReusableLifecycleOutcome.ReusableLifecycleOutcome.

(** [ReusableLifecycleRequestedData], event/lifecycle.rs. *)
Module ReusableLifecycleRequestedData.
Record ReusableLifecycleRequestedData := mk {
  invocation_id : string;
  definition_digest : string;
  hook : ReusableLifecycleHook
}.
#[global] Instance ReusableLifecycleRequestedData_eq_dec : EqDecision ReusableLifecycleRequestedData.
Proof. solve_decision. Defined.
End ReusableLifecycleRequestedData.
Abbreviation ReusableLifecycleRequestedData := ReusableLifecycleRequestedData.ReusableLifecycleRequestedData.

(** [ReusableLifecycleActionStartedData], event/lifecycle.rs. *)
Module ReusableLifecycleActionStartedData.
Record ReusableLifecycleActionStartedData := mk {
  invocation_id : string;
  definition_digest : string;
  hook : ReusableLifecycleHook;
  action_id : string
}.
#[global] Instance ReusableLifecycleActionStartedData_eq_dec : EqDecision ReusableLifecycleActionStartedData.
Proof. solve_decision. Defined.
End ReusableLifecycleActionStartedData.
Abbreviation ReusableLifecycleActionStartedData := ReusableLifecycleActionStartedData.ReusableLifecycleActionStartedData.

(** [ReusableLifecycleActionSucceededData], event/lifecycle.rs. *)
Module ReusableLifecycleActionSucceededData.
Record ReusableLifecycleActionSucceededData := mk {
  invocation_id : string;
  definition_digest : string;
  hook : ReusableLifecycleHook;
  action_id : string;
  outcome : ReusableLifecycleOutcome
}.
#[global] Instance ReusableLifecycleActionSucceededData_eq_dec : EqDecision ReusableLifecycleActionSucceededData.
Proof. solve_decision. Defined.
End ReusableLifecycleActionSucceededData.
Abbreviation ReusableLifecycleActionSucceededData := ReusableLifecycleActionSucceededData.ReusableLifecycleActionSucceededData.

(** [ReusableLifecycleActionFailedData], event/lifecycle.rs. *)
Module ReusableLifecycleActionFailedData.
Record ReusableLifecycleActionFailedData := mk {
  invocation_id : string;
  definition_digest : string;
  hook : ReusableLifecycleHook;
  action_id : string;
  outcome : ReusableLifecycleOutcome;
  warning_code : string
}.
#[global] Instance ReusableLifecycleActionFailedData_eq_dec : EqDecision ReusableLifecycleActionFailedData.
Proof. solve_decision. Defined.
End ReusableLifecycleActionFailedData.
Abbreviation ReusableLifecycleActionFailedData := ReusableLifecycleActionFailedData.ReusableLifecycleActionFailedData.

(** [ReusableLifecycleCompletedData], event/lifecycle.rs. *)
Module ReusableLifecycleCompletedData.
Record ReusableLifecycleCompletedData := mk {
  invocation_id : string;
  definition_digest : string;
  hook : ReusableLifecycleHook;
  outcome : ReusableLifecycleOutcome
}.
#[global] Instance ReusableLifecycleCompletedData_eq_dec : EqDecision ReusableLifecycleCompletedData.
Proof. solve_decision. Defined.
End ReusableLifecycleCompletedData.
Abbreviation ReusableLifecycleCompletedData := ReusableLifecycleCompletedData.ReusableLifecycleCompletedData.

(** [BusinessOutcome], event/lifecycle.rs. *)
Module BusinessOutcome.
Inductive BusinessOutcome :=
| Succeeded
| Failed
| Cancelled.
#[global] Instance BusinessOutcome_eq_dec : EqDecision BusinessOutcome.
Proof. solve_decision. Defined.
End BusinessOutcome.
Abbreviation BusinessOutcome := BusinessOutcome.BusinessOutcome.

(** [RunOutcomeDecidedData], event/lifecycle.rs. *)
Module RunOutcomeDecidedData.
Inductive RunOutcomeDecidedData :=
| Succeeded (result : Value)
| Failed (failure : LifecycleFailure)
| Cancelled (cancellation_request_id : string).
End RunOutcomeDecidedData.
Abbreviation RunOutcomeDecidedData := RunOutcomeDecidedData.RunOutcomeDecidedData.

(** [FinalLifecycleStatus], event/lifecycle.rs. *)
Module FinalLifecycleStatus.
Inductive FinalLifecycleStatus :=
| Completed
| CompletedWithWarnings.
#[global] Instance FinalLifecycleStatus_eq_dec : EqDecision FinalLifecycleStatus.
Proof. solve_decision. Defined.
End FinalLifecycleStatus.
Abbreviation FinalLifecycleStatus := FinalLifecycleStatus.FinalLifecycleStatus.

(** [LifecycleWarning], event/lifecycle.rs. *)
Module LifecycleWarning.
Record LifecycleWarning := mk {
  hook_id : string;
  action_id : string;
  step_id : option string;
  provider : option string;
  destination : option string;
  code : string
}.
#[global] Instance LifecycleWarning_eq_dec : EqDecision LifecycleWarning.
Proof. solve_decision. Defined.
End LifecycleWarning.
Abbreviation LifecycleWarning := LifecycleWarning.LifecycleWarning.

(** [RunFinalizedData], event/lifecycle.rs. *)
Module RunFinalizedData.
Record RunFinalizedData := mk {
  outcome : BusinessOutcome;
  lifecycle_status : FinalLifecycleStatus;
  warnings : list LifecycleWarning
}.
#[global] Instance RunFinalizedData_eq_dec : EqDecision RunFinalizedData.
Proof. solve_decision. Defined.
End RunFinalizedData.
Abbreviation RunFinalizedData := RunFinalizedData.RunFinalizedData.

(** [LockWaitRegisteredData], event/locks.rs. *)
Module LockWaitRegisteredData.
Record LockWaitRegisteredData := mk {
  lock_id : string;
  key : string;
  waiter_sequence : N;
  registered_at : DateTime;
  deadline : DateTime;
  execution_identity : string
}.
#[global] Instance LockWaitRegisteredData_eq_dec : EqDecision LockWaitRegisteredData.
Proof. solve_decision. Defined.
End LockWaitRegisteredData.
Abbreviation LockWaitRegisteredData := LockWaitRegisteredData.LockWaitRegisteredData.

(** [LockAcquiredData], event/locks.rs. *)
Module LockAcquiredData.
Record LockAcquiredData := mk {
  lock_id : string;
  key : string;
  lease_id : string;
  fencing_token : string;
  acquired_at : DateTime;
  expires_at : DateTime;
  execution_identity : string
}.
#[global] Instance LockAcquiredData_eq_dec : EqDecision LockAcquiredData.
Proof. solve_decision. Defined.
End LockAcquiredData.
Abbreviation LockAcquiredData := LockAcquiredData.LockAcquiredData.

(** [LockReleasedData], event/locks.rs. *)
Module LockReleasedData.
Record LockReleasedData := mk {
  lock_id : string;
  key : string;
  lease_id : string;
  fencing_token : string;
  released_at : DateTime;
  result : Value
}.
End LockReleasedData.
Abbreviation LockReleasedData := LockReleasedData.LockReleasedData.

(** [LockAcquireTimedOutData], event/locks.rs. *)
Module LockAcquireTimedOutData.
Record LockAcquireTimedOutData := mk {
  lock_id : string;
  key : string;
  deadline : DateTime;
  resolved_at : DateTime
}.
#[global] Instance LockAcquireTimedOutData_eq_dec : EqDecision LockAcquireTimedOutData.
Proof. solve_decision. Defined.
End LockAcquireTimedOutData.
Abbreviation LockAcquireTimedOutData := LockAcquireTimedOutData.LockAcquireTimedOutData.

(** [LockAcquisitionCancelledData], event/locks.rs. *)
Module LockAcquisitionCancelledData.
Record LockAcquisitionCancelledData := mk {
  lock_id : string;
  key : string;
  cancelled_at : DateTime;
  cancellation_id : string
}.
#[global] Instance LockAcquisitionCancelledData_eq_dec : EqDecision LockAcquisitionCancelledData.
Proof. solve_decision. Defined.
End LockAcquisitionCancelledData.
Abbreviation LockAcquisitionCancelledData := LockAcquisitionCancelledData.LockAcquisitionCancelledData.

(** [LockLeaseLostData], event/locks.rs. *)
Module LockLeaseLostData.
Record LockLeaseLostData := mk {
  lock_id : string;
  key : string;
  lease_id : string;
  fencing_token : string;
  expired_at : DateTime;
  detected_at : DateTime;
  ambiguous : bool
}.
#[global] Instance LockLeaseLostData_eq_dec : EqDecision LockLeaseLostData.
Proof. solve_decision. Defined.
End LockLeaseLostData.
Abbreviation LockLeaseLostData := LockLeaseLostData.LockLeaseLostData.

(** [OperationExecutionMode], event/operations.rs. *)
Module OperationExecutionMode.
Inductive OperationExecutionMode :=
| Observed
| Managed.
#[global] Instance OperationExecutionMode_eq_dec : EqDecision OperationExecutionMode.
Proof. solve_decision. Defined.
End OperationExecutionMode.
Abbreviation OperationExecutionMode := OperationExecutionMode.OperationExecutionMode.

(** [OperationStartedData], event/operations.rs. *)
Module OperationStartedData.
Record OperationStartedData := mk {
  node_id : string;
  attempt_number : N;
  invocation_id : string;
  call_id : string;
  operation_key : string;
  capability : string;
  operation : string;
  execution_mode : OperationExecutionMode;
  metadata : Map
}.
End OperationStartedData.
Abbreviation OperationStartedData := OperationStartedData.OperationStartedData.

(** [OperationSucceededData], event/operations.rs. *)
Module OperationSucceededData.
Record OperationSucceededData := mk {
  node_id : string;
  attempt_number : N;
  invocation_id : string;
  call_id : string;
  operation_key : string;
  capability : string;
  operation : string;
  execution_mode : OperationExecutionMode;
  metadata : Map;
  duration_ms : f64;
  result_bytes : N;
  result_digest : string
}.
End OperationSucceededData.
Abbreviation OperationSucceededData := OperationSucceededData.OperationSucceededData.

(** [OperationFailedData], event/operations.rs. *)
Module OperationFailedData.
Record OperationFailedData := mk {
  node_id : string;
  attempt_number : N;
  invocation_id : string;
  call_id : string;
  operation_key : string;
  capability : string;
  operation : string;
  execution_mode : OperationExecutionMode;
  metadata : Map;
  duration_ms : f64;
  failure : CapabilityFailure
}.
End OperationFailedData.
Abbreviation OperationFailedData := OperationFailedData.OperationFailedData.

(** [DurableWaitKind], event/waits.rs. *)
Module DurableWaitKind.
Inductive DurableWaitKind :=
| Duration
| Until
| Signal.
#[global] Instance DurableWaitKind_eq_dec : EqDecision DurableWaitKind.
Proof. solve_decision. Defined.
End DurableWaitKind.
Abbreviation DurableWaitKind := DurableWaitKind.DurableWaitKind.

(** [WaitRegisteredData], event/waits.rs. *)
Module WaitRegisteredData.
Record WaitRegisteredData := mk {
  wait_id : string;
  node_id : string;
  kind : DurableWaitKind;
  registered_at : DateTime;
  deadline : option DateTime;
  signals : option (list string);
  correlation_digest : option string
}.
#[global] Instance WaitRegisteredData_eq_dec : EqDecision WaitRegisteredData.
Proof. solve_decision. Defined.
End WaitRegisteredData.
Abbreviation WaitRegisteredData := WaitRegisteredData.WaitRegisteredData.

(** [ExternalSignalReceivedData], event/waits.rs. *)
Module ExternalSignalReceivedData.
Record ExternalSignalReceivedData := mk {
  signal_id : string;
  wait_id : string;
  signal : string;
  received_at : DateTime;
  idempotency_digest : string;
  payload : Value;
  correlation : option string;
  authentication_class : option string
}.
End ExternalSignalReceivedData.
Abbreviation ExternalSignalReceivedData := ExternalSignalReceivedData.ExternalSignalReceivedData.

(** [DurableWaitWinner], event/waits.rs. *)
Module DurableWaitWinner.
Inductive DurableWaitWinner :=
| Timer
| Signal.
#[global] Instance DurableWaitWinner_eq_dec : EqDecision DurableWaitWinner.
Proof. solve_decision. Defined.
End DurableWaitWinner.
Abbreviation DurableWaitWinner := DurableWaitWinner.DurableWaitWinner.

(** [WaitSatisfiedData], event/waits.rs. *)
Module WaitSatisfiedData.
Record WaitSatisfiedData := mk {
  wait_id : string;
  winner : DurableWaitWinner;
  result : Value;
  resolved_at : DateTime
}.
End WaitSatisfiedData.
Abbreviation WaitSatisfiedData := WaitSatisfiedData.WaitSatisfiedData.

(** [DurableWaitTimeoutBehavior], event/waits.rs. *)
Module DurableWaitTimeoutBehavior.
Inductive DurableWaitTimeoutBehavior :=
| Fail
| Continue.
#[global] Instance DurableWaitTimeoutBehavior_eq_dec : EqDecision DurableWaitTimeoutBehavior.
Proof. solve_decision. Defined.
End DurableWaitTimeoutBehavior.
Abbreviation DurableWaitTimeoutBehavior := DurableWaitTimeoutBehavior.DurableWaitTimeoutBehavior.

(** [WaitTimedOutData], event/waits.rs. *)
Module WaitTimedOutData.
Record WaitTimedOutData := mk {
  wait_id : string;
  deadline : DateTime;
  resolved_at : DateTime;
  behavior : DurableWaitTimeoutBehavior
}.
#[global] Instance WaitTimedOutData_eq_dec : EqDecision WaitTimedOutData.
Proof. solve_decision. Defined.
End WaitTimedOutData.
Abbreviation WaitTimedOutData := WaitTimedOutData.WaitTimedOutData.

(** [WaitCancelledData], event/waits.rs. *)
Module WaitCancelledData.
Record WaitCancelledData := mk {
  wait_id : string;
  cancelled_at : DateTime;
  cancellation_id : string
}.
#[global] Instance WaitCancelledData_eq_dec : EqDecision WaitCancelledData.
Proof. solve_decision. Defined.
End WaitCancelledData.
Abbreviation WaitCancelledData := WaitCancelledData.WaitCancelledData.

(** [CorrectiveActionKind], event/correction.rs. *)
Module CorrectiveActionKind.
Inductive CorrectiveActionKind :=
| Compensation
| Cleanup.
#[global] Instance CorrectiveActionKind_eq_dec : EqDecision CorrectiveActionKind.
Proof. solve_decision. Defined.
End CorrectiveActionKind.
Abbreviation CorrectiveActionKind := CorrectiveActionKind.CorrectiveActionKind.

(** [SagaCorrectionReason], event/correction.rs. *)
Module SagaCorrectionReason.
Inductive SagaCorrectionReason :=
| Failure
| Cancel
| Success.
#[global] Instance SagaCorrectionReason_eq_dec : EqDecision SagaCorrectionReason.
Proof. solve_decision. Defined.
End SagaCorrectionReason.
Abbreviation SagaCorrectionReason := SagaCorrectionReason.SagaCorrectionReason.

(** [SagaIdentityData], event/correction.rs. *)
Module SagaIdentityData.
Record SagaIdentityData := mk {
  saga_id : string
}.
#[global] Instance SagaIdentityData_eq_dec : EqDecision SagaIdentityData.
Proof. solve_decision. Defined.
End SagaIdentityData.
Abbreviation SagaIdentityData := SagaIdentityData.SagaIdentityData.

(** [CompensationRegisteredData], event/correction.rs. *)
Module CompensationRegisteredData.
Record CompensationRegisteredData := mk {
  saga_id : string;
  action_id : string;
  for_step_id : string;
  completion_sequence : N
}.
#[global] Instance CompensationRegisteredData_eq_dec : EqDecision CompensationRegisteredData.
Proof. solve_decision. Defined.
End CompensationRegisteredData.
Abbreviation CompensationRegisteredData := CompensationRegisteredData.CompensationRegisteredData.

(** [SagaCorrectionStartedData], event/correction.rs. *)
Module SagaCorrectionStartedData.
Record SagaCorrectionStartedData := mk {
  saga_id : string;
  reason : SagaCorrectionReason
}.
#[global] Instance SagaCorrectionStartedData_eq_dec : EqDecision SagaCorrectionStartedData.
Proof. solve_decision. Defined.
End SagaCorrectionStartedData.
Abbreviation SagaCorrectionStartedData := SagaCorrectionStartedData.SagaCorrectionStartedData.

(** [CorrectionAttemptIdentityData], event/correction.rs. *)
Module CorrectionAttemptIdentityData.
Record CorrectionAttemptIdentityData := mk {
  saga_id : string;
  action_id : string;
  action_kind : CorrectiveActionKind;
  attempt : N
}.
#[global] Instance CorrectionAttemptIdentityData_eq_dec : EqDecision CorrectionAttemptIdentityData.
Proof. solve_decision. Defined.
End CorrectionAttemptIdentityData.
Abbreviation CorrectionAttemptIdentityData := CorrectionAttemptIdentityData.CorrectionAttemptIdentityData.

(** [CorrectionAttemptFailedData], event/correction.rs. *)
Module CorrectionAttemptFailedData.
Record CorrectionAttemptFailedData := mk {
  saga_id : string;
  action_id : string;
  action_kind : CorrectiveActionKind;
  attempt : N;
  code : string;
  retryable : bool;
  ambiguous : bool
}.
#[global] Instance CorrectionAttemptFailedData_eq_dec : EqDecision CorrectionAttemptFailedData.
Proof. solve_decision. Defined.
End CorrectionAttemptFailedData.
Abbreviation CorrectionAttemptFailedData := CorrectionAttemptFailedData.CorrectionAttemptFailedData.

(** [CorrectionRetryScheduledData], event/correction.rs. *)
Module CorrectionRetryScheduledData.
Record CorrectionRetryScheduledData := mk {
  saga_id : string;
  action_id : string;
  action_kind : CorrectiveActionKind;
  attempt : N;
  retry_at : DateTime
}.
#[global] Instance CorrectionRetryScheduledData_eq_dec : EqDecision CorrectionRetryScheduledData.
Proof. solve_decision. Defined.
End CorrectionRetryScheduledData.
Abbreviation CorrectionRetryScheduledData := CorrectionRetryScheduledData.CorrectionRetryScheduledData.

(** [CorrectionInterruptedData], event/correction.rs. *)
Module CorrectionInterruptedData.
Record CorrectionInterruptedData := mk {
  saga_id : string;
  action_id : string;
  action_kind : CorrectiveActionKind;
  attempt : N;
  ambiguous : bool
}.
#[global] Instance CorrectionInterruptedData_eq_dec : EqDecision CorrectionInterruptedData.
Proof. solve_decision. Defined.
End CorrectionInterruptedData.
Abbreviation CorrectionInterruptedData := CorrectionInterruptedData.CorrectionInterruptedData.

(** [ManualRecoveryRequiredData], event/correction.rs. *)
Module ManualRecoveryRequiredData.
Record ManualRecoveryRequiredData := mk {
  saga_id : string;
  action_id : string;
  action_kind : CorrectiveActionKind;
  code : string
}.
#[global] Instance ManualRecoveryRequiredData_eq_dec : EqDecision ManualRecoveryRequiredData.
Proof. solve_decision. Defined.
End ManualRecoveryRequiredData.
Abbreviation ManualRecoveryRequiredData := ManualRecoveryRequiredData.ManualRecoveryRequiredData.

(** [RunEventPayload], event.rs. *)
Module RunEventPayload.
Inductive RunEventPayload :=
| RunAdmitted (data : RunAdmittedData)
| RunExecutionStarted (data : RunExecutionStartedData)
| RunTimeoutReached (data : RunTimeoutReachedData)
| RunStarted (data : RunStartedData)
| StepAttemptStarted (data : StepAttemptStartedData)
| StepAttemptSucceeded (data : StepAttemptSucceededData)
| StepAttemptFailed (data : StepAttemptFailedData)
| StepRetryScheduled (data : StepRetryScheduledData)
| BranchSelected (data : BranchSelectedData)
| ChoiceSelected (data : ChoiceSelectedData)
| ParallelGroupStarted (data : ParallelGroupStartedData)
| ParallelGroupCompleted (data : ParallelGroupCompletedData)
| ApprovalRequested (data : ApprovalRequestedData)
| ApprovalReviewRequested (data : ApprovalReviewRequestedData)
| ApprovalReviewerDecisionRecorded (data : ApprovalReviewerDecisionRecordedData)
| ApprovalQuorumProgressed (data : ApprovalQuorumProgressedData)
| ApprovalResolved (data : ApprovalResolvedData)
| ApprovalInvalidated (data : ApprovalInvalidatedData)
| NotificationDeliveryRequested (data : NotificationDeliveryRequestedData)
| NotificationDeliveryAttemptStarted (data : NotificationDeliveryAttemptStartedData)
| NotificationDeliverySucceeded (data : NotificationDeliverySucceededData)
| NotificationDeliveryFailed (data : NotificationDeliveryFailedData)
| NotificationDecisionAccepted (data : NotificationDecisionAcceptedData)
| NotificationMessageUpdateRequested (data : NotificationMessageUpdateRequestedData)
| NotificationMessageUpdateAttemptStarted (data : NotificationMessageUpdateAttemptStartedData)
| NotificationMessageUpdated (data : NotificationMessageUpdatedData)
| NotificationMessageUpdateFailed (data : NotificationMessageUpdateFailedData)
| InfrastructurePolicyDecisionRecorded (data : InfrastructurePolicyDecisionRecordedData)
| RemoteDispatchTransitioned (data : RemoteDispatchTransitionedData)
| OperationStarted (data : OperationStartedData)
| OperationSucceeded (data : OperationSucceededData)
| OperationFailed (data : OperationFailedData)
| ForkOpened (data : ForkOpenedData)
| ForkBranchSettled (data : ForkBranchSettledData)
| ForkJoinSettled (data : ForkJoinSettledData)
| RunCancellationRequested (data : RunCancellationRequestedData)
| LifecycleHookRequested (data : LifecycleHookRequestedData)
| LifecycleActionAttemptStarted (data : LifecycleActionIdentityData)
| LifecycleActionSucceeded (data : LifecycleActionIdentityData)
| LifecycleActionFailed (data : LifecycleActionFailedData)
| LifecycleHookCompleted (data : LifecycleHookCompletedData)
| ReusableLifecycleRequested (data : ReusableLifecycleRequestedData)
| ReusableLifecycleActionStarted (data : ReusableLifecycleActionStartedData)
| ReusableLifecycleActionSucceeded (data : ReusableLifecycleActionSucceededData)
| ReusableLifecycleActionFailed (data : ReusableLifecycleActionFailedData)
| ReusableLifecycleCompleted (data : ReusableLifecycleCompletedData)
| ForEachOpened (data : ForEachOpenedData)
| ForEachIterationStarted (data : ForEachIterationIdentityData)
| ForEachIterationSucceeded (data : ForEachIterationSucceededData)
| ForEachIterationFailed (data : ForEachIterationFailedData)
| ForEachIterationSkipped (data : ForEachIterationSkippedData)
| ForEachSucceeded (data : ForEachSettledData)
| ForEachFailed (data : ForEachSettledData)
| ForEachCancelled (data : ForEachSettledData)
| WaitRegistered (data : WaitRegisteredData)
| ExternalSignalReceived (data : ExternalSignalReceivedData)
| WaitSatisfied (data : WaitSatisfiedData)
| WaitTimedOut (data : WaitTimedOutData)
| WaitCancelled (data : WaitCancelledData)
| LockWaitRegistered (data : LockWaitRegisteredData)
| LockAcquired (data : LockAcquiredData)
| LockReleased (data : LockReleasedData)
| LockAcquireTimedOut (data : LockAcquireTimedOutData)
| LockAcquisitionCancelled (data : LockAcquisitionCancelledData)
| LockLeaseLost (data : LockLeaseLostData)
| SagaStarted (data : SagaIdentityData)
| CompensationRegistered (data : CompensationRegisteredData)
| SagaForwardSucceeded (data : SagaIdentityData)
| SagaCorrectionStarted (data : SagaCorrectionStartedData)
| CorrectionAttemptStarted (data : CorrectionAttemptIdentityData)
| CorrectionAttemptSucceeded (data : CorrectionAttemptIdentityData)
| CorrectionAttemptFailed (data : CorrectionAttemptFailedData)
| CorrectionRetryScheduled (data : CorrectionRetryScheduledData)
| CorrectionInterrupted (data : CorrectionInterruptedData)
| SagaCorrectionCompleted (data : SagaIdentityData)
| ManualRecoveryRequired (data : ManualRecoveryRequiredData)
| RunOutcomeDecided (data : RunOutcomeDecidedData)
| RunFinalized (data : RunFinalizedData)
| RunSucceeded (data : RunSucceededData)
| RunFailed (data : RunFailedData).
End RunEventPayload.
Abbreviation RunEventPayload := RunEventPayload.RunEventPayload.

(** [RunEvent], event.rs. *)
Module RunEvent.
Record RunEvent := mk {
  event_schema_version : N;
  event_id : string;
  run_id : string;
  sequence : N;
  occurred_at : DateTime;
  iteration : option ForEachIterationScope;
  payload : RunEventPayload
}.
#[global] Instance RunEvent_eta : Eta RunEvent := λ r,
  {| event_schema_version := r.(event_schema_version);
     event_id := r.(event_id);
     run_id := r.(run_id);
     sequence := r.(sequence);
     occurred_at := r.(occurred_at);
     iteration := r.(iteration);
     payload := r.(payload) |}.
#[global] Instance set_event_schema_version : Setter event_schema_version := ltac:(mk_setter).
#[global] Instance set_iteration : Setter iteration := ltac:(mk_setter).
End RunEvent.
Abbreviation RunEvent := RunEvent.RunEvent.
