(* ===== verification/ProjectionTypes.v ===== *)
(** * Projection state

    The records of projection.rs and its data modules: what one run looks like
    after folding its history.  [BTreeMap] and [HashMap] are finite maps
    ([gmap]); the iteration order of a [BTreeMap] is supplied where the source
    depends on it. *)

From S2P Require Import Prelude Json EventTypes.

(** [AttemptIdentity], projection/attempts.rs. *)
Module AttemptIdentity.
Record AttemptIdentity := mk {
  node_id : string;
  attempt : N;
  invocation_id : string
}.
#[global] Instance AttemptIdentity_eq_dec : EqDecision AttemptIdentity.
Proof. solve_decision. Defined.
#[global] Instance AttemptIdentity_countable : Countable AttemptIdentity.
Proof.
  refine (inj_countable' (λ r, (r.(node_id), r.(attempt), r.(invocation_id))) (λ '(x0, x1, x2), mk x0 x1 x2) _).
  by intros [].
Defined.
End AttemptIdentity.
Abbreviation AttemptIdentity := AttemptIdentity.AttemptIdentity.

(** [AttemptStatus], projection/attempts.rs. *)
Module AttemptStatus.
Inductive AttemptStatus :=
| Started
| Succeeded (output : Value)
| Failed (failure : AttemptFailure).
End AttemptStatus.
Abbreviation AttemptStatus := AttemptStatus.AttemptStatus.

(** [AttemptProjection], projection/attempts.rs. *)
Module AttemptProjection.
Record AttemptProjection := mk {
  identity : AttemptIdentity;
  handler : string;
  idempotency_key : option string;
  status : AttemptStatus
}.
#[global] Instance AttemptProjection_eta : Eta AttemptProjection := λ r,
  {| identity := r.(identity);
     handler := r.(handler);
     idempotency_key := r.(idempotency_key);
     status := r.(status) |}.
#[global] Instance set_status : Setter status := ltac:(mk_setter).
End AttemptProjection.
Abbreviation AttemptProjection := AttemptProjection.AttemptProjection.

(** [RetryScheduleProjection], projection/attempts.rs. *)
Module RetryScheduleProjection.
Record RetryScheduleProjection := mk {
  node_id : string;
  failed_attempt : N;
  next_attempt : N;
  scheduled_at : DateTime
}.
#[global] Instance RetryScheduleProjection_eq_dec : EqDecision RetryScheduleProjection.
Proof. solve_decision. Defined.
End RetryScheduleProjection.
Abbreviation RetryScheduleProjection := RetryScheduleProjection.RetryScheduleProjection.

(** [ApprovalRequestStatus], projection/approvals.rs. *)
Module ApprovalRequestStatus.
Inductive ApprovalRequestStatus :=
| Waiting
| Resolved (resolution : ApprovalResolution) (resolved_at : DateTime).
#[global] Instance ApprovalRequestStatus_eq_dec : EqDecision ApprovalRequestStatus.
Proof. solve_decision. Defined.
End ApprovalRequestStatus.
Abbreviation ApprovalRequestStatus := ApprovalRequestStatus.ApprovalRequestStatus.

(** [ApprovalRequestProjection], projection/approvals.rs. *)
Module ApprovalRequestProjection.
Record ApprovalRequestProjection := mk {
  approval_id : string;
  request_id : string;
  requested_at : DateTime;
  expires_at : option DateTime;
  on_timeout : ApprovalTimeoutPolicy;
  status : ApprovalRequestStatus
}.
#[global] Instance ApprovalRequestProjection_eq_dec : EqDecision ApprovalRequestProjection.
Proof. solve_decision. Defined.
#[global] Instance ApprovalRequestProjection_eta : Eta ApprovalRequestProjection := λ r,
  {| approval_id := r.(approval_id);
     request_id := r.(request_id);
     requested_at := r.(requested_at);
     expires_at := r.(expires_at);
     on_timeout := r.(on_timeout);
     status := r.(status) |}.
#[global] Instance set_status : Setter status := ltac:(mk_setter).
End ApprovalRequestProjection.
Abbreviation ApprovalRequestProjection := ApprovalRequestProjection.ApprovalRequestProjection.

(** [RichApprovalRequestStatus], projection/approvals.rs. *)
Module RichApprovalRequestStatus.
Inductive RichApprovalRequestStatus :=
| Waiting
| Approved
| Rejected
| Expired
| Cancelled
| Invalidated.
#[global] Instance RichApprovalRequestStatus_eq_dec : EqDecision RichApprovalRequestStatus.
Proof. solve_decision. Defined.
End RichApprovalRequestStatus.
Abbreviation RichApprovalRequestStatus := RichApprovalRequestStatus.RichApprovalRequestStatus.

(** [RichApprovalReviewerDecisionProjection], projection/approvals.rs. *)
Module RichApprovalReviewerDecisionProjection.
Record RichApprovalReviewerDecisionProjection := mk {
  principal_id : string;
  decision : ApprovalDecision;
  decided_at : DateTime
}.
#[global] Instance RichApprovalReviewerDecisionProjection_eq_dec : EqDecision RichApprovalReviewerDecisionProjection.
Proof. solve_decision. Defined.
End RichApprovalReviewerDecisionProjection.
Abbreviation RichApprovalReviewerDecisionProjection := RichApprovalReviewerDecisionProjection.RichApprovalReviewerDecisionProjection.

(** [RichApprovalRequestProjection], projection/approvals.rs. *)
Module RichApprovalRequestProjection.
Record RichApprovalRequestProjection := mk {
  approval_id : string;
  request_id : string;
  review_digest : string;
  directory_version : string;
  required : N;
  required_roles : list string;
  represented_roles : list string;
  requested_at : DateTime;
  resolved_at : option DateTime;
  status : RichApprovalRequestStatus;
  decisions : gmap string RichApprovalReviewerDecisionProjection
}.
#[global] Instance RichApprovalRequestProjection_eq_dec : EqDecision RichApprovalRequestProjection.
Proof. solve_decision. Defined.
#[global] Instance RichApprovalRequestProjection_eta : Eta RichApprovalRequestProjection := λ r,
  {| approval_id := r.(approval_id);
     request_id := r.(request_id);
     review_digest := r.(review_digest);
     directory_version := r.(directory_version);
     required := r.(required);
     required_roles := r.(required_roles);
     represented_roles := r.(represented_roles);
     requested_at := r.(requested_at);
     resolved_at := r.(resolved_at);
     status := r.(status);
     decisions := r.(decisions) |}.
#[global] Instance set_represented_roles : Setter represented_roles := ltac:(mk_setter).
#[global] Instance set_resolved_at : Setter resolved_at := ltac:(mk_setter).
#[global] Instance set_status : Setter status := ltac:(mk_setter).
#[global] Instance set_decisions : Setter decisions := ltac:(mk_setter).
End RichApprovalRequestProjection.
Abbreviation RichApprovalRequestProjection := RichApprovalRequestProjection.RichApprovalRequestProjection.

(** [LockContext], projection/context.rs. *)
Module LockContext.
Record LockContext := mk {
  id : string;
  key : string;
  fencing_token : string;
  acquired_at : string
}.
#[global] Instance LockContext_eq_dec : EqDecision LockContext.
Proof. solve_decision. Defined.
End LockContext.
Abbreviation LockContext := LockContext.LockContext.

(** [WorkflowContext], projection/context.rs. *)
Module WorkflowContext.
Record WorkflowContext := mk {
  trigger : Map;
  steps : Map;
  lock : option LockContext
}.
#[global] Instance WorkflowContext_eta : Eta WorkflowContext := λ r,
  {| trigger := r.(trigger);
     steps := r.(steps);
     lock := r.(lock) |}.
#[global] Instance set_trigger : Setter trigger := ltac:(mk_setter).
#[global] Instance set_steps : Setter steps := ltac:(mk_setter).
#[global] Instance set_lock : Setter lock := ltac:(mk_setter).
End WorkflowContext.
Abbreviation WorkflowContext := WorkflowContext.WorkflowContext.

(** [OperationIdentity], projection/operations.rs. *)
Module OperationIdentity.
Record OperationIdentity := mk {
  invocation_id : string;
  call_id : string
}.
#[global] Instance OperationIdentity_eq_dec : EqDecision OperationIdentity.
Proof. solve_decision. Defined.
#[global] Instance OperationIdentity_countable : Countable OperationIdentity.
Proof.
  refine (inj_countable' (λ r, (r.(invocation_id), r.(call_id))) (λ '(x0, x1), mk x0 x1) _).
  by intros [].
Defined.
End OperationIdentity.
Abbreviation OperationIdentity := OperationIdentity.OperationIdentity.

(** [OperationStatus], projection/operations.rs. *)
Module OperationStatus.
Inductive OperationStatus :=
| Started
| Succeeded (duration_ms : f64) (result_bytes : N) (result_digest : string)
| Failed (duration_ms : f64) (failure : CapabilityFailure).
End OperationStatus.
Abbreviation OperationStatus := OperationStatus.OperationStatus.

(** [OperationProjection], projection/operations.rs. *)
Module OperationProjection.
Record OperationProjection := mk {
  identity : OperationIdentity;
  node_id : string;
  attempt_number : N;
  operation_key : string;
  capability : string;
  operation : string;
  execution_mode : OperationExecutionMode;
  metadata : Map;
  status : OperationStatus
}.
#[global] Instance OperationProjection_eta : Eta OperationProjection := λ r,
  {| identity := r.(identity);
     node_id := r.(node_id);
     attempt_number := r.(attempt_number);
     operation_key := r.(operation_key);
     capability := r.(capability);
     operation := r.(operation);
     execution_mode := r.(execution_mode);
     metadata := r.(metadata);
     status := r.(status) |}.
#[global] Instance set_metadata : Setter metadata := ltac:(mk_setter).
#[global] Instance set_status : Setter status := ltac:(mk_setter).
End OperationProjection.
Abbreviation OperationProjection := OperationProjection.OperationProjection.

(** [LifecycleStatus], projection/lifecycle.rs. *)
Module LifecycleStatus.
Inductive LifecycleStatus :=
| Idle
| Running
| Finalizing
| CompletedWithWarnings
| Completed.
#[global] Instance LifecycleStatus_eq_dec : EqDecision LifecycleStatus.
Proof. solve_decision. Defined.
End LifecycleStatus.
Abbreviation LifecycleStatus := LifecycleStatus.LifecycleStatus.

(** [LifecycleActionStatus], projection/lifecycle.rs. *)
Module LifecycleActionStatus.
Inductive LifecycleActionStatus :=
| Started
| Succeeded
| Failed.
#[global] Instance LifecycleActionStatus_eq_dec : EqDecision LifecycleActionStatus.
Proof. solve_decision. Defined.
End LifecycleActionStatus.
Abbreviation LifecycleActionStatus := LifecycleActionStatus.LifecycleActionStatus.

(** [LifecycleActionProjection], projection/lifecycle.rs. *)
Module LifecycleActionProjection.
Record LifecycleActionProjection := mk {
  action_id : string;
  attempt : N;
  status : LifecycleActionStatus;
  failure : option LifecycleFailure
}.
#[global] Instance LifecycleActionProjection_eq_dec : EqDecision LifecycleActionProjection.
Proof. solve_decision. Defined.
#[global] Instance LifecycleActionProjection_eta : Eta LifecycleActionProjection := λ r,
  {| action_id := r.(action_id);
     attempt := r.(attempt);
     status := r.(status);
     failure := r.(failure) |}.
#[global] Instance set_status : Setter status := ltac:(mk_setter).
#[global] Instance set_failure : Setter failure := ltac:(mk_setter).
End LifecycleActionProjection.
Abbreviation LifecycleActionProjection := LifecycleActionProjection.LifecycleActionProjection.

(** [LifecycleHookStatus], projection/lifecycle.rs. *)
Module LifecycleHookStatus.
Inductive LifecycleHookStatus :=
| Requested
| Running
| Completed
| CompletedWithWarnings.
#[global] Instance LifecycleHookStatus_eq_dec : EqDecision LifecycleHookStatus.
Proof. solve_decision. Defined.
End LifecycleHookStatus.
Abbreviation LifecycleHookStatus := LifecycleHookStatus.LifecycleHookStatus.

(** [LifecycleHookProjection], projection/lifecycle.rs. *)
Module LifecycleHookProjection.
Record LifecycleHookProjection := mk {
  hook_invocation_id : string;
  hook_id : string;
  event : LifecycleEventName;
  subject : LifecycleSubject;
  status : LifecycleHookStatus;
  actions : gmap string LifecycleActionProjection;
  failed_actions : N
}.
#[global] Instance LifecycleHookProjection_eq_dec : EqDecision LifecycleHookProjection.
Proof. solve_decision. Defined.
#[global] Instance LifecycleHookProjection_eta : Eta LifecycleHookProjection := λ r,
  {| hook_invocation_id := r.(hook_invocation_id);
     hook_id := r.(hook_id);
     event := r.(event);
     subject := r.(subject);
     status := r.(status);
     actions := r.(actions);
     failed_actions := r.(failed_actions) |}.
#[global] Instance set_status : Setter status := ltac:(mk_setter).
#[global] Instance set_actions : Setter actions := ltac:(mk_setter).
#[global] Instance set_failed_actions : Setter failed_actions := ltac:(mk_setter).
End LifecycleHookProjection.
Abbreviation LifecycleHookProjection := LifecycleHookProjection.LifecycleHookProjection.

(** [ReusableLifecycleStatus], projection/lifecycle.rs. *)
Module ReusableLifecycleStatus.
Inductive ReusableLifecycleStatus :=
| Requested
| Running
| Completed
| CompletedWithWarnings.
#[global] Instance ReusableLifecycleStatus_eq_dec : EqDecision ReusableLifecycleStatus.
Proof. solve_decision. Defined.
End ReusableLifecycleStatus.
Abbreviation ReusableLifecycleStatus := ReusableLifecycleStatus.ReusableLifecycleStatus.

(** [ReusableLifecycleProjection], projection/lifecycle.rs. *)
Module ReusableLifecycleProjection.
Record ReusableLifecycleProjection := mk {
  invocation_id : string;
  definition_digest : string;
  hook : ReusableLifecycleHook;
  status : ReusableLifecycleStatus;
  active_action_id : option string;
  completed_action_ids : list string;
  warning_codes : list string
}.
#[global] Instance ReusableLifecycleProjection_eq_dec : EqDecision ReusableLifecycleProjection.
Proof. solve_decision. Defined.
#[global] Instance ReusableLifecycleProjection_eta : Eta ReusableLifecycleProjection := λ r,
  {| invocation_id := r.(invocation_id);
     definition_digest := r.(definition_digest);
     hook := r.(hook);
     status := r.(status);
     active_action_id := r.(active_action_id);
     completed_action_ids := r.(completed_action_ids);
     warning_codes := r.(warning_codes) |}.
#[global] Instance set_status : Setter status := ltac:(mk_setter).
#[global] Instance set_active_action_id : Setter active_action_id := ltac:(mk_setter).
#[global] Instance set_completed_action_ids : Setter completed_action_ids := ltac:(mk_setter).
#[global] Instance set_warning_codes : Setter warning_codes := ltac:(mk_setter).
End ReusableLifecycleProjection.
Abbreviation ReusableLifecycleProjection := ReusableLifecycleProjection.ReusableLifecycleProjection.

(** [DurableWaitStatus], projection/waits_and_locks.rs. *)
Module DurableWaitStatus.
Inductive DurableWaitStatus :=
| Registered
| Satisfied (winner : DurableWaitWinner)
| TimedOut (behavior : DurableWaitTimeoutBehavior)
| Cancelled.
#[global] Instance DurableWaitStatus_eq_dec : EqDecision DurableWaitStatus.
Proof. solve_decision. Defined.
End DurableWaitStatus.
Abbreviation DurableWaitStatus := DurableWaitStatus.DurableWaitStatus.

(** [DurableWaitProjection], projection/waits_and_locks.rs. *)
Module DurableWaitProjection.
Record DurableWaitProjection := mk {
  wait_id : string;
  node_id : string;
  kind : DurableWaitKind;
  registered_at : DateTime;
  deadline : option DateTime;
  signals : list string;
  correlation_digest : option string;
  status : DurableWaitStatus;
  resolved_at : option DateTime
}.
#[global] Instance DurableWaitProjection_eq_dec : EqDecision DurableWaitProjection.
Proof. solve_decision. Defined.
#[global] Instance DurableWaitProjection_eta : Eta DurableWaitProjection := λ r,
  {| wait_id := r.(wait_id);
     node_id := r.(node_id);
     kind := r.(kind);
     registered_at := r.(registered_at);
     deadline := r.(deadline);
     signals := r.(signals);
     correlation_digest := r.(correlation_digest);
     status := r.(status);
     resolved_at := r.(resolved_at) |}.
#[global] Instance set_status : Setter status := ltac:(mk_setter).
#[global] Instance set_resolved_at : Setter resolved_at := ltac:(mk_setter).
End DurableWaitProjection.
Abbreviation DurableWaitProjection := DurableWaitProjection.DurableWaitProjection.

(** [LockStatus], projection/waits_and_locks.rs. *)
Module LockStatus.
Inductive LockStatus :=
| Waiting
| Held
| Released
| AcquireTimedOut
| AcquisitionCancelled
| LeaseLost.
#[global] Instance LockStatus_eq_dec : EqDecision LockStatus.
Proof. solve_decision. Defined.
End LockStatus.
Abbreviation LockStatus := LockStatus.LockStatus.

(** [LockProjection], projection/waits_and_locks.rs. *)
Module LockProjection.
Record LockProjection := mk {
  lock_id : string;
  key : string;
  waiter_sequence : N;
  execution_identity : string;
  registered_at : DateTime;
  deadline : DateTime;
  status : LockStatus;
  lease_id : option string;
  fencing_token : option string;
  acquired_at : option DateTime;
  expires_at : option DateTime;
  resolved_at : option DateTime
}.
#[global] Instance LockProjection_eq_dec : EqDecision LockProjection.
Proof. solve_decision. Defined.
#[global] Instance LockProjection_eta : Eta LockProjection := λ r,
  {| lock_id := r.(lock_id);
     key := r.(key);
     waiter_sequence := r.(waiter_sequence);
     execution_identity := r.(execution_identity);
     registered_at := r.(registered_at);
     deadline := r.(deadline);
     status := r.(status);
     lease_id := r.(lease_id);
     fencing_token := r.(fencing_token);
     acquired_at := r.(acquired_at);
     expires_at := r.(expires_at);
     resolved_at := r.(resolved_at) |}.
#[global] Instance set_status : Setter status := ltac:(mk_setter).
#[global] Instance set_lease_id : Setter lease_id := ltac:(mk_setter).
#[global] Instance set_fencing_token : Setter fencing_token := ltac:(mk_setter).
#[global] Instance set_acquired_at : Setter acquired_at := ltac:(mk_setter).
#[global] Instance set_expires_at : Setter expires_at := ltac:(mk_setter).
#[global] Instance set_resolved_at : Setter resolved_at := ltac:(mk_setter).
End LockProjection.
Abbreviation LockProjection := LockProjection.LockProjection.

(** [NotificationDeliveryStatus], projection/notifications.rs. *)
Module NotificationDeliveryStatus.
Inductive NotificationDeliveryStatus :=
| Requested
| AttemptStarted (attempt : N) (attempt_id : string) (idempotency_key : string)
| Succeeded (attempt : N) (attempt_id : string) (provider_message : ProviderMessageIdentity)
| Failed (attempt : N) (attempt_id : string) (final_ : bool) (failure : NotificationSafeFailure) (failed_at : DateTime).
#[global] Instance NotificationDeliveryStatus_eq_dec : EqDecision NotificationDeliveryStatus.
Proof. solve_decision. Defined.
End NotificationDeliveryStatus.
Abbreviation NotificationDeliveryStatus := NotificationDeliveryStatus.NotificationDeliveryStatus.

(** [NotificationDeliveryProjection], projection/notifications.rs. *)
Module NotificationDeliveryProjection.
Record NotificationDeliveryProjection := mk {
  approval_id : string;
  request_id : string;
  delivery_id : string;
  provider : string;
  destination : string;
  status : NotificationDeliveryStatus
}.
#[global] Instance NotificationDeliveryProjection_eq_dec : EqDecision NotificationDeliveryProjection.
Proof. solve_decision. Defined.
#[global] Instance NotificationDeliveryProjection_eta : Eta NotificationDeliveryProjection := λ r,
  {| approval_id := r.(approval_id);
     request_id := r.(request_id);
     delivery_id := r.(delivery_id);
     provider := r.(provider);
     destination := r.(destination);
     status := r.(status) |}.
#[global] Instance set_status : Setter status := ltac:(mk_setter).
End NotificationDeliveryProjection.
Abbreviation NotificationDeliveryProjection := NotificationDeliveryProjection.NotificationDeliveryProjection.

(** [NotificationMessageUpdateStatus], projection/notifications.rs. *)
Module NotificationMessageUpdateStatus.
Inductive NotificationMessageUpdateStatus :=
| Requested
| AttemptStarted (attempt : N) (attempt_id : string)
| Updated (attempt : N) (attempt_id : string)
| Failed (attempt : N) (attempt_id : string) (final_ : bool) (failure : NotificationSafeFailure) (failed_at : DateTime).
#[global] Instance NotificationMessageUpdateStatus_eq_dec : EqDecision NotificationMessageUpdateStatus.
Proof. solve_decision. Defined.
End NotificationMessageUpdateStatus.
Abbreviation NotificationMessageUpdateStatus := NotificationMessageUpdateStatus.NotificationMessageUpdateStatus.

(** [NotificationMessageUpdateProjection], projection/notifications.rs. *)
Module NotificationMessageUpdateProjection.
Record NotificationMessageUpdateProjection := mk {
  approval_id : string;
  request_id : string;
  delivery_id : string;
  update_id : string;
  resolution : NotificationResolution;
  status : NotificationMessageUpdateStatus
}.
#[global] Instance NotificationMessageUpdateProjection_eq_dec : EqDecision NotificationMessageUpdateProjection.
Proof. solve_decision. Defined.
#[global] Instance NotificationMessageUpdateProjection_eta : Eta NotificationMessageUpdateProjection := λ r,
  {| approval_id := r.(approval_id);
     request_id := r.(request_id);
     delivery_id := r.(delivery_id);
     update_id := r.(update_id);
     resolution := r.(resolution);
     status := r.(status) |}.
#[global] Instance set_status : Setter status := ltac:(mk_setter).
End NotificationMessageUpdateProjection.
Abbreviation NotificationMessageUpdateProjection := NotificationMessageUpdateProjection.NotificationMessageUpdateProjection.

(** [SagaPhase], projection/correction.rs. *)
Module SagaPhase.
Inductive SagaPhase :=
| Forward
| ForwardSucceeded
| Correcting
| CorrectionCompleted
| ManualRecovery.
#[global] Instance SagaPhase_eq_dec : EqDecision SagaPhase.
Proof. solve_decision. Defined.
End SagaPhase.
Abbreviation SagaPhase := SagaPhase.SagaPhase.

(** [CorrectionActionStatus], projection/correction.rs. *)
Module CorrectionActionStatus.
Inductive CorrectionActionStatus :=
| Registered
| Started
| RetryScheduled
| Succeeded
| Failed
| Interrupted
| ManualRecovery.
#[global] Instance CorrectionActionStatus_eq_dec : EqDecision CorrectionActionStatus.
Proof. solve_decision. Defined.
End CorrectionActionStatus.
Abbreviation CorrectionActionStatus := CorrectionActionStatus.CorrectionActionStatus.

(** [CorrectionActionProjection], projection/correction.rs. *)
Module CorrectionActionProjection.
Record CorrectionActionProjection := mk {
  action_id : string;
  action_kind : CorrectiveActionKind;
  for_step_id : option string;
  completion_sequence : option N;
  status : CorrectionActionStatus;
  attempts : N;
  active_attempt : option N;
  retry_at : option DateTime;
  failure_code : option string;
  ambiguous : bool
}.
#[global] Instance CorrectionActionProjection_eq_dec : EqDecision CorrectionActionProjection.
Proof. solve_decision. Defined.
#[global] Instance CorrectionActionProjection_eta : Eta CorrectionActionProjection := λ r,
  {| action_id := r.(action_id);
     action_kind := r.(action_kind);
     for_step_id := r.(for_step_id);
     completion_sequence := r.(completion_sequence);
     status := r.(status);
     attempts := r.(attempts);
     active_attempt := r.(active_attempt);
     retry_at := r.(retry_at);
     failure_code := r.(failure_code);
     ambiguous := r.(ambiguous) |}.
#[global] Instance set_status : Setter status := ltac:(mk_setter).
#[global] Instance set_attempts : Setter attempts := ltac:(mk_setter).
#[global] Instance set_active_attempt : Setter active_attempt := ltac:(mk_setter).
#[global] Instance set_retry_at : Setter retry_at := ltac:(mk_setter).
#[global] Instance set_failure_code : Setter failure_code := ltac:(mk_setter).
#[global] Instance set_ambiguous : Setter ambiguous := ltac:(mk_setter).
End CorrectionActionProjection.
Abbreviation CorrectionActionProjection := CorrectionActionProjection.CorrectionActionProjection.

(** [SagaProjection], projection/correction.rs. *)
Module SagaProjection.
Record SagaProjection := mk {
  saga_id : string;
  phase : SagaPhase;
  reason : option SagaCorrectionReason;
  started_sequence : N;
  forward_succeeded_sequence : option N;
  correction_completed_sequence : option N;
  actions : gmap string CorrectionActionProjection
}.
#[global] Instance SagaProjection_eq_dec : EqDecision SagaProjection.
Proof. solve_decision. Defined.
#[global] Instance SagaProjection_eta : Eta SagaProjection := λ r,
  {| saga_id := r.(saga_id);
     phase := r.(phase);
     reason := r.(reason);
     started_sequence := r.(started_sequence);
     forward_succeeded_sequence := r.(forward_succeeded_sequence);
     correction_completed_sequence := r.(correction_completed_sequence);
     actions := r.(actions) |}.
#[global] Instance set_phase : Setter phase := ltac:(mk_setter).
#[global] Instance set_reason : Setter reason := ltac:(mk_setter).
#[global] Instance set_forward_succeeded_sequence : Setter forward_succeeded_sequence := ltac:(mk_setter).
#[global] Instance set_correction_completed_sequence : Setter correction_completed_sequence := ltac:(mk_setter).
#[global] Instance set_actions : Setter actions := ltac:(mk_setter).
End SagaProjection.
Abbreviation SagaProjection := SagaProjection.SagaProjection.

(** [ParallelGroupStatus], projection/control_flow.rs. *)
Module ParallelGroupStatus.
Inductive ParallelGroupStatus :=
| Started
| Completed (outcome : ParallelGroupOutcome) (failed_node_ids : list string) (cancelled_node_ids : list string).
#[global] Instance ParallelGroupStatus_eq_dec : EqDecision ParallelGroupStatus.
Proof. solve_decision. Defined.
End ParallelGroupStatus.
Abbreviation ParallelGroupStatus := ParallelGroupStatus.ParallelGroupStatus.

(** [ParallelGroupProjection], projection/control_flow.rs. *)
Module ParallelGroupProjection.
Record ParallelGroupProjection := mk {
  parallel_id : string;
  fork_context : WorkflowContext;
  status : ParallelGroupStatus
}.
#[global] Instance ParallelGroupProjection_eta : Eta ParallelGroupProjection := λ r,
  {| parallel_id := r.(parallel_id);
     fork_context := r.(fork_context);
     status := r.(status) |}.
#[global] Instance set_status : Setter status := ltac:(mk_setter).
End ParallelGroupProjection.
Abbreviation ParallelGroupProjection := ParallelGroupProjection.ParallelGroupProjection.

(** [ForkJoinStatus], projection/control_flow.rs. *)
Module ForkJoinStatus.
Inductive ForkJoinStatus :=
| Pending
| Succeeded
| Failed
| Cancelled.
#[global] Instance ForkJoinStatus_eq_dec : EqDecision ForkJoinStatus.
Proof. solve_decision. Defined.
End ForkJoinStatus.
Abbreviation ForkJoinStatus := ForkJoinStatus.ForkJoinStatus.

(** [ForkBranchProjection], projection/control_flow.rs. *)
Module ForkBranchProjection.
Record ForkBranchProjection := mk {
  branch_id : string;
  terminal_node_id : option string;
  outcome : option ForkBranchOutcome
}.
#[global] Instance ForkBranchProjection_eq_dec : EqDecision ForkBranchProjection.
Proof. solve_decision. Defined.
End ForkBranchProjection.
Abbreviation ForkBranchProjection := ForkBranchProjection.ForkBranchProjection.

(** [ForkProjection], projection/control_flow.rs. *)
Module ForkProjection.
Record ForkProjection := mk {
  fork_id : string;
  branches : gmap string ForkBranchProjection;
  join_status : ForkJoinStatus;
  blocking_branch_id : option string
}.
#[global] Instance ForkProjection_eq_dec : EqDecision ForkProjection.
Proof. solve_decision. Defined.
#[global] Instance ForkProjection_eta : Eta ForkProjection := λ r,
  {| fork_id := r.(fork_id);
     branches := r.(branches);
     join_status := r.(join_status);
     blocking_branch_id := r.(blocking_branch_id) |}.
#[global] Instance set_branches : Setter branches := ltac:(mk_setter).
#[global] Instance set_join_status : Setter join_status := ltac:(mk_setter).
#[global] Instance set_blocking_branch_id : Setter blocking_branch_id := ltac:(mk_setter).
End ForkProjection.
Abbreviation ForkProjection := ForkProjection.ForkProjection.

(** [ForEachStatus], projection/control_flow.rs. *)
Module ForEachStatus.
Inductive ForEachStatus :=
| Open
| Succeeded
| Failed
| Cancelled.
#[global] Instance ForEachStatus_eq_dec : EqDecision ForEachStatus.
Proof. solve_decision. Defined.
End ForEachStatus.
Abbreviation ForEachStatus := ForEachStatus.ForEachStatus.

(** [ForEachIterationStatus], projection/control_flow.rs. *)
Module ForEachIterationStatus.
Inductive ForEachIterationStatus :=
| Started
| Succeeded (result : option Value)
| Failed (failed_node_id : string)
| Skipped.
End ForEachIterationStatus.
Abbreviation ForEachIterationStatus := ForEachIterationStatus.ForEachIterationStatus.

(** [ForEachIterationExecutionProjection], projection/control_flow.rs. *)
Module ForEachIterationExecutionProjection.
Record ForEachIterationExecutionProjection := mk {
  context : WorkflowContext;
  attempts : list AttemptProjection;
  operations : gmap OperationIdentity OperationProjection;
  pending_retries : gmap string RetryScheduleProjection;
  branch_selections : gmap string string;
  choice_selections : gmap string string;
  parallel_groups : gmap string ParallelGroupProjection;
  lifecycle_hooks : gmap string LifecycleHookProjection;
  reusable_lifecycle_hooks : gmap string ReusableLifecycleProjection;
  locks : gmap string LockProjection
}.
#[global] Instance ForEachIterationExecutionProjection_eta : Eta ForEachIterationExecutionProjection := λ r,
  {| context := r.(context);
     attempts := r.(attempts);
     operations := r.(operations);
     pending_retries := r.(pending_retries);
     branch_selections := r.(branch_selections);
     choice_selections := r.(choice_selections);
     parallel_groups := r.(parallel_groups);
     lifecycle_hooks := r.(lifecycle_hooks);
     reusable_lifecycle_hooks := r.(reusable_lifecycle_hooks);
     locks := r.(locks) |}.
#[global] Instance set_context : Setter context := ltac:(mk_setter).
#[global] Instance set_attempts : Setter attempts := ltac:(mk_setter).
#[global] Instance set_operations : Setter operations := ltac:(mk_setter).
#[global] Instance set_pending_retries : Setter pending_retries := ltac:(mk_setter).
#[global] Instance set_branch_selections : Setter branch_selections := ltac:(mk_setter).
#[global] Instance set_choice_selections : Setter choice_selections := ltac:(mk_setter).
#[global] Instance set_parallel_groups : Setter parallel_groups := ltac:(mk_setter).
#[global] Instance set_lifecycle_hooks : Setter lifecycle_hooks := ltac:(mk_setter).
#[global] Instance set_reusable_lifecycle_hooks : Setter reusable_lifecycle_hooks := ltac:(mk_setter).
#[global] Instance set_locks : Setter locks := ltac:(mk_setter).
End ForEachIterationExecutionProjection.
Abbreviation ForEachIterationExecutionProjection := ForEachIterationExecutionProjection.ForEachIterationExecutionProjection.

(** [ForEachProjection], projection/control_flow.rs. *)
Module ForEachProjection.
Record ForEachProjection := mk {
  for_each_id : string;
  total : N;
  items_digest : string;
  concurrency : N;
  status : ForEachStatus;
  iterations : gmap N ForEachIterationStatus;
  executions : gmap N ForEachIterationExecutionProjection
}.
#[global] Instance ForEachProjection_eta : Eta ForEachProjection := λ r,
  {| for_each_id := r.(for_each_id);
     total := r.(total);
     items_digest := r.(items_digest);
     concurrency := r.(concurrency);
     status := r.(status);
     iterations := r.(iterations);
     executions := r.(executions) |}.
#[global] Instance set_status : Setter status := ltac:(mk_setter).
#[global] Instance set_iterations : Setter iterations := ltac:(mk_setter).
#[global] Instance set_executions : Setter executions := ltac:(mk_setter).
End ForEachProjection.
Abbreviation ForEachProjection := ForEachProjection.ForEachProjection.

(** [RunStatus], projection/run.rs. *)
Module RunStatus.
Inductive RunStatus :=
| NotStarted
| Queued
| Running
| Waiting
| Cancelling
| Finalizing
| Succeeded
| Failed
| Cancelled.
#[global] Instance RunStatus_eq_dec : EqDecision RunStatus.
Proof. solve_decision. Defined.
End RunStatus.
Abbreviation RunStatus := RunStatus.RunStatus.

(** [RunFailure], projection/run.rs. *)
Module RunFailure.
Inductive RunFailure :=
| Attempt (data : AttemptFailure)
| Branch (data : BranchFailure)
| Parallel (parallel_id : string) (policy : ParallelFailurePolicy) (primary_node_id : string) (failed_node_ids : list string) (cancelled_node_ids : list string) (failure : ParallelFailure)
| Approval (approval_id : string) (request_id : string) (failure : ApprovalFailure)
| Notification (approval_id : string) (request_id : string) (failed_delivery_ids : list string) (failure : NotificationRunFailure).
End RunFailure.
Abbreviation RunFailure := RunFailure.RunFailure.

(** [RunProjection], projection/run.rs. *)
Module RunProjection.
Record RunProjection := mk {
  event_schema_version : option N;
  run_id : option string;
  workflow_id : option string;
  definition_hash : option string;
  policy_hash : option string;
  queue : option string;
  occurrence_sequence : option N;
  admitted_at : option DateTime;
  started_at : option DateTime;
  timeout_at : option DateTime;
  timeout_reached_at : option DateTime;
  trigger_id : option string;
  trigger_handler : option string;
  trigger_occurrence_id : option string;
  ingress : option RunIngress;
  status : RunStatus;
  business_outcome : option BusinessOutcome;
  lifecycle_status : LifecycleStatus;
  cancellation_request_id : option string;
  lifecycle_hooks : gmap string LifecycleHookProjection;
  reusable_lifecycle_hooks : gmap string ReusableLifecycleProjection;
  lifecycle_warnings : list LifecycleWarning;
  context : WorkflowContext;
  attempts : list AttemptProjection;
  infrastructure_policy_decisions : list InfrastructurePolicyDecisionRecordedData;
  operations : gmap OperationIdentity OperationProjection;
  pending_retries : gmap string RetryScheduleProjection;
  branch_selections : gmap string string;
  choice_selections : gmap string string;
  parallel_groups : gmap string ParallelGroupProjection;
  forks : gmap string ForkProjection;
  for_each : gmap string ForEachProjection;
  approval_requests : gmap string ApprovalRequestProjection;
  rich_approval_requests : gmap string RichApprovalRequestProjection;
  durable_waits : gmap string DurableWaitProjection;
  locks : gmap string LockProjection;
  sagas : gmap string SagaProjection;
  external_signals : list ExternalSignalReceivedData;
  notification_deliveries : gmap string NotificationDeliveryProjection;
  notification_updates : gmap string NotificationMessageUpdateProjection;
  notification_decisions : list NotificationDecisionAcceptedData;
  terminal_node_id : option string;
  result : option Value;
  failure : option RunFailure;
  lifecycle_failure : option LifecycleFailure;
  last_sequence : N
}.
#[global] Instance RunProjection_eta : Eta RunProjection := λ r,
  {| event_schema_version := r.(event_schema_version);
     run_id := r.(run_id);
     workflow_id := r.(workflow_id);
     definition_hash := r.(definition_hash);
     policy_hash := r.(policy_hash);
     queue := r.(queue);
     occurrence_sequence := r.(occurrence_sequence);
     admitted_at := r.(admitted_at);
     started_at := r.(started_at);
     timeout_at := r.(timeout_at);
     timeout_reached_at := r.(timeout_reached_at);
     trigger_id := r.(trigger_id);
     trigger_handler := r.(trigger_handler);
     trigger_occurrence_id := r.(trigger_occurrence_id);
     ingress := r.(ingress);
     status := r.(status);
     business_outcome := r.(business_outcome);
     lifecycle_status := r.(lifecycle_status);
     cancellation_request_id := r.(cancellation_request_id);
     lifecycle_hooks := r.(lifecycle_hooks);
     reusable_lifecycle_hooks := r.(reusable_lifecycle_hooks);
     lifecycle_warnings := r.(lifecycle_warnings);
     context := r.(context);
     attempts := r.(attempts);
     infrastructure_policy_decisions := r.(infrastructure_policy_decisions);
     operations := r.(operations);
     pending_retries := r.(pending_retries);
     branch_selections := r.(branch_selections);
     choice_selections := r.(choice_selections);
     parallel_groups := r.(parallel_groups);
     forks := r.(forks);
     for_each := r.(for_each);
     approval_requests := r.(approval_requests);
     rich_approval_requests := r.(rich_approval_requests);
     durable_waits := r.(durable_waits);
     locks := r.(locks);
     sagas := r.(sagas);
     external_signals := r.(external_signals);
     notification_deliveries := r.(notification_deliveries);
     notification_updates := r.(notification_updates);
     notification_decisions := r.(notification_decisions);
     terminal_node_id := r.(terminal_node_id);
     result := r.(result);
     failure := r.(failure);
     lifecycle_failure := r.(lifecycle_failure);
     last_sequence := r.(last_sequence) |}.
#[global] Instance set_event_schema_version : Setter event_schema_version := ltac:(mk_setter).
#[global] Instance set_run_id : Setter run_id := ltac:(mk_setter).
#[global] Instance set_workflow_id : Setter workflow_id := ltac:(mk_setter).
#[global] Instance set_definition_hash : Setter definition_hash := ltac:(mk_setter).
#[global] Instance set_policy_hash : Setter policy_hash := ltac:(mk_setter).
#[global] Instance set_queue : Setter queue := ltac:(mk_setter).
#[global] Instance set_occurrence_sequence : Setter occurrence_sequence := ltac:(mk_setter).
#[global] Instance set_admitted_at : Setter admitted_at := ltac:(mk_setter).
#[global] Instance set_started_at : Setter started_at := ltac:(mk_setter).
#[global] Instance set_timeout_at : Setter timeout_at := ltac:(mk_setter).
#[global] Instance set_timeout_reached_at : Setter timeout_reached_at := ltac:(mk_setter).
#[global] Instance set_trigger_id : Setter trigger_id := ltac:(mk_setter).
#[global] Instance set_trigger_handler : Setter trigger_handler := ltac:(mk_setter).
#[global] Instance set_trigger_occurrence_id : Setter trigger_occurrence_id := ltac:(mk_setter).
#[global] Instance set_ingress : Setter ingress := ltac:(mk_setter).
#[global] Instance set_status : Setter status := ltac:(mk_setter).
#[global] Instance set_business_outcome : Setter business_outcome := ltac:(mk_setter).
#[global] Instance set_lifecycle_status : Setter lifecycle_status := ltac:(mk_setter).
#[global] Instance set_cancellation_request_id : Setter cancellation_request_id := ltac:(mk_setter).
#[global] Instance set_lifecycle_hooks : Setter lifecycle_hooks := ltac:(mk_setter).
#[global] Instance set_reusable_lifecycle_hooks : Setter reusable_lifecycle_hooks := ltac:(mk_setter).
#[global] Instance set_lifecycle_warnings : Setter lifecycle_warnings := ltac:(mk_setter).
#[global] Instance set_context : Setter context := ltac:(mk_setter).
#[global] Instance set_attempts : Setter attempts := ltac:(mk_setter).
#[global] Instance set_infrastructure_policy_decisions : Setter infrastructure_policy_decisions := ltac:(mk_setter).
#[global] Instance set_operations : Setter operations := ltac:(mk_setter).
#[global] Instance set_pending_retries : Setter pending_retries := ltac:(mk_setter).
#[global] Instance set_branch_selections : Setter branch_selections := ltac:(mk_setter).
#[global] Instance set_choice_selections : Setter choice_selections := ltac:(mk_setter).
#[global] Instance set_parallel_groups : Setter parallel_groups := ltac:(mk_setter).
#[global] Instance set_forks : Setter forks := ltac:(mk_setter).
#[global] Instance set_for_each : Setter for_each := ltac:(mk_setter).
#[global] Instance set_approval_requests : Setter approval_requests := ltac:(mk_setter).
#[global] Instance set_rich_approval_requests : Setter rich_approval_requests := ltac:(mk_setter).
#[global] Instance set_durable_waits : Setter durable_waits := ltac:(mk_setter).
#[global] Instance set_locks : Setter locks := ltac:(mk_setter).
#[global] Instance set_sagas : Setter sagas := ltac:(mk_setter).
#[global] Instance set_external_signals : Setter external_signals := ltac:(mk_setter).
#[global] Instance set_notification_deliveries : Setter notification_deliveries := ltac:(mk_setter).
#[global] Instance set_notification_updates : Setter notification_updates := ltac:(mk_setter).
#[global] Instance set_notification_decisions : Setter notification_decisions := ltac:(mk_setter).
#[global] Instance set_terminal_node_id : Setter terminal_node_id := ltac:(mk_setter).
#[global] Instance set_result : Setter result := ltac:(mk_setter).
#[global] Instance set_failure : Setter failure := ltac:(mk_setter).
#[global] Instance set_lifecycle_failure : Setter lifecycle_failure := ltac:(mk_setter).
#[global] Instance set_last_sequence : Setter last_sequence := ltac:(mk_setter).
End RunProjection.
Abbreviation RunProjection := RunProjection.RunProjection.
