(* ===== verification/Guards.v ===== *)
(** * Code the engine calls and does not own, projection queries and guards

    The projection and the event contract call four third-party crates.  Each
    call is a parameter of the model, collected in the class [Externals];
    nothing is assumed about the functions beyond their types, so every theorem
    holds for every implementation of them.

    Then the read-only part of the projection: the methods of [RunProjection]
    (projection/run.rs), the guards every transition shares
    (projection/guards.rs) and the search for the active corrective attempt
    (projection/correction.rs). *)

From S2P Require Import Prelude Json EventTypes ProjectionTypes.

Class Externals := {
  (** [serde_json::to_vec(value)]: the length of the encoding, [None] for [Err]. *)
  serde_json_encoded_len : Value → option N;
  (** The same for a policy decision record. *)
  policy_decision_encoded_len : InfrastructurePolicyDecisionRecordV1 → option N;
  (** [serde_json_canonicalizer::to_vec(value)], [None] for [Err]. *)
  canonical_json : Value → option string;
  (** The lower-case hexadecimal SHA-256 digest of some bytes ([sha2], [hex]). *)
  sha256_hex : string → string;
  (** [DateTime::to_rfc3339_opts(SecondsFormat::Millis, true)] ([chrono]). *)
  rfc3339_millis : DateTime → string;
}.

(** The byte 0. *)
Definition nul : string := String (Ascii.ascii_of_nat 0) EmptyString.

(** [u32::to_be_bytes]. *)
Definition u32_to_be_bytes (n : N) : string :=
  let byte k := Ascii.ascii_of_N (N.land (N.shiftr n k) 255) in
  String (byte 24%N) (String (byte 16%N) (String (byte 8%N) (String (byte 0%N) EmptyString))).

Section externals.
Context `{Externals}.

(** The invocation identity of one corrective attempt. *)
Definition correction_invocation_id (run_id saga_id action_id : string) (attempt : N) : string :=
  let bytes :=
    "woml:correction-invocation:v1" +:+ nul
    +:+ run_id +:+ nul
    +:+ saga_id +:+ nul
    +:+ action_id +:+ nul
    +:+ u32_to_be_bytes attempt in
  "corr_" +:+ sha256_hex bytes.
End externals.

(** [EventValidationError], event/errors.rs.  A message is represented by its
    format template. *)
Module EventValidationError.
Inductive EventValidationError :=
| UnsupportedSchemaVersion (version : N)
| Invalid (message : string).
End EventValidationError.
Abbreviation EventValidationError := EventValidationError.EventValidationError.

(** [FoldError], projection/error.rs.  A message is represented by its format
    template. *)
Module FoldError.
Inductive FoldError :=
| InvalidEvent (e : EventValidationError)
| InvalidHistory (message : string).
End FoldError.
Abbreviation FoldError := FoldError.FoldError.
Abbreviation fold_result := (result FoldError).
Abbreviation InvalidHistory := FoldError.InvalidHistory.

(** The derived order of [OperationIdentity]. *)
#[global] Instance OperationIdentity_btree_key : BTreeKey OperationIdentity := λ a b,
  if a.(OperationIdentity.invocation_id) == b.(OperationIdentity.invocation_id)
  then String.leb a.(OperationIdentity.call_id) b.(OperationIdentity.call_id)
  else String.leb a.(OperationIdentity.invocation_id) b.(OperationIdentity.invocation_id).

(** Tests against constructors of types without decidable equality. *)
Definition attempt_is_started (s : AttemptStatus) : bool :=
  match s with AttemptStatus.Started => true | _ => false end.
Definition attempt_is_failed (s : AttemptStatus) : bool :=
  match s with AttemptStatus.Failed _ => true | _ => false end.
Definition operation_is_started (s : OperationStatus) : bool :=
  match s with OperationStatus.Started => true | _ => false end.

(** ** Methods of [RunProjection] *)

Definition completed_node_ids (p : RunProjection) : gset string :=
  list_to_set p.(RunProjection.context).(WorkflowContext.steps).*1.

Definition attempted_node_ids (p : RunProjection) : gset string :=
  list_to_set
    ((λ a, a.(AttemptProjection.identity).(AttemptIdentity.node_id)) <$> p.(RunProjection.attempts)).

Definition active_attempt_node_ids (p : RunProjection) : gset string :=
  list_to_set
    ((λ a, a.(AttemptProjection.identity).(AttemptIdentity.node_id))
       <$> List.filter (λ a, attempt_is_started a.(AttemptProjection.status)) p.(RunProjection.attempts)).

(** The last attempt of a node in a list of attempts. *)
Definition latest_attempt_in (attempts : list AttemptProjection) (node_id : string) : option AttemptProjection :=
  find_last (λ a, a.(AttemptProjection.identity).(AttemptIdentity.node_id) == node_id) attempts.

Definition latest_attempt (p : RunProjection) (node_id : string) : option AttemptProjection :=
  latest_attempt_in p.(RunProjection.attempts) node_id.

Definition active_managed_operations (p : RunProjection) (invocation_id : string) : list OperationProjection :=
  List.filter (λ o,
    (o.(OperationProjection.identity).(OperationIdentity.invocation_id) == invocation_id)
    && (o.(OperationProjection.execution_mode) == OperationExecutionMode.Managed)
    && operation_is_started o.(OperationProjection.status))
  (btree_values p.(RunProjection.operations)).

(** [operations.values().any(...)]: some managed operation is still running. *)
Definition any_active_managed_operation (p : RunProjection) : bool :=
  existsb (λ o,
    (o.(OperationProjection.execution_mode) == OperationExecutionMode.Managed)
    && operation_is_started o.(OperationProjection.status))
  (btree_values p.(RunProjection.operations)).

(** ** Guards *)

Definition identity (node_id : string) (attempt : N) (invocation_id : string) : AttemptIdentity :=
  AttemptIdentity.mk node_id attempt invocation_id.

Definition started_attempt (data : StepAttemptStartedData) : AttemptProjection :=
  {| AttemptProjection.identity :=
       identity data.(StepAttemptStartedData.node_id) data.(StepAttemptStartedData.attempt)
         data.(StepAttemptStartedData.invocation_id);
     AttemptProjection.handler := data.(StepAttemptStartedData.handler);
     AttemptProjection.idempotency_key := data.(StepAttemptStartedData.idempotency_key);
     AttemptProjection.status := AttemptStatus.Started |}.

Definition validate_operation_terminal_identity (started : OperationProjection)
    (node_id : string) (attempt_number : N) (operation_key capability operation : string)
    (execution_mode : OperationExecutionMode) : fold_result unit :=
  check fail_if (negb (operation_is_started started.(OperationProjection.status)))
    (InvalidHistory "An operation may have at most one terminal event.");
  fail_if
    ((started.(OperationProjection.node_id) != node_id)
     || (started.(OperationProjection.attempt_number) != attempt_number)
     || (started.(OperationProjection.operation_key) != operation_key)
     || (started.(OperationProjection.capability) != capability)
     || (started.(OperationProjection.operation) != operation)
     || (started.(OperationProjection.execution_mode) != execution_mode))
    (InvalidHistory "Terminal operation identity does not match operation_started.").

Definition require_failed_attempt (p : RunProjection) (attempt_indexes : gmap AttemptIdentity nat)
    (node_id : string) (attempt : N) (invocation_id : string) : fold_result unit :=
  let key := identity node_id attempt invocation_id in
  let? attempt_index := ok_or (attempt_indexes !! key)
    (InvalidHistory "run_failed references unknown attempt {invocation_id:?}.") in
  let? a := expect (p.(RunProjection.attempts) !! attempt_index) "index out of bounds" in
  fail_if (negb (attempt_is_failed a.(AttemptProjection.status)))
    (InvalidHistory "run_failed references attempt {invocation_id:?} before it failed.").

Definition require_running (p : RunProjection) : fold_result unit :=
  fail_if (p.(RunProjection.status) != RunStatus.Running)
    (InvalidHistory "A run must be started and nonterminal before attempt or terminal events.").

Definition require_running_or_cancelling (p : RunProjection) : fold_result unit :=
  fail_if
    (negb (match p.(RunProjection.status) with
           | RunStatus.Running | RunStatus.Cancelling => true | _ => false end))
    (InvalidHistory "An attempt may only settle while its run is running or cancelling.").

Definition require_operation_settlement (p : RunProjection) : fold_result unit :=
  fail_if
    (negb (match p.(RunProjection.status) with
           | RunStatus.Running | RunStatus.Cancelling | RunStatus.Finalizing => true
           | _ => false end))
    (InvalidHistory "An operation may only settle for an active or finalizing run.").

Section with_externals.
Context `{Externals}.

(** [find_map] over the sagas, in key order. *)
Definition active_correction (p : RunProjection) (node_id : string) (attempt : N)
    (invocation_id : string) : option CorrectionActionProjection :=
  match p.(RunProjection.run_id) with
  | None => None
  | Some run_id =>
      (fix find_map (sagas : list SagaProjection) :=
         match sagas with
         | [] => None
         | saga :: sagas =>
             match saga.(SagaProjection.actions) !! node_id with
             | None => find_map sagas
             | Some action =>
                 if (match saga.(SagaProjection.phase) with
                     | SagaPhase.Correcting | SagaPhase.ManualRecovery => true | _ => false end)
                    && (action.(CorrectionActionProjection.status) == CorrectionActionStatus.Started)
                    && (action.(CorrectionActionProjection.active_attempt) == Some attempt)
                    && (correction_invocation_id run_id saga.(SagaProjection.saga_id) node_id attempt
                        == invocation_id)
                 then Some action
                 else find_map sagas
             end
         end) (btree_values p.(RunProjection.sagas))
  end.

Definition require_active_operation_attempt (p : RunProjection) (node_id : string)
    (attempt_number : N) (invocation_id : string) : fold_result unit :=
  if existsb (λ a,
       (a.(AttemptProjection.identity).(AttemptIdentity.node_id) == node_id)
       && (a.(AttemptProjection.identity).(AttemptIdentity.attempt) == attempt_number)
       && (a.(AttemptProjection.identity).(AttemptIdentity.invocation_id) == invocation_id)
       && attempt_is_started a.(AttemptProjection.status)) p.(RunProjection.attempts)
     || existsb (λ hook,
          is_some_and (hook.(LifecycleHookProjection.actions) !! node_id) (λ action,
            (action.(LifecycleActionProjection.attempt) == attempt_number)
            && (action.(LifecycleActionProjection.status) == LifecycleActionStatus.Started)))
          (btree_values p.(RunProjection.lifecycle_hooks))
     || is_some (active_correction p node_id attempt_number invocation_id)
  then Ok tt
  else Err (InvalidHistory
    "An operation event requires its matching active step, lifecycle, or corrective attempt.").

Definition projection_digest (value : Value) : fold_result string :=
  let? bytes := ok_or (canonical_json value)
    (InvalidHistory "A durable JSON value is not canonical: {error}") in
  Ok ("sha256:" +:+ sha256_hex bytes).

Definition require_operation_runtime (p : RunProjection) (node_id : string)
    (attempt_number : N) (invocation_id : string) : fold_result unit :=
  fail_if
    (negb (match p.(RunProjection.status) with
           | RunStatus.Running | RunStatus.Finalizing => true | _ => false end)
     && negb ((p.(RunProjection.status) == RunStatus.Cancelling)
              && is_some (active_correction p node_id attempt_number invocation_id)))
    (InvalidHistory "An operation requires a running or lifecycle-finalizing run.").
End with_externals.
