(* ===== verification/FoldRun.v ===== *)
(** * Transitions of a run and of its step attempts

    projection/fold_run.rs: admission, start, timeout, cancellation and the two
    terminal events of event schemas before v10.  projection/fold_attempts.rs:
    starting, settling and rescheduling the attempts of a node.
    [attempt_indexes] maps the identity of an attempt to its position in
    [RunProjection.attempts]. *)

From S2P Require Import Prelude Strings Json EventTypes ProjectionTypes Guards.

Definition apply_run_admitted (p : RunProjection) (event : RunEvent) (data : RunAdmittedData)
    (index : N) : fold_result RunProjection :=
  check fail_if ((index != 0%N) || (p.(RunProjection.status) != RunStatus.NotStarted))
    (InvalidHistory "run_admitted must be the first and only admission event.");
  Ok (p
    <| RunProjection.run_id := Some event.(RunEvent.run_id) |>
    <| RunProjection.event_schema_version := Some event.(RunEvent.event_schema_version) |>
    <| RunProjection.definition_hash := Some data.(RunAdmittedData.definition_hash) |>
    <| RunProjection.policy_hash := Some data.(RunAdmittedData.policy_hash) |>
    <| RunProjection.trigger_id := Some data.(RunAdmittedData.trigger).(RunAdmissionTrigger.id) |>
    <| RunProjection.trigger_handler := Some data.(RunAdmittedData.trigger).(RunAdmissionTrigger.handler) |>
    <| RunProjection.context ::= λ c, c <| WorkflowContext.trigger := data.(RunAdmittedData.payload) |> |>
    <| RunProjection.queue := Some data.(RunAdmittedData.queue).(RunAdmissionQueue.name) |>
    <| RunProjection.occurrence_sequence := Some data.(RunAdmittedData.occurrence_sequence) |>
    <| RunProjection.admitted_at := Some data.(RunAdmittedData.admitted_at) |>
    <| RunProjection.status := RunStatus.Queued |>).

Definition apply_run_execution_started (p : RunProjection) (data : RunExecutionStartedData) :
    fold_result RunProjection :=
  check fail_if ((p.(RunProjection.status) != RunStatus.Queued) || is_some p.(RunProjection.started_at))
    (InvalidHistory "run_execution_started requires one queued admission.");
  Ok (p
    <| RunProjection.started_at := Some data.(RunExecutionStartedData.started_at) |>
    <| RunProjection.timeout_at := data.(RunExecutionStartedData.timeout_at) |>
    <| RunProjection.status := RunStatus.Running |>).

Definition apply_run_timeout_reached (p : RunProjection) (data : RunTimeoutReachedData) :
    fold_result RunProjection :=
  check fail_if
    (negb (match p.(RunProjection.status) with
           | RunStatus.Running | RunStatus.Waiting => true | _ => false end)
     || (p.(RunProjection.timeout_at) != Some data.(RunTimeoutReachedData.deadline_at))
     || is_some p.(RunProjection.timeout_reached_at))
    (InvalidHistory "run_timeout_reached must match the active run deadline exactly once.");
  Ok (p <| RunProjection.timeout_reached_at := Some data.(RunTimeoutReachedData.deadline_at) |>).

Definition apply_run_started (p : RunProjection) (event : RunEvent) (data : RunStartedData)
    (index : N) : fold_result RunProjection :=
  check fail_if ((index != 0%N) || (p.(RunProjection.status) != RunStatus.NotStarted))
    (InvalidHistory "run_started must be the first and only start event.");
  Ok (p
    <| RunProjection.run_id := Some event.(RunEvent.run_id) |>
    <| RunProjection.event_schema_version := Some event.(RunEvent.event_schema_version) |>
    <| RunProjection.workflow_id := Some data.(RunStartedData.workflow_id) |>
    <| RunProjection.definition_hash := Some data.(RunStartedData.definition_hash) |>
    <| RunProjection.trigger_id := data.(RunStartedData.trigger_id) |>
    <| RunProjection.trigger_handler := data.(RunStartedData.trigger_handler) |>
    <| RunProjection.trigger_occurrence_id := data.(RunStartedData.trigger_occurrence_id) |>
    <| RunProjection.ingress := data.(RunStartedData.ingress) |>
    <| RunProjection.context ::= λ c, c <| WorkflowContext.trigger := data.(RunStartedData.trigger) |> |>
    <| RunProjection.started_at := Some event.(RunEvent.occurred_at) |>
    <| RunProjection.status := RunStatus.Running |>).

Definition apply_run_cancellation_requested (p : RunProjection) (data : RunCancellationRequestedData) :
    fold_result RunProjection :=
  check fail_if
    (negb (match p.(RunProjection.status) with
           | RunStatus.Queued | RunStatus.Running | RunStatus.Waiting => true | _ => false end))
    (InvalidHistory "Cancellation may only be requested before business outcome is decided.");
  check fail_if (is_some p.(RunProjection.cancellation_request_id))
    (InvalidHistory "A run may contain only one durable cancellation request.");
  Ok (p
    <| RunProjection.cancellation_request_id := Some data.(RunCancellationRequestedData.request_id) |>
    <| RunProjection.status := RunStatus.Cancelling |>).

Definition terminal_output_exists (p : RunProjection) (terminal_node_id : string) : bool :=
  let steps := p.(RunProjection.context).(WorkflowContext.steps) in
  map_contains_key steps terminal_node_id
  || is_some_and
       (match strip_prefix "__woml_approval__" terminal_node_id with
        | Some value => strip_suffix "__join" value
        | None => None
        end)
       (λ approval_id, map_contains_key steps approval_id).

Definition apply_run_succeeded (p : RunProjection) (data : RunSucceededData) :
    fold_result RunProjection :=
  check require_running p;
  check fail_if (any_active_managed_operation p)
    (InvalidHistory "A run cannot succeed while a managed operation remains active.");
  check fail_if (negb (p.(RunProjection.pending_retries) == ∅))
    (InvalidHistory "A run cannot succeed while a retry remains pending.");
  check fail_if (negb (terminal_output_exists p data.(RunSucceededData.terminal_node_id)))
    (InvalidHistory "Terminal node {:?} has not published a successful output.");
  Ok (p
    <| RunProjection.status := RunStatus.Succeeded |>
    <| RunProjection.business_outcome := Some BusinessOutcome.Succeeded |>
    <| RunProjection.lifecycle_status := LifecycleStatus.Completed |>
    <| RunProjection.terminal_node_id := Some data.(RunSucceededData.terminal_node_id) |>
    <| RunProjection.result := Some data.(RunSucceededData.result) |>).

(** The delivery belongs to the approval request of a notification failure. *)
Definition delivery_belongs (approval_id request_id : string) (d : NotificationDeliveryProjection) : bool :=
  (d.(NotificationDeliveryProjection.approval_id) == approval_id)
  && (d.(NotificationDeliveryProjection.request_id) == request_id).

Definition delivery_finally_failed (d : NotificationDeliveryProjection) : bool :=
  match d.(NotificationDeliveryProjection.status) with
  | NotificationDeliveryStatus.Failed _ _ true _ _ => true
  | _ => false
  end.

Definition delivery_succeeded (d : NotificationDeliveryProjection) : bool :=
  match d.(NotificationDeliveryProjection.status) with
  | NotificationDeliveryStatus.Succeeded _ _ _ => true
  | _ => false
  end.

(** [actual_failed]: the finally failed deliveries of the request, in key order. *)
Definition actual_failed (p : RunProjection) (approval_id request_id : string) : list string :=
  (λ d, d.(NotificationDeliveryProjection.delivery_id))
    <$> List.filter (λ d, delivery_belongs approval_id request_id d && delivery_finally_failed d)
          (btree_values p.(RunProjection.notification_deliveries)).

Definition any_succeeded (p : RunProjection) (approval_id request_id : string) : bool :=
  existsb (λ d, delivery_belongs approval_id request_id d && delivery_succeeded d)
    (btree_values p.(RunProjection.notification_deliveries)).

(** The [match data] of [apply_run_failed]: the failure to record. *)
Definition run_failure_of (p : RunProjection) (attempt_indexes : gmap AttemptIdentity nat)
    (data : RunFailedData) : fold_result RunFailure :=
  match data with
  | RunFailedData.V5 (RunFailedDataV5.Notification approval_id request_id failed_delivery_ids failure) =>
      let? request := ok_or (p.(RunProjection.approval_requests) !! approval_id)
        (InvalidHistory "Notification run failure references an unknown approval.") in
      check fail_if
        ((request.(ApprovalRequestProjection.request_id) != request_id)
         || any_succeeded p approval_id request_id
         || (actual_failed p approval_id request_id != failed_delivery_ids))
        (InvalidHistory "Notification run failure does not match final delivery outcomes.");
      Ok (RunFailure.Notification approval_id request_id failed_delivery_ids failure)
  | RunFailedData.V1 data =>
      check match data.(RunFailedDataV1.node_id), data.(RunFailedDataV1.attempt),
                  data.(RunFailedDataV1.invocation_id) with
            | Some node_id, Some attempt, Some invocation_id =>
                require_failed_attempt p attempt_indexes node_id attempt invocation_id
            | _, _, _ => Ok tt
            end;
      Ok (RunFailure.Attempt data.(RunFailedDataV1.failure))
  | RunFailedData.V2 (RunFailedDataV2.Attempt node_id attempt invocation_id failure) =>
      check require_failed_attempt p attempt_indexes node_id attempt invocation_id;
      Ok (RunFailure.Attempt failure)
  | RunFailedData.V2 (RunFailedDataV2.Branch _ _ _ failure) => Ok (RunFailure.Branch failure)
  | RunFailedData.V3 (RunFailedDataV3.Parallel parallel_id policy primary_node_id failed_node_ids
                        cancelled_node_ids failure) =>
      let? group := ok_or (p.(RunProjection.parallel_groups) !! parallel_id)
        (InvalidHistory "run_failed references parallel group {parallel_id:?} before it started.") in
      check fail_if
        (match group.(ParallelGroupProjection.status) with
         | ParallelGroupStatus.Completed ParallelGroupOutcome.Failed completed_failed completed_cancelled =>
             negb ((completed_failed == failed_node_ids)
                   && (completed_cancelled == cancelled_node_ids))
         | _ => true
         end)
        (InvalidHistory "run_failed does not match the failed completion of parallel group {parallel_id:?}.");
      Ok (RunFailure.Parallel parallel_id policy primary_node_id failed_node_ids cancelled_node_ids failure)
  | RunFailedData.V4 (RunFailedDataV4.Approval approval_id request_id failure) =>
      let? request := ok_or (p.(RunProjection.approval_requests) !! approval_id)
        (InvalidHistory "run_failed references unknown approval {approval_id:?}.") in
      check fail_if
        ((request.(ApprovalRequestProjection.request_id) != request_id)
         || negb (match request.(ApprovalRequestProjection.status) with
                  | ApprovalRequestStatus.Resolved ApprovalResolution.TimeoutFailure _ => true
                  | _ => false
                  end))
        (InvalidHistory "run_failed does not match the timeout failure of approval {approval_id:?}.");
      Ok (RunFailure.Approval approval_id request_id failure)
  end.

Definition apply_run_failed (p : RunProjection) (data : RunFailedData)
    (attempt_indexes : gmap AttemptIdentity nat) : fold_result RunProjection :=
  check fail_if (any_active_managed_operation p)
    (InvalidHistory "A run cannot fail while a managed operation remains active.");
  check match data with
        | RunFailedData.V5 _ =>
            fail_if (p.(RunProjection.status) != RunStatus.Waiting)
              (InvalidHistory "Notification-scoped run_failed requires a waiting approval.")
        | _ => require_running p
        end;
  let? failure := run_failure_of p attempt_indexes data in
  Ok (p
    <| RunProjection.pending_retries := ∅ |>
    <| RunProjection.status := RunStatus.Failed |>
    <| RunProjection.business_outcome := Some BusinessOutcome.Failed |>
    <| RunProjection.lifecycle_status := LifecycleStatus.Completed |>
    <| RunProjection.failure := Some failure |>).

(** [RUN_EVENT_SCHEMA_VERSION_V6], event.rs: the first schema with retries. *)
Definition RUN_EVENT_SCHEMA_VERSION_V6 : N := 6.

(** The expected number of the next attempt of a node. *)
Definition expected_attempt (previous : option AttemptProjection) : N :=
  match previous with
  | None => 1
  | Some a => u32_add a.(AttemptProjection.identity).(AttemptIdentity.attempt) 1
  end.

(** The [match (previous, pending_retries.get(..))] of [apply_step_attempt_started]. *)
Definition check_pending_retry (previous : option AttemptProjection)
    (schedule : option RetryScheduleProjection) (event : RunEvent) (data : StepAttemptStartedData) :
    fold_result unit :=
  match previous, schedule with
  | None, None => Ok tt
  | Some previous, Some schedule =>
      if attempt_is_failed previous.(AttemptProjection.status)
         && (schedule.(RetryScheduleProjection.failed_attempt) == previous.(AttemptProjection.identity).(AttemptIdentity.attempt))
         && (schedule.(RetryScheduleProjection.next_attempt) == data.(StepAttemptStartedData.attempt))
         && bool_decide (schedule.(RetryScheduleProjection.scheduled_at) ≤ event.(RunEvent.occurred_at))%Z
      then Ok tt
      else if bool_decide (event.(RunEvent.occurred_at) < schedule.(RetryScheduleProjection.scheduled_at))%Z
      then Err (InvalidHistory "Node {:?} attempt {} started before its durable schedule.")
      else Err (InvalidHistory "Node {:?} attempt {} has no matching pending retry.")
  | _, _ => Err (InvalidHistory "Node {:?} attempt {} has no matching pending retry.")
  end.

(** The idempotency key of the first attempt of a node. *)
Definition first_idempotency_key (attempts : list AttemptProjection) (node_id : string) : option string :=
  match List.find (λ (a : AttemptProjection), a.(AttemptProjection.identity).(AttemptIdentity.node_id) == node_id) attempts with
  | Some a => a.(AttemptProjection.idempotency_key)
  | None => None
  end.

Definition apply_step_attempt_started (p : RunProjection) (event : RunEvent)
    (data : StepAttemptStartedData) (attempt_indexes : gmap AttemptIdentity nat) :
    fold_result (RunProjection * gmap AttemptIdentity nat) :=
  check require_running p;
  check fail_if
    (existsb (λ (a : AttemptProjection), a.(AttemptProjection.identity).(AttemptIdentity.invocation_id) == data.(StepAttemptStartedData.invocation_id)) p.(RunProjection.attempts))
    (InvalidHistory "Invocation ID {:?} was already used by another attempt.");
  check fail_if
    (is_some_and (latest_attempt p data.(StepAttemptStartedData.node_id)) (λ (a : AttemptProjection), attempt_is_started a.(AttemptProjection.status)))
    (InvalidHistory "Node {:?} already has an active attempt.");
  let? p :=
    if bool_decide (RUN_EVENT_SCHEMA_VERSION_V6 ≤ event.(RunEvent.event_schema_version))%N then
      let previous := latest_attempt p data.(StepAttemptStartedData.node_id) in
      check fail_if (data.(StepAttemptStartedData.attempt) != expected_attempt previous)
        (InvalidHistory "Node {:?} expected attempt {expected_attempt}, received {}.");
      check match first_idempotency_key p.(RunProjection.attempts) data.(StepAttemptStartedData.node_id) with
            | Some first_key =>
                fail_if (data.(StepAttemptStartedData.idempotency_key) != Some first_key)
                  (InvalidHistory "Node {:?} changed its stable idempotency key.")
            | None => Ok tt
            end;
      check check_pending_retry previous (p.(RunProjection.pending_retries) !! data.(StepAttemptStartedData.node_id)) event data;
      Ok (p <|RunProjection.pending_retries ::= delete data.(StepAttemptStartedData.node_id)|>)
    else Ok p in
  let key := identity data.(StepAttemptStartedData.node_id) data.(StepAttemptStartedData.attempt) data.(StepAttemptStartedData.invocation_id) in
  check fail_if (is_some (attempt_indexes !! key))
    (InvalidHistory "Attempt {:?} was started more than once.");
  let attempt_index := length p.(RunProjection.attempts) in
  Ok (p <|RunProjection.attempts ::= λ attempts, attempts ++ [started_attempt data]|>,
      <[key := attempt_index]> attempt_indexes).

Definition apply_step_attempt_succeeded (p : RunProjection) (data : StepAttemptSucceededData)
    (attempt_indexes : gmap AttemptIdentity nat) : fold_result RunProjection :=
  check require_running p;
  check fail_if (negb (is_empty (active_managed_operations p data.(StepAttemptSucceededData.invocation_id))))
    (InvalidHistory "Attempt {:?} cannot succeed while a managed operation remains active.");
  let key := identity data.(StepAttemptSucceededData.node_id) data.(StepAttemptSucceededData.attempt) data.(StepAttemptSucceededData.invocation_id) in
  let? attempt_index := ok_or (attempt_indexes !! key)
    (InvalidHistory "Successful attempt {:?} has no matching start event.") in
  let? a := expect (p.(RunProjection.attempts) !! attempt_index) "index out of bounds" in
  check fail_if (negb (attempt_is_started a.(AttemptProjection.status)))
    (InvalidHistory "Attempt {:?} already has a terminal event.");
  check fail_if (map_contains_key p.(RunProjection.context).(WorkflowContext.steps) data.(StepAttemptSucceededData.node_id))
    (InvalidHistory "Node {:?} has already published a successful output.");
  Ok (p
    <|RunProjection.attempts ::= <[attempt_index := a <|AttemptProjection.status := AttemptStatus.Succeeded data.(StepAttemptSucceededData.output)|> ]> |>
    <|RunProjection.context ::= λ c, c <|WorkflowContext.steps ::= λ steps, map_insert steps data.(StepAttemptSucceededData.node_id) data.(StepAttemptSucceededData.output)|> |>).

Definition apply_step_attempt_failed (p : RunProjection) (data : StepAttemptFailedData)
    (attempt_indexes : gmap AttemptIdentity nat) : fold_result RunProjection :=
  check require_running_or_cancelling p;
  check fail_if (negb (is_empty (active_managed_operations p data.(StepAttemptFailedData.invocation_id))))
    (InvalidHistory "Attempt {:?} cannot fail while a managed operation remains active.");
  let key := identity data.(StepAttemptFailedData.node_id) data.(StepAttemptFailedData.attempt) data.(StepAttemptFailedData.invocation_id) in
  let? attempt_index := ok_or (attempt_indexes !! key)
    (InvalidHistory "Failed attempt {:?} has no matching start event.") in
  let? a := expect (p.(RunProjection.attempts) !! attempt_index) "index out of bounds" in
  check fail_if (negb (attempt_is_started a.(AttemptProjection.status)))
    (InvalidHistory "Attempt {:?} already has a terminal event.");
  Ok (p <|RunProjection.attempts ::= <[attempt_index := a <|AttemptProjection.status := AttemptStatus.Failed data.(StepAttemptFailedData.failure)|> ]> |>).

(** The previous event is the retryable failure the schedule answers. *)
Definition closes_previous_failure (previous_event : option RunEvent) (data : StepRetryScheduledData) : bool :=
  is_some_and previous_event (λ (previous : RunEvent),
    match previous.(RunEvent.payload) with
    | RunEventPayload.StepAttemptFailed failed =>
        (failed.(StepAttemptFailedData.node_id) == data.(StepRetryScheduledData.node_id))
        && (failed.(StepAttemptFailedData.attempt) == data.(StepRetryScheduledData.failed_attempt))
        && (failed.(StepAttemptFailedData.failure).(AttemptFailure.kind) == AttemptFailureKind.ScriptThrew)
    | _ => false
    end).

Definition apply_step_retry_scheduled (p : RunProjection) (data : StepRetryScheduledData)
    (previous_event : option RunEvent) : fold_result RunProjection :=
  check require_running p;
  let latest := latest_attempt p data.(StepRetryScheduledData.node_id) in
  check fail_if
    (negb (closes_previous_failure previous_event data)
     || negb (is_some_and latest (λ (a : AttemptProjection),
                (a.(AttemptProjection.identity).(AttemptIdentity.attempt) == data.(StepRetryScheduledData.failed_attempt)) && attempt_is_failed a.(AttemptProjection.status)))
     || (data.(StepRetryScheduledData.next_attempt) != u32_add data.(StepRetryScheduledData.failed_attempt) 1)
     || contains_key p.(RunProjection.pending_retries) data.(StepRetryScheduledData.node_id))
    (InvalidHistory "Retry schedule for node {:?} does not immediately follow its retryable failed attempt.");
  Ok (p <|RunProjection.pending_retries ::=
        <[data.(StepRetryScheduledData.node_id) :=
            RetryScheduleProjection.mk data.(StepRetryScheduledData.node_id) data.(StepRetryScheduledData.failed_attempt) data.(StepRetryScheduledData.next_attempt)
              data.(StepRetryScheduledData.scheduled_at)]> |>).
