(* ===== verification/FoldControlFlow.v ===== *)
(** * Control flow

    projection/fold_control_flow.rs: branch and choice selections, forks and
    their joins, parallel groups, and for-each loops with their iterations. *)

From S2P Require Import Prelude Json EventTypes ProjectionTypes Guards.

Definition apply_branch_selected (p : RunProjection) (data : BranchSelectedData) :
    fold_result RunProjection :=
  check require_running p;
  check fail_if (is_some (p.(RunProjection.branch_selections) !! data.(BranchSelectedData.branch_id)))
    (InvalidHistory "Branch {:?} was already selected as arm {:?}.");
  Ok (p <|RunProjection.branch_selections ::= <[data.(BranchSelectedData.branch_id) := data.(BranchSelectedData.arm_id)]> |>).

Definition apply_choice_selected (p : RunProjection) (data : ChoiceSelectedData) :
    fold_result RunProjection :=
  check require_running p;
  check fail_if (contains_key p.(RunProjection.choice_selections) data.(ChoiceSelectedData.choice_id))
    (InvalidHistory "Choice {:?} was selected more than once.");
  Ok (p <|RunProjection.choice_selections ::= <[data.(ChoiceSelectedData.choice_id) := data.(ChoiceSelectedData.arm_id)]> |>).

(** ** Forks *)

Definition apply_fork_opened (p : RunProjection) (data : ForkOpenedData) :
    fold_result RunProjection :=
  check require_running p;
  check fail_if (contains_key p.(RunProjection.forks) data.(ForkOpenedData.fork_id))
    (InvalidHistory "Fork {:?} was opened more than once.");
  Ok (p <|RunProjection.forks ::=
        <[data.(ForkOpenedData.fork_id) :=
            {| ForkProjection.fork_id := data.(ForkOpenedData.fork_id);
               ForkProjection.branches := ∅;
               ForkProjection.join_status := ForkJoinStatus.Pending;
               ForkProjection.blocking_branch_id := None |}]> |>).

Definition apply_fork_branch_settled (p : RunProjection) (data : ForkBranchSettledData) :
    fold_result RunProjection :=
  check require_running_or_cancelling p;
  let? fork := ok_or (p.(RunProjection.forks) !! data.(ForkBranchSettledData.fork_id))
    (InvalidHistory "Fork branch {:?}.{:?} settled before its fork opened.") in
  check fail_if (contains_key fork.(ForkProjection.branches) data.(ForkBranchSettledData.branch_id))
    (InvalidHistory "Fork branch {:?}.{:?} settled more than once.");
  Ok (p <|RunProjection.forks ::=
        <[data.(ForkBranchSettledData.fork_id) := fork <|ForkProjection.branches ::=
            <[data.(ForkBranchSettledData.branch_id) :=
                {| ForkBranchProjection.branch_id := data.(ForkBranchSettledData.branch_id);
                   ForkBranchProjection.terminal_node_id := Some data.(ForkBranchSettledData.terminal_node_id);
                   ForkBranchProjection.outcome := Some data.(ForkBranchSettledData.outcome) |}]> |> ]> |>).

(** [matching_outcome]: the blocking branch settled the way the join did. *)
Definition matching_outcome (fork : ForkProjection) (outcome : ForkJoinOutcome)
    (blocking_branch_id : string) : bool :=
  is_some_and
    (match fork.(ForkProjection.branches) !! blocking_branch_id with
     | Some branch => branch.(ForkBranchProjection.outcome)
     | None => None
     end)
    (λ branch_outcome,
       match outcome with
       | ForkJoinOutcome.Failed => branch_outcome == ForkBranchOutcome.Failed
       | ForkJoinOutcome.Cancelled => branch_outcome == ForkBranchOutcome.Cancelled
       | ForkJoinOutcome.Succeeded => false
       end).

Definition join_status_of (outcome : ForkJoinOutcome) : ForkJoinStatus :=
  match outcome with
  | ForkJoinOutcome.Succeeded => ForkJoinStatus.Succeeded
  | ForkJoinOutcome.Failed => ForkJoinStatus.Failed
  | ForkJoinOutcome.Cancelled => ForkJoinStatus.Cancelled
  end.

Definition apply_fork_join_settled (p : RunProjection) (data : ForkJoinSettledData) :
    fold_result RunProjection :=
  check require_running_or_cancelling p;
  let? fork := ok_or (p.(RunProjection.forks) !! data.(ForkJoinSettledData.fork_id))
    (InvalidHistory "Fork {:?} join settled before its fork opened.") in
  check fail_if (fork.(ForkProjection.join_status) != ForkJoinStatus.Pending)
    (InvalidHistory "Fork {:?} join settled more than once.");
  check match data.(ForkJoinSettledData.blocking_branch_id) with
        | Some blocking_branch_id =>
            fail_if (negb (matching_outcome fork data.(ForkJoinSettledData.outcome) blocking_branch_id))
              (InvalidHistory "Fork {:?} join outcome is not proven by blocking branch {:?}.")
        | None => Ok tt
        end;
  Ok (p <|RunProjection.forks ::=
        <[data.(ForkJoinSettledData.fork_id) := fork
            <|ForkProjection.join_status := join_status_of data.(ForkJoinSettledData.outcome)|>
            <|ForkProjection.blocking_branch_id := data.(ForkJoinSettledData.blocking_branch_id)|> ]> |>).

(** ** For-each loops *)

Definition apply_for_each_opened (p : RunProjection) (data : ForEachOpenedData) :
    fold_result RunProjection :=
  check require_running p;
  check fail_if (contains_key p.(RunProjection.for_each) data.(ForEachOpenedData.for_each_id))
    (InvalidHistory "For-each {:?} was opened more than once.");
  Ok (p <|RunProjection.for_each ::=
        <[data.(ForEachOpenedData.for_each_id) :=
            {| ForEachProjection.for_each_id := data.(ForEachOpenedData.for_each_id);
               ForEachProjection.total := data.(ForEachOpenedData.total);
               ForEachProjection.items_digest := data.(ForEachOpenedData.items_digest);
               ForEachProjection.concurrency := data.(ForEachOpenedData.concurrency);
               ForEachProjection.status := ForEachStatus.Open;
               ForEachProjection.iterations := ∅;
               ForEachProjection.executions := ∅ |}]> |>).

(** [ForEachIterationExecutionProjection { context, ..default() }]. *)
Definition new_execution (context : WorkflowContext) : ForEachIterationExecutionProjection :=
  {| ForEachIterationExecutionProjection.context := context;
     ForEachIterationExecutionProjection.attempts := [];
     ForEachIterationExecutionProjection.operations := ∅;
     ForEachIterationExecutionProjection.pending_retries := ∅;
     ForEachIterationExecutionProjection.branch_selections := ∅;
     ForEachIterationExecutionProjection.choice_selections := ∅;
     ForEachIterationExecutionProjection.parallel_groups := ∅;
     ForEachIterationExecutionProjection.lifecycle_hooks := ∅;
     ForEachIterationExecutionProjection.reusable_lifecycle_hooks := ∅;
     ForEachIterationExecutionProjection.locks := ∅ |}.

Definition apply_for_each_iteration_started (p : RunProjection) (event : RunEvent)
    (data : ForEachIterationIdentityData) : fold_result RunProjection :=
  check require_running p;
  let? scope := expect event.(RunEvent.iteration) "validated iteration scope" in
  let? loop_state := ok_or (p.(RunProjection.for_each) !! data.(ForEachIterationIdentityData.for_each_id))
    (InvalidHistory "For-each iteration {:?}:{} started before its loop opened.") in
  check fail_if
    ((loop_state.(ForEachProjection.status) != ForEachStatus.Open)
     || bool_decide (loop_state.(ForEachProjection.total) ≤ scope.(ForEachIterationScope.index))%N
     || contains_key loop_state.(ForEachProjection.iterations) scope.(ForEachIterationScope.index))
    (InvalidHistory "For-each iteration {:?}:{} cannot start in its current state.");
  Ok (p <|RunProjection.for_each ::=
        <[data.(ForEachIterationIdentityData.for_each_id) := loop_state
            <|ForEachProjection.iterations ::= <[scope.(ForEachIterationScope.index) := ForEachIterationStatus.Started]> |>
            <|ForEachProjection.executions ::= <[scope.(ForEachIterationScope.index) := new_execution p.(RunProjection.context)]> |> ]> |>).

Section with_externals.
Context `{Externals}.

Definition apply_for_each_iteration_succeeded (p : RunProjection) (event : RunEvent)
    (data : ForEachIterationSucceededData) : fold_result RunProjection :=
  check require_running p;
  let? scope := expect event.(RunEvent.iteration) "validated iteration scope" in
  check match data.(ForEachIterationSucceededData.result), data.(ForEachIterationSucceededData.result_digest) with
        | Some result, Some expected_digest =>
            let? digest := projection_digest result in
            fail_if (digest != expected_digest)
              (InvalidHistory "For-each iteration {:?}:{} result digest does not match its value.")
        | _, _ => Ok tt
        end;
  let? loop_state := ok_or (p.(RunProjection.for_each) !! data.(ForEachIterationSucceededData.for_each_id))
    (InvalidHistory "For-each iteration succeeded before opening.") in
  match loop_state.(ForEachProjection.iterations) !! scope.(ForEachIterationScope.index) with
  | Some ForEachIterationStatus.Started =>
      Ok (p <|RunProjection.for_each ::=
            <[data.(ForEachIterationSucceededData.for_each_id) := loop_state
                <|ForEachProjection.iterations ::= <[scope.(ForEachIterationScope.index) := ForEachIterationStatus.Succeeded data.(ForEachIterationSucceededData.result)]> |> ]> |>)
  | _ => Err (InvalidHistory "For-each iteration {:?}:{} succeeded without one active start.")
  end.
End with_externals.

Definition apply_for_each_iteration_failed (p : RunProjection) (event : RunEvent)
    (data : ForEachIterationFailedData) : fold_result RunProjection :=
  check require_running_or_cancelling p;
  let? scope := expect event.(RunEvent.iteration) "validated iteration scope" in
  let? loop_state := ok_or (p.(RunProjection.for_each) !! data.(ForEachIterationFailedData.for_each_id))
    (InvalidHistory "For-each iteration failed before opening.") in
  match loop_state.(ForEachProjection.iterations) !! scope.(ForEachIterationScope.index) with
  | Some ForEachIterationStatus.Started =>
      Ok (p <|RunProjection.for_each ::=
            <[data.(ForEachIterationFailedData.for_each_id) := loop_state
                <|ForEachProjection.iterations ::= <[scope.(ForEachIterationScope.index) := ForEachIterationStatus.Failed data.(ForEachIterationFailedData.failed_node_id)]> |>
                <|ForEachProjection.executions ::= alter (λ e, e <|ForEachIterationExecutionProjection.pending_retries := ∅|>) scope.(ForEachIterationScope.index)|> ]> |>)
  | _ => Err (InvalidHistory "For-each iteration {:?}:{} failed without one active start.")
  end.

Definition apply_for_each_iteration_skipped (p : RunProjection) (event : RunEvent)
    (data : ForEachIterationSkippedData) : fold_result RunProjection :=
  check require_running_or_cancelling p;
  let? scope := expect event.(RunEvent.iteration) "validated iteration scope" in
  let? loop_state := ok_or (p.(RunProjection.for_each) !! data.(ForEachIterationSkippedData.for_each_id))
    (InvalidHistory "For-each iteration skipped before opening.") in
  check fail_if
    ((loop_state.(ForEachProjection.status) != ForEachStatus.Open)
     || bool_decide (loop_state.(ForEachProjection.total) ≤ scope.(ForEachIterationScope.index))%N
     || contains_key loop_state.(ForEachProjection.iterations) scope.(ForEachIterationScope.index))
    (InvalidHistory "For-each iteration {:?}:{} cannot be skipped in its current state.");
  Ok (p <|RunProjection.for_each ::=
        <[data.(ForEachIterationSkippedData.for_each_id) := loop_state
            <|ForEachProjection.iterations ::= <[scope.(ForEachIterationScope.index) := ForEachIterationStatus.Skipped]> |> ]> |>).

(** *** Settlement *)

Definition iteration_succeeded (s : ForEachIterationStatus) : bool :=
  match s with ForEachIterationStatus.Succeeded _ => true | _ => false end.
Definition iteration_failed (s : ForEachIterationStatus) : bool :=
  match s with ForEachIterationStatus.Failed _ => true | _ => false end.
Definition iteration_skipped (s : ForEachIterationStatus) : bool :=
  match s with ForEachIterationStatus.Skipped => true | _ => false end.

(** [iterations.values().filter(f).count() as u32]. *)
Definition count_iterations (f : ForEachIterationStatus → bool) (loop_state : ForEachProjection) : N :=
  as_u32 (length (List.filter f (btree_values loop_state.(ForEachProjection.iterations)))).

Definition hook_is_active (s : LifecycleHookStatus) : bool :=
  match s with LifecycleHookStatus.Requested | LifecycleHookStatus.Running => true | _ => false end.
Definition reusable_is_active (s : ReusableLifecycleStatus) : bool :=
  match s with ReusableLifecycleStatus.Requested | ReusableLifecycleStatus.Running => true | _ => false end.

(** Work one iteration still owns. *)
Definition pending_retry_count (e : ForEachIterationExecutionProjection) : nat := size e.(ForEachIterationExecutionProjection.pending_retries).
Definition active_attempt_count (e : ForEachIterationExecutionProjection) : nat :=
  length (List.filter (λ (a : AttemptProjection), attempt_is_started a.(AttemptProjection.status)) e.(ForEachIterationExecutionProjection.attempts)).
Definition active_operation_count (e : ForEachIterationExecutionProjection) : nat :=
  length (List.filter (λ (o : OperationProjection), operation_is_started o.(OperationProjection.status))
            (btree_values e.(ForEachIterationExecutionProjection.operations))).
Definition active_lifecycle_count (e : ForEachIterationExecutionProjection) : nat :=
  length (List.filter (λ (h : LifecycleHookProjection), hook_is_active h.(LifecycleHookProjection.status))
            (btree_values e.(ForEachIterationExecutionProjection.lifecycle_hooks))).
Definition active_reusable_count (e : ForEachIterationExecutionProjection) : nat :=
  length (List.filter (λ (h : ReusableLifecycleProjection), reusable_is_active h.(ReusableLifecycleProjection.status))
            (btree_values e.(ForEachIterationExecutionProjection.reusable_lifecycle_hooks))).
Definition active_parallel_count (e : ForEachIterationExecutionProjection) : nat :=
  length (List.filter (λ (g : ParallelGroupProjection), g.(ParallelGroupProjection.status) == ParallelGroupStatus.Started)
            (btree_values e.(ForEachIterationExecutionProjection.parallel_groups))).

(** The sum of a count over the executions of a loop. *)
Definition sum_executions (count : ForEachIterationExecutionProjection → nat)
    (loop_state : ForEachProjection) : nat :=
  sum_list (count <$> btree_values loop_state.(ForEachProjection.executions)).

Definition owns_active_work (loop_state : ForEachProjection) : bool :=
  (sum_executions pending_retry_count loop_state != 0)
  || (sum_executions active_attempt_count loop_state != 0)
  || (sum_executions active_operation_count loop_state != 0)
  || (sum_executions active_lifecycle_count loop_state != 0)
  || (sum_executions active_reusable_count loop_state != 0)
  || (sum_executions active_parallel_count loop_state != 0).

(** [0..total]. *)
Definition index_range (total : N) : list N := N.of_nat <$> seq 0 (N.to_nat total).

Definition ordered_results (loop_state : ForEachProjection) : list Value :=
  omap (λ index, match loop_state.(ForEachProjection.iterations) !! index with
                 | Some (ForEachIterationStatus.Succeeded (Some result)) => Some result
                 | _ => None
                 end) (index_range loop_state.(ForEachProjection.total)).

(** The public output of a loop that succeeded. *)
Definition for_each_output (loop_state : ForEachProjection) (succeeded : N) : Value :=
  let results := ordered_results loop_state in
  Value.Object
    ([("total", value_from_u32 loop_state.(ForEachProjection.total)); ("succeeded", value_from_u32 succeeded)]
     ++ (if is_empty results then [] else [("results", Value.Array results)])).

Section with_externals.
Context `{Externals}.

Definition apply_for_each_settled (p : RunProjection) (event : RunEvent) (data : ForEachSettledData) :
    fold_result RunProjection :=
  check require_running_or_cancelling p;
  let is_success := match event.(RunEvent.payload) with RunEventPayload.ForEachSucceeded _ => true | _ => false end in
  let is_cancelled := match event.(RunEvent.payload) with RunEventPayload.ForEachCancelled _ => true | _ => false end in
  let? loop_state := ok_or (p.(RunProjection.for_each) !! data.(ForEachSettledData.for_each_id))
    (InvalidHistory "For-each settled before opening.") in
  let succeeded := count_iterations iteration_succeeded loop_state in
  let failed := count_iterations iteration_failed loop_state in
  let skipped := count_iterations iteration_skipped loop_state in
  check fail_if
    ((loop_state.(ForEachProjection.status) != ForEachStatus.Open)
     || (data.(ForEachSettledData.total) != loop_state.(ForEachProjection.total))
     || ((data.(ForEachSettledData.succeeded), data.(ForEachSettledData.failed), data.(ForEachSettledData.skipped)) != (succeeded, failed, skipped))
     || (u32_add (u32_add succeeded failed) skipped != loop_state.(ForEachProjection.total))
     || (is_success && ((failed != 0%N) || (skipped != 0%N)))
     || owns_active_work loop_state)
    (InvalidHistory "For-each {:?} settlement does not match its folded iterations: ...");
  let p := p
    <|RunProjection.for_each ::=
        <[data.(ForEachSettledData.for_each_id) := loop_state
            <|ForEachProjection.status := if is_success then ForEachStatus.Succeeded
                          else if is_cancelled then ForEachStatus.Cancelled
                          else ForEachStatus.Failed|> ]> |> in
  if is_success then
    let output := for_each_output loop_state succeeded in
    let? digest := projection_digest output in
    check fail_if (digest != data.(ForEachSettledData.aggregate_digest))
      (InvalidHistory "For-each {:?} aggregate digest does not match its public output.");
    Ok (p <|RunProjection.context ::= λ c,
          c <|WorkflowContext.steps ::= λ steps, map_insert steps data.(ForEachSettledData.for_each_id) output|> |>)
  else Ok p.
End with_externals.

(** ** Parallel groups *)

Definition apply_parallel_group_started (p : RunProjection) (data : ParallelGroupStartedData) :
    fold_result RunProjection :=
  check require_running p;
  check fail_if (contains_key p.(RunProjection.parallel_groups) data.(ParallelGroupStartedData.parallel_id))
    (InvalidHistory "Parallel group {:?} was started more than once.");
  Ok (p <|RunProjection.parallel_groups ::=
        <[data.(ParallelGroupStartedData.parallel_id) :=
            {| ParallelGroupProjection.parallel_id := data.(ParallelGroupStartedData.parallel_id);
               ParallelGroupProjection.fork_context := p.(RunProjection.context);
               ParallelGroupProjection.status := ParallelGroupStatus.Started |}]> |>).

Definition apply_parallel_group_completed (p : RunProjection) (data : ParallelGroupCompletedData) :
    fold_result RunProjection :=
  check require_running_or_cancelling p;
  let? group := ok_or (p.(RunProjection.parallel_groups) !! data.(ParallelGroupCompletedData.parallel_id))
    (InvalidHistory "Parallel group {:?} completed before it started.") in
  check fail_if (negb (match group.(ParallelGroupProjection.status) with ParallelGroupStatus.Started => true | _ => false end))
    (InvalidHistory "Parallel group {:?} was completed more than once.");
  Ok (p <|RunProjection.parallel_groups ::=
        <[data.(ParallelGroupCompletedData.parallel_id) := group <|ParallelGroupProjection.status :=
            ParallelGroupStatus.Completed data.(ParallelGroupCompletedData.outcome) data.(ParallelGroupCompletedData.failed_node_ids) data.(ParallelGroupCompletedData.cancelled_node_ids)|> ]> |>).
