(* ===== verification/FoldCorrection.v ===== *)
(** * Sagas and corrective work

    projection/fold_correction.rs: a saga records the compensations of its
    forward steps and runs at most one corrective attempt at a time. *)

From S2P Require Import Prelude Json EventTypes ProjectionTypes Guards.

(** [matches!(saga.phase, Correcting | ManualRecovery)]. *)
Definition phase_is_correcting (phase : SagaPhase) : bool :=
  match phase with SagaPhase.Correcting | SagaPhase.ManualRecovery => true | _ => false end.

(** The update of one action of one saga, written back through both maps. *)
Definition set_action (p : RunProjection) (saga_id action_id : string) (saga : SagaProjection)
    (action : CorrectionActionProjection) : RunProjection :=
  p <|RunProjection.sagas ::= <[saga_id := saga <|SagaProjection.actions ::= <[action_id := action]> |> ]> |>.

Definition registered_action (action_id : string) (action_kind : CorrectiveActionKind)
    (for_step_id : option string) (completion_sequence : option N) : CorrectionActionProjection :=
  {| CorrectionActionProjection.action_id := action_id;
     CorrectionActionProjection.action_kind := action_kind;
     CorrectionActionProjection.for_step_id := for_step_id;
     CorrectionActionProjection.completion_sequence := completion_sequence;
     CorrectionActionProjection.status := CorrectionActionStatus.Registered;
     CorrectionActionProjection.attempts := 0;
     CorrectionActionProjection.active_attempt := None;
     CorrectionActionProjection.retry_at := None;
     CorrectionActionProjection.failure_code := None;
     CorrectionActionProjection.ambiguous := false |}.

Definition apply_saga_started (p : RunProjection) (event : RunEvent) (data : SagaIdentityData) :
    fold_result RunProjection :=
  check require_running p;
  check fail_if (contains_key p.(RunProjection.sagas) data.(SagaIdentityData.saga_id))
    (InvalidHistory "Saga {:?} was started more than once.");
  Ok (p <|RunProjection.sagas ::=
        <[data.(SagaIdentityData.saga_id) :=
            {| SagaProjection.saga_id := data.(SagaIdentityData.saga_id);
               SagaProjection.phase := SagaPhase.Forward;
               SagaProjection.reason := None;
               SagaProjection.started_sequence := event.(RunEvent.sequence);
               SagaProjection.forward_succeeded_sequence := None;
               SagaProjection.correction_completed_sequence := None;
               SagaProjection.actions := ∅ |}]> |>).

(** The registration directly follows the success it compensates. *)
Definition follows_success (previous_event : option RunEvent) (data : CompensationRegisteredData) : bool :=
  match previous_event with
  | Some previous =>
      match previous.(RunEvent.payload) with
      | RunEventPayload.StepAttemptSucceeded succeeded =>
          (succeeded.(StepAttemptSucceededData.node_id) == data.(CompensationRegisteredData.for_step_id))
          && (previous.(RunEvent.sequence) == data.(CompensationRegisteredData.completion_sequence))
      | _ => false
      end
  | None => false
  end.

Definition apply_compensation_registered (p : RunProjection) (event : RunEvent)
    (data : CompensationRegisteredData) (previous_event : option RunEvent) :
    fold_result RunProjection :=
  check require_running_or_cancelling p;
  let? saga := ok_or (p.(RunProjection.sagas) !! data.(CompensationRegisteredData.saga_id))
    (InvalidHistory "Compensation was registered before its saga started.") in
  check fail_if
    ((saga.(SagaProjection.phase) != SagaPhase.Forward)
     || contains_key saga.(SagaProjection.actions) data.(CompensationRegisteredData.action_id)
     || bool_decide (event.(RunEvent.sequence) ≤ data.(CompensationRegisteredData.completion_sequence))%N
     || negb (follows_success previous_event data))
    (InvalidHistory "Compensation registration must atomically follow its proven forward success.");
  Ok (set_action p data.(CompensationRegisteredData.saga_id) data.(CompensationRegisteredData.action_id) saga
        (registered_action data.(CompensationRegisteredData.action_id) CorrectiveActionKind.Compensation
           (Some data.(CompensationRegisteredData.for_step_id)) (Some data.(CompensationRegisteredData.completion_sequence)))).

Definition apply_saga_forward_succeeded (p : RunProjection) (event : RunEvent) (data : SagaIdentityData) :
    fold_result RunProjection :=
  check require_running p;
  let? saga := ok_or (p.(RunProjection.sagas) !! data.(SagaIdentityData.saga_id))
    (InvalidHistory "Saga forward success was recorded before saga start.") in
  check fail_if (saga.(SagaProjection.phase) != SagaPhase.Forward)
    (InvalidHistory "Saga forward work may succeed exactly once.");
  Ok (p <|RunProjection.sagas ::=
        <[data.(SagaIdentityData.saga_id) := saga
            <|SagaProjection.phase := SagaPhase.ForwardSucceeded|>
            <|SagaProjection.forward_succeeded_sequence := Some event.(RunEvent.sequence)|> ]> |>).

Definition apply_saga_correction_started (p : RunProjection) (data : SagaCorrectionStartedData) :
    fold_result RunProjection :=
  check require_running_or_cancelling p;
  let? saga := ok_or (p.(RunProjection.sagas) !! data.(SagaCorrectionStartedData.saga_id))
    (InvalidHistory "Saga correction was started before saga start.") in
  let valid_phase :=
    match data.(SagaCorrectionStartedData.reason) with
    | SagaCorrectionReason.Success => saga.(SagaProjection.phase) == SagaPhase.ForwardSucceeded
    | SagaCorrectionReason.Failure | SagaCorrectionReason.Cancel => saga.(SagaProjection.phase) == SagaPhase.Forward
    end in
  check fail_if (negb valid_phase)
    (InvalidHistory "Saga correction reason does not match its forward phase.");
  Ok (p <|RunProjection.sagas ::=
        <[data.(SagaCorrectionStartedData.saga_id) := saga
            <|SagaProjection.phase := SagaPhase.Correcting|>
            <|SagaProjection.reason := Some data.(SagaCorrectionStartedData.reason)|> ]> |>).

Definition apply_correction_attempt_started (p : RunProjection) (event : RunEvent)
    (data : CorrectionAttemptIdentityData) : fold_result RunProjection :=
  check require_running_or_cancelling p;
  let? saga := ok_or (p.(RunProjection.sagas) !! data.(CorrectionAttemptIdentityData.saga_id))
    (InvalidHistory "Correction attempt references an unknown saga.") in
  check fail_if
    (negb (phase_is_correcting saga.(SagaProjection.phase))
     || existsb (λ (action : CorrectionActionProjection), action.(CorrectionActionProjection.status) == CorrectionActionStatus.Started)
          (btree_values saga.(SagaProjection.actions)))
    (InvalidHistory "A saga may have only one active corrective attempt.");
  let action :=
    default (registered_action data.(CorrectionAttemptIdentityData.action_id) data.(CorrectionAttemptIdentityData.action_kind) None None)
      (saga.(SagaProjection.actions) !! data.(CorrectionAttemptIdentityData.action_id)) in
  let can_start :=
    (action.(CorrectionActionProjection.action_kind) == data.(CorrectionAttemptIdentityData.action_kind))
    && (data.(CorrectionAttemptIdentityData.attempt) == u32_add action.(CorrectionActionProjection.attempts) 1)
    && (match action.(CorrectionActionProjection.status) with CorrectionActionStatus.Registered | CorrectionActionStatus.RetryScheduled => true | _ => false end)
    && is_none_or action.(CorrectionActionProjection.retry_at) (λ retry_at, bool_decide (retry_at ≤ event.(RunEvent.occurred_at))%Z) in
  check fail_if (negb can_start)
    (InvalidHistory "Correction attempt does not match its pending action and retry schedule.");
  Ok (set_action p data.(CorrectionAttemptIdentityData.saga_id) data.(CorrectionAttemptIdentityData.action_id) saga (action
        <|CorrectionActionProjection.attempts := data.(CorrectionAttemptIdentityData.attempt)|>
        <|CorrectionActionProjection.active_attempt := Some data.(CorrectionAttemptIdentityData.attempt)|>
        <|CorrectionActionProjection.retry_at := None|>
        <|CorrectionActionProjection.status := CorrectionActionStatus.Started|>)).

Section with_externals.
Context `{Externals}.

Definition require_settled_operations (p : RunProjection) (saga_id action_id : string) (attempt : N) :
    fold_result unit :=
  let invocation_id :=
    correction_invocation_id (default EmptyString p.(RunProjection.run_id)) saga_id action_id attempt in
  fail_if
    (existsb (λ (operation : OperationProjection),
       (operation.(OperationProjection.identity).(OperationIdentity.invocation_id) == invocation_id)
       && operation_is_started operation.(OperationProjection.status)) (btree_values p.(RunProjection.operations)))
    (InvalidHistory "A corrective attempt cannot settle while an operation remains active.").

Definition apply_correction_attempt_succeeded (p : RunProjection)
    (data : CorrectionAttemptIdentityData) : fold_result RunProjection :=
  check require_settled_operations p data.(CorrectionAttemptIdentityData.saga_id) data.(CorrectionAttemptIdentityData.action_id) data.(CorrectionAttemptIdentityData.attempt);
  let? saga := ok_or (p.(RunProjection.sagas) !! data.(CorrectionAttemptIdentityData.saga_id))
    (InvalidHistory "Correction success references an unknown saga.") in
  let? action := ok_or (saga.(SagaProjection.actions) !! data.(CorrectionAttemptIdentityData.action_id))
    (InvalidHistory "Correction success has no started action.") in
  check fail_if
    (negb (phase_is_correcting saga.(SagaProjection.phase))
     || (action.(CorrectionActionProjection.action_kind) != data.(CorrectionAttemptIdentityData.action_kind))
     || (action.(CorrectionActionProjection.status) != CorrectionActionStatus.Started)
     || (action.(CorrectionActionProjection.active_attempt) != Some data.(CorrectionAttemptIdentityData.attempt)))
    (InvalidHistory "Correction success does not close its active attempt.");
  Ok (set_action p data.(CorrectionAttemptIdentityData.saga_id) data.(CorrectionAttemptIdentityData.action_id) saga (action
        <|CorrectionActionProjection.status := CorrectionActionStatus.Succeeded|>
        <|CorrectionActionProjection.active_attempt := None|>)).

Definition apply_correction_attempt_failed (p : RunProjection) (data : CorrectionAttemptFailedData) :
    fold_result RunProjection :=
  check require_settled_operations p data.(CorrectionAttemptFailedData.saga_id) data.(CorrectionAttemptFailedData.action_id) data.(CorrectionAttemptFailedData.attempt);
  let? saga := ok_or (p.(RunProjection.sagas) !! data.(CorrectionAttemptFailedData.saga_id))
    (InvalidHistory "Correction failure references an unknown saga.") in
  let? action := ok_or (saga.(SagaProjection.actions) !! data.(CorrectionAttemptFailedData.action_id))
    (InvalidHistory "Correction failure has no started action.") in
  check fail_if
    (negb (phase_is_correcting saga.(SagaProjection.phase))
     || (action.(CorrectionActionProjection.action_kind) != data.(CorrectionAttemptFailedData.action_kind))
     || (action.(CorrectionActionProjection.status) != CorrectionActionStatus.Started)
     || (action.(CorrectionActionProjection.active_attempt) != Some data.(CorrectionAttemptFailedData.attempt)))
    (InvalidHistory "Correction failure does not close its active attempt.");
  Ok (set_action p data.(CorrectionAttemptFailedData.saga_id) data.(CorrectionAttemptFailedData.action_id) saga (action
        <|CorrectionActionProjection.status := CorrectionActionStatus.Failed|>
        <|CorrectionActionProjection.active_attempt := None|>
        <|CorrectionActionProjection.failure_code := Some data.(CorrectionAttemptFailedData.code)|>
        <|CorrectionActionProjection.ambiguous := data.(CorrectionAttemptFailedData.ambiguous)|>)).

Definition apply_correction_interrupted (p : RunProjection) (data : CorrectionInterruptedData) :
    fold_result RunProjection :=
  check require_settled_operations p data.(CorrectionInterruptedData.saga_id) data.(CorrectionInterruptedData.action_id) data.(CorrectionInterruptedData.attempt);
  let? saga := ok_or (p.(RunProjection.sagas) !! data.(CorrectionInterruptedData.saga_id))
    (InvalidHistory "Correction interruption references an unknown saga.") in
  let? action := ok_or (saga.(SagaProjection.actions) !! data.(CorrectionInterruptedData.action_id))
    (InvalidHistory "Correction interruption has no started action.") in
  check fail_if
    ((action.(CorrectionActionProjection.action_kind) != data.(CorrectionInterruptedData.action_kind))
     || (action.(CorrectionActionProjection.status) != CorrectionActionStatus.Started)
     || (action.(CorrectionActionProjection.active_attempt) != Some data.(CorrectionInterruptedData.attempt)))
    (InvalidHistory "Correction interruption does not close its active attempt.");
  Ok (set_action p data.(CorrectionInterruptedData.saga_id) data.(CorrectionInterruptedData.action_id) saga (action
        <|CorrectionActionProjection.status := CorrectionActionStatus.Interrupted|>
        <|CorrectionActionProjection.active_attempt := None|>
        <|CorrectionActionProjection.ambiguous := data.(CorrectionInterruptedData.ambiguous)|>)).
End with_externals.

Definition apply_correction_retry_scheduled (p : RunProjection) (data : CorrectionRetryScheduledData) :
    fold_result RunProjection :=
  let? saga := ok_or (p.(RunProjection.sagas) !! data.(CorrectionRetryScheduledData.saga_id))
    (InvalidHistory "Correction retry references an unknown saga.") in
  let? action := ok_or (saga.(SagaProjection.actions) !! data.(CorrectionRetryScheduledData.action_id))
    (InvalidHistory "Correction retry has no failed action.") in
  let automatic_retry :=
    (saga.(SagaProjection.phase) == SagaPhase.Correcting) && (action.(CorrectionActionProjection.status) == CorrectionActionStatus.Failed) && negb action.(CorrectionActionProjection.ambiguous) in
  let operator_retry :=
    (saga.(SagaProjection.phase) == SagaPhase.ManualRecovery) && (action.(CorrectionActionProjection.status) == CorrectionActionStatus.ManualRecovery)
    && action.(CorrectionActionProjection.ambiguous) in
  check fail_if
    ((action.(CorrectionActionProjection.action_kind) != data.(CorrectionRetryScheduledData.action_kind))
     || (action.(CorrectionActionProjection.attempts) != data.(CorrectionRetryScheduledData.attempt))
     || negb (automatic_retry || operator_retry))
    (InvalidHistory "Correction retry does not follow an automatic failure or an explicit manual-recovery decision.");
  let saga := if operator_retry then saga <|SagaProjection.phase := SagaPhase.Correcting|> else saga in
  let action :=
    if operator_retry then action <|CorrectionActionProjection.ambiguous := false|> <|CorrectionActionProjection.failure_code := None|> else action in
  Ok (set_action p data.(CorrectionRetryScheduledData.saga_id) data.(CorrectionRetryScheduledData.action_id) saga (action
        <|CorrectionActionProjection.status := CorrectionActionStatus.RetryScheduled|>
        <|CorrectionActionProjection.retry_at := Some data.(CorrectionRetryScheduledData.retry_at)|>)).

Definition apply_manual_recovery_required (p : RunProjection) (data : ManualRecoveryRequiredData) :
    fold_result RunProjection :=
  let? saga := ok_or (p.(RunProjection.sagas) !! data.(ManualRecoveryRequiredData.saga_id))
    (InvalidHistory "Manual recovery references an unknown saga.") in
  let? action := ok_or (saga.(SagaProjection.actions) !! data.(ManualRecoveryRequiredData.action_id))
    (InvalidHistory "Manual recovery references an unknown correction.") in
  check fail_if
    ((action.(CorrectionActionProjection.action_kind) != data.(ManualRecoveryRequiredData.action_kind))
     || negb (match action.(CorrectionActionProjection.status) with CorrectionActionStatus.Failed | CorrectionActionStatus.Interrupted => true | _ => false end)
     || negb action.(CorrectionActionProjection.ambiguous))
    (InvalidHistory "Manual recovery requires one ambiguous failed or interrupted correction.");
  Ok (set_action p data.(ManualRecoveryRequiredData.saga_id) data.(ManualRecoveryRequiredData.action_id)
        (saga <|SagaProjection.phase := SagaPhase.ManualRecovery|>)
        (action
           <|CorrectionActionProjection.status := CorrectionActionStatus.ManualRecovery|>
           <|CorrectionActionProjection.failure_code := Some data.(ManualRecoveryRequiredData.code)|>)).

(** The action keeps the saga from completing its correction. *)
Definition blocks_completion (success_exit : bool) (action : CorrectionActionProjection) : bool :=
  (match action.(CorrectionActionProjection.status) with CorrectionActionStatus.Started | CorrectionActionStatus.RetryScheduled => true | _ => false end)
  || ((action.(CorrectionActionProjection.status) == CorrectionActionStatus.Registered)
      && negb (success_exit && (action.(CorrectionActionProjection.action_kind) == CorrectiveActionKind.Compensation))).

Definition apply_saga_correction_completed (p : RunProjection) (event : RunEvent) (data : SagaIdentityData) :
    fold_result RunProjection :=
  let? saga := ok_or (p.(RunProjection.sagas) !! data.(SagaIdentityData.saga_id))
    (InvalidHistory "Correction completion references an unknown saga.") in
  let success_exit := saga.(SagaProjection.reason) == Some SagaCorrectionReason.Success in
  check fail_if
    (negb (phase_is_correcting saga.(SagaProjection.phase))
     || existsb (blocks_completion success_exit) (btree_values saga.(SagaProjection.actions)))
    (InvalidHistory "Saga correction cannot complete while corrective work remains pending.");
  Ok (p <|RunProjection.sagas ::=
        <[data.(SagaIdentityData.saga_id) := saga
            <|SagaProjection.phase := SagaPhase.CorrectionCompleted|>
            <|SagaProjection.correction_completed_sequence := Some event.(RunEvent.sequence)|> ]> |>).
