(* ===== verification/FoldApprovals.v ===== *)
(** * Approvals

    projection/fold_approvals.rs: basic approvals (one human decision or a
    timeout) and rich approvals (a quorum of reviewers). *)

From S2P Require Import Prelude Json EventTypes ProjectionTypes Guards.

Definition apply_approval_requested (p : RunProjection) (event : RunEvent)
    (data : ApprovalRequestedData) : fold_result RunProjection :=
  check require_running p;
  check fail_if (contains_key p.(RunProjection.approval_requests) data.(ApprovalRequestedData.approval_id))
    (InvalidHistory "Approval {:?} was requested more than once.");
  check fail_if
    (existsb (λ (request : ApprovalRequestProjection), request.(ApprovalRequestProjection.request_id) == data.(ApprovalRequestedData.request_id))
       (btree_values p.(RunProjection.approval_requests)))
    (InvalidHistory "Approval request ID {:?} appears more than once.");
  Ok (p
    <|RunProjection.approval_requests ::=
        <[data.(ApprovalRequestedData.approval_id) :=
            {| ApprovalRequestProjection.approval_id := data.(ApprovalRequestedData.approval_id);
               ApprovalRequestProjection.request_id := data.(ApprovalRequestedData.request_id);
               ApprovalRequestProjection.requested_at := event.(RunEvent.occurred_at);
               ApprovalRequestProjection.expires_at := data.(ApprovalRequestedData.expires_at);
               ApprovalRequestProjection.on_timeout := data.(ApprovalRequestedData.on_timeout);
               ApprovalRequestProjection.status := ApprovalRequestStatus.Waiting |}]> |>
    <|RunProjection.status := RunStatus.Waiting|>).

Definition apply_approval_review_requested (p : RunProjection) (event : RunEvent)
    (data : ApprovalReviewRequestedData) : fold_result RunProjection :=
  check require_running p;
  check fail_if
    (contains_key p.(RunProjection.rich_approval_requests) data.(ApprovalReviewRequestedData.approval_id)
     || existsb (λ (request : RichApprovalRequestProjection), request.(RichApprovalRequestProjection.request_id) == data.(ApprovalReviewRequestedData.request_id))
          (btree_values p.(RunProjection.rich_approval_requests)))
    (InvalidHistory "A rich approval request identity appears more than once.");
  Ok (p
    <|RunProjection.rich_approval_requests ::=
        <[data.(ApprovalReviewRequestedData.approval_id) :=
            {| RichApprovalRequestProjection.approval_id := data.(ApprovalReviewRequestedData.approval_id);
               RichApprovalRequestProjection.request_id := data.(ApprovalReviewRequestedData.request_id);
               RichApprovalRequestProjection.review_digest := data.(ApprovalReviewRequestedData.review_digest);
               RichApprovalRequestProjection.directory_version := data.(ApprovalReviewRequestedData.directory_version);
               RichApprovalRequestProjection.required := data.(ApprovalReviewRequestedData.required);
               RichApprovalRequestProjection.required_roles := data.(ApprovalReviewRequestedData.required_roles);
               RichApprovalRequestProjection.represented_roles := [];
               RichApprovalRequestProjection.requested_at := event.(RunEvent.occurred_at);
               RichApprovalRequestProjection.resolved_at := None;
               RichApprovalRequestProjection.status := RichApprovalRequestStatus.Waiting;
               RichApprovalRequestProjection.decisions := ∅ |}]> |>
    <|RunProjection.status := RunStatus.Waiting|>).

Definition apply_approval_reviewer_decision_recorded (p : RunProjection) (event : RunEvent)
    (data : ApprovalReviewerDecisionRecordedData) : fold_result RunProjection :=
  let? request :=
    ok_or (p.(RunProjection.rich_approval_requests) !! data.(ApprovalReviewerDecisionRecordedData.approval_id))
      (InvalidHistory "A reviewer decision references an unknown rich approval.") in
  check fail_if
    ((p.(RunProjection.status) != RunStatus.Waiting)
     || (request.(RichApprovalRequestProjection.status) != RichApprovalRequestStatus.Waiting)
     || (request.(RichApprovalRequestProjection.request_id) != data.(ApprovalReviewerDecisionRecordedData.request_id))
     || (request.(RichApprovalRequestProjection.review_digest) != data.(ApprovalReviewerDecisionRecordedData.review_digest))
     || contains_key request.(RichApprovalRequestProjection.decisions) data.(ApprovalReviewerDecisionRecordedData.principal_id))
    (InvalidHistory "A reviewer decision does not match one pending immutable review.");
  Ok (p <|RunProjection.rich_approval_requests ::=
        <[data.(ApprovalReviewerDecisionRecordedData.approval_id) := request <|RichApprovalRequestProjection.decisions ::=
            <[data.(ApprovalReviewerDecisionRecordedData.principal_id) :=
                RichApprovalReviewerDecisionProjection.mk data.(ApprovalReviewerDecisionRecordedData.principal_id) data.(ApprovalReviewerDecisionRecordedData.decision)
                  event.(RunEvent.occurred_at)]> |> ]> |>).

(** [decisions.values().filter(approved).count() as u32]. *)
Definition approved_count (request : RichApprovalRequestProjection) : N :=
  as_u32 (length (List.filter (λ (d : RichApprovalReviewerDecisionProjection),
                                 d.(RichApprovalReviewerDecisionProjection.decision) == ApprovalDecision.Approved)
                    (btree_values request.(RichApprovalRequestProjection.decisions)))).

Definition apply_approval_quorum_progressed (p : RunProjection) (data : ApprovalQuorumProgressedData) :
    fold_result RunProjection :=
  let? request :=
    ok_or (p.(RunProjection.rich_approval_requests) !! data.(ApprovalQuorumProgressedData.approval_id))
      (InvalidHistory "Quorum progress references an unknown rich approval.") in
  let approved := approved_count request in
  check fail_if
    ((request.(RichApprovalRequestProjection.status) != RichApprovalRequestStatus.Waiting)
     || (request.(RichApprovalRequestProjection.request_id) != data.(ApprovalQuorumProgressedData.request_id))
     || (request.(RichApprovalRequestProjection.review_digest) != data.(ApprovalQuorumProgressedData.review_digest))
     || (request.(RichApprovalRequestProjection.required) != data.(ApprovalQuorumProgressedData.required))
     || (request.(RichApprovalRequestProjection.required_roles) != data.(ApprovalQuorumProgressedData.required_roles))
     || (approved != data.(ApprovalQuorumProgressedData.received)))
    (InvalidHistory "Quorum progress is not derived from the durable rich approval history.");
  Ok (p <|RunProjection.rich_approval_requests ::=
        <[data.(ApprovalQuorumProgressedData.approval_id) := request <|RichApprovalRequestProjection.represented_roles := data.(ApprovalQuorumProgressedData.represented_roles)|> ]> |>).

(** [ApprovalResolvedData::is_rich]. *)
Definition is_rich (data : ApprovalResolvedData) : bool := is_some data.(ApprovalResolvedData.review_digest).

Definition decision_name (decision : ApprovalDecision) : Value :=
  Value.String match decision with
               | ApprovalDecision.Approved => "approved"
               | ApprovalDecision.Rejected => "rejected"
               end.

Definition source_name (source : ApprovalDecisionSource) : Value :=
  Value.String match source with
               | ApprovalDecisionSource.Human => "human"
               | ApprovalDecisionSource.Timeout => "timeout"
               end.

(** The [match data.reason] of a rich resolution. *)
Definition rich_status_of (reason : option RichApprovalResolutionReason) :
    fold_result RichApprovalRequestStatus :=
  match reason with
  | Some RichApprovalResolutionReason.Quorum => Ok RichApprovalRequestStatus.Approved
  | Some RichApprovalResolutionReason.Rejection => Ok RichApprovalRequestStatus.Rejected
  | Some RichApprovalResolutionReason.Timeout => Ok RichApprovalRequestStatus.Expired
  | Some RichApprovalResolutionReason.Cancellation => Ok RichApprovalRequestStatus.Cancelled
  | Some RichApprovalResolutionReason.ArtifactInvalidated => Ok RichApprovalRequestStatus.Invalidated
  | None => Err (InvalidHistory "A rich approval resolution has no reason.")
  end.

(** The deadline of a basic approval has passed. *)
Definition expired (request : ApprovalRequestProjection) (event : RunEvent) : bool :=
  is_some_and request.(ApprovalRequestProjection.expires_at) (λ deadline, bool_decide (deadline ≤ event.(RunEvent.occurred_at))%Z).

(** The [match resolution] of a basic resolution. *)
Definition check_resolution (request : ApprovalRequestProjection) (event : RunEvent)
    (resolution : ApprovalResolution) : fold_result unit :=
  let mismatch := Err
    (InvalidHistory "Approval {:?} resolution does not match its deadline and timeout policy.") in
  match resolution with
  | ApprovalResolution.Decision _ ApprovalDecisionSource.Human =>
      fail_if (expired request event)
        (InvalidHistory "Human decision for approval {:?} occurred at or after its deadline.")
  | ApprovalResolution.Decision ApprovalDecision.Rejected ApprovalDecisionSource.Timeout =>
      if (request.(ApprovalRequestProjection.on_timeout) == ApprovalTimeoutPolicy.Reject) && expired request event
      then Ok tt else mismatch
  | ApprovalResolution.TimeoutFailure =>
      if (request.(ApprovalRequestProjection.on_timeout) == ApprovalTimeoutPolicy.Fail) && expired request event
      then Ok tt else mismatch
  | _ => mismatch
  end.

Section with_externals.
Context `{Externals}.

(** The [json!] step output of a rich resolution. *)
Definition rich_approval_output (event : RunEvent) (data : ApprovalResolvedData)
    (request : RichApprovalRequestProjection) (decision : ApprovalDecision) : Value :=
  Value.Object
    [("decision", decision_name decision);
     ("source", Value.String "human");
     ("decidedAt", Value.String (rfc3339_millis event.(RunEvent.occurred_at)));
     ("review", Value.Object [("digest", Value.String request.(RichApprovalRequestProjection.review_digest))]);
     ("authority", Value.Object
        [("required", value_from_u32 request.(RichApprovalRequestProjection.required));
         ("received", value_from_u32 (default 0%N data.(ApprovalResolvedData.received)));
         ("requiredRoles", Value.Array (Value.String <$> request.(RichApprovalRequestProjection.required_roles)))])].

(** The first branch of [apply_approval_resolved]: [data.is_rich()]. *)
Definition resolve_rich_approval (p : RunProjection) (event : RunEvent) (data : ApprovalResolvedData) :
    fold_result RunProjection :=
  let? request :=
    ok_or (p.(RunProjection.rich_approval_requests) !! data.(ApprovalResolvedData.approval_id))
      (InvalidHistory "A rich approval resolved before its review was requested.") in
  let? decision := ok_or data.(ApprovalResolvedData.decision)
    (InvalidHistory "A rich approval resolution has no decision.") in
  let cancellation_resolution :=
    (data.(ApprovalResolvedData.reason) == Some RichApprovalResolutionReason.Cancellation)
    && (p.(RunProjection.status) == RunStatus.Cancelling) in
  check fail_if
    (((p.(RunProjection.status) != RunStatus.Waiting) && negb cancellation_resolution)
     || (request.(RichApprovalRequestProjection.status) != RichApprovalRequestStatus.Waiting)
     || (request.(RichApprovalRequestProjection.request_id) != data.(ApprovalResolvedData.request_id))
     || (data.(ApprovalResolvedData.review_digest) != Some request.(RichApprovalRequestProjection.review_digest))
     || (data.(ApprovalResolvedData.required) != Some request.(RichApprovalRequestProjection.required))
     || (data.(ApprovalResolvedData.required_roles) != Some request.(RichApprovalRequestProjection.required_roles)))
    (InvalidHistory "A rich approval resolution does not match its pending immutable review.");
  let? status := rich_status_of data.(ApprovalResolvedData.reason) in
  Ok (p
    <|RunProjection.rich_approval_requests ::=
        <[data.(ApprovalResolvedData.approval_id) := request
            <|RichApprovalRequestProjection.represented_roles := default [] data.(ApprovalResolvedData.represented_roles)|>
            <|RichApprovalRequestProjection.status := status|>
            <|RichApprovalRequestProjection.resolved_at := Some event.(RunEvent.occurred_at)|> ]> |>
    <|RunProjection.context ::= λ c, c <|WorkflowContext.steps ::= λ steps,
        map_insert steps data.(ApprovalResolvedData.approval_id) (rich_approval_output event data request decision)|> |>
    <|RunProjection.status := if cancellation_resolution then RunStatus.Cancelling else RunStatus.Running|>).

(** The [json!] step output of a basic decision. *)
Definition approval_output (event : RunEvent) (decision : ApprovalDecision)
    (source : ApprovalDecisionSource) : Value :=
  Value.Object
    [("decision", decision_name decision);
     ("source", source_name source);
     ("decidedAt", Value.String (rfc3339_millis event.(RunEvent.occurred_at)))].

(** The second branch of [apply_approval_resolved]. *)
Definition resolve_basic_approval (p : RunProjection) (event : RunEvent) (data : ApprovalResolvedData) :
    fold_result RunProjection :=
  check fail_if (p.(RunProjection.status) != RunStatus.Waiting) (InvalidHistory "approval_resolved requires a waiting run.");
  let? request := ok_or (p.(RunProjection.approval_requests) !! data.(ApprovalResolvedData.approval_id))
    (InvalidHistory "Approval {:?} resolved before it was requested.") in
  check fail_if (request.(ApprovalRequestProjection.request_id) != data.(ApprovalResolvedData.request_id))
    (InvalidHistory "Approval {:?} resolved with a mismatched request ID.");
  check fail_if (request.(ApprovalRequestProjection.status) != ApprovalRequestStatus.Waiting)
    (InvalidHistory "Approval {:?} was resolved more than once.");
  let? resolution := ok_or data.(ApprovalResolvedData.resolution) (InvalidHistory "A basic approval resolution is missing.") in
  check check_resolution request event resolution;
  let p :=
    match resolution with
    | ApprovalResolution.Decision decision source =>
        p <|RunProjection.context ::= λ c, c <|WorkflowContext.steps ::= λ steps,
            map_insert steps data.(ApprovalResolvedData.approval_id) (approval_output event decision source)|> |>
    | ApprovalResolution.TimeoutFailure => p
    end in
  Ok (p
    <|RunProjection.approval_requests ::=
        <[data.(ApprovalResolvedData.approval_id) := request
            <|ApprovalRequestProjection.status := ApprovalRequestStatus.Resolved resolution event.(RunEvent.occurred_at)|> ]> |>
    <|RunProjection.status := RunStatus.Running|>).

Definition apply_approval_resolved (p : RunProjection) (event : RunEvent) (data : ApprovalResolvedData) :
    fold_result RunProjection :=
  if is_rich data then resolve_rich_approval p event data else resolve_basic_approval p event data.
End with_externals.

(** The invalidation leaves the projection unchanged: the resolution that
    follows it closes the request. *)
Definition apply_approval_invalidated (p : RunProjection) (data : ApprovalInvalidatedData) :
    fold_result RunProjection :=
  let? request :=
    ok_or (p.(RunProjection.rich_approval_requests) !! data.(ApprovalInvalidatedData.approval_id))
      (InvalidHistory "An invalidation references an unknown rich approval.") in
  check fail_if
    ((p.(RunProjection.status) != RunStatus.Waiting)
     || (request.(RichApprovalRequestProjection.status) != RichApprovalRequestStatus.Waiting)
     || (request.(RichApprovalRequestProjection.request_id) != data.(ApprovalInvalidatedData.request_id))
     || (request.(RichApprovalRequestProjection.review_digest) != data.(ApprovalInvalidatedData.review_digest)))
    (InvalidHistory "An invalidation does not match one pending immutable review.");
  Ok p.
