(* ===== verification/FoldOperations.v ===== *)
(** * Operations, durable waits, locks and notifications

    projection/fold_operations.rs: external calls of an attempt and policy decisions;
    projection/fold_waits.rs: durable waits and external signals;
    projection/fold_locks.rs: the run's view of the mutual-exclusion leases it
    waits for, holds and gives up; projection/fold_notifications.rs: deliveries,
    decisions and message updates. *)

From S2P Require Import Prelude Json EventTypes ProjectionTypes Guards FoldRun.

Definition apply_infrastructure_policy_decision_recorded (p : RunProjection)
    (data : InfrastructurePolicyDecisionRecordedData) : fold_result RunProjection :=
  check require_operation_settlement p;
  check fail_if
    (existsb (λ (existing : InfrastructurePolicyDecisionRecordedData),
       existing.(InfrastructurePolicyDecisionRecordedData.decision).(InfrastructurePolicyDecisionRecordV1.decision_id) == data.(InfrastructurePolicyDecisionRecordedData.decision).(InfrastructurePolicyDecisionRecordV1.decision_id)) p.(RunProjection.infrastructure_policy_decisions))
    (InvalidHistory "Infrastructure policy decision identity was recorded more than once.");
  Ok (p <|RunProjection.infrastructure_policy_decisions ::= λ ds, ds ++ [data]|>).

Section with_externals.
Context `{Externals}.

Definition apply_operation_started (p : RunProjection) (data : OperationStartedData) :
    fold_result RunProjection :=
  check require_operation_runtime p data.(OperationStartedData.node_id) data.(OperationStartedData.attempt_number) data.(OperationStartedData.invocation_id);
  check require_active_operation_attempt p data.(OperationStartedData.node_id) data.(OperationStartedData.attempt_number) data.(OperationStartedData.invocation_id);
  let key := OperationIdentity.mk data.(OperationStartedData.invocation_id) data.(OperationStartedData.call_id) in
  check fail_if (contains_key p.(RunProjection.operations) key)
    (InvalidHistory "Operation call {:?} was started more than once in invocation {:?}.");
  check fail_if
    (existsb (λ (operation : OperationProjection),
       (operation.(OperationProjection.identity).(OperationIdentity.invocation_id) == data.(OperationStartedData.invocation_id))
       && (operation.(OperationProjection.operation_key) == data.(OperationStartedData.operation_key))) (btree_values p.(RunProjection.operations)))
    (InvalidHistory "Logical operation key {:?} was reused within invocation {:?}.");
  Ok (p <|RunProjection.operations ::=
        <[key :=
            {| OperationProjection.identity := key;
               OperationProjection.node_id := data.(OperationStartedData.node_id);
               OperationProjection.attempt_number := data.(OperationStartedData.attempt_number);
               OperationProjection.operation_key := data.(OperationStartedData.operation_key);
               OperationProjection.capability := data.(OperationStartedData.capability);
               OperationProjection.operation := data.(OperationStartedData.operation);
               OperationProjection.execution_mode := data.(OperationStartedData.execution_mode);
               OperationProjection.metadata := data.(OperationStartedData.metadata);
               OperationProjection.status := OperationStatus.Started |}]> |>).

Definition apply_operation_succeeded (p : RunProjection) (data : OperationSucceededData) :
    fold_result RunProjection :=
  check require_operation_runtime p data.(OperationSucceededData.node_id) data.(OperationSucceededData.attempt_number) data.(OperationSucceededData.invocation_id);
  check require_active_operation_attempt p data.(OperationSucceededData.node_id) data.(OperationSucceededData.attempt_number) data.(OperationSucceededData.invocation_id);
  let key := OperationIdentity.mk data.(OperationSucceededData.invocation_id) data.(OperationSucceededData.call_id) in
  let? operation := ok_or (p.(RunProjection.operations) !! key)
    (InvalidHistory "operation_succeeded has no matching start.") in
  check validate_operation_terminal_identity operation data.(OperationSucceededData.node_id) data.(OperationSucceededData.attempt_number)
    data.(OperationSucceededData.operation_key) data.(OperationSucceededData.capability) data.(OperationSucceededData.operation) data.(OperationSucceededData.execution_mode);
  Ok (p <|RunProjection.operations ::=
        <[key := operation
            <|OperationProjection.metadata := data.(OperationSucceededData.metadata)|>
            <|OperationProjection.status := OperationStatus.Succeeded data.(OperationSucceededData.duration_ms) data.(OperationSucceededData.result_bytes) data.(OperationSucceededData.result_digest)|> ]> |>).

Definition apply_operation_failed (p : RunProjection) (data : OperationFailedData) :
    fold_result RunProjection :=
  check require_operation_settlement p;
  check require_active_operation_attempt p data.(OperationFailedData.node_id) data.(OperationFailedData.attempt_number) data.(OperationFailedData.invocation_id);
  let key := OperationIdentity.mk data.(OperationFailedData.invocation_id) data.(OperationFailedData.call_id) in
  let? operation := ok_or (p.(RunProjection.operations) !! key)
    (InvalidHistory "operation_failed has no matching start.") in
  check validate_operation_terminal_identity operation data.(OperationFailedData.node_id) data.(OperationFailedData.attempt_number)
    data.(OperationFailedData.operation_key) data.(OperationFailedData.capability) data.(OperationFailedData.operation) data.(OperationFailedData.execution_mode);
  Ok (p <|RunProjection.operations ::=
        <[key := operation
            <|OperationProjection.metadata := data.(OperationFailedData.metadata)|>
            <|OperationProjection.status := OperationStatus.Failed data.(OperationFailedData.duration_ms) data.(OperationFailedData.failure)|> ]> |>).
End with_externals.

Definition apply_wait_registered (p : RunProjection) (data : WaitRegisteredData) :
    fold_result RunProjection :=
  check require_running p;
  check fail_if (contains_key p.(RunProjection.durable_waits) data.(WaitRegisteredData.wait_id))
    (InvalidHistory "Durable wait {:?} was registered more than once.");
  Ok (p
    <|RunProjection.durable_waits ::=
        <[data.(WaitRegisteredData.wait_id) :=
            {| DurableWaitProjection.wait_id := data.(WaitRegisteredData.wait_id);
               DurableWaitProjection.node_id := data.(WaitRegisteredData.node_id);
               DurableWaitProjection.kind := data.(WaitRegisteredData.kind);
               DurableWaitProjection.registered_at := data.(WaitRegisteredData.registered_at);
               DurableWaitProjection.deadline := data.(WaitRegisteredData.deadline);
               DurableWaitProjection.signals := default [] data.(WaitRegisteredData.signals);
               DurableWaitProjection.correlation_digest := data.(WaitRegisteredData.correlation_digest);
               DurableWaitProjection.status := DurableWaitStatus.Registered;
               DurableWaitProjection.resolved_at := None |}]> |>
    <|RunProjection.status := RunStatus.Waiting|>).

Definition apply_external_signal_received (p : RunProjection) (data : ExternalSignalReceivedData) :
    fold_result RunProjection :=
  check fail_if (p.(RunProjection.status) != RunStatus.Waiting) (InvalidHistory "external_signal_received requires a waiting run.");
  let? wait := ok_or (p.(RunProjection.durable_waits) !! data.(ExternalSignalReceivedData.wait_id))
    (InvalidHistory "External signal references an unregistered durable wait.") in
  check fail_if
    ((wait.(DurableWaitProjection.status) != DurableWaitStatus.Registered)
     || negb (existsb (λ signal, signal == data.(ExternalSignalReceivedData.signal)) wait.(DurableWaitProjection.signals))
     || existsb (λ (signal : ExternalSignalReceivedData),
          (signal.(ExternalSignalReceivedData.idempotency_digest) == data.(ExternalSignalReceivedData.idempotency_digest))
          || (signal.(ExternalSignalReceivedData.signal_id) == data.(ExternalSignalReceivedData.signal_id))) p.(RunProjection.external_signals))
    (InvalidHistory "External signal does not match one unresolved durable wait.");
  Ok (p <|RunProjection.external_signals ::= λ signals, signals ++ [data]|>).

Definition apply_wait_satisfied (p : RunProjection) (data : WaitSatisfiedData) :
    fold_result RunProjection :=
  check fail_if (p.(RunProjection.status) != RunStatus.Waiting) (InvalidHistory "wait_satisfied requires a waiting run.");
  let? wait := ok_or (p.(RunProjection.durable_waits) !! data.(WaitSatisfiedData.wait_id))
    (InvalidHistory "wait_satisfied has no registered wait.") in
  check fail_if
    ((wait.(DurableWaitProjection.status) != DurableWaitStatus.Registered)
     || ((data.(WaitSatisfiedData.winner) == DurableWaitWinner.Timer)
         && (negb (match wait.(DurableWaitProjection.kind) with
                   | DurableWaitKind.Duration | DurableWaitKind.Until => true | _ => false end)
             || is_none_or wait.(DurableWaitProjection.deadline) (λ deadline, bool_decide (data.(WaitSatisfiedData.resolved_at) < deadline)%Z)))
     || ((data.(WaitSatisfiedData.winner) == DurableWaitWinner.Signal)
         && negb (existsb (λ (signal : ExternalSignalReceivedData),
              (signal.(ExternalSignalReceivedData.wait_id) == data.(WaitSatisfiedData.wait_id))
              && bool_decide (signal.(ExternalSignalReceivedData.received_at) ≤ data.(WaitSatisfiedData.resolved_at))%Z) p.(RunProjection.external_signals))))
    (InvalidHistory "wait_satisfied does not resolve the active wait exactly once.");
  Ok (p
    <|RunProjection.durable_waits ::=
        <[data.(WaitSatisfiedData.wait_id) := wait
            <|DurableWaitProjection.status := DurableWaitStatus.Satisfied data.(WaitSatisfiedData.winner)|>
            <|DurableWaitProjection.resolved_at := Some data.(WaitSatisfiedData.resolved_at)|> ]> |>
    <|RunProjection.context ::= λ c, c <|WorkflowContext.steps ::= λ steps, map_insert steps data.(WaitSatisfiedData.wait_id) data.(WaitSatisfiedData.result)|> |>
    <|RunProjection.status := RunStatus.Running|>).

Section with_externals.
Context `{Externals}.

(** The [json!] output of a signal wait that timed out and continues. *)
Definition timed_out_output (data : WaitTimedOutData) : Value :=
  Value.Object
    [("status", Value.String "timed_out");
     ("deadline", Value.String (rfc3339_millis data.(WaitTimedOutData.deadline)));
     ("resumedAt", Value.String (rfc3339_millis data.(WaitTimedOutData.resolved_at)))].

Definition apply_wait_timed_out (p : RunProjection) (data : WaitTimedOutData) :
    fold_result RunProjection :=
  check fail_if (p.(RunProjection.status) != RunStatus.Waiting) (InvalidHistory "wait_timed_out requires a waiting run.");
  let? wait := ok_or (p.(RunProjection.durable_waits) !! data.(WaitTimedOutData.wait_id))
    (InvalidHistory "wait_timed_out has no registered wait.") in
  check fail_if
    ((wait.(DurableWaitProjection.status) != DurableWaitStatus.Registered)
     || (wait.(DurableWaitProjection.kind) != DurableWaitKind.Signal)
     || (wait.(DurableWaitProjection.deadline) != Some data.(WaitTimedOutData.deadline)))
    (InvalidHistory "wait_timed_out does not close the active signal wait.");
  let p := p
    <|RunProjection.durable_waits ::=
        <[data.(WaitTimedOutData.wait_id) := wait
            <|DurableWaitProjection.status := DurableWaitStatus.TimedOut data.(WaitTimedOutData.behavior)|>
            <|DurableWaitProjection.resolved_at := Some data.(WaitTimedOutData.resolved_at)|> ]> |> in
  let p :=
    if data.(WaitTimedOutData.behavior) == DurableWaitTimeoutBehavior.Continue
    then p <|RunProjection.context ::= λ c,
           c <|WorkflowContext.steps ::= λ steps, map_insert steps data.(WaitTimedOutData.wait_id) (timed_out_output data)|> |>
    else p in
  Ok (p <|RunProjection.status := RunStatus.Running|>).
End with_externals.

Definition apply_wait_cancelled (p : RunProjection) (data : WaitCancelledData) :
    fold_result RunProjection :=
  let? wait := ok_or (p.(RunProjection.durable_waits) !! data.(WaitCancelledData.wait_id))
    (InvalidHistory "wait_cancelled has no registered wait.") in
  check fail_if
    ((wait.(DurableWaitProjection.status) != DurableWaitStatus.Registered)
     || negb (match p.(RunProjection.status) with RunStatus.Waiting | RunStatus.Cancelling => true | _ => false end))
    (InvalidHistory "wait_cancelled does not close one active wait.");
  Ok (p <|RunProjection.durable_waits ::=
        <[data.(WaitCancelledData.wait_id) := wait
            <|DurableWaitProjection.status := DurableWaitStatus.Cancelled|>
            <|DurableWaitProjection.resolved_at := Some data.(WaitCancelledData.cancelled_at)|> ]> |>).

(** The projection of a newly registered waiter, at top level and in an iteration. *)
Definition waiting_lock (data : LockWaitRegisteredData) : LockProjection :=
  {| LockProjection.lock_id := data.(LockWaitRegisteredData.lock_id);
     LockProjection.key := data.(LockWaitRegisteredData.key);
     LockProjection.waiter_sequence := data.(LockWaitRegisteredData.waiter_sequence);
     LockProjection.execution_identity := data.(LockWaitRegisteredData.execution_identity);
     LockProjection.registered_at := data.(LockWaitRegisteredData.registered_at);
     LockProjection.deadline := data.(LockWaitRegisteredData.deadline);
     LockProjection.status := LockStatus.Waiting;
     LockProjection.lease_id := None;
     LockProjection.fencing_token := None;
     LockProjection.acquired_at := None;
     LockProjection.expires_at := None;
     LockProjection.resolved_at := None |}.

Definition apply_lock_wait_registered (p : RunProjection) (data : LockWaitRegisteredData) :
    fold_result RunProjection :=
  check require_running p;
  check fail_if (contains_key p.(RunProjection.locks) data.(LockWaitRegisteredData.lock_id))
    (InvalidHistory "Lock {:?} was registered more than once.");
  Ok (p
    <|RunProjection.locks ::= <[data.(LockWaitRegisteredData.lock_id) := waiting_lock data]> |>
    <|RunProjection.status := RunStatus.Waiting|>).

Definition apply_lock_acquired (p : RunProjection) (data : LockAcquiredData) :
    fold_result RunProjection :=
  check fail_if (p.(RunProjection.status) != RunStatus.Waiting) (InvalidHistory "lock_acquired requires a waiting run.");
  let? lock := ok_or (p.(RunProjection.locks) !! data.(LockAcquiredData.lock_id))
    (InvalidHistory "lock_acquired has no registered waiter.") in
  check fail_if
    ((lock.(LockProjection.status) != LockStatus.Waiting)
     || (lock.(LockProjection.key) != data.(LockAcquiredData.key))
     || (lock.(LockProjection.execution_identity) != data.(LockAcquiredData.execution_identity)))
    (InvalidHistory "lock_acquired does not match the active waiter.");
  Ok (p
    <|RunProjection.locks ::= <[data.(LockAcquiredData.lock_id) := lock
         <|LockProjection.status := LockStatus.Held|>
         <|LockProjection.lease_id := Some data.(LockAcquiredData.lease_id)|>
         <|LockProjection.fencing_token := Some data.(LockAcquiredData.fencing_token)|>
         <|LockProjection.acquired_at := Some data.(LockAcquiredData.acquired_at)|>
         <|LockProjection.expires_at := Some data.(LockAcquiredData.expires_at)|> ]> |>
    <|RunProjection.status := RunStatus.Running|>).

Definition apply_lock_released (p : RunProjection) (data : LockReleasedData) :
    fold_result RunProjection :=
  check require_running_or_cancelling p;
  let? lock := ok_or (p.(RunProjection.locks) !! data.(LockReleasedData.lock_id))
    (InvalidHistory "lock_released has no acquired lease.") in
  check fail_if
    ((lock.(LockProjection.status) != LockStatus.Held)
     || (lock.(LockProjection.key) != data.(LockReleasedData.key))
     || (lock.(LockProjection.lease_id) != Some data.(LockReleasedData.lease_id))
     || (lock.(LockProjection.fencing_token) != Some data.(LockReleasedData.fencing_token)))
    (InvalidHistory "lock_released does not match the held lease.");
  Ok (p
    <|RunProjection.locks ::= <[data.(LockReleasedData.lock_id) := lock
         <|LockProjection.status := LockStatus.Released|>
         <|LockProjection.resolved_at := Some data.(LockReleasedData.released_at)|> ]> |>
    <|RunProjection.context ::= λ c, c <|WorkflowContext.steps ::= λ steps, map_insert steps data.(LockReleasedData.lock_id) data.(LockReleasedData.result)|> |>
    <|RunProjection.status := RunStatus.Running|>).

Definition apply_lock_acquire_timed_out (p : RunProjection) (data : LockAcquireTimedOutData) :
    fold_result RunProjection :=
  let? lock := ok_or (p.(RunProjection.locks) !! data.(LockAcquireTimedOutData.lock_id))
    (InvalidHistory "lock_acquire_timed_out has no waiter.") in
  check fail_if
    ((lock.(LockProjection.status) != LockStatus.Waiting) || (lock.(LockProjection.key) != data.(LockAcquireTimedOutData.key)) || (lock.(LockProjection.deadline) != data.(LockAcquireTimedOutData.deadline)))
    (InvalidHistory "lock_acquire_timed_out does not match the active waiter.");
  Ok (p
    <|RunProjection.locks ::= <[data.(LockAcquireTimedOutData.lock_id) := lock
         <|LockProjection.status := LockStatus.AcquireTimedOut|>
         <|LockProjection.resolved_at := Some data.(LockAcquireTimedOutData.resolved_at)|> ]> |>
    <|RunProjection.status := RunStatus.Running|>).

Definition apply_lock_acquisition_cancelled (p : RunProjection) (data : LockAcquisitionCancelledData) :
    fold_result RunProjection :=
  let? lock := ok_or (p.(RunProjection.locks) !! data.(LockAcquisitionCancelledData.lock_id))
    (InvalidHistory "lock_acquisition_cancelled has no waiter.") in
  check fail_if ((lock.(LockProjection.status) != LockStatus.Waiting) || (lock.(LockProjection.key) != data.(LockAcquisitionCancelledData.key)))
    (InvalidHistory "lock_acquisition_cancelled does not match the active waiter.");
  Ok (p <|RunProjection.locks ::= <[data.(LockAcquisitionCancelledData.lock_id) := lock
         <|LockProjection.status := LockStatus.AcquisitionCancelled|>
         <|LockProjection.resolved_at := Some data.(LockAcquisitionCancelledData.cancelled_at)|> ]> |>).

Definition apply_lock_lease_lost (p : RunProjection) (data : LockLeaseLostData) :
    fold_result RunProjection :=
  let? lock := ok_or (p.(RunProjection.locks) !! data.(LockLeaseLostData.lock_id))
    (InvalidHistory "lock_lease_lost has no acquired lease.") in
  check fail_if
    ((lock.(LockProjection.status) != LockStatus.Held)
     || (lock.(LockProjection.key) != data.(LockLeaseLostData.key))
     || (lock.(LockProjection.lease_id) != Some data.(LockLeaseLostData.lease_id))
     || (lock.(LockProjection.fencing_token) != Some data.(LockLeaseLostData.fencing_token)))
    (InvalidHistory "lock_lease_lost does not match the held lease.");
  Ok (p
    <|RunProjection.locks ::= <[data.(LockLeaseLostData.lock_id) := lock
         <|LockProjection.status := LockStatus.LeaseLost|>
         <|LockProjection.resolved_at := Some data.(LockLeaseLostData.detected_at)|> ]> |>
    <|RunProjection.status := RunStatus.Running|>).

Definition apply_notification_delivery_requested (p : RunProjection)
    (data : NotificationDeliveryRequestedData) : fold_result RunProjection :=
  check fail_if (p.(RunProjection.status) != RunStatus.Waiting)
    (InvalidHistory "notification_delivery_requested requires a waiting approval.");
  let? request := ok_or (p.(RunProjection.approval_requests) !! data.(NotificationDeliveryRequestedData.approval_id))
    (InvalidHistory "Notification delivery references an unknown approval.") in
  check fail_if
    ((request.(ApprovalRequestProjection.request_id) != data.(NotificationDeliveryRequestedData.request_id))
     || (request.(ApprovalRequestProjection.status) != ApprovalRequestStatus.Waiting)
     || contains_key p.(RunProjection.notification_deliveries) data.(NotificationDeliveryRequestedData.delivery_id))
    (InvalidHistory "Notification delivery intent does not match the active approval request.");
  Ok (p <|RunProjection.notification_deliveries ::=
        <[data.(NotificationDeliveryRequestedData.delivery_id) :=
            {| NotificationDeliveryProjection.approval_id := data.(NotificationDeliveryRequestedData.approval_id);
               NotificationDeliveryProjection.request_id := data.(NotificationDeliveryRequestedData.request_id);
               NotificationDeliveryProjection.delivery_id := data.(NotificationDeliveryRequestedData.delivery_id);
               NotificationDeliveryProjection.provider := data.(NotificationDeliveryRequestedData.provider);
               NotificationDeliveryProjection.destination := data.(NotificationDeliveryRequestedData.destination);
               NotificationDeliveryProjection.status := NotificationDeliveryStatus.Requested |}]> |>).

(** The number the next delivery attempt must carry; 0 forbids every attempt. *)
Definition expected_delivery_attempt (status : NotificationDeliveryStatus) : N :=
  match status with
  | NotificationDeliveryStatus.Requested => 1
  | NotificationDeliveryStatus.Failed attempt _ false failure _ =>
      if failure.(NotificationSafeFailure.retryable) then u32_add attempt 1 else 0
  | _ => 0
  end.

Definition apply_notification_delivery_attempt_started (p : RunProjection)
    (data : NotificationDeliveryAttemptStartedData) : fold_result RunProjection :=
  check fail_if (p.(RunProjection.status) != RunStatus.Waiting)
    (InvalidHistory "Notification delivery attempts require a waiting approval.");
  let? delivery :=
    ok_or (p.(RunProjection.notification_deliveries) !! data.(NotificationDeliveryAttemptStartedData.delivery_id))
      (InvalidHistory "Notification attempt started before its durable intent.") in
  check fail_if
    ((delivery.(NotificationDeliveryProjection.approval_id) != data.(NotificationDeliveryAttemptStartedData.approval_id)) || (delivery.(NotificationDeliveryProjection.request_id) != data.(NotificationDeliveryAttemptStartedData.request_id)))
    (InvalidHistory "Notification attempt identity does not match its intent.");
  check fail_if (data.(NotificationDeliveryAttemptStartedData.attempt) != expected_delivery_attempt delivery.(NotificationDeliveryProjection.status))
    (InvalidHistory "Notification attempt is duplicated or out of order.");
  Ok (p <|RunProjection.notification_deliveries ::=
        <[data.(NotificationDeliveryAttemptStartedData.delivery_id) := delivery <|NotificationDeliveryProjection.status :=
            NotificationDeliveryStatus.AttemptStarted data.(NotificationDeliveryAttemptStartedData.attempt) data.(NotificationDeliveryAttemptStartedData.attempt_id) data.(NotificationDeliveryAttemptStartedData.idempotency_key)|> ]> |>).

(** The delivery has the given attempt under way. *)
Definition delivery_attempt_active (status : NotificationDeliveryStatus) (attempt : N)
    (attempt_id : string) : bool :=
  match status with
  | NotificationDeliveryStatus.AttemptStarted attempt' attempt_id' _ => (attempt' == attempt) && (attempt_id' == attempt_id)
  | _ => false
  end.

Definition apply_notification_delivery_succeeded (p : RunProjection)
    (data : NotificationDeliverySucceededData) : fold_result RunProjection :=
  let? delivery :=
    ok_or (p.(RunProjection.notification_deliveries) !! data.(NotificationDeliverySucceededData.delivery_id))
      (InvalidHistory "Notification success has no durable intent.") in
  check fail_if (negb (delivery_attempt_active delivery.(NotificationDeliveryProjection.status) data.(NotificationDeliverySucceededData.attempt) data.(NotificationDeliverySucceededData.attempt_id)))
    (InvalidHistory "Notification success does not close its active attempt.");
  Ok (p <|RunProjection.notification_deliveries ::=
        <[data.(NotificationDeliverySucceededData.delivery_id) := delivery <|NotificationDeliveryProjection.status :=
            NotificationDeliveryStatus.Succeeded data.(NotificationDeliverySucceededData.attempt) data.(NotificationDeliverySucceededData.attempt_id) data.(NotificationDeliverySucceededData.provider_message)|> ]> |>).

Definition apply_notification_delivery_failed (p : RunProjection) (event : RunEvent)
    (data : NotificationDeliveryFailedData) : fold_result RunProjection :=
  let? delivery :=
    ok_or (p.(RunProjection.notification_deliveries) !! data.(NotificationDeliveryFailedData.delivery_id))
      (InvalidHistory "Notification failure has no durable intent.") in
  check fail_if (negb (delivery_attempt_active delivery.(NotificationDeliveryProjection.status) data.(NotificationDeliveryFailedData.attempt) data.(NotificationDeliveryFailedData.attempt_id)))
    (InvalidHistory "Notification failure does not close its active attempt.");
  Ok (p <|RunProjection.notification_deliveries ::=
        <[data.(NotificationDeliveryFailedData.delivery_id) := delivery <|NotificationDeliveryProjection.status :=
            NotificationDeliveryStatus.Failed data.(NotificationDeliveryFailedData.attempt) data.(NotificationDeliveryFailedData.attempt_id) data.(NotificationDeliveryFailedData.final_) data.(NotificationDeliveryFailedData.failure) event.(RunEvent.occurred_at)|> ]> |>).

Definition apply_notification_decision_accepted (p : RunProjection)
    (data : NotificationDecisionAcceptedData) : fold_result RunProjection :=
  check fail_if ((p.(RunProjection.status) != RunStatus.Waiting) || negb (is_empty p.(RunProjection.notification_decisions)))
    (InvalidHistory "Only one notification decision may be accepted while waiting.");
  let? delivery :=
    ok_or (p.(RunProjection.notification_deliveries) !! data.(NotificationDecisionAcceptedData.delivery_id))
      (InvalidHistory "Notification decision references an unknown delivery.") in
  check fail_if
    ((delivery.(NotificationDeliveryProjection.approval_id) != data.(NotificationDecisionAcceptedData.approval_id))
     || (delivery.(NotificationDeliveryProjection.request_id) != data.(NotificationDecisionAcceptedData.request_id))
     || negb (delivery_succeeded delivery))
    (InvalidHistory "Notification decision requires a successful delivery for the active request.");
  Ok (p <|RunProjection.notification_decisions ::= λ ds, ds ++ [data]|>).

Definition apply_notification_message_update_requested (p : RunProjection)
    (data : NotificationMessageUpdateRequestedData) : fold_result RunProjection :=
  check fail_if (p.(RunProjection.status) != RunStatus.Running)
    (InvalidHistory "Message update work requires a resolved approval.");
  let? delivery :=
    ok_or (p.(RunProjection.notification_deliveries) !! data.(NotificationMessageUpdateRequestedData.delivery_id))
      (InvalidHistory "Message update references an unknown delivery.") in
  check fail_if
    ((delivery.(NotificationDeliveryProjection.approval_id) != data.(NotificationMessageUpdateRequestedData.approval_id))
     || (delivery.(NotificationDeliveryProjection.request_id) != data.(NotificationMessageUpdateRequestedData.request_id))
     || negb (delivery_succeeded delivery)
     || contains_key p.(RunProjection.notification_updates) data.(NotificationMessageUpdateRequestedData.delivery_id))
    (InvalidHistory "Message update intent does not match a successful delivery.");
  Ok (p <|RunProjection.notification_updates ::=
        <[data.(NotificationMessageUpdateRequestedData.delivery_id) :=
            {| NotificationMessageUpdateProjection.approval_id := data.(NotificationMessageUpdateRequestedData.approval_id);
               NotificationMessageUpdateProjection.request_id := data.(NotificationMessageUpdateRequestedData.request_id);
               NotificationMessageUpdateProjection.delivery_id := data.(NotificationMessageUpdateRequestedData.delivery_id);
               NotificationMessageUpdateProjection.update_id := data.(NotificationMessageUpdateRequestedData.update_id);
               NotificationMessageUpdateProjection.resolution := data.(NotificationMessageUpdateRequestedData.resolution);
               NotificationMessageUpdateProjection.status := NotificationMessageUpdateStatus.Requested |}]> |>).

(** The number the next update attempt must carry; 0 forbids every attempt. *)
Definition expected_update_attempt (status : NotificationMessageUpdateStatus) : N :=
  match status with
  | NotificationMessageUpdateStatus.Requested => 1
  | NotificationMessageUpdateStatus.Failed attempt _ false failure _ =>
      if failure.(NotificationSafeFailure.retryable) then u32_add attempt 1 else 0
  | _ => 0
  end.

Definition apply_notification_message_update_attempt_started (p : RunProjection)
    (data : NotificationMessageUpdateAttemptStartedData) : fold_result RunProjection :=
  let? update :=
    ok_or (p.(RunProjection.notification_updates) !! data.(NotificationMessageUpdateAttemptStartedData.delivery_id))
      (InvalidHistory "Message update attempt started before its intent.") in
  check fail_if
    ((update.(NotificationMessageUpdateProjection.update_id) != data.(NotificationMessageUpdateAttemptStartedData.update_id))
     || (data.(NotificationMessageUpdateAttemptStartedData.attempt) != expected_update_attempt update.(NotificationMessageUpdateProjection.status)))
    (InvalidHistory "Message update attempt is duplicated or out of order.");
  Ok (p <|RunProjection.notification_updates ::=
        <[data.(NotificationMessageUpdateAttemptStartedData.delivery_id) := update <|NotificationMessageUpdateProjection.status :=
            NotificationMessageUpdateStatus.AttemptStarted data.(NotificationMessageUpdateAttemptStartedData.attempt) data.(NotificationMessageUpdateAttemptStartedData.attempt_id)|> ]> |>).

(** The update has the given attempt under way. *)
Definition update_attempt_active (status : NotificationMessageUpdateStatus) (attempt : N)
    (attempt_id : string) : bool :=
  match status with
  | NotificationMessageUpdateStatus.AttemptStarted attempt' attempt_id' => (attempt' == attempt) && (attempt_id' == attempt_id)
  | _ => false
  end.

Definition apply_notification_message_updated (p : RunProjection)
    (data : NotificationMessageUpdatedData) : fold_result RunProjection :=
  let? update :=
    ok_or (p.(RunProjection.notification_updates) !! data.(NotificationMessageUpdateAttemptStartedData.delivery_id))
      (InvalidHistory "Message update success has no intent.") in
  check fail_if (negb (update_attempt_active update.(NotificationMessageUpdateProjection.status) data.(NotificationMessageUpdateAttemptStartedData.attempt) data.(NotificationMessageUpdateAttemptStartedData.attempt_id)))
    (InvalidHistory "Message update success does not close its attempt.");
  Ok (p <|RunProjection.notification_updates ::=
        <[data.(NotificationMessageUpdateAttemptStartedData.delivery_id) := update <|NotificationMessageUpdateProjection.status :=
            NotificationMessageUpdateStatus.Updated data.(NotificationMessageUpdateAttemptStartedData.attempt) data.(NotificationMessageUpdateAttemptStartedData.attempt_id)|> ]> |>).

Definition apply_notification_message_update_failed (p : RunProjection) (event : RunEvent)
    (data : NotificationMessageUpdateFailedData) : fold_result RunProjection :=
  let? update :=
    ok_or (p.(RunProjection.notification_updates) !! data.(NotificationMessageUpdateFailedData.delivery_id))
      (InvalidHistory "Message update failure has no intent.") in
  check fail_if (negb (update_attempt_active update.(NotificationMessageUpdateProjection.status) data.(NotificationMessageUpdateFailedData.attempt) data.(NotificationMessageUpdateFailedData.attempt_id)))
    (InvalidHistory "Message update failure does not close its attempt.");
  Ok (p <|RunProjection.notification_updates ::=
        <[data.(NotificationMessageUpdateFailedData.delivery_id) := update <|NotificationMessageUpdateProjection.status :=
            NotificationMessageUpdateStatus.Failed data.(NotificationMessageUpdateFailedData.attempt) data.(NotificationMessageUpdateFailedData.attempt_id) data.(NotificationMessageUpdateFailedData.final_) data.(NotificationMessageUpdateFailedData.failure) event.(RunEvent.occurred_at)|> ]> |>).
