(* ===== verification/FoldLifecycle.v ===== *)
(** * Lifecycle hooks, business outcome and finalization

    projection/fold_lifecycle.rs: hooks and their actions, reusable hooks, the
    single decision of the business outcome and the finalization that follows
    it. *)

From S2P Require Import Prelude Json EventTypes ProjectionTypes Guards FoldControlFlow.

(** The projection of a newly requested hook, at top level and in an iteration. *)
Definition requested_hook (data : LifecycleHookRequestedData) : LifecycleHookProjection :=
  {| LifecycleHookProjection.hook_invocation_id := data.(LifecycleHookRequestedData.hook_invocation_id);
     LifecycleHookProjection.hook_id := data.(LifecycleHookRequestedData.hook_id);
     LifecycleHookProjection.event := data.(LifecycleHookRequestedData.event);
     LifecycleHookProjection.subject := data.(LifecycleHookRequestedData.subject);
     LifecycleHookProjection.status := LifecycleHookStatus.Requested;
     LifecycleHookProjection.actions := ∅;
     LifecycleHookProjection.failed_actions := 0 |}.

Definition apply_lifecycle_hook_requested (p : RunProjection) (data : LifecycleHookRequestedData) :
    fold_result RunProjection :=
  check fail_if
    (is_none p.(RunProjection.run_id)
     || (match p.(RunProjection.status) with
         | RunStatus.NotStarted | RunStatus.Queued | RunStatus.Succeeded | RunStatus.Failed | RunStatus.Cancelled => true
         | _ => false end)
     || contains_key p.(RunProjection.lifecycle_hooks) data.(LifecycleHookRequestedData.hook_invocation_id)
     || existsb (λ (hook : LifecycleHookProjection),
          (hook.(LifecycleHookProjection.hook_id) == data.(LifecycleHookRequestedData.hook_id)) && (hook.(LifecycleHookProjection.subject) == data.(LifecycleHookRequestedData.subject)))
          (btree_values p.(RunProjection.lifecycle_hooks)))
    (InvalidHistory "Lifecycle hook request is duplicated or belongs to an inactive run.");
  Ok (p
    <|RunProjection.lifecycle_hooks ::= <[data.(LifecycleHookRequestedData.hook_invocation_id) := requested_hook data]> |>
    <|RunProjection.lifecycle_status := LifecycleStatus.Running|>).

Definition hook_is_completed (s : LifecycleHookStatus) : bool :=
  match s with LifecycleHookStatus.Completed | LifecycleHookStatus.CompletedWithWarnings => true | _ => false end.

(** [hook.actions.values().any(|action| action.status == Started)]. *)
Definition any_started_action (hook : LifecycleHookProjection) : bool :=
  existsb (λ (action : LifecycleActionProjection), action.(LifecycleActionProjection.status) == LifecycleActionStatus.Started)
    (btree_values hook.(LifecycleHookProjection.actions)).

(** The hook after one of its actions started. *)
Definition start_action (hook : LifecycleHookProjection) (data : LifecycleActionIdentityData) :
    LifecycleHookProjection :=
  hook
    <|LifecycleHookProjection.actions ::=
        <[data.(LifecycleActionIdentityData.action_id) := LifecycleActionProjection.mk data.(LifecycleActionIdentityData.action_id) data.(LifecycleActionIdentityData.attempt) LifecycleActionStatus.Started None]> |>
    <|LifecycleHookProjection.status := LifecycleHookStatus.Running|>.

Definition apply_lifecycle_action_attempt_started (p : RunProjection)
    (data : LifecycleActionIdentityData) : fold_result RunProjection :=
  let? hook := ok_or (p.(RunProjection.lifecycle_hooks) !! data.(LifecycleActionIdentityData.hook_invocation_id))
    (InvalidHistory "Lifecycle action started before its hook was requested.") in
  check fail_if
    (hook_is_completed hook.(LifecycleHookProjection.status)
     || contains_key hook.(LifecycleHookProjection.actions) data.(LifecycleActionIdentityData.action_id)
     || any_started_action hook)
    (InvalidHistory "A lifecycle hook may have only one active, uniquely identified action attempt.");
  Ok (p <|RunProjection.lifecycle_hooks ::= <[data.(LifecycleActionIdentityData.hook_invocation_id) := start_action hook data]> |>).

(** The hook after its started action succeeded. *)
Definition succeed_action (hook : LifecycleHookProjection) (action_id : string)
    (action : LifecycleActionProjection) : LifecycleHookProjection :=
  hook <|LifecycleHookProjection.actions ::= <[action_id := action <|LifecycleActionProjection.status := LifecycleActionStatus.Succeeded|> ]> |>.

Definition apply_lifecycle_action_succeeded (p : RunProjection) (data : LifecycleActionIdentityData) :
    fold_result RunProjection :=
  let? hook := ok_or (p.(RunProjection.lifecycle_hooks) !! data.(LifecycleActionIdentityData.hook_invocation_id))
    (InvalidHistory "Unknown lifecycle hook.") in
  let? action := ok_or (hook.(LifecycleHookProjection.actions) !! data.(LifecycleActionIdentityData.action_id))
    (InvalidHistory "Lifecycle action succeeded before it started.") in
  check fail_if ((action.(LifecycleActionProjection.status) != LifecycleActionStatus.Started) || (action.(LifecycleActionProjection.attempt) != data.(LifecycleActionIdentityData.attempt)))
    (InvalidHistory "Lifecycle action success does not close its active attempt.");
  Ok (p <|RunProjection.lifecycle_hooks ::=
        <[data.(LifecycleActionIdentityData.hook_invocation_id) := succeed_action hook data.(LifecycleActionIdentityData.action_id) action]> |>).

(** The hook after its started action failed. *)
Definition fail_action (hook : LifecycleHookProjection) (action_id : string)
    (action : LifecycleActionProjection) (failure : LifecycleFailure) : LifecycleHookProjection :=
  hook
    <|LifecycleHookProjection.actions ::= <[action_id := action
        <|LifecycleActionProjection.status := LifecycleActionStatus.Failed|>
        <|LifecycleActionProjection.failure := Some failure|> ]> |>
    <|LifecycleHookProjection.failed_actions ::= λ n, u32_add n 1|>.

Definition apply_lifecycle_action_failed (p : RunProjection) (data : LifecycleActionFailedData) :
    fold_result RunProjection :=
  let? hook := ok_or (p.(RunProjection.lifecycle_hooks) !! data.(LifecycleActionFailedData.hook_invocation_id))
    (InvalidHistory "Unknown lifecycle hook.") in
  let? action := ok_or (hook.(LifecycleHookProjection.actions) !! data.(LifecycleActionFailedData.action_id))
    (InvalidHistory "Lifecycle action failed before it started.") in
  check fail_if ((action.(LifecycleActionProjection.status) != LifecycleActionStatus.Started) || (action.(LifecycleActionProjection.attempt) != data.(LifecycleActionFailedData.attempt)))
    (InvalidHistory "Lifecycle action failure does not close its active attempt.");
  Ok (p <|RunProjection.lifecycle_hooks ::=
        <[data.(LifecycleActionFailedData.hook_invocation_id) := fail_action hook data.(LifecycleActionFailedData.action_id) action data.(LifecycleActionFailedData.failure)]> |>).

Definition hook_completion_status (s : LifecycleHookCompletionStatus) : LifecycleHookStatus :=
  match s with
  | LifecycleHookCompletionStatus.Completed => LifecycleHookStatus.Completed
  | LifecycleHookCompletionStatus.CompletedWithWarnings => LifecycleHookStatus.CompletedWithWarnings
  end.

Definition apply_lifecycle_hook_completed (p : RunProjection) (data : LifecycleHookCompletedData) :
    fold_result RunProjection :=
  let? hook := ok_or (p.(RunProjection.lifecycle_hooks) !! data.(LifecycleHookCompletedData.hook_invocation_id))
    (InvalidHistory "Unknown lifecycle hook.") in
  check fail_if
    (hook_is_completed hook.(LifecycleHookProjection.status)
     || any_started_action hook
     || (hook.(LifecycleHookProjection.failed_actions) != data.(LifecycleHookCompletedData.failed_actions)))
    (InvalidHistory "Lifecycle hook completion does not match its action outcomes.");
  Ok (p <|RunProjection.lifecycle_hooks ::=
        <[data.(LifecycleHookCompletedData.hook_invocation_id) := hook <|LifecycleHookProjection.status := hook_completion_status data.(LifecycleHookCompletedData.status)|> ]> |>).

(** ** Reusable hooks *)

(** [format!("{:?}", hook)]. *)
Definition reusable_hook_debug (hook : ReusableLifecycleHook) : string :=
  match hook with
  | ReusableLifecycleHook.OnSuccess => "OnSuccess"
  | ReusableLifecycleHook.OnError => "OnError"
  | ReusableLifecycleHook.OnComplete => "OnComplete"
  end.

(** [format!("{}:{:?}", invocation_id, hook)]. *)
Definition reusable_key (invocation_id : string) (hook : ReusableLifecycleHook) : string :=
  invocation_id +:+ ":" +:+ reusable_hook_debug hook.

Definition requested_reusable (data : ReusableLifecycleRequestedData) : ReusableLifecycleProjection :=
  {| ReusableLifecycleProjection.invocation_id := data.(ReusableLifecycleRequestedData.invocation_id);
     ReusableLifecycleProjection.definition_digest := data.(ReusableLifecycleRequestedData.definition_digest);
     ReusableLifecycleProjection.hook := data.(ReusableLifecycleRequestedData.hook);
     ReusableLifecycleProjection.status := ReusableLifecycleStatus.Requested;
     ReusableLifecycleProjection.active_action_id := None;
     ReusableLifecycleProjection.completed_action_ids := [];
     ReusableLifecycleProjection.warning_codes := [] |}.

Definition apply_reusable_lifecycle_requested (p : RunProjection)
    (data : ReusableLifecycleRequestedData) : fold_result RunProjection :=
  let key := reusable_key data.(ReusableLifecycleRequestedData.invocation_id) data.(ReusableLifecycleRequestedData.hook) in
  check fail_if (contains_key p.(RunProjection.reusable_lifecycle_hooks) key)
    (InvalidHistory "Reusable lifecycle hook was requested more than once.");
  Ok (p <|RunProjection.reusable_lifecycle_hooks ::= <[key := requested_reusable data]> |>).

(** The hook after one of its actions started, succeeded, failed. *)
Definition reusable_start (hook : ReusableLifecycleProjection) (action_id : string) :
    ReusableLifecycleProjection :=
  hook <|ReusableLifecycleProjection.active_action_id := Some action_id|> <|ReusableLifecycleProjection.status := ReusableLifecycleStatus.Running|>.

Definition reusable_succeed (hook : ReusableLifecycleProjection) (action_id : string) :
    ReusableLifecycleProjection :=
  hook
    <|ReusableLifecycleProjection.active_action_id := None|>
    <|ReusableLifecycleProjection.completed_action_ids ::= λ ids, ids ++ [action_id]|>.

Definition reusable_fail (hook : ReusableLifecycleProjection) (action_id warning_code : string) :
    ReusableLifecycleProjection :=
  hook
    <|ReusableLifecycleProjection.active_action_id := None|>
    <|ReusableLifecycleProjection.completed_action_ids ::= λ ids, ids ++ [action_id]|>
    <|ReusableLifecycleProjection.warning_codes ::= λ codes, codes ++ [warning_code]|>.

Definition reusable_complete (hook : ReusableLifecycleProjection) (outcome : ReusableLifecycleOutcome) :
    ReusableLifecycleProjection :=
  hook <|ReusableLifecycleProjection.status :=
    if outcome == ReusableLifecycleOutcome.CompletedWithWarnings
    then ReusableLifecycleStatus.CompletedWithWarnings else ReusableLifecycleStatus.Completed|>.

(** [hook.completed_action_ids.contains(&action_id)]. *)
Definition action_is_completed (hook : ReusableLifecycleProjection) (action_id : string) : bool :=
  existsb (λ id, id == action_id) hook.(ReusableLifecycleProjection.completed_action_ids).

Definition apply_reusable_lifecycle_action_started (p : RunProjection)
    (data : ReusableLifecycleActionStartedData) : fold_result RunProjection :=
  let key := reusable_key data.(ReusableLifecycleActionStartedData.invocation_id) data.(ReusableLifecycleActionStartedData.hook) in
  let? hook := ok_or (p.(RunProjection.reusable_lifecycle_hooks) !! key)
    (InvalidHistory "Reusable lifecycle action started before its hook was requested.") in
  check fail_if
    ((hook.(ReusableLifecycleProjection.definition_digest) != data.(ReusableLifecycleActionStartedData.definition_digest))
     || is_some hook.(ReusableLifecycleProjection.active_action_id)
     || action_is_completed hook data.(ReusableLifecycleActionStartedData.action_id)
     || (match hook.(ReusableLifecycleProjection.status) with
         | ReusableLifecycleStatus.Completed | ReusableLifecycleStatus.CompletedWithWarnings => true | _ => false end))
    (InvalidHistory "Reusable lifecycle action has an invalid or duplicate identity.");
  Ok (p <|RunProjection.reusable_lifecycle_hooks ::= <[key := reusable_start hook data.(ReusableLifecycleActionStartedData.action_id)]> |>).

Definition apply_reusable_lifecycle_action_succeeded (p : RunProjection)
    (data : ReusableLifecycleActionSucceededData) : fold_result RunProjection :=
  let key := reusable_key data.(ReusableLifecycleActionSucceededData.invocation_id) data.(ReusableLifecycleActionSucceededData.hook) in
  let? hook := ok_or (p.(RunProjection.reusable_lifecycle_hooks) !! key)
    (InvalidHistory "Unknown reusable lifecycle hook.") in
  check fail_if
    ((hook.(ReusableLifecycleProjection.definition_digest) != data.(ReusableLifecycleActionSucceededData.definition_digest))
     || (hook.(ReusableLifecycleProjection.active_action_id) != Some data.(ReusableLifecycleActionSucceededData.action_id)))
    (InvalidHistory "Reusable lifecycle success does not close its active action.");
  Ok (p <|RunProjection.reusable_lifecycle_hooks ::= <[key := reusable_succeed hook data.(ReusableLifecycleActionSucceededData.action_id)]> |>).

Definition apply_reusable_lifecycle_action_failed (p : RunProjection)
    (data : ReusableLifecycleActionFailedData) : fold_result RunProjection :=
  let key := reusable_key data.(ReusableLifecycleActionFailedData.invocation_id) data.(ReusableLifecycleActionFailedData.hook) in
  let? hook := ok_or (p.(RunProjection.reusable_lifecycle_hooks) !! key)
    (InvalidHistory "Unknown reusable lifecycle hook.") in
  check fail_if
    ((hook.(ReusableLifecycleProjection.definition_digest) != data.(ReusableLifecycleActionFailedData.definition_digest))
     || is_some_and hook.(ReusableLifecycleProjection.active_action_id) (λ active, active != data.(ReusableLifecycleActionFailedData.action_id))
     || action_is_completed hook data.(ReusableLifecycleActionFailedData.action_id))
    (InvalidHistory "Reusable lifecycle failure does not close its active action.");
  Ok (p <|RunProjection.reusable_lifecycle_hooks ::=
        <[key := reusable_fail hook data.(ReusableLifecycleActionFailedData.action_id) data.(ReusableLifecycleActionFailedData.warning_code)]> |>).

Definition apply_reusable_lifecycle_completed (p : RunProjection)
    (data : ReusableLifecycleCompletedData) : fold_result RunProjection :=
  let key := reusable_key data.(ReusableLifecycleCompletedData.invocation_id) data.(ReusableLifecycleCompletedData.hook) in
  let? hook := ok_or (p.(RunProjection.reusable_lifecycle_hooks) !! key)
    (InvalidHistory "Unknown reusable lifecycle hook.") in
  check fail_if
    ((hook.(ReusableLifecycleProjection.definition_digest) != data.(ReusableLifecycleCompletedData.definition_digest)) || is_some hook.(ReusableLifecycleProjection.active_action_id))
    (InvalidHistory "Reusable lifecycle completion does not match its hook.");
  Ok (p <|RunProjection.reusable_lifecycle_hooks ::= <[key := reusable_complete hook data.(ReusableLifecycleCompletedData.outcome)]> |>).

(** ** Outcome and finalization *)

(** [RunOutcomeDecidedData::outcome]. *)
Definition outcome (data : RunOutcomeDecidedData) : BusinessOutcome :=
  match data with
  | RunOutcomeDecidedData.Succeeded _ => BusinessOutcome.Succeeded
  | RunOutcomeDecidedData.Failed _ => BusinessOutcome.Failed
  | RunOutcomeDecidedData.Cancelled _ => BusinessOutcome.Cancelled
  end.

(** The fork still has unsettled work. *)
Definition fork_unsettled (fork : ForkProjection) : bool :=
  (fork.(ForkProjection.join_status) == ForkJoinStatus.Pending)
  || existsb (λ (branch : ForkBranchProjection), is_none branch.(ForkBranchProjection.outcome))
       (btree_values fork.(ForkProjection.branches)).

Definition apply_run_outcome_decided (p : RunProjection) (data : RunOutcomeDecidedData) :
    fold_result RunProjection :=
  check fail_if
    (is_some p.(RunProjection.business_outcome)
     || negb (match p.(RunProjection.status) with
              | RunStatus.Running | RunStatus.Waiting | RunStatus.Cancelling => true | _ => false end))
    (InvalidHistory "A run business outcome may be decided exactly once.");
  check fail_if (existsb fork_unsettled (btree_values p.(RunProjection.forks)))
    (InvalidHistory "A run outcome cannot be decided while opened fork work remains unsettled.");
  let? p :=
    match data with
    | RunOutcomeDecidedData.Succeeded result =>
        check fail_if (p.(RunProjection.status) != RunStatus.Running)
          (InvalidHistory "A successful outcome requires a running workflow.");
        Ok (p <|RunProjection.result := Some result|>)
    | RunOutcomeDecidedData.Failed failure =>
        Ok (p <|RunProjection.lifecycle_failure := Some failure|>)
    | RunOutcomeDecidedData.Cancelled cancellation_request_id =>
        check fail_if (p.(RunProjection.cancellation_request_id) != Some cancellation_request_id)
          (InvalidHistory "Cancelled outcome does not match the durable cancellation request.");
        Ok p
    end in
  Ok (p
    <|RunProjection.business_outcome := Some (outcome data)|>
    <|RunProjection.lifecycle_status := LifecycleStatus.Finalizing|>
    <|RunProjection.status := RunStatus.Finalizing|>).

(** One failed action as [apply_run_finalized] reports it. *)
Definition failed_action_of (hook : LifecycleHookProjection) (action : LifecycleActionProjection) :
    option (string * string * option string * string) :=
  match action.(LifecycleActionProjection.failure) with
  | Some failure =>
      Some (hook.(LifecycleHookProjection.hook_id), action.(LifecycleActionProjection.action_id),
            (if hook.(LifecycleHookProjection.subject).(LifecycleSubject.kind) == LifecycleSubjectKind.Step then Some hook.(LifecycleHookProjection.subject).(LifecycleSubject.id) else None),
            failure.(LifecycleFailure.code))
  | None => None
  end.

(** [failed_actions]: every failed action of every hook. *)
Definition failed_actions (p : RunProjection) : list (string * string * option string * string) :=
  mjoin ((λ (hook : LifecycleHookProjection),
            omap (failed_action_of hook) (btree_values hook.(LifecycleHookProjection.actions)))
           <$> btree_values p.(RunProjection.lifecycle_hooks)).

Definition warning_matches (failed : string * string * option string * string)
    (warning : LifecycleWarning) : bool :=
  let '(hook_id, action_id, step_id, code) := failed in
  (warning.(LifecycleWarning.hook_id) == hook_id)
  && (warning.(LifecycleWarning.action_id) == action_id)
  && (warning.(LifecycleWarning.step_id) == step_id)
  && (warning.(LifecycleWarning.code) == code).

Definition warnings_match (p : RunProjection) (warnings : list LifecycleWarning) : bool :=
  (length (failed_actions p) == length warnings)
  && forallb (λ failed, existsb (warning_matches failed) warnings) (failed_actions p).

Definition final_lifecycle_status (s : FinalLifecycleStatus) : LifecycleStatus :=
  match s with
  | FinalLifecycleStatus.Completed => LifecycleStatus.Completed
  | FinalLifecycleStatus.CompletedWithWarnings => LifecycleStatus.CompletedWithWarnings
  end.

Definition final_run_status (o : BusinessOutcome) : RunStatus :=
  match o with
  | BusinessOutcome.Succeeded => RunStatus.Succeeded
  | BusinessOutcome.Failed => RunStatus.Failed
  | BusinessOutcome.Cancelled => RunStatus.Cancelled
  end.

Definition apply_run_finalized (p : RunProjection) (data : RunFinalizedData) :
    fold_result RunProjection :=
  check fail_if
    ((p.(RunProjection.status) != RunStatus.Finalizing)
     || (p.(RunProjection.business_outcome) != Some data.(RunFinalizedData.outcome))
     || negb (warnings_match p data.(RunFinalizedData.warnings))
     || existsb (λ (hook : LifecycleHookProjection), hook_is_active hook.(LifecycleHookProjection.status))
          (btree_values p.(RunProjection.lifecycle_hooks)))
    (InvalidHistory "run_finalized requires the decided outcome and no unfinished lifecycle hook.");
  Ok (p
    <|RunProjection.lifecycle_warnings := data.(RunFinalizedData.warnings)|>
    <|RunProjection.lifecycle_status := final_lifecycle_status data.(RunFinalizedData.lifecycle_status)|>
    <|RunProjection.status := final_run_status data.(RunFinalizedData.outcome)|>).
