(* ===== verification/IterationFold.v ===== *)
(** * Work inside a for-each iteration

    projection/iteration_fold.rs: the events scoped to one iteration update the
    execution projection of that iteration.  Every arm of the source's match is
    a function on the execution; [apply_iteration_scoped_event] checks that the
    iteration is active and dispatches. *)

From S2P Require Import Prelude Json EventTypes ProjectionTypes Guards FoldRun FoldControlFlow.
From S2P Require Import FoldOperations FoldLifecycle.

Abbreviation execution_result := (fold_result ForEachIterationExecutionProjection).

(** ** Attempts *)

Definition iteration_attempt_started (e : ForEachIterationExecutionProjection) (event : RunEvent)
    (data : StepAttemptStartedData) : execution_result :=
  let previous := latest_attempt_in e.(ForEachIterationExecutionProjection.attempts) data.(StepAttemptStartedData.node_id) in
  check fail_if
    (existsb (λ (a : AttemptProjection), a.(AttemptProjection.identity).(AttemptIdentity.invocation_id) == data.(StepAttemptStartedData.invocation_id)) e.(ForEachIterationExecutionProjection.attempts)
     || is_some_and previous (λ (a : AttemptProjection), attempt_is_started a.(AttemptProjection.status)))
    (InvalidHistory "Iteration attempt {:?} is not unique and inactive.");
  check fail_if (data.(StepAttemptStartedData.attempt) != expected_attempt previous)
    (InvalidHistory "Iteration node {:?} expected attempt {expected}.");
  let? e :=
    match previous with
    | Some previous =>
        let? retry := ok_or (e.(ForEachIterationExecutionProjection.pending_retries) !! data.(StepAttemptStartedData.node_id))
          (InvalidHistory "Iteration retry has no durable schedule.") in
        check fail_if
          (negb (attempt_is_failed previous.(AttemptProjection.status))
           || (retry.(RetryScheduleProjection.next_attempt) != data.(StepAttemptStartedData.attempt))
           || bool_decide (event.(RunEvent.occurred_at) < retry.(RetryScheduleProjection.scheduled_at))%Z)
          (InvalidHistory "Iteration retry does not match its failed attempt and schedule.");
        Ok (e <|ForEachIterationExecutionProjection.pending_retries ::= delete data.(StepAttemptStartedData.node_id)|>)
    | None => Ok e
    end in
  Ok (e <|ForEachIterationExecutionProjection.attempts ::= λ attempts, attempts ++ [started_attempt data]|>).

(** [iter_mut().find(..)]: the first attempt with the given identity. *)
Definition find_attempt (attempts : list AttemptProjection) (node_id : string) (attempt : N)
    (invocation_id : string) : option (nat * AttemptProjection) :=
  list_find (λ (a : AttemptProjection),
    a.(AttemptProjection.identity).(AttemptIdentity.node_id) = node_id ∧ a.(AttemptProjection.identity).(AttemptIdentity.attempt) = attempt
    ∧ a.(AttemptProjection.identity).(AttemptIdentity.invocation_id) = invocation_id) attempts.

(** An operation of the invocation is still running. *)
Definition iteration_operation_active (e : ForEachIterationExecutionProjection)
    (invocation_id : string) : bool :=
  existsb (λ (operation : OperationProjection),
    (operation.(OperationProjection.identity).(OperationIdentity.invocation_id) == invocation_id)
    && operation_is_started operation.(OperationProjection.status)) (btree_values e.(ForEachIterationExecutionProjection.operations)).

Definition iteration_attempt_succeeded (e : ForEachIterationExecutionProjection)
    (data : StepAttemptSucceededData) : execution_result :=
  check fail_if (iteration_operation_active e data.(StepAttemptSucceededData.invocation_id))
    (InvalidHistory "Iteration attempt cannot succeed with an active operation.");
  let? found := ok_or (find_attempt e.(ForEachIterationExecutionProjection.attempts) data.(StepAttemptSucceededData.node_id) data.(StepAttemptSucceededData.attempt) data.(StepAttemptSucceededData.invocation_id))
    (InvalidHistory "Iteration success has no matching attempt.") in
  let '(i, a) := found in
  check fail_if
    (negb (attempt_is_started a.(AttemptProjection.status)) || map_contains_key e.(ForEachIterationExecutionProjection.context).(WorkflowContext.steps) data.(StepAttemptSucceededData.node_id))
    (InvalidHistory "Iteration attempt already has a terminal outcome.");
  Ok (e
    <|ForEachIterationExecutionProjection.attempts ::= <[i := a <|AttemptProjection.status := AttemptStatus.Succeeded data.(StepAttemptSucceededData.output)|> ]> |>
    <|ForEachIterationExecutionProjection.context ::= λ c, c <|WorkflowContext.steps ::= λ steps, map_insert steps data.(StepAttemptSucceededData.node_id) data.(StepAttemptSucceededData.output)|> |>).

Definition iteration_attempt_failed (e : ForEachIterationExecutionProjection)
    (data : StepAttemptFailedData) : execution_result :=
  check fail_if (iteration_operation_active e data.(StepAttemptFailedData.invocation_id))
    (InvalidHistory "Iteration attempt cannot fail with an active operation.");
  let? found := ok_or (find_attempt e.(ForEachIterationExecutionProjection.attempts) data.(StepAttemptFailedData.node_id) data.(StepAttemptFailedData.attempt) data.(StepAttemptFailedData.invocation_id))
    (InvalidHistory "Iteration failure has no matching attempt.") in
  let '(i, a) := found in
  check fail_if (negb (attempt_is_started a.(AttemptProjection.status)))
    (InvalidHistory "Iteration attempt already has a terminal outcome.");
  Ok (e <|ForEachIterationExecutionProjection.attempts ::= <[i := a <|AttemptProjection.status := AttemptStatus.Failed data.(StepAttemptFailedData.failure)|> ]> |>).

(** The previous event is the failure, in the same iteration, the schedule answers. *)
Definition adjacent_failure (previous_event : option RunEvent) (scope : ForEachIterationScope)
    (data : StepRetryScheduledData) : bool :=
  is_some_and previous_event (λ (previous : RunEvent),
    (previous.(RunEvent.iteration) == Some scope)
    && (match previous.(RunEvent.payload) with
        | RunEventPayload.StepAttemptFailed failed =>
            (failed.(StepAttemptFailedData.node_id) == data.(StepRetryScheduledData.node_id)) && (failed.(StepAttemptFailedData.attempt) == data.(StepRetryScheduledData.failed_attempt))
        | _ => false
        end)).

Definition iteration_retry_scheduled (e : ForEachIterationExecutionProjection)
    (scope : ForEachIterationScope) (data : StepRetryScheduledData) (previous_event : option RunEvent) :
    execution_result :=
  let latest := latest_attempt_in e.(ForEachIterationExecutionProjection.attempts) data.(StepRetryScheduledData.node_id) in
  check fail_if
    (negb (adjacent_failure previous_event scope data)
     || negb (is_some_and latest (λ (a : AttemptProjection),
                (a.(AttemptProjection.identity).(AttemptIdentity.attempt) == data.(StepRetryScheduledData.failed_attempt)) && attempt_is_failed a.(AttemptProjection.status)))
     || (data.(StepRetryScheduledData.next_attempt) != u32_add data.(StepRetryScheduledData.failed_attempt) 1)
     || contains_key e.(ForEachIterationExecutionProjection.pending_retries) data.(StepRetryScheduledData.node_id))
    (InvalidHistory "Iteration retry schedule does not follow its failed attempt.");
  Ok (e <|ForEachIterationExecutionProjection.pending_retries ::=
        <[data.(StepRetryScheduledData.node_id) :=
            RetryScheduleProjection.mk data.(StepRetryScheduledData.node_id) data.(StepRetryScheduledData.failed_attempt) data.(StepRetryScheduledData.next_attempt)
              data.(StepRetryScheduledData.scheduled_at)]> |>).

(** ** Control flow *)

Definition iteration_choice_selected (e : ForEachIterationExecutionProjection)
    (data : ChoiceSelectedData) : execution_result :=
  check fail_if (is_some (e.(ForEachIterationExecutionProjection.choice_selections) !! data.(ChoiceSelectedData.choice_id)))
    (InvalidHistory "Iteration choice was selected more than once.");
  Ok (e <|ForEachIterationExecutionProjection.choice_selections ::= <[data.(ChoiceSelectedData.choice_id) := data.(ChoiceSelectedData.arm_id)]> |>).

Definition iteration_branch_selected (e : ForEachIterationExecutionProjection)
    (data : BranchSelectedData) : execution_result :=
  check fail_if (is_some (e.(ForEachIterationExecutionProjection.branch_selections) !! data.(BranchSelectedData.branch_id)))
    (InvalidHistory "Iteration conditional branch was selected more than once.");
  Ok (e <|ForEachIterationExecutionProjection.branch_selections ::= <[data.(BranchSelectedData.branch_id) := data.(BranchSelectedData.arm_id)]> |>).

Definition iteration_parallel_group_started (e : ForEachIterationExecutionProjection)
    (data : ParallelGroupStartedData) : execution_result :=
  check fail_if (contains_key e.(ForEachIterationExecutionProjection.parallel_groups) data.(ParallelGroupStartedData.parallel_id))
    (InvalidHistory "Iteration parallel group started more than once.");
  Ok (e <|ForEachIterationExecutionProjection.parallel_groups ::=
        <[data.(ParallelGroupStartedData.parallel_id) :=
            {| ParallelGroupProjection.parallel_id := data.(ParallelGroupStartedData.parallel_id);
               ParallelGroupProjection.fork_context := e.(ForEachIterationExecutionProjection.context);
               ParallelGroupProjection.status := ParallelGroupStatus.Started |}]> |>).

Definition iteration_parallel_group_completed (e : ForEachIterationExecutionProjection)
    (data : ParallelGroupCompletedData) : execution_result :=
  let? group := ok_or (e.(ForEachIterationExecutionProjection.parallel_groups) !! data.(ParallelGroupCompletedData.parallel_id))
    (InvalidHistory "Iteration parallel completion has no start.") in
  check fail_if (group.(ParallelGroupProjection.status) != ParallelGroupStatus.Started)
    (InvalidHistory "Iteration parallel group completed more than once.");
  Ok (e <|ForEachIterationExecutionProjection.parallel_groups ::=
        <[data.(ParallelGroupCompletedData.parallel_id) := group <|ParallelGroupProjection.status :=
            ParallelGroupStatus.Completed data.(ParallelGroupCompletedData.outcome) data.(ParallelGroupCompletedData.failed_node_ids) data.(ParallelGroupCompletedData.cancelled_node_ids)|> ]> |>).

(** ** Locks *)

Definition iteration_lock_wait_registered (e : ForEachIterationExecutionProjection)
    (data : LockWaitRegisteredData) : execution_result :=
  check fail_if (contains_key e.(ForEachIterationExecutionProjection.locks) data.(LockWaitRegisteredData.lock_id))
    (InvalidHistory "Iteration lock was registered more than once.");
  Ok (e <|ForEachIterationExecutionProjection.locks ::= <[data.(LockWaitRegisteredData.lock_id) := waiting_lock data]> |>).

Definition iteration_lock_acquired (e : ForEachIterationExecutionProjection) (data : LockAcquiredData) :
    execution_result :=
  let? lock := ok_or (e.(ForEachIterationExecutionProjection.locks) !! data.(LockAcquiredData.lock_id))
    (InvalidHistory "Iteration lock acquisition has no waiter.") in
  check fail_if
    ((lock.(LockProjection.status) != LockStatus.Waiting)
     || (lock.(LockProjection.key) != data.(LockAcquiredData.key))
     || (lock.(LockProjection.execution_identity) != data.(LockAcquiredData.execution_identity)))
    (InvalidHistory "Iteration lock acquisition does not match its waiter.");
  Ok (e <|ForEachIterationExecutionProjection.locks ::= <[data.(LockAcquiredData.lock_id) := lock
         <|LockProjection.status := LockStatus.Held|>
         <|LockProjection.lease_id := Some data.(LockAcquiredData.lease_id)|>
         <|LockProjection.fencing_token := Some data.(LockAcquiredData.fencing_token)|>
         <|LockProjection.acquired_at := Some data.(LockAcquiredData.acquired_at)|>
         <|LockProjection.expires_at := Some data.(LockAcquiredData.expires_at)|> ]> |>).

Definition iteration_lock_released (e : ForEachIterationExecutionProjection) (data : LockReleasedData) :
    execution_result :=
  let? lock := ok_or (e.(ForEachIterationExecutionProjection.locks) !! data.(LockReleasedData.lock_id))
    (InvalidHistory "Iteration lock release has no held lease.") in
  check fail_if
    ((lock.(LockProjection.status) != LockStatus.Held)
     || (lock.(LockProjection.key) != data.(LockReleasedData.key))
     || (lock.(LockProjection.lease_id) != Some data.(LockReleasedData.lease_id))
     || (lock.(LockProjection.fencing_token) != Some data.(LockReleasedData.fencing_token)))
    (InvalidHistory "Iteration lock release does not match its lease.");
  Ok (e
    <|ForEachIterationExecutionProjection.locks ::= <[data.(LockReleasedData.lock_id) := lock
         <|LockProjection.status := LockStatus.Released|>
         <|LockProjection.resolved_at := Some data.(LockReleasedData.released_at)|> ]> |>
    <|ForEachIterationExecutionProjection.context ::= λ c, c <|WorkflowContext.steps ::= λ steps, map_insert steps data.(LockReleasedData.lock_id) data.(LockReleasedData.result)|> |>).

Definition iteration_lock_acquire_timed_out (e : ForEachIterationExecutionProjection)
    (data : LockAcquireTimedOutData) : execution_result :=
  let? lock := ok_or (e.(ForEachIterationExecutionProjection.locks) !! data.(LockAcquireTimedOutData.lock_id))
    (InvalidHistory "Iteration lock timeout has no waiter.") in
  check fail_if
    ((lock.(LockProjection.status) != LockStatus.Waiting) || (lock.(LockProjection.key) != data.(LockAcquireTimedOutData.key)) || (lock.(LockProjection.deadline) != data.(LockAcquireTimedOutData.deadline)))
    (InvalidHistory "Iteration lock timeout does not match its waiter.");
  Ok (e <|ForEachIterationExecutionProjection.locks ::= <[data.(LockAcquireTimedOutData.lock_id) := lock
         <|LockProjection.status := LockStatus.AcquireTimedOut|>
         <|LockProjection.resolved_at := Some data.(LockAcquireTimedOutData.resolved_at)|> ]> |>).

Definition iteration_lock_acquisition_cancelled (e : ForEachIterationExecutionProjection)
    (data : LockAcquisitionCancelledData) : execution_result :=
  let? lock := ok_or (e.(ForEachIterationExecutionProjection.locks) !! data.(LockAcquisitionCancelledData.lock_id))
    (InvalidHistory "Iteration lock cancellation has no waiter.") in
  check fail_if ((lock.(LockProjection.status) != LockStatus.Waiting) || (lock.(LockProjection.key) != data.(LockAcquisitionCancelledData.key)))
    (InvalidHistory "Iteration lock cancellation does not match its waiter.");
  Ok (e <|ForEachIterationExecutionProjection.locks ::= <[data.(LockAcquisitionCancelledData.lock_id) := lock
         <|LockProjection.status := LockStatus.AcquisitionCancelled|>
         <|LockProjection.resolved_at := Some data.(LockAcquisitionCancelledData.cancelled_at)|> ]> |>).

Definition iteration_lock_lease_lost (e : ForEachIterationExecutionProjection) (data : LockLeaseLostData) :
    execution_result :=
  let? lock := ok_or (e.(ForEachIterationExecutionProjection.locks) !! data.(LockLeaseLostData.lock_id))
    (InvalidHistory "Iteration lease loss has no held lock.") in
  check fail_if
    ((lock.(LockProjection.status) != LockStatus.Held)
     || (lock.(LockProjection.key) != data.(LockLeaseLostData.key))
     || (lock.(LockProjection.lease_id) != Some data.(LockLeaseLostData.lease_id))
     || (lock.(LockProjection.fencing_token) != Some data.(LockLeaseLostData.fencing_token)))
    (InvalidHistory "Iteration lease loss does not match its held lock.");
  Ok (e <|ForEachIterationExecutionProjection.locks ::= <[data.(LockLeaseLostData.lock_id) := lock
         <|LockProjection.status := LockStatus.LeaseLost|>
         <|LockProjection.resolved_at := Some data.(LockLeaseLostData.detected_at)|> ]> |>).

(** ** Operations *)

Definition iteration_operation_started (e : ForEachIterationExecutionProjection)
    (data : OperationStartedData) : execution_result :=
  let active := existsb (λ (a : AttemptProjection),
    (a.(AttemptProjection.identity).(AttemptIdentity.node_id) == data.(OperationStartedData.node_id))
    && (a.(AttemptProjection.identity).(AttemptIdentity.attempt) == data.(OperationStartedData.attempt_number))
    && (a.(AttemptProjection.identity).(AttemptIdentity.invocation_id) == data.(OperationStartedData.invocation_id))
    && attempt_is_started a.(AttemptProjection.status)) e.(ForEachIterationExecutionProjection.attempts) in
  let key := OperationIdentity.mk data.(OperationStartedData.invocation_id) data.(OperationStartedData.call_id) in
  check fail_if (negb active || contains_key e.(ForEachIterationExecutionProjection.operations) key)
    (InvalidHistory "Iteration operation requires one matching active attempt.");
  Ok (e <|ForEachIterationExecutionProjection.operations ::=
        <[key :=
            {| OperationProjection.identity := key;
               OperationProjection.node_id := data.(OperationStartedData.node_id);
               OperationProjection.attempt_number := data.(OperationStartedData.attempt_number);
               OperationProjection.operation_key := data.(OperationStartedData.operation_key);
               OperationProjection.capability := data.(OperationStartedData.capability);
               OperationProjection.operation := data.(OperationStartedData.operation);
               OperationProjection.execution_mode := data.(OperationStartedData.execution_mode);
               OperationProjection.metadata := data.(OperationStartedData.metadata);
               OperationProjection.status := OperationStatus.Started |}]> |>).

Definition iteration_operation_succeeded (e : ForEachIterationExecutionProjection)
    (data : OperationSucceededData) : execution_result :=
  let key := OperationIdentity.mk data.(OperationSucceededData.invocation_id) data.(OperationSucceededData.call_id) in
  let? operation := ok_or (e.(ForEachIterationExecutionProjection.operations) !! key)
    (InvalidHistory "Iteration operation success has no start.") in
  check fail_if (negb (operation_is_started operation.(OperationProjection.status)))
    (InvalidHistory "Iteration operation already settled.");
  Ok (e <|ForEachIterationExecutionProjection.operations ::=
        <[key := operation <|OperationProjection.status :=
            OperationStatus.Succeeded data.(OperationSucceededData.duration_ms) data.(OperationSucceededData.result_bytes) data.(OperationSucceededData.result_digest)|> ]> |>).

Definition iteration_operation_failed (e : ForEachIterationExecutionProjection)
    (data : OperationFailedData) : execution_result :=
  let key := OperationIdentity.mk data.(OperationFailedData.invocation_id) data.(OperationFailedData.call_id) in
  let? operation := ok_or (e.(ForEachIterationExecutionProjection.operations) !! key)
    (InvalidHistory "Iteration operation failure has no start.") in
  check fail_if (negb (operation_is_started operation.(OperationProjection.status)))
    (InvalidHistory "Iteration operation already settled.");
  Ok (e <|ForEachIterationExecutionProjection.operations ::=
        <[key := operation <|OperationProjection.status := OperationStatus.Failed data.(OperationFailedData.duration_ms) data.(OperationFailedData.failure)|> ]> |>).

(** ** Lifecycle hooks *)

Definition iteration_hook_requested (e : ForEachIterationExecutionProjection)
    (data : LifecycleHookRequestedData) : execution_result :=
  check fail_if (contains_key e.(ForEachIterationExecutionProjection.lifecycle_hooks) data.(LifecycleHookRequestedData.hook_invocation_id))
    (InvalidHistory "Iteration lifecycle hook was requested more than once.");
  Ok (e <|ForEachIterationExecutionProjection.lifecycle_hooks ::= <[data.(LifecycleHookRequestedData.hook_invocation_id) := requested_hook data]> |>).

Definition iteration_action_attempt_started (e : ForEachIterationExecutionProjection)
    (data : LifecycleActionIdentityData) : execution_result :=
  let? hook := ok_or (e.(ForEachIterationExecutionProjection.lifecycle_hooks) !! data.(LifecycleActionIdentityData.hook_invocation_id))
    (InvalidHistory "Iteration lifecycle action started before its hook.") in
  check fail_if (contains_key hook.(LifecycleHookProjection.actions) data.(LifecycleActionIdentityData.action_id) || any_started_action hook)
    (InvalidHistory "Iteration lifecycle action identity is duplicated.");
  Ok (e <|ForEachIterationExecutionProjection.lifecycle_hooks ::= <[data.(LifecycleActionIdentityData.hook_invocation_id) := start_action hook data]> |>).

Definition iteration_action_succeeded (e : ForEachIterationExecutionProjection)
    (data : LifecycleActionIdentityData) : execution_result :=
  let? hook := ok_or (e.(ForEachIterationExecutionProjection.lifecycle_hooks) !! data.(LifecycleActionIdentityData.hook_invocation_id))
    (InvalidHistory "Unknown iteration lifecycle hook.") in
  let? action := ok_or (hook.(LifecycleHookProjection.actions) !! data.(LifecycleActionIdentityData.action_id))
    (InvalidHistory "Iteration lifecycle action has no start.") in
  check fail_if ((action.(LifecycleActionProjection.status) != LifecycleActionStatus.Started) || (action.(LifecycleActionProjection.attempt) != data.(LifecycleActionIdentityData.attempt)))
    (InvalidHistory "Iteration lifecycle success does not close its action.");
  Ok (e <|ForEachIterationExecutionProjection.lifecycle_hooks ::=
        <[data.(LifecycleActionIdentityData.hook_invocation_id) := succeed_action hook data.(LifecycleActionIdentityData.action_id) action]> |>).

Definition iteration_action_failed (e : ForEachIterationExecutionProjection)
    (data : LifecycleActionFailedData) : execution_result :=
  let? hook := ok_or (e.(ForEachIterationExecutionProjection.lifecycle_hooks) !! data.(LifecycleActionFailedData.hook_invocation_id))
    (InvalidHistory "Unknown iteration lifecycle hook.") in
  let? action := ok_or (hook.(LifecycleHookProjection.actions) !! data.(LifecycleActionFailedData.action_id))
    (InvalidHistory "Iteration lifecycle action has no start.") in
  check fail_if ((action.(LifecycleActionProjection.status) != LifecycleActionStatus.Started) || (action.(LifecycleActionProjection.attempt) != data.(LifecycleActionFailedData.attempt)))
    (InvalidHistory "Iteration lifecycle failure does not close its action.");
  Ok (e <|ForEachIterationExecutionProjection.lifecycle_hooks ::=
        <[data.(LifecycleActionFailedData.hook_invocation_id) := fail_action hook data.(LifecycleActionFailedData.action_id) action data.(LifecycleActionFailedData.failure)]> |>).

Definition iteration_hook_completed (e : ForEachIterationExecutionProjection)
    (data : LifecycleHookCompletedData) : execution_result :=
  let? hook := ok_or (e.(ForEachIterationExecutionProjection.lifecycle_hooks) !! data.(LifecycleHookCompletedData.hook_invocation_id))
    (InvalidHistory "Unknown iteration lifecycle hook.") in
  check fail_if (any_started_action hook || (hook.(LifecycleHookProjection.failed_actions) != data.(LifecycleHookCompletedData.failed_actions)))
    (InvalidHistory "Iteration lifecycle completion does not match its actions.");
  Ok (e <|ForEachIterationExecutionProjection.lifecycle_hooks ::=
        <[data.(LifecycleHookCompletedData.hook_invocation_id) := hook <|LifecycleHookProjection.status := hook_completion_status data.(LifecycleHookCompletedData.status)|> ]> |>).

Definition iteration_reusable_requested (e : ForEachIterationExecutionProjection)
    (data : ReusableLifecycleRequestedData) : execution_result :=
  let key := reusable_key data.(ReusableLifecycleRequestedData.invocation_id) data.(ReusableLifecycleRequestedData.hook) in
  check fail_if (contains_key e.(ForEachIterationExecutionProjection.reusable_lifecycle_hooks) key)
    (InvalidHistory "Iteration reusable lifecycle hook was requested more than once.");
  Ok (e <|ForEachIterationExecutionProjection.reusable_lifecycle_hooks ::= <[key := requested_reusable data]> |>).

Definition iteration_reusable_action_started (e : ForEachIterationExecutionProjection)
    (data : ReusableLifecycleActionStartedData) : execution_result :=
  let key := reusable_key data.(ReusableLifecycleActionStartedData.invocation_id) data.(ReusableLifecycleActionStartedData.hook) in
  let? hook := ok_or (e.(ForEachIterationExecutionProjection.reusable_lifecycle_hooks) !! key)
    (InvalidHistory "Unknown iteration reusable hook.") in
  check fail_if (is_some hook.(ReusableLifecycleProjection.active_action_id) || action_is_completed hook data.(ReusableLifecycleActionStartedData.action_id))
    (InvalidHistory "Iteration reusable lifecycle action is duplicated.");
  Ok (e <|ForEachIterationExecutionProjection.reusable_lifecycle_hooks ::= <[key := reusable_start hook data.(ReusableLifecycleActionStartedData.action_id)]> |>).

Definition iteration_reusable_action_succeeded (e : ForEachIterationExecutionProjection)
    (data : ReusableLifecycleActionSucceededData) : execution_result :=
  let key := reusable_key data.(ReusableLifecycleActionSucceededData.invocation_id) data.(ReusableLifecycleActionSucceededData.hook) in
  let? hook := ok_or (e.(ForEachIterationExecutionProjection.reusable_lifecycle_hooks) !! key)
    (InvalidHistory "Unknown iteration reusable hook.") in
  check fail_if (hook.(ReusableLifecycleProjection.active_action_id) != Some data.(ReusableLifecycleActionSucceededData.action_id))
    (InvalidHistory "Iteration reusable lifecycle success has no active action.");
  Ok (e <|ForEachIterationExecutionProjection.reusable_lifecycle_hooks ::= <[key := reusable_succeed hook data.(ReusableLifecycleActionSucceededData.action_id)]> |>).

Definition iteration_reusable_action_failed (e : ForEachIterationExecutionProjection)
    (data : ReusableLifecycleActionFailedData) : execution_result :=
  let key := reusable_key data.(ReusableLifecycleActionFailedData.invocation_id) data.(ReusableLifecycleActionFailedData.hook) in
  let? hook := ok_or (e.(ForEachIterationExecutionProjection.reusable_lifecycle_hooks) !! key)
    (InvalidHistory "Unknown iteration reusable hook.") in
  check fail_if (hook.(ReusableLifecycleProjection.active_action_id) != Some data.(ReusableLifecycleActionFailedData.action_id))
    (InvalidHistory "Iteration reusable lifecycle failure has no active action.");
  Ok (e <|ForEachIterationExecutionProjection.reusable_lifecycle_hooks ::=
        <[key := reusable_fail hook data.(ReusableLifecycleActionFailedData.action_id) data.(ReusableLifecycleActionFailedData.warning_code)]> |>).

Definition iteration_reusable_completed (e : ForEachIterationExecutionProjection)
    (data : ReusableLifecycleCompletedData) : execution_result :=
  let key := reusable_key data.(ReusableLifecycleCompletedData.invocation_id) data.(ReusableLifecycleCompletedData.hook) in
  let? hook := ok_or (e.(ForEachIterationExecutionProjection.reusable_lifecycle_hooks) !! key)
    (InvalidHistory "Unknown iteration reusable hook.") in
  check fail_if (is_some hook.(ReusableLifecycleProjection.active_action_id))
    (InvalidHistory "Iteration reusable lifecycle completed with an active action.");
  Ok (e <|ForEachIterationExecutionProjection.reusable_lifecycle_hooks ::= <[key := reusable_complete hook data.(ReusableLifecycleCompletedData.outcome)]> |>).

(** ** Dispatch *)

(** The [match &event.payload] of [apply_iteration_scoped_event]. *)
Definition apply_to_execution (e : ForEachIterationExecutionProjection) (scope : ForEachIterationScope)
    (event : RunEvent) (previous_event : option RunEvent) : execution_result :=
  match event.(RunEvent.payload) with
  | RunEventPayload.StepAttemptStarted data => iteration_attempt_started e event data
  | RunEventPayload.StepAttemptSucceeded data => iteration_attempt_succeeded e data
  | RunEventPayload.StepAttemptFailed data => iteration_attempt_failed e data
  | RunEventPayload.StepRetryScheduled data => iteration_retry_scheduled e scope data previous_event
  | RunEventPayload.ChoiceSelected data => iteration_choice_selected e data
  | RunEventPayload.BranchSelected data => iteration_branch_selected e data
  | RunEventPayload.ParallelGroupStarted data => iteration_parallel_group_started e data
  | RunEventPayload.ParallelGroupCompleted data => iteration_parallel_group_completed e data
  | RunEventPayload.LockWaitRegistered data => iteration_lock_wait_registered e data
  | RunEventPayload.LockAcquired data => iteration_lock_acquired e data
  | RunEventPayload.LockReleased data => iteration_lock_released e data
  | RunEventPayload.LockAcquireTimedOut data => iteration_lock_acquire_timed_out e data
  | RunEventPayload.LockAcquisitionCancelled data => iteration_lock_acquisition_cancelled e data
  | RunEventPayload.LockLeaseLost data => iteration_lock_lease_lost e data
  | RunEventPayload.InfrastructurePolicyDecisionRecorded _ =>
      Err (InvalidHistory "Infrastructure policy decisions cannot be iteration-scoped.")
  | RunEventPayload.OperationStarted data => iteration_operation_started e data
  | RunEventPayload.OperationSucceeded data => iteration_operation_succeeded e data
  | RunEventPayload.OperationFailed data => iteration_operation_failed e data
  | RunEventPayload.LifecycleHookRequested data => iteration_hook_requested e data
  | RunEventPayload.LifecycleActionAttemptStarted data => iteration_action_attempt_started e data
  | RunEventPayload.LifecycleActionSucceeded data => iteration_action_succeeded e data
  | RunEventPayload.LifecycleActionFailed data => iteration_action_failed e data
  | RunEventPayload.LifecycleHookCompleted data => iteration_hook_completed e data
  | RunEventPayload.ReusableLifecycleRequested data => iteration_reusable_requested e data
  | RunEventPayload.ReusableLifecycleActionStarted data => iteration_reusable_action_started e data
  | RunEventPayload.ReusableLifecycleActionSucceeded data => iteration_reusable_action_succeeded e data
  | RunEventPayload.ReusableLifecycleActionFailed data => iteration_reusable_action_failed e data
  | RunEventPayload.ReusableLifecycleCompleted data => iteration_reusable_completed e data
  | _ => Err (InvalidHistory "Payload is not valid iteration-scoped work.")
  end.

Definition apply_iteration_scoped_event (p : RunProjection) (event : RunEvent)
    (previous_event : option RunEvent) : fold_result RunProjection :=
  check require_running_or_cancelling p;
  let? scope := ok_or event.(RunEvent.iteration)
    (InvalidHistory "Loop-owned work is missing iteration scope.") in
  let? loop_state := ok_or (p.(RunProjection.for_each) !! scope.(ForEachIterationScope.for_each_id))
    (InvalidHistory "Loop-owned work references unopened for-each {:?}.") in
  check fail_if
    ((loop_state.(ForEachProjection.status) != ForEachStatus.Open)
     || negb (match loop_state.(ForEachProjection.iterations) !! scope.(ForEachIterationScope.index) with
              | Some ForEachIterationStatus.Started => true | _ => false end))
    (InvalidHistory "Loop-owned work requires active iteration {:?}:{}.");
  let? execution := ok_or (loop_state.(ForEachProjection.executions) !! scope.(ForEachIterationScope.index))
    (InvalidHistory "Active iteration has no execution projection.") in
  let? execution := apply_to_execution execution scope event previous_event in
  Ok (p <|RunProjection.for_each ::=
        <[scope.(ForEachIterationScope.for_each_id) := loop_state <|ForEachProjection.executions ::= <[scope.(ForEachIterationScope.index) := execution]> |> ]> |>).
