(* ===== verification/EventIdentities.v ===== *)
(** * Identities of the event contract

    event/identities.rs, with the safe-metadata check of
    capability/validation.rs and the [validate] methods of the failure payloads
    (event/failures.rs, event/approvals.rs, event/notifications.rs,
    capability/contracts.rs). *)

From S2P Require Import Prelude Strings Json EventTypes Guards.

Abbreviation validation := (result EventValidationError unit).
Abbreviation Invalid := EventValidationError.Invalid.

(** ** Predicates on identifiers *)

Definition valid_id (value : string) : bool :=
  negb (str_is_empty value) && (chars_count value <=? 256)%N.

Definition valid_public_structural_id (value : string) : bool :=
  first_byte is_ascii_lowercase value
  && bytes_all is_ascii_alphanumeric (tail value)
  && (chars_count value <=? 256)%N.

Definition valid_remote_public_id (value : string) : bool :=
  negb (str_is_empty value)
  && (str_len value <=? 128)%N
  && first_byte is_ascii_lowercase value
  && bytes_all (λ b, is_ascii_lowercase b || is_ascii_digit b || is_byte "-" b) value
  && negb (last_byte value == Some "-"%char)
  && negb (has_pair "-" "-" value).

(** A byte of the suffix of a prefixed identifier. *)
Definition is_suffix_byte (b : Ascii.ascii) : bool :=
  is_ascii_alphanumeric b || is_byte "_" b || is_byte "-" b.

Definition valid_prefixed_id (value prefix : string) (minimum : N) : bool :=
  (minimum <=? str_len value)%N
  && (str_len value <=? 256)%N
  && is_some_and (strip_prefix prefix value) (λ suffix,
       negb (str_is_empty suffix) && bytes_all is_suffix_byte suffix).

(** A decimal number without leading zeros. *)
Definition canonical_decimal (part : string) : bool :=
  negb (str_is_empty part)
  && bytes_all is_ascii_digit part
  && ((part == "0") || negb (starts_with "0" part)).

Definition is_notification_delivery_id (value approval_id : string) : bool :=
  match strip_prefix (approval_id +:+ ":notify:") value with
  | None => false
  | Some suffix =>
      match (match split_once ":channel:" suffix with
             | Some parts => Some parts
             | None => split_once ":chat:" suffix
             end) with
      | None => false
      | Some (tag, destination) => canonical_decimal tag && canonical_decimal destination
      end
  end.

Definition valid_sha256 (value : string) : bool :=
  is_some_and (strip_prefix "sha256:" value) (λ digest,
    (str_len digest =? 64)%N && bytes_all is_lower_hex digest).

Definition is_approval_request_id (value : string) : bool :=
  match strip_prefix "aprreq_" value with
  | None => false
  | Some suffix =>
      (10 <=? str_len value)%N
      && (str_len value <=? 256)%N
      && negb (str_is_empty suffix)
      && bytes_all is_suffix_byte suffix
  end.

Definition valid_rich_approval_identity (approval_id request_id digest : string) : bool :=
  valid_public_structural_id approval_id
  && is_approval_request_id request_id
  && valid_sha256 digest.

(** [RICH_APPROVAL_MAX_ROLES], rich_approval.rs. *)
Definition RICH_APPROVAL_MAX_ROLES : nat := 16.

(** [windows(2).all(|pair| pair[0] < pair[1])]. *)
Fixpoint strictly_sorted (l : list string) : bool :=
  match l with
  | [] => true
  | a :: l =>
      match l with
      | [] => true
      | b :: _ => String.ltb a b && strictly_sorted l
      end
  end.

Definition is_role_byte (b : Ascii.ascii) : bool := is_ascii_lowercase b || is_ascii_digit b.

Definition valid_role (role : string) : bool :=
  negb (str_is_empty role || (64 <? str_len role)%N)
  && match split (λ b, is_byte "-" b || is_byte "_" b || is_byte "." b) role with
     | [] => false
     | first :: segments =>
         negb (str_is_empty first)
         && first_byte is_ascii_lowercase first
         && bytes_all is_role_byte first
         && forallb (λ segment, negb (str_is_empty segment) && bytes_all is_role_byte segment) segments
     end.

Definition valid_rich_approval_roles (roles : list string) : bool :=
  (length roles <=? RICH_APPROVAL_MAX_ROLES)%nat
  && strictly_sorted roles
  && forallb valid_role roles.

(** Upper-case letters, digits and underscores. *)
Definition is_code_byte (b : Ascii.ascii) : bool :=
  is_byte "_" b || is_ascii_uppercase b || is_ascii_digit b.

Definition valid_lifecycle_failure (failure : LifecycleFailure) : bool :=
  negb (str_is_empty failure.(LifecycleFailure.message))
  && (str_len failure.(LifecycleFailure.message) <=? 1024)%N
  && (str_len failure.(LifecycleFailure.code) <=? 128)%N
  && starts_with "WOML_" failure.(LifecycleFailure.code)
  && bytes_all is_code_byte failure.(LifecycleFailure.code).

Definition valid_lifecycle_action_identity (hook_invocation_id action_id : string) (attempt : N) : bool :=
  valid_sha256 hook_invocation_id && valid_id action_id && (attempt == 1%N).

Definition valid_capability_name (value : string) : bool :=
  (str_len value <=? 128)%N
  && forallb (λ segment,
       first_byte is_ascii_lowercase segment && bytes_all is_role_byte (tail segment))
       (split (λ b, is_byte "." b || is_byte "_" b || is_byte "-" b) value).

Definition valid_signal_name (value : string) : bool :=
  negb (str_is_empty value)
  && (str_len value <=? 128)%N
  && forallb (λ segment,
       first_byte is_ascii_lowercase segment
       && bytes_all (λ b, is_role_byte b || is_byte "-" b) (tail segment))
       (split (is_byte ".") value).

Definition valid_lock_key (value : string) : bool :=
  negb (str_is_empty value)
  && (str_len value <=? 256)%N
  && is_trimmed value
  && negb (existsb is_control (chars value))
  && negb (existsb str_is_empty (split (is_byte "/") value)).

Definition valid_fencing_token (value : string) : bool :=
  negb (str_is_empty value)
  && (str_len value <=? 20)%N
  && bytes_all is_ascii_digit value
  && ((value == "0") || negb (starts_with "0" value))
  && is_some_and (parse_u64 value) (λ token, (0 <? token)%N).

Definition valid_trigger_handler (value : string) : bool :=
  existsb (String.eqb value)
    ["trigger.manual"; "trigger.webhook"; "trigger.slack"; "trigger.telegram"; "trigger.discord";
     "trigger.whatsapp"; "trigger.schedule"; "trigger.interval"; "trigger.event"].

Definition valid_provider_message (message : ProviderMessageIdentity) : bool :=
  match message with
  | ProviderMessageIdentity.Slack message =>
      valid_prefixed_id message.(SlackProviderMessageIdentity.workspace_id) "T" 9
      && first_byte (λ b, is_byte "C" b || is_byte "G" b || is_byte "D" b) message.(SlackProviderMessageIdentity.channel_id)
      && (9 <=? str_len message.(SlackProviderMessageIdentity.channel_id))%N
      && (str_len message.(SlackProviderMessageIdentity.channel_id) <=? 32)%N
      && bytes_all (λ b, is_ascii_uppercase b || is_ascii_digit b) (tail message.(SlackProviderMessageIdentity.channel_id))
      && is_some_and (split_once "." message.(SlackProviderMessageIdentity.message_id)) (λ '(seconds, micros),
           (10 <=? str_len seconds)%N
           && bytes_all is_ascii_digit seconds
           && (str_len micros =? 6)%N
           && bytes_all is_ascii_digit micros)
  | ProviderMessageIdentity.Communication message =>
      existsb (String.eqb message.(CommunicationProviderMessageIdentity.provider)) ["telegram"; "discord"; "whatsapp"]
      && valid_id message.(CommunicationProviderMessageIdentity.account_id)
      && valid_id message.(CommunicationProviderMessageIdentity.conversation_id)
      && valid_id message.(CommunicationProviderMessageIdentity.message_id)
      && is_none_or message.(CommunicationProviderMessageIdentity.thread_id) valid_id
  end.

Definition valid_branch_arm_id (branch_id arm_id : string) : bool :=
  match strip_prefix (branch_id +:+ ":") arm_id with
  | None => false
  | Some suffix =>
      (suffix == "otherwise")
      || match strip_prefix "when:" suffix with
         | None => false
         | Some index => canonical_decimal index && (chars_count arm_id <=? 256)%N
         end
  end.

(** Every identifier is valid and new: [seen.insert]. *)
Fixpoint all_valid_and_new (seen : gset string) (ids : list string) : bool :=
  match ids with
  | [] => true
  | node_id :: ids =>
      valid_public_structural_id node_id
      && negb (bool_decide (node_id ∈ seen))
      && all_valid_and_new ({[node_id]} ∪ seen) ids
  end.

Definition valid_ordered_id_lists (first second : list string) : bool :=
  all_valid_and_new ∅ (first ++ second).

Definition is_definition_hash (value : string) : bool :=
  match strip_prefix "sha256:" value with
  | None => false
  | Some hex => (str_len hex =? 64)%N && bytes_all is_lower_hex hex
  end.

(** ** Checks *)

Definition validate_identity (node_id : string) (attempt : N) (invocation_id : string) : validation :=
  fail_if (negb (valid_id node_id) || negb (valid_id invocation_id) || (attempt == 0%N))
    (Invalid "Attempt identity requires valid nodeId, invocationId, and attempt >= 1.").

Definition validate_for_each_iteration_event (event : RunEvent) (for_each_id : string) : validation :=
  let? scope := ok_or event.(RunEvent.iteration)
    (Invalid "Iteration Event v15 records require an explicit iteration scope.") in
  fail_if
    (negb (in_range 15 16 event.(RunEvent.event_schema_version))
     || negb (valid_public_structural_id for_each_id)
     || (scope.(ForEachIterationScope.for_each_id) != for_each_id)
     || (10000 <=? scope.(ForEachIterationScope.index))%N)
    (Invalid "Iteration Event v15 identity does not match its payload.").

Definition validate_notification_identity (approval_id request_id delivery_id : string) : validation :=
  fail_if
    (negb (valid_public_structural_id approval_id)
     || negb (is_approval_request_id request_id)
     || negb (is_notification_delivery_id delivery_id approval_id))
    (Invalid "Notification event contains invalid approval, request, or delivery identity.").

(** Metadata keys that could carry sensitive data. *)
Definition FORBIDDEN : list string :=
  ["authorization"; "cookie"; "set-cookie"; "token"; "secret"; "password"; "body"; "query"; "url";
   "headers"; "input"; "output"; "data"; "value"].

Definition valid_metadata_entry (entry : string * Value) : bool :=
  let '(key, value) := entry in
  (str_len key <=? 64)%N
  && first_byte is_ascii_alphabetic key
  && bytes_all (λ b, is_ascii_alphanumeric b || is_byte "_" b || is_byte "." b || is_byte "-" b) key
  && negb (existsb (String.eqb (to_ascii_lowercase key)) FORBIDDEN)
  && match value with
     | Value.Null | Value.Bool _ | Value.Number _ | Value.String _ => true
     | _ => false
     end.

Definition validate_safe_metadata (metadata : Map) : result string unit :=
  check fail_if (32 <? length metadata)%nat
    "Safe metadata may contain at most 32 fields.";
  fail_if (negb (forallb valid_metadata_entry metadata))
    "Capability metadata must be bounded, scalar, and free of sensitive field names.".

Definition validate_operation_base (event_schema_version : N) (node_id : string) (attempt_number : N)
    (invocation_id call_id operation_key capability operation : string) (metadata : Map) : validation :=
  check fail_if (negb (in_range 8 11 event_schema_version))
    (Invalid "Operation events are available only in run-event schema v8 or later.");
  check validate_identity node_id attempt_number invocation_id;
  check fail_if
    ((10 <? attempt_number)%N
     || negb (valid_id call_id)
     || negb (valid_sha256 operation_key)
     || negb (valid_capability_name capability)
     || negb (valid_capability_name operation))
    (Invalid "Operation event contains an invalid correlation or logical operation identity.");
  map_err Invalid (validate_safe_metadata metadata).

(** ** Failure payloads *)

(** [CapabilityFailure::validate]. *)
Definition validate_capability_failure (failure : CapabilityFailure) : result string unit :=
  let code_valid :=
    negb (str_is_empty failure.(CapabilityFailure.code))
    && (str_len failure.(CapabilityFailure.code) <=? 128)%N
    && first_byte is_ascii_uppercase failure.(CapabilityFailure.code)
    && bytes_all is_code_byte failure.(CapabilityFailure.code) in
  check fail_if
    (negb code_valid || str_is_empty failure.(CapabilityFailure.message) || (2048 <? str_len failure.(CapabilityFailure.message))%N)
    "Capability failure has an invalid code or message.";
  match failure.(CapabilityFailure.details) with
  | Some details => validate_safe_metadata details
  | None => Ok tt
  end.

(** [AttemptFailureKind::code]. *)
Definition attempt_failure_code (kind : AttemptFailureKind) : string :=
  match kind with
  | AttemptFailureKind.ScriptThrew => "WOML_SCRIPT_THROWN"
  | AttemptFailureKind.ScriptTimedOut => "WOML_SCRIPT_TIMEOUT"
  | AttemptFailureKind.InvalidScriptResult => "WOML_SCRIPT_NON_JSON_RESULT"
  | AttemptFailureKind.ContextTooLarge => "WOML_SCRIPT_CONTEXT_TOO_LARGE"
  | AttemptFailureKind.ResultTooLarge => "WOML_SCRIPT_RESULT_TOO_LARGE"
  | AttemptFailureKind.WorkerCrashed => "WOML_SCRIPT_WORKER_CRASHED"
  | AttemptFailureKind.HostCrashed => "WOML_SCRIPT_HOST_CRASHED"
  | AttemptFailureKind.InvocationCancelled => "WOML_SCRIPT_CANCELLED"
  | AttemptFailureKind.Interrupted => "WOML_STEP_INTERRUPTED"
  | AttemptFailureKind.ServiceFailed => "WOML_SERVICE_FAILED"
  end.

(** [AttemptFailureKind::accepts_size_details]. *)
Definition accepts_size_details (kind : AttemptFailureKind) : bool :=
  match kind with
  | AttemptFailureKind.ContextTooLarge | AttemptFailureKind.ResultTooLarge => true
  | _ => false
  end.

(** The service fields of a [service_failed] failure are complete and match its cause. *)
Definition service_fields_valid (failure : AttemptFailure) : bool :=
  match failure.(AttemptFailure.capability), failure.(AttemptFailure.operation), failure.(AttemptFailure.call_id), failure.(AttemptFailure.retryable),
        failure.(AttemptFailure.ambiguous), failure.(AttemptFailure.cause) with
  | Some capability, Some operation, Some call_id, Some retryable, Some ambiguous,
    Some cause =>
      valid_capability_name capability
      && valid_capability_name operation
      && valid_id call_id
      && (retryable == cause.(CapabilityFailure.retryable))
      && (ambiguous == cause.(CapabilityFailure.ambiguous))
      && (failure.(AttemptFailure.code) == cause.(CapabilityFailure.code))
      && is_ok (validate_capability_failure cause)
  | _, _, _, _, _, _ => false
  end.

Definition any_service_field (failure : AttemptFailure) : bool :=
  is_some failure.(AttemptFailure.capability) || is_some failure.(AttemptFailure.operation) || is_some failure.(AttemptFailure.call_id)
  || is_some failure.(AttemptFailure.retryable) || is_some failure.(AttemptFailure.ambiguous) || is_some failure.(AttemptFailure.cause).

(** [AttemptFailure::validate]. *)
Definition validate_attempt_failure (failure : AttemptFailure) : validation :=
  let service_failed := failure.(AttemptFailure.kind) == AttemptFailureKind.ServiceFailed in
  check
    (if service_failed
     then fail_if (negb (service_fields_valid failure) || is_some failure.(AttemptFailure.details))
       (Invalid "service_failed requires capability, operation, callId, retryable, ambiguous, and a matching safe cause.")
     else fail_if (failure.(AttemptFailure.code) != attempt_failure_code failure.(AttemptFailure.kind))
       (Invalid "Failure kind {:?} requires code {:?}, received {:?}."));
  check fail_if (str_is_empty failure.(AttemptFailure.message)) (Invalid "Failure message must not be empty.");
  check fail_if (negb service_failed && any_service_field failure)
    (Invalid "Only service_failed may contain service failure fields.");
  match failure.(AttemptFailure.details), accepts_size_details failure.(AttemptFailure.kind) with
  | Some _, false => Err (Invalid "Only size-limit failures may contain details.")
  | Some details, true =>
      fail_if (is_none details.(FailureSizeDetails.actual_bytes) && is_none details.(FailureSizeDetails.limit_bytes))
        (Invalid "Failure size details must contain actualBytes or limitBytes.")
  | None, _ => Ok tt
  end.

(** [BranchFailure::code]. *)
Definition branch_failure_code (failure : BranchFailure) : string :=
  match failure with
  | BranchFailure.BranchTestNotBoolean _ _ _ => "WOML_BRANCH_TEST_NOT_BOOLEAN"
  | BranchFailure.ReferenceNotAvailable _ _ => "WOML_REFERENCE_NOT_AVAILABLE"
  | BranchFailure.BranchSelectionInvalid _ _ => "WOML_BRANCH_SELECTION_INVALID"
  end.

(** [BranchFailure::validate]. *)
Definition validate_branch_failure (failure : BranchFailure) : validation :=
  let '(code, message) :=
    match failure with
    | BranchFailure.BranchTestNotBoolean code message _ => (code, message)
    | BranchFailure.ReferenceNotAvailable code message => (code, message)
    | BranchFailure.BranchSelectionInvalid code message => (code, message)
    end in
  check fail_if (code != branch_failure_code failure)
    (Invalid "Branch failure requires code {:?}, received {:?}.");
  fail_if (str_is_empty message) (Invalid "Branch failure message must not be empty.").

(** [ParallelFailure::validate]. *)
Definition validate_parallel_failure (failure : ParallelFailure) : validation :=
  check fail_if
    ((failure.(ParallelFailure.kind) != "parallel_child_failed") || (failure.(ParallelFailure.code) != "WOML_PARALLEL_CHILD_FAILED"))
    (Invalid "Parallel failure requires kind parallel_child_failed and code WOML_PARALLEL_CHILD_FAILED.");
  fail_if (str_is_empty failure.(ParallelFailure.message)) (Invalid "Parallel failure message must not be empty.").

(** [ApprovalFailure::validate]. *)
Definition validate_approval_failure (failure : ApprovalFailure) : validation :=
  check fail_if
    ((failure.(ApprovalFailure.kind) != "approval_timeout") || (failure.(ApprovalFailure.code) != "WOML_APPROVAL_TIMEOUT"))
    (Invalid "Approval failure requires kind approval_timeout and code WOML_APPROVAL_TIMEOUT.");
  fail_if (str_is_empty failure.(ApprovalFailure.message)) (Invalid "Approval failure message must not be empty.").

(** [ApprovalResolution::validate]. *)
Definition validate_approval_resolution (resolution : ApprovalResolution) : validation :=
  fail_if
    (resolution == ApprovalResolution.Decision ApprovalDecision.Approved ApprovalDecisionSource.Timeout)
    (Invalid "A timeout approval resolution may reject only.").

(** [KINDS] of [NotificationSafeFailure::validate]. *)
Definition notification_failure_kinds : list string :=
  ["secret_not_found"; "provider_auth_failed"; "destination_invalid"; "rate_limited";
   "provider_unavailable"; "delivery_ambiguous"; "host_crashed"; "size_limit_exceeded";
   "request_invalid"; "update_failed"].

(** [NotificationSafeFailure::validate]. *)
Definition validate_notification_failure (failure : NotificationSafeFailure) : validation :=
  fail_if
    (negb (existsb (String.eqb failure.(NotificationSafeFailure.kind)) notification_failure_kinds)
     || negb (starts_with "WOML_" failure.(NotificationSafeFailure.code))
     || negb (bytes_all is_code_byte failure.(NotificationSafeFailure.code))
     || str_is_empty failure.(NotificationSafeFailure.message)
     || (1024 <? str_len failure.(NotificationSafeFailure.message))%N
     || is_some_and failure.(NotificationSafeFailure.retry_after_ms) (λ value, (86400000 <? value)%N))
    (Invalid "Notification failure contains an invalid safe failure contract.").
