(* ===== verification/EventValidation.v ===== *)
(** * Validation of one event

    [RunEvent::validate], event/validation.rs.  A schema version inherits the
    contract of the version before it for the payloads it does not own, so the
    method calls itself on a copy of the event with a lower version.
    [validate_head] is the part before the match on the payload: it returns or
    says which event to validate instead.  [validate_payload] is the match, one
    definition per arm. *)

From S2P Require Import Prelude Strings Json EventTypes Guards FoldApprovals EventIdentities.

(** ** Groups of payloads *)

Definition loop_event (payload : RunEventPayload) : bool :=
  match payload with
  | RunEventPayload.ForEachOpened _ | RunEventPayload.ForEachIterationStarted _ | RunEventPayload.ForEachIterationSucceeded _
  | RunEventPayload.ForEachIterationFailed _ | RunEventPayload.ForEachIterationSkipped _ | RunEventPayload.ForEachSucceeded _
  | RunEventPayload.ForEachFailed _ | RunEventPayload.ForEachCancelled _ => true
  | _ => false
  end.

Definition wait_event (payload : RunEventPayload) : bool :=
  match payload with
  | RunEventPayload.WaitRegistered _ | RunEventPayload.ExternalSignalReceived _ | RunEventPayload.WaitSatisfied _ | RunEventPayload.WaitTimedOut _
  | RunEventPayload.WaitCancelled _ => true
  | _ => false
  end.

Definition lock_event (payload : RunEventPayload) : bool :=
  match payload with
  | RunEventPayload.LockWaitRegistered _ | RunEventPayload.LockAcquired _ | RunEventPayload.LockReleased _ | RunEventPayload.LockAcquireTimedOut _
  | RunEventPayload.LockAcquisitionCancelled _ | RunEventPayload.LockLeaseLost _ => true
  | _ => false
  end.

Definition correction_event (payload : RunEventPayload) : bool :=
  match payload with
  | RunEventPayload.SagaStarted _ | RunEventPayload.CompensationRegistered _ | RunEventPayload.SagaForwardSucceeded _
  | RunEventPayload.SagaCorrectionStarted _ | RunEventPayload.CorrectionAttemptStarted _ | RunEventPayload.CorrectionAttemptSucceeded _
  | RunEventPayload.CorrectionAttemptFailed _ | RunEventPayload.CorrectionRetryScheduled _ | RunEventPayload.CorrectionInterrupted _
  | RunEventPayload.SagaCorrectionCompleted _ | RunEventPayload.ManualRecoveryRequired _ => true
  | _ => false
  end.

Definition rich_approval_event (payload : RunEventPayload) : bool :=
  match payload with
  | RunEventPayload.ApprovalReviewRequested _ | RunEventPayload.ApprovalReviewerDecisionRecorded _
  | RunEventPayload.ApprovalQuorumProgressed _ | RunEventPayload.ApprovalInvalidated _ => true
  | RunEventPayload.ApprovalResolved data => is_rich data
  | _ => false
  end.

Definition remote_dispatch_event (payload : RunEventPayload) : bool :=
  match payload with RunEventPayload.RemoteDispatchTransitioned _ => true | _ => false end.

(** Work an iteration may own in Event v15. *)
Definition scoped_work (payload : RunEventPayload) : bool :=
  match payload with
  | RunEventPayload.StepAttemptStarted _ | RunEventPayload.StepAttemptSucceeded _ | RunEventPayload.StepAttemptFailed _
  | RunEventPayload.StepRetryScheduled _ | RunEventPayload.BranchSelected _ | RunEventPayload.ChoiceSelected _ | RunEventPayload.ParallelGroupStarted _
  | RunEventPayload.ParallelGroupCompleted _ | RunEventPayload.OperationStarted _ | RunEventPayload.OperationSucceeded _
  | RunEventPayload.OperationFailed _ | RunEventPayload.LifecycleHookRequested _ | RunEventPayload.LifecycleActionAttemptStarted _
  | RunEventPayload.LifecycleActionSucceeded _ | RunEventPayload.LifecycleActionFailed _ | RunEventPayload.LifecycleHookCompleted _
  | RunEventPayload.ReusableLifecycleRequested _ | RunEventPayload.ReusableLifecycleActionStarted _
  | RunEventPayload.ReusableLifecycleActionSucceeded _ | RunEventPayload.ReusableLifecycleActionFailed _
  | RunEventPayload.ReusableLifecycleCompleted _ => true
  | _ => false
  end.

Definition reusable_event (payload : RunEventPayload) : bool :=
  match payload with
  | RunEventPayload.ReusableLifecycleRequested _ | RunEventPayload.ReusableLifecycleActionStarted _
  | RunEventPayload.ReusableLifecycleActionSucceeded _ | RunEventPayload.ReusableLifecycleActionFailed _
  | RunEventPayload.ReusableLifecycleCompleted _ => true
  | _ => false
  end.

Definition fork_event (payload : RunEventPayload) : bool :=
  match payload with
  | RunEventPayload.ChoiceSelected _ | RunEventPayload.ForkOpened _ | RunEventPayload.ForkBranchSettled _ | RunEventPayload.ForkJoinSettled _ => true
  | _ => false
  end.

Definition is_compensation_registered (payload : RunEventPayload) : bool :=
  match payload with RunEventPayload.CompensationRegistered _ => true | _ => false end.

(** [iteration.as_ref().is_some_and(|scope| !valid_public_structural_id(..) || index >= 10_000)]. *)
Definition invalid_scope (event : RunEvent) : bool :=
  is_some_and event.(RunEvent.iteration) (λ (scope : ForEachIterationScope),
    negb (valid_public_structural_id scope.(ForEachIterationScope.for_each_id)) || (10000 <=? scope.(ForEachIterationScope.index))%N).

(** ** Inheritance between versions *)

Inductive validation_step :=
| Return (r : validation)
| Inherited (event : RunEvent).

(** [inherited.event_schema_version = version; return inherited.validate()]. *)
Definition inherit (event : RunEvent) (version : N) : validation_step :=
  Inherited (event <|RunEvent.event_schema_version := version|>).

(** ** Payload contracts *)

Section with_externals.
Context `{Externals}.

Section payloads.
Context (event : RunEvent).

Definition validate_remote_dispatch_transitioned (data : RemoteDispatchTransitionedData) : validation :=
  check validate_identity data.(RemoteDispatchTransitionedData.node_id) data.(RemoteDispatchTransitionedData.attempt) data.(RemoteDispatchTransitionedData.invocation_id);
  let meaningful := data.(RemoteDispatchTransitionedData.state) != RemoteDispatchStateV1.Offered in
  let bound := data.(RemoteDispatchTransitionedData.state) != RemoteDispatchStateV1.Requested in
  let terminal :=
    match data.(RemoteDispatchTransitionedData.state) with
    | RemoteDispatchStateV1.Succeeded | RemoteDispatchStateV1.Failed
    | RemoteDispatchStateV1.Cancelled => true
    | _ => false
    end in
  fail_if
    ((event.(RunEvent.event_schema_version) != 20%N)
     || negb (starts_with "dispatch_" data.(RemoteDispatchTransitionedData.dispatch_id))
     || negb meaningful
     || negb (str_len data.(RemoteDispatchTransitionedData.dispatch_id) =? 73)%N
     || negb (bytes_all is_lower_hex (String.substring 9 64 data.(RemoteDispatchTransitionedData.dispatch_id)))
     || negb (valid_remote_public_id data.(RemoteDispatchTransitionedData.target))
     || (10 <? data.(RemoteDispatchTransitionedData.attempt))%N
     || (bound != is_some data.(RemoteDispatchTransitionedData.worker_id))
     || is_some_and data.(RemoteDispatchTransitionedData.worker_id) (λ value, negb (valid_remote_public_id value))
     || (terminal != is_some data.(RemoteDispatchTransitionedData.terminal_digest))
     || is_some_and data.(RemoteDispatchTransitionedData.terminal_digest) (λ value, negb (valid_sha256 value)))
    (Invalid "remote_dispatch_transitioned does not match the Event v20 contract.").

Definition validate_run_admitted (data : RunAdmittedData) : validation :=
  fail_if
    ((event.(RunEvent.event_schema_version) != 11%N)
     || negb (is_definition_hash data.(RunAdmittedData.definition_hash))
     || negb (is_definition_hash data.(RunAdmittedData.policy_hash))
     || negb (valid_id data.(RunAdmittedData.trigger).(RunAdmissionTrigger.id))
     || negb (valid_trigger_handler data.(RunAdmittedData.trigger).(RunAdmissionTrigger.handler))
     || str_is_empty data.(RunAdmittedData.queue).(RunAdmissionQueue.name)
     || (128 <? str_len data.(RunAdmittedData.queue).(RunAdmissionQueue.name))%N
     || (data.(RunAdmittedData.admitted_at) != event.(RunEvent.occurred_at)))
    (Invalid "run_admitted does not match the Event v11 admission contract.").

Definition validate_run_execution_started (data : RunExecutionStartedData) : validation :=
  fail_if
    ((event.(RunEvent.event_schema_version) != 11%N)
     || (data.(RunExecutionStartedData.started_at) != event.(RunEvent.occurred_at))
     || is_some_and data.(RunExecutionStartedData.timeout_at) (λ deadline, bool_decide (deadline ≤ data.(RunExecutionStartedData.started_at))%Z))
    (Invalid "run_execution_started does not match the Event v11 start contract.").

Definition validate_run_timeout_reached (data : RunTimeoutReachedData) : validation :=
  fail_if
    ((event.(RunEvent.event_schema_version) != 11%N)
     || (data.(RunTimeoutReachedData.deadline_at) != event.(RunEvent.occurred_at))
     || (data.(RunTimeoutReachedData.code) != "WOML_WORKFLOW_TIMED_OUT"))
    (Invalid "run_timeout_reached does not match the Event v11 timeout contract.").

(** No trigger identity at all. *)
Definition no_trigger_identity (data : RunStartedData) : bool :=
  is_none data.(RunStartedData.trigger_id) && is_none data.(RunStartedData.trigger_handler) && is_none data.(RunStartedData.trigger_occurrence_id).

(** A complete and valid trigger identity. *)
Definition valid_trigger_identity (data : RunStartedData) : bool :=
  match data.(RunStartedData.trigger_id), data.(RunStartedData.trigger_handler), data.(RunStartedData.trigger_occurrence_id) with
  | Some trigger_id, Some handler, Some occurrence_id =>
      valid_id trigger_id && valid_trigger_handler handler && valid_id occurrence_id
  | _, _, _ => false
  end.

Definition valid_workflow_call (data : RunStartedData) : bool :=
  no_trigger_identity data
  && match data.(RunStartedData.ingress) with
     | Some (RunIngress.WorkflowCall call_key) => is_definition_hash call_key
     | None => false
     end.

Definition validate_run_started (data : RunStartedData) : validation :=
  let version := event.(RunEvent.event_schema_version) in
  check fail_if (version == 11%N) (Invalid "Event v11 starts with run_admitted, not run_started.");
  check fail_if (negb (valid_id data.(RunStartedData.workflow_id)) || negb (is_definition_hash data.(RunStartedData.definition_hash)))
    (Invalid "run_started requires a valid workflowId and definitionHash.");
  if version == 9%N then
    fail_if (negb (valid_workflow_call data))
      (Invalid "run_started v9 requires one workflow_call ingress identity and no trigger identity.")
  else if version == 10%N then
    let valid_source_trigger := valid_trigger_identity data && is_none data.(RunStartedData.ingress) in
    fail_if (negb (valid_workflow_call data) && negb valid_source_trigger)
      (Invalid "run_started v10 requires either a source-trigger identity or workflow_call ingress.")
  else if (7 <=? version)%N then
    check fail_if (negb (valid_trigger_identity data))
      (Invalid "run_started v7 requires triggerId, triggerHandler, and triggerOccurrenceId.");
    fail_if (is_some data.(RunStartedData.ingress))
      (Invalid "run_started ingress identity is available only in event schema v9.")
  else
    fail_if (negb (no_trigger_identity data) || is_some data.(RunStartedData.ingress))
      (Invalid "run_started trigger occurrence identity is available only in event schema v7.").

Definition validate_step_attempt_started (data : StepAttemptStartedData) : validation :=
  check validate_identity data.(StepAttemptStartedData.node_id) data.(StepAttemptStartedData.attempt) data.(StepAttemptStartedData.invocation_id);
  let valid_v6_contract :=
    if (6 <=? event.(RunEvent.event_schema_version))%N
    then (data.(StepAttemptStartedData.attempt) <=? 10)%N && is_some_and data.(StepAttemptStartedData.idempotency_key) valid_sha256
    else is_none data.(StepAttemptStartedData.idempotency_key) in
  fail_if
    (str_is_empty data.(StepAttemptStartedData.handler) || (256 <? chars_count data.(StepAttemptStartedData.handler))%N || negb valid_v6_contract)
    (Invalid "step_attempt_started requires a valid handler.").

Definition validate_step_attempt_succeeded (data : StepAttemptSucceededData) : validation :=
  check validate_identity data.(StepAttemptSucceededData.node_id) data.(StepAttemptSucceededData.attempt) data.(StepAttemptSucceededData.invocation_id);
  fail_if ((6 <=? event.(RunEvent.event_schema_version))%N && (10 <? data.(StepAttemptSucceededData.attempt))%N)
    (Invalid "Model v6 attempts must not exceed 10.").

Definition validate_step_attempt_failed (data : StepAttemptFailedData) : validation :=
  check validate_identity data.(StepAttemptFailedData.node_id) data.(StepAttemptFailedData.attempt) data.(StepAttemptFailedData.invocation_id);
  check validate_attempt_failure data.(StepAttemptFailedData.failure);
  check fail_if ((6 <=? event.(RunEvent.event_schema_version))%N && (10 <? data.(StepAttemptFailedData.attempt))%N)
    (Invalid "Model v6 attempts must not exceed 10.");
  fail_if
    ((data.(StepAttemptFailedData.failure).(AttemptFailure.kind) == AttemptFailureKind.InvocationCancelled)
     && negb (in_range 3 11 event.(RunEvent.event_schema_version)))
    (Invalid "invocation_cancelled is available only in run-event schema v3 or later.").

Definition validate_step_retry_scheduled (data : StepRetryScheduledData) : validation :=
  fail_if
    ((event.(RunEvent.event_schema_version) <? 6)%N
     || negb (valid_id data.(StepRetryScheduledData.node_id))
     || negb (in_range 1 9 data.(StepRetryScheduledData.failed_attempt))
     || (data.(StepRetryScheduledData.next_attempt) != u32_add data.(StepRetryScheduledData.failed_attempt) 1)
     || (10 <? data.(StepRetryScheduledData.next_attempt))%N
     || bool_decide (data.(StepRetryScheduledData.scheduled_at) < event.(RunEvent.occurred_at))%Z)
    (Invalid "step_retry_scheduled has an invalid v6 retry identity or schedule.").

Definition validate_branch_selected (data : BranchSelectedData) : validation :=
  check fail_if (negb (in_range 2 11 event.(RunEvent.event_schema_version)))
    (Invalid "branch_selected is available only in run-event schema v2 or later.");
  fail_if
    (negb (valid_public_structural_id data.(BranchSelectedData.branch_id))
     || negb (valid_branch_arm_id data.(BranchSelectedData.branch_id) data.(BranchSelectedData.arm_id)))
    (Invalid "branch_selected requires a valid branchId and matching canonical armId.").

Definition validate_choice_selected (data : ChoiceSelectedData) : validation :=
  fail_if
    ((event.(RunEvent.event_schema_version) != 12%N)
     || negb (valid_id data.(ChoiceSelectedData.choice_id))
     || negb (starts_with (data.(ChoiceSelectedData.choice_id) +:+ ":") data.(ChoiceSelectedData.arm_id))
     || negb (valid_id data.(ChoiceSelectedData.arm_id)))
    (Invalid "choice_selected requires Event v12 and one canonical choice arm identity.").

Definition validate_fork_opened (data : ForkOpenedData) : validation :=
  fail_if ((event.(RunEvent.event_schema_version) != 12%N) || negb (valid_public_structural_id data.(ForkOpenedData.fork_id)))
    (Invalid "fork_opened requires Event v12 and a valid forkId.").

Definition validate_fork_branch_settled (data : ForkBranchSettledData) : validation :=
  fail_if
    ((event.(RunEvent.event_schema_version) != 12%N)
     || negb (valid_public_structural_id data.(ForkBranchSettledData.fork_id))
     || negb (valid_public_structural_id data.(ForkBranchSettledData.branch_id))
     || negb (valid_id data.(ForkBranchSettledData.terminal_node_id)))
    (Invalid "fork_branch_settled requires valid Event v12 fork, branch, terminal, and outcome fields.").

(** A join names a blocking branch exactly when it did not succeed. *)
Definition blocking_valid (data : ForkJoinSettledData) : bool :=
  match data.(ForkJoinSettledData.outcome), data.(ForkJoinSettledData.blocking_branch_id) with
  | ForkJoinOutcome.Succeeded, None => true
  | (ForkJoinOutcome.Failed | ForkJoinOutcome.Cancelled), Some branch_id =>
      valid_public_structural_id branch_id
  | _, _ => false
  end.

Definition validate_fork_join_settled (data : ForkJoinSettledData) : validation :=
  fail_if
    ((event.(RunEvent.event_schema_version) != 12%N)
     || negb (valid_public_structural_id data.(ForkJoinSettledData.fork_id))
     || negb (blocking_valid data))
    (Invalid "fork_join_settled requires one closed Event v12 outcome shape.").

Definition validate_parallel_group_started (data : ParallelGroupStartedData) : validation :=
  fail_if
    (negb (in_range 3 11 event.(RunEvent.event_schema_version))
     || negb (valid_public_structural_id data.(ParallelGroupStartedData.parallel_id)))
    (Invalid "parallel_group_started requires event schema v3 and a valid parallelId.").

Definition validate_parallel_group_completed (data : ParallelGroupCompletedData) : validation :=
  fail_if
    (negb (in_range 3 11 event.(RunEvent.event_schema_version))
     || negb (valid_public_structural_id data.(ParallelGroupCompletedData.parallel_id))
     || negb (valid_ordered_id_lists data.(ParallelGroupCompletedData.failed_node_ids) data.(ParallelGroupCompletedData.cancelled_node_ids))
     || ((data.(ParallelGroupCompletedData.outcome) == ParallelGroupOutcome.Succeeded)
         && (negb (is_empty data.(ParallelGroupCompletedData.failed_node_ids)) || negb (is_empty data.(ParallelGroupCompletedData.cancelled_node_ids))))
     || ((data.(ParallelGroupCompletedData.outcome) == ParallelGroupOutcome.Failed)
         && is_empty data.(ParallelGroupCompletedData.failed_node_ids) && is_empty data.(ParallelGroupCompletedData.cancelled_node_ids)))
    (Invalid "parallel_group_completed contains an invalid outcome or node list.").

(** *** Approvals *)

Definition validate_approval_requested (data : ApprovalRequestedData) : validation :=
  fail_if
    (negb (in_range 4 11 event.(RunEvent.event_schema_version))
     || negb (valid_public_structural_id data.(ApprovalRequestedData.approval_id))
     || negb (is_approval_request_id data.(ApprovalRequestedData.request_id))
     || is_some_and data.(ApprovalRequestedData.expires_at) (λ expires_at, bool_decide (expires_at ≤ event.(RunEvent.occurred_at))%Z))
    (Invalid "approval_requested requires event schema v4, valid identities, and a future expiresAt.").

(** [outcome_valid]: a quorum needs enough approvals and every required role. *)
Definition rich_outcome_valid (data : ApprovalResolvedData) : bool :=
  match data.(ApprovalResolvedData.decision), data.(ApprovalResolvedData.reason), data.(ApprovalResolvedData.required), data.(ApprovalResolvedData.received) with
  | Some ApprovalDecision.Approved, Some RichApprovalResolutionReason.Quorum,
    Some required, Some received =>
      (required <=? received)%N
      && match data.(ApprovalResolvedData.required_roles), data.(ApprovalResolvedData.represented_roles) with
         | Some required, Some represented =>
             forallb (λ role, existsb (String.eqb role) represented) required
         | _, _ => false
         end
  | Some ApprovalDecision.Rejected,
    Some (RichApprovalResolutionReason.Rejection | RichApprovalResolutionReason.Timeout
          | RichApprovalResolutionReason.Cancellation
          | RichApprovalResolutionReason.ArtifactInvalidated), Some _, Some _ => true
  | _, _, _, _ => false
  end.

Definition validate_rich_approval_resolved (data : ApprovalResolvedData) : validation :=
  let valid :=
    is_none data.(ApprovalResolvedData.resolution)
    && is_some_and data.(ApprovalResolvedData.review_digest) valid_sha256
    && is_some data.(ApprovalResolvedData.decision)
    && is_some data.(ApprovalResolvedData.reason)
    && is_some_and data.(ApprovalResolvedData.required) (in_range 1 20)
    && is_some_and data.(ApprovalResolvedData.received) (λ value, (value <=? 20)%N)
    && is_some_and data.(ApprovalResolvedData.required_roles) valid_rich_approval_roles
    && is_some_and data.(ApprovalResolvedData.represented_roles) valid_rich_approval_roles
    && rich_outcome_valid data in
  fail_if
    ((event.(RunEvent.event_schema_version) != 19%N)
     || negb (valid_public_structural_id data.(ApprovalResolvedData.approval_id))
     || negb (is_approval_request_id data.(ApprovalResolvedData.request_id))
     || negb valid)
    (Invalid "approval_resolved does not match the frozen rich Event v19 contract.").

Definition validate_basic_approval_resolved (data : ApprovalResolvedData) : validation :=
  check fail_if
    (negb (in_range 4 11 event.(RunEvent.event_schema_version))
     || negb (valid_public_structural_id data.(ApprovalResolvedData.approval_id))
     || negb (is_approval_request_id data.(ApprovalResolvedData.request_id)))
    (Invalid "approval_resolved requires event schema v4 and valid approval/request identities.");
  check fail_if
    (is_some data.(ApprovalResolvedData.decision) || is_some data.(ApprovalResolvedData.reason) || is_some data.(ApprovalResolvedData.required)
     || is_some data.(ApprovalResolvedData.received) || is_some data.(ApprovalResolvedData.required_roles) || is_some data.(ApprovalResolvedData.represented_roles))
    (Invalid "Basic approval resolution cannot contain rich approval fields.");
  let? resolution := ok_or data.(ApprovalResolvedData.resolution)
    (Invalid "Basic approval resolution requires a resolution.") in
  validate_approval_resolution resolution.

Definition validate_approval_resolved (data : ApprovalResolvedData) : validation :=
  if is_rich data then validate_rich_approval_resolved data
  else validate_basic_approval_resolved data.

Definition validate_approval_review_requested (data : ApprovalReviewRequestedData) : validation :=
  fail_if
    ((event.(RunEvent.event_schema_version) != 19%N)
     || negb (valid_rich_approval_identity data.(ApprovalReviewRequestedData.approval_id) data.(ApprovalReviewRequestedData.request_id) data.(ApprovalReviewRequestedData.review_digest))
     || str_is_empty data.(ApprovalReviewRequestedData.directory_version)
     || (128 <? str_len data.(ApprovalReviewRequestedData.directory_version))%N
     || negb (in_range 1 20 data.(ApprovalReviewRequestedData.required))
     || negb (valid_rich_approval_roles data.(ApprovalReviewRequestedData.required_roles)))
    (Invalid "approval_review_requested does not match the frozen Event v19 contract.").

Definition validate_approval_reviewer_decision_recorded
    (data : ApprovalReviewerDecisionRecordedData) : validation :=
  fail_if
    ((event.(RunEvent.event_schema_version) != 19%N)
     || negb (valid_rich_approval_identity data.(ApprovalReviewerDecisionRecordedData.approval_id) data.(ApprovalReviewerDecisionRecordedData.request_id) data.(ApprovalReviewerDecisionRecordedData.review_digest))
     || str_is_empty data.(ApprovalReviewerDecisionRecordedData.principal_id)
     || (128 <? str_len data.(ApprovalReviewerDecisionRecordedData.principal_id))%N)
    (Invalid "approval_reviewer_decision_recorded does not match the frozen Event v19 contract.").

Definition validate_approval_quorum_progressed (data : ApprovalQuorumProgressedData) : validation :=
  fail_if
    ((event.(RunEvent.event_schema_version) != 19%N)
     || negb (valid_rich_approval_identity data.(ApprovalQuorumProgressedData.approval_id) data.(ApprovalQuorumProgressedData.request_id) data.(ApprovalQuorumProgressedData.review_digest))
     || negb (in_range 1 20 data.(ApprovalQuorumProgressedData.required))
     || (data.(ApprovalQuorumProgressedData.required) <? data.(ApprovalQuorumProgressedData.received))%N
     || negb (valid_rich_approval_roles data.(ApprovalQuorumProgressedData.required_roles))
     || negb (valid_rich_approval_roles data.(ApprovalQuorumProgressedData.represented_roles))
     || existsb (λ role, negb (existsb (String.eqb role) data.(ApprovalQuorumProgressedData.required_roles))) data.(ApprovalQuorumProgressedData.represented_roles))
    (Invalid "approval_quorum_progressed does not match the frozen Event v19 contract.").

Definition validate_approval_invalidated (data : ApprovalInvalidatedData) : validation :=
  fail_if
    ((event.(RunEvent.event_schema_version) != 19%N)
     || negb (valid_rich_approval_identity data.(ApprovalInvalidatedData.approval_id) data.(ApprovalInvalidatedData.request_id) data.(ApprovalInvalidatedData.review_digest))
     || (data.(ApprovalInvalidatedData.reason) != RichApprovalResolutionReason.ArtifactInvalidated))
    (Invalid "approval_invalidated does not match the frozen Event v19 contract.").

(** *** Notifications *)

Definition validate_notification_delivery_requested (data : NotificationDeliveryRequestedData) : validation :=
  check validate_notification_identity data.(NotificationDeliveryRequestedData.approval_id) data.(NotificationDeliveryRequestedData.request_id) data.(NotificationDeliveryRequestedData.delivery_id);
  fail_if
    (negb (in_range 5 11 event.(RunEvent.event_schema_version))
     || negb (existsb (String.eqb data.(NotificationDeliveryRequestedData.provider)) ["slack"; "telegram"; "discord"; "whatsapp"; "custom"])
     || str_is_empty data.(NotificationDeliveryRequestedData.destination))
    (Invalid "notification_delivery_requested requires event schema v5 and a provider destination.").

Definition validate_notification_delivery_attempt_started
    (data : NotificationDeliveryAttemptStartedData) : validation :=
  check validate_notification_identity data.(NotificationDeliveryAttemptStartedData.approval_id) data.(NotificationDeliveryAttemptStartedData.request_id) data.(NotificationDeliveryAttemptStartedData.delivery_id);
  fail_if
    (negb (in_range 5 11 event.(RunEvent.event_schema_version))
     || negb (in_range 1 3 data.(NotificationDeliveryAttemptStartedData.attempt))
     || negb (valid_prefixed_id data.(NotificationDeliveryAttemptStartedData.attempt_id) "nattempt_" 12)
     || negb (valid_sha256 data.(NotificationDeliveryAttemptStartedData.idempotency_key)))
    (Invalid "notification_delivery_attempt_started has an invalid attempt contract.").

Definition validate_notification_delivery_succeeded (data : NotificationDeliverySucceededData) : validation :=
  check validate_notification_identity data.(NotificationDeliverySucceededData.approval_id) data.(NotificationDeliverySucceededData.request_id) data.(NotificationDeliverySucceededData.delivery_id);
  fail_if
    (negb (in_range 5 11 event.(RunEvent.event_schema_version))
     || negb (in_range 1 3 data.(NotificationDeliverySucceededData.attempt))
     || negb (valid_prefixed_id data.(NotificationDeliverySucceededData.attempt_id) "nattempt_" 12)
     || negb (valid_provider_message data.(NotificationDeliverySucceededData.provider_message)))
    (Invalid "notification_delivery_succeeded has an invalid result contract.").

Definition validate_notification_delivery_failed (data : NotificationDeliveryFailedData) : validation :=
  check validate_notification_identity data.(NotificationDeliveryFailedData.approval_id) data.(NotificationDeliveryFailedData.request_id) data.(NotificationDeliveryFailedData.delivery_id);
  check validate_notification_failure data.(NotificationDeliveryFailedData.failure);
  fail_if
    (negb (in_range 5 11 event.(RunEvent.event_schema_version))
     || negb (in_range 1 3 data.(NotificationDeliveryFailedData.attempt))
     || negb (valid_prefixed_id data.(NotificationDeliveryFailedData.attempt_id) "nattempt_" 12)
     || (negb data.(NotificationDeliveryFailedData.final_) && (negb data.(NotificationDeliveryFailedData.failure).(NotificationSafeFailure.retryable) || (data.(NotificationDeliveryFailedData.attempt) == 3%N)))
     || (existsb (String.eqb data.(NotificationDeliveryFailedData.failure).(NotificationSafeFailure.kind)) ["delivery_ambiguous"; "host_crashed"]
         && negb data.(NotificationDeliveryFailedData.final_)))
    (Invalid "notification_delivery_failed has an invalid retry/finality contract.").

(** The actor identity carries the provider's prefix and a number of digits in a range. *)
Definition valid_numeric_actor (prefix : string) (lo hi : N) (actor : string) : bool :=
  is_some_and (strip_prefix prefix actor) (λ value,
    in_range lo hi (str_len value) && bytes_all is_ascii_digit value).

Definition validate_notification_decision_accepted (data : NotificationDecisionAcceptedData) : validation :=
  check validate_notification_identity data.(NotificationDecisionAcceptedData.approval_id) data.(NotificationDecisionAcceptedData.request_id) data.(NotificationDecisionAcceptedData.delivery_id);
  fail_if
    (negb (in_range 5 11 event.(RunEvent.event_schema_version))
     || negb (((data.(NotificationDecisionAcceptedData.provider) == "slack") && valid_prefixed_id data.(NotificationDecisionAcceptedData.provider_actor_id) "U" 9)
              || ((data.(NotificationDecisionAcceptedData.provider) == "telegram")
                  && valid_numeric_actor "telegram:" 1 32 data.(NotificationDecisionAcceptedData.provider_actor_id))
              || ((data.(NotificationDecisionAcceptedData.provider) == "discord")
                  && valid_numeric_actor "discord:" 17 20 data.(NotificationDecisionAcceptedData.provider_actor_id))
              || ((data.(NotificationDecisionAcceptedData.provider) == "whatsapp")
                  && valid_numeric_actor "whatsapp:" 8 16 data.(NotificationDecisionAcceptedData.provider_actor_id))
              || ((data.(NotificationDecisionAcceptedData.provider) == "custom") && (data.(NotificationDecisionAcceptedData.provider_actor_id) == "custom-provider"))))
    (Invalid "notification_decision_accepted has an invalid provider audit identity.").

Definition validate_notification_message_update_requested
    (data : NotificationMessageUpdateRequestedData) : validation :=
  check validate_notification_identity data.(NotificationMessageUpdateRequestedData.approval_id) data.(NotificationMessageUpdateRequestedData.request_id) data.(NotificationMessageUpdateRequestedData.delivery_id);
  fail_if
    (negb (in_range 5 11 event.(RunEvent.event_schema_version))
     || negb (valid_prefixed_id data.(NotificationMessageUpdateRequestedData.update_id) "nupdate_" 11))
    (Invalid "notification_message_update_requested has an invalid update identity.").

(** The arm of [NotificationMessageUpdateAttemptStarted] and [NotificationMessageUpdated]. *)
Definition validate_notification_message_update_attempt
    (data : NotificationMessageUpdateAttemptStartedData) : validation :=
  check validate_notification_identity data.(NotificationMessageUpdateAttemptStartedData.approval_id) data.(NotificationMessageUpdateAttemptStartedData.request_id) data.(NotificationMessageUpdateAttemptStartedData.delivery_id);
  fail_if
    (negb (in_range 5 11 event.(RunEvent.event_schema_version))
     || negb (valid_prefixed_id data.(NotificationMessageUpdateAttemptStartedData.update_id) "nupdate_" 11)
     || negb (in_range 1 3 data.(NotificationMessageUpdateAttemptStartedData.attempt))
     || negb (valid_prefixed_id data.(NotificationMessageUpdateAttemptStartedData.attempt_id) "nattempt_" 12))
    (Invalid "Notification message-update attempt has an invalid identity.").

Definition validate_notification_message_update_failed
    (data : NotificationMessageUpdateFailedData) : validation :=
  check validate_notification_identity data.(NotificationMessageUpdateFailedData.approval_id) data.(NotificationMessageUpdateFailedData.request_id) data.(NotificationMessageUpdateFailedData.delivery_id);
  check validate_notification_failure data.(NotificationMessageUpdateFailedData.failure);
  fail_if
    (negb (in_range 5 11 event.(RunEvent.event_schema_version))
     || negb (valid_prefixed_id data.(NotificationMessageUpdateFailedData.update_id) "nupdate_" 11)
     || negb (in_range 1 3 data.(NotificationMessageUpdateFailedData.attempt))
     || negb (valid_prefixed_id data.(NotificationMessageUpdateFailedData.attempt_id) "nattempt_" 12)
     || (negb data.(NotificationMessageUpdateFailedData.final_) && (negb data.(NotificationMessageUpdateFailedData.failure).(NotificationSafeFailure.retryable) || (data.(NotificationMessageUpdateFailedData.attempt) == 3%N))))
    (Invalid "notification_message_update_failed has an invalid retry/finality contract.").

(** *** Policy decisions and operations *)

Definition invalid_emergency_deny (overlay : InfrastructurePolicyEmergencyDenyV1) : bool :=
  str_is_empty overlay.(InfrastructurePolicyEmergencyDenyV1.policy_id)
  || str_is_empty overlay.(InfrastructurePolicyEmergencyDenyV1.policy_version)
  || negb (valid_sha256 overlay.(InfrastructurePolicyEmergencyDenyV1.policy_digest))
  || is_empty overlay.(InfrastructurePolicyEmergencyDenyV1.matched_rule_ids)
  || (1024 <? length overlay.(InfrastructurePolicyEmergencyDenyV1.matched_rule_ids))%nat.

Definition validate_infrastructure_policy_decision_recorded
    (data : InfrastructurePolicyDecisionRecordedData) : validation :=
  fail_if
    (negb (valid_id data.(InfrastructurePolicyDecisionRecordedData.invocation_id))
     || negb (valid_id data.(InfrastructurePolicyDecisionRecordedData.call_id))
     || negb (valid_sha256 data.(InfrastructurePolicyDecisionRecordedData.operation_key))
     || negb (starts_with "decision_" data.(InfrastructurePolicyDecisionRecordedData.decision).(InfrastructurePolicyDecisionRecordV1.decision_id))
     || negb (str_len data.(InfrastructurePolicyDecisionRecordedData.decision).(InfrastructurePolicyDecisionRecordV1.decision_id) =? 73)%N
     || negb (valid_sha256 data.(InfrastructurePolicyDecisionRecordedData.decision).(InfrastructurePolicyDecisionRecordV1.policy_digest))
     || negb (valid_sha256 data.(InfrastructurePolicyDecisionRecordedData.decision).(InfrastructurePolicyDecisionRecordV1.descriptor_digest))
     || (1024 <? length data.(InfrastructurePolicyDecisionRecordedData.decision).(InfrastructurePolicyDecisionRecordV1.matched_rule_ids))%nat
     || (4096 <? length data.(InfrastructurePolicyDecisionRecordedData.decision).(InfrastructurePolicyDecisionRecordV1.requirements))%nat
     || (1024 <? str_len data.(InfrastructurePolicyDecisionRecordedData.decision).(InfrastructurePolicyDecisionRecordV1.explanation))%N
     || is_some_and data.(InfrastructurePolicyDecisionRecordedData.decision).(InfrastructurePolicyDecisionRecordV1.emergency_deny) invalid_emergency_deny
     || is_none_or (policy_decision_encoded_len data.(InfrastructurePolicyDecisionRecordedData.decision)) (λ len, (262144 <? len)%N))
    (Invalid "infrastructure_policy_decision_recorded exceeds its safe durable contract.").

Definition validate_operation_started (data : OperationStartedData) : validation :=
  validate_operation_base event.(RunEvent.event_schema_version) data.(OperationStartedData.node_id) data.(OperationStartedData.attempt_number)
    data.(OperationStartedData.invocation_id) data.(OperationStartedData.call_id) data.(OperationStartedData.operation_key) data.(OperationStartedData.capability) data.(OperationStartedData.operation) data.(OperationStartedData.metadata).

(** [!duration_ms.is_finite() || duration_ms < 0.0]. *)
Definition invalid_duration (duration_ms : f64) : bool :=
  negb (f64_is_finite duration_ms) || f64_lt_zero duration_ms.

Definition validate_operation_succeeded (data : OperationSucceededData) : validation :=
  check validate_operation_base event.(RunEvent.event_schema_version) data.(OperationSucceededData.node_id) data.(OperationSucceededData.attempt_number)
    data.(OperationSucceededData.invocation_id) data.(OperationSucceededData.call_id) data.(OperationSucceededData.operation_key) data.(OperationSucceededData.capability) data.(OperationSucceededData.operation) data.(OperationSucceededData.metadata);
  fail_if
    (invalid_duration data.(OperationSucceededData.duration_ms)
     || (8388608 <? data.(OperationSucceededData.result_bytes))%N
     || negb (valid_sha256 data.(OperationSucceededData.result_digest)))
    (Invalid "operation_succeeded has invalid duration, size, or digest fields.").

Definition validate_operation_failed (data : OperationFailedData) : validation :=
  check validate_operation_base event.(RunEvent.event_schema_version) data.(OperationFailedData.node_id) data.(OperationFailedData.attempt_number)
    data.(OperationFailedData.invocation_id) data.(OperationFailedData.call_id) data.(OperationFailedData.operation_key) data.(OperationFailedData.capability) data.(OperationFailedData.operation) data.(OperationFailedData.metadata);
  check fail_if (invalid_duration data.(OperationFailedData.duration_ms))
    (Invalid "operation_failed requires a non-negative finite durationMs.");
  map_err Invalid (validate_capability_failure data.(OperationFailedData.failure)).

(** *** Lifecycle *)

Definition validate_run_cancellation_requested (data : RunCancellationRequestedData) : validation :=
  fail_if (negb (in_range 10 11 event.(RunEvent.event_schema_version)) || negb (valid_id data.(RunCancellationRequestedData.request_id)))
    (Invalid "run_cancellation_requested requires Event v10 and a valid requestId.").

Definition validate_lifecycle_hook_requested (data : LifecycleHookRequestedData) : validation :=
  let subject_matches_event :=
    is_step data.(LifecycleHookRequestedData.event) == (data.(LifecycleHookRequestedData.subject).(LifecycleSubject.kind) == LifecycleSubjectKind.Step) in
  fail_if
    (negb (in_range 10 11 event.(RunEvent.event_schema_version))
     || negb (valid_sha256 data.(LifecycleHookRequestedData.hook_invocation_id))
     || negb (valid_id data.(LifecycleHookRequestedData.hook_id))
     || negb (valid_id data.(LifecycleHookRequestedData.subject).(LifecycleSubject.id))
     || negb subject_matches_event)
    (Invalid "lifecycle_hook_requested has an invalid Event v10 hook or subject identity.").

(** The arm of [LifecycleActionAttemptStarted] and [LifecycleActionSucceeded]. *)
Definition validate_lifecycle_action (data : LifecycleActionIdentityData) : validation :=
  fail_if
    (negb (in_range 10 11 event.(RunEvent.event_schema_version))
     || negb (valid_lifecycle_action_identity data.(LifecycleActionIdentityData.hook_invocation_id) data.(LifecycleActionIdentityData.action_id) data.(LifecycleActionIdentityData.attempt)))
    (Invalid "Lifecycle action events require Event v10 and a valid attempt-1 identity.").

Definition validate_lifecycle_action_failed (data : LifecycleActionFailedData) : validation :=
  fail_if
    (negb (in_range 10 11 event.(RunEvent.event_schema_version))
     || negb (valid_lifecycle_action_identity data.(LifecycleActionFailedData.hook_invocation_id) data.(LifecycleActionFailedData.action_id) data.(LifecycleActionFailedData.attempt))
     || negb (valid_lifecycle_failure data.(LifecycleActionFailedData.failure)))
    (Invalid "lifecycle_action_failed has an invalid Event v10 identity or safe failure.").

Definition validate_lifecycle_hook_completed (data : LifecycleHookCompletedData) : validation :=
  fail_if
    (negb (in_range 10 11 event.(RunEvent.event_schema_version))
     || negb (valid_sha256 data.(LifecycleHookCompletedData.hook_invocation_id))
     || (64 <? data.(LifecycleHookCompletedData.failed_actions))%N
     || ((data.(LifecycleHookCompletedData.status) == LifecycleHookCompletionStatus.Completed) && (data.(LifecycleHookCompletedData.failed_actions) != 0%N))
     || ((data.(LifecycleHookCompletedData.status) == LifecycleHookCompletionStatus.CompletedWithWarnings)
         && (data.(LifecycleHookCompletedData.failed_actions) == 0%N)))
    (Invalid "lifecycle_hook_completed has an invalid Event v10 completion summary.").

Definition validate_reusable_lifecycle_requested (data : ReusableLifecycleRequestedData) : validation :=
  fail_if
    ((event.(RunEvent.event_schema_version) != 13%N)
     || negb (valid_id data.(ReusableLifecycleRequestedData.invocation_id))
     || negb (valid_sha256 data.(ReusableLifecycleRequestedData.definition_digest)))
    (Invalid "reusable_lifecycle_requested has an invalid Event v13 identity.").

Definition validate_reusable_lifecycle_action_started
    (data : ReusableLifecycleActionStartedData) : validation :=
  fail_if
    ((event.(RunEvent.event_schema_version) != 13%N)
     || negb (valid_id data.(ReusableLifecycleActionStartedData.invocation_id))
     || negb (valid_sha256 data.(ReusableLifecycleActionStartedData.definition_digest))
     || negb (valid_id data.(ReusableLifecycleActionStartedData.action_id)))
    (Invalid "reusable_lifecycle_action_started has an invalid Event v13 identity.").

Definition validate_reusable_lifecycle_action_succeeded
    (data : ReusableLifecycleActionSucceededData) : validation :=
  fail_if
    ((event.(RunEvent.event_schema_version) != 13%N)
     || negb (valid_id data.(ReusableLifecycleActionSucceededData.invocation_id))
     || negb (valid_sha256 data.(ReusableLifecycleActionSucceededData.definition_digest))
     || negb (valid_id data.(ReusableLifecycleActionSucceededData.action_id))
     || (data.(ReusableLifecycleActionSucceededData.outcome) != ReusableLifecycleOutcome.Succeeded))
    (Invalid "reusable_lifecycle_action_succeeded has an invalid Event v13 outcome.").

Definition validate_reusable_lifecycle_action_failed
    (data : ReusableLifecycleActionFailedData) : validation :=
  fail_if
    ((event.(RunEvent.event_schema_version) != 13%N)
     || negb (valid_id data.(ReusableLifecycleActionFailedData.invocation_id))
     || negb (valid_sha256 data.(ReusableLifecycleActionFailedData.definition_digest))
     || negb (valid_id data.(ReusableLifecycleActionFailedData.action_id))
     || (data.(ReusableLifecycleActionFailedData.outcome) != ReusableLifecycleOutcome.Failed)
     || negb (starts_with "WOML_" data.(ReusableLifecycleActionFailedData.warning_code))
     || (128 <? str_len data.(ReusableLifecycleActionFailedData.warning_code))%N)
    (Invalid "reusable_lifecycle_action_failed has an invalid Event v13 warning.").

Definition validate_reusable_lifecycle_completed (data : ReusableLifecycleCompletedData) : validation :=
  fail_if
    ((event.(RunEvent.event_schema_version) != 13%N)
     || negb (valid_id data.(ReusableLifecycleCompletedData.invocation_id))
     || negb (valid_sha256 data.(ReusableLifecycleCompletedData.definition_digest))
     || negb (match data.(ReusableLifecycleCompletedData.outcome) with
              | ReusableLifecycleOutcome.Succeeded
              | ReusableLifecycleOutcome.CompletedWithWarnings => true
              | _ => false
              end))
    (Invalid "reusable_lifecycle_completed has an invalid Event v13 outcome.").

(** *** For-each *)

Definition validate_for_each_opened (data : ForEachOpenedData) : validation :=
  fail_if
    (negb (in_range 15 16 event.(RunEvent.event_schema_version))
     || is_some event.(RunEvent.iteration)
     || negb (valid_public_structural_id data.(ForEachOpenedData.for_each_id))
     || (10000 <? data.(ForEachOpenedData.total))%N
     || negb (in_range 1 64 data.(ForEachOpenedData.concurrency))
     || negb (valid_sha256 data.(ForEachOpenedData.items_digest)))
    (Invalid "for_each_opened has an invalid Event v15 identity or bounded input.").

Definition validate_for_each_iteration_succeeded (data : ForEachIterationSucceededData) : validation :=
  check validate_for_each_iteration_event event data.(ForEachIterationSucceededData.for_each_id);
  fail_if
    ((is_some data.(ForEachIterationSucceededData.result) != is_some data.(ForEachIterationSucceededData.result_digest))
     || is_some_and data.(ForEachIterationSucceededData.result_digest) (λ digest, negb (valid_sha256 digest)))
    (Invalid "for_each_iteration_succeeded requires a result and digest pair.").

Definition validate_for_each_iteration_failed (data : ForEachIterationFailedData) : validation :=
  check validate_for_each_iteration_event event data.(ForEachIterationFailedData.for_each_id);
  fail_if (negb (valid_id data.(ForEachIterationFailedData.failed_node_id)))
    (Invalid "for_each_iteration_failed requires a valid failedNodeId.").

Definition validate_for_each_settled (data : ForEachSettledData) : validation :=
  fail_if
    (negb (in_range 15 16 event.(RunEvent.event_schema_version))
     || is_some event.(RunEvent.iteration)
     || negb (valid_public_structural_id data.(ForEachSettledData.for_each_id))
     || (10000 <? data.(ForEachSettledData.total))%N
     || (u32_add (u32_add data.(ForEachSettledData.succeeded) data.(ForEachSettledData.failed)) data.(ForEachSettledData.skipped) != data.(ForEachSettledData.total))
     || negb (valid_sha256 data.(ForEachSettledData.aggregate_digest)))
    (Invalid "for_each settlement does not match the bounded Event v15 contract.").

(** *** Waits *)

Definition deadline_valid (data : WaitRegisteredData) : bool :=
  match data.(WaitRegisteredData.kind) with
  | DurableWaitKind.Duration =>
      is_some_and data.(WaitRegisteredData.deadline) (λ deadline, bool_decide (data.(WaitRegisteredData.registered_at) ≤ deadline)%Z)
  | DurableWaitKind.Until => is_some data.(WaitRegisteredData.deadline)
  | DurableWaitKind.Signal =>
      is_none_or data.(WaitRegisteredData.deadline) (λ deadline, bool_decide (data.(WaitRegisteredData.registered_at) ≤ deadline)%Z)
  end.

(** [iter().collect::<HashSet<_>>().len() == len()]. *)
Definition all_distinct (l : list string) : bool := size (list_to_set l : gset string) == length l.

Definition shape_valid (data : WaitRegisteredData) : bool :=
  match data.(WaitRegisteredData.kind) with
  | DurableWaitKind.Duration | DurableWaitKind.Until =>
      is_some data.(WaitRegisteredData.deadline) && is_none data.(WaitRegisteredData.signals) && is_none data.(WaitRegisteredData.correlation_digest)
  | DurableWaitKind.Signal =>
      is_some_and data.(WaitRegisteredData.signals) (λ signals,
        in_range 1 16 (N.of_nat (length signals))
        && forallb valid_signal_name signals
        && all_distinct signals)
      && is_some_and data.(WaitRegisteredData.correlation_digest) valid_sha256
  end.

Definition validate_wait_registered (data : WaitRegisteredData) : validation :=
  fail_if
    ((event.(RunEvent.event_schema_version) != 16%N)
     || negb (valid_public_structural_id data.(WaitRegisteredData.wait_id))
     || (data.(WaitRegisteredData.node_id) != data.(WaitRegisteredData.wait_id))
     || (data.(WaitRegisteredData.registered_at) != event.(RunEvent.occurred_at))
     || negb (deadline_valid data)
     || negb (shape_valid data))
    (Invalid "wait_registered does not match the frozen Event v16 contract.").

(** [serde_json::to_vec(value).map_or(true, |v| v.len() > 1_048_576)]. *)
Definition encoding_too_large (value : Value) : bool :=
  is_none_or (serde_json_encoded_len value) (λ len, (1048576 <? len)%N).

Definition validate_external_signal_received (data : ExternalSignalReceivedData) : validation :=
  fail_if
    ((event.(RunEvent.event_schema_version) != 16%N)
     || negb (valid_id data.(ExternalSignalReceivedData.signal_id))
     || negb (valid_public_structural_id data.(ExternalSignalReceivedData.wait_id))
     || negb (valid_signal_name data.(ExternalSignalReceivedData.signal))
     || (data.(ExternalSignalReceivedData.received_at) != event.(RunEvent.occurred_at))
     || negb (valid_sha256 data.(ExternalSignalReceivedData.idempotency_digest))
     || is_some_and data.(ExternalSignalReceivedData.correlation) (λ value,
          str_is_empty value || (256 <? str_len value)%N || negb (is_trimmed value))
     || is_some_and data.(ExternalSignalReceivedData.authentication_class) (λ value,
          str_is_empty value || (64 <? str_len value)%N)
     || encoding_too_large data.(ExternalSignalReceivedData.payload))
    (Invalid "external_signal_received does not match the bounded Event v16 contract.").

Definition validate_wait_satisfied (data : WaitSatisfiedData) : validation :=
  fail_if
    ((event.(RunEvent.event_schema_version) != 16%N)
     || negb (valid_public_structural_id data.(WaitSatisfiedData.wait_id))
     || (data.(WaitSatisfiedData.resolved_at) != event.(RunEvent.occurred_at))
     || negb (is_object data.(WaitSatisfiedData.result))
     || encoding_too_large data.(WaitSatisfiedData.result))
    (Invalid "wait_satisfied does not match the frozen Event v16 result contract.").

Definition validate_wait_timed_out (data : WaitTimedOutData) : validation :=
  fail_if
    ((event.(RunEvent.event_schema_version) != 16%N)
     || negb (valid_public_structural_id data.(WaitTimedOutData.wait_id))
     || (data.(WaitTimedOutData.resolved_at) != event.(RunEvent.occurred_at))
     || bool_decide (data.(WaitTimedOutData.resolved_at) < data.(WaitTimedOutData.deadline))%Z)
    (Invalid "wait_timed_out does not match the frozen Event v16 timeout contract.").

Definition validate_wait_cancelled (data : WaitCancelledData) : validation :=
  fail_if
    ((event.(RunEvent.event_schema_version) != 16%N)
     || negb (valid_public_structural_id data.(WaitCancelledData.wait_id))
     || negb (valid_id data.(WaitCancelledData.cancellation_id))
     || (data.(WaitCancelledData.cancelled_at) != event.(RunEvent.occurred_at)))
    (Invalid "wait_cancelled does not match the frozen Event v16 cancellation contract.").

(** *** Locks *)

Definition validate_lock_wait_registered (data : LockWaitRegisteredData) : validation :=
  fail_if
    ((event.(RunEvent.event_schema_version) != 17%N)
     || negb (valid_public_structural_id data.(LockWaitRegisteredData.lock_id))
     || negb (valid_lock_key data.(LockWaitRegisteredData.key))
     || (data.(LockWaitRegisteredData.waiter_sequence) == 0%N)
     || (data.(LockWaitRegisteredData.registered_at) != event.(RunEvent.occurred_at))
     || bool_decide (data.(LockWaitRegisteredData.deadline) < data.(LockWaitRegisteredData.registered_at))%Z
     || negb (valid_id data.(LockWaitRegisteredData.execution_identity)))
    (Invalid "lock_wait_registered does not match the frozen Event v17 contract.").

Definition validate_lock_acquired (data : LockAcquiredData) : validation :=
  fail_if
    ((event.(RunEvent.event_schema_version) != 17%N)
     || negb (valid_public_structural_id data.(LockAcquiredData.lock_id))
     || negb (valid_lock_key data.(LockAcquiredData.key))
     || negb (valid_prefixed_id data.(LockAcquiredData.lease_id) "lease_" 7)
     || negb (valid_fencing_token data.(LockAcquiredData.fencing_token))
     || (data.(LockAcquiredData.acquired_at) != event.(RunEvent.occurred_at))
     || bool_decide (data.(LockAcquiredData.expires_at) ≤ data.(LockAcquiredData.acquired_at))%Z
     || negb (valid_id data.(LockAcquiredData.execution_identity)))
    (Invalid "lock_acquired does not match the frozen Event v17 contract.").

Definition validate_lock_released (data : LockReleasedData) : validation :=
  fail_if
    ((event.(RunEvent.event_schema_version) != 17%N)
     || negb (valid_public_structural_id data.(LockReleasedData.lock_id))
     || negb (valid_lock_key data.(LockReleasedData.key))
     || negb (valid_prefixed_id data.(LockReleasedData.lease_id) "lease_" 7)
     || negb (valid_fencing_token data.(LockReleasedData.fencing_token))
     || (data.(LockReleasedData.released_at) != event.(RunEvent.occurred_at))
     || negb (is_object data.(LockReleasedData.result))
     || encoding_too_large data.(LockReleasedData.result))
    (Invalid "lock_released does not match the frozen Event v17 contract.").

Definition validate_lock_acquire_timed_out (data : LockAcquireTimedOutData) : validation :=
  fail_if
    ((event.(RunEvent.event_schema_version) != 17%N)
     || negb (valid_public_structural_id data.(LockAcquireTimedOutData.lock_id))
     || negb (valid_lock_key data.(LockAcquireTimedOutData.key))
     || (data.(LockAcquireTimedOutData.resolved_at) != event.(RunEvent.occurred_at))
     || bool_decide (data.(LockAcquireTimedOutData.resolved_at) < data.(LockAcquireTimedOutData.deadline))%Z)
    (Invalid "lock_acquire_timed_out does not match the frozen Event v17 contract.").

Definition validate_lock_acquisition_cancelled (data : LockAcquisitionCancelledData) : validation :=
  fail_if
    ((event.(RunEvent.event_schema_version) != 17%N)
     || negb (valid_public_structural_id data.(LockAcquisitionCancelledData.lock_id))
     || negb (valid_lock_key data.(LockAcquisitionCancelledData.key))
     || (data.(LockAcquisitionCancelledData.cancelled_at) != event.(RunEvent.occurred_at))
     || negb (valid_id data.(LockAcquisitionCancelledData.cancellation_id)))
    (Invalid "lock_acquisition_cancelled does not match the frozen Event v17 contract.").

Definition validate_lock_lease_lost (data : LockLeaseLostData) : validation :=
  fail_if
    ((event.(RunEvent.event_schema_version) != 17%N)
     || negb (valid_public_structural_id data.(LockLeaseLostData.lock_id))
     || negb (valid_lock_key data.(LockLeaseLostData.key))
     || negb (valid_prefixed_id data.(LockLeaseLostData.lease_id) "lease_" 7)
     || negb (valid_fencing_token data.(LockLeaseLostData.fencing_token))
     || (data.(LockLeaseLostData.detected_at) != event.(RunEvent.occurred_at))
     || bool_decide (data.(LockLeaseLostData.detected_at) < data.(LockLeaseLostData.expired_at))%Z)
    (Invalid "lock_lease_lost does not match the frozen Event v17 contract.").

(** *** Sagas *)

(** The arm of [SagaStarted], [SagaForwardSucceeded] and [SagaCorrectionCompleted]. *)
Definition validate_saga_identity (data : SagaIdentityData) : validation :=
  fail_if ((event.(RunEvent.event_schema_version) != 18%N) || negb (valid_public_structural_id data.(SagaIdentityData.saga_id)))
    (Invalid "Saga lifecycle event does not match the frozen Event v18 contract.").

(** [action_id.is_empty() || action_id.len() > 768]. *)
Definition invalid_action_id (action_id : string) : bool :=
  str_is_empty action_id || (768 <? str_len action_id)%N.

(** [!code.starts_with("WOML_") || code.len() > 128]. *)
Definition invalid_woml_code (code : string) : bool :=
  negb (starts_with "WOML_" code) || (128 <? str_len code)%N.

Definition validate_compensation_registered (data : CompensationRegisteredData) : validation :=
  fail_if
    ((event.(RunEvent.event_schema_version) != 18%N)
     || negb (valid_public_structural_id data.(CompensationRegisteredData.saga_id))
     || invalid_action_id data.(CompensationRegisteredData.action_id)
     || negb (valid_public_structural_id data.(CompensationRegisteredData.for_step_id))
     || (data.(CompensationRegisteredData.completion_sequence) == 0%N))
    (Invalid "compensation_registered does not match the frozen Event v18 contract.").

Definition validate_saga_correction_started (data : SagaCorrectionStartedData) : validation :=
  fail_if ((event.(RunEvent.event_schema_version) != 18%N) || negb (valid_public_structural_id data.(SagaCorrectionStartedData.saga_id)))
    (Invalid "saga_correction_started does not match the frozen Event v18 contract.").

(** The arm of [CorrectionAttemptStarted] and [CorrectionAttemptSucceeded]. *)
Definition validate_correction_attempt (data : CorrectionAttemptIdentityData) : validation :=
  fail_if
    ((event.(RunEvent.event_schema_version) != 18%N)
     || negb (valid_public_structural_id data.(CorrectionAttemptIdentityData.saga_id))
     || invalid_action_id data.(CorrectionAttemptIdentityData.action_id)
     || negb (in_range 1 10 data.(CorrectionAttemptIdentityData.attempt)))
    (Invalid "Correction attempt identity does not match the frozen Event v18 contract.").

Definition validate_correction_attempt_failed (data : CorrectionAttemptFailedData) : validation :=
  fail_if
    ((event.(RunEvent.event_schema_version) != 18%N)
     || negb (valid_public_structural_id data.(CorrectionAttemptFailedData.saga_id))
     || invalid_action_id data.(CorrectionAttemptFailedData.action_id)
     || negb (in_range 1 10 data.(CorrectionAttemptFailedData.attempt))
     || invalid_woml_code data.(CorrectionAttemptFailedData.code))
    (Invalid "correction_attempt_failed does not match the frozen Event v18 contract.").

Definition validate_correction_retry_scheduled (data : CorrectionRetryScheduledData) : validation :=
  fail_if
    ((event.(RunEvent.event_schema_version) != 18%N)
     || negb (valid_public_structural_id data.(CorrectionRetryScheduledData.saga_id))
     || invalid_action_id data.(CorrectionRetryScheduledData.action_id)
     || negb (in_range 1 10 data.(CorrectionRetryScheduledData.attempt))
     || bool_decide (data.(CorrectionRetryScheduledData.retry_at) < event.(RunEvent.occurred_at))%Z)
    (Invalid "correction_retry_scheduled does not match the frozen Event v18 contract.").

Definition validate_correction_interrupted (data : CorrectionInterruptedData) : validation :=
  fail_if
    ((event.(RunEvent.event_schema_version) != 18%N)
     || negb (valid_public_structural_id data.(CorrectionInterruptedData.saga_id))
     || invalid_action_id data.(CorrectionInterruptedData.action_id)
     || negb (in_range 1 10 data.(CorrectionInterruptedData.attempt)))
    (Invalid "correction_interrupted does not match the frozen Event v18 contract.").

Definition validate_manual_recovery_required (data : ManualRecoveryRequiredData) : validation :=
  fail_if
    ((event.(RunEvent.event_schema_version) != 18%N)
     || negb (valid_public_structural_id data.(ManualRecoveryRequiredData.saga_id))
     || invalid_action_id data.(ManualRecoveryRequiredData.action_id)
     || invalid_woml_code data.(ManualRecoveryRequiredData.code))
    (Invalid "manual_recovery_required does not match the frozen Event v18 contract.").

(** *** Outcome and terminal events *)

Definition validate_run_outcome_decided (data : RunOutcomeDecidedData) : validation :=
  let valid :=
    match data with
    | RunOutcomeDecidedData.Succeeded _ => true
    | RunOutcomeDecidedData.Failed failure => valid_lifecycle_failure failure
    | RunOutcomeDecidedData.Cancelled cancellation_request_id => valid_id cancellation_request_id
    end in
  fail_if (negb (in_range 10 11 event.(RunEvent.event_schema_version)) || negb valid)
    (Invalid "run_outcome_decided has an invalid Event v10 outcome payload.").

Definition valid_warning (warning : LifecycleWarning) : bool :=
  valid_id warning.(LifecycleWarning.hook_id)
  && valid_id warning.(LifecycleWarning.action_id)
  && is_none_or warning.(LifecycleWarning.step_id) valid_id
  && is_none_or warning.(LifecycleWarning.provider) (λ value, (str_len value <=? 64)%N)
  && is_none_or warning.(LifecycleWarning.destination) (λ value, (str_len value <=? 256)%N)
  && starts_with "WOML_" warning.(LifecycleWarning.code).

Definition validate_run_finalized (data : RunFinalizedData) : validation :=
  let warnings_valid := (length data.(RunFinalizedData.warnings) <=? 128)%nat && forallb valid_warning data.(RunFinalizedData.warnings) in
  fail_if
    (negb (in_range 10 11 event.(RunEvent.event_schema_version))
     || negb warnings_valid
     || ((data.(RunFinalizedData.lifecycle_status) == FinalLifecycleStatus.Completed) && negb (is_empty data.(RunFinalizedData.warnings)))
     || ((data.(RunFinalizedData.lifecycle_status) == FinalLifecycleStatus.CompletedWithWarnings)
         && is_empty data.(RunFinalizedData.warnings)))
    (Invalid "run_finalized has an invalid Event v10 lifecycle summary.").

Definition validate_run_succeeded (data : RunSucceededData) : validation :=
  fail_if (in_range 10 11 event.(RunEvent.event_schema_version) || negb (valid_id data.(RunSucceededData.terminal_node_id)))
    (Invalid "run_succeeded requires a valid terminalNodeId.").

Definition validate_run_failed_v1 (data : RunFailedDataV1) : validation :=
  let any_field := is_some data.(RunFailedDataV1.node_id) || is_some data.(RunFailedDataV1.attempt) || is_some data.(RunFailedDataV1.invocation_id) in
  let all_fields := is_some data.(RunFailedDataV1.node_id) && is_some data.(RunFailedDataV1.attempt) && is_some data.(RunFailedDataV1.invocation_id) in
  check fail_if (any_field && negb all_fields)
    (Invalid "run_failed attempt identity must provide nodeId, attempt, and invocationId together.");
  check match data.(RunFailedDataV1.node_id), data.(RunFailedDataV1.attempt), data.(RunFailedDataV1.invocation_id) with
        | Some node_id, Some attempt, Some invocation_id =>
            validate_identity node_id attempt invocation_id
        | _, _, _ => Ok tt
        end;
  validate_attempt_failure data.(RunFailedDataV1.failure).

Definition validate_run_failed_branch (branch_id : string) (arm_id : option string)
    (path : option (list string)) (failure : BranchFailure) : validation :=
  check fail_if
    (negb (valid_public_structural_id branch_id)
     || is_some_and arm_id (λ arm_id, negb (valid_branch_arm_id branch_id arm_id))
     || is_some_and path (λ path, is_empty path || existsb str_is_empty path))
    (Invalid "Branch-scoped run_failed contains an invalid branchId, armId, or path.");
  check match failure with
        | BranchFailure.BranchTestNotBoolean _ _ _ =>
            fail_if (is_none arm_id || is_none path)
              (Invalid "branch_test_not_boolean requires armId and path.")
        | BranchFailure.ReferenceNotAvailable _ _ =>
            fail_if (is_none path) (Invalid "reference_not_available requires path.")
        | _ => Ok tt
        end;
  validate_branch_failure failure.

Definition validate_run_failed_parallel (parallel_id primary_node_id : string)
    (failed_node_ids cancelled_node_ids : list string) (failure : ParallelFailure) : validation :=
  check fail_if
    (negb (valid_public_structural_id parallel_id)
     || negb (valid_public_structural_id primary_node_id)
     || negb (valid_ordered_id_lists failed_node_ids cancelled_node_ids)
     || is_empty failed_node_ids
     || negb (existsb (λ node_id, node_id == primary_node_id) failed_node_ids))
    (Invalid "Parallel-scoped run_failed contains an invalid group or child identity list.");
  validate_parallel_failure failure.

Definition validate_run_failed_approval (approval_id request_id : string) (failure : ApprovalFailure) :
    validation :=
  check fail_if
    (negb (valid_public_structural_id approval_id) || negb (is_approval_request_id request_id))
    (Invalid "Approval-scoped run_failed contains an invalid approvalId or requestId.");
  validate_approval_failure failure.

Definition validate_run_failed_notification (approval_id request_id : string)
    (failed_delivery_ids : list string) (failure : NotificationRunFailure) : validation :=
  fail_if
    (negb (valid_public_structural_id approval_id)
     || negb (is_approval_request_id request_id)
     || is_empty failed_delivery_ids
     || negb (forallb (λ delivery_id, is_notification_delivery_id delivery_id approval_id)
                failed_delivery_ids)
     || negb (all_distinct failed_delivery_ids)
     || (failure.(NotificationRunFailure.kind) != "all_deliveries_failed")
     || (failure.(NotificationRunFailure.code) != "WOML_NOTIFICATION_DELIVERY_FAILED")
     || str_is_empty failure.(NotificationRunFailure.message))
    (Invalid "Notification-scoped run_failed has an invalid delivery failure contract.").

(** The [match (self.event_schema_version, data)] of the [RunFailed] arm. *)
Definition validate_run_failed (data : RunFailedData) : validation :=
  let version := event.(RunEvent.event_schema_version) in
  let mismatch := Err (Invalid "run_failed payload does not belong to event schema v{}.") in
  match data with
  | RunFailedData.V1 data =>
      if version == 1%N then validate_run_failed_v1 data else mismatch
  | RunFailedData.V2 (RunFailedDataV2.Attempt node_id attempt invocation_id failure) =>
      if in_range 2 9 version then
        check validate_identity node_id attempt invocation_id;
        validate_attempt_failure failure
      else mismatch
  | RunFailedData.V2 (RunFailedDataV2.Branch branch_id arm_id path failure) =>
      if in_range 2 9 version then validate_run_failed_branch branch_id arm_id path failure
      else mismatch
  | RunFailedData.V3 (RunFailedDataV3.Parallel parallel_id _ primary_node_id failed_node_ids
                        cancelled_node_ids failure) =>
      if in_range 3 9 version
      then validate_run_failed_parallel parallel_id primary_node_id failed_node_ids
             cancelled_node_ids failure
      else mismatch
  | RunFailedData.V4 (RunFailedDataV4.Approval approval_id request_id failure) =>
      if in_range 4 9 version then validate_run_failed_approval approval_id request_id failure
      else mismatch
  | RunFailedData.V5 (RunFailedDataV5.Notification approval_id request_id failed_delivery_ids failure) =>
      if in_range 5 9 version
      then validate_run_failed_notification approval_id request_id failed_delivery_ids failure
      else mismatch
  end.
End payloads.

(** The [match &self.payload]. *)
Definition validate_payload (event : RunEvent) : validation :=
  match event.(RunEvent.payload) with
  | RunEventPayload.RemoteDispatchTransitioned data => validate_remote_dispatch_transitioned event data
  | RunEventPayload.RunAdmitted data => validate_run_admitted event data
  | RunEventPayload.RunExecutionStarted data => validate_run_execution_started event data
  | RunEventPayload.RunTimeoutReached data => validate_run_timeout_reached event data
  | RunEventPayload.RunStarted data => validate_run_started event data
  | RunEventPayload.StepAttemptStarted data => validate_step_attempt_started event data
  | RunEventPayload.StepAttemptSucceeded data => validate_step_attempt_succeeded event data
  | RunEventPayload.StepAttemptFailed data => validate_step_attempt_failed event data
  | RunEventPayload.StepRetryScheduled data => validate_step_retry_scheduled event data
  | RunEventPayload.BranchSelected data => validate_branch_selected event data
  | RunEventPayload.ChoiceSelected data => validate_choice_selected event data
  | RunEventPayload.ForkOpened data => validate_fork_opened event data
  | RunEventPayload.ForkBranchSettled data => validate_fork_branch_settled event data
  | RunEventPayload.ForkJoinSettled data => validate_fork_join_settled event data
  | RunEventPayload.ParallelGroupStarted data => validate_parallel_group_started event data
  | RunEventPayload.ParallelGroupCompleted data => validate_parallel_group_completed event data
  | RunEventPayload.ApprovalRequested data => validate_approval_requested event data
  | RunEventPayload.ApprovalResolved data => validate_approval_resolved event data
  | RunEventPayload.ApprovalReviewRequested data => validate_approval_review_requested event data
  | RunEventPayload.ApprovalReviewerDecisionRecorded data => validate_approval_reviewer_decision_recorded event data
  | RunEventPayload.ApprovalQuorumProgressed data => validate_approval_quorum_progressed event data
  | RunEventPayload.ApprovalInvalidated data => validate_approval_invalidated event data
  | RunEventPayload.NotificationDeliveryRequested data => validate_notification_delivery_requested event data
  | RunEventPayload.NotificationDeliveryAttemptStarted data =>
      validate_notification_delivery_attempt_started event data
  | RunEventPayload.NotificationDeliverySucceeded data => validate_notification_delivery_succeeded event data
  | RunEventPayload.NotificationDeliveryFailed data => validate_notification_delivery_failed event data
  | RunEventPayload.NotificationDecisionAccepted data => validate_notification_decision_accepted event data
  | RunEventPayload.NotificationMessageUpdateRequested data =>
      validate_notification_message_update_requested event data
  | RunEventPayload.NotificationMessageUpdateAttemptStarted data =>
      validate_notification_message_update_attempt event data
  | RunEventPayload.NotificationMessageUpdated data => validate_notification_message_update_attempt event data
  | RunEventPayload.NotificationMessageUpdateFailed data => validate_notification_message_update_failed event data
  | RunEventPayload.InfrastructurePolicyDecisionRecorded data =>
      validate_infrastructure_policy_decision_recorded data
  | RunEventPayload.OperationStarted data => validate_operation_started event data
  | RunEventPayload.OperationSucceeded data => validate_operation_succeeded event data
  | RunEventPayload.OperationFailed data => validate_operation_failed event data
  | RunEventPayload.RunCancellationRequested data => validate_run_cancellation_requested event data
  | RunEventPayload.LifecycleHookRequested data => validate_lifecycle_hook_requested event data
  | RunEventPayload.LifecycleActionAttemptStarted data => validate_lifecycle_action event data
  | RunEventPayload.LifecycleActionSucceeded data => validate_lifecycle_action event data
  | RunEventPayload.LifecycleActionFailed data => validate_lifecycle_action_failed event data
  | RunEventPayload.LifecycleHookCompleted data => validate_lifecycle_hook_completed event data
  | RunEventPayload.ReusableLifecycleRequested data => validate_reusable_lifecycle_requested event data
  | RunEventPayload.ReusableLifecycleActionStarted data => validate_reusable_lifecycle_action_started event data
  | RunEventPayload.ReusableLifecycleActionSucceeded data =>
      validate_reusable_lifecycle_action_succeeded event data
  | RunEventPayload.ReusableLifecycleActionFailed data => validate_reusable_lifecycle_action_failed event data
  | RunEventPayload.ReusableLifecycleCompleted data => validate_reusable_lifecycle_completed event data
  | RunEventPayload.ForEachOpened data => validate_for_each_opened event data
  | RunEventPayload.ForEachIterationStarted data =>
      validate_for_each_iteration_event event data.(ForEachIterationIdentityData.for_each_id)
  | RunEventPayload.ForEachIterationSucceeded data => validate_for_each_iteration_succeeded event data
  | RunEventPayload.ForEachIterationFailed data => validate_for_each_iteration_failed event data
  | RunEventPayload.ForEachIterationSkipped data =>
      validate_for_each_iteration_event event data.(ForEachIterationSkippedData.for_each_id)
  | RunEventPayload.ForEachSucceeded data => validate_for_each_settled event data
  | RunEventPayload.ForEachFailed data => validate_for_each_settled event data
  | RunEventPayload.ForEachCancelled data => validate_for_each_settled event data
  | RunEventPayload.WaitRegistered data => validate_wait_registered event data
  | RunEventPayload.ExternalSignalReceived data => validate_external_signal_received event data
  | RunEventPayload.WaitSatisfied data => validate_wait_satisfied event data
  | RunEventPayload.WaitTimedOut data => validate_wait_timed_out event data
  | RunEventPayload.WaitCancelled data => validate_wait_cancelled event data
  | RunEventPayload.LockWaitRegistered data => validate_lock_wait_registered event data
  | RunEventPayload.LockAcquired data => validate_lock_acquired event data
  | RunEventPayload.LockReleased data => validate_lock_released event data
  | RunEventPayload.LockAcquireTimedOut data => validate_lock_acquire_timed_out event data
  | RunEventPayload.LockAcquisitionCancelled data => validate_lock_acquisition_cancelled event data
  | RunEventPayload.LockLeaseLost data => validate_lock_lease_lost event data
  | RunEventPayload.SagaStarted data => validate_saga_identity event data
  | RunEventPayload.SagaForwardSucceeded data => validate_saga_identity event data
  | RunEventPayload.SagaCorrectionCompleted data => validate_saga_identity event data
  | RunEventPayload.CompensationRegistered data => validate_compensation_registered event data
  | RunEventPayload.SagaCorrectionStarted data => validate_saga_correction_started event data
  | RunEventPayload.CorrectionAttemptStarted data => validate_correction_attempt event data
  | RunEventPayload.CorrectionAttemptSucceeded data => validate_correction_attempt event data
  | RunEventPayload.CorrectionAttemptFailed data => validate_correction_attempt_failed event data
  | RunEventPayload.CorrectionRetryScheduled data => validate_correction_retry_scheduled event data
  | RunEventPayload.CorrectionInterrupted data => validate_correction_interrupted event data
  | RunEventPayload.ManualRecoveryRequired data => validate_manual_recovery_required event data
  | RunEventPayload.RunOutcomeDecided data => validate_run_outcome_decided event data
  | RunEventPayload.RunFinalized data => validate_run_finalized event data
  | RunEventPayload.RunSucceeded data => validate_run_succeeded event data
  | RunEventPayload.RunFailed data => validate_run_failed event data
  end.

(** The checks before the match, in the order of the source. *)
Definition validate_head (event : RunEvent) : validation_step :=
  let version := event.(RunEvent.event_schema_version) in
  let payload := event.(RunEvent.payload) in
  if negb (in_range 1 20 version) then
    Return (Err (EventValidationError.UnsupportedSchemaVersion version))
  else if negb (valid_id event.(RunEvent.event_id)) || negb (valid_id event.(RunEvent.run_id)) || (event.(RunEvent.sequence) == 0%N) then
    Return (Err (Invalid "Run events require valid eventId, runId, and sequence >= 1."))
  else if (version == 20%N) && negb (remote_dispatch_event payload) then inherit event 19
  else if (version == 20%N) && invalid_scope event then
    Return (Err (Invalid "Event v20 remote dispatch iteration scope is invalid."))
  else if (version == 19%N) && negb (rich_approval_event payload) then inherit event 18
  else if (version == 19%N) && is_some event.(RunEvent.iteration) then
    Return (Err (Invalid "Rich approval events cannot carry an iteration scope in Event v19."))
  else if (version == 18%N) && negb (correction_event payload) then inherit event 17
  else if (version == 18%N) && is_some event.(RunEvent.iteration) && negb (is_compensation_registered payload) then
    Return (Err (Invalid "Only compensation_registered may carry an iteration scope in Event v18."))
  else if (version == 17%N) && negb (lock_event payload) then inherit event 16
  else if (version == 17%N) && invalid_scope event then
    Return (Err (Invalid "Event v17 lock iteration scope is invalid."))
  else if (version == 16%N) && negb (wait_event payload) then inherit event 15
  else if (version == 16%N) && invalid_scope event then
    Return (Err (Invalid "Event v16 durable-wait iteration scope is invalid."))
  else if (version == 15%N) && negb (loop_event payload) then
    if is_some event.(RunEvent.iteration) && (negb (scoped_work payload) || invalid_scope event) then
      Return (Err (Invalid "Event v15 iteration scope is invalid for this loop-owned payload."))
    else Inherited (event <|RunEvent.event_schema_version := 14%N|> <|RunEvent.iteration := None|>)
  else if negb (in_range 15 18 version || (version == 20%N)) && is_some event.(RunEvent.iteration) then
    Return (Err (Invalid "Iteration scope is available only in Event v15 or a compatible later schema."))
  else if version == 14%N then inherit event 13
  else if (version == 13%N) && negb (reusable_event payload) then inherit event 12
  else if (version == 12%N) && negb (fork_event payload) then inherit event 11
  else Return (validate_payload event).

(** [validate], unrolled at most [fuel] times. *)
Fixpoint validate_fuel (fuel : nat) (event : RunEvent) : validation :=
  match fuel with
  | O => Panic "out of fuel"
  | S fuel =>
      match validate_head event with
      | Return r => r
      | Inherited event => validate_fuel fuel event
      end
  end.

(** [RunEvent::validate].  The version drops at every call and no version above
    20 gets past the first check, so 21 unrollings suffice ([validate_unfold]). *)
Definition validate (event : RunEvent) : validation := validate_fuel 21 event.
End with_externals.
