(* ===== verification/Fold.v ===== *)
(** * The fold

    projection/fold.rs: [ProjectionFoldState::apply] checks one event against
    the history so far and dispatches it; [from_events] folds a history from
    the default state; [fold_events] keeps the projection. *)

From S2P Require Import Prelude Strings Json EventTypes ProjectionTypes Guards FoldRun.
From S2P Require Import FoldControlFlow FoldCorrection FoldApprovals FoldOperations FoldLifecycle.
From S2P Require Import IterationFold EventIdentities EventValidation.

(** [WorkflowContext::default()] and [RunProjection::default()]. *)
Definition default_context : WorkflowContext :=
  {| WorkflowContext.trigger := []; WorkflowContext.steps := []; WorkflowContext.lock := None |}.

Definition default_projection : RunProjection :=
  {| RunProjection.event_schema_version := None;
     RunProjection.run_id := None;
     RunProjection.workflow_id := None;
     RunProjection.definition_hash := None;
     RunProjection.policy_hash := None;
     RunProjection.queue := None;
     RunProjection.occurrence_sequence := None;
     RunProjection.admitted_at := None;
     RunProjection.started_at := None;
     RunProjection.timeout_at := None;
     RunProjection.timeout_reached_at := None;
     RunProjection.trigger_id := None;
     RunProjection.trigger_handler := None;
     RunProjection.trigger_occurrence_id := None;
     RunProjection.ingress := None;
     RunProjection.status := RunStatus.NotStarted;
     RunProjection.business_outcome := None;
     RunProjection.lifecycle_status := LifecycleStatus.Idle;
     RunProjection.cancellation_request_id := None;
     RunProjection.lifecycle_hooks := ∅;
     RunProjection.reusable_lifecycle_hooks := ∅;
     RunProjection.lifecycle_warnings := [];
     RunProjection.context := default_context;
     RunProjection.attempts := [];
     RunProjection.infrastructure_policy_decisions := [];
     RunProjection.operations := ∅;
     RunProjection.pending_retries := ∅;
     RunProjection.branch_selections := ∅;
     RunProjection.choice_selections := ∅;
     RunProjection.parallel_groups := ∅;
     RunProjection.forks := ∅;
     RunProjection.for_each := ∅;
     RunProjection.approval_requests := ∅;
     RunProjection.rich_approval_requests := ∅;
     RunProjection.durable_waits := ∅;
     RunProjection.locks := ∅;
     RunProjection.sagas := ∅;
     RunProjection.external_signals := [];
     RunProjection.notification_deliveries := ∅;
     RunProjection.notification_updates := ∅;
     RunProjection.notification_decisions := [];
     RunProjection.terminal_node_id := None;
     RunProjection.result := None;
     RunProjection.failure := None;
     RunProjection.lifecycle_failure := None;
     RunProjection.last_sequence := 0 |}.

(** [ProjectionFoldState], projection/fold.rs. *)
Module ProjectionFoldState.
Record ProjectionFoldState := mk {
  projection : RunProjection;
  event_ids : gset string;
  attempt_indexes : gmap AttemptIdentity nat;
  previous_event : option RunEvent
}.
End ProjectionFoldState.
Abbreviation ProjectionFoldState := ProjectionFoldState.ProjectionFoldState.

(** [ProjectionFoldState::default()]. *)
Definition default_state : ProjectionFoldState := ProjectionFoldState.mk default_projection ∅ ∅ None.

(** [ProjectionFoldState::last_event_id]. *)
Definition last_event_id (s : ProjectionFoldState) : option string :=
  (λ (event : RunEvent), event.(RunEvent.event_id)) <$> s.(ProjectionFoldState.previous_event).

(** [u64] addition. *)
Definition u64_add (a b : N) : N := ((a + b) mod 2 ^ 64)%N.

Definition status_is_terminal (s : RunStatus) : bool :=
  match s with RunStatus.Succeeded | RunStatus.Failed | RunStatus.Cancelled => true | _ => false end.

(** Iteration-scoped payloads that the top level handles. *)
Definition top_level_scoped_event (payload : RunEventPayload) : bool :=
  match payload with
  | RunEventPayload.ForEachIterationStarted _ | RunEventPayload.ForEachIterationSucceeded _ | RunEventPayload.ForEachIterationFailed _
  | RunEventPayload.ForEachIterationSkipped _ | RunEventPayload.CompensationRegistered _ => true
  | _ => false
  end.

Section with_externals.
Context `{Externals}.

(** The [match &event.payload] of [apply]; only [StepAttemptStarted] adds to
    [attempt_indexes]. *)
Definition apply_payload (p : RunProjection) (event : RunEvent) (index : N)
    (attempt_indexes : gmap AttemptIdentity nat) (previous_event : option RunEvent) :
    fold_result (RunProjection * gmap AttemptIdentity nat) :=
  let keep (r : fold_result RunProjection) := let? p := r in Ok (p, attempt_indexes) in
  match event.(RunEvent.payload) with
  | RunEventPayload.RunAdmitted data => keep (apply_run_admitted p event data index)
  | RunEventPayload.RunExecutionStarted data => keep (apply_run_execution_started p data)
  | RunEventPayload.RunTimeoutReached data => keep (apply_run_timeout_reached p data)
  | RunEventPayload.RunStarted data => keep (apply_run_started p event data index)
  | RunEventPayload.StepAttemptStarted data => apply_step_attempt_started p event data attempt_indexes
  | RunEventPayload.StepAttemptSucceeded data => keep (apply_step_attempt_succeeded p data attempt_indexes)
  | RunEventPayload.StepAttemptFailed data => keep (apply_step_attempt_failed p data attempt_indexes)
  | RunEventPayload.StepRetryScheduled data => keep (apply_step_retry_scheduled p data previous_event)
  | RunEventPayload.BranchSelected data => keep (apply_branch_selected p data)
  | RunEventPayload.ChoiceSelected data => keep (apply_choice_selected p data)
  | RunEventPayload.ForkOpened data => keep (apply_fork_opened p data)
  | RunEventPayload.ForkBranchSettled data => keep (apply_fork_branch_settled p data)
  | RunEventPayload.ForkJoinSettled data => keep (apply_fork_join_settled p data)
  | RunEventPayload.ForEachOpened data => keep (apply_for_each_opened p data)
  | RunEventPayload.ForEachIterationStarted data => keep (apply_for_each_iteration_started p event data)
  | RunEventPayload.ForEachIterationSucceeded data => keep (apply_for_each_iteration_succeeded p event data)
  | RunEventPayload.ForEachIterationFailed data => keep (apply_for_each_iteration_failed p event data)
  | RunEventPayload.ForEachIterationSkipped data => keep (apply_for_each_iteration_skipped p event data)
  | RunEventPayload.ForEachSucceeded data => keep (apply_for_each_settled p event data)
  | RunEventPayload.ForEachFailed data => keep (apply_for_each_settled p event data)
  | RunEventPayload.ForEachCancelled data => keep (apply_for_each_settled p event data)
  | RunEventPayload.ParallelGroupStarted data => keep (apply_parallel_group_started p data)
  | RunEventPayload.ParallelGroupCompleted data => keep (apply_parallel_group_completed p data)
  | RunEventPayload.WaitRegistered data => keep (apply_wait_registered p data)
  | RunEventPayload.LockWaitRegistered data => keep (apply_lock_wait_registered p data)
  | RunEventPayload.LockAcquired data => keep (apply_lock_acquired p data)
  | RunEventPayload.LockReleased data => keep (apply_lock_released p data)
  | RunEventPayload.LockAcquireTimedOut data => keep (apply_lock_acquire_timed_out p data)
  | RunEventPayload.LockAcquisitionCancelled data => keep (apply_lock_acquisition_cancelled p data)
  | RunEventPayload.LockLeaseLost data => keep (apply_lock_lease_lost p data)
  | RunEventPayload.SagaStarted data => keep (apply_saga_started p event data)
  | RunEventPayload.CompensationRegistered data =>
      keep (apply_compensation_registered p event data previous_event)
  | RunEventPayload.SagaForwardSucceeded data => keep (apply_saga_forward_succeeded p event data)
  | RunEventPayload.SagaCorrectionStarted data => keep (apply_saga_correction_started p data)
  | RunEventPayload.CorrectionAttemptStarted data => keep (apply_correction_attempt_started p event data)
  | RunEventPayload.CorrectionAttemptSucceeded data => keep (apply_correction_attempt_succeeded p data)
  | RunEventPayload.CorrectionAttemptFailed data => keep (apply_correction_attempt_failed p data)
  | RunEventPayload.CorrectionRetryScheduled data => keep (apply_correction_retry_scheduled p data)
  | RunEventPayload.CorrectionInterrupted data => keep (apply_correction_interrupted p data)
  | RunEventPayload.ManualRecoveryRequired data => keep (apply_manual_recovery_required p data)
  | RunEventPayload.SagaCorrectionCompleted data => keep (apply_saga_correction_completed p event data)
  | RunEventPayload.ExternalSignalReceived data => keep (apply_external_signal_received p data)
  | RunEventPayload.WaitSatisfied data => keep (apply_wait_satisfied p data)
  | RunEventPayload.WaitTimedOut data => keep (apply_wait_timed_out p data)
  | RunEventPayload.WaitCancelled data => keep (apply_wait_cancelled p data)
  | RunEventPayload.ApprovalRequested data => keep (apply_approval_requested p event data)
  | RunEventPayload.ApprovalReviewRequested data => keep (apply_approval_review_requested p event data)
  | RunEventPayload.ApprovalReviewerDecisionRecorded data =>
      keep (apply_approval_reviewer_decision_recorded p event data)
  | RunEventPayload.ApprovalQuorumProgressed data => keep (apply_approval_quorum_progressed p data)
  | RunEventPayload.NotificationDeliveryRequested data => keep (apply_notification_delivery_requested p data)
  | RunEventPayload.NotificationDeliveryAttemptStarted data =>
      keep (apply_notification_delivery_attempt_started p data)
  | RunEventPayload.NotificationDeliverySucceeded data => keep (apply_notification_delivery_succeeded p data)
  | RunEventPayload.NotificationDeliveryFailed data => keep (apply_notification_delivery_failed p event data)
  | RunEventPayload.NotificationDecisionAccepted data => keep (apply_notification_decision_accepted p data)
  | RunEventPayload.ApprovalResolved data => keep (apply_approval_resolved p event data)
  | RunEventPayload.ApprovalInvalidated data => keep (apply_approval_invalidated p data)
  | RunEventPayload.NotificationMessageUpdateRequested data =>
      keep (apply_notification_message_update_requested p data)
  | RunEventPayload.NotificationMessageUpdateAttemptStarted data =>
      keep (apply_notification_message_update_attempt_started p data)
  | RunEventPayload.NotificationMessageUpdated data => keep (apply_notification_message_updated p data)
  | RunEventPayload.NotificationMessageUpdateFailed data =>
      keep (apply_notification_message_update_failed p event data)
  | RunEventPayload.InfrastructurePolicyDecisionRecorded data =>
      keep (apply_infrastructure_policy_decision_recorded p data)
  | RunEventPayload.OperationStarted data => keep (apply_operation_started p data)
  | RunEventPayload.OperationSucceeded data => keep (apply_operation_succeeded p data)
  | RunEventPayload.OperationFailed data => keep (apply_operation_failed p data)
  | RunEventPayload.RunCancellationRequested data => keep (apply_run_cancellation_requested p data)
  | RunEventPayload.LifecycleHookRequested data => keep (apply_lifecycle_hook_requested p data)
  | RunEventPayload.LifecycleActionAttemptStarted data => keep (apply_lifecycle_action_attempt_started p data)
  | RunEventPayload.LifecycleActionSucceeded data => keep (apply_lifecycle_action_succeeded p data)
  | RunEventPayload.LifecycleActionFailed data => keep (apply_lifecycle_action_failed p data)
  | RunEventPayload.LifecycleHookCompleted data => keep (apply_lifecycle_hook_completed p data)
  | RunEventPayload.ReusableLifecycleRequested data => keep (apply_reusable_lifecycle_requested p data)
  | RunEventPayload.ReusableLifecycleActionStarted data => keep (apply_reusable_lifecycle_action_started p data)
  | RunEventPayload.ReusableLifecycleActionSucceeded data =>
      keep (apply_reusable_lifecycle_action_succeeded p data)
  | RunEventPayload.ReusableLifecycleActionFailed data => keep (apply_reusable_lifecycle_action_failed p data)
  | RunEventPayload.ReusableLifecycleCompleted data => keep (apply_reusable_lifecycle_completed p data)
  | RunEventPayload.RunOutcomeDecided data => keep (apply_run_outcome_decided p data)
  | RunEventPayload.RunFinalized data => keep (apply_run_finalized p data)
  | RunEventPayload.RunSucceeded data => keep (apply_run_succeeded p data)
  | RunEventPayload.RemoteDispatchTransitioned _ => keep (Ok p)
  | RunEventPayload.RunFailed data => keep (apply_run_failed p data attempt_indexes)
  end.

(** An iteration-scoped event goes to its iteration, any other to [apply_payload]. *)
Definition dispatch (s : ProjectionFoldState) (event : RunEvent) :
    fold_result (RunProjection * gmap AttemptIdentity nat) :=
  if is_some event.(RunEvent.iteration) && negb (top_level_scoped_event event.(RunEvent.payload)) then
    let? p := apply_iteration_scoped_event s.(ProjectionFoldState.projection) event s.(ProjectionFoldState.previous_event) in
    Ok (p, s.(ProjectionFoldState.attempt_indexes))
  else
    apply_payload s.(ProjectionFoldState.projection) event s.(ProjectionFoldState.projection).(RunProjection.last_sequence) s.(ProjectionFoldState.attempt_indexes) s.(ProjectionFoldState.previous_event).

(** [ProjectionFoldState::apply]. *)
Definition apply (s : ProjectionFoldState) (event : RunEvent) : fold_result ProjectionFoldState :=
  let p := s.(ProjectionFoldState.projection) in
  check map_err FoldError.InvalidEvent (validate event);
  check fail_if (event.(RunEvent.sequence) != u64_add p.(RunProjection.last_sequence) 1)
    (InvalidHistory "Expected sequence {expected_sequence}, received {}.");
  check fail_if (bool_decide (event.(RunEvent.event_id) ∈ s.(ProjectionFoldState.event_ids)))
    (InvalidHistory "Event ID {:?} appears more than once.");
  check match p.(RunProjection.run_id) with
        | Some run_id =>
            fail_if (run_id != event.(RunEvent.run_id)) (InvalidHistory "Run history mixes run IDs {:?} and {:?}.")
        | None => Ok tt
        end;
  check match p.(RunProjection.event_schema_version) with
        | Some version =>
            fail_if (version != event.(RunEvent.event_schema_version))
              (InvalidHistory "Run history mixes event schema versions {event_schema_version} and {}.")
        | None => Ok tt
        end;
  check fail_if (status_is_terminal p.(RunProjection.status))
    (InvalidHistory "A terminal run event must be the final event.");
  let? dispatched := dispatch s event in
  let '(p, attempt_indexes) := dispatched in
  Ok (ProjectionFoldState.mk (p <|RunProjection.last_sequence := event.(RunEvent.sequence)|>) ({[event.(RunEvent.event_id)]} ∪ s.(ProjectionFoldState.event_ids))
        attempt_indexes (Some event)).

(** The loop of [from_events], from an arbitrary state. *)
Fixpoint apply_all (s : ProjectionFoldState) (events : list RunEvent) : fold_result ProjectionFoldState :=
  match events with
  | [] => Ok s
  | event :: events => let? s := apply s event in apply_all s events
  end.

(** [ProjectionFoldState::from_events]. *)
Definition from_events (events : list RunEvent) : fold_result ProjectionFoldState :=
  apply_all default_state events.

(** [fold_events]. *)
Definition fold_events (events : list RunEvent) : fold_result RunProjection :=
  let? s := from_events events in Ok s.(ProjectionFoldState.projection).
End with_externals.
