(* ===== verification/FoldFrames.v ===== *)
(** * What one event may change

    The inversion of [apply], the frame of the handlers (which fields of the
    projection a payload may touch) and the induction principle for invariants
    of folded histories. *)

From S2P Require Import Prelude Strings Json EventTypes ProjectionTypes Guards FoldRun.
From S2P Require Import FoldControlFlow FoldCorrection FoldApprovals FoldOperations FoldLifecycle.
From S2P Require Import IterationFold EventIdentities EventValidation Fold.

(** Unfold one handler in [H] and invert its successful run. *)
Ltac unfold_handlers H :=
  cbv beta zeta delta
    [apply_run_admitted apply_run_execution_started apply_run_timeout_reached apply_run_started
     apply_run_cancellation_requested apply_run_succeeded apply_run_failed
     apply_step_attempt_started apply_step_attempt_succeeded apply_step_attempt_failed
     apply_step_retry_scheduled
     apply_branch_selected apply_choice_selected apply_fork_opened apply_fork_branch_settled
     apply_fork_join_settled apply_for_each_opened apply_for_each_iteration_started
     apply_for_each_iteration_succeeded apply_for_each_iteration_failed
     apply_for_each_iteration_skipped apply_for_each_settled apply_parallel_group_started
     apply_parallel_group_completed
     apply_infrastructure_policy_decision_recorded apply_operation_started
     apply_operation_succeeded apply_operation_failed
     apply_wait_registered apply_external_signal_received apply_wait_satisfied
     apply_wait_timed_out apply_wait_cancelled
     apply_lock_wait_registered apply_lock_acquired apply_lock_released
     apply_lock_acquire_timed_out apply_lock_acquisition_cancelled apply_lock_lease_lost
     apply_saga_started apply_compensation_registered apply_saga_forward_succeeded
     apply_saga_correction_started apply_correction_attempt_started
     apply_correction_attempt_succeeded apply_correction_attempt_failed
     apply_correction_retry_scheduled apply_correction_interrupted apply_manual_recovery_required
     apply_saga_correction_completed set_action
     apply_approval_requested apply_approval_review_requested
     apply_approval_reviewer_decision_recorded apply_approval_quorum_progressed
     apply_approval_resolved resolve_rich_approval resolve_basic_approval apply_approval_invalidated
     apply_notification_delivery_requested apply_notification_delivery_attempt_started
     apply_notification_delivery_succeeded apply_notification_delivery_failed
     apply_notification_decision_accepted apply_notification_message_update_requested
     apply_notification_message_update_attempt_started apply_notification_message_updated
     apply_notification_message_update_failed
     apply_lifecycle_hook_requested apply_lifecycle_action_attempt_started
     apply_lifecycle_action_succeeded apply_lifecycle_action_failed apply_lifecycle_hook_completed
     apply_reusable_lifecycle_requested apply_reusable_lifecycle_action_started
     apply_reusable_lifecycle_action_succeeded apply_reusable_lifecycle_action_failed
     apply_reusable_lifecycle_completed apply_run_outcome_decided apply_run_finalized
     require_running require_running_or_cancelling require_operation_settlement
     require_operation_runtime] in H.
Ltac invert_handler H := unfold_handlers H; invert_ok.

(** ** The payloads that may change each field *)

Section touches.
Context (payload : RunEventPayload).

Definition touches_identity : bool :=
  match payload with RunEventPayload.RunAdmitted _ | RunEventPayload.RunStarted _ => true | _ => false end.
Definition touches_status : bool :=
  match payload with
  | RunEventPayload.RunAdmitted _ | RunEventPayload.RunExecutionStarted _ | RunEventPayload.RunStarted _ | RunEventPayload.RunCancellationRequested _
  | RunEventPayload.RunSucceeded _ | RunEventPayload.RunFailed _ | RunEventPayload.RunOutcomeDecided _ | RunEventPayload.RunFinalized _
  | RunEventPayload.WaitRegistered _ | RunEventPayload.WaitSatisfied _ | RunEventPayload.WaitTimedOut _
  | RunEventPayload.LockWaitRegistered _ | RunEventPayload.LockAcquired _ | RunEventPayload.LockReleased _ | RunEventPayload.LockAcquireTimedOut _
  | RunEventPayload.LockLeaseLost _
  | RunEventPayload.ApprovalRequested _ | RunEventPayload.ApprovalReviewRequested _ | RunEventPayload.ApprovalResolved _ => true
  | _ => false
  end.
Definition touches_start : bool :=
  match payload with RunEventPayload.RunExecutionStarted _ | RunEventPayload.RunStarted _ => true | _ => false end.
Definition touches_outcome : bool :=
  match payload with
  | RunEventPayload.RunOutcomeDecided _ | RunEventPayload.RunSucceeded _ | RunEventPayload.RunFailed _ => true | _ => false end.
Definition touches_cancellation : bool :=
  match payload with RunEventPayload.RunCancellationRequested _ => true | _ => false end.
Definition touches_context : bool :=
  match payload with
  | RunEventPayload.RunAdmitted _ | RunEventPayload.RunStarted _ | RunEventPayload.StepAttemptSucceeded _ | RunEventPayload.ForEachSucceeded _
  | RunEventPayload.WaitSatisfied _ | RunEventPayload.WaitTimedOut _ | RunEventPayload.LockReleased _ | RunEventPayload.ApprovalResolved _ => true
  | _ => false
  end.
Definition touches_attempts : bool :=
  match payload with
  | RunEventPayload.StepAttemptStarted _ | RunEventPayload.StepAttemptSucceeded _ | RunEventPayload.StepAttemptFailed _ => true
  | _ => false
  end.
Definition touches_retries : bool :=
  match payload with
  | RunEventPayload.StepAttemptStarted _ | RunEventPayload.StepRetryScheduled _ | RunEventPayload.RunFailed _ => true | _ => false end.
Definition touches_operations : bool :=
  match payload with
  | RunEventPayload.OperationStarted _ | RunEventPayload.OperationSucceeded _ | RunEventPayload.OperationFailed _ => true | _ => false end.
Definition touches_branches : bool :=
  match payload with RunEventPayload.BranchSelected _ => true | _ => false end.
Definition touches_choices : bool :=
  match payload with RunEventPayload.ChoiceSelected _ => true | _ => false end.
Definition touches_parallel : bool :=
  match payload with
  | RunEventPayload.ParallelGroupStarted _ | RunEventPayload.ParallelGroupCompleted _ => true | _ => false end.
Definition touches_forks : bool :=
  match payload with
  | RunEventPayload.ForkOpened _ | RunEventPayload.ForkBranchSettled _ | RunEventPayload.ForkJoinSettled _ => true | _ => false end.
Definition touches_approvals : bool :=
  match payload with RunEventPayload.ApprovalRequested _ | RunEventPayload.ApprovalResolved _ => true | _ => false end.
Definition touches_rich_approvals : bool :=
  match payload with
  | RunEventPayload.ApprovalReviewRequested _ | RunEventPayload.ApprovalReviewerDecisionRecorded _
  | RunEventPayload.ApprovalQuorumProgressed _ | RunEventPayload.ApprovalResolved _ => true
  | _ => false
  end.
Definition touches_deliveries : bool :=
  match payload with
  | RunEventPayload.NotificationDeliveryRequested _ | RunEventPayload.NotificationDeliveryAttemptStarted _
  | RunEventPayload.NotificationDeliverySucceeded _ | RunEventPayload.NotificationDeliveryFailed _ => true
  | _ => false
  end.
Definition touches_decisions : bool :=
  match payload with RunEventPayload.NotificationDecisionAccepted _ => true | _ => false end.
Definition touches_hooks : bool :=
  match payload with
  | RunEventPayload.LifecycleHookRequested _ | RunEventPayload.LifecycleActionAttemptStarted _ | RunEventPayload.LifecycleActionSucceeded _
  | RunEventPayload.LifecycleActionFailed _ | RunEventPayload.LifecycleHookCompleted _ => true
  | _ => false
  end.
End touches.

Section with_externals.
Context `{Externals}.

(** ** Frames *)

(** The fields of [p'] that [payload] leaves as they are in [p]. *)
Record frame (payload : RunEventPayload) (p p' : RunProjection) : Prop := {
  frame_run_id : touches_identity payload = false → p'.(RunProjection.run_id) = p.(RunProjection.run_id);
  frame_version : touches_identity payload = false →
    p'.(RunProjection.event_schema_version) = p.(RunProjection.event_schema_version);
  frame_status : touches_status payload = false → p'.(RunProjection.status) = p.(RunProjection.status);
  frame_start : touches_start payload = false → p'.(RunProjection.started_at) = p.(RunProjection.started_at);
  frame_outcome : touches_outcome payload = false →
    p'.(RunProjection.business_outcome) = p.(RunProjection.business_outcome);
  frame_cancellation : touches_cancellation payload = false →
    p'.(RunProjection.cancellation_request_id) = p.(RunProjection.cancellation_request_id);
  frame_context : touches_context payload = false → p'.(RunProjection.context) = p.(RunProjection.context);
  frame_attempts : touches_attempts payload = false → p'.(RunProjection.attempts) = p.(RunProjection.attempts);
  frame_retries : touches_retries payload = false →
    p'.(RunProjection.pending_retries) = p.(RunProjection.pending_retries);
  frame_operations : touches_operations payload = false → p'.(RunProjection.operations) = p.(RunProjection.operations);
  frame_branches : touches_branches payload = false →
    p'.(RunProjection.branch_selections) = p.(RunProjection.branch_selections);
  frame_choices : touches_choices payload = false →
    p'.(RunProjection.choice_selections) = p.(RunProjection.choice_selections);
  frame_parallel : touches_parallel payload = false →
    p'.(RunProjection.parallel_groups) = p.(RunProjection.parallel_groups);
  frame_forks : touches_forks payload = false → p'.(RunProjection.forks) = p.(RunProjection.forks);
  frame_for_each : loop_event payload = false → p'.(RunProjection.for_each) = p.(RunProjection.for_each);
  frame_approvals : touches_approvals payload = false →
    p'.(RunProjection.approval_requests) = p.(RunProjection.approval_requests);
  frame_rich_approvals : touches_rich_approvals payload = false →
    p'.(RunProjection.rich_approval_requests) = p.(RunProjection.rich_approval_requests);
  frame_waits : wait_event payload = false → p'.(RunProjection.durable_waits) = p.(RunProjection.durable_waits);
  frame_signals : wait_event payload = false → p'.(RunProjection.external_signals) = p.(RunProjection.external_signals);
  frame_locks : lock_event payload = false → p'.(RunProjection.locks) = p.(RunProjection.locks);
  frame_sagas : correction_event payload = false → p'.(RunProjection.sagas) = p.(RunProjection.sagas);
  frame_deliveries : touches_deliveries payload = false →
    p'.(RunProjection.notification_deliveries) = p.(RunProjection.notification_deliveries);
  frame_decisions : touches_decisions payload = false →
    p'.(RunProjection.notification_decisions) = p.(RunProjection.notification_decisions);
  frame_hooks : touches_hooks payload = false → p'.(RunProjection.lifecycle_hooks) = p.(RunProjection.lifecycle_hooks);
  frame_reusable : reusable_event payload = false →
    p'.(RunProjection.reusable_lifecycle_hooks) = p.(RunProjection.reusable_lifecycle_hooks);
}.

(** Decide one field of one handler. *)
Ltac solve_frame := split; intros Ht; first [discriminate Ht | reflexivity | repeat case_match; reflexivity].

Lemma apply_payload_frame p event index attempt_indexes previous_event p' attempt_indexes' :
  apply_payload p event index attempt_indexes previous_event = Ok (p', attempt_indexes') →
  frame event.(RunEvent.payload) p p'.
Proof.
  unfold apply_payload. intros Ha.
  destruct (RunEvent.payload event) eqn:Hp; cbn beta iota zeta in Ha;
    invert_handler Ha; rewrite ?Hp in *; simplify_eq; solve_frame.
Qed.

(** Only [StepAttemptStarted] adds to [attempt_indexes]. *)
Lemma apply_payload_indexes p event index attempt_indexes previous_event p' attempt_indexes' :
  apply_payload p event index attempt_indexes previous_event = Ok (p', attempt_indexes') →
  (match event.(RunEvent.payload) with RunEventPayload.StepAttemptStarted _ => true | _ => false end) = false →
  attempt_indexes' = attempt_indexes.
Proof.
  unfold apply_payload. intros Ha Hs.
  destruct (RunEvent.payload event) eqn:Hp; cbn beta iota zeta in Ha; try discriminate Hs;
    apply result_bind_ok in Ha as (q & _ & Ha); by simplify_eq.
Qed.

(** What an iteration-scoped event changes: the execution of one started
    iteration of one open loop. *)
Record iteration_step (p : RunProjection) (event : RunEvent) (previous_event : option RunEvent)
    (p' : RunProjection) (scope : ForEachIterationScope) (loop : ForEachProjection)
    (execution execution' : ForEachIterationExecutionProjection) : Prop := {
  is_status : p.(RunProjection.status) = RunStatus.Running ∨ p.(RunProjection.status) = RunStatus.Cancelling;
  is_scope : event.(RunEvent.iteration) = Some scope;
  is_loop : p.(RunProjection.for_each) !! scope.(ForEachIterationScope.for_each_id) = Some loop;
  is_open : loop.(ForEachProjection.status) = ForEachStatus.Open;
  is_started : loop.(ForEachProjection.iterations) !! scope.(ForEachIterationScope.index) = Some ForEachIterationStatus.Started;
  is_execution : loop.(ForEachProjection.executions) !! scope.(ForEachIterationScope.index) = Some execution;
  is_applied : apply_to_execution execution scope event previous_event = Ok execution';
  is_result : p' = p <|RunProjection.for_each ::=
    <[scope.(ForEachIterationScope.for_each_id) := loop <|ForEachProjection.executions ::= <[scope.(ForEachIterationScope.index) := execution']> |> ]> |>;
}.

Lemma apply_iteration_scoped_event_ok p event previous_event p' :
  apply_iteration_scoped_event p event previous_event = Ok p' →
  ∃ scope loop execution execution',
    iteration_step p event previous_event p' scope loop execution execution'.
Proof.
  unfold apply_iteration_scoped_event, require_running_or_cancelling. intros Ha. invert_ok.
  simplify_guards. repeat case_match; try discriminate.
  all: repeat eexists; eauto.
Qed.

(** ** Inversion of [apply] *)

(** An iteration-scoped event, handled by its iteration. *)
Definition in_iteration (event : RunEvent) : bool :=
  is_some event.(RunEvent.iteration) && negb (top_level_scoped_event event.(RunEvent.payload)).

Record applied (s : ProjectionFoldState) (event : RunEvent) (s' : ProjectionFoldState)
    (p' : RunProjection) : Prop := {
  applied_valid : validate event = Ok tt;
  applied_sequence : event.(RunEvent.sequence) = u64_add s.(ProjectionFoldState.projection).(RunProjection.last_sequence) 1;
  applied_new : event.(RunEvent.event_id) ∉ s.(ProjectionFoldState.event_ids);
  applied_run_id : ∀ run_id, s.(ProjectionFoldState.projection).(RunProjection.run_id) = Some run_id → run_id = event.(RunEvent.run_id);
  applied_version : ∀ version,
    s.(ProjectionFoldState.projection).(RunProjection.event_schema_version) = Some version → version = event.(RunEvent.event_schema_version);
  applied_active : status_is_terminal s.(ProjectionFoldState.projection).(RunProjection.status) = false;
  applied_dispatch : dispatch s event = Ok (p', s'.(ProjectionFoldState.attempt_indexes));
  applied_projection : s'.(ProjectionFoldState.projection) = p' <|RunProjection.last_sequence := event.(RunEvent.sequence)|>;
  applied_ids : s'.(ProjectionFoldState.event_ids) = {[event.(RunEvent.event_id)]} ∪ s.(ProjectionFoldState.event_ids);
  applied_previous : s'.(ProjectionFoldState.previous_event) = Some event;
}.

Lemma apply_ok s event s' : apply s event = Ok s' → ∃ p', applied s event s' p'.
Proof.
  unfold apply. intros Ha.
  destruct s as [p ids indexes previous]; cbn [ProjectionFoldState.projection ProjectionFoldState.event_ids] in *.
  invert_ok; simplify_guards; match goal with q : RunProjection |- _ =>
    match goal with Hd : dispatch _ _ = Ok (q, _) |- _ => exists q end end.
  all: split; cbn; try done; intros; simplify_eq; done.
Qed.

(** An event outside iterations goes through [apply_payload]. *)
Lemma dispatch_top s event p' indexes' :
  dispatch s event = Ok (p', indexes') → in_iteration event = false →
  apply_payload s.(ProjectionFoldState.projection) event s.(ProjectionFoldState.projection).(RunProjection.last_sequence)
    s.(ProjectionFoldState.attempt_indexes) s.(ProjectionFoldState.previous_event) = Ok (p', indexes').
Proof. unfold dispatch, in_iteration. intros Hd Hi. by rewrite Hi in Hd. Qed.

Lemma dispatch_iteration s event p' indexes' :
  dispatch s event = Ok (p', indexes') → in_iteration event = true →
  apply_iteration_scoped_event s.(ProjectionFoldState.projection) event s.(ProjectionFoldState.previous_event) = Ok p'
  ∧ indexes' = s.(ProjectionFoldState.attempt_indexes).
Proof. unfold dispatch, in_iteration. intros Hd Hi. rewrite Hi in Hd. by invert_ok; simplify_eq. Qed.

(** The payloads an iteration handles. *)
Definition iteration_payload (payload : RunEventPayload) : bool :=
  touches_attempts payload || touches_operations payload || touches_branches payload
  || touches_choices payload || touches_parallel payload || lock_event payload
  || touches_hooks payload || reusable_event payload
  || match payload with RunEventPayload.StepRetryScheduled _ => true | _ => false end.

Lemma iteration_payload_ok s event s' :
  apply s event = Ok s' → in_iteration event = true → iteration_payload event.(RunEvent.payload) = true.
Proof.
  intros [p' Ha]%apply_ok Hi.
  destruct (dispatch_iteration _ _ _ _ (applied_dispatch _ _ _ _ Ha) Hi) as [Hd _].
  apply apply_iteration_scoped_event_ok in Hd as (? & ? & e & ? & [? ? ? ? ? ? Hap ?]).
  unfold apply_to_execution in Hap. by destruct (RunEvent.payload event).
Qed.

(** The frame of one applied event.  An iteration-scoped event only changes
    [for_each]. *)
Lemma dispatch_frame s event p' indexes' :
  dispatch s event = Ok (p', indexes') →
  frame event.(RunEvent.payload) s.(ProjectionFoldState.projection) p'
  ∨ (in_iteration event = true ∧ indexes' = s.(ProjectionFoldState.attempt_indexes)
     ∧ ∃ for_each, p' = s.(ProjectionFoldState.projection) <|RunProjection.for_each := for_each|>).
Proof.
  intros Hd. destruct (in_iteration event) eqn:Hi.
  - right. apply dispatch_iteration in Hd as [Hd ->]; [|done].
    apply apply_iteration_scoped_event_ok in Hd as (? & ? & ? & ? & [? ? ? ? ? ? ? ->]).
    split_and!; [done..|]. by eexists.
  - left. by eapply apply_payload_frame, dispatch_top.
Qed.

(** ** Histories *)

Lemma apply_all_app s events events' :
  apply_all s (events ++ events') = let? s' := apply_all s events in apply_all s' events'.
Proof.
  revert s. induction events as [|event events IH]; intros s; [done|]. simpl.
  destruct (apply s event); simpl; [apply IH|done..].
Qed.

Lemma from_events_snoc events event s' :
  from_events (events ++ [event]) = Ok s' ↔
  ∃ s, from_events events = Ok s ∧ apply s event = Ok s'.
Proof.
  unfold from_events. rewrite apply_all_app, result_bind_ok. simpl.
  split; intros (s & Hs & Ha); exists s; split; try done.
  - by apply result_bind_ok in Ha as (? & ? & ?); simplify_eq.
  - by rewrite Ha.
Qed.

(** A state that some history folds to. *)
Definition reachable (s : ProjectionFoldState) : Prop := ∃ events, from_events events = Ok s.

(** A property of the fold state that holds initially and that every applied
    event preserves. *)
Class Invariant (P : ProjectionFoldState → Prop) : Prop := {
  invariant_default : P default_state;
  invariant_apply : ∀ s event s',
    reachable s → P s → apply s event = Ok s' → P s';
}.

Lemma invariant_holds P `{!Invariant P} s : reachable s → P s.
Proof.
  intros [events Hs]. revert s Hs.
  induction events as [|event events IH] using rev_ind; intros s Hs.
  - apply Ok_inj in Hs as <-. apply invariant_default.
  - apply from_events_snoc in Hs as (s0 & Hs0 & Ha).
    eapply invariant_apply; [by exists events|by apply IH|done].
Qed.

(** Invariants are closed under conjunction. *)
#[global] Instance invariant_and P Q `{!Invariant P, !Invariant Q} : Invariant (λ s, P s ∧ Q s).
Proof.
  split; [by split; apply invariant_default|].
  intros s event s' Hr [HP HQ] Ha. split; by eapply invariant_apply.
Qed.

Lemma reachable_step s event s' : reachable s → apply s event = Ok s' → reachable s'.
Proof. intros [events Hs] Ha. exists (events ++ [event]). apply from_events_snoc. eauto. Qed.

(** ** Invariants of one field *)

(** A field of the projection with the payloads that may change it. *)
Class FrameField {A} (f : RunProjection → A) (touches : RunEventPayload → bool) : Prop := {
  field_for_each : ∀ p for_each, f (p <|RunProjection.for_each := for_each|>) = f p;
  field_last_sequence : ∀ p n, f (p <|RunProjection.last_sequence := n|>) = f p;
  field_frame : ∀ payload p p', frame payload p p' → touches payload = false → f p' = f p;
}.

Lemma apply_field {A} (f : RunProjection → A) touches `{!FrameField f touches} s event s' p' :
  applied s event s' p' → f s'.(ProjectionFoldState.projection) = f p'.
Proof. intros Ha. by rewrite (applied_projection _ _ _ _ Ha), field_last_sequence. Qed.

(** An event that does not touch the field, or belongs to an iteration, keeps it. *)
Lemma apply_untouched {A} (f : RunProjection → A) touches `{!FrameField f touches} s event s' :
  apply s event = Ok s' →
  touches event.(RunEvent.payload) && negb (in_iteration event) = false →
  f s'.(ProjectionFoldState.projection) = f s.(ProjectionFoldState.projection).
Proof.
  intros [p' Ha]%apply_ok Ht. rewrite (apply_field f touches _ _ _ _ Ha).
  destruct (in_iteration event) eqn:Hi.
  - destruct (dispatch_iteration _ _ _ _ (applied_dispatch _ _ _ _ Ha) Hi) as [Hd _].
    apply apply_iteration_scoped_event_ok in Hd as (? & ? & ? & ? & [? ? ? ? ? ? ? ->]).
    apply field_for_each.
  - rewrite andb_true_r in Ht.
    pose proof (dispatch_top _ _ _ _ (applied_dispatch _ _ _ _ Ha) Hi) as Hd.
    eapply field_frame; [by eapply apply_payload_frame|done].
Qed.

(** To show that a relation between the old and the new value of a field holds
    across every event, look at the events that touch the field. *)
Lemma apply_field_step {A} (f : RunProjection → A) touches `{!FrameField f touches}
    (R : A → A → Prop) `{!Reflexive R} s event s' :
  apply s event = Ok s' →
  (∀ p', validate event = Ok tt →
     touches event.(RunEvent.payload) = true → in_iteration event = false →
     apply_payload s.(ProjectionFoldState.projection) event s.(ProjectionFoldState.projection).(RunProjection.last_sequence)
       s.(ProjectionFoldState.attempt_indexes) s.(ProjectionFoldState.previous_event) = Ok (p', s'.(ProjectionFoldState.attempt_indexes)) →
     R (f s.(ProjectionFoldState.projection)) (f p')) →
  R (f s.(ProjectionFoldState.projection)) (f s'.(ProjectionFoldState.projection)).
Proof.
  intros Happ Hstep.
  destruct (touches event.(RunEvent.payload) && negb (in_iteration event)) eqn:Ht.
  - apply andb_true_iff in Ht as [Ht Hi%negb_true_iff].
    destruct (apply_ok _ _ _ Happ) as [p' Ha]. rewrite (apply_field f touches _ _ _ _ Ha).
    apply Hstep; [apply Ha|done|done|]. apply dispatch_top; [apply Ha|done].
  - by rewrite (apply_untouched f touches _ _ _ Happ Ht).
Qed.

(** An invariant of one field, proved on the handlers that touch it. *)
Lemma field_invariant {A} (f : RunProjection → A) touches `{!FrameField f touches} (P : A → Prop) :
  P (f default_projection) →
  (∀ s event p' indexes', reachable s → P (f s.(ProjectionFoldState.projection)) →
     validate event = Ok tt → touches event.(RunEvent.payload) = true → in_iteration event = false →
     apply_payload s.(ProjectionFoldState.projection) event s.(ProjectionFoldState.projection).(RunProjection.last_sequence)
       s.(ProjectionFoldState.attempt_indexes) s.(ProjectionFoldState.previous_event) = Ok (p', indexes') →
     P (f p')) →
  Invariant (λ s, P (f s.(ProjectionFoldState.projection))).
Proof.
  intros Hdefault Hstep. split; [done|]. intros s event s' Hr HP Happ.
  assert (Hrefl : Reflexive (λ a b, P a → P b)) by by intros ?.
  refine (apply_field_step f touches (λ a b, P a → P b) s event s' Happ _ HP).
  intros p' Hv Ht Hi Hap HP'. by eapply Hstep.
Qed.

Ltac solve_frame_field := split; [reflexivity|reflexivity|intros ? ? ? [] Ht; auto].

#[global] Instance frame_field_run_id : FrameField RunProjection.run_id touches_identity.
Proof. solve_frame_field. Qed.
#[global] Instance frame_field_version : FrameField RunProjection.event_schema_version touches_identity.
Proof. solve_frame_field. Qed.
#[global] Instance frame_field_status : FrameField RunProjection.status touches_status.
Proof. solve_frame_field. Qed.
#[global] Instance frame_field_start : FrameField RunProjection.started_at touches_start.
Proof. solve_frame_field. Qed.
#[global] Instance frame_field_outcome : FrameField RunProjection.business_outcome touches_outcome.
Proof. solve_frame_field. Qed.
#[global] Instance frame_field_cancellation :
  FrameField RunProjection.cancellation_request_id touches_cancellation.
Proof. solve_frame_field. Qed.
#[global] Instance frame_field_context : FrameField RunProjection.context touches_context.
Proof. solve_frame_field. Qed.
#[global] Instance frame_field_attempts : FrameField RunProjection.attempts touches_attempts.
Proof. solve_frame_field. Qed.
#[global] Instance frame_field_retries : FrameField RunProjection.pending_retries touches_retries.
Proof. solve_frame_field. Qed.
#[global] Instance frame_field_operations : FrameField RunProjection.operations touches_operations.
Proof. solve_frame_field. Qed.
#[global] Instance frame_field_branches : FrameField RunProjection.branch_selections touches_branches.
Proof. solve_frame_field. Qed.
#[global] Instance frame_field_choices : FrameField RunProjection.choice_selections touches_choices.
Proof. solve_frame_field. Qed.
#[global] Instance frame_field_parallel : FrameField RunProjection.parallel_groups touches_parallel.
Proof. solve_frame_field. Qed.
#[global] Instance frame_field_forks : FrameField RunProjection.forks touches_forks.
Proof. solve_frame_field. Qed.
#[global] Instance frame_field_approvals : FrameField RunProjection.approval_requests touches_approvals.
Proof. solve_frame_field. Qed.
#[global] Instance frame_field_rich : FrameField RunProjection.rich_approval_requests touches_rich_approvals.
Proof. solve_frame_field. Qed.
#[global] Instance frame_field_waits : FrameField RunProjection.durable_waits wait_event.
Proof. solve_frame_field. Qed.
#[global] Instance frame_field_signals : FrameField RunProjection.external_signals wait_event.
Proof. solve_frame_field. Qed.
#[global] Instance frame_field_locks : FrameField RunProjection.locks lock_event.
Proof. solve_frame_field. Qed.
#[global] Instance frame_field_sagas : FrameField RunProjection.sagas correction_event.
Proof. solve_frame_field. Qed.
#[global] Instance frame_field_deliveries :
  FrameField RunProjection.notification_deliveries touches_deliveries.
Proof. solve_frame_field. Qed.
#[global] Instance frame_field_decisions : FrameField RunProjection.notification_decisions touches_decisions.
Proof. solve_frame_field. Qed.
#[global] Instance frame_field_hooks : FrameField RunProjection.lifecycle_hooks touches_hooks.
Proof. solve_frame_field. Qed.
#[global] Instance frame_field_reusable : FrameField RunProjection.reusable_lifecycle_hooks reusable_event.
Proof. solve_frame_field. Qed.
End with_externals.

#[export] Hint Resolve reachable_step : woml.
