(* ===== verification/ValidationProperties.v ===== *)
(** * Properties of event validation

    [RunEvent::validate] terminates, never panics, and equals a closed form in which
    every payload is checked under one effective schema version; each payload is
    confined to a window of schema versions. *)

From S2P Require Import Prelude Strings Json EventTypes Guards FoldApprovals EventIdentities.
From S2P Require Import EventValidation.

Section with_externals.
Context `{Externals}.

(** ** Termination *)

(** An inherited event differs in its version, which is one lower, and possibly
    in its iteration scope. *)
Lemma validate_head_inherited event event' :
  validate_head event = Inherited event' →
  event.(RunEvent.event_schema_version) = (event'.(RunEvent.event_schema_version) + 1)%N
  ∧ (event.(RunEvent.event_schema_version) ≤ 20)%N.
Proof.
  unfold validate_head, inherit, in_range. intros Hh.
  repeat case_match; try discriminate; injection Hh as <-; cbn; simplify_guards; lia.
Qed.

Lemma validate_fuel_enough fuel fuel' event :
  (event.(RunEvent.event_schema_version) < N.of_nat fuel)%N → fuel ≤ fuel' →
  validate_fuel fuel event = validate_fuel fuel' event.
Proof.
  revert fuel' event. induction fuel as [|fuel IH]; intros fuel' event Hf Hle; [lia|].
  destruct fuel' as [|fuel']; [lia|]. simpl.
  destruct (validate_head event) eqn:Hh; [done|].
  apply validate_head_inherited in Hh. apply IH; lia.
Qed.

(** The bounded unrolling satisfies the recursive equation of the source. *)
Lemma validate_equation event :
  validate event =
    match validate_head event with
    | Return r => r
    | Inherited event' => validate event'
    end.
Proof.
  unfold validate. simpl.
  destruct (validate_head event) as [|event'] eqn:Hh; [done|].
  apply validate_head_inherited in Hh. apply (validate_fuel_enough 20 21); lia.
Qed.

(** ** The closed form *)

(** The schema version that introduced the contract of a payload: 11 stands for
    the common base of the versions from 12 on. *)
Definition owner (payload : RunEventPayload) : N :=
  if remote_dispatch_event payload then 20
  else if rich_approval_event payload then 19
  else if correction_event payload then 18
  else if lock_event payload then 17
  else if wait_event payload then 16
  else if loop_event payload then 15
  else if reusable_event payload then 13
  else if fork_event payload then 12
  else 11.

(** The version under which the payload of an event is checked. *)
Definition effective_version (payload : RunEventPayload) (version : N) : N :=
  if (version <=? 11)%N then version
  else if (owner payload <=? version)%N then owner payload
  else 11.

Definition header_ok (event : RunEvent) : Prop :=
  in_range 1 20 event.(RunEvent.event_schema_version) = true
  ∧ valid_id event.(RunEvent.event_id) = true ∧ valid_id event.(RunEvent.run_id) = true ∧ event.(RunEvent.sequence) ≠ 0%N.

(** The iteration scope, if any, is allowed for the payload and the version. *)
Definition scope_ok (event : RunEvent) : bool :=
  let payload := event.(RunEvent.payload) in
  let version := event.(RunEvent.event_schema_version) in
  is_none event.(RunEvent.iteration)
  || ((15 <=? version)%N && loop_event payload)
  || ((18 <=? version)%N && is_compensation_registered payload)
  || (negb (invalid_scope event)
      && (((15 <=? version)%N && scoped_work payload)
          || ((16 <=? version)%N && wait_event payload)
          || ((17 <=? version)%N && lock_event payload)
          || ((20 <=? version)%N && remote_dispatch_event payload))).

(** The groups of payloads are disjoint, so the owner identifies the group. *)
Lemma owner_groups payload :
  let o := owner payload in
  remote_dispatch_event payload = (o == 20%N) ∧ rich_approval_event payload = (o == 19%N)
  ∧ correction_event payload = (o == 18%N) ∧ lock_event payload = (o == 17%N)
  ∧ wait_event payload = (o == 16%N) ∧ loop_event payload = (o == 15%N)
  ∧ reusable_event payload = (o == 13%N) ∧ fork_event payload = (o == 12%N)
  ∧ (is_compensation_registered payload = true → o = 18%N)
  ∧ (scoped_work payload = true → (o ≤ 13)%N) ∧ o ≠ 14%N ∧ (11 ≤ o ≤ 20)%N.
Proof.
  destruct payload; cbn; try (split_and!; (done || lia)).
  unfold owner; cbn. destruct (is_rich data); cbn; split_and!; (done || lia).
Qed.

Lemma validate_payload_iteration event iteration :
  loop_event event.(RunEvent.payload) = false →
  validate_payload (event <|RunEvent.iteration := iteration|>) = validate_payload event.
Proof. destruct event as [? ? ? ? ? ? []]; intros Hl; (discriminate Hl || reflexivity). Qed.

(** The closed form: the event is well formed and its payload meets the contract of
    the effective version. *)
Definition checked (event : RunEvent) : Prop :=
  header_ok event ∧ scope_ok event = true
  ∧ validate_payload (event <| RunEvent.event_schema_version :=
       effective_version event.(RunEvent.payload) event.(RunEvent.event_schema_version) |>) = Ok tt.

Ltac groups payload :=
  let G := fresh in
  pose proof (owner_groups payload) as G; cbv zeta in G;
  destruct G as (Gremote & Grich & Gcorrection & Glock & Gwait & Gloop & Greusable & Gfork
                 & Gcomp & Gwork & G14 & G11 & G20).


(** Evaluate the closed equality tests of the goal. *)
Ltac eval_eqs :=
  repeat match goal with
  | |- context [bool_decide (?a = ?b)] =>
      let r := eval vm_compute in (bool_decide (a = b)) in
      lazymatch r with
      | true => change (bool_decide (a = b)) with true
      | false => change (bool_decide (a = b)) with false
      end
  end.

Lemma in_range_cases v : in_range 1 20 v = true →
  (v = 1 ∨ v = 2 ∨ v = 3 ∨ v = 4 ∨ v = 5 ∨ v = 6 ∨ v = 7 ∨ v = 8 ∨ v = 9 ∨ v = 10 ∨ v = 11 ∨ v = 12
   ∨ v = 13 ∨ v = 14 ∨ v = 15 ∨ v = 16 ∨ v = 17 ∨ v = 18 ∨ v = 19 ∨ v = 20)%N.
Proof. unfold in_range. rewrite andb_true_iff, !N.leb_le. lia. Qed.


Lemma owner_values payload :
  (owner payload = 11 ∨ owner payload = 12 ∨ owner payload = 13 ∨ owner payload = 15
   ∨ owner payload = 16 ∨ owner payload = 17 ∨ owner payload = 18 ∨ owner payload = 19
   ∨ owner payload = 20)%N.
Proof. pose proof (owner_groups payload) as G; cbv zeta in G. lia. Qed.

(** Unfold one unrolling of [validate] and the closed form of an event that passes the header
    checks; the other events are rejected by both. *)
Ltac head_cbn := cbn -[in_range bool_decide validate_payload].
Ltac split_header v id run seq Hseq :=
  unfold validate_head, inherit, checked, header_ok, scope_ok, effective_version, invalid_scope;
  head_cbn;
  destruct (in_range 1 20 v) eqn:Hv; head_cbn; [|split; [done|naive_solver] ];
  destruct (valid_id id) eqn:Hid; head_cbn; [|split; [done|naive_solver] ];
  destruct (valid_id run) eqn:Hrun; head_cbn; [|split; [done|naive_solver] ];
  destruct (decide (seq = 0%N)) as [->|Hseq];
    [rewrite bool_decide_eq_true_2 by done; split; [done|naive_solver]|];
  rewrite (bool_decide_eq_false_2 (seq = 0%N)) by done.

(** Versions up to 11 own their payload checks. *)
Lemma validate_head_low event :
  (event.(RunEvent.event_schema_version) ≤ 11)%N →
  match validate_head event with
  | Return r => (r = Ok tt ↔ checked event)
  | Inherited event' => (checked event' ↔ checked event)
  end.
Proof.
  destruct event as [v id run seq at_ it payload]. intros Hlow. simpl in Hlow.
  split_header v id run seq Hseq. rewrite !(bool_decide_eq_false_2 (v = _)) by lia.
  assert (in_range 15 18 v = false) as -> by (apply andb_false_iff; left; apply N.leb_gt; lia).
  rewrite (proj2 (N.leb_le v 11)) by done.
  destruct it as [scope|]; cbn -[bool_decide validate_payload].
  all: rewrite ?(proj2 (N.leb_gt _ v)) by lia; cbn -[bool_decide validate_payload]; rewrite ?andb_false_r.
  all: naive_solver.
Qed.

Lemma validate_head_checked event :
  match validate_head event with
  | Return r => (r = Ok tt ↔ checked event)
  | Inherited event' => (checked event' ↔ checked event)
  end.
Proof.
  destruct (decide (event.(RunEvent.event_schema_version) ≤ 11)%N) as [Hlow|Hhigh]; [by apply validate_head_low|].
  destruct event as [v id run seq at_ it payload]. simpl in Hhigh. groups payload.
  assert (Hit : ∀ version i, loop_event payload = false →
    validate_payload (RunEvent.mk version id run seq at_ (Some i) payload)
    = validate_payload (RunEvent.mk version id run seq at_ None payload)).
  { intros version i Hl. by apply (validate_payload_iteration (RunEvent.mk version id run seq at_ None payload)). }
  split_header v id run seq Hseq.
  assert (Hw : scoped_work payload = false ∨ (owner payload ≤ 13)%N) by (destruct (scoped_work payload); auto).
  assert (Hc : is_compensation_registered payload = false ∨ owner payload = 18%N) by (destruct (is_compensation_registered payload); auto).
  rewrite ?Gremote, ?Grich, ?Gcorrection, ?Glock, ?Gwait, ?Gloop, ?Greusable, ?Gfork.
  clear Gcomp Gwork.
  destruct (owner_values payload) as [Ho|[Ho|[Ho|[Ho|[Ho|[Ho|[Ho|[Ho|Ho]]]]]]]]; rewrite Ho in Gremote, Grich, Gcorrection, Glock, Gwait, Gloop, Greusable, Gfork |- *.
  all: destruct it as [[fe ix]|]; cbn -[in_range bool_decide validate_payload].
  all: try (destruct (negb (valid_public_structural_id fe) || (10000 <=? ix)%N) eqn:Hb).
  all: apply in_range_cases in Hv; destruct Hv as [->|[->|[->|[->|[->|[->|[->|[->|[->|[->|[->|[->|[->|[->|[->|[->|[->|[->|[->| ->]]]]]]]]]]]]]]]]]]]; try (exfalso; clear -Hhigh; lia).
  all: eval_eqs; cbn -[bool_decide validate_payload].
  all: try (destruct Hw as [->|Hw]; [|exfalso; clear -Ho Hw; lia]).
  all: try (destruct Hc as [->|Hc]; [|exfalso; clear -Ho Hc; lia]).
  all: repeat match goal with
       | |- context [scoped_work ?x] => destruct (scoped_work x)
       | |- context [is_compensation_registered ?x] => destruct (is_compensation_registered x)
       end.
  all: unfold set_field, RunEvent.set_event_schema_version, RunEvent.set_iteration;
    cbn -[validate_payload bool_decide].
  all: rewrite ?Ho, ?Hid, ?Hrun, ?Gremote, ?Grich, ?Gcorrection, ?Glock, ?Gwait, ?Gloop, ?Greusable,
    ?Gfork; eval_eqs; try rewrite Hb; cbn -[validate_payload bool_decide].
  all: try rewrite !Hit by done.
  all: clear -Hseq; first [tauto | intuition congruence].
Qed.

Lemma validate_checked event : validate event = Ok tt ↔ checked event.
Proof.
  remember (N.to_nat event.(RunEvent.event_schema_version)) as n eqn:Hn.
  revert event Hn. induction n as [n IH] using lt_wf_ind. intros event ->.
  rewrite validate_equation. pose proof (validate_head_checked event) as Hs.
  destruct (validate_head event) as [r|event'] eqn:Hh; [done|].
  apply validate_head_inherited in Hh. rewrite <-Hs. eapply IH; [|done]. lia.
Qed.
End with_externals.

(** The versions in which a payload may be accepted. *)
Definition schema_window (payload : RunEventPayload) : N * N :=
  match payload with
  | RunEventPayload.RunAdmitted _ | RunEventPayload.RunExecutionStarted _ | RunEventPayload.RunTimeoutReached _ => (11, 20)
  | RunEventPayload.RunStarted _ => (1, 10)
  | RunEventPayload.StepAttemptStarted _ | RunEventPayload.StepAttemptSucceeded _ | RunEventPayload.StepAttemptFailed _
  | RunEventPayload.InfrastructurePolicyDecisionRecorded _ => (1, 20)
  | RunEventPayload.StepRetryScheduled _ => (6, 20)
  | RunEventPayload.BranchSelected _ => (2, 20)
  | RunEventPayload.ChoiceSelected _ | RunEventPayload.ForkOpened _ | RunEventPayload.ForkBranchSettled _ | RunEventPayload.ForkJoinSettled _ => (12, 20)
  | RunEventPayload.ParallelGroupStarted _ | RunEventPayload.ParallelGroupCompleted _ => (3, 20)
  | RunEventPayload.ApprovalRequested _ => (4, 20)
  | RunEventPayload.ApprovalResolved data => if is_rich data then (19, 20) else (4, 20)
  | RunEventPayload.ApprovalReviewRequested _ | RunEventPayload.ApprovalReviewerDecisionRecorded _
  | RunEventPayload.ApprovalQuorumProgressed _ | RunEventPayload.ApprovalInvalidated _ => (19, 20)
  | RunEventPayload.NotificationDeliveryRequested _ | RunEventPayload.NotificationDeliveryAttemptStarted _
  | RunEventPayload.NotificationDeliverySucceeded _ | RunEventPayload.NotificationDeliveryFailed _
  | RunEventPayload.NotificationDecisionAccepted _ | RunEventPayload.NotificationMessageUpdateRequested _
  | RunEventPayload.NotificationMessageUpdateAttemptStarted _ | RunEventPayload.NotificationMessageUpdated _
  | RunEventPayload.NotificationMessageUpdateFailed _ => (5, 20)
  | RunEventPayload.RemoteDispatchTransitioned _ => (20, 20)
  | RunEventPayload.OperationStarted _ | RunEventPayload.OperationSucceeded _ | RunEventPayload.OperationFailed _ => (8, 20)
  | RunEventPayload.RunCancellationRequested _ | RunEventPayload.LifecycleHookRequested _ | RunEventPayload.LifecycleActionAttemptStarted _
  | RunEventPayload.LifecycleActionSucceeded _ | RunEventPayload.LifecycleActionFailed _ | RunEventPayload.LifecycleHookCompleted _
  | RunEventPayload.RunOutcomeDecided _ | RunEventPayload.RunFinalized _ => (10, 20)
  | RunEventPayload.ReusableLifecycleRequested _ | RunEventPayload.ReusableLifecycleActionStarted _
  | RunEventPayload.ReusableLifecycleActionSucceeded _ | RunEventPayload.ReusableLifecycleActionFailed _
  | RunEventPayload.ReusableLifecycleCompleted _ => (13, 20)
  | RunEventPayload.ForEachOpened _ | RunEventPayload.ForEachIterationStarted _ | RunEventPayload.ForEachIterationSucceeded _
  | RunEventPayload.ForEachIterationFailed _ | RunEventPayload.ForEachIterationSkipped _ | RunEventPayload.ForEachSucceeded _
  | RunEventPayload.ForEachFailed _ | RunEventPayload.ForEachCancelled _ => (15, 20)
  | RunEventPayload.WaitRegistered _ | RunEventPayload.ExternalSignalReceived _ | RunEventPayload.WaitSatisfied _ | RunEventPayload.WaitTimedOut _
  | RunEventPayload.WaitCancelled _ => (16, 20)
  | RunEventPayload.LockWaitRegistered _ | RunEventPayload.LockAcquired _ | RunEventPayload.LockReleased _ | RunEventPayload.LockAcquireTimedOut _
  | RunEventPayload.LockAcquisitionCancelled _ | RunEventPayload.LockLeaseLost _ => (17, 20)
  | RunEventPayload.SagaStarted _ | RunEventPayload.CompensationRegistered _ | RunEventPayload.SagaForwardSucceeded _
  | RunEventPayload.SagaCorrectionStarted _ | RunEventPayload.CorrectionAttemptStarted _ | RunEventPayload.CorrectionAttemptSucceeded _
  | RunEventPayload.CorrectionAttemptFailed _ | RunEventPayload.CorrectionRetryScheduled _ | RunEventPayload.CorrectionInterrupted _
  | RunEventPayload.SagaCorrectionCompleted _ | RunEventPayload.ManualRecoveryRequired _ => (18, 20)
  | RunEventPayload.RunSucceeded _ => (1, 9)
  | RunEventPayload.RunFailed data =>
      match data with
      | RunFailedData.V1 _ => (1, 1)
      | RunFailedData.V2 _ => (2, 9)
      | RunFailedData.V3 _ => (3, 9)
      | RunFailedData.V4 _ => (4, 9)
      | RunFailedData.V5 _ => (5, 9)
      end
  end%N.

Ltac unfold_contracts H :=
  cbv beta zeta delta
    [validate_remote_dispatch_transitioned validate_run_admitted validate_run_execution_started
     validate_run_timeout_reached validate_run_started validate_step_attempt_started
     validate_step_attempt_succeeded validate_step_attempt_failed validate_step_retry_scheduled
     validate_branch_selected validate_choice_selected validate_fork_opened
     validate_fork_branch_settled validate_fork_join_settled validate_parallel_group_started
     validate_parallel_group_completed validate_approval_requested validate_rich_approval_resolved
     validate_basic_approval_resolved validate_approval_resolved validate_approval_review_requested
     validate_approval_reviewer_decision_recorded validate_approval_quorum_progressed
     validate_approval_invalidated validate_notification_delivery_requested
     validate_notification_delivery_attempt_started validate_notification_delivery_succeeded
     validate_notification_delivery_failed validate_notification_decision_accepted
     validate_notification_message_update_requested validate_notification_message_update_attempt
     validate_notification_message_update_failed validate_infrastructure_policy_decision_recorded
     validate_operation_started validate_operation_succeeded validate_operation_failed
     validate_operation_base validate_run_cancellation_requested validate_lifecycle_hook_requested
     validate_lifecycle_action validate_lifecycle_action_failed validate_lifecycle_hook_completed
     validate_reusable_lifecycle_requested validate_reusable_lifecycle_action_started
     validate_reusable_lifecycle_action_succeeded validate_reusable_lifecycle_action_failed
     validate_reusable_lifecycle_completed validate_for_each_opened
     validate_for_each_iteration_succeeded validate_for_each_iteration_failed
     validate_for_each_iteration_event validate_for_each_settled validate_wait_registered
     validate_external_signal_received validate_wait_satisfied validate_wait_timed_out
     validate_wait_cancelled validate_lock_wait_registered validate_lock_acquired
     validate_lock_released validate_lock_acquire_timed_out validate_lock_acquisition_cancelled
     validate_lock_lease_lost validate_saga_identity validate_compensation_registered
     validate_saga_correction_started validate_correction_attempt
     validate_correction_attempt_failed validate_correction_retry_scheduled
     validate_correction_interrupted validate_manual_recovery_required
     validate_run_outcome_decided validate_run_finalized validate_run_succeeded
     validate_run_failed validate_run_failed_v1 validate_run_failed_branch
     validate_run_failed_parallel validate_run_failed_approval validate_run_failed_notification
     validate_identity validate_notification_identity in_range] in H.

Section with_externals.
Context `{Externals}.

(** ** Consequences of acceptance *)

Lemma validate_header event : validate event = Ok tt → header_ok event.
Proof. intros Hv. by apply validate_checked in Hv as [? _]. Qed.

(** The payload of an accepted event meets its contract at the effective version. *)
Lemma validate_contract event :
  validate event = Ok tt →
  validate_payload (event <|RunEvent.event_schema_version :=
    effective_version event.(RunEvent.payload) event.(RunEvent.event_schema_version)|>) = Ok tt.
Proof. intros Hv. by apply validate_checked in Hv as (_ & _ & ?). Qed.

Lemma effective_version_bounds payload version :
  (effective_version payload version ≤ version)%N
  ∧ (effective_version payload version = version ∨ (11 ≤ effective_version payload version)%N).
Proof.
  pose proof (owner_groups payload) as G. cbv zeta in G.
  unfold effective_version. destruct (N.leb_spec version 11); [lia|].
  destruct (N.leb_spec (owner payload) version); lia.
Qed.

(** The same, as a fact about an event that differs in its version only. *)
Lemma validate_contract_at event :
  validate event = Ok tt →
  ∃ event', validate_payload event' = Ok tt
    ∧ event'.(RunEvent.payload) = event.(RunEvent.payload)
    ∧ event'.(RunEvent.iteration) = event.(RunEvent.iteration)
    ∧ event'.(RunEvent.occurred_at) = event.(RunEvent.occurred_at)
    ∧ (event'.(RunEvent.event_schema_version) ≤ event.(RunEvent.event_schema_version))%N
    ∧ (event'.(RunEvent.event_schema_version) = event.(RunEvent.event_schema_version)
       ∨ (11 ≤ event'.(RunEvent.event_schema_version))%N).
Proof.
  intros Hv. eexists. split_and!; [by apply validate_contract|reflexivity..| |].
  all: apply effective_version_bounds.
Qed.

Lemma validate_payload_no_panic event : no_panic (validate_payload event).
Proof.
  unfold validate_payload. destruct (RunEvent.payload event); solve_no_panic.
Qed.

Lemma validate_no_panic event : no_panic (validate event).
Proof.
  unfold validate. remember 21 as fuel eqn:Hf.
  assert (event.(RunEvent.event_schema_version) < N.of_nat fuel ∨ 20 < event.(RunEvent.event_schema_version))%N
    as Hv by lia.
  assert (fuel ≠ 0) as H0 by lia. clear Hf.
  revert event Hv. induction fuel as [|fuel IH]; intros event Hv; [done|]. simpl.
  destruct (validate_head event) as [r|event'] eqn:Hh.
  - unfold validate_head, inherit in Hh. pose proof (validate_payload_no_panic event).
    repeat case_match; try discriminate; simplify_eq; auto with woml.
  - apply validate_head_inherited in Hh. apply IH; lia.
Qed.

(** An accepted payload with an iteration-level contract carries a scope for its loop. *)
Lemma validate_iteration_scope event for_each_id :
  validate_for_each_iteration_event event for_each_id = Ok tt →
  ∃ scope, event.(RunEvent.iteration) = Some scope
    ∧ scope.(ForEachIterationScope.for_each_id) = for_each_id
    ∧ (scope.(ForEachIterationScope.index) < 10000)%N.
Proof.
  unfold validate_for_each_iteration_event. intros Hv. invert_ok. simplify_guards.
  eexists. by split_and!.
Qed.


(** The schema version lies in the payload's window. *)
Lemma validate_window event :
  validate event = Ok tt →
  ((schema_window event.(RunEvent.payload)).1 ≤ event.(RunEvent.event_schema_version)
   ≤ (schema_window event.(RunEvent.payload)).2)%N.
Proof.
  intros Hv. pose proof (validate_header _ Hv) as (Hr & _). apply validate_contract in Hv.
  apply andb_true_iff in Hr as [Hr1%N.leb_le Hr2%N.leb_le].
  destruct event as [v id run seq at_ it payload].
  unfold set_field, RunEvent.set_event_schema_version in Hv. cbn [RunEvent.payload RunEvent.event_schema_version] in *.
  pose proof (owner_groups payload) as G; cbv zeta in G.
  assert (Heff : effective_version payload v = v ∧ (v ≤ 11)%N
    ∨ effective_version payload v = owner payload ∧ (12 ≤ v)%N ∧ (owner payload ≤ v)%N
    ∨ effective_version payload v = 11%N ∧ (12 ≤ v)%N).
  { unfold effective_version. destruct (N.leb_spec v 11); [lia|].
    destruct (N.leb_spec (owner payload) v); lia. }
  clear G. generalize dependent (effective_version payload v). intros ve Hv Heff.
  destruct payload; cbn -[N.leb] in Hv |- *; try lia.
  all: unfold owner in Heff; cbn -[N.leb] in Heff.
  all: unfold_contracts Hv; invert_ok; cbn -[N.leb] in *; simplify_guards; try lia.
  match goal with Hw : _ && _ = false |- _ =>
    apply andb_false_iff in Hw as [Hw%N.leb_gt|Hw%N.leb_gt]; lia end.
Qed.

(** ** Theorems *)

(** C24 Event validation equals its closed form: an event is accepted exactly when its header is
    well formed, its iteration scope is allowed for the payload and the version, and its payload
    meets the contract of the effective version (the version that owns the payload, or the common
    base 11).  In particular the recursion of the source over schema versions terminates on every
    event. *)
Theorem validate_closed_form event :
  validate event = Ok tt ↔
    header_ok event ∧ scope_ok event = true
    ∧ validate_payload (event <|RunEvent.event_schema_version :=
         effective_version event.(RunEvent.payload) event.(RunEvent.event_schema_version)|>) = Ok tt.
Proof. apply validate_checked. Qed.

(** Every accepted event carries a payload that belongs to its schema version: the version
    lies in the window in which the contract knows the payload.  Runs of schema v9 and before
    end with run_succeeded or run_failed, runs of v10 and later with run_finalized; v11 and later
    start with run_admitted, earlier ones with run_started. *)
Theorem schema_window_sound event :
  validate event = Ok tt →
  ((schema_window event.(RunEvent.payload)).1 ≤ event.(RunEvent.event_schema_version)
   ≤ (schema_window event.(RunEvent.payload)).2)%N.
Proof. apply validate_window. Qed.
End with_externals.
