(* ===== verification/HistoryProperties.v ===== *)
(** * Properties of folded histories

    What a history must look like to fold at all (numbering, identities,
    homogeneity, finality), and that folding never panics. *)

From S2P Require Import Prelude Strings Json EventTypes ProjectionTypes Guards FoldRun.
From S2P Require Import FoldControlFlow FoldCorrection FoldApprovals FoldOperations FoldLifecycle.
From S2P Require Import IterationFold EventIdentities EventValidation Fold FoldFrames.
From S2P Require Import ValidationProperties.

Section with_externals.
Context `{Externals}.

(** ** Numbering and identities *)

(** The fold state records its history: how many events, which identifiers, the last event. *)
Record records (events : list RunEvent) (s : ProjectionFoldState) : Prop := {
  records_length : s.(ProjectionFoldState.projection).(RunProjection.last_sequence) = N.of_nat (length events);
  records_sequences : ∀ i event, events !! i = Some event → event.(RunEvent.sequence) = (N.of_nat i + 1)%N;
  records_ids : s.(ProjectionFoldState.event_ids) = list_to_set (RunEvent.event_id <$> events);
  records_unique : NoDup (RunEvent.event_id <$> events);
  records_last : s.(ProjectionFoldState.previous_event) = last events;
}.

(** The successor of a sequence number that validation accepts has not wrapped. *)
Lemma accepted_sequence s event s' p' :
  applied s event s' p' → (s.(ProjectionFoldState.projection).(RunProjection.last_sequence) < 2 ^ 64)%N →
  event.(RunEvent.sequence) = (s.(ProjectionFoldState.projection).(RunProjection.last_sequence) + 1)%N
  ∧ (event.(RunEvent.sequence) < 2 ^ 64)%N.
Proof.
  intros Ha Hlt. pose proof (applied_sequence _ _ _ _ Ha) as Hs.
  destruct (validate_header _ (applied_valid _ _ _ _ Ha)) as (_ & _ & _ & H0).
  rewrite Hs in H0 |- *. unfold u64_add in *. set (n := RunProjection.last_sequence _) in *.
  destruct (decide (n + 1 = 2 ^ 64)%N) as [He|He].
  - by rewrite He, N.Div0.mod_same in H0.
  - rewrite N.mod_small by lia. lia.
Qed.

Lemma from_events_records events s :
  from_events events = Ok s → records events s ∧ (s.(ProjectionFoldState.projection).(RunProjection.last_sequence) < 2 ^ 64)%N.
Proof.
  revert s. induction events as [|event events IH] using rev_ind; intros s Hs.
  { apply Ok_inj in Hs as <-. split; [|done]. split; try done. constructor. }
  apply from_events_snoc in Hs as (s0 & Hs0 & [p' Ha]%apply_ok).
  destruct (IH _ Hs0) as [[Hlen Hseq Hids Huniq Hlast] Hlt]. clear IH.
  destruct (accepted_sequence _ _ _ _ Ha Hlt) as [Hnext Hlt'].
  rewrite (applied_projection _ _ _ _ Ha). cbn. split; [|done]. split.
  - rewrite (applied_projection _ _ _ _ Ha). cbn. rewrite length_app. simpl. lia.
  - intros i e [He|[Hi He]]%lookup_app_Some; [by apply Hseq|].
    apply list_lookup_singleton_Some in He as [? <-]. lia.
  - rewrite (applied_ids _ _ _ _ Ha), Hids, fmap_app, list_to_set_app_L. set_solver.
  - rewrite fmap_app. apply NoDup_app. split_and!; [done| |apply NoDup_singleton].
    pose proof (applied_new _ _ _ _ Ha) as Hn. rewrite Hids in Hn. set_solver.
  - by rewrite (applied_previous _ _ _ _ Ha), last_snoc.
Qed.

(** The events of a folded history are numbered 1, 2, 3, ... without gaps, the projection's
    last sequence is their number, and no event identifier occurs twice. *)
Theorem history_numbered events s :
  from_events events = Ok s →
  s.(ProjectionFoldState.projection).(RunProjection.last_sequence) = N.of_nat (length events)
  ∧ (∀ i event, events !! i = Some event → event.(RunEvent.sequence) = (N.of_nat i + 1)%N)
  ∧ NoDup (RunEvent.event_id <$> events).
Proof. intros [[] _]%from_events_records. done. Qed.

(** ** Homogeneity *)

Definition same_run (run_id : string) (version : N) (event : RunEvent) : Prop :=
  event.(RunEvent.run_id) = run_id ∧ event.(RunEvent.event_schema_version) = version.

(** Before admission nothing has happened, but for reusable lifecycle hooks: their request and
    the remote dispatch transitions do not look at the run's status. *)
Definition unadmitted (p : RunProjection) : Prop :=
  ∃ hooks n, p = default_projection <|RunProjection.reusable_lifecycle_hooks := hooks|> <|RunProjection.last_sequence := n|>.

(** Once the run has an identity, it is that of every event, the first of which admitted it. *)
Definition homogeneous (events : list RunEvent) (p : RunProjection) : Prop :=
  match p.(RunProjection.run_id), p.(RunProjection.event_schema_version) with
  | Some run_id, Some version =>
      Forall (same_run run_id version) events
      ∧ ∃ first, head events = Some first ∧ touches_identity first.(RunEvent.payload) = true
  | None, None => unadmitted p
  | _, _ => False
  end.

(** The two admission events set the identity, at the start of the history only. *)
Lemma apply_payload_admission p event index indexes previous p' indexes' :
  apply_payload p event index indexes previous = Ok (p', indexes') →
  touches_identity event.(RunEvent.payload) = true →
  index = 0%N ∧ p'.(RunProjection.run_id) = Some event.(RunEvent.run_id)
  ∧ p'.(RunProjection.event_schema_version) = Some event.(RunEvent.event_schema_version).
Proof.
  unfold apply_payload. intros Ha Ht.
  destruct (RunEvent.payload event); try discriminate Ht; cbn beta iota zeta in Ha;
    invert_handler Ha; simplify_guards; simplify_eq; done.
Qed.

Lemma apply_payload_unadmitted p event index indexes previous p' indexes' :
  apply_payload p event index indexes previous = Ok (p', indexes') →
  touches_identity event.(RunEvent.payload) = false → unadmitted p → unadmitted p'.
Proof.
  intros Ha Ht (hooks & n & ->). unfold apply_payload in Ha.
  destruct (RunEvent.payload event); try discriminate Ht; cbn beta iota zeta in Ha;
    unfold_handlers Ha; cbn in Ha; invert_ok; simplify_guards; try done.
  all: simplify_eq; by do 2 eexists.
Qed.

Lemma from_events_homogeneous events s :
  from_events events = Ok s → homogeneous events s.(ProjectionFoldState.projection).
Proof.
  revert s. induction events as [|event events IH] using rev_ind; intros s Hs.
  { apply Ok_inj in Hs as <-. by exists ∅, 0%N. }
  apply from_events_snoc in Hs as (s0 & Hs0 & Happ).
  destruct (apply_ok _ _ _ Happ) as [p' Ha]. specialize (IH _ Hs0).
  destruct (from_events_records _ _ Hs0) as [[Hlen _ _ _ _] _].
  destruct (touches_identity event.(RunEvent.payload)) eqn:Ht.
  - assert (in_iteration event = false) as Hi.
    { destruct (in_iteration event) eqn:Hi; [|done]. apply iteration_payload_ok in Happ; [|done].
      by destruct (RunEvent.payload event). }
    pose proof (dispatch_top _ _ _ _ (applied_dispatch _ _ _ _ Ha) Hi) as Hd.
    apply apply_payload_admission in Hd as (H0 & Hr & Hv); [|done].
    rewrite Hlen in H0. destruct events; [|done]. unfold homogeneous.
    rewrite (apply_field RunProjection.run_id touches_identity _ _ _ _ Ha),
      (apply_field RunProjection.event_schema_version touches_identity _ _ _ _ Ha), Hr, Hv.
    split; [by repeat constructor|]. by exists event.
  - assert (touches_identity event.(RunEvent.payload) && negb (in_iteration event) = false) as Ht'
      by by rewrite Ht.
    unfold homogeneous in *.
    rewrite (apply_untouched RunProjection.run_id touches_identity _ _ _ Happ Ht'),
      (apply_untouched RunProjection.event_schema_version touches_identity _ _ _ Happ Ht').
    destruct (RunProjection.run_id _) as [r|] eqn:Hr,
      (RunProjection.event_schema_version _) as [v|] eqn:Hv; try done.
    + destruct IH as [Hall (first & Hf & Hadm)]. split.
      * apply Forall_app. split; [done|]. apply Forall_singleton. split; symmetry.
        -- by apply (applied_run_id _ _ _ _ Ha). -- by apply (applied_version _ _ _ _ Ha).
      * exists first. by destruct events.
    + destruct (in_iteration event) eqn:Hi.
      * destruct (dispatch_iteration _ _ _ _ (applied_dispatch _ _ _ _ Ha) Hi) as [Hd _].
        apply apply_iteration_scoped_event_ok in Hd as (? & ? & ? & ? & Hstep).
        destruct IH as (? & ? & IH). destruct (is_status _ _ _ _ _ _ _ _ Hstep) as [Hn|Hn];
          by rewrite IH in Hn.
      * pose proof (dispatch_top _ _ _ _ (applied_dispatch _ _ _ _ Ha) Hi) as Hd.
        rewrite (applied_projection _ _ _ _ Ha). destruct (apply_payload_unadmitted _ _ _ _ _ _ _ Hd Ht IH) as (hooks & n & ->).
        by do 2 eexists.
Qed.

Lemma reachable_unadmitted s :
  reachable s → s.(ProjectionFoldState.projection).(RunProjection.event_schema_version) = None → unadmitted s.(ProjectionFoldState.projection).
Proof.
  intros [events Hs%from_events_homogeneous] Hv. unfold homogeneous in Hs. rewrite Hv in Hs.
  by destruct (RunProjection.run_id _).
Qed.

(** An admission is the first event. *)
Lemma admission_first s event s' :
  reachable s → apply s event = Ok s' →
  touches_identity event.(RunEvent.payload) && negb (in_iteration event) = true → s = default_state.
Proof.
  intros [events Hs] [p' Ha]%apply_ok [Ht Hi%negb_true_iff]%andb_true_iff.
  pose proof (dispatch_top _ _ _ _ (applied_dispatch _ _ _ _ Ha) Hi) as Hd.
  destruct (apply_payload_admission _ _ _ _ _ _ _ Hd Ht) as (H0 & _).
  destruct (from_events_records _ _ Hs) as [[Hlen _ _ _ _] _]. rewrite H0 in Hlen.
  destruct events; [|done]. by apply Ok_inj in Hs.
Qed.

(** An invariant of one field that depends on the schema version of the run. *)
Lemma versioned_invariant {A} (f : RunProjection → A) touches `{!FrameField f touches}
    (P : N → A → Prop) :
  (∀ payload, touches_identity payload = true → touches payload = false) →
  (∀ v, P v (f default_projection)) →
  (∀ s event p' indexes', reachable s →
     s.(ProjectionFoldState.projection).(RunProjection.event_schema_version) = Some event.(RunEvent.event_schema_version) →
     P event.(RunEvent.event_schema_version) (f s.(ProjectionFoldState.projection)) →
     validate event = Ok tt → touches event.(RunEvent.payload) = true → in_iteration event = false →
     apply_payload s.(ProjectionFoldState.projection) event s.(ProjectionFoldState.projection).(RunProjection.last_sequence)
       s.(ProjectionFoldState.attempt_indexes) s.(ProjectionFoldState.previous_event) = Ok (p', indexes') →
     P event.(RunEvent.event_schema_version) (f p')) →
  Invariant (λ s, ∀ v, s.(ProjectionFoldState.projection).(RunProjection.event_schema_version) = Some v → P v (f s.(ProjectionFoldState.projection))).
Proof.
  intros Htouch Hdef Hstep. split; [done|]. intros s event s' Hr HP Happ v Hv.
  destruct (touches_identity event.(RunEvent.payload) && negb (in_iteration event)) eqn:Ht.
  - rewrite (apply_untouched f touches _ _ _ Happ).
    2: { apply andb_true_iff in Ht as [Ht _]. by rewrite Htouch. }
    by rewrite (admission_first _ _ _ Hr Happ Ht).
  - rewrite (apply_untouched RunProjection.event_schema_version touches_identity _ _ _ Happ Ht) in Hv.
    assert (v = event.(RunEvent.event_schema_version)) as ->.
    { apply apply_ok in Happ as [p' Ha]. by apply (applied_version _ _ _ _ Ha). }
    assert (Hrefl : Reflexive (λ a b, P (RunEvent.event_schema_version event) a →
                                      P (RunEvent.event_schema_version event) b)) by by intros ?.
    refine (apply_field_step f touches (λ a b, P _ a → P _ b) s event s' Happ _ (HP _ Hv)).
    intros p' Hval Htf Hi Hap HP'. by eapply Hstep.
Qed.

(** A preorder on a field that every event respects holds between a history and its extensions. *)
Lemma field_history {A} (f : RunProjection → A) (R : A → A → Prop) `{!PreOrder R} :
  (∀ s event s', reachable s → apply s event = Ok s' →
     R (f s.(ProjectionFoldState.projection)) (f s'.(ProjectionFoldState.projection))) →
  ∀ events more s s', from_events events = Ok s → from_events (events ++ more) = Ok s' →
    R (f s.(ProjectionFoldState.projection)) (f s'.(ProjectionFoldState.projection)).
Proof.
  intros Hstep events more s s' Hs. revert s'.
  induction more as [|event more IH] using rev_ind; intros s' Hs'.
  - rewrite app_nil_r, Hs in Hs'. by apply Ok_inj in Hs' as ->.
  - rewrite (assoc_L (++)) in Hs'. apply from_events_snoc in Hs' as (s0 & Hs0 & Happ).
    transitivity (f s0.(ProjectionFoldState.projection)); [by apply IH|]. eapply Hstep; [by eexists|done].
Qed.

(** A run that has left the state NotStarted has one identity: its first event admitted it,
    and every event of the history carries the same run identifier and schema version, the ones
    the projection reports. *)
Theorem history_homogeneous events s :
  from_events events = Ok s → s.(ProjectionFoldState.projection).(RunProjection.status) ≠ RunStatus.NotStarted →
  ∃ first rest run_id version,
    events = first :: rest ∧ touches_identity first.(RunEvent.payload) = true
    ∧ s.(ProjectionFoldState.projection).(RunProjection.run_id) = Some run_id
    ∧ s.(ProjectionFoldState.projection).(RunProjection.event_schema_version) = Some version
    ∧ Forall (λ event, event.(RunEvent.run_id) = run_id ∧ event.(RunEvent.event_schema_version) = version) events.
Proof.
  intros Hs%from_events_homogeneous Hn. unfold homogeneous in Hs.
  destruct (RunProjection.run_id _) as [r|], (RunProjection.event_schema_version _) as [v|];
    try done; [|by destruct Hs as (? & ? & Hs); rewrite Hs in Hn].
  destruct Hs as [Hall (first & Hf & Hadm)]. destruct events as [|e rest]; [done|].
  injection Hf as ->. by exists first, rest, r, v.
Qed.

(** ** Finality *)

(** Every event is rejected, without a panic, once the run has ended. *)
Lemma apply_terminal s event :
  status_is_terminal s.(ProjectionFoldState.projection).(RunProjection.status) = true → ∃ e, apply s event = Err e.
Proof.
  intros Ht. assert (is_ok (apply s event) = false) as Hn.
  { destruct (apply s event) as [s'| |] eqn:Ha; try done.
    apply apply_ok in Ha as [p' Ha]. by rewrite (applied_active _ _ _ _ Ha) in Ht. }
  assert (no_panic (apply s event)) as Hp.
  { unfold apply. rewrite Ht. pose proof (validate_no_panic event). simpl. solve_no_panic. }
  destruct (apply s event) as [|e|m]; [done|by exists e|by destruct (Hp m)].
Qed.

(** A terminal run is final: a history that has succeeded, failed or been cancelled cannot be
    extended, whatever the next events are; folding the longer history returns an error. *)
Theorem history_final events event more s :
  from_events events = Ok s → status_is_terminal s.(ProjectionFoldState.projection).(RunProjection.status) = true →
  ∃ e, from_events (events ++ event :: more) = Err e.
Proof.
  intros Hs Ht. destruct (apply_terminal _ event Ht) as [e He]. exists e.
  unfold from_events in *. by rewrite apply_all_app, Hs; simpl; rewrite He.
Qed.
End with_externals.
