(* ===== verification/AttemptProperties.v ===== *)
(** * Properties of step attempts

    The attempt ledger is the abstract specification of step attempts and their
    retries, which the run and every iteration of a for-each loop implement:
    attempts of a node are numbered 1, 2, ... up to 10, each one follows the failure
    of the one before it and the retry scheduled for it, and no invocation is used
    twice.  The index of attempts agrees with the list of attempts, so that folding
    never panics. *)

From S2P Require Import Prelude Strings Json EventTypes ProjectionTypes Guards FoldRun.
From S2P Require Import FoldControlFlow FoldCorrection FoldApprovals FoldOperations FoldLifecycle.
From S2P Require Import IterationFold EventIdentities EventValidation Fold FoldFrames.
From S2P Require Import ValidationProperties HistoryProperties.

Definition node_of (a : AttemptProjection) : string := a.(AttemptProjection.identity).(AttemptIdentity.node_id).
Definition number_of (a : AttemptProjection) : N := a.(AttemptProjection.identity).(AttemptIdentity.attempt).

(** ** The latest attempt *)

Lemma latest_attempt_snoc attempts a node_id :
  latest_attempt_in (attempts ++ [a]) node_id =
    if decide (node_of a = node_id) then Some a else latest_attempt_in attempts node_id.
Proof.
  unfold latest_attempt_in, find_last. rewrite reverse_snoc. simpl.
  unfold node_of. case_bool_decide; by case_decide.
Qed.

(** The latest attempt of a node is the one with the greatest index. *)
Lemma latest_attempt_Some attempts node_id a :
  latest_attempt_in attempts node_id = Some a ↔
  ∃ i, attempts !! i = Some a ∧ node_of a = node_id
    ∧ ∀ j b, attempts !! j = Some b → node_of b = node_id → j ≤ i.
Proof.
  revert a. induction attempts as [|b attempts IH] using rev_ind; intros a.
  { split; [done|]. by intros (i & Hi & _). }
  rewrite latest_attempt_snoc. case_decide as Hb.
  - split.
    + intros [= <-]. exists (length attempts). split_and!; [|done|].
      * by rewrite lookup_app_r, Nat.sub_diag by lia.
      * intros j c Hj%lookup_lt_Some _. rewrite length_app in Hj. simpl in Hj. lia.
    + intros (i & Hi & Ha & Hmax). f_equal.
      assert (length attempts ≤ i) as Hle.
      { apply (Hmax _ b); [|done]. by rewrite lookup_app_r, Nat.sub_diag by lia. }
      rewrite lookup_app_r in Hi by done. by apply list_lookup_singleton_Some in Hi as [_ ?].
  - rewrite IH. split; intros (i & Hi & Ha & Hmax); exists i.
    + split_and!; [by apply lookup_app_l_Some|done|]. intros j c Hj Hc.
      apply lookup_app_Some in Hj as [Hj|[_ Hj]]; [by eapply Hmax|].
      apply list_lookup_singleton_Some in Hj as [_ ->]. done.
    + apply lookup_app_Some in Hi as [Hi|[_ Hi]].
      * split_and!; [done..|]. intros j c Hj. apply (Hmax j c). by apply lookup_app_l_Some.
      * apply list_lookup_singleton_Some in Hi as [_ ->]. done.
Qed.

Lemma latest_attempt_None attempts node_id :
  latest_attempt_in attempts node_id = None ↔ ∀ a, a ∈ attempts → node_of a ≠ node_id.
Proof.
  induction attempts as [|b attempts IH] using rev_ind; [set_solver|].
  rewrite latest_attempt_snoc. case_decide; [set_solver|]. rewrite IH. set_solver.
Qed.

(** ** The ledger *)

Record ledger := Ledger {
  l_attempts : list AttemptProjection;
  l_retries : gmap string RetryScheduleProjection;
}.

Definition latest (l : ledger) (node_id : string) : option AttemptProjection :=
  latest_attempt_in (l_attempts l) node_id.

(** One step of the ledger at time [now]. *)
Inductive ledger_step (now : DateTime) : ledger → ledger → Prop :=
| ledger_start_first l data :
    Forall (λ a, a.(AttemptProjection.identity).(AttemptIdentity.invocation_id) ≠ data.(StepAttemptStartedData.invocation_id))
      (l_attempts l) →
    latest l data.(StepAttemptStartedData.node_id) = None →
    data.(StepAttemptStartedData.attempt) = 1%N →
    ledger_step now l (Ledger (l_attempts l ++ [started_attempt data]) (l_retries l))
| ledger_start_retry l data previous schedule :
    Forall (λ a, a.(AttemptProjection.identity).(AttemptIdentity.invocation_id) ≠ data.(StepAttemptStartedData.invocation_id))
      (l_attempts l) →
    latest l data.(StepAttemptStartedData.node_id) = Some previous →
    attempt_is_failed previous.(AttemptProjection.status) = true →
    l_retries l !! data.(StepAttemptStartedData.node_id) = Some schedule →
    schedule.(RetryScheduleProjection.next_attempt) = data.(StepAttemptStartedData.attempt) →
    (schedule.(RetryScheduleProjection.scheduled_at) ≤ now)%Z →
    ledger_step now l
      (Ledger (l_attempts l ++ [started_attempt data])
         (delete data.(StepAttemptStartedData.node_id) (l_retries l)))
| ledger_settle l i a status :
    l_attempts l !! i = Some a → attempt_is_started a.(AttemptProjection.status) = true →
    attempt_is_started status = false →
    ledger_step now l (Ledger (<[i := a <|AttemptProjection.status := status|>]> (l_attempts l)) (l_retries l))
| ledger_schedule l node_id a schedule :
    latest l node_id = Some a → attempt_is_failed a.(AttemptProjection.status) = true →
    l_retries l !! node_id = None →
    schedule.(RetryScheduleProjection.failed_attempt) = number_of a →
    schedule.(RetryScheduleProjection.next_attempt) = (number_of a + 1)%N →
    (schedule.(RetryScheduleProjection.next_attempt) ≤ 10)%N →
    ledger_step now l (Ledger (l_attempts l) (<[node_id := schedule]> (l_retries l)))
| ledger_clear l : ledger_step now l (Ledger (l_attempts l) ∅)
| ledger_idle l : ledger_step now l l.

(** The numbers of the attempts of [node_id], in order. *)
Definition numbers (node_id : string) (ids : list AttemptIdentity) : list N :=
  AttemptIdentity.attempt <$> filter (λ id, AttemptIdentity.node_id id = node_id) ids.

Record ledger_ok (l : ledger) : Prop := {
  ok_unique : NoDup ((λ a, a.(AttemptProjection.identity).(AttemptIdentity.invocation_id)) <$> l_attempts l);
  ok_numbers : ∀ node_id, ∃ k, k ≤ 10
    ∧ numbers node_id (AttemptProjection.identity <$> l_attempts l) = N.of_nat <$> seq 1 k;
  ok_superseded : ∀ i j a b, i < j → l_attempts l !! i = Some a → l_attempts l !! j = Some b →
    node_of a = node_of b → attempt_is_failed a.(AttemptProjection.status) = true;
  ok_retries : ∀ node_id schedule, l_retries l !! node_id = Some schedule →
    ∃ a, latest l node_id = Some a ∧ attempt_is_failed a.(AttemptProjection.status) = true
      ∧ schedule.(RetryScheduleProjection.failed_attempt) = number_of a
      ∧ schedule.(RetryScheduleProjection.next_attempt) = (number_of a + 1)%N
      ∧ (schedule.(RetryScheduleProjection.next_attempt) ≤ 10)%N;
}.

(** ** Every step keeps the ledger in order *)

Lemma numbers_snoc node_id ids id :
  numbers node_id (ids ++ [id]) =
    numbers node_id ids ++ if decide (AttemptIdentity.node_id id = node_id) then [AttemptIdentity.attempt id] else [].
Proof.
  unfold numbers. rewrite filter_app, fmap_app. f_equal.
  rewrite filter_cons, filter_nil. by case_decide.
Qed.

Lemma numbers_last attempts node_id :
  last (numbers node_id (AttemptProjection.identity <$> attempts)) = number_of <$> latest_attempt_in attempts node_id.
Proof.
  induction attempts as [|a attempts IH] using rev_ind; [done|].
  rewrite fmap_app. simpl. rewrite numbers_snoc, latest_attempt_snoc. unfold node_of.
  case_decide; [by rewrite last_snoc|]. by rewrite app_nil_r.
Qed.

Lemma last_seq k : last (N.of_nat <$> seq 1 k) = match k with O => None | _ => Some (N.of_nat k) end.
Proof. destruct k; [done|]. rewrite seq_S, fmap_app. apply last_snoc. Qed.

(** The number of the next attempt. *)
Definition next_number (previous : option AttemptProjection) : N :=
  match previous with None => 1 | Some a => number_of a + 1 end.

Lemma numbers_next l node_id k :
  numbers node_id (AttemptProjection.identity <$> l_attempts l) = N.of_nat <$> seq 1 k →
  next_number (latest l node_id) = N.of_nat (S k).
Proof.
  intros Hk. pose proof (numbers_last (l_attempts l) node_id) as Hl.
  rewrite Hk, last_seq in Hl. unfold latest, next_number.
  destruct (latest_attempt_in _ _), k; simplify_eq/=; lia.
Qed.

Lemma superseded_latest l a i b :
  ledger_ok l → latest l (node_of b) = Some a → attempt_is_failed a.(AttemptProjection.status) = true →
  l_attempts l !! i = Some b → attempt_is_failed b.(AttemptProjection.status) = true.
Proof.
  intros Hok (k & Hk & Hn & Hmax)%latest_attempt_Some Hf Hi.
  destruct (decide (i = k)) as [->|Hne]; [congruence|].
  pose proof (Hmax _ _ Hi eq_refl). apply (ok_superseded _ Hok i k b a); [lia|done..].
Qed.

Lemma latest_settled l i a status node_id b :
  l_attempts l !! i = Some a → attempt_is_started a.(AttemptProjection.status) = true →
  latest l node_id = Some b → attempt_is_failed b.(AttemptProjection.status) = true →
  latest_attempt_in (<[i := a <|AttemptProjection.status := status|>]> (l_attempts l)) node_id = Some b.
Proof.
  intros Hi Hs (k & Hk & Hn & Hmax)%latest_attempt_Some Hf. apply latest_attempt_Some.
  assert (i ≠ k) as Hne by (intros ->; simplify_eq; by destruct (AttemptProjection.status a)).
  exists k. split_and!; [by rewrite list_lookup_insert_ne|done|]. intros j c Hj Hc.
  destruct (decide (j = i)) as [->|Hne'].
  - apply list_lookup_insert_Some in Hj as [(_ & <- & _)|[? _]]; [|done]. by eapply Hmax.
  - rewrite list_lookup_insert_ne in Hj by done. by eapply Hmax.
Qed.

Lemma identities_settled (attempts : list AttemptProjection) i a status :
  attempts !! i = Some a →
  AttemptProjection.identity <$> <[i := a <|AttemptProjection.status := status|>]> attempts = AttemptProjection.identity <$> attempts.
Proof.
  intros Hi. rewrite list_fmap_insert. apply list_insert_id. by rewrite list_lookup_fmap, Hi.
Qed.

(** Both ways to start an attempt. *)
Lemma start_ok l data retries :
  ledger_ok l →
  Forall (λ a, a.(AttemptProjection.identity).(AttemptIdentity.invocation_id) ≠ data.(StepAttemptStartedData.invocation_id))
    (l_attempts l) →
  (∀ a, latest l data.(StepAttemptStartedData.node_id) = Some a →
     attempt_is_failed a.(AttemptProjection.status) = true) →
  data.(StepAttemptStartedData.attempt) = next_number (latest l data.(StepAttemptStartedData.node_id)) →
  (data.(StepAttemptStartedData.attempt) ≤ 10)%N →
  (∀ node_id schedule, retries !! node_id = Some schedule →
     node_id ≠ data.(StepAttemptStartedData.node_id) ∧ l_retries l !! node_id = Some schedule) →
  ledger_ok (Ledger (l_attempts l ++ [started_attempt data]) retries).
Proof.
  intros Hok Hfresh Hprev Hnum Hmax Hret. split; cbn [l_attempts l_retries].
  - rewrite fmap_app. apply NoDup_app. split_and!; [apply Hok| |apply NoDup_singleton].
    intros id Hid. rewrite list_elem_of_fmap in Hid. destruct Hid as (a & -> & Ha).
    rewrite Forall_forall in Hfresh. specialize (Hfresh a Ha). set_solver.
  - intros node_id. destruct (ok_numbers _ Hok node_id) as (k & Hk & Hn).
    rewrite fmap_app. simpl. rewrite numbers_snoc, Hn. cbn. case_decide as Hd.
    + exists (S k). subst node_id. rewrite (numbers_next _ _ _ Hn) in Hnum. split; [lia|].
      by rewrite seq_S, fmap_app, Hnum.
    + exists k. by rewrite app_nil_r.
  - intros i j a b Hij Ha Hb Hn. apply lookup_app_Some in Hb as [Hb|[Hge Hb]].
    + rewrite lookup_app_l in Ha by (apply lookup_lt_Some in Hb; lia). by eapply ok_superseded.
    + apply list_lookup_singleton_Some in Hb as [Hj <-]. rewrite lookup_app_l in Ha by lia.
      destruct (latest l (node_of a)) as [c|] eqn:Hl.
      * eapply superseded_latest; [done..| |done]. apply Hprev. by rewrite <-Hl, Hn.
      * apply latest_attempt_None with (a := a) in Hl; [done|]. by eapply list_elem_of_lookup_2.
  - intros node_id schedule [Hne Hr]%Hret. destruct (ok_retries _ Hok _ _ Hr) as (a & Ha & Hrest).
    exists a. split; [|done]. unfold latest in *. cbn [l_attempts]. rewrite latest_attempt_snoc.
    by rewrite decide_False.
Qed.

Lemma ledger_step_ok now l l' : ledger_step now l l' → ledger_ok l → ledger_ok l'.
Proof.
  intros Hstep Hok. destruct Hstep as [l data Hfresh Hl Hn|l data previous schedule Hfresh Hl Hf Hr Hn Ht
    |l i a status Hi Hs Hns|l node_id a schedule Hl Hf Hr Hfa Hna Hmax|l|l]; [..|done].
  - apply start_ok; try done; rewrite ?Hl, ?Hn; try done.
    intros node_id schedule Hr. split; [|done]. intros ->.
    destruct (ok_retries _ Hok _ _ Hr) as (a & Ha & _). congruence.
  - destruct (ok_retries _ Hok _ _ Hr) as (a & Ha & _ & _ & Hna & Hmax).
    apply start_ok; try done; rewrite ?Hl.
    + by intros ? [= <-].
    + simpl. congruence.
    + congruence.
    + intros node_id schedule' [? ?]%lookup_delete_Some. naive_solver.
  - split; cbn [l_attempts l_retries].
    + rewrite (list_fmap_compose AttemptProjection.identity AttemptIdentity.invocation_id), identities_settled by done.
      rewrite <-list_fmap_compose. apply Hok.
    + intros node_id. rewrite identities_settled by done. apply Hok.
    + intros j k b c Hjk Hb Hc Hn.
      assert (∃ c', l_attempts l !! k = Some c' ∧ node_of c' = node_of c) as (c' & Hc' & Hn').
      { apply list_lookup_insert_Some in Hc as [(<- & <- & _)|[_ ?]]; by eexists. }
      apply list_lookup_insert_Some in Hb as [(<- & <- & _)|[_ Hb]].
      * assert (attempt_is_failed a.(AttemptProjection.status) = true) as Hfa.
        { apply (ok_superseded _ Hok i k a c'); try done. unfold node_of in *. cbn in Hn. congruence. }
        by destruct (AttemptProjection.status a).
      * apply (ok_superseded _ Hok j k b c'); congruence.
    + intros node_id schedule Hr. destruct (ok_retries _ Hok _ _ Hr) as (b & Hb & Hf & Hrest).
      exists b. split; [|done]. by apply latest_settled.
  - split; cbn [l_attempts l_retries]; try apply Hok. intros n s [(<- & <-)|[_ Hs]]%lookup_insert_Some; [|by apply Hok].
    exists a. by split_and!.
  - split; cbn [l_attempts l_retries]; try apply Hok. done.
Qed.

Lemma ledger_empty_ok : ledger_ok (Ledger [] ∅).
Proof. split; cbn [l_attempts l_retries]; try done; [constructor|]. intros node_id. exists 0. split; [lia|done]. Qed.

(** The check both folds make before they record a schedule. *)
Lemma schedule_step now l (data : StepRetryScheduledData) :
  is_some_and (latest l data.(StepRetryScheduledData.node_id)) (λ (a : AttemptProjection),
    (a.(AttemptProjection.identity).(AttemptIdentity.attempt) == data.(StepRetryScheduledData.failed_attempt)) && attempt_is_failed a.(AttemptProjection.status)) = true →
  contains_key (l_retries l) data.(StepRetryScheduledData.node_id) = false →
  (data.(StepRetryScheduledData.failed_attempt) ≤ 9)%N → data.(StepRetryScheduledData.next_attempt) = (data.(StepRetryScheduledData.failed_attempt) + 1)%N →
  ledger_step now l (Ledger (l_attempts l) (<[data.(StepRetryScheduledData.node_id) :=
    RetryScheduleProjection.mk data.(StepRetryScheduledData.node_id) data.(StepRetryScheduledData.failed_attempt) data.(StepRetryScheduledData.next_attempt) data.(StepRetryScheduledData.scheduled_at)]>
    (l_retries l))).
Proof.
  intros Hl Hn%contains_key_false H9 Hnext. destruct (latest l _) as [a|] eqn:Ha; [|done].
  simpl in Hl. simplify_guards. eapply ledger_schedule; cbn; try done.
  - rewrite Hnext. by f_equal.
  - lia.
Qed.

Section with_externals.
Context `{Externals}.

(** ** The attempt index *)

(** [attempt_indexes] is the inverse of [attempts]. *)
Definition coherent (s : ProjectionFoldState) : Prop :=
  ∀ key i, s.(ProjectionFoldState.attempt_indexes) !! key = Some i ↔
    AttemptProjection.identity <$> s.(ProjectionFoldState.projection).(RunProjection.attempts) !! i = Some key.

(** Settling an attempt keeps the identities. *)
Lemma settled_identities (attempts : list AttemptProjection) i a status j :
  attempts !! i = Some a →
  AttemptProjection.identity <$> <[i := a <|AttemptProjection.status := status|>]> attempts !! j
  = AttemptProjection.identity <$> attempts !! j.
Proof.
  intros Hi. destruct (decide (j = i)) as [->|Hne].
  - rewrite list_lookup_insert_eq by (by eapply lookup_lt_Some). by rewrite Hi.
  - by rewrite list_lookup_insert_ne.
Qed.

(** What a top-level attempt event does to the attempts, their index and the retries. *)
Inductive attempt_step (p : RunProjection) (indexes : gmap AttemptIdentity nat) (event : RunEvent) :
    list AttemptProjection → gmap AttemptIdentity nat → gmap string RetryScheduleProjection → Prop :=
| step_started (data : StepAttemptStartedData) :
    event.(RunEvent.payload) = RunEventPayload.StepAttemptStarted data →
    Forall (λ a, a.(AttemptProjection.identity).(AttemptIdentity.invocation_id) ≠ data.(StepAttemptStartedData.invocation_id)) p.(RunProjection.attempts) →
    (∀ a, latest_attempt p data.(StepAttemptStartedData.node_id) = Some a → attempt_is_started a.(AttemptProjection.status) = false) →
    ((6 ≤ event.(RunEvent.event_schema_version))%N →
       data.(StepAttemptStartedData.attempt) = expected_attempt (latest_attempt p data.(StepAttemptStartedData.node_id))
       ∧ check_pending_retry (latest_attempt p data.(StepAttemptStartedData.node_id)) (p.(RunProjection.pending_retries) !! data.(StepAttemptStartedData.node_id))
           event data = Ok tt
       ∧ ∀ key, first_idempotency_key p.(RunProjection.attempts) data.(StepAttemptStartedData.node_id) = Some key →
           data.(StepAttemptStartedData.idempotency_key) = Some key) →
    indexes !! identity data.(StepAttemptStartedData.node_id) data.(StepAttemptStartedData.attempt) data.(StepAttemptStartedData.invocation_id) = None →
    attempt_step p indexes event (p.(RunProjection.attempts) ++ [started_attempt data])
      (<[identity data.(StepAttemptStartedData.node_id) data.(StepAttemptStartedData.attempt) data.(StepAttemptStartedData.invocation_id) := length p.(RunProjection.attempts)]> indexes)
      (if bool_decide (6 ≤ event.(RunEvent.event_schema_version))%N
       then delete data.(StepAttemptStartedData.node_id) p.(RunProjection.pending_retries) else p.(RunProjection.pending_retries))
| step_settled (key : AttemptIdentity) i a status :
    indexes !! key = Some i → p.(RunProjection.attempts) !! i = Some a →
    attempt_is_started a.(AttemptProjection.status) = true → attempt_is_started status = false →
    attempt_step p indexes event (<[i := a <|AttemptProjection.status := status|>]> p.(RunProjection.attempts)) indexes
      p.(RunProjection.pending_retries).

Lemma apply_payload_attempts p event index indexes previous p' indexes' :
  apply_payload p event index indexes previous = Ok (p', indexes') →
  touches_attempts event.(RunEvent.payload) = true →
  attempt_step p indexes event p'.(RunProjection.attempts) indexes' p'.(RunProjection.pending_retries).
Proof.
  unfold apply_payload. intros Ha Ht.
  destruct (RunEvent.payload event) as [] eqn:Hp; try discriminate Ht; clear Ht;
    cbn beta iota zeta in Ha; invert_handler Ha; simplify_guards; simplify_eq.
  all: cbn; try (eapply step_settled; done).
  all: match goal with
    Hv : context [RUN_EVENT_SCHEMA_VERSION_V6] |- attempt_step ?p ?x ?e ?l ?y _ =>
      unfold RUN_EVENT_SCHEMA_VERSION_V6 in Hv;
      pose proof (step_started p x e) as Hs; try rewrite (bool_decide_eq_true_2 _ Hv) in Hs;
      try rewrite (bool_decide_eq_false_2 _ Hv) in Hs; apply Hs; clear Hs end;
    [done|by apply existsb_eq_false|by apply (is_some_and_false _ _ ltac:(eassumption))| |
     by apply is_some_false].
  all: intros ?; first [contradiction|split_and!; congruence].
Qed.

#[global] Instance coherent_invariant : Invariant coherent.
Proof.
  split; [done|]. intros s event s' _ Hc Happ key i. unfold coherent in Hc.
  destruct (apply_ok _ _ _ Happ) as [p' Ha]. pose proof (applied_dispatch _ _ _ _ Ha) as Hd.
  destruct (touches_attempts event.(RunEvent.payload) && negb (in_iteration event)) eqn:Ht.
  2: { rewrite (apply_untouched RunProjection.attempts touches_attempts _ _ _ Happ Ht).
    replace (ProjectionFoldState.attempt_indexes s') with (ProjectionFoldState.attempt_indexes s); [apply Hc|].
    destruct (in_iteration event) eqn:Hi; [by destruct (dispatch_iteration _ _ _ _ Hd Hi)|].
    symmetry. eapply apply_payload_indexes; [by apply dispatch_top|].
    rewrite andb_true_r in Ht. by destruct (RunEvent.payload event). }
  apply andb_true_iff in Ht as [Ht Hi%negb_true_iff]. apply dispatch_top in Hd; [|done].
  rewrite (apply_field RunProjection.attempts touches_attempts _ _ _ _ Ha).
  destruct (apply_payload_attempts _ _ _ _ _ _ _ Hd Ht) as [data _ _ _ _ Hnew|];
    [|by rewrite settled_identities].
  set (attempts := RunProjection.attempts _) in *. set (new := identity _ _ _) in *.
  destruct (decide (key = new)) as [->|Hne].
  - rewrite lookup_insert_eq. split; [|intros Hl].
    + intros [= <-]. by rewrite lookup_app_r, Nat.sub_diag by lia.
    + f_equal. apply fmap_Some in Hl as (a & Hl & Hid).
      apply lookup_app_Some in Hl as [Hl|[Hge Hl]].
      * assert (ProjectionFoldState.attempt_indexes s !! new = Some i) as Hs by (apply Hc; by rewrite Hl, Hid).
        congruence.
      * apply list_lookup_singleton_Some in Hl as [? _]. lia.
  - rewrite lookup_insert_ne by done. rewrite Hc. split; intros Hl.
    + apply fmap_Some in Hl as (a & Hl & Hid). rewrite lookup_app_l; [by rewrite Hl, Hid|].
      by eapply lookup_lt_Some.
    + apply fmap_Some in Hl as (a & Hl & Hid). apply lookup_app_Some in Hl as [Hl|[Hge Hl]];
        [by rewrite Hl, Hid|]. apply list_lookup_singleton_Some in Hl as [_ <-]. done.
Qed.
(** ** Absence of panics *)

(** The scope that [expect("validated iteration scope")] unwraps is there. *)
Lemma loop_event_scope event :
  validate event = Ok tt →
  match event.(RunEvent.payload) with
  | RunEventPayload.ForEachIterationStarted _ | RunEventPayload.ForEachIterationSucceeded _ | RunEventPayload.ForEachIterationFailed _
  | RunEventPayload.ForEachIterationSkipped _ => true | _ => false end = true →
  is_Some event.(RunEvent.iteration).
Proof.
  intros (event' & Hv & Hp & <- & _)%validate_contract_at Hl. rewrite <-Hp in Hl.
  unfold validate_payload in Hv. clear Hp.
  destruct (RunEvent.payload event'); try discriminate Hl;
    cbv beta zeta delta [validate_for_each_iteration_succeeded validate_for_each_iteration_failed] in Hv;
    invert_ok;
    match goal with Hs : validate_for_each_iteration_event _ _ = Ok _ |- _ =>
      apply validate_iteration_scope in Hs as (? & ? & _) end; by eexists.
Qed.

Definition indexes_in_range (indexes : gmap AttemptIdentity nat) (attempts : list AttemptProjection) : Prop :=
  ∀ key i, indexes !! key = Some i → is_Some (attempts !! i).

Lemma ok_or_some {E A} (o : option A) (e : E) a : ok_or o e = Ok a → o = Some a.
Proof. by destruct o; intros [= ->]. Qed.

(** The slice indexing of an indexed attempt. *)
Ltac in_bounds Hr :=
  match goal with Hi : ok_or _ _ = Ok ?i, Hn : _ !! ?i = None |- _ =>
    by apply ok_or_some, Hr in Hi as [? Hi]; rewrite Hi in Hn end.

Lemma require_failed_attempt_no_panic p indexes node_id attempt invocation_id :
  indexes_in_range indexes p.(RunProjection.attempts) →
  no_panic (require_failed_attempt p indexes node_id attempt invocation_id).
Proof.
  intros Hr. unfold require_failed_attempt. solve_no_panic. in_bounds Hr.
Qed.

Lemma no_panic_expect {E A} (a : A) message : no_panic (expect (E:=E) (Some a) message).
Proof. by intros ?. Qed.
Hint Resolve no_panic_expect require_failed_attempt_no_panic : woml.

Lemma apply_payload_no_panic p event index indexes previous :
  validate event = Ok tt → indexes_in_range indexes p.(RunProjection.attempts) →
  no_panic (apply_payload p event index indexes previous).
Proof.
  intros Hv Hr. pose proof (loop_event_scope _ Hv) as Hscope. clear Hv. unfold apply_payload.
  destruct (RunEvent.payload event) eqn:Hp; cbn beta iota zeta;
    try (destruct (Hscope eq_refl) as [scope Hs]); clear Hscope Hp.
  all: cbv delta [apply_for_each_iteration_started apply_for_each_iteration_succeeded
    apply_for_each_iteration_failed apply_for_each_iteration_skipped] beta; try rewrite Hs.
  all: solve_no_panic. all: in_bounds Hr.
Qed.

Lemma apply_to_execution_no_panic e scope event previous :
  no_panic (apply_to_execution e scope event previous).
Proof. unfold apply_to_execution. destruct (RunEvent.payload event); solve_no_panic. Qed.

Lemma apply_no_panic s event : coherent s → no_panic (apply s event).
Proof.
  intros Hc. assert (indexes_in_range s.(ProjectionFoldState.attempt_indexes) s.(ProjectionFoldState.projection).(RunProjection.attempts)) as Hr.
  { intros key i Hi%Hc. apply fmap_Some in Hi as (a & Ha & _). by exists a. }
  unfold apply. apply no_panic_bind; [apply no_panic_map_err, validate_no_panic|].
  intros [] Hv%map_err_ok. assert (no_panic (dispatch s event)) as Hd.
  { unfold dispatch. case_match; [|by apply apply_payload_no_panic].
    pose proof apply_to_execution_no_panic. unfold apply_iteration_scoped_event. solve_no_panic. }
  solve_no_panic.
Qed.

(** C26 Folding never panics: on every list of events, valid or not, [fold_events] returns a
    projection or an error.  The three slice indexings by [attempt_indexes] stay in bounds and
    the four [expect("validated iteration scope")] find a scope. *)
Theorem fold_never_panics events message : fold_events events ≠ Panic message.
Proof.
  assert (no_panic (from_events events)) as Hp; cycle 1.
  { unfold fold_events. apply no_panic_bind; [done|auto with woml]. }
  induction events as [|event events IH] using rev_ind; [done|].
  unfold from_events in *. rewrite apply_all_app. apply no_panic_bind; [done|]. intros s Hs. simpl.
  apply no_panic_bind; [|auto with woml].
  apply apply_no_panic, (invariant_holds coherent). by exists events.
Qed.
(** ** The run implements the attempt ledger *)

Definition run_ledger (p : RunProjection) : ledger := Ledger p.(RunProjection.attempts) p.(RunProjection.pending_retries).

Definition touches_ledger (payload : RunEventPayload) : bool :=
  touches_attempts payload || touches_retries payload.

#[global] Instance frame_field_ledger : FrameField run_ledger touches_ledger.
Proof.
  split; [done|done|]. intros payload p p' Hf [Ha Hr]%orb_false_iff. unfold run_ledger.
  by rewrite (frame_attempts _ _ _ Hf), (frame_retries _ _ _ Hf).
Qed.

(** The contract of a retry schedule. *)
Lemma retry_contract event data :
  validate event = Ok tt → event.(RunEvent.payload) = RunEventPayload.StepRetryScheduled data →
  (data.(StepRetryScheduledData.failed_attempt) ≤ 9)%N
  ∧ data.(StepRetryScheduledData.next_attempt) = (data.(StepRetryScheduledData.failed_attempt) + 1)%N.
Proof.
  intros (event' & Hv & Hp & _)%validate_contract_at Hd. rewrite Hd in Hp.
  unfold validate_payload in Hv. rewrite Hp in Hv. unfold_contracts Hv. invert_ok.
  simplify_guards. split; [done|]. rewrite u32_add_small in *; [done|]. unfold u32_modulus. lia.
Qed.

Lemma check_pending_retry_ok previous schedule event data :
  check_pending_retry previous schedule event data = Ok tt →
  match previous, schedule with
  | None, None => True
  | Some a, Some r =>
      attempt_is_failed a.(AttemptProjection.status) = true
      ∧ r.(RetryScheduleProjection.next_attempt) = data.(StepAttemptStartedData.attempt)
      ∧ (r.(RetryScheduleProjection.scheduled_at) ≤ event.(RunEvent.occurred_at))%Z
  | _, _ => False
  end.
Proof.
  unfold check_pending_retry. intros Hc. destruct previous, schedule; try done.
  invert_ok. simplify_guards. done.
Qed.

Lemma run_refines_ledger p event index indexes previous p' indexes' :
  validate event = Ok tt → (6 ≤ event.(RunEvent.event_schema_version))%N →
  apply_payload p event index indexes previous = Ok (p', indexes') →
  ledger_step event.(RunEvent.occurred_at) (run_ledger p) (run_ledger p').
Proof.
  intros Hv H6 Ha. destruct (touches_ledger event.(RunEvent.payload)) eqn:Ht.
  2: { rewrite (field_frame (f:=run_ledger) _ _ _ (apply_payload_frame _ _ _ _ _ _ _ Ha) Ht).
    apply ledger_idle. }
  destruct (touches_attempts event.(RunEvent.payload)) eqn:Hat.
  - pose proof (apply_payload_attempts _ _ _ _ _ _ _ Ha Hat) as Hstep. unfold run_ledger at 2.
    destruct Hstep as [data Hp Hfresh Hinactive Hn Hnew|]; [|by apply ledger_settle with (l := run_ledger p)].
    destruct (Hn H6) as (Hexp & Hret%check_pending_retry_ok & _). rewrite bool_decide_eq_true_2 by done.
    destruct (latest_attempt p _) as [a|] eqn:Hl, (_ !! _) as [r|] eqn:Hr; try done.
    + destruct Hret as (? & ? & ?). by eapply (ledger_start_retry _ (run_ledger p)).
    + rewrite delete_id by done. by eapply (ledger_start_first _ (run_ledger p)).
  - unfold touches_ledger in Ht. rewrite Hat in Ht. unfold apply_payload in Ha.
    destruct (RunEvent.payload event) as [] eqn:Hp; try discriminate;
      cbn beta iota zeta in Ha; invert_handler Ha; simplify_guards; simplify_eq.
    all: try apply (ledger_clear _ (run_ledger p)).
    destruct (retry_contract _ _ Hv Hp). by apply (schedule_step _ (run_ledger p)).
Qed.

(** From schema v6 on the attempts of the run are an ordered ledger. *)
#[global] Instance run_ledger_invariant : Invariant (λ s, ∀ v,
  s.(ProjectionFoldState.projection).(RunProjection.event_schema_version) = Some v → (6 ≤ v)%N →
  ledger_ok (run_ledger s.(ProjectionFoldState.projection))).
Proof.
  apply (versioned_invariant run_ledger touches_ledger (λ v l, (6 ≤ v)%N → ledger_ok l)).
  - by intros [].
  - intros _ _. apply ledger_empty_ok.
  - intros s event p' indexes' _ _ Hok Hv _ _ Ha H6.
    eapply ledger_step_ok; [|by apply Hok]. by eapply run_refines_ledger.
Qed.

(** The version of the run is that of its events. *)
Lemma apply_version s event s' v :
  apply s event = Ok s' → s'.(ProjectionFoldState.projection).(RunProjection.event_schema_version) = Some v →
  v = event.(RunEvent.event_schema_version).
Proof.
  intros Happ Hv. destruct (apply_ok _ _ _ Happ) as [p' Ha].
  destruct (touches_identity event.(RunEvent.payload) && negb (in_iteration event)) eqn:Ht.
  - apply andb_true_iff in Ht as [Ht Hi%negb_true_iff].
    pose proof (dispatch_top _ _ _ _ (applied_dispatch _ _ _ _ Ha) Hi) as Hd.
    destruct (apply_payload_admission _ _ _ _ _ _ _ Hd Ht) as (_ & _ & Hp').
    rewrite (apply_field RunProjection.event_schema_version touches_identity _ _ _ _ Ha), Hp' in Hv. congruence.
  - rewrite (apply_untouched RunProjection.event_schema_version touches_identity _ _ _ Happ Ht) in Hv.
    by apply (applied_version _ _ _ _ Ha).
Qed.

(** C9 From schema v6 on the run implements the attempt ledger: every event starts the first
    attempt of a node, or the next one after its failed attempt and not before the time its
    retry was scheduled for, or settles a running attempt, or schedules one retry of a failed
    attempt, or leaves the ledger alone. *)
Theorem run_implements_attempt_ledger s event s' v :
  apply s event = Ok s' → s'.(ProjectionFoldState.projection).(RunProjection.event_schema_version) = Some v → (6 ≤ v)%N →
  ledger_step event.(RunEvent.occurred_at) (run_ledger s.(ProjectionFoldState.projection)) (run_ledger s'.(ProjectionFoldState.projection)).
Proof.
  intros Happ Hv H6. rewrite (apply_version _ _ _ _ Happ Hv) in H6.
  assert (Reflexive (ledger_step event.(RunEvent.occurred_at))) by (intros l; apply ledger_idle).
  apply (apply_field_step run_ledger touches_ledger _ _ _ _ Happ).
  intros p' Hval _ _ Ha. by eapply run_refines_ledger.
Qed.

(** The attempts of a run stay in order (schema v6 and later): no invocation identifier is
    used twice; the attempts of each node are numbered 1 to k with k at most 10; all but the
    latest have failed, so at most one is running; and a pending retry names the latest attempt,
    which has failed, and its successor. *)
Theorem attempts_in_order events s v :
  from_events events = Ok s → s.(ProjectionFoldState.projection).(RunProjection.event_schema_version) = Some v → (6 ≤ v)%N →
  ledger_ok (run_ledger s.(ProjectionFoldState.projection)).
Proof.
  intros Hs. apply (invariant_holds _ s (ex_intro _ _ Hs) (Invariant0:=run_ledger_invariant)).
Qed.
End with_externals.
