(* ===== verification/LoopProperties.v ===== *)
(** * Properties of for-each loops

    What an event may do to the loops of a run, as a step relation; the invariant of
    every loop; and the induction principle for invariants of the executions its
    iterations own, which keep the same ledgers of attempts and retries as the run. *)

From S2P Require Import Prelude Strings Json EventTypes ProjectionTypes Guards FoldRun.
From S2P Require Import FoldControlFlow FoldCorrection FoldApprovals FoldOperations FoldLifecycle.
From S2P Require Import IterationFold EventIdentities EventValidation Fold FoldFrames.
From S2P Require Import ValidationProperties HistoryProperties AttemptProperties.

Definition iteration_is_started (s : ForEachIterationStatus) : bool :=
  match s with ForEachIterationStatus.Started => true | _ => false end.

Definition clear_retries (e : ForEachIterationExecutionProjection) : ForEachIterationExecutionProjection :=
  e <|ForEachIterationExecutionProjection.pending_retries := ∅|>.

Section with_externals.
Context `{Externals}.

(** ** Steps *)

(** The settlement that [apply_for_each_settled] accepts. *)
Record settlement (loop : ForEachProjection) (status : ForEachStatus) : Prop := {
  settlement_sum : u32_add (u32_add (count_iterations iteration_succeeded loop)
    (count_iterations iteration_failed loop)) (count_iterations iteration_skipped loop) = loop.(ForEachProjection.total);
  settlement_success : status = ForEachStatus.Succeeded →
    count_iterations iteration_failed loop = 0%N ∧ count_iterations iteration_skipped loop = 0%N;
  settlement_closed : status ≠ ForEachStatus.Open;
  settlement_idle : owns_active_work loop = false;
}.

(** What one event does to one open loop; [context] is the run's. *)
Inductive loop_step (context : WorkflowContext) (previous : option RunEvent) (event : RunEvent)
    (loop : ForEachProjection) : ForEachProjection → Prop :=
| loop_iteration_started scope :
    event.(RunEvent.iteration) = Some scope → loop.(ForEachProjection.status) = ForEachStatus.Open →
    (scope.(ForEachIterationScope.index) < loop.(ForEachProjection.total))%N → loop.(ForEachProjection.iterations) !! scope.(ForEachIterationScope.index) = None →
    loop_step context previous event loop (loop
      <|ForEachProjection.iterations ::= <[scope.(ForEachIterationScope.index) := ForEachIterationStatus.Started]> |>
      <|ForEachProjection.executions ::= <[scope.(ForEachIterationScope.index) := new_execution context]> |>)
| loop_iteration_succeeded scope result :
    event.(RunEvent.iteration) = Some scope →
    loop.(ForEachProjection.iterations) !! scope.(ForEachIterationScope.index) = Some ForEachIterationStatus.Started →
    loop_step context previous event loop (loop
      <|ForEachProjection.iterations ::= <[scope.(ForEachIterationScope.index) := ForEachIterationStatus.Succeeded result]> |>)
| loop_iteration_failed scope node_id :
    event.(RunEvent.iteration) = Some scope →
    loop.(ForEachProjection.iterations) !! scope.(ForEachIterationScope.index) = Some ForEachIterationStatus.Started →
    loop_step context previous event loop (loop
      <|ForEachProjection.iterations ::= <[scope.(ForEachIterationScope.index) := ForEachIterationStatus.Failed node_id]> |>
      <|ForEachProjection.executions ::= alter clear_retries scope.(ForEachIterationScope.index)|>)
| loop_iteration_skipped scope :
    event.(RunEvent.iteration) = Some scope → loop.(ForEachProjection.status) = ForEachStatus.Open →
    (scope.(ForEachIterationScope.index) < loop.(ForEachProjection.total))%N → loop.(ForEachProjection.iterations) !! scope.(ForEachIterationScope.index) = None →
    loop_step context previous event loop (loop
      <|ForEachProjection.iterations ::= <[scope.(ForEachIterationScope.index) := ForEachIterationStatus.Skipped]> |>)
| loop_iteration_work scope execution execution' :
    event.(RunEvent.iteration) = Some scope → loop.(ForEachProjection.status) = ForEachStatus.Open →
    loop.(ForEachProjection.iterations) !! scope.(ForEachIterationScope.index) = Some ForEachIterationStatus.Started →
    loop.(ForEachProjection.executions) !! scope.(ForEachIterationScope.index) = Some execution →
    apply_to_execution execution scope event previous = Ok execution' →
    loop_step context previous event loop (loop
      <|ForEachProjection.executions ::= <[scope.(ForEachIterationScope.index) := execution']> |>)
| loop_settled status :
    loop.(ForEachProjection.status) = ForEachStatus.Open → settlement loop status →
    loop_step context previous event loop (loop <|ForEachProjection.status := status|>).

Definition opened_loop (data : ForEachOpenedData) : ForEachProjection :=
  {| ForEachProjection.for_each_id := data.(ForEachOpenedData.for_each_id); ForEachProjection.total := data.(ForEachOpenedData.total);
     ForEachProjection.items_digest := data.(ForEachOpenedData.items_digest); ForEachProjection.concurrency := data.(ForEachOpenedData.concurrency);
     ForEachProjection.status := ForEachStatus.Open; ForEachProjection.iterations := ∅; ForEachProjection.executions := ∅ |}.

Inductive for_each_step (s : ProjectionFoldState) (event : RunEvent) :
    gmap string ForEachProjection → Prop :=
| for_each_open data :
    s.(ProjectionFoldState.projection).(RunProjection.for_each) !! data.(ForEachOpenedData.for_each_id) = None →
    (data.(ForEachOpenedData.total) ≤ 10000)%N →
    for_each_step s event
      (<[data.(ForEachOpenedData.for_each_id) := opened_loop data]> s.(ProjectionFoldState.projection).(RunProjection.for_each))
| for_each_loop id loop loop' :
    s.(ProjectionFoldState.projection).(RunProjection.for_each) !! id = Some loop →
    loop_step s.(ProjectionFoldState.projection).(RunProjection.context) s.(ProjectionFoldState.previous_event) event loop loop' →
    for_each_step s event (<[id := loop']> s.(ProjectionFoldState.projection).(RunProjection.for_each))
| for_each_idle : for_each_step s event s.(ProjectionFoldState.projection).(RunProjection.for_each).

Lemma opened_total event data :
  validate event = Ok tt → event.(RunEvent.payload) = RunEventPayload.ForEachOpened data →
  (data.(ForEachOpenedData.total) ≤ 10000)%N.
Proof.
  intros (event' & Hv & Hp & _)%validate_contract_at Hd. rewrite Hd in Hp.
  unfold validate_payload in Hv. rewrite Hp in Hv. unfold_contracts Hv. invert_ok.
  by simplify_guards.
Qed.

(** The status a settlement event decides. *)
Definition settled_status (payload : RunEventPayload) : ForEachStatus :=
  match payload with
  | RunEventPayload.ForEachSucceeded _ => ForEachStatus.Succeeded
  | RunEventPayload.ForEachCancelled _ => ForEachStatus.Cancelled
  | _ => ForEachStatus.Failed
  end.

Lemma apply_for_each_settled_ok p event data p' :
  apply_for_each_settled p event data = Ok p' →
  ∃ loop, p.(RunProjection.for_each) !! data.(ForEachSettledData.for_each_id) = Some loop
    ∧ loop.(ForEachProjection.status) = ForEachStatus.Open
    ∧ settlement loop (settled_status event.(RunEvent.payload))
    ∧ p'.(RunProjection.for_each) = <[data.(ForEachSettledData.for_each_id) :=
        loop <|ForEachProjection.status := settled_status event.(RunEvent.payload)|> ]> p.(RunProjection.for_each).
Proof.
  unfold apply_for_each_settled. intros Ha.
  apply result_bind_ok in Ha as ([] & _ & Ha). cbv zeta in Ha.
  apply result_bind_ok in Ha as (loop & Hl%ok_or_ok & Ha).
  apply result_bind_ok in Ha as ([] & Hg%fail_if_ok & Ha). simplify_guards.
  exists loop. split_and!; [done|done| |by destruct (RunEvent.payload event); invert_ok].
  split; [done| |by destruct (RunEvent.payload event)|done].
  destruct (RunEvent.payload event); try done. simpl in *. simplify_guards. done.
Qed.

Lemma apply_for_each s event s' :
  apply s event = Ok s' → for_each_step s event s'.(ProjectionFoldState.projection).(RunProjection.for_each).
Proof.
  intros [p' Ha]%apply_ok. rewrite (applied_projection _ _ _ _ Ha). cbn.
  pose proof (applied_dispatch _ _ _ _ Ha) as Hd. pose proof (applied_valid _ _ _ _ Ha) as Hv.
  destruct (in_iteration event) eqn:Hi.
  - apply dispatch_iteration in Hd as [Hd _]; [|done].
    apply apply_iteration_scoped_event_ok in Hd as (scope & loop & e & e' & [? ? ? ? ? ? ? ->]).
    eapply for_each_loop; [done|]. by eapply loop_iteration_work.
  - apply dispatch_top in Hd; [|done]. destruct (loop_event event.(RunEvent.payload)) eqn:Hl.
    2: { rewrite (frame_for_each _ _ _ (apply_payload_frame _ _ _ _ _ _ _ Hd) Hl). constructor. }
    unfold apply_payload in Hd. clear Ha.
    destruct (RunEvent.payload event) as [] eqn:Hp; try discriminate Hl; cbn beta iota zeta in Hd;
      try (apply result_bind_ok in Hd as (q & Hq & [= <- _]%Ok_inj);
           apply apply_for_each_settled_ok in Hq as (loop & ? & ? & ? & ->);
           by eapply for_each_loop, loop_settled);
      invert_handler Hd; simplify_guards; simplify_eq; cbn.
    + apply for_each_open; [by apply contains_key_false|by eapply opened_total].
    + eapply for_each_loop; [done|]. eapply loop_iteration_started; try done; [lia|].
      by apply contains_key_false.
    + by eapply for_each_loop, loop_iteration_succeeded.
    + by eapply for_each_loop, loop_iteration_succeeded.
    + by eapply for_each_loop, loop_iteration_succeeded.
    + by eapply for_each_loop, loop_iteration_failed.
    + eapply for_each_loop; [done|]. eapply loop_iteration_skipped; try done; [lia|].
      by apply contains_key_false.
Qed.

(** ** The invariant of one loop *)

Record loop_ok (id : string) (loop : ForEachProjection) : Prop := {
  loop_id : loop.(ForEachProjection.for_each_id) = id;
  loop_total : (loop.(ForEachProjection.total) ≤ 10000)%N;
  loop_range : ∀ i status, loop.(ForEachProjection.iterations) !! i = Some status → (i < loop.(ForEachProjection.total))%N;
  loop_executions : ∀ i, is_Some (loop.(ForEachProjection.executions) !! i) ↔
    ∃ status, loop.(ForEachProjection.iterations) !! i = Some status ∧ iteration_skipped status = false;
  loop_complete : loop.(ForEachProjection.status) ≠ ForEachStatus.Open → ∀ i, (i < loop.(ForEachProjection.total))%N →
    ∃ status, loop.(ForEachProjection.iterations) !! i = Some status ∧ iteration_is_started status = false;
  loop_success : loop.(ForEachProjection.status) = ForEachStatus.Succeeded → ∀ i status,
    loop.(ForEachProjection.iterations) !! i = Some status → iteration_succeeded status = true;
}.

Lemma iterations_size total (m : gmap N ForEachIterationStatus) :
  (∀ i status, m !! i = Some status → (i < total)%N) →
  size m ≤ N.to_nat total
  ∧ (size m = N.to_nat total → ∀ i, (i < total)%N → is_Some (m !! i)).
Proof.
  intros Hm. set (X := list_to_set (index_range total) : gset N).
  assert (size X = N.to_nat total) as HX.
  { unfold X, index_range. rewrite size_list_to_set, length_fmap, length_seq; [done|].
    apply NoDup_fmap_2; [apply _|]. apply NoDup_seq. }
  assert (∀ i, i ∈ X ↔ (i < total)%N) as HXi.
  { intros i. unfold X, index_range. rewrite elem_of_list_to_set, list_elem_of_fmap.
    setoid_rewrite elem_of_seq. split; [intros (j & -> & ?); lia|].
    intros. exists (N.to_nat i). lia. }
  assert (dom m ⊆ X) as Hsub.
  { intros i [status Hi]%elem_of_dom. apply HXi. by eapply Hm. }
  rewrite <-(size_dom m). split; [rewrite <-HX; by apply subseteq_size|].
  intros Hs i Hi. apply elem_of_dom. rewrite (set_subseteq_size_eq (dom m) X Hsub) by lia.
  by apply HXi.
Qed.

(** The three ways an iteration settles exclude each other. *)
Lemma settled_counts (l : list ForEachIterationStatus) :
  let n := length (List.filter iteration_succeeded l) + length (List.filter iteration_failed l)
           + length (List.filter iteration_skipped l) in
  n ≤ length l ∧ (n = length l → ∀ status, status ∈ l → iteration_is_started status = false).
Proof.
  induction l as [|status l [IHle IH]]; simpl; [split; [lia|set_solver]|].
  destruct status; simpl; (split; [lia|]); intros Hn status' Hin; try lia.
  all: apply elem_of_cons in Hin as [->|Hin]; [done|apply IH; [lia|done]].
Qed.

Lemma filter_none {A} (f : A → bool) (l : list A) :
  length (List.filter f l) = 0 → ∀ a, a ∈ l → f a = false.
Proof.
  induction l as [|b l IH]; simpl; intros Hl a Ha; [set_solver|].
  destruct (f b) eqn:Hb; [done|]. apply elem_of_cons in Ha as [->|Ha]; auto.
Qed.

Lemma iterations_lookup (loop : ForEachProjection) i status :
  loop.(ForEachProjection.iterations) !! i = Some status → status ∈ btree_values loop.(ForEachProjection.iterations).
Proof. intros Hi. apply elem_of_btree_values. by exists i. Qed.

Lemma btree_values_length {K V} `{Countable K} `{!BTreeKey K} (m : gmap K V) :
  length (btree_values m) = size m.
Proof. unfold btree_values. by rewrite length_fmap, btree_iter_Permutation, length_map_to_list. Qed.

(** What the counts of a settlement say about the iterations. *)
Lemma settlement_counts id loop status :
  loop_ok id loop → settlement loop status →
  (∀ i, (i < loop.(ForEachProjection.total))%N →
     ∃ st, loop.(ForEachProjection.iterations) !! i = Some st ∧ iteration_is_started st = false)
  ∧ (status = ForEachStatus.Succeeded → ∀ i st,
     loop.(ForEachProjection.iterations) !! i = Some st → iteration_succeeded st = true).
Proof.
  intros Hok Hs. destruct (iterations_size _ _ (loop_range _ _ Hok)) as [Hle Hall].
  pose proof (settled_counts (btree_values loop.(ForEachProjection.iterations))) as [Hcle Hc].
  pose proof (settlement_sum _ _ Hs) as Hsum. pose proof (loop_total _ _ Hok) as Ht.
  pose proof (settlement_success _ _ Hs) as Hsuc.
  rewrite btree_values_length in Hcle, Hc. unfold count_iterations in *.
  assert (∀ f, let n := length (List.filter f (btree_values loop.(ForEachProjection.iterations))) in
    as_u32 n = N.of_nat n) as Hw.
  { intros f n. apply as_u32_small. unfold u32_modulus.
    pose proof (List.filter_length_le f (btree_values loop.(ForEachProjection.iterations))) as Hf.
    rewrite btree_values_length in Hf. lia. }
  cbv zeta in Hw. rewrite !Hw in Hsum. rewrite !Hw in Hsuc.
  rewrite (u32_add_small (N.of_nat _) (N.of_nat _)), u32_add_small in Hsum by (unfold u32_modulus; lia).
  assert (∀ i st, loop.(ForEachProjection.iterations) !! i = Some st → iteration_is_started st = false) as Hns.
  { intros i st Hi%iterations_lookup. apply Hc; [lia|done]. }
  split.
  - intros i Hi. destruct (Hall ltac:(lia) i Hi) as [st Hst]. eauto.
  - intros Hst i st Hi. destruct (Hsuc Hst) as [Hf Hk].
    pose proof (Hns _ _ Hi). apply iterations_lookup in Hi.
    pose proof (filter_none iteration_failed (btree_values loop.(ForEachProjection.iterations)) ltac:(lia) _ Hi).
    pose proof (filter_none iteration_skipped (btree_values loop.(ForEachProjection.iterations)) ltac:(lia) _ Hi). by destruct st.
Qed.

(** Settling a started iteration: it keeps its execution. *)
Lemma iteration_settled_ok id loop i status executions :
  loop_ok id loop → loop.(ForEachProjection.iterations) !! i = Some ForEachIterationStatus.Started →
  iteration_is_started status = false → iteration_skipped status = false →
  (∀ j, is_Some (executions !! j) ↔ is_Some (loop.(ForEachProjection.executions) !! j)) →
  loop_ok id (loop <|ForEachProjection.iterations ::= <[i := status]> |> <|ForEachProjection.executions := executions|>).
Proof.
  intros [Hid Ht Hr He Hc Hs] Hi Hns Hnk Hx. split; cbn; try done.
  - intros j st [(<- & _)|[_ ?]]%lookup_insert_Some; by eapply Hr.
  - intros j. rewrite Hx, He. destruct (decide (j = i)) as [->|Hne].
    + rewrite lookup_insert_eq, Hi. naive_solver.
    + by rewrite lookup_insert_ne.
  - intros Hst j Hj. destruct (Hc Hst j Hj) as (st & Hj' & ?).
    destruct (decide (j = i)) as [->|Hne]; [by rewrite lookup_insert_eq; eauto|].
    rewrite lookup_insert_ne by done. eauto.
  - intros Hst j st [(<- & _)|[_ ?]]%lookup_insert_Some; [|by eapply Hs]. by apply (Hs Hst) in Hi.
Qed.

Lemma loop_step_ok context previous event id loop loop' :
  loop_step context previous event loop loop' → loop_ok id loop → loop_ok id loop'.
Proof.
  intros Hstep Hok. pose proof Hok as [Hid Ht Hr He Hc Hs]. destruct Hstep as [scope _ Ho Hi Hn
    |scope result _ Hi|scope node _ Hi|scope _ Ho Hi Hn|scope e e' _ Ho Hi Hx _|status Ho Hset].
  - split; cbn; rewrite ?Ho; try done.
    + intros i st [(<- & <-)|[_ ?]]%lookup_insert_Some; [done|by eapply Hr].
    + intros i. destruct (decide (i = scope.(ForEachIterationScope.index))) as [->|Hne].
      * rewrite !lookup_insert_eq. naive_solver.
      * rewrite !lookup_insert_ne by done. apply He.
  - exact (iteration_settled_ok _ _ _ (ForEachIterationStatus.Succeeded result) _ Hok Hi eq_refl eq_refl
      (λ j, iff_refl _)).
  - apply (iteration_settled_ok _ _ _ (ForEachIterationStatus.Failed node) _ Hok Hi eq_refl eq_refl).
    intros j.
    rewrite lookup_alter. case_decide; subst; by rewrite ?fmap_is_Some.
  - split; cbn; rewrite ?Ho; try done.
    + intros i st [(<- & <-)|[_ ?]]%lookup_insert_Some; [done|by eapply Hr].
    + intros i. rewrite He. destruct (decide (i = scope.(ForEachIterationScope.index))) as [->|Hne].
      * rewrite lookup_insert_eq, Hn. naive_solver.
      * by rewrite lookup_insert_ne.
  - split; cbn; rewrite ?Ho; try done. intros i. rewrite <-He.
    destruct (decide (i = scope.(ForEachIterationScope.index))) as [->|Hne].
    + by rewrite lookup_insert_eq, Hx.
    + by rewrite lookup_insert_ne.
  - destruct (settlement_counts _ _ _ Hok Hset). by split.
Qed.

Definition loops_ok (for_each : gmap string ForEachProjection) : Prop :=
  map_Forall loop_ok for_each.

#[global] Instance loops_invariant : Invariant (λ s, loops_ok s.(ProjectionFoldState.projection).(RunProjection.for_each)).
Proof.
  split; [apply map_Forall_empty|]. intros s event s' _ Hok Happ.
  destruct (apply_for_each _ _ _ Happ) as [data Hn Ht|id loop loop' Hl Hstep|]; [| |done].
  - apply map_Forall_insert_2; [|done]. split; cbn; try done.
    + intros i. rewrite !lookup_empty. split; [by intros []|naive_solver].
  - apply map_Forall_insert_2; [|done]. eapply loop_step_ok; [done|by apply Hok].
Qed.

(** ** Invariants of the executions *)

Definition executions_satisfy (P : ForEachIterationExecutionProjection → Prop)
    (for_each : gmap string ForEachProjection) : Prop :=
  ∀ id loop i e, for_each !! id = Some loop → loop.(ForEachProjection.executions) !! i = Some e → P e.

Lemma executions_invariant (P : ForEachIterationExecutionProjection → Prop) :
  (∀ context, P (new_execution context)) →
  (∀ e, P e → P (clear_retries e)) →
  (∀ e scope event previous e', validate event = Ok tt → P e →
     apply_to_execution e scope event previous = Ok e' → P e') →
  Invariant (λ s, executions_satisfy P s.(ProjectionFoldState.projection).(RunProjection.for_each)).
Proof.
  intros Hnew Hclear Hwork. split; [by intros ? ? ? ? Hl|]. intros s event s' _ HP Happ.
  assert (validate event = Ok tt) as Hv by (by apply apply_ok in Happ as [p' []]).
  destruct (apply_for_each _ _ _ Happ) as [data Hn Ht|id loop loop' Hl Hstep|]; [| |done].
  - intros id loop i e [(<- & <-)|[_ ?]]%lookup_insert_Some He; [done|by eapply HP].
  - intros id' loop0 i e [(<- & <-)|[_ ?]]%lookup_insert_Some He; [|by eapply HP].
    specialize (λ i e, HP id loop i e Hl). destruct Hstep; cbn in He; try by eapply HP.
    + apply lookup_insert_Some in He as [(_ & <-)|[_ ?]]; [done|by eapply HP].
    + apply lookup_alter_Some in He as [(_ & e0 & ? & ->)|[_ ?]]; [|by eapply HP].
      eapply Hclear, HP. done.
    + apply lookup_insert_Some in He as [(_ & <-)|[_ ?]]; [|by eapply HP].
      eapply Hwork; [done|by eapply HP|done].
Qed.

(** ** Theorems *)

(** C31 A for-each loop is settled completely or not at all: once it has left the state Open, each
    of its [total] iterations has ended, none is still started and none lies outside the range;
    and when the loop succeeded every one of them succeeded.  The settlement event reports only
    three counters, whose u32 sum could wrap; the bound of 10000 items excludes it. *)
Theorem loop_settled_complete events s id loop :
  from_events events = Ok s →
  s.(ProjectionFoldState.projection).(RunProjection.for_each) !! id = Some loop →
  loop.(ForEachProjection.status) ≠ ForEachStatus.Open →
  (∀ i, (i < loop.(ForEachProjection.total))%N ↔ is_Some (loop.(ForEachProjection.iterations) !! i))
  ∧ (∀ i status, loop.(ForEachProjection.iterations) !! i = Some status →
       iteration_is_started status = false
       ∧ (loop.(ForEachProjection.status) = ForEachStatus.Succeeded → iteration_succeeded status = true)).
Proof.
  intros Hs Hl Hst. pose proof (invariant_holds _ s (ex_intro _ _ Hs)) as Hok.
  destruct (Hok _ _ Hl) as [_ _ Hr _ Hc Hsuc]. split.
  - intros i. split; [|by intros [status Hi]; eapply Hr].
    intros Hi. destruct (Hc Hst i Hi) as (status & ? & _). by exists status.
  - intros i status Hi. split; [|intros Hss; by eapply Hsuc].
    destruct (Hc Hst i (Hr _ _ Hi)) as (status' & Hi' & ?). by simplify_eq.
Qed.

(** The bounds of a loop: at most 10000 items, no iteration outside the range of the items,
    and an execution exactly for the iterations that have started. *)
Theorem loop_bounds events s id loop i :
  from_events events = Ok s →
  s.(ProjectionFoldState.projection).(RunProjection.for_each) !! id = Some loop →
  loop.(ForEachProjection.for_each_id) = id ∧ (loop.(ForEachProjection.total) ≤ 10000)%N
  ∧ (is_Some (loop.(ForEachProjection.iterations) !! i) → (i < loop.(ForEachProjection.total))%N)
  ∧ (is_Some (loop.(ForEachProjection.executions) !! i) ↔
       ∃ status, loop.(ForEachProjection.iterations) !! i = Some status ∧ iteration_skipped status = false).
Proof.
  intros Hs Hl. pose proof (invariant_holds _ s (ex_intro _ _ Hs)) as Hok.
  destruct (Hok _ _ Hl) as [Hid Ht Hr He _ _]. split_and!; [done|done| |apply He].
  intros [status Hi]. by eapply Hr.
Qed.

(** The result of one iteration. *)
Definition iteration_result (loop : ForEachProjection) (index : N) : option Value :=
  match loop.(ForEachProjection.iterations) !! index with
  | Some (ForEachIterationStatus.Succeeded result) => result
  | _ => None
  end.

Lemma ordered_results_eq loop :
  ordered_results loop = omap (iteration_result loop) (index_range loop.(ForEachProjection.total)).
Proof.
  apply list_omap_ext, Forall_Forall2_diag, Forall_true. intros i. unfold iteration_result.
  by destruct (_ !! i) as [[|[]| |]|].
Qed.

Lemma success_count id loop status :
  loop_ok id loop → settlement loop status → status = ForEachStatus.Succeeded →
  count_iterations iteration_succeeded loop = loop.(ForEachProjection.total).
Proof.
  intros Hok Hset Hs. destruct (settlement_success _ _ Hset Hs) as [Hf Hk].
  pose proof (settlement_sum _ _ Hset) as Hsum. rewrite Hf, Hk in Hsum.
  unfold u32_add in Hsum. rewrite !N.add_0_r in Hsum. rewrite <-Hsum. unfold count_iterations, as_u32.
  by rewrite !N.Div0.mod_mod.
Qed.

(** The output of a loop that succeeds: the event publishes, under the identifier of the loop,
    the number of items twice (total and succeeded) and, when some iteration returned a value,
    the values in the order of the items, whatever order the iterations ended in. *)
Theorem loop_output_ordered s event data s' :
  reachable s → apply s event = Ok s' → event.(RunEvent.payload) = RunEventPayload.ForEachSucceeded data →
  in_iteration event = false →
  ∃ loop, s.(ProjectionFoldState.projection).(RunProjection.for_each) !! data.(ForEachSettledData.for_each_id) = Some loop
    ∧ let total := value_from_u32 loop.(ForEachProjection.total) in
      let results := omap (iteration_result loop) (index_range loop.(ForEachProjection.total)) in
      map_get s'.(ProjectionFoldState.projection).(RunProjection.context).(WorkflowContext.steps) data.(ForEachSettledData.for_each_id) =
        Some (Value.Object ([("total", total); ("succeeded", total)]
                ++ match results with [] => [] | _ => [("results", Value.Array results)] end)).
Proof.
  intros Hr [p' Ha]%apply_ok Hp Hi. pose proof (invariant_holds _ s Hr) as Hok.
  rewrite (applied_projection _ _ _ _ Ha). cbn.
  pose proof (dispatch_top _ _ _ _ (applied_dispatch _ _ _ _ Ha) Hi) as Hd.
  unfold apply_payload in Hd. rewrite Hp in Hd.
  apply result_bind_ok in Hd as (q & Hq & [= <- _]%Ok_inj).
  pose proof (apply_for_each_settled_ok _ _ _ _ Hq) as (loop & Hl & _ & Hset & _).
  rewrite Hp in Hset. exists loop. split; [done|].
  unfold apply_for_each_settled in Hq. rewrite Hp, Hl in Hq. invert_ok. simplify_eq. cbn.
  rewrite map_get_insert_eq. unfold for_each_output.
  rewrite (success_count _ _ _ (Hok _ _ Hl) Hset eq_refl).
  rewrite ordered_results_eq. by destruct (omap _ _).
Qed.
End with_externals.

(** Unfold the arm of one payload. *)
Ltac invert_arm H :=
  cbv beta iota zeta delta
    [iteration_attempt_started iteration_attempt_succeeded iteration_attempt_failed
     iteration_retry_scheduled iteration_choice_selected iteration_branch_selected
     iteration_parallel_group_started iteration_parallel_group_completed
     iteration_lock_wait_registered iteration_lock_acquired iteration_lock_released
     iteration_lock_acquire_timed_out iteration_lock_acquisition_cancelled
     iteration_lock_lease_lost iteration_operation_started iteration_operation_succeeded
     iteration_operation_failed iteration_hook_requested iteration_action_attempt_started
     iteration_action_succeeded iteration_action_failed iteration_hook_completed
     iteration_reusable_requested iteration_reusable_action_started
     iteration_reusable_action_succeeded iteration_reusable_action_failed
     iteration_reusable_completed] in H; invert_ok.

Section with_externals.
Context `{Externals}.

Definition execution_ledger (e : ForEachIterationExecutionProjection) : ledger :=
  Ledger e.(ForEachIterationExecutionProjection.attempts) e.(ForEachIterationExecutionProjection.pending_retries).

Lemma find_attempt_Some attempts node_id attempt invocation_id i a :
  find_attempt attempts node_id attempt invocation_id = Some (i, a) → attempts !! i = Some a.
Proof. by intros (? & _)%list_find_Some. Qed.

Lemma execution_refines_ledger e scope event previous e' :
  validate event = Ok tt → apply_to_execution e scope event previous = Ok e' →
  ledger_step event.(RunEvent.occurred_at) (execution_ledger e) (execution_ledger e').
Proof.
  intros Hv Ha. unfold apply_to_execution in Ha.
  destruct (RunEvent.payload event) as [] eqn:Hp; try discriminate Ha; invert_arm Ha; simplify_guards;
    simplify_eq; try apply ledger_idle.
  - eapply (ledger_start_retry _ (execution_ledger e)); try done; [by apply existsb_eq_false|lia].
  - eapply (ledger_start_first _ (execution_ledger x)); try done. by apply existsb_eq_false.
  - eapply (ledger_settle _ (execution_ledger e)); [by eapply find_attempt_Some|done..].
  - eapply (ledger_settle _ (execution_ledger e)); [by eapply find_attempt_Some|done..].
  - destruct (retry_contract _ _ Hv Hp). by apply (schedule_step _ (execution_ledger e)).
Qed.

#[global] Instance execution_ledger_invariant : Invariant (λ s,
  executions_satisfy (λ e, ledger_ok (execution_ledger e)) s.(ProjectionFoldState.projection).(RunProjection.for_each)).
Proof.
  apply executions_invariant.
  - intros context. apply ledger_empty_ok.
  - intros e He. by eapply ledger_step_ok; [apply (ledger_clear 0 (execution_ledger e))|].
  - intros e scope event previous e' Hv He Ha. eapply ledger_step_ok; [|done].
    by eapply execution_refines_ledger.
Qed.

(** ** Theorems *)

(** Iterations are isolated: an event scoped to an iteration changes the execution of that
    iteration, which must be started in an open loop, and nothing else of the run but the
    sequence number; and it takes the attempt ledger of that execution one step. *)
Theorem iterations_isolated s event s' :
  apply s event = Ok s' → in_iteration event = true →
  ∃ scope loop e e',
    event.(RunEvent.iteration) = Some scope
    ∧ s.(ProjectionFoldState.projection).(RunProjection.for_each) !! scope.(ForEachIterationScope.for_each_id) = Some loop
    ∧ loop.(ForEachProjection.status) = ForEachStatus.Open
    ∧ loop.(ForEachProjection.iterations) !! scope.(ForEachIterationScope.index) = Some ForEachIterationStatus.Started
    ∧ loop.(ForEachProjection.executions) !! scope.(ForEachIterationScope.index) = Some e
    ∧ ledger_step event.(RunEvent.occurred_at) (execution_ledger e) (execution_ledger e')
    ∧ s'.(ProjectionFoldState.attempt_indexes) = s.(ProjectionFoldState.attempt_indexes)
    ∧ s'.(ProjectionFoldState.projection) = s.(ProjectionFoldState.projection)
        <|RunProjection.for_each ::= <[scope.(ForEachIterationScope.for_each_id) :=
            loop <|ForEachProjection.executions ::= <[scope.(ForEachIterationScope.index) := e']> |> ]> |>
        <|RunProjection.last_sequence := event.(RunEvent.sequence)|>.
Proof.
  intros [p' Ha]%apply_ok Hi.
  destruct (dispatch_iteration _ _ _ _ (applied_dispatch _ _ _ _ Ha) Hi) as [Hd Hx].
  apply apply_iteration_scoped_event_ok in Hd as (scope & loop & e & e' & [? ? ? ? ? ? ? ->]).
  exists scope, loop, e, e'. split_and!; try done.
  - eapply execution_refines_ledger; [apply Ha|done].
  - apply Ha.
Qed.

(** Inside every iteration the attempts stay in order too: numbered from 1, at most 10 per
    node, all but the latest failed, every pending retry answering the latest failure. *)
Theorem iteration_attempts_in_order events s id loop i e :
  from_events events = Ok s → s.(ProjectionFoldState.projection).(RunProjection.for_each) !! id = Some loop →
  loop.(ForEachProjection.executions) !! i = Some e → ledger_ok (execution_ledger e).
Proof.
  intros Hs. apply (invariant_holds _ s (ex_intro _ _ Hs) (Invariant0:=execution_ledger_invariant)).
Qed.

(** Work an iteration cannot own: although the event contract admits them, a durable wait and
    a remote-dispatch transition with an iteration scope are rejected by every state of the fold,
    which returns an error. *)
Theorem scoped_wait_or_dispatch_rejected s event :
  reachable s → in_iteration event = true →
  wait_event event.(RunEvent.payload) || remote_dispatch_event event.(RunEvent.payload) = true →
  ∃ e, apply s event = Err e.
Proof.
  intros Hs Hi Hw. pose proof (apply_no_panic s event (invariant_holds coherent s Hs)) as Hp.
  destruct (apply s event) as [s'|e|message] eqn:Ha; [|by eexists|by destruct (Hp message)].
  apply iteration_payload_ok in Ha; [|done]. by destruct (RunEvent.payload event).
Qed.
End with_externals.
