(* ===== verification/LockProperties.v ===== *)
(** * Properties of locks

    The abstract life cycle of a lease, implemented by the locks of the run and
    by those of every for-each iteration. *)

From S2P Require Import Prelude Strings Json EventTypes ProjectionTypes Guards FoldRun.
From S2P Require Import FoldControlFlow FoldCorrection FoldApprovals FoldOperations FoldLifecycle.
From S2P Require Import IterationFold EventIdentities EventValidation Fold FoldFrames.
From S2P Require Import ValidationProperties HistoryProperties LoopProperties.

(** ** The life cycle of a lease *)

Definition acquire (lock : LockProjection) (data : LockAcquiredData) : LockProjection :=
  lock <|LockProjection.status := LockStatus.Held|> <|LockProjection.lease_id := Some data.(LockAcquiredData.lease_id)|>
    <|LockProjection.fencing_token := Some data.(LockAcquiredData.fencing_token)|> <|LockProjection.acquired_at := Some data.(LockAcquiredData.acquired_at)|>
    <|LockProjection.expires_at := Some data.(LockAcquiredData.expires_at)|>.

Definition resolve (lock : LockProjection) (status : LockStatus) (at_ : DateTime) : LockProjection :=
  lock <|LockProjection.status := status|> <|LockProjection.resolved_at := Some at_|>.

(** A waiter is granted the lease, times out or is cancelled; a holder releases the lease or
    loses it; nothing happens to a closed lock. *)
Inductive lock_step : LockProjection → LockProjection → Prop :=
| lock_acquire lock data :
    lock.(LockProjection.status) = LockStatus.Waiting → lock.(LockProjection.key) = data.(LockAcquiredData.key) →
    (data.(LockAcquiredData.acquired_at) < data.(LockAcquiredData.expires_at))%Z →
    lock_step lock (acquire lock data)
| lock_abandon lock status at_ :
    lock.(LockProjection.status) = LockStatus.Waiting →
    status = LockStatus.AcquireTimedOut ∨ status = LockStatus.AcquisitionCancelled →
    lock_step lock (resolve lock status at_)
| lock_end lock status at_ :
    lock.(LockProjection.status) = LockStatus.Held →
    status = LockStatus.Released ∨ status = LockStatus.LeaseLost →
    lock_step lock (resolve lock status at_).

Inductive locks_step (locks : gmap string LockProjection) : gmap string LockProjection → Prop :=
| locks_register data :
    locks !! data.(LockWaitRegisteredData.lock_id) = None →
    locks_step locks (<[data.(LockWaitRegisteredData.lock_id) := waiting_lock data]> locks)
| locks_change id lock lock' :
    locks !! id = Some lock → lock_step lock lock' → locks_step locks (<[id := lock']> locks)
| locks_idle : locks_step locks locks.

(** The lease of a lock in each state. *)
Definition leased (lock : LockProjection) : Prop :=
  is_Some lock.(LockProjection.lease_id) ∧ is_Some lock.(LockProjection.fencing_token)
  ∧ ∃ acquired expires, lock.(LockProjection.acquired_at) = Some acquired ∧ lock.(LockProjection.expires_at) = Some expires
      ∧ (acquired < expires)%Z.
Definition unleased (lock : LockProjection) : Prop :=
  lock.(LockProjection.lease_id) = None ∧ lock.(LockProjection.fencing_token) = None ∧ lock.(LockProjection.acquired_at) = None
  ∧ lock.(LockProjection.expires_at) = None.

Record lock_ok (id : string) (lock : LockProjection) : Prop := {
  lock_ok_id : lock.(LockProjection.lock_id) = id;
  lock_ok_lease :
    match lock.(LockProjection.status) with
    | LockStatus.Held | LockStatus.Released | LockStatus.LeaseLost => leased lock
    | _ => unleased lock
    end;
  lock_ok_resolved :
    match lock.(LockProjection.status) with
    | LockStatus.Waiting | LockStatus.Held => lock.(LockProjection.resolved_at) = None
    | _ => is_Some lock.(LockProjection.resolved_at)
    end;
}.

Definition lock_is_closed (lock : LockProjection) : bool :=
  match lock.(LockProjection.status) with LockStatus.Waiting | LockStatus.Held => false | _ => true end.

(** What later events leave as it is: the key and the waiter's place, the lease once it is
    granted, and the whole lock once it is closed. *)
Record lock_evolves (lock lock' : LockProjection) : Prop := {
  le_key : lock'.(LockProjection.key) = lock.(LockProjection.key);
  le_sequence : lock'.(LockProjection.waiter_sequence) = lock.(LockProjection.waiter_sequence);
  le_identity : lock'.(LockProjection.execution_identity) = lock.(LockProjection.execution_identity);
  le_lease : is_Some lock.(LockProjection.lease_id) → lock'.(LockProjection.lease_id) = lock.(LockProjection.lease_id);
  le_token : is_Some lock.(LockProjection.fencing_token) → lock'.(LockProjection.fencing_token) = lock.(LockProjection.fencing_token);
  le_closed : lock_is_closed lock = true → lock' = lock;
}.

#[global] Instance lock_evolves_preorder : PreOrder lock_evolves.
Proof.
  split; [by split|]. intros x y z Hxy Hyz. pose proof Hxy as [K S I L T C].
  pose proof Hyz as [K' S' I' L' T' C']. split; try congruence.
  - intros Hx. rewrite L' by (by rewrite L). by apply L.
  - intros Hx. rewrite T' by (by rewrite T). by apply T.
  - intros Hx. pose proof (C Hx) as ->. by apply C'.
Qed.

Lemma lock_step_ok id lock lock' : lock_step lock lock' → lock_ok id lock → lock_ok id lock'.
Proof.
  intros Hstep [Hid Hl Hr]. destruct Hstep as [lock data Hs Hk Hlt|lock st at_ Hs Hst|lock st at_ Hs Hst];
    rewrite Hs in *.
  - split; cbn; [done| |done]. unfold leased; cbn. split_and!; [done|done|]. eauto.
  - destruct Hst as [-> | ->]; (split; [done|done|cbn; by eexists]).
  - destruct Hst as [-> | ->]; (split; [done|done|cbn; by eexists]).
Qed.

Lemma lock_step_evolves id lock lock' :
  lock_step lock lock' → lock_ok id lock → lock_evolves lock lock'.
Proof.
  intros Hstep [Hid Hl Hr]. destruct Hstep as [lock data Hs Hk Hlt|lock st at_ Hs Hst|lock st at_ Hs Hst];
    rewrite Hs in *; split; try done; unfold lock_is_closed; rewrite ?Hs; try done.
  all: destruct Hl as (Hlease & Htoken & _); rewrite ?Hlease, ?Htoken; by intros [].
Qed.

Lemma locks_step_ok locks locks' :
  locks_step locks locks' → map_Forall lock_ok locks → map_Forall lock_ok locks'.
Proof.
  intros [data Hn|id lock lock' Hl Hstep|] Hok; [| |done].
  - apply map_Forall_insert_2; [|done]. by split.
  - apply map_Forall_insert_2; [|done]. eapply lock_step_ok; [done|by apply Hok].
Qed.

Lemma locks_step_evolve locks locks' :
  locks_step locks locks' → map_Forall lock_ok locks → entries_evolve lock_evolves locks locks'.
Proof.
  intros [data Hn|id lock lock' Hl Hstep|] Hok; [| |reflexivity].
  - by apply (entries_evolve_new _).
  - eapply (entries_evolve_change _); [done|]. by eapply lock_step_evolves, Hok.
Qed.

Section with_externals.
Context `{Externals}.

(** ** The run and its iterations implement the life cycle *)

(** The contract of an acquisition. *)
Lemma acquired_contract event data :
  validate event = Ok tt → event.(RunEvent.payload) = RunEventPayload.LockAcquired data →
  (data.(LockAcquiredData.acquired_at) < data.(LockAcquiredData.expires_at))%Z.
Proof.
  intros (event' & Hv & Hp & _)%validate_contract_at Hd. rewrite Hd in Hp.
  unfold validate_payload in Hv. rewrite Hp in Hv. unfold_contracts Hv. invert_ok.
  simplify_guards. lia.
Qed.

(** Show that one arm of either fold takes a step. *)
Ltac solve_locks_step Hv Hp :=
  first
    [ by apply locks_idle
    | by apply locks_register, contains_key_false
    | by eapply locks_change, lock_acquire; [..|eapply acquired_contract; [exact Hv|exact Hp]]
    | by eapply locks_change, lock_abandon; [..|left]
    | by eapply locks_change, lock_abandon; [..|right]
    | by eapply locks_change, lock_end; [..|left]
    | by eapply locks_change, lock_end; [..|right] ].

Lemma run_locks_step p event index indexes previous p' indexes' :
  validate event = Ok tt → lock_event event.(RunEvent.payload) = true →
  apply_payload p event index indexes previous = Ok (p', indexes') →
  locks_step p.(RunProjection.locks) p'.(RunProjection.locks).
Proof.
  intros Hv Hl Ha. unfold apply_payload in Ha.
  destruct (RunEvent.payload event) as [] eqn:Hp; try discriminate Hl; cbn beta iota zeta in Ha;
    invert_handler Ha; simplify_guards; simplify_eq; cbn; solve_locks_step Hv Hp.
Qed.

Lemma execution_locks_step e scope event previous e' :
  validate event = Ok tt → apply_to_execution e scope event previous = Ok e' →
  locks_step e.(ForEachIterationExecutionProjection.locks) e'.(ForEachIterationExecutionProjection.locks).
Proof.
  intros Hv Ha. unfold apply_to_execution in Ha.
  destruct (RunEvent.payload event) as [] eqn:Hp; try discriminate Ha; invert_arm Ha; simplify_guards;
    simplify_eq; cbn; solve_locks_step Hv Hp.
Qed.

#[global] Instance run_locks_invariant :
  Invariant (λ s, map_Forall lock_ok s.(ProjectionFoldState.projection).(RunProjection.locks)).
Proof.
  apply (field_invariant RunProjection.locks lock_event (map_Forall lock_ok)); [apply map_Forall_empty|].
  intros s event p' indexes' _ Hok Hv Ht _ Ha. eapply locks_step_ok; [|done].
  by eapply run_locks_step.
Qed.

#[global] Instance execution_locks_invariant : Invariant (λ s,
  executions_satisfy (λ e, map_Forall lock_ok e.(ForEachIterationExecutionProjection.locks)) s.(ProjectionFoldState.projection).(RunProjection.for_each)).
Proof.
  apply executions_invariant; [intros; apply map_Forall_empty|done|].
  intros e scope event previous e' Hv He Ha. eapply locks_step_ok; [|done].
  by eapply execution_locks_step.
Qed.

Instance locks_step_reflexive : Reflexive locks_step.
Proof. intros locks. apply locks_idle. Qed.

Lemma apply_locks_step s event s' :
  apply s event = Ok s' → locks_step s.(ProjectionFoldState.projection).(RunProjection.locks) s'.(ProjectionFoldState.projection).(RunProjection.locks).
Proof.
  intros Happ. apply (apply_field_step RunProjection.locks lock_event locks_step _ _ _ Happ).
  intros p' Hv Ht _ Ha. by eapply run_locks_step.
Qed.

(** ** Theorems *)

(** Every lock of a run follows the life cycle of a lease: one event registers a waiter, or
    takes one lock one step along Waiting -> Held -> Released/LeaseLost or Waiting ->
    AcquireTimedOut/AcquisitionCancelled, or leaves all locks alone; and the fields of the lease
    are set exactly in the states that own one.  The same holds inside every iteration. *)
Theorem locks_follow_life_cycle s event s' :
  reachable s → apply s event = Ok s' →
  locks_step s.(ProjectionFoldState.projection).(RunProjection.locks) s'.(ProjectionFoldState.projection).(RunProjection.locks)
  ∧ map_Forall lock_ok s'.(ProjectionFoldState.projection).(RunProjection.locks)
  ∧ executions_satisfy (λ e, map_Forall lock_ok e.(ForEachIterationExecutionProjection.locks)) s'.(ProjectionFoldState.projection).(RunProjection.for_each).
Proof.
  intros Hr Happ. assert (reachable s') as Hr' by eauto with woml.
  split_and!; [by apply (apply_locks_step _ event)|..].
  - exact (invariant_holds _ s' Hr' (Invariant0:=run_locks_invariant)).
  - exact (invariant_holds _ s' Hr' (Invariant0:=execution_locks_invariant)).
Qed.

(** Later events never rewrite a lock: however a history is extended, the key and the place
    in the queue of each lock stay, its lease and fencing token stay once granted, and a closed
    lock stays exactly as it was closed. *)
Theorem locks_never_rewritten events more s s' :
  from_events events = Ok s → from_events (events ++ more) = Ok s' →
  entries_evolve lock_evolves s.(ProjectionFoldState.projection).(RunProjection.locks) s'.(ProjectionFoldState.projection).(RunProjection.locks).
Proof.
  apply (field_history RunProjection.locks (entries_evolve lock_evolves)). intros x event y Hr Happ.
  apply locks_step_evolve; [by eapply apply_locks_step|].
  exact (invariant_holds _ x Hr (Invariant0:=run_locks_invariant)).
Qed.
End with_externals.
