(* ===== verification/RunProperties.v ===== *)
(** * Properties of the run's life cycle

    The run as a state machine, the single business outcome, what a run that
    has ended has settled, and how the events of locks leave the machine's
    intended order. *)

From S2P Require Import Prelude Strings Json EventTypes ProjectionTypes Guards FoldRun.
From S2P Require Import FoldControlFlow FoldCorrection FoldApprovals FoldOperations FoldLifecycle.
From S2P Require Import IterationFold EventIdentities EventValidation Fold FoldFrames.
From S2P Require Import ValidationProperties HistoryProperties AttemptProperties.

(** ** The state machine *)

Definition run_is_active (s : RunStatus) : bool :=
  match s with RunStatus.Running | RunStatus.Waiting | RunStatus.Cancelling => true | _ => false end.

(** The edges of the run's state machine, each with the payloads that take it. *)
Inductive run_edge : RunEventPayload → RunStatus → RunStatus → Prop :=
| edge_admitted data : run_edge (RunEventPayload.RunAdmitted data) RunStatus.NotStarted RunStatus.Queued
| edge_execution_started data : run_edge (RunEventPayload.RunExecutionStarted data) RunStatus.Queued RunStatus.Running
| edge_started data : run_edge (RunEventPayload.RunStarted data) RunStatus.NotStarted RunStatus.Running
| edge_cancellation data from :
    from = RunStatus.Queued ∨ from = RunStatus.Running ∨ from = RunStatus.Waiting →
    run_edge (RunEventPayload.RunCancellationRequested data) from RunStatus.Cancelling
| edge_suspend payload :
    match payload with
    | RunEventPayload.WaitRegistered _ | RunEventPayload.LockWaitRegistered _ | RunEventPayload.ApprovalRequested _
    | RunEventPayload.ApprovalReviewRequested _ => True | _ => False end →
    run_edge payload RunStatus.Running RunStatus.Waiting
| edge_resume payload :
    match payload with
    | RunEventPayload.WaitSatisfied _ | RunEventPayload.WaitTimedOut _ | RunEventPayload.LockAcquired _ | RunEventPayload.ApprovalResolved _ => True
    | _ => False end →
    run_edge payload RunStatus.Waiting RunStatus.Running
| edge_lock_released data from :
    from = RunStatus.Running ∨ from = RunStatus.Cancelling → run_edge (RunEventPayload.LockReleased data) from RunStatus.Running
| edge_lock_timed_out data from :
    status_is_terminal from = false → run_edge (RunEventPayload.LockAcquireTimedOut data) from RunStatus.Running
| edge_lease_lost data from :
    status_is_terminal from = false → run_edge (RunEventPayload.LockLeaseLost data) from RunStatus.Running
| edge_outcome data from :
    run_is_active from = true → run_edge (RunEventPayload.RunOutcomeDecided data) from RunStatus.Finalizing
| edge_finalized data :
    run_edge (RunEventPayload.RunFinalized data) RunStatus.Finalizing (final_run_status data.(RunFinalizedData.outcome))
| edge_succeeded data : run_edge (RunEventPayload.RunSucceeded data) RunStatus.Running RunStatus.Succeeded
| edge_failed data from :
    from = RunStatus.Running ∨ from = RunStatus.Waiting → run_edge (RunEventPayload.RunFailed data) from RunStatus.Failed.

Section with_externals.
Context `{Externals}.

Lemma apply_payload_status p event index indexes previous p' indexes' :
  apply_payload p event index indexes previous = Ok (p', indexes') →
  status_is_terminal p.(RunProjection.status) = false →
  p'.(RunProjection.status) = p.(RunProjection.status) ∨ run_edge event.(RunEvent.payload) p.(RunProjection.status) p'.(RunProjection.status).
Proof.
  intros Ha Hn. destruct (touches_status event.(RunEvent.payload)) eqn:Ht.
  2: { left. by apply (frame_status _ _ _ (apply_payload_frame _ _ _ _ _ _ _ Ha)). }
  unfold apply_payload in Ha.
  destruct (RunEvent.payload event) as [] eqn:Hp; try discriminate Ht; cbn beta iota zeta in Ha;
    invert_handler Ha; simplify_guards; simplify_eq; cbn;
    match goal with |- context [run_edge _ (RunProjection.status ?q) _] => destruct (RunProjection.status q) eqn:Hs end;
    try discriminate;
    try first [by right; constructor; eauto|by left].
  all: destruct (_ == Some RichApprovalResolutionReason.Cancellation); try discriminate.
  all: first [by right; constructor|by left].
Qed.

Lemma apply_status s event s' :
  apply s event = Ok s' →
  s'.(ProjectionFoldState.projection).(RunProjection.status) = s.(ProjectionFoldState.projection).(RunProjection.status)
  ∨ run_edge event.(RunEvent.payload) s.(ProjectionFoldState.projection).(RunProjection.status) s'.(ProjectionFoldState.projection).(RunProjection.status)
    ∧ in_iteration event = false.
Proof.
  intros Happ. destruct (apply_ok _ _ _ Happ) as [p' Ha].
  destruct (in_iteration event) eqn:Hi.
  - left. apply (apply_untouched RunProjection.status touches_status _ _ _ Happ). by rewrite Hi, andb_false_r.
  - rewrite (apply_field RunProjection.status touches_status _ _ _ _ Ha).
    pose proof (dispatch_top _ _ _ _ (applied_dispatch _ _ _ _ Ha) Hi) as Hd.
    apply apply_payload_status in Hd as [?|?]; [by left|by right|apply Ha].
Qed.

(** The status of a run moves along the edges of one state machine: every event leaves it as
    it is or takes an edge that its payload allows. *)
Theorem run_status_transitions s event s' :
  apply s event = Ok s' →
  s'.(ProjectionFoldState.projection).(RunProjection.status) = s.(ProjectionFoldState.projection).(RunProjection.status)
  ∨ run_edge event.(RunEvent.payload) s.(ProjectionFoldState.projection).(RunProjection.status) s'.(ProjectionFoldState.projection).(RunProjection.status).
Proof. intros [?|[? _]]%apply_status; [by left|by right]. Qed.

(** ** Progress without locks *)

(** The order in which a run is meant to go through its states. *)
Definition run_rank (s : RunStatus) : nat :=
  match s with
  | RunStatus.NotStarted => 0 | RunStatus.Queued => 1 | RunStatus.Running | RunStatus.Waiting => 2 | RunStatus.Cancelling => 3
  | RunStatus.Finalizing => 4 | RunStatus.Succeeded | RunStatus.Failed | RunStatus.Cancelled => 5
  end.

(** The lock events that put the run back to Running. *)
Definition resets_status (payload : RunEventPayload) : bool :=
  match payload with RunEventPayload.LockReleased _ | RunEventPayload.LockAcquireTimedOut _ | RunEventPayload.LockLeaseLost _ => true | _ => false end.

Lemma run_edge_rank payload from to :
  run_edge payload from to → resets_status payload = false → run_rank from ≤ run_rank to.
Proof.
  intros He Hr. destruct He; try discriminate Hr; simpl; try lia.
  - destruct from; naive_solver lia.
  - destruct from; try discriminate; simpl; lia.
  - destruct (RunFinalizedData.outcome data); simpl; lia.
  - destruct from; naive_solver lia.
Qed.

(** Without the three lock events that resume a run, its status only advances: a cancelling
    run never runs again, a run whose outcome is being finalized never leaves that phase but to
    end.  (Lock events break this order, see [lost_lease_strands_run].) *)
Theorem run_status_monotone events more s s' :
  from_events events = Ok s → from_events (events ++ more) = Ok s' →
  Forall (λ event, resets_status event.(RunEvent.payload) = false ∨ in_iteration event = true) more →
  run_rank s.(ProjectionFoldState.projection).(RunProjection.status) ≤ run_rank s'.(ProjectionFoldState.projection).(RunProjection.status).
Proof.
  intros Hs. revert s'. induction more as [|event more IH] using rev_ind; intros s' Hs' Hall.
  - rewrite app_nil_r, Hs in Hs'. by apply Ok_inj in Hs' as ->.
  - rewrite (assoc_L (++)) in Hs'. apply from_events_snoc in Hs' as (s0 & Hs0 & Happ).
    apply Forall_app in Hall as [Hall Hlast%Forall_inv].
    etrans; [by apply IH|]. destruct (apply_status _ _ _ Happ) as [->|[He Hi]]; [done|].
    eapply run_edge_rank; [done|]. destruct Hlast as [Hl|Hl]; [exact Hl|congruence].
Qed.

(** ** The business outcome *)

Definition status_outcome (p : RunProjection) : RunStatus * option BusinessOutcome :=
  (p.(RunProjection.status), p.(RunProjection.business_outcome)).

#[global] Instance frame_field_status_outcome : FrameField status_outcome touches_status.
Proof.
  split; [done|done|]. intros payload p p' Hf Ht. unfold status_outcome.
  rewrite (frame_status _ _ _ Hf Ht), (frame_outcome _ _ _ Hf); [done|].
  by destruct payload.
Qed.

(** A run that is ending has an outcome, and one that has ended has the status of its outcome. *)
Definition outcome_ok (x : RunStatus * option BusinessOutcome) : Prop :=
  (x.1 = RunStatus.Finalizing → is_Some x.2)
  ∧ (status_is_terminal x.1 = true → ∃ o, x.2 = Some o ∧ x.1 = final_run_status o).

#[global] Instance outcome_invariant :
  Invariant (λ s, outcome_ok (status_outcome s.(ProjectionFoldState.projection))).
Proof.
  apply (field_invariant status_outcome touches_status outcome_ok); [done|].
  intros s event p' indexes' _ _ _ Ht _ Ha. unfold apply_payload in Ha.
  destruct (RunEvent.payload event) as [] eqn:Hp; try discriminate Ht; cbn beta iota zeta in Ha;
    invert_handler Ha; simplify_guards; simplify_eq; unfold outcome_ok; cbn; try done.
  all: try (split; [done|]; intros _; by eexists).
  by case_match.
Qed.

(** Only schema v9 and before set the outcome with the terminal event itself. *)
Lemma legacy_outcome s event s' v :
  apply s event = Ok s' → s'.(ProjectionFoldState.projection).(RunProjection.event_schema_version) = Some v → (v ≤ 9)%N →
  touches_outcome event.(RunEvent.payload) && negb (in_iteration event) = true →
  status_is_terminal s'.(ProjectionFoldState.projection).(RunProjection.status) = true.
Proof.
  intros Happ Hv H9 [Ht Hi%negb_true_iff]%andb_true_iff.
  pose proof (apply_version _ _ _ _ Happ Hv) as ->. apply apply_ok in Happ as [p' Ha].
  pose proof (validate_window _ (applied_valid _ _ _ _ Ha)) as Hw.
  rewrite (apply_field RunProjection.status touches_status _ _ _ _ Ha).
  pose proof (dispatch_top _ _ _ _ (applied_dispatch _ _ _ _ Ha) Hi) as Hd. clear Hv.
  unfold apply_payload in Hd. destruct (RunEvent.payload event) as [] eqn:Hp; try discriminate Ht;
    cbn beta iota zeta in Hd, Hw; cbn [fst snd schema_window] in Hw; try lia;
    invert_handler Hd; simplify_guards; simplify_eq; done.
Qed.

(** Before schema v10 a run that goes on has no outcome. *)
Definition undecided (s : ProjectionFoldState) : Prop :=
  ∀ v, s.(ProjectionFoldState.projection).(RunProjection.event_schema_version) = Some v → (v ≤ 9)%N →
    status_is_terminal s.(ProjectionFoldState.projection).(RunProjection.status) = false →
    s.(ProjectionFoldState.projection).(RunProjection.business_outcome) = None.

#[global] Instance undecided_invariant : Invariant undecided.
Proof.
  split; [done|]. intros s event s' Hr HP Happ v Hv H9 Hn.
  destruct (touches_outcome event.(RunEvent.payload) && negb (in_iteration event)) eqn:Ht.
  { by rewrite (legacy_outcome _ _ _ _ Happ Hv H9 Ht) in Hn. }
  rewrite (apply_untouched RunProjection.business_outcome touches_outcome _ _ _ Happ Ht).
  destruct (touches_identity event.(RunEvent.payload) && negb (in_iteration event)) eqn:Hid.
  - by rewrite (admission_first _ _ _ Hr Happ Hid).
  - rewrite (apply_untouched RunProjection.event_schema_version touches_identity _ _ _ Happ Hid) in Hv.
    eapply HP; [done..|]. by apply apply_ok in Happ as [p' []].
Qed.

(** Deciding an outcome finds none. *)
Lemma apply_outcome_once s event s' :
  reachable s → apply s event = Ok s' → ∀ o,
  s.(ProjectionFoldState.projection).(RunProjection.business_outcome) = Some o → s'.(ProjectionFoldState.projection).(RunProjection.business_outcome) = Some o.
Proof.
  intros Hr Happ o Ho.
  destruct (touches_outcome event.(RunEvent.payload) && negb (in_iteration event)) eqn:Ht.
  2: { by rewrite (apply_untouched RunProjection.business_outcome touches_outcome _ _ _ Happ Ht). }
  exfalso. pose proof (invariant_holds _ s Hr (Invariant0:=undecided_invariant)) as Hu.
  apply apply_ok in Happ as [p' Ha]. apply andb_true_iff in Ht as [Ht Hi%negb_true_iff].
  pose proof (validate_window _ (applied_valid _ _ _ _ Ha)) as Hw.
  pose proof (dispatch_top _ _ _ _ (applied_dispatch _ _ _ _ Ha) Hi) as Hd.
  pose proof (applied_active _ _ _ _ Ha) as Hn.
  destruct (RunProjection.event_schema_version s.(ProjectionFoldState.projection)) as [v|] eqn:Hv.
  2: { apply reachable_unadmitted in Hv as (? & ? & Hv); [|done]. by rewrite Hv in Ho. }
  pose proof (applied_version _ _ _ _ Ha _ Hv) as ->.
  destruct (decide (event.(RunEvent.event_schema_version) ≤ 9)%N) as [H9|H9];
    [by rewrite (Hu _ Hv H9 Hn) in Ho|].
  unfold apply_payload in Hd. destruct (RunEvent.payload event) as [] eqn:Hp; try discriminate Ht;
    cbn beta iota zeta in Hd; cbn [fst snd schema_window] in Hw; try lia.
  - invert_handler Hd; simplify_guards; by rewrite Ho in *.
  - repeat case_match; cbn [fst snd] in Hw; lia.
Qed.

(** The business outcome of a run is decided at most once and never changes: however the
    history goes on, a decided outcome is the outcome of every later state. *)
Theorem outcome_decided_once events more s s' o :
  from_events events = Ok s → from_events (events ++ more) = Ok s' →
  s.(ProjectionFoldState.projection).(RunProjection.business_outcome) = Some o →
  s'.(ProjectionFoldState.projection).(RunProjection.business_outcome) = Some o.
Proof.
  intros Hs Hs'. revert o.
  refine (field_history RunProjection.business_outcome (λ a b, ∀ o, a = Some o → b = Some o)
    (PreOrder0:=_) apply_outcome_once _ _ _ _ Hs Hs').
  split; [by intros ? ?|naive_solver].
Qed.

(** The final status of a run is that of its outcome: a run that ended has a decided outcome
    and the status Succeeded, Failed or Cancelled that belongs to it, and a run that is being
    finalized has a decided outcome. *)
Theorem final_status_matches_outcome events s :
  from_events events = Ok s →
  (status_is_terminal s.(ProjectionFoldState.projection).(RunProjection.status) = true →
     ∃ o, s.(ProjectionFoldState.projection).(RunProjection.business_outcome) = Some o
       ∧ s.(ProjectionFoldState.projection).(RunProjection.status) = final_run_status o)
  ∧ (s.(ProjectionFoldState.projection).(RunProjection.status) = RunStatus.Finalizing → is_Some s.(ProjectionFoldState.projection).(RunProjection.business_outcome)).
Proof.
  intros Hs. pose proof (invariant_holds _ s (ex_intro _ _ Hs) (Invariant0:=outcome_invariant)) as [??].
  done.
Qed.

(** ** Stranded runs *)

(** The outcome is decided and yet the run is not being finalized (schema v10 and later). *)
Record stranded (p : RunProjection) : Prop := {
  stranded_version : ∃ v, p.(RunProjection.event_schema_version) = Some v ∧ (10 ≤ v)%N;
  stranded_outcome : is_Some p.(RunProjection.business_outcome);
  stranded_status : p.(RunProjection.status) ≠ RunStatus.Finalizing;
  stranded_goes_on : status_is_terminal p.(RunProjection.status) = false;
}.

(** The edges that do not lead to an end. *)
Lemma stranded_edge payload from to :
  run_edge payload from to → from ≠ RunStatus.Finalizing → touches_outcome payload = false →
  to ≠ RunStatus.Finalizing ∧ status_is_terminal to = false.
Proof. intros [] Hf Ho; try discriminate Ho; try done. Qed.

Lemma stranded_step s event s' :
  reachable s → apply s event = Ok s' → stranded s.(ProjectionFoldState.projection) → stranded s'.(ProjectionFoldState.projection).
Proof.
  intros Hr Happ [(v & Hv & H10) [o Ho] Hf Hn].
  assert (s'.(ProjectionFoldState.projection).(RunProjection.event_schema_version) = Some v) as Hv'.
  { destruct (touches_identity event.(RunEvent.payload) && negb (in_iteration event)) eqn:Hid.
    - by rewrite (admission_first _ _ _ Hr Happ Hid) in Hv.
    - by rewrite (apply_untouched RunProjection.event_schema_version touches_identity _ _ _ Happ Hid). }
  pose proof (apply_outcome_once _ _ _ Hr Happ _ Ho) as Ho'.
  assert (s'.(ProjectionFoldState.projection).(RunProjection.status) ≠ RunStatus.Finalizing
    ∧ status_is_terminal s'.(ProjectionFoldState.projection).(RunProjection.status) = false) as [Hf' Hn'].
  { destruct (apply_status _ _ _ Happ) as [->|[He Hi]]; [done|].
    eapply stranded_edge; [done..|].
    destruct (touches_outcome event.(RunEvent.payload)) eqn:Ht; [|done]. exfalso.
    pose proof (apply_version _ _ _ _ Happ Hv') as ->.
    apply apply_ok in Happ as [p' Ha]. pose proof (validate_window _ (applied_valid _ _ _ _ Ha)) as Hw.
    pose proof (dispatch_top _ _ _ _ (applied_dispatch _ _ _ _ Ha) Hi) as Hd. clear He.
    unfold apply_payload in Hd. destruct (RunEvent.payload event) as [] eqn:Hp; try discriminate Ht;
      cbn beta iota zeta in Hd; cbn [fst snd schema_window] in Hw; try lia.
    - invert_handler Hd; simplify_guards; by rewrite Ho in *.
    - repeat case_match; cbn [fst snd] in Hw; lia. }
  split; eauto.
Qed.

(** C39 A lease lost while the run is being finalized strands the run: the event is accepted and
    puts the run back to Running although its outcome is decided, and from then on no sequence of
    events ends the run.  (The decision cannot be repeated, finalization requires the status
    Finalizing, and the terminal events of older schemas are not available.) *)
Theorem lost_lease_strands_run s event s' v data more s'' :
  reachable s → s.(ProjectionFoldState.projection).(RunProjection.event_schema_version) = Some v → (10 ≤ v)%N →
  s.(ProjectionFoldState.projection).(RunProjection.status) = RunStatus.Finalizing →
  event.(RunEvent.payload) = RunEventPayload.LockLeaseLost data → in_iteration event = false →
  apply s event = Ok s' → apply_all s' more = Ok s'' →
  s'.(ProjectionFoldState.projection).(RunProjection.status) = RunStatus.Running
  ∧ status_is_terminal s''.(ProjectionFoldState.projection).(RunProjection.status) = false.
Proof.
  intros Hr Hv H10 Hf Hp Hi Happ Hmore.
  assert (s'.(ProjectionFoldState.projection).(RunProjection.status) = RunStatus.Running) as Hrun.
  { destruct (apply_ok _ _ _ Happ) as [p' Ha]. rewrite (applied_projection _ _ _ _ Ha). cbn.
    pose proof (dispatch_top _ _ _ _ (applied_dispatch _ _ _ _ Ha) Hi) as Hd.
    unfold apply_payload in Hd. rewrite Hp in Hd. invert_handler Hd. by simplify_eq. }
  split; [done|]. assert (stranded s'.(ProjectionFoldState.projection)) as Hst.
  { pose proof (invariant_holds _ s Hr (Invariant0:=outcome_invariant)) as [[o Ho] _]; [done|].
    split; rewrite ?Hrun; try done.
    - exists v. split; [|done].
      by rewrite (apply_untouched RunProjection.event_schema_version touches_identity _ _ _ Happ) by by rewrite Hp.
    - exists o. by eapply apply_outcome_once. }
  assert (reachable s') as Hr' by eauto with woml. clear Happ Hrun.
  revert s' Hmore Hst Hr'. induction more as [|event' more IH]; intros s' Hmore Hst Hr'.
  - apply Ok_inj in Hmore as <-. apply Hst.
  - simpl in Hmore. apply result_bind_ok in Hmore as (s1 & H1 & Hmore).
    eapply IH; [done|by eapply stranded_step|by eapply reachable_step].
Qed.

(** ** What a run that has ended has settled *)

Definition forks_settled (p : RunProjection) : Prop :=
  ∀ id fork, p.(RunProjection.forks) !! id = Some fork → fork_unsettled fork = false.

(** The last edge of a run of schema v10 or later. *)
Lemma last_edge s event s' v :
  apply s event = Ok s' → s'.(ProjectionFoldState.projection).(RunProjection.event_schema_version) = Some v → (10 ≤ v)%N →
  status_is_terminal s'.(ProjectionFoldState.projection).(RunProjection.status) = true →
  ∃ data p', apply_run_finalized s.(ProjectionFoldState.projection) data = Ok p'
    ∧ s'.(ProjectionFoldState.projection) = p' <|RunProjection.last_sequence := event.(RunEvent.sequence)|>.
Proof.
  intros Happ Hv H10 Ht. pose proof (apply_version _ _ _ _ Happ Hv) as ->.
  destruct (apply_ok _ _ _ Happ) as [p' Ha].
  pose proof (validate_window _ (applied_valid _ _ _ _ Ha)) as Hw.
  destruct (apply_status _ _ _ Happ) as [Hs|[He Hi]].
  { pose proof (applied_active _ _ _ _ Ha). congruence. }
  pose proof (dispatch_top _ _ _ _ (applied_dispatch _ _ _ _ Ha) Hi) as Hd.
  unfold apply_payload in Hd. remember (RunProjection.status s'.(ProjectionFoldState.projection)) as to.
  destruct He as [| | | |payload Hpl|payload Hpl| | | | |data| |data from Hfrom]; try discriminate Ht.
  - exists data, p'. split; [|apply Ha]. by apply result_bind_ok in Hd as (q & Hq & [= <- _]%Ok_inj).
  - cbn [fst snd schema_window] in Hw. lia.
  - cbn [schema_window] in Hw. repeat case_match; cbn [fst snd] in Hw; lia.
Qed.

(** Once the outcome is decided no fork is open. *)
Definition forks_ok (s : ProjectionFoldState) : Prop :=
  ∀ v, s.(ProjectionFoldState.projection).(RunProjection.event_schema_version) = Some v → (10 ≤ v)%N →
    s.(ProjectionFoldState.projection).(RunProjection.status) = RunStatus.Finalizing ∨ status_is_terminal s.(ProjectionFoldState.projection).(RunProjection.status) = true →
    forks_settled s.(ProjectionFoldState.projection).

Lemma fork_event_active s event s' :
  apply s event = Ok s' → touches_forks event.(RunEvent.payload) && negb (in_iteration event) = true →
  run_is_active s'.(ProjectionFoldState.projection).(RunProjection.status) = true.
Proof.
  intros [p' Ha]%apply_ok [Ht Hi%negb_true_iff]%andb_true_iff.
  rewrite (apply_field RunProjection.status touches_status _ _ _ _ Ha).
  pose proof (dispatch_top _ _ _ _ (applied_dispatch _ _ _ _ Ha) Hi) as Hd. unfold apply_payload in Hd.
  destruct (RunEvent.payload event) as [] eqn:Hp; try discriminate Ht; cbn beta iota zeta in Hd;
    invert_handler Hd; simplify_guards; simplify_eq; cbn.
  all: match goal with |- run_is_active (RunProjection.status ?q) = true => by destruct (RunProjection.status q) end.
Qed.

Lemma outcome_forks p data p' : apply_run_outcome_decided p data = Ok p' → forks_settled p'.
Proof.
  unfold apply_run_outcome_decided. intros Ha id fork Hf. invert_ok;
    match goal with He : existsb _ _ = false |- _ =>
      exact (proj1 (existsb_values_false _ _) He id fork Hf) end.
Qed.

#[global] Instance forks_invariant : Invariant forks_ok.
Proof.
  split; [by intros v|]. intros s event s' Hr HP Happ v Hv H10 Hst.
  destruct (touches_forks event.(RunEvent.payload) && negb (in_iteration event)) eqn:Ht.
  { pose proof (fork_event_active _ _ _ Happ Ht) as Hact.
    destruct Hst as [Hst|Hst]; [by rewrite Hst in Hact|]. by destruct (RunProjection.status _). }
  destruct (touches_identity event.(RunEvent.payload) && negb (in_iteration event)) eqn:Hid.
  { unfold forks_settled. rewrite (apply_untouched RunProjection.forks touches_forks _ _ _ Happ Ht).
    by rewrite (admission_first _ _ _ Hr Happ Hid). }
  pose proof Hv as Hv0.
  rewrite (apply_untouched RunProjection.event_schema_version touches_identity _ _ _ Happ Hid) in Hv0.
  destruct (decide (s.(ProjectionFoldState.projection).(RunProjection.status) = RunStatus.Finalizing)) as [Hf|Hf].
  { unfold forks_settled. rewrite (apply_untouched RunProjection.forks touches_forks _ _ _ Happ Ht).
    apply (HP v); [done|done|by left]. }
  destruct Hst as [Hst|Hst].
  - destruct (apply_ok _ _ _ Happ) as [p' Ha].
    destruct (apply_status _ _ _ Happ) as [Hs|[He Hi]]; [congruence|].
    pose proof (dispatch_top _ _ _ _ (applied_dispatch _ _ _ _ Ha) Hi) as Hd. unfold apply_payload in Hd.
    rewrite Hst in He. rewrite (applied_projection _ _ _ _ Ha). unfold forks_settled. cbn.
    inversion He as [| | | | | | | | |data from Hfrom Hp| | |]; subst.
    + rewrite <-Hp in Hd. apply result_bind_ok in Hd as (q & Hq & [= <- _]%Ok_inj).
      by eapply outcome_forks.
    + by destruct (RunFinalizedData.outcome data).
  - destruct (last_edge _ _ _ _ Happ Hv H10 Hst) as (data & p' & Hfin & _).
    unfold apply_run_finalized in Hfin. invert_ok. by simplify_guards.
Qed.

(** What a finished run leaves behind.  In schema v10 and later, a run that has ended has no
    lifecycle hook requested or running, no fork whose join is pending, and a warning for each
    lifecycle action that failed. *)
Theorem ended_run_settled events s v :
  from_events events = Ok s → s.(ProjectionFoldState.projection).(RunProjection.event_schema_version) = Some v → (10 ≤ v)%N →
  status_is_terminal s.(ProjectionFoldState.projection).(RunProjection.status) = true →
  (∀ id hook, s.(ProjectionFoldState.projection).(RunProjection.lifecycle_hooks) !! id = Some hook →
     hook_is_active hook.(LifecycleHookProjection.status) = false)
  ∧ (∀ id fork, s.(ProjectionFoldState.projection).(RunProjection.forks) !! id = Some fork → fork_unsettled fork = false)
  ∧ warnings_match s.(ProjectionFoldState.projection) s.(ProjectionFoldState.projection).(RunProjection.lifecycle_warnings) = true.
Proof.
  intros Hs Hv H10 Ht. assert (reachable s) as Hr by by eexists.
  pose proof (invariant_holds _ s Hr (Invariant0:=forks_invariant) _ Hv H10 (or_intror Ht)) as Hforks.
  destruct events as [|event events _] using rev_ind; [by apply Ok_inj in Hs as <-|].
  apply from_events_snoc in Hs as (s0 & _ & Happ).
  destruct (last_edge _ _ _ _ Happ Hv H10 Ht) as (data & p' & Hfin & Hs).
  unfold apply_run_finalized in Hfin. invert_ok. simplify_guards.
  split_and!; [|done|by rewrite Hs].
  rewrite Hs. cbn. by apply existsb_values_false.
Qed.

(** In schema v9 and before, a run that succeeded left no retry pending and no managed
    operation running, and its terminal node has published an output. *)
Theorem legacy_success_settled events s v :
  from_events events = Ok s → s.(ProjectionFoldState.projection).(RunProjection.event_schema_version) = Some v → (v ≤ 9)%N →
  s.(ProjectionFoldState.projection).(RunProjection.status) = RunStatus.Succeeded →
  s.(ProjectionFoldState.projection).(RunProjection.pending_retries) = ∅
  ∧ any_active_managed_operation s.(ProjectionFoldState.projection) = false
  ∧ ∃ node_id, s.(ProjectionFoldState.projection).(RunProjection.terminal_node_id) = Some node_id
      ∧ terminal_output_exists s.(ProjectionFoldState.projection) node_id = true.
Proof.
  intros Hs Hv H9 Ht. destruct events as [|event events _] using rev_ind; [by apply Ok_inj in Hs as <-|].
  apply from_events_snoc in Hs as (s0 & _ & Happ). pose proof (apply_version _ _ _ _ Happ Hv) as ->.
  destruct (apply_ok _ _ _ Happ) as [p' Ha].
  pose proof (validate_window _ (applied_valid _ _ _ _ Ha)) as Hw.
  destruct (apply_status _ _ _ Happ) as [Hst|[He Hi]].
  { pose proof (applied_active _ _ _ _ Ha) as Hact. by rewrite <-Hst, Ht in Hact. }
  pose proof (dispatch_top _ _ _ _ (applied_dispatch _ _ _ _ Ha) Hi) as Hd. unfold apply_payload in Hd.
  rewrite Ht in He. inversion He as [| | | | | | | | | |data Hp|data Hp|]; subst.
  - rewrite <-Hp in Hw. cbn [fst snd schema_window] in Hw. lia.
  - rewrite <-Hp in Hd. invert_handler Hd. simplify_guards. simplify_eq.
    rewrite (applied_projection _ _ _ _ Ha). cbn. split_and!; [done|done|]. by eexists.
Qed.
End with_externals.
