(* ===== verification/SagaProperties.v ===== *)
(** * Properties of sagas

    The abstract protocol of corrective work, implemented by the sagas of the
    run: one corrective attempt at a time, at most ten per action, and an action
    that succeeded is never run again. *)

From S2P Require Import Prelude Strings Json EventTypes ProjectionTypes Guards FoldRun.
From S2P Require Import FoldControlFlow FoldCorrection FoldApprovals FoldOperations FoldLifecycle.
From S2P Require Import IterationFold EventIdentities EventValidation Fold FoldFrames.
From S2P Require Import ValidationProperties HistoryProperties.

(** ** The protocol *)

Definition action_is_started (a : CorrectionActionProjection) : bool := a.(CorrectionActionProjection.status) == CorrectionActionStatus.Started.
Definition action_is_pending (a : CorrectionActionProjection) : bool :=
  match a.(CorrectionActionProjection.status) with CorrectionActionStatus.Started | CorrectionActionStatus.RetryScheduled => true | _ => false end.
Definition phase_is_forward (phase : SagaPhase) : bool :=
  match phase with SagaPhase.Forward | SagaPhase.ForwardSucceeded => true | _ => false end.

(** The life of one corrective action. *)
Inductive action_step (now : DateTime) (a : CorrectionActionProjection) :
    CorrectionActionProjection → Prop :=
| action_start :
    a.(CorrectionActionProjection.status) = CorrectionActionStatus.Registered ∨ a.(CorrectionActionProjection.status) = CorrectionActionStatus.RetryScheduled →
    (a.(CorrectionActionProjection.attempts) + 1 ≤ 10)%N → (∀ t, a.(CorrectionActionProjection.retry_at) = Some t → (t ≤ now)%Z) →
    action_step now a (a <|CorrectionActionProjection.attempts := (a.(CorrectionActionProjection.attempts) + 1)%N|>
      <|CorrectionActionProjection.active_attempt := Some (a.(CorrectionActionProjection.attempts) + 1)%N|> <|CorrectionActionProjection.retry_at := None|>
      <|CorrectionActionProjection.status := CorrectionActionStatus.Started|>)
| action_succeed :
    a.(CorrectionActionProjection.status) = CorrectionActionStatus.Started →
    action_step now a (a <|CorrectionActionProjection.status := CorrectionActionStatus.Succeeded|> <|CorrectionActionProjection.active_attempt := None|>)
| action_fail code ambiguous :
    a.(CorrectionActionProjection.status) = CorrectionActionStatus.Started →
    action_step now a (a <|CorrectionActionProjection.status := CorrectionActionStatus.Failed|> <|CorrectionActionProjection.active_attempt := None|>
      <|CorrectionActionProjection.failure_code := Some code|> <|CorrectionActionProjection.ambiguous := ambiguous|>)
| action_interrupt ambiguous :
    a.(CorrectionActionProjection.status) = CorrectionActionStatus.Started →
    action_step now a (a <|CorrectionActionProjection.status := CorrectionActionStatus.Interrupted|> <|CorrectionActionProjection.active_attempt := None|>
      <|CorrectionActionProjection.ambiguous := ambiguous|>)
| action_retry t :
    a.(CorrectionActionProjection.status) = CorrectionActionStatus.Failed → a.(CorrectionActionProjection.ambiguous) = false →
    action_step now a (a <|CorrectionActionProjection.status := CorrectionActionStatus.RetryScheduled|> <|CorrectionActionProjection.retry_at := Some t|>)
| action_recover code :
    a.(CorrectionActionProjection.status) = CorrectionActionStatus.Failed ∨ a.(CorrectionActionProjection.status) = CorrectionActionStatus.Interrupted → a.(CorrectionActionProjection.ambiguous) = true →
    action_step now a (a <|CorrectionActionProjection.status := CorrectionActionStatus.ManualRecovery|> <|CorrectionActionProjection.failure_code := Some code|>)
| action_operator_retry t :
    a.(CorrectionActionProjection.status) = CorrectionActionStatus.ManualRecovery →
    action_step now a (a <|CorrectionActionProjection.ambiguous := false|> <|CorrectionActionProjection.failure_code := None|>
      <|CorrectionActionProjection.status := CorrectionActionStatus.RetryScheduled|> <|CorrectionActionProjection.retry_at := Some t|>).

Definition set_saga_action (saga : SagaProjection) (id : string) (a : CorrectionActionProjection) :
    SagaProjection := saga <|SagaProjection.actions ::= <[id := a]> |>.

(** The life of one saga. *)
Inductive saga_step (now : DateTime) (saga : SagaProjection) : SagaProjection → Prop :=
| saga_register id step sequence :
    saga.(SagaProjection.phase) = SagaPhase.Forward → saga.(SagaProjection.actions) !! id = None →
    saga_step now saga (set_saga_action saga id
      (registered_action id CorrectiveActionKind.Compensation (Some step) (Some sequence)))
| saga_forward sequence :
    saga.(SagaProjection.phase) = SagaPhase.Forward →
    saga_step now saga (saga <|SagaProjection.phase := SagaPhase.ForwardSucceeded|>
      <|SagaProjection.forward_succeeded_sequence := Some sequence|>)
| saga_correct reason :
    saga.(SagaProjection.phase) = (match reason with
      | SagaCorrectionReason.Success => SagaPhase.ForwardSucceeded | _ => SagaPhase.Forward end) →
    saga_step now saga (saga <|SagaProjection.phase := SagaPhase.Correcting|> <|SagaProjection.reason := Some reason|>)
| saga_start id a a' :
    phase_is_correcting saga.(SagaProjection.phase) = true →
    (∀ id' b, saga.(SagaProjection.actions) !! id' = Some b → action_is_started b = false) →
    saga.(SagaProjection.actions) !! id = Some a
      ∨ saga.(SagaProjection.actions) !! id = None ∧ (∃ kind, a = registered_action id kind None None) →
    action_step now a a' → action_is_started a' = true →
    saga_step now saga (set_saga_action saga id a')
| saga_settle id a a' :
    saga.(SagaProjection.actions) !! id = Some a → action_is_started a = true → action_step now a a' →
    saga_step now saga (set_saga_action saga id a')
| saga_retry id a t :
    saga.(SagaProjection.phase) = SagaPhase.Correcting → saga.(SagaProjection.actions) !! id = Some a →
    a.(CorrectionActionProjection.status) = CorrectionActionStatus.Failed → a.(CorrectionActionProjection.ambiguous) = false →
    saga_step now saga (set_saga_action saga id
      (a <|CorrectionActionProjection.status := CorrectionActionStatus.RetryScheduled|> <|CorrectionActionProjection.retry_at := Some t|>))
| saga_operator_retry id a t :
    saga.(SagaProjection.phase) = SagaPhase.ManualRecovery → saga.(SagaProjection.actions) !! id = Some a →
    a.(CorrectionActionProjection.status) = CorrectionActionStatus.ManualRecovery →
    saga_step now saga (set_saga_action (saga <|SagaProjection.phase := SagaPhase.Correcting|>) id
      (a <|CorrectionActionProjection.ambiguous := false|> <|CorrectionActionProjection.failure_code := None|>
         <|CorrectionActionProjection.status := CorrectionActionStatus.RetryScheduled|> <|CorrectionActionProjection.retry_at := Some t|>))
| saga_recover id a code :
    saga.(SagaProjection.actions) !! id = Some a →
    a.(CorrectionActionProjection.status) = CorrectionActionStatus.Failed ∨ a.(CorrectionActionProjection.status) = CorrectionActionStatus.Interrupted → a.(CorrectionActionProjection.ambiguous) = true →
    saga_step now saga (set_saga_action (saga <|SagaProjection.phase := SagaPhase.ManualRecovery|>) id
      (a <|CorrectionActionProjection.status := CorrectionActionStatus.ManualRecovery|> <|CorrectionActionProjection.failure_code := Some code|>))
| saga_complete sequence :
    phase_is_correcting saga.(SagaProjection.phase) = true →
    (∀ id a, saga.(SagaProjection.actions) !! id = Some a → action_is_pending a = false) →
    saga_step now saga (saga <|SagaProjection.phase := SagaPhase.CorrectionCompleted|>
      <|SagaProjection.correction_completed_sequence := Some sequence|>).

Inductive sagas_step (now : DateTime) (sagas : gmap string SagaProjection) :
    gmap string SagaProjection → Prop :=
| sagas_open id saga :
    sagas !! id = None → saga.(SagaProjection.saga_id) = id → saga.(SagaProjection.phase) = SagaPhase.Forward →
    saga.(SagaProjection.reason) = None → saga.(SagaProjection.actions) = ∅ → sagas_step now sagas (<[id := saga]> sagas)
| sagas_change id saga saga' :
    sagas !! id = Some saga → saga_step now saga saga' → sagas_step now sagas (<[id := saga']> sagas)
| sagas_idle : sagas_step now sagas sagas.

(** ** The invariant *)

Record action_ok (id : string) (a : CorrectionActionProjection) : Prop := {
  ao_id : a.(CorrectionActionProjection.action_id) = id;
  ao_active : a.(CorrectionActionProjection.active_attempt) = if action_is_started a then Some a.(CorrectionActionProjection.attempts) else None;
  ao_attempts : (a.(CorrectionActionProjection.attempts) ≤ 10)%N;
  ao_fresh : a.(CorrectionActionProjection.status) = CorrectionActionStatus.Registered ↔ a.(CorrectionActionProjection.attempts) = 0%N;
  ao_retry : is_Some a.(CorrectionActionProjection.retry_at) ↔ a.(CorrectionActionProjection.status) = CorrectionActionStatus.RetryScheduled;
}.

Record saga_ok (id : string) (saga : SagaProjection) : Prop := {
  so_id : saga.(SagaProjection.saga_id) = id;
  so_actions : map_Forall action_ok saga.(SagaProjection.actions);
  so_single : ∀ id1 id2 a1 a2, saga.(SagaProjection.actions) !! id1 = Some a1 → saga.(SagaProjection.actions) !! id2 = Some a2 →
    action_is_started a1 = true → action_is_started a2 = true → id1 = id2;
  so_forward : phase_is_forward saga.(SagaProjection.phase) = true →
    ∀ id' a, saga.(SagaProjection.actions) !! id' = Some a → a.(CorrectionActionProjection.status) = CorrectionActionStatus.Registered;
  so_reason : is_Some saga.(SagaProjection.reason) ↔ phase_is_forward saga.(SagaProjection.phase) = false;
  so_pending : ∀ id' a, saga.(SagaProjection.actions) !! id' = Some a → action_is_pending a = true →
    phase_is_correcting saga.(SagaProjection.phase) = true;
}.

Lemma registered_ok id kind step sequence : action_ok id (registered_action id kind step sequence).
Proof. split; cbn; done. Qed.

Lemma action_step_ok now id a a' : action_step now a a' → action_ok id a → action_ok id a'.
Proof.
  intros Hstep [Hid Hact Hatt Hfresh Hretry]. unfold action_is_started in *.
  destruct Hstep as [Hs Hmax Ht|Hs|? ? Hs|? Hs|? Hs|? Hs|? Hs]; split; cbn; try done.
  all: try destruct Hs as [Hs|Hs]; rewrite ?Hs in *.
  all: first [by rewrite Hact|split; [done|first [by intros ?%Hfresh|lia]]|naive_solver].
Qed.

(** Updating one action of a saga whose other actions are as they were. *)
Lemma set_action_ok id saga phase id' a :
  saga_ok id saga → action_ok id' a →
  (action_is_started a = true → ∀ id'' b, saga.(SagaProjection.actions) !! id'' = Some b →
     action_is_started b = false) →
  phase_is_forward phase = phase_is_forward saga.(SagaProjection.phase) →
  (phase_is_forward phase = true → a.(CorrectionActionProjection.status) = CorrectionActionStatus.Registered) →
  (phase_is_correcting saga.(SagaProjection.phase) = true → phase_is_correcting phase = true) →
  (action_is_pending a = true → phase_is_correcting phase = true) →
  saga_ok id (set_saga_action (saga <|SagaProjection.phase := phase|>) id' a).
Proof.
  intros [Hid Hacts Hsingle Hfwd Hreason Hpend] Ha Hone Hr Hf Hc Hp. split; cbn; try done.
  - by apply map_Forall_insert_2.
  - intros id1 id2 a1 a2 [(<- & <-)|[Hn1 H1]]%lookup_insert_Some
      [(<- & <-)|[Hn2 H2]]%lookup_insert_Some Hs1 Hs2; try done.
    + by rewrite (Hone Hs1 _ _ H2) in Hs2.
    + by rewrite (Hone Hs2 _ _ H1) in Hs1.
    + by eapply Hsingle.
  - intros Hf' id'' b [(<- & <-)|[_ Hb]]%lookup_insert_Some; [by apply Hf|].
    eapply Hfwd; [by rewrite <-Hr|done].
  - by rewrite Hr.
  - intros id'' b [(<- & <-)|[_ Hb]]%lookup_insert_Some Hpb; [by apply Hp|]. eapply Hc, Hpend; done.
Qed.

(** A saga with an action that is past its registration is past its forward phase. *)
Lemma past_forward id saga id' a :
  saga_ok id saga → saga.(SagaProjection.actions) !! id' = Some a → a.(CorrectionActionProjection.status) ≠ CorrectionActionStatus.Registered →
  phase_is_forward saga.(SagaProjection.phase) = false.
Proof.
  intros Hok Ha Hs. destruct (phase_is_forward _) eqn:Hf; [|done].
  by destruct Hs; eapply so_forward.
Qed.

Lemma correcting_not_forward phase : phase_is_correcting phase = true → phase_is_forward phase = false.
Proof. by destruct phase. Qed.

Lemma settle_step now a a' :
  action_step now a a' → action_is_started a = true →
  action_is_started a' = false ∧ action_is_pending a' = false.
Proof.
  unfold action_is_started. intros [Hs| | | |Hs|Hs|Hs]; intros Hst%bool_decide_eq_true; try done.
  all: naive_solver congruence.
Qed.

Lemma saga_step_ok now id saga saga' : saga_step now saga saga' → saga_ok id saga → saga_ok id saga'.
Proof.
  intros Hstep Hok. pose proof Hok as [Hid Hacts Hsingle Hfwd Hreason Hpend]. destruct Hstep as
    [id' step seq Hph Hn|seq Hph|reason Hph|id' a a' Hph Hidle Ha Hstep Hst|id' a a' Ha Hst Hstep
    |id' a t Hph Ha Hs Hamb|id' a t Hph Ha Hs|id' a code Ha Hs Hamb|seq Hph Hnone].
  - apply (set_action_ok id saga saga.(SagaProjection.phase)); try done. apply registered_ok.
  - rewrite Hph in *. by split.
  - assert (phase_is_forward saga.(SagaProjection.phase) = true) as Hf by (rewrite Hph; by destruct reason).
    by split.
  - pose proof (correcting_not_forward _ Hph) as Hf.
    apply (set_action_ok id saga saga.(SagaProjection.phase)); try done; try by rewrite Hf.
    eapply action_step_ok; [done|]. destruct Ha as [Ha|[_ [kind ->]]]; [by apply Hacts|].
    apply registered_ok.
  - destruct (settle_step _ _ _ Hstep Hst) as [Hns Hnp].
    assert (phase_is_forward saga.(SagaProjection.phase) = false) as Hf.
    { eapply past_forward; [done..|]. intros Hr. unfold action_is_started in Hst. by rewrite Hr in Hst. }
    apply (set_action_ok id saga saga.(SagaProjection.phase)); try done; rewrite ?Hf, ?Hns, ?Hnp; try done.
    eapply action_step_ok; [done|by apply Hacts].
  - apply (set_action_ok id saga saga.(SagaProjection.phase)); rewrite ?Hph; try done.
    eapply (action_step_ok now); [by apply action_retry|by apply Hacts].
  - apply (set_action_ok id saga SagaPhase.Correcting); rewrite ?Hph; try done.
    eapply (action_step_ok now); [by apply action_operator_retry|by apply Hacts].
  - apply (set_action_ok id saga SagaPhase.ManualRecovery); try done.
    + eapply (action_step_ok now); [by apply action_recover|by apply Hacts].
    + symmetry. eapply past_forward; [done..|]. destruct Hs; congruence.
  - pose proof (correcting_not_forward _ Hph) as Hf. split; cbn; try done.
    + by rewrite Hreason, Hf.
    + intros id' a Ha Hp. by rewrite (Hnone _ _ Ha) in Hp.
Qed.

Lemma sagas_step_ok now sagas sagas' :
  sagas_step now sagas sagas' → map_Forall saga_ok sagas → map_Forall saga_ok sagas'.
Proof.
  intros [id saga Hn Hid Hph Hr Hacts|id saga saga' Hl Hstep|] Hok; [| |done].
  - apply map_Forall_insert_2; [|done]. by split; rewrite ?Hacts, ?Hph, ?Hr.
  - apply map_Forall_insert_2; [|done]. eapply saga_step_ok; [done|by apply Hok].
Qed.

(** What later events leave as it is: the identity and the purpose of an action, its count of
    attempts but for growth, and a success. *)
Record action_evolves (a a' : CorrectionActionProjection) : Prop := {
  ae_kind : a'.(CorrectionActionProjection.action_kind) = a.(CorrectionActionProjection.action_kind);
  ae_step : a'.(CorrectionActionProjection.for_step_id) = a.(CorrectionActionProjection.for_step_id);
  ae_sequence : a'.(CorrectionActionProjection.completion_sequence) = a.(CorrectionActionProjection.completion_sequence);
  ae_attempts : (a.(CorrectionActionProjection.attempts) ≤ a'.(CorrectionActionProjection.attempts))%N;
  ae_success : a.(CorrectionActionProjection.status) = CorrectionActionStatus.Succeeded → a' = a;
}.

#[global] Instance action_evolves_preorder : PreOrder action_evolves.
Proof.
  split; [by split|]. intros x y z [K S Q A C] [K' S' Q' A' C']. split; try congruence; [lia|].
  intros Hs. pose proof (C Hs) as ->. by apply C'.
Qed.

Lemma action_step_evolves now a a' : action_step now a a' → action_evolves a a'.
Proof.
  intros [Hs|Hs| | |Hs|Hs|Hs]; split; cbn; try done; try lia; intros Hsuc; naive_solver congruence.
Qed.

Definition sagas_evolve (sagas sagas' : gmap string SagaProjection) : Prop :=
  ∀ id saga id' a, sagas !! id = Some saga → saga.(SagaProjection.actions) !! id' = Some a →
    ∃ saga' a', sagas' !! id = Some saga' ∧ saga'.(SagaProjection.actions) !! id' = Some a' ∧ action_evolves a a'.

#[global] Instance sagas_evolve_preorder : PreOrder sagas_evolve.
Proof.
  split.
  - intros sagas id saga id' a Hs Ha. by exists saga, a.
  - intros x y z Hxy Hyz id saga id' a Hs Ha. destruct (Hxy _ _ _ _ Hs Ha) as (s1 & a1 & Hs1 & Ha1 & ?).
    destruct (Hyz _ _ _ _ Hs1 Ha1) as (s2 & a2 & Hs2 & Ha2 & ?). exists s2, a2.
    split_and!; [done..|]. by etrans.
Qed.

(** What a step does to one action. *)
Lemma saga_step_action now saga saga' id' a :
  saga_step now saga saga' → saga.(SagaProjection.actions) !! id' = Some a →
  ∃ a', saga'.(SagaProjection.actions) !! id' = Some a' ∧ action_evolves a a'.
Proof.
  intros Hstep Ha.
  assert (∀ id'' b b', saga.(SagaProjection.actions) !! id'' = Some b → action_step now b b' →
    ∃ a', <[id'':=b']> saga.(SagaProjection.actions) !! id' = Some a' ∧ action_evolves a a') as Hset.
  { intros id'' b b' Hb Hs. destruct (decide (id'' = id')) as [->|Hne].
    - rewrite lookup_insert_eq. simplify_eq. eauto using action_step_evolves.
    - rewrite lookup_insert_ne by done. by exists a. }
  destruct Hstep as [id0 step seq Hph Hn| | |id0 b b' Hph Hidle Hb Hstep Hst|id0 b b' Hb Hst Hstep
    |id0 b t Hph Hb Hs Hamb|id0 b t Hph Hb Hs|id0 b code Hb Hs Hamb|]; try by exists a.
  - exists a. cbn. by rewrite lookup_insert_ne by congruence.
  - destruct Hb as [Hb|[Hn _]]; [by eapply Hset|].
    exists a. cbn. by rewrite lookup_insert_ne by congruence.
  - by eapply Hset.
  - eapply Hset; [done|by apply action_retry].
  - eapply Hset; [done|by apply action_operator_retry].
  - eapply Hset; [done|by apply action_recover].
Qed.

Lemma sagas_step_evolve now sagas sagas' : sagas_step now sagas sagas' → sagas_evolve sagas sagas'.
Proof.
  intros [id saga Hn _ _ _ _|id saga saga' Hl Hstep|] id0 saga0 id' a Hs Ha; [| |by exists saga0, a].
  - exists saga0, a. by rewrite lookup_insert_ne by congruence.
  - destruct (decide (id = id0)) as [<-|Hne].
    + simplify_eq. destruct (saga_step_action _ _ _ _ _ Hstep Ha) as (a' & ? & ?).
      exists saga', a'. by rewrite lookup_insert_eq.
    + exists saga0, a. by rewrite lookup_insert_ne.
Qed.

Section with_externals.
Context `{Externals}.

(** ** The sagas of the run implement the protocol *)

Lemma correction_attempt_contract event data :
  validate event = Ok tt → event.(RunEvent.payload) = RunEventPayload.CorrectionAttemptStarted data →
  (data.(CorrectionAttemptIdentityData.attempt) ≤ 10)%N.
Proof.
  intros (event' & Hv & Hp & _)%validate_contract_at Hd. rewrite Hd in Hp.
  unfold validate_payload in Hv. rewrite Hp in Hv. unfold_contracts Hv. invert_ok.
  by simplify_guards.
Qed.

(** The action a corrective attempt starts: a registered one, or a new one. *)
Lemma attempted_action id saga action_id kind :
  saga_ok id saga →
  let a := default (registered_action action_id kind None None) (saga.(SagaProjection.actions) !! action_id) in
  action_ok action_id a
  ∧ (saga.(SagaProjection.actions) !! action_id = Some a
     ∨ saga.(SagaProjection.actions) !! action_id = None ∧ ∃ kind, a = registered_action action_id kind None None).
Proof.
  intros Hok a. unfold a. destruct (_ !! action_id) as [b|] eqn:Hb; simpl.
  - split; [by eapply so_actions|by left].
  - split; [apply registered_ok|right; eauto].
Qed.

Lemma run_sagas_step p event index indexes previous p' indexes' :
  validate event = Ok tt → correction_event event.(RunEvent.payload) = true →
  map_Forall saga_ok p.(RunProjection.sagas) →
  apply_payload p event index indexes previous = Ok (p', indexes') →
  sagas_step event.(RunEvent.occurred_at) p.(RunProjection.sagas) p'.(RunProjection.sagas).
Proof.
  intros Hv Hc Hok Ha. unfold apply_payload in Ha.
  destruct (RunEvent.payload event) as [] eqn:Hp; try discriminate Hc; cbn beta iota zeta in Ha;
    invert_handler Ha; simplify_guards; simplify_eq; cbn;
    try (eapply sagas_change; [done|]).
  - by apply sagas_open; [apply contains_key_false|..].
  - by apply saga_register; [|apply contains_key_false].
  - by apply saga_forward.
  - apply saga_correct. by destruct (SagaCorrectionStartedData.reason data); simplify_guards.
  - pose proof (attempted_action _ x0 data.(CorrectionAttemptIdentityData.action_id)
      data.(CorrectionAttemptIdentityData.action_kind) (Hok _ _ ltac:(eassumption))) as [[_ _ Hmax _ _] Hact].
    pose proof (correction_attempt_contract _ _ Hv Hp) as H10.
    set (a := default _ _) in *. rewrite u32_add_small in * by (unfold u32_modulus; lia).
    match goal with He : CorrectionAttemptIdentityData.attempt data = _ |- _ => rewrite He in * end.
    eapply saga_start; [done|by apply existsb_values_false|exact Hact| |done].
    apply action_start; [|done|].
    + destruct (CorrectionActionProjection.status a); naive_solver.
    + intros t Ht. match goal with Hr : is_none_or _ _ = true |- _ =>
        rewrite Ht in Hr; by apply bool_decide_eq_true in Hr end.
  - by eapply saga_settle, action_succeed; [|apply bool_decide_eq_true|].
  - by eapply saga_settle, action_fail; [|apply bool_decide_eq_true|].
  - match goal with Hr : _ || _ = true |- _ => apply orb_true_iff in Hr as [Hr|Hr] end; simplify_guards.
    + match goal with Hf : CorrectionActionProjection.status ?a = CorrectionActionStatus.Failed |- _ => rewrite Hf, andb_false_r end.
      by eapply saga_retry.
    + rewrite !bool_decide_eq_true_2 by done.
      match goal with Hm : CorrectionActionProjection.ambiguous _ = true |- _ => rewrite Hm end. by eapply saga_operator_retry.
  - by eapply saga_settle, action_interrupt; [|apply bool_decide_eq_true|].
  - apply saga_complete; [done|]. intros id a Ha.
    match goal with He : existsb _ _ = false |- _ =>
      pose proof (proj1 (existsb_values_false _ _) He _ _ Ha) as Hb end.
    unfold blocks_completion in Hb. by apply orb_false_iff in Hb as [? _].
  - eapply saga_recover; try done. destruct (CorrectionActionProjection.status _); naive_solver.
Qed.

#[global] Instance sagas_invariant : Invariant (λ s, map_Forall saga_ok s.(ProjectionFoldState.projection).(RunProjection.sagas)).
Proof.
  apply (field_invariant RunProjection.sagas correction_event (map_Forall saga_ok)); [apply map_Forall_empty|].
  intros s event p' indexes' _ Hok Hv Ht _ Ha. eapply sagas_step_ok; [|done].
  by eapply run_sagas_step.
Qed.

Lemma apply_sagas_step s event s' :
  reachable s → apply s event = Ok s' →
  sagas_step event.(RunEvent.occurred_at) s.(ProjectionFoldState.projection).(RunProjection.sagas) s'.(ProjectionFoldState.projection).(RunProjection.sagas).
Proof.
  intros Hr Happ. pose proof (invariant_holds _ s Hr (Invariant0:=sagas_invariant)) as Hok.
  assert (Reflexive (sagas_step event.(RunEvent.occurred_at))) by (intros x; apply sagas_idle).
  apply (apply_field_step RunProjection.sagas correction_event _ _ _ _ Happ).
  intros p' Hv Ht _ Ha. by eapply run_sagas_step.
Qed.

(** ** Theorems *)

(** C30 The sagas of a run implement the protocol of corrective work: every event opens a saga,
    or takes one saga one step (registering a compensation in the forward phase, starting a
    corrective attempt when none is active and not before its retry time, settling it, scheduling
    a retry, asking for manual recovery, completing), or leaves them alone. *)
Theorem sagas_follow_protocol s event s' :
  reachable s → apply s event = Ok s' →
  sagas_step event.(RunEvent.occurred_at) s.(ProjectionFoldState.projection).(RunProjection.sagas) s'.(ProjectionFoldState.projection).(RunProjection.sagas).
Proof. apply apply_sagas_step. Qed.

(** In every saga at most one corrective attempt is active, and its number is the action's
    count of attempts, at most 10; in the forward phases no compensation has started; and when
    the correction is completed no action is running or waiting for a retry. *)
Theorem sagas_one_active_attempt events s id saga :
  from_events events = Ok s → s.(ProjectionFoldState.projection).(RunProjection.sagas) !! id = Some saga → saga_ok id saga.
Proof.
  intros Hs. apply (invariant_holds _ s (ex_intro _ _ Hs) (Invariant0:=sagas_invariant)).
Qed.

(** Compensation is not repeated: however a history is extended, a corrective action that
    succeeded stays exactly as it was; the step an action compensates never changes, and its
    attempts are never uncounted. *)
Theorem compensation_not_repeated events more s s' id saga action_id a :
  from_events events = Ok s → from_events (events ++ more) = Ok s' →
  s.(ProjectionFoldState.projection).(RunProjection.sagas) !! id = Some saga → saga.(SagaProjection.actions) !! action_id = Some a →
  ∃ saga' a', s'.(ProjectionFoldState.projection).(RunProjection.sagas) !! id = Some saga'
    ∧ saga'.(SagaProjection.actions) !! action_id = Some a' ∧ action_evolves a a'.
Proof.
  intros Hs Hs'. refine (field_history RunProjection.sagas sagas_evolve _ _ _ _ _ Hs Hs' id saga action_id a).
  intros x event y Hr Happ. by eapply sagas_step_evolve, apply_sagas_step.
Qed.
End with_externals.
