(* ===== verification/OperationProperties.v ===== *)
(** * Properties of operations, notifications and control flow

    External calls of an attempt are started once under their identity and settled
    at most once, at top level and in every iteration; deliveries of notifications
    are numbered and final; selections are made once, the join of a fork is settled
    once and its failure is proven by a branch, a parallel group is completed once. *)

From S2P Require Import Prelude Strings Json EventTypes ProjectionTypes Guards FoldRun.
From S2P Require Import FoldControlFlow FoldCorrection FoldApprovals FoldOperations FoldLifecycle.
From S2P Require Import IterationFold EventIdentities EventValidation Fold FoldFrames.
From S2P Require Import ValidationProperties HistoryProperties LoopProperties.

(** ** The abstract register of calls *)

Abbreviation operations := (gmap OperationIdentity OperationProjection).

(** The logical key of a call is not in use in its invocation. *)
Definition fresh_key (ops : operations) (o : OperationProjection) : Prop :=
  ∀ key o', ops !! key = Some o' →
    o'.(OperationProjection.identity).(OperationIdentity.invocation_id) = o.(OperationProjection.identity).(OperationIdentity.invocation_id) →
    o'.(OperationProjection.operation_key) ≠ o.(OperationProjection.operation_key).

(** A step of a register that checks the logical keys ([strict]) or does not. *)
Inductive operations_step (strict : bool) (ops : operations) : operations → Prop :=
| operations_start o :
    ops !! o.(OperationProjection.identity) = None → operation_is_started o.(OperationProjection.status) = true →
    (strict = true → fresh_key ops o) →
    operations_step strict ops (<[o.(OperationProjection.identity) := o]> ops)
| operations_settle o metadata status :
    ops !! o.(OperationProjection.identity) = Some o → operation_is_started o.(OperationProjection.status) = true →
    operation_is_started status = false →
    operations_step strict ops (<[o.(OperationProjection.identity) := o <|OperationProjection.metadata := metadata|> <|OperationProjection.status := status|>]> ops)
| operations_idle : operations_step strict ops ops.

(** What later events leave as it is: the call itself, and a settled call entirely. *)
Record operation_evolves (o o' : OperationProjection) : Prop := {
  oe_identity : o'.(OperationProjection.identity) = o.(OperationProjection.identity);
  oe_node : o'.(OperationProjection.node_id) = o.(OperationProjection.node_id);
  oe_attempt : o'.(OperationProjection.attempt_number) = o.(OperationProjection.attempt_number);
  oe_key : o'.(OperationProjection.operation_key) = o.(OperationProjection.operation_key);
  oe_capability : o'.(OperationProjection.capability) = o.(OperationProjection.capability);
  oe_operation : o'.(OperationProjection.operation) = o.(OperationProjection.operation);
  oe_mode : o'.(OperationProjection.execution_mode) = o.(OperationProjection.execution_mode);
  oe_settled : operation_is_started o.(OperationProjection.status) = false → o' = o;
}.

#[global] Instance operation_evolves_preorder : PreOrder operation_evolves.
Proof.
  split; [by split|]. intros x y z [] []. split; try congruence.
  intros Hs. assert (y = x) as -> by auto. auto.
Qed.

Lemma operations_step_evolve strict ops ops' :
  operations_step strict ops ops' → entries_evolve operation_evolves ops ops'.
Proof.
  intros [o Hn Hs _|o metadata status Ho Hs Hns|]; [| |reflexivity].
  - by apply (entries_evolve_new _).
  - eapply (entries_evolve_change _); [done|]. split; try done. congruence.
Qed.

(** Calls are stored under their identity. *)
Definition identified (ops : operations) : Prop := map_Forall (λ key o, o.(OperationProjection.identity) = key) ops.

Lemma operations_step_identified strict ops ops' :
  operations_step strict ops ops' → identified ops → identified ops'.
Proof. by intros [] ?; [apply map_Forall_insert_2..|]. Qed.

(** No two calls of one invocation share a logical key. *)
Definition keys_unique (ops : operations) : Prop :=
  ∀ k1 k2 o1 o2, ops !! k1 = Some o1 → ops !! k2 = Some o2 →
    o1.(OperationProjection.identity).(OperationIdentity.invocation_id) = o2.(OperationProjection.identity).(OperationIdentity.invocation_id) →
    o1.(OperationProjection.operation_key) = o2.(OperationProjection.operation_key) → k1 = k2.

Lemma operations_step_unique ops ops' : operations_step true ops ops' → keys_unique ops → keys_unique ops'.
Proof.
  intros [o Hn Hs Hf|o metadata status Ho Hs Hns|] Hu; [| |done]; intros k1 k2 o1 o2
    [(<- & <-)|[Hn1 H1]]%lookup_insert_Some [(<- & <-)|[Hn2 H2]]%lookup_insert_Some Hi Hk; try done.
  - by destruct (Hf eq_refl _ _ H2).
  - by destruct (Hf eq_refl _ _ H1).
  - by eapply Hu.
  - by eapply Hu.
  - by eapply Hu.
  - by eapply Hu.
Qed.

Section with_externals.
Context `{Externals}.

(** ** The run and its iterations implement the register *)

(** A settlement as a step of the register. *)
Lemma settle_step_at strict ops key o metadata status :
  identified ops → ops !! key = Some o → operation_is_started o.(OperationProjection.status) = true →
  operation_is_started status = false →
  operations_step strict ops (<[key := o <|OperationProjection.metadata := metadata|> <|OperationProjection.status := status|>]> ops).
Proof. intros Hid Ho. rewrite <-(Hid _ _ Ho). apply operations_settle. by rewrite (Hid _ _ Ho). Qed.

Lemma run_operations_step p event index indexes previous p' indexes' :
  touches_operations event.(RunEvent.payload) = true → identified p.(RunProjection.operations) →
  apply_payload p event index indexes previous = Ok (p', indexes') →
  operations_step true p.(RunProjection.operations) p'.(RunProjection.operations).
Proof.
  intros Ht Hid Ha. unfold apply_payload in Ha.
  destruct (RunEvent.payload event) as [] eqn:Hp; try discriminate Ht; cbn beta iota zeta in Ha;
    unfold_handlers Ha; unfold validate_operation_terminal_identity in Ha; invert_ok; simplify_guards;
    simplify_eq; cbn.
  - refine (operations_start true _ (OperationProjection.mk _ _ _ _ _ _ _ _ OperationStatus.Started) _ _ _); [|done|].
    + by apply contains_key_false.
    + intros _ key o' Ho' Hi Hk. match goal with He : existsb _ _ = false |- _ =>
        pose proof (proj1 (existsb_values_false _ _) He _ _ Ho') as Hb end.
      simpl in Hi, Hk, Hb. rewrite Hi, Hk in Hb. by rewrite !bool_decide_eq_true_2 in Hb.
  - by apply settle_step_at.
  - by apply settle_step_at.
Qed.

Lemma execution_operations_step e scope event previous e' :
  identified e.(ForEachIterationExecutionProjection.operations) → apply_to_execution e scope event previous = Ok e' →
  operations_step false e.(ForEachIterationExecutionProjection.operations) e'.(ForEachIterationExecutionProjection.operations).
Proof.
  intros Hid Ha. unfold apply_to_execution in Ha.
  destruct (RunEvent.payload event) as [] eqn:Hp; try discriminate Ha; invert_arm Ha; simplify_guards;
    simplify_eq; cbn; try apply operations_idle.
  - refine (operations_start false _ (OperationProjection.mk _ _ _ _ _ _ _ _ OperationStatus.Started) _ _ _); [|done|done].
    by apply contains_key_false.
  - by apply (settle_step_at _ _ _ x x.(OperationProjection.metadata)).
  - by apply (settle_step_at _ _ _ x x.(OperationProjection.metadata)).
Qed.

Definition register_ok (ops : operations) : Prop := identified ops ∧ keys_unique ops.

#[global] Instance operations_invariant : Invariant (λ s, register_ok s.(ProjectionFoldState.projection).(RunProjection.operations)).
Proof.
  apply (field_invariant RunProjection.operations touches_operations register_ok); [by split|].
  intros s event p' indexes' _ [Hid Hu] _ Ht _ Ha.
  pose proof (run_operations_step _ _ _ _ _ _ _ Ht Hid Ha) as Hstep.
  split; [by eapply operations_step_identified|by eapply operations_step_unique].
Qed.

#[global] Instance execution_operations_invariant : Invariant (λ s,
  executions_satisfy (λ e, identified e.(ForEachIterationExecutionProjection.operations)) s.(ProjectionFoldState.projection).(RunProjection.for_each)).
Proof.
  apply executions_invariant; [intros; apply map_Forall_empty|done|].
  intros e scope event previous e' Hv He Ha. eapply operations_step_identified; [|done].
  by eapply execution_operations_step.
Qed.

(** ** Theorems *)

(** A call is settled at most once and never rewritten: however a history is extended, the
    node, the attempt, the logical key, the capability and the mode of a call stay, and a call
    that succeeded or failed stays exactly as it was settled. *)
Theorem operations_settle_once events more s s' :
  from_events events = Ok s → from_events (events ++ more) = Ok s' →
  entries_evolve operation_evolves s.(ProjectionFoldState.projection).(RunProjection.operations) s'.(ProjectionFoldState.projection).(RunProjection.operations).
Proof.
  apply (field_history RunProjection.operations (entries_evolve operation_evolves)). intros x event y Hr Happ.
  apply (apply_field_step RunProjection.operations touches_operations _ _ _ _ Happ).
  intros p' Hv Ht _ Ha. eapply operations_step_evolve, run_operations_step; [done| |done].
  by apply (invariant_holds _ x Hr (Invariant0:=operations_invariant)).
Qed.

(** Calls are identified: each is stored under its own identity, and within one invocation
    the logical key identifies the call, so that a repeated call cannot be started twice. *)
Theorem operation_keys_unique events s :
  from_events events = Ok s → register_ok s.(ProjectionFoldState.projection).(RunProjection.operations).
Proof.
  intros Hs. exact (invariant_holds _ s (ex_intro _ _ Hs) (Invariant0:=operations_invariant)).
Qed.
End with_externals.

(** ** The life of a delivery *)

(** The attempt a delivery is at. *)
Definition delivery_attempt (status : NotificationDeliveryStatus) : N :=
  match status with
  | NotificationDeliveryStatus.Requested => 0
  | NotificationDeliveryStatus.AttemptStarted attempt _ _ | NotificationDeliveryStatus.Succeeded attempt _ _ | NotificationDeliveryStatus.Failed attempt _ _ _ _ => attempt
  end.

Definition delivery_settled (status : NotificationDeliveryStatus) : bool :=
  match status with NotificationDeliveryStatus.Succeeded _ _ _ | NotificationDeliveryStatus.Failed _ _ true _ _ => true | _ => false end.

(** The status may change from [a] to [b]: the next attempt starts, or the running one ends. *)
Inductive delivery_step : NotificationDeliveryStatus → NotificationDeliveryStatus → Prop :=
| delivery_first attempt_id key : delivery_step NotificationDeliveryStatus.Requested (NotificationDeliveryStatus.AttemptStarted 1 attempt_id key)
| delivery_retry attempt id failure at_ attempt_id key :
    failure.(NotificationSafeFailure.retryable) = true → (attempt + 1 ≤ 3)%N →
    delivery_step (NotificationDeliveryStatus.Failed attempt id false failure at_) (NotificationDeliveryStatus.AttemptStarted (attempt + 1) attempt_id key)
| delivery_succeed attempt attempt_id key message :
    delivery_step (NotificationDeliveryStatus.AttemptStarted attempt attempt_id key) (NotificationDeliveryStatus.Succeeded attempt attempt_id message)
| delivery_fail attempt attempt_id key final failure at_ :
    (final = false → failure.(NotificationSafeFailure.retryable) = true ∧ (attempt < 3)%N) →
    delivery_step (NotificationDeliveryStatus.AttemptStarted attempt attempt_id key) (NotificationDeliveryStatus.Failed attempt attempt_id final failure at_).

Record delivery_ok (id : string) (d : NotificationDeliveryProjection) : Prop := {
  delivery_ok_id : d.(NotificationDeliveryProjection.delivery_id) = id;
  delivery_ok_attempts : (delivery_attempt d.(NotificationDeliveryProjection.status) ≤ 3)%N;
}.

(** What later events leave as it is. *)
Record delivery_evolves (d d' : NotificationDeliveryProjection) : Prop := {
  de_approval : d'.(NotificationDeliveryProjection.approval_id) = d.(NotificationDeliveryProjection.approval_id);
  de_request : d'.(NotificationDeliveryProjection.request_id) = d.(NotificationDeliveryProjection.request_id);
  de_provider : d'.(NotificationDeliveryProjection.provider) = d.(NotificationDeliveryProjection.provider);
  de_destination : d'.(NotificationDeliveryProjection.destination) = d.(NotificationDeliveryProjection.destination);
  de_attempts : (delivery_attempt d.(NotificationDeliveryProjection.status) ≤ delivery_attempt d'.(NotificationDeliveryProjection.status))%N;
  de_settled : delivery_settled d.(NotificationDeliveryProjection.status) = true → d' = d;
}.

#[global] Instance delivery_evolves_preorder : PreOrder delivery_evolves.
Proof.
  split; [by split|]. intros x y z [] []. split; try congruence; [lia|].
  intros Hs. assert (y = x) as -> by auto. auto.
Qed.

Lemma delivery_step_evolves d status :
  delivery_step d.(NotificationDeliveryProjection.status) status → delivery_evolves d (d <|NotificationDeliveryProjection.status := status|>).
Proof.
  intros Hstep. split; try done; cbn.
  - destruct Hstep; simpl; lia.
  - intros Hs. exfalso. by destruct Hstep.
Qed.

Lemma delivery_step_ok id d status :
  delivery_step d.(NotificationDeliveryProjection.status) status → delivery_ok id d → delivery_ok id (d <|NotificationDeliveryProjection.status := status|>).
Proof. intros Hstep [Hid Hle]. split; cbn; [done|]. destruct Hstep; simpl in *; lia. Qed.

Section with_externals.
Context `{Externals}.

Lemma delivery_attempt_contract event data :
  validate event = Ok tt → event.(RunEvent.payload) = RunEventPayload.NotificationDeliveryAttemptStarted data →
  (1 ≤ data.(NotificationDeliveryAttemptStartedData.attempt) ≤ 3)%N.
Proof.
  intros (event' & Hv & Hp & _)%validate_contract_at Hd. rewrite Hd in Hp.
  unfold validate_payload in Hv. rewrite Hp in Hv. unfold_contracts Hv. invert_ok.
  by simplify_guards.
Qed.

Lemma delivery_failure_contract event data :
  validate event = Ok tt → event.(RunEvent.payload) = RunEventPayload.NotificationDeliveryFailed data →
  data.(NotificationDeliveryFailedData.final_) = false →
  data.(NotificationDeliveryFailedData.failure).(NotificationSafeFailure.retryable) = true
  ∧ (data.(NotificationDeliveryFailedData.attempt) < 3)%N.
Proof.
  intros (event' & Hv & Hp & _)%validate_contract_at Hd Hf. rewrite Hd in Hp.
  unfold validate_payload in Hv. rewrite Hp in Hv. unfold_contracts Hv. invert_ok.
  simplify_guards. rewrite Hf in *. simpl in *. simplify_guards.
  split; [done|]. lia.
Qed.

Lemma next_delivery_attempt status data :
  (delivery_attempt status ≤ 3)%N → (1 ≤ data.(NotificationDeliveryAttemptStartedData.attempt) ≤ 3)%N →
  data.(NotificationDeliveryAttemptStartedData.attempt) = expected_delivery_attempt status →
  delivery_step status (NotificationDeliveryStatus.AttemptStarted data.(NotificationDeliveryAttemptStartedData.attempt)
    data.(NotificationDeliveryAttemptStartedData.attempt_id)
    data.(NotificationDeliveryAttemptStartedData.idempotency_key)).
Proof.
  intros Hle [H1 H3] He. rewrite He in *.
  destruct status as [| | |attempt id [] failure at_]; simpl in *; try lia; [constructor|].
  destruct (NotificationSafeFailure.retryable failure) eqn:Hr; [|lia].
  rewrite u32_add_small in * by (unfold u32_modulus; lia). by constructor.
Qed.

(** One event on the deliveries. *)
Definition deliveries_step (ds ds' : gmap string NotificationDeliveryProjection) : Prop :=
  (∃ d, ds !! d.(NotificationDeliveryProjection.delivery_id) = None ∧ d.(NotificationDeliveryProjection.status) = NotificationDeliveryStatus.Requested
     ∧ ds' = <[d.(NotificationDeliveryProjection.delivery_id) := d]> ds)
  ∨ ∃ id d status, ds !! id = Some d ∧ delivery_step d.(NotificationDeliveryProjection.status) status
      ∧ ds' = <[id := d <|NotificationDeliveryProjection.status := status|>]> ds.

Lemma run_deliveries_step p event index indexes previous p' indexes' :
  validate event = Ok tt → touches_deliveries event.(RunEvent.payload) = true →
  map_Forall delivery_ok p.(RunProjection.notification_deliveries) →
  apply_payload p event index indexes previous = Ok (p', indexes') →
  deliveries_step p.(RunProjection.notification_deliveries) p'.(RunProjection.notification_deliveries).
Proof.
  intros Hv Ht Hok Ha. unfold apply_payload in Ha.
  destruct (RunEvent.payload event) as [] eqn:Hp; try discriminate Ht; cbn beta iota zeta in Ha;
    invert_handler Ha; simplify_guards; simplify_eq; cbn.
  - left. eexists (NotificationDeliveryProjection.mk _ _ _ _ _ NotificationDeliveryStatus.Requested). split_and!; [|done..].
    by apply contains_key_false.
  - right. do 3 eexists. split_and!; [done| |done].
    apply next_delivery_attempt; [|by eapply delivery_attempt_contract|done].
    by apply (Hok _ _ ltac:(eassumption)).
  - right. do 3 eexists. split_and!; [done| |done].
    match goal with Hd : delivery_attempt_active _ _ _ = true |- _ => unfold delivery_attempt_active in Hd end.
    case_match; try discriminate. simplify_guards. subst. constructor.
  - right. do 3 eexists. split_and!; [done| |done].
    match goal with Hd : delivery_attempt_active _ _ _ = true |- _ => unfold delivery_attempt_active in Hd end.
    case_match; try discriminate. simplify_guards. subst. constructor.
    by eapply delivery_failure_contract.
Qed.

Lemma deliveries_step_ok ds ds' :
  deliveries_step ds ds' → map_Forall delivery_ok ds → map_Forall delivery_ok ds'.
Proof.
  intros [(d & Hn & Hs & ->)|(id & d & status & Hd & Hstep & ->)] Hok; apply map_Forall_insert_2; try done.
  - split; [done|]. rewrite Hs. simpl. lia.
  - apply delivery_step_ok; [done|by apply Hok].
Qed.

Lemma deliveries_step_evolve ds ds' : deliveries_step ds ds' → entries_evolve delivery_evolves ds ds'.
Proof.
  intros [(d & Hn & Hs & ->)|(id & d & status & Hd & Hstep & ->)]; [by apply (entries_evolve_new _)|].
  eapply (entries_evolve_change _); [done|]. by apply delivery_step_evolves.
Qed.

#[global] Instance deliveries_invariant :
  Invariant (λ s, map_Forall delivery_ok s.(ProjectionFoldState.projection).(RunProjection.notification_deliveries)).
Proof.
  apply (field_invariant RunProjection.notification_deliveries touches_deliveries (map_Forall delivery_ok));
    [apply map_Forall_empty|].
  intros s event p' indexes' _ Hok Hv Ht _ Ha. eapply deliveries_step_ok; [|done].
  by eapply run_deliveries_step.
Qed.

Lemma apply_deliveries_evolve s event s' :
  reachable s → apply s event = Ok s' →
  entries_evolve delivery_evolves s.(ProjectionFoldState.projection).(RunProjection.notification_deliveries)
    s'.(ProjectionFoldState.projection).(RunProjection.notification_deliveries).
Proof.
  intros Hr Happ. apply (apply_field_step RunProjection.notification_deliveries touches_deliveries _ _ _ _ Happ).
  intros p' Hv Ht _ Ha. eapply deliveries_step_evolve, run_deliveries_step; [done..| |done].
  exact (invariant_holds _ s Hr (Invariant0:=deliveries_invariant)).
Qed.

(** ** Decisions *)

(** The delivery through which a decision came. *)
Definition came_through (ds : gmap string NotificationDeliveryProjection)
    (decision : NotificationDecisionAcceptedData) : Prop :=
  ∃ d, ds !! decision.(NotificationDecisionAcceptedData.delivery_id) = Some d
    ∧ delivery_succeeded d = true
    ∧ d.(NotificationDeliveryProjection.approval_id) = decision.(NotificationDecisionAcceptedData.approval_id)
    ∧ d.(NotificationDeliveryProjection.request_id) = decision.(NotificationDecisionAcceptedData.request_id).

Lemma came_through_evolve ds ds' decision :
  entries_evolve delivery_evolves ds ds' → came_through ds decision → came_through ds' decision.
Proof.
  intros Hev (d & Hd & Hs & ? & ?). destruct (Hev _ _ Hd) as (d' & Hd' & Hde).
  assert (d' = d) as ->; [|by exists d]. apply (de_settled _ _ Hde).
  unfold delivery_succeeded in Hs. by destruct (NotificationDeliveryProjection.status d).
Qed.

Record decisions_ok (s : ProjectionFoldState) : Prop := {
  decisions_single : length s.(ProjectionFoldState.projection).(RunProjection.notification_decisions) ≤ 1;
  decisions_delivered : Forall (came_through s.(ProjectionFoldState.projection).(RunProjection.notification_deliveries))
    s.(ProjectionFoldState.projection).(RunProjection.notification_decisions);
}.

Lemma decision_step s event s' :
  apply s event = Ok s' →
  touches_decisions event.(RunEvent.payload) && negb (in_iteration event) = true →
  ∃ data, event.(RunEvent.payload) = RunEventPayload.NotificationDecisionAccepted data
    ∧ s.(ProjectionFoldState.projection).(RunProjection.notification_decisions) = []
    ∧ s'.(ProjectionFoldState.projection).(RunProjection.notification_decisions) = [data]
    ∧ came_through s.(ProjectionFoldState.projection).(RunProjection.notification_deliveries) data.
Proof.
  intros [p' Ha]%apply_ok [Ht Hi%negb_true_iff]%andb_true_iff.
  rewrite (apply_field RunProjection.notification_decisions touches_decisions _ _ _ _ Ha).
  pose proof (dispatch_top _ _ _ _ (applied_dispatch _ _ _ _ Ha) Hi) as Hd. unfold apply_payload in Hd.
  destruct (RunEvent.payload event) as [] eqn:Hp; try discriminate Ht; cbn beta iota zeta in Hd;
    invert_handler Hd; simplify_guards; simplify_eq; cbn.
  destruct (RunProjection.notification_decisions _); [|done].
  eexists. split_and!; [done..|]. by eexists.
Qed.

#[global] Instance decisions_invariant : Invariant decisions_ok.
Proof.
  split; [split; cbn; [lia|constructor]|]. intros s event s' Hr [Hone Hall] Happ.
  pose proof (apply_deliveries_evolve _ _ _ Hr Happ) as Hev.
  destruct (touches_decisions event.(RunEvent.payload) && negb (in_iteration event)) eqn:Ht.
  - destruct (decision_step _ _ _ Happ Ht) as (data & _ & _ & Hd & Hc).
    split; rewrite Hd; [simpl; lia|]. apply Forall_singleton. by eapply came_through_evolve.
  - split; rewrite (apply_untouched RunProjection.notification_decisions touches_decisions _ _ _ Happ Ht); [done|].
    eapply Forall_impl; [exact Hall|]. intros d. by apply came_through_evolve.
Qed.

(** ** Theorems *)

(** A delivery is tried at most three times and settled once: however a history is extended,
    its approval, request, provider and destination stay, the number of its attempt only grows,
    and a delivery that succeeded or finally failed stays exactly as it was settled. *)
Theorem deliveries_settle_once events more s s' :
  from_events events = Ok s → from_events (events ++ more) = Ok s' →
  map_Forall delivery_ok s.(ProjectionFoldState.projection).(RunProjection.notification_deliveries)
  ∧ entries_evolve delivery_evolves s.(ProjectionFoldState.projection).(RunProjection.notification_deliveries)
      s'.(ProjectionFoldState.projection).(RunProjection.notification_deliveries).
Proof.
  intros Hs Hs'. split; [exact (invariant_holds _ s (ex_intro _ _ Hs) (Invariant0:=deliveries_invariant))|].
  refine (field_history RunProjection.notification_deliveries (entries_evolve delivery_evolves)
    apply_deliveries_evolve _ _ _ _ Hs Hs').
Qed.

(** A run accepts one notification decision in its whole life: it came through a delivery
    that succeeded, for that delivery's approval, and once it is accepted no later decision event
    is, not even for another approval of the same run. *)
Theorem one_notification_decision events s :
  from_events events = Ok s →
  length s.(ProjectionFoldState.projection).(RunProjection.notification_decisions) ≤ 1
  ∧ Forall (came_through s.(ProjectionFoldState.projection).(RunProjection.notification_deliveries))
      s.(ProjectionFoldState.projection).(RunProjection.notification_decisions)
  ∧ (s.(ProjectionFoldState.projection).(RunProjection.notification_decisions) ≠ [] → ∀ event data s',
       event.(RunEvent.payload) = RunEventPayload.NotificationDecisionAccepted data → apply s event ≠ Ok s').
Proof.
  intros Hs. pose proof (invariant_holds _ s (ex_intro _ _ Hs) (Invariant0:=decisions_invariant)) as [??].
  split_and!; [done..|]. intros Hne event data s' Hp Happ.
  destruct (touches_decisions event.(RunEvent.payload) && negb (in_iteration event)) eqn:Ht.
  - destruct (decision_step _ _ _ Happ Ht) as (? & _ & ? & _). done.
  - rewrite Hp in Ht. destruct (in_iteration event) eqn:Hi; [|done].
    apply iteration_payload_ok in Happ; [|done]. by rewrite Hp in Happ.
Qed.
End with_externals.

(** ** Forks *)

(** The join of a fork that did not succeed names a branch that ended the same way. *)
Definition join_proven (fork : ForkProjection) : Prop :=
  match fork.(ForkProjection.join_status) with
  | ForkJoinStatus.Pending | ForkJoinStatus.Succeeded => fork.(ForkProjection.blocking_branch_id) = None
  | ForkJoinStatus.Failed => ∃ id branch, fork.(ForkProjection.blocking_branch_id) = Some id ∧ fork.(ForkProjection.branches) !! id = Some branch
      ∧ branch.(ForkBranchProjection.outcome) = Some ForkBranchOutcome.Failed
  | ForkJoinStatus.Cancelled => ∃ id branch, fork.(ForkProjection.blocking_branch_id) = Some id ∧ fork.(ForkProjection.branches) !! id = Some branch
      ∧ branch.(ForkBranchProjection.outcome) = Some ForkBranchOutcome.Cancelled
  end.

Record fork_ok (id : string) (fork : ForkProjection) : Prop := {
  fork_ok_id : fork.(ForkProjection.fork_id) = id;
  fork_ok_branches : map_Forall (λ branch_id branch,
    branch.(ForkBranchProjection.branch_id) = branch_id ∧ is_Some branch.(ForkBranchProjection.outcome)) fork.(ForkProjection.branches);
  fork_ok_join : join_proven fork;
}.

Record fork_evolves (f f' : ForkProjection) : Prop := {
  fork_branches_grow : f.(ForkProjection.branches) ⊆ f'.(ForkProjection.branches);
  fork_join_final : f.(ForkProjection.join_status) ≠ ForkJoinStatus.Pending →
    f'.(ForkProjection.join_status) = f.(ForkProjection.join_status) ∧ f'.(ForkProjection.blocking_branch_id) = f.(ForkProjection.blocking_branch_id);
}.

#[global] Instance fork_evolves_preorder : PreOrder fork_evolves.
Proof.
  split; [by split|]. intros x y z [G J] [G' J']. split; [by etrans|].
  intros Hx. destruct (J Hx) as [Hj Hb]. rewrite <-Hj in Hx. destruct (J' Hx). split; congruence.
Qed.

(** ** Parallel groups *)

Record group_evolves (g g' : ParallelGroupProjection) : Prop := {
  group_context : g'.(ParallelGroupProjection.fork_context) = g.(ParallelGroupProjection.fork_context);
  group_completed : g.(ParallelGroupProjection.status) ≠ ParallelGroupStatus.Started → g' = g;
}.

#[global] Instance group_evolves_preorder : PreOrder group_evolves.
Proof.
  split; [by split|]. intros x y z [] []. split; [congruence|].
  intros Hs. assert (y = x) as -> by auto. auto.
Qed.

Section with_externals.
Context `{Externals}.

Lemma join_contract event data :
  validate event = Ok tt → event.(RunEvent.payload) = RunEventPayload.ForkJoinSettled data → blocking_valid data = true.
Proof.
  intros (event' & Hv & Hp & _)%validate_contract_at Hd. rewrite Hd in Hp.
  unfold validate_payload in Hv. rewrite Hp in Hv. unfold_contracts Hv. invert_ok. by simplify_guards.
Qed.

(** The settled join of a fork. *)
Lemma join_settled_proven fork data :
  blocking_valid data = true →
  (∀ id, data.(ForkJoinSettledData.blocking_branch_id) = Some id →
     matching_outcome fork data.(ForkJoinSettledData.outcome) id = true) →
  join_proven (fork <|ForkProjection.join_status := join_status_of data.(ForkJoinSettledData.outcome)|>
    <|ForkProjection.blocking_branch_id := data.(ForkJoinSettledData.blocking_branch_id)|>).
Proof.
  unfold blocking_valid, matching_outcome, join_proven. cbn. intros Hv Hm.
  destruct (ForkJoinSettledData.outcome data), (ForkJoinSettledData.blocking_branch_id data) as [id|];
    try done; simpl; specialize (Hm id eq_refl);
    destruct (ForkProjection.branches fork !! id) as [branch|] eqn:Hb; try done;
    destruct (ForkBranchProjection.outcome branch) eqn:Ho; try done; simpl in Hm; simplify_guards;
    exists id, branch; naive_solver.
Qed.

Lemma branch_settled_ok id fork branch_id branch :
  fork_ok id fork → fork.(ForkProjection.branches) !! branch_id = None →
  branch.(ForkBranchProjection.branch_id) = branch_id → is_Some branch.(ForkBranchProjection.outcome) →
  fork_ok id (fork <|ForkProjection.branches ::= <[branch_id := branch]> |>).
Proof.
  intros [Hid Hb Hj] Hn Hbid Ho. split; cbn; [done|by apply map_Forall_insert_2|].
  unfold join_proven in *. cbn. destruct (ForkProjection.join_status fork); try done.
  all: destruct Hj as (b & x & ? & ? & ?); exists b, x; split_and!; try done.
  all: by rewrite lookup_insert_ne by congruence.
Qed.

Lemma run_forks_step p event index indexes previous p' indexes' :
  validate event = Ok tt → touches_forks event.(RunEvent.payload) = true →
  apply_payload p event index indexes previous = Ok (p', indexes') →
  entries_evolve fork_evolves p.(RunProjection.forks) p'.(RunProjection.forks)
  ∧ (map_Forall fork_ok p.(RunProjection.forks) → map_Forall fork_ok p'.(RunProjection.forks)).
Proof.
  intros Hv Ht Ha. unfold apply_payload in Ha.
  destruct (RunEvent.payload event) as [] eqn:Hp; try discriminate Ht; cbn beta iota zeta in Ha;
    [invert_handler Ha; simplify_guards; simplify_eq; cbn..|].
  - split; [by apply (entries_evolve_new _), contains_key_false|]. intros Hok.
    apply map_Forall_insert_2; [|done]. by split; [|apply map_Forall_empty|].
  - match goal with Hn : contains_key _ _ = false |- _ => apply contains_key_false in Hn end.
    split; [eapply (entries_evolve_change _); [done|]; split; [by apply insert_subseteq|done]|].
    intros Hok. apply map_Forall_insert_2; [|done]. apply branch_settled_ok; try done. by apply Hok.
  - pose proof (join_contract _ _ Hv Hp) as Hb. clear Hv. unfold apply_fork_join_settled in Ha.
    apply result_bind_ok in Ha as (q & Ha & Hq). apply result_bind_ok in Ha as ([] & _ & Ha).
    apply result_bind_ok in Ha as (fork & Hf%ok_or_ok & Ha).
    apply result_bind_ok in Ha as ([] & Hpend%fail_if_ok & Ha).
    apply result_bind_ok in Ha as ([] & Hblock & [= <-]%Ok_inj). simplify_guards. simplify_eq. cbn.
    split; [eapply (entries_evolve_change _); [done|]; by split|].
    intros Hok. apply map_Forall_insert_2; [|done]. destruct (Hok _ _ Hf) as [? ? _].
    split; [done|done|]. apply join_settled_proven; [done|]. intros id Hid. rewrite Hid in Hblock.
    invert_ok. by simplify_guards.
Qed.

#[global] Instance forks_ok_invariant : Invariant (λ s, map_Forall fork_ok s.(ProjectionFoldState.projection).(RunProjection.forks)).
Proof.
  apply (field_invariant RunProjection.forks touches_forks (map_Forall fork_ok)); [apply map_Forall_empty|].
  intros s event p' indexes' _ Hok Hv Ht _ Ha.
  by destruct (run_forks_step _ _ _ _ _ _ _ Hv Ht Ha) as [_ Hstep]; apply Hstep.
Qed.

Lemma run_groups_step p event index indexes previous p' indexes' :
  touches_parallel event.(RunEvent.payload) = true →
  apply_payload p event index indexes previous = Ok (p', indexes') →
  entries_evolve group_evolves p.(RunProjection.parallel_groups) p'.(RunProjection.parallel_groups).
Proof.
  intros Ht Ha. unfold apply_payload in Ha.
  destruct (RunEvent.payload event) as [] eqn:Hp; try discriminate Ht; cbn beta iota zeta in Ha;
    invert_handler Ha; simplify_guards; simplify_eq; cbn.
  - by apply (entries_evolve_new _), contains_key_false.
  - eapply (entries_evolve_change _); [done|]. split; [done|]. by repeat case_match.
Qed.

Lemma run_branches_step p event index indexes previous p' indexes' :
  touches_branches event.(RunEvent.payload) = true →
  apply_payload p event index indexes previous = Ok (p', indexes') →
  p.(RunProjection.branch_selections) ⊆ p'.(RunProjection.branch_selections).
Proof.
  intros Ht Ha. unfold apply_payload in Ha.
  destruct (RunEvent.payload event) as [] eqn:Hp; try discriminate Ht; cbn beta iota zeta in Ha;
    invert_handler Ha; simplify_guards; simplify_eq; cbn. by apply insert_subseteq, is_some_false.
Qed.

Lemma run_choices_step p event index indexes previous p' indexes' :
  touches_choices event.(RunEvent.payload) = true →
  apply_payload p event index indexes previous = Ok (p', indexes') →
  p.(RunProjection.choice_selections) ⊆ p'.(RunProjection.choice_selections).
Proof.
  intros Ht Ha. unfold apply_payload in Ha.
  destruct (RunEvent.payload event) as [] eqn:Hp; try discriminate Ht; cbn beta iota zeta in Ha;
    invert_handler Ha; simplify_guards; simplify_eq; cbn. by apply insert_subseteq, contains_key_false.
Qed.

(** ** Theorems *)

(** Control flow is decided once: however a history is extended, the arm chosen for a branch
    or a choice stays, the settled branches of a fork stay, the join of a fork stays once it is
    settled, and a completed parallel group stays exactly as it was completed. *)
Theorem control_flow_decided_once events more s s' :
  from_events events = Ok s → from_events (events ++ more) = Ok s' →
  let p := s.(ProjectionFoldState.projection) in
  let p' := s'.(ProjectionFoldState.projection) in
  p.(RunProjection.branch_selections) ⊆ p'.(RunProjection.branch_selections)
  ∧ p.(RunProjection.choice_selections) ⊆ p'.(RunProjection.choice_selections)
  ∧ entries_evolve fork_evolves p.(RunProjection.forks) p'.(RunProjection.forks)
  ∧ entries_evolve group_evolves p.(RunProjection.parallel_groups) p'.(RunProjection.parallel_groups).
Proof.
  intros Hs Hs' p p'. split_and!.
  - refine (field_history RunProjection.branch_selections (⊆) _ _ _ _ _ Hs Hs'). intros x event y _ Happ.
    apply (apply_field_step RunProjection.branch_selections touches_branches _ _ _ _ Happ).
    intros q _ Ht _ Ha. by eapply run_branches_step.
  - refine (field_history RunProjection.choice_selections (⊆) _ _ _ _ _ Hs Hs'). intros x event y _ Happ.
    apply (apply_field_step RunProjection.choice_selections touches_choices _ _ _ _ Happ).
    intros q _ Ht _ Ha. by eapply run_choices_step.
  - refine (field_history RunProjection.forks (entries_evolve fork_evolves) _ _ _ _ _ Hs Hs').
    intros x event y _ Happ. apply (apply_field_step RunProjection.forks touches_forks _ _ _ _ Happ).
    intros q Hv Ht _ Ha. by destruct (run_forks_step _ _ _ _ _ _ _ Hv Ht Ha).
  - refine (field_history RunProjection.parallel_groups (entries_evolve group_evolves) _ _ _ _ _ Hs Hs').
    intros x event y _ Happ. apply (apply_field_step RunProjection.parallel_groups touches_parallel _ _ _ _ Happ).
    intros q _ Ht _ Ha. by eapply run_groups_step.
Qed.

(** The failure of a fork is proven: a join that failed or was cancelled names a branch that
    is on record with the same outcome, and a join that is pending or succeeded names none; every
    recorded branch has an outcome. *)
Theorem fork_failures_proven events s id fork :
  from_events events = Ok s → s.(ProjectionFoldState.projection).(RunProjection.forks) !! id = Some fork → fork_ok id fork.
Proof.
  intros Hs. apply (invariant_holds _ s (ex_intro _ _ Hs) (Invariant0:=forks_ok_invariant)).
Qed.
End with_externals.
