(* ===== verification/LifecycleProperties.v ===== *)
(** * Properties of approvals, waits and lifecycles

    An approval is decided once and by its quorum; a durable wait is registered once
    and settled at most once, and signals are kept; lifecycle hooks follow their
    life cycle, and a run is finalized once, after its outcome. *)

From S2P Require Import Prelude Strings Json EventTypes ProjectionTypes Guards FoldRun.
From S2P Require Import FoldControlFlow FoldCorrection FoldApprovals FoldOperations FoldLifecycle.
From S2P Require Import IterationFold EventIdentities EventValidation Fold FoldFrames.
From S2P Require Import ValidationProperties HistoryProperties.

(** ** Basic approvals *)

(** The resolution is on the right side of the deadline, by the policy of the request. *)
Definition resolution_timely (request : ApprovalRequestProjection) : Prop :=
  match request.(ApprovalRequestProjection.status) with
  | ApprovalRequestStatus.Waiting => True
  | ApprovalRequestStatus.Resolved (ApprovalResolution.Decision _ ApprovalDecisionSource.Human) at_ =>
      ∀ deadline, request.(ApprovalRequestProjection.expires_at) = Some deadline → (at_ < deadline)%Z
  | ApprovalRequestStatus.Resolved (ApprovalResolution.Decision decision ApprovalDecisionSource.Timeout) at_ =>
      decision = ApprovalDecision.Rejected ∧ request.(ApprovalRequestProjection.on_timeout) = ApprovalTimeoutPolicy.Reject
      ∧ ∃ deadline, request.(ApprovalRequestProjection.expires_at) = Some deadline ∧ (deadline ≤ at_)%Z
  | ApprovalRequestStatus.Resolved ApprovalResolution.TimeoutFailure at_ =>
      request.(ApprovalRequestProjection.on_timeout) = ApprovalTimeoutPolicy.Fail
      ∧ ∃ deadline, request.(ApprovalRequestProjection.expires_at) = Some deadline ∧ (deadline ≤ at_)%Z
  end.

Record request_ok (id : string) (request : ApprovalRequestProjection) : Prop := {
  request_ok_id : request.(ApprovalRequestProjection.approval_id) = id;
  request_ok_timely : resolution_timely request;
}.

(** What later events leave as it is. *)
Record request_evolves (r r' : ApprovalRequestProjection) : Prop := {
  re_request : r'.(ApprovalRequestProjection.request_id) = r.(ApprovalRequestProjection.request_id);
  re_expires : r'.(ApprovalRequestProjection.expires_at) = r.(ApprovalRequestProjection.expires_at);
  re_policy : r'.(ApprovalRequestProjection.on_timeout) = r.(ApprovalRequestProjection.on_timeout);
  re_resolved : r.(ApprovalRequestProjection.status) ≠ ApprovalRequestStatus.Waiting → r' = r;
}.

#[global] Instance request_evolves_preorder : PreOrder request_evolves.
Proof.
  split; [by split|]. intros x y z [] []. split; try congruence.
  intros Hs. assert (y = x) as -> by auto. auto.
Qed.

(** ** Rich approvals *)

Record rich_evolves (r r' : RichApprovalRequestProjection) : Prop := {
  rich_request : r'.(RichApprovalRequestProjection.request_id) = r.(RichApprovalRequestProjection.request_id);
  rich_digest : r'.(RichApprovalRequestProjection.review_digest) = r.(RichApprovalRequestProjection.review_digest);
  rich_required : r'.(RichApprovalRequestProjection.required) = r.(RichApprovalRequestProjection.required);
  rich_roles : r'.(RichApprovalRequestProjection.required_roles) = r.(RichApprovalRequestProjection.required_roles);
  rich_decisions : r.(RichApprovalRequestProjection.decisions) ⊆ r'.(RichApprovalRequestProjection.decisions);
  rich_resolved : r.(RichApprovalRequestProjection.status) ≠ RichApprovalRequestStatus.Waiting → r' = r;
}.

#[global] Instance rich_evolves_preorder : PreOrder rich_evolves.
Proof.
  split; [by split|]. intros x y z [] []. split; try congruence; [by etrans|].
  intros Hs. assert (y = x) as -> by auto. auto.
Qed.

Section with_externals.
Context `{Externals}.

Lemma check_resolution_timely request event resolution :
  check_resolution request event resolution = Ok tt →
  resolution_timely (request <|ApprovalRequestProjection.status := ApprovalRequestStatus.Resolved resolution event.(RunEvent.occurred_at)|>).
Proof.
  unfold check_resolution, resolution_timely, expired. cbn. intros Hc.
  destruct (ApprovalRequestProjection.expires_at request) as [deadline|]; simpl in Hc;
    destruct resolution as [[] []|]; invert_ok; simplify_guards; try done.
  1,2: intros ? [= <-]; lia.
  all: split_and!; eauto.
Qed.

Lemma run_approvals_step p event index indexes previous p' indexes' :
  touches_approvals event.(RunEvent.payload) = true →
  apply_payload p event index indexes previous = Ok (p', indexes') →
  entries_evolve request_evolves p.(RunProjection.approval_requests) p'.(RunProjection.approval_requests)
  ∧ (map_Forall request_ok p.(RunProjection.approval_requests) → map_Forall request_ok p'.(RunProjection.approval_requests)).
Proof.
  intros Ht Ha. unfold apply_payload in Ha.
  destruct (RunEvent.payload event) as [] eqn:Hp; try discriminate Ht; cbn beta iota zeta in Ha;
    invert_handler Ha; simplify_guards; simplify_eq; cbn; try done.
  - split; [by apply (entries_evolve_new _), contains_key_false|]. intros Hok.
    by apply map_Forall_insert_2.
  - match goal with Hc : check_resolution _ _ _ = Ok _, Hr : _ !! _ = Some _ |- _ =>
      apply check_resolution_timely in Hc;
      destruct x1; (split; [eapply (entries_evolve_change _); [exact Hr|]; by split|]; intros Hok;
        apply map_Forall_insert_2; [|done]; split; [by apply (request_ok_id _ _ (Hok _ _ Hr))|exact Hc])
    end.
Qed.

Lemma run_rich_step p event index indexes previous p' indexes' :
  touches_rich_approvals event.(RunEvent.payload) = true →
  apply_payload p event index indexes previous = Ok (p', indexes') →
  entries_evolve rich_evolves p.(RunProjection.rich_approval_requests) p'.(RunProjection.rich_approval_requests).
Proof.
  intros Ht Ha. unfold apply_payload in Ha.
  destruct (RunEvent.payload event) as [] eqn:Hp; try discriminate Ht; cbn beta iota zeta in Ha;
    invert_handler Ha; simplify_guards; simplify_eq; cbn.
  - by apply (entries_evolve_new _), contains_key_false.
  - eapply (entries_evolve_change _); [done|]. split; try done.
    by apply insert_subseteq, contains_key_false.
  - eapply (entries_evolve_change _); [done|]. by split.
  - eapply (entries_evolve_change _); [done|]. by split.
  - by destruct x1.
Qed.

#[global] Instance approvals_invariant :
  Invariant (λ s, map_Forall request_ok s.(ProjectionFoldState.projection).(RunProjection.approval_requests)).
Proof.
  apply (field_invariant RunProjection.approval_requests touches_approvals (map_Forall request_ok));
    [apply map_Forall_empty|].
  intros s event p' indexes' _ Hok _ Ht _ Ha.
  by destruct (run_approvals_step _ _ _ _ _ _ _ Ht Ha) as [_ Hstep]; apply Hstep.
Qed.

(** ** Theorems *)

(** Approvals are decided once: however a history is extended, a resolved approval stays
    exactly as it was resolved, and a pending one keeps its request, deadline and policy.  For a
    rich approval also the review digest, the quorum and the required roles stay, and the
    decision of a reviewer is never changed or withdrawn. *)
Theorem approvals_decided_once events more s s' :
  from_events events = Ok s → from_events (events ++ more) = Ok s' →
  entries_evolve request_evolves s.(ProjectionFoldState.projection).(RunProjection.approval_requests)
    s'.(ProjectionFoldState.projection).(RunProjection.approval_requests)
  ∧ entries_evolve rich_evolves s.(ProjectionFoldState.projection).(RunProjection.rich_approval_requests)
      s'.(ProjectionFoldState.projection).(RunProjection.rich_approval_requests).
Proof.
  intros Hs Hs'. split.
  - refine (field_history RunProjection.approval_requests (entries_evolve request_evolves) _ _ _ _ _ Hs Hs').
    intros x event y _ Happ. apply (apply_field_step RunProjection.approval_requests touches_approvals _ _ _ _ Happ).
    intros p' _ Ht _ Ha. by destruct (run_approvals_step _ _ _ _ _ _ _ Ht Ha).
  - refine (field_history RunProjection.rich_approval_requests (entries_evolve rich_evolves) _ _ _ _ _ Hs Hs').
    intros x event y _ Happ.
    apply (apply_field_step RunProjection.rich_approval_requests touches_rich_approvals _ _ _ _ Happ).
    intros p' _ Ht _ Ha. by eapply run_rich_step.
Qed.

(** Basic approvals respect their deadline: a human decision was made strictly before it, a
    rejection by timeout or a timeout failure at or after it and only when the policy of the
    request says so; no approval is granted by a timeout. *)
Theorem approvals_respect_deadline events s id request :
  from_events events = Ok s → s.(ProjectionFoldState.projection).(RunProjection.approval_requests) !! id = Some request →
  resolution_timely request.
Proof.
  intros Hs Hr.
  by apply (invariant_holds _ s (ex_intro _ _ Hs) (Invariant0:=approvals_invariant) _ _ Hr).
Qed.

(** Quorum progress cannot be recorded beyond the quorum: the event is accepted only while at
    most [required] approvals are on record.  Hence once [required] reviewers have approved and a
    required role is still missing, the progress that an approval by that role would bring is
    rejected. *)
Theorem quorum_progress_capped s event s' data :
  apply s event = Ok s' → event.(RunEvent.payload) = RunEventPayload.ApprovalQuorumProgressed data →
  ∃ request, s.(ProjectionFoldState.projection).(RunProjection.rich_approval_requests) !! data.(ApprovalQuorumProgressedData.approval_id)
      = Some request
    ∧ request.(RichApprovalRequestProjection.status) = RichApprovalRequestStatus.Waiting
    ∧ data.(ApprovalQuorumProgressedData.received) = approved_count request
    ∧ (approved_count request ≤ request.(RichApprovalRequestProjection.required))%N.
Proof.
  intros Happ Hp. destruct (apply_ok _ _ _ Happ) as [p' Ha]. pose proof (applied_valid _ _ _ _ Ha) as Hv.
  assert (data.(ApprovalQuorumProgressedData.received) ≤ data.(ApprovalQuorumProgressedData.required))%N
    as Hle.
  { apply validate_contract_at in Hv as (event' & Hv & Hp' & _). rewrite Hp in Hp'.
    unfold validate_payload in Hv. rewrite Hp' in Hv. unfold_contracts Hv. invert_ok. by simplify_guards. }
  destruct (in_iteration event) eqn:Hi.
  { apply iteration_payload_ok in Happ; [|done]. by rewrite Hp in Happ. }
  pose proof (dispatch_top _ _ _ _ (applied_dispatch _ _ _ _ Ha) Hi) as Hd. unfold apply_payload in Hd.
  rewrite Hp in Hd. invert_handler Hd. simplify_guards. simplify_eq. eexists. split_and!; try done.
  congruence.
Qed.
End with_externals.

Abbreviation Signal := ExternalSignalReceivedData.
Definition waits_signals (p : RunProjection) :
    gmap string DurableWaitProjection * list Signal := (p.(RunProjection.durable_waits), p.(RunProjection.external_signals)).

(** The resolution of a wait is justified. *)
Definition resolution_justified (signals : list Signal) (wait : DurableWaitProjection) : Prop :=
  match wait.(DurableWaitProjection.status) with
  | DurableWaitStatus.Registered => wait.(DurableWaitProjection.resolved_at) = None
  | DurableWaitStatus.Satisfied DurableWaitWinner.Timer =>
      wait.(DurableWaitProjection.kind) ≠ DurableWaitKind.Signal
      ∧ ∃ deadline at_, wait.(DurableWaitProjection.deadline) = Some deadline ∧ wait.(DurableWaitProjection.resolved_at) = Some at_ ∧ (deadline ≤ at_)%Z
  | DurableWaitStatus.Satisfied DurableWaitWinner.Signal =>
      ∃ at_ signal, wait.(DurableWaitProjection.resolved_at) = Some at_ ∧ signal ∈ signals
        ∧ signal.(ExternalSignalReceivedData.wait_id) = wait.(DurableWaitProjection.wait_id)
        ∧ (signal.(ExternalSignalReceivedData.received_at) ≤ at_)%Z
  | DurableWaitStatus.TimedOut _ => wait.(DurableWaitProjection.kind) = DurableWaitKind.Signal ∧ is_Some wait.(DurableWaitProjection.deadline) ∧ is_Some wait.(DurableWaitProjection.resolved_at)
  | DurableWaitStatus.Cancelled => is_Some wait.(DurableWaitProjection.resolved_at)
  end.

Record waits_ok (x : gmap string DurableWaitProjection * list Signal) : Prop := {
  waits_ok_ids : map_Forall (λ id wait, wait.(DurableWaitProjection.wait_id) = id) x.1;
  waits_ok_justified : map_Forall (λ _ wait, resolution_justified x.2 wait) x.1;
  waits_ok_signals : NoDup (ExternalSignalReceivedData.signal_id <$> x.2);
  waits_ok_digests : NoDup (ExternalSignalReceivedData.idempotency_digest <$> x.2);
  waits_ok_known : Forall (λ signal : Signal, is_Some (x.1 !! signal.(ExternalSignalReceivedData.wait_id))) x.2;
}.

Record wait_evolves (w w' : DurableWaitProjection) : Prop := {
  we_kind : w'.(DurableWaitProjection.kind) = w.(DurableWaitProjection.kind);
  we_deadline : w'.(DurableWaitProjection.deadline) = w.(DurableWaitProjection.deadline);
  we_resolved : w.(DurableWaitProjection.status) ≠ DurableWaitStatus.Registered → w' = w;
}.

#[global] Instance wait_evolves_preorder : PreOrder wait_evolves.
Proof.
  split; [by split|]. intros x y z [] []. split; try congruence.
  intros Hs. assert (y = x) as -> by auto. auto.
Qed.

(** More signals justify no less. *)
Lemma justified_mono signals signal wait :
  resolution_justified signals wait → resolution_justified (signals ++ [signal]) wait.
Proof.
  unfold resolution_justified. destruct (DurableWaitProjection.status wait) as [|[]| |]; try done.
  intros (at_ & s & ? & ? & ? & ?). exists at_, s. set_solver.
Qed.

(** Registering or resolving one wait. *)
Lemma set_wait_ok waits signals id wait :
  waits_ok (waits, signals) → wait.(DurableWaitProjection.wait_id) = id → resolution_justified signals wait →
  waits_ok (<[id := wait]> waits, signals).
Proof.
  intros [Hid Hj Hs Hd Hk] Hwid Hres. simpl in *. split; simpl; try done.
  - by apply map_Forall_insert_2.
  - by apply map_Forall_insert_2.
  - eapply Forall_impl; [exact Hk|]. intros s [w Hx].
    destruct (decide (id = s.(ExternalSignalReceivedData.wait_id))) as [->|];
      [by rewrite lookup_insert_eq|by rewrite lookup_insert_ne].
Qed.

(** Receiving one signal. *)
Lemma add_signal_ok waits signals (signal : Signal) :
  waits_ok (waits, signals) → is_Some (waits !! signal.(ExternalSignalReceivedData.wait_id)) →
  existsb (λ (s : Signal),
    (s.(ExternalSignalReceivedData.idempotency_digest) == signal.(ExternalSignalReceivedData.idempotency_digest))
    || (s.(ExternalSignalReceivedData.signal_id) == signal.(ExternalSignalReceivedData.signal_id))) signals = false →
  waits_ok (waits, signals ++ [signal]).
Proof.
  intros [Hid Hj Hs Hd Hk] Hw He. simpl in *.
  assert (∀ s : Signal, s ∈ signals →
    s.(ExternalSignalReceivedData.idempotency_digest) ≠ signal.(ExternalSignalReceivedData.idempotency_digest)
    ∧ s.(ExternalSignalReceivedData.signal_id) ≠ signal.(ExternalSignalReceivedData.signal_id)) as Hfresh.
  { intros s Hin. rewrite <-not_true_iff_false, existsb_exists in He.
    split; intros Heq; destruct He; exists s; (split; [by apply list_elem_of_In|]);
      apply orb_true_iff; [left|right]; by apply bool_decide_eq_true_2. }
  split; simpl; try done.
  - intros id wait Hwait. apply justified_mono. by eapply Hj.
  - rewrite fmap_app. apply NoDup_app. split_and!; [done| |apply NoDup_singleton].
    intros d Hin. apply list_elem_of_fmap in Hin as (s & -> & Hin). specialize (Hfresh s Hin). set_solver.
  - rewrite fmap_app. apply NoDup_app. split_and!; [done| |apply NoDup_singleton].
    intros d Hin. apply list_elem_of_fmap in Hin as (s & -> & Hin). specialize (Hfresh s Hin). set_solver.
  - apply Forall_app. split; [done|]. by apply Forall_singleton.
Qed.

Section with_externals.
Context `{Externals}.

#[global] Instance frame_field_waits_signals : FrameField waits_signals wait_event.
Proof.
  split; [done|done|]. intros payload p p' Hf Ht. unfold waits_signals.
  by rewrite (frame_waits _ _ _ Hf), (frame_signals _ _ _ Hf).
Qed.

(** The check of [apply_wait_satisfied] justifies the resolution. *)
Lemma satisfied_justified signals wait (data : WaitSatisfiedData) :
  wait.(DurableWaitProjection.wait_id) = data.(WaitSatisfiedData.wait_id) →
  (data.(WaitSatisfiedData.winner) == DurableWaitWinner.Timer)
    && (negb (match wait.(DurableWaitProjection.kind) with
              | DurableWaitKind.Duration | DurableWaitKind.Until => true | _ => false end)
        || is_none_or wait.(DurableWaitProjection.deadline) (λ deadline,
             bool_decide (data.(WaitSatisfiedData.resolved_at) < deadline)%Z)) = false →
  (data.(WaitSatisfiedData.winner) == DurableWaitWinner.Signal)
    && negb (existsb (λ signal : Signal,
         (signal.(ExternalSignalReceivedData.wait_id) == data.(WaitSatisfiedData.wait_id))
         && bool_decide (signal.(ExternalSignalReceivedData.received_at) ≤ data.(WaitSatisfiedData.resolved_at))%Z)
         signals) = false →
  resolution_justified signals (wait <|DurableWaitProjection.status := DurableWaitStatus.Satisfied data.(WaitSatisfiedData.winner)|>
    <|DurableWaitProjection.resolved_at := Some data.(WaitSatisfiedData.resolved_at)|>).
Proof.
  intros Hid Ht Hs. unfold resolution_justified. cbn.
  destruct (WaitSatisfiedData.winner data).
  - rewrite bool_decide_eq_true_2 in Ht by done. simpl in Ht. simplify_guards.
    destruct (DurableWaitProjection.deadline wait) as [deadline|]; [|done]. simpl in *. simplify_guards.
    split; [by destruct (DurableWaitProjection.kind wait)|].
    exists deadline, data.(WaitSatisfiedData.resolved_at). split_and!; [done..|lia].
  - rewrite bool_decide_eq_true_2 in Hs by done. simpl in Hs. simplify_guards.
    apply existsb_exists in Hs as (signal & Hin%list_elem_of_In & Hsig). simplify_guards.
    eexists _, signal. split_and!; [done..|congruence|done].
Qed.

Lemma run_waits_step p event index indexes previous p' indexes' :
  wait_event event.(RunEvent.payload) = true →
  apply_payload p event index indexes previous = Ok (p', indexes') →
  entries_evolve wait_evolves p.(RunProjection.durable_waits) p'.(RunProjection.durable_waits)
  ∧ (waits_ok (waits_signals p) → waits_ok (waits_signals p')).
Proof.
  intros Ht Ha. unfold apply_payload in Ha.
  destruct (RunEvent.payload event) as [] eqn:Hp; try discriminate Ht; cbn beta iota zeta in Ha;
    invert_handler Ha; simplify_guards; simplify_eq; cbn; unfold waits_signals; cbn.
  - split; [by apply (entries_evolve_new _), contains_key_false|]. intros Hok. by apply set_wait_ok.
  - split; [done|]. intros Hok. apply add_signal_ok; [done|by eexists|done].
  - split; [eapply (entries_evolve_change _); [done|]; by split|]. intros Hok.
    pose proof (waits_ok_ids _ Hok _ _ ltac:(eassumption)) as Hid. simpl in Hid.
    apply set_wait_ok; [done..|]. by apply satisfied_justified.
  - case_match; cbn.
    all: split; [eapply (entries_evolve_change _); [done|]; by split|]; intros Hok.
    all: pose proof (waits_ok_ids _ Hok _ _ ltac:(eassumption)) as Hid; simpl in Hid.
    all: apply set_wait_ok; [done..|]; unfold resolution_justified; cbn; split_and!; [done|by eexists..].
  - split; [eapply (entries_evolve_change _); [done|]; by split|]. intros Hok.
    pose proof (waits_ok_ids _ Hok _ _ ltac:(eassumption)) as Hid. simpl in Hid.
    apply set_wait_ok; [done..|]. unfold resolution_justified. cbn. by eexists.
Qed.

#[global] Instance waits_invariant : Invariant (λ s, waits_ok (waits_signals s.(ProjectionFoldState.projection))).
Proof.
  apply (field_invariant waits_signals wait_event waits_ok).
  - split; cbn; try apply map_Forall_empty; constructor.
  - intros s event p' indexes' _ Hok _ Ht _ Ha.
    by destruct (run_waits_step _ _ _ _ _ _ _ Ht Ha) as [_ Hstep]; apply Hstep.
Qed.

(** ** Theorems *)

(** Durable waits are resolved once and for a reason: a timer only at or after its deadline, a
    signal wait by a signal received for it no later than the resolution, a timeout only for a
    signal wait with a deadline; no signal is received twice (by identifier or idempotency
    digest) or for an unknown wait; and a resolved wait is never changed by later events. *)
Theorem waits_resolved_once events more s s' :
  from_events events = Ok s → from_events (events ++ more) = Ok s' →
  waits_ok (waits_signals s.(ProjectionFoldState.projection))
  ∧ entries_evolve wait_evolves s.(ProjectionFoldState.projection).(RunProjection.durable_waits) s'.(ProjectionFoldState.projection).(RunProjection.durable_waits).
Proof.
  intros Hs Hs'. split; [exact (invariant_holds _ s (ex_intro _ _ Hs) (Invariant0:=waits_invariant))|].
  refine (field_history RunProjection.durable_waits (entries_evolve wait_evolves) _ _ _ _ _ Hs Hs').
  intros x event y _ Happ. apply (apply_field_step RunProjection.durable_waits wait_event _ _ _ _ Happ).
  intros q _ Ht _ Ha. by destruct (run_waits_step _ _ _ _ _ _ _ Ht Ha).
Qed.
End with_externals.

Definition action_failed (a : LifecycleActionProjection) : bool := a.(LifecycleActionProjection.status) == LifecycleActionStatus.Failed.
Definition action_running (a : LifecycleActionProjection) : bool := a.(LifecycleActionProjection.status) == LifecycleActionStatus.Started.

(** The number of failed actions. *)
Definition failed_count (actions : gmap string LifecycleActionProjection) : nat :=
  size (filter (λ ka, action_failed ka.2 = true) actions).

Record hook_ok (id : string) (hook : LifecycleHookProjection) : Prop := {
  hook_ok_id : hook.(LifecycleHookProjection.hook_invocation_id) = id;
  hook_ok_failed : hook.(LifecycleHookProjection.failed_actions) = as_u32 (failed_count hook.(LifecycleHookProjection.actions));
  hook_ok_reported : map_Forall (λ action_id a, a.(LifecycleActionProjection.action_id) = action_id
    ∧ (is_Some a.(LifecycleActionProjection.failure) ↔ action_failed a = true)) hook.(LifecycleHookProjection.actions);
  hook_ok_single : ∀ i j a b, hook.(LifecycleHookProjection.actions) !! i = Some a → hook.(LifecycleHookProjection.actions) !! j = Some b →
    action_running a = true → action_running b = true → i = j;
  hook_ok_completed : hook_is_completed hook.(LifecycleHookProjection.status) = true →
    ∀ i a, hook.(LifecycleHookProjection.actions) !! i = Some a → action_running a = false;
}.

Record hook_evolves (h h' : LifecycleHookProjection) : Prop := {
  he_hook : h'.(LifecycleHookProjection.hook_id) = h.(LifecycleHookProjection.hook_id);
  he_event : h'.(LifecycleHookProjection.event) = h.(LifecycleHookProjection.event);
  he_subject : h'.(LifecycleHookProjection.subject) = h.(LifecycleHookProjection.subject);
  he_actions : ∀ i a, h.(LifecycleHookProjection.actions) !! i = Some a → action_running a = false →
    h'.(LifecycleHookProjection.actions) !! i = Some a;
  he_completed : hook_is_completed h.(LifecycleHookProjection.status) = true → h' = h;
}.

#[global] Instance hook_evolves_preorder : PreOrder hook_evolves.
Proof.
  split; [by split|]. intros x y z [] []. split; try congruence; [auto|].
  intros Hs. assert (y = x) as -> by auto. auto.
Qed.

Lemma as_u32_succ n : u32_add (as_u32 n) 1 = as_u32 (S n).
Proof. unfold u32_add, as_u32. rewrite N.Div0.add_mod_idemp_l. f_equal. lia. Qed.

(** Settling the running action [i]. *)
Lemma failed_count_settle actions i a a' :
  actions !! i = Some a → action_running a = true →
  failed_count (<[i := a']> actions) = (if action_failed a' then 1 else 0) + failed_count actions.
Proof.
  intros Hi Hr. assert (action_failed a = false) as Hf.
  { unfold action_running, action_failed in *. by destruct (LifecycleActionProjection.status a). }
  unfold failed_count. destruct (action_failed a') eqn:Hf'.
  - rewrite map_filter_insert_True by done. rewrite map_size_insert_None; [done|].
    apply map_lookup_filter_None. right. intros b Hb. simplify_eq. simpl. congruence.
  - rewrite map_filter_insert_False by (simpl; congruence). rewrite map_filter_delete_not; [done|].
    intros b Hb. simplify_eq. simpl. congruence.
Qed.

Lemma failed_count_start actions i a :
  actions !! i = None → action_failed a = false →
  failed_count (<[i := a]> actions) = failed_count actions.
Proof.
  intros Hi Hf. unfold failed_count.
  rewrite map_filter_insert_False by (simpl; congruence). by rewrite delete_id.
Qed.

Lemma no_started hook : any_started_action hook = false →
  ∀ i a, hook.(LifecycleHookProjection.actions) !! i = Some a → action_running a = false.
Proof. intros Hn i a Ha. exact (proj1 (existsb_values_false _ _) Hn i a Ha). Qed.

(** ** The operations on one hook *)

Lemma start_action_ok id hook data :
  hook_ok id hook → hook_is_completed hook.(LifecycleHookProjection.status) = false →
  hook.(LifecycleHookProjection.actions) !! data.(LifecycleActionIdentityData.action_id) = None →
  any_started_action hook = false →
  hook_ok id (start_action hook data) ∧ hook_evolves hook (start_action hook data).
Proof.
  intros [Hid Hf Hr Hs Hc] Hnc Hn Hidle. pose proof (no_started _ Hidle) as Hns. split; split; cbn; try done.
  - by rewrite failed_count_start.
  - apply map_Forall_insert_2; [|done]. simpl. split; [done|]. split; [by intros []|done].
  - intros i j a b [(<- & <-)|[_ Ha]]%lookup_insert_Some [(<- & <-)|[_ Hb]]%lookup_insert_Some Hra Hrb;
      [done|..]; [by rewrite (Hns _ _ Hb) in Hrb|by rewrite (Hns _ _ Ha) in Hra|by eapply Hs].
  - intros i a Ha _. by rewrite lookup_insert_ne by congruence.
  - by rewrite Hnc.
Qed.

(** Settling the running action, with or without a failure. *)
Lemma settle_action_ok id hook action_id a a' failed :
  hook_ok id hook → hook.(LifecycleHookProjection.actions) !! action_id = Some a → action_running a = true →
  action_running a' = false → a'.(LifecycleActionProjection.action_id) = a.(LifecycleActionProjection.action_id) →
  (is_Some a'.(LifecycleActionProjection.failure) ↔ action_failed a' = true) →
  failed = (if action_failed a' then u32_add hook.(LifecycleHookProjection.failed_actions) 1 else hook.(LifecycleHookProjection.failed_actions)) →
  let hook' := hook <|LifecycleHookProjection.actions ::= <[action_id := a']> |> <|LifecycleHookProjection.failed_actions := failed|> in
  hook_ok id hook' ∧ hook_evolves hook hook'.
Proof.
  intros [Hid Hf Hr Hs Hc] Ha Hrun Hrun' Haid Hfail Hfailed. split; split; cbn; try done.
  - rewrite (failed_count_settle _ _ _ _ Ha Hrun), Hfailed, Hf.
    destruct (action_failed a'); [apply as_u32_succ|done].
  - apply map_Forall_insert_2; [|done]. split; [|done]. rewrite Haid. by apply (Hr _ _ Ha).
  - intros i j b c [(<- & <-)|[_ Hb]]%lookup_insert_Some [(<- & <-)|[_ Hc']]%lookup_insert_Some ? ?;
      try congruence. by eapply Hs.
  - intros Hcomp i b [(<- & <-)|[_ Hb]]%lookup_insert_Some; [done|by eapply Hc].
  - intros i b Hb Hnb. rewrite lookup_insert_ne; [done|]. intros <-. simplify_eq. congruence.
  - intros Hcomp. by rewrite (Hc Hcomp _ _ Ha) in Hrun.
Qed.

Lemma succeed_action_ok id hook action_id a :
  hook_ok id hook → hook.(LifecycleHookProjection.actions) !! action_id = Some a → a.(LifecycleActionProjection.status) = LifecycleActionStatus.Started →
  hook_ok id (succeed_action hook action_id a) ∧ hook_evolves hook (succeed_action hook action_id a).
Proof.
  intros Hok Ha Hs. assert (action_running a = true) as Hr by (unfold action_running; by rewrite Hs).
  apply (settle_action_ok id hook action_id a (a <|LifecycleActionProjection.status := LifecycleActionStatus.Succeeded|>) hook.(LifecycleHookProjection.failed_actions));
    try done.
  cbn. destruct (hook_ok_reported _ _ Hok _ _ Ha) as [_ ->]. unfold action_failed. by rewrite Hs.
Qed.

Lemma fail_action_ok id hook action_id a failure :
  hook_ok id hook → hook.(LifecycleHookProjection.actions) !! action_id = Some a → a.(LifecycleActionProjection.status) = LifecycleActionStatus.Started →
  hook_ok id (fail_action hook action_id a failure)
  ∧ hook_evolves hook (fail_action hook action_id a failure).
Proof.
  intros Hok Ha Hs. assert (action_running a = true) as Hr by (unfold action_running; by rewrite Hs).
  by apply (settle_action_ok id hook action_id a
    (a <|LifecycleActionProjection.status := LifecycleActionStatus.Failed|> <|LifecycleActionProjection.failure := Some failure|>) (u32_add hook.(LifecycleHookProjection.failed_actions) 1)).
Qed.

Lemma complete_hook_ok id hook status :
  hook_ok id hook → hook_is_completed hook.(LifecycleHookProjection.status) = false → any_started_action hook = false →
  hook_ok id (hook <|LifecycleHookProjection.status := status|>) ∧ hook_evolves hook (hook <|LifecycleHookProjection.status := status|>).
Proof.
  intros [Hid Hf Hr Hs Hc] Hnc Hidle. split; split; cbn; try done.
  - intros _. by apply no_started.
  - by rewrite Hnc.
Qed.

(** No two hooks are the same hook for the same subject. *)
Definition subjects_unique (hooks : gmap string LifecycleHookProjection) : Prop :=
  ∀ i j h k, hooks !! i = Some h → hooks !! j = Some k →
    h.(LifecycleHookProjection.hook_id) = k.(LifecycleHookProjection.hook_id) → h.(LifecycleHookProjection.subject) = k.(LifecycleHookProjection.subject) → i = j.

Record hooks_ok (hooks : gmap string LifecycleHookProjection) : Prop := {
  hooks_ok_each : map_Forall hook_ok hooks;
  hooks_ok_subjects : subjects_unique hooks;
}.

Lemma change_hook_ok hooks id hook hook' :
  hooks !! id = Some hook → hook_ok id hook' → hook_evolves hook hook' →
  entries_evolve hook_evolves hooks (<[id := hook']> hooks)
  ∧ (hooks_ok hooks → hooks_ok (<[id := hook']> hooks)).
Proof.
  intros Hh Hok Hev. split; [by eapply (entries_evolve_change _)|]. intros [Hall Hu].
  split; [by apply map_Forall_insert_2|]. destruct Hev as [Hid _ Hsub _ _].
  intros i j h k [(<- & <-)|[_ Hi]]%lookup_insert_Some [(<- & <-)|[_ Hj]]%lookup_insert_Some ? ?;
    [done|..].
  - apply (Hu id j hook k); congruence.
  - apply (Hu i id h hook); congruence.
  - by apply (Hu i j h k).
Qed.

Section with_externals.
Context `{Externals}.

Lemma run_hooks_step p event index indexes previous p' indexes' :
  touches_hooks event.(RunEvent.payload) = true → hooks_ok p.(RunProjection.lifecycle_hooks) →
  apply_payload p event index indexes previous = Ok (p', indexes') →
  entries_evolve hook_evolves p.(RunProjection.lifecycle_hooks) p'.(RunProjection.lifecycle_hooks)
  ∧ hooks_ok p'.(RunProjection.lifecycle_hooks).
Proof.
  intros Ht Hok Ha. unfold apply_payload in Ha. pose proof (hooks_ok_each _ Hok) as Hall.
  destruct (RunEvent.payload event) as [] eqn:Hp; try discriminate Ht; cbn beta iota zeta in Ha;
    invert_handler Ha; simplify_guards; simplify_eq; cbn.
  - match goal with Hn : contains_key _ _ = false, He : existsb _ _ = false |- _ =>
      apply contains_key_false in Hn; pose proof (proj1 (existsb_values_false _ _) He) as Hnew end.
    split; [by apply (entries_evolve_new _)|]. destruct Hok as [_ Hu]. split.
    + apply map_Forall_insert_2; [|done]. by split.
    + assert (∀ j k, p.(RunProjection.lifecycle_hooks) !! j = Some k →
        ¬ (k.(LifecycleHookProjection.hook_id) = data.(LifecycleHookRequestedData.hook_id)
           ∧ k.(LifecycleHookProjection.subject) = data.(LifecycleHookRequestedData.subject))) as Hno.
      { intros j k Hk [Hh Hs]. specialize (Hnew j k Hk). simpl in Hnew. rewrite Hh, Hs in Hnew.
        by rewrite !bool_decide_eq_true_2 in Hnew. }
      intros i j h k [(<- & <-)|[_ Hi]]%lookup_insert_Some [(<- & <-)|[_ Hj]]%lookup_insert_Some Hh Hs;
        [done|by destruct (Hno _ _ Hj)|by destruct (Hno _ _ Hi)|by eapply Hu].
  - match goal with Hh : _ !! _ = Some ?h |- _ =>
      destruct (start_action_ok _ h data (Hall _ _ Hh)) as [Hhok Hev]; try done;
        [by apply contains_key_false|]; by destruct (change_hook_ok _ _ _ _ Hh Hhok Hev); auto end.
  - match goal with Hh : RunProjection.lifecycle_hooks _ !! _ = Some ?h, Ha : LifecycleHookProjection.actions ?h !! _ = Some _ |- _ =>
      destruct (succeed_action_ok _ _ _ _ (Hall _ _ Hh) Ha) as [Hhok Hev]; [done|];
      by destruct (change_hook_ok _ _ _ _ Hh Hhok Hev); auto end.
  - match goal with Hh : RunProjection.lifecycle_hooks _ !! _ = Some ?h, Ha : LifecycleHookProjection.actions ?h !! _ = Some _ |- _ =>
      destruct (fail_action_ok _ _ _ _ data.(LifecycleActionFailedData.failure) (Hall _ _ Hh) Ha) as [Hhok Hev];
      [done|]; by destruct (change_hook_ok _ _ _ _ Hh Hhok Hev); auto end.
  - match goal with Hh : RunProjection.lifecycle_hooks _ !! _ = Some ?h |- _ =>
      destruct (complete_hook_ok _ h (hook_completion_status data.(LifecycleHookCompletedData.status))
        (Hall _ _ Hh)) as [Hhok Hev]; [done..|];
      by destruct (change_hook_ok _ _ _ _ Hh Hhok Hev); auto end.
Qed.

#[global] Instance hooks_invariant : Invariant (λ s, hooks_ok s.(ProjectionFoldState.projection).(RunProjection.lifecycle_hooks)).
Proof.
  apply (field_invariant RunProjection.lifecycle_hooks touches_hooks hooks_ok).
  - split; [apply map_Forall_empty|by intros ? ? ? ? ?].
  - intros s event p' indexes' _ Hok _ Ht _ Ha. by eapply run_hooks_step.
Qed.

(** ** Theorems *)

(** Lifecycle hooks are kept in order: at most one hook per hook identifier and subject; in
    each at most one action runs at a time, the counter of failed actions is their number, a
    failure is on record exactly for the failed ones, and a completed hook has no running action.
    However the history goes on, a settled action and a completed hook stay as they are. *)
Theorem hooks_in_order events more s s' :
  from_events events = Ok s → from_events (events ++ more) = Ok s' →
  hooks_ok s.(ProjectionFoldState.projection).(RunProjection.lifecycle_hooks)
  ∧ entries_evolve hook_evolves s.(ProjectionFoldState.projection).(RunProjection.lifecycle_hooks)
      s'.(ProjectionFoldState.projection).(RunProjection.lifecycle_hooks).
Proof.
  intros Hs Hs'. split; [exact (invariant_holds _ s (ex_intro _ _ Hs) (Invariant0:=hooks_invariant))|].
  refine (field_history RunProjection.lifecycle_hooks (entries_evolve hook_evolves) _ _ _ _ _ Hs Hs').
  intros x event y Hr Happ. apply (apply_field_step RunProjection.lifecycle_hooks touches_hooks _ _ _ _ Happ).
  intros q _ Ht _ Ha. eapply run_hooks_step; [done| |done].
  exact (invariant_holds _ x Hr (Invariant0:=hooks_invariant)).
Qed.
End with_externals.
