(* ===== verification/ProjectionCache.v ===== *)
(** * The projection cache

    durable/events/cache.rs: a bounded cache of fold states, one per active run.
    The cache is transparent: what it returns is the fold of the stored
    history, whatever writes, failed transactions, foreign writers and
    evictions came before. *)

From S2P Require Import Prelude Strings Json EventTypes ProjectionTypes Guards FoldRun.
From S2P Require Import FoldControlFlow FoldCorrection FoldApprovals FoldOperations FoldLifecycle.
From S2P Require Import IterationFold EventIdentities EventValidation Fold FoldFrames.
From S2P Require Import ValidationProperties HistoryProperties.

Abbreviation Cache := (gmap string ProjectionFoldState).

(** [MAX_ACTIVE_PROJECTION_CACHE_ENTRIES]. *)
Definition MAX_ACTIVE_PROJECTION_CACHE_ENTRIES : nat := 256.

Section with_externals.
Context `{Externals}.

(** The two freshness tests of a cached state. *)
Definition is_fresh (cached : ProjectionFoldState) (events : list RunEvent) : bool :=
  (cached.(ProjectionFoldState.projection).(RunProjection.last_sequence) == N.of_nat (length events))
  && (last_event_id cached == RunEvent.event_id <$> last events).

(** [projection_state_for_events]: the entry leaves the cache; a fresh one is the
    result, otherwise the history is folded anew. *)
Definition projection_state_for_events (cache : Cache) (run_id : string) (events : list RunEvent) :
    Cache * fold_result ProjectionFoldState :=
  let cached := cache !! run_id in
  let cache := delete run_id cache in
  match cached with
  | Some cached => if is_fresh cached events then (cache, Ok cached) else (cache, from_events events)
  | None => (cache, from_events events)
  end.

Section eviction.
(** [HashMap::keys().next()]: some key of the map, in no specified order. *)
Context (next_key : Cache → option string).

Definition cache_projection_state (cache : Cache) (run_id : string) (state : ProjectionFoldState) : Cache :=
  if status_is_terminal state.(ProjectionFoldState.projection).(RunProjection.status) then delete run_id cache
  else
    let cache :=
      if negb (contains_key cache run_id) && (MAX_ACTIVE_PROJECTION_CACHE_ENTRIES <=? size cache)
      then match next_key cache with Some evicted => delete evicted cache | None => cache end
      else cache in
    <[run_id := state]> cache.

(** ** The store around the cache *)

(** The committed history of each run and the cache of one open store. *)
Record world := World { histories : gmap string (list RunEvent); cache : Cache }.

Definition history (w : world) (run_id : string) : list RunEvent := default [] (histories w !! run_id).

(** A transaction reads the fold state of a run, extends it by the events it writes and publishes
    the new state only when it commits; when it is rolled back the entry is gone.  A read that
    misses fills the cache.  Another connection may extend a history behind the cache; an entry
    may be dropped; a store may be reopened. *)
Inductive world_step (w : world) : world → Prop :=
| step_commit run_id new s s' :
    (projection_state_for_events (cache w) run_id (history w run_id)).2 = Ok s →
    apply_all s new = Ok s' →
    world_step w (World (<[run_id := history w run_id ++ new]> (histories w))
      (cache_projection_state
         (projection_state_for_events (cache w) run_id (history w run_id)).1 run_id s'))
| step_rollback run_id :
    world_step w (World (histories w)
      (projection_state_for_events (cache w) run_id (history w run_id)).1)
| step_fill run_id s :
    from_events (history w run_id) = Ok s →
    world_step w (World (histories w) (cache_projection_state (cache w) run_id s))
| step_foreign run_id new s :
    from_events (history w run_id ++ new) = Ok s →
    world_step w (World (<[run_id := history w run_id ++ new]> (histories w)) (cache w))
| step_remove run_id : world_step w (World (histories w) (delete run_id (cache w)))
| step_reopen : world_step w (World (histories w) ∅).

Inductive world_reachable : world → Prop :=
| world_initial : world_reachable (World ∅ ∅)
| world_next w w' : world_reachable w → world_step w w' → world_reachable w'.

(** ** The invariant *)

(** Every cached state folds a prefix of the committed history of its run. *)
Definition cache_coherent (w : world) : Prop :=
  ∀ run_id s, cache w !! run_id = Some s →
    status_is_terminal s.(ProjectionFoldState.projection).(RunProjection.status) = false
    ∧ ∃ rest events, history w run_id = events ++ rest ∧ from_events events = Ok s.

Lemma history_insert w run_id run_id' h c :
  history (World (<[run_id := h]> (histories w)) c) run_id' =
    if decide (run_id = run_id') then h else history w run_id'.
Proof.
  unfold history. simpl. case_decide as Hd; [subst; by rewrite lookup_insert_eq|].
  by rewrite lookup_insert_ne.
Qed.

(** A fresh entry is the fold of the history. *)
Lemma fresh_folds w run_id s :
  cache_coherent w → cache w !! run_id = Some s → is_fresh s (history w run_id) = true →
  from_events (history w run_id) = Ok s.
Proof.
  intros Hc Hs [Hlen _]%andb_true_iff. destruct (Hc _ _ Hs) as (_ & rest & events & He & Hf).
  rewrite He in *. apply bool_decide_eq_true in Hlen. destruct (from_events_records _ _ Hf) as [[Hn _ _ _ _] _].
  rewrite Hn, length_app in Hlen. destruct rest as [|e rest]; [by rewrite app_nil_r|].
  simpl in Hlen. lia.
Qed.

Lemma lookup_folds w run_id :
  cache_coherent w →
  (projection_state_for_events (cache w) run_id (history w run_id)).2 = from_events (history w run_id).
Proof.
  intros Hc. unfold projection_state_for_events.
  destruct (cache w !! run_id) as [s|] eqn:Hs; [|done].
  destruct (is_fresh s _) eqn:Hf; [|done]. simpl. symmetry. by apply fresh_folds.
Qed.

Lemma lookup_cache c run_id events : (projection_state_for_events c run_id events).1 = delete run_id c.
Proof. unfold projection_state_for_events. by repeat case_match. Qed.

(** What [cache_projection_state] leaves in the cache. *)
Lemma cache_entries c run_id s run_id' s' :
  cache_projection_state c run_id s !! run_id' = Some s' →
  (run_id' = run_id ∧ s' = s ∧ status_is_terminal s.(ProjectionFoldState.projection).(RunProjection.status) = false)
  ∨ c !! run_id' = Some s'.
Proof.
  unfold cache_projection_state. destruct (status_is_terminal _) eqn:Ht.
  { intros [_ ?]%lookup_delete_Some. by right. }
  intros [(<- & <-)|[Hne Hl]]%lookup_insert_Some; [by left|]. right.
  repeat case_match; try done. by apply lookup_delete_Some in Hl as [_ ?].
Qed.

Lemma world_step_coherent w w' : world_step w w' → cache_coherent w → cache_coherent w'.
Proof.
  intros Hstep Hc. destruct Hstep as [run_id new s s' Hs Hnew|run_id|run_id s Hs|run_id new s Hs|run_id|].
  - rewrite lookup_folds in Hs by done. rewrite lookup_cache. intros run_id' s0 Hl.
    rewrite history_insert. simpl in Hl. apply cache_entries in Hl as [(-> & -> & Ht)|Hl].
    + split; [done|]. rewrite decide_True by done. exists [], (history w run_id ++ new).
      rewrite app_nil_r. split; [done|]. unfold from_events in *. by rewrite apply_all_app, Hs.
    + apply lookup_delete_Some in Hl as [Hne Hl]. rewrite decide_False by done. by apply Hc.
  - rewrite lookup_cache. intros run_id' s0 Hl. simpl in Hl.
    apply lookup_delete_Some in Hl as [_ Hl]. by apply Hc.
  - intros run_id' s0 Hl. simpl in Hl. apply cache_entries in Hl as [(-> & -> & Ht)|Hl]; [|by apply Hc].
    split; [done|]. exists [], (history w run_id). by rewrite app_nil_r.
  - intros run_id' s0 Hl. rewrite history_insert. simpl in Hl. destruct (Hc _ _ Hl) as (Ht & rest & events & He & Hf).
    split; [done|]. case_decide as Hd; [subst|by exists rest, events].
    exists (rest ++ new), events. by rewrite He, (assoc_L (++)).
  - intros run_id' s0 Hl. simpl in Hl. apply lookup_delete_Some in Hl as [_ Hl]. by apply Hc.
  - intros run_id' s0 Hl. done.
Qed.

Lemma reachable_coherent w : world_reachable w → cache_coherent w.
Proof. induction 1 as [|w w' _ IH Hstep]; [by intros ???|by eapply world_step_coherent]. Qed.

(** ** The bound *)

Lemma size_delete_le (c : Cache) run_id : size (delete run_id c) ≤ size c.
Proof. rewrite map_size_delete. destruct (c !! run_id); unfold id; lia. Qed.

Lemma size_insert_le (c : Cache) run_id s : size (<[run_id := s]> c) ≤ S (size c).
Proof. rewrite map_size_insert. destruct (c !! run_id); unfold id; lia. Qed.

Lemma cache_size c run_id s :
  (∀ c, c ≠ ∅ → ∃ k, next_key c = Some k ∧ is_Some (c !! k)) →
  size c ≤ MAX_ACTIVE_PROJECTION_CACHE_ENTRIES →
  size (cache_projection_state c run_id s) ≤ MAX_ACTIVE_PROJECTION_CACHE_ENTRIES.
Proof.
  intros Hkey Hc. unfold cache_projection_state. destruct (status_is_terminal _).
  { etrans; [apply size_delete_le|done]. }
  unfold contains_key. destruct (c !! run_id) as [s'|] eqn:Hs; cbn [is_some negb andb].
  { rewrite map_size_insert_Some by eauto. done. }
  destruct (Nat.leb_spec MAX_ACTIVE_PROJECTION_CACHE_ENTRIES (size c)) as [Hfull|Hroom].
  - destruct (Hkey c) as (k & -> & Hk).
    { intros ->. by apply (Nat.nle_succ_0 255). }
    etrans; [apply size_insert_le|]. rewrite map_size_delete_Some by done.
    unfold MAX_ACTIVE_PROJECTION_CACHE_ENTRIES in *. lia.
  - etrans; [apply size_insert_le|lia].
Qed.

(** ** Theorems *)

(** The cache is transparent: in every state of the store that any sequence of commits,
    rollbacks, reads, foreign writes, removals, evictions and reopenings leads to, looking up the
    fold state of a run returns exactly what folding its committed history returns, an error
    included.  In particular a rolled-back transaction leaves no speculative state behind. *)
Theorem cache_transparent w run_id :
  world_reachable w →
  (projection_state_for_events (cache w) run_id (history w run_id)).2 = from_events (history w run_id).
Proof. intros Hw. by apply lookup_folds, reachable_coherent. Qed.

(** The cache is bounded: it never holds more than 256 entries, and none of a run that has
    ended.  The hypothesis is the documented behaviour of [HashMap::keys]: the first key it
    yields is a key of the map, and it yields one when the map is not empty. *)
Theorem cache_bounded w :
  (∀ c, c ≠ ∅ → ∃ k, next_key c = Some k ∧ is_Some (c !! k)) →
  world_reachable w →
  size (cache w) ≤ MAX_ACTIVE_PROJECTION_CACHE_ENTRIES
  ∧ ∀ run_id s, cache w !! run_id = Some s → status_is_terminal s.(ProjectionFoldState.projection).(RunProjection.status) = false.
Proof.
  intros Hkey Hw. split; [|intros run_id s Hs; by apply (reachable_coherent _ Hw run_id s Hs)].
  induction Hw as [|w w' _ IH Hstep]; [by apply Nat.le_0_l|].
  destruct Hstep; cbn [cache]; rewrite ?lookup_cache;
    repeat first [done | apply cache_size | etrans; [apply size_delete_le|] ].
  by apply Nat.le_0_l.
Qed.
End eviction.
End with_externals.
