(* ===== verification/ModelTypes.v ===== *)
(** * The compiled workflow model

    The contract between the compiler and the engine: model/contracts.rs,
    model/control_flow.rs, model/expressions.rs, model/policies.rs,
    model/lifecycle.rs and model/reusable.rs, one record or inductive type per
    Rust type, with the source's names. *)

From S2P Require Import Prelude Json EventTypes.

(** [TemplatePart], model/expressions.rs. *)
Module TemplatePart.
Inductive TemplatePart :=
| Text (text : string)
| ContextReference (path : list string)
| LifecycleReference (path : list string).
End TemplatePart.
Abbreviation TemplatePart := TemplatePart.TemplatePart.

(** [ValueExpression], model/expressions.rs. *)
Module ValueExpression.
Inductive ValueExpression :=
| Literal (value : Value)
| ContextReference (path : list string)
| LifecycleReference (path : list string)
| SecretReference (name : string)
| Object (fields : gmap string ValueExpression)
| Array (items : list ValueExpression)
| Template (parts : list TemplatePart).
End ValueExpression.
Abbreviation ValueExpression := ValueExpression.ValueExpression.

(** [EdgeCondition], model/expressions.rs. *)
Module EdgeCondition.
Inductive EdgeCondition :=
| Always
| Boolean (value : ValueExpression)
| Truthy (value : ValueExpression)
| Equals (left : ValueExpression) (right : ValueExpression).
End EdgeCondition.
Abbreviation EdgeCondition := EdgeCondition.EdgeCondition.

(** [RateLimitAlgorithm], model/policies.rs. *)
Module RateLimitAlgorithm.
Inductive RateLimitAlgorithm :=
| RollingWindow.
#[global] Instance RateLimitAlgorithm_eq_dec : EqDecision RateLimitAlgorithm.
Proof. solve_decision. Defined.
End RateLimitAlgorithm.
Abbreviation RateLimitAlgorithm := RateLimitAlgorithm.RateLimitAlgorithm.

(** [CompiledRateLimitPolicy], model/policies.rs. *)
Module CompiledRateLimitPolicy.
Record CompiledRateLimitPolicy := mk {
  count : N;
  window_ms : N;
  algorithm : RateLimitAlgorithm
}.
#[global] Instance CompiledRateLimitPolicy_eq_dec : EqDecision CompiledRateLimitPolicy.
Proof. solve_decision. Defined.
End CompiledRateLimitPolicy.
Abbreviation CompiledRateLimitPolicy := CompiledRateLimitPolicy.CompiledRateLimitPolicy.

(** [CompiledQueuePolicy], model/policies.rs. *)
Module CompiledQueuePolicy.
Record CompiledQueuePolicy := mk {
  name : string;
  discipline : QueueDiscipline
}.
#[global] Instance CompiledQueuePolicy_eq_dec : EqDecision CompiledQueuePolicy.
Proof. solve_decision. Defined.
End CompiledQueuePolicy.
Abbreviation CompiledQueuePolicy := CompiledQueuePolicy.CompiledQueuePolicy.

(** [CompiledRuntimePolicy], model/policies.rs. *)
Module CompiledRuntimePolicy.
Record CompiledRuntimePolicy := mk {
  profile_version : N;
  concurrency : option N;
  timeout_ms : option N;
  rate_limit : option CompiledRateLimitPolicy;
  queue : option CompiledQueuePolicy
}.
#[global] Instance CompiledRuntimePolicy_eq_dec : EqDecision CompiledRuntimePolicy.
Proof. solve_decision. Defined.
End CompiledRuntimePolicy.
Abbreviation CompiledRuntimePolicy := CompiledRuntimePolicy.CompiledRuntimePolicy.

(** [BackoffPolicy], model/policies.rs. *)
Module BackoffPolicy.
Inductive BackoffPolicy :=
| None
| Fixed (delay_ms : N)
| Exponential (initial_delay_ms : N) (multiplier : f64) (maximum_delay_ms : option N).
End BackoffPolicy.
Abbreviation BackoffPolicy := BackoffPolicy.BackoffPolicy.

(** [RetryPolicy], model/policies.rs. *)
Module RetryPolicy.
Record RetryPolicy := mk {
  max_attempts : N;
  backoff : BackoffPolicy
}.
End RetryPolicy.
Abbreviation RetryPolicy := RetryPolicy.RetryPolicy.

(** [CompiledCommunicationProviderRequirement], model/contracts.rs. *)
Module CompiledCommunicationProviderRequirement.
Record CompiledCommunicationProviderRequirement := mk {
  provider : string;
  trigger_ids : list string;
  notification_delivery_ids : list string;
  messaging : bool;
  credential_names : list string
}.
#[global] Instance CompiledCommunicationProviderRequirement_eq_dec : EqDecision CompiledCommunicationProviderRequirement.
Proof. solve_decision. Defined.
End CompiledCommunicationProviderRequirement.
Abbreviation CompiledCommunicationProviderRequirement := CompiledCommunicationProviderRequirement.CompiledCommunicationProviderRequirement.

(** [CompiledCommunicationRequirements], model/contracts.rs. *)
Module CompiledCommunicationRequirements.
Record CompiledCommunicationRequirements := mk {
  profile_version : N;
  providers : list CompiledCommunicationProviderRequirement
}.
#[global] Instance CompiledCommunicationRequirements_eq_dec : EqDecision CompiledCommunicationRequirements.
Proof. solve_decision. Defined.
End CompiledCommunicationRequirements.
Abbreviation CompiledCommunicationRequirements := CompiledCommunicationRequirements.CompiledCommunicationRequirements.

(** [CompiledModuleBinding], model/contracts.rs. *)
Module CompiledModuleBinding.
Record CompiledModuleBinding := mk {
  name : string;
  bundle_digest : string;
  source_map_digest : string;
  exports : list string
}.
#[global] Instance CompiledModuleBinding_eq_dec : EqDecision CompiledModuleBinding.
Proof. solve_decision. Defined.
End CompiledModuleBinding.
Abbreviation CompiledModuleBinding := CompiledModuleBinding.CompiledModuleBinding.

(** [CompiledModuleRuntime], model/contracts.rs. *)
Module CompiledModuleRuntime.
Record CompiledModuleRuntime := mk {
  profile_version : N;
  modules : list CompiledModuleBinding
}.
#[global] Instance CompiledModuleRuntime_eq_dec : EqDecision CompiledModuleRuntime.
Proof. solve_decision. Defined.
End CompiledModuleRuntime.
Abbreviation CompiledModuleRuntime := CompiledModuleRuntime.CompiledModuleRuntime.

(** [CompiledWorkflowMetadata], model/contracts.rs. *)
Module CompiledWorkflowMetadata.
Record CompiledWorkflowMetadata := mk {
  name : option string;
  description : option string;
  version : option string;
  labels : option (gmap string string)
}.
#[global] Instance CompiledWorkflowMetadata_eq_dec : EqDecision CompiledWorkflowMetadata.
Proof. solve_decision. Defined.
End CompiledWorkflowMetadata.
Abbreviation CompiledWorkflowMetadata := CompiledWorkflowMetadata.CompiledWorkflowMetadata.

(** [CompiledTrigger], model/contracts.rs. *)
Module CompiledTrigger.
Record CompiledTrigger := mk {
  id : string;
  handler : string;
  config : ValueExpression
}.
End CompiledTrigger.
Abbreviation CompiledTrigger := CompiledTrigger.CompiledTrigger.

(** [CompiledExecutionPlacement], model/contracts.rs. *)
Module CompiledExecutionPlacement.
Record CompiledExecutionPlacement := mk {
  profile_version : N;
  target : string;
  required_capabilities : list string
}.
#[global] Instance CompiledExecutionPlacement_eq_dec : EqDecision CompiledExecutionPlacement.
Proof. solve_decision. Defined.
End CompiledExecutionPlacement.
Abbreviation CompiledExecutionPlacement := CompiledExecutionPlacement.CompiledExecutionPlacement.

(** [ScriptRuntimeBindings], model/contracts.rs. *)
Module ScriptRuntimeBindings.
Record ScriptRuntimeBindings := mk {
  binding_version : N;
  bindings : list string;
  required_secrets : list string
}.
#[global] Instance ScriptRuntimeBindings_eq_dec : EqDecision ScriptRuntimeBindings.
Proof. solve_decision. Defined.
End ScriptRuntimeBindings.
Abbreviation ScriptRuntimeBindings := ScriptRuntimeBindings.ScriptRuntimeBindings.

(** [CompiledWorkflowNode], model/contracts.rs. *)
Module CompiledWorkflowNode.
Record CompiledWorkflowNode := mk {
  id : string;
  handler : string;
  inputs : ValueExpression;
  timeout_ms : option N;
  retry_policy : option RetryPolicy;
  script_runtime : option ScriptRuntimeBindings;
  execution : option CompiledExecutionPlacement;
  metadata : option Map
}.
End CompiledWorkflowNode.
Abbreviation CompiledWorkflowNode := CompiledWorkflowNode.CompiledWorkflowNode.

(** [CompiledWorkflowEdge], model/contracts.rs. *)
Module CompiledWorkflowEdge.
Record CompiledWorkflowEdge := mk {
  id : string;
  from : string;
  to : string;
  condition : EdgeCondition;
  branch_id : option string;
  parallel_id : option string;
  approval_id : option string
}.
End CompiledWorkflowEdge.
Abbreviation CompiledWorkflowEdge := CompiledWorkflowEdge.CompiledWorkflowEdge.

(** [ParallelGroupDefinition], model/contracts.rs. *)
Module ParallelGroupDefinition.
Record ParallelGroupDefinition := mk {
  parallel_id : string;
  start_node_id : string;
  child_node_ids : list string;
  concurrency : N;
  on_error : string
}.
#[global] Instance ParallelGroupDefinition_eq_dec : EqDecision ParallelGroupDefinition.
Proof. solve_decision. Defined.
End ParallelGroupDefinition.
Abbreviation ParallelGroupDefinition := ParallelGroupDefinition.ParallelGroupDefinition.

(** [NotificationDefinition], model/contracts.rs. *)
Module NotificationDefinition.
Record NotificationDefinition := mk {
  delivery_id : string;
  provider : string;
  destination : string;
  credentials : gmap string string;
  provider_id : option string;
  message : option ValueExpression;
  template_name : option string;
  language : option string
}.
End NotificationDefinition.
Abbreviation NotificationDefinition := NotificationDefinition.NotificationDefinition.

(** [ApprovalDefinition], model/contracts.rs. *)
Module ApprovalDefinition.
Record ApprovalDefinition := mk {
  approval_id : string;
  name : option string;
  description : option string;
  timeout_ms : option N;
  on_timeout : string;
  review : option ValueExpression;
  required_approvals : option N;
  required_roles : list string;
  notifications : list NotificationDefinition
}.
End ApprovalDefinition.
Abbreviation ApprovalDefinition := ApprovalDefinition.ApprovalDefinition.

(** [CompiledCorrectionIdentity], model/control_flow.rs. *)
Module CompiledCorrectionIdentity.
Inductive CompiledCorrectionIdentity :=
| Static (action_id : string)
| ForEachIteration (for_each_id : string) (action_id_template : string).
End CompiledCorrectionIdentity.
Abbreviation CompiledCorrectionIdentity := CompiledCorrectionIdentity.CompiledCorrectionIdentity.

(** [CompiledCorrectiveAction], model/control_flow.rs. *)
Module CompiledCorrectiveAction.
Record CompiledCorrectiveAction := mk {
  action_id : string;
  node : CompiledWorkflowNode;
  identity : CompiledCorrectionIdentity;
  visible_step_ids : list string;
  for_step_id : option string
}.
End CompiledCorrectiveAction.
Abbreviation CompiledCorrectiveAction := CompiledCorrectiveAction.CompiledCorrectiveAction.

(** [CompiledSaga], model/control_flow.rs. *)
Module CompiledSaga.
Record CompiledSaga := mk {
  saga_id : string;
  open_node_id : string;
  commit_node_id : string;
  result_node_id : string;
  body_entry_node_id : string;
  body_terminal_node_id : string;
  body_result_node_id : string;
  outer_step_ids : list string;
  compensations : list CompiledCorrectiveAction;
  cleanup : list CompiledCorrectiveAction;
  metadata : option Map
}.
End CompiledSaga.
Abbreviation CompiledSaga := CompiledSaga.CompiledSaga.

(** [CompiledLock], model/control_flow.rs. *)
Module CompiledLock.
Record CompiledLock := mk {
  lock_id : string;
  acquire_node_id : string;
  release_node_id : string;
  result_node_id : string;
  body_entry_node_id : string;
  body_terminal_node_id : string;
  key : ValueExpression;
  acquire_timeout_ms : N;
  lease_ms : N;
  outer_step_ids : list string;
  metadata : option Map
}.
End CompiledLock.
Abbreviation CompiledLock := CompiledLock.CompiledLock.

(** [CompiledWaitSignal], model/control_flow.rs. *)
Module CompiledWaitSignal.
Record CompiledWaitSignal := mk {
  signal : string;
  schema : Value
}.
End CompiledWaitSignal.
Abbreviation CompiledWaitSignal := CompiledWaitSignal.CompiledWaitSignal.

(** [CompiledWait], model/control_flow.rs. *)
Module CompiledWait.
Inductive CompiledWait :=
| Duration (wait_id : string) (node_id : string) (metadata : option Map) (duration_ms : N)
| Until (wait_id : string) (node_id : string) (metadata : option Map) (at_ : ValueExpression)
| Signal (wait_id : string) (node_id : string) (metadata : option Map) (signals : list CompiledWaitSignal) (correlation : ValueExpression) (timeout_ms : option N) (on_timeout : string).
End CompiledWait.
Abbreviation CompiledWait := CompiledWait.CompiledWait.

(** [CompiledForkBranch], model/control_flow.rs. *)
Module CompiledForkBranch.
Record CompiledForkBranch := mk {
  branch_id : string;
  entry_node_id : string;
  terminal_node_id : string
}.
#[global] Instance CompiledForkBranch_eq_dec : EqDecision CompiledForkBranch.
Proof. solve_decision. Defined.
End CompiledForkBranch.
Abbreviation CompiledForkBranch := CompiledForkBranch.CompiledForkBranch.

(** [CompiledFork], model/control_flow.rs. *)
Module CompiledFork.
Record CompiledFork := mk {
  fork_id : string;
  open_node_id : string;
  join_node_id : string;
  branches : list CompiledForkBranch;
  joined_branch_ids : list string
}.
#[global] Instance CompiledFork_eq_dec : EqDecision CompiledFork.
Proof. solve_decision. Defined.
End CompiledFork.
Abbreviation CompiledFork := CompiledFork.CompiledFork.

(** [CompiledStringChoiceCase], model/control_flow.rs. *)
Module CompiledStringChoiceCase.
Record CompiledStringChoiceCase := mk {
  arm_id : string;
  value : string
}.
#[global] Instance CompiledStringChoiceCase_eq_dec : EqDecision CompiledStringChoiceCase.
Proof. solve_decision. Defined.
End CompiledStringChoiceCase.
Abbreviation CompiledStringChoiceCase := CompiledStringChoiceCase.CompiledStringChoiceCase.

(** [CompiledControlChoice], model/control_flow.rs. *)
Module CompiledControlChoice.
Record CompiledControlChoice := mk {
  choice_id : string;
  selector_node_id : string;
  join_node_id : string;
  arm_ids : list string;
  string_selector : option ValueExpression;
  string_cases : option (list CompiledStringChoiceCase);
  default_arm_id : option string;
  result_node_id : option string
}.
End CompiledControlChoice.
Abbreviation CompiledControlChoice := CompiledControlChoice.CompiledControlChoice.

(** [CompiledContextVisibility], model/control_flow.rs. *)
Module CompiledContextVisibility.
Record CompiledContextVisibility := mk {
  node_id : string;
  step_ids : list string
}.
#[global] Instance CompiledContextVisibility_eq_dec : EqDecision CompiledContextVisibility.
Proof. solve_decision. Defined.
End CompiledContextVisibility.
Abbreviation CompiledContextVisibility := CompiledContextVisibility.CompiledContextVisibility.

(** [CompiledForEachBody], model/control_flow.rs. *)
Module CompiledForEachBody.
Record CompiledForEachBody := mk {
  entry_node_ids : list string;
  nodes : list CompiledWorkflowNode;
  edges : list CompiledWorkflowEdge;
  choices : list CompiledControlChoice;
  context_visibility : list CompiledContextVisibility;
  terminal_node_id : string
}.
End CompiledForEachBody.
Abbreviation CompiledForEachBody := CompiledForEachBody.CompiledForEachBody.

(** [CompiledForEach], model/control_flow.rs. *)
Module CompiledForEach.
Record CompiledForEach := mk {
  for_each_id : string;
  open_node_id : string;
  result_node_id : string;
  metadata : option Map;
  items : ValueExpression;
  concurrency : N;
  outer_step_ids : list string;
  body : CompiledForEachBody;
  result : option ValueExpression
}.
End CompiledForEach.
Abbreviation CompiledForEach := CompiledForEach.CompiledForEach.

(** [CompiledWorkflowSettlement], model/control_flow.rs. *)
Module CompiledWorkflowSettlement.
Record CompiledWorkflowSettlement := mk {
  node_id : string;
  main_result_node_id : string;
  owned_branch_terminal_node_ids : list string
}.
#[global] Instance CompiledWorkflowSettlement_eq_dec : EqDecision CompiledWorkflowSettlement.
Proof. solve_decision. Defined.
End CompiledWorkflowSettlement.
Abbreviation CompiledWorkflowSettlement := CompiledWorkflowSettlement.CompiledWorkflowSettlement.

(** [CompiledWorkflowGraph], model/contracts.rs. *)
Module CompiledWorkflowGraph.
Record CompiledWorkflowGraph := mk {
  entry_node_ids : list string;
  nodes : list CompiledWorkflowNode;
  edges : list CompiledWorkflowEdge;
  forks : option (list CompiledFork);
  choices : option (list CompiledControlChoice);
  context_visibility : option (list CompiledContextVisibility);
  settlement : option CompiledWorkflowSettlement;
  for_each : option (list CompiledForEach);
  waits : option (list CompiledWait);
  locks : option (list CompiledLock);
  sagas : option (list CompiledSaga)
}.
End CompiledWorkflowGraph.
Abbreviation CompiledWorkflowGraph := CompiledWorkflowGraph.CompiledWorkflowGraph.

(** [CompiledLifecycleAction], model/lifecycle.rs. *)
Module CompiledLifecycleAction.
Record CompiledLifecycleAction := mk {
  action_id : string;
  handler : string;
  inputs : ValueExpression;
  script_runtime : option ScriptRuntimeBindings
}.
End CompiledLifecycleAction.
Abbreviation CompiledLifecycleAction := CompiledLifecycleAction.CompiledLifecycleAction.

(** [CompiledLifecycleHook], model/lifecycle.rs. *)
Module CompiledLifecycleHook.
Record CompiledLifecycleHook := mk {
  hook_id : string;
  event : LifecycleEventName;
  step_ids : option (list string);
  actions : list CompiledLifecycleAction
}.
End CompiledLifecycleHook.
Abbreviation CompiledLifecycleHook := CompiledLifecycleHook.CompiledLifecycleHook.

(** [CompiledLifecycleDefinition], model/lifecycle.rs. *)
Module CompiledLifecycleDefinition.
Record CompiledLifecycleDefinition := mk {
  profile_version : N;
  hooks : list CompiledLifecycleHook
}.
End CompiledLifecycleDefinition.
Abbreviation CompiledLifecycleDefinition := CompiledLifecycleDefinition.CompiledLifecycleDefinition.

(** [CompiledReusablePropExpression], model/reusable.rs. *)
Module CompiledReusablePropExpression.
Inductive CompiledReusablePropExpression :=
| Literal (value : string)
| Context (path : string)
| Secret (name : string).
#[global] Instance CompiledReusablePropExpression_eq_dec : EqDecision CompiledReusablePropExpression.
Proof. solve_decision. Defined.
End CompiledReusablePropExpression.
Abbreviation CompiledReusablePropExpression := CompiledReusablePropExpression.CompiledReusablePropExpression.

(** [CompiledReusableBoundProp], model/reusable.rs. *)
Module CompiledReusableBoundProp.
Record CompiledReusableBoundProp := mk {
  name : string;
  binding_name : string;
  secret : bool;
  expression : CompiledReusablePropExpression
}.
#[global] Instance CompiledReusableBoundProp_eq_dec : EqDecision CompiledReusableBoundProp.
Proof. solve_decision. Defined.
End CompiledReusableBoundProp.
Abbreviation CompiledReusableBoundProp := CompiledReusableBoundProp.CompiledReusableBoundProp.

(** [CompiledReusableLifecycle], model/reusable.rs. *)
Module CompiledReusableLifecycle.
Record CompiledReusableLifecycle := mk {
  on_success : option (list string);
  on_error : option (list string);
  on_complete : option (list string)
}.
#[global] Instance CompiledReusableLifecycle_eq_dec : EqDecision CompiledReusableLifecycle.
Proof. solve_decision. Defined.
End CompiledReusableLifecycle.
Abbreviation CompiledReusableLifecycle := CompiledReusableLifecycle.CompiledReusableLifecycle.

(** [CompiledReusableInvocation], model/reusable.rs. *)
Module CompiledReusableInvocation.
Inductive CompiledReusableInvocation :=
| Step (invocation_id : string) (node_id : string) (alias : string) (definition_digest : string) (source : string) (script_artifact_id : string) (props : list CompiledReusableBoundProp) (lifecycle : option CompiledReusableLifecycle)
| NotificationProvider (provider_id : string) (alias : string) (definition_digest : string) (source : string) (script_artifact_id : string) (props : list CompiledReusableBoundProp) (lifecycle : option CompiledReusableLifecycle).
#[global] Instance CompiledReusableInvocation_eq_dec : EqDecision CompiledReusableInvocation.
Proof. solve_decision. Defined.
End CompiledReusableInvocation.
Abbreviation CompiledReusableInvocation := CompiledReusableInvocation.CompiledReusableInvocation.

(** [CompiledWorkflowDefinition], model/contracts.rs. *)
Module CompiledWorkflowDefinition.
Record CompiledWorkflowDefinition := mk {
  schema_version : N;
  workflow_id : string;
  metadata : option CompiledWorkflowMetadata;
  triggers : list CompiledTrigger;
  graph : CompiledWorkflowGraph;
  module_runtime : option CompiledModuleRuntime;
  lifecycle : option CompiledLifecycleDefinition;
  runtime_policy : option CompiledRuntimePolicy;
  reusable_definitions : option (list CompiledReusableInvocation);
  communication : option CompiledCommunicationRequirements
}.
End CompiledWorkflowDefinition.
Abbreviation CompiledWorkflowDefinition := CompiledWorkflowDefinition.CompiledWorkflowDefinition.
