(* ===== verification/EngineExternals.v ===== *)
(** * Third-party code and f64 arithmetic of the definition-aware engine

    The engine and the compiled model call chrono, serde_json, the JSON
    canonicalizer and [f64::powi], whose precision Rust leaves open.  As in
    Guards.v they are parameters; the one law is the documented meaning of
    chrono's addition where it does not overflow.

    model/policies.rs computes an exponential backoff in f64.  A finite number is
    a mantissa and an exponent ([spec_float] of the Standard Library); products
    round as IEEE-754 binary64 does; comparison and truncation are those of the
    values. *)

From Stdlib Require Export SpecFloat.
From S2P Require Import Prelude Json EventTypes ModelTypes.

(** The number of a bit pattern. *)
Definition f64_of_bits (x : f64) : spec_float :=
  let sign := N.testbit x 63 in
  if (f64_exponent x =? 2047)%N then
    if (f64_mantissa x =? 0)%N then S754_infinity sign else S754_nan
  else if (f64_exponent x =? 0)%N then
    match f64_mantissa x with
    | N0 => S754_zero sign
    | Npos m => S754_finite sign m (-1074)
    end
  else
    match (f64_mantissa x + 4503599627370496)%N with
    | N0 => S754_zero sign
    | Npos m => S754_finite sign m (Z.of_N (f64_exponent x) - 1075)
    end.

(** [n as f64]: exact below 2^53, rounded to the nearest above. *)
Definition u64_as_f64 (n : N) : spec_float :=
  match n with
  | N0 => S754_zero false
  | Npos m =>
      if (n <=? 9007199254740992)%N then S754_finite false m 0
      else binary_normalize 53 1024 (Zpos m) 0 false
  end.

(** [x * y]. *)
Definition f64_mul (x y : spec_float) : spec_float := SFmul 53 1024 x y.

Definition is_finite (x : spec_float) : bool :=
  match x with S754_zero _ | S754_finite _ _ _ => true | _ => false end.
Definition is_nan (x : spec_float) : bool :=
  match x with S754_nan => true | _ => false end.

(** The value of a finite number is [signed x * 2 ^ exponent x]. *)
Definition signed (x : spec_float) : Z :=
  match x with
  | S754_finite s m _ => if s then Zneg m else Zpos m
  | _ => 0
  end.
Definition exponent (x : spec_float) : Z :=
  match x with S754_finite _ _ e => e | _ => 0 end.

(** The mantissa of [x] at an exponent not above its own. *)
Definition scaled (x : spec_float) (e : Z) : Z := signed x * 2 ^ (exponent x - e).

(** [x < y]. *)
Definition f64_lt (x y : spec_float) : bool :=
  match x, y with
  | S754_nan, _ | _, S754_nan => false
  | S754_infinity s, S754_infinity t => s && negb t
  | S754_infinity s, _ => s
  | _, S754_infinity t => negb t
  | _, _ =>
      let e := Z.min (exponent x) (exponent y) in
      (scaled x e <? scaled y e)%Z
  end.

(** [f64::min]. *)
Definition f64_min (x y : spec_float) : spec_float :=
  if is_nan x then y else if is_nan y then x else if f64_lt y x then y else x.

(** [x as u64] of a finite number: truncation, saturating at both ends. *)
Definition f64_as_u64 (x : spec_float) : N :=
  let z := if (0 <=? exponent x)%Z then (signed x * 2 ^ exponent x)%Z
           else Z.quot (signed x) (2 ^ (- exponent x)) in
  N.min (Z.to_N z) 18446744073709551615.

(** The truncation of a number that is not above an integer is not above it. *)
Lemma f64_as_u64_le x n :
  is_finite x = true → f64_lt (u64_as_f64 n) x = false → (n ≤ 9007199254740992)%N →
  (f64_as_u64 x ≤ n)%N.
Proof.
  intros Hf Hlt Hn. unfold f64_as_u64.
  assert (is_finite (u64_as_f64 n) = true ∧ exponent (u64_as_f64 n) = 0%Z
          ∧ signed (u64_as_f64 n) = Z.of_N n) as (Hfn & He & Hs).
  { unfold u64_as_f64. destruct n as [|m]; [done|]. by rewrite (proj2 (N.leb_le _ _) Hn). }
  assert (scaled x (Z.min 0 (exponent x)) ≤ scaled (u64_as_f64 n) (Z.min 0 (exponent x)))%Z as Hle.
  { unfold f64_lt in Hlt. destruct (u64_as_f64 n), x; try done; simpl in He; subst;
      cbn [exponent] in *; apply Z.ltb_ge in Hlt; by rewrite ?Z.min_id in *. }
  unfold scaled in Hle. rewrite He, Hs in Hle.
  enough (Z.to_N (if (0 <=? exponent x)%Z then (signed x * 2 ^ exponent x)%Z
                  else Z.quot (signed x) (2 ^ (- exponent x))) ≤ n)%N by lia.
  destruct (Z.leb_spec 0 (exponent x)) as [H0|H0].
  - rewrite Z.min_l, !Z.sub_0_r, Z.pow_0_r in Hle by lia. lia.
  - rewrite Z.min_r, Z.sub_diag, Z.pow_0_r, Z.sub_0_l, Z.mul_1_r in Hle by lia.
    assert (0 < 2 ^ (- exponent x))%Z as Hp by (apply Z.pow_pos_nonneg; lia).
    assert (Z.quot (signed x) (2 ^ (- exponent x)) ≤ Z.of_N n)%Z; [|lia].
    apply Z.quot_le_upper_bound; lia.
Qed.

(** ** Exact products *)

Lemma digits2_pos_le p : (2 ^ (Zpos (digits2_pos p) - 1) ≤ Zpos p)%Z.
Proof.
  induction p as [p IH|p IH|]; simpl digits2_pos; [| |done].
  - rewrite Pos2Z.inj_succ. replace (Z.succ (Zpos (digits2_pos p)) - 1)%Z with (Z.succ (Zpos (digits2_pos p) - 1)) by lia.
    rewrite Z.pow_succ_r by lia. lia.
  - rewrite Pos2Z.inj_succ. replace (Z.succ (Zpos (digits2_pos p)) - 1)%Z with (Z.succ (Zpos (digits2_pos p) - 1)) by lia.
    rewrite Z.pow_succ_r by lia. lia.
Qed.

(** A mantissa below 2^53 is not shifted. *)
Lemma shr_fexp_small m : (Zpos m < 2 ^ 53)%Z → shr_fexp 53 1024 (Zpos m) 0 loc_Exact = (Build_shr_record (Zpos m) false false, 0%Z).
Proof.
  intros Hm. unfold shr_fexp. replace (shr_record_of_loc (Zpos m) loc_Exact) with (Build_shr_record (Zpos m) false false) by done.
  set (n := (fexp 53 1024 (Zdigits2 (Zpos m) + 0) - 0)%Z).
  assert (n ≤ 0)%Z as Hn.
  { unfold n, fexp. simpl Zdigits2. pose proof (digits2_pos_le m) as Hd.
    assert (Zpos (digits2_pos m) ≤ 53)%Z; [|unfold SpecFloat.emin; lia].
    destruct (Z.le_gt_cases (Zpos (digits2_pos m)) 53) as [|Hgt]; [done|].
    assert (2 ^ 53 ≤ 2 ^ (Zpos (digits2_pos m) - 1))%Z by (apply Z.pow_le_mono_r; lia). lia. }
  clearbody n. by destruct n.
Qed.

(** Products of integers below 2^53 are exact. *)
Lemma f64_mul_exact a b :
  (1 ≤ a)%N → (1 ≤ b)%N → (a * b < 9007199254740992)%N → f64_mul (u64_as_f64 a) (u64_as_f64 b) = u64_as_f64 (a * b).
Proof.
  intros Ha Hb Hab. assert (a ≤ 9007199254740992 ∧ b ≤ 9007199254740992)%N as [Ha' Hb'] by nia.
  destruct a as [|p]; [lia|]. destruct b as [|q]; [lia|].
  change (N.pos p * N.pos q)%N with (N.pos (p * q)) in *. unfold u64_as_f64.
  rewrite (proj2 (N.leb_le _ _) Ha'), (proj2 (N.leb_le _ _) Hb'), (proj2 (N.leb_le (Npos (p * q)) 9007199254740992)) by lia.
  unfold f64_mul, SFmul, binary_round_aux. rewrite Z.add_0_l. simpl xorb.
  assert (Zpos (p * q) < 2 ^ 53)%Z as Hpq by lia.
  rewrite (shr_fexp_small _ Hpq). simpl round_nearest_even. rewrite (shr_fexp_small _ Hpq). done.
Qed.

Lemma u64_as_f64_fields n :
  (n ≤ 9007199254740992)%N →
  is_finite (u64_as_f64 n) = true ∧ exponent (u64_as_f64 n) = 0%Z ∧ signed (u64_as_f64 n) = Z.of_N n.
Proof. intros Hn. unfold u64_as_f64. destruct n as [|m]; [done|]. by rewrite (proj2 (N.leb_le _ _) Hn). Qed.

(** Comparison and truncation of exact integers. *)
Lemma f64_lt_exact a b :
  (a ≤ 9007199254740992)%N → (b ≤ 9007199254740992)%N → f64_lt (u64_as_f64 a) (u64_as_f64 b) = (a <? b)%N.
Proof.
  intros Ha Hb. apply u64_as_f64_fields in Ha as (Hfa & Hea & Hsa). apply u64_as_f64_fields in Hb as (Hfb & Heb & Hsb).
  transitivity (Z.of_N a <? Z.of_N b)%Z.
  - rewrite <-Hsa, <-Hsb. unfold f64_lt, scaled. destruct (u64_as_f64 a), (u64_as_f64 b); try done; simpl exponent in *;
      subst; by rewrite ?Z.mul_1_r.
  - apply eq_true_iff_eq. rewrite Z.ltb_lt, N.ltb_lt. lia.
Qed.

Lemma f64_min_exact a b :
  (a ≤ 9007199254740992)%N → (b ≤ 9007199254740992)%N → f64_min (u64_as_f64 a) (u64_as_f64 b) = u64_as_f64 (N.min a b).
Proof.
  intros Ha Hb. unfold f64_min.
  assert (∀ n, (n ≤ 9007199254740992)%N → is_nan (u64_as_f64 n) = false) as Hnan.
  { intros n Hn. apply u64_as_f64_fields in Hn as [Hf _]. by destruct (u64_as_f64 n). }
  rewrite !Hnan, f64_lt_exact by done. destruct (N.ltb_spec b a); f_equal; lia.
Qed.

Lemma f64_as_u64_exact n : (n ≤ 9007199254740992)%N → f64_as_u64 (u64_as_f64 n) = n.
Proof.
  intros Hn. apply u64_as_f64_fields in Hn as Hf. destruct Hf as (_ & He & Hs). unfold f64_as_u64. rewrite He, Hs. simpl. lia.
Qed.

(** The largest u64 is above every exact integer. *)
Lemma f64_lt_max n : (n ≤ 9007199254740992)%N → f64_lt (u64_as_f64 18446744073709551615) (u64_as_f64 n) = false.
Proof.
  intros Hn. apply u64_as_f64_fields in Hn as Hf. destruct Hf as (Hf & He & Hs).
  assert (u64_as_f64 18446744073709551615 = S754_finite false 4503599627370496 12) as -> by (vm_compute; reflexivity).
  unfold f64_lt. destruct (u64_as_f64 n) as [| | |s m e]; try done.
  simpl in He. subst e. simpl in Hs. unfold scaled. simpl. change (12 `min` 0)%Z with 0%Z.
  change (2 ^ (12 - 0))%Z with 4096%Z. change (2 ^ (0 - 0))%Z with 1%Z. apply Z.ltb_ge. destruct s; lia.
Qed.
#[global] Opaque u64_as_f64.

(** Nanoseconds of a millisecond. *)
Definition NANOS_PER_MILLI : Z := 1000000.

Class EngineExternals := {
  (** [time + chrono::Duration::milliseconds(ms)]: [None] when chrono panics, because the sum
      is out of the range of dates. *)
  add_milliseconds : DateTime → Z → option DateTime;
  add_milliseconds_spec : ∀ time ms sum,
    add_milliseconds time ms = Some sum → sum = (time + ms * NANOS_PER_MILLI)%Z;
  (** [serde_json::to_string(text)], [None] for [Err]. *)
  serde_json_string : string → option string;
  (** [serde_json_canonicalizer::to_vec(policy)], [None] for [Err]. *)
  canonical_policy : CompiledRuntimePolicy → option string;
  (** [chrono::DateTime::parse_from_rfc3339(text).is_ok()]. *)
  is_rfc3339 : string → bool;
  (** [f64::powi]. *)
  powi : spec_float → Z → spec_float;
}.

(** [i64::try_from(n).ok()] of an unsigned number. *)
Definition i64_try_from (n : N) : option Z :=
  if (n <=? 9223372036854775807)%N then Some (Z.of_N n) else None.

(** [i32::try_from(n).ok()] of an unsigned number. *)
Definition i32_try_from (n : N) : option Z :=
  if (n <=? 2147483647)%N then Some (Z.of_N n) else None.

(** [time + delay], which panics on overflow. *)
Definition datetime_add `{EngineExternals} {E} (time : DateTime) (ms : Z) : result E DateTime :=
  expect (add_milliseconds time ms) "`DateTime + TimeDelta` overflowed".
