(* ===== verification/ModelQueries.v ===== *)
(** * Queries of the compiled model

    model/queries.rs, the retry delay of model/policies.rs, and the helpers of
    model/trigger_validation.rs, model/lifecycle_validation.rs and
    model/approval_validation.rs that the queries call. *)

From S2P Require Import Prelude GraphSearch Strings Json EventTypes Guards ModelTypes.
From S2P Require Import EngineExternals.

(** ** Schema versions, lib.rs *)
Definition COMPILED_MODEL_SCHEMA_VERSION_V6 : N := 6.
Definition COMPILED_MODEL_SCHEMA_VERSION_V7 : N := 7.
Definition COMPILED_MODEL_SCHEMA_VERSION_V8 : N := 8.
Definition COMPILED_MODEL_SCHEMA_VERSION_V10 : N := 10.
Definition COMPILED_MODEL_SCHEMA_VERSION_V11 : N := 11.
Definition COMPILED_MODEL_SCHEMA_VERSION_V12 : N := 12.
Definition COMPILED_MODEL_SCHEMA_VERSION_V14 : N := 14.
Definition COMPILED_MODEL_SCHEMA_VERSION_V19 : N := 19.
Definition COMPILED_MODEL_SCHEMA_VERSION_V20 : N := 20.
Definition COMPILED_MODEL_SCHEMA_VERSION_V21 : N := 21.

(** [as_deref().unwrap_or_default()] of an optional vector. *)
Definition unwrap_or_default {A} (l : option (list A)) : list A := default [] l.

(** ** Expressions *)

Definition object_fields (expression : ValueExpression) : option (gmap string ValueExpression) :=
  match expression with ValueExpression.Object fields => Some fields | _ => None end.

Definition literal_string (expression : option ValueExpression) : option string :=
  match expression with Some (ValueExpression.Literal value) => as_str value | _ => None end.

(** The closures [|expression| match expression { Literal { value } => value.as_u64(), _ => None }]
    and [... value.as_str() ...]. *)
Definition literal_u64 (expression : ValueExpression) : option N :=
  match expression with ValueExpression.Literal value => as_u64 value | _ => None end.
Definition literal_str (expression : ValueExpression) : option string :=
  match expression with ValueExpression.Literal value => as_str value | _ => None end.

Definition script_source (node : CompiledWorkflowNode) : option string :=
  fields ← object_fields node.(CompiledWorkflowNode.inputs);
  source ← fields !! "source";
  literal_str source.

(** ** Retry delays, model/policies.rs *)

Section delays.
Context `{EngineExternals}.

(** [RetryPolicy::delay_before_attempt]. *)
Definition delay_before_attempt (policy : RetryPolicy) (next_attempt : N) : option N :=
  if (next_attempt <? 2)%N || (policy.(RetryPolicy.max_attempts) <? next_attempt)%N then None
  else
    match policy.(RetryPolicy.backoff) with
    | BackoffPolicy.None => None
    | BackoffPolicy.Fixed delay_ms => Some delay_ms
    | BackoffPolicy.Exponential initial_delay_ms multiplier maximum_delay_ms =>
        exponent ← i32_try_from (next_attempt - 2);
        let calculated := f64_mul (u64_as_f64 initial_delay_ms) (powi (f64_of_bits multiplier) exponent) in
        maximum ← maximum_delay_ms;
        let capped := f64_min calculated (u64_as_f64 maximum) in
        if negb (is_finite capped) || f64_lt capped (u64_as_f64 1)
           || f64_lt (u64_as_f64 18446744073709551615) capped
        then None
        else Some (f64_as_u64 capped)
    end.

(** A delay belongs to a retry within the policy; a fixed backoff is the delay itself, and an
    exponential one never exceeds its maximum (which the model keeps below 2^53). *)
Lemma delay_bounds policy next_attempt delay :
  delay_before_attempt policy next_attempt = Some delay →
  (2 ≤ next_attempt ≤ policy.(RetryPolicy.max_attempts))%N
  ∧ match policy.(RetryPolicy.backoff) with
    | BackoffPolicy.None => False
    | BackoffPolicy.Fixed delay_ms => delay = delay_ms
    | BackoffPolicy.Exponential _ _ maximum =>
        ∀ m, maximum = Some m → (m ≤ 9007199254740992)%N → (delay ≤ m)%N
    end.
Proof.
  unfold delay_before_attempt. destruct (_ || _) eqn:Hr; [done|]. intros Hd.
  simplify_guards. split; [done|].
  destruct (RetryPolicy.backoff policy) as [|d|i m mx]; [done|by simplify_eq|].
  destruct (i32_try_from _) as [ex|]; [|done]. simpl in Hd. intros n -> Hn. simpl in Hd.
  destruct (_ || _ || _) eqn:Hc; [done|]. simplify_eq. simplify_guards.
  apply f64_as_u64_le; [done| |done]. unfold f64_min in *.
  destruct (is_nan (f64_mul _ _)) eqn:Hnan; [|destruct (is_nan (u64_as_f64 n)) eqn:Hnan'].
  - unfold f64_lt. destruct (u64_as_f64 n); try done. all: by rewrite ?Z.ltb_irrefl.
  - unfold f64_lt. by destruct (u64_as_f64 n).
  - destruct (f64_lt (u64_as_f64 n) (f64_mul _ _)) eqn:Hlt; [|done].
    unfold f64_lt. destruct (u64_as_f64 n); try done. all: by rewrite ?Z.ltb_irrefl.
Qed.
End delays.

(** ** Edges *)

(** [graph.edges.iter().filter(|edge| edge.from == id).map(|edge| edge.to)]. *)
Definition edge_targets (edges : list CompiledWorkflowEdge) (id : string) : list string :=
  CompiledWorkflowEdge.to <$> List.filter (λ (edge : CompiledWorkflowEdge), edge.(CompiledWorkflowEdge.from) == id) edges.

(** Every node is expanded once, so that the worklist never receives more nodes than there are
    edges. *)
Definition search_fuel (edges : list CompiledWorkflowEdge) : nat := S (S (length edges)).

(** ** Lookups *)

Definition node (workflow : CompiledWorkflowDefinition) (node_id : string) : option CompiledWorkflowNode :=
  List.find (λ (node : CompiledWorkflowNode), node.(CompiledWorkflowNode.id) == node_id) workflow.(CompiledWorkflowDefinition.graph).(CompiledWorkflowGraph.nodes).

Definition trigger (workflow : CompiledWorkflowDefinition) (trigger_id : string) : option CompiledTrigger :=
  List.find (λ (trigger : CompiledTrigger), trigger.(CompiledTrigger.id) == trigger_id) workflow.(CompiledWorkflowDefinition.triggers).

(** [CompiledWait::wait_id] and [CompiledWait::node_id]. *)
Definition wait_id (wait : CompiledWait) : string :=
  match wait with
  | CompiledWait.Duration wait_id _ _ _ | CompiledWait.Until wait_id _ _ _
  | CompiledWait.Signal wait_id _ _ _ _ _ _ => wait_id
  end.
Definition wait_node_id (wait : CompiledWait) : string :=
  match wait with
  | CompiledWait.Duration _ node_id _ _ | CompiledWait.Until _ node_id _ _
  | CompiledWait.Signal _ node_id _ _ _ _ _ => node_id
  end.

Definition durable_wait (workflow : CompiledWorkflowDefinition) (id : string) : option CompiledWait :=
  List.find (λ wait, wait_id wait == id) (unwrap_or_default workflow.(CompiledWorkflowDefinition.graph).(CompiledWorkflowGraph.waits)).

Definition durable_lock (workflow : CompiledWorkflowDefinition) (lock_id : string) : option CompiledLock :=
  List.find (λ (lock : CompiledLock), lock.(CompiledLock.lock_id) == lock_id) (unwrap_or_default workflow.(CompiledWorkflowDefinition.graph).(CompiledWorkflowGraph.locks)).

Definition saga (workflow : CompiledWorkflowDefinition) (saga_id : string) : option CompiledSaga :=
  List.find (λ (saga : CompiledSaga), saga.(CompiledSaga.saga_id) == saga_id) (unwrap_or_default workflow.(CompiledWorkflowDefinition.graph).(CompiledWorkflowGraph.sagas)).

Definition saga_for_control_node (workflow : CompiledWorkflowDefinition) (node_id : string) :
    option CompiledSaga :=
  List.find (λ (saga : CompiledSaga),
    (saga.(CompiledSaga.open_node_id) == node_id) || (saga.(CompiledSaga.commit_node_id) == node_id) || (saga.(CompiledSaga.result_node_id) == node_id))
    (unwrap_or_default workflow.(CompiledWorkflowDefinition.graph).(CompiledWorkflowGraph.sagas)).

Definition saga_for_body_node (workflow : CompiledWorkflowDefinition) (node_id : string) :
    option CompiledSaga :=
  List.find (λ (saga : CompiledSaga),
    search (search_fuel workflow.(CompiledWorkflowDefinition.graph).(CompiledWorkflowGraph.edges)) as_stack (edge_targets workflow.(CompiledWorkflowDefinition.graph).(CompiledWorkflowGraph.edges))
      saga.(CompiledSaga.body_terminal_node_id) node_id ∅ [saga.(CompiledSaga.body_entry_node_id)])
    (unwrap_or_default workflow.(CompiledWorkflowDefinition.graph).(CompiledWorkflowGraph.sagas)).

Definition lifecycle_hook (workflow : CompiledWorkflowDefinition) (hook_id : string) :
    option CompiledLifecycleHook :=
  lifecycle ← workflow.(CompiledWorkflowDefinition.lifecycle);
  List.find (λ (hook : CompiledLifecycleHook), hook.(CompiledLifecycleHook.hook_id) == hook_id) lifecycle.(CompiledLifecycleDefinition.hooks).

Definition lifecycle_hook_for_event (workflow : CompiledWorkflowDefinition) (event : LifecycleEventName) :
    option CompiledLifecycleHook :=
  lifecycle ← workflow.(CompiledWorkflowDefinition.lifecycle);
  List.find (λ (hook : CompiledLifecycleHook), hook.(CompiledLifecycleHook.event) == event) lifecycle.(CompiledLifecycleDefinition.hooks).

(** [self.node(step_id).or_else(...)]: a node of the graph or of the body of a for-each loop. *)
Definition graph_or_body_node (workflow : CompiledWorkflowDefinition) (step_id : string) :
    option CompiledWorkflowNode :=
  match node workflow step_id with
  | Some node => Some node
  | None =>
      List.find (λ (node : CompiledWorkflowNode), node.(CompiledWorkflowNode.id) == step_id)
        (flat_map (λ (descriptor : CompiledForEach), descriptor.(CompiledForEach.body).(CompiledForEachBody.nodes))
           (unwrap_or_default workflow.(CompiledWorkflowDefinition.graph).(CompiledWorkflowGraph.for_each)))
  end.

Definition lifecycle_hook_for_step_event (workflow : CompiledWorkflowDefinition)
    (event : LifecycleEventName) (step_id : string) : option CompiledLifecycleHook :=
  hook ← lifecycle_hook_for_event workflow event;
  if negb (is_step event)
     || is_none_or (graph_or_body_node workflow step_id)
          (λ (node : CompiledWorkflowNode), node.(CompiledWorkflowNode.handler) != "runtime.script")
     || is_some_and hook.(CompiledLifecycleHook.step_ids) (λ step_ids, negb (existsb (λ id, id == step_id) step_ids))
  then None
  else Some hook.

(** ** Policies *)

Section policy_identity.
Context `{Externals} `{EngineExternals}.

Definition runtime_policy_hash (workflow : CompiledWorkflowDefinition) : option string :=
  policy ← workflow.(CompiledWorkflowDefinition.runtime_policy);
  bytes ← canonical_policy policy;
  Some ("sha256:" +:+ sha256_hex bytes).

Definition runtime_policy_queue_name (workflow : CompiledWorkflowDefinition) : option string :=
  policy ← workflow.(CompiledWorkflowDefinition.runtime_policy);
  Some match policy.(CompiledRuntimePolicy.queue) with
       | None => "workflow-" +:+ sha256_hex workflow.(CompiledWorkflowDefinition.workflow_id)
       | Some queue => queue.(CompiledQueuePolicy.name)
       end.
End policy_identity.

(** ** Identifiers and provider values, model/validation.rs and model/trigger_validation.rs *)

Definition valid_id (value : string) : bool :=
  negb (str_is_empty value) && (chars_count value <=? 256)%N.

(** [matches!(chars.next(), Some(first) if first_ok(first)) && chars.all(rest_ok)]; the tests
    accept ASCII only, so that they can be made on bytes. *)
Definition first_then (first_ok rest_ok : Ascii.ascii → bool) (value : string) : bool :=
  first_byte first_ok value && bytes_all rest_ok (tail value).

Definition valid_public_structural_id (value : string) : bool :=
  first_then is_ascii_lowercase is_ascii_alphanumeric value && (chars_count value <=? 256)%N.

Definition valid_secret_name (value : string) : bool :=
  first_then is_ascii_uppercase
    (λ b, is_ascii_uppercase b || is_ascii_digit b || is_byte "_"%char b) value.

Definition valid_reusable_alias (value : string) : bool :=
  forallb (λ part,
    negb (str_is_empty part) && first_byte is_ascii_lowercase part
    && bytes_all (λ b, is_ascii_lowercase b || is_ascii_digit b) part) (split (is_byte "-"%char) value)
  && (str_len value <=? 128)%N.

Definition valid_discord_snowflake (value : string) : bool :=
  in_range 17 20 (str_len value) && bytes_all is_ascii_digit value.

Definition valid_whatsapp_phone_number_id (value : string) : bool :=
  in_range 6 20 (str_len value) && negb (starts_with "0" value) && bytes_all is_ascii_digit value.

Definition valid_whatsapp_recipient (value : string) : bool :=
  in_range 8 16 (str_len value) && negb (starts_with "0" value) && bytes_all is_ascii_digit value.

Definition valid_whatsapp_template (value : string) : bool :=
  negb (str_is_empty value)
  && bytes_all (λ b, is_ascii_lowercase b || is_ascii_digit b || is_byte "_"%char b) value.

Definition valid_whatsapp_language (value : string) : bool :=
  let len := String.length value in
  ((len == 2) || (len == 3)) && bytes_all is_ascii_lowercase value
  || ((len == 5) || (len == 6))
     && bytes_all is_ascii_lowercase (String.substring 0 (len - 3) value)
     && (String.substring (len - 3) 1 value == "_")
     && bytes_all is_ascii_uppercase (String.substring (len - 2) 2 value).

Definition valid_slack_destination (value : string) : bool :=
  match strip_prefix "#" value with
  | Some alias =>
      negb (str_is_empty alias) && (str_len alias <=? 80)%N
      && first_byte (λ b, is_ascii_lowercase b || is_ascii_digit b) alias
      && bytes_all (λ b, is_ascii_lowercase b || is_ascii_digit b || is_byte "_"%char b || is_byte "-"%char b)
           (tail alias)
  | None =>
      in_range 9 32 (str_len value)
      && first_byte (λ b, is_byte "C"%char b || is_byte "G"%char b) value
      && bytes_all (λ b, is_ascii_uppercase b || is_ascii_digit b) (tail value)
  end.

(** ** Notifications of an approval *)

Definition reusable_provider_ids (workflow : CompiledWorkflowDefinition) : gset string :=
  list_to_set (omap (λ definition,
    match definition with
    | CompiledReusableInvocation.NotificationProvider provider_id _ _ _ _ _ _ => Some provider_id
    | CompiledReusableInvocation.Step _ _ _ _ _ _ _ _ => None
    end) (unwrap_or_default workflow.(CompiledWorkflowDefinition.reusable_definitions))).

Definition valid_custom_provider_delivery (fields : gmap string ValueExpression)
    (expected_domain : string) (provider_ids : gset string) (message_required : bool) : bool :=
  let required_fields := if message_required then 7 else 6 in
  if (size fields <? required_fields) || (7 <? size fields) then false
  else if existsb (λ entry, negb (bool_decide (entry.1 ∈ ["deliveryId"; "provider"; "destination";
            "credentials"; "providerId"; "domain"; "message"]))) (map_to_list fields)
  then false
  else
    let delivery_id := literal_string (fields !! "deliveryId") in
    let provider_id := literal_string (fields !! "providerId") in
    let message_valid := is_none_or (fields !! "message") (λ message,
      match message with
      | ValueExpression.Template parts =>
          in_range 1 65 (N.of_nat (length parts))
          && forallb (λ part, negb (match part with TemplatePart.Text text => (4096 <? str_len text)%N | _ => false end))
               parts
      | _ => false
      end) in
    (literal_string (fields !! "provider") == Some "custom")
    && (literal_string (fields !! "domain") == Some expected_domain)
    && is_some_and delivery_id (λ value, valid_id value && (Some value == provider_id))
    && is_some_and provider_id (λ value, bool_decide (value ∈ provider_ids))
    && is_some_and (literal_string (fields !! "destination")) valid_reusable_alias
    && is_some_and (fields !! "credentials" ≫= object_fields) (λ credentials, size credentials == 0)
    && (negb message_required || contains_key fields "message")
    && message_valid.

(** [credentials.get(key)] is a reference to a well-named secret. *)
Definition secret_name (credentials : gmap string ValueExpression) (key : string) : option string :=
  match credentials !! key with
  | Some (ValueExpression.SecretReference name) => if valid_secret_name name then Some name else None
  | _ => None
  end.

Definition base_delivery_keys : list string := ["deliveryId"; "provider"; "destination"; "credentials"].

(** The credentials, the identity of a custom provider, its message, the template, the language
    and the key that tells duplicates apart, for one provider. *)
Record provider_binding := ProviderBinding {
  names : gmap string string;
  provider_id : option string;
  message : option ValueExpression;
  template_name : option string;
  language : option string;
  duplicate_key : string
}.

(** The single-token providers telegram and discord. *)
Definition bot_token_binding (provider destination : string) (credentials : gmap string ValueExpression) :
    option provider_binding :=
  name ← secret_name credentials "botToken";
  Some (ProviderBinding {["botToken" := name]} None None None None
          (provider +:+ nul +:+ name +:+ nul +:+ destination)).

(** The chain of [if provider == ...]. *)
Definition bind_provider (provider destination : string) (fields credentials : gmap string ValueExpression)
    (provider_ids : gset string) : option provider_binding :=
  let has_base_keys := (size fields == 4) && forallb (contains_key fields) base_delivery_keys in
  if provider == "slack" then
    if negb has_base_keys || negb (valid_slack_destination destination) || (size credentials != 2) then None
    else
      bot ← secret_name credentials "botToken";
      app ← secret_name credentials "appToken";
      Some (ProviderBinding (<["appToken" := app]> {["botToken" := bot]}) None None None None
              ("slack" +:+ nul +:+ bot +:+ nul +:+ app +:+ nul +:+ destination))
  else if provider == "telegram" then
    if negb has_base_keys || str_is_empty destination || (20 <? str_len destination)%N
       || negb (bytes_all is_ascii_digit (default destination (strip_prefix "-" destination)))
       || (size credentials != 1)
    then None
    else bot_token_binding provider destination credentials
  else if provider == "discord" then
    if negb has_base_keys || negb (valid_discord_snowflake destination) || (size credentials != 1) then None
    else bot_token_binding provider destination credentials
  else if provider == "whatsapp" then
    if negb ((size fields == 6)
             && forallb (contains_key fields) (base_delivery_keys ++ ["templateName"; "language"]))
       || negb (valid_whatsapp_recipient destination) || (size credentials != 2)
    then None
    else
      access_token ← match credentials !! "accessToken" with
                     | Some (ValueExpression.SecretReference name) => Some name | _ => None end;
      phone_number_id ← literal_string (credentials !! "phoneNumberId");
      template_name ← literal_string (fields !! "templateName");
      language ← literal_string (fields !! "language");
      if negb (valid_secret_name access_token) || negb (valid_whatsapp_phone_number_id phone_number_id)
         || negb (valid_whatsapp_template template_name) || negb (valid_whatsapp_language language)
      then None
      else Some (ProviderBinding
             (<["phoneNumberId" := phone_number_id]> {["accessToken" := access_token]})
             None None (Some template_name) (Some language)
             ("whatsapp" +:+ nul +:+ access_token +:+ nul +:+ phone_number_id +:+ nul +:+ destination))
  else if (provider == "custom") && valid_custom_provider_delivery fields "approval" provider_ids false then
    provider_id ← literal_string (fields !! "providerId");
    Some (ProviderBinding ∅ (Some provider_id) (fields !! "message") None None
            ("custom" +:+ nul +:+ provider_id))
  else None.

(** [previous + 1] of a [usize]. *)
Definition follows (previous n : N) : bool := n == usize_add previous 1.

(** One item of the loop: the delivery, its place [(tag, channel)] and its duplicate key. *)
Definition approval_notification (approval_id : string) (provider_ids : gset string)
    (previous : option (N * N)) (item : ValueExpression) :
    option (NotificationDefinition * (N * N) * string) :=
  fields ← object_fields item;
  delivery ← (match fields !! "deliveryId" with Some (ValueExpression.Literal value) => Some value | _ => None end);
  provider ← (match fields !! "provider" with Some (ValueExpression.Literal value) => Some value | _ => None end);
  destination ← (match fields !! "destination" with Some (ValueExpression.Literal value) => Some value | _ => None end);
  credentials ← fields !! "credentials" ≫= object_fields;
  delivery_id ← as_str delivery;
  provider ← as_str provider;
  destination ← as_str destination;
  suffix ← strip_prefix (approval_id +:+ ":notify:") delivery_id;
  let destination_marker :=
    if provider == "telegram" then ":chat:"
    else if provider == "whatsapp" then ":recipient:" else ":channel:" in
  parts ← split_once destination_marker suffix;
  tag ← parse_usize parts.1;
  channel ← parse_usize parts.2;
  let ordered :=
    match previous with
    | None => (tag == 0%N) && (channel == 0%N)
    | Some (previous_tag, previous_channel) =>
        if tag == previous_tag then follows previous_channel channel
        else follows previous_tag tag && (channel == 0%N)
    end in
  if negb ordered then None
  else
    binding ← bind_provider provider destination fields credentials provider_ids;
    Some ({| NotificationDefinition.delivery_id := delivery_id;
             NotificationDefinition.provider := provider;
             NotificationDefinition.destination := destination;
             NotificationDefinition.credentials := names binding;
             NotificationDefinition.provider_id := provider_id binding;
             NotificationDefinition.message := message binding;
             NotificationDefinition.template_name := template_name binding;
             NotificationDefinition.language := language binding |},
          (tag, channel), duplicate_key binding).

(** The loop over the items. *)
Fixpoint collect_notifications (approval_id : string) (provider_ids : gset string)
    (previous : option (N * N)) (duplicate_keys : gset string) (items : list ValueExpression) :
    option (list NotificationDefinition) :=
  match items with
  | [] => Some []
  | item :: items =>
      found ← approval_notification approval_id provider_ids previous item;
      let '(definition, place, key) := found in
      if bool_decide (key ∈ duplicate_keys) then None
      else
        rest ← collect_notifications approval_id provider_ids (Some place) ({[key]} ∪ duplicate_keys) items;
        Some (definition :: rest)
  end.

Definition approval_notifications (approval_id : string) (fields : gmap string ValueExpression)
    (provider_ids : gset string) : option (list NotificationDefinition) :=
  match fields !! "notifications" with
  | None => Some []
  | Some (ValueExpression.Array items) =>
      if is_empty items then None else collect_notifications approval_id provider_ids None ∅ items
  | Some _ => None
  end.

(** [metadata.get(key).and_then(Value::as_str)]. *)
Definition metadata_str (metadata : option Map) (key : string) : option string :=
  m ← metadata; value ← map_get m key; as_str value.

Definition approval (workflow : CompiledWorkflowDefinition) (approval_id : string) :
    option ApprovalDefinition :=
  wait ← node workflow approval_id;
  if wait.(CompiledWorkflowNode.handler) != "engine.approval-wait" then None
  else
    fields ← object_fields wait.(CompiledWorkflowNode.inputs);
    let timeout_ms := fields !! "timeoutMs" ≫= literal_u64 in
    on_timeout ← fields !! "onTimeout" ≫= literal_str;
    let review := fields !! "review" in
    let required_approvals :=
      value ← fields !! "requiredApprovals" ≫= literal_u64;
      if (value <? u32_modulus)%N then Some value else None in
    let required_roles :=
      match fields !! "requiredRoles" with
      | Some (ValueExpression.Array items) => omap literal_str items
      | _ => []
      end in
    notifications ← approval_notifications approval_id fields (reusable_provider_ids workflow);
    Some {| ApprovalDefinition.approval_id := approval_id;
            ApprovalDefinition.name := metadata_str wait.(CompiledWorkflowNode.metadata) "name";
            ApprovalDefinition.description := metadata_str wait.(CompiledWorkflowNode.metadata) "description";
            ApprovalDefinition.timeout_ms := timeout_ms;
            ApprovalDefinition.on_timeout := on_timeout;
            ApprovalDefinition.review := review;
            ApprovalDefinition.required_approvals := required_approvals;
            ApprovalDefinition.required_roles := required_roles;
            ApprovalDefinition.notifications := notifications |}.

(** ** Parallel groups *)

(** [format!("__woml_parallel__{parallel_id}__start")]. *)
Definition parallel_start_node_id (parallel_id : string) : string :=
  "__woml_parallel__" +:+ parallel_id +:+ "__start".

(** The position of a child edge, [usize::MAX] when its identifier does not tell. *)
Definition child_position (parallel_id : string) (edge : CompiledWorkflowEdge) : N :=
  default 18446744073709551615%N
    (strip_prefix (parallel_id +:+ ":child:") edge.(CompiledWorkflowEdge.id) ≫= parse_usize).

Definition parallel_group (workflow : CompiledWorkflowDefinition) (parallel_id : string) :
    option ParallelGroupDefinition :=
  let start_node_id := parallel_start_node_id parallel_id in
  start ← node workflow start_node_id;
  if start.(CompiledWorkflowNode.handler) != "engine.parallel-start" then None
  else
    fields ← object_fields start.(CompiledWorkflowNode.inputs);
    concurrency ← fields !! "concurrency" ≫= literal_u64;
    on_error ← fields !! "onError" ≫= literal_str;
    let child_edges := List.filter (λ (edge : CompiledWorkflowEdge),
      (edge.(CompiledWorkflowEdge.from) == start_node_id) && (edge.(CompiledWorkflowEdge.parallel_id) == Some parallel_id)) workflow.(CompiledWorkflowDefinition.graph).(CompiledWorkflowGraph.edges) in
    let child_edges := sort_by_key (child_position parallel_id) child_edges in
    Some {| ParallelGroupDefinition.parallel_id := parallel_id;
            ParallelGroupDefinition.start_node_id := start_node_id;
            ParallelGroupDefinition.child_node_ids := CompiledWorkflowEdge.to <$> child_edges;
            ParallelGroupDefinition.concurrency := concurrency;
            ParallelGroupDefinition.on_error := on_error |}.

Definition parallel_group_for_child (workflow : CompiledWorkflowDefinition) (node_id : string) :
    option ParallelGroupDefinition :=
  edge ← List.find (λ (edge : CompiledWorkflowEdge),
    (edge.(CompiledWorkflowEdge.to) == node_id) && is_some edge.(CompiledWorkflowEdge.parallel_id)) workflow.(CompiledWorkflowDefinition.graph).(CompiledWorkflowGraph.edges);
  parallel_id ← edge.(CompiledWorkflowEdge.parallel_id);
  parallel_group workflow parallel_id.

(** ** Forks and the terminal node *)

Definition fork_branch_owner (workflow : CompiledWorkflowDefinition) (node_id : string) :
    option (CompiledFork * CompiledForkBranch) :=
  find_map (λ (fork : CompiledFork),
    (λ branch, (fork, branch)) <$> List.find (λ (branch : CompiledForkBranch),
      search (search_fuel workflow.(CompiledWorkflowDefinition.graph).(CompiledWorkflowGraph.edges)) as_stack (edge_targets workflow.(CompiledWorkflowDefinition.graph).(CompiledWorkflowGraph.edges))
        branch.(CompiledForkBranch.terminal_node_id) node_id ∅ [branch.(CompiledForkBranch.entry_node_id)])
      fork.(CompiledFork.branches))
    (unwrap_or_default workflow.(CompiledWorkflowDefinition.graph).(CompiledWorkflowGraph.forks)).

(** The number of edges that leave each node.  The length of a vector fits in a [usize], so that the
    count does not overflow. *)
Definition outgoing_counts (workflow : CompiledWorkflowDefinition) : gmap string N :=
  foldl (λ counts (edge : CompiledWorkflowEdge), alter (λ count, (count + 1)%N) edge.(CompiledWorkflowEdge.from) counts)
    (list_to_map ((λ (node : CompiledWorkflowNode), (node.(CompiledWorkflowNode.id), 0%N)) <$> workflow.(CompiledWorkflowDefinition.graph).(CompiledWorkflowGraph.nodes)))
    workflow.(CompiledWorkflowDefinition.graph).(CompiledWorkflowGraph.edges).

(** The order in which the map yields its entries does not matter: the result is the only node
    without outgoing edges, if there is just one. *)
Definition terminal_node_id (workflow : CompiledWorkflowDefinition) : option string :=
  match List.filter (λ entry, entry.2 == 0%N) (map_to_list (outgoing_counts workflow)) with
  | [(id, _)] => Some id
  | _ => None
  end.
