(* ===== verification/ModelIssues.v ===== *)
(** * Issues of the compiled model, and the tests its validators share

    model/issues.rs, the helpers at the top of model/validation.rs, the
    expression checks of model/branch_validation.rs and the whole of
    model/trigger_validation.rs.  A validator that pushes onto [issues] is a
    function to the list of the issues it pushes.  Messages are represented by
    their format templates. *)

From S2P Require Import Prelude GraphSearch Strings Json EventTypes Guards ModelTypes.
From S2P Require Import EngineExternals ModelQueries.

(** [ModelIssueCode], model/issues.rs. *)
Module ModelIssueCode.
Inductive ModelIssueCode :=
| UnsupportedSchemaVersion
| InvalidIdentifier
| InvalidMetadata
| MissingTrigger
| DuplicateTriggerId
| MissingNode
| MissingEntryNode
| DuplicateNodeId
| DuplicateEdgeId
| DuplicateEntryNodeId
| UnknownEdgeEndpoint
| InvalidEntryNode
| UnreachableNode
| CyclicGraph
| TerminalNodeCount
| UnknownHandler
| UnsupportedTrigger
| UnsupportedNodeInputs
| UnsupportedEdgeCondition
| UnsupportedBranch
| UnsupportedRetry
| UnsupportedTimeout
| UnsupportedNonSequentialDag
| InvalidValueExpression
| InvalidBranchSelector
| InvalidBranchGroup
| InvalidBranchResult
| InvalidParallelGroup
| UnsupportedParallelExecution
| InvalidApprovalGroup
| InvalidNotificationGroup
| InvalidScriptRuntime
| InvalidModuleRuntime
| InvalidLifecycle
| InvalidRuntimePolicy
| UnsupportedRuntimePolicyExecution
| InvalidForkGraph
| InvalidControlChoice
| InvalidContextVisibility
| InvalidWorkflowSettlement
| UnsupportedForkExecution
| InvalidReusableDefinition
| UnsupportedReusableExecution
| InvalidForEach
| UnsupportedForEachExecution
| InvalidDurableWait
| UnsupportedDurableWaitExecution
| InvalidLock
| UnsupportedLockExecution
| InvalidSaga
| UnsupportedSagaExecution
| UnsupportedRichApprovalExecution
| InvalidExecutionPlacement
| UnsupportedRemoteExecution.
#[global] Instance ModelIssueCode_eq_dec : EqDecision ModelIssueCode.
Proof. solve_decision. Defined.
End ModelIssueCode.
Abbreviation ModelIssueCode := ModelIssueCode.ModelIssueCode.

(** [ModelIssue], model/issues.rs. *)
Module ModelIssue.
Record ModelIssue := mk {
  code : ModelIssueCode;
  message : string
}.
#[global] Instance ModelIssue_eq_dec : EqDecision ModelIssue.
Proof. solve_decision. Defined.
End ModelIssue.
Abbreviation ModelIssue := ModelIssue.ModelIssue.

(** [ModelValidationError], model/issues.rs. *)
Module ModelValidationError.
Record ModelValidationError := mk {
  issues : list ModelIssue;
  first_message : string
}.
End ModelValidationError.
Abbreviation ModelValidationError := ModelValidationError.ModelValidationError.

(** [ModelValidationError::new]. *)
Definition ModelValidationError_new (issues : list ModelIssue) : ModelValidationError :=
  ModelValidationError.mk issues
    match issues with
    | [] => "unknown validation error"
    | first :: _ => first.(ModelIssue.message)
    end.

Definition issue (code : ModelIssueCode) (message : string) : ModelIssue := ModelIssue.mk code message.

(** [if cond { issues.push(issue(code, message)); }]. *)
Definition push_if (cond : bool) (code : ModelIssueCode) (message : string) : list ModelIssue :=
  if cond then [issue code message] else [].

(** A loop that keeps a state and pushes issues: [for a in l { ... }]. *)
Fixpoint scan_issues {S A} (body : S → A → S * list ModelIssue) (state : S) (l : list A) :
    S * list ModelIssue :=
  match l with
  | [] => (state, [])
  | a :: l =>
      let '(state, issues) := body state a in
      let '(state, rest) := scan_issues body state l in
      (state, issues ++ rest)
  end.

(** A loop that keeps a set and a conjunction: [l.iter().all(|a| ..., set.insert(key), ...)], which
    stops at the first failure. *)
Fixpoint all_inserting {S A} (body : S → A → S * bool) (state : S) (l : list A) : S * bool :=
  match l with
  | [] => (state, true)
  | a :: l =>
      let '(state, ok) := body state a in
      if ok then all_inserting body state l else (state, false)
  end.

(** [before && set.insert(key)]: the key is inserted when [before] holds. *)
Definition insert_when (before : bool) (key : string) (seen : gset string) : gset string * bool :=
  if before then ({[key]} ∪ seen, negb (bool_decide (key ∈ seen))) else (seen, false).

(** [workflow.schema_version >= first]. *)
Definition version_at_least (workflow : CompiledWorkflowDefinition) (first : N) : bool :=
  (first <=? workflow.(CompiledWorkflowDefinition.schema_version))%N.
(** [matches!(workflow.schema_version, first | .. | last)]. *)
Definition version_in (workflow : CompiledWorkflowDefinition) (first last : N) : bool :=
  in_range first last workflow.(CompiledWorkflowDefinition.schema_version).

(** [l.iter().collect::<HashSet<_>>().len() == l.len()]. *)
Definition no_repeats (l : list string) : bool := bool_decide (NoDup l).

(** [l.windows(2).all(|pair| pair[0] < pair[1])]. *)
Definition ascending (l : list string) : bool := windows_all String.ltb l.

Definition len {A} (l : list A) : N := N.of_nat (length l).

(** [nodes.iter().map(|node| (node.id, node)).collect::<HashMap<_, _>>()]: the last node with an
    identifier wins. *)
Definition nodes_by_id (nodes : list CompiledWorkflowNode) : gmap string CompiledWorkflowNode :=
  list_to_map (reverse ((λ (node : CompiledWorkflowNode), (node.(CompiledWorkflowNode.id), node)) <$> nodes)).
Definition node_id_set (nodes : list CompiledWorkflowNode) : gset string :=
  list_to_set ((λ (node : CompiledWorkflowNode), node.(CompiledWorkflowNode.id)) <$> nodes).

(** The nodes of the bodies of the for-each loops. *)
Definition body_nodes (workflow : CompiledWorkflowDefinition) : list CompiledWorkflowNode :=
  flat_map (λ (descriptor : CompiledForEach), descriptor.(CompiledForEach.body).(CompiledForEachBody.nodes))
    (unwrap_or_default workflow.(CompiledWorkflowDefinition.graph).(CompiledWorkflowGraph.for_each)).

(** The edges into and out of a node: what the maps [incoming] and [outgoing] hold for it. *)
Definition edges_into (edges : list CompiledWorkflowEdge) (id : string) : list CompiledWorkflowEdge :=
  List.filter (λ (edge : CompiledWorkflowEdge), edge.(CompiledWorkflowEdge.to) == id) edges.
Definition edges_out_of (edges : list CompiledWorkflowEdge) (id : string) : list CompiledWorkflowEdge :=
  List.filter (λ (edge : CompiledWorkflowEdge), edge.(CompiledWorkflowEdge.from) == id) edges.

Definition is_always (condition : EdgeCondition) : bool :=
  match condition with EdgeCondition.Always => true | _ => false end.
Definition is_boolean (condition : EdgeCondition) : bool :=
  match condition with EdgeCondition.Boolean _ => true | _ => false end.
Definition is_equals (condition : EdgeCondition) : bool :=
  match condition with EdgeCondition.Equals _ _ => true | _ => false end.
Definition is_truthy (condition : EdgeCondition) : bool :=
  match condition with EdgeCondition.Truthy _ => true | _ => false end.

(** ** Shapes of expressions *)

(** [matches!(expression, Some(Literal { value }) if test(value))] and the like. *)
Definition literal_is (expression : option ValueExpression) (test : Value → bool) : bool :=
  match expression with Some (ValueExpression.Literal value) => test value | _ => false end.
Definition literal_text_is (expression : option ValueExpression) (test : string → bool) : bool :=
  literal_is expression (λ value, is_some_and (as_str value) test).
Definition literal_count_is (expression : option ValueExpression) (test : N → bool) : bool :=
  literal_is expression (λ value, is_some_and (as_u64 value) test).
Definition is_context_reference (expression : ValueExpression) : bool :=
  match expression with ValueExpression.ContextReference _ => true | _ => false end.
(** [matches!(inputs, Object { fields } if fields.is_empty())]. *)
Definition is_empty_object (expression : ValueExpression) : bool :=
  match expression with ValueExpression.Object fields => size fields == 0 | _ => false end.
(** [matches!(fields.get(key), Some(SecretReference { name }) if valid_secret_name(name))]. *)
Definition secret_at (fields : gmap string ValueExpression) (key : string) : bool :=
  match fields !! key with Some (ValueExpression.SecretReference name) => valid_secret_name name | _ => false end.
(** [fields.len() == 1] and the source is a literal string. *)
Definition is_script_source (expression : ValueExpression) : bool :=
  match expression with
  | ValueExpression.Object fields => (size fields == 1) && literal_is (fields !! "source") is_string
  | _ => false
  end.

(** ** Equality of JSON values

    [Value] compares numbers by value and objects without regard to the order of their entries. *)

(** [f64::eq] of bit patterns: no NaN equals anything, and both zeros are equal. *)
Definition f64_eqb (x y : f64) : bool :=
  negb (f64_is_nan x) && negb (f64_is_nan y)
  && ((x =? y)%N || (N.land x 9223372036854775807 =? 0)%N && (N.land y 9223372036854775807 =? 0)%N).

Definition number_eqb (a b : Number) : bool :=
  match a, b with
  | Number.PosInt a, Number.PosInt b => (a =? b)%N
  | Number.NegInt a, Number.NegInt b => (a =? b)%Z
  | Number.Float a, Number.Float b => f64_eqb a b
  | _, _ => false
  end.

Fixpoint value_eqb (a b : Value) : bool :=
  match a, b with
  | Value.Null, Value.Null => true
  | Value.Bool a, Value.Bool b => Bool.eqb a b
  | Value.Number a, Value.Number b => number_eqb a b
  | Value.String a, Value.String b => a == b
  | Value.Array a, Value.Array b =>
      (fix all_equal (a b : list Value) : bool :=
         match a, b with
         | [], [] => true
         | x :: a, y :: b => value_eqb x y && all_equal a b
         | _, _ => false
         end) a b
  | Value.Object a, Value.Object b =>
      (length a == length b)
      && forallb (λ entry, is_some_and (map_get b entry.1) (value_eqb entry.2)) a
  | _, _ => false
  end.

(** [left.metadata.as_ref() == right.metadata.as_ref()]. *)
Definition same_metadata (a b : option Map) : bool :=
  match a, b with
  | Some a, Some b => value_eqb (Value.Object a) (Value.Object b)
  | None, None => true
  | _, _ => false
  end.

(** ** Helpers of model/validation.rs *)

Definition valid_sha256 (value : string) : bool :=
  (str_len value =? 71)%N && starts_with "sha256:" value
  && bytes_all is_lower_hex (String.substring 7 64 value).

Definition valid_portable_path (value : string) : bool :=
  negb (str_is_empty value) && (str_len value <=? 1024)%N
  && negb (starts_with "/" value) && negb (str_contains "\" value)
  && negb (existsb (λ part, (part == "..") || str_is_empty part) (split (is_byte "/"%char) value)).

(** A JavaScript identifier of ASCII letters. *)
Definition valid_for_each_path_segment (value : string) : bool :=
  first_then (λ b, is_byte "_"%char b || is_byte "$"%char b || is_ascii_alphabetic b)
    (λ b, is_byte "_"%char b || is_byte "$"%char b || is_ascii_alphanumeric b) value.

Definition valid_reusable_context_path (path : string) (allow_iteration : bool) : bool :=
  let identifiers_valid := forallb valid_for_each_path_segment in
  match split (is_byte "."%char) path with
  | root :: rest =>
      if root == "payload" then identifiers_valid rest
      else if root == "steps" then
        match rest with
        | step :: rest => valid_public_structural_id step && identifiers_valid rest
        | [] => false
        end
      else if root == "item" then allow_iteration && identifiers_valid rest
      else if root == "iteration" then
        match rest with
        | [field] => ((field == "index") || (field == "total")) && allow_iteration
        | _ => false
        end
      else false
  | [] => false
  end.

Definition valid_binding_name (value : string) : bool :=
  first_then is_ascii_lowercase is_ascii_alphanumeric value && (str_len value <=? 128)%N.

(** [prop.expression] is valid; the secret it names. *)
Definition prop_expression (prop : CompiledReusableBoundProp) (allow_iteration : bool) : bool * option string :=
  match prop.(CompiledReusableBoundProp.expression) with
  | CompiledReusablePropExpression.Literal value =>
      (negb prop.(CompiledReusableBoundProp.secret) && (str_len value <=? 65536)%N, None)
  | CompiledReusablePropExpression.Context path =>
      (negb prop.(CompiledReusableBoundProp.secret) && (str_len path <=? 1024)%N && valid_reusable_context_path path allow_iteration, None)
  | CompiledReusablePropExpression.Secret name =>
      if prop.(CompiledReusableBoundProp.secret) && valid_secret_name name && (str_len name <=? 128)%N
      then (true, Some name) else (false, None)
  end.

(** The loop of [reusable_prop_secrets]; its state holds the names, the bindings and the secrets. *)
Definition check_prop (allow_iteration : bool) (state : gset string * gset string * list string)
    (prop : CompiledReusableBoundProp) : gset string * gset string * list string * list ModelIssue :=
  let '(names, bindings, secrets) := state in
  let '(expression_valid, secret) := prop_expression prop allow_iteration in
  let secrets := secrets ++ option_list secret in
  let shape := valid_reusable_alias prop.(CompiledReusableBoundProp.name) && valid_binding_name prop.(CompiledReusableBoundProp.binding_name) in
  let '(names, new_name) := insert_when shape prop.(CompiledReusableBoundProp.name) names in
  let '(bindings, new_binding) := insert_when new_name prop.(CompiledReusableBoundProp.binding_name) bindings in
  (names, bindings, secrets,
   push_if (negb (new_binding && expression_valid)) ModelIssueCode.InvalidReusableDefinition
     "Reusable operation {subject} has an invalid or duplicate prop {:?}.").

(** [secrets.sort(); secrets.dedup();]. *)
Definition sort_dedup (l : list string) : list string :=
  merge_sort (λ a b, Is_true (String.leb a b)) (remove_dups l).

Definition reusable_prop_secrets (props : list CompiledReusableBoundProp) (allow_iteration : bool) :
    list string * list ModelIssue :=
  let '(_, _, secrets, issues) := scan_issues (check_prop allow_iteration) (∅, ∅, []) props in
  (sort_dedup secrets, issues).

Definition valid_reusable_lifecycle (lifecycle : CompiledReusableLifecycle) : bool :=
  forallb (λ ids, negb (is_empty ids) && forallb valid_id ids)
    (option_list lifecycle.(CompiledReusableLifecycle.on_success) ++ option_list lifecycle.(CompiledReusableLifecycle.on_error) ++ option_list lifecycle.(CompiledReusableLifecycle.on_complete)).

Definition empty_control_node (node : option CompiledWorkflowNode) (handler : string) : bool :=
  is_some_and node (λ (node : CompiledWorkflowNode),
    (node.(CompiledWorkflowNode.handler) == handler) && is_none node.(CompiledWorkflowNode.timeout_ms) && is_none node.(CompiledWorkflowNode.retry_policy)
    && is_none node.(CompiledWorkflowNode.script_runtime) && is_none node.(CompiledWorkflowNode.metadata) && is_empty_object node.(CompiledWorkflowNode.inputs)).

(** A control node that may carry metadata. *)
Definition plain_control_node (node : option CompiledWorkflowNode) (handler : string) : bool :=
  is_some_and node (λ (node : CompiledWorkflowNode),
    (node.(CompiledWorkflowNode.handler) == handler) && is_none node.(CompiledWorkflowNode.timeout_ms) && is_none node.(CompiledWorkflowNode.retry_policy)
    && is_none node.(CompiledWorkflowNode.script_runtime) && is_empty_object node.(CompiledWorkflowNode.inputs)).

(** At most 64 secrets, in ascending order, well named. *)
Definition valid_required_secrets (secrets : list string) : bool :=
  (len secrets <=? 64)%N && ascending secrets && forallb valid_secret_name secrets.

(** ** Expressions, model/branch_validation.rs *)

(** Some segment of a path is empty. *)
Definition has_empty_segment (path : list string) : bool := existsb str_is_empty path.

Fixpoint inspect_expression (expression : ValueExpression) : list ModelIssue :=
  match expression with
  | ValueExpression.Literal _ => []
  | ValueExpression.ContextReference path =>
      push_if (is_empty path || has_empty_segment path) ModelIssueCode.InvalidValueExpression
        "Context reference at {at} must contain non-empty path segments."
  | ValueExpression.LifecycleReference path =>
      push_if (is_empty path || (32 <? len path)%N || has_empty_segment path) ModelIssueCode.InvalidValueExpression
        "Lifecycle reference at {at} must contain 1 to 32 non-empty path segments."
  | ValueExpression.SecretReference name =>
      push_if (negb (valid_secret_name name)) ModelIssueCode.InvalidValueExpression
        "Secret reference at {at} has an invalid symbolic name."
  | ValueExpression.Object fields => concat (btree_values (inspect_expression <$> fields))
  | ValueExpression.Array items => concat (inspect_expression <$> items)
  | ValueExpression.Template parts =>
      push_if (is_empty parts) ModelIssueCode.InvalidValueExpression
        "Template expression at {at} must contain at least one part."
      ++ flat_map (λ part,
           match part with
           | TemplatePart.ContextReference path | TemplatePart.LifecycleReference path =>
               push_if (is_empty path || (32 <? len path)%N || has_empty_segment path)
                 ModelIssueCode.InvalidValueExpression
                 "Reference at {at}.parts[{index}] must contain 1 to 32 non-empty path segments."
           | TemplatePart.Text _ => []
           end) parts
  end.

Fixpoint contains_lifecycle_reference (expression : ValueExpression) : bool :=
  match expression with
  | ValueExpression.LifecycleReference _ => true
  | ValueExpression.Object fields => existsb id (btree_values (contains_lifecycle_reference <$> fields))
  | ValueExpression.Array items => existsb id (contains_lifecycle_reference <$> items)
  | ValueExpression.Template parts => existsb (λ part, match part with TemplatePart.LifecycleReference _ => true | _ => false end) parts
  | ValueExpression.Literal _ | ValueExpression.ContextReference _ | ValueExpression.SecretReference _ => false
  end.

(** ** Triggers, model/trigger_validation.rs *)

Fixpoint collect_custom_provider_ids (expression : ValueExpression) : list string :=
  match expression with
  | ValueExpression.Object fields =>
      (if literal_string (fields !! "provider") == Some "custom"
       then option_list (literal_string (fields !! "providerId")) else [])
      ++ concat (btree_values (collect_custom_provider_ids <$> fields))
  | ValueExpression.Array items => concat (collect_custom_provider_ids <$> items)
  | _ => []
  end.

Definition exact_fields (fields : gmap string ValueExpression) (names : list string) : bool :=
  (size fields == length names) && forallb (contains_key fields) names.

Definition valid_schema_literal (expression : option ValueExpression) : bool := literal_is expression is_object.

Definition valid_webhook_path (path : string) : bool :=
  (str_len path <=? 2048)%N && starts_with "/" path && (path != "/_woml") && negb (starts_with "/_woml/" path)
  && ((path == "/")
      || forallb (λ segment,
           negb (str_is_empty segment)
           && bytes_all (λ b, is_ascii_alphanumeric b || is_byte "."%char b || is_byte "_"%char b
                              || is_byte "~"%char b || is_byte "-"%char b) segment)
           (split (is_byte "/"%char) (tail path))).

Definition valid_webhook_authentication (expression : option ValueExpression) : bool :=
  match expression ≫= object_fields with
  | None => false
  | Some fields =>
      match literal_string (fields !! "kind") with
      | Some kind =>
          if kind == "none" then exact_fields fields ["kind"]
          else if kind == "bearer" then exact_fields fields ["kind"; "secret"] && secret_at fields "secret"
          else false
      | None => false
      end
  end.

(** [let Some(fields) = object_fields(config) else { return false; };]. *)
Definition with_fields (config : ValueExpression) (test : gmap string ValueExpression → bool) : bool :=
  is_some_and (object_fields config) test.

Definition valid_webhook_trigger (config : ValueExpression) : bool :=
  with_fields config (λ fields,
    (exact_fields fields ["path"; "method"; "authentication"]
     || exact_fields fields ["path"; "method"; "authentication"; "schema"])
    && is_some_and (literal_string (fields !! "path")) valid_webhook_path
    && (literal_string (fields !! "method") == Some "POST")
    && valid_webhook_authentication (fields !! "authentication")
    && (negb (contains_key fields "schema") || valid_schema_literal (fields !! "schema"))).

Definition literal_string_array (expression : option ValueExpression) : option (list string) :=
  match expression with
  | Some (ValueExpression.Array items) => mapM literal_str items
  | _ => None
  end.

(** The loop stops at the first value that is empty or was seen. *)
Definition unique_non_empty (values : list string) : bool :=
  (all_inserting (λ seen value, insert_when (negb (str_is_empty value)) value seen) ∅ values).2.

Definition is_chat_event (event : string) : bool := (event == "app-mention") || (event == "direct-message").

Definition valid_slack_trigger (config : ValueExpression) : bool :=
  with_fields config (λ fields,
    is_some_and (literal_string_array (fields !! "events")) (λ events,
    is_some_and (literal_string_array (fields !! "channels")) (λ channels,
      exact_fields fields ["events"; "channels"; "botToken"; "appToken"]
      && in_range 1 2 (len events) && unique_non_empty events && forallb is_chat_event events
      && unique_non_empty channels
      && secret_at fields "botToken" && secret_at fields "appToken"))).

Definition valid_telegram_trigger (config : ValueExpression) : bool :=
  with_fields config (λ fields,
    is_some_and (literal_string_array (fields !! "events")) (λ events,
      exact_fields fields ["events"; "botToken"] && (events == ["message"]) && secret_at fields "botToken")).

Definition valid_discord_trigger (config : ValueExpression) : bool :=
  with_fields config (λ fields,
    is_some_and (literal_string_array (fields !! "events")) (λ events,
      let channels := (λ value, literal_string_array (Some value)) <$> fields !! "channels" in
      match channels with
      | Some None => false
      | _ =>
          let channels := mjoin channels in
          (exact_fields fields ["events"; "botToken"] || exact_fields fields ["events"; "channels"; "botToken"])
          && in_range 1 2 (len events) && unique_non_empty events && forallb is_chat_event events
          && is_none_or channels (λ channels,
               negb (is_empty channels) && unique_non_empty channels && forallb valid_discord_snowflake channels)
          && secret_at fields "botToken"
      end)).

Definition valid_whatsapp_trigger (config : ValueExpression) : bool :=
  with_fields config (λ fields,
    is_some_and (literal_string_array (fields !! "events")) (λ events,
      exact_fields fields ["events"; "phoneNumberId"; "verifyToken"; "appSecret"]
      && (events == ["message"])
      && is_some_and (literal_string (fields !! "phoneNumberId")) valid_whatsapp_phone_number_id
      && secret_at fields "verifyToken" && secret_at fields "appSecret")).

Definition valid_on_missed (expression : option ValueExpression) : bool :=
  is_some_and (literal_string expression) (λ value, (value == "skip") || (value == "run-once")).

Definition valid_schedule_trigger (config : ValueExpression) : bool :=
  with_fields config (λ fields,
    exact_fields fields ["cron"; "timezone"; "onMissed"]
    && is_some_and (literal_string (fields !! "cron")) (λ value, negb (str_is_empty value))
    && is_some_and (literal_string (fields !! "timezone")) (λ value, negb (str_is_empty value))
    && valid_on_missed (fields !! "onMissed")).

Definition valid_interval_trigger (config : ValueExpression) : bool :=
  with_fields config (λ fields,
    exact_fields fields ["everyMs"; "onMissed"]
    && literal_count_is (fields !! "everyMs") (in_range 1000 2592000000)
    && valid_on_missed (fields !! "onMissed")).

Definition is_separator (b : Ascii.ascii) : bool :=
  is_byte "."%char b || is_byte "_"%char b || is_byte "-"%char b.

(** The loop of [valid_event_name]: [has_separator] and [previous_separator]. *)
Fixpoint event_name_loop (has_separator previous_separator : bool) (value : string) : bool :=
  match value with
  | EmptyString => has_separator && negb previous_separator
  | String byte value =>
      if is_separator byte then
        if previous_separator then false else event_name_loop true true value
      else if negb (is_ascii_lowercase byte) && negb (is_ascii_digit byte) then false
      else event_name_loop has_separator false value
  end.
Definition valid_event_name (value : string) : bool :=
  if (256 <? str_len value)%N || negb (first_byte is_ascii_lowercase value) then false
  else event_name_loop false false value.

Definition valid_event_trigger (config : ValueExpression) : bool :=
  with_fields config (λ fields,
    (exact_fields fields ["name"] || exact_fields fields ["name"; "schema"]
     || exact_fields fields ["name"; "secret"] || exact_fields fields ["name"; "schema"; "secret"])
    && is_some_and (literal_string (fields !! "name")) valid_event_name
    && (negb (contains_key fields "secret") || secret_at fields "secret")
    && (negb (contains_key fields "schema") || valid_schema_literal (fields !! "schema"))).

Definition valid_model_v7_trigger (trigger : CompiledTrigger) : bool :=
  if trigger.(CompiledTrigger.handler) == "trigger.manual" then is_empty_object trigger.(CompiledTrigger.config)
  else if trigger.(CompiledTrigger.handler) == "trigger.webhook" then valid_webhook_trigger trigger.(CompiledTrigger.config)
  else if trigger.(CompiledTrigger.handler) == "trigger.slack" then valid_slack_trigger trigger.(CompiledTrigger.config)
  else if trigger.(CompiledTrigger.handler) == "trigger.telegram" then valid_telegram_trigger trigger.(CompiledTrigger.config)
  else if trigger.(CompiledTrigger.handler) == "trigger.discord" then valid_discord_trigger trigger.(CompiledTrigger.config)
  else if trigger.(CompiledTrigger.handler) == "trigger.whatsapp" then valid_whatsapp_trigger trigger.(CompiledTrigger.config)
  else if trigger.(CompiledTrigger.handler) == "trigger.schedule" then valid_schedule_trigger trigger.(CompiledTrigger.config)
  else if trigger.(CompiledTrigger.handler) == "trigger.interval" then valid_interval_trigger trigger.(CompiledTrigger.config)
  else if trigger.(CompiledTrigger.handler) == "trigger.event" then valid_event_trigger trigger.(CompiledTrigger.config)
  else false.
