(* ===== verification/ModelContracts.v ===== *)
(** * Contracts of lifecycle hooks, policies, reusable definitions and placements

    model/lifecycle_validation.rs, model/policy_validation.rs,
    model/reusable_validation.rs and model/placement_validation.rs. *)

From S2P Require Import Prelude GraphSearch Strings Json EventTypes Guards ModelTypes.
From S2P Require Import EngineExternals ModelQueries ModelIssues.

(** ** Lifecycle hooks *)

Definition lifecycle_hook_id (event : LifecycleEventName) : string :=
  match event with
  | LifecycleEventName.RunStart => "lifecycle:run_start"
  | LifecycleEventName.StepStart => "lifecycle:step_start"
  | LifecycleEventName.StepSuccess => "lifecycle:step_success"
  | LifecycleEventName.StepFailure => "lifecycle:step_failure"
  | LifecycleEventName.StepComplete => "lifecycle:step_complete"
  | LifecycleEventName.RunSuccess => "lifecycle:run_success"
  | LifecycleEventName.RunFailure => "lifecycle:run_failure"
  | LifecycleEventName.RunCancel => "lifecycle:run_cancel"
  | LifecycleEventName.RunComplete => "lifecycle:run_complete"
  end.

Definition valid_lifecycle_script_inputs (inputs : ValueExpression) : bool :=
  match inputs with
  | ValueExpression.Object fields =>
      (size fields == 1) && literal_text_is (fields !! "source") (λ source, (str_len source <=? 1048576)%N)
  | _ => false
  end.

(** A template of 1 to 65 parts whose texts have at most 4096 bytes. *)
Definition valid_message_template (message : option ValueExpression) : bool :=
  match message with
  | Some (ValueExpression.Template parts) =>
      in_range 1 65 (len parts)
      && forallb (λ part, negb match part with TemplatePart.Text text => (4096 <? str_len text)%N | _ => false end) parts
  | _ => false
  end.

Definition valid_builtin_credentials (provider : option string) (credentials : option (gmap string ValueExpression)) : bool :=
  match provider with
  | None => false
  | Some provider =>
      is_some_and credentials (λ credentials,
        if provider == "slack" then
          (size credentials == 2) && secret_at credentials "botToken" && secret_at credentials "appToken"
        else if provider == "telegram" then (size credentials == 1) && secret_at credentials "botToken"
        else if provider == "discord" then (size credentials == 1) && secret_at credentials "botToken"
        else if provider == "whatsapp" then
          (size credentials == 2) && secret_at credentials "accessToken"
          && is_some_and (literal_string (credentials !! "phoneNumberId")) valid_whatsapp_phone_number_id
        else false)
  end.

(** One delivery of an informational notification. *)
Definition valid_lifecycle_delivery (provider_ids : gset string) (delivery : ValueExpression) : bool :=
  with_fields delivery (λ fields,
    if literal_string (fields !! "provider") == Some "custom" then
      valid_custom_provider_delivery fields "informational" provider_ids true
    else
      let credentials := fields !! "credentials" ≫= object_fields in
      let provider := literal_string (fields !! "provider") in
      let whatsapp := provider == Some "whatsapp" in
      (size fields == if whatsapp then 7 else 5)
      && literal_text_is (fields !! "deliveryId") (λ value, negb (str_is_empty value) && (str_len value <=? 512)%N)
      && is_some_and provider (λ provider, bool_decide (provider ∈ ["slack"; "telegram"; "discord"; "whatsapp"]))
      && literal_text_is (fields !! "destination") (λ value,
           if provider == Some "discord" then valid_discord_snowflake value
           else if provider == Some "whatsapp" then valid_whatsapp_recipient value
           else negb (str_is_empty value) && (str_len value <=? 512)%N)
      && valid_builtin_credentials provider credentials
      && (negb whatsapp || is_some_and (literal_string (fields !! "templateName")) valid_whatsapp_template)
      && (negb whatsapp || is_some_and (literal_string (fields !! "language")) valid_whatsapp_language)
      && valid_message_template (fields !! "message")).

Definition valid_lifecycle_notification_inputs (inputs : ValueExpression) (provider_ids : gset string) : bool :=
  with_fields inputs (λ fields,
    match fields !! "deliveries" with
    | Some (ValueExpression.Array items) =>
        (size fields == 1) && in_range 1 256 (len items) && forallb (valid_lifecycle_delivery provider_ids) items
    | _ => false
    end).

Definition valid_lifecycle_action (provider_ids : gset string) (action : CompiledLifecycleAction) : bool :=
  match action.(CompiledLifecycleAction.script_runtime) with
  | Some runtime =>
      (action.(CompiledLifecycleAction.handler) == "runtime.lifecycle-script")
      && (runtime.(ScriptRuntimeBindings.binding_version) =? 2)%N
      && (runtime.(ScriptRuntimeBindings.bindings) == ["context"; "lifecycle"; "attempt"; "services"; "secrets"])
      && valid_required_secrets runtime.(ScriptRuntimeBindings.required_secrets)
      && valid_lifecycle_script_inputs action.(CompiledLifecycleAction.inputs)
  | None =>
      (action.(CompiledLifecycleAction.handler) == "notification.informational")
      && valid_lifecycle_notification_inputs action.(CompiledLifecycleAction.inputs) provider_ids
  end.

(** The loop over the actions of a hook; its state is the next index and [action_ids]. *)
Definition check_lifecycle_action (hook_id : string) (provider_ids : gset string) (state : N * gset string)
    (action : CompiledLifecycleAction) : N * gset string * list ModelIssue :=
  let '(index, action_ids) := state in
  let expected_id := hook_id +:+ ":action:" +:+ decimal index in
  let '(action_ids, is_new) := insert_when (action.(CompiledLifecycleAction.action_id) == expected_id) action.(CompiledLifecycleAction.action_id) action_ids in
  ((index + 1)%N, action_ids,
   push_if (negb (is_new && valid_lifecycle_action provider_ids action)) ModelIssueCode.InvalidLifecycle
     "Lifecycle action {:?} does not match the frozen Lifecycle Binding v1 contract."
   ++ inspect_expression action.(CompiledLifecycleAction.inputs)).

Definition valid_hook_steps (node_ids : gset string) (hook : CompiledLifecycleHook) : bool :=
  match hook.(CompiledLifecycleHook.step_ids) with
  | None => true
  | Some step_ids =>
      is_step hook.(CompiledLifecycleHook.event) && negb (is_empty step_ids)
      && forallb (λ id, bool_decide (id ∈ node_ids)) step_ids && no_repeats step_ids
  end.

(** The loop over the hooks; its state is the set of events and [action_ids]. *)
Definition check_lifecycle_hook (node_ids provider_ids : gset string)
    (state : list LifecycleEventName * gset string) (hook : CompiledLifecycleHook) :
    list LifecycleEventName * gset string * list ModelIssue :=
  let '(events, action_ids) := state in
  let named := hook.(CompiledLifecycleHook.hook_id) == lifecycle_hook_id hook.(CompiledLifecycleHook.event) in
  let is_new := negb (bool_decide (hook.(CompiledLifecycleHook.event) ∈ events)) in
  let events := if named then hook.(CompiledLifecycleHook.event) :: events else events in
  if negb named || negb is_new || negb (valid_hook_steps node_ids hook)
     || is_empty hook.(CompiledLifecycleHook.actions) || (64 <? len hook.(CompiledLifecycleHook.actions))%N
  then (events, action_ids,
        [issue ModelIssueCode.InvalidLifecycle
           "Lifecycle hook {:?} does not match the frozen Lifecycle Binding v1 contract."])
  else
    let '(_, action_ids, issues) :=
      scan_issues (check_lifecycle_action hook.(CompiledLifecycleHook.hook_id) provider_ids) (0%N, action_ids) hook.(CompiledLifecycleHook.actions) in
    (events, action_ids, issues).

Definition inspect_lifecycle_contract (workflow : CompiledWorkflowDefinition) : list ModelIssue :=
  match workflow.(CompiledWorkflowDefinition.lifecycle) with
  | None => []
  | Some lifecycle =>
      if negb (version_in workflow 11 21) then
        [issue ModelIssueCode.InvalidLifecycle "lifecycle is available only in compiled Model v11 or later."]
      else if negb (lifecycle.(CompiledLifecycleDefinition.profile_version) =? 1)%N || is_empty lifecycle.(CompiledLifecycleDefinition.hooks) || (9 <? len lifecycle.(CompiledLifecycleDefinition.hooks))%N then
        [issue ModelIssueCode.InvalidLifecycle
           "Model v11 lifecycle must use profileVersion 1 and contain 1 to 9 hooks."]
      else
        let node_ids := node_id_set (List.filter (λ (node : CompiledWorkflowNode), node.(CompiledWorkflowNode.handler) == "runtime.script")
                          (workflow.(CompiledWorkflowDefinition.graph).(CompiledWorkflowGraph.nodes) ++ body_nodes workflow)) in
        (scan_issues (check_lifecycle_hook node_ids (reusable_provider_ids workflow)) ([], ∅) lifecycle.(CompiledLifecycleDefinition.hooks)).2
  end.

(** ** Runtime policies *)

(** The loop of [valid_policy_queue_name]. *)
Fixpoint queue_name_loop (separator : bool) (value : string) : bool :=
  match value with
  | EmptyString => negb separator
  | String character value =>
      if is_separator character then if separator then false else queue_name_loop true value
      else if is_ascii_lowercase character || is_ascii_digit character then queue_name_loop false value
      else false
  end.
Definition valid_policy_queue_name (value : string) : bool :=
  if str_is_empty value || (128 <? str_len value)%N then false
  else if negb (first_byte is_ascii_lowercase value) then false
  else queue_name_loop false (tail value).

Definition valid_runtime_policy (policy : CompiledRuntimePolicy) : bool :=
  (policy.(CompiledRuntimePolicy.profile_version) =? 1)%N
  && (is_some policy.(CompiledRuntimePolicy.concurrency) || is_some policy.(CompiledRuntimePolicy.timeout_ms) || is_some policy.(CompiledRuntimePolicy.rate_limit) || is_some policy.(CompiledRuntimePolicy.queue))
  && is_none_or policy.(CompiledRuntimePolicy.concurrency) (in_range 1 1000000)
  && is_none_or policy.(CompiledRuntimePolicy.timeout_ms) (in_range 1 31536000000)
  && is_none_or policy.(CompiledRuntimePolicy.rate_limit) (λ (rate : CompiledRateLimitPolicy),
       in_range 1 1000000 rate.(CompiledRateLimitPolicy.count) && in_range 1 31536000000 rate.(CompiledRateLimitPolicy.window_ms)
       && (rate.(CompiledRateLimitPolicy.algorithm) == RateLimitAlgorithm.RollingWindow))
  && is_none_or policy.(CompiledRuntimePolicy.queue) (λ (queue : CompiledQueuePolicy),
       valid_policy_queue_name queue.(CompiledQueuePolicy.name) && (queue.(CompiledQueuePolicy.discipline) == QueueDiscipline.WorkConservingFifo)).

Definition inspect_runtime_policy_contract (workflow : CompiledWorkflowDefinition) : list ModelIssue :=
  match version_in workflow 12 21, workflow.(CompiledWorkflowDefinition.runtime_policy) with
  | true, Some policy =>
      push_if (negb (valid_runtime_policy policy)) ModelIssueCode.InvalidRuntimePolicy
        "Model v12+ runtimePolicy does not match the frozen Runtime Policy v1 contract."
  | true, None => [issue ModelIssueCode.InvalidRuntimePolicy "Compiled Model v12+ requires runtimePolicy."]
  | false, Some _ =>
      [issue ModelIssueCode.InvalidRuntimePolicy "runtimePolicy is unavailable before compiled Model v12."]
  | false, None => []
  end.

(** ** Reusable definitions *)

(** The sets of the loop: [identities], [step_nodes] and [provider_ids]. *)
Definition ReusableSets : Type := gset string * gset string * gset string.

Definition check_reusable_definition (workflow : CompiledWorkflowDefinition)
    (nodes : gmap string CompiledWorkflowNode) (sets : ReusableSets) (definition : CompiledReusableInvocation) :
    ReusableSets * list ModelIssue :=
  let '(identities, step_nodes, provider_ids) := sets in
  let allow_iteration := version_at_least workflow 16 in
  match definition with
  | CompiledReusableInvocation.Step invocation_id node_id alias definition_digest source script_artifact_id props lifecycle =>
      let '(secrets, prop_issues) := reusable_prop_secrets props allow_iteration in
      let runtime_valid := is_some_and (nodes !! node_id) (λ (node : CompiledWorkflowNode),
        (node.(CompiledWorkflowNode.handler) == "runtime.script")
        && is_some_and node.(CompiledWorkflowNode.script_runtime) (λ (runtime : ScriptRuntimeBindings),
             (runtime.(ScriptRuntimeBindings.binding_version) =? 3)%N
             && (runtime.(ScriptRuntimeBindings.bindings) == ["props"; "context"; "attempt"; "services"])
             && (runtime.(ScriptRuntimeBindings.required_secrets) == secrets))) in
      let '(identities, new_identity) := insert_when true ("step:" +:+ invocation_id) identities in
      let '(step_nodes, new_node) := insert_when new_identity node_id step_nodes in
      (identities, step_nodes, provider_ids,
       prop_issues
       ++ push_if (negb (new_node && valid_public_structural_id invocation_id && (invocation_id == node_id)
                         && valid_reusable_alias alias && valid_sha256 definition_digest
                         && valid_portable_path source && valid_id script_artifact_id
                         && is_none_or lifecycle valid_reusable_lifecycle && runtime_valid))
            ModelIssueCode.InvalidReusableDefinition
            "Reusable step invocation {invocation_id:?} does not match the frozen Model v14 contract.")
  | CompiledReusableInvocation.NotificationProvider provider_id alias definition_digest source script_artifact_id props lifecycle =>
      let '(_, prop_issues) := reusable_prop_secrets props allow_iteration in
      let '(identities, new_identity) := insert_when true ("provider:" +:+ provider_id) identities in
      let '(provider_ids, new_provider) := insert_when new_identity provider_id provider_ids in
      (identities, step_nodes, provider_ids,
       prop_issues
       ++ push_if (negb (new_provider && valid_id provider_id && valid_reusable_alias alias
                         && valid_sha256 definition_digest && valid_portable_path source
                         && valid_id script_artifact_id && is_none_or lifecycle valid_reusable_lifecycle))
            ModelIssueCode.InvalidReusableDefinition
            "Reusable notification provider {provider_id:?} does not match the frozen Model v14 contract.")
  end.

(** The deliveries through custom providers, in the order in which the code collects them. *)
Definition used_provider_ids (workflow : CompiledWorkflowDefinition) : list string :=
  flat_map (λ (node : CompiledWorkflowNode), collect_custom_provider_ids node.(CompiledWorkflowNode.inputs)) workflow.(CompiledWorkflowDefinition.graph).(CompiledWorkflowGraph.nodes)
  ++ match workflow.(CompiledWorkflowDefinition.lifecycle) with
     | None => []
     | Some lifecycle =>
         flat_map (λ (hook : CompiledLifecycleHook),
           flat_map (λ (action : CompiledLifecycleAction), collect_custom_provider_ids action.(CompiledLifecycleAction.inputs)) hook.(CompiledLifecycleHook.actions))
           lifecycle.(CompiledLifecycleDefinition.hooks)
     end.

(** The nodes of the reusable steps, and the issues.  The providers are reported in the order of the
    set, which the source leaves open. *)
Definition inspect_reusable_contract (workflow : CompiledWorkflowDefinition) : gset string * list ModelIssue :=
  match workflow.(CompiledWorkflowDefinition.reusable_definitions) with
  | None => (∅, [])
  | Some definitions =>
      let nodes := nodes_by_id (workflow.(CompiledWorkflowDefinition.graph).(CompiledWorkflowGraph.nodes) ++ body_nodes workflow) in
      let '(_, step_nodes, provider_ids, issues) :=
        scan_issues (check_reusable_definition workflow nodes) (∅, ∅, ∅) definitions in
      let used := used_provider_ids workflow in
      (step_nodes,
       push_if (negb (version_in workflow 14 21) || is_empty definitions || (256 <? len definitions)%N)
         ModelIssueCode.InvalidReusableDefinition
         "reusableDefinitions requires between 1 and 256 entries on Model v14 or v15."
       ++ issues
       ++ flat_map (λ provider_id,
            push_if (length (List.filter (λ id, id == provider_id) used) != 1)
              ModelIssueCode.InvalidReusableDefinition
              "Reusable notification provider {provider_id:?} must identify exactly one generic delivery.")
            (elements provider_ids)
       ++ flat_map (λ provider_id,
            push_if (negb (bool_decide (provider_id ∈ provider_ids))) ModelIssueCode.InvalidReusableDefinition
              "Generic notification delivery references unknown provider {used_provider_id:?}.") used)
  end.

(** ** Execution placements *)

Definition valid_execution_target (target : string) : bool :=
  if str_is_empty target || (128 <? str_len target)%N then false
  else
    first_byte is_ascii_lowercase target
    && is_some_and (last_byte target) (λ b, is_ascii_lowercase b || is_ascii_digit b)
    && negb (str_contains "--" target)
    && bytes_all (λ b, is_ascii_lowercase b || is_ascii_digit b || is_byte "-"%char b) target.

(** The loop of [valid_execution_capability]. *)
Fixpoint capability_loop (previous_separator : bool) (capability : string) : bool :=
  match capability with
  | EmptyString => negb previous_separator
  | String byte capability =>
      if is_byte "."%char byte || is_byte "-"%char byte then
        if previous_separator then false else capability_loop true capability
      else if is_ascii_lowercase byte || is_ascii_digit byte then capability_loop false capability
      else false
  end.
Definition valid_execution_capability (capability : string) : bool :=
  if str_is_empty capability || (128 <? str_len capability)%N then false
  else capability_loop true capability.

Definition valid_placement (workflow : CompiledWorkflowDefinition) (node : CompiledWorkflowNode)
    (execution : CompiledExecutionPlacement) : bool :=
  (workflow.(CompiledWorkflowDefinition.schema_version) =? 21)%N && (node.(CompiledWorkflowNode.handler) == "runtime.script")
  && (execution.(CompiledExecutionPlacement.profile_version) =? 1)%N && valid_execution_target execution.(CompiledExecutionPlacement.target)
  && negb (is_empty execution.(CompiledExecutionPlacement.required_capabilities)) && (len execution.(CompiledExecutionPlacement.required_capabilities) <=? 128)%N
  && (head execution.(CompiledExecutionPlacement.required_capabilities) == Some "runtime.script")
  && ascending execution.(CompiledExecutionPlacement.required_capabilities)
  && forallb valid_execution_capability execution.(CompiledExecutionPlacement.required_capabilities).

(** The placement of the step that an action compensates. *)
Definition inherits_placement (forward_nodes : gmap string CompiledWorkflowNode)
    (compensation : CompiledCorrectiveAction) : bool :=
  match compensation.(CompiledCorrectiveAction.for_step_id) ≫= (λ for_step_id, forward_nodes !! for_step_id) with
  | None => false
  | Some forward =>
      CompiledExecutionPlacement.target <$> compensation.(CompiledCorrectiveAction.node).(CompiledWorkflowNode.execution)
      == CompiledExecutionPlacement.target <$> forward.(CompiledWorkflowNode.execution)
  end.

Definition inspect_execution_placement_contract (workflow : CompiledWorkflowDefinition) : list ModelIssue :=
  let sagas := unwrap_or_default workflow.(CompiledWorkflowDefinition.graph).(CompiledWorkflowGraph.sagas) in
  let forward := workflow.(CompiledWorkflowDefinition.graph).(CompiledWorkflowGraph.nodes) ++ body_nodes workflow in
  let nodes := forward ++ flat_map (λ (saga : CompiledSaga),
    CompiledCorrectiveAction.node <$> saga.(CompiledSaga.compensations) ++ saga.(CompiledSaga.cleanup)) sagas in
  push_if ((workflow.(CompiledWorkflowDefinition.schema_version) =? 21)%N
           && forallb (λ (node : CompiledWorkflowNode), is_none node.(CompiledWorkflowNode.execution)) nodes)
    ModelIssueCode.InvalidExecutionPlacement
    "Compiled Model v21 requires at least one explicit execution placement."
  ++ flat_map (λ (node : CompiledWorkflowNode),
       match node.(CompiledWorkflowNode.execution) with
       | None => []
       | Some execution =>
           push_if (negb (valid_placement workflow node execution)) ModelIssueCode.InvalidExecutionPlacement
             "Node {:?} does not match the Model v21 Execution Placement v1 contract."
       end) nodes
  ++ flat_map (λ (saga : CompiledSaga),
       flat_map (λ compensation,
         push_if (negb (inherits_placement (nodes_by_id forward) compensation))
           ModelIssueCode.InvalidExecutionPlacement
           "Compensation {:?} must inherit the execution placement of forward step {:?}.") saga.(CompiledSaga.compensations)) sagas.
