(* ===== verification/GraphContracts.v ===== *)
(** * Contracts of branches, parallel groups, approvals, forks and choices

    model/branch_validation.rs, model/parallel_validation.rs,
    model/approval_validation.rs and model/fork_validation.rs: the parts of the
    graph that the compiler generates must have their canonical shape. *)

From S2P Require Import Prelude GraphSearch Strings Json EventTypes Guards ModelTypes.
From S2P Require Import EngineExternals ModelQueries ModelIssues.

(** [l.iter().enumerate().all(f)]. *)
Definition all_indexed {A} (f : nat → A → bool) (l : list A) : bool := forallb id (imap f l).

(** The edges that carry an identifier, by it: [groups.entry(id).or_default().push(edge)]. *)
Definition group_edges (key : CompiledWorkflowEdge → option string) (edges : list CompiledWorkflowEdge) :
    gmap string (list CompiledWorkflowEdge) :=
  foldl (λ groups edge,
    match key edge with
    | Some id => <[id := default [] (groups !! id) ++ [edge]]> groups
    | None => groups
    end) ∅ edges.

(** [format!("{index}")] of a position. *)
Definition index_text (index : nat) : string := decimal (N.of_nat index).

(** ** Branches *)

(** [selector_branch_id] and the like: the identifier between a prefix and a suffix. *)
Definition structural_id_between (prefix suffix value : string) : option string :=
  rest ← strip_prefix prefix value;
  id ← strip_suffix suffix rest;
  if valid_public_structural_id id then Some id else None.
Definition selector_branch_id (value : string) : option string :=
  structural_id_between "__woml_branch__" "__select" value.
Definition parallel_start_id (value : string) : option string :=
  structural_id_between "__woml_parallel__" "__start" value.
Definition approval_join_id (value : string) : option string :=
  structural_id_between "__woml_approval__" "__join" value.

Definition is_branch_context_reference (expression : ValueExpression) : bool :=
  match expression with
  | ValueExpression.ContextReference path =>
      match path with
      | root :: rest =>
          if root == "trigger" then negb (has_empty_segment rest)
          else if root == "steps" then
            match rest with
            | structural_id :: rest => valid_public_structural_id structural_id && negb (has_empty_segment rest)
            | [] => false
            end
          else false
      | [] => false
      end
  | _ => false
  end.

(** The loop that follows one arm to the result of its branch. *)
Fixpoint branch_route (fuel : nat) (edges : list CompiledWorkflowEdge) (branch_id : string)
    (reaches_result : bool) (visited : gset string) (queue : list string) : bool * gset string :=
  match fuel, queue with
  | O, _ | _, [] => (reaches_result, visited)
  | S fuel, current :: queue =>
      if current == branch_id then branch_route fuel edges branch_id true visited queue
      else if bool_decide (current ∈ visited) then branch_route fuel edges branch_id reaches_result visited queue
      else branch_route fuel edges branch_id reaches_result ({[current]} ∪ visited)
             (as_queue queue (edge_targets edges current))
  end.

(** [route.is_disjoint(other)] for all pairs. *)
Fixpoint pairwise_disjoint (routes : list (gset string)) : bool :=
  match routes with
  | [] => true
  | route :: routes => forallb (λ other, bool_decide (route ## other)) routes && pairwise_disjoint routes
  end.

Definition valid_branch_selector (workflow : CompiledWorkflowDefinition) (nodes : gmap string CompiledWorkflowNode)
    (branch_id : string) (edges : list CompiledWorkflowEdge) : bool :=
  let selector_id := "__woml_branch__" +:+ branch_id +:+ "__select" in
  let selector_outgoing := edges_out_of workflow.(CompiledWorkflowDefinition.graph).(CompiledWorkflowGraph.edges) selector_id in
  valid_public_structural_id branch_id
  && is_some_and (nodes !! selector_id) (λ (node : CompiledWorkflowNode),
       (node.(CompiledWorkflowNode.handler) == "engine.branch-select") && is_empty_object node.(CompiledWorkflowNode.inputs))
  && forallb (λ (edge : CompiledWorkflowEdge), edge.(CompiledWorkflowEdge.from) == selector_id) edges
  && (length selector_outgoing == length edges)
  && forallb (λ (edge : CompiledWorkflowEdge), edge.(CompiledWorkflowEdge.branch_id) == Some branch_id) selector_outgoing.

(** [edges.split_last()]. *)
Definition valid_branch_cases (branch_id : string) (otherwise : CompiledWorkflowEdge)
    (when_edges : list CompiledWorkflowEdge) : bool :=
  negb (is_empty when_edges)
  && all_indexed (λ index (edge : CompiledWorkflowEdge),
       (edge.(CompiledWorkflowEdge.id) == branch_id +:+ ":when:" +:+ index_text index)
       && match edge.(CompiledWorkflowEdge.condition) with EdgeCondition.Boolean value => is_branch_context_reference value | _ => false end)
       when_edges
  && (otherwise.(CompiledWorkflowEdge.id) == branch_id +:+ ":otherwise") && is_always otherwise.(CompiledWorkflowEdge.condition).

Definition valid_branch_result (nodes : gmap string CompiledWorkflowNode) (branch_id : string)
    (edges : list CompiledWorkflowEdge) : bool :=
  let expected_keys : gset string := list_to_set (CompiledWorkflowEdge.id <$> edges) in
  is_some_and (nodes !! branch_id) (λ (node : CompiledWorkflowNode),
    (node.(CompiledWorkflowNode.handler) == "engine.branch-result")
    && match node.(CompiledWorkflowNode.inputs) with
       | ValueExpression.Object fields =>
           (size fields == size expected_keys)
           && forallb (λ entry, bool_decide (entry.1 ∈ expected_keys) && is_branch_context_reference entry.2)
                (map_to_list fields)
       | _ => false
       end).

Definition valid_branch_routes (workflow : CompiledWorkflowDefinition) (branch_id : string)
    (edges : list CompiledWorkflowEdge) : bool :=
  let incoming_result_edges := edges_into workflow.(CompiledWorkflowDefinition.graph).(CompiledWorkflowGraph.edges) branch_id in
  let valid_joins :=
    (length incoming_result_edges == length edges)
    && forallb (λ (edge : CompiledWorkflowEdge), is_none edge.(CompiledWorkflowEdge.branch_id) && is_always edge.(CompiledWorkflowEdge.condition))
         incoming_result_edges in
  let route_sets := (λ (edge : CompiledWorkflowEdge),
    branch_route (search_fuel workflow.(CompiledWorkflowDefinition.graph).(CompiledWorkflowGraph.edges)) workflow.(CompiledWorkflowDefinition.graph).(CompiledWorkflowGraph.edges) branch_id false ∅ [edge.(CompiledWorkflowEdge.to)]) <$> edges in
  valid_joins && forallb (λ route, route.1) route_sets && pairwise_disjoint route_sets.*2
  && forallb (λ (join : CompiledWorkflowEdge),
       length (List.filter (λ route, bool_decide (join.(CompiledWorkflowEdge.from) ∈ route.2)) route_sets) == 1) incoming_result_edges.

Definition inspect_branch_group (workflow : CompiledWorkflowDefinition) (nodes : gmap string CompiledWorkflowNode)
    (branch_id : string) (edges : list CompiledWorkflowEdge) : list ModelIssue :=
  push_if (negb (valid_branch_selector workflow nodes branch_id edges)) ModelIssueCode.InvalidBranchSelector
    "Branch group {branch_id:?} must originate exclusively from its canonical empty selector."
  ++ match reverse edges with
     | [] => [issue ModelIssueCode.InvalidBranchGroup "Branch group {branch_id:?} has no cases."]
     | otherwise :: rest =>
         push_if (negb (valid_branch_cases branch_id otherwise (reverse rest))) ModelIssueCode.InvalidBranchGroup
           "Branch group {branch_id:?} must contain contiguous ordered boolean cases followed by one fallback."
         ++ push_if (negb (valid_branch_result nodes branch_id edges)) ModelIssueCode.InvalidBranchResult
              "Branch result {branch_id:?} must expose one context reference for every branch arm."
         ++ push_if (negb (valid_branch_routes workflow branch_id edges)) ModelIssueCode.InvalidBranchGroup
              "Branch group {branch_id:?} must contain disjoint routes with one ordinary join into its result per arm."
     end.

(** The first loop over the edges. *)
Definition inspect_branch_edge (workflow : CompiledWorkflowDefinition) (control_choice_arm_ids : gset string)
    (edge : CompiledWorkflowEdge) : list ModelIssue :=
  let is_v4_approval_equals :=
    version_at_least workflow 4 && is_some edge.(CompiledWorkflowEdge.approval_id) && is_equals edge.(CompiledWorkflowEdge.condition) in
  push_if (version_at_least workflow 2
           && (is_truthy edge.(CompiledWorkflowEdge.condition) || is_equals edge.(CompiledWorkflowEdge.condition) && negb is_v4_approval_equals))
    ModelIssueCode.UnsupportedEdgeCondition
    "Model v2 edge {:?} uses a condition outside the frozen branch profile."
  ++ push_if ((workflow.(CompiledWorkflowDefinition.schema_version) =? 1)%N && is_boolean edge.(CompiledWorkflowEdge.condition))
       ModelIssueCode.UnsupportedEdgeCondition "Model v1 edge {:?} cannot use a boolean condition."
  ++ push_if (is_none edge.(CompiledWorkflowEdge.branch_id) && is_boolean edge.(CompiledWorkflowEdge.condition)
              && negb (bool_decide (edge.(CompiledWorkflowEdge.id) ∈ control_choice_arm_ids)))
       ModelIssueCode.InvalidBranchGroup "Boolean edge {:?} must carry a branchId.".

Definition inspect_branch_node (groups : gmap string (list CompiledWorkflowEdge)) (node : CompiledWorkflowNode) :
    list ModelIssue :=
  if node.(CompiledWorkflowNode.handler) == "engine.branch-select" then
    push_if (is_none_or (selector_branch_id node.(CompiledWorkflowNode.id)) (λ id, negb (contains_key groups id)))
      ModelIssueCode.InvalidBranchSelector "Branch selector {:?} has no matching canonical edge group."
  else
    push_if ((node.(CompiledWorkflowNode.handler) == "engine.branch-result") && negb (contains_key groups node.(CompiledWorkflowNode.id)))
      ModelIssueCode.InvalidBranchResult "Branch result {:?} has no matching edge group.".

Definition inspect_branch_contract (workflow : CompiledWorkflowDefinition) : list ModelIssue :=
  let nodes := nodes_by_id workflow.(CompiledWorkflowDefinition.graph).(CompiledWorkflowGraph.nodes) in
  let groups := group_edges CompiledWorkflowEdge.branch_id workflow.(CompiledWorkflowDefinition.graph).(CompiledWorkflowGraph.edges) in
  let control_choice_arm_ids : gset string :=
    list_to_set (flat_map CompiledControlChoice.arm_ids (unwrap_or_default workflow.(CompiledWorkflowDefinition.graph).(CompiledWorkflowGraph.choices))) in
  flat_map (inspect_branch_edge workflow control_choice_arm_ids) workflow.(CompiledWorkflowDefinition.graph).(CompiledWorkflowGraph.edges)
  ++ push_if ((workflow.(CompiledWorkflowDefinition.schema_version) =? 1)%N && negb (size groups == 0)) ModelIssueCode.InvalidBranchGroup
       "Compiled model v1 cannot contain frozen model-v2 branch groups."
  ++ flat_map (λ group, inspect_branch_group workflow nodes group.1 group.2) (btree_iter groups)
  ++ flat_map (inspect_branch_node groups) workflow.(CompiledWorkflowDefinition.graph).(CompiledWorkflowGraph.nodes).

(** ** Parallel groups *)

Definition parallel_start_inputs (node : option CompiledWorkflowNode) (child_count : N) : bool :=
  is_some_and node (λ (node : CompiledWorkflowNode),
    if node.(CompiledWorkflowNode.handler) != "engine.parallel-start" then false
    else
      match node.(CompiledWorkflowNode.inputs) with
      | ValueExpression.Object fields =>
          if size fields != 2 then false
          else
            literal_count_is (fields !! "concurrency") (λ value, (1 <=? value)%N && (value <=? child_count)%N)
            && literal_text_is (fields !! "onError") (λ value, (value == "fail-fast") || (value == "wait-all"))
      | _ => false
      end).

Definition parallel_join_inputs (node : option CompiledWorkflowNode) : bool :=
  is_some_and node (λ (node : CompiledWorkflowNode),
    (node.(CompiledWorkflowNode.handler) == "engine.parallel-join") && is_empty_object node.(CompiledWorkflowNode.inputs)).

Definition inspect_parallel_edge (edge : CompiledWorkflowEdge) : list ModelIssue :=
  push_if (is_some edge.(CompiledWorkflowEdge.parallel_id)
           && (is_some edge.(CompiledWorkflowEdge.branch_id) || is_some edge.(CompiledWorkflowEdge.approval_id) || negb (is_always edge.(CompiledWorkflowEdge.condition))))
    ModelIssueCode.InvalidParallelGroup
    "Parallel edge {:?} must be unconditional and cannot also belong to a branch.".

(** The handlers that may run as children of a group. *)
Definition parallel_child_handler (workflow : CompiledWorkflowDefinition) (handler : string) : bool :=
  (handler == "runtime.script")
  || version_at_least workflow 17 && (handler == "engine.durable-wait")
  || version_at_least workflow 18
     && bool_decide (handler ∈ ["engine.lock-acquire"; "engine.lock-release"; "engine.lock-result"]).

(** An unconditional edge of the group. *)
Definition group_edge (parallel_id : string) (edge : CompiledWorkflowEdge) : bool :=
  (edge.(CompiledWorkflowEdge.parallel_id) == Some parallel_id) && is_none edge.(CompiledWorkflowEdge.branch_id) && is_always edge.(CompiledWorkflowEdge.condition).

Definition ordered_parallel_edges (workflow : CompiledWorkflowDefinition) (nodes : gmap string CompiledWorkflowNode)
    (parallel_id : string) (edges child_edges join_edges : list CompiledWorkflowEdge) : bool :=
  negb (is_empty child_edges) && (length join_edges == length child_edges)
  && (length edges == length child_edges * 2)
  && all_indexed (λ index (edge : CompiledWorkflowEdge),
       (edge.(CompiledWorkflowEdge.id) == parallel_id +:+ ":child:" +:+ index_text index) && group_edge parallel_id edge
       && is_some_and (nodes !! edge.(CompiledWorkflowEdge.to)) (λ (node : CompiledWorkflowNode), parallel_child_handler workflow node.(CompiledWorkflowNode.handler)))
       child_edges
  && all_indexed (λ index (edge : CompiledWorkflowEdge),
       (edge.(CompiledWorkflowEdge.id) == parallel_id +:+ ":join:" +:+ index_text index)
       && (CompiledWorkflowEdge.to <$> child_edges !! index == Some edge.(CompiledWorkflowEdge.from)) && group_edge parallel_id edge)
       join_edges.

(** A child is entered from the start and left to the join only. *)
Definition closed_child (workflow : CompiledWorkflowDefinition) (start_id parallel_id child_id : string) : bool :=
  match edges_into workflow.(CompiledWorkflowDefinition.graph).(CompiledWorkflowGraph.edges) child_id, edges_out_of workflow.(CompiledWorkflowDefinition.graph).(CompiledWorkflowGraph.edges) child_id with
  | [incoming], [outgoing] =>
      (incoming.(CompiledWorkflowEdge.from) == start_id) && (incoming.(CompiledWorkflowEdge.parallel_id) == Some parallel_id)
      && (outgoing.(CompiledWorkflowEdge.to) == parallel_id) && (outgoing.(CompiledWorkflowEdge.parallel_id) == Some parallel_id)
  | _, _ => false
  end.

Definition parallel_boundaries (workflow : CompiledWorkflowDefinition) (start_id parallel_id : string)
    (child_edges join_edges : list CompiledWorkflowEdge) : bool :=
  let start_outgoing := edges_out_of workflow.(CompiledWorkflowDefinition.graph).(CompiledWorkflowGraph.edges) start_id in
  let join_incoming := edges_into workflow.(CompiledWorkflowDefinition.graph).(CompiledWorkflowGraph.edges) parallel_id in
  (length start_outgoing == length child_edges)
  && forallb (λ (edge : CompiledWorkflowEdge), edge.(CompiledWorkflowEdge.parallel_id) == Some parallel_id) start_outgoing
  && (length join_incoming == length join_edges)
  && forallb (λ (edge : CompiledWorkflowEdge), edge.(CompiledWorkflowEdge.parallel_id) == Some parallel_id) join_incoming
  && forallb (closed_child workflow start_id parallel_id) (CompiledWorkflowEdge.to <$> child_edges)
  && negb (is_empty (edges_out_of workflow.(CompiledWorkflowDefinition.graph).(CompiledWorkflowGraph.edges) parallel_id)).

(** [child_owners.insert(child_id, parallel_id)] for every child: the owners, and whether some child
    had one. *)
Definition own_children (owned : gset string) (children : list string) : gset string * bool :=
  foldl (λ state child, ({[child]} ∪ state.1, state.2 || bool_decide (child ∈ state.1))) (owned, false) children.

Definition inspect_parallel_group (workflow : CompiledWorkflowDefinition) (nodes : gmap string CompiledWorkflowNode)
    (owned : gset string) (group : string * list CompiledWorkflowEdge) : gset string * list ModelIssue :=
  let '(parallel_id, edges) := group in
  let start_id := parallel_start_node_id parallel_id in
  let child_edges := edges_out_of edges start_id in
  let join_edges := edges_into edges parallel_id in
  let '(owned, duplicate_child) := own_children owned (CompiledWorkflowEdge.to <$> child_edges) in
  (owned,
   push_if (negb (valid_public_structural_id parallel_id
                  && parallel_start_inputs (nodes !! start_id) (len child_edges)
                  && parallel_join_inputs (nodes !! parallel_id)
                  && ordered_parallel_edges workflow nodes parallel_id edges child_edges join_edges
                  && parallel_boundaries workflow start_id parallel_id child_edges join_edges
                  && negb duplicate_child))
     ModelIssueCode.InvalidParallelGroup
     "Parallel group {parallel_id:?} does not match the frozen start, ordered child, join, policy, and concurrency contract.").

Definition inspect_parallel_node (groups : gmap string (list CompiledWorkflowEdge)) (node : CompiledWorkflowNode) :
    list ModelIssue :=
  if node.(CompiledWorkflowNode.handler) == "engine.parallel-start" then
    push_if (is_none_or (parallel_start_id node.(CompiledWorkflowNode.id)) (λ id, negb (contains_key groups id)))
      ModelIssueCode.InvalidParallelGroup "Parallel start {:?} has no matching edge group."
  else
    push_if ((node.(CompiledWorkflowNode.handler) == "engine.parallel-join") && negb (contains_key groups node.(CompiledWorkflowNode.id)))
      ModelIssueCode.InvalidParallelGroup "Parallel join {:?} has no matching edge group.".

Definition inspect_parallel_contract (workflow : CompiledWorkflowDefinition) : list ModelIssue :=
  let nodes := nodes_by_id workflow.(CompiledWorkflowDefinition.graph).(CompiledWorkflowGraph.nodes) in
  let groups := group_edges CompiledWorkflowEdge.parallel_id workflow.(CompiledWorkflowDefinition.graph).(CompiledWorkflowGraph.edges) in
  flat_map inspect_parallel_edge workflow.(CompiledWorkflowDefinition.graph).(CompiledWorkflowGraph.edges)
  ++ push_if (negb (version_at_least workflow 3) && negb (size groups == 0)) ModelIssueCode.InvalidParallelGroup
       "Compiled model v1/v2 cannot contain model-v3 parallel groups."
  ++ (scan_issues (inspect_parallel_group workflow nodes) ∅ (btree_iter groups)).2
  ++ flat_map (inspect_parallel_node groups) workflow.(CompiledWorkflowDefinition.graph).(CompiledWorkflowGraph.nodes).

(** ** Approvals *)

Definition valid_reviewer_role (role : string) : bool :=
  if str_is_empty role || (64 <? str_len role)%N then false
  else
    let valid_segment segment (require_letter : bool) :=
      negb (str_is_empty segment) && (negb require_letter || first_byte is_ascii_lowercase segment)
      && bytes_all (λ b, is_ascii_lowercase b || is_ascii_digit b) segment in
    match split is_separator role with
    | [] => false
    | first :: segments => valid_segment first true && forallb (λ segment, valid_segment segment false) segments
    end.

(** Two neighbouring literals in ascending order. *)
Definition ascending_literals (first second : ValueExpression) : bool :=
  match first, second with
  | ValueExpression.Literal first, ValueExpression.Literal second =>
      match as_str first, as_str second with Some first, Some second => String.ltb first second | _, _ => false end
  | _, _ => false
  end.

Definition valid_rich_review (fields : gmap string ValueExpression) (schema_version : N) : bool :=
  let rich_count := length (List.filter (contains_key fields) ["review"; "requiredApprovals"; "requiredRoles"]) in
  (rich_count == 0)
  || (rich_count == 3) && in_range 20 21 schema_version
     && match fields !! "review" with
        | Some (ValueExpression.ContextReference (root :: step :: _)) => (root == "steps") && valid_public_structural_id step
        | _ => false
        end
     && literal_count_is (fields !! "requiredApprovals") (in_range 1 20)
     && match fields !! "requiredRoles" with
        | Some (ValueExpression.Array items) =>
            (len items <=? 16)%N && forallb (λ item, literal_text_is (Some item) valid_reviewer_role) items
            && windows_all ascending_literals items
        | _ => false
        end.

Definition valid_approval_metadata (metadata : option Map) : bool :=
  is_none_or metadata (λ metadata,
    forallb (λ entry, (entry.1 == "name") || (entry.1 == "description")) metadata
    && forallb (λ entry, is_some_and (as_str entry.2) (λ text, negb (str_is_empty text))) metadata).

Definition approval_wait_inputs (node : option CompiledWorkflowNode) (provider_ids : gset string)
    (schema_version : N) : bool :=
  is_some_and node (λ (node : CompiledWorkflowNode),
    if (node.(CompiledWorkflowNode.handler) != "engine.approval-wait") || is_some node.(CompiledWorkflowNode.timeout_ms) || is_some node.(CompiledWorkflowNode.retry_policy) then false
    else
      match node.(CompiledWorkflowNode.inputs) with
      | ValueExpression.Object fields =>
          if negb (in_range 1 6 (N.of_nat (size fields))) then false
          else if existsb (λ entry, negb (bool_decide (entry.1 ∈ ["timeoutMs"; "onTimeout"; "notifications"; "review";
                    "requiredApprovals"; "requiredRoles"]))) (map_to_list fields)
          then false
          else
            is_none_or (fields !! "timeoutMs") (λ value, literal_count_is (Some value) (in_range 1 9007199254740991))
            && literal_text_is (fields !! "onTimeout") (λ value, (value == "reject") || (value == "fail"))
            && valid_approval_metadata node.(CompiledWorkflowNode.metadata)
            && is_some (approval_notifications node.(CompiledWorkflowNode.id) fields provider_ids)
            && valid_rich_review fields schema_version
      | _ => false
      end).

Definition approval_join_inputs (node : option CompiledWorkflowNode) : bool :=
  is_some_and node (λ (node : CompiledWorkflowNode),
    (node.(CompiledWorkflowNode.handler) == "engine.approval-join") && is_empty_object node.(CompiledWorkflowNode.inputs) && is_none node.(CompiledWorkflowNode.timeout_ms)
    && is_none node.(CompiledWorkflowNode.retry_policy) && is_none node.(CompiledWorkflowNode.metadata)).

Definition is_approval_decision_condition (condition : EdgeCondition) (approval_id decision : string) : bool :=
  match condition with
  | EdgeCondition.Equals (ValueExpression.ContextReference path) (ValueExpression.Literal value) =>
      (path == ["steps"; approval_id; "decision"]) && (as_str value == Some decision)
  | _ => false
  end.

Definition inspect_approval_edge (edge : CompiledWorkflowEdge) : list ModelIssue :=
  match edge.(CompiledWorkflowEdge.approval_id) with
  | Some _ =>
      push_if (is_some edge.(CompiledWorkflowEdge.branch_id) || is_some edge.(CompiledWorkflowEdge.parallel_id)) ModelIssueCode.InvalidApprovalGroup
        "Approval edge {:?} cannot also belong to a branch or parallel group."
  | None =>
      push_if (is_equals edge.(CompiledWorkflowEdge.condition)) ModelIssueCode.InvalidApprovalGroup
        "Equals edge {:?} must carry an approvalId."
  end.

(** [route_is_valid]. *)
Definition valid_approval_route (approval_id join_id decision : string)
    (route join : option CompiledWorkflowEdge) : bool :=
  is_some_and route (λ (route : CompiledWorkflowEdge),
    if (route.(CompiledWorkflowEdge.from) != approval_id) || (route.(CompiledWorkflowEdge.approval_id) != Some approval_id)
       || negb (is_approval_decision_condition route.(CompiledWorkflowEdge.condition) approval_id decision)
    then false
    else if route.(CompiledWorkflowEdge.to) == join_id then is_none join
    else is_some_and join (λ (join_edge : CompiledWorkflowEdge),
      (join_edge.(CompiledWorkflowEdge.from) != approval_id) && (join_edge.(CompiledWorkflowEdge.to) == join_id)
      && (join_edge.(CompiledWorkflowEdge.approval_id) == Some approval_id) && is_always join_edge.(CompiledWorkflowEdge.condition))).

(** The field [key] of the inputs of the wait node. *)
Definition has_input (node : option CompiledWorkflowNode) (key : string) : bool :=
  is_some_and node (λ (node : CompiledWorkflowNode),
    match node.(CompiledWorkflowNode.inputs) with ValueExpression.Object fields => contains_key fields key | _ => false end).

(** The loop over the groups; its state is [rich_approval_count]. *)
Definition inspect_approval_group (workflow : CompiledWorkflowDefinition) (nodes : gmap string CompiledWorkflowNode)
    (rich_approval_count : N) (group : string * list CompiledWorkflowEdge) : N * list ModelIssue :=
  let '(approval_id, edges) := group in
  let join_id := "__woml_approval__" +:+ approval_id +:+ "__join" in
  let wait := nodes !! approval_id in
  let edge_named suffix := List.find (λ (edge : CompiledWorkflowEdge), edge.(CompiledWorkflowEdge.id) == approval_id +:+ suffix) edges in
  let approved_route := edge_named ":approved" in
  let rejected_route := edge_named ":rejected" in
  let routes_are_valid :=
    valid_approval_route approval_id join_id "approved" approved_route (edge_named ":approved:join")
    && valid_approval_route approval_id join_id "rejected" rejected_route (edge_named ":rejected:join") in
  let detour route := is_some_and route (λ (edge : CompiledWorkflowEdge), edge.(CompiledWorkflowEdge.to) != join_id) in
  let expected_edges := 2 + Nat.b2n (detour approved_route) + Nat.b2n (detour rejected_route) in
  let wait_outgoing := edges_out_of workflow.(CompiledWorkflowDefinition.graph).(CompiledWorkflowGraph.edges) approval_id in
  let boundaries_are_closed :=
    (length wait_outgoing == 2)
    && forallb (λ (edge : CompiledWorkflowEdge), edge.(CompiledWorkflowEdge.approval_id) == Some approval_id) wait_outgoing
    && forallb (λ (edge : CompiledWorkflowEdge), edge.(CompiledWorkflowEdge.approval_id) == Some approval_id)
         (edges_into workflow.(CompiledWorkflowDefinition.graph).(CompiledWorkflowGraph.edges) join_id) in
  (if has_input wait "review" then usize_add rich_approval_count 1 else rich_approval_count,
   push_if (has_input wait "notifications" && negb (version_at_least workflow 5))
     ModelIssueCode.InvalidNotificationGroup
     "Approval {approval_id:?} notifications require compiled model v5 or later."
   ++ push_if (negb (valid_public_structural_id approval_id
                     && approval_wait_inputs wait (reusable_provider_ids workflow) workflow.(CompiledWorkflowDefinition.schema_version)
                     && approval_join_inputs (nodes !! join_id) && routes_are_valid
                     && (length edges == expected_edges) && boundaries_are_closed))
        ModelIssueCode.InvalidApprovalGroup
        "Approval group {approval_id:?} does not match the frozen wait, decision-route, empty-arm, and join contract.").

Definition inspect_approval_node (groups : gmap string (list CompiledWorkflowEdge)) (node : CompiledWorkflowNode) :
    list ModelIssue :=
  if (node.(CompiledWorkflowNode.handler) == "engine.approval-wait") && negb (contains_key groups node.(CompiledWorkflowNode.id)) then
    [issue ModelIssueCode.InvalidApprovalGroup "Approval wait {:?} has no matching edge group."]
  else
    push_if ((node.(CompiledWorkflowNode.handler) == "engine.approval-join")
             && is_none_or (approval_join_id node.(CompiledWorkflowNode.id)) (λ id, negb (contains_key groups id)))
      ModelIssueCode.InvalidApprovalGroup "Approval join {:?} has no matching edge group.".

Definition inspect_approval_contract (workflow : CompiledWorkflowDefinition) : list ModelIssue :=
  let nodes := nodes_by_id workflow.(CompiledWorkflowDefinition.graph).(CompiledWorkflowGraph.nodes) in
  let groups := group_edges CompiledWorkflowEdge.approval_id workflow.(CompiledWorkflowDefinition.graph).(CompiledWorkflowGraph.edges) in
  let '(rich_approval_count, group_issues) :=
    scan_issues (inspect_approval_group workflow nodes) 0%N (btree_iter groups) in
  flat_map inspect_approval_edge workflow.(CompiledWorkflowDefinition.graph).(CompiledWorkflowGraph.edges)
  ++ push_if (negb (version_at_least workflow 4) && negb (size groups == 0)) ModelIssueCode.InvalidApprovalGroup
       "Compiled model v1-v3 cannot contain model-v4 approval groups."
  ++ group_issues
  ++ push_if ((workflow.(CompiledWorkflowDefinition.schema_version) =? 20)%N && (rich_approval_count =? 0)%N) ModelIssueCode.InvalidApprovalGroup
       "Compiled Model v20 requires at least one complete rich approval descriptor."
  ++ flat_map (inspect_approval_node groups) workflow.(CompiledWorkflowDefinition.graph).(CompiledWorkflowGraph.nodes).
