(* ===== verification/ForkContracts.v ===== *)
(** * Contracts of forks, choices, context visibility and the settlement

    model/fork_validation.rs, and the check of a choice that it shares with the
    bodies of for-each loops (model/iteration_validation.rs). *)

From S2P Require Import Prelude GraphSearch Strings Json EventTypes Guards ModelTypes.
From S2P Require Import EngineExternals ModelQueries ModelIssues GraphContracts.

(** ** Forks *)

(** The loop that follows a branch from its entry: the nodes on the route, and whether it reached the
    terminal of the branch.  Edges to the join and to the settlement are not followed. *)
Fixpoint fork_route (fuel : nat) (successors : string → list string) (terminal : string)
    (reached_terminal : bool) (route_nodes : gset string) (pending : list string) : bool * gset string :=
  match fuel, pending with
  | O, _ | _, [] => (reached_terminal, route_nodes)
  | S fuel, node_id :: pending =>
      if bool_decide (node_id ∈ route_nodes) then
        fork_route fuel successors terminal reached_terminal route_nodes pending
      else
        let route_nodes := {[node_id]} ∪ route_nodes in
        if node_id == terminal then fork_route fuel successors terminal true route_nodes pending
        else fork_route fuel successors terminal reached_terminal route_nodes (as_stack pending (successors node_id))
  end.

(** What the loops over the forks and over their branches keep. *)
Record ForkState := mkForkState {
  fork_ids : gset string;
  described_fork_nodes : gset string;
  all_owned_terminals : list string;
  all_branch_route_nodes : gset string
}.
Record BranchState := mkBranchState {
  valid : bool;
  branch_ids : gset string;
  terminal_by_branch : gmap string string;
  shared : ForkState
}.

Section forks.
Context (workflow : CompiledWorkflowDefinition) (nodes : gmap string CompiledWorkflowNode).
Context (settlement : CompiledWorkflowSettlement).

Definition fork_successors (fork : CompiledFork) (node_id : string) : list string :=
  CompiledWorkflowEdge.to <$> List.filter (λ (edge : CompiledWorkflowEdge),
    (edge.(CompiledWorkflowEdge.to) != fork.(CompiledFork.join_node_id)) && (edge.(CompiledWorkflowEdge.to) != settlement.(CompiledWorkflowSettlement.node_id))) (edges_out_of workflow.(CompiledWorkflowDefinition.graph).(CompiledWorkflowGraph.edges) node_id).

Definition check_fork_branch (fork : CompiledFork) (state : BranchState) (branch : CompiledForkBranch) : BranchState :=
  let edges := workflow.(CompiledWorkflowDefinition.graph).(CompiledWorkflowGraph.edges) in
  let s := shared state in
  let expected_terminal :=
    "__woml_fork__" +:+ fork.(CompiledFork.fork_id) +:+ "__" +:+ branch.(CompiledForkBranch.branch_id) +:+ "__terminal" in
  let '(ids, is_new) :=
    insert_when (valid_public_structural_id branch.(CompiledForkBranch.branch_id)
                 && negb ((branch.(CompiledForkBranch.branch_id) == "all") || (branch.(CompiledForkBranch.branch_id) == "none")))
      branch.(CompiledForkBranch.branch_id) (branch_ids state) in
  let identity_valid :=
    is_new && (branch.(CompiledForkBranch.terminal_node_id) == expected_terminal) && contains_key nodes branch.(CompiledForkBranch.entry_node_id)
    && empty_control_node (nodes !! branch.(CompiledForkBranch.terminal_node_id)) "engine.fork-branch-terminal" in
  let entry_valid :=
    match edges_into edges branch.(CompiledForkBranch.entry_node_id) with
    | [edge] => (edge.(CompiledWorkflowEdge.from) == fork.(CompiledFork.open_node_id)) && is_always edge.(CompiledWorkflowEdge.condition)
    | _ => false
    end in
  let '(reached_terminal, route_nodes) :=
    fork_route (search_fuel edges) (fork_successors fork) branch.(CompiledForkBranch.terminal_node_id) false ∅ [branch.(CompiledForkBranch.entry_node_id)] in
  {| valid := valid state && identity_valid && entry_valid
       && (reached_terminal && bool_decide (all_branch_route_nodes s ## route_nodes));
     branch_ids := ids;
     terminal_by_branch := <[branch.(CompiledForkBranch.branch_id) := branch.(CompiledForkBranch.terminal_node_id)]> (terminal_by_branch state);
     shared :=
       {| fork_ids := fork_ids s;
          described_fork_nodes := {[branch.(CompiledForkBranch.terminal_node_id)]} ∪ described_fork_nodes s;
          all_owned_terminals := all_owned_terminals s ++ [branch.(CompiledForkBranch.terminal_node_id)];
          all_branch_route_nodes := all_branch_route_nodes s ∪ route_nodes |} |}.

(** The join takes the joined branches, or the fork itself when there are none. *)
Definition valid_fork_join (fork : CompiledFork) (state : BranchState) : bool :=
  let edges := workflow.(CompiledWorkflowDefinition.graph).(CompiledWorkflowGraph.edges) in
  let canonical_joined := CompiledForkBranch.branch_id <$> List.filter (λ (branch : CompiledForkBranch),
    bool_decide (branch.(CompiledForkBranch.branch_id) ∈ fork.(CompiledFork.joined_branch_ids))) fork.(CompiledFork.branches) in
  let expected_join_sources :=
    if is_empty fork.(CompiledFork.joined_branch_ids) then [fork.(CompiledFork.open_node_id)]
    else omap (λ id, terminal_by_branch state !! id) fork.(CompiledFork.joined_branch_ids) in
  (fork.(CompiledFork.joined_branch_ids) == canonical_joined) && no_repeats fork.(CompiledFork.joined_branch_ids)
  && forallb (λ id, bool_decide (id ∈ branch_ids state)) fork.(CompiledFork.joined_branch_ids)
  && forallb (λ (branch : CompiledForkBranch),
       existsb (λ (edge : CompiledWorkflowEdge), (edge.(CompiledWorkflowEdge.to) == branch.(CompiledForkBranch.entry_node_id)) && is_always edge.(CompiledWorkflowEdge.condition))
         (edges_out_of edges fork.(CompiledFork.open_node_id))) fork.(CompiledFork.branches)
  && (CompiledWorkflowEdge.from <$> edges_into edges fork.(CompiledFork.join_node_id) == expected_join_sources)
  && forallb (λ (edge : CompiledWorkflowEdge), is_always edge.(CompiledWorkflowEdge.condition)) (edges_into edges fork.(CompiledFork.join_node_id)).

Definition inspect_fork (s : ForkState) (fork : CompiledFork) : ForkState * list ModelIssue :=
  let '(ids, is_new) := insert_when (valid_public_structural_id fork.(CompiledFork.fork_id)) fork.(CompiledFork.fork_id) (fork_ids s) in
  let opened :=
    is_new && (fork.(CompiledFork.open_node_id) == "__woml_fork__" +:+ fork.(CompiledFork.fork_id) +:+ "__open")
    && (fork.(CompiledFork.join_node_id) == "__woml_fork__" +:+ fork.(CompiledFork.fork_id) +:+ "__join")
    && empty_control_node (nodes !! fork.(CompiledFork.open_node_id)) "engine.fork-open"
    && empty_control_node (nodes !! fork.(CompiledFork.join_node_id)) "engine.fork-join"
    && negb (is_empty fork.(CompiledFork.branches)) in
  let s :=
    {| fork_ids := ids;
       described_fork_nodes := {[fork.(CompiledFork.join_node_id)]} ∪ ({[fork.(CompiledFork.open_node_id)]} ∪ described_fork_nodes s);
       all_owned_terminals := all_owned_terminals s;
       all_branch_route_nodes := all_branch_route_nodes s |} in
  let state := foldl (check_fork_branch fork)
    {| valid := opened; branch_ids := ∅; terminal_by_branch := ∅; shared := s |} fork.(CompiledFork.branches) in
  (shared state,
   push_if (negb (valid state && valid_fork_join fork state)) ModelIssueCode.InvalidForkGraph
     "Fork {:?} does not match the frozen Model v13 ownership, route, and join contract.").
End forks.

(** ** Choices *)

Definition valid_string_cases (choice : CompiledControlChoice) : bool :=
  is_some_and choice.(CompiledControlChoice.string_cases) (λ cases,
    (length cases + 1 == length choice.(CompiledControlChoice.arm_ids)) && negb (is_empty cases)
    && all_indexed (λ index (case : CompiledStringChoiceCase),
         negb (str_is_empty case.(CompiledStringChoiceCase.value)) && (choice.(CompiledControlChoice.arm_ids) !! index == Some case.(CompiledStringChoiceCase.arm_id))) cases
    && no_repeats (CompiledStringChoiceCase.value <$> cases))
  && (choice.(CompiledControlChoice.default_arm_id) == last choice.(CompiledControlChoice.arm_ids)).

(** One arm: its edge out of the selector and its edge into the join. *)
Definition valid_choice_arm (choice : CompiledControlChoice) (selection joins : list CompiledWorkflowEdge)
    (index : nat) (arm_id : string) : bool :=
  starts_with (choice.(CompiledControlChoice.choice_id) +:+ ":") arm_id
  && is_some_and (selection !! index) (λ (edge : CompiledWorkflowEdge),
       (edge.(CompiledWorkflowEdge.id) == arm_id) && is_none edge.(CompiledWorkflowEdge.branch_id) && is_none edge.(CompiledWorkflowEdge.parallel_id) && is_none edge.(CompiledWorkflowEdge.approval_id)
       && if is_some choice.(CompiledControlChoice.string_selector) || (index + 1 == length choice.(CompiledControlChoice.arm_ids))
          then is_always edge.(CompiledWorkflowEdge.condition) else is_boolean edge.(CompiledWorkflowEdge.condition))
  && is_some_and (joins !! index) (λ (edge : CompiledWorkflowEdge),
       (edge.(CompiledWorkflowEdge.id) == arm_id +:+ ":join") && (edge.(CompiledWorkflowEdge.to) == choice.(CompiledControlChoice.join_node_id)) && is_always edge.(CompiledWorkflowEdge.condition)).

(** The result node of a choice over strings: one reference per arm. *)
Definition valid_choice_result (nodes : gmap string CompiledWorkflowNode) (edges : list CompiledWorkflowEdge)
    (reference : ValueExpression → bool) (choice : CompiledControlChoice) (result_node_id : string) : bool :=
  is_some choice.(CompiledControlChoice.string_selector) && valid_public_structural_id result_node_id
  && is_some_and (nodes !! result_node_id) (λ (node : CompiledWorkflowNode),
       (node.(CompiledWorkflowNode.handler) == "engine.choice-result")
       && match node.(CompiledWorkflowNode.inputs) with
          | ValueExpression.Object fields =>
              (size fields == length choice.(CompiledControlChoice.arm_ids))
              && forallb (λ arm_id, is_some_and (fields !! arm_id) reference) choice.(CompiledControlChoice.arm_ids)
          | _ => false
          end)
  && match edges_into edges result_node_id with
     | [edge] => (edge.(CompiledWorkflowEdge.from) == choice.(CompiledControlChoice.join_node_id)) && is_always edge.(CompiledWorkflowEdge.condition)
     | _ => false
     end.

(** A choice but for the uniqueness of its identifier.  [selector] and [reference] are the tests of
    the expressions of a choice over strings. *)
Definition valid_choice (nodes : gmap string CompiledWorkflowNode) (edges : list CompiledWorkflowEdge)
    (selector reference : ValueExpression → bool) (choice : CompiledControlChoice) : bool :=
  let selection := edges_out_of edges choice.(CompiledControlChoice.selector_node_id) in
  let joins := edges_into edges choice.(CompiledControlChoice.join_node_id) in
  let string_contract_valid :=
    match choice.(CompiledControlChoice.string_selector) with
    | Some expression => selector expression && valid_string_cases choice
    | None => is_none choice.(CompiledControlChoice.string_cases) && is_none choice.(CompiledControlChoice.default_arm_id) && is_none choice.(CompiledControlChoice.result_node_id)
    end in
  starts_with "__woml_choice__" choice.(CompiledControlChoice.choice_id)
  && (choice.(CompiledControlChoice.selector_node_id) == choice.(CompiledControlChoice.choice_id) +:+ "__select")
  && (choice.(CompiledControlChoice.join_node_id) == choice.(CompiledControlChoice.choice_id) +:+ "__join")
  && empty_control_node (nodes !! choice.(CompiledControlChoice.selector_node_id)) "engine.choice-select"
  && empty_control_node (nodes !! choice.(CompiledControlChoice.join_node_id)) "engine.choice-join"
  && (2 <=? len choice.(CompiledControlChoice.arm_ids))%N && no_repeats choice.(CompiledControlChoice.arm_ids)
  && (length selection == length choice.(CompiledControlChoice.arm_ids)) && (length joins == length choice.(CompiledControlChoice.arm_ids))
  && string_contract_valid
  && is_none_or choice.(CompiledControlChoice.result_node_id) (valid_choice_result nodes edges reference choice)
  && all_indexed (valid_choice_arm choice selection joins) choice.(CompiledControlChoice.arm_ids).

(** The nodes that a choice describes. *)
Definition choice_nodes (choice : CompiledControlChoice) : list string :=
  choice.(CompiledControlChoice.selector_node_id) :: choice.(CompiledControlChoice.join_node_id) :: option_list choice.(CompiledControlChoice.result_node_id).

Definition is_choice_handler (handler : string) : bool :=
  bool_decide (handler ∈ ["engine.choice-select"; "engine.choice-join"; "engine.choice-result"]).

(** The selector of a choice of the main graph. *)
Definition is_path_reference (expression : ValueExpression) : bool :=
  match expression with ValueExpression.ContextReference path => negb (is_empty path) | _ => false end.

Definition inspect_choice (nodes : gmap string CompiledWorkflowNode) (edges : list CompiledWorkflowEdge)
    (choice_ids : gset string) (choice : CompiledControlChoice) : gset string * list ModelIssue :=
  let '(choice_ids, is_new) :=
    insert_when (starts_with "__woml_choice__" choice.(CompiledControlChoice.choice_id)) choice.(CompiledControlChoice.choice_id) choice_ids in
  (choice_ids,
   push_if (negb (is_new && valid_choice nodes edges is_path_reference is_context_reference choice))
     ModelIssueCode.InvalidControlChoice
     "Control choice {:?} does not match the frozen selector, ordered-arm, and join contract.").

(** ** The whole contract *)

Definition valid_visibility (nodes : gmap string CompiledWorkflowNode) (visibility : list CompiledContextVisibility)
    (script_nodes : list CompiledWorkflowNode) : bool :=
  (length visibility == length script_nodes)
  && forallb (λ pair : CompiledContextVisibility * CompiledWorkflowNode,
       let '(item, node) := pair in
       (item.(CompiledContextVisibility.node_id) == node.(CompiledWorkflowNode.id)) && no_repeats item.(CompiledContextVisibility.step_ids)
       && forallb (λ id, valid_public_structural_id id && contains_key nodes id) item.(CompiledContextVisibility.step_ids))
       (zip visibility script_nodes).

Definition valid_settlement (nodes : gmap string CompiledWorkflowNode) (edges : list CompiledWorkflowEdge)
    (owned_terminals : list string) (settlement : CompiledWorkflowSettlement) : bool :=
  let settlement_incoming := edges_into edges settlement.(CompiledWorkflowSettlement.node_id) in
  let main_edges := List.filter (λ (edge : CompiledWorkflowEdge),
    negb (bool_decide (edge.(CompiledWorkflowEdge.from) ∈ owned_terminals))) settlement_incoming in
  (settlement.(CompiledWorkflowSettlement.node_id) == "__woml_workflow__settlement")
  && empty_control_node (nodes !! settlement.(CompiledWorkflowSettlement.node_id)) "engine.workflow-settlement"
  && contains_key nodes settlement.(CompiledWorkflowSettlement.main_result_node_id)
  && (settlement.(CompiledWorkflowSettlement.owned_branch_terminal_node_ids) == owned_terminals)
  && (length main_edges == 1) && (length settlement_incoming == length owned_terminals + 1)
  && forallb (λ (edge : CompiledWorkflowEdge), is_always edge.(CompiledWorkflowEdge.condition)) settlement_incoming
  && is_empty (edges_out_of edges settlement.(CompiledWorkflowSettlement.node_id)).

Definition is_fork_handler (handler : string) : bool :=
  bool_decide (handler ∈ ["engine.fork-open"; "engine.fork-branch-terminal"; "engine.fork-join"]).

(** The scripts, in graph order. *)
Definition script_nodes (nodes : list CompiledWorkflowNode) : list CompiledWorkflowNode :=
  List.filter (λ (node : CompiledWorkflowNode), node.(CompiledWorkflowNode.handler) == "runtime.script") nodes.

(** The checks of a Model v13 graph, with its descriptors. *)
Definition inspect_fork_graph (workflow : CompiledWorkflowDefinition) (forks : list CompiledFork)
    (choices : list CompiledControlChoice) (visibility : list CompiledContextVisibility)
    (settlement : CompiledWorkflowSettlement) : list ModelIssue :=
  let nodes := nodes_by_id workflow.(CompiledWorkflowDefinition.graph).(CompiledWorkflowGraph.nodes) in
  let edges := workflow.(CompiledWorkflowDefinition.graph).(CompiledWorkflowGraph.edges) in
  let '(state, fork_issues) := scan_issues (inspect_fork workflow nodes settlement) (mkForkState ∅ ∅ [] ∅) forks in
  let described_choice_nodes : gset string := list_to_set (flat_map choice_nodes choices) in
  fork_issues
  ++ flat_map (λ (node : CompiledWorkflowNode),
       push_if (is_fork_handler node.(CompiledWorkflowNode.handler) && negb (bool_decide (node.(CompiledWorkflowNode.id) ∈ described_fork_nodes state)))
         ModelIssueCode.InvalidForkGraph "Fork control node {:?} has no owner descriptor.") workflow.(CompiledWorkflowDefinition.graph).(CompiledWorkflowGraph.nodes)
  ++ (scan_issues (inspect_choice nodes edges) ∅ choices).2
  ++ flat_map (λ (node : CompiledWorkflowNode),
       push_if (is_choice_handler node.(CompiledWorkflowNode.handler) && negb (bool_decide (node.(CompiledWorkflowNode.id) ∈ described_choice_nodes)))
         ModelIssueCode.InvalidControlChoice "Control-choice node {:?} has no descriptor.") workflow.(CompiledWorkflowDefinition.graph).(CompiledWorkflowGraph.nodes)
  ++ push_if (negb (valid_visibility nodes visibility (script_nodes workflow.(CompiledWorkflowDefinition.graph).(CompiledWorkflowGraph.nodes))))
       ModelIssueCode.InvalidContextVisibility
       "Model v13 contextVisibility must describe every runtime.script node once in graph order."
  ++ push_if (negb (valid_settlement nodes edges (all_owned_terminals state) settlement))
       ModelIssueCode.InvalidWorkflowSettlement
       "Model v13 settlement must preserve one main result and depend on the main continuation plus every owned branch terminal.".

Definition inspect_fork_contract (workflow : CompiledWorkflowDefinition) : list ModelIssue :=
  let graph := workflow.(CompiledWorkflowDefinition.graph) in
  if negb (version_at_least workflow 13) then
    push_if (is_some graph.(CompiledWorkflowGraph.forks) || is_some graph.(CompiledWorkflowGraph.choices) || is_some graph.(CompiledWorkflowGraph.context_visibility)
             || is_some graph.(CompiledWorkflowGraph.settlement))
      ModelIssueCode.InvalidForkGraph "Fork graph metadata is available only in compiled Model v13 and later."
  else
    match graph.(CompiledWorkflowGraph.forks), graph.(CompiledWorkflowGraph.choices), graph.(CompiledWorkflowGraph.context_visibility), graph.(CompiledWorkflowGraph.settlement) with
    | Some forks, Some choices, Some visibility, Some settlement =>
        inspect_fork_graph workflow forks choices visibility settlement
    | _, _, _, _ =>
        [issue ModelIssueCode.InvalidForkGraph
           "Model v13 requires forks, choices, contextVisibility, and settlement descriptors."]
    end.
