(* ===== verification/TopologicalOrder.v ===== *)
(** * Kahn's loop

    The validation of a compiled graph counts the nodes it can remove one after
    another, each after all its predecessors.  This file has the loop, and shows
    that it counts every node exactly when the graph has no cycle. *)

From S2P Require Import Prelude GraphSearch.

(** [count -= 1] of a [usize], which wraps in the release profile. *)
Definition usize_pred (n : N) : N := if (n =? 0)%N then (usize_modulus - 1)%N else (n - 1)%N.

Section loop.
Context {K : Type} `{Countable K}.

(** The number of times each of the given nodes is a target.  The length of a vector fits in a
    [usize], so that the count does not overflow. *)
Definition count_targets (ids : gset K) (targets : list K) : gmap K N :=
  foldl (λ counts target, <[target := (default 0 (counts !! target) + 1)%N]> counts) (gset_to_gmap 0%N ids) targets.

(** [for next in targets { let count = remaining.entry(next).or_default(); *count -= 1; if *count == 0
    { queue.push_back(next); } }]: the counts and the nodes that were pushed. *)
Fixpoint release_targets (remaining : gmap K N) (targets : list K) : gmap K N * list K :=
  match targets with
  | [] => (remaining, [])
  | next :: targets =>
      let count := usize_pred (default 0%N (remaining !! next)) in
      let '(remaining, pushed) := release_targets (<[next := count]> remaining) targets in
      (remaining, if (count =? 0)%N then next :: pushed else pushed)
  end.

(** [while let Some(id) = queue.pop_front() { visited += 1; ... }]: [visited].  The fuel is the number
    of nodes that may be popped. *)
Fixpoint count_topological (fuel : nat) (successors : K → list K) (remaining : gmap K N) (queue : list K) : N :=
  match fuel, queue with
  | O, _ | _, [] => 0
  | S fuel, id :: queue =>
      let '(remaining, pushed) := release_targets remaining (successors id) in
      (1 + count_topological fuel successors remaining (as_queue queue pushed))%N
  end.

(** ** Counting *)

Definition rem (remaining : gmap K N) (id : K) : N := default 0%N (remaining !! id).
Definition target_count (id : K) (l : list K) : nat := length (List.filter (λ x, x == id) l).

Lemma target_count_zero id l : target_count id l = 0 ↔ id ∉ l.
Proof.
  unfold target_count. induction l as [|x l IH]; simpl; [set_solver|].
  case_bool_decide; simpl; rewrite not_elem_of_cons; [subst; intuition lia|]. rewrite IH. naive_solver.
Qed.

Lemma rem_count_targets ids targets id : rem (count_targets ids targets) id = N.of_nat (target_count id targets).
Proof.
  unfold count_targets. induction targets as [|t l IH] using rev_ind.
  - unfold rem, target_count. simpl. rewrite lookup_gset_to_gmap. by case_guard.
  - rewrite foldl_snoc. unfold rem, target_count in *. rewrite List.filter_app, length_app. simpl.
    destruct (decide (t = id)) as [->|Hne].
    + rewrite lookup_insert_eq. rewrite bool_decide_true by done. simpl. rewrite IH. lia.
    + rewrite lookup_insert_ne by done. rewrite bool_decide_false by done. simpl. rewrite IH. lia.
Qed.

(** Releasing takes each target's target_count off its count; the targets whose count reaches zero are
    pushed once. *)
Lemma release_targets_spec targets remaining remaining' pushed :
  (∀ id, (N.of_nat (target_count id targets) ≤ rem remaining id)%N) →
  release_targets remaining targets = (remaining', pushed) →
  (∀ id, rem remaining' id = (rem remaining id - N.of_nat (target_count id targets))%N)
  ∧ NoDup pushed
  ∧ ∀ id, id ∈ pushed ↔ id ∈ targets ∧ rem remaining id = N.of_nat (target_count id targets).
Proof.
  revert remaining remaining' pushed. induction targets as [|t l IH]; intros r r' p Hle; simpl.
  { intros [= <- <-]. split_and!; [|constructor|set_solver]. intros id. unfold target_count. simpl. lia. }
  assert (∀ id, target_count id (t :: l) = (if decide (t = id) then 1 else 0) + target_count id l) as Hocc.
  { intros id. unfold target_count. simpl. case_bool_decide; case_decide; simpl; done. }
  set (count := usize_pred (default 0%N (r !! t))).
  assert (count = (rem r t - 1)%N ∧ (1 ≤ rem r t)%N) as [Hcount Hpos].
  { specialize (Hle t). rewrite Hocc, decide_True in Hle by done. unfold count, usize_pred, rem in *.
    destruct (N.eqb_spec (default 0 (r !! t)) 0)%N; lia. }
  destruct (release_targets _ l) as [r1 p1] eqn:Hrel. intros [= <- <-].
  assert (∀ id, rem (<[t:=count]> r) id = if decide (t = id) then count else rem r id) as Hrem.
  { intros id. unfold rem. case_decide; [subst; by rewrite lookup_insert_eq|by rewrite lookup_insert_ne]. }
  destruct (IH _ _ _ ltac:(intros id; rewrite Hrem; specialize (Hle id); rewrite Hocc in Hle; case_decide; subst; lia) Hrel)
    as (Hr & Hnd & Hp). clear IH Hrel. split_and!.
  - intros id. rewrite Hr, Hrem, Hocc. case_decide; subst; lia.
  - destruct (N.eqb_spec count 0); [|done]. constructor; [|done]. rewrite Hp. intros [Hin%target_count_zero _]; [done|].
    specialize (Hle t). rewrite Hocc, decide_True in Hle by done. lia.
  - intros id. specialize (Hle id). rewrite Hocc in *.
    assert (id ∈ p1 ↔ id ∈ l ∧ (if decide (t = id) then count else rem r id) = N.of_nat (target_count id l)) as Hp'
      by (rewrite Hp, Hrem; done).
    pose proof (target_count_zero id l) as Hz.
    destruct (decide (t = id)) as [<-|Hne]; destruct (N.eqb_spec count 0) as [Hc|Hc]; rewrite ?elem_of_cons, Hp'.
    + split; intros _; [split; [by left|lia]|by left].
    + split; [intros [? ?]; split; [by left|lia]|]. intros [_ ?]. split; [|lia].
      destruct (decide (t ∈ l)) as [|Hn%Hz]; [done|lia].
    + simpl. split; [intros [?|?]; [done|]; tauto|]. intros [[?|?] ?]; [done|tauto].
    + simpl. split; [tauto|]. intros [[?|?] ?]; [done|tauto].
Qed.
End loop.

(** ** The order *)

Section order.
Context {K : Type} `{Countable K} {E : Type} (src dst : E → K) (edges : list E) (nodes : gset K).
Context (Hknown : ∀ e, e ∈ edges → src e ∈ nodes ∧ dst e ∈ nodes).

Definition targets_of (id : K) : list K := dst <$> List.filter (λ e, src e == id) edges.

(** The edges into a node from nodes that have not been removed. *)
Definition pending (removed : list K) (id : K) : nat :=
  length (List.filter (λ e, (dst e == id) && negb (bool_decide (src e ∈ removed))) edges).

Lemma pending_nil id : pending [] id = target_count id (dst <$> edges).
Proof using Type.
  clear Hknown. unfold pending, target_count. transitivity (length (List.filter (λ e, dst e == id) edges)).
  - f_equal. apply List.filter_ext. intros e. rewrite (bool_decide_false (src e ∈ [])) by apply not_elem_of_nil.
    apply andb_true_r.
  - induction edges as [|e l IH]; [done|]. csimpl. case_bool_decide; csimpl; by rewrite IH.
Qed.

Lemma pending_zero removed id : pending removed id = 0 ↔ ∀ e, e ∈ edges → dst e = id → src e ∈ removed.
Proof using Type.
  clear Hknown. unfold pending. rewrite length_zero_iff_nil. split.
  - intros Hz e He Hd. destruct (decide (src e ∈ removed)) as [|Hn]; [done|].
    assert (e ∈ List.filter (λ e, (dst e == id) && negb (bool_decide (src e ∈ removed))) edges) as Hin.
    { apply elem_of_filterb. split; [done|]. by rewrite bool_decide_true, bool_decide_false. }
    rewrite Hz in Hin. set_solver.
  - intros Hall. destruct (List.filter _ edges) as [|e l] eqn:Hf; [done|]. exfalso.
    assert (e ∈ List.filter (λ e, (dst e == id) && negb (bool_decide (src e ∈ removed))) edges) as Hin.
    { rewrite Hf. left. }
    apply elem_of_filterb in Hin as [He [Hd%bool_decide_eq_true Hs%negb_true_iff%bool_decide_eq_false]%andb_true_iff].
    auto.
Qed.

(** Removing a node takes its edges off the pending ones. *)
Lemma pending_remove removed x id :
  x ∉ removed → pending removed id = pending (removed ++ [x]) id + target_count id (targets_of x).
Proof using Type.
  clear Hknown. intros Hx. unfold pending, targets_of, target_count. induction edges as [|e l IH]; csimpl; [done|].
  rewrite !(bool_decide_ext (src e ∈ removed ++ [x]) (src e ∈ removed ∨ src e = x)) by set_solver.
  destruct (decide (src e = x)) as [Hs|Hs].
  - rewrite (bool_decide_true (src e = x)), (bool_decide_false (src e ∈ removed)),
      (bool_decide_true (_ ∨ _)) by set_solver. csimpl.
    rewrite andb_false_r, andb_true_r. case_bool_decide; simpl; lia.
  - rewrite (bool_decide_false (src e = x)) by done.
    rewrite (bool_decide_ext (_ ∨ _) (src e ∈ removed)) by naive_solver.
    destruct (_ && _); simpl; lia.
Qed.

(** Every node comes after its predecessors. *)
Definition ordered (order : list K) : Prop :=
  ∀ k y, order !! k = Some y → ∀ e, e ∈ edges → dst e = y → src e ∈ take k order.

(** What holds when [removed] have been popped and [queue] remains. *)
Record kahn_inv (removed queue : list K) (remaining : gmap K N) : Prop := {
  kahn_distinct : NoDup (removed ++ queue);
  kahn_nodes : ∀ id, id ∈ removed ++ queue → id ∈ nodes;
  kahn_counts : ∀ id, rem remaining id = N.of_nat (pending removed id);
  kahn_free : ∀ id, id ∈ nodes → pending removed id = 0 ↔ id ∈ removed ++ queue;
  kahn_ordered : ordered removed;
}.

Lemma ordered_snoc removed x : ordered removed → pending removed x = 0 → ordered (removed ++ [x]).
Proof using Type.
  clear Hknown. intros Ho Hx k y Hk e He Hd. apply lookup_snoc_Some in Hk as [[Hlt Hk]|[-> ->]].
  - rewrite take_app_le by lia. by eapply Ho.
  - rewrite take_app_length. by eapply pending_zero.
Qed.

(** Popping a node keeps the invariant. *)
Lemma kahn_step removed x queue remaining remaining' pushed :
  kahn_inv removed (x :: queue) remaining → release_targets remaining (targets_of x) = (remaining', pushed) →
  kahn_inv (removed ++ [x]) (queue ++ pushed) remaining'.
Proof.
  intros [Hnd Hnodes Hcounts Hfree Hord] Hrel.
  assert (x ∉ removed) as Hx by (apply NoDup_app in Hnd; set_solver).
  assert (∀ id, pending removed id = pending (removed ++ [x]) id + target_count id (targets_of x)) as Hpend
    by (intros id; by apply pending_remove).
  assert (∀ id, N.of_nat (target_count id (targets_of x)) ≤ rem remaining id)%N as Hle
    by (intros id; rewrite Hcounts, (Hpend id); lia).
  destruct (release_targets_spec _ _ _ _ Hle Hrel) as (Hr & Hndp & Hp).
  assert (∀ id, id ∈ targets_of x → id ∈ nodes) as Htn.
  { intros id (e & -> & [He _]%elem_of_filterb)%list_elem_of_fmap. by apply Hknown. }
  assert (∀ id, id ∈ pushed → id ∈ nodes ∧ id ∉ removed ++ x :: queue ∧ pending (removed ++ [x]) id = 0) as Hpushed.
  { intros id [Hin Heq]%Hp. rewrite Hcounts in Heq. apply Nat2N.inj in Heq.
    assert (target_count id (targets_of x) ≠ 0) by (rewrite target_count_zero; auto).
    specialize (Hpend id). split_and!; [auto| |lia]. intros Hq%Hfree; [lia|auto]. }
  assert (removed ++ x :: queue = (removed ++ [x]) ++ queue) as Hsplit by by rewrite <-(assoc app).
  split.
  - rewrite (assoc app), <-Hsplit. apply NoDup_app. split_and!; [done| |done]. intros id Hin Hp'. by apply Hpushed in Hp' as (_ & ? & _).
  - intros id. rewrite (assoc app), <-Hsplit, elem_of_app. intros [?|?%Hpushed]; naive_solver.
  - intros id. rewrite Hr, Hcounts, (Hpend id). lia.
  - intros id Hid. rewrite (assoc app), <-Hsplit, elem_of_app, <-Hfree, Hp, Hcounts by done. specialize (Hpend id).
    destruct (decide (id ∈ targets_of x)) as [Hin|Hin].
    + split; [intros; right; split; [done|lia]|]. intros [?|[_ ?]]; lia.
    + apply target_count_zero in Hin as Hz. split; [intros; left; lia|]. intros [?|[? _]]; [lia|done].
  - apply ordered_snoc; [done|]. apply Hfree; [apply Hnodes; set_solver|set_solver].
Qed.

(** The nodes popped so far fit in the graph. *)
Lemma kahn_size removed queue remaining :
  kahn_inv removed queue remaining → length removed + length queue ≤ size nodes.
Proof using Type.
  clear Hknown. intros [Hnd Hn _ _ _]. rewrite <-length_app.
  rewrite <-(size_list_to_set (C := gset K) (removed ++ queue)) by done. apply subseteq_size. set_solver.
Qed.

(** With enough fuel the loop pops an order that cannot be extended. *)
Lemma count_topological_spec fuel removed queue remaining :
  kahn_inv removed queue remaining → size nodes ≤ length removed + fuel →
  ∃ order remaining', kahn_inv order [] remaining'
    ∧ (N.of_nat (length removed) + count_topological fuel targets_of remaining queue = N.of_nat (length order))%N.
Proof.
  revert removed queue remaining. induction fuel as [|fuel IH]; intros removed queue remaining Hinv Hfuel; simpl.
  - apply kahn_size in Hinv as Hs. destruct queue as [|x queue]; [|simpl in Hs; lia].
    exists removed, remaining. split; [done|lia].
  - destruct queue as [|x queue]; [exists removed, remaining; split; [done|lia]|].
    destruct (release_targets remaining (targets_of x)) as [remaining' pushed] eqn:Hrel.
    destruct (IH _ _ _ (kahn_step _ _ _ _ _ _ Hinv Hrel)) as (order & r & Hr & Hc).
    { rewrite length_app. simpl. lia. }
    exists order, r. split; [done|]. rewrite length_app in Hc. simpl in Hc. unfold as_queue. lia.
Qed.

(** The initial state. *)
Lemma kahn_init ids :
  NoDup ids → list_to_set ids = nodes →
  kahn_inv [] (List.filter (λ id, (rem (count_targets nodes (dst <$> edges)) id =? 0)%N) ids)
    (count_targets nodes (dst <$> edges)).
Proof using Type.
  clear Hknown. intros Hnd Hids. split; simpl.
  - by apply NoDup_filterb.
  - intros id [Hin _]%elem_of_filterb. set_solver.
  - intros id. by rewrite rem_count_targets, pending_nil.
  - intros id Hid. rewrite elem_of_filterb, rem_count_targets, pending_nil, N.eqb_eq. set_solver by lia.
  - intros k y Hk. by rewrite lookup_nil in Hk.
Qed.

(** A numbering along which every edge ascends. *)
Definition ascending_rank (rank : K → nat) : Prop := ∀ e, e ∈ edges → rank (src e) < rank (dst e).

(** An order of all the nodes numbers them. *)
Lemma ordered_rank order remaining :
  kahn_inv order [] remaining → (∀ id, id ∈ nodes → id ∈ order) → ∃ rank, ascending_rank rank.
Proof.
  intros [Hnd _ _ _ Hord] Hall. rewrite app_nil_r in Hnd.
  exists (λ id, default 0 (fst <$> list_find (id =.) order)). intros e He.
  destruct (Hknown e He) as [Hs%Hall Hd%Hall].
  apply list_elem_of_lookup in Hd as [k Hk].
  assert (∀ j y, order !! j = Some y → default 0 (fst <$> list_find (y =.) order) = j) as Hpos.
  { intros j y Hj. rewrite (proj2 (list_find_Some (y =.) order j y)); [done|]. split_and!; [done..|].
    intros j' y' Hj' Hlt <-. assert (j = j') by (by eapply NoDup_lookup). lia. }
  rewrite (Hpos k _ Hk). pose proof (Hord k _ Hk e He eq_refl) as [j [Hj Hlt]%lookup_take_Some]%list_elem_of_lookup.
  by rewrite (Hpos j _ Hj).
Qed.

(** In a graph whose edges ascend, an order that cannot be extended has all the nodes. *)
Lemma rank_ordered rank order remaining :
  kahn_inv order [] remaining → ascending_rank rank → ∀ id, id ∈ nodes → id ∈ order.
Proof.
  intros [_ _ _ Hfree _] Hrank. setoid_rewrite app_nil_r in Hfree.
  enough (∀ n id, rank id < n → id ∈ nodes → id ∈ order) as Hall by (intros id; apply (Hall (S (rank id))); lia).
  induction n as [|n IH]; intros id Hn Hid; [lia|]. apply Hfree; [done|]. apply pending_zero.
  intros e He <-. apply IH; [|by apply Hknown]. specialize (Hrank e He). lia.
Qed.

(** The loop counts every node exactly when the edges ascend along some numbering: when the graph has
    no cycle. *)
Lemma topological_exact ids fuel :
  NoDup ids → list_to_set ids = nodes → size nodes ≤ fuel →
  let counts := count_targets nodes (dst <$> edges) in
  count_topological fuel targets_of counts (List.filter (λ id, (rem counts id =? 0)%N) ids) = N.of_nat (size nodes)
  ↔ ∃ rank, ascending_rank rank.
Proof.
  intros Hnd Hids Hfuel counts.
  destruct (count_topological_spec fuel _ _ _ (kahn_init ids Hnd Hids)) as (order & r & Hinv & Hc); [done|].
  simpl in Hc. rewrite N.add_0_l in Hc. fold counts in Hc. rewrite Hc. clear Hc.
  assert (NoDup order) as Hno by (rewrite <-(app_nil_r order); apply Hinv).
  assert (list_to_set order ⊆ nodes) as Hsub.
  { intros id Hid%elem_of_list_to_set. apply (kahn_nodes _ _ _ Hinv). by rewrite app_nil_r. }
  rewrite <-(size_list_to_set (C := gset K) order) by done. split.
  - intros Hsz%Nat2N.inj. eapply ordered_rank; [done|]. intros id Hid.
    apply (elem_of_list_to_set (C := gset K)).
    replace (list_to_set order : gset K) with nodes; [done|]. symmetry. apply set_eq.
    intros x. split; [apply Hsub|]. intros Hx. destruct (decide (x ∈ (list_to_set order : gset K))) as [|Hn]; [done|].
    assert (size (list_to_set order : gset K) < size nodes); [|lia]. apply subset_size. set_solver.
  - intros [rank Hrank]. do 2 f_equal. apply set_eq. intros id. split; [apply Hsub|].
    intros Hid. apply elem_of_list_to_set. by eapply rank_ordered.
Qed.
End order.
