(* ===== verification/LoopContracts.v ===== *)
(** * Contracts of for-each loops, waits, locks and sagas

    model/iteration_validation.rs, model/wait_validation.rs,
    model/lock_validation.rs and model/saga_validation.rs. *)

From S2P Require Import Prelude GraphSearch Strings Json EventTypes Guards ModelTypes.
From S2P Require Import EngineExternals ModelQueries ModelIssues GraphContracts ForkContracts.
From S2P Require Import TopologicalOrder.

(** ** For-each loops *)

Definition valid_reference_path (path : list string) : bool :=
  negb (is_empty path) && (len path <=? 64)%N && forallb valid_for_each_path_segment path.

Definition valid_for_each_items_reference (expression : ValueExpression) (outer_step_ids : gset string) : bool :=
  match expression with
  | ValueExpression.ContextReference path =>
      valid_reference_path path
      && match path with
         | root :: rest =>
             (root == "trigger")
             || (root == "steps") && is_some_and (head rest) (λ step_id, bool_decide (step_id ∈ outer_step_ids))
         | [] => false
         end
  | _ => false
  end.

Definition valid_for_each_result_reference (outer_step_ids body_node_ids : gset string)
    (expression : ValueExpression) : bool :=
  match expression with
  | ValueExpression.ContextReference path =>
      valid_reference_path path
      && match path with
         | root :: rest =>
             (root == "trigger") || (root == "item")
             || (root == "iteration")
                && match rest with [field] => (field == "index") || (field == "total") | _ => false end
             || (root == "steps")
                && is_some_and (head rest) (λ step_id,
                     bool_decide (step_id ∈ outer_step_ids) || bool_decide (step_id ∈ body_node_ids))
         | [] => false
         end
  | _ => false
  end.

Definition valid_for_each_metadata (metadata : option Map) : bool :=
  is_none_or metadata (λ metadata,
    negb (is_empty metadata) && (len metadata <=? 2)%N
    && forallb (λ entry, ((entry.1 == "name") || (entry.1 == "description"))
         && is_some_and (as_str entry.2) (λ value, negb (str_is_empty value))) metadata).

(** The bindings of a script of the given version. *)
Definition valid_script_runtime (runtime : ScriptRuntimeBindings) (version : N) (bindings : list string) : bool :=
  (runtime.(ScriptRuntimeBindings.binding_version) =? version)%N && (runtime.(ScriptRuntimeBindings.bindings) == bindings).
Definition step_bindings : list string := ["context"; "attempt"; "services"; "secrets"].
Definition reusable_bindings : list string := ["props"; "context"; "attempt"; "services"].

Definition valid_body_handler (handler : string) : bool :=
  bool_decide (handler ∈ ["runtime.script"; "engine.branch-select"; "engine.branch-result"; "engine.choice-select";
    "engine.choice-join"; "engine.choice-result"; "engine.parallel-start"; "engine.parallel-join";
    "engine.lock-acquire"; "engine.lock-release"; "engine.lock-result"]).

Definition valid_body_script (node : CompiledWorkflowNode) : bool :=
  if node.(CompiledWorkflowNode.handler) == "runtime.script" then
    is_script_source node.(CompiledWorkflowNode.inputs) && is_none node.(CompiledWorkflowNode.timeout_ms)
    && is_some_and node.(CompiledWorkflowNode.script_runtime) (λ (runtime : ScriptRuntimeBindings),
         (valid_script_runtime runtime 1 step_bindings || valid_script_runtime runtime 3 reusable_bindings)
         && valid_required_secrets runtime.(ScriptRuntimeBindings.required_secrets))
  else is_none node.(CompiledWorkflowNode.timeout_ms) && is_none node.(CompiledWorkflowNode.retry_policy) && is_none node.(CompiledWorkflowNode.script_runtime).

(** The loop over the nodes of a body: [valid], [node_ids] and [owned_body_ids]. *)
Definition check_body_node (root_node_ids : gset string) (state : bool * gset string * gset string)
    (node : CompiledWorkflowNode) : bool * gset string * gset string * list ModelIssue :=
  let '(valid, node_ids, owned) := state in
  let '(node_ids, new_node) := insert_when (valid_id node.(CompiledWorkflowNode.id)) node.(CompiledWorkflowNode.id) node_ids in
  let '(owned, new_owned) :=
    insert_when (new_node && negb (bool_decide (node.(CompiledWorkflowNode.id) ∈ root_node_ids))) node.(CompiledWorkflowNode.id) owned in
  (valid && (new_owned && valid_body_handler node.(CompiledWorkflowNode.handler) && valid_body_script node), node_ids, owned,
   inspect_expression node.(CompiledWorkflowNode.inputs)).

(** One edge of a body, but for the uniqueness of its identifier. *)
Definition valid_body_edge (outer_step_ids body_node_ids node_ids : gset string) (edge : CompiledWorkflowEdge) : bool :=
  bool_decide (edge.(CompiledWorkflowEdge.from) ∈ node_ids) && bool_decide (edge.(CompiledWorkflowEdge.to) ∈ node_ids) && is_none edge.(CompiledWorkflowEdge.approval_id)
  && is_none_or edge.(CompiledWorkflowEdge.branch_id) (λ branch_id,
       (edge.(CompiledWorkflowEdge.from) == "__woml_branch__" +:+ branch_id +:+ "__select") && starts_with (branch_id +:+ ":") edge.(CompiledWorkflowEdge.id))
  && match edge.(CompiledWorkflowEdge.condition) with
     | EdgeCondition.Always => true
     | EdgeCondition.Boolean value => valid_for_each_result_reference outer_step_ids body_node_ids value
     | EdgeCondition.Truthy _ | EdgeCondition.Equals _ _ => false
     end.

(** The loop over the edges of a body; the state is [edge_ids] and [valid]. *)
Definition check_body_edge (outer_step_ids body_node_ids node_ids : gset string) (state : gset string * bool)
    (edge : CompiledWorkflowEdge) : gset string * bool :=
  let '(edge_ids, valid) := state in
  let '(edge_ids, is_new) := insert_when (valid_id edge.(CompiledWorkflowEdge.id)) edge.(CompiledWorkflowEdge.id) edge_ids in
  (edge_ids, valid && (is_new && valid_body_edge outer_step_ids body_node_ids node_ids edge)).

(** One entry without incoming edges, one terminal, every node reachable, no cycle.  [edges] are the
    edges between nodes of the body. *)
Definition valid_body_graph (body : CompiledForEachBody) (node_ids : gset string) (edges : list CompiledWorkflowEdge) : bool :=
  let counts := count_targets node_ids (CompiledWorkflowEdge.to <$> edges) in
  let ready := List.filter (λ id, counts !! id == Some 0%N) (elements node_ids) in
  let terminals := List.filter (λ id, is_empty (edge_targets edges id)) (elements node_ids) in
  negb (is_empty body.(CompiledForEachBody.nodes))
  && match body.(CompiledForEachBody.entry_node_ids) with
     | [entry] =>
         bool_decide (entry ∈ node_ids) && is_empty (edges_into edges entry)
         && (size (explore (search_fuel edges) (edge_targets edges) ∅ [entry]) == size node_ids)
     | _ => false
     end
  && bool_decide (body.(CompiledForEachBody.terminal_node_id) ∈ node_ids)
  && (terminals == [body.(CompiledForEachBody.terminal_node_id)])
  && (count_topological (size node_ids) (edge_targets edges) counts ready =? N.of_nat (size node_ids))%N.

(** The choices of a body. *)
Definition valid_body_choices (body : CompiledForEachBody) (nodes : gmap string CompiledWorkflowNode)
    (edges : list CompiledWorkflowEdge) (reference : ValueExpression → bool) : bool :=
  no_repeats (CompiledControlChoice.choice_id <$> body.(CompiledForEachBody.choices))
  && forallb (valid_choice nodes edges reference reference) body.(CompiledForEachBody.choices)
  && forallb (λ (node : CompiledWorkflowNode),
       negb (is_choice_handler node.(CompiledWorkflowNode.handler)) || bool_decide (node.(CompiledWorkflowNode.id) ∈ flat_map choice_nodes body.(CompiledForEachBody.choices))) body.(CompiledForEachBody.nodes).

(** [strip_prefix("__woml_branch__").and_then(|value| value.strip_suffix("__select"))]. *)
Definition body_branch_id (id : string) : option string :=
  rest ← strip_prefix "__woml_branch__" id; strip_suffix "__select" rest.

Definition valid_body_branch (nodes : gmap string CompiledWorkflowNode) (edges : list CompiledWorkflowEdge)
    (reference : ValueExpression → bool) (selector : CompiledWorkflowNode) : bool :=
  is_some_and (body_branch_id selector.(CompiledWorkflowNode.id)) (λ branch_id,
    let selections := edges_out_of edges selector.(CompiledWorkflowNode.id) in
    let joins := edges_into edges branch_id in
    (2 <=? len selections)%N
    && all_indexed (λ index (edge : CompiledWorkflowEdge),
         (edge.(CompiledWorkflowEdge.branch_id) == Some branch_id) && starts_with (branch_id +:+ ":") edge.(CompiledWorkflowEdge.id)
         && if index + 1 == length selections then is_always edge.(CompiledWorkflowEdge.condition) else is_boolean edge.(CompiledWorkflowEdge.condition)) selections
    && (length joins == length selections)
    && forallb (λ (edge : CompiledWorkflowEdge), is_none edge.(CompiledWorkflowEdge.branch_id) && is_always edge.(CompiledWorkflowEdge.condition)) joins
    && is_some_and (nodes !! branch_id) (λ (node : CompiledWorkflowNode),
         (node.(CompiledWorkflowNode.handler) == "engine.branch-result")
         && match node.(CompiledWorkflowNode.inputs) with
            | ValueExpression.Object fields =>
                (size fields == length selections)
                && forallb (λ (selection : CompiledWorkflowEdge), is_some_and (fields !! selection.(CompiledWorkflowEdge.id)) reference) selections
            | _ => false
            end)).

(** The branches of a body. *)
Definition valid_body_branches (body : CompiledForEachBody) (nodes : gmap string CompiledWorkflowNode)
    (edges : list CompiledWorkflowEdge) (reference : ValueExpression → bool) : bool :=
  let selectors := List.filter (λ (node : CompiledWorkflowNode), node.(CompiledWorkflowNode.handler) == "engine.branch-select") body.(CompiledForEachBody.nodes) in
  let described := flat_map (λ (selector : CompiledWorkflowNode),
    match body_branch_id selector.(CompiledWorkflowNode.id) with Some branch_id => [selector.(CompiledWorkflowNode.id); branch_id] | None => [] end) selectors in
  forallb (valid_body_branch nodes edges reference) selectors
  && forallb (λ (node : CompiledWorkflowNode),
       negb ((node.(CompiledWorkflowNode.handler) == "engine.branch-select") || (node.(CompiledWorkflowNode.handler) == "engine.branch-result"))
       || bool_decide (node.(CompiledWorkflowNode.id) ∈ described)) body.(CompiledForEachBody.nodes).

Definition valid_body_visibility (body : CompiledForEachBody) (node_ids outer_step_ids : gset string) : bool :=
  (length body.(CompiledForEachBody.context_visibility) == length (script_nodes body.(CompiledForEachBody.nodes)))
  && forallb (λ pair : CompiledContextVisibility * CompiledWorkflowNode,
       let '(visibility, node) := pair in
       (visibility.(CompiledContextVisibility.node_id) == node.(CompiledWorkflowNode.id)) && no_repeats visibility.(CompiledContextVisibility.step_ids)
       && forallb (λ id, (id != node.(CompiledWorkflowNode.id)) && bool_decide (id ∈ node_ids)
                         && negb (bool_decide (id ∈ outer_step_ids))) visibility.(CompiledContextVisibility.step_ids))
       (zip body.(CompiledForEachBody.context_visibility) (script_nodes body.(CompiledForEachBody.nodes))).

(** The nodes and the edge of the main graph that stand for the loop. *)
Definition valid_for_each_boundary (workflow : CompiledWorkflowDefinition) (root_nodes : gmap string CompiledWorkflowNode)
    (descriptor : CompiledForEach) : bool :=
  let boundary := List.filter (λ (edge : CompiledWorkflowEdge),
    (edge.(CompiledWorkflowEdge.from) == descriptor.(CompiledForEach.open_node_id)) || (edge.(CompiledWorkflowEdge.to) == descriptor.(CompiledForEach.result_node_id))) workflow.(CompiledWorkflowDefinition.graph).(CompiledWorkflowGraph.edges) in
  (descriptor.(CompiledForEach.open_node_id) == "__woml_for_each__" +:+ descriptor.(CompiledForEach.for_each_id) +:+ "__open")
  && (descriptor.(CompiledForEach.result_node_id) == descriptor.(CompiledForEach.for_each_id))
  && empty_control_node (root_nodes !! descriptor.(CompiledForEach.open_node_id)) "engine.for-each-open"
  && plain_control_node (root_nodes !! descriptor.(CompiledForEach.result_node_id)) "engine.for-each-result"
  && is_some_and (root_nodes !! descriptor.(CompiledForEach.result_node_id)) (λ (node : CompiledWorkflowNode), same_metadata node.(CompiledWorkflowNode.metadata) descriptor.(CompiledForEach.metadata))
  && match boundary with
     | [edge] =>
         (edge.(CompiledWorkflowEdge.from) == descriptor.(CompiledForEach.open_node_id)) && (edge.(CompiledWorkflowEdge.to) == descriptor.(CompiledForEach.result_node_id)) && is_always edge.(CompiledWorkflowEdge.condition)
         && is_none edge.(CompiledWorkflowEdge.branch_id) && is_none edge.(CompiledWorkflowEdge.parallel_id) && is_none edge.(CompiledWorkflowEdge.approval_id)
     | _ => false
     end.

(** The loop over the descriptors; its state is [descriptor_ids] and [owned_body_ids]. *)
Definition inspect_for_each (workflow : CompiledWorkflowDefinition) (root_nodes : gmap string CompiledWorkflowNode)
    (state : gset string * gset string) (descriptor : CompiledForEach) : gset string * gset string * list ModelIssue :=
  let '(descriptor_ids, owned) := state in
  let body := descriptor.(CompiledForEach.body) in
  let root_node_ids : gset string := dom root_nodes in
  let outer_step_ids : gset string := list_to_set descriptor.(CompiledForEach.outer_step_ids) in
  let body_node_ids := node_id_set body.(CompiledForEachBody.nodes) in
  let reference := valid_for_each_result_reference outer_step_ids body_node_ids in
  let '(descriptor_ids, is_new) :=
    insert_when (valid_public_structural_id descriptor.(CompiledForEach.for_each_id)) descriptor.(CompiledForEach.for_each_id) descriptor_ids in
  let opened :=
    is_new && valid_for_each_boundary workflow root_nodes descriptor
    && valid_for_each_metadata descriptor.(CompiledForEach.metadata) && in_range 1 64 descriptor.(CompiledForEach.concurrency)
    && no_repeats descriptor.(CompiledForEach.outer_step_ids) && bool_decide (outer_step_ids ⊆ root_node_ids)
    && valid_for_each_items_reference descriptor.(CompiledForEach.items) outer_step_ids in
  let '(nodes_valid, node_ids, owned, node_issues) :=
    scan_issues (check_body_node root_node_ids) (true, ∅, owned) body.(CompiledForEachBody.nodes) in
  let '(_, edges_valid) := foldl (check_body_edge outer_step_ids body_node_ids node_ids) (∅, true) body.(CompiledForEachBody.edges) in
  let edges := List.filter (λ (edge : CompiledWorkflowEdge),
    bool_decide (edge.(CompiledWorkflowEdge.from) ∈ node_ids) && bool_decide (edge.(CompiledWorkflowEdge.to) ∈ node_ids)) body.(CompiledForEachBody.edges) in
  let nodes := nodes_by_id body.(CompiledForEachBody.nodes) in
  let valid :=
    opened && nodes_valid && edges_valid && valid_body_graph body node_ids edges
    && valid_body_choices body nodes edges reference && valid_body_branches body nodes edges reference
    && valid_body_visibility body node_ids outer_step_ids && is_none_or descriptor.(CompiledForEach.result) reference in
  (descriptor_ids, owned,
   node_issues
   ++ match descriptor.(CompiledForEach.result) with Some result => inspect_expression result | None => [] end
   ++ push_if (negb valid) ModelIssueCode.InvalidForEach
        "For-each descriptor {:?} does not match the frozen Model v16 boundary, body-DAG, identity, reference, and visibility contract.").

Definition is_for_each_handler (handler : string) : bool :=
  (handler == "engine.for-each-open") || (handler == "engine.for-each-result").

Definition inspect_for_each_descriptors (workflow : CompiledWorkflowDefinition) (descriptors : list CompiledForEach) :
    list ModelIssue :=
  if (256 <? len descriptors)%N then
    [issue ModelIssueCode.InvalidForEach "Compiled models permit at most 256 forEach descriptors."]
  else
    (scan_issues (inspect_for_each workflow (nodes_by_id workflow.(CompiledWorkflowDefinition.graph).(CompiledWorkflowGraph.nodes))) (∅, ∅) descriptors).2
    ++ flat_map (λ (node : CompiledWorkflowNode),
         push_if (is_for_each_handler node.(CompiledWorkflowNode.handler)
                  && negb (existsb (λ (descriptor : CompiledForEach),
                       (node.(CompiledWorkflowNode.id) == descriptor.(CompiledForEach.open_node_id)) || (node.(CompiledWorkflowNode.id) == descriptor.(CompiledForEach.result_node_id))) descriptors))
           ModelIssueCode.InvalidForEach "For-each control node {:?} has no owner descriptor.") workflow.(CompiledWorkflowDefinition.graph).(CompiledWorkflowGraph.nodes).

Definition inspect_for_each_contract (workflow : CompiledWorkflowDefinition) : list ModelIssue :=
  if negb (version_at_least workflow 16) then
    push_if (is_some workflow.(CompiledWorkflowDefinition.graph).(CompiledWorkflowGraph.for_each)) ModelIssueCode.InvalidForEach
      "forEach descriptors are available only in compiled Model v16 and later."
  else
    match unwrap_or_default workflow.(CompiledWorkflowDefinition.graph).(CompiledWorkflowGraph.for_each) with
    | (_ :: _) as descriptors => inspect_for_each_descriptors workflow descriptors
    | [] =>
        if (workflow.(CompiledWorkflowDefinition.schema_version) =? 16)%N then
          [issue ModelIssueCode.InvalidForEach "Compiled Model v16 requires at least one forEach descriptor."]
        else
          push_if (existsb (λ (node : CompiledWorkflowNode), is_for_each_handler node.(CompiledWorkflowNode.handler)) workflow.(CompiledWorkflowDefinition.graph).(CompiledWorkflowGraph.nodes))
            ModelIssueCode.InvalidForEach "forEach execution nodes require matching descriptors."
    end.
