(* ===== verification/DurableContracts.v ===== *)
(** * Contracts of durable waits, locks and sagas

    model/wait_validation.rs, model/lock_validation.rs and
    model/saga_validation.rs. *)

From S2P Require Import Prelude GraphSearch Strings Json EventTypes Guards ModelTypes.
From S2P Require Import EngineExternals ModelQueries ModelIssues GraphContracts ForkContracts.
From S2P Require Import LoopContracts.

(** ** Durable waits *)

Definition valid_wait_reference (value : ValueExpression) : bool :=
  match value with ValueExpression.ContextReference path => valid_reference_path path | _ => false end.

(** [value.rfind(['+', '-'])]: the last position of a sign. *)
Fixpoint last_sign (position : N) (found : option N) (value : string) : option N :=
  match value with
  | EmptyString => found
  | String b value =>
      last_sign (position + 1)
        (if is_byte "+"%char b || is_byte "-"%char b then Some position else found) value
  end.

(** A trimmed, printable text of at most 256 bytes. *)
Definition valid_key_text (value : string) : bool :=
  negb (str_is_empty value) && (str_len value <=? 256)%N && is_trimmed value
  && negb (existsb is_control (chars value)).

(** A segment of a signal name: a lower-case letter, then letters, digits and dashes. *)
Definition valid_signal_name (value : string) : bool :=
  negb (str_is_empty value) && (str_len value <=? 128)%N
  && forallb (first_then is_ascii_lowercase (λ b, is_ascii_lowercase b || is_ascii_digit b || is_byte "-"%char b))
       (split (is_byte "."%char) value).

(** The loop over the signals of a wait, whose names are distinct. *)
Definition valid_wait_signals (signals : list CompiledWaitSignal) : bool :=
  (all_inserting (λ names (signal : CompiledWaitSignal),
     let '(names, is_new) := insert_when (valid_signal_name signal.(CompiledWaitSignal.signal)) signal.(CompiledWaitSignal.signal) names in
     (names, is_new && is_object signal.(CompiledWaitSignal.schema))) ∅ signals).2.

Definition valid_wait_correlation (correlation : ValueExpression) : bool :=
  match correlation with
  | ValueExpression.Literal value => is_some_and (as_str value) valid_key_text
  | ValueExpression.ContextReference _ => valid_wait_reference correlation
  | _ => false
  end.

Section contracts.
Context `{EngineExternals}.

Definition valid_wait_timestamp (value : ValueExpression) : bool :=
  match value with
  | ValueExpression.ContextReference _ => valid_wait_reference value
  | ValueExpression.Literal value =>
      is_some_and (as_str value) (λ value,
        (ends_with "Z" value || is_some_and (last_sign 0 None value) (λ index, (9 <? index)%N)) && is_rfc3339 value)
  | _ => false
  end.

Definition valid_wait_variant (descriptor : CompiledWait) : bool :=
  match descriptor with
  | CompiledWait.Duration _ _ metadata duration_ms =>
      valid_for_each_metadata metadata && in_range 1000 31536000000 duration_ms
  | CompiledWait.Until _ _ metadata at_ => valid_for_each_metadata metadata && valid_wait_timestamp at_
  | CompiledWait.Signal _ _ metadata signals correlation timeout_ms on_timeout =>
      valid_for_each_metadata metadata && in_range 1 16 (len signals) && valid_wait_signals signals
      && valid_wait_correlation correlation && is_none_or timeout_ms (in_range 1000 31536000000)
      && ((on_timeout == "fail") || (on_timeout == "continue"))
  end.

(** The loop over the waits; its state is [wait_ids] and [node_ids]. *)
Definition inspect_wait (wait_nodes : list CompiledWorkflowNode) (state : gset string * gset string)
    (descriptor : CompiledWait) : gset string * gset string * list ModelIssue :=
  let '(wait_ids, node_ids) := state in
  let node := List.find (λ (node : CompiledWorkflowNode), node.(CompiledWorkflowNode.id) == wait_node_id descriptor) wait_nodes in
  let '(wait_ids, new_wait) :=
    insert_when (valid_public_structural_id (wait_id descriptor) && (wait_id descriptor == wait_node_id descriptor))
      (wait_id descriptor) wait_ids in
  let '(node_ids, new_node) := insert_when new_wait (wait_node_id descriptor) node_ids in
  (wait_ids, node_ids,
   push_if (negb (new_node && plain_control_node node "engine.durable-wait" && valid_wait_variant descriptor))
     ModelIssueCode.InvalidDurableWait
     "Durable wait {:?} does not match the frozen Model v17 descriptor contract.").

Definition inspect_durable_wait_contract (workflow : CompiledWorkflowDefinition) : list ModelIssue :=
  if negb (version_at_least workflow 17) then
    push_if (is_some workflow.(CompiledWorkflowDefinition.graph).(CompiledWorkflowGraph.waits)) ModelIssueCode.InvalidDurableWait
      "Durable wait descriptors are available only in compiled Model v17."
  else
    match workflow.(CompiledWorkflowDefinition.graph).(CompiledWorkflowGraph.waits) with
    | None =>
        [issue ModelIssueCode.InvalidDurableWait "Compiled Model v17 requires a waits descriptor collection."]
    | Some waits =>
        if ((workflow.(CompiledWorkflowDefinition.schema_version) =? 17)%N && is_empty waits) || (1024 <? len waits)%N then
          [issue ModelIssueCode.InvalidDurableWait "Compiled Model v17 requires between 1 and 1024 durable waits."]
        else
          let wait_nodes := List.filter (λ (node : CompiledWorkflowNode), node.(CompiledWorkflowNode.handler) == "engine.durable-wait")
            (workflow.(CompiledWorkflowDefinition.graph).(CompiledWorkflowGraph.nodes) ++ body_nodes workflow) in
          let '(_, node_ids, issues) := scan_issues (inspect_wait wait_nodes) (∅, ∅) waits in
          issues
          ++ push_if ((length wait_nodes != length waits)
                      || existsb (λ (node : CompiledWorkflowNode), negb (bool_decide (node.(CompiledWorkflowNode.id) ∈ node_ids))) wait_nodes)
               ModelIssueCode.InvalidDurableWait
               "Model v17 waits must describe every engine.durable-wait node exactly once."
    end.

(** ** Locks *)

Definition valid_lock_key (key : ValueExpression) : bool :=
  match key with
  | ValueExpression.Literal value => is_some_and (as_str value) valid_key_text
  | ValueExpression.Template parts => negb (is_empty parts) && (len parts <=? 65)%N
  | ValueExpression.ContextReference path => negb (is_empty path) && (len path <=? 64)%N
  | _ => false
  end.

(** The loop over the locks; its state is [lock_ids] and [owned_nodes]. *)
Definition inspect_lock (root_node_ids : gset string) (bodies : list (gset string))
    (nodes : gmap string CompiledWorkflowNode) (state : gset string * gset string) (lock : CompiledLock) :
    gset string * gset string * list ModelIssue :=
  let '(lock_ids, owned_nodes) := state in
  let control_ids := [lock.(CompiledLock.acquire_node_id); lock.(CompiledLock.release_node_id); lock.(CompiledLock.result_node_id)] in
  let ownership_ids := control_ids ++ [lock.(CompiledLock.body_entry_node_id); lock.(CompiledLock.body_terminal_node_id)] in
  let within ids := forallb (λ id, bool_decide (id ∈ (ids : gset string))) ownership_ids in
  let '(lock_ids, new_lock) := insert_when (valid_public_structural_id lock.(CompiledLock.lock_id)) lock.(CompiledLock.lock_id) lock_ids in
  let '(owned_nodes, new_nodes) :=
    if new_lock then all_inserting (λ owned id, insert_when true id owned) owned_nodes control_ids
    else (owned_nodes, false) in
  let valid :=
    new_nodes
    && (lock.(CompiledLock.acquire_node_id) == "__woml_lock__" +:+ lock.(CompiledLock.lock_id) +:+ "__acquire")
    && (lock.(CompiledLock.release_node_id) == "__woml_lock__" +:+ lock.(CompiledLock.lock_id) +:+ "__release")
    && (lock.(CompiledLock.result_node_id) == lock.(CompiledLock.lock_id))
    && plain_control_node (nodes !! lock.(CompiledLock.acquire_node_id)) "engine.lock-acquire"
    && plain_control_node (nodes !! lock.(CompiledLock.release_node_id)) "engine.lock-release"
    && plain_control_node (nodes !! lock.(CompiledLock.result_node_id)) "engine.lock-result"
    && contains_key nodes lock.(CompiledLock.body_entry_node_id) && contains_key nodes lock.(CompiledLock.body_terminal_node_id)
    && (within root_node_ids || existsb within bodies) && valid_lock_key lock.(CompiledLock.key)
    && in_range 1000 604800000 lock.(CompiledLock.acquire_timeout_ms) && in_range 5000 600000 lock.(CompiledLock.lease_ms) in
  (lock_ids, owned_nodes,
   push_if (negb valid) ModelIssueCode.InvalidLock
     "Lock {:?} does not match the frozen Model v18 descriptor contract.").

Definition is_lock_handler (handler : string) : bool :=
  bool_decide (handler ∈ ["engine.lock-acquire"; "engine.lock-release"; "engine.lock-result"]).

(** The node sets of the bodies, by loop; the last loop with an identifier wins. *)
Definition body_node_sets (workflow : CompiledWorkflowDefinition) : list (gset string) :=
  let sets : gmap string (gset string) := list_to_map (reverse ((λ (descriptor : CompiledForEach),
    (descriptor.(CompiledForEach.for_each_id), node_id_set descriptor.(CompiledForEach.body).(CompiledForEachBody.nodes))) <$> unwrap_or_default workflow.(CompiledWorkflowDefinition.graph).(CompiledWorkflowGraph.for_each))) in
  btree_values sets.

Definition inspect_lock_contract (workflow : CompiledWorkflowDefinition) : list ModelIssue :=
  if negb (version_at_least workflow 18) then
    push_if (is_some workflow.(CompiledWorkflowDefinition.graph).(CompiledWorkflowGraph.locks)) ModelIssueCode.InvalidLock
      "Lock descriptors are available only in compiled Model v18."
  else
    match workflow.(CompiledWorkflowDefinition.graph).(CompiledWorkflowGraph.locks) with
    | None => [issue ModelIssueCode.InvalidLock "Compiled Model v18 requires a locks descriptor collection."]
    | Some locks =>
        if (1024 <? len locks)%N then
          [issue ModelIssueCode.InvalidLock "Compiled Model v18 supports at most 1024 locks."]
        else
          let all_nodes := workflow.(CompiledWorkflowDefinition.graph).(CompiledWorkflowGraph.nodes) ++ body_nodes workflow in
          (scan_issues (inspect_lock (node_id_set workflow.(CompiledWorkflowDefinition.graph).(CompiledWorkflowGraph.nodes)) (body_node_sets workflow)
             (nodes_by_id all_nodes)) (∅, ∅) locks).2
          ++ push_if (length (List.filter (λ (node : CompiledWorkflowNode), is_lock_handler node.(CompiledWorkflowNode.handler)) all_nodes)
                      != length locks * 3) ModelIssueCode.InvalidLock
               "Model v18 locks must describe every lock control node exactly once."
    end.

(** ** Sagas *)

Definition valid_correction_identity (action : CompiledCorrectiveAction) : bool :=
  match action.(CompiledCorrectiveAction.identity) with
  | CompiledCorrectionIdentity.Static action_id => action_id == action.(CompiledCorrectiveAction.action_id)
  | CompiledCorrectionIdentity.ForEachIteration for_each_id action_id_template =>
      valid_public_structural_id for_each_id && str_contains "{iterationKey}" action_id_template
      && (str_len action_id_template <=? 1024)%N
  end.

Definition valid_corrective_action (compensation : bool) (action : CompiledCorrectiveAction) : bool :=
  let node := action.(CompiledCorrectiveAction.node) in
  valid_correction_identity action
  && negb (str_is_empty action.(CompiledCorrectiveAction.action_id)) && (str_len action.(CompiledCorrectiveAction.action_id) <=? 768)%N
  && (node.(CompiledWorkflowNode.id) == action.(CompiledCorrectiveAction.action_id)) && (node.(CompiledWorkflowNode.handler) == "runtime.script") && is_script_source node.(CompiledWorkflowNode.inputs)
  && is_some_and node.(CompiledWorkflowNode.script_runtime) (λ (runtime : ScriptRuntimeBindings),
       valid_script_runtime runtime 1 step_bindings && valid_required_secrets runtime.(ScriptRuntimeBindings.required_secrets))
  && is_none_or node.(CompiledWorkflowNode.retry_policy) (λ (policy : RetryPolicy),
       in_range 1 10 policy.(RetryPolicy.max_attempts) && is_some (delay_before_attempt policy (N.max policy.(RetryPolicy.max_attempts) 2)))
  && is_none_or node.(CompiledWorkflowNode.timeout_ms) (λ value, (0 <? value)%N)
  && forallb valid_public_structural_id action.(CompiledCorrectiveAction.visible_step_ids) && no_repeats action.(CompiledCorrectiveAction.visible_step_ids)
  && if compensation then is_some_and action.(CompiledCorrectiveAction.for_step_id) valid_public_structural_id
     else is_none action.(CompiledCorrectiveAction.for_step_id).

(** [actions.iter().all(|action| action_ids.insert(action_id) && valid_action(action, compensation))]. *)
Definition check_actions (compensation : bool) (action_ids : gset string) (actions : list CompiledCorrectiveAction) :
    gset string * bool :=
  all_inserting (λ action_ids (action : CompiledCorrectiveAction),
    let '(action_ids, is_new) := insert_when true action.(CompiledCorrectiveAction.action_id) action_ids in
    (action_ids, is_new && valid_corrective_action compensation action)) action_ids actions.

(** The loop over the sagas; its state is [saga_ids] and [action_ids]. *)
Definition inspect_saga (nodes : gmap string CompiledWorkflowNode) (state : gset string * gset string)
    (saga : CompiledSaga) : gset string * gset string * list ModelIssue :=
  let '(saga_ids, action_ids) := state in
  let controls_valid :=
    empty_control_node (nodes !! saga.(CompiledSaga.open_node_id)) "engine.saga-open"
    && empty_control_node (nodes !! saga.(CompiledSaga.commit_node_id)) "engine.saga-commit"
    && plain_control_node (nodes !! saga.(CompiledSaga.result_node_id)) "engine.saga-result" in
  let '(action_ids, compensations_valid) := check_actions true action_ids saga.(CompiledSaga.compensations) in
  let '(action_ids, actions_valid) :=
    if compensations_valid then check_actions false action_ids saga.(CompiledSaga.cleanup) else (action_ids, false) in
  let '(saga_ids, is_new) := insert_when (valid_public_structural_id saga.(CompiledSaga.saga_id)) saga.(CompiledSaga.saga_id) saga_ids in
  let valid :=
    is_new
    && (saga.(CompiledSaga.open_node_id) == "__woml_saga__" +:+ saga.(CompiledSaga.saga_id) +:+ "__open")
    && (saga.(CompiledSaga.commit_node_id) == "__woml_saga__" +:+ saga.(CompiledSaga.saga_id) +:+ "__commit")
    && (saga.(CompiledSaga.result_node_id) == saga.(CompiledSaga.saga_id)) && controls_valid
    && contains_key nodes saga.(CompiledSaga.body_entry_node_id) && contains_key nodes saga.(CompiledSaga.body_terminal_node_id)
    && contains_key nodes saga.(CompiledSaga.body_result_node_id)
    && (len saga.(CompiledSaga.compensations) <=? 256)%N && (len saga.(CompiledSaga.cleanup) <=? 64)%N && actions_valid in
  (saga_ids, action_ids,
   push_if (negb valid) ModelIssueCode.InvalidSaga
     "Saga {:?} does not match the frozen Model v19 descriptor contract.").

Definition is_saga_handler (handler : string) : bool :=
  bool_decide (handler ∈ ["engine.saga-open"; "engine.saga-commit"; "engine.saga-result"]).

Definition inspect_saga_contract (workflow : CompiledWorkflowDefinition) : list ModelIssue :=
  if negb (version_at_least workflow 19) then
    push_if (is_some workflow.(CompiledWorkflowDefinition.graph).(CompiledWorkflowGraph.sagas)) ModelIssueCode.InvalidSaga
      "Saga descriptors are available only in compiled Model v19."
  else
    match workflow.(CompiledWorkflowDefinition.graph).(CompiledWorkflowGraph.sagas) with
    | None => [issue ModelIssueCode.InvalidSaga "Compiled Model v19 requires a sagas descriptor collection."]
    | Some sagas =>
        if ((workflow.(CompiledWorkflowDefinition.schema_version) =? 19)%N && is_empty sagas) || (64 <? len sagas)%N then
          [issue ModelIssueCode.InvalidSaga
             "Compiled Model v19 requires between 1 and 64 sagas; Model v20 permits an empty inherited collection."]
        else
          let described_controls : gset string := list_to_set (flat_map (λ (saga : CompiledSaga),
            [saga.(CompiledSaga.open_node_id); saga.(CompiledSaga.commit_node_id); saga.(CompiledSaga.result_node_id)]) sagas) in
          let controls := node_id_set
            (List.filter (λ (node : CompiledWorkflowNode), is_saga_handler node.(CompiledWorkflowNode.handler)) workflow.(CompiledWorkflowDefinition.graph).(CompiledWorkflowGraph.nodes)) in
          (scan_issues (inspect_saga (nodes_by_id workflow.(CompiledWorkflowDefinition.graph).(CompiledWorkflowGraph.nodes))) (∅, ∅) sagas).2
          ++ push_if (controls != described_controls) ModelIssueCode.InvalidSaga
               "Model v19 sagas must describe every saga control node exactly once."
    end.
End contracts.
