(* ===== verification/ModelValidation.v ===== *)
(** * Validation of a compiled definition

    model/validation.rs: [inspect_structure] checks the identifiers, the graph
    and every contract; [inspect_executable_profile] checks that the engine can
    run the definition. *)

From S2P Require Import Prelude GraphSearch Strings Json EventTypes Guards ModelTypes.
From S2P Require Import EngineExternals ModelQueries ModelIssues ModelContracts GraphContracts.
From S2P Require Import ForkContracts TopologicalOrder LoopContracts DurableContracts.

(** [RetryPolicy::MAX_ATTEMPTS] and [RetryPolicy::MAX_DELAY_MS], model/policies.rs. *)
Definition MAX_ATTEMPTS : N := 10.
Definition MAX_DELAY_MS : N := 86400000.

(** The bits of 2.0. *)
Definition f64_two : f64 := 4611686018427387904.

(** ** Head of the definition *)

Definition inspect_identity (workflow : CompiledWorkflowDefinition) : list ModelIssue :=
  push_if (negb (version_in workflow 1 21)) ModelIssueCode.UnsupportedSchemaVersion
    "Unsupported compiled workflow schema version {}."
  ++ push_if (negb (valid_id workflow.(CompiledWorkflowDefinition.workflow_id))) ModelIssueCode.InvalidIdentifier
       "workflowId must contain between 1 and 256 characters."
  ++ match workflow.(CompiledWorkflowDefinition.metadata) with
     | None => []
     | Some metadata =>
         push_if (metadata.(CompiledWorkflowMetadata.name) == Some "") ModelIssueCode.InvalidMetadata
           "metadata.name must not be empty when present."
         ++ push_if (metadata.(CompiledWorkflowMetadata.version) == Some "") ModelIssueCode.InvalidMetadata
              "metadata.version must not be empty when present."
     end.

Definition reserved_module_names : list string :=
  ["http"; "db"; "storage"; "cache"; "events"; "queue"; "workflows"].

Definition valid_module (module : CompiledModuleBinding) : bool :=
  first_then is_ascii_lowercase is_ascii_alphanumeric module.(CompiledModuleBinding.name) && (str_len module.(CompiledModuleBinding.name) <=? 128)%N
  && negb (bool_decide (module.(CompiledModuleBinding.name) ∈ reserved_module_names))
  && valid_sha256 module.(CompiledModuleBinding.bundle_digest) && valid_sha256 module.(CompiledModuleBinding.source_map_digest)
  && negb (is_empty module.(CompiledModuleBinding.exports)) && ascending module.(CompiledModuleBinding.exports)
  && forallb valid_for_each_path_segment module.(CompiledModuleBinding.exports).

Definition valid_module_runtime (runtime : CompiledModuleRuntime) : bool :=
  (runtime.(CompiledModuleRuntime.profile_version) =? 1)%N && in_range 1 64 (len runtime.(CompiledModuleRuntime.modules))
  && ascending (CompiledModuleBinding.name <$> runtime.(CompiledModuleRuntime.modules)) && forallb valid_module runtime.(CompiledModuleRuntime.modules).

Definition inspect_module_runtime (workflow : CompiledWorkflowDefinition) : list ModelIssue :=
  match workflow.(CompiledWorkflowDefinition.module_runtime) with
  | Some runtime =>
      if version_in workflow 9 21 then
        push_if (negb (valid_module_runtime runtime)) ModelIssueCode.InvalidModuleRuntime
          "Model v9 moduleRuntime does not match the frozen Module Runtime v1 contract."
      else
        push_if (negb (version_at_least workflow 9)) ModelIssueCode.InvalidModuleRuntime
          "moduleRuntime is unavailable before Model v9."
  | None =>
      push_if (workflow.(CompiledWorkflowDefinition.schema_version) =? 9)%N ModelIssueCode.InvalidModuleRuntime "Model v9 requires moduleRuntime."
  end.

Definition inspect_trigger_count (workflow : CompiledWorkflowDefinition) : list ModelIssue :=
  push_if (is_empty workflow.(CompiledWorkflowDefinition.triggers) && negb (version_in workflow 10 21)) ModelIssueCode.MissingTrigger
    "A compiled workflow requires at least one trigger."
  ++ push_if ((workflow.(CompiledWorkflowDefinition.schema_version) =? 10)%N && negb (is_empty workflow.(CompiledWorkflowDefinition.triggers)))
       ModelIssueCode.UnsupportedTrigger
       "Compiled Model v10 is the call-only profile and requires an empty triggers array.".

Definition valid_provider_requirement (provider : CompiledCommunicationProviderRequirement) : bool :=
  bool_decide (provider.(CompiledCommunicationProviderRequirement.provider) ∈ ["telegram"; "discord"; "whatsapp"])
  && (negb (is_empty provider.(CompiledCommunicationProviderRequirement.trigger_ids)) || negb (is_empty provider.(CompiledCommunicationProviderRequirement.notification_delivery_ids)) || provider.(CompiledCommunicationProviderRequirement.messaging))
  && forallb valid_id provider.(CompiledCommunicationProviderRequirement.trigger_ids) && forallb valid_id provider.(CompiledCommunicationProviderRequirement.notification_delivery_ids)
  && negb (is_empty provider.(CompiledCommunicationProviderRequirement.credential_names)) && ascending provider.(CompiledCommunicationProviderRequirement.credential_names)
  && forallb valid_secret_name provider.(CompiledCommunicationProviderRequirement.credential_names).

Definition valid_communication (communication : CompiledCommunicationRequirements) : bool :=
  (communication.(CompiledCommunicationRequirements.profile_version) =? 1)%N && negb (is_empty communication.(CompiledCommunicationRequirements.providers))
  && (len communication.(CompiledCommunicationRequirements.providers) <=? 4)%N
  && ascending (CompiledCommunicationProviderRequirement.provider <$> communication.(CompiledCommunicationRequirements.providers))
  && forallb valid_provider_requirement communication.(CompiledCommunicationRequirements.providers).

Definition inspect_communication (workflow : CompiledWorkflowDefinition) : list ModelIssue :=
  match workflow.(CompiledWorkflowDefinition.communication) with
  | Some communication =>
      if version_in workflow 15 21 then
        push_if (negb (valid_communication communication)) ModelIssueCode.InvalidValueExpression
          "Model v15 communication requirements do not match Communication Requirements v1."
      else
        [issue ModelIssueCode.InvalidValueExpression
           "communication requirements are available only on Model v15 or later."]
  | None =>
      push_if (workflow.(CompiledWorkflowDefinition.schema_version) =? 15)%N ModelIssueCode.InvalidValueExpression
        "Model v15 requires communication requirements."
  end.

(** ** Triggers and nodes *)

(** The loop over the triggers; its state is [trigger_ids]. *)
Definition inspect_trigger (workflow : CompiledWorkflowDefinition) (trigger_ids : gset string)
    (trigger : CompiledTrigger) : gset string * list ModelIssue :=
  let '(trigger_ids, is_new) := insert_when true trigger.(CompiledTrigger.id) trigger_ids in
  (trigger_ids,
   push_if (negb (valid_id trigger.(CompiledTrigger.id)) || str_is_empty trigger.(CompiledTrigger.handler) || (512 <? chars_count trigger.(CompiledTrigger.handler))%N)
     ModelIssueCode.InvalidIdentifier "Trigger {:?} has an invalid ID or handler."
   ++ push_if (negb is_new) ModelIssueCode.DuplicateTriggerId "Compiled workflow repeats trigger ID {:?}."
   ++ inspect_expression trigger.(CompiledTrigger.config)
   ++ push_if (contains_lifecycle_reference trigger.(CompiledTrigger.config)) ModelIssueCode.InvalidLifecycle
        "Trigger {:?} cannot read lifecycle; the binding exists only inside lifecycle actions."
   ++ push_if (version_at_least workflow 7 && negb (valid_model_v7_trigger trigger))
        ModelIssueCode.UnsupportedTrigger "Trigger {:?} does not match a frozen Model v7 trigger contract.").

Definition valid_backoff (backoff : BackoffPolicy) : bool :=
  match backoff with
  | BackoffPolicy.None => false
  | BackoffPolicy.Fixed delay_ms => in_range 1 MAX_DELAY_MS delay_ms
  | BackoffPolicy.Exponential initial_delay_ms multiplier maximum_delay_ms =>
      f64_eqb multiplier f64_two && in_range 1 MAX_DELAY_MS initial_delay_ms
      && in_range initial_delay_ms MAX_DELAY_MS (default 0%N maximum_delay_ms)
  end.

Definition inspect_retry (workflow : CompiledWorkflowDefinition) (node : CompiledWorkflowNode) : list ModelIssue :=
  match node.(CompiledWorkflowNode.retry_policy) with
  | None => []
  | Some retry =>
      if negb (version_at_least workflow 6) then
        [issue ModelIssueCode.UnsupportedRetry "Node {:?} cannot carry retryPolicy before compiled model v6."]
      else
        push_if (negb ((node.(CompiledWorkflowNode.handler) == "runtime.script") && in_range 2 MAX_ATTEMPTS retry.(RetryPolicy.max_attempts)
                       && valid_backoff retry.(RetryPolicy.backoff))) ModelIssueCode.UnsupportedRetry
          "Node {:?} does not match the frozen Model v6 runtime.script retry contract."
  end.

Definition inspect_script_runtime (workflow : CompiledWorkflowDefinition) (reusable_step_nodes : gset string)
    (node : CompiledWorkflowNode) : list ModelIssue :=
  if version_at_least workflow 8 then
    match node.(CompiledWorkflowNode.handler) == "runtime.script", node.(CompiledWorkflowNode.script_runtime) with
    | true, Some runtime =>
        let reusable := bool_decide (node.(CompiledWorkflowNode.id) ∈ reusable_step_nodes) in
        push_if (negb ((if reusable then valid_script_runtime runtime 3 reusable_bindings
                        else valid_script_runtime runtime 1 step_bindings)
                       && valid_required_secrets runtime.(ScriptRuntimeBindings.required_secrets)
                       && forallb (λ name, (str_len name <=? 128)%N) runtime.(ScriptRuntimeBindings.required_secrets)))
          ModelIssueCode.InvalidScriptRuntime "Node {:?} does not match its frozen scriptRuntime contract."
    | true, None =>
        [issue ModelIssueCode.InvalidScriptRuntime "Model v8 runtime.script node {:?} requires scriptRuntime."]
    | false, Some _ =>
        [issue ModelIssueCode.InvalidScriptRuntime
           "Only Model v8 runtime.script nodes may carry scriptRuntime (node {:?})."]
    | false, None => []
    end
  else
    push_if (is_some node.(CompiledWorkflowNode.script_runtime)) ModelIssueCode.InvalidScriptRuntime
      "Node {:?} cannot carry scriptRuntime before Model v8.".

(** The loop over the nodes; its state is [node_ids]. *)
Definition inspect_node (workflow : CompiledWorkflowDefinition) (reusable_step_nodes node_ids : gset string)
    (node : CompiledWorkflowNode) : gset string * list ModelIssue :=
  let '(node_ids, is_new) := insert_when true node.(CompiledWorkflowNode.id) node_ids in
  (node_ids,
   push_if (negb (valid_id node.(CompiledWorkflowNode.id)) || str_is_empty node.(CompiledWorkflowNode.handler) || (512 <? chars_count node.(CompiledWorkflowNode.handler))%N)
     ModelIssueCode.InvalidIdentifier "Node {:?} has an invalid ID or handler."
   ++ push_if (negb is_new) ModelIssueCode.DuplicateNodeId "Compiled graph contains duplicate node ID {:?}."
   ++ push_if (node.(CompiledWorkflowNode.timeout_ms) == Some 0%N) ModelIssueCode.UnsupportedTimeout
        "Node {:?} has an invalid zero timeout."
   ++ push_if (version_at_least workflow 8 && is_some node.(CompiledWorkflowNode.timeout_ms)) ModelIssueCode.UnsupportedTimeout
        "Model v8 node {:?} cannot carry timeoutMs in the frozen contract."
   ++ inspect_retry workflow node
   ++ inspect_script_runtime workflow reusable_step_nodes node
   ++ inspect_expression node.(CompiledWorkflowNode.inputs)
   ++ push_if (contains_lifecycle_reference node.(CompiledWorkflowNode.inputs)) ModelIssueCode.InvalidLifecycle
        "Business node {:?} cannot read lifecycle; lifecycle outputs never enter the DAG.").

(** ** The graph *)

(** Both ends of an edge are nodes. *)
Definition known_edge (node_ids : gset string) (edge : CompiledWorkflowEdge) : bool :=
  bool_decide (edge.(CompiledWorkflowEdge.from) ∈ node_ids) && bool_decide (edge.(CompiledWorkflowEdge.to) ∈ node_ids).

(** The loop over the edges; its state is [edge_ids]. *)
Definition inspect_edge (node_ids edge_ids : gset string) (edge : CompiledWorkflowEdge) :
    gset string * list ModelIssue :=
  let '(edge_ids, is_new) := insert_when true edge.(CompiledWorkflowEdge.id) edge_ids in
  (edge_ids,
   push_if (negb (valid_id edge.(CompiledWorkflowEdge.id) && valid_id edge.(CompiledWorkflowEdge.from) && valid_id edge.(CompiledWorkflowEdge.to))) ModelIssueCode.InvalidIdentifier
     "Edge {:?} has an invalid ID or endpoint."
   ++ push_if (negb is_new) ModelIssueCode.DuplicateEdgeId "Compiled graph contains duplicate edge ID {:?}."
   ++ push_if (negb (known_edge node_ids edge)) ModelIssueCode.UnknownEdgeEndpoint
        "Edge {:?} references an unknown endpoint ({} -> {}).").

(** The loop over the entries; its state is [entry_ids]. *)
Definition inspect_entry (node_ids : gset string) (incoming : gmap string N) (entry_ids : gset string)
    (entry_id : string) : gset string * list ModelIssue :=
  let '(entry_ids, is_new) := insert_when true entry_id entry_ids in
  (entry_ids,
   if negb is_new then
     [issue ModelIssueCode.DuplicateEntryNodeId "Compiled graph repeats entry node ID {entry_id:?}."]
   else if negb (bool_decide (entry_id ∈ node_ids)) then
     [issue ModelIssueCode.InvalidEntryNode "Entry node {entry_id:?} does not exist."]
   else
     push_if (negb (default 0%N (incoming !! entry_id) =? 0)%N) ModelIssueCode.InvalidEntryNode
       "Entry node {entry_id:?} has an incoming edge.").

(** The part of the check that looks at the graph alone.  [edges] are the edges between nodes: the
    adjacency of a node is [edge_targets edges]. *)
Definition inspect_graph (graph : CompiledWorkflowGraph) (node_ids : gset string) : list ModelIssue :=
  let edges := List.filter (known_edge node_ids) graph.(CompiledWorkflowGraph.edges) in
  let incoming := count_targets node_ids (CompiledWorkflowEdge.to <$> edges) in
  let entries := List.filter (λ id, bool_decide (id ∈ node_ids)) graph.(CompiledWorkflowGraph.entry_node_ids) in
  let reachable := explore (search_fuel edges + length entries) (edge_targets edges) ∅ entries in
  let ids := CompiledWorkflowNode.id <$> graph.(CompiledWorkflowGraph.nodes) in
  let topological := List.filter (λ id, (default 0 (incoming !! id) =? 0)%N) ids in
  let visited := count_topological (length ids + length ids) (edge_targets edges) incoming topological in
  let terminal_count := length (List.filter (λ id, is_empty (edge_targets edges id)) ids) in
  (scan_issues (inspect_edge node_ids) ∅ graph.(CompiledWorkflowGraph.edges)).2
  ++ (scan_issues (inspect_entry node_ids incoming) ∅ graph.(CompiledWorkflowGraph.entry_node_ids)).2
  ++ flat_map (λ id, push_if (negb (bool_decide (id ∈ reachable))) ModelIssueCode.UnreachableNode
       "Node {:?} is not reachable from an entry node.") ids
  ++ push_if (negb (visited =? N.of_nat (size node_ids))%N) ModelIssueCode.CyclicGraph
       "Compiled graph contains a cycle."
  ++ push_if (terminal_count != 1) ModelIssueCode.TerminalNodeCount
       "The first executable profile requires exactly one terminal node; found {terminal_count}.".

Section validation.
Context `{EngineExternals}.

Definition inspect_structure (workflow : CompiledWorkflowDefinition) : list ModelIssue :=
  let '(reusable_step_nodes, reusable_issues) := inspect_reusable_contract workflow in
  let '(node_ids, node_issues) := scan_issues (inspect_node workflow reusable_step_nodes) ∅ workflow.(CompiledWorkflowDefinition.graph).(CompiledWorkflowGraph.nodes) in
  inspect_identity workflow
  ++ inspect_module_runtime workflow
  ++ inspect_trigger_count workflow
  ++ inspect_lifecycle_contract workflow
  ++ inspect_runtime_policy_contract workflow
  ++ inspect_communication workflow
  ++ (scan_issues (inspect_trigger workflow) ∅ workflow.(CompiledWorkflowDefinition.triggers)).2
  ++ push_if (is_empty workflow.(CompiledWorkflowDefinition.graph).(CompiledWorkflowGraph.nodes)) ModelIssueCode.MissingNode
       "A compiled workflow graph requires at least one node."
  ++ push_if (is_empty workflow.(CompiledWorkflowDefinition.graph).(CompiledWorkflowGraph.entry_node_ids)) ModelIssueCode.MissingEntryNode
       "A compiled workflow graph requires at least one entry node."
  ++ reusable_issues
  ++ node_issues
  ++ inspect_graph workflow.(CompiledWorkflowDefinition.graph) node_ids
  ++ inspect_branch_contract workflow
  ++ inspect_parallel_contract workflow
  ++ inspect_approval_contract workflow
  ++ inspect_fork_contract workflow
  ++ inspect_for_each_contract workflow
  ++ inspect_durable_wait_contract workflow
  ++ inspect_lock_contract workflow
  ++ inspect_saga_contract workflow
  ++ inspect_execution_placement_contract workflow.
End validation.

(** ** The executable profile *)

Section profile.
Context (workflow : CompiledWorkflowDefinition) (allow_approval allow_retry durable : bool).

(** The inputs of a handler; [None] for a handler that cannot be executed. *)
Definition valid_handler_inputs (provider_ids : gset string) (node : CompiledWorkflowNode) : option bool :=
  let fields := object_fields node.(CompiledWorkflowNode.inputs) in
  let is_object := is_some fields in
  let no_fields := is_empty_object node.(CompiledWorkflowNode.inputs) in
  let references := is_some_and fields (λ fields,
    negb (size fields == 0) && forallb (λ entry, is_context_reference entry.2) (map_to_list fields)) in
  let handler := node.(CompiledWorkflowNode.handler) in
  if handler == "runtime.script" then Some (is_script_source node.(CompiledWorkflowNode.inputs))
  else if (handler == "engine.branch-select") || (handler == "engine.parallel-join") then Some no_fields
  else if handler == "engine.branch-result" then Some references
  else if handler == "engine.parallel-start" then
    Some (is_object && parallel_start_inputs (Some node) 18446744073709551615)
  else if (handler == "engine.approval-wait") && is_object && allow_approval then
    Some (approval_wait_inputs (Some node) provider_ids workflow.(CompiledWorkflowDefinition.schema_version))
  else if (handler == "engine.approval-join") && is_object && allow_approval then Some no_fields
  else if bool_decide (handler ∈ ["engine.fork-open"; "engine.fork-branch-terminal"; "engine.fork-join";
            "engine.workflow-settlement"; "engine.choice-select"; "engine.choice-join"])
          && is_object && version_at_least workflow 13 then Some no_fields
  else if is_for_each_handler handler && is_object && version_at_least workflow 16 then Some no_fields
  else if (handler == "engine.durable-wait") && is_object && version_at_least workflow 17 && durable then Some no_fields
  else if is_lock_handler handler && is_object && version_at_least workflow 18 && durable then Some no_fields
  else if is_saga_handler handler && is_object && version_at_least workflow 19 && durable then Some no_fields
  else if (handler == "engine.choice-result") && is_object && version_at_least workflow 14 then Some references
  else None.

Definition inspect_executable_node (provider_ids : gset string) (node : CompiledWorkflowNode) : list ModelIssue :=
  match valid_handler_inputs provider_ids node with
  | None =>
      [issue ModelIssueCode.UnknownHandler "No executable WOML handler is registered for {:?} on node {:?}."]
  | Some valid_inputs =>
      push_if (negb valid_inputs) ModelIssueCode.UnsupportedNodeInputs
        "Node {:?} does not match the input contract for handler {:?}."
  end
  ++ push_if (is_some node.(CompiledWorkflowNode.retry_policy)
              && negb (allow_retry && version_at_least workflow 6 && (node.(CompiledWorkflowNode.handler) == "runtime.script")))
       ModelIssueCode.UnsupportedRetry "Retry is not executable in the current profile (node {:?})."
  ++ push_if (is_some node.(CompiledWorkflowNode.timeout_ms)) ModelIssueCode.UnsupportedTimeout
       "Per-node timeout is not executable in the current profile (node {:?}).".

Definition inspect_executable_trigger (trigger : CompiledTrigger) : list ModelIssue :=
  let executable :=
    if version_at_least workflow 7 then valid_model_v7_trigger trigger
    else (trigger.(CompiledTrigger.handler) == "trigger.manual") && is_empty_object trigger.(CompiledTrigger.config) in
  push_if (negb executable) ModelIssueCode.UnsupportedTrigger
    "Trigger {:?} is not executable in the current compiled-model profile.".

Definition inspect_executable_loop (descriptor : CompiledForEach) : list ModelIssue :=
  let fe5_body :=
    (length descriptor.(CompiledForEach.body).(CompiledForEachBody.entry_node_ids) == 1)
    && forallb (λ (node : CompiledWorkflowNode),
         bool_decide (node.(CompiledWorkflowNode.handler) ∈ ["runtime.script"; "engine.choice-select"; "engine.choice-join";
           "engine.choice-result"; "engine.parallel-start"; "engine.parallel-join"]) && is_none node.(CompiledWorkflowNode.timeout_ms))
         descriptor.(CompiledForEach.body).(CompiledForEachBody.nodes) in
  push_if (negb fe5_body) ModelIssueCode.UnsupportedForEachExecution
    "For-each {:?} contains a body that is not executable by the FE5 bounded iteration runtime."
  ++ push_if (existsb (λ (node : CompiledWorkflowNode), node.(CompiledWorkflowNode.handler) == "engine.durable-wait") descriptor.(CompiledForEach.body).(CompiledForEachBody.nodes))
       ModelIssueCode.UnsupportedDurableWaitExecution
       "For-each {:?} contains durable waits; iteration suspension is staged for DW6.".

Definition inspect_executable_edge (edge : CompiledWorkflowEdge) : list ModelIssue :=
  let executable_condition :=
    is_always edge.(CompiledWorkflowEdge.condition)
    || is_boolean edge.(CompiledWorkflowEdge.condition) && (is_some edge.(CompiledWorkflowEdge.branch_id) || version_at_least workflow 13)
    || allow_approval && is_equals edge.(CompiledWorkflowEdge.condition) && is_some edge.(CompiledWorkflowEdge.approval_id) in
  push_if (negb executable_condition) ModelIssueCode.UnsupportedEdgeCondition
    "Edge {:?} uses a condition outside the executable WOML profile.".

(** A node takes several edges, or gives several, only when its handler is a join or a split. *)
Definition sequential_or_branching (node : CompiledWorkflowNode) : bool :=
  let edges := workflow.(CompiledWorkflowDefinition.graph).(CompiledWorkflowGraph.edges) in
  let handler := node.(CompiledWorkflowNode.handler) in
  ((len (edges_into edges node.(CompiledWorkflowNode.id)) <=? 1)%N
   || (handler == "engine.branch-result") || (handler == "engine.parallel-join")
   || version_at_least workflow 13
      && bool_decide (handler ∈ ["engine.fork-join"; "engine.choice-join"; "engine.workflow-settlement"])
   || allow_approval && (handler == "engine.approval-join"))
  && ((len (edges_out_of edges node.(CompiledWorkflowNode.id)) <=? 1)%N
      || (handler == "engine.branch-select") || (handler == "engine.parallel-start")
      || version_at_least workflow 13
         && bool_decide (handler ∈ ["engine.fork-open"; "engine.fork-branch-terminal"; "engine.choice-select"])
      || allow_approval && (handler == "engine.approval-wait")).

Definition inspect_executable_profile : list ModelIssue :=
  let graph := workflow.(CompiledWorkflowDefinition.graph) in
  push_if (workflow.(CompiledWorkflowDefinition.schema_version) =? 21)%N ModelIssueCode.UnsupportedRemoteExecution
    "Compiled Model v21 remote execution is staged until the durable dispatch authority is enabled."
  ++ push_if (version_at_least workflow 13 && negb durable) ModelIssueCode.UnsupportedRuntimePolicyExecution
       "Compiled Model v13 requires the durable runtime-policy scheduler."
  ++ push_if ((workflow.(CompiledWorkflowDefinition.schema_version) =? 12)%N && negb durable) ModelIssueCode.UnsupportedRuntimePolicyExecution
       "Compiled Model v12 requires the durable runtime-policy scheduler."
  ++ flat_map inspect_executable_trigger workflow.(CompiledWorkflowDefinition.triggers)
  ++ flat_map (inspect_executable_node (reusable_provider_ids workflow)) graph.(CompiledWorkflowGraph.nodes)
  ++ (if version_at_least workflow 16 then flat_map inspect_executable_loop (unwrap_or_default graph.(CompiledWorkflowGraph.for_each)) else [])
  ++ flat_map inspect_executable_edge graph.(CompiledWorkflowGraph.edges)
  ++ push_if (negb ((length graph.(CompiledWorkflowGraph.entry_node_ids) == 1) && forallb sequential_or_branching graph.(CompiledWorkflowGraph.nodes)))
       ModelIssueCode.UnsupportedNonSequentialDag
       "The executable profile supports only frozen sequential, branch, and parallel DAG shapes; unrelated fan-out remains staged.".
End profile.

(** ** The entry points *)

(** [if issues.is_empty() { Ok(()) } else { Err(ModelValidationError::new(issues)) }]. *)
Definition issues_result (issues : list ModelIssue) : result ModelValidationError unit :=
  match issues with
  | [] => Ok tt
  | _ => Err (ModelValidationError_new issues)
  end.

Section entry_points.
Context `{EngineExternals}.

Definition validate_structure (workflow : CompiledWorkflowDefinition) : result ModelValidationError unit :=
  issues_result (inspect_structure workflow).

Definition validate_for_execution (workflow : CompiledWorkflowDefinition) : result ModelValidationError unit :=
  issues_result (inspect_structure workflow ++ inspect_executable_profile workflow false false false).

Definition validate_for_durable_execution (workflow : CompiledWorkflowDefinition) : result ModelValidationError unit :=
  issues_result (inspect_structure workflow ++ inspect_executable_profile workflow true true true).
End entry_points.
