(* ===== verification/Readiness.v ===== *)
(** * Routing and readiness

    engine/routing.rs and engine/context.rs: the arm of a branch or a choice that
    the values of the context select.

    engine/readiness.rs and engine/readiness/index.rs: which nodes of the compiled
    graph may run next, given the projection of a run.  The queries look the graph
    up through an index; [Topology] is what they rely on, and the three indexes of
    the source implement it: scans of the lists, maps of borrowed nodes and edges,
    and maps of ordinals. *)

From S2P Require Import Prelude GraphSearch Strings Json EventTypes ProjectionTypes Guards.
From S2P Require Import ModelTypes EngineExternals ModelQueries.

(** ** References into the context *)

(** [ContextReferenceError], engine.rs. *)
Record ContextReferenceError := MissingReference { missing_path : list string }.

(** The loop over the remaining segments. *)
Fixpoint resolve_segments (missing : ContextReferenceError) (value : Value) (remaining : list string) :
    result ContextReferenceError Value :=
  match remaining with
  | [] => Ok value
  | segment :: remaining =>
      match value with
      | Value.Object object =>
          let? value := ok_or (map_get object segment) missing in
          resolve_segments missing value remaining
      | _ => Err missing
      end
  end.

Definition resolve_context_reference (expression : ValueExpression) (context : WorkflowContext) :
    result ContextReferenceError Value :=
  match expression with
  | ValueExpression.ContextReference path =>
      let missing := MissingReference path in
      match path with
      | [] => Err missing
      | root :: remaining =>
          if root == "trigger" then resolve_segments missing (Value.Object context.(WorkflowContext.trigger)) remaining
          else if root == "steps" then resolve_segments missing (Value.Object context.(WorkflowContext.steps)) remaining
          else Err missing
      end
  | _ => Err (MissingReference [])
  end.

(** ** Errors *)

Module BranchEvaluationErrorKind.
Inductive BranchEvaluationErrorKind :=
| NotBoolean (type : JsonValueType)
| NotString (name : string)
| ReferenceNotAvailable
| SelectionInvalid.
End BranchEvaluationErrorKind.
Abbreviation BranchEvaluationErrorKind := BranchEvaluationErrorKind.BranchEvaluationErrorKind.

Module BranchEvaluationError.
Record BranchEvaluationError := mk {
  branch_id : string;
  arm_id : option string;
  path : option (list string);
  kind : BranchEvaluationErrorKind
}.
End BranchEvaluationError.
Abbreviation BranchEvaluationError := BranchEvaluationError.BranchEvaluationError.

(** [unreachable!] on a boolean. *)
Definition json_value_type (value : Value) : result BranchEvaluationError JsonValueType :=
  match value with
  | Value.Null => Ok JsonValueType.Null
  | Value.Number _ => Ok JsonValueType.Number
  | Value.String _ => Ok JsonValueType.String
  | Value.Array _ => Ok JsonValueType.Array
  | Value.Object _ => Ok JsonValueType.Object
  | Value.Bool _ => Panic "boolean values are handled before type classification"
  end.

Definition json_value_type_name (value : Value) : string :=
  match value with
  | Value.Null => "null"
  | Value.Bool _ => "boolean"
  | Value.Number _ => "number"
  | Value.String _ => "string"
  | Value.Array _ => "array"
  | Value.Object _ => "object"
  end.

(** ** Branches *)

Definition selector_branch_id (selector_id : string) : option string :=
  id ← strip_prefix "__woml_branch__" selector_id;
  strip_suffix "__select" id.

(** [match expression { ContextReference { path } => Some(path.clone()), _ => None }]. *)
Definition reference_path (expression : ValueExpression) : option (list string) :=
  match expression with ValueExpression.ContextReference path => Some path | _ => None end.

(** The body of both loops over the candidate edges: the first edge whose condition holds. *)
Fixpoint first_holding_arm (branch_id : string) (context : WorkflowContext)
    (edges : list CompiledWorkflowEdge) : result BranchEvaluationError string :=
  match edges with
  | [] => Err (BranchEvaluationError.mk branch_id None None BranchEvaluationErrorKind.SelectionInvalid)
  | edge :: edges =>
      match edge.(CompiledWorkflowEdge.condition) with
      | EdgeCondition.Boolean expression =>
          let? resolved := map_err (λ error, BranchEvaluationError.mk branch_id (Some edge.(CompiledWorkflowEdge.id))
              (Some (missing_path error)) BranchEvaluationErrorKind.ReferenceNotAvailable)
              (resolve_context_reference expression context) in
          match resolved with
          | Value.Bool true => Ok edge.(CompiledWorkflowEdge.id)
          | Value.Bool false => first_holding_arm branch_id context edges
          | value =>
              let? type := json_value_type value in
              Err (BranchEvaluationError.mk branch_id (Some edge.(CompiledWorkflowEdge.id)) (reference_path expression)
                     (BranchEvaluationErrorKind.NotBoolean type))
          end
      | EdgeCondition.Always => Ok edge.(CompiledWorkflowEdge.id)
      | _ => Err (BranchEvaluationError.mk branch_id (Some edge.(CompiledWorkflowEdge.id)) None
                    BranchEvaluationErrorKind.SelectionInvalid)
      end
  end.

Definition selected_branch_arm (workflow : CompiledWorkflowDefinition) (selector_id : string)
    (context : WorkflowContext) : result BranchEvaluationError string :=
  let? branch_id := ok_or (selector_branch_id selector_id)
    (BranchEvaluationError.mk selector_id None None BranchEvaluationErrorKind.SelectionInvalid) in
  first_holding_arm branch_id context
    (List.filter (λ (edge : CompiledWorkflowEdge),
       (edge.(CompiledWorkflowEdge.from) == selector_id) && (edge.(CompiledWorkflowEdge.branch_id) == Some branch_id)) workflow.(CompiledWorkflowDefinition.graph).(CompiledWorkflowGraph.edges)).

(** ** Choices *)

Definition choice_for_selector (workflow : CompiledWorkflowDefinition) (selector_id : string) :
    option CompiledControlChoice :=
  List.find (λ (choice : CompiledControlChoice), choice.(CompiledControlChoice.selector_node_id) == selector_id)
    (unwrap_or_default workflow.(CompiledWorkflowDefinition.graph).(CompiledWorkflowGraph.choices)).

(** A choice on the value of a string. *)
Definition selected_string_case (choice : CompiledControlChoice) (selector : ValueExpression)
    (context : WorkflowContext) : result BranchEvaluationError string :=
  let? value := map_err (λ error, BranchEvaluationError.mk choice.(CompiledControlChoice.choice_id) None
      (Some (missing_path error)) BranchEvaluationErrorKind.ReferenceNotAvailable)
      (resolve_context_reference selector context) in
  match value with
  | Value.String value =>
      let case_arm := CompiledStringChoiceCase.arm_id <$>
        List.find (λ (c : CompiledStringChoiceCase), c.(CompiledStringChoiceCase.value) == value) (unwrap_or_default choice.(CompiledControlChoice.string_cases)) in
      ok_or (match case_arm with Some arm => Some arm | None => choice.(CompiledControlChoice.default_arm_id) end)
        (BranchEvaluationError.mk choice.(CompiledControlChoice.choice_id) None None BranchEvaluationErrorKind.SelectionInvalid)
  | value =>
      Err (BranchEvaluationError.mk choice.(CompiledControlChoice.choice_id) None (reference_path selector)
             (BranchEvaluationErrorKind.NotString (json_value_type_name value)))
  end.

Definition selected_choice_arm (workflow : CompiledWorkflowDefinition) (selector_id : string)
    (context : WorkflowContext) : result BranchEvaluationError (string * string) :=
  let? choice := ok_or (choice_for_selector workflow selector_id)
    (BranchEvaluationError.mk selector_id None None BranchEvaluationErrorKind.SelectionInvalid) in
  match choice.(CompiledControlChoice.string_selector) with
  | Some selector =>
      let? arm_id := selected_string_case choice selector context in
      Ok (choice.(CompiledControlChoice.choice_id), arm_id)
  | None =>
      let? arm_id := first_holding_arm choice.(CompiledControlChoice.choice_id) context
        (List.filter (λ (edge : CompiledWorkflowEdge),
           (edge.(CompiledWorkflowEdge.from) == selector_id) && existsb (λ id, id == edge.(CompiledWorkflowEdge.id)) choice.(CompiledControlChoice.arm_ids)) workflow.(CompiledWorkflowDefinition.graph).(CompiledWorkflowGraph.edges)) in
      Ok (choice.(CompiledControlChoice.choice_id), arm_id)
  end.

(** ** Properties *)

Lemma first_holding_arm_no_panic branch_id context edges :
  no_panic (first_holding_arm branch_id context edges).
Proof.
  induction edges as [|edge edges IH]; simpl; [done|].
  destruct (CompiledWorkflowEdge.condition edge); try done.
  apply no_panic_bind.
  { apply no_panic_map_err. unfold resolve_context_reference.
    assert (∀ remaining missing v, no_panic (resolve_segments missing v remaining)) as Hseg.
    { clear. induction remaining as [|s remaining IH]; intros missing v; simpl; [done|].
      destruct v; try done. apply no_panic_bind; [auto with woml|]. intros; apply IH. }
    solve_no_panic. }
  intros v _. destruct v as [|[]| | | |]; done.
Qed.

(** An edge the loop passes over without an error: its condition is false. *)
Definition arm_holds (context : WorkflowContext) (edge : CompiledWorkflowEdge) : option bool :=
  match edge.(CompiledWorkflowEdge.condition) with
  | EdgeCondition.Always => Some true
  | EdgeCondition.Boolean expression =>
      match resolve_context_reference expression context with
      | Ok (Value.Bool b) => Some b
      | _ => None
      end
  | _ => None
  end.

Lemma first_holding_arm_cons branch_id context edge edges arm :
  first_holding_arm branch_id context (edge :: edges) = Ok arm ↔
  (arm_holds context edge = Some true ∧ arm = edge.(CompiledWorkflowEdge.id))
  ∨ (arm_holds context edge = Some false ∧ first_holding_arm branch_id context edges = Ok arm).
Proof.
  simpl. unfold arm_holds. destruct (CompiledWorkflowEdge.condition edge); try naive_solver.
  destruct (resolve_context_reference _ _) as [v| |]; simpl; [|naive_solver..].
  destruct v as [|[]| | | |]; simpl; naive_solver.
Qed.

(** The arm that is selected is the first one, in source order, whose condition holds; all
    before it are known to be false. *)
Lemma first_holding_arm_ok branch_id context edges arm :
  first_holding_arm branch_id context edges = Ok arm ↔
  ∃ before edge after, edges = before ++ edge :: after ∧ arm = edge.(CompiledWorkflowEdge.id)
    ∧ arm_holds context edge = Some true ∧ Forall (λ e, arm_holds context e = Some false) before.
Proof.
  induction edges as [|edge edges IH].
  { split; [done|]. intros (before & e & after & Hb & _). by destruct before. }
  rewrite first_holding_arm_cons, IH. split.
  - intros [[Ht ->]|[Hf (before & e & after & -> & -> & He & Hb)]].
    + exists [], edge, edges. by split_and!.
    + exists (edge :: before), e, after. split_and!; [done..|]. by constructor.
  - intros (before & e & after & Heq & -> & He & Hb). destruct before as [|b before]; simplify_eq/=.
    + by left.
    + inversion_clear Hb. right. split; [done|]. by exists before, e, after.
Qed.

Definition RUN_EVENT_SCHEMA_VERSION_V11 : N := 11.

(** ** The lookups of a graph *)

Record Topology := {
  t_node : string → option CompiledWorkflowNode;
  t_incoming : string → list CompiledWorkflowEdge;
  t_outgoing : string → list CompiledWorkflowEdge;
}.

Definition edges_to (workflow : CompiledWorkflowDefinition) (id : string) : list CompiledWorkflowEdge :=
  List.filter (λ (edge : CompiledWorkflowEdge), edge.(CompiledWorkflowEdge.to) == id) workflow.(CompiledWorkflowDefinition.graph).(CompiledWorkflowGraph.edges).
Definition edges_from (workflow : CompiledWorkflowDefinition) (id : string) : list CompiledWorkflowEdge :=
  List.filter (λ (edge : CompiledWorkflowEdge), edge.(CompiledWorkflowEdge.from) == id) workflow.(CompiledWorkflowDefinition.graph).(CompiledWorkflowGraph.edges).

(** The scans of [node_is_complete] without an index, and of the test oracle. *)
Definition scan_topology (workflow : CompiledWorkflowDefinition) : Topology :=
  {| t_node := node workflow; t_incoming := edges_to workflow; t_outgoing := edges_from workflow |}.

(** What an index promises: it answers as the scans do. *)
Class TopologyOf (workflow : CompiledWorkflowDefinition) (t : Topology) : Prop := {
  topology_node : ∀ id, t_node t id = node workflow id;
  topology_incoming : ∀ id, t_incoming t id = edges_to workflow id;
  topology_outgoing : ∀ id, t_outgoing t id = edges_from workflow id;
}.

#[global] Instance scan_topology_of workflow : TopologyOf workflow (scan_topology workflow).
Proof. by split. Qed.

(** [map.entry(k).or_insert(v)] and [map.entry(k).or_default().push(v)]. *)
Definition or_insert {V} (m : gmap string V) (k : string) (v : V) : gmap string V :=
  match m !! k with Some _ => m | None => <[k := v]> m end.
Definition push_entry {V} (m : gmap string (list V)) (k : string) (v : V) : gmap string (list V) :=
  <[k := default [] (m !! k) ++ [v]]> m.

(** [BorrowedTopology] and [ReadinessGraph::new]. *)
Module BorrowedTopology.
Record BorrowedTopology := mk {
  nodes : gmap string CompiledWorkflowNode;
  incoming : gmap string (list CompiledWorkflowEdge);
  outgoing : gmap string (list CompiledWorkflowEdge)
}.
End BorrowedTopology.
Abbreviation BorrowedTopology := BorrowedTopology.BorrowedTopology.

Definition borrowed_new (workflow : CompiledWorkflowDefinition) : BorrowedTopology :=
  {| BorrowedTopology.nodes :=
       foldl (λ m (node : CompiledWorkflowNode), or_insert m node.(CompiledWorkflowNode.id) node) ∅ workflow.(CompiledWorkflowDefinition.graph).(CompiledWorkflowGraph.nodes);
     BorrowedTopology.incoming :=
       foldl (λ m (edge : CompiledWorkflowEdge), push_entry m edge.(CompiledWorkflowEdge.to) edge) ∅ workflow.(CompiledWorkflowDefinition.graph).(CompiledWorkflowGraph.edges);
     BorrowedTopology.outgoing :=
       foldl (λ m (edge : CompiledWorkflowEdge), push_entry m edge.(CompiledWorkflowEdge.from) edge) ∅ workflow.(CompiledWorkflowDefinition.graph).(CompiledWorkflowGraph.edges) |}.

(** [OwnedTopology]: positions in the lists of the definition. *)
Module OwnedTopology.
Record OwnedTopology := mk {
  nodes : gmap string nat;
  incoming : gmap string (list nat);
  outgoing : gmap string (list nat)
}.
End OwnedTopology.
Abbreviation OwnedTopology := OwnedTopology.OwnedTopology.

(** [iter().enumerate()]. *)
Definition enumerate {A} (l : list A) : list (nat * A) := imap pair l.

Definition owned_new (workflow : CompiledWorkflowDefinition) : OwnedTopology :=
  {| OwnedTopology.nodes :=
       foldl (λ m '(index, node), or_insert m (CompiledWorkflowNode.id node) index) ∅ (enumerate workflow.(CompiledWorkflowDefinition.graph).(CompiledWorkflowGraph.nodes));
     OwnedTopology.incoming :=
       foldl (λ m '(index, edge), push_entry m (CompiledWorkflowEdge.to edge) index) ∅ (enumerate workflow.(CompiledWorkflowDefinition.graph).(CompiledWorkflowGraph.edges));
     OwnedTopology.outgoing :=
       foldl (λ m '(index, edge), push_entry m (CompiledWorkflowEdge.from edge) index) ∅ (enumerate workflow.(CompiledWorkflowDefinition.graph).(CompiledWorkflowGraph.edges)) |}.

(** [GraphIndex] and [ReadinessGraph]. *)
Module GraphIndex.
Inductive GraphIndex :=
| Borrowed (index : BorrowedTopology)
| Prepared (index : OwnedTopology).
End GraphIndex.
Abbreviation GraphIndex := GraphIndex.GraphIndex.

Module ReadinessGraph.
Record ReadinessGraph := mk {
  workflow : CompiledWorkflowDefinition;
  index : GraphIndex
}.
End ReadinessGraph.
Abbreviation ReadinessGraph := ReadinessGraph.ReadinessGraph.

Definition graph_node (graph : ReadinessGraph) (id : string) : option CompiledWorkflowNode :=
  match graph.(ReadinessGraph.index) with
  | GraphIndex.Borrowed index => index.(BorrowedTopology.nodes) !! id
  | GraphIndex.Prepared index =>
      ordinal ← index.(OwnedTopology.nodes) !! id;
      graph.(ReadinessGraph.workflow).(CompiledWorkflowDefinition.graph).(CompiledWorkflowGraph.nodes) !! ordinal
  end.

(** [ReadinessGraph::edges] and the iterator [Edges]. *)
Definition graph_edges (graph : ReadinessGraph) (id : string) (incoming : bool) : list CompiledWorkflowEdge :=
  match graph.(ReadinessGraph.index) with
  | GraphIndex.Borrowed index =>
      let map := if incoming then index.(BorrowedTopology.incoming) else index.(BorrowedTopology.outgoing) in
      default [] (map !! id)
  | GraphIndex.Prepared index =>
      let map := if incoming then index.(OwnedTopology.incoming) else index.(OwnedTopology.outgoing) in
      omap (λ ordinal : nat,
        graph.(ReadinessGraph.workflow).(CompiledWorkflowDefinition.graph).(CompiledWorkflowGraph.edges) !! ordinal)
        (default [] (map !! id))
  end.

Definition graph_incoming (graph : ReadinessGraph) (id : string) : list CompiledWorkflowEdge := graph_edges graph id true.
Definition graph_outgoing (graph : ReadinessGraph) (id : string) : list CompiledWorkflowEdge := graph_edges graph id false.

Definition graph_topology (graph : ReadinessGraph) : Topology :=
  {| t_node := graph_node graph; t_incoming := graph_incoming graph; t_outgoing := graph_outgoing graph |}.

(** [ReadinessGraph::new] and the graph of a [ReadinessDefinition]. *)
Definition graph_new (workflow : CompiledWorkflowDefinition) : ReadinessGraph :=
  ReadinessGraph.mk workflow (GraphIndex.Borrowed (borrowed_new workflow)).
Definition prepared_graph (workflow : CompiledWorkflowDefinition) : ReadinessGraph :=
  ReadinessGraph.mk workflow (GraphIndex.Prepared (owned_new workflow)).

(** ** Latest attempts *)

(** [LatestAttempts::new]: the last attempt of each node wins. *)
Definition latest_attempts (attempts : list AttemptProjection) : gmap string AttemptProjection :=
  foldl (λ m (attempt : AttemptProjection), <[attempt.(AttemptProjection.identity).(AttemptIdentity.node_id) := attempt]> m) ∅ attempts.

(** ** Binding *)

Definition readiness_binding (workflow : CompiledWorkflowDefinition) (definition_hash : string)
    (projection : RunProjection) : result string bool :=
  if projection.(RunProjection.status) != RunStatus.Running then Ok false
  else
    let workflow_identity_matches :=
      (projection.(RunProjection.workflow_id) == Some workflow.(CompiledWorkflowDefinition.workflow_id))
      || (is_some_and projection.(RunProjection.event_schema_version) (λ version, (RUN_EVENT_SCHEMA_VERSION_V11 <=? version)%N)
          && is_none projection.(RunProjection.workflow_id)) in
    if negb workflow_identity_matches || (projection.(RunProjection.definition_hash) != Some definition_hash)
    then Err "The run is not bound to this compiled workflow definition."
    else Ok true.

(** ** Active edges *)

Definition edge_is_active (edge : CompiledWorkflowEdge) (projection : RunProjection) : bool :=
  match edge.(CompiledWorkflowEdge.approval_id) with
  | Some approval_id =>
      let decision :=
        step ← map_get projection.(RunProjection.context).(WorkflowContext.steps) approval_id;
        output ← as_object step;
        decision ← map_get output "decision";
        as_str decision in
      if (edge.(CompiledWorkflowEdge.id) == approval_id +:+ ":approved") || (edge.(CompiledWorkflowEdge.id) == approval_id +:+ ":approved:join")
      then decision == Some "approved"
      else if (edge.(CompiledWorkflowEdge.id) == approval_id +:+ ":rejected") || (edge.(CompiledWorkflowEdge.id) == approval_id +:+ ":rejected:join")
      then decision == Some "rejected"
      else false
  | None =>
      match List.find (λ entry, starts_with (entry.1 +:+ ":") edge.(CompiledWorkflowEdge.id))
              (btree_iter projection.(RunProjection.choice_selections)) with
      | Some (_, selected_arm_id) =>
          (selected_arm_id == edge.(CompiledWorkflowEdge.id)) || (edge.(CompiledWorkflowEdge.id) == selected_arm_id +:+ ":join")
      | None =>
          if starts_with "__woml_choice__" edge.(CompiledWorkflowEdge.id)
             && (str_contains ":when:" edge.(CompiledWorkflowEdge.id) || ends_with ":otherwise" edge.(CompiledWorkflowEdge.id)
                 || str_contains ":case:" edge.(CompiledWorkflowEdge.id) || ends_with ":default" edge.(CompiledWorkflowEdge.id))
          then false
          else
            match edge.(CompiledWorkflowEdge.branch_id) with
            | Some branch_id =>
                is_some_and (projection.(RunProjection.branch_selections) !! branch_id) (λ arm_id, arm_id == edge.(CompiledWorkflowEdge.id))
            | None => true
            end
      end
  end.

(** ** Completed nodes *)

(** [projection.context.steps.contains_key(id)]. *)
Definition has_output (projection : RunProjection) (id : string) : bool :=
  map_contains_key projection.(RunProjection.context).(WorkflowContext.steps) id.

Definition fork_opened_by (workflow : CompiledWorkflowDefinition) (id : string) : option CompiledFork :=
  List.find (λ (fork : CompiledFork), fork.(CompiledFork.open_node_id) == id) (unwrap_or_default workflow.(CompiledWorkflowDefinition.graph).(CompiledWorkflowGraph.forks)).
Definition fork_joined_by (workflow : CompiledWorkflowDefinition) (id : string) : option CompiledFork :=
  List.find (λ (fork : CompiledFork), fork.(CompiledFork.join_node_id) == id) (unwrap_or_default workflow.(CompiledWorkflowDefinition.graph).(CompiledWorkflowGraph.forks)).

(** The branch that ends at a node, with its fork. *)
Definition branch_ended_by (workflow : CompiledWorkflowDefinition) (id : string) :
    option (CompiledFork * CompiledForkBranch) :=
  find_map (λ (fork : CompiledFork),
    (λ branch, (fork, branch)) <$>
      List.find (λ (branch : CompiledForkBranch), branch.(CompiledForkBranch.terminal_node_id) == id) fork.(CompiledFork.branches))
    (unwrap_or_default workflow.(CompiledWorkflowDefinition.graph).(CompiledWorkflowGraph.forks)).

(** [node_is_complete_with_graph] for the handlers that do not look at other nodes. *)
Definition own_completion (workflow : CompiledWorkflowDefinition) (node : CompiledWorkflowNode)
    (projection : RunProjection) : bool :=
  if node.(CompiledWorkflowNode.handler) == "engine.saga-open" then
    is_some_and (saga_for_control_node workflow node.(CompiledWorkflowNode.id))
      (λ (saga : CompiledSaga), contains_key projection.(RunProjection.sagas) saga.(CompiledSaga.saga_id))
  else if node.(CompiledWorkflowNode.handler) == "engine.saga-commit" then
    is_some_and (saga_for_control_node workflow node.(CompiledWorkflowNode.id) ≫=
                 λ (saga : CompiledSaga), projection.(RunProjection.sagas) !! saga.(CompiledSaga.saga_id))
      (λ (saga : SagaProjection), saga.(SagaProjection.phase) == SagaPhase.CorrectionCompleted)
  else if node.(CompiledWorkflowNode.handler) == "engine.saga-result" then has_output projection node.(CompiledWorkflowNode.id)
  else if node.(CompiledWorkflowNode.handler) == "engine.for-each-open" then
    is_some_and (List.find (λ (descriptor : CompiledForEach), descriptor.(CompiledForEach.open_node_id) == node.(CompiledWorkflowNode.id))
                   (unwrap_or_default workflow.(CompiledWorkflowDefinition.graph).(CompiledWorkflowGraph.for_each)) ≫=
                 λ (descriptor : CompiledForEach), projection.(RunProjection.for_each) !! descriptor.(CompiledForEach.for_each_id))
      (λ (loop_state : ForEachProjection),
         match loop_state.(ForEachProjection.status) with
         | ForEachStatus.Succeeded | ForEachStatus.Failed | ForEachStatus.Cancelled => true
         | ForEachStatus.Open => false
         end)
  else if node.(CompiledWorkflowNode.handler) == "engine.for-each-result" then has_output projection node.(CompiledWorkflowNode.id)
  else if node.(CompiledWorkflowNode.handler) == "engine.choice-select" then
    is_some_and (choice_for_selector workflow node.(CompiledWorkflowNode.id))
      (λ (choice : CompiledControlChoice), contains_key projection.(RunProjection.choice_selections) choice.(CompiledControlChoice.choice_id))
  else if node.(CompiledWorkflowNode.handler) == "engine.fork-open" then
    is_some_and (fork_opened_by workflow node.(CompiledWorkflowNode.id))
      (λ (fork : CompiledFork), contains_key projection.(RunProjection.forks) fork.(CompiledFork.fork_id))
  else if node.(CompiledWorkflowNode.handler) == "engine.fork-branch-terminal" then
    is_some_and (branch_ended_by workflow node.(CompiledWorkflowNode.id)) (λ '(fork, branch),
      is_some (projected ← projection.(RunProjection.forks) !! fork.(CompiledFork.fork_id);
               projected.(ForkProjection.branches) !! branch.(CompiledForkBranch.branch_id)))
  else if node.(CompiledWorkflowNode.handler) == "engine.fork-join" then
    is_some_and (fork_joined_by workflow node.(CompiledWorkflowNode.id) ≫= λ (fork : CompiledFork), projection.(RunProjection.forks) !! fork.(CompiledFork.fork_id))
      (λ (fork : ForkProjection), fork.(ForkProjection.join_status) == ForkJoinStatus.Succeeded)
  else if node.(CompiledWorkflowNode.handler) == "engine.branch-select" then
    is_some_and (selector_branch_id node.(CompiledWorkflowNode.id)) (contains_key projection.(RunProjection.branch_selections))
  else if node.(CompiledWorkflowNode.handler) == "engine.parallel-start" then
    is_some_and (strip_prefix "__woml_parallel__" node.(CompiledWorkflowNode.id) ≫= strip_suffix "__start")
      (contains_key projection.(RunProjection.parallel_groups))
  else if node.(CompiledWorkflowNode.handler) == "engine.parallel-join" then
    is_some_and (projection.(RunProjection.parallel_groups) !! node.(CompiledWorkflowNode.id)) (λ (group : ParallelGroupProjection),
      match group.(ParallelGroupProjection.status) with
      | ParallelGroupStatus.Completed ParallelGroupOutcome.Succeeded _ _ => true
      | _ => false
      end)
  else if node.(CompiledWorkflowNode.handler) == "engine.approval-wait" then has_output projection node.(CompiledWorkflowNode.id)
  else if node.(CompiledWorkflowNode.handler) == "engine.lock-acquire" then
    is_some_and (List.find (λ (lock : CompiledLock), lock.(CompiledLock.acquire_node_id) == node.(CompiledWorkflowNode.id))
                   (unwrap_or_default workflow.(CompiledWorkflowDefinition.graph).(CompiledWorkflowGraph.locks)) ≫=
                 λ (lock : CompiledLock), projection.(RunProjection.locks) !! lock.(CompiledLock.lock_id))
      (λ (lock : LockProjection),
         match lock.(LockProjection.status) with LockStatus.Held | LockStatus.Released => true | _ => false end)
  else if node.(CompiledWorkflowNode.handler) == "engine.lock-release" then
    is_some_and (List.find (λ (lock : CompiledLock), lock.(CompiledLock.release_node_id) == node.(CompiledWorkflowNode.id))
                   (unwrap_or_default workflow.(CompiledWorkflowDefinition.graph).(CompiledWorkflowGraph.locks)) ≫=
                 λ (lock : CompiledLock), projection.(RunProjection.locks) !! lock.(CompiledLock.lock_id))
      (λ (lock : LockProjection), lock.(LockProjection.status) == LockStatus.Released)
  else if node.(CompiledWorkflowNode.handler) == "engine.lock-result" then has_output projection node.(CompiledWorkflowNode.id)
  else has_output projection node.(CompiledWorkflowNode.id).

(** The edge by which the selected arm of a choice enters its join. *)
Definition selected_join_edge (t : Topology) (workflow : CompiledWorkflowDefinition)
    (node : CompiledWorkflowNode) (projection : RunProjection) : option CompiledWorkflowEdge :=
  choice ← List.find (λ (choice : CompiledControlChoice), choice.(CompiledControlChoice.join_node_id) == node.(CompiledWorkflowNode.id))
             (unwrap_or_default workflow.(CompiledWorkflowDefinition.graph).(CompiledWorkflowGraph.choices));
  selected ← projection.(RunProjection.choice_selections) !! choice.(CompiledControlChoice.choice_id);
  List.find (λ (edge : CompiledWorkflowEdge),
    (edge.(CompiledWorkflowEdge.to) == node.(CompiledWorkflowNode.id)) && ((edge.(CompiledWorkflowEdge.id) == selected +:+ ":join") || (edge.(CompiledWorkflowEdge.id) == selected)))
    (t_incoming t node.(CompiledWorkflowNode.id)).

(** [node_is_complete_with_graph].  The joins of choices and approvals ask their predecessors;
    on a cyclic graph this recursion does not end. *)
Fixpoint node_is_complete_with (fuel : nat) (t : Topology) (workflow : CompiledWorkflowDefinition)
    (projection : RunProjection) (node : CompiledWorkflowNode) : result string bool :=
  match fuel with
  | O => Panic "stack overflow"
  | S fuel =>
      if node.(CompiledWorkflowNode.handler) == "engine.choice-join" then
        match selected_join_edge t workflow node projection ≫= λ edge, t_node t edge.(CompiledWorkflowEdge.from) with
        | Some predecessor => node_is_complete_with fuel t workflow projection predecessor
        | None => Ok false
        end
      else if node.(CompiledWorkflowNode.handler) == "engine.approval-join" then
        any_m (λ edge,
          if edge_is_active edge projection then
            match t_node t edge.(CompiledWorkflowEdge.from) with
            | Some predecessor => node_is_complete_with fuel t workflow projection predecessor
            | None => Ok false
            end
          else Ok false) (t_incoming t node.(CompiledWorkflowNode.id))
      else Ok (own_completion workflow node projection)
  end.

(** Deep enough for every graph without cycles ([complete_returns] of ReadinessProperties.v). *)
Definition completion_fuel (workflow : CompiledWorkflowDefinition) : nat :=
  S (length workflow.(CompiledWorkflowDefinition.graph).(CompiledWorkflowGraph.nodes)).

(** [ReadinessGraph::complete]. *)
Definition complete (t : Topology) (workflow : CompiledWorkflowDefinition) (projection : RunProjection)
    (node : CompiledWorkflowNode) : result string bool :=
  node_is_complete_with (completion_fuel workflow) t workflow projection node.

(** [node_is_complete]: without an index. *)
Definition node_is_complete (workflow : CompiledWorkflowDefinition) (node : CompiledWorkflowNode)
    (projection : RunProjection) : result string bool :=
  complete (scan_topology workflow) workflow projection node.

(** ** Active nodes *)

Definition active_successors (t : Topology) (projection : RunProjection) (id : string) : list string :=
  CompiledWorkflowEdge.to <$> List.filter (λ edge, edge_is_active edge projection) (t_outgoing t id).

Definition active_node_ids (t : Topology) (workflow : CompiledWorkflowDefinition) (projection : RunProjection) :
    gset string :=
  explore (S (length workflow.(CompiledWorkflowDefinition.graph).(CompiledWorkflowGraph.entry_node_ids) + length workflow.(CompiledWorkflowDefinition.graph).(CompiledWorkflowGraph.edges)))
    (active_successors t projection) ∅ workflow.(CompiledWorkflowDefinition.graph).(CompiledWorkflowGraph.entry_node_ids).

(** ** Settlement *)

(** [failure_can_inactivate_main_route]: the first branch, in source order, that contains the
    node decides; a node outside all branches belongs to the main route. *)
Definition failure_can_inactivate_main_route (t : Topology) (workflow : CompiledWorkflowDefinition)
    (failed_node_id : string) : bool :=
  default true
    (find_map (λ (fork : CompiledFork),
       find_map (λ (branch : CompiledForkBranch),
         if search (search_fuel workflow.(CompiledWorkflowDefinition.graph).(CompiledWorkflowGraph.edges)) as_queue (λ id, CompiledWorkflowEdge.to <$> t_outgoing t id)
              branch.(CompiledForkBranch.terminal_node_id) failed_node_id ∅ [branch.(CompiledForkBranch.entry_node_id)]
         then Some (existsb (λ id, id == branch.(CompiledForkBranch.branch_id)) fork.(CompiledFork.joined_branch_ids))
         else None) fork.(CompiledFork.branches))
       (unwrap_or_default workflow.(CompiledWorkflowDefinition.graph).(CompiledWorkflowGraph.forks))).

Definition settlement_can_decide (t : Topology) (workflow : CompiledWorkflowDefinition)
    (projection : RunProjection) (latest : string → option AttemptProjection) : bool :=
  match workflow.(CompiledWorkflowDefinition.graph).(CompiledWorkflowGraph.settlement) with
  | None => false
  | Some settlement =>
      has_output projection settlement.(CompiledWorkflowSettlement.main_result_node_id)
      || existsb (λ (attempt : AttemptProjection),
           is_some_and (latest attempt.(AttemptProjection.identity).(AttemptIdentity.node_id))
             (λ (latest : AttemptProjection), latest.(AttemptProjection.identity) == attempt.(AttemptProjection.identity))
           && attempt_is_failed attempt.(AttemptProjection.status)
           && negb (contains_key projection.(RunProjection.pending_retries) attempt.(AttemptProjection.identity).(AttemptIdentity.node_id))
           && failure_can_inactivate_main_route t workflow attempt.(AttemptProjection.identity).(AttemptIdentity.node_id))
           (reverse projection.(RunProjection.attempts))
  end.

(** ** Ready nodes *)

(** Whether the attempts of a node allow another one now. *)
Definition attempt_allows (projection : RunProjection) (now : DateTime) (id : string)
    (latest : option AttemptProjection) : bool :=
  match latest with
  | None => true
  | Some attempt =>
      match attempt.(AttemptProjection.status) with
      | AttemptStatus.Started | AttemptStatus.Succeeded _ => false
      | AttemptStatus.Failed _ =>
          is_some_and (projection.(RunProjection.pending_retries) !! id)
            (λ (schedule : RetryScheduleProjection), (schedule.(RetryScheduleProjection.scheduled_at) <=? now)%Z)
      end
  end.

Definition candidate_is_ready (t : Topology) (workflow : CompiledWorkflowDefinition)
    (projection : RunProjection) (now : DateTime) (active : gset string)
    (latest : string → option AttemptProjection) (node : CompiledWorkflowNode) : result string bool :=
  if negb (bool_decide (node.(CompiledWorkflowNode.id) ∈ active)) then Ok false
  else
    let? done := complete t workflow projection node in
    and_m (negb done
           && ((node.(CompiledWorkflowNode.handler) != "engine.workflow-settlement")
               || settlement_can_decide t workflow projection latest)
           && attempt_allows projection now node.(CompiledWorkflowNode.id) (latest node.(CompiledWorkflowNode.id)))
      (all_m (λ (edge : CompiledWorkflowEdge),
         match t_node t edge.(CompiledWorkflowEdge.from) with
         | Some predecessor => complete t workflow projection predecessor
         | None => Ok false
         end)
         (List.filter (λ (edge : CompiledWorkflowEdge),
            bool_decide (edge.(CompiledWorkflowEdge.from) ∈ active) && edge_is_active edge projection) (t_incoming t node.(CompiledWorkflowNode.id)))).

(** The scan of [ready_at_view] after its binding check. *)
Definition ready_scan (t : Topology) (workflow : CompiledWorkflowDefinition) (projection : RunProjection)
    (now : DateTime) (latest : string → option AttemptProjection) : result string (list string) :=
  let active := active_node_ids t workflow projection in
  let? ready := filter_m (candidate_is_ready t workflow projection now active latest) workflow.(CompiledWorkflowDefinition.graph).(CompiledWorkflowGraph.nodes) in
  Ok (CompiledWorkflowNode.id <$> ready).

(** The scan of [is_ready_at_view]. *)
Definition is_ready_scan (t : Topology) (workflow : CompiledWorkflowDefinition) (projection : RunProjection)
    (now : DateTime) (latest : string → option AttemptProjection) (node_id : string) : result string bool :=
  let active := active_node_ids t workflow projection in
  any_m (λ (node : CompiledWorkflowNode),
    if node.(CompiledWorkflowNode.id) == node_id then candidate_is_ready t workflow projection now active latest node
    else Ok false) workflow.(CompiledWorkflowDefinition.graph).(CompiledWorkflowGraph.nodes).

(** [ReadinessGraph::ready_at] and [ReadinessGraph::is_ready_at]. *)
Definition graph_ready_at (graph : ReadinessGraph) (definition_hash : string) (projection : RunProjection)
    (now : DateTime) : result string (list string) :=
  let? bound := readiness_binding graph.(ReadinessGraph.workflow) definition_hash projection in
  if negb bound then Ok []
  else ready_scan (graph_topology graph) graph.(ReadinessGraph.workflow) projection now
         (λ id, latest_attempts projection.(RunProjection.attempts) !! id).

Definition graph_is_ready_at (graph : ReadinessGraph) (definition_hash : string) (projection : RunProjection)
    (now : DateTime) (node_id : string) : result string bool :=
  let? bound := readiness_binding graph.(ReadinessGraph.workflow) definition_hash projection in
  if negb bound then Ok false
  else is_ready_scan (graph_topology graph) graph.(ReadinessGraph.workflow) projection now
         (λ id, latest_attempts projection.(RunProjection.attempts) !! id) node_id.

(** [ready_node_ids_for_projection_at], and [ReadinessDefinition::ready_at], which keeps the
    prepared index of its definition. *)
Definition ready_node_ids_for_projection_at (workflow : CompiledWorkflowDefinition)
    (definition_hash : string) (projection : RunProjection) (now : DateTime) : result string (list string) :=
  let? bound := readiness_binding workflow definition_hash projection in
  if negb bound then Ok [] else graph_ready_at (graph_new workflow) definition_hash projection now.

Definition definition_ready_at (workflow : CompiledWorkflowDefinition) (definition_hash : string)
    (projection : RunProjection) (now : DateTime) : result string (list string) :=
  let? bound := readiness_binding workflow definition_hash projection in
  if negb bound then Ok [] else graph_ready_at (prepared_graph workflow) definition_hash projection now.

(** The oracle of engine/readiness/reference.rs: scans of the lists and of the attempts. *)
Definition reference_ready_at (workflow : CompiledWorkflowDefinition) (definition_hash : string)
    (projection : RunProjection) (now : DateTime) : result string (list string) :=
  let? bound := readiness_binding workflow definition_hash projection in
  if negb bound then Ok []
  else ready_scan (scan_topology workflow) workflow projection now (latest_attempt projection).
