(* ===== verification/ReadinessProperties.v ===== *)
(** * Properties of readiness

    The indexes answer as the scans they replace; the worklist computes the
    reachable nodes; on a graph without cycles every query returns; and a node is
    ready exactly when its predecessors on active edges are complete and its
    attempts allow another one. *)

From S2P Require Import Prelude GraphSearch Strings Json EventTypes ProjectionTypes Guards.
From S2P Require Import FoldRun AttemptProperties ModelTypes EngineExternals ModelQueries.
From S2P Require Import Readiness.

Lemma elem_of_edges_to workflow id edge :
  edge ∈ edges_to workflow id ↔ edge ∈ workflow.(CompiledWorkflowDefinition.graph).(CompiledWorkflowGraph.edges) ∧ edge.(CompiledWorkflowEdge.to) = id.
Proof. unfold edges_to. by rewrite elem_of_filterb, bool_decide_eq_true. Qed.

Lemma filter_m_sublist {E A B} (g : A → B) (f : A → result E bool) l l' :
  filter_m f l = Ok l' → sublist (g <$> l') (g <$> l).
Proof.
  revert l'. induction l as [|a l IH]; intros l' Hf; simpl in Hf.
  { apply Ok_inj in Hf as <-. constructor. }
  destruct (f a) as [b| |]; simpl in Hf; [|done..].
  destruct (filter_m f l); simpl in Hf; [|done..]. apply Ok_inj in Hf as <-.
  destruct b; csimpl; constructor; by apply IH.
Qed.

(** ** Indexes *)

Section indexes.
Context {A V : Type} (key : A → string) (value : A → V).

Lemma or_insert_fold (l : list A) (m : gmap string V) k :
  foldl (λ m a, or_insert m (key a) (value a)) m l !! k =
    match m !! k with Some v => Some v | None => value <$> List.find (λ a, key a == k) l end.
Proof.
  revert m. induction l as [|a l IH]; intros m; simpl; [by destruct (m !! k)|].
  rewrite IH. unfold or_insert. case_bool_decide as Hk.
  - subst k. destruct (m !! key a) as [v|] eqn:Hm; [by rewrite Hm|by rewrite lookup_insert_eq].
  - destruct (m !! key a); [done|]. by rewrite lookup_insert_ne.
Qed.

Lemma push_entry_fold (l : list A) (m : gmap string (list V)) k :
  default [] (foldl (λ m a, push_entry m (key a) (value a)) m l !! k) =
    default [] (m !! k) ++ (value <$> List.filter (λ a, key a == k) l).
Proof.
  revert m. induction l as [|a l IH]; intros m; simpl; [by rewrite app_nil_r|].
  rewrite IH. unfold push_entry. case_bool_decide as Hk.
  - subst k. rewrite lookup_insert_eq. simpl. by rewrite <-(assoc_L (++)).
  - by rewrite lookup_insert_ne.
Qed.
End indexes.

Section ordinals.
Context {A : Type} (key : A → string) (l : list A).

(** The ordinals that an index collects denote the elements that a scan finds. *)
Lemma enumerate_lookup : Forall (λ '(i, a), l !! i = Some a) (enumerate l).
Proof.
  unfold enumerate. apply Forall_forall. intros [i a] Hi.
  apply list_elem_of_lookup in Hi as [j Hj]. rewrite list_lookup_imap in Hj.
  destruct (l !! j) eqn:Hl; simplify_eq/=. done.
Qed.

Lemma enumerate_snd : (enumerate l).*2 = l.
Proof.
  unfold enumerate. rewrite fmap_imap. apply list_eq. intros i.
  rewrite list_lookup_imap. by destruct (l !! i).
Qed.

Lemma find_enumerate (k : string) :
  (List.find (λ p, key p.2 == k) (enumerate l) ≫= λ p, l !! p.1) = List.find (λ a, key a == k) l.
Proof.
  transitivity (List.find (λ a, key a == k) (enumerate l).*2); [|by rewrite enumerate_snd].
  induction enumerate_lookup as [|[i a] ps Hi _ IH]; simpl; [done|].
  by case_bool_decide.
Qed.

Lemma filter_enumerate (k : string) :
  omap (λ i : nat, l !! i) ((List.filter (λ p, key p.2 == k) (enumerate l)).*1) = List.filter (λ a, key a == k) l.
Proof.
  transitivity (List.filter (λ a, key a == k) (enumerate l).*2); [|by rewrite enumerate_snd].
  induction enumerate_lookup as [|[i a] ps Hi _ IH]; simpl; [done|].
  case_bool_decide; csimpl; [|done]. rewrite Hi. by f_equal.
Qed.
End ordinals.

Lemma find_map_ext {A B} (f g : A → option B) l : (∀ a, f a = g a) → find_map f l = find_map g l.
Proof. intros Hfg. induction l as [|a l IH]; simpl; [done|]. by rewrite Hfg, IH. Qed.

Lemma fold_pairs_ext {A B C} (f g : C → A * B → C) c l : (∀ c p, f c p = g c p) → foldl f c l = foldl g c l.
Proof. intros Hfg. revert c. induction l as [|p l IH]; intros c; simpl; [done|]. by rewrite Hfg. Qed.

#[global] Instance borrowed_topology_of workflow : TopologyOf workflow (graph_topology (graph_new workflow)).
Proof.
  split; intros id; simpl.
  - unfold graph_node. simpl. rewrite (or_insert_fold CompiledWorkflowNode.id (λ n, n)), lookup_empty.
    unfold node. by destruct (List.find _ _).
  - unfold graph_incoming, graph_edges. simpl. rewrite (push_entry_fold CompiledWorkflowEdge.to (λ e, e)), lookup_empty.
    by rewrite list_fmap_id.
  - unfold graph_outgoing, graph_edges. simpl. rewrite (push_entry_fold CompiledWorkflowEdge.from (λ e, e)), lookup_empty.
    by rewrite list_fmap_id.
Qed.

#[global] Instance prepared_topology_of workflow : TopologyOf workflow (graph_topology (prepared_graph workflow)).
Proof.
  split; intros id; simpl.
  - unfold graph_node. simpl.
    rewrite (fold_pairs_ext _ (λ m p, or_insert m (CompiledWorkflowNode.id p.2) p.1)) by by intros ? [].
    rewrite (or_insert_fold (λ p : nat * CompiledWorkflowNode, CompiledWorkflowNode.id p.2) fst), lookup_empty.
    unfold node. rewrite <-(find_enumerate CompiledWorkflowNode.id).
    by destruct (List.find _ (enumerate _)).
  - unfold graph_incoming, graph_edges. simpl.
    rewrite (fold_pairs_ext _ (λ m p, push_entry m (CompiledWorkflowEdge.to p.2) p.1)) by by intros ? [].
    rewrite (push_entry_fold (λ p : nat * CompiledWorkflowEdge, CompiledWorkflowEdge.to p.2) fst), lookup_empty.
    apply (filter_enumerate CompiledWorkflowEdge.to).
  - unfold graph_outgoing, graph_edges. simpl.
    rewrite (fold_pairs_ext _ (λ m p, push_entry m (CompiledWorkflowEdge.from p.2) p.1)) by by intros ? [].
    rewrite (push_entry_fold (λ p : nat * CompiledWorkflowEdge, CompiledWorkflowEdge.from p.2) fst), lookup_empty.
    apply (filter_enumerate CompiledWorkflowEdge.from).
Qed.

Lemma latest_attempts_lookup attempts id : latest_attempts attempts !! id = latest_attempt_in attempts id.
Proof.
  unfold latest_attempts. induction attempts as [|a attempts IH] using rev_ind; [done|].
  rewrite foldl_snoc, latest_attempt_snoc. unfold node_of. case_decide as Hd.
  - by rewrite <-Hd, lookup_insert_eq.
  - by rewrite lookup_insert_ne.
Qed.

(** ** Independence of the index *)

Section any_index.
Context (workflow : CompiledWorkflowDefinition) (t : Topology) `{!TopologyOf workflow t}.

Lemma join_edge_index projection n :
  selected_join_edge t workflow n projection = selected_join_edge (scan_topology workflow) workflow n projection.
Proof. unfold selected_join_edge. by rewrite topology_incoming. Qed.

Lemma complete_index fuel projection n :
  node_is_complete_with fuel t workflow projection n
  = node_is_complete_with fuel (scan_topology workflow) workflow projection n.
Proof.
  revert n. induction fuel as [|fuel IH]; intros n; cbn -[own_completion any_m]; [done|].
  rewrite join_edge_index, topology_incoming.
  destruct (_ == "engine.choice-join"); [|destruct (_ == "engine.approval-join"); [|done]].
  - destruct (selected_join_edge _ _ _ _) as [edge|]; [|done]. cbn [mbind option_bind].
    rewrite topology_node. simpl. by destruct (node workflow _).
  - apply any_m_ext. intros edge _. rewrite topology_node. simpl. by destruct (node workflow _); rewrite ?IH.
Qed.

Lemma query_complete_index projection n :
  complete t workflow projection n = complete (scan_topology workflow) workflow projection n.
Proof. apply complete_index. Qed.

Lemma active_index projection :
  active_node_ids t workflow projection = active_node_ids (scan_topology workflow) workflow projection.
Proof. apply explore_ext. intros id. unfold active_successors. by rewrite topology_outgoing. Qed.

Lemma main_route_index id :
  failure_can_inactivate_main_route t workflow id
  = failure_can_inactivate_main_route (scan_topology workflow) workflow id.
Proof.
  unfold failure_can_inactivate_main_route. f_equal. apply find_map_ext. intros fork.
  apply find_map_ext. intros branch. erewrite search_ext; [done|].
  intros node_id. by rewrite topology_outgoing.
Qed.

Lemma settlement_index projection latest latest' :
  (∀ id, latest id = latest' id) →
  settlement_can_decide t workflow projection latest
  = settlement_can_decide (scan_topology workflow) workflow projection latest'.
Proof.
  intros Hl. unfold settlement_can_decide. destruct (CompiledWorkflowGraph.settlement _); [|done].
  f_equal. induction (reverse _) as [|a l IH]; simpl; [done|]. rewrite IH, Hl. do 2 f_equal.
  apply main_route_index.
Qed.

Lemma candidate_index projection now active latest latest' n :
  (∀ id, latest id = latest' id) →
  candidate_is_ready t workflow projection now active latest n
  = candidate_is_ready (scan_topology workflow) workflow projection now active latest' n.
Proof.
  intros Hl. unfold candidate_is_ready. rewrite query_complete_index.
  destruct (negb _); [done|].
  destruct (complete (scan_topology _) _ _ n); cbn [result_bind]; [|done..].
  rewrite (settlement_index _ latest latest'), Hl by done. f_equal.
  rewrite topology_incoming. apply all_m_ext. intros edge _. rewrite topology_node. cbn [scan_topology t_node].
  destruct (node workflow _); [|done]. apply query_complete_index.
Qed.

Lemma ready_scan_index projection now latest latest' :
  (∀ id, latest id = latest' id) →
  ready_scan t workflow projection now latest
  = ready_scan (scan_topology workflow) workflow projection now latest'.
Proof.
  intros Hl. unfold ready_scan. rewrite active_index. f_equal.
  apply filter_m_ext. intros n _. by apply candidate_index.
Qed.

Lemma is_ready_scan_index projection now latest latest' node_id :
  (∀ id, latest id = latest' id) →
  is_ready_scan t workflow projection now latest node_id
  = is_ready_scan (scan_topology workflow) workflow projection now latest' node_id.
Proof.
  intros Hl. unfold is_ready_scan. rewrite active_index.
  apply any_m_ext. intros n _. case_bool_decide; [|done]. by apply candidate_index.
Qed.

(** Membership without building the list answers as the list does. *)
Lemma is_ready_scan_spec projection now latest node_id ids :
  ready_scan t workflow projection now latest = Ok ids →
  is_ready_scan t workflow projection now latest node_id = Ok (bool_decide (node_id ∈ ids)).
Proof.
  unfold ready_scan, is_ready_scan. set (active := active_node_ids _ _ _).
  set (ready := candidate_is_ready t workflow projection now active latest). clearbody ready.
  destruct (filter_m ready _) as [l| |] eqn:Hf; simpl; [|done..]. intros [= <-].
  revert l Hf. induction (CompiledWorkflowGraph.nodes _) as [|n nodes IH]; intros l Hf; simpl in *.
  { apply Ok_inj in Hf as <-. done. }
  destruct (ready n) as [b| |] eqn:Hn; simpl in Hf; [|done..].
  destruct (filter_m ready nodes) as [l'| |] eqn:Hl'; simpl in Hf; [|done..]. apply Ok_inj in Hf as <-.
  specialize (IH l' eq_refl). destruct (decide (CompiledWorkflowNode.id n = node_id)) as [Hid|Hid].
  - rewrite (bool_decide_true (CompiledWorkflowNode.id n = node_id)) by done. destruct b; simpl.
    + f_equal. symmetry. apply bool_decide_eq_true. subst node_id. left.
    + by rewrite IH.
  - rewrite (bool_decide_false (CompiledWorkflowNode.id n = node_id)) by done. simpl. rewrite IH. f_equal.
    destruct b; [|done]. apply bool_decide_ext. csimpl. set_solver.
Qed.
End any_index.

(** ** Active nodes *)

(** A node is active when a path of active edges leads to it from an entry node. *)
Definition reaches_from_entry (workflow : CompiledWorkflowDefinition) (projection : RunProjection)
    (id : string) : Prop :=
  reached_from CompiledWorkflowEdge.from CompiledWorkflowEdge.to (λ edge, edge_is_active edge projection) workflow.(CompiledWorkflowDefinition.graph).(CompiledWorkflowGraph.edges)
    workflow.(CompiledWorkflowDefinition.graph).(CompiledWorkflowGraph.entry_node_ids) id.

Lemma filter_filter {A} (f g : A → bool) l :
  List.filter f (List.filter g l) = List.filter (λ a, g a && f a) l.
Proof. induction l as [|a l IH]; simpl; [done|]. destruct (g a); simpl; by rewrite IH. Qed.

Lemma active_node_ids_spec workflow t `{!TopologyOf workflow t} projection id :
  id ∈ active_node_ids t workflow projection ↔ reaches_from_entry workflow projection id.
Proof.
  unfold reaches_from_entry. rewrite <-explore_reached, (active_index workflow t).
  unfold active_node_ids. erewrite explore_ext; [done|].
  intros x. unfold active_successors, successors_of. simpl. unfold edges_from. by rewrite filter_filter.
Qed.

(** ** Termination *)

(** A numbering of the nodes along which every edge ascends. *)
Definition ascends (workflow : CompiledWorkflowDefinition) (rank : string → nat) : Prop :=
  ∀ edge, edge ∈ workflow.(CompiledWorkflowDefinition.graph).(CompiledWorkflowGraph.edges) → rank edge.(CompiledWorkflowEdge.from) < rank edge.(CompiledWorkflowEdge.to).

Definition node_ids (workflow : CompiledWorkflowDefinition) : list string :=
  CompiledWorkflowNode.id <$> workflow.(CompiledWorkflowDefinition.graph).(CompiledWorkflowGraph.nodes).

Lemma node_elem workflow id n : node workflow id = Some n → n.(CompiledWorkflowNode.id) = id ∧ id ∈ node_ids workflow.
Proof.
  unfold node, node_ids. intros [Hin Hid]%find_Some_elem. apply bool_decide_eq_true in Hid. subst.
  split; [done|]. by apply list_elem_of_fmap_2.
Qed.

Section termination.
Context (workflow : CompiledWorkflowDefinition) (rank : string → nat) (Hrank : ascends workflow rank).

(** The calls on the stack are those of different nodes, so the stack is never deeper than the
    number of nodes. *)
Lemma complete_returns_from fuel projection n seen :
  NoDup seen → (∀ id, id ∈ seen → id ∈ node_ids workflow) →
  (∀ id, id ∈ seen → rank n.(CompiledWorkflowNode.id) < rank id) → n.(CompiledWorkflowNode.id) ∈ node_ids workflow →
  length (node_ids workflow) < length seen + fuel →
  ∃ b, node_is_complete_with fuel (scan_topology workflow) workflow projection n = Ok b.
Proof.
  revert n seen. induction fuel as [|fuel IH]; intros n seen Hnd Hsub Hlow Hn Hlen.
  { assert (length seen ≤ length (node_ids workflow)); [|lia].
    apply submseteq_length, NoDup_submseteq; [done|]. intros id Hid. by apply Hsub. }
  assert (∀ edge predecessor, edge ∈ edges_to workflow n.(CompiledWorkflowNode.id) → node workflow edge.(CompiledWorkflowEdge.from) = Some predecessor →
    ∃ b, node_is_complete_with fuel (scan_topology workflow) workflow projection predecessor = Ok b) as Hpred.
  { intros edge predecessor [Hedge Hto]%elem_of_edges_to [Hid Hin]%node_elem.
    apply Hrank in Hedge. rewrite Hto, <-Hid in Hedge.
    apply (IH _ (n.(CompiledWorkflowNode.id) :: seen)); [| | |by rewrite Hid|simpl; lia].
    - constructor; [|done]. intros Hs%Hlow. lia.
    - intros id [->|?]%elem_of_cons; auto.
    - intros id [->|Hs%Hlow]%elem_of_cons; [done|]. lia. }
  cbn -[own_completion any_m]. destruct (_ == "engine.choice-join"); [|destruct (_ == "engine.approval-join")].
  - destruct (selected_join_edge _ _ _ _) as [edge|] eqn:Hedge; [|by eexists]. simpl.
    destruct (node workflow _) as [predecessor|] eqn:Hp; [|by eexists]. apply (Hpred edge); [|done].
    unfold selected_join_edge in Hedge.
    destruct (List.find _ (unwrap_or_default _)) as [choice|]; [|done]. simpl in Hedge.
    destruct (_ !! _); [|done]. simpl in Hedge. by apply find_Some_elem in Hedge as [? _].
  - apply any_m_ok. intros edge Hedge. destruct (edge_is_active edge projection); [|by eexists].
    destruct (node workflow _) as [predecessor|] eqn:Hp; [by apply (Hpred edge)|by eexists].
  - by eexists.
Qed.

Lemma complete_returns t `{!TopologyOf workflow t} projection n :
  n.(CompiledWorkflowNode.id) ∈ node_ids workflow → ∃ b, complete t workflow projection n = Ok b.
Proof.
  intros Hn. rewrite (query_complete_index workflow t).
  apply (complete_returns_from _ _ _ []); [constructor|set_solver|set_solver|done|].
  unfold completion_fuel, node_ids. rewrite length_fmap. simpl. lia.
Qed.

Lemma candidate_returns t `{!TopologyOf workflow t} projection now active latest n :
  n.(CompiledWorkflowNode.id) ∈ node_ids workflow →
  ∃ b, candidate_is_ready t workflow projection now active latest n = Ok b.
Proof.
  intros Hn. unfold candidate_is_ready. destruct (negb _); [by eexists|].
  destruct (complete_returns t projection n Hn) as [b ->]. simpl.
  unfold and_m. case_match; [|by eexists]. apply all_m_ok. intros edge _.
  rewrite topology_node. destruct (node workflow _) as [p|] eqn:Hp; [|by eexists].
  apply node_elem in Hp as [Hid Hin]. apply complete_returns; [done|]. by rewrite Hid.
Qed.

Lemma ready_scan_returns t `{!TopologyOf workflow t} projection now latest :
  ∃ ids, ready_scan t workflow projection now latest = Ok ids.
Proof.
  unfold ready_scan. set (ready := candidate_is_ready _ _ _ _ _ _).
  destruct (filter_m_ok ready workflow.(CompiledWorkflowDefinition.graph).(CompiledWorkflowGraph.nodes)) as [l ->]; [|by eexists].
  intros n Hn. apply candidate_returns; [done|]. unfold node_ids. by apply list_elem_of_fmap_2.
Qed.
End termination.

(** ** Theorems *)

(** Every index of the definition answers as the oracle. *)
Lemma graph_query_reference graph workflow hash projection now :
  TopologyOf workflow (graph_topology graph) → graph.(ReadinessGraph.workflow) = workflow →
  (let? bound := readiness_binding workflow hash projection in
   if negb bound then Ok [] else graph_ready_at graph hash projection now)
  = reference_ready_at workflow hash projection now.
Proof.
  intros Ht Hw. unfold reference_ready_at, graph_ready_at. rewrite Hw.
  destruct (readiness_binding _ _ _) as [[]| |] eqn:Hb; simpl; try done.
  rewrite ?Hb. simpl. apply ready_scan_index; [done|]. intros id. apply latest_attempts_lookup.
Qed.

Lemma ready_ids_reference workflow hash projection now :
  ready_node_ids_for_projection_at workflow hash projection now = reference_ready_at workflow hash projection now.
Proof. apply graph_query_reference; [apply _|done]. Qed.

Lemma definition_ready_reference workflow hash projection now :
  definition_ready_at workflow hash projection now = reference_ready_at workflow hash projection now.
Proof. apply graph_query_reference; [apply _|done]. Qed.

(** The indexes are transparent: on every definition, projection and time, the query through
    borrowed maps, the query through the prepared ordinals of a definition and the scans of the
    test oracle return the same list of ready nodes, the same error or the same divergence; and
    asking for one node answers whether the list contains it. *)
Theorem readiness_indexes_transparent workflow hash projection now :
  ready_node_ids_for_projection_at workflow hash projection now = reference_ready_at workflow hash projection now
  ∧ definition_ready_at workflow hash projection now = reference_ready_at workflow hash projection now
  ∧ ∀ ids node_id, reference_ready_at workflow hash projection now = Ok ids →
      graph_is_ready_at (graph_new workflow) hash projection now node_id = Ok (bool_decide (node_id ∈ ids)).
Proof.
  split_and!; [apply ready_ids_reference|apply definition_ready_reference|].
  intros ids node_id. unfold reference_ready_at, graph_is_ready_at. simpl.
  destruct (readiness_binding _ _ _) as [[]| |]; simpl; try done.
  - intros Hids. rewrite (is_ready_scan_index workflow _ _ _ _ (latest_attempt projection)).
    + by apply is_ready_scan_spec.
    + intros id. apply latest_attempts_lookup.
  - intros [= <-]. done.
Qed.

(** On a graph along whose edges some numbering of the nodes ascends (a graph without cycles), the
    recursion through the joins of choices and approvals ends for every projection. *)
Lemma reference_returns workflow hash projection now rank :
  ascends workflow rank → no_panic (reference_ready_at workflow hash projection now).
Proof.
  intros Hrank. unfold reference_ready_at. apply no_panic_bind.
  { unfold readiness_binding. repeat case_match; done. }
  intros [] _; simpl; [|done].
  destruct (ready_scan_returns workflow rank Hrank (scan_topology workflow) projection now
    (latest_attempt projection)) as [ids ->]. done.
Qed.

(** What makes a node ready. *)
Record ready_node (workflow : CompiledWorkflowDefinition) (projection : RunProjection) (now : DateTime)
    (n : CompiledWorkflowNode) : Prop := {
  ready_listed : n ∈ workflow.(CompiledWorkflowDefinition.graph).(CompiledWorkflowGraph.nodes);
  ready_reached : reaches_from_entry workflow projection n.(CompiledWorkflowNode.id);
  ready_pending : node_is_complete workflow n projection = Ok false;
  ready_settlement : n.(CompiledWorkflowNode.handler) = "engine.workflow-settlement" →
    settlement_can_decide (scan_topology workflow) workflow projection (latest_attempt projection) = true;
  ready_attempts : attempt_allows projection now n.(CompiledWorkflowNode.id) (latest_attempt projection n.(CompiledWorkflowNode.id)) = true;
  ready_predecessors : ∀ edge, edge ∈ workflow.(CompiledWorkflowDefinition.graph).(CompiledWorkflowGraph.edges) → edge.(CompiledWorkflowEdge.to) = n.(CompiledWorkflowNode.id) →
    reaches_from_entry workflow projection edge.(CompiledWorkflowEdge.from) → edge_is_active edge projection = true →
    ∃ predecessor, node workflow edge.(CompiledWorkflowEdge.from) = Some predecessor
      ∧ node_is_complete workflow predecessor projection = Ok true;
}.

Lemma candidate_spec workflow projection now n :
  n ∈ workflow.(CompiledWorkflowDefinition.graph).(CompiledWorkflowGraph.nodes) →
  candidate_is_ready (scan_topology workflow) workflow projection now
    (active_node_ids (scan_topology workflow) workflow projection) (latest_attempt projection) n = Ok true
  ↔ ready_node workflow projection now n.
Proof.
  intros Hn. unfold candidate_is_ready. set (active := active_node_ids _ _ _).
  assert (∀ id, id ∈ active ↔ reaches_from_entry workflow projection id) as Hactive
    by (intros id; apply active_node_ids_spec, _).
  case_bool_decide as Ha; cbn [negb].
  2: { split; [done|]. intros [_ Hr _ _ _ _]. by apply Hactive in Hr. }
  fold (node_is_complete workflow n projection).
  destruct (node_is_complete workflow n projection) as [d| |] eqn:Hd; cbn [result_bind];
    [|split; [done|intros []; congruence]..].
  unfold and_m. destruct (negb d && _ && _) eqn:Hg.
  2: { split; [done|]. intros [_ _ Hc Hs Hl _]. rewrite Hd in Hc. apply Ok_inj in Hc as ->.
    rewrite Hl, andb_true_r in Hg. simpl in Hg. apply orb_false_iff in Hg as [Hh Hg].
    apply negb_false_iff, bool_decide_eq_true in Hh. by rewrite Hs in Hg. }
  apply andb_true_iff in Hg as [[Hd'%negb_true_iff Hs]%andb_true_iff Hl].
  rewrite all_m_true, Forall_forall. simpl. split.
  - intros Hall. split; try done.
    + by apply Hactive.
    + by rewrite Hd, Hd'.
    + intros Hh. rewrite Hh in Hs. by rewrite bool_decide_true in Hs.
    + intros edge Hedge Hto Hfrom Hact.
      assert (edge ∈ List.filter (λ edge, bool_decide (edge.(CompiledWorkflowEdge.from) ∈ active) && edge_is_active edge projection)
                (edges_to workflow n.(CompiledWorkflowNode.id))) as Hin.
      { rewrite elem_of_filterb, elem_of_edges_to, Hact, andb_true_r. split; [done|].
        by apply bool_decide_eq_true, Hactive. }
      specialize (Hall _ Hin). simpl in Hall. destruct (node workflow _) as [p|]; [|done]. by exists p.
  - intros [_ _ _ _ _ Hpred] edge Hedge. rewrite elem_of_filterb, elem_of_edges_to in Hedge.
    destruct Hedge as [[Hin Hto] [Hf%bool_decide_eq_true Hact]%andb_true_iff].
    destruct (Hpred edge Hin Hto) as (p & -> & Hp); [by apply Hactive|done|done].
Qed.

(** C8 What ready means: the nodes that a query of a bound, running run reports are, in the order
    of the definition, exactly those that a path of active edges reaches from an entry, that are
    not complete, whose attempts allow another one now, and all of whose predecessors on active
    edges are complete. *)
Theorem ready_nodes_spec workflow hash projection now ids :
  readiness_binding workflow hash projection = Ok true →
  ready_node_ids_for_projection_at workflow hash projection now = Ok ids →
  sublist ids (node_ids workflow)
  ∧ ∀ id, id ∈ ids ↔ ∃ n, n.(CompiledWorkflowNode.id) = id ∧ ready_node workflow projection now n.
Proof.
  intros Hb. rewrite ready_ids_reference.
  unfold reference_ready_at. rewrite Hb. simpl. unfold ready_scan.
  set (ready := candidate_is_ready _ _ _ _ _ _).
  destruct (filter_m ready _) as [l| |] eqn:Hf; simpl; [|done..]. intros [= <-]. split.
  - by eapply filter_m_sublist.
  - intros id. rewrite list_elem_of_fmap. split.
    + intros (n & -> & Hn). apply (filter_m_elem _ _ _ n Hf) in Hn as [Hin Hr].
      exists n. split; [done|]. by apply candidate_spec.
    + intros (n & <- & Hr). exists n. split; [done|]. apply (filter_m_elem _ _ _ n Hf).
      assert (n ∈ workflow.(CompiledWorkflowDefinition.graph).(CompiledWorkflowGraph.nodes)) as Hin by apply Hr.
      split; [done|]. by apply candidate_spec.
Qed.
