(* ===== verification/ModelProperties.v ===== *)
(** * What a validated definition guarantees

    A definition that passes [validate_structure] has a graph without cycles, all
    of whose nodes lie on a path from an entry to the one terminal node, and
    retry policies whose delays are always defined. *)

From S2P Require Import Prelude GraphSearch Strings Json EventTypes ProjectionTypes Guards.
From S2P Require Import ModelTypes EngineExternals ModelQueries ModelIssues ModelContracts.
From S2P Require Import GraphContracts ForkContracts TopologicalOrder LoopContracts.
From S2P Require Import DurableContracts ModelValidation Readiness ReadinessProperties.

(** ** Lists of issues *)

Lemma push_if_nil c code m : push_if c code m = [] ↔ c = false.
Proof. unfold push_if. by destruct c. Qed.

Lemma elem_of_push_if i c code m : i ∈ push_if c code m ↔ c = true ∧ i = issue code m.
Proof. unfold push_if. destruct c; set_solver. Qed.

Lemma elem_of_scan_issues {S A} (body : S → A → S * list ModelIssue) i state l :
  i ∈ (scan_issues body state l).2 → ∃ s a, i ∈ (body s a).2.
Proof.
  revert state. induction l as [|a l IH]; intros state; [set_solver|]. simpl.
  destruct (body state a) as [s issues] eqn:Hb. destruct (scan_issues body s l) as [s' rest] eqn:Hs. simpl.
  intros [Hi|Hi]%elem_of_app; [exists state, a; by rewrite Hb|]. apply (IH s). by rewrite Hs.
Qed.

Lemma flat_map_nil {A} (f : A → list ModelIssue) l : flat_map f l = [] ↔ ∀ a, a ∈ l → f a = [].
Proof.
  induction l as [|a l IH]; simpl; [set_solver|]. rewrite app_nil, IH. split.
  - intros [? ?] b [->|?]%elem_of_cons; auto.
  - intros Hall. split; [apply Hall; left|]. intros b Hb. apply Hall. by right.
Qed.

Lemma scan_issues_cons {S A} (body : S → A → S * list ModelIssue) state a l :
  scan_issues body state (a :: l) =
    ((scan_issues body (body state a).1 l).1, (body state a).2 ++ (scan_issues body (body state a).1 l).2).
Proof. simpl. destruct (body state a) as [s i]. simpl. by destruct (scan_issues body s l). Qed.

(** A loop over distinct keys that inserts each of them. *)
Section keyed.
Context {A : Type} (key : A → string) (body : gset string → A → gset string * list ModelIssue).
Context (Hstate : ∀ seen a, (body seen a).1 = {[key a]} ∪ seen).

Lemma scan_keys seen l : (scan_issues body seen l).1 = list_to_set (key <$> l) ∪ seen.
Proof using All.
  revert seen. induction l as [|a l IH]; intros seen; [simpl; set_solver|].
  rewrite scan_issues_cons. simpl. rewrite IH, Hstate. set_solver.
Qed.

(** Without issues, each element was checked against the keys before it. *)
Lemma scan_keys_nil seen l :
  (scan_issues body seen l).2 = [] → ∀ i a, l !! i = Some a →
    (body (list_to_set (key <$> take i l) ∪ seen) a).2 = [].
Proof using All.
  revert seen. induction l as [|b l IH]; intros seen Hnil i a Hi; [done|].
  rewrite scan_issues_cons in Hnil. simpl in Hnil. apply app_nil in Hnil as [Hb Hl].
  destruct i as [|i]; simpl in *; [simplify_eq; by rewrite (left_id_L ∅ (∪))|].
  rewrite Hstate in Hl. specialize (IH _ Hl i a Hi).
  eapply eq_trans; [|exact IH]. do 2 f_equal. csimpl. set_solver.
Qed.

Context (Hfresh : ∀ seen a, key a ∈ seen → (body seen a).2 ≠ []).
Lemma scan_keys_distinct l : (scan_issues body ∅ l).2 = [] → NoDup (key <$> l).
Proof using All.
  intros Hnil. apply NoDup_alt. intros i j k Hi Hj.
  apply list_lookup_fmap_Some in Hi as (a & -> & Hi). apply list_lookup_fmap_Some in Hj as (b & Hab & Hj).
  assert (∀ i j a b, l !! i = Some a → l !! j = Some b → key a = key b → ¬ i < j) as Hlt.
  { clear - Hnil Hstate Hfresh. intros i j a b Hi Hj Hk Hlt.
    eapply (Hfresh (list_to_set (key <$> take j l) ∪ ∅) b); [|by apply scan_keys_nil].
    rewrite <-Hk, elem_of_union, elem_of_list_to_set. left. apply list_elem_of_fmap. exists a. split; [done|].
    apply list_elem_of_lookup. exists i. by rewrite lookup_take_lt. }
  destruct (decide (i < j)); [exfalso; by eapply (Hlt i j)|]. destruct (decide (j < i)); [|lia].
  exfalso. by eapply (Hlt j i).
Qed.
End keyed.

(** ** The graph *)

Abbreviation graph_edges d := d.(CompiledWorkflowDefinition.graph).(CompiledWorkflowGraph.edges).
Abbreviation graph_nodes d := d.(CompiledWorkflowDefinition.graph).(CompiledWorkflowGraph.nodes).
Abbreviation graph_entries d := d.(CompiledWorkflowDefinition.graph).(CompiledWorkflowGraph.entry_node_ids).

(** One step along an edge. *)
Definition follows_edge (d : CompiledWorkflowDefinition) : relation string :=
  leads (successors_of CompiledWorkflowEdge.from CompiledWorkflowEdge.to (λ _, true) (graph_edges d)).

(** What the checks of the graph establish. *)
Record sound_graph (d : CompiledWorkflowDefinition) : Prop := {
  sound_nodes : NoDup (node_ids d);
  sound_edges : ∀ edge, edge ∈ graph_edges d → edge.(CompiledWorkflowEdge.from) ∈ node_ids d ∧ edge.(CompiledWorkflowEdge.to) ∈ node_ids d;
  sound_edge_ids : NoDup (CompiledWorkflowEdge.id <$> graph_edges d);
  sound_entries : ∀ id, id ∈ graph_entries d →
    id ∈ node_ids d ∧ ∀ edge, edge ∈ graph_edges d → edge.(CompiledWorkflowEdge.to) ≠ id;
  sound_reachable : ∀ id, id ∈ node_ids d → ∃ entry, entry ∈ graph_entries d ∧ rtc (follows_edge d) entry id;
  sound_acyclic : ∃ rank, ascends d rank;
  sound_terminal : ∃ terminal, terminal ∈ node_ids d ∧ ∀ id, id ∈ node_ids d →
    (∀ edge, edge ∈ graph_edges d → edge.(CompiledWorkflowEdge.from) ≠ id) ↔ id = terminal;
}.

Lemma inspect_edge_state node_ids seen edge : (inspect_edge node_ids seen edge).1 = {[edge.(CompiledWorkflowEdge.id)]} ∪ seen.
Proof. done. Qed.

Lemma inspect_node_state d reusable seen n : (inspect_node d reusable seen n).1 = {[n.(CompiledWorkflowNode.id)]} ∪ seen.
Proof. done. Qed.

Lemma inspect_entry_state ids incoming seen id : (inspect_entry ids incoming seen id).1 = {[id]} ∪ seen.
Proof. done. Qed.

Lemma filter_all {A} (f : A → bool) l : (∀ a, a ∈ l → f a = true) → List.filter f l = l.
Proof.
  induction l as [|a l IH]; intros Hall; simpl; [done|]. rewrite Hall by left. f_equal. apply IH.
  intros b Hb. apply Hall. by right.
Qed.

Lemma filter_singleton {A} (f : A → bool) l a :
  List.filter f l = [a] → ∀ b, b ∈ l → f b = true ↔ b = a.
Proof.
  intros Hf b Hb. assert (b ∈ List.filter f l ↔ b ∈ [a]) as Hin by by rewrite Hf.
  rewrite elem_of_filterb, list_elem_of_singleton in Hin. tauto.
Qed.

Lemma edge_targets_nil edges id : is_empty (edge_targets edges id) = true ↔ ∀ edge, edge ∈ edges → edge.(CompiledWorkflowEdge.from) ≠ id.
Proof.
  unfold edge_targets. induction edges as [|e l IH]; csimpl; [set_solver|].
  case_bool_decide as He; csimpl.
  - split; [done|]. intros Hall. exfalso. by apply (Hall e); [left|].
  - rewrite IH. split; [intros Hall e' [->|?]%elem_of_cons; auto|]. intros Hall e' ?. apply Hall. by right.
Qed.

Section graph.
Context `{EngineExternals} (d : CompiledWorkflowDefinition) (Hvalid : inspect_structure d = []).

Lemma valid_parts :
  ∃ reusable, (scan_issues (inspect_node d reusable) ∅ (graph_nodes d)).2 = []
    ∧ inspect_graph d.(CompiledWorkflowDefinition.graph) (list_to_set (node_ids d)) = []
    ∧ inspect_parallel_contract d = [] ∧ inspect_durable_wait_contract d = [].
Proof using Hvalid.
  unfold inspect_structure in Hvalid. destruct (inspect_reusable_contract d) as [reusable issues].
  exists reusable. pose proof (scan_keys CompiledWorkflowNode.id _ (inspect_node_state d reusable) ∅ (graph_nodes d)) as Hids.
  destruct (scan_issues (inspect_node d reusable) ∅ _) as [ids node_issues]. simpl in Hids |- *.
  rewrite !app_nil in Hvalid. rewrite (right_id_L ∅ (∪)) in Hids. subst ids. unfold node_ids. tauto.
Qed.

Lemma valid_nodes_distinct : NoDup (node_ids d).
Proof using Hvalid.
  destruct valid_parts as (reusable & Hn & _). eapply scan_keys_distinct; [apply inspect_node_state| |done].
  intros seen n Hin. cbn -[inspect_retry inspect_script_runtime inspect_expression]. rewrite !app_nil, !push_if_nil.
  rewrite bool_decide_true by done. naive_solver.
Qed.

(** A node of the graph passed every check of a node. *)
Lemma valid_node n : n ∈ graph_nodes d → inspect_retry d n = [] ∧ ∃ reusable, inspect_script_runtime d reusable n = [].
Proof using Hvalid.
  intros [i Hi]%list_elem_of_lookup. destruct valid_parts as (reusable & Hn & _).
  apply (scan_keys_nil CompiledWorkflowNode.id _ (inspect_node_state d reusable)) with (i := i) (a := n) in Hn; [|done].
  unfold inspect_node in Hn. simpl in Hn. rewrite !app_nil in Hn. split; [|exists reusable]; tauto.
Qed.

Lemma valid_edges_known edge : edge ∈ graph_edges d → known_edge (list_to_set (node_ids d)) edge = true.
Proof using Hvalid.
  intros [i Hi]%list_elem_of_lookup. destruct valid_parts as (_ & _ & Hg & _). unfold inspect_graph in Hg.
  rewrite !app_nil in Hg. destruct Hg as [Hg _].
  apply (scan_keys_nil CompiledWorkflowEdge.id _ (inspect_edge_state _)) with (i := i) (a := edge) in Hg; [|done].
  unfold inspect_edge in Hg. simpl in Hg. rewrite !app_nil, !push_if_nil in Hg.
  destruct Hg as (_ & _ & Hk). by apply negb_false_iff in Hk.
Qed.

Lemma known_edges_all : List.filter (known_edge (list_to_set (node_ids d))) (graph_edges d) = graph_edges d.
Proof using Hvalid. apply filter_all, valid_edges_known. Qed.

(** The part of the graph check that remains, about all the edges. *)
Lemma valid_graph_parts :
  let edges := graph_edges d in
  let ids : gset string := list_to_set (node_ids d) in
  let incoming := count_targets ids (CompiledWorkflowEdge.to <$> edges) in
  let entries := List.filter (λ id, bool_decide (id ∈ ids)) (graph_entries d) in
  NoDup (CompiledWorkflowEdge.id <$> edges)
  ∧ (scan_issues (inspect_entry ids incoming) ∅ (graph_entries d)).2 = []
  ∧ (∀ id, id ∈ node_ids d → id ∈ explore (search_fuel edges + length entries) (edge_targets edges) ∅ entries)
  ∧ count_topological (length (node_ids d) + length (node_ids d)) (edge_targets edges) incoming
      (List.filter (λ id, (rem incoming id =? 0)%N) (node_ids d)) = N.of_nat (size ids)
  ∧ ∃ terminal, List.filter (λ id, is_empty (edge_targets edges id)) (node_ids d) = [terminal].
Proof using Hvalid.
  destruct valid_parts as (_ & _ & Hg & _). unfold inspect_graph in Hg. rewrite known_edges_all in Hg.
  fold (node_ids d) in Hg. rewrite !app_nil in Hg. destruct Hg as (He & Hen & Hr & Hc & Ht).
  rewrite flat_map_nil in Hr. rewrite push_if_nil in Hc, Ht. apply negb_false_iff in Hc, Ht.
  apply bool_decide_eq_true in Ht. apply N.eqb_eq in Hc. split_and!; [|done| |done|].
  - eapply scan_keys_distinct; [apply inspect_edge_state| |done]. intros seen e Hin. simpl.
    rewrite !app_nil, !push_if_nil, bool_decide_true by done. naive_solver.
  - intros id Hid. apply Hr, push_if_nil in Hid. by apply negb_false_iff, bool_decide_eq_true in Hid.
  - clear -Ht. revert Ht. destruct (List.filter _ (node_ids d)) as [|t [|? ?]]; [done|by exists t|done].
Qed.

Lemma valid_entry id :
  id ∈ graph_entries d → id ∈ node_ids d ∧ ∀ edge, edge ∈ graph_edges d → edge.(CompiledWorkflowEdge.to) ≠ id.
Proof using Hvalid.
  intros [i Hi]%list_elem_of_lookup. destruct valid_graph_parts as (_ & Hen & _).
  apply (scan_keys_nil (λ id, id) _ (inspect_entry_state _ _)) with (i := i) (a := id) in Hen; [|done].
  unfold inspect_entry in Hen. simpl in Hen. case_bool_decide; [done|]. simpl in Hen.
  case_bool_decide as Hin; [|done]. simpl in Hen. rewrite push_if_nil in Hen.
  apply negb_false_iff, N.eqb_eq in Hen. split; [by apply elem_of_list_to_set in Hin|].
  intros edge He Hto. fold (rem (count_targets (list_to_set (node_ids d)) (CompiledWorkflowEdge.to <$> graph_edges d)) id) in Hen.
  rewrite rem_count_targets in Hen. assert (target_count id (CompiledWorkflowEdge.to <$> graph_edges d) = 0) as Hz by lia.
  apply target_count_zero in Hz. apply Hz, list_elem_of_fmap. eauto.
Qed.

Lemma edge_targets_successors edges id : edge_targets edges id = successors_of CompiledWorkflowEdge.from CompiledWorkflowEdge.to (λ _, true) edges id.
Proof using Type. unfold edge_targets, successors_of. f_equal. apply List.filter_ext. intros e. by rewrite andb_true_r. Qed.

Lemma valid_reachable id :
  id ∈ node_ids d → ∃ entry, entry ∈ graph_entries d ∧ rtc (follows_edge d) entry id.
Proof using Hvalid.
  intros Hid. destruct valid_graph_parts as (_ & _ & Hr & _). specialize (Hr id Hid).
  rewrite (explore_ext _ _ (successors_of CompiledWorkflowEdge.from CompiledWorkflowEdge.to (λ _, true) (graph_edges d))) in Hr
    by apply edge_targets_successors.
  apply explore_spec in Hr as [?|(entry & [? _]%elem_of_filterb & ?)]; [set_solver|by exists entry| |].
  - pose proof (unexplored_le CompiledWorkflowEdge.from (graph_edges d) ∅). unfold search_fuel. lia.
  - intros ? ? ?. set_solver.
Qed.

Lemma valid_acyclic : ∃ rank, ascends d rank.
Proof using Hvalid.
  destruct valid_graph_parts as (_ & _ & _ & Hc & _).
  assert (size (list_to_set (node_ids d) : gset string) = length (node_ids d)) as Hsz
    by apply size_list_to_set, valid_nodes_distinct.
  apply (topological_exact CompiledWorkflowEdge.from CompiledWorkflowEdge.to (graph_edges d) (list_to_set (node_ids d))) in Hc as [rank Hrank].
  - exists rank. exact Hrank.
  - intros e He. apply valid_edges_known in He. unfold known_edge in He.
    by apply andb_true_iff in He as [?%bool_decide_eq_true ?%bool_decide_eq_true].
  - apply valid_nodes_distinct.
  - done.
  - lia.
Qed.

Lemma valid_sound_graph : sound_graph d.
Proof using Hvalid.
  split.
  - apply valid_nodes_distinct.
  - intros edge He%valid_edges_known. unfold known_edge in He.
    apply andb_true_iff in He as [Hf%bool_decide_eq_true Ht%bool_decide_eq_true].
    by rewrite elem_of_list_to_set in Hf, Ht.
  - apply valid_graph_parts.
  - apply valid_entry.
  - apply valid_reachable.
  - apply valid_acyclic.
  - destruct valid_graph_parts as (_ & _ & _ & _ & terminal & Ht). exists terminal. split.
    { assert (terminal ∈ [terminal]) as Hin by left. rewrite <-Ht in Hin. by apply elem_of_filterb in Hin as [? _]. }
    intros id Hid.
    rewrite <-(filter_singleton _ _ _ Ht id Hid). by rewrite edge_targets_nil.
Qed.
End graph.

Lemma validate_structure_ok `{EngineExternals} d : validate_structure d = Ok tt ↔ inspect_structure d = [].
Proof. unfold validate_structure, issues_result. by destruct (inspect_structure d). Qed.

(** ** The terminal node *)

Lemma zero_counts_lookup (nodes : list CompiledWorkflowNode) id :
  (list_to_map ((λ (node : CompiledWorkflowNode), (node.(CompiledWorkflowNode.id), 0%N)) <$> nodes) : gmap string N) !! id
  = if decide (id ∈ CompiledWorkflowNode.id <$> nodes) then Some 0%N else None.
Proof.
  induction nodes as [|n l IH]; csimpl; [done|].
  destruct (decide (n.(CompiledWorkflowNode.id) = id)) as [<-|Hne].
  - rewrite lookup_insert_eq, decide_True by left. done.
  - rewrite lookup_insert_ne, IH by done. repeat case_decide; set_solver.
Qed.

Lemma outgoing_counts_lookup d id :
  outgoing_counts d !! id = if decide (id ∈ node_ids d) then Some (len (edges_out_of (graph_edges d) id)) else None.
Proof.
  unfold outgoing_counts, edges_out_of, node_ids. induction (graph_edges d) as [|e l IH] using rev_ind.
  { simpl. apply zero_counts_lookup. }
  rewrite foldl_snoc, List.filter_app. unfold len in *. rewrite length_app. simpl.
  destruct (decide (e.(CompiledWorkflowEdge.from) = id)) as [Hf|Hne].
  - subst id. rewrite lookup_alter_eq, IH, bool_decide_true by done. case_decide; simpl; [|done]. f_equal. lia.
  - rewrite lookup_alter_ne, IH, bool_decide_false by done. case_decide; simpl; [|done]. f_equal. lia.
Qed.

Lemma no_edges_out edges id : len (edges_out_of edges id) = 0%N ↔ ∀ edge, edge ∈ edges → edge.(CompiledWorkflowEdge.from) ≠ id.
Proof.
  rewrite <-edge_targets_nil. unfold len, edges_out_of, edge_targets. by destruct (List.filter _ edges).
Qed.

(** The query finds the node without outgoing edges. *)
Lemma terminal_node_id_spec d terminal :
  terminal ∈ node_ids d →
  (∀ id, id ∈ node_ids d → (∀ edge, edge ∈ graph_edges d → edge.(CompiledWorkflowEdge.from) ≠ id) ↔ id = terminal) →
  terminal_node_id d = Some terminal.
Proof.
  intros Hin Hterm. unfold terminal_node_id.
  set (l := List.filter _ _).
  assert (∀ entry, entry ∈ l ↔ entry = (terminal, 0%N)) as Hl.
  { intros [id c]. unfold l. rewrite elem_of_filterb, elem_of_map_to_list, outgoing_counts_lookup, bool_decide_eq_true.
    simpl. case_decide as Hid.
    - split.
      + intros [[= <-] Hz]. rewrite Hz. f_equal. apply Hterm; [done|]. by apply no_edges_out.
      + intros [= -> ->]. assert (len (edges_out_of (graph_edges d) terminal) = 0%N) as ->; [|done].
        apply no_edges_out. by apply Hterm.
    - split; [by intros [? _]|]. by intros [= -> ->]. }
  assert (NoDup l) as Hnd by apply NoDup_filterb, NoDup_map_to_list.
  clearbody l. destruct l as [|x [|y l]].
  - specialize (Hl (terminal, 0%N)). set_solver.
  - assert (x = (terminal, 0%N)) as -> by (apply Hl; left). done.
  - assert (x = y); [|subst; apply NoDup_cons in Hnd; set_solver].
    rewrite (proj1 (Hl x)) by left. symmetry. apply Hl. right. left.
Qed.

(** In a sound graph every node leads to the terminal node. *)
Lemma leads_to_terminal d terminal rank id :
  (∀ edge, edge ∈ graph_edges d → edge.(CompiledWorkflowEdge.from) ∈ node_ids d ∧ edge.(CompiledWorkflowEdge.to) ∈ node_ids d) →
  (∀ id, id ∈ node_ids d → (∀ edge, edge ∈ graph_edges d → edge.(CompiledWorkflowEdge.from) ≠ id) ↔ id = terminal) →
  ascends d rank → id ∈ node_ids d → rtc (follows_edge d) id terminal.
Proof.
  intros Hedges Hterm Hrank.
  set (top := max_list (rank <$> node_ids d)).
  assert (∀ id, id ∈ node_ids d → rank id ≤ top) as Htop.
  { intros x Hx. apply max_list_elem_of_le, list_elem_of_fmap. eauto. }
  remember (top - rank id) as m eqn:Hm. revert id Hm. induction m as [m IH] using lt_wf_ind. intros id -> Hid.
  destruct (decide (id = terminal)) as [->|Hne]; [done|].
  destruct (List.find (λ edge, edge.(CompiledWorkflowEdge.from) == id) (graph_edges d)) as [edge|] eqn:Hf.
  - apply find_Some_elem in Hf as [He Hfrom%bool_decide_eq_true]. subst id.
    apply rtc_l with edge.(CompiledWorkflowEdge.to).
    + unfold follows_edge, leads, successors_of. apply list_elem_of_fmap. exists edge. split; [done|].
      apply elem_of_filterb. split; [done|]. by rewrite bool_decide_true.
    + destruct (Hedges _ He) as [_ Hto]. eapply IH; [|done|done]. specialize (Hrank _ He). specialize (Htop _ Hto). lia.
  - exfalso. apply Hne, Hterm; [done|]. intros edge He Hfrom.
    apply (find_None_elem _ _ edge) in Hf; [|done]. by apply bool_decide_eq_false in Hf.
Qed.

(** C25 Validated graphs are sound: in a definition that passes [validate_structure], node and edge
    identifiers are distinct, edges join nodes, entries have no incoming edge, there is no cycle, and
    every node lies on a path from an entry to the one terminal node that [terminal_node_id] finds. *)
Theorem valid_graphs_sound `{EngineExternals} d :
  validate_structure d = Ok tt →
  sound_graph d ∧ ∃ terminal, terminal_node_id d = Some terminal
    ∧ ∀ id, id ∈ node_ids d → rtc (follows_edge d) id terminal.
Proof.
  intros Hv%validate_structure_ok%valid_sound_graph. split; [done|].
  destruct Hv as [_ Hedges _ _ _ [rank Hrank] (terminal & Hin & Hterm)]. exists terminal.
  split; [by apply terminal_node_id_spec|]. intros id Hid. by eapply leads_to_terminal.
Qed.

(** The check for cycles is exact: on a graph with distinct node identifiers it reports a cycle
    exactly when no numbering of the nodes ascends along all its edges (those between known nodes). *)
Theorem cycles_reported_exactly (graph : CompiledWorkflowGraph) :
  NoDup (CompiledWorkflowNode.id <$> graph.(CompiledWorkflowGraph.nodes)) →
  let ids : gset string := list_to_set (CompiledWorkflowNode.id <$> graph.(CompiledWorkflowGraph.nodes)) in
  issue ModelIssueCode.CyclicGraph "Compiled graph contains a cycle." ∈ inspect_graph graph ids
  ↔ ¬ ∃ rank : string → nat, ∀ edge, edge ∈ graph.(CompiledWorkflowGraph.edges) → known_edge ids edge = true →
        rank edge.(CompiledWorkflowEdge.from) < rank edge.(CompiledWorkflowEdge.to).
Proof.
  intros Hnd ids. set (edges := List.filter (known_edge ids) graph.(CompiledWorkflowGraph.edges)).
  assert (size ids = length (CompiledWorkflowNode.id <$> graph.(CompiledWorkflowGraph.nodes))) as Hsz by by apply size_list_to_set.
  assert (∀ e, e ∈ edges → e.(CompiledWorkflowEdge.from) ∈ ids ∧ e.(CompiledWorkflowEdge.to) ∈ ids) as Hknown.
  { intros e [_ Hk]%elem_of_filterb. unfold known_edge in Hk.
    by apply andb_true_iff in Hk as [?%bool_decide_eq_true ?%bool_decide_eq_true]. }
  transitivity (¬ ∃ rank, ascending_rank CompiledWorkflowEdge.from CompiledWorkflowEdge.to edges rank).
  - rewrite <-(topological_exact _ _ _ _ Hknown _ _ Hnd eq_refl) by (rewrite Hsz; apply Nat.le_add_r).
    unfold inspect_graph. fold edges ids. rewrite !elem_of_app, <-N.eqb_neq, <-negb_true_iff. split; [|intros Hc].
    + intros [Hi|[Hi|[Hi|[Hi|Hi]]]].
      * apply elem_of_scan_issues in Hi as (? & ? & Hi). unfold inspect_edge in Hi. simpl in Hi.
        rewrite !elem_of_app, !elem_of_push_if in Hi. naive_solver.
      * apply elem_of_scan_issues in Hi as (? & ? & Hi). unfold inspect_entry in Hi. simpl in Hi.
        repeat case_match; rewrite ?list_elem_of_singleton, ?elem_of_push_if in Hi; naive_solver.
      * apply list_elem_of_In, in_flat_map in Hi as (? & _ & Hi%list_elem_of_In%elem_of_push_if). naive_solver.
      * by apply elem_of_push_if in Hi as [Hi _].
      * apply elem_of_push_if in Hi. naive_solver.
    + do 3 right. left. by apply elem_of_push_if.
  - split; intros Hn [rank Hrank]; apply Hn; exists rank.
    + intros e [He Hk]%elem_of_filterb. auto.
    + intros e He Hk. apply Hrank, elem_of_filterb. auto.
Qed.

(** C35 Readiness terminates on validated definitions: whatever the events of a run, the query for its
    ready nodes, through either index, returns the list or the binding error; the recursion through
    the joins of choices and approvals always ends. *)
Theorem valid_definitions_return `{EngineExternals} d hash projection now :
  validate_structure d = Ok tt →
  no_panic (ready_node_ids_for_projection_at d hash projection now) ∧ no_panic (definition_ready_at d hash projection now).
Proof.
  intros Hv%validate_structure_ok%valid_sound_graph. destruct (sound_acyclic _ Hv).
  rewrite ready_ids_reference, definition_ready_reference. split; by eapply reference_returns.
Qed.

(** ** Retry policies *)

Lemma f64_eqb_two x : f64_eqb x f64_two = true → x = f64_two.
Proof.
  unfold f64_eqb. intros [_ Hx]%andb_true_iff. apply orb_true_iff in Hx as [Hx%N.eqb_eq|Hx]; [done|].
  by rewrite andb_false_r in Hx.
Qed.

(** The delays of an exponential backoff within the bounds of the model. *)
Lemma exponential_delay `{EngineExternals} attempts initial maximum next :
  (∀ e, (e ≤ 8)%N → powi (f64_of_bits f64_two) (Z.of_N e) = u64_as_f64 (2 ^ e)) →
  (1 ≤ initial ≤ maximum)%N → (maximum ≤ MAX_DELAY_MS)%N → (2 ≤ next ≤ attempts)%N → (attempts ≤ MAX_ATTEMPTS)%N →
  delay_before_attempt (RetryPolicy.mk attempts (BackoffPolicy.Exponential initial f64_two (Some maximum))) next
  = Some (N.min (initial * 2 ^ (next - 2)) maximum).
Proof.
  intros Hpowi Hi Hm Hn Ha. unfold delay_before_attempt, MAX_DELAY_MS, MAX_ATTEMPTS in *. simpl.
  rewrite (proj2 (N.ltb_ge _ _)), (proj2 (N.ltb_ge _ _)) by lia. simpl.
  unfold i32_try_from. rewrite (proj2 (N.leb_le _ _)) by lia. simpl. rewrite Hpowi by lia.
  assert (1 ≤ 2 ^ (next - 2) ≤ 256)%N as Hp.
  { split; [apply (N.pow_le_mono_r 2 0); lia|]. apply (N.pow_le_mono_r 2 _ 8); lia. }
  assert (initial * 2 ^ (next - 2) ≤ 86400000 * 256)%N as Hprod by (apply N.mul_le_mono; lia).
  rewrite f64_mul_exact, f64_min_exact by nia.
  set (delay := N.min (initial * 2 ^ (next - 2)) maximum).
  assert (1 ≤ delay ≤ 86400000)%N as Hd by (unfold delay; nia). clearbody delay.
  destruct (u64_as_f64_fields delay) as (Hf & _ & _); [lia|]. rewrite Hf, f64_lt_exact by lia.
  rewrite f64_lt_max, (proj2 (N.ltb_ge _ _)) by lia.
  simpl. by rewrite f64_as_u64_exact by lia.
Qed.

(** Retries of validated definitions are always schedulable: a retry policy of the main graph
    allows 2 to 10 attempts, and every further attempt has a delay between 1 ms and 24 h: the fixed
    one, or the initial delay doubled per attempt up to the maximum.  [f64::powi] is assumed exact on
    small powers of two. *)
Theorem valid_retry_delays `{EngineExternals} d n policy next :
  (∀ e, (e ≤ 8)%N → powi (f64_of_bits f64_two) (Z.of_N e) = u64_as_f64 (2 ^ e)) →
  validate_structure d = Ok tt → n ∈ graph_nodes d → n.(CompiledWorkflowNode.retry_policy) = Some policy →
  (2 ≤ next ≤ policy.(RetryPolicy.max_attempts))%N →
  (policy.(RetryPolicy.max_attempts) ≤ MAX_ATTEMPTS)%N
  ∧ ∃ delay, delay_before_attempt policy next = Some delay ∧ (1 ≤ delay ≤ MAX_DELAY_MS)%N
    ∧ match policy.(RetryPolicy.backoff) with
      | BackoffPolicy.Fixed delay_ms => delay = delay_ms
      | BackoffPolicy.Exponential initial _ (Some maximum) => delay = N.min (initial * 2 ^ (next - 2)) maximum
      | _ => False
      end.
Proof.
  intros Hpowi Hv%validate_structure_ok Hn Hp Hnext. destruct (valid_node d Hv n Hn) as [Hr _].
  unfold inspect_retry in Hr. rewrite Hp in Hr. destruct (version_at_least d 6); [|done]. simpl in Hr.
  rewrite push_if_nil in Hr. apply negb_false_iff in Hr. unfold in_range in Hr. simplify_guards.
  destruct policy as [attempts backoff]. simpl in *.
  match goal with Hb : valid_backoff _ = true |- _ => rename Hb into Hback end.
  split; [lia|]. destruct backoff as [|ms|initial multiplier [maximum|]]; cbn [valid_backoff default id] in Hback.
  - discriminate.
  - exists ms. unfold in_range in Hback. simplify_guards. split_and!; [|lia|lia|done].
    unfold delay_before_attempt. simpl. rewrite (proj2 (N.ltb_ge _ _)), (proj2 (N.ltb_ge _ _)) by lia. done.
  - unfold in_range in Hback. simplify_guards.
    match goal with Ht : f64_eqb _ _ = true |- _ => apply f64_eqb_two in Ht as -> end.
    exists (N.min (initial * 2 ^ (next - 2)) maximum). split; [apply exponential_delay; [done|lia..]|].
    assert (1 ≤ 2 ^ (next - 2))%N by (apply (N.pow_le_mono_r 2 0); lia). split_and!; [nia|lia|done].
  - unfold in_range in Hback. simplify_guards. lia.
Qed.
