(* ===== verification/Frontier.v ===== *)
(** * The readiness frontier

    engine/readiness/frontier.rs: while the history of an ordinary script graph is
    replayed, the ready nodes are maintained event by event instead of being
    computed anew.  Vectors are lists; an index out of bounds is a panic. *)

From S2P Require Import Prelude GraphSearch Strings Json EventTypes ProjectionTypes Guards.
From S2P Require Import ModelTypes EngineExternals ModelQueries Readiness.

(** ** Vectors *)

(** [v[i]] and [v[i] = x]. *)
Definition at_index {A} (v : list A) (i : nat) : result string A := expect (v !! i) "index out of bounds".
Definition set_index {A} (v : list A) (i : nat) (x : A) : result string (list A) :=
  if decide (i < length v) then Ok (<[i := x]> v) else Panic "index out of bounds".

(** [count += 1] of a counter of vector elements, which cannot overflow, and [count -= 1], which
    wraps in the release profile. *)
Definition increment (n : N) : N := (n + 1)%N.
Definition decrement (n : N) : N := if (n =? 0)%N then (usize_modulus - 1)%N else (n - 1)%N.

(** ** Events *)

(** [changed_node]: [None] for [Err(())]. *)
Definition changed_node (event : RunEvent) : option (option string) :=
  if is_some event.(RunEvent.iteration) then None
  else
    match event.(RunEvent.payload) with
    | RunEventPayload.RunStarted _ => Some None
    | RunEventPayload.StepAttemptStarted data => Some (Some data.(StepAttemptStartedData.node_id))
    | RunEventPayload.StepAttemptSucceeded data => Some (Some data.(StepAttemptSucceededData.node_id))
    | RunEventPayload.StepAttemptFailed data => Some (Some data.(StepAttemptFailedData.node_id))
    | RunEventPayload.StepRetryScheduled data => Some (Some data.(StepRetryScheduledData.node_id))
    | _ => None
    end.

(** ** The frontier *)

Module Frontier.
Record Frontier := mk {
  definition : CompiledWorkflowDefinition;
  ids : gmap string nat;
  outgoing : list (list nat);
  active : list bool;
  complete : list bool;
  remaining : list N;
  eligible : list bool;
  retry_at : list (option DateTime);
  candidates : gset nat
}.
#[global] Instance Frontier_eta : Eta Frontier := λ r,
  {| definition := r.(definition); ids := r.(ids); outgoing := r.(outgoing); active := r.(active);
     complete := r.(complete); remaining := r.(remaining); eligible := r.(eligible);
     retry_at := r.(retry_at); candidates := r.(candidates) |}.
#[global] Instance set_complete : Setter complete := ltac:(mk_setter).
#[global] Instance set_remaining : Setter remaining := ltac:(mk_setter).
#[global] Instance set_eligible : Setter eligible := ltac:(mk_setter).
#[global] Instance set_retry_at : Setter retry_at := ltac:(mk_setter).
#[global] Instance set_candidates : Setter candidates := ltac:(mk_setter).
End Frontier.
Abbreviation Frontier := Frontier.Frontier.

(** The ordinals of the latest attempts, as the history cursor keeps them. *)
Abbreviation Ordinals := (gmap string nat).

(** The definitions a frontier supports: no control flow besides unconditional edges. *)
Definition in_scope (definition : CompiledWorkflowDefinition) : bool :=
  in_range 1 COMPILED_MODEL_SCHEMA_VERSION_V21 definition.(CompiledWorkflowDefinition.schema_version)
  && is_none definition.(CompiledWorkflowDefinition.lifecycle)
  && is_none definition.(CompiledWorkflowDefinition.runtime_policy)
  && is_none definition.(CompiledWorkflowDefinition.reusable_definitions)
  && is_none definition.(CompiledWorkflowDefinition.communication)
  && is_none definition.(CompiledWorkflowDefinition.graph).(CompiledWorkflowGraph.forks)
  && is_none definition.(CompiledWorkflowDefinition.graph).(CompiledWorkflowGraph.choices)
  && is_none definition.(CompiledWorkflowDefinition.graph).(CompiledWorkflowGraph.context_visibility)
  && is_none definition.(CompiledWorkflowDefinition.graph).(CompiledWorkflowGraph.settlement)
  && is_none definition.(CompiledWorkflowDefinition.graph).(CompiledWorkflowGraph.for_each)
  && is_none definition.(CompiledWorkflowDefinition.graph).(CompiledWorkflowGraph.waits)
  && is_none definition.(CompiledWorkflowDefinition.graph).(CompiledWorkflowGraph.locks)
  && is_none definition.(CompiledWorkflowDefinition.graph).(CompiledWorkflowGraph.sagas)
  && forallb (λ (node : CompiledWorkflowNode),
       (node.(CompiledWorkflowNode.handler) == "runtime.script") && is_none node.(CompiledWorkflowNode.execution)) definition.(CompiledWorkflowDefinition.graph).(CompiledWorkflowGraph.nodes)
  && forallb (λ (edge : CompiledWorkflowEdge),
       match edge.(CompiledWorkflowEdge.condition) with EdgeCondition.Always => true | _ => false end
       && is_none edge.(CompiledWorkflowEdge.branch_id) && is_none edge.(CompiledWorkflowEdge.parallel_id) && is_none edge.(CompiledWorkflowEdge.approval_id)
       && negb (starts_with "__woml_choice__" edge.(CompiledWorkflowEdge.id))) definition.(CompiledWorkflowDefinition.graph).(CompiledWorkflowGraph.edges).

(** [nodes.iter().enumerate().map(..).collect()]: the last node of an identifier wins. *)
Definition node_ordinals (nodes : list CompiledWorkflowNode) : gmap string nat :=
  foldl (λ m '(i, node), <[CompiledWorkflowNode.id node := i]> m) ∅ (enumerate nodes).

(** The loop over the edges; [None] when an end of an edge is not a node. *)
Fixpoint link_edges (ids : gmap string nat) (edges : list CompiledWorkflowEdge)
    (outgoing : list (list nat)) (indegree : list N) : result string (option (list (list nat) * list N)) :=
  match edges with
  | [] => Ok (Some (outgoing, indegree))
  | edge :: edges =>
      match ids !! edge.(CompiledWorkflowEdge.from), ids !! edge.(CompiledWorkflowEdge.to) with
      | Some from, Some to =>
          let? successors := at_index outgoing from in
          let? outgoing := set_index outgoing from (successors ++ [to]) in
          let? count := at_index indegree to in
          let? indegree := set_index indegree to (increment count) in
          link_edges ids edges outgoing indegree
      | _, _ => Ok None
      end
  end.

(** [for &next in &outgoing[node]] of the topological traversal. *)
Fixpoint relax (successors : list nat) (indegree : list N) (queue : list nat) :
    result string (list N * list nat) :=
  match successors with
  | [] => Ok (indegree, queue)
  | next :: successors =>
      let? count := at_index indegree next in
      let count := decrement count in
      let? indegree := set_index indegree next count in
      relax successors indegree (if (count =? 0)%N then queue ++ [next] else queue)
  end.

(** The topological traversal, which counts the nodes it visits. *)
Fixpoint topological (fuel : nat) (outgoing : list (list nat)) (indegree : list N)
    (queue : list nat) (visited : nat) : result string nat :=
  match fuel with
  | O => Panic "the traversal does not end"
  | S fuel =>
      match queue with
      | [] => Ok visited
      | node :: queue =>
          let? successors := at_index outgoing node in
          let? relaxed := relax successors indegree queue in
          topological fuel outgoing relaxed.1 relaxed.2 (S visited)
      end
  end.

(** [indegree.iter().enumerate().filter_map(..)]: the nodes without predecessors. *)
Definition sources (indegree : list N) : list nat :=
  omap (λ '(i, n), if (n =? 0)%N then Some i else None) (enumerate indegree).

(** The traversal from the entries that marks the active nodes. *)
Fixpoint mark_active (fuel : nat) (outgoing : list (list nat)) (active : list bool) (queue : list nat) :
    result string (list bool) :=
  match fuel with
  | O => Panic "the traversal does not end"
  | S fuel =>
      match queue with
      | [] => Ok active
      | node :: queue =>
          let? seen := at_index active node in
          if (seen : bool) then mark_active fuel outgoing active queue
          else
            let? active := set_index active node true in
            let? successors := at_index outgoing node in
            mark_active fuel outgoing active (queue ++ successors)
      end
  end.

(** [remaining[to] += 1] for the successors of one node. *)
Fixpoint add_remaining (successors : list nat) (remaining : list N) : result string (list N) :=
  match successors with
  | [] => Ok remaining
  | to :: successors =>
      let? count := at_index remaining to in
      let? remaining := set_index remaining to (increment count) in
      add_remaining successors remaining
  end.

(** [for (from, edges) in outgoing.iter().enumerate()]: the predecessors still to complete. *)
Fixpoint count_remaining (nodes : list (nat * list nat)) (active complete : list bool) (remaining : list N) :
    result string (list N) :=
  match nodes with
  | [] => Ok remaining
  | (from, edges) :: nodes =>
      let? is_active := at_index active from in
      let? is_complete := at_index complete from in
      let? remaining := if is_active && negb is_complete then add_remaining edges remaining else Ok remaining in
      count_remaining nodes active complete remaining
  end.

(** [Frontier::refresh]. *)
Definition refresh (frontier : Frontier) (index : nat) (projection : RunProjection) (latest : Ordinals) :
    result string Frontier :=
  let? node := at_index frontier.(Frontier.definition).(CompiledWorkflowDefinition.graph).(CompiledWorkflowGraph.nodes) index in
  let id := node.(CompiledWorkflowNode.id) in
  let? is_complete := at_index frontier.(Frontier.complete) index in
  let? decided :=
    if (is_complete : bool) then Ok (false, None)
    else
      match latest !! id with
      | None => Ok (true, None)
      | Some i =>
          let? attempt := at_index projection.(RunProjection.attempts) i in
          match attempt.(AttemptProjection.status) with
          | AttemptStatus.Started | AttemptStatus.Succeeded _ => Ok (false, None)
          | AttemptStatus.Failed _ =>
              let retry_at := RetryScheduleProjection.scheduled_at <$> projection.(RunProjection.pending_retries) !! id in
              Ok (is_some retry_at, retry_at)
          end
      end in
  let '(eligible, retry_at) := (decided : bool * option DateTime) in
  let? retry_ats := set_index frontier.(Frontier.retry_at) index retry_at in
  let? eligibles := set_index frontier.(Frontier.eligible) index eligible in
  let? is_active := at_index frontier.(Frontier.active) index in
  let? remaining := at_index frontier.(Frontier.remaining) index in
  Ok (frontier <|Frontier.retry_at := retry_ats|> <|Frontier.eligible := eligibles|>
        <|Frontier.candidates ::= λ candidates,
            if is_active && (remaining =? 0)%N && eligible then {[index]} ∪ candidates
            else candidates ∖ {[index]} |>).

(** [for index in 0..count { result.refresh(..) }]. *)
Fixpoint refresh_all (indexes : list nat) (frontier : Frontier) (projection : RunProjection)
    (latest : Ordinals) : result string Frontier :=
  match indexes with
  | [] => Ok frontier
  | index :: indexes =>
      let? frontier := refresh frontier index projection latest in
      refresh_all indexes frontier projection latest
  end.

(** [ids.get(entry)?] for every entry. *)
Definition entry_ordinals (ids : gmap string nat) (entries : list string) : option (list nat) :=
  mapM (λ entry, ids !! entry) entries.

(** [Frontier::new]. *)
Definition frontier_new (definition : CompiledWorkflowDefinition) (projection : RunProjection)
    (latest : Ordinals) : result string (option Frontier) :=
  if negb (in_scope definition) then Ok None
  else
    let nodes := definition.(CompiledWorkflowDefinition.graph).(CompiledWorkflowGraph.nodes) in
    let count := length nodes in
    let ids := node_ordinals nodes in
    if negb (size ids == count) then Ok None
    else if existsb (λ entry : string * nat, negb (contains_key ids entry.1)) (map_to_list latest) then Ok None
    else
      let? linked := link_edges ids definition.(CompiledWorkflowDefinition.graph).(CompiledWorkflowGraph.edges) (replicate count []) (replicate count 0%N) in
      match linked with
      | None => Ok None
      | Some (outgoing, indegree) =>
          let? visited := topological (S count) outgoing indegree (sources indegree) 0 in
          if negb (visited == count) then Ok None
          else
            match entry_ordinals ids definition.(CompiledWorkflowDefinition.graph).(CompiledWorkflowGraph.entry_node_ids) with
            | None => Ok None
            | Some queue =>
                let? active := mark_active (S (length queue + length definition.(CompiledWorkflowDefinition.graph).(CompiledWorkflowGraph.edges))) outgoing
                                 (replicate count false) queue in
                let complete := (λ node, has_output projection node.(CompiledWorkflowNode.id)) <$> nodes in
                let? remaining := count_remaining (enumerate outgoing) active complete (replicate count 0%N) in
                let? frontier := refresh_all (seq 0 count)
                  {| Frontier.definition := definition; Frontier.ids := ids; Frontier.outgoing := outgoing;
                     Frontier.active := active; Frontier.complete := complete; Frontier.remaining := remaining;
                     Frontier.eligible := replicate count false; Frontier.retry_at := replicate count None;
                     Frontier.candidates := ∅ |} projection latest in
                Ok (Some frontier)
            end
      end.

(** [for &next in &self.outgoing[index]] of [Frontier::update]. *)
Fixpoint release (successors : list nat) (frontier : Frontier) : result string Frontier :=
  match successors with
  | [] => Ok frontier
  | next :: successors =>
      let? count := at_index frontier.(Frontier.remaining) next in
      let count := decrement count in
      let? remaining := set_index frontier.(Frontier.remaining) next count in
      let? is_active := at_index frontier.(Frontier.active) next in
      let? is_eligible := at_index frontier.(Frontier.eligible) next in
      let frontier := frontier <|Frontier.remaining := remaining|> in
      release successors
        (if (count =? 0)%N && is_active && is_eligible
         then frontier <|Frontier.candidates ::= λ candidates, {[next]} ∪ candidates|> else frontier)
  end.

(** [Frontier::update]: [None] when the frontier must be dropped. *)
Definition frontier_update (frontier : Frontier) (node_id : string) (projection : RunProjection)
    (latest : Ordinals) : result string (option Frontier) :=
  match frontier.(Frontier.ids) !! node_id with
  | None => Ok None
  | Some index =>
      let complete := has_output projection node_id in
      let? was_complete := at_index frontier.(Frontier.complete) index in
      if bool_decide (complete ≠ was_complete) && negb complete then Ok None
      else
        let? frontier :=
          if bool_decide (complete ≠ was_complete) then
            let? completes := set_index frontier.(Frontier.complete) index true in
            let frontier := frontier <|Frontier.complete := completes|> in
            let? is_active := at_index frontier.(Frontier.active) index in
            if (is_active : bool) then
              let? successors := at_index frontier.(Frontier.outgoing) index in
              release successors frontier
            else Ok frontier
          else Ok frontier in
        let? frontier := refresh frontier index projection latest in
        Ok (Some frontier)
  end.

(** [Frontier::due], [Frontier::contains] and [Frontier::ready_at]. *)
Definition due (frontier : Frontier) (index : nat) (now : DateTime) : result string bool :=
  let? retry_at := at_index frontier.(Frontier.retry_at) index in
  Ok (is_none_or retry_at (λ deadline, (deadline <=? now)%Z)).

Definition frontier_contains (frontier : Frontier) (node_id : string) (now : DateTime) : result string bool :=
  match frontier.(Frontier.ids) !! node_id with
  | None => Ok false
  | Some index => and_m (bool_decide (index ∈ frontier.(Frontier.candidates))) (due frontier index now)
  end.

(** The candidates in ascending order ([BTreeSet::iter]). *)
Definition ascending (s : gset nat) : list nat := merge_sort Nat.le (elements s).

Fixpoint node_ids_at (nodes : list CompiledWorkflowNode) (indexes : list nat) : result string (list string) :=
  match indexes with
  | [] => Ok []
  | index :: indexes =>
      let? node := at_index nodes index in
      let? ids := node_ids_at nodes indexes in
      Ok (node.(CompiledWorkflowNode.id) :: ids)
  end.

Definition frontier_ready_at (frontier : Frontier) (now : DateTime) : result string (list string) :=
  let? indexes := filter_m (λ index, due frontier index now) (ascending frontier.(Frontier.candidates)) in
  node_ids_at frontier.(Frontier.definition).(CompiledWorkflowDefinition.graph).(CompiledWorkflowGraph.nodes) indexes.
