(* ===== verification/FrontierProperties.v ===== *)
(** * The frontier is exact

    A frontier in closed form ([frontier_at]) is a function of the definition and
    the projection.  A vector of [count] elements is the table of a function, so the
    loops of engine/readiness/frontier.rs become equations between functions.
    Building a frontier gives its closed form, and an update after an attempt event
    gives the closed form of the new projection. *)

From S2P Require Import Prelude GraphSearch Strings Json EventTypes ProjectionTypes Guards.
From S2P Require Import FoldRun AttemptProperties ModelTypes EngineExternals ModelQueries.
From S2P Require Import Readiness ReadinessProperties Frontier.

(** ** Tables *)

Definition vec {A} (count : nat) (f : nat → A) : list A := f <$> seq 0 count.

(** The table of [f] with one entry changed. *)
Definition upd {A} (f : nat → A) (i : nat) (x : A) (j : nat) : A := if decide (i = j) then x else f j.

Section vectors.
Context {A : Type} (count : nat).
Implicit Types f g : nat → A.

Lemma vec_length f : length (vec count f) = count.
Proof. unfold vec. by rewrite length_fmap, length_seq. Qed.

Lemma vec_lookup f i : i < count → vec count f !! i = Some (f i).
Proof. intros Hi. unfold vec. by rewrite list_lookup_fmap, lookup_seq_lt. Qed.

Lemma vec_ext f g : (∀ i, i < count → f i = g i) → vec count f = vec count g.
Proof.
  intros Hfg. apply list_eq. intros i. destruct (decide (i < count)) as [Hi|Hi].
  - by rewrite !vec_lookup, Hfg.
  - by rewrite !lookup_ge_None_2 by (rewrite vec_length; lia).
Qed.

Lemma vec_at f i : i < count → at_index (vec count f) i = Ok (f i).
Proof. intros Hi. unfold at_index. by rewrite vec_lookup. Qed.

Lemma vec_set f i x : i < count → set_index (vec count f) i x = Ok (vec count (upd f i x)).
Proof.
  intros Hi. unfold set_index. rewrite vec_length, decide_True by done. f_equal.
  apply list_eq. intros j. destruct (decide (j < count)) as [Hj|Hj].
  - rewrite vec_lookup by done. unfold upd. case_decide as Hd.
    + subst j. rewrite list_lookup_insert_eq; [done|]. by rewrite vec_length.
    + by rewrite list_lookup_insert_ne, vec_lookup.
  - rewrite !lookup_ge_None_2; rewrite ?length_insert, ?vec_length; [done|lia..].
Qed.

Lemma replicate_vec (x : A) : replicate count x = vec count (λ _, x).
Proof.
  apply list_eq. intros i. destruct (decide (i < count)) as [Hi|Hi].
  - by rewrite vec_lookup, lookup_replicate_2.
  - rewrite !lookup_ge_None_2; rewrite ?length_replicate, ?vec_length; [done|lia..].
Qed.

Lemma enumerate_vec f : enumerate (vec count f) = (λ i, (i, f i)) <$> seq 0 count.
Proof.
  apply list_eq. intros i. unfold enumerate. rewrite list_lookup_imap, list_lookup_fmap.
  destruct (decide (i < count)) as [Hi|Hi].
  - by rewrite vec_lookup, lookup_seq_lt by done.
  - rewrite !lookup_ge_None_2; rewrite ?length_seq, ?vec_length; [done|lia..].
Qed.

Lemma upd_eq f i x : upd f i x i = x.
Proof. unfold upd. by rewrite decide_True. Qed.
Lemma upd_ne f i x j : i ≠ j → upd f i x j = f j.
Proof. intros. unfold upd. by rewrite decide_False. Qed.
End vectors.

(** ** Counting *)

(** How often [j] occurs in a list. *)
Definition occurrences (j : nat) (l : list nat) : N := N.of_nat (length (List.filter (λ i, i == j) l)).

Lemma occurrences_cons j i l :
  occurrences j (i :: l) = ((if decide (i = j) then 1 else 0) + occurrences j l)%N.
Proof. unfold occurrences. simpl. case_bool_decide as Hd; case_decide; simpl; try done; lia. Qed.

Lemma occurrences_app j l k : occurrences j (l ++ k) = (occurrences j l + occurrences j k)%N.
Proof. unfold occurrences. rewrite List.filter_app, length_app. lia. Qed.

Lemma occurrences_zero j l : occurrences j l = 0%N ↔ j ∉ l.
Proof.
  induction l as [|i l IH]; [set_solver|]. rewrite occurrences_cons, not_elem_of_cons, <-IH.
  case_decide; [|naive_solver lia]. split; [lia|]. intros [? _]. congruence.
Qed.

Lemma decrement_succ n : (0 < n)%N → decrement n = (n - 1)%N.
Proof. intros Hn. unfold decrement. rewrite (proj2 (N.eqb_neq _ _)) by lia. done. Qed.

Section loops.
Context (count : nat).
Implicit Types (successors : list nat) (f : nat → N).

(** [add_remaining] adds the occurrences. *)
Lemma add_remaining_vec successors f :
  Forall (λ i, i < count) successors →
  add_remaining successors (vec count f) = Ok (vec count (λ j, f j + occurrences j successors)%N).
Proof.
  intros Hs. revert f. induction Hs as [|i successors Hi _ IH]; intros f; simpl.
  { f_equal. apply vec_ext. intros j _. unfold occurrences. simpl. lia. }
  rewrite vec_at by done. simpl. rewrite vec_set by done. simpl. rewrite IH. f_equal.
  apply vec_ext. intros j _. rewrite occurrences_cons. unfold upd, increment. case_decide; subst; lia.
Qed.
(** [relax] removes the occurrences, and queues each node whose count drops to zero once. *)
Lemma relax_vec successors f g queue :
  Forall (λ i, i < count) successors → (∀ j, f j = g j + occurrences j successors)%N →
  ∃ new, relax successors (vec count f) queue = Ok (vec count g, queue ++ new)
    ∧ NoDup new ∧ ∀ j, j ∈ new ↔ g j = 0%N ∧ j ∈ successors.
Proof.
  intros Hs. revert f queue. induction Hs as [|i successors Hi _ IH]; intros f queue Hf; simpl.
  { exists []. rewrite app_nil_r. split_and!; [|constructor|set_solver].
    do 2 f_equal. apply vec_ext. intros j _. rewrite Hf. unfold occurrences. simpl. lia. }
  pose proof (Hf i) as Hfi. rewrite occurrences_cons, decide_True in Hfi by done.
  rewrite vec_at by done. simpl. rewrite decrement_succ by lia. rewrite vec_set by done. simpl.
  destruct (IH (upd f i (f i - 1)%N) (if (f i - 1 =? 0)%N then queue ++ [i] else queue)) as (new & -> & Hnd & Hnew).
  { intros j. unfold upd. case_decide as Hd; [subst; lia|]. rewrite Hf, occurrences_cons, decide_False; [lia|done]. }
  destruct (N.eqb_spec (f i - 1) 0) as [H0|H0].
  - exists (i :: new). rewrite <-(assoc_L (++)). split; [done|].
    assert (i ∉ successors) as Hni by (apply occurrences_zero; lia).
    split; [constructor; [rewrite Hnew; naive_solver|done]|].
    intros j. rewrite !elem_of_cons, Hnew. split; [|naive_solver].
    intros [->|[? ?]]; [split; [lia|by left]|auto].
  - exists new. split_and!; [done..|]. intros j. rewrite Hnew, elem_of_cons.
    split; [naive_solver|]. intros [Hz [->|?]]; [|done]. split; [done|].
    apply dec_stable. intros Hn%occurrences_zero. lia.
Qed.

(** ** The topological traversal *)

Context (succ : nat → list nat) (Hsucc : ∀ i, i < count → Forall (λ j, j < count) (succ i)).

(** The edges into [j] from the nodes of [l] that have not been visited. *)
Definition pending_in (popped l : list nat) (j : nat) : N :=
  foldr (λ i n, (if decide (i ∈ popped) then 0 else occurrences j (succ i)) + n)%N 0%N l.

Lemma pending_in_visited popped l u j : u ∉ l → pending_in (u :: popped) l j = pending_in popped l j.
Proof.
  induction l as [|i l IH]; intros Hu; simpl; [done|]. apply not_elem_of_cons in Hu as [Hne Hu].
  rewrite IH by done. f_equal. destruct (decide (i ∈ popped)).
  - rewrite decide_True; [done|by right].
  - rewrite decide_False; [done|]. rewrite elem_of_cons. naive_solver.
Qed.

Lemma pending_in_pop popped l u j :
  NoDup l → u ∈ l → u ∉ popped →
  pending_in popped l j = (pending_in (u :: popped) l j + occurrences j (succ u))%N.
Proof.
  induction l as [|i l IH]; intros Hnd Hu Hp; [set_solver|]. inversion_clear Hnd. simpl.
  apply elem_of_cons in Hu as [->|Hu].
  - rewrite decide_False by done. rewrite decide_True by left.
    rewrite pending_in_visited by done. lia.
  - rewrite IH by done. assert (i ≠ u) by naive_solver.
    destruct (decide (i ∈ popped)).
    + rewrite decide_True by (by right). lia.
    + rewrite decide_False; [lia|]. rewrite elem_of_cons. naive_solver.
Qed.

Abbreviation pending popped := (pending_in popped (seq 0 count)).

(** Every node is visited at most once, so the traversal ends. *)
Lemma topological_returns fuel popped queue visited :
  NoDup (popped ++ queue) → Forall (λ i, i < count) (popped ++ queue) →
  (∀ v, v ∈ popped ++ queue → pending popped v = 0%N) →
  count < length popped + fuel →
  ∃ v, topological fuel (vec count succ) (vec count (pending popped)) queue visited = Ok v.
Proof.
  revert popped queue visited. induction fuel as [|fuel IH]; intros popped queue visited Hnd Hlt Hz Hlen.
  { assert (length popped ≤ length (seq 0 count)) as Hle; [|rewrite length_seq in Hle; lia].
    apply submseteq_length, NoDup_submseteq; [by apply NoDup_app in Hnd as [? _]|].
    intros i Hi. rewrite Forall_forall in Hlt. apply elem_of_seq.
    specialize (Hlt i ltac:(apply elem_of_app; by left)). lia. }
  simpl. destruct queue as [|u queue]; [by eexists|].
  assert (u < count) as Hu.
  { rewrite Forall_forall in Hlt. apply Hlt, elem_of_app. right. left. }
  assert (u ∉ popped) as Hup.
  { apply NoDup_app in Hnd as (_ & Hd & _). intros Hin. apply (Hd _ Hin). left. }
  rewrite vec_at by done. simpl.
  destruct (relax_vec (succ u) (pending popped) (pending (u :: popped)) queue) as (new & -> & Hndn & Hnew).
  { by apply Hsucc. }
  { intros j. apply pending_in_pop; [apply NoDup_seq|apply elem_of_seq; lia|done]. }
  assert (∀ v, v ∈ popped ++ u :: queue → v ∉ succ u) as Hsettled.
  { intros v Hv Hin. apply Hz in Hv. rewrite (pending_in_pop _ _ u) in Hv;
      [|apply NoDup_seq|apply elem_of_seq; lia|done].
    assert (occurrences v (succ u) = 0%N) as H0 by lia. by apply occurrences_zero in H0. }
  simpl. apply IH.
  - rewrite (assoc_L (++)). apply NoDup_app. split_and!; [| |done].
    + simpl. rewrite <-Permutation_middle in Hnd. done.
    + intros v Hv [_ Hin]%Hnew. apply (Hsettled v); [|done].
      rewrite <-Permutation_middle. done.
  - rewrite (assoc_L (++)). apply Forall_app. split.
    + simpl. by rewrite <-Permutation_middle in Hlt.
    + apply Forall_forall. intros v [_ Hin]%Hnew. specialize (Hsucc u Hu).
      rewrite Forall_forall in Hsucc. by apply Hsucc.
  - intros v Hv. rewrite (assoc_L (++)) in Hv. apply elem_of_app in Hv as [Hv|[Hv _]%Hnew]; [|done].
    assert (v ∈ popped ++ u :: queue) as Hv' by (by rewrite <-Permutation_middle).
    apply Hz in Hv'. rewrite (pending_in_pop _ _ u) in Hv'; [lia|apply NoDup_seq|apply elem_of_seq; lia|done].
  - simpl. lia.
Qed.
End loops.

(** ** Ordinals *)

Lemma enumerate_snoc {A} (l : list A) a : enumerate (l ++ [a]) = enumerate l ++ [(length l, a)].
Proof. unfold enumerate. rewrite imap_app. simpl. by rewrite Nat.add_0_r. Qed.

(** [m] is the table of the last positions of the keys of [l]. *)
Definition last_ordinals {A} (key : A → string) (l : list A) : gmap string nat :=
  foldl (λ m '(i, a), <[key a := i]> m) ∅ (enumerate l).

Section last_ordinals.
Context {A : Type} (key : A → string).

Lemma last_ordinals_snoc l a : last_ordinals key (l ++ [a]) = <[key a := length l]> (last_ordinals key l).
Proof. unfold last_ordinals. by rewrite enumerate_snoc, foldl_snoc. Qed.

Lemma last_ordinals_lookup l k i :
  last_ordinals key l !! k = Some i ↔
  ∃ a, l !! i = Some a ∧ key a = k ∧ ∀ j b, l !! j = Some b → key b = k → j ≤ i.
Proof.
  revert i. induction l as [|a l IH] using rev_ind; intros i.
  { split; [done|]. by intros (a & Ha & _). }
  rewrite last_ordinals_snoc. destruct (decide (key a = k)) as [<-|Hne].
  - rewrite lookup_insert_eq. split.
    + intros [= <-]. exists a. split_and!; [by rewrite lookup_app_r, Nat.sub_diag by lia|done|].
      intros j b Hj%lookup_lt_Some _. rewrite length_app in Hj. simpl in Hj. lia.
    + intros (b & Hb & Hk & Hmax). f_equal. apply lookup_lt_Some in Hb as Hlt. rewrite length_app in Hlt.
      specialize (Hmax (length l) a). rewrite lookup_app_r, Nat.sub_diag in Hmax by lia.
      specialize (Hmax eq_refl eq_refl). simpl in Hlt. lia.
  - rewrite lookup_insert_ne, IH by done. split; intros (b & Hb & Hk & Hmax); exists b.
    + split_and!; [by apply lookup_app_l_Some|done|]. intros j c Hj Hc.
      apply lookup_app_Some in Hj as [Hj|[_ Hj]]; [by eapply Hmax|].
      apply list_lookup_singleton_Some in Hj as [_ ->]. done.
    + apply lookup_app_Some in Hb as [Hb|[_ Hb]].
      * split_and!; [done..|]. intros j c Hj. apply Hmax. by apply lookup_app_l_Some.
      * apply list_lookup_singleton_Some in Hb as [_ ->]. done.
Qed.

Lemma last_ordinals_dom l k : is_Some (last_ordinals key l !! k) ↔ k ∈ key <$> l.
Proof.
  induction l as [|a l IH] using rev_ind; [split; [by intros []|set_solver]|].
  rewrite last_ordinals_snoc, fmap_app. destruct (decide (key a = k)) as [<-|Hne].
  - rewrite lookup_insert_eq. set_solver.
  - rewrite lookup_insert_ne, IH by done. set_solver.
Qed.

(** As many ordinals as elements: the keys are distinct. *)
Lemma last_ordinals_size l : size (last_ordinals key l) = length l → NoDup (key <$> l).
Proof.
  assert (∀ l, size (last_ordinals key l) ≤ length l) as Hle.
  { clear l. intros l. induction l as [|a l IH] using rev_ind; [done|]. rewrite last_ordinals_snoc, length_app.
    rewrite map_size_insert. destruct (_ !! _); simpl; unfold id in *; lia. }
  induction l as [|a l IH] using rev_ind; [constructor|].
  rewrite last_ordinals_snoc, length_app, map_size_insert. specialize (Hle l).
  destruct (last_ordinals key l !! key a) as [i|] eqn:Hk; simpl; unfold id; intros Hs; [lia|].
  rewrite fmap_app. apply NoDup_app. split_and!; [apply IH; lia| |apply NoDup_singleton].
  intros k Hin Hka. apply list_elem_of_singleton in Hka as ->. apply last_ordinals_dom in Hin as [j Hj]. congruence.
Qed.

Lemma last_ordinals_unique l i a :
  NoDup (key <$> l) → l !! i = Some a → last_ordinals key l !! key a = Some i.
Proof.
  intros Hnd Hi. apply last_ordinals_lookup. exists a. split_and!; [done..|].
  intros j b Hj Hk. assert (j = i); [|lia].
  eapply (NoDup_lookup (key <$> l)); [done|..]; rewrite list_lookup_fmap; [by rewrite Hj|by rewrite Hi, Hk].
Qed.
End last_ordinals.

(** The ordinals of the latest attempts. *)
Definition attempt_node (a : AttemptProjection) : string := a.(AttemptProjection.identity).(AttemptIdentity.node_id).
Definition latest_ordinals (attempts : list AttemptProjection) : Ordinals := last_ordinals attempt_node attempts.

Lemma latest_ordinals_attempt attempts id :
  (latest_ordinals attempts !! id ≫= λ i, attempts !! i) = latest_attempt_in attempts id.
Proof.
  destruct (latest_attempt_in attempts id) as [a|] eqn:Ha.
  - apply latest_attempt_Some in Ha as (i & Hi & Hn & Hmax).
    assert (latest_ordinals attempts !! id = Some i) as ->; [|done].
    apply last_ordinals_lookup. by exists a.
  - destruct (latest_ordinals attempts !! id) as [i|] eqn:Hi; [|done].
    apply last_ordinals_lookup in Hi as (a & Hi & Hn & _). exfalso.
    apply latest_attempt_None with (a := a) in Ha; [done|]. by eapply list_elem_of_lookup_2.
Qed.

(** ** The closed form *)

Section closed_form.
Context (d : CompiledWorkflowDefinition).
Abbreviation nodes := (d.(CompiledWorkflowDefinition.graph).(CompiledWorkflowGraph.nodes)).
Abbreviation edges := (d.(CompiledWorkflowDefinition.graph).(CompiledWorkflowGraph.edges)).
Abbreviation entries := (d.(CompiledWorkflowDefinition.graph).(CompiledWorkflowGraph.entry_node_ids)).
Abbreviation count := (length nodes).

Definition id_of (i : nat) : string := default "" (CompiledWorkflowNode.id <$> nodes !! i).
Definition ordinal (id : string) : nat := default 0 (node_ordinals nodes !! id).
Definition edge_src (e : CompiledWorkflowEdge) : nat := ordinal e.(CompiledWorkflowEdge.from).
Definition edge_dst (e : CompiledWorkflowEdge) : nat := ordinal e.(CompiledWorkflowEdge.to).
Definition succ : nat → list nat := successors_of edge_src edge_dst (λ _, true) edges.

(** The nodes that the entries reach. *)
Definition active_set : gset nat :=
  explore (S (length (ordinal <$> entries) + length edges)) succ ∅ (ordinal <$> entries).
Definition is_active_node (i : nat) : bool := bool_decide (i ∈ active_set).

Section at_projection.
Context (p : RunProjection).

Definition completed (i : nat) : bool := has_output p (id_of i).

(** The edges into a node whose source is active and not complete. *)
Definition blocking (j : nat) (e : CompiledWorkflowEdge) : bool :=
  (edge_dst e == j) && is_active_node (edge_src e) && negb (completed (edge_src e)).
Definition blockers (j : nat) : N := N.of_nat (length (List.filter (blocking j) edges)).

(** What the attempts of a node allow: whether it may start, and not before which time. *)
Definition retry_time (i : nat) : option DateTime :=
  if completed i then None
  else match latest_attempt p (id_of i) with
       | Some a => if attempt_is_failed a.(AttemptProjection.status)
                   then RetryScheduleProjection.scheduled_at <$> p.(RunProjection.pending_retries) !! id_of i
                   else None
       | None => None
       end.
Definition may_start (i : nat) : bool :=
  negb (completed i)
  && match latest_attempt p (id_of i) with
     | Some a => attempt_is_failed a.(AttemptProjection.status) && is_some (p.(RunProjection.pending_retries) !! id_of i)
     | None => true
     end.

Definition candidate (i : nat) : bool :=
  is_active_node i && (blockers i =? 0)%N && may_start i.

Definition frontier_at : Frontier :=
  {| Frontier.definition := d;
     Frontier.ids := node_ordinals nodes;
     Frontier.outgoing := vec count succ;
     Frontier.active := vec count is_active_node;
     Frontier.complete := vec count completed;
     Frontier.remaining := vec count blockers;
     Frontier.eligible := vec count may_start;
     Frontier.retry_at := vec count retry_time;
     Frontier.candidates := list_to_set (List.filter candidate (seq 0 count)) |}.
End at_projection.

(** ** Definitions in scope *)

Record scoped_definition : Prop := {
  scoped_in_scope : in_scope d = true;
  scoped_unique : NoDup (node_ids d);
  scoped_ends : ∀ e, e ∈ edges → e.(CompiledWorkflowEdge.from) ∈ node_ids d ∧ e.(CompiledWorkflowEdge.to) ∈ node_ids d;
  scoped_entries : ∀ id, id ∈ entries → id ∈ node_ids d;
}.

Lemma node_ordinals_last : node_ordinals nodes = last_ordinals CompiledWorkflowNode.id nodes.
Proof. done. Qed.

Lemma ordinal_lt id : id ∈ node_ids d → ordinal id < count.
Proof.
  intros [i Hi]%(last_ordinals_dom CompiledWorkflowNode.id nodes). unfold ordinal. rewrite node_ordinals_last, Hi. simpl.
  apply last_ordinals_lookup in Hi as (n & Hn & _). by eapply lookup_lt_Some.
Qed.

Context (Hd : scoped_definition).

Lemma ordinal_spec id i : node_ordinals nodes !! id = Some i ↔ i < count ∧ id_of i = id.
Proof.
  rewrite node_ordinals_last. unfold id_of. split.
  - intros (n & Hn & Hid & _)%last_ordinals_lookup. rewrite Hn. simpl. split; [by eapply lookup_lt_Some|done].
  - intros [[n Hn]%lookup_lt_is_Some_2 Hid]. rewrite Hn in Hid. simpl in Hid. subst id.
    apply last_ordinals_unique; [apply Hd|done].
Qed.

Lemma ordinal_id_of i : i < count → ordinal (id_of i) = i.
Proof. intros Hi. unfold ordinal. by rewrite (proj2 (ordinal_spec (id_of i) i)). Qed.

Lemma id_of_ordinal id : id ∈ node_ids d → id_of (ordinal id) = id.
Proof.
  intros [i Hi]%(last_ordinals_dom CompiledWorkflowNode.id nodes). unfold ordinal. rewrite node_ordinals_last, Hi. simpl.
  by apply ordinal_spec in Hi as [_ ?].
Qed.

Lemma id_of_elem i : i < count → id_of i ∈ node_ids d.
Proof.
  intros [n Hn]%lookup_lt_is_Some_2. unfold id_of, node_ids. rewrite Hn. simpl.
  apply list_elem_of_fmap_2. by eapply list_elem_of_lookup_2.
Qed.

Lemma id_of_inj i j : i < count → j < count → id_of i = id_of j → i = j.
Proof. intros Hi Hj He. by rewrite <-(ordinal_id_of i), <-(ordinal_id_of j), He. Qed.

Lemma edge_lt e : e ∈ edges → edge_src e < count ∧ edge_dst e < count.
Proof. intros He. destruct (scoped_ends Hd _ He). split; by apply ordinal_lt. Qed.

Lemma succ_lt i : Forall (λ j, j < count) (succ i).
Proof.
  apply Forall_forall. intros j Hj. unfold succ, successors_of in Hj.
  apply list_elem_of_fmap in Hj as (e & -> & He). apply elem_of_filterb in He as [He _]. by apply edge_lt.
Qed.
End closed_form.

Section build.
Context (d : CompiledWorkflowDefinition).
Abbreviation nodes := (d.(CompiledWorkflowDefinition.graph).(CompiledWorkflowGraph.nodes)).
Abbreviation edges := (d.(CompiledWorkflowDefinition.graph).(CompiledWorkflowGraph.edges)).
Abbreviation entries := (d.(CompiledWorkflowDefinition.graph).(CompiledWorkflowGraph.entry_node_ids)).
Abbreviation count := (length nodes).
Abbreviation ids := (node_ordinals nodes).
Abbreviation src := (edge_src d).
Abbreviation dst := (edge_dst d).

Lemma nodes_vec {A} (f : CompiledWorkflowNode → A) g :
  (∀ i n, nodes !! i = Some n → f n = g i) → f <$> nodes = vec count g.
Proof.
  intros Hfg. apply list_eq. intros i. rewrite list_lookup_fmap.
  destruct (nodes !! i) as [n|] eqn:Hn; simpl.
  - rewrite vec_lookup by (by eapply lookup_lt_Some). by rewrite (Hfg i n).
  - rewrite lookup_ge_None_2; [done|]. rewrite vec_length. by apply lookup_ge_None.
Qed.

(** ** Edges *)

(** The number of edges into a node. *)
Definition indegree_of (l : list CompiledWorkflowEdge) (j : nat) : N :=
  N.of_nat (length (List.filter (λ e, dst e == j) l)).

Lemma ids_lt id i : ids !! id = Some i → i < count.
Proof. intros (n & Hn & _)%(last_ordinals_lookup CompiledWorkflowNode.id). by eapply lookup_lt_Some. Qed.

Lemma link_edges_vec l out ind :
  link_edges ids l (vec count out) (vec count ind) = Ok None
  ∨ Forall (λ e, is_Some (ids !! e.(CompiledWorkflowEdge.from)) ∧ is_Some (ids !! e.(CompiledWorkflowEdge.to))) l
    ∧ link_edges ids l (vec count out) (vec count ind)
      = Ok (Some (vec count (λ i, out i ++ successors_of src dst (λ _, true) l i),
                  vec count (λ j, ind j + indegree_of l j)%N)).
Proof.
  revert out ind. induction l as [|e l IH]; intros out ind; simpl.
  { right. split; [done|]. do 3 f_equal; apply vec_ext; intros i _; [by rewrite app_nil_r|].
    unfold indegree_of. simpl. lia. }
  destruct (ids !! e.(CompiledWorkflowEdge.from)) as [from|] eqn:Hf; [|by left].
  destruct (ids !! e.(CompiledWorkflowEdge.to)) as [to|] eqn:Ht; [|by left].
  assert (src e = from) as Hs by (unfold edge_src, ordinal; by rewrite Hf).
  assert (dst e = to) as Hdst by (unfold edge_dst, ordinal; by rewrite Ht).
  apply ids_lt in Hf as Hf'. apply ids_lt in Ht as Ht'.
  rewrite vec_at by done. simpl. rewrite vec_set by done. simpl.
  rewrite vec_at by done. simpl. rewrite vec_set by done. simpl.
  destruct (IH (upd out from (out from ++ [to])) (upd ind to (increment (ind to)))) as [IHl|[Hall IHl]];
    rewrite IHl; [by left|right].
  split; [constructor; [split; eauto|done]|]. do 3 f_equal; apply vec_ext; intros i _.
  - unfold upd. case_decide as Hi.
    + subst i. unfold successors_of. simpl. rewrite bool_decide_true by done. simpl.
      rewrite <-(assoc_L (++)). simpl. by rewrite Hdst.
    + unfold successors_of. simpl. rewrite bool_decide_false by congruence. done.
  - unfold upd, increment, indegree_of. simpl. case_decide as Hi.
    + subst i. rewrite (bool_decide_true (dst e = to)) by done. simpl. lia.
    + rewrite (bool_decide_false (dst e = i)) by congruence. done.
Qed.

Abbreviation successors l := (successors_of src dst (λ _, true) l).

Lemma successors_cons e l i :
  successors (e :: l) i = if decide (src e = i) then dst e :: successors l i else successors l i.
Proof.
  unfold successors_of. simpl. case_decide as He.
  - by rewrite bool_decide_true.
  - by rewrite bool_decide_false.
Qed.

(** One more edge is pending at its target, if its source is counted. *)
Lemma pending_out e l s j : src e ∉ s → pending_in (successors (e :: l)) [] s j = pending_in (successors l) [] s j.
Proof.
  induction s as [|i s IH]; intros Hs; [done|]. apply not_elem_of_cons in Hs as [Hi Hs].
  unfold pending_in in *. cbn [foldr]. rewrite IH by done. by rewrite successors_cons, (decide_False (P := src e = i)).
Qed.

Lemma pending_cons e l s j :
  NoDup s → src e ∈ s →
  pending_in (successors (e :: l)) [] s j
  = ((if decide (dst e = j) then 1 else 0) + pending_in (successors l) [] s j)%N.
Proof.
  induction s as [|i s IH]; intros Hs He; [set_solver|]. inversion_clear Hs as [|? ? Hi Hs'].
  unfold pending_in in *. cbn [foldr]. rewrite !(decide_False (P := i ∈ [])) by apply not_elem_of_nil.
  rewrite successors_cons. destruct (decide (src e = i)) as [<-|Hne].
  - pose proof (pending_out e l s j Hi) as Ho. unfold pending_in in Ho. rewrite Ho, occurrences_cons. lia.
  - rewrite IH by set_solver. lia.
Qed.

(** The pending edges of nothing visited are the incoming ones. *)
Lemma pending_none (l : list CompiledWorkflowEdge) j :
  Forall (λ e, src e < count) l → pending_in (successors l) [] (seq 0 count) j = indegree_of l j.
Proof.
  induction 1 as [|e l He _ IH].
  { induction (seq 0 count) as [|i s IH]; [done|]. unfold pending_in in *. cbn [foldr]. by rewrite IH. }
  rewrite pending_cons, IH; [|apply NoDup_seq|apply elem_of_seq; lia].
  unfold indegree_of. simpl. case_decide as Hj.
  - rewrite (bool_decide_true (dst e = j)) by done. simpl. lia.
  - by rewrite (bool_decide_false (dst e = j)).
Qed.

Lemma sources_vec (f : nat → N) : sources (vec count f) = List.filter (λ i, (f i =? 0)%N) (seq 0 count).
Proof.
  unfold sources. rewrite enumerate_vec. induction (seq 0 count) as [|i l IH]; csimpl; [done|].
  destruct (f i =? 0)%N; by rewrite IH.
Qed.

Lemma entry_ordinals_spec queue :
  entry_ordinals ids entries = Some queue →
  queue = ordinal d <$> entries ∧ ∀ id, id ∈ entries → id ∈ node_ids d.
Proof.
  unfold entry_ordinals. intros Hm%mapM_Some. induction Hm as [|id i l k Hid _ [-> IH]]; [set_solver|].
  csimpl. split.
  - f_equal. unfold ordinal. by rewrite Hid.
  - intros id' [->|?]%elem_of_cons; [|auto]. apply (last_ordinals_dom CompiledWorkflowNode.id). by exists i.
Qed.

(** ** The traversal from the entries *)

Context (Hends : ∀ e, e ∈ edges → src e < count ∧ dst e < count).

Lemma succ_bound i : Forall (λ j, j < count) (succ d i).
Proof.
  apply Forall_forall. intros j Hj. apply list_elem_of_fmap in Hj as (e & -> & He).
  apply elem_of_filterb in He as [He _]. by apply Hends.
Qed.

Lemma mark_active_vec fuel active queue :
  Forall (λ i, i < count) queue → length queue + unexplored src edges active < fuel →
  mark_active fuel (vec count (succ d)) (vec count (λ i, bool_decide (i ∈ active))) queue
  = Ok (vec count (λ i, bool_decide (i ∈ explore fuel (succ d) active queue))).
Proof.
  revert active queue. induction fuel as [|fuel IH]; intros active queue Hq Hfuel; [lia|].
  simpl. destruct queue as [|i queue]; [done|]. simpl in Hfuel. inversion_clear Hq as [|? ? Hi Hq'].
  rewrite !vec_at by done. simpl. case_bool_decide as Ha; [apply IH; [done|lia]|].
  rewrite vec_set by done. simpl.
  rewrite <-(IH ({[i]} ∪ active)).
  - f_equal. apply vec_ext. intros j _. unfold upd. case_decide as Hd'.
    + subst. symmetry. apply bool_decide_eq_true. set_solver.
    + apply bool_decide_ext. set_solver.
  - apply Forall_app. split; [done|apply succ_bound].
  - unfold as_queue. rewrite length_app.
    pose proof (unexplored_visit src dst (λ _, true) edges active i Ha). unfold succ. lia.
Qed.

(** ** Remaining predecessors *)

Context (p : RunProjection).

(** The blockers among the first [k] nodes. *)
Definition blockers_below (k j : nat) : N :=
  N.of_nat (length (List.filter (λ e, blocking d p j e && bool_decide (src e < k)) edges)).

Lemma blockers_below_step k j :
  blockers_below (S k) j =
  (blockers_below k j + if is_active_node d k && negb (completed d p k) then occurrences j (succ d k) else 0)%N.
Proof.
  unfold blockers_below, succ. clear Hends. induction edges as [|e l IH]; simpl.
  { by destruct (_ && _). }
  rewrite successors_cons. destruct (decide (src e = k)) as [Hk|Hk].
  - rewrite (bool_decide_true (src e < S k)) by lia. rewrite (bool_decide_false (src e < k)) by lia.
    rewrite andb_true_r, andb_false_r, occurrences_cons. unfold blocking at 1. rewrite Hk, <-andb_assoc.
    destruct (is_active_node d k && negb (completed d p k)).
    + rewrite andb_true_r. case_decide as Hj.
      * rewrite (bool_decide_true (dst e = j)) by done. simpl. lia.
      * rewrite (bool_decide_false (dst e = j)) by done. simpl. lia.
    + rewrite andb_false_r. lia.
  - rewrite (bool_decide_ext (src e < S k) (src e < k)) by lia.
    destruct (blocking d p j e && bool_decide (src e < k)); simpl; lia.
Qed.

Lemma count_remaining_vec k m :
  k + m = count →
  count_remaining ((λ i, (i, succ d i)) <$> seq k m) (vec count (is_active_node d)) (vec count (completed d p))
    (vec count (blockers_below k)) = Ok (vec count (blockers_below count)).
Proof.
  revert k. induction m as [|m IH]; intros k Hk; simpl.
  { by replace k with count by lia. }
  rewrite !vec_at by lia. simpl.
  assert ((if is_active_node d k && negb (completed d p k) then add_remaining (succ d k) (vec count (blockers_below k))
           else Ok (vec count (blockers_below k))) = Ok (vec count (blockers_below (S k)))) as ->.
  { destruct (_ && _) eqn:Hb; [rewrite add_remaining_vec by apply succ_bound|];
      f_equal; apply vec_ext; intros j _; rewrite blockers_below_step, Hb; [done|lia]. }
  simpl. apply IH. lia.
Qed.

Lemma blockers_below_all j : blockers_below count j = blockers d p j.
Proof.
  unfold blockers_below, blockers. do 2 f_equal. apply filter_ext_in. intros e He.
  rewrite bool_decide_true; [by rewrite andb_true_r|]. apply Hends. by rewrite list_elem_of_In.
Qed.

(** ** Refreshing a node *)

(** A frontier whose tables are those of functions, over the definition. *)
Definition frontier_of (complete : nat → bool) (remaining : nat → N) (eligible : nat → bool)
    (retry : nat → option DateTime) (candidates : gset nat) : Frontier :=
  {| Frontier.definition := d; Frontier.ids := ids; Frontier.outgoing := vec count (succ d);
     Frontier.active := vec count (is_active_node d); Frontier.complete := vec count complete;
     Frontier.remaining := vec count remaining; Frontier.eligible := vec count eligible;
     Frontier.retry_at := vec count retry; Frontier.candidates := candidates |}.

Lemma refresh_of complete remaining eligible retry candidates i :
  i < count → complete i = completed d p i →
  refresh (frontier_of complete remaining eligible retry candidates) i p (latest_ordinals p.(RunProjection.attempts))
  = Ok (frontier_of complete remaining (upd eligible i (may_start d p i)) (upd retry i (retry_time d p i))
          (if is_active_node d i && (remaining i =? 0)%N && may_start d p i
           then {[i]} ∪ candidates else candidates ∖ {[i]})).
Proof.
  intros Hi Hc. destruct (lookup_lt_is_Some_2 nodes i Hi) as [n Hn].
  assert (at_index nodes i = Ok n) as Hat by (unfold at_index; by rewrite Hn).
  assert (n.(CompiledWorkflowNode.id) = id_of d i) as Hid by (unfold id_of; by rewrite Hn).
  unfold refresh. simpl. rewrite Hat. simpl. rewrite !vec_at by done. simpl. rewrite Hid, Hc.
  pose proof (latest_ordinals_attempt p.(RunProjection.attempts) (id_of d i)) as Hlatest.
  match goal with
  | |- result_bind _ ?decided = _ => assert (decided = Ok (may_start d p i, retry_time d p i)) as ->
  end.
  { unfold may_start, retry_time, latest_attempt. destruct (completed d p i); [done|]. rewrite <-Hlatest.
    destruct (latest_ordinals _ !! _) as [j|] eqn:Hj; simpl; [|done].
    apply last_ordinals_lookup in Hj as (a & Ha & _). unfold at_index. rewrite Ha. simpl.
    destruct a.(AttemptProjection.status); simpl; try done. by destruct (RunProjection.pending_retries p !! _). }
  simpl. rewrite !vec_set by done. reflexivity.
Qed.

(** Refreshing the first [k] nodes. *)
Lemma refresh_all_of m k eligible retry candidates :
  k + m = count →
  (∀ i, i < k → eligible i = may_start d p i ∧ retry i = retry_time d p i) →
  (∀ i, i ∈ candidates ↔ i < k ∧ candidate d p i = true) →
  refresh_all (seq k m) (frontier_of (completed d p) (blockers d p) eligible retry candidates) p
    (latest_ordinals p.(RunProjection.attempts)) = Ok (frontier_at d p).
Proof.
  revert k eligible retry candidates. induction m as [|m IH]; intros k eligible retry candidates Hk Ht Hcs; simpl.
  { assert (k = count) as -> by lia. unfold frontier_of, frontier_at. do 2 f_equal.
    - apply vec_ext. intros i Hi. by apply Ht.
    - apply vec_ext. intros i Hi. by apply Ht.
    - apply set_eq. intros i. rewrite Hcs, elem_of_list_to_set, elem_of_filterb, elem_of_seq. naive_solver lia. }
  rewrite refresh_of by (done || lia). simpl. apply IH; [lia| |].
  - intros i Hi. unfold upd. case_decide; [by subst|]. apply Ht. lia.
  - intros i. fold (candidate d p k). destruct (candidate d p k) eqn:Hck.
    + rewrite elem_of_union, elem_of_singleton, Hcs. split.
      * intros [->|[? ?]]; split; (done || lia).
      * intros [? ?]. destruct (decide (i = k)); [auto|right; split; [lia|done]].
    + rewrite elem_of_difference, elem_of_singleton, Hcs. split; [intros [[? ?] ?]; split; [lia|done]|].
      intros [? Hc]. assert (i ≠ k) by congruence. split_and!; [lia|done..].
Qed.
End build.

(** ** [Frontier::new] *)

Lemma ids_elem d id : is_Some (node_ordinals d.(CompiledWorkflowDefinition.graph).(CompiledWorkflowGraph.nodes) !! id) → id ∈ node_ids d.
Proof. apply (last_ordinals_dom CompiledWorkflowNode.id). Qed.

Section new.
Context (d : CompiledWorkflowDefinition) (p : RunProjection).
Abbreviation nodes := (d.(CompiledWorkflowDefinition.graph).(CompiledWorkflowGraph.nodes)).
Abbreviation edges := (d.(CompiledWorkflowDefinition.graph).(CompiledWorkflowGraph.edges)).
Abbreviation entries := (d.(CompiledWorkflowDefinition.graph).(CompiledWorkflowGraph.entry_node_ids)).
Abbreviation count := (length nodes).

(** The topological traversal of the linked edges ends. *)
Lemma new_visited :
  (∀ e, e ∈ edges → edge_src d e < count ∧ edge_dst d e < count) →
  ∃ visited, topological (S count) (vec count (succ d)) (vec count (indegree_of d edges))
    (sources (vec count (indegree_of d edges))) 0 = Ok visited.
Proof.
  intros Hlt. rewrite (vec_ext _ (indegree_of d edges) (pending_in (succ d) [] (seq 0 count))).
  2:{ intros j _. symmetry. apply pending_none, Forall_forall. intros e He. by apply Hlt. }
  apply (topological_returns count (succ d) (λ i _, succ_bound d Hlt i) (S count) []); rewrite ?sources_vec; simpl.
  - apply NoDup_ListNoDup, List.NoDup_filter, NoDup_ListNoDup, NoDup_seq.
  - apply Forall_forall. intros i [Hi%elem_of_seq _]%elem_of_filterb. lia.
  - intros i [_ Hi%N.eqb_eq]%elem_of_filterb. done.
  - lia.
Qed.

(** The nodes the entries reach, the pending predecessors and the refresh of every node. *)
Lemma new_tables queue :
  scoped_definition d → queue = ordinal d <$> entries →
  (let? active := mark_active (S (length queue + length edges)) (vec count (succ d)) (replicate count false) queue in
   let complete := (λ node, has_output p node.(CompiledWorkflowNode.id)) <$> nodes in
   let? remaining := count_remaining (enumerate (vec count (succ d))) active complete (replicate count 0%N) in
   let? frontier := refresh_all (seq 0 count)
      {| Frontier.definition := d; Frontier.ids := node_ordinals nodes; Frontier.outgoing := vec count (succ d);
         Frontier.active := active; Frontier.complete := complete; Frontier.remaining := remaining;
         Frontier.eligible := replicate count false; Frontier.retry_at := replicate count None;
         Frontier.candidates := ∅ |} p (latest_ordinals p.(RunProjection.attempts)) in
   Ok (Some frontier)) = Ok (Some (frontier_at d p)).
Proof.
  intros Hd ->. pose proof (edge_lt d Hd) as Hlt. rewrite !replicate_vec.
  assert (∀ s : gset nat, s = ∅ → vec count (λ _, false) = vec count (λ i, bool_decide (i ∈ s))) as Hnone.
  { intros s ->. apply vec_ext. intros i _. symmetry. apply bool_decide_eq_false. set_solver. }
  rewrite (Hnone ∅ eq_refl) at 1. rewrite (mark_active_vec d Hlt _ ∅).
  2:{ apply Forall_forall. intros i (id & -> & Hid)%list_elem_of_fmap. apply ordinal_lt. by apply Hd. }
  2:{ pose proof (unexplored_le (edge_src d) edges ∅). lia. }
  fold (active_set d). cbn [result_bind]. fold (is_active_node d).
  rewrite (nodes_vec d _ (completed d p)).
  2:{ intros i n Hn. unfold completed, id_of. by rewrite Hn. }
  rewrite enumerate_vec, (vec_ext _ (λ _, 0%N) (blockers_below d p 0)).
  2:{ intros j _. unfold blockers_below. clear Hlt. induction edges as [|e l IH]; [done|]. cbn [List.filter].
      rewrite (bool_decide_false (edge_src d e < 0)) by lia. rewrite andb_false_r. exact IH. }
  rewrite count_remaining_vec by done. cbn [result_bind].
  rewrite (vec_ext _ _ (blockers d p)) by (intros; by apply blockers_below_all).
  pose proof (refresh_all_of d Hlt p count 0 (λ _, false) (λ _, None) ∅) as Hr. unfold frontier_of in Hr.
  rewrite Hr; [done|done|lia|set_solver by lia].
Qed.

Lemma frontier_new_spec r :
  frontier_new d p (latest_ordinals p.(RunProjection.attempts)) = r →
  r = Ok None ∨ scoped_definition d ∧ r = Ok (Some (frontier_at d p)).
Proof.
  unfold frontier_new. destruct (in_scope d) eqn:Hscope; cbn [negb]; [|by left].
  destruct (decide (size (node_ordinals nodes) = count)) as [Hsize|Hsize];
    [rewrite bool_decide_true by done|rewrite bool_decide_false by done; by left]. cbn [negb].
  destruct (existsb _ _); [by left|]. rewrite (replicate_vec _ []). rewrite (replicate_vec _ 0%N) at 1.
  destruct (link_edges_vec d edges (λ _, []) (λ _, 0%N)) as [->|[Hends ->]]; [by left|]. cbn [result_bind].
  assert (∀ e, e ∈ edges → e.(CompiledWorkflowEdge.from) ∈ node_ids d ∧ e.(CompiledWorkflowEdge.to) ∈ node_ids d) as Hids.
  { intros e He. rewrite Forall_forall in Hends. destruct (Hends e He). split; by apply ids_elem. }
  destruct new_visited as [visited Hv].
  { intros e [? ?]%Hids. split; by apply ordinal_lt. }
  change (vec count (λ i, [] ++ _)) with (vec count (succ d)).
  change (vec count (λ j, (0 + _)%N)) with (vec count (indegree_of d edges)).
  rewrite Hv. cbn [result_bind]. destruct (negb _); [by left|].
  destruct (entry_ordinals _ _) as [queue|] eqn:Hq; [|by left]. apply entry_ordinals_spec in Hq as [Hq Hen].
  assert (scoped_definition d) as Hd.
  { constructor; [done| |done..]. by apply last_ordinals_size. }
  rewrite new_tables by done. by right.
Qed.
End new.

(** The frontier reads of a projection, per node: its output, its latest attempt, its pending retry.
    Only those of [node] may differ. *)
Record changes_only (node : string) (p p' : RunProjection) : Prop := {
  only_output : ∀ id, id ≠ node → has_output p' id = has_output p id;
  only_attempt : ∀ id, id ≠ node → latest_attempt p' id = latest_attempt p id;
  only_retry : ∀ id, id ≠ node → p'.(RunProjection.pending_retries) !! id = p.(RunProjection.pending_retries) !! id;
}.

Section update.
Context (d : CompiledWorkflowDefinition) (Hd : scoped_definition d).
Abbreviation nodes := (d.(CompiledWorkflowDefinition.graph).(CompiledWorkflowGraph.nodes)).
Abbreviation edges := (d.(CompiledWorkflowDefinition.graph).(CompiledWorkflowGraph.edges)).
Abbreviation count := (length nodes).

(** Releasing the successors of a node. *)
Lemma release_of complete eligible retry f g successors candidates :
  Forall (λ j, j < count) successors → (∀ j, f j = g j + occurrences j successors)%N →
  (∀ j, j ∈ candidates ↔ j < count ∧ is_active_node d j && (f j =? 0)%N && eligible j = true) →
  ∃ candidates', release successors (frontier_of d complete f eligible retry candidates)
      = Ok (frontier_of d complete g eligible retry candidates')
    ∧ ∀ j, j ∈ candidates' ↔ j < count ∧ is_active_node d j && (g j =? 0)%N && eligible j = true.
Proof.
  intros Hs. revert f candidates. induction Hs as [|i l Hi _ IH]; intros f candidates Hf Hc.
  { exists candidates. assert (∀ j, f j = g j) as Hfg.
    { intros j. rewrite Hf. unfold occurrences. simpl. lia. }
    split; [|intros j; by rewrite <-Hfg]. simpl. unfold frontier_of. do 2 f_equal. by apply vec_ext. }
  simpl. rewrite !vec_at by done. simpl. pose proof (Hf i) as Hfi. rewrite occurrences_cons, decide_True in Hfi by done.
  rewrite decrement_succ by lia. rewrite vec_set by done. simpl.
  set (candidates1 := if (f i - 1 =? 0)%N && is_active_node d i && eligible i then {[i]} ∪ candidates else candidates).
  destruct (IH (upd f i (f i - 1)%N) candidates1) as (candidates' & Hr & Hc').
  { intros j. unfold upd. case_decide as Hj; [subst; lia|]. rewrite Hf, occurrences_cons, decide_False; [lia|done]. }
  { intros j. unfold candidates1, upd. case_decide as Hj.
    - subst j. rewrite (andb_comm (is_active_node d i)). destruct (_ && _ && _).
      + rewrite elem_of_union, elem_of_singleton. tauto.
      + rewrite Hc, (proj2 (N.eqb_neq (f i) 0)) by lia. rewrite andb_false_r. tauto.
    - rewrite <-Hc. destruct (_ && _); [|done]. rewrite elem_of_union, elem_of_singleton. naive_solver. }
  exists candidates'. split; [|done]. rewrite <-Hr. unfold candidates1. by destruct (_ && _).
Qed.

Lemma candidates_elem q j :
  j ∈ (list_to_set (List.filter (candidate d q) (seq 0 count)) : gset nat) ↔ j < count ∧ candidate d q j = true.
Proof. rewrite elem_of_list_to_set, elem_of_filterb, elem_of_seq. naive_solver lia. Qed.

Context (p p' : RunProjection) (node : string) (Hframe : changes_only node p p').

Section changed.
Context (i : nat) (Hi : i < count) (Hid : id_of d i = node).

Lemma other_node j : j < count → j ≠ i → id_of d j ≠ node.
Proof. intros Hj Hne He. apply Hne. apply (id_of_inj d Hd); [done..|congruence]. Qed.

Lemma completed_other j : j < count → j ≠ i → completed d p' j = completed d p j.
Proof. intros Hj Hne. apply (only_output _ _ _ Hframe). by apply other_node. Qed.

Lemma may_start_other j : j < count → j ≠ i → may_start d p' j = may_start d p j.
Proof.
  intros Hj Hne. unfold may_start. rewrite completed_other by done.
  apply (other_node j) in Hne as Hn; [|done].
  by rewrite (only_attempt _ _ _ Hframe), (only_retry _ _ _ Hframe).
Qed.

Lemma retry_time_other j : j < count → j ≠ i → retry_time d p' j = retry_time d p j.
Proof.
  intros Hj Hne. unfold retry_time. rewrite completed_other by done.
  apply (other_node j) in Hne as Hn; [|done].
  by rewrite (only_attempt _ _ _ Hframe), (only_retry _ _ _ Hframe).
Qed.

(** When the node stays as complete as it was, the blockers stay. *)
Lemma blockers_same j : completed d p' i = completed d p i → blockers d p' j = blockers d p j.
Proof.
  intros Hc. unfold blockers. do 2 f_equal. apply filter_ext_in. intros e He. unfold blocking. do 2 f_equal.
  apply list_elem_of_In in He. apply (edge_lt d Hd) in He as [He _].
  destruct (decide (edge_src d e = i)) as [->|Hne]; [done|by apply completed_other].
Qed.

(** When it completes, its edges do not block any more. *)
Lemma blockers_released j :
  completed d p i = false → completed d p' i = true →
  blockers d p j = (blockers d p' j + if is_active_node d i then occurrences j (succ d i) else 0)%N.
Proof.
  intros Hc Hc'. pose proof (edge_lt d Hd) as Hlt. unfold blockers, succ.
  induction edges as [|e l IH]; [by destruct (is_active_node d i)|].
  simpl. rewrite successors_cons. specialize (IH (λ e' He', Hlt e' (list_elem_of_further _ _ _ He'))).
  destruct (decide (edge_src d e = i)) as [He|He].
  - assert (blocking d p' j e = false) as -> by (unfold blocking; by rewrite He, Hc', andb_false_r).
    assert (blocking d p j e = (edge_dst d e == j) && is_active_node d i) as ->
      by (unfold blocking; by rewrite He, Hc, andb_true_r).
    destruct (is_active_node d i); [|by rewrite andb_false_r]. rewrite andb_true_r, occurrences_cons.
    case_decide as Hj.
    + rewrite (bool_decide_true (edge_dst d e = j)) by done. cbn [length]. lia.
    + rewrite (bool_decide_false (edge_dst d e = j)) by done. lia.
  - assert (blocking d p' j e = blocking d p j e) as ->.
    { unfold blocking. rewrite completed_other; [done| |done]. apply Hlt. left. }
    destruct (blocking d p j e); simpl; lia.
Qed.

(** The tables after the release, refreshed at the node, are those of the new projection. *)
Lemma refresh_changed complete candidates :
  (∀ j, j < count → complete j = completed d p' j) →
  (∀ j, j ∈ candidates ↔ j < count ∧ is_active_node d j && (blockers d p' j =? 0)%N && may_start d p j = true) →
  refresh (frontier_of d complete (blockers d p') (may_start d p) (retry_time d p) candidates) i p'
    (latest_ordinals p'.(RunProjection.attempts)) = Ok (frontier_at d p').
Proof.
  intros Hcomplete Hc. rewrite refresh_of; [|done|by apply Hcomplete]. f_equal. unfold frontier_of, frontier_at. f_equal.
  - by apply vec_ext.
  - apply vec_ext. intros j Hj. unfold upd. case_decide as Hij; [by subst|]. by rewrite may_start_other.
  - apply vec_ext. intros j Hj. unfold upd. case_decide as Hij; [by subst|]. by rewrite retry_time_other.
  - fold (candidate d p' i). apply set_eq. intros j.
    rewrite elem_of_list_to_set, elem_of_filterb, elem_of_seq.
    assert (j ≠ i → j ∈ candidates ↔ j < count ∧ candidate d p' j = true) as Hother.
    { intros Hne. rewrite Hc. unfold candidate. destruct (decide (j < count)); [|naive_solver].
      by rewrite may_start_other. }
    destruct (decide (j = i)) as [->|Hne].
    + destruct (candidate d p' i) eqn:Hci; [set_solver by lia|]. set_solver.
    + destruct (candidate d p' i); rewrite ?elem_of_union, ?elem_of_difference, elem_of_singleton, Hother by done;
        naive_solver lia.
Qed.

(** What the update releases when the node completes. *)
Lemma release_changed complete :
  completed d p i = false → completed d p' i = true →
  let frontier := frontier_of d complete (blockers d p) (may_start d p) (retry_time d p)
                    (list_to_set (List.filter (candidate d p) (seq 0 count))) in
  ∃ candidates, (if is_active_node d i then release (succ d i) frontier else Ok frontier)
      = Ok (frontier_of d complete (blockers d p') (may_start d p) (retry_time d p) candidates)
    ∧ ∀ j, j ∈ candidates ↔ j < count ∧ is_active_node d j && (blockers d p' j =? 0)%N && may_start d p j = true.
Proof.
  intros Hc Hc' frontier. pose proof (λ j, blockers_released j Hc Hc') as Hb. unfold frontier.
  destruct (is_active_node d i) eqn:Ha.
  - apply release_of; [apply (succ_lt d Hd)|done|apply candidates_elem].
  - assert (∀ j, blockers d p j = blockers d p' j) as Hb' by (intros j; rewrite Hb; lia).
    eexists. split; [|intros j; rewrite <-Hb'; apply candidates_elem].
    unfold frontier_of. do 2 f_equal. apply vec_ext. intros j _. apply Hb'.
Qed.
End changed.

(** An update after an event that changes one node gives the closed form of the new projection. *)
Lemma frontier_update_spec r :
  frontier_update (frontier_at d p) node p' (latest_ordinals p'.(RunProjection.attempts)) = r →
  r = Ok None ∨ r = Ok (Some (frontier_at d p')).
Proof.
  unfold frontier_update. cbn [frontier_at Frontier.ids].
  destruct (node_ordinals nodes !! node) as [i|] eqn:Hnode; [|by left].
  apply (ordinal_spec d Hd) in Hnode as [Hi Hid]. cbn [frontier_at Frontier.complete].
  rewrite vec_at by done. cbn [result_bind].
  assert (has_output p' node = completed d p' i) as -> by (unfold completed; by rewrite Hid).
  change (frontier_at d p) with (frontier_of d (completed d p) (blockers d p) (may_start d p) (retry_time d p)
    (list_to_set (List.filter (candidate d p) (seq 0 count)))).
  destruct (decide (completed d p' i = completed d p i)) as [Hc|Hc].
  - rewrite bool_decide_false by tauto. cbn [andb result_bind].
    assert (∀ j, blockers d p' j = blockers d p j) as Hb by (intros; by eapply blockers_same).
    unfold frontier_of. rewrite <-(vec_ext _ (blockers d p')) by (intros; apply Hb).
    pose proof (refresh_changed i Hi Hid (completed d p) (list_to_set (List.filter (candidate d p) (seq 0 count)))) as Hr.
    unfold frontier_of in Hr. rewrite Hr; [by right| |].
    + intros j Hj. destruct (decide (j = i)) as [->|]; [done|]. by rewrite (completed_other i).
    + intros j. rewrite candidates_elem, Hb. done.
  - rewrite bool_decide_true by done. destruct (completed d p' i) eqn:Hc'; [|by left].
    assert (completed d p i = false) as Hcf by (by destruct (completed d p i)).
    cbn [andb negb frontier_of Frontier.complete]. rewrite vec_set by done. cbn [result_bind].
    set (completed' := upd (completed d p) i true).
    change (frontier_of d (completed d p) (blockers d p) (may_start d p) (retry_time d p) ?c <|Frontier.complete := _|>)
      with (frontier_of d completed' (blockers d p) (may_start d p) (retry_time d p) c).
    destruct (release_changed i Hi Hid completed') as (candidates & Hrel & Hcs); [done..|].
    cbn [frontier_of Frontier.active Frontier.outgoing]. rewrite !vec_at by done. cbn [result_bind].
    rewrite Hrel. cbn [result_bind]. rewrite (refresh_changed i Hi Hid); [by right| |done].
    intros j Hj. unfold completed', upd. case_decide as Hij; [by subst|]. by rewrite (completed_other i).
Qed.
End update.
