(* ===== verification/FrontierQueries.v ===== *)
(** * A frontier answers as the scan of the nodes *)

From S2P Require Import Prelude GraphSearch Strings Json EventTypes ProjectionTypes Guards.
From S2P Require Import FoldRun AttemptProperties ModelTypes EngineExternals ModelQueries.
From S2P Require Import Readiness ReadinessProperties Frontier FrontierProperties.

(** ** Renaming the nodes of a graph *)

Section renaming.
Context {K K' E : Type} `{Countable K} `{Countable K'} (src dst : E → K) (src' dst' : E → K').
Context (rename : K → K') (follow : E → bool) (edges : list E) (P : K → Prop).
Context (Hsrc : ∀ e, e ∈ edges → src' e = rename (src e) ∧ P (src e)).
Context (Hdst : ∀ e, e ∈ edges → dst' e = rename (dst e) ∧ P (dst e)).
Context (Hinj : ∀ x y, P x → P y → rename x = rename y → x = y).
Context (Hfollow : ∀ e, e ∈ edges → follow e = true).

Lemma successors_rename x y :
  P x → (∃ y0, y = rename y0 ∧ y0 ∈ successors_of src dst follow edges x)
    ↔ y ∈ successors_of src' dst' (λ _, true) edges (rename x).
Proof.
  intros Hx. unfold successors_of. rewrite list_elem_of_fmap. split.
  - intros (y0 & -> & (e & -> & He)%list_elem_of_fmap). exists e. apply elem_of_filterb in He as [He [Hs _]%andb_true_iff].
    apply bool_decide_eq_true in Hs. destruct (Hdst e He) as [-> _]. split; [done|]. apply elem_of_filterb. split; [done|].
    rewrite andb_true_r. apply bool_decide_eq_true. destruct (Hsrc e He) as [-> _]. by rewrite Hs.
  - intros (e & -> & [He Hs]%elem_of_filterb). rewrite andb_true_r in Hs. apply bool_decide_eq_true in Hs.
    destruct (Hdst e He) as [-> _], (Hsrc e He) as [Hs' HP]. rewrite Hs' in Hs. exists (dst e). split; [done|].
    apply list_elem_of_fmap. exists e. split; [done|]. apply elem_of_filterb. split; [done|].
    rewrite Hfollow, andb_true_r by done. apply bool_decide_eq_true. by apply Hinj.
Qed.

(** Reachability does not depend on the names. *)
Lemma reached_rename queue x :
  P x → (∀ s, s ∈ queue → P s) →
  reached_from src dst follow edges queue x ↔ reached_from src' dst' (λ _, true) edges (rename <$> queue) (rename x).
Proof.
  intros Hx Hq.
  assert (∀ s y, y ∈ successors_of src dst follow edges s → P y) as Hstep.
  { intros s y (e & -> & [He _]%elem_of_filterb)%list_elem_of_fmap. by apply Hdst. }
  split.
  - intros (s & Hs & Hr). exists (rename s). split; [by apply list_elem_of_fmap_2|].
    apply Hq in Hs. clear Hx. induction Hr as [s|s y z Hsy Hyz IH]; [done|].
    eapply rtc_l; [|apply IH; by eapply Hstep]. apply successors_rename; [done|]. by exists y.
  - intros (s' & (s & -> & Hs)%list_elem_of_fmap & Hr). exists s. split; [done|]. apply Hq in Hs.
    remember (rename s) as a eqn:Ha. remember (rename x) as b eqn:Hb. revert s Hs Ha.
    induction Hr as [a|a b' c Hab Hbc IH]; intros s Hs Ha.
    + rewrite (Hinj s x) by congruence. done.
    + unfold leads in Hab. rewrite Ha in Hab. apply successors_rename in Hab as (y & -> & Hy); [|done].
      eapply rtc_l; [exact Hy|]. apply IH; [done|by eapply Hstep|done].
Qed.
End renaming.

(** ** Ordinary graphs *)

Section queries.
Context (d : CompiledWorkflowDefinition) (Hd : scoped_definition d) (p : RunProjection).
Context (Hchoices : p.(RunProjection.choice_selections) = ∅).
Abbreviation nodes := (d.(CompiledWorkflowDefinition.graph).(CompiledWorkflowGraph.nodes)).
Abbreviation edges := (d.(CompiledWorkflowDefinition.graph).(CompiledWorkflowGraph.edges)).
Abbreviation entries := (d.(CompiledWorkflowDefinition.graph).(CompiledWorkflowGraph.entry_node_ids)).
Abbreviation count := (length nodes).

Lemma scoped_node n : n ∈ nodes → n.(CompiledWorkflowNode.handler) = "runtime.script".
Proof.
  intros Hn. pose proof (scoped_in_scope d Hd) as Hs. unfold in_scope in Hs.
  apply andb_true_iff in Hs as [[_ Hs]%andb_true_iff _].
  rewrite forallb_forall in Hs. apply list_elem_of_In, Hs, andb_true_iff in Hn as [Hn _].
  by apply bool_decide_eq_true in Hn.
Qed.

Lemma scoped_edge_active e : e ∈ edges → edge_is_active e p = true.
Proof.
  intros He. pose proof (scoped_in_scope d Hd) as Hs. unfold in_scope in Hs.
  apply andb_true_iff in Hs as [_ Hs]. rewrite forallb_forall in Hs. apply list_elem_of_In, Hs in He.
  apply andb_true_iff in He as [[[[_ Hb]%andb_true_iff _]%andb_true_iff Ha]%andb_true_iff Hc%negb_true_iff].
  unfold edge_is_active. destruct e.(CompiledWorkflowEdge.approval_id); [done|]. rewrite Hchoices.
  change (btree_iter ∅) with (@nil (string * string)). simpl. rewrite Hc. simpl. by destruct e.(CompiledWorkflowEdge.branch_id).
Qed.

Lemma scoped_complete n : n ∈ nodes → complete (scan_topology d) d p n = Ok (has_output p n.(CompiledWorkflowNode.id)).
Proof. intros Hn%scoped_node. unfold complete, completion_fuel. simpl. unfold own_completion. by rewrite Hn. Qed.

Lemma node_at_ordinal i n : nodes !! i = Some n → n.(CompiledWorkflowNode.id) = id_of d i ∧ n ∈ nodes ∧ i < count.
Proof.
  intros Hn. unfold id_of. rewrite Hn. split_and!; [done|by eapply list_elem_of_lookup_2|by eapply lookup_lt_Some].
Qed.

Lemma find_scoped id : id ∈ node_ids d → ∃ n, node d id = Some n ∧ n.(CompiledWorkflowNode.id) = id ∧ n ∈ nodes.
Proof.
  intros (n & -> & Hn)%list_elem_of_fmap. unfold node.
  destruct (List.find _ nodes) as [m|] eqn:Hf.
  - apply find_Some_elem in Hf as [Hm He%bool_decide_eq_true]. by exists m.
  - eapply find_None_elem in Hf; [|done]. by rewrite bool_decide_true in Hf.
Qed.

(** The active nodes are those of the scan. *)
Lemma active_scoped i :
  i < count → bool_decide (id_of d i ∈ active_node_ids (scan_topology d) d p) = is_active_node d i.
Proof.
  intros Hi. unfold is_active_node. apply bool_decide_ext.
  rewrite (active_node_ids_spec d (scan_topology d)). unfold active_set, succ. rewrite explore_reached. unfold reaches_from_entry.
  rewrite (reached_rename CompiledWorkflowEdge.from CompiledWorkflowEdge.to (edge_src d) (edge_dst d) (ordinal d)
             (λ edge, edge_is_active edge p) edges (λ id, id ∈ node_ids d)).
  - by rewrite (ordinal_id_of d Hd).
  - intros e He. split; [done|]. by apply Hd.
  - intros e He. split; [done|]. by apply Hd.
  - intros x y Hx Hy Hxy. rewrite <-(id_of_ordinal d Hd x), <-(id_of_ordinal d Hd y) by done. by rewrite Hxy.
  - apply scoped_edge_active.
  - by apply id_of_elem.
  - apply Hd.
Qed.

(** The predecessors are complete when nothing blocks. *)
Lemma predecessors_scoped i :
  i < count →
  all_m (λ edge, match t_node (scan_topology d) edge.(CompiledWorkflowEdge.from) with
                 | Some predecessor => complete (scan_topology d) d p predecessor
                 | None => Ok false
                 end)
    (List.filter (λ edge, bool_decide (edge.(CompiledWorkflowEdge.from) ∈ active_node_ids (scan_topology d) d p) && edge_is_active edge p)
       (edges_to d (id_of d i)))
  = Ok (blockers d p i =? 0)%N.
Proof.
  intros Hi. rewrite (all_m_pure _ (λ edge, completed d p (edge_src d edge))).
  2:{ intros e [[He _]%elem_of_edges_to _]%elem_of_filterb. destruct (scoped_ends d Hd e He) as [Hf _].
      destruct (find_scoped _ Hf) as (n & Hn & Hid & Hin). cbn [scan_topology t_node]. rewrite Hn, scoped_complete by done.
      unfold completed, edge_src. by rewrite Hid, (id_of_ordinal d Hd). }
  f_equal. unfold blockers, edges_to. rewrite filter_filter.
  assert (∀ l, (∀ e, e ∈ l → e ∈ edges) →
    forallb (λ edge, completed d p (edge_src d edge)) (List.filter (λ edge, (edge.(CompiledWorkflowEdge.to) == id_of d i)
      && (bool_decide (edge.(CompiledWorkflowEdge.from) ∈ active_node_ids (scan_topology d) d p) && edge_is_active edge p)) l)
    = (N.of_nat (length (List.filter (blocking d p i) l)) =? 0)%N) as Hgen; [|by apply Hgen].
  induction l as [|e l IH]; intros Hl; [done|]. cbn [List.filter].
  assert (e ∈ edges) as He by (apply Hl; left). destruct (scoped_ends d Hd e He) as [Hf Ht].
  rewrite (scoped_edge_active e), andb_true_r by done.
  assert (blocking d p i e = (e.(CompiledWorkflowEdge.to) == id_of d i)
    && bool_decide (e.(CompiledWorkflowEdge.from) ∈ active_node_ids (scan_topology d) d p) && negb (completed d p (edge_src d e))) as ->.
  { unfold blocking. do 2 f_equal.
    - unfold edge_dst. apply bool_decide_ext. split; [|by intros ->; apply ordinal_id_of].
      intros <-. by rewrite (id_of_ordinal d Hd).
    - rewrite <-active_scoped by by apply (edge_lt d Hd). unfold edge_src. by rewrite (id_of_ordinal d Hd). }
  specialize (IH (λ e' He', Hl e' (list_elem_of_further _ _ _ He'))).
  destruct (_ && bool_decide _); cbn [andb]; [|done].
  cbn [forallb]. destruct (completed d p (edge_src d e)); cbn [andb negb length]; [done|].
  by rewrite (proj2 (N.eqb_neq _ _)) by lia.
Qed.

(** What a candidate may do now. *)
Definition due_at (now : DateTime) (i : nat) : bool :=
  is_none_or (retry_time d p i) (λ deadline, (deadline <=? now)%Z).

Lemma attempt_allows_scoped now i :
  completed d p i = false →
  attempt_allows p now (id_of d i) (latest_attempt p (id_of d i)) = may_start d p i && due_at now i.
Proof.
  intros Hc. unfold attempt_allows, may_start, due_at, retry_time. rewrite Hc.
  destruct (latest_attempt _ _) as [a|]; [|done]. destruct a.(AttemptProjection.status); [done..|]. simpl.
  by destruct (RunProjection.pending_retries p !! _).
Qed.

Lemma candidate_scoped now i n :
  nodes !! i = Some n →
  candidate_is_ready (scan_topology d) d p now (active_node_ids (scan_topology d) d p) (latest_attempt p) n
  = Ok (candidate d p i && due_at now i).
Proof.
  intros Hn. destruct (node_at_ordinal i n Hn) as (Hid & Hin & Hi). unfold candidate_is_ready.
  rewrite Hid, active_scoped by done. unfold candidate.
  destruct (is_active_node d i); [|done]. cbn [negb]. rewrite scoped_complete by done.
  rewrite Hid. fold (completed d p i). cbn [result_bind andb]. rewrite (scoped_node n Hin). unfold and_m.
  destruct (completed d p i) eqn:Hc; cbn [negb andb].
  { unfold may_start. by rewrite Hc, andb_false_r. }
  rewrite attempt_allows_scoped by done. cbn [scan_topology t_incoming]. rewrite predecessors_scoped by done.
  destruct (may_start d p i), (due_at now i), (blockers d p i =? 0)%N; done.
Qed.

(** ** The queries *)

(** A scan of the nodes by their ordinals. *)
Lemma filter_m_ordinals (f : CompiledWorkflowNode → result string bool) (g : nat → bool) :
  (∀ i n, nodes !! i = Some n → f n = Ok (g i)) →
  (let? l := filter_m f nodes in Ok (CompiledWorkflowNode.id <$> l)) = Ok (id_of d <$> List.filter g (seq 0 count)).
Proof.
  intros Hf. unfold id_of. assert (∀ l k, (∀ i n, l !! i = Some n → nodes !! (k + i) = Some n) →
    (let? l' := filter_m f l in Ok (CompiledWorkflowNode.id <$> l'))
    = Ok ((λ i, default "" (CompiledWorkflowNode.id <$> nodes !! i)) <$> List.filter g (seq k (length l)))) as Hgen.
  2:{ apply Hgen. done. }
  induction l as [|n l IH]; intros k Hl; [done|]. simpl.
  assert (nodes !! k = Some n) as Hn by (rewrite <-(Nat.add_0_r k); by apply Hl).
  rewrite (Hf k n Hn). simpl. specialize (IH (S k)).
  destruct (filter_m f l) as [l'| |] eqn:Hl'; simpl in *.
  - assert (∀ i m, l !! i = Some m → nodes !! S (k + i) = Some m) as Hnext.
    { intros i m Hi. specialize (Hl (S i) m Hi). by rewrite Nat.add_succ_r in Hl. }
    specialize (IH Hnext). apply Ok_inj in IH. destruct (g k); csimpl; rewrite ?Hn; csimpl; by rewrite IH.
  - exfalso. discriminate IH. intros i m Hi. specialize (Hl (S i) m Hi). by rewrite Nat.add_succ_r in Hl.
  - exfalso. discriminate IH. intros i m Hi. specialize (Hl (S i) m Hi). by rewrite Nat.add_succ_r in Hl.
Qed.

Lemma ascending_filter (f : nat → bool) :
  ascending (list_to_set (List.filter f (seq 0 count))) = List.filter f (seq 0 count).
Proof.
  apply (StronglySorted_unique Nat.le).
  - unfold ascending. apply StronglySorted_merge_sort; apply _.
  - clear. assert (∀ k m, StronglySorted Nat.le (List.filter f (seq k m))) as Hgen; [|apply Hgen].
    intros k m. revert k. induction m as [|m IH]; intros k; simpl; [constructor|].
    destruct (f k); [|apply IH]. constructor; [apply IH|]. apply Forall_forall.
    intros i [Hi%elem_of_seq _]%elem_of_filterb. lia.
  - unfold ascending. rewrite merge_sort_Permutation. apply elements_list_to_set.
    apply NoDup_ListNoDup, List.NoDup_filter, NoDup_ListNoDup, NoDup_seq.
Qed.

Lemma due_scoped now i : i < count → due (frontier_at d p) i now = Ok (due_at now i).
Proof. intros Hi. unfold due. simpl. by rewrite vec_at. Qed.

Lemma node_ids_at_scoped l : Forall (λ i, i < count) l → node_ids_at nodes l = Ok (id_of d <$> l).
Proof.
  induction 1 as [|i l Hi _ IH]; [done|]. simpl. destruct (lookup_lt_is_Some_2 nodes i Hi) as [n Hn].
  unfold at_index. rewrite Hn. simpl. rewrite IH. simpl. unfold id_of at 2. by rewrite Hn.
Qed.

(** The ready nodes of a frontier are those of the scan. *)
Lemma frontier_ready_scan now :
  frontier_ready_at (frontier_at d p) now = ready_scan (scan_topology d) d p now (latest_attempt p).
Proof.
  unfold frontier_ready_at, ready_scan. cbn [frontier_at Frontier.candidates Frontier.definition].
  rewrite (filter_m_ordinals _ (λ i, candidate d p i && due_at now i)) by (intros; by apply candidate_scoped).
  rewrite ascending_filter, (filter_m_pure _ (due_at now)).
  2:{ intros i [Hi%elem_of_seq _]%elem_of_filterb. apply due_scoped. lia. }
  cbn [result_bind]. rewrite filter_filter. apply node_ids_at_scoped.
  apply Forall_forall. intros i [Hi%elem_of_seq _]%elem_of_filterb. lia.
Qed.

(** Membership in a frontier is membership in the scan. *)
Lemma frontier_contains_scan now id :
  frontier_contains (frontier_at d p) id now = is_ready_scan (scan_topology d) d p now (latest_attempt p) id.
Proof.
  pose proof (frontier_ready_scan now) as Hr.
  assert (ready_scan (scan_topology d) d p now (latest_attempt p)
    = Ok (id_of d <$> List.filter (λ i, candidate d p i && due_at now i) (seq 0 count))) as Hs.
  { apply filter_m_ordinals. intros. by apply candidate_scoped. }
  rewrite (is_ready_scan_spec _ _ _ _ _ _ _ Hs). unfold frontier_contains. cbn [frontier_at Frontier.ids Frontier.candidates].
  assert (∀ i, i ∈ (list_to_set (List.filter (candidate d p) (seq 0 count)) : gset nat) ↔ i < count ∧ candidate d p i = true) as Hc.
  { intros i. rewrite elem_of_list_to_set, elem_of_filterb, elem_of_seq. naive_solver lia. }
  destruct (node_ordinals nodes !! id) as [i|] eqn:Hi.
  - apply (ordinal_spec d Hd) in Hi as [Hi Hid]. unfold and_m. case_bool_decide as Hin; rewrite Hc in Hin.
    + destruct Hin as [_ Hcand]. rewrite due_scoped by done. f_equal. symmetry. destruct (due_at now i) eqn:Hdue.
      * apply bool_decide_eq_true. rewrite <-Hid. apply list_elem_of_fmap_2, elem_of_filterb. rewrite Hcand, Hdue.
        split; [apply elem_of_seq; lia|done].
      * apply bool_decide_eq_false. intros (j & Hj & [Hseq%elem_of_seq Hcj]%elem_of_filterb)%list_elem_of_fmap.
        assert (i = j) as -> by (apply (id_of_inj d Hd); [done|lia|congruence]). rewrite Hdue, andb_false_r in Hcj. done.
    + f_equal. symmetry. apply bool_decide_eq_false.
      intros (j & Hj & [Hseq%elem_of_seq [Hcj _]%andb_true_iff]%elem_of_filterb)%list_elem_of_fmap.
      assert (i = j) as -> by (apply (id_of_inj d Hd); [done|lia|congruence]). by apply Hin.
  - f_equal. symmetry. apply bool_decide_eq_false.
    intros (j & -> & [Hseq%elem_of_seq _]%elem_of_filterb)%list_elem_of_fmap.
    rewrite (proj2 (ordinal_spec d Hd (id_of d j) j)) in Hi; [done|]. split; [lia|done].
Qed.
End queries.

(** ** The frontier as a data structure *)

(** The frontiers that building and updating produce, with the projection each stands for: an update
    names the one node whose output, attempts or retry the event changed. *)
Inductive frontier_follows (d : CompiledWorkflowDefinition) : RunProjection → Frontier → Prop :=
  | follows_new (p : RunProjection) f :
      frontier_new d p (latest_ordinals p.(RunProjection.attempts)) = Ok (Some f) → frontier_follows d p f
  | follows_update (p p' : RunProjection) f node f' :
      frontier_follows d p f → changes_only node p p' →
      frontier_update f node p' (latest_ordinals p'.(RunProjection.attempts)) = Ok (Some f') → frontier_follows d p' f'.

Lemma frontier_follows_at d p f : frontier_follows d p f → scoped_definition d ∧ f = frontier_at d p.
Proof.
  induction 1 as [p f Hnew|p p' f node f' _ [Hd ->] Hframe Hup].
  - destruct (frontier_new_spec d p _ Hnew) as [|[Hd Hf]]; [done|]. by simplify_eq.
  - destruct (frontier_update_spec d Hd p p' node Hframe _ Hup); by simplify_eq.
Qed.

(** C29 The readiness frontier is exact: after it is built and after any sequence of updates, one per
    changed node, it lists the ready nodes that a scan of the whole definition lists, in the same
    order, and answers for one node what the scan answers.  The definitions it is built for have no
    choices, so the run has selected none. *)
Theorem frontier_exact d (p : RunProjection) f now :
  frontier_follows d p f → p.(RunProjection.choice_selections) = ∅ →
  frontier_ready_at f now = ready_scan (scan_topology d) d p now (latest_attempt p)
  ∧ ∀ id, frontier_contains f id now = is_ready_scan (scan_topology d) d p now (latest_attempt p) id.
Proof.
  intros [Hd ->]%frontier_follows_at Hchoices. split.
  - by apply frontier_ready_scan.
  - intros id. by apply frontier_contains_scan.
Qed.
