(* ===== verification/DefinitionValidation.v ===== *)
(** * Events against a compiled definition

    engine/validation.rs, and the helpers of engine/history.rs and
    engine/identity.rs it calls: an event may only name what the compiled
    definition of its run contains.  Messages are represented by their format
    templates. *)

From S2P Require Import Prelude GraphSearch Strings Json EventTypes ProjectionTypes Guards.
From S2P Require Import EventIdentities ModelTypes EngineExternals ModelQueries.

(** ** Identities *)

Section identities.
Context `{Externals} `{EngineExternals}.

(** [step_effect_idempotency_key], engine/identity.rs. *)
Definition step_effect_idempotency_key (run_id definition_hash node_id : string) : result string string :=
  let? run_id := expect (serde_json_string run_id) "serializing a string cannot fail" in
  let? definition_hash := expect (serde_json_string definition_hash) "serializing a string cannot fail" in
  let? node_id := expect (serde_json_string node_id) "serializing a string cannot fail" in
  let quote := String (Ascii.ascii_of_nat 34) EmptyString in
  let key name := quote +:+ name +:+ quote +:+ ":" in
  let canonical :=
    "{" +:+ key "contract" +:+ quote +:+ "woml.step-effect" +:+ quote
    +:+ "," +:+ key "definitionHash" +:+ definition_hash
    +:+ "," +:+ key "nodeId" +:+ node_id
    +:+ "," +:+ key "runId" +:+ run_id
    +:+ "," +:+ key "version" +:+ "1}" in
  Ok ("sha256:" +:+ sha256_hex canonical).

(** [derive_lifecycle_hook_invocation_id], durable/transactions/run_control/identity.rs. *)
Definition length_prefixed (part : string) : string := decimal (str_len part) +:+ ":" +:+ part.
Definition lifecycle_hook_parts (run_id hook_id : string) (subject_kind : LifecycleSubjectKind)
    (subject_id : string) : string :=
  let subject_kind :=
    match subject_kind with LifecycleSubjectKind.Workflow => "workflow" | LifecycleSubjectKind.Step => "step" end in
  String.concat "|" (length_prefixed <$> [run_id; hook_id; subject_kind; subject_id]).
Definition derive_lifecycle_hook_invocation_id (run_id hook_id : string) (subject_kind : LifecycleSubjectKind)
    (subject_id : string) : string :=
  "sha256:" +:+ sha256_hex (lifecycle_hook_parts run_id hook_id subject_kind subject_id).
End identities.

(** ** Admission and start *)

Section payloads.
Context `{Externals} `{EngineExternals} (workflow : CompiledWorkflowDefinition) (definition_hash : string).

(** [matches!(workflow.schema_version, V12 | .. | V21)] and the like. *)
Definition model_since (first : N) : bool :=
  in_range first COMPILED_MODEL_SCHEMA_VERSION_V21 workflow.(CompiledWorkflowDefinition.schema_version).
Definition model_v20_or_v21 : bool :=
  (workflow.(CompiledWorkflowDefinition.schema_version) == COMPILED_MODEL_SCHEMA_VERSION_V20)
  || (workflow.(CompiledWorkflowDefinition.schema_version) == COMPILED_MODEL_SCHEMA_VERSION_V21).

Definition check_run_admitted (data : RunAdmittedData) : result string unit :=
  check fail_if (negb (model_since COMPILED_MODEL_SCHEMA_VERSION_V12)
                 || (data.(RunAdmittedData.definition_hash) != definition_hash)
                 || (runtime_policy_hash workflow != Some data.(RunAdmittedData.policy_hash))
                 || (runtime_policy_queue_name workflow != Some data.(RunAdmittedData.queue).(RunAdmissionQueue.name)))
    "run_admitted does not match the compiled definition and immutable policy identity.";
  let workflow_call_ingress :=
    (data.(RunAdmittedData.trigger).(RunAdmissionTrigger.id) == "workflow-call") && (data.(RunAdmittedData.trigger).(RunAdmissionTrigger.handler) == "trigger.event") in
  if negb workflow_call_ingress then
    let? trigger := ok_or (trigger workflow data.(RunAdmittedData.trigger).(RunAdmissionTrigger.id)) "run_admitted references unknown trigger {:?}." in
    fail_if (trigger.(CompiledTrigger.handler) != data.(RunAdmittedData.trigger).(RunAdmissionTrigger.handler))
      "run_admitted trigger identity does not match the definition."
  else Ok tt.

Definition check_run_execution_started (data : RunExecutionStartedData) : result string unit :=
  check fail_if (negb (model_since COMPILED_MODEL_SCHEMA_VERSION_V12))
    "Event v11+ runtime-policy events require compiled Model v12+.";
  let? expected_timeout :=
    match (policy ← workflow.(CompiledWorkflowDefinition.runtime_policy); policy.(CompiledRuntimePolicy.timeout_ms)) with
    | Some timeout_ms =>
        let? timeout := datetime_add data.(RunExecutionStartedData.started_at) (default 9223372036854775807%Z (i64_try_from timeout_ms)) in
        Ok (Some timeout)
    | None => Ok None
    end in
  fail_if (data.(RunExecutionStartedData.timeout_at) != expected_timeout)
    "run_execution_started timeoutAt does not match the compiled workflow timeout.".

Definition check_run_timeout_reached : result string unit :=
  fail_if (negb (model_since COMPILED_MODEL_SCHEMA_VERSION_V12))
    "Event v11+ runtime-policy events require compiled Model v12+.".

Definition carries_trigger (data : RunStartedData) : bool :=
  is_some data.(RunStartedData.trigger_id) || is_some data.(RunStartedData.trigger_handler) || is_some data.(RunStartedData.trigger_occurrence_id).

Definition check_run_started (data : RunStartedData) : result string unit :=
  check fail_if ((data.(RunStartedData.workflow_id) != workflow.(CompiledWorkflowDefinition.workflow_id)) || (data.(RunStartedData.definition_hash) != definition_hash))
    "run_started does not match the engine's workflow ID and definition hash.";
  match data.(RunStartedData.ingress) with
  | Some (RunIngress.WorkflowCall _) =>
      fail_if (carries_trigger data) "Workflow-call run_started requires no source trigger identity."
  | _ =>
      if workflow.(CompiledWorkflowDefinition.schema_version) == COMPILED_MODEL_SCHEMA_VERSION_V10 then
        Err "Call-only Model v10 requires workflow_call ingress."
      else if (workflow.(CompiledWorkflowDefinition.schema_version) == COMPILED_MODEL_SCHEMA_VERSION_V11) && is_some data.(RunStartedData.ingress) then
        fail_if (carries_trigger data) "Model v11 workflow-call ingress cannot carry trigger identity."
      else if (COMPILED_MODEL_SCHEMA_VERSION_V7 <=? workflow.(CompiledWorkflowDefinition.schema_version))%N then
        let? trigger_id := ok_or data.(RunStartedData.trigger_id) "run_started v7 is missing its triggerId." in
        let? trigger := ok_or (trigger workflow trigger_id) "run_started references unknown trigger {trigger_id:?}." in
        check fail_if ((data.(RunStartedData.trigger_handler) != Some trigger.(CompiledTrigger.handler)) || is_none data.(RunStartedData.trigger_occurrence_id))
          "run_started trigger identity does not match the compiled definition.";
        fail_if (is_some data.(RunStartedData.ingress)) "Source-triggered run_started cannot carry workflow-call ingress."
      else
        fail_if (carries_trigger data || is_some data.(RunStartedData.ingress))
          "Pre-v7 run_started cannot carry production-trigger identity."
  end.

(** ** Attempts *)

(** [retry_policy.as_ref().map_or(1, |policy| policy.max_attempts)]. *)
Definition maximum_attempts (node : CompiledWorkflowNode) : N :=
  match node.(CompiledWorkflowNode.retry_policy) with Some policy => policy.(RetryPolicy.max_attempts) | None => 1%N end.

Definition check_attempt_started (data : StepAttemptStartedData) : result string unit :=
  let? node := ok_or (node workflow data.(StepAttemptStartedData.node_id)) "Attempt references unknown node {:?}." in
  check fail_if ((data.(StepAttemptStartedData.attempt) == 0%N) || (maximum_attempts node <? data.(StepAttemptStartedData.attempt))%N
                 || ((workflow.(CompiledWorkflowDefinition.schema_version) <? COMPILED_MODEL_SCHEMA_VERSION_V6)%N && (data.(StepAttemptStartedData.attempt) != 1%N)))
    "Node {:?} attempt {} exceeds its compiled maximum of {maximum_attempts}.";
  fail_if (data.(StepAttemptStartedData.handler) != node.(CompiledWorkflowNode.handler)) "Attempt handler {:?} does not match node {:?} handler {:?}.".

Definition check_attempt_settled (node_id : string) : result string unit :=
  fail_if (is_none (node workflow node_id)) "Attempt references unknown node {:?}.".

Definition check_retry_scheduled (data : StepRetryScheduledData) : result string unit :=
  check fail_if (workflow.(CompiledWorkflowDefinition.schema_version) <? COMPILED_MODEL_SCHEMA_VERSION_V6)%N
    "step_retry_scheduled requires compiled model v6.";
  let? node := ok_or (node workflow data.(StepRetryScheduledData.node_id)) "Retry schedule references unknown node {:?}." in
  let? policy := ok_or node.(CompiledWorkflowNode.retry_policy)
    "Retry schedule references node {:?} without a compiled retry policy." in
  fail_if ((node.(CompiledWorkflowNode.handler) != "runtime.script") || (data.(StepRetryScheduledData.next_attempt) != u32_add data.(StepRetryScheduledData.failed_attempt) 1)
           || (policy.(RetryPolicy.max_attempts) <? data.(StepRetryScheduledData.next_attempt))%N)
    "Retry schedule for node {:?} exceeds its compiled policy.".

(** ** Control flow *)

(** [format!("__woml_branch__{}__select", branch_id)]. *)
Definition branch_selector_id (branch_id : string) : string := "__woml_branch__" +:+ branch_id +:+ "__select".

(** An arm of a branch: an edge from its selector. *)
Definition is_branch_arm (edges : list CompiledWorkflowEdge) (branch_id arm_id : string) : bool :=
  existsb (λ (edge : CompiledWorkflowEdge),
    (edge.(CompiledWorkflowEdge.from) == branch_selector_id branch_id) && (edge.(CompiledWorkflowEdge.id) == arm_id) && (edge.(CompiledWorkflowEdge.branch_id) == Some branch_id)) edges.

Definition check_branch_selected (data : BranchSelectedData) : result string unit :=
  let? selector := ok_or (node workflow (branch_selector_id data.(BranchSelectedData.branch_id)))
    "branch_selected references unknown branch {:?}." in
  check fail_if (selector.(CompiledWorkflowNode.handler) != "engine.branch-select") "Branch {:?} does not have its canonical selector.";
  fail_if (negb (is_branch_arm workflow.(CompiledWorkflowDefinition.graph).(CompiledWorkflowGraph.edges) data.(BranchSelectedData.branch_id) data.(BranchSelectedData.arm_id)))
    "Arm {:?} is not selectable for branch {:?}.".

(** [contains] of a vector of strings. *)
Definition str_elem (l : list string) (s : string) : bool := bool_decide (s ∈ l).

Definition find_choice (choices : list CompiledControlChoice) (choice_id : string) : option CompiledControlChoice :=
  List.find (λ (choice : CompiledControlChoice), choice.(CompiledControlChoice.choice_id) == choice_id) choices.
Definition find_fork (fork_id : string) : option CompiledFork :=
  List.find (λ (fork : CompiledFork), fork.(CompiledFork.fork_id) == fork_id) (unwrap_or_default workflow.(CompiledWorkflowDefinition.graph).(CompiledWorkflowGraph.forks)).
Definition find_branch (fork : CompiledFork) (branch_id : string) : option CompiledForkBranch :=
  List.find (λ (branch : CompiledForkBranch), branch.(CompiledForkBranch.branch_id) == branch_id) fork.(CompiledFork.branches).

Definition check_choice_selected (data : ChoiceSelectedData) : result string unit :=
  let? choice :=
    ok_or (find_choice (unwrap_or_default workflow.(CompiledWorkflowDefinition.graph).(CompiledWorkflowGraph.choices)) data.(ChoiceSelectedData.choice_id))
      "choice_selected references unknown choice {:?}." in
  fail_if (negb (str_elem choice.(CompiledControlChoice.arm_ids) data.(ChoiceSelectedData.arm_id))) "Arm {:?} is not selectable for choice {:?}.".

Definition check_fork_opened (data : ForkOpenedData) : result string unit :=
  fail_if (forallb (λ (fork : CompiledFork), fork.(CompiledFork.fork_id) != data.(ForkOpenedData.fork_id))
             (unwrap_or_default workflow.(CompiledWorkflowDefinition.graph).(CompiledWorkflowGraph.forks)))
    "fork_opened references unknown fork {:?}.".

Definition check_fork_branch_settled (data : ForkBranchSettledData) : result string unit :=
  let? fork := ok_or (find_fork data.(ForkBranchSettledData.fork_id)) "fork_branch_settled references unknown fork {:?}." in
  let? branch := ok_or (find_branch fork data.(ForkBranchSettledData.branch_id))
    "fork_branch_settled references unknown branch {:?} in fork {:?}." in
  fail_if (branch.(CompiledForkBranch.terminal_node_id) != data.(ForkBranchSettledData.terminal_node_id)) "Fork branch {:?}.{:?} terminal does not match Model v13.".

Definition check_fork_join_settled (data : ForkJoinSettledData) : result string unit :=
  let? fork := ok_or (find_fork data.(ForkJoinSettledData.fork_id)) "fork_join_settled references unknown fork {:?}." in
  fail_if (is_some_and data.(ForkJoinSettledData.blocking_branch_id) (λ branch_id, negb (str_elem fork.(CompiledFork.joined_branch_ids) branch_id)))
    "Fork {:?} join is blocked by an unjoined branch.".

Definition check_group_started (data : ParallelGroupStartedData) : result string unit :=
  fail_if (is_none (parallel_group workflow data.(ParallelGroupStartedData.parallel_id)))
    "parallel_group_started references unknown parallel group {:?}.".

Definition check_group_completed (data : ParallelGroupCompletedData) : result string unit :=
  let? group := ok_or (parallel_group workflow data.(ParallelGroupCompletedData.parallel_id))
    "parallel_group_completed references unknown parallel group {:?}." in
  fail_if (existsb (λ node_id, negb (str_elem group.(ParallelGroupDefinition.child_node_ids) node_id)) (data.(ParallelGroupCompletedData.failed_node_ids) ++ data.(ParallelGroupCompletedData.cancelled_node_ids)))
    "parallel_group_completed for {:?} references a node outside that group.".

(** ** Approvals and notifications *)

Definition check_approval_requested (data : ApprovalRequestedData) : result string unit :=
  let? approval := ok_or (approval workflow data.(ApprovalRequestedData.approval_id))
    "approval_requested references unknown approval {:?}." in
  let? expected_policy :=
    if approval.(ApprovalDefinition.on_timeout) == "reject" then Ok ApprovalTimeoutPolicy.Reject
    else if approval.(ApprovalDefinition.on_timeout) == "fail" then Ok ApprovalTimeoutPolicy.Fail
    else Err "Approval {:?} has an invalid policy." in
  fail_if ((data.(ApprovalRequestedData.on_timeout) != expected_policy) || bool_decide (is_some approval.(ApprovalDefinition.timeout_ms) ≠ is_some data.(ApprovalRequestedData.expires_at)))
    "approval_requested does not match approval {:?} timeout inputs.".

(** The authority policy of a rich approval. *)
Definition rich_policy_mismatch (approval : ApprovalDefinition) (required : N) (required_roles : list string) : bool :=
  negb model_v20_or_v21 || is_none approval.(ApprovalDefinition.review)
  || (approval.(ApprovalDefinition.required_approvals) != Some required) || (approval.(ApprovalDefinition.required_roles) != required_roles).

Definition check_review_requested (data : ApprovalReviewRequestedData) : result string unit :=
  let? approval := ok_or (approval workflow data.(ApprovalReviewRequestedData.approval_id))
    "approval_review_requested references unknown approval {:?}." in
  fail_if (rich_policy_mismatch approval data.(ApprovalReviewRequestedData.required) data.(ApprovalReviewRequestedData.required_roles))
    "approval_review_requested does not match its Model v20 authority policy.".

Definition check_quorum_progressed (data : ApprovalQuorumProgressedData) : result string unit :=
  let? approval := ok_or (approval workflow data.(ApprovalQuorumProgressedData.approval_id))
    "approval_quorum_progressed references an unknown approval." in
  fail_if (rich_policy_mismatch approval data.(ApprovalQuorumProgressedData.required) data.(ApprovalQuorumProgressedData.required_roles))
    "approval_quorum_progressed does not match its Model v20 authority policy.".

(** [workflow.approval(id).is_none_or(|approval| approval.review.is_none())] at the other versions. *)
Definition check_rich_approval (approval_id message : string) : result string unit :=
  fail_if (negb model_v20_or_v21
           || is_none_or (approval workflow approval_id) (λ (approval : ApprovalDefinition), is_none approval.(ApprovalDefinition.review)))
    message.

Definition check_approval_resolved (data : ApprovalResolvedData) : result string unit :=
  fail_if (is_none (approval workflow data.(ApprovalResolvedData.approval_id))) "approval_resolved references unknown approval {:?}.".

Definition check_delivery_requested (data : NotificationDeliveryRequestedData) : result string unit :=
  let? approval := ok_or (approval workflow data.(NotificationDeliveryRequestedData.approval_id))
    "Notification references unknown approval {:?}." in
  let? delivery :=
    ok_or (List.find (λ (delivery : NotificationDefinition), delivery.(NotificationDefinition.delivery_id) == data.(NotificationDeliveryRequestedData.delivery_id)) approval.(ApprovalDefinition.notifications))
      "Notification references unknown delivery {:?}." in
  fail_if ((data.(NotificationDeliveryRequestedData.provider) != delivery.(NotificationDefinition.provider)) || (data.(NotificationDeliveryRequestedData.destination) != delivery.(NotificationDefinition.destination)))
    "Notification delivery intent does not match the compiled definition.".

(** The other notification events name a delivery of their approval. *)
Definition compiled_delivery (approval : ApprovalDefinition) (delivery_id : string) : bool :=
  existsb (λ (delivery : NotificationDefinition), delivery.(NotificationDefinition.delivery_id) == delivery_id) approval.(ApprovalDefinition.notifications).
Definition check_delivery (approval_id delivery_id unknown_approval unknown_delivery : string) : result string unit :=
  let? approval := ok_or (approval workflow approval_id) unknown_approval in
  fail_if (negb (compiled_delivery approval delivery_id)) unknown_delivery.

Definition check_decision_accepted (data : NotificationDecisionAcceptedData) : result string unit :=
  let? approval := ok_or (approval workflow data.(NotificationDecisionAcceptedData.approval_id))
    "Notification decision references an unknown approval." in
  fail_if (negb (existsb (λ (delivery : NotificationDefinition),
                   (delivery.(NotificationDefinition.delivery_id) == data.(NotificationDecisionAcceptedData.delivery_id)) && (delivery.(NotificationDefinition.provider) == data.(NotificationDecisionAcceptedData.provider))) approval.(ApprovalDefinition.notifications)))
    "Notification decision references an unknown compiled delivery.".

(** ** Waits and locks *)

Definition check_wait_registered (data : WaitRegisteredData) : result string unit :=
  let? wait := ok_or (durable_wait workflow data.(WaitRegisteredData.wait_id)) "wait_registered references an unknown durable wait." in
  let kind_matches :=
    match wait, data.(WaitRegisteredData.kind) with
    | CompiledWait.Duration _ _ _ _, DurableWaitKind.Duration
    | CompiledWait.Until _ _ _ _, DurableWaitKind.Until
    | CompiledWait.Signal _ _ _ _ _ _ _, DurableWaitKind.Signal => true
    | _, _ => false
    end in
  fail_if ((data.(WaitRegisteredData.node_id) != wait_node_id wait) || negb kind_matches)
    "wait_registered does not match its compiled Model v17 descriptor.".

Definition check_signal_received (data : ExternalSignalReceivedData) : result string unit :=
  match durable_wait workflow data.(ExternalSignalReceivedData.wait_id) with
  | Some (CompiledWait.Signal _ _ _ signals _ _ _) =>
      fail_if (negb (existsb (λ (signal : CompiledWaitSignal), signal.(CompiledWaitSignal.signal) == data.(ExternalSignalReceivedData.signal)) signals))
        "external_signal_received names a signal not accepted by the wait."
  | _ => Err "external_signal_received references an unknown signal wait."
  end.

Definition check_known_wait (wait_id message : string) : result string unit :=
  fail_if (is_none (durable_wait workflow wait_id)) message.

Definition check_wait_timed_out (data : WaitTimedOutData) : result string unit :=
  match durable_wait workflow data.(WaitTimedOutData.wait_id) with
  | Some (CompiledWait.Signal _ _ _ _ _ _ on_timeout) =>
      let behavior_matches :=
        ((on_timeout == "fail") && (data.(WaitTimedOutData.behavior) == DurableWaitTimeoutBehavior.Fail))
        || ((on_timeout == "continue") && (data.(WaitTimedOutData.behavior) == DurableWaitTimeoutBehavior.Continue)) in
      fail_if (negb behavior_matches) "wait_timed_out behavior differs from the compiled wait policy."
  | _ => Err "wait_timed_out references an unknown signal wait."
  end.

Definition check_known_lock (lock_id message : string) : result string unit :=
  fail_if (is_none (durable_lock workflow lock_id)) message.

(** ** Sagas and corrections *)

(** The identity of a corrective action: the compiled one, or its template with a decimal key. *)
Definition correction_identity_matches (identity : CompiledCorrectionIdentity) (action_id : string) : bool :=
  match identity with
  | CompiledCorrectionIdentity.Static compiled_action_id => compiled_action_id == action_id
  | CompiledCorrectionIdentity.ForEachIteration _ action_id_template =>
      match split_once "{iterationKey}" action_id_template with
      | None => false
      | Some (before, after) =>
          is_some_and (strip_prefix before action_id ≫= strip_suffix after)
            (λ key, negb (str_is_empty key) && bytes_all is_ascii_digit key)
      end
  end.

Definition validate_correction_action (saga_id action_id : string) (kind : CorrectiveActionKind) : result string unit :=
  let? saga := ok_or (saga workflow saga_id) "Correction action references unknown saga {saga_id:?}." in
  let exists_ :=
    existsb (λ (action : CompiledCorrectiveAction), correction_identity_matches action.(CompiledCorrectiveAction.identity) action_id)
      match kind with
      | CorrectiveActionKind.Compensation => saga.(CompiledSaga.compensations)
      | CorrectiveActionKind.Cleanup => saga.(CompiledSaga.cleanup)
      end in
  fail_if ((workflow.(CompiledWorkflowDefinition.schema_version) <? COMPILED_MODEL_SCHEMA_VERSION_V19)%N || negb exists_)
    "Correction action {action_id:?} does not match saga {saga_id:?}.".

Definition check_saga_known (saga_id : string) : result string unit :=
  fail_if ((workflow.(CompiledWorkflowDefinition.schema_version) <? COMPILED_MODEL_SCHEMA_VERSION_V19)%N
           || forallb (λ (saga : CompiledSaga), saga.(CompiledSaga.saga_id) != saga_id) (unwrap_or_default workflow.(CompiledWorkflowDefinition.graph).(CompiledWorkflowGraph.sagas)))
    "Correction event references unknown saga {:?}.".

Definition check_compensation_registered (data : CompensationRegisteredData) : result string unit :=
  let valid := is_some_and (saga workflow data.(CompensationRegisteredData.saga_id)) (λ (saga : CompiledSaga),
    existsb (λ (action : CompiledCorrectiveAction),
      (action.(CompiledCorrectiveAction.action_id) == data.(CompensationRegisteredData.action_id)) && (action.(CompiledCorrectiveAction.for_step_id) == Some data.(CompensationRegisteredData.for_step_id))) saga.(CompiledSaga.compensations)) in
  fail_if ((workflow.(CompiledWorkflowDefinition.schema_version) <? COMPILED_MODEL_SCHEMA_VERSION_V19)%N || negb valid)
    "Compensation registration does not match Model v19.".

Definition check_correction_started (data : SagaCorrectionStartedData) : result string unit :=
  fail_if (forallb (λ (saga : CompiledSaga), saga.(CompiledSaga.saga_id) != data.(SagaCorrectionStartedData.saga_id)) (unwrap_or_default workflow.(CompiledWorkflowDefinition.graph).(CompiledWorkflowGraph.sagas)))
    "Saga correction references an unknown Model v19 saga.".

(** ** Operations, engine/history.rs *)

(** The actions of all lifecycle hooks. *)
Definition lifecycle_actions : list CompiledLifecycleAction :=
  match workflow.(CompiledWorkflowDefinition.lifecycle) with
  | Some lifecycle => flat_map CompiledLifecycleHook.actions lifecycle.(CompiledLifecycleDefinition.hooks)
  | None => []
  end.

Definition validate_operation_node (node_id : string) : result string unit :=
  check fail_if (workflow.(CompiledWorkflowDefinition.schema_version) <? COMPILED_MODEL_SCHEMA_VERSION_V8)%N
    "Operation events require compiled workflow Model v8.";
  if existsb (λ (action : CompiledLifecycleAction),
       (action.(CompiledLifecycleAction.action_id) == node_id)
       && ((action.(CompiledLifecycleAction.handler) == "runtime.lifecycle-script") || (action.(CompiledLifecycleAction.handler) == "notification.informational")))
       lifecycle_actions
  then Ok tt
  else if existsb (λ (saga : CompiledSaga),
            existsb (λ kind, is_ok (validate_correction_action saga.(CompiledSaga.saga_id) node_id kind))
              [CorrectiveActionKind.Compensation; CorrectiveActionKind.Cleanup])
            (unwrap_or_default workflow.(CompiledWorkflowDefinition.graph).(CompiledWorkflowGraph.sagas))
  then Ok tt
  else
    let? node := ok_or (node workflow node_id) "Operation references unknown node or lifecycle action {node_id:?}." in
    fail_if ((node.(CompiledWorkflowNode.handler) != "runtime.script") || is_none node.(CompiledWorkflowNode.script_runtime))
      "Operation node {node_id:?} is not a Model v8 runtime.script node.".

(** ** Loops and reusable definitions, engine/history.rs *)

Definition validate_for_each_id (for_each_id : string) : result string unit :=
  if existsb (λ (descriptor : CompiledForEach), descriptor.(CompiledForEach.for_each_id) == for_each_id)
       (unwrap_or_default workflow.(CompiledWorkflowDefinition.graph).(CompiledWorkflowGraph.for_each))
  then Ok tt
  else Err "For-each event references unknown loop {for_each_id:?}.".

(** The identity, the digest and the lifecycle of a reusable invocation. *)
Definition reusable_identity (definition : CompiledReusableInvocation) : string * string * option CompiledReusableLifecycle :=
  match definition with
  | CompiledReusableInvocation.Step invocation_id _ _ definition_digest _ _ _ lifecycle => (invocation_id, definition_digest, lifecycle)
  | CompiledReusableInvocation.NotificationProvider provider_id _ definition_digest _ _ _ lifecycle => (provider_id, definition_digest, lifecycle)
  end.

Definition validate_reusable_lifecycle_binding (invocation_id definition_digest : string) (action_id : option string) :
    result string unit :=
  check fail_if (negb (model_since COMPILED_MODEL_SCHEMA_VERSION_V14))
    "Reusable lifecycle events require compiled Model v14 or later.";
  let? descriptor := ok_or
    (List.find (λ definition, ((reusable_identity definition).1.1 == invocation_id)
                              && ((reusable_identity definition).1.2 == definition_digest))
       (unwrap_or_default workflow.(CompiledWorkflowDefinition.reusable_definitions)))
    "Reusable lifecycle event does not match an immutable Model v14 invocation." in
  match action_id with
  | None => Ok tt
  | Some action_id =>
      let found := is_some_and (reusable_identity descriptor).2 (λ (lifecycle : CompiledReusableLifecycle),
        str_elem (unwrap_or_default lifecycle.(CompiledReusableLifecycle.on_success) ++ unwrap_or_default lifecycle.(CompiledReusableLifecycle.on_error)
                  ++ unwrap_or_default lifecycle.(CompiledReusableLifecycle.on_complete)) action_id) in
      fail_if (negb found) "Reusable lifecycle event references an unknown action."
  end.

(** ** Lifecycle hooks *)

Definition check_hook_requested (data : LifecycleHookRequestedData) : result string unit :=
  check fail_if (negb (model_since COMPILED_MODEL_SCHEMA_VERSION_V11))
    "Lifecycle hook events require compiled Model v11+.";
  let? hook := ok_or (lifecycle_hook workflow data.(LifecycleHookRequestedData.hook_id))
    "Lifecycle request references unknown hook {:?}." in
  fail_if ((hook.(CompiledLifecycleHook.event) != data.(LifecycleHookRequestedData.event))
           || (is_step data.(LifecycleHookRequestedData.event) && is_none (lifecycle_hook_for_step_event workflow data.(LifecycleHookRequestedData.event) data.(LifecycleHookRequestedData.subject).(LifecycleSubject.id))))
    "Lifecycle hook request does not match its compiled binding.".

(** [text.split(pattern).next().unwrap_or_default()]. *)
Definition before_first (pattern text : string) : string :=
  match split_once pattern text with Some (before, _) => before | None => text end.

Definition check_action_identity (data : LifecycleActionIdentityData) : result string unit :=
  let action_exists := is_some_and workflow.(CompiledWorkflowDefinition.lifecycle) (λ (lifecycle : CompiledLifecycleDefinition),
    existsb (λ (hook : CompiledLifecycleHook),
      (hook.(CompiledLifecycleHook.hook_id) == before_first ":action:" data.(LifecycleActionIdentityData.action_id))
      && existsb (λ (action : CompiledLifecycleAction), action.(CompiledLifecycleAction.action_id) == data.(LifecycleActionIdentityData.action_id)) hook.(CompiledLifecycleHook.actions)) lifecycle.(CompiledLifecycleDefinition.hooks)) in
  fail_if (negb (model_since COMPILED_MODEL_SCHEMA_VERSION_V11) || negb action_exists)
    "Lifecycle action event references an unknown Model v11+ action.".

Definition check_action_failed (data : LifecycleActionFailedData) : result string unit :=
  let action_exists := existsb (λ (action : CompiledLifecycleAction), action.(CompiledLifecycleAction.action_id) == data.(LifecycleActionFailedData.action_id)) lifecycle_actions in
  fail_if (negb (model_since COMPILED_MODEL_SCHEMA_VERSION_V11) || negb action_exists)
    "Lifecycle action failure references an unknown Model v11+ action.".

Definition check_hook_completed (data : LifecycleHookCompletedData) : result string unit :=
  fail_if (negb (model_since COMPILED_MODEL_SCHEMA_VERSION_V11) || is_none workflow.(CompiledWorkflowDefinition.lifecycle)
           || negb (is_definition_hash data.(LifecycleHookCompletedData.hook_invocation_id)))
    "Lifecycle hook completion requires a Model v11+ lifecycle binding.".

(** ** Ends of runs *)

Definition check_run_succeeded (data : RunSucceededData) : result string unit :=
  check fail_if (COMPILED_MODEL_SCHEMA_VERSION_V11 <=? workflow.(CompiledWorkflowDefinition.schema_version))%N
    "Model v11+ finalizes with run_outcome_decided and run_finalized.";
  fail_if (terminal_node_id workflow != Some data.(RunSucceededData.terminal_node_id))
    "run_succeeded names {:?}, which is not the workflow terminal node.".

Definition check_run_control : result string unit :=
  fail_if (negb (model_since COMPILED_MODEL_SCHEMA_VERSION_V11))
    "Lifecycle and run-control events require compiled Model v11+.".

(** What a failed run names. *)
Definition check_failed_notification (approval_id : string) (failed_delivery_ids : list string) : result string unit :=
  let? approval := ok_or (approval workflow approval_id) "run_failed references unknown approval {approval_id:?}." in
  fail_if (existsb (λ id, negb (compiled_delivery approval id)) failed_delivery_ids)
    "run_failed references a delivery outside its compiled approval.".

Definition check_failed_node (node_id : string) : result string unit :=
  fail_if (is_none (node workflow node_id)) "run_failed references unknown node {node_id:?}.".

Definition check_failed_branch (branch_id : string) (arm_id : option string) : result string unit :=
  check fail_if (is_none (node workflow (branch_selector_id branch_id)))
    "run_failed references unknown branch {branch_id:?}.";
  fail_if (is_some_and arm_id (λ arm_id, negb (is_branch_arm workflow.(CompiledWorkflowDefinition.graph).(CompiledWorkflowGraph.edges) branch_id arm_id)))
    "run_failed references an unknown arm for branch {branch_id:?}.".

Definition check_failed_group (parallel_id : string) (policy : ParallelFailurePolicy) (primary_node_id : string)
    (failed cancelled : list string) : result string unit :=
  let? group := ok_or (parallel_group workflow parallel_id)
    "run_failed references unknown parallel group {parallel_id:?}." in
  let? expected_policy :=
    if group.(ParallelGroupDefinition.on_error) == "fail-fast" then Ok ParallelFailurePolicy.FailFast
    else if group.(ParallelGroupDefinition.on_error) == "wait-all" then Ok ParallelFailurePolicy.WaitAll
    else Err "Parallel group {parallel_id:?} has an invalid policy." in
  fail_if ((policy != expected_policy) || negb (str_elem failed primary_node_id)
           || existsb (λ node_id, negb (str_elem group.(ParallelGroupDefinition.child_node_ids) node_id)) (failed ++ cancelled))
    "run_failed does not match parallel group {parallel_id:?} and its compiled policy.".

Definition check_failed_approval (approval_id : string) : result string unit :=
  fail_if (is_none (approval workflow approval_id)) "run_failed references unknown approval {approval_id:?}.".

Definition check_run_failed (data : RunFailedData) : result string unit :=
  check fail_if (COMPILED_MODEL_SCHEMA_VERSION_V11 <=? workflow.(CompiledWorkflowDefinition.schema_version))%N
    "Model v11+ finalizes with run_outcome_decided and run_finalized.";
  match data with
  | RunFailedData.V5 (RunFailedDataV5.Notification approval_id _ failed_delivery_ids _) =>
      check_failed_notification approval_id failed_delivery_ids
  | RunFailedData.V1 data =>
      match data.(RunFailedDataV1.node_id) with Some node_id => check_failed_node node_id | None => Ok tt end
  | RunFailedData.V2 (RunFailedDataV2.Attempt node_id _ _ _) => check_failed_node node_id
  | RunFailedData.V2 (RunFailedDataV2.Branch branch_id arm_id _ _) => check_failed_branch branch_id arm_id
  | RunFailedData.V3 (RunFailedDataV3.Parallel parallel_id policy primary_node_id failed cancelled _) =>
      check_failed_group parallel_id policy primary_node_id failed cancelled
  | RunFailedData.V4 (RunFailedDataV4.Approval approval_id _ _) => check_failed_approval approval_id
  end.

(** ** Remote dispatch *)

Definition validate_remote_dispatch_placement (node : option CompiledWorkflowNode) (data : RemoteDispatchTransitionedData) :
    result string unit :=
  let? node := ok_or node "Remote dispatch references unknown executable node {:?}." in
  fail_if ((workflow.(CompiledWorkflowDefinition.schema_version) != COMPILED_MODEL_SCHEMA_VERSION_V21) || (node.(CompiledWorkflowNode.handler) != "runtime.script")
           || is_none_or node.(CompiledWorkflowNode.execution) (λ (execution : CompiledExecutionPlacement),
                (execution.(CompiledExecutionPlacement.target) == "local") || (execution.(CompiledExecutionPlacement.target) != data.(RemoteDispatchTransitionedData.target)))
           || (data.(RemoteDispatchTransitionedData.attempt) == 0%N) || (maximum_attempts node <? data.(RemoteDispatchTransitionedData.attempt))%N)
    "Remote dispatch for node {:?} does not match its Model v21 placement and retry policy.".

(** The node of the first corrective action, of those that qualify, with an identifier. *)
Definition corrective_node (qualifies : CompiledCorrectionIdentity → bool) (node_id : string) : option CompiledWorkflowNode :=
  CompiledCorrectiveAction.node <$>
    List.find (λ (action : CompiledCorrectiveAction), action.(CompiledCorrectiveAction.node).(CompiledWorkflowNode.id) == node_id)
      (List.filter (λ (action : CompiledCorrectiveAction), qualifies action.(CompiledCorrectiveAction.identity))
         (flat_map (λ (saga : CompiledSaga), saga.(CompiledSaga.compensations) ++ saga.(CompiledSaga.cleanup))
            (unwrap_or_default workflow.(CompiledWorkflowDefinition.graph).(CompiledWorkflowGraph.sagas)))).

Definition check_remote_dispatch (data : RemoteDispatchTransitionedData) : result string unit :=
  validate_remote_dispatch_placement
    (or_else (node workflow data.(RemoteDispatchTransitionedData.node_id))
       (corrective_node (λ identity, match identity with CompiledCorrectionIdentity.Static _ => true | _ => false end) data.(RemoteDispatchTransitionedData.node_id))) data.

(** ** All payloads *)

Definition validate_payload_against_definition (payload : RunEventPayload) : result string unit :=
  match payload with
  | RunEventPayload.RunAdmitted data => check_run_admitted data
  | RunEventPayload.RunExecutionStarted data => check_run_execution_started data
  | RunEventPayload.RunTimeoutReached _ => check_run_timeout_reached
  | RunEventPayload.RunStarted data => check_run_started data
  | RunEventPayload.StepAttemptStarted data => check_attempt_started data
  | RunEventPayload.StepAttemptSucceeded data => check_attempt_settled data.(StepAttemptSucceededData.node_id)
  | RunEventPayload.StepAttemptFailed data => check_attempt_settled data.(StepAttemptFailedData.node_id)
  | RunEventPayload.StepRetryScheduled data => check_retry_scheduled data
  | RunEventPayload.BranchSelected data => check_branch_selected data
  | RunEventPayload.ChoiceSelected data => check_choice_selected data
  | RunEventPayload.ForkOpened data => check_fork_opened data
  | RunEventPayload.ForkBranchSettled data => check_fork_branch_settled data
  | RunEventPayload.ForkJoinSettled data => check_fork_join_settled data
  | RunEventPayload.ParallelGroupStarted data => check_group_started data
  | RunEventPayload.ParallelGroupCompleted data => check_group_completed data
  | RunEventPayload.ApprovalRequested data => check_approval_requested data
  | RunEventPayload.ApprovalReviewRequested data => check_review_requested data
  | RunEventPayload.ApprovalReviewerDecisionRecorded data =>
      check_rich_approval data.(ApprovalReviewerDecisionRecordedData.approval_id) "approval_reviewer_decision_recorded requires a Model v20 rich approval."
  | RunEventPayload.ApprovalQuorumProgressed data => check_quorum_progressed data
  | RunEventPayload.ApprovalResolved data => check_approval_resolved data
  | RunEventPayload.ApprovalInvalidated data =>
      check_rich_approval data.(ApprovalInvalidatedData.approval_id) "approval_invalidated requires a Model v20 rich approval."
  | RunEventPayload.NotificationDeliveryRequested data => check_delivery_requested data
  | RunEventPayload.NotificationDeliveryAttemptStarted data =>
      check_delivery data.(NotificationDeliveryAttemptStartedData.approval_id) data.(NotificationDeliveryAttemptStartedData.delivery_id) "Notification attempt references an unknown approval."
        "Notification attempt references an unknown compiled delivery."
  | RunEventPayload.NotificationDeliverySucceeded data =>
      check_delivery data.(NotificationDeliverySucceededData.approval_id) data.(NotificationDeliverySucceededData.delivery_id) "Notification success references an unknown approval."
        "Notification success references an unknown compiled delivery."
  | RunEventPayload.NotificationDeliveryFailed data =>
      check_delivery data.(NotificationDeliveryFailedData.approval_id) data.(NotificationDeliveryFailedData.delivery_id) "Notification failure references an unknown approval."
        "Notification failure references an unknown compiled delivery."
  | RunEventPayload.NotificationDecisionAccepted data => check_decision_accepted data
  | RunEventPayload.NotificationMessageUpdateRequested data =>
      check_delivery data.(NotificationMessageUpdateRequestedData.approval_id) data.(NotificationMessageUpdateRequestedData.delivery_id) "Notification update references an unknown approval."
        "Notification update references an unknown compiled delivery."
  | RunEventPayload.NotificationMessageUpdateAttemptStarted data
  | RunEventPayload.NotificationMessageUpdated data =>
      check_delivery data.(NotificationMessageUpdateAttemptStartedData.approval_id) data.(NotificationMessageUpdateAttemptStartedData.delivery_id) "Notification update attempt references an unknown approval."
        "Notification update attempt references an unknown compiled delivery."
  | RunEventPayload.NotificationMessageUpdateFailed data =>
      check_delivery data.(NotificationMessageUpdateFailedData.approval_id) data.(NotificationMessageUpdateFailedData.delivery_id) "Notification update failure references an unknown approval."
        "Notification update failure references an unknown compiled delivery."
  | RunEventPayload.WaitRegistered data => check_wait_registered data
  | RunEventPayload.ExternalSignalReceived data => check_signal_received data
  | RunEventPayload.WaitSatisfied data =>
      check_known_wait data.(WaitSatisfiedData.wait_id) "wait_satisfied references an unknown durable wait."
  | RunEventPayload.WaitTimedOut data => check_wait_timed_out data
  | RunEventPayload.WaitCancelled data =>
      check_known_wait data.(WaitCancelledData.wait_id) "wait_cancelled references an unknown durable wait."
  | RunEventPayload.LockWaitRegistered data =>
      check_known_lock data.(LockWaitRegisteredData.lock_id) "lock_wait_registered references an unknown Model v18 lock."
  | RunEventPayload.LockAcquired data =>
      check_known_lock data.(LockAcquiredData.lock_id) "lock_acquired references an unknown Model v18 lock."
  | RunEventPayload.LockReleased data =>
      check_known_lock data.(LockReleasedData.lock_id) "lock_released references an unknown Model v18 lock."
  | RunEventPayload.LockAcquireTimedOut data =>
      check_known_lock data.(LockAcquireTimedOutData.lock_id) "lock_acquire_timed_out references an unknown Model v18 lock."
  | RunEventPayload.LockAcquisitionCancelled data =>
      check_known_lock data.(LockAcquisitionCancelledData.lock_id) "lock_acquisition_cancelled references an unknown Model v18 lock."
  | RunEventPayload.LockLeaseLost data =>
      check_known_lock data.(LockLeaseLostData.lock_id) "lock_lease_lost references an unknown Model v18 lock."
  | RunEventPayload.RunSucceeded data => check_run_succeeded data
  | RunEventPayload.OperationStarted data => validate_operation_node data.(OperationStartedData.node_id)
  | RunEventPayload.OperationSucceeded data => validate_operation_node data.(OperationSucceededData.node_id)
  | RunEventPayload.OperationFailed data => validate_operation_node data.(OperationFailedData.node_id)
  | RunEventPayload.RunCancellationRequested _ | RunEventPayload.RunOutcomeDecided _ | RunEventPayload.RunFinalized _ => check_run_control
  | RunEventPayload.LifecycleHookRequested data => check_hook_requested data
  | RunEventPayload.LifecycleActionAttemptStarted data | RunEventPayload.LifecycleActionSucceeded data => check_action_identity data
  | RunEventPayload.LifecycleActionFailed data => check_action_failed data
  | RunEventPayload.LifecycleHookCompleted data => check_hook_completed data
  | RunEventPayload.ReusableLifecycleRequested data =>
      validate_reusable_lifecycle_binding data.(ReusableLifecycleRequestedData.invocation_id) data.(ReusableLifecycleRequestedData.definition_digest) None
  | RunEventPayload.ReusableLifecycleActionStarted data =>
      validate_reusable_lifecycle_binding data.(ReusableLifecycleActionStartedData.invocation_id) data.(ReusableLifecycleActionStartedData.definition_digest) (Some data.(ReusableLifecycleActionStartedData.action_id))
  | RunEventPayload.ReusableLifecycleActionSucceeded data =>
      validate_reusable_lifecycle_binding data.(ReusableLifecycleActionSucceededData.invocation_id) data.(ReusableLifecycleActionSucceededData.definition_digest) (Some data.(ReusableLifecycleActionSucceededData.action_id))
  | RunEventPayload.ReusableLifecycleActionFailed data =>
      validate_reusable_lifecycle_binding data.(ReusableLifecycleActionFailedData.invocation_id) data.(ReusableLifecycleActionFailedData.definition_digest) (Some data.(ReusableLifecycleActionFailedData.action_id))
  | RunEventPayload.ReusableLifecycleCompleted data =>
      validate_reusable_lifecycle_binding data.(ReusableLifecycleCompletedData.invocation_id) data.(ReusableLifecycleCompletedData.definition_digest) None
  | RunEventPayload.RunFailed data => check_run_failed data
  | RunEventPayload.ForEachOpened data => validate_for_each_id data.(ForEachOpenedData.for_each_id)
  | RunEventPayload.ForEachIterationStarted data => validate_for_each_id data.(ForEachIterationIdentityData.for_each_id)
  | RunEventPayload.ForEachIterationSucceeded data => validate_for_each_id data.(ForEachIterationSucceededData.for_each_id)
  | RunEventPayload.ForEachIterationFailed data => validate_for_each_id data.(ForEachIterationFailedData.for_each_id)
  | RunEventPayload.ForEachIterationSkipped data => validate_for_each_id data.(ForEachIterationSkippedData.for_each_id)
  | RunEventPayload.ForEachSucceeded data | RunEventPayload.ForEachFailed data | RunEventPayload.ForEachCancelled data =>
      validate_for_each_id data.(ForEachSettledData.for_each_id)
  | RunEventPayload.SagaStarted data | RunEventPayload.SagaForwardSucceeded data | RunEventPayload.SagaCorrectionCompleted data =>
      check_saga_known data.(SagaIdentityData.saga_id)
  | RunEventPayload.CompensationRegistered data => check_compensation_registered data
  | RunEventPayload.SagaCorrectionStarted data => check_correction_started data
  | RunEventPayload.CorrectionAttemptStarted data | RunEventPayload.CorrectionAttemptSucceeded data =>
      validate_correction_action data.(CorrectionAttemptIdentityData.saga_id) data.(CorrectionAttemptIdentityData.action_id) data.(CorrectionAttemptIdentityData.action_kind)
  | RunEventPayload.CorrectionAttemptFailed data =>
      validate_correction_action data.(CorrectionAttemptFailedData.saga_id) data.(CorrectionAttemptFailedData.action_id) data.(CorrectionAttemptFailedData.action_kind)
  | RunEventPayload.CorrectionRetryScheduled data =>
      validate_correction_action data.(CorrectionRetryScheduledData.saga_id) data.(CorrectionRetryScheduledData.action_id) data.(CorrectionRetryScheduledData.action_kind)
  | RunEventPayload.CorrectionInterrupted data =>
      validate_correction_action data.(CorrectionInterruptedData.saga_id) data.(CorrectionInterruptedData.action_id) data.(CorrectionInterruptedData.action_kind)
  | RunEventPayload.ManualRecoveryRequired data =>
      validate_correction_action data.(ManualRecoveryRequiredData.saga_id) data.(ManualRecoveryRequiredData.action_id) data.(ManualRecoveryRequiredData.action_kind)
  | RunEventPayload.InfrastructurePolicyDecisionRecorded _ => Ok tt
  | RunEventPayload.RemoteDispatchTransitioned data => check_remote_dispatch data
  end.

(** ** Payloads of an iteration *)

Definition loop_descriptor (for_each_id : string) : option CompiledForEach :=
  List.find (λ (descriptor : CompiledForEach), descriptor.(CompiledForEach.for_each_id) == for_each_id)
    (unwrap_or_default workflow.(CompiledWorkflowDefinition.graph).(CompiledWorkflowGraph.for_each)).

(** The closure [body_node]. *)
Definition body_node (descriptor : CompiledForEach) (node_id : string) : option CompiledWorkflowNode :=
  List.find (λ (node : CompiledWorkflowNode), node.(CompiledWorkflowNode.id) == node_id) descriptor.(CompiledForEach.body).(CompiledForEachBody.nodes).

Definition check_scoped_attempt_started (descriptor : CompiledForEach) (data : StepAttemptStartedData) : result string unit :=
  let? node := ok_or (body_node descriptor data.(StepAttemptStartedData.node_id)) "Iteration attempt references unknown node {:?}." in
  fail_if ((data.(StepAttemptStartedData.handler) != node.(CompiledWorkflowNode.handler)) || (data.(StepAttemptStartedData.attempt) == 0%N) || (maximum_attempts node <? data.(StepAttemptStartedData.attempt))%N)
    "Iteration attempt for node {:?} does not match its compiled handler and retry policy.".

Definition iteration_action_id (action_id_template : string) (index : N) : string :=
  str_replace "{iterationKey}" (decimal index) action_id_template.

Definition check_scoped_compensation (scope : ForEachIterationScope) (data : CompensationRegisteredData) : result string unit :=
  let valid := is_some_and (saga workflow data.(CompensationRegisteredData.saga_id)) (λ (saga : CompiledSaga),
    existsb (λ (action : CompiledCorrectiveAction),
      (action.(CompiledCorrectiveAction.for_step_id) == Some data.(CompensationRegisteredData.for_step_id))
      && match action.(CompiledCorrectiveAction.identity) with
         | CompiledCorrectionIdentity.ForEachIteration for_each_id action_id_template =>
             (for_each_id == scope.(ForEachIterationScope.for_each_id)) && (iteration_action_id action_id_template scope.(ForEachIterationScope.index) == data.(CompensationRegisteredData.action_id))
         | CompiledCorrectionIdentity.Static _ => false
         end) saga.(CompiledSaga.compensations)) in
  if valid then Ok tt else Err "Iteration compensation registration does not match Model v19.".

Definition check_scoped_node (descriptor : CompiledForEach) (node_id message : string) : result string unit :=
  fail_if (is_none (body_node descriptor node_id)) message.

Definition check_scoped_retry (descriptor : CompiledForEach) (data : StepRetryScheduledData) : result string unit :=
  let? node := ok_or (body_node descriptor data.(StepRetryScheduledData.node_id)) "Iteration retry references unknown node {:?}." in
  let? policy := ok_or node.(CompiledWorkflowNode.retry_policy) "Iteration node {:?} has no retry policy." in
  fail_if ((data.(StepRetryScheduledData.next_attempt) != u32_add data.(StepRetryScheduledData.failed_attempt) 1) || (policy.(RetryPolicy.max_attempts) <? data.(StepRetryScheduledData.next_attempt))%N)
    "Iteration retry for node {:?} exceeds its compiled policy.".

Definition check_scoped_choice (descriptor : CompiledForEach) (data : ChoiceSelectedData) : result string unit :=
  let? choice := ok_or (find_choice descriptor.(CompiledForEach.body).(CompiledForEachBody.choices) data.(ChoiceSelectedData.choice_id)) "Unknown iteration choice {:?}." in
  fail_if (negb (str_elem choice.(CompiledControlChoice.arm_ids) data.(ChoiceSelectedData.arm_id))) "Arm {:?} is not selectable for iteration choice {:?}.".

Definition check_scoped_branch (descriptor : CompiledForEach) (data : BranchSelectedData) : result string unit :=
  let? selector := ok_or (body_node descriptor (branch_selector_id data.(BranchSelectedData.branch_id)))
    "Unknown iteration conditional branch {:?}." in
  fail_if (negb ((selector.(CompiledWorkflowNode.handler) == "engine.branch-select")
                 && is_branch_arm descriptor.(CompiledForEach.body).(CompiledForEachBody.edges) data.(BranchSelectedData.branch_id) data.(BranchSelectedData.arm_id)))
    "Arm {:?} is not selectable for iteration branch {:?}.".

Definition check_scoped_group (descriptor : CompiledForEach) (parallel_id : string) : result string unit :=
  fail_if (negb (is_some (body_node descriptor (parallel_start_node_id parallel_id))
                 && is_some_and (body_node descriptor parallel_id)
                      (λ (node : CompiledWorkflowNode), node.(CompiledWorkflowNode.handler) == "engine.parallel-join")))
    "Unknown iteration parallel group {:?}.".

Definition check_scoped_hook (run_id : string) (scope : ForEachIterationScope) (data : LifecycleHookRequestedData) :
    result string unit :=
  let prefix := scope.(ForEachIterationScope.for_each_id) +:+ "[" +:+ decimal scope.(ForEachIterationScope.index) +:+ "]." in
  let? node_id := ok_or (strip_prefix prefix data.(LifecycleHookRequestedData.subject).(LifecycleSubject.id)) "Iteration lifecycle subject does not match its durable scope." in
  let? hook := ok_or (lifecycle_hook_for_step_event workflow data.(LifecycleHookRequestedData.event) node_id)
    "Iteration lifecycle request does not match a compiled step hook." in
  let expected_invocation_id :=
    derive_lifecycle_hook_invocation_id run_id data.(LifecycleHookRequestedData.hook_id) data.(LifecycleHookRequestedData.subject).(LifecycleSubject.kind) data.(LifecycleHookRequestedData.subject).(LifecycleSubject.id) in
  fail_if ((data.(LifecycleHookRequestedData.subject).(LifecycleSubject.kind) != LifecycleSubjectKind.Step) || (hook.(CompiledLifecycleHook.hook_id) != data.(LifecycleHookRequestedData.hook_id))
           || (expected_invocation_id != data.(LifecycleHookRequestedData.hook_invocation_id)))
    "Iteration lifecycle request does not match its compiled binding.".

Definition check_scoped_action (action_id : string) (attempt : N) : result string unit :=
  let action_exists := existsb (λ (action : CompiledLifecycleAction), action.(CompiledLifecycleAction.action_id) == action_id) lifecycle_actions in
  fail_if (negb action_exists || (attempt == 0%N)) "Iteration lifecycle action does not match its compiled binding.".

Definition check_scoped_dispatch (descriptor : CompiledForEach) (scope : ForEachIterationScope)
    (data : RemoteDispatchTransitionedData) : result string unit :=
  let corrective := corrective_node (λ identity,
    match identity with CompiledCorrectionIdentity.ForEachIteration for_each_id _ => for_each_id == scope.(ForEachIterationScope.for_each_id) | CompiledCorrectionIdentity.Static _ => false end)
    data.(RemoteDispatchTransitionedData.node_id) in
  validate_remote_dispatch_placement (or_else (body_node descriptor data.(RemoteDispatchTransitionedData.node_id)) corrective) data.

Definition validate_scoped_payload_against_definition (run_id : string) (scope : ForEachIterationScope)
    (payload : RunEventPayload) : result string unit :=
  let? descriptor := ok_or (loop_descriptor scope.(ForEachIterationScope.for_each_id)) "Unknown for-each scope {:?}." in
  match payload with
  | RunEventPayload.StepAttemptStarted data => check_scoped_attempt_started descriptor data
  | RunEventPayload.CompensationRegistered data => check_scoped_compensation scope data
  | RunEventPayload.StepAttemptSucceeded data =>
      check_scoped_node descriptor data.(StepAttemptSucceededData.node_id) "Iteration attempt references unknown node {:?}."
  | RunEventPayload.StepAttemptFailed data =>
      check_scoped_node descriptor data.(StepAttemptFailedData.node_id) "Iteration attempt references unknown node {:?}."
  | RunEventPayload.StepRetryScheduled data => check_scoped_retry descriptor data
  | RunEventPayload.ChoiceSelected data => check_scoped_choice descriptor data
  | RunEventPayload.BranchSelected data => check_scoped_branch descriptor data
  | RunEventPayload.ParallelGroupStarted data => check_scoped_group descriptor data.(ParallelGroupStartedData.parallel_id)
  | RunEventPayload.ParallelGroupCompleted data => check_scoped_group descriptor data.(ParallelGroupCompletedData.parallel_id)
  | RunEventPayload.OperationStarted data =>
      check_scoped_node descriptor data.(OperationStartedData.node_id) "Iteration operation references unknown node {:?}."
  | RunEventPayload.OperationSucceeded data =>
      check_scoped_node descriptor data.(OperationSucceededData.node_id) "Iteration operation references unknown node {:?}."
  | RunEventPayload.OperationFailed data =>
      check_scoped_node descriptor data.(OperationFailedData.node_id) "Iteration operation references unknown node {:?}."
  | RunEventPayload.LifecycleHookRequested data => check_scoped_hook run_id scope data
  | RunEventPayload.LifecycleActionAttemptStarted data | RunEventPayload.LifecycleActionSucceeded data =>
      check_scoped_action data.(LifecycleActionIdentityData.action_id) data.(LifecycleActionIdentityData.attempt)
  | RunEventPayload.LifecycleActionFailed data => check_scoped_action data.(LifecycleActionFailedData.action_id) data.(LifecycleActionFailedData.attempt)
  | RunEventPayload.LifecycleHookCompleted _ => Ok tt
  | RunEventPayload.RemoteDispatchTransitioned data => check_scoped_dispatch descriptor scope data
  | _ => validate_payload_against_definition payload
  end.
End payloads.
