(* ===== verification/ModelRoundTrips.v ===== *)
(** * Identifiers that encode their parts

    The compiler writes positions, keys and owners into identifiers; the engine
    reads them back.  This file shows the round trips: numbers, the children of
    parallel groups, and the identifiers of iteration-scoped corrective actions. *)

From stdpp Require Import pretty.
From S2P Require Import Prelude GraphSearch Strings Json EventTypes ProjectionTypes Guards.
From S2P Require Import EventIdentities ModelTypes EngineExternals ModelQueries ModelIssues.
From S2P Require Import ModelContracts GraphContracts ForkContracts TopologicalOrder.
From S2P Require Import LoopContracts DurableContracts ModelValidation Readiness.
From S2P Require Import ReadinessProperties ModelProperties DefinitionValidation.

(** ** Numbers *)

Lemma pretty_digit x : (x < 10)%N → is_ascii_digit (pretty_N_char x) = true ∧ (Ascii.N_of_ascii (pretty_N_char x) - 48 = x)%N.
Proof.
  intros Hx. destruct x as [|p]; [done|]. do 4 (destruct p as [p|p|]; try (split; reflexivity)); exfalso; lia.
Qed.

Lemma digits_value_go x s : digits_value 0 (pretty_N_go x s) = digits_value x s.
Proof.
  revert s. induction (N.lt_wf_0 x) as [x _ IH]. intros s. destruct (decide (0 < x)%N) as [Hx|Hx].
  - rewrite pretty_N_go_step by done. rewrite IH by (apply N.div_lt; lia). simpl.
    destruct (pretty_digit (x mod 10)) as [_ ->]; [apply N.mod_lt; lia|]. f_equal.
    pose proof (N.div_mod x 10). lia.
  - assert (x = 0%N) as -> by lia. by rewrite pretty_N_go_0.
Qed.

Lemma digits_go x s : bytes_all is_ascii_digit (pretty_N_go x s) = bytes_all is_ascii_digit s.
Proof.
  revert s. induction (N.lt_wf_0 x) as [x _ IH]. intros s. destruct (decide (0 < x)%N) as [Hx|Hx].
  - rewrite pretty_N_go_step by done. rewrite IH by (apply N.div_lt; lia). simpl.
    destruct (pretty_digit (x mod 10)) as [-> _]; [apply N.mod_lt; lia|done].
  - assert (x = 0%N) as -> by lia. by rewrite pretty_N_go_0.
Qed.

Lemma decimal_digits n : bytes_all is_ascii_digit (decimal n) = true ∧ decimal n ≠ "".
Proof.
  unfold decimal, pretty, pretty_N. case_decide as Hn; [done|]. split; [by rewrite digits_go|].
  intros Heq. pose proof (digits_value_go n "") as Hv. rewrite Heq in Hv. simpl in Hv. lia.
Qed.

(** Reading a printed number gives the number. *)
Lemma parse_decimal n : (n < usize_modulus)%N → parse_usize (decimal n) = Some n.
Proof.
  intros Hn. destruct (decimal_digits n) as [Hd Hne].
  assert (digits_value 0 (decimal n) = n) as Hv.
  { unfold decimal, pretty, pretty_N. case_decide; [by subst|]. by rewrite digits_value_go. }
  assert (parse_u64 (decimal n) = Some n) as Hp.
  { unfold parse_u64. change (2 ^ 64)%N with usize_modulus. rewrite Hd, Hv, (proj2 (N.ltb_lt _ _) Hn). by destruct (decimal n). }
  unfold parse_usize. destruct (decimal n) as [|b s]; [done|].
  destruct (Ascii.eqb_spec b "+"%char); [subst; by simpl in Hd|done].
Qed.

(** ** Prefixes and suffixes *)

Lemma substring_prefix r q : String.substring 0 (String.length r) (r +:+ q) = r.
Proof. induction r as [|a r IH]; simpl; [by destruct q|]. by rewrite IH. Qed.

Lemma substring_suffix r q : String.substring (String.length r) (String.length q) (r +:+ q) = q.
Proof. induction r as [|a r IH]; simpl; [apply substring_all|done]. Qed.

Lemma length_string_app r q : String.length (r +:+ q) = String.length r + String.length q.
Proof. induction r as [|a r IH]; simpl; [done|]. by rewrite IH. Qed.

Lemma substring_split k s :
  k ≤ String.length s → s = String.substring 0 k s +:+ String.substring k (String.length s - k) s.
Proof.
  revert k. induction s as [|a s IH]; intros k Hk; [by destruct k|]. destruct k as [|k].
  - simpl. by rewrite substring_all.
  - simpl in *. change (String a s = String a (String.substring 0 k s +:+ String.substring k (String.length s - k) s)).
    f_equal. apply IH. lia.
Qed.

Lemma strip_suffix_app q r : strip_suffix q (r +:+ q) = Some r.
Proof.
  unfold strip_suffix. rewrite length_string_app, Nat.add_sub, substring_suffix, String.eqb_refl, substring_prefix.
  by rewrite (proj2 (Nat.leb_le _ _)) by lia.
Qed.

Lemma strip_suffix_Some q s r : strip_suffix q s = Some r → s = r +:+ q.
Proof.
  unfold strip_suffix. destruct (_ && _) eqn:Hc; [|done]. intros [= <-].
  apply andb_true_iff in Hc as [Hle%Nat.leb_le Hq%String.eqb_eq].
  rewrite <-Hq at 2. rewrite (substring_split (String.length s - String.length q) s) at 1 by lia. do 2 f_equal. lia.
Qed.

(** ** Searching and replacing *)

Section replacing.
Context (pattern to : string) (Hpattern : pattern ≠ "").

(** The bytes after the first [k]. *)
Definition skip (k : nat) (s : string) : string := String.substring k (String.length s - k) s.

Lemma skip_0 s : skip 0 s = s.
Proof using Type. unfold skip. rewrite Nat.sub_0_r. apply substring_all. Qed.

Lemma replace_skip k s : replace_from k pattern to s = replace_from 0 pattern to (skip k s).
Proof using Type.
  revert s. induction k as [|k IH]; intros s; [by rewrite skip_0|]. destruct s as [|a s]; simpl; [done|].
  rewrite IH. unfold skip. simpl. done.
Qed.

Lemma prefix_split s : String.prefix pattern s = true → s = pattern +:+ skip (String.length pattern) s.
Proof using Type.
  clear Hpattern. revert s. induction pattern as [|a p IH]; intros s; simpl; [by rewrite skip_0|].
  destruct s as [|b s]; [discriminate|]. simpl. destruct (Ascii.ascii_dec a b) as [->|]; [|discriminate]. intros Hp%IH.
  unfold skip in *. change (String b s = String b (p +:+ String.substring (String.length p) (String.length s - String.length p) s)).
  by f_equal.
Qed.

(** Splitting at the first occurrence, and what replacing does there. *)
Lemma split_once_replace s before after :
  split_once pattern s = Some (before, after) →
  s = before +:+ pattern +:+ after
  ∧ replace_from 0 pattern to s = before +:+ to +:+ replace_from 0 pattern to after.
Proof using Hpattern.
  revert before after. induction s as [|b s IH]; intros before after Hs.
  { unfold split_once in Hs. simpl in Hs. by destruct pattern. }
  assert (∀ p' s', String.index 0 p' (String b s') = if String.prefix p' (String b s') then Some 0
            else match String.index 0 p' s' with Some n => Some (S n) | None => None end) as Hindex.
  { intros p' s'. simpl. by destruct p'. }
  unfold split_once in Hs. rewrite Hindex in Hs. destruct (String.prefix pattern (String b s)) eqn:Hp.
  - injection Hs as Hb Ha. assert (before = "") as -> by exact (eq_sym Hb).
    assert (after = skip (String.length pattern) (String b s)) as -> by exact (eq_sym Ha).
    split; [simpl; by apply prefix_split|].
    cbn [replace_from]. unfold starts_with. rewrite Hp, replace_skip.
    change ("" +:+ ?x) with x. replace (skip (Init.Nat.pred (String.length pattern)) s)
      with (skip (String.length pattern) (String b s)); [done|].
    destruct pattern as [|a p]; [done|]. unfold skip. done.
  - destruct (String.index 0 pattern s) as [n|] eqn:Hi; [|done]. injection Hs as <- <-.
    destruct (IH (String.substring 0 n s) (skip (n + String.length pattern) s)) as [Heq Hrep].
    { unfold split_once. by rewrite Hi. }
    cbn [replace_from]. unfold starts_with. rewrite Hp, Hrep. split; [|done].
    simpl. f_equal. rewrite Heq at 1. done.
Qed.

Lemma split_once_contains s : str_contains pattern s = true → ∃ before after, split_once pattern s = Some (before, after).
Proof using Type. unfold str_contains, split_once. destruct (String.index 0 pattern s); [eauto|done]. Qed.

Lemma replace_absent s : str_contains pattern s = false → replace_from 0 pattern to s = s.
Proof using Hpattern.
  unfold str_contains. induction s as [|b s IH]; [done|]. intros Hc.
  assert (String.index 0 pattern (String b s) = if String.prefix pattern (String b s) then Some 0
            else match String.index 0 pattern s with Some n => Some (S n) | None => None end) as Hindex.
  { simpl. by destruct pattern. }
  rewrite Hindex in Hc. cbn [replace_from]. unfold starts_with. destruct (String.prefix _ _); [done|].
  f_equal. apply IH. by destruct (String.index 0 pattern s).
Qed.
End replacing.

(** ** Corrective actions of iterations *)

Definition placeholder : string := "{iterationKey}".

Lemma placeholder_nonempty : placeholder ≠ "".
Proof. discriminate. Qed.

(** The number of opening braces. *)
Fixpoint braces (s : string) : nat :=
  match s with
  | EmptyString => 0
  | String b s => (if is_byte "{"%char b then 1 else 0) + braces s
  end.

Lemma braces_app a b : braces (a +:+ b) = braces a + braces b.
Proof.
  induction a as [|c a IH]; [done|]. change (String c a +:+ b) with (String c (a +:+ b)). simpl. rewrite IH. lia.
Qed.

Lemma braces_digits s : bytes_all is_ascii_digit s = true → braces s = 0.
Proof.
  induction s as [|b s IH]; [done|]. cbn [braces bytes_all]. intros [Hd Hs]%andb_true_iff. rewrite IH by done.
  destruct (is_byte "{"%char b) eqn:He; [|lia]. apply Ascii.eqb_eq in He. subst b. discriminate Hd.
Qed.

(** Replacing the placeholder by digits removes its brace. *)
Lemma braces_replace key s :
  bytes_all is_ascii_digit key = true → braces (str_replace placeholder key s) ≤ braces s.
Proof.
  intros Hk. unfold str_replace. remember (String.length s) as n eqn:Hn. revert s Hn.
  induction n as [n IH] using lt_wf_ind. intros s ->.
  destruct (str_contains placeholder s) eqn:Hc; [|rewrite (replace_absent _ _ placeholder_nonempty) by done; lia].
  apply split_once_contains in Hc as (before & after & Hs).
  apply (split_once_replace placeholder key placeholder_nonempty) in Hs as [Heq ->].
  rewrite Heq, !braces_app, (braces_digits key) by done.
  specialize (IH (String.length after)). rewrite Heq, !length_string_app in IH. simpl in IH.
  specialize (IH ltac:(lia) after eq_refl). lia.
Qed.

(** C36 Corrective actions of iterations: the identifier that registers a compensation of an iteration
    (every placeholder of the template replaced by the key) is the one that its correction accepts,
    exactly when the template has a single placeholder. *)
Theorem correction_ids_roundtrip for_each_id template index before after :
  split_once placeholder template = Some (before, after) →
  correction_identity_matches (CompiledCorrectionIdentity.ForEachIteration for_each_id template) (iteration_action_id template index)
  = negb (str_contains placeholder after).
Proof.
  intros Hs. simpl. unfold placeholder in Hs. rewrite Hs. fold placeholder in *. unfold iteration_action_id. fold placeholder.
  destruct (decimal_digits index) as [Hd Hne].
  apply (split_once_replace placeholder (decimal index) placeholder_nonempty) in Hs as [_ Hr].
  unfold str_replace. rewrite Hr, strip_prefix_app. simpl.
  destruct (str_contains placeholder after) eqn:Hc; simpl.
  - destruct (strip_suffix after _) as [key|] eqn:Hk; simpl; [|done]. apply strip_suffix_Some in Hk.
    destruct (bytes_all is_ascii_digit key) eqn:Hkd; [|by rewrite andb_false_r]. exfalso.
    apply (f_equal braces) in Hk. rewrite !braces_app, (braces_digits key), (braces_digits (decimal index)) in Hk by done.
    apply split_once_contains in Hc as (b2 & a2 & Ha).
    apply (split_once_replace placeholder (decimal index) placeholder_nonempty) in Ha as [Heq Hrep].
    rewrite Hrep, Heq, !braces_app, (braces_digits (decimal index)) in Hk by done.
    pose proof (braces_replace (decimal index) a2 Hd) as Hle. unfold str_replace in Hle. simpl in Hk. lia.
  - rewrite (replace_absent _ _ placeholder_nonempty), strip_suffix_app by done. simpl. rewrite Hd, andb_true_r. by destruct (decimal index).
Qed.

(** ** Parallel groups *)

Lemma group_edges_lookup key edges id :
  group_edges key edges !! id =
    match List.filter (λ edge, key edge == Some id) edges with [] => None | group => Some group end.
Proof.
  unfold group_edges. induction edges as [|e l IH] using rev_ind; [apply lookup_empty|].
  rewrite foldl_snoc, List.filter_app. simpl. destruct (key e) as [k|] eqn:Hk.
  - destruct (decide (k = id)) as [->|Hne].
    + rewrite lookup_insert_eq, IH, bool_decide_true by done. by destruct (List.filter _ l).
    + rewrite lookup_insert_ne, IH, bool_decide_false by congruence. by rewrite app_nil_r.
  - rewrite IH, bool_decide_false by done. by rewrite app_nil_r.
Qed.

Lemma scan_issues_elem_nil {S A} (body : S → A → S * list ModelIssue) state l a :
  (scan_issues body state l).2 = [] → a ∈ l → ∃ s, (body s a).2 = [].
Proof.
  revert state. induction l as [|b l IH]; intros state; [set_solver|]. rewrite scan_issues_cons. simpl.
  intros [Hb Hl]%app_nil [->|Ha]%elem_of_cons; eauto.
Qed.

Lemma own_children_distinct owned l : (own_children owned l).2 = false → NoDup l.
Proof.
  unfold own_children. assert (∀ (owned : gset string) b, (foldl (λ state child, ({[child]} ∪ state.1, state.2 || bool_decide (child ∈ state.1)))
    (owned, b) l).2 = false → b = false ∧ NoDup l ∧ ∀ x, x ∈ l → x ∉ owned) as Hall; [|by intros (_ & ? & _)%Hall].
  induction l as [|x l IH]; intros o b; simpl; [intros ->; split_and!; [done|constructor|set_solver]|].
  intros ([-> Hx%bool_decide_eq_false]%orb_false_iff & Hnd & Hd)%IH. split_and!; [done| |set_solver].
  constructor; [|done]. intros Hin%Hd. set_solver.
Qed.

Lemma nodes_by_id_lookup d id : NoDup (node_ids d) → nodes_by_id (graph_nodes d) !! id = node d id.
Proof.
  unfold nodes_by_id, node, node_ids. induction (graph_nodes d) as [|n l IH] using rev_ind; [done|]. intros Hnd.
  rewrite fmap_app in Hnd. apply NoDup_app in Hnd as (Hnd & Hdis & _).
  rewrite fmap_app, reverse_app, find_app. csimpl. destruct (decide (n.(CompiledWorkflowNode.id) = id)) as [<-|Hne].
  - rewrite lookup_insert_eq. destruct (List.find _ l) as [m|] eqn:Hf; [|by rewrite bool_decide_true].
    apply find_Some_elem in Hf as [Hm Heq%bool_decide_eq_true]. exfalso. apply (Hdis m.(CompiledWorkflowNode.id)).
    + by apply list_elem_of_fmap_2.
    + rewrite Heq. left.
  - rewrite lookup_insert_ne, (IH Hnd), bool_decide_false by done. by destruct (List.find _ l).
Qed.

(** Sorting by ascending positions changes nothing. *)
Lemma sort_by_key_positions {A} (key : A → N) l start :
  (∀ i a, l !! i = Some a → key a = (start + N.of_nat i)%N) → sort_by_key key l = l.
Proof.
  revert start. induction l as [|a l IH]; intros start Hk; [done|]. unfold sort_by_key in *. simpl.
  rewrite (IH (start + 1)%N) by (intros i b Hi; rewrite (Hk (S i) b Hi); lia).
  destruct l as [|b l]; [done|]. simpl. rewrite (Hk 0 a), (Hk 1 b) by done. by rewrite (proj2 (N.leb_le _ _)) by lia.
Qed.

Lemma child_position_of parallel_id index (edge : CompiledWorkflowEdge) :
  edge.(CompiledWorkflowEdge.id) = parallel_id +:+ ":child:" +:+ index_text index → (N.of_nat index < usize_modulus)%N →
  child_position parallel_id edge = N.of_nat index.
Proof.
  intros Hid Hlt. unfold child_position. rewrite Hid, <-string_app_assoc, strip_prefix_app. simpl. unfold index_text. by rewrite parse_decimal.
Qed.

Lemma all_indexed_lookup {A} (f : nat → A → bool) l i a : all_indexed f l = true → l !! i = Some a → f i a = true.
Proof.
  unfold all_indexed. rewrite forallb_forall. intros Hall Hi. apply (Hall (f i a)), list_elem_of_In.
  apply list_elem_of_lookup. exists i. by rewrite list_lookup_imap, Hi.
Qed.

(** What the check of a parallel group establishes. *)
Lemma valid_parallel_group `{EngineExternals} d parallel_id edge :
  inspect_structure d = [] → edge ∈ graph_edges d → edge.(CompiledWorkflowEdge.parallel_id) = Some parallel_id →
  let start_id := parallel_start_node_id parallel_id in
  let edges := List.filter (λ (edge : CompiledWorkflowEdge), edge.(CompiledWorkflowEdge.parallel_id) == Some parallel_id) (graph_edges d) in
  let child_edges := edges_out_of edges start_id in
  ∃ owned, parallel_start_inputs (node d start_id) (len child_edges) = true
    ∧ ordered_parallel_edges d (nodes_by_id (graph_nodes d)) parallel_id edges child_edges (edges_into edges parallel_id) = true
    ∧ parallel_boundaries d start_id parallel_id child_edges (edges_into edges parallel_id) = true
    ∧ (own_children owned (CompiledWorkflowEdge.to <$> child_edges)).2 = false.
Proof.
  intros Hv He Hp start_id edges child_edges. destruct (valid_parts d Hv) as (_ & _ & _ & Hpar & _).
  unfold inspect_parallel_contract in Hpar. rewrite !app_nil in Hpar. destruct Hpar as (_ & _ & Hg & _).
  assert ((parallel_id, edges) ∈ btree_iter (group_edges CompiledWorkflowEdge.parallel_id (graph_edges d))) as Hin.
  { rewrite btree_iter_Permutation, elem_of_map_to_list, group_edges_lookup. fold edges.
    assert (edge ∈ edges) as Hedge by (apply elem_of_filterb; rewrite bool_decide_true by done; done).
    destruct edges; [set_solver|done]. }
  destruct (scan_issues_elem_nil _ _ _ _ Hg Hin) as [owned Ho]. exists owned. unfold inspect_parallel_group in Ho.
  fold start_id child_edges in Ho. destruct (own_children owned _) as [o dup]. simpl in Ho.
  rewrite push_if_nil in Ho. apply negb_false_iff in Ho. rewrite !andb_true_iff in Ho.
  destruct Ho as (((((_ & Hs) & _) & Ho) & Hb) & Hd). rewrite nodes_by_id_lookup in Hs by by apply valid_nodes_distinct.
  split_and!; [done..|]. by apply negb_true_iff in Hd.
Qed.

(** The edges of the children, as the query and as the check select them. *)
Lemma child_edges_filter d parallel_id :
  edges_out_of (List.filter (λ (edge : CompiledWorkflowEdge), edge.(CompiledWorkflowEdge.parallel_id) == Some parallel_id) (graph_edges d))
    (parallel_start_node_id parallel_id)
  = List.filter (λ (edge : CompiledWorkflowEdge), (edge.(CompiledWorkflowEdge.from) == parallel_start_node_id parallel_id)
      && (edge.(CompiledWorkflowEdge.parallel_id) == Some parallel_id)) (graph_edges d).
Proof. unfold edges_out_of. rewrite filter_filter. apply List.filter_ext. intros a. apply andb_comm. Qed.

(** The identifiers of the children are in order. *)
Lemma children_sorted d nodes parallel_id edges child_edges join_edges :
  ordered_parallel_edges d nodes parallel_id edges child_edges join_edges = true →
  (len child_edges < usize_modulus)%N → sort_by_key (child_position parallel_id) child_edges = child_edges.
Proof.
  unfold ordered_parallel_edges. rewrite !andb_true_iff. intros [[_ Ho] _] Hlen.
  apply (sort_by_key_positions _ _ 0). intros i a Hi. apply (all_indexed_lookup _ _ _ _ Ho) in Hi as Ha.
  rewrite !andb_true_iff in Ha. destruct Ha as [[Hid%bool_decide_eq_true _] _].
  apply lookup_lt_Some in Hi. rewrite (child_position_of _ i) by (done || unfold len in Hlen; lia). lia.
Qed.

(** The policy that a well-formed start node carries is the one the query returns. *)
Lemma start_policy d parallel_id count :
  parallel_start_inputs (node d (parallel_start_node_id parallel_id)) count = true →
  ∃ c p, (1 ≤ c ≤ count)%N ∧ p ∈ ["fail-fast"; "wait-all"]
    ∧ parallel_group d parallel_id = Some (ParallelGroupDefinition.mk parallel_id (parallel_start_node_id parallel_id)
        (CompiledWorkflowEdge.to <$> sort_by_key (child_position parallel_id)
           (List.filter (λ (edge : CompiledWorkflowEdge), (edge.(CompiledWorkflowEdge.from) == parallel_start_node_id parallel_id)
              && (edge.(CompiledWorkflowEdge.parallel_id) == Some parallel_id)) (graph_edges d))) c p).
Proof.
  unfold parallel_start_inputs, parallel_group. destruct (node d _) as [start|]; [|done]. simpl.
  destruct (start.(CompiledWorkflowNode.handler) == "engine.parallel-start"); [|done]. simpl.
  destruct start.(CompiledWorkflowNode.inputs) as [| | | |fields| |]; try done. simpl. destruct (_ != _); [done|].
  unfold literal_count_is, literal_text_is, literal_is.
  destruct (fields !! "concurrency") as [[cv| | | | | |]|]; try done. simpl.
  destruct (as_u64 cv) as [c|]; [|done]. simpl.
  destruct (fields !! "onError") as [[pv| | | | | |]|]; [|by rewrite ?andb_false_r..]. simpl.
  destruct (as_str pv) as [p|]; [|by rewrite andb_false_r]. simpl. intros [Hc Hp]%andb_true_iff. simplify_guards.
  exists c, p. split_and!; [lia|lia| |done]. apply orb_true_iff in Hp as [Hp|Hp]; apply bool_decide_eq_true in Hp as ->; set_solver.
Qed.

(** A closed child leads to the group of its only incoming edge. *)
Lemma closed_child_group d start_id parallel_id child :
  closed_child d start_id parallel_id child = true → parallel_group_for_child d child = parallel_group d parallel_id.
Proof.
  unfold closed_child, parallel_group_for_child. destruct (edges_into (graph_edges d) child) as [|incoming [|]] eqn:Hinto; try done.
  destruct (edges_out_of (graph_edges d) child) as [|outgoing [|]]; try done. rewrite !andb_true_iff.
  intros [[[_ Hpi%bool_decide_eq_true] _] _].
  assert (List.find (λ (edge : CompiledWorkflowEdge), (edge.(CompiledWorkflowEdge.to) == child) && is_some edge.(CompiledWorkflowEdge.parallel_id)) (graph_edges d)
    = Some incoming) as ->; [|simpl; by rewrite Hpi].
  clear -Hinto Hpi. unfold edges_into in Hinto. induction (graph_edges d) as [|e l IH]; [done|]. simpl in *.
  destruct (e.(CompiledWorkflowEdge.to) == child); simpl; [|by apply IH]. injection Hinto as -> _. by rewrite Hpi.
Qed.

(** Parallel groups are decoded: in a validated definition, an edge of a parallel group leads to
    the group by its identifier; the query returns its children once each, in the order of their
    edges, with a limit of 1 to as many children, and every child leads back to its group. *)
Theorem parallel_groups_decoded `{EngineExternals} d parallel_id edge :
  validate_structure d = Ok tt → (len (graph_edges d) < usize_modulus)%N →
  edge ∈ graph_edges d → edge.(CompiledWorkflowEdge.parallel_id) = Some parallel_id →
  ∃ group, parallel_group d parallel_id = Some group
    ∧ group.(ParallelGroupDefinition.child_node_ids)
      = CompiledWorkflowEdge.to <$> List.filter (λ (edge : CompiledWorkflowEdge), (edge.(CompiledWorkflowEdge.from) == parallel_start_node_id parallel_id)
          && (edge.(CompiledWorkflowEdge.parallel_id) == Some parallel_id)) (graph_edges d)
    ∧ NoDup group.(ParallelGroupDefinition.child_node_ids)
    ∧ (1 ≤ group.(ParallelGroupDefinition.concurrency) ≤ len group.(ParallelGroupDefinition.child_node_ids))%N
    ∧ group.(ParallelGroupDefinition.on_error) ∈ ["fail-fast"; "wait-all"]
    ∧ ∀ child, child ∈ group.(ParallelGroupDefinition.child_node_ids) → parallel_group_for_child d child = Some group.
Proof.
  intros Hv%validate_structure_ok Hlen He Hp.
  destruct (valid_parallel_group d parallel_id edge Hv He Hp) as (owned & Hs & Ho & Hb & Hown%own_children_distinct).
  rewrite child_edges_filter in *. set (child_edges := List.filter _ _) in *.
  assert (length child_edges ≤ length (graph_edges d)) as Hle by apply List.filter_length_le.
  apply children_sorted in Ho; [|unfold len in *; lia].
  destruct (start_policy _ _ _ Hs) as (c & p & Hc & Hpol & Hgroup). fold child_edges in Hgroup. rewrite Ho in Hgroup.
  eexists. split; [exact Hgroup|]. simpl. split_and!; [done|done|lia|unfold len in *; rewrite length_fmap; lia|done|].
  intros child Hchild. unfold parallel_boundaries in Hb. rewrite !andb_true_iff in Hb. destruct Hb as [[_ Hb] _].
  rewrite forallb_forall in Hb. apply list_elem_of_In, Hb, closed_child_group in Hchild. by rewrite Hchild.
Qed.

(** ** Lock keys *)

(** The contract of compiled lock keys is wider than that of lock events: a literal key with an empty
    segment passes the first and every event that carries it fails the second. *)
Remark lock_key_contracts_differ :
  DurableContracts.valid_lock_key (ValueExpression.Literal (Value.String "a//b")) = true
  ∧ EventIdentities.valid_lock_key "a//b" = false.
Proof. by vm_compute. Qed.
