(* ===== verification/HistoryRules.v ===== *)
(** * The history check

    engine/history.rs and engine/history/validated.rs: a history is checked event
    by event against the compiled definition of its run.  One definition per rule;
    [validate_history_definition_rules] composes them in the loop of the source.
    The rules read prefixes of the history through a [PrefixReader].

    engine/history/prefix.rs and the queries of engine/readiness.rs that read it:
    a cursor that folds one history forward, keeps the ordinals of the latest
    attempts and, for ordinary script graphs, a readiness frontier.  An [Err] of
    the cursor leaves a state behind, so its operations return both. *)

From S2P Require Import Prelude GraphSearch Strings Json EventTypes ProjectionTypes Guards Fold.
From S2P Require Import ModelTypes EngineExternals ModelQueries Readiness Frontier.
From S2P Require Import DefinitionValidation.

(** ** What the history check reads *)

(** A query view of one prefix: [ReadinessPrefix] together with the graph it is asked through. *)
Record PrefixView := {
  view_projection : RunProjection;
  view_ready : DateTime → result string (list string);
  view_is_ready : DateTime → string → result string bool;
}.

(** A reader of the prefixes of a history. *)
Class PrefixReader (C : Type) := {
  prefix_at : C → nat → C * result string RunProjection;
  prefix_query : C → nat → C * result string PrefixView;
}.

(** [FoldError::to_string]. *)
Definition fold_error_message (e : FoldError) : string :=
  match e with
  | FoldError.InvalidEvent (EventValidationError.UnsupportedSchemaVersion _) => "unsupported run event schema version {0}"
  | FoldError.InvalidEvent (EventValidationError.Invalid message) => message
  | FoldError.InvalidHistory message => message
  end.

(** ** The cursor *)

Module HistoryPrefix.
Record HistoryPrefix := mk {
  events : list RunEvent;
  state : ProjectionFoldState;
  next : nat;
  latest : option Ordinals;
  poisoned : option string;
  frontier_definition : option (CompiledWorkflowDefinition * string);
  frontier : option Frontier
}.
#[global] Instance HistoryPrefix_eta : Eta HistoryPrefix := λ r,
  {| events := r.(events); state := r.(state); next := r.(next); latest := r.(latest); poisoned := r.(poisoned);
     frontier_definition := r.(frontier_definition); frontier := r.(frontier) |}.
#[global] Instance set_state : Setter state := ltac:(mk_setter).
#[global] Instance set_next : Setter next := ltac:(mk_setter).
#[global] Instance set_latest : Setter latest := ltac:(mk_setter).
#[global] Instance set_poisoned : Setter poisoned := ltac:(mk_setter).
#[global] Instance set_frontier_definition : Setter frontier_definition := ltac:(mk_setter).
#[global] Instance set_frontier : Setter frontier := ltac:(mk_setter).
End HistoryPrefix.
Abbreviation HistoryPrefix := HistoryPrefix.HistoryPrefix.

(** [HistoryPrefix::new] and [HistoryPrefix::with_definition]. *)
Definition cursor_new (events : list RunEvent) : HistoryPrefix :=
  HistoryPrefix.mk events default_state 0 None None None None.
Definition cursor_with_definition (events : list RunEvent) (definition : CompiledWorkflowDefinition) (hash : string) :
    HistoryPrefix :=
  cursor_new events <|HistoryPrefix.frontier_definition := Some (definition, hash)|>.

Definition invalidate_frontier (c : HistoryPrefix) : HistoryPrefix :=
  c <|HistoryPrefix.frontier_definition := None|> <|HistoryPrefix.frontier := None|>.

(** [for index in previous_attempts..attempts.len()]: the ordinals of the new attempts. *)
Definition record_attempts (attempts : list AttemptProjection) (previous : nat) (latest : Ordinals) : Ordinals :=
  foldl (λ m index, match attempts !! index with
                    | Some attempt => <[attempt.(AttemptProjection.identity).(AttemptIdentity.node_id) := index]> m
                    | None => m
                    end) latest (seq previous (length attempts - previous)).

(** The ordinals of all attempts. *)
Definition collect_latest (attempts : list AttemptProjection) : Ordinals :=
  foldl (λ m '(index, attempt), <[attempt.(AttemptProjection.identity).(AttemptIdentity.node_id) := index]> m) ∅ (enumerate attempts).

(** [ReadinessPrefix]. *)
Module ReadinessPrefix.
Record ReadinessPrefix := mk {
  projection : RunProjection;
  latest : option Ordinals;
  frontier : option Frontier
}.
End ReadinessPrefix.
Abbreviation ReadinessPrefix := ReadinessPrefix.ReadinessPrefix.

Section cursor.
Context `{Externals}.

(** What an accepted event does to the frontier. *)
Definition follow_frontier (c : HistoryPrefix) (event : RunEvent) : result string HistoryPrefix :=
  match c.(HistoryPrefix.frontier_definition) with
  | None => Ok c
  | Some _ =>
      match changed_node event with
      | None => Ok (invalidate_frontier c)
      | Some (Some node) =>
          match c.(HistoryPrefix.frontier), c.(HistoryPrefix.latest) with
          | Some frontier, Some latest =>
              let? updated := frontier_update frontier node c.(HistoryPrefix.state).(ProjectionFoldState.projection) latest in
              match updated with
              | Some frontier => Ok (c <|HistoryPrefix.frontier := Some frontier|>)
              | None => Ok (invalidate_frontier c)
              end
          | _, _ => Ok c
          end
      | Some None => Ok c
      end
  end.

(** An accepted event: the ordinals follow the attempts, the frontier follows both. *)
Definition accept_event (c : HistoryPrefix) (event : RunEvent) (state : ProjectionFoldState) : result string HistoryPrefix :=
  let previous_attempts := length c.(HistoryPrefix.state).(ProjectionFoldState.projection).(RunProjection.attempts) in
  let attempts := state.(ProjectionFoldState.projection).(RunProjection.attempts) in
  let c := c <|HistoryPrefix.state := state|> in
  let c := if length attempts <? previous_attempts then invalidate_frontier (c <|HistoryPrefix.latest := None|>) else c in
  let c := c <|HistoryPrefix.latest ::= fmap (record_attempts attempts previous_attempts)|> in
  let? c := follow_frontier c event in
  Ok (c <|HistoryPrefix.next ::= S|>).

(** A rejected event poisons the cursor. *)
Definition reject_event (c : HistoryPrefix) (error : string) : HistoryPrefix :=
  invalidate_frontier (c <|HistoryPrefix.latest := None|>)
    <|HistoryPrefix.state := default_state|> <|HistoryPrefix.poisoned := Some error|>.

(** [while self.next < end]: [n] events are left. *)
Fixpoint advance (n : nat) (c : HistoryPrefix) : HistoryPrefix * result string unit :=
  match n with
  | O => (c, Ok tt)
  | S n =>
      match c.(HistoryPrefix.events) !! c.(HistoryPrefix.next) with
      | None => (c, Panic "index out of bounds")
      | Some event =>
          match apply c.(HistoryPrefix.state) event with
          | Err error => (reject_event c (fold_error_message error), Err (fold_error_message error))
          | Panic message => (c, Panic message)
          | Ok state =>
              match accept_event c event state with
              | Ok c => advance n c
              | Err error => (c, Err error)
              | Panic message => (c, Panic message)
              end
          end
      end
  end.

(** [HistoryPrefix::at]. *)
Definition cursor_at (c : HistoryPrefix) (end_ : nat) : HistoryPrefix * result string RunProjection :=
  match c.(HistoryPrefix.poisoned) with
  | Some error => (c, Err error)
  | None =>
      if (end_ <? c.(HistoryPrefix.next)) || (length c.(HistoryPrefix.events) <? end_)
      then (c, Err "History prefix cursor must advance within its bound event slice.")
      else
        let '(c, advanced) := advance (end_ - c.(HistoryPrefix.next)) c in
        (c, let? _ := advanced in Ok c.(HistoryPrefix.state).(ProjectionFoldState.projection))
  end.

(** ** Query views *)

(** [self.latest] of a running run. *)
Definition ensure_latest (c : HistoryPrefix) : HistoryPrefix :=
  let p := c.(HistoryPrefix.state).(ProjectionFoldState.projection) in
  if is_none c.(HistoryPrefix.latest) && (p.(RunProjection.status) == RunStatus.Running)
  then c <|HistoryPrefix.latest := Some (collect_latest p.(RunProjection.attempts))|> else c.

(** [self.frontier] of a running run that is bound to its definition. *)
Definition ensure_frontier (c : HistoryPrefix) : result string HistoryPrefix :=
  let p := c.(HistoryPrefix.state).(ProjectionFoldState.projection) in
  if is_none c.(HistoryPrefix.frontier) && (p.(RunProjection.status) == RunStatus.Running) then
    match c.(HistoryPrefix.frontier_definition) with
    | None => Ok c
    | Some (definition, hash) =>
        match readiness_binding definition hash p with
        | Ok true =>
            let? latest := expect c.(HistoryPrefix.latest) "called `Option::unwrap()` on a `None` value" in
            let? frontier := frontier_new definition p latest in
            let c := c <|HistoryPrefix.frontier := frontier|> in
            Ok (if is_none frontier then invalidate_frontier c else c)
        | _ => Ok c
        end
    end
  else Ok c.

(** [HistoryPrefix::query_at]. *)
Definition cursor_query_at (c : HistoryPrefix) (end_ : nat) : HistoryPrefix * result string ReadinessPrefix :=
  let '(c, folded) := cursor_at c end_ in
  match folded with
  | Ok _ =>
      match ensure_frontier (ensure_latest c) with
      | Ok c => (c, Ok (ReadinessPrefix.mk c.(HistoryPrefix.state).(ProjectionFoldState.projection) c.(HistoryPrefix.latest)
                          c.(HistoryPrefix.frontier)))
      | Err error => (c, Err error)
      | Panic message => (c, Panic message)
      end
  | Err error => (c, Err error)
  | Panic message => (c, Panic message)
  end.

(** [ReadinessPrefix::latest_attempt]; the cursor keeps every ordinal within the attempts. *)
Definition prefix_latest_attempt (prefix : ReadinessPrefix) (node : string) : option AttemptProjection :=
  match prefix.(ReadinessPrefix.latest) with
  | Some latest => index ← latest !! node; prefix.(ReadinessPrefix.projection).(RunProjection.attempts) !! index
  | None => latest_attempt prefix.(ReadinessPrefix.projection) node
  end.

(** [ready_from_prefix_at] and [is_ready_from_prefix_at].  The frontier of the cursor is built for
    the definition that the graph borrows, so that [frontier_for] keeps it. *)
Definition ready_from_prefix_at (graph : ReadinessGraph) (definition_hash : string) (prefix : ReadinessPrefix)
    (now : DateTime) : result string (list string) :=
  let projection := prefix.(ReadinessPrefix.projection) in
  let workflow := graph.(ReadinessGraph.workflow) in
  let? bound := readiness_binding workflow definition_hash projection in
  if negb bound then Ok []
  else
    match prefix.(ReadinessPrefix.frontier) with
    | Some frontier => frontier_ready_at frontier now
    | None => ready_scan (graph_topology graph) workflow projection now (prefix_latest_attempt prefix)
    end.

Definition is_ready_from_prefix_at (graph : ReadinessGraph) (definition_hash : string) (prefix : ReadinessPrefix)
    (now : DateTime) (node_id : string) : result string bool :=
  let projection := prefix.(ReadinessPrefix.projection) in
  let workflow := graph.(ReadinessGraph.workflow) in
  if projection.(RunProjection.status) != RunStatus.Running then graph_is_ready_at graph definition_hash projection now node_id
  else
    let? bound := readiness_binding workflow definition_hash projection in
    if negb bound then Ok false
    else
      match prefix.(ReadinessPrefix.frontier) with
      | Some frontier => frontier_contains frontier node_id now
      | None => is_ready_scan (graph_topology graph) workflow projection now (prefix_latest_attempt prefix) node_id
      end.

Definition prefix_view (graph : ReadinessGraph) (definition_hash : string) (prefix : ReadinessPrefix) : PrefixView :=
  {| view_projection := prefix.(ReadinessPrefix.projection);
     view_ready := ready_from_prefix_at graph definition_hash prefix;
     view_is_ready := is_ready_from_prefix_at graph definition_hash prefix |}.

(** The cursor as a reader. *)
Definition cursor_reader (graph : ReadinessGraph) (definition_hash : string) : PrefixReader HistoryPrefix :=
  {| prefix_at := cursor_at;
     prefix_query := λ c end_,
       let '(c, queried) := cursor_query_at c end_ in
       (c, let? prefix := queried in Ok (prefix_view graph definition_hash prefix)) |}.

(** ** The oracle *)

(** Full replay of every prefix ([HistoryPrefix::replay]) and scans of the lists of the definition and
    of the attempts. *)
Definition replay_at (events : list RunEvent) (end_ : nat) : result string RunProjection :=
  map_err fold_error_message (fold_events (take end_ events)).

Definition replay_view (workflow : CompiledWorkflowDefinition) (definition_hash : string) (p : RunProjection) : PrefixView :=
  {| view_projection := p;
     view_ready := reference_ready_at workflow definition_hash p;
     view_is_ready := λ now node_id,
       let? bound := readiness_binding workflow definition_hash p in
       if negb bound then Ok false
       else is_ready_scan (scan_topology workflow) workflow p now (latest_attempt p) node_id |}.

Definition replay_reader (workflow : CompiledWorkflowDefinition) (definition_hash : string) :
    PrefixReader (list RunEvent) :=
  {| prefix_at := λ events end_, (events, replay_at events end_);
     prefix_query := λ events end_,
       (events, let? p := replay_at events end_ in Ok (replay_view workflow definition_hash p)) |}.
End cursor.

(** [ParallelChildState]. *)
Module ParallelChildState.
Inductive ParallelChildState :=
| Active
| RetryPending
| Succeeded
| Failed (kind : AttemptFailureKind).
#[global] Instance ParallelChildState_eq_dec : EqDecision ParallelChildState.
Proof. solve_decision. Defined.
End ParallelChildState.
Abbreviation ParallelChildState := ParallelChildState.ParallelChildState.
Abbreviation ChildStates := (gmap string ParallelChildState).

(** [events.get(index.wrapping_sub(1))]. *)
Definition previous_of {A} (events : list A) (index : nat) : option A :=
  match index with O => None | S index => events !! index end.

(** The order of [Option<u64>]: [None] is least. *)
Definition option_key (n : option N) : N := match n with None => 0 | Some n => (n + 1)%N end.

(** ** Rules that read a projection *)

Section rules.
Context `{Externals} `{EngineExternals} (workflow : CompiledWorkflowDefinition) (definition_hash : string).

(** Every edge into the end of a branch comes from a completed node. *)
Definition terminal_ready (branch : CompiledForkBranch) (p : RunProjection) : result string bool :=
  all_m (λ (edge : CompiledWorkflowEdge),
    match node workflow edge.(CompiledWorkflowEdge.from) with
    | Some node => node_is_complete workflow node p
    | None => Ok false
    end)
    (List.filter (λ (edge : CompiledWorkflowEdge), edge.(CompiledWorkflowEdge.to) == branch.(CompiledForkBranch.terminal_node_id))
       workflow.(CompiledWorkflowDefinition.graph).(CompiledWorkflowGraph.edges)).

Definition rule_fork_join_settled (data : ForkJoinSettledData) (fork : CompiledFork) (p : RunProjection) : result string unit :=
  let? projected := ok_or (p.(RunProjection.forks) !! data.(ForkJoinSettledData.fork_id)) "Fork {:?} join settled before opening." in
  fail_if ((data.(ForkJoinSettledData.outcome) == ForkJoinOutcome.Succeeded)
           && negb (forallb (λ branch_id,
                (branch ← projected.(ForkProjection.branches) !! branch_id; branch.(ForkBranchProjection.outcome)) == Some ForkBranchOutcome.Succeeded)
                fork.(CompiledFork.joined_branch_ids)))
    "Fork {:?} join succeeded before every joined branch succeeded.".

(** An action that waits to run, and an action that has not settled. *)
Definition awaits_attempt (status : CorrectionActionStatus) : bool :=
  match status with CorrectionActionStatus.Registered | CorrectionActionStatus.RetryScheduled => true | _ => false end.
Definition is_unsettled (status : CorrectionActionStatus) : bool :=
  match status with CorrectionActionStatus.Registered | CorrectionActionStatus.Started | CorrectionActionStatus.RetryScheduled => true | _ => false end.
Definition is_settled_or_manual (status : CorrectionActionStatus) : bool :=
  match status with CorrectionActionStatus.Succeeded | CorrectionActionStatus.Failed | CorrectionActionStatus.ManualRecovery => true | _ => false end.
Definition is_settled (status : CorrectionActionStatus) : bool :=
  match status with CorrectionActionStatus.Succeeded | CorrectionActionStatus.Failed => true | _ => false end.

(** The compensation that runs next: the latest completed step first. *)
Definition next_compensation (state : SagaProjection) : option string :=
  CorrectionActionProjection.action_id <$>
    max_by_key (λ (action : CorrectionActionProjection), option_key action.(CorrectionActionProjection.completion_sequence))
      (List.filter (λ (action : CorrectionActionProjection),
         (action.(CorrectionActionProjection.action_kind) == CorrectiveActionKind.Compensation) && awaits_attempt action.(CorrectionActionProjection.status))
         (btree_values state.(SagaProjection.actions))).

Definition rule_compensation_started (data : CorrectionAttemptIdentityData) (state : SagaProjection) : result string unit :=
  check fail_if (state.(SagaProjection.reason) == Some SagaCorrectionReason.Success)
    "Compensation cannot run after successful forward work.";
  fail_if (next_compensation state != Some data.(CorrectionAttemptIdentityData.action_id))
    "Compensation {:?} is not next in reverse durable completion order.".

(** [state.actions.get(id).is_some_and(..)]. *)
Definition action_status_is (f : CorrectionActionStatus → bool) (state : SagaProjection) (action : CompiledCorrectiveAction) : bool :=
  is_some_and (state.(SagaProjection.actions) !! action.(CompiledCorrectiveAction.action_id))
    (λ (projected : CorrectionActionProjection), f projected.(CorrectionActionProjection.status)).

Definition rule_cleanup_started (data : CorrectionAttemptIdentityData) (saga : CompiledSaga) (state : SagaProjection) :
    result string unit :=
  check fail_if ((state.(SagaProjection.reason) != Some SagaCorrectionReason.Success)
                 && existsb (λ (action : CorrectionActionProjection),
                      (action.(CorrectionActionProjection.action_kind) == CorrectiveActionKind.Compensation) && is_unsettled action.(CorrectionActionProjection.status))
                      (btree_values state.(SagaProjection.actions)))
    "Cleanup cannot start before compensation settles.";
  let? position := ok_or (position (λ (action : CompiledCorrectiveAction), action.(CompiledCorrectiveAction.action_id) == data.(CorrectionAttemptIdentityData.action_id)) saga.(CompiledSaga.cleanup))
    "Cleanup action is absent from Model v19." in
  fail_if (existsb (λ action, negb (action_status_is is_settled_or_manual state action)) (take position saga.(CompiledSaga.cleanup)))
    "Cleanup {:?} is not next in compiled source order.".

Definition rule_correction_started (data : CorrectionAttemptIdentityData) (saga : CompiledSaga) (p : RunProjection) :
    result string unit :=
  let? state := ok_or (p.(RunProjection.sagas) !! data.(CorrectionAttemptIdentityData.saga_id)) "Saga {:?} has no projected correction state." in
  match data.(CorrectionAttemptIdentityData.action_kind) with
  | CorrectiveActionKind.Compensation => rule_compensation_started data state
  | CorrectiveActionKind.Cleanup => rule_cleanup_started data saga state
  end.

Definition rule_correction_completed (data : SagaIdentityData) (saga : CompiledSaga) (p : RunProjection) : result string unit :=
  let? state := ok_or (p.(RunProjection.sagas) !! data.(SagaIdentityData.saga_id)) "Saga {:?} has no projected correction state." in
  fail_if (existsb (λ action, negb (action_status_is is_settled state action)) saga.(CompiledSaga.cleanup))
    "Saga {:?} completed before every cleanup action settled.".

(** [for fork in ..]: an opened fork has settled completely. *)
Definition fork_settled (p : RunProjection) (fork : CompiledFork) : bool :=
  match p.(RunProjection.forks) !! fork.(CompiledFork.fork_id) with
  | None => true
  | Some projected =>
      negb ((projected.(ForkProjection.join_status) == ForkJoinStatus.Pending)
            || existsb (λ (branch : CompiledForkBranch), negb (contains_key projected.(ForkProjection.branches) branch.(CompiledForkBranch.branch_id)))
                 fork.(CompiledFork.branches))
  end.

Definition rule_outcome_decided (p : RunProjection) : result string unit :=
  fail_if (negb (forallb (fork_settled p) (unwrap_or_default workflow.(CompiledWorkflowDefinition.graph).(CompiledWorkflowGraph.forks))))
    "Run outcome was decided before fork {:?} fully settled.".

Definition rule_run_succeeded (p : RunProjection) : result string unit :=
  fail_if (existsb (λ (group : ParallelGroupProjection),
             match group.(ParallelGroupProjection.status) with
             | ParallelGroupStatus.Completed ParallelGroupOutcome.Succeeded _ _ => false
             | _ => true
             end) (map_to_list p.(RunProjection.parallel_groups)).*2)
    "A run cannot succeed while a started parallel group is incomplete or failed.".

(** ** Lifecycle *)

(** The event that makes a hook eligible. *)
Definition hook_eligible (data : LifecycleHookRequestedData) (previous : RunEventPayload) : bool :=
  match data.(LifecycleHookRequestedData.event), previous with
  | LifecycleEventName.RunStart, (RunEventPayload.RunStarted _ | RunEventPayload.RunExecutionStarted _) => true
  | LifecycleEventName.RunCancel, (RunEventPayload.RunCancellationRequested _ | RunEventPayload.RunOutcomeDecided (RunOutcomeDecidedData.Cancelled _)) => true
  | LifecycleEventName.RunSuccess, RunEventPayload.RunOutcomeDecided (RunOutcomeDecidedData.Succeeded _) => true
  | LifecycleEventName.RunFailure, RunEventPayload.RunOutcomeDecided (RunOutcomeDecidedData.Failed _) => true
  | LifecycleEventName.RunComplete, (RunEventPayload.LifecycleHookCompleted _ | RunEventPayload.RunOutcomeDecided _) => true
  | LifecycleEventName.StepStart, RunEventPayload.StepAttemptStarted step => step.(StepAttemptStartedData.node_id) == data.(LifecycleHookRequestedData.subject).(LifecycleSubject.id)
  | LifecycleEventName.StepSuccess, RunEventPayload.StepAttemptSucceeded step => step.(StepAttemptSucceededData.node_id) == data.(LifecycleHookRequestedData.subject).(LifecycleSubject.id)
  | LifecycleEventName.StepFailure, RunEventPayload.StepAttemptFailed step => step.(StepAttemptFailedData.node_id) == data.(LifecycleHookRequestedData.subject).(LifecycleSubject.id)
  | LifecycleEventName.StepComplete, (RunEventPayload.LifecycleHookCompleted _ | RunEventPayload.StepAttemptSucceeded _ | RunEventPayload.StepAttemptFailed _) => true
  | _, _ => false
  end.

Definition rule_hook_requested (event : RunEvent) (previous : option RunEvent) (data : LifecycleHookRequestedData) :
    result string unit :=
  let expected := derive_lifecycle_hook_invocation_id event.(RunEvent.run_id) data.(LifecycleHookRequestedData.hook_id) data.(LifecycleHookRequestedData.subject).(LifecycleSubject.kind) data.(LifecycleHookRequestedData.subject).(LifecycleSubject.id) in
  check fail_if ((data.(LifecycleHookRequestedData.hook_invocation_id) != expected)
                 || ((data.(LifecycleHookRequestedData.subject).(LifecycleSubject.kind) == LifecycleSubjectKind.Workflow) && (data.(LifecycleHookRequestedData.subject).(LifecycleSubject.id) != event.(RunEvent.run_id))))
    "Lifecycle hook request has a non-canonical invocation identity.";
  fail_if (negb (is_some_and previous (λ (previous : RunEvent), hook_eligible data previous.(RunEvent.payload))))
    "Lifecycle hook request is not adjacent to its eligibility event.".

Definition rule_action_started (data : LifecycleActionIdentityData) (p : RunProjection) : result string unit :=
  let? hook_projection := ok_or (p.(RunProjection.lifecycle_hooks) !! data.(LifecycleActionIdentityData.hook_invocation_id))
    "Lifecycle action has no requested hook." in
  let? hook := ok_or (lifecycle_hook workflow hook_projection.(LifecycleHookProjection.hook_id))
    "Lifecycle action hook is absent from Model v11." in
  let? expected := ok_or (hook.(CompiledLifecycleHook.actions) !! size hook_projection.(LifecycleHookProjection.actions))
    "Lifecycle hook has no remaining action at this source-order position." in
  fail_if (expected.(CompiledLifecycleAction.action_id) != data.(LifecycleActionIdentityData.action_id)) "Lifecycle actions must start in compiled source order.".

Definition rule_hook_completed (data : LifecycleHookCompletedData) (p : RunProjection) : result string unit :=
  let? hook_projection := ok_or (p.(RunProjection.lifecycle_hooks) !! data.(LifecycleHookCompletedData.hook_invocation_id))
    "Lifecycle completion has no requested hook." in
  let? hook := ok_or (lifecycle_hook workflow hook_projection.(LifecycleHookProjection.hook_id))
    "Lifecycle completion hook is absent from Model v11." in
  fail_if (size hook_projection.(LifecycleHookProjection.actions) != length hook.(CompiledLifecycleHook.actions))
    "Lifecycle hook cannot complete before every compiled action has an outcome.".

(** ** Parallel children *)

Definition child_is (states : ChildStates) (state : ParallelChildState) (node_id : string) : bool :=
  states !! node_id == Some state.

(** [if workflow.parallel_group_for_child(id).is_some() { child_states.insert(id, state); }]. *)
Definition record_child (states : ChildStates) (node_id : string) (state : ParallelChildState) : ChildStates :=
  if is_some (parallel_group_for_child workflow node_id) then <[node_id := state]> states else states.

(** The same for the node of a wait. *)
Definition record_wait (states : ChildStates) (wait_id : string) (state : ParallelChildState) : ChildStates :=
  match durable_wait workflow wait_id with
  | Some wait => record_child states (wait_node_id wait) state
  | None => states
  end.

(** The checks of [StepAttemptStarted] after the node is known to be ready. *)
Definition rule_attempt_key (event : RunEvent) (data : StepAttemptStartedData) : result string unit :=
  if (COMPILED_MODEL_SCHEMA_VERSION_V6 <=? workflow.(CompiledWorkflowDefinition.schema_version))%N then
    let? expected_key := step_effect_idempotency_key event.(RunEvent.run_id) definition_hash data.(StepAttemptStartedData.node_id) in
    fail_if (data.(StepAttemptStartedData.idempotency_key) != Some expected_key)
      "Node {:?} attempt does not carry its derived stable idempotency key."
  else Ok tt.

Definition rule_child_started (data : StepAttemptStartedData) (p : RunProjection) (states : ChildStates) : result string ChildStates :=
  match parallel_group_for_child workflow data.(StepAttemptStartedData.node_id) with
  | None => Ok states
  | Some group =>
      check fail_if (negb match p.(RunProjection.parallel_groups) !! group.(ParallelGroupDefinition.parallel_id) with
                          | Some state => match state.(ParallelGroupProjection.status) with ParallelGroupStatus.Started => true | _ => false end
                          | None => false
                          end)
        "Parallel child {:?} started outside its active group {:?}.";
      let active := N.of_nat (length (List.filter (child_is states ParallelChildState.Active)
                                        group.(ParallelGroupDefinition.child_node_ids))) in
      check fail_if (group.(ParallelGroupDefinition.concurrency) <=? active)%N
        "Parallel group {:?} exceeds its concurrency cap of {}.";
      Ok (<[data.(StepAttemptStartedData.node_id) := ParallelChildState.Active]> states)
  end.

Definition retry_policy_of (node_id : string) : option RetryPolicy :=
  node ← node workflow node_id; node.(CompiledWorkflowNode.retry_policy).

Definition rule_attempt_failed (data : StepAttemptFailedData) (following : option RunEvent) (states : ChildStates) :
    result string ChildStates :=
  let states := record_child states data.(StepAttemptFailedData.node_id) (ParallelChildState.Failed data.(StepAttemptFailedData.failure).(AttemptFailure.kind)) in
  match retry_policy_of data.(StepAttemptFailedData.node_id) with
  | None => Ok states
  | Some policy =>
      let should_retry := (data.(StepAttemptFailedData.failure).(AttemptFailure.kind) == AttemptFailureKind.ScriptThrew)
                          && (data.(StepAttemptFailedData.attempt) <? policy.(RetryPolicy.max_attempts))%N in
      let scheduled :=
        match RunEvent.payload <$> following with
        | Some (RunEventPayload.StepRetryScheduled schedule) =>
            (schedule.(StepRetryScheduledData.node_id) == data.(StepAttemptFailedData.node_id)) && (schedule.(StepRetryScheduledData.failed_attempt) == data.(StepAttemptFailedData.attempt))
            && (schedule.(StepRetryScheduledData.next_attempt) == u32_add data.(StepAttemptFailedData.attempt) 1)
        | _ => false
        end in
      check fail_if (should_retry && negb scheduled)
        "Retryable failure for node {:?} must be atomically followed by step_retry_scheduled.";
      Ok states
  end.

Definition rule_retry_scheduled (data : StepRetryScheduledData) (previous : option RunEvent) (states : ChildStates) :
    result string ChildStates :=
  let? previous := ok_or previous "step_retry_scheduled cannot be the first run event." in
  let? failed :=
    match previous.(RunEvent.payload) with
    | RunEventPayload.StepAttemptFailed failed => Ok failed
    | _ => Err "step_retry_scheduled must immediately follow step_attempt_failed."
    end in
  let? policy := ok_or (retry_policy_of data.(StepRetryScheduledData.node_id)) "Node {:?} has no retry policy." in
  let? delay_ms := ok_or (delay_before_attempt policy data.(StepRetryScheduledData.next_attempt)) "Compiled retry delay is invalid." in
  let? delay := ok_or (i64_try_from delay_ms) "Retry delay exceeds the clock range." in
  let? mismatch :=
    if (failed.(StepAttemptFailedData.node_id) != data.(StepRetryScheduledData.node_id)) || (failed.(StepAttemptFailedData.attempt) != data.(StepRetryScheduledData.failed_attempt))
       || (failed.(StepAttemptFailedData.failure).(AttemptFailure.kind) != AttemptFailureKind.ScriptThrew)
    then Ok true
    else let? due := datetime_add previous.(RunEvent.occurred_at) delay in Ok (data.(StepRetryScheduledData.scheduled_at) != due) in
  check fail_if mismatch "Retry schedule for node {:?} does not match its failed attempt and compiled backoff.";
  Ok (record_child states data.(StepRetryScheduledData.node_id) ParallelChildState.RetryPending).

Definition rule_group_completed (data : ParallelGroupCompletedData) (group : ParallelGroupDefinition) (states : ChildStates) :
    result string unit :=
  let failed := List.filter (λ node_id,
    match states !! node_id with
    | Some (ParallelChildState.Failed kind) => kind != AttemptFailureKind.InvocationCancelled
    | _ => false
    end) group.(ParallelGroupDefinition.child_node_ids) in
  let cancelled := List.filter (child_is states (ParallelChildState.Failed AttemptFailureKind.InvocationCancelled))
                     group.(ParallelGroupDefinition.child_node_ids) in
  let active := existsb (child_is states ParallelChildState.Active) group.(ParallelGroupDefinition.child_node_ids) in
  let every_succeeded := forallb (child_is states ParallelChildState.Succeeded) group.(ParallelGroupDefinition.child_node_ids) in
  let every_terminal := forallb (λ node_id,
    match states !! node_id with
    | Some (ParallelChildState.Succeeded | ParallelChildState.Failed _) => true
    | _ => false
    end) group.(ParallelGroupDefinition.child_node_ids) in
  let valid_outcome :=
    match data.(ParallelGroupCompletedData.outcome) with
    | ParallelGroupOutcome.Succeeded => every_succeeded
    | ParallelGroupOutcome.Failed => if group.(ParallelGroupDefinition.on_error) == "wait-all" then every_terminal else negb active
    end in
  fail_if (negb valid_outcome || (data.(ParallelGroupCompletedData.failed_node_ids) != failed) || (data.(ParallelGroupCompletedData.cancelled_node_ids) != cancelled))
    "Parallel completion for {:?} does not match its durable child outcomes.".

Definition rule_approval_deadline (event : RunEvent) (approval : ApprovalDefinition) (data : ApprovalRequestedData) :
    result string unit :=
  let? expected_expires_at :=
    match approval.(ApprovalDefinition.timeout_ms) with
    | None => Ok None
    | Some milliseconds =>
        let? duration := ok_or (i64_try_from milliseconds) "Approval {:?} timeout exceeds the clock range." in
        let? expires_at := datetime_add event.(RunEvent.occurred_at) duration in
        Ok (Some expires_at)
    end in
  fail_if (data.(ApprovalRequestedData.expires_at) != expected_expires_at)
    "Approval {:?} request deadline does not match its compiled timeout.".
End rules.

(** ** Rules that read the history *)

Section loop.
Context `{Externals} `{EngineExternals} (workflow : CompiledWorkflowDefinition) (definition_hash : string).
Context {C : Type} `{PrefixReader C}.

(** [let prefix = prefixes.at(index)?; ..]. *)
Definition with_prefix (c : C) (index : nat) (rule : RunProjection → result string unit) : result string C :=
  let '(c, folded) := prefix_at c index in
  let? p := folded in
  check rule p;
  Ok c.

(** [let prefix = prefixes.query_at(index)?; let ready = ..?; if !ready.contains(id) { return Err(..); }]. *)
Definition require_ready (c : C) (index : nat) (now : DateTime) (node_id message : string) : result string C :=
  let '(c, queried) := prefix_query c index in
  let? view := queried in
  let? ready := view_ready view now in
  check fail_if (negb (str_elem ready node_id)) message;
  Ok c.

Definition rule_attempt_started (c : C) (index : nat) (event : RunEvent) (data : StepAttemptStartedData)
    (states : ChildStates) : result string (C * ChildStates) :=
  let '(c, queried) := prefix_query c index in
  let? view := queried in
  let? ready := view_is_ready view event.(RunEvent.occurred_at) data.(StepAttemptStartedData.node_id) in
  check fail_if (negb ready) "Node {:?} started before it was ready.";
  check rule_attempt_key workflow definition_hash event data;
  let? states := rule_child_started workflow data (view_projection view) states in
  Ok (c, states).

Definition rule_fork_branch_settled (c : C) (index : nat) (data : ForkBranchSettledData) : result string C :=
  let? fork := ok_or (find_fork workflow data.(ForkBranchSettledData.fork_id)) "Unknown fork {:?}." in
  let? branch := ok_or (find_branch fork data.(ForkBranchSettledData.branch_id)) "Unknown fork branch {:?}." in
  if data.(ForkBranchSettledData.outcome) == ForkBranchOutcome.Succeeded then
    with_prefix c index (λ p,
      let? ready := terminal_ready workflow branch p in
      fail_if (negb ready) "Fork branch {:?}.{:?} succeeded before its terminal route completed.")
  else Ok c.

(** The rules of one event; [now] is what [Utc::now()] returns if it is called. *)
Definition check_rules (events : list RunEvent) (now : DateTime) (index : nat) (event : RunEvent)
    (c : C) (states : ChildStates) : result string (C * ChildStates) :=
  let keep (r : result string C) : result string (C * ChildStates) := let? c := r in Ok (c, states) in
  let track (r : result string ChildStates) : result string (C * ChildStates) := let? states := r in Ok (c, states) in
  match event.(RunEvent.payload) with
  | RunEventPayload.ChoiceSelected data =>
      let? choice :=
        ok_or (find_choice (unwrap_or_default workflow.(CompiledWorkflowDefinition.graph).(CompiledWorkflowGraph.choices)) data.(ChoiceSelectedData.choice_id))
          "Unknown control choice {:?}." in
      keep (require_ready c index now choice.(CompiledControlChoice.selector_node_id) "Control choice {:?} was selected before its selector was ready.")
  | RunEventPayload.ForkOpened data =>
      let? fork := ok_or (find_fork workflow data.(ForkOpenedData.fork_id)) "Unknown fork {:?}." in
      keep (require_ready c index now fork.(CompiledFork.open_node_id) "Fork {:?} opened before it was ready.")
  | RunEventPayload.ForkBranchSettled data => keep (rule_fork_branch_settled c index data)
  | RunEventPayload.ForkJoinSettled data =>
      let? fork := ok_or (find_fork workflow data.(ForkJoinSettledData.fork_id)) "Unknown fork {:?}." in
      keep (with_prefix c index (rule_fork_join_settled data fork))
  | RunEventPayload.SagaStarted data =>
      let? saga := ok_or (saga workflow data.(SagaIdentityData.saga_id)) "Unknown saga {:?}." in
      keep (require_ready c index now saga.(CompiledSaga.open_node_id) "Saga {:?} started before its open node was ready.")
  | RunEventPayload.CorrectionAttemptStarted data =>
      let? saga := ok_or (saga workflow data.(CorrectionAttemptIdentityData.saga_id)) "Unknown saga {:?}." in
      keep (with_prefix c index (rule_correction_started data saga))
  | RunEventPayload.SagaCorrectionCompleted data =>
      let? saga := ok_or (saga workflow data.(SagaIdentityData.saga_id)) "Unknown saga {:?}." in
      keep (with_prefix c index (rule_correction_completed data saga))
  | RunEventPayload.RunOutcomeDecided _ => keep (with_prefix c index (rule_outcome_decided workflow))
  | RunEventPayload.ParallelGroupStarted data =>
      let? group := ok_or (parallel_group workflow data.(ParallelGroupStartedData.parallel_id)) "Unknown parallel group {:?}." in
      keep (require_ready c index now group.(ParallelGroupDefinition.start_node_id) "Parallel group {:?} was started before its fork was ready.")
  | RunEventPayload.StepAttemptStarted data => rule_attempt_started c index event data states
  | RunEventPayload.StepAttemptSucceeded data =>
      Ok (c, record_child workflow states data.(StepAttemptSucceededData.node_id) ParallelChildState.Succeeded)
  | RunEventPayload.StepAttemptFailed data => track (rule_attempt_failed workflow data (events !! S index) states)
  | RunEventPayload.StepRetryScheduled data => track (rule_retry_scheduled workflow data (previous_of events index) states)
  | RunEventPayload.ParallelGroupCompleted data =>
      let? group := ok_or (parallel_group workflow data.(ParallelGroupCompletedData.parallel_id)) "Unknown parallel group {:?}." in
      check rule_group_completed data group states;
      Ok (c, states)
  | RunEventPayload.ApprovalRequested data =>
      let? approval := ok_or (approval workflow data.(ApprovalRequestedData.approval_id)) "Unknown approval {:?}." in
      let? c := require_ready c index now data.(ApprovalRequestedData.approval_id) "Approval {:?} was requested before its wait node was ready." in
      check rule_approval_deadline event approval data;
      Ok (c, states)
  | RunEventPayload.ApprovalReviewRequested data =>
      keep (require_ready c index now data.(ApprovalReviewRequestedData.approval_id) "Rich approval {:?} was requested before its wait node was ready.")
  | RunEventPayload.WaitRegistered data =>
      let? c := require_ready c index event.(RunEvent.occurred_at) data.(WaitRegisteredData.node_id) "Durable wait {:?} was registered before its node was ready." in
      Ok (c, record_child workflow states data.(WaitRegisteredData.node_id) ParallelChildState.Active)
  | RunEventPayload.WaitSatisfied data =>
      Ok (c, record_wait workflow states data.(WaitSatisfiedData.wait_id) ParallelChildState.Succeeded)
  | RunEventPayload.WaitTimedOut data =>
      Ok (c, record_wait workflow states data.(WaitTimedOutData.wait_id)
               (if data.(WaitTimedOutData.behavior) == DurableWaitTimeoutBehavior.Continue then ParallelChildState.Succeeded
                else ParallelChildState.Failed AttemptFailureKind.ServiceFailed))
  | RunEventPayload.WaitCancelled data =>
      Ok (c, record_wait workflow states data.(WaitCancelledData.wait_id) (ParallelChildState.Failed AttemptFailureKind.InvocationCancelled))
  | RunEventPayload.RunSucceeded _ => keep (with_prefix c (S index) rule_run_succeeded)
  | RunEventPayload.LifecycleHookRequested data =>
      check rule_hook_requested event (previous_of events index) data;
      Ok (c, states)
  | RunEventPayload.LifecycleActionAttemptStarted data => keep (with_prefix c index (rule_action_started workflow data))
  | RunEventPayload.LifecycleHookCompleted data => keep (with_prefix c index (rule_hook_completed workflow data))
  | _ => Ok (c, states)
  end.

(** The events of an iteration whose rules are checked. *)
Definition iteration_boundary (payload : RunEventPayload) : bool :=
  match payload with
  | RunEventPayload.ForEachIterationStarted _ | RunEventPayload.ForEachIterationSucceeded _ | RunEventPayload.ForEachIterationFailed _
  | RunEventPayload.ForEachIterationSkipped _ => true
  | _ => false
  end.

(** One turn of the loop. *)
Definition check_event (events : list RunEvent) (now : DateTime) (index : nat) (event : RunEvent)
    (c : C) (states : ChildStates) : result string (C * ChildStates) :=
  match event.(RunEvent.iteration) with
  | Some scope =>
      check validate_scoped_payload_against_definition workflow definition_hash event.(RunEvent.run_id) scope event.(RunEvent.payload);
      if negb (iteration_boundary event.(RunEvent.payload)) then Ok (c, states)
      else check_rules events now index event c states
  | None =>
      check validate_payload_against_definition workflow definition_hash event.(RunEvent.payload);
      check_rules events now index event c states
  end.

(** [for (index, event) in events.iter().enumerate()], from [index]. *)
Fixpoint check_events (events : list RunEvent) (clock : nat → DateTime) (index : nat) (rest : list RunEvent)
    (c : C) (states : ChildStates) : result string unit :=
  match rest with
  | [] => Ok tt
  | event :: rest =>
      let? checked := check_event events (clock index) index event c states in
      check_events events clock (S index) rest checked.1 checked.2
  end.

(** [validate_history_definition_rules]; [clock index] is the time while event [index] is checked. *)
Definition validate_history_definition_rules (events : list RunEvent) (clock : nat → DateTime) (c : C) : result string unit :=
  check_events events clock 0 events c ∅.
End loop.

(** ** The check *)

Section whole_check.
Context `{Externals} `{EngineExternals}.

(** [validated::check]. *)
Definition check_history (definition : CompiledWorkflowDefinition) (hash : string) (events : list RunEvent)
    (clock : nat → DateTime) : result string ProjectionFoldState :=
  let? state := map_err fold_error_message (from_events events) in
  check validate_history_definition_rules (H1 := cursor_reader (graph_new definition) hash) definition hash events clock
    (cursor_with_definition events definition hash);
  Ok state.

(** The same check by replay and scans. *)
Definition check_history_by_replay (definition : CompiledWorkflowDefinition) (hash : string) (events : list RunEvent)
    (clock : nat → DateTime) : result string ProjectionFoldState :=
  let? state := map_err fold_error_message (from_events events) in
  check validate_history_definition_rules (H1 := replay_reader definition hash) definition hash events clock events;
  Ok state.
End whole_check.
