(* ===== verification/CursorProperties.v ===== *)
(** * The history cursor is a faithful reader

    Two readers of prefixes that answer alike lead the history check to the same
    verdict: [ReaderSim] states what one reader promises with respect to another,
    and the rules are proved against it.  The cursor, which folds forward and keeps
    ordinals and a frontier, answers as a full replay with scans does. *)

From S2P Require Import Prelude GraphSearch Strings Json EventTypes ProjectionTypes Guards.
From S2P Require Import FoldRun FoldControlFlow FoldCorrection FoldApprovals FoldOperations.
From S2P Require Import FoldLifecycle IterationFold EventIdentities EventValidation Fold.
From S2P Require Import FoldFrames ValidationProperties HistoryProperties AttemptProperties.
From S2P Require Import ModelTypes EngineExternals ModelQueries Readiness ReadinessProperties.
From S2P Require Import Frontier FrontierProperties FrontierQueries DefinitionValidation.
From S2P Require Import HistoryRules.

(** ** Related results *)

(** Both return related values, or the same error, or panic alike. *)
Definition related {E A B} (R : A → B → Prop) (r1 : result E A) (r2 : result E B) : Prop :=
  match r1, r2 with
  | Ok a, Ok b => R a b
  | Err e, Err e' => e = e'
  | Panic m, Panic m' => m = m'
  | _, _ => False
  end.

Lemma related_bind {E A B A' B'} (R : A → B → Prop) (S : A' → B' → Prop) (r1 : result E A) (r2 : result E B) k1 k2 :
  related R r1 r2 → (∀ a b, r1 = Ok a → r2 = Ok b → R a b → related S (k1 a) (k2 b)) →
  related S (result_bind k1 r1) (result_bind k2 r2).
Proof. intros Hr Hk. destruct r1, r2; simpl in *; auto; done. Qed.

Lemma related_refl {E A} (r : result E A) : related eq r r.
Proof. by destruct r. Qed.

Lemma related_eq {E A} (r1 r2 : result E A) : related eq r1 r2 ↔ r1 = r2.
Proof. split; [|intros ->; apply related_refl]. destruct r1, r2; simpl; by intros; subst. Qed.

(** Views that answer every question alike. *)
Record view_eq (v1 v2 : PrefixView) : Prop := {
  eq_projection : view_projection v1 = view_projection v2;
  eq_ready : ∀ now, view_ready v1 now = view_ready v2 now;
  eq_is_ready : ∀ now id, view_is_ready v1 now id = view_is_ready v2 now id;
}.

(** [R n] relates readers that have not gone beyond [n]; they agree at the prefixes that [ok] admits. *)
Class ReaderSim {C1 C2} (r1 : PrefixReader C1) (r2 : PrefixReader C2) (ok : nat → Prop)
    (R : nat → C1 → C2 → Prop) : Prop := {
  sim_later : ∀ n m c1 c2, R n c1 c2 → n ≤ m → R m c1 c2;
  sim_at : ∀ n c1 c2, R n c1 c2 → ok n →
    related eq (prefix_at (PrefixReader := r1) c1 n).2 (prefix_at (PrefixReader := r2) c2 n).2
    ∧ ∀ p, (prefix_at (PrefixReader := r2) c2 n).2 = Ok p →
        R n (prefix_at (PrefixReader := r1) c1 n).1 (prefix_at (PrefixReader := r2) c2 n).1;
  sim_query : ∀ n c1 c2, R n c1 c2 → ok n →
    related view_eq (prefix_query (PrefixReader := r1) c1 n).2 (prefix_query (PrefixReader := r2) c2 n).2
    ∧ ∀ v, (prefix_query (PrefixReader := r2) c2 n).2 = Ok v →
        R n (prefix_query (PrefixReader := r1) c1 n).1 (prefix_query (PrefixReader := r2) c2 n).1;
}.

(** The events of the history before [n] that no iteration owns pass the definition. *)
Definition validated `{Externals} `{EngineExternals} (workflow : CompiledWorkflowDefinition) (hash : string)
    (events : list RunEvent) (n : nat) : Prop :=
  n ≤ length events
  ∧ ∀ i event, i < n → events !! i = Some event → event.(RunEvent.iteration) = None →
      validate_payload_against_definition workflow hash event.(RunEvent.payload) = Ok tt.

Section simulation.
Context `{Externals} `{EngineExternals} (workflow : CompiledWorkflowDefinition) (hash : string) (events : list RunEvent).
Context {C1 C2 : Type} (r1 : PrefixReader C1) (r2 : PrefixReader C2) (R : nat → C1 → C2 → Prop).
Context `{!ReaderSim r1 r2 (validated workflow hash events) R}.

Lemma with_prefix_sim n c1 c2 rule :
  R n c1 c2 → validated workflow hash events n →
  related (R n) (with_prefix (H1 := r1) c1 n rule) (with_prefix (H1 := r2) c2 n rule).
Proof.
  intros HR Hok. destruct (sim_at n c1 c2 HR Hok) as [Heq Hnext]. unfold with_prefix.
  destruct (prefix_at (PrefixReader := r1) c1 n) as [c1' f1], (prefix_at (PrefixReader := r2) c2 n) as [c2' f2].
  simpl in *. apply related_eq in Heq as ->. destruct f2 as [p| |]; simpl; [|done..].
  destruct (rule p); simpl; [by eapply Hnext|done..].
Qed.

Lemma require_ready_sim n c1 c2 now node_id message :
  R n c1 c2 → validated workflow hash events n →
  related (R n) (require_ready (H1 := r1) c1 n now node_id message) (require_ready (H1 := r2) c2 n now node_id message).
Proof.
  intros HR Hok. destruct (sim_query n c1 c2 HR Hok) as [Heq Hnext]. unfold require_ready.
  destruct (prefix_query (PrefixReader := r1) c1 n) as [c1' f1], (prefix_query (PrefixReader := r2) c2 n) as [c2' f2].
  simpl in *. eapply related_bind; [exact Heq|]. intros v1 v2 _ Hv2 [_ Hr _]. rewrite Hr.
  destruct (view_ready v2 now) as [ids| |]; simpl; [|done..].
  destruct (str_elem ids node_id); simpl; [by eapply Hnext|done].
Qed.

Lemma attempt_started_sim n c1 c2 event data states :
  R n c1 c2 → validated workflow hash events n →
  related (λ a b, R n a.1 b.1 ∧ a.2 = b.2)
    (rule_attempt_started workflow hash (H1 := r1) c1 n event data states)
    (rule_attempt_started workflow hash (H1 := r2) c2 n event data states).
Proof.
  intros HR Hok. destruct (sim_query n c1 c2 HR Hok) as [Heq Hnext]. unfold rule_attempt_started.
  destruct (prefix_query (PrefixReader := r1) c1 n) as [c1' f1], (prefix_query (PrefixReader := r2) c2 n) as [c2' f2].
  simpl in *. eapply related_bind; [exact Heq|]. intros v1 v2 _ Hv2 [Hp _ Hr]. rewrite Hr, Hp.
  destruct (view_is_ready v2 _ _) as [[]| |]; simpl; [|done..].
  destruct (rule_attempt_key _ _ _ _) as [[]| |]; simpl; [|done..].
  destruct (rule_child_started _ _ _ _) as [st| |]; simpl; [|done..]. split; [by eapply Hnext|done].
Qed.

Lemma fork_branch_settled_sim n c1 c2 data :
  R n c1 c2 → validated workflow hash events n →
  related (R n) (rule_fork_branch_settled workflow (H1 := r1) c1 n data) (rule_fork_branch_settled workflow (H1 := r2) c2 n data).
Proof.
  intros HR Hok. unfold rule_fork_branch_settled.
  destruct (find_fork _ _) as [fork|]; [|done]. simpl. destruct (find_branch _ _) as [branch|]; [|done]. simpl.
  case_bool_decide; [by apply with_prefix_sim|done].
Qed.

(** Both sides continue with the same child states. *)
Lemma keep_sim n m (f1 : result string C1) (f2 : result string C2) (states : ChildStates) :
  n ≤ m → related (R n) f1 f2 →
  related (λ a b, R m a.1 b.1 ∧ a.2 = b.2) (let? c := f1 in Ok (c, states)) (let? c := f2 in Ok (c, states)).
Proof. intros Hle Hr. destruct f1, f2; simpl in *; try done. split; [by eapply sim_later|done]. Qed.

(** Unfold one rule that does not read the history, on both sides. *)
Ltac same_lookup :=
  repeat match goal with
  | |- related _ (result_bind _ (ok_or ?o ?m)) (result_bind _ (ok_or ?o ?m)) =>
      destruct (ok_or o m); cbn [result_bind]; [|done..]
  end.

Lemma check_rules_sim now n event c1 c2 states :
  R n c1 c2 → validated workflow hash events n → validated workflow hash events (S n) →
  related (λ a b, R (S n) a.1 b.1 ∧ a.2 = b.2)
    (check_rules workflow hash (H1 := r1) events now n event c1 states)
    (check_rules workflow hash (H1 := r2) events now n event c2 states).
Proof.
  intros HR Hok Hok'. assert (R (S n) c1 c2) as HR' by (eapply sim_later; [done|lia]).
  unfold check_rules. destruct event.(RunEvent.payload); try done; same_lookup.
  all: try (eapply keep_sim; [|first [by apply require_ready_sim|by apply with_prefix_sim|by apply fork_branch_settled_sim]]; lia).
  - pose proof (attempt_started_sim n c1 c2 event data states HR Hok) as Hs.
    destruct (rule_attempt_started _ _ _ _ _ _ _) as [[]| |], (rule_attempt_started _ _ _ _ _ _ _) as [[]| |];
      simpl in *; try done. destruct Hs as [? ->]. split; [|done]. eapply sim_later; [done|lia].
  - destruct (rule_attempt_failed _ _ _ _); done.
  - destruct (rule_retry_scheduled _ _ _ _); done.
  - destruct (rule_group_completed _ _ _); done.
  - eapply related_bind; [by apply require_ready_sim|]. intros c1' c2' _ _ HR1.
    destruct (rule_approval_deadline _ _ _); simpl; [|done..]. split; [|done]. eapply sim_later; [done|lia].
  - destruct (rule_hook_requested _ _ _); done.
Qed.

Lemma validated_next n event :
  validated workflow hash events n → events !! n = Some event →
  (event.(RunEvent.iteration) = None → validate_payload_against_definition workflow hash event.(RunEvent.payload) = Ok tt) →
  validated workflow hash events (S n).
Proof.
  intros [Hle Hv] Hn He. split; [by apply lookup_lt_Some in Hn|].
  intros i e Hi Hie. destruct (decide (i = n)) as [->|]; [by simplify_eq|]. apply (Hv i); [lia|done].
Qed.

Lemma check_event_sim now n event c1 c2 states :
  R n c1 c2 → validated workflow hash events n → events !! n = Some event →
  related (λ a b, (R (S n) a.1 b.1 ∧ a.2 = b.2) ∧ validated workflow hash events (S n))
    (check_event workflow hash (H1 := r1) events now n event c1 states)
    (check_event workflow hash (H1 := r2) events now n event c2 states).
Proof.
  intros HR Hok Hn. unfold check_event. destruct event.(RunEvent.iteration) as [scope|] eqn:Hit.
  - assert (validated workflow hash events (S n)) as Hok' by (eapply validated_next; [done..|congruence]).
    destruct (validate_scoped_payload_against_definition _ _ _ _ _) as [[]| |]; simpl; [|done..].
    destruct (negb _); [split; [|done]; split; [eapply sim_later; [done|lia]|done]|].
    pose proof (check_rules_sim now n event c1 c2 states HR Hok Hok') as Hs.
    destruct (check_rules _ _ _ _ _ _ _ _), (check_rules _ _ _ _ _ _ _ _); simpl in *; auto; done.
  - destruct (validate_payload_against_definition _ _ _) as [[]| |] eqn:Hv; simpl; [|done..].
    assert (validated workflow hash events (S n)) as Hok' by (by eapply validated_next).
    pose proof (check_rules_sim now n event c1 c2 states HR Hok Hok') as Hs.
    destruct (check_rules _ _ _ _ _ _ _ _), (check_rules _ _ _ _ _ _ _ _); simpl in *; auto; done.
Qed.

Lemma check_events_sim clock n c1 c2 states :
  R n c1 c2 → validated workflow hash events n →
  check_events workflow hash (H1 := r1) events clock n (drop n events) c1 states
  = check_events workflow hash (H1 := r2) events clock n (drop n events) c2 states.
Proof.
  remember (drop n events) as rest eqn:Hrest. revert n c1 c2 states Hrest.
  induction rest as [|event rest IH]; intros n c1 c2 states Hrest HR Hok; [done|]. simpl.
  assert (events !! n = Some event) as Hn by (rewrite <-(Nat.add_0_r n), <-lookup_drop, <-Hrest; done).
  assert (rest = drop (S n) events) as Hrest'.
  { apply (drop_S _ _ _) in Hn. rewrite Hn in Hrest. by simplify_eq. }
  pose proof (check_event_sim (clock n) n event c1 c2 states HR Hok Hn) as Hs.
  destruct (check_event _ _ _ _ _ _ _ _) as [[c1' st1]| |], (check_event _ _ _ _ _ _ _ _) as [[c2' st2]| |];
    simpl in *; try done; [|congruence..].
  destruct Hs as [[HR' ->] Hok']. by apply IH.
Qed.

(** Readers that agree lead to the same verdict. *)
Lemma rules_sim clock c1 c2 :
  R 0 c1 c2 →
  validate_history_definition_rules workflow hash (H1 := r1) events clock c1
  = validate_history_definition_rules workflow hash (H1 := r2) events clock c2.
Proof.
  intros HR. apply (check_events_sim clock 0); [done|]. split; [lia|]. intros i e Hi. lia.
Qed.
End simulation.

(** ** Ordinals follow the attempts *)

Lemma last_ordinals_keys {A} (key : A → string) l : last_ordinals key l = last_ordinals id (key <$> l).
Proof.
  induction l as [|a l IH] using rev_ind; [done|]. rewrite fmap_app. simpl.
  rewrite !last_ordinals_snoc, length_fmap, IH. done.
Qed.

(** Recording the positions from [n] on. *)
Lemma record_keys (ks : list string) n m :
  n + m = length ks →
  foldl (λ acc i, match ks !! i with Some k => <[k := i]> acc | None => acc end) (last_ordinals id (take n ks)) (seq n m)
  = last_ordinals id ks.
Proof.
  revert n. induction m as [|m IH]; intros n Hn; simpl.
  { by rewrite take_ge by lia. }
  destruct (lookup_lt_is_Some_2 ks n ltac:(lia)) as [k Hk]. rewrite Hk.
  rewrite <-(IH (S n)) by lia. f_equal. rewrite (take_S_r _ _ _ Hk), last_ordinals_snoc.
  rewrite length_take, Nat.min_l by lia. done.
Qed.

Lemma record_attempts_spec (attempts attempts' : list AttemptProjection) l :
  attempt_node <$> attempts' = (attempt_node <$> attempts) ++ l →
  record_attempts attempts' (length attempts) (latest_ordinals attempts) = latest_ordinals attempts'.
Proof.
  intros Hk. unfold latest_ordinals. rewrite (last_ordinals_keys _ attempts), (last_ordinals_keys _ attempts').
  assert (length attempts ≤ length attempts') as Hle.
  { apply (f_equal length) in Hk. rewrite length_app, !length_fmap in Hk. lia. }
  rewrite <-(record_keys (attempt_node <$> attempts') (length attempts) (length attempts' - length attempts))
    by (rewrite length_fmap; lia).
  assert (take (length attempts) (attempt_node <$> attempts') = attempt_node <$> attempts) as ->.
  { rewrite Hk. apply take_app_length'. by rewrite length_fmap. }
  unfold record_attempts. generalize (last_ordinals id (attempt_node <$> attempts)).
  induction (seq _ _) as [|i s IH]; intros acc; [done|]. simpl. rewrite list_lookup_fmap.
  destruct (attempts' !! i); simpl; apply IH.
Qed.

Section with_externals.
Context `{Externals}.

(** The nodes of the attempts are only ever extended. *)
Lemma attempts_extend s event s' :
  apply s event = Ok s' →
  ∃ l, attempt_node <$> s'.(ProjectionFoldState.projection).(RunProjection.attempts) = (attempt_node <$> s.(ProjectionFoldState.projection).(RunProjection.attempts)) ++ l.
Proof.
  intros Ha. refine (apply_field_step RunProjection.attempts touches_attempts
    (λ a b, ∃ l, attempt_node <$> b = (attempt_node <$> a) ++ l) s event s' Ha _).
  { intros a. exists []. by rewrite app_nil_r. }
  intros p' _ Ht Hi Hp. destruct (apply_payload_attempts _ _ _ _ _ _ _ Hp Ht) as [data|key i a status _ Hl].
  - exists [data.(StepAttemptStartedData.node_id)]. by rewrite fmap_app.
  - exists []. rewrite app_nil_r, list_fmap_insert. apply list_insert_id. by rewrite list_lookup_fmap, Hl.
Qed.

(** ** What an attempt event changes *)

Lemma latest_attempt_insert (attempts : list AttemptProjection) i a status id :
  attempts !! i = Some a → attempt_node a ≠ id →
  latest_attempt_in (<[i := a <|AttemptProjection.status := status|>]> attempts) id = latest_attempt_in attempts id.
Proof.
  intros Hi Hne. rewrite <-!latest_ordinals_attempt.
  assert (latest_ordinals (<[i := a <|AttemptProjection.status := status|>]> attempts) = latest_ordinals attempts) as ->.
  { unfold latest_ordinals. rewrite !(last_ordinals_keys attempt_node), list_fmap_insert. f_equal.
    apply list_insert_id. by rewrite list_lookup_fmap, Hi. }
  destruct (latest_ordinals attempts !! id) as [j|] eqn:Hj; [|done]. simpl.
  apply list_lookup_insert_ne. intros ->. apply last_ordinals_lookup in Hj as (b & Hb & Hk & _). congruence.
Qed.

Lemma attempt_event_changes s event s' node :
  reachable s → apply s event = Ok s' → changed_node event = Some (Some node) →
  changes_only node s.(ProjectionFoldState.projection) s'.(ProjectionFoldState.projection).
Proof.
  intros Hr Ha Hn. pose proof (invariant_holds coherent s Hr) as Hco.
  destruct (apply_ok _ _ _ Ha) as [p' Happ].
  assert (in_iteration event = false) as Hit.
  { unfold changed_node in Hn. unfold in_iteration. by destruct (is_some event.(RunEvent.iteration)). }
  pose proof (dispatch_top _ _ _ _ (applied_dispatch _ _ _ _ Happ) Hit) as Hp.
  rewrite (applied_projection _ _ _ _ Happ). destruct s as [p ids indexes previous]. cbn in *.
  unfold changed_node in Hn. destruct (is_some _); [done|]. unfold apply_payload in Hp.
  destruct event.(RunEvent.payload) as [] eqn:Hpay; simplify_eq; cbn beta iota zeta in Hp; invert_handler Hp; simplify_guards; simplify_eq.
  all: split; intros other Hne; unfold has_output, latest_attempt; cbn -[latest_attempt_in map_contains_key];
    rewrite ?latest_attempt_snoc, ?map_contains_key_insert, ?lookup_delete_ne, ?lookup_insert_ne by done; try done.
  all: first [rewrite decide_False; [done|]; cbn; congruence
             |by rewrite bool_decide_false by congruence
             |idtac].
  all: apply latest_attempt_insert; [done|]; intros <-; apply Hne.
  all: match goal with Hi : _ !! ?key = Some _ |- _ => apply Hco in Hi; cbn in Hi end.
  all: match goal with Hi : _ <$> ?o = Some _, Ho : ?o = Some _ |- _ => rewrite Ho in Hi; cbn in Hi; injection Hi as Hi end.
  all: unfold attempt_node; match goal with Hi : AttemptProjection.identity _ = _ |- _ => by rewrite Hi end.
Qed.

(** A start changes nothing that the frontier reads. *)
Lemma start_event_changes d s event s' :
  apply s event = Ok s' → changed_node event = Some None →
  frontier_at d s'.(ProjectionFoldState.projection) = frontier_at d s.(ProjectionFoldState.projection).
Proof.
  intros Ha Hn.
  assert (touches_attempts event.(RunEvent.payload) = false ∧ touches_retries event.(RunEvent.payload) = false) as [Hta Htr].
  { unfold changed_node in Hn. destruct (is_some _); [done|]. by destruct event.(RunEvent.payload). }
  pose proof (apply_untouched RunProjection.attempts touches_attempts s event s' Ha ltac:(by rewrite Hta)) as Hat.
  pose proof (apply_untouched RunProjection.pending_retries touches_retries s event s' Ha ltac:(by rewrite Htr)) as Hre.
  assert (s'.(ProjectionFoldState.projection).(RunProjection.context).(WorkflowContext.steps) = s.(ProjectionFoldState.projection).(RunProjection.context).(WorkflowContext.steps)) as Hst.
  { destruct (apply_ok _ _ _ Ha) as [p' Happ].
    assert (in_iteration event = false) as Hit.
    { unfold changed_node in Hn. unfold in_iteration. by destruct (is_some event.(RunEvent.iteration)). }
    pose proof (dispatch_top _ _ _ _ (applied_dispatch _ _ _ _ Happ) Hit) as Hp.
    rewrite (applied_projection _ _ _ _ Happ). unfold changed_node in Hn. destruct (is_some _); [done|].
    unfold apply_payload in Hp. destruct event.(RunEvent.payload); simplify_eq. cbn beta iota zeta in Hp.
    invert_handler Hp. by simplify_eq. }
  unfold frontier_at, candidate, blockers, blocking, may_start, retry_time, completed, has_output, latest_attempt.
  by rewrite Hat, Hre, Hst.
Qed.
End with_externals.

(** ** The cursor *)

Section cursor.
Context `{Externals} `{EngineExternals} (d : CompiledWorkflowDefinition) (hash : string) (events : list RunEvent).

Record cursor_ok (c : HistoryPrefix) : Prop := {
  ok_events : c.(HistoryPrefix.events) = events;
  ok_state : from_events (take c.(HistoryPrefix.next) events) = Ok c.(HistoryPrefix.state);
  ok_poisoned : c.(HistoryPrefix.poisoned) = None;
  ok_latest : ∀ l, c.(HistoryPrefix.latest) = Some l → l = latest_ordinals c.(HistoryPrefix.state).(ProjectionFoldState.projection).(RunProjection.attempts);
  ok_definition : ∀ d' hash', c.(HistoryPrefix.frontier_definition) = Some (d', hash') → d' = d ∧ hash' = hash;
  ok_frontier : ∀ f, c.(HistoryPrefix.frontier) = Some f →
    scoped_definition d ∧ f = frontier_at d c.(HistoryPrefix.state).(ProjectionFoldState.projection)
    ∧ is_Some c.(HistoryPrefix.latest) ∧ is_Some c.(HistoryPrefix.frontier_definition);
}.

Lemma cursor_new_ok : cursor_ok (cursor_with_definition events d hash).
Proof. split; try done. by intros d' hash' [= <- <-]. Qed.

Lemma reachable_prefix n s : from_events (take n events) = Ok s → reachable s.
Proof. intros Hs. by eexists. Qed.

Lemma take_next n event : events !! n = Some event → take (S n) events = take n events ++ [event].
Proof. apply take_S_r. Qed.

(** What the frontier does with an accepted event. *)
Lemma follow_frontier_ok c event s :
  cursor_ok c → apply c.(HistoryPrefix.state) event = Ok s →
  events !! c.(HistoryPrefix.next) = Some event →
  ∃ c', accept_event c event s = Ok c' ∧ cursor_ok c' ∧ c'.(HistoryPrefix.next) = S c.(HistoryPrefix.next).
Proof.
  intros [Hev Hst Hpo Hla Hde Hfr] Ha Hn. unfold accept_event.
  destruct (attempts_extend _ _ _ Ha) as [l Hl].
  assert ((length s.(ProjectionFoldState.projection).(RunProjection.attempts) <? length c.(HistoryPrefix.state).(ProjectionFoldState.projection).(RunProjection.attempts)) = false) as ->.
  { apply Nat.ltb_ge. apply (f_equal length) in Hl. rewrite length_app, !length_fmap in Hl. lia. }
  assert (from_events (take (S c.(HistoryPrefix.next)) events) = Ok s) as Hst'.
  { rewrite (take_next _ _ Hn). apply from_events_snoc. eauto. }
  destruct c as [evs st next latest poisoned fdef frontier]; cbn in *.
  set (latest' := record_attempts s.(ProjectionFoldState.projection).(RunProjection.attempts) (length st.(ProjectionFoldState.projection).(RunProjection.attempts)) <$> latest).
  assert (∀ m, latest' = Some m → m = latest_ordinals s.(ProjectionFoldState.projection).(RunProjection.attempts)) as Hla'.
  { unfold latest'. intros m Hm. destruct latest as [l0|]; [|done]. simpl in Hm. simplify_eq.
    rewrite (Hla l0 eq_refl). by eapply record_attempts_spec. }
  unfold follow_frontier. cbn. destruct fdef as [def|]; cbn.
  2:{ eexists. split; [done|]. split; [|done]. split; cbn; try done.
      intros f Hf. destruct (Hfr f Hf) as (_ & _ & _ & []). done. }
  destruct (changed_node event) as [[node|]|] eqn:Hnode; cbn.
  - destruct frontier as [f|]; cbn.
    2:{ eexists. split; [done|]. split; [|done]. split; cbn; done. }
    destruct (Hfr f eq_refl) as (Hd & -> & [l0 Hl0] & _). subst latest. cbn in latest'.
    unfold latest'. cbn. rewrite (Hla' _ eq_refl).
    pose proof (reachable_prefix _ _ Hst) as Hreach.
    destruct (frontier_update_spec d Hd _ _ _ (attempt_event_changes _ _ _ _ Hreach Ha Hnode) _ eq_refl) as [-> | -> ]; cbn.
    + eexists. split; [done|]. split; [|done]. split; cbn; done.
    + eexists. split; [done|]. split; [|done]. split; cbn; try done.
      intros f [= <-]. split_and!; [done|done|by eexists|by eexists].
  - eexists. split; [done|]. split; [|done]. split; cbn; try done. intros f Hf. destruct (Hfr f Hf) as (Hd & -> & [l0 ->] & ?).
    split_and!; [done|symmetry; by eapply start_event_changes|by eexists|done].
  - eexists. split; [done|]. split; [|done]. by split; cbn.
Qed.

(** Advancing the cursor replays the events. *)
Lemma advance_ok n c :
  cursor_ok c → c.(HistoryPrefix.next) + n ≤ length events →
  related (λ _ p, p = (advance n c).1.(HistoryPrefix.state).(ProjectionFoldState.projection))
    (advance n c).2 (replay_at events (c.(HistoryPrefix.next) + n))
  ∧ ((advance n c).2 = Ok tt → cursor_ok (advance n c).1
       ∧ (advance n c).1.(HistoryPrefix.next) = c.(HistoryPrefix.next) + n).
Proof.
  revert c. induction n as [|n IH]; intros c Hc Hle.
  { rewrite Nat.add_0_r. simpl. unfold replay_at, fold_events. by rewrite (ok_state _ Hc). }
  destruct (lookup_lt_is_Some_2 events c.(HistoryPrefix.next) ltac:(lia)) as [event Hn]. simpl.
  rewrite (ok_events _ Hc), Hn.
  assert (∀ m, from_events (take (c.(HistoryPrefix.next) + S m) events)
    = let? s := apply c.(HistoryPrefix.state) event in apply_all s (take m (drop (S c.(HistoryPrefix.next)) events))) as Hfold.
  { intros m. rewrite <-take_take_drop. unfold from_events. rewrite apply_all_app.
    fold (from_events (take c.(HistoryPrefix.next) events)). rewrite (ok_state _ Hc).
    rewrite (drop_S _ _ _ Hn). done. }
  unfold replay_at, fold_events. rewrite Hfold.
  destruct (apply c.(HistoryPrefix.state) event) as [s| |] eqn:Ha; [|done..].
  destruct (follow_frontier_ok c event s Hc Ha Hn) as (c' & -> & Hc' & Hnext). cbn [result_bind].
  destruct (IH c' Hc') as [Hrel Hok]; [lia|]. rewrite Hnext in Hrel, Hok. split.
  - unfold replay_at, fold_events in Hrel. rewrite Nat.add_succ_comm, Hfold in Hrel. exact Hrel.
  - intros Hr. destruct (Hok Hr) as [? ->]. split; [done|lia].
Qed.

(** [at] is full replay. *)
Lemma cursor_at_ok c k :
  cursor_ok c → c.(HistoryPrefix.next) ≤ k ≤ length events →
  (cursor_at c k).2 = replay_at events k
  ∧ ∀ p, replay_at events k = Ok p →
      cursor_ok (cursor_at c k).1 ∧ (cursor_at c k).1.(HistoryPrefix.next) = k
      ∧ (cursor_at c k).1.(HistoryPrefix.state).(ProjectionFoldState.projection) = p.
Proof.
  intros Hc Hk. unfold cursor_at. rewrite (ok_poisoned _ Hc), (ok_events _ Hc).
  rewrite (proj2 (Nat.ltb_ge _ _)), (proj2 (Nat.ltb_ge _ _)) by lia. cbn [orb].
  destruct (advance_ok (k - c.(HistoryPrefix.next)) c Hc) as [Hrel Hok]; [lia|].
  replace (c.(HistoryPrefix.next) + (k - c.(HistoryPrefix.next))) with k in * by lia.
  destruct (advance _ c) as [c' [[]| |]]; cbn in *; destruct (replay_at events k) as [p'| |]; simpl in *; try done.
  - subst p'. split; [done|]. intros p [= <-]. by destruct (Hok eq_refl).
  - by subst.
  - by subst.
Qed.

(** ** Choices *)

Lemma scoped_no_choices : scoped_definition d → d.(CompiledWorkflowDefinition.graph).(CompiledWorkflowGraph.choices) = None.
Proof.
  intros Hd. pose proof (scoped_in_scope d Hd) as Hs. unfold in_scope in Hs.
  repeat match goal with Hx : _ && _ = true |- _ => apply andb_true_iff in Hx as [Hx ?] end.
  by destruct (CompiledWorkflowGraph.choices _).
Qed.

(** An ordinary graph has no choices, so that none is ever selected. *)
Lemma scoped_choices n s :
  scoped_definition d → validated d hash events n → from_events (take n events) = Ok s →
  s.(ProjectionFoldState.projection).(RunProjection.choice_selections) = ∅.
Proof.
  intros Hd. revert s. induction n as [|n IH]; intros s Hv Hs.
  { apply Ok_inj in Hs as <-. done. }
  destruct Hv as [Hle Hv]. destruct (lookup_lt_is_Some_2 events n ltac:(lia)) as [event Hn].
  rewrite (take_next _ _ Hn) in Hs. apply from_events_snoc in Hs as (s0 & Hs0 & Ha).
  rewrite <-(IH s0); [| |done].
  2:{ split; [lia|]. intros i e Hi. apply Hv. lia. }
  apply (apply_untouched RunProjection.choice_selections touches_choices _ _ _ Ha).
  destruct event.(RunEvent.payload) eqn:Hp; try done. cbn. unfold in_iteration. rewrite Hp. cbn. rewrite andb_true_r.
  destruct event.(RunEvent.iteration) eqn:Hit; [done|]. specialize (Hv n event ltac:(lia) Hn Hit).
  rewrite Hp in Hv. cbn in Hv. unfold check_choice_selected in Hv. by rewrite scoped_no_choices in Hv.
Qed.

(** ** Query views *)

Lemma ensure_latest_ok c : cursor_ok c → cursor_ok (ensure_latest c).
Proof.
  intros Hc. unfold ensure_latest. destruct (_ && _); [|done]. destruct Hc as [? ? ? ? ? Hfr].
  split; cbn; try done. { by intros l [= <-]. }
  intros f Hf. destruct (Hfr f Hf) as (? & ? & ? & ?). by split_and!.
Qed.

Lemma ensure_latest_running c :
  c.(HistoryPrefix.state).(ProjectionFoldState.projection).(RunProjection.status) = RunStatus.Running → is_Some (ensure_latest c).(HistoryPrefix.latest).
Proof.
  intros Hr. unfold ensure_latest. rewrite bool_decide_true by done. rewrite andb_true_r.
  destruct (HistoryPrefix.latest c) as [l|] eqn:Hl; cbn; rewrite ?Hl; by eexists.
Qed.

Lemma ensure_frontier_ok c :
  cursor_ok c → (c.(HistoryPrefix.state).(ProjectionFoldState.projection).(RunProjection.status) = RunStatus.Running → is_Some c.(HistoryPrefix.latest)) →
  ∃ c', ensure_frontier c = Ok c' ∧ cursor_ok c' ∧ c'.(HistoryPrefix.next) = c.(HistoryPrefix.next)
    ∧ c'.(HistoryPrefix.state) = c.(HistoryPrefix.state).
Proof.
  intros Hc Hrun. unfold ensure_frontier. destruct (is_none _) eqn:Hnone; cbn [andb]; [|by exists c].
  case_bool_decide as Hst; [|by exists c]. destruct (HistoryPrefix.frontier_definition c) as [[d' h']|] eqn:Hdef; [|by exists c].
  destruct (ok_definition _ Hc _ _ Hdef) as [-> ->].
  destruct (readiness_binding _ _ _) as [[]| |]; [|by exists c..].
  destruct (Hrun Hst) as [l Hl]. rewrite Hl. cbn [expect result_bind]. rewrite (ok_latest _ Hc _ Hl).
  destruct (frontier_new_spec d c.(HistoryPrefix.state).(ProjectionFoldState.projection) _ eq_refl) as [-> | [Hd ->]]; cbn [result_bind].
  - eexists. split; [done|]. split; [|done]. destruct Hc. by split.
  - eexists. split; [done|]. split; [|done]. destruct Hc as [? ? ? ? ? _]. split; cbn; try done.
    intros f [= <-]. split_and!; [done|done|by rewrite Hl|by rewrite Hdef].
Qed.

(** The view of a cursor in order answers as the scans do. *)
Lemma prefix_view_eq c :
  cursor_ok c → validated d hash events c.(HistoryPrefix.next) →
  let prefix := ReadinessPrefix.mk c.(HistoryPrefix.state).(ProjectionFoldState.projection) c.(HistoryPrefix.latest) c.(HistoryPrefix.frontier) in
  view_eq (prefix_view (graph_new d) hash prefix) (replay_view d hash c.(HistoryPrefix.state).(ProjectionFoldState.projection)).
Proof.
  intros Hc Hv prefix. set (p := c.(HistoryPrefix.state).(ProjectionFoldState.projection)) in *.
  assert (∀ id, prefix_latest_attempt prefix id = latest_attempt p id) as Hlatest.
  { intros id. unfold prefix_latest_attempt. cbn. destruct (HistoryPrefix.latest c) as [l|] eqn:Hl; [|done].
    rewrite (ok_latest _ Hc _ Hl). apply latest_ordinals_attempt. }
  assert (∀ f, c.(HistoryPrefix.frontier) = Some f →
    f = frontier_at d p ∧ scoped_definition d ∧ p.(RunProjection.choice_selections) = ∅) as Hf.
  { intros f Hf. destruct (ok_frontier _ Hc _ Hf) as (Hd & -> & _). split_and!; [done..|].
    eapply scoped_choices; [done..|]. apply (ok_state _ Hc). }
  split; [done| |].
  - intros now. cbn. unfold ready_from_prefix_at, reference_ready_at. cbn.
    destruct (readiness_binding d hash p) as [[]| |]; cbn; try done.
    destruct (HistoryPrefix.frontier c) as [f|]; [destruct (Hf f eq_refl) as (-> & Hd & Hch); by apply frontier_ready_scan|].
    apply ready_scan_index; [apply _|done].
  - intros now id. cbn. unfold is_ready_from_prefix_at. cbn. case_bool_decide as Hst; cbn [negb].
    + destruct (readiness_binding d hash p) as [[]| |]; cbn; try done.
      destruct (HistoryPrefix.frontier c) as [f|]; [destruct (Hf f eq_refl) as (-> & Hd & Hch); by apply frontier_contains_scan|].
      apply is_ready_scan_index; [apply _|done].
    + unfold graph_is_ready_at, readiness_binding. cbn. by rewrite bool_decide_false.
Qed.

(** ** The cursor refines the replay *)

Definition follows (n : nat) (c : HistoryPrefix) (replayed : list RunEvent) : Prop :=
  replayed = events ∧ cursor_ok c ∧ c.(HistoryPrefix.next) ≤ n.

#[global] Instance cursor_sim :
  ReaderSim (cursor_reader (graph_new d) hash) (replay_reader d hash) (validated d hash events) follows.
Proof.
  split.
  - intros n m c r (-> & Hc & Hn) Hle. split_and!; [done..|lia].
  - intros n c r (-> & Hc & Hn) [Hle Hv]. cbn. destruct (cursor_at_ok c n Hc) as [Heq Hok]; [lia|].
    rewrite Heq. split; [apply related_refl|]. intros p Hp. destruct (Hok p Hp) as (? & ? & _). split_and!; [done..|lia].
  - intros n c r (-> & Hc & Hn) Hv. cbn. destruct (cursor_at_ok c n Hc) as [Heq Hok]; [destruct Hv; lia|].
    unfold cursor_query_at. destruct (cursor_at c n) as [c1 f]; cbn in *. subst f.
    destruct (replay_at events n) as [p| |] eqn:Hp; [|done..]. destruct (Hok p eq_refl) as (Hc1 & Hn1 & Hp1).
    destruct (ensure_frontier_ok (ensure_latest c1)) as (c2 & Hf & Hc2 & Hn2 & Hs2).
    { by apply ensure_latest_ok. }
    { intros Hr. apply ensure_latest_running. unfold ensure_latest in Hr. by destruct (_ && _). }
    assert (HistoryPrefix.next (ensure_latest c1) = n ∧ HistoryPrefix.state (ensure_latest c1) = c1.(HistoryPrefix.state)) as [Hn1' Hs1'].
    { unfold ensure_latest. by destruct (_ && _). }
    rewrite Hf. cbn. split.
    + rewrite <-Hp1, <-Hs1', <-Hs2. apply prefix_view_eq; [done|]. by rewrite Hn2, Hn1'.
    + intros v _. split_and!; [done..|]. cbn. lia.
Qed.

Lemma cursor_follows : follows 0 (cursor_with_definition events d hash) events.
Proof. split_and!; [done|apply cursor_new_ok|done]. Qed.
End cursor.

(** C1 The history check is exact: for every definition, history and clock, the check with the
    incremental cursor (one forward fold, ordinals of the latest attempts, borrowed maps and the
    readiness frontier) returns what the check returns that folds every prefix from the start and
    scans the lists: the same state, the same error, or the same panic. *)
Theorem history_check_exact `{Externals} `{EngineExternals} definition hash events clock :
  check_history definition hash events clock = check_history_by_replay definition hash events clock.
Proof.
  unfold check_history, check_history_by_replay.
  rewrite (rules_sim definition hash events _ (replay_reader definition hash) _ clock _ _ (cursor_follows definition hash events)). done.
Qed.
