(* ===== verification/AcceptedHistories.v ===== *)
(** * What an accepted history guarantees

    The history check by replay, event by event, and the guarantees of its rules:
    attempts start when they are ready, retries follow their failures exactly,
    compensations run in reverse order, outcomes wait for forks. *)

From S2P Require Import Prelude GraphSearch Strings Json EventTypes ProjectionTypes Guards.
From S2P Require Import FoldRun FoldControlFlow FoldCorrection FoldApprovals FoldOperations.
From S2P Require Import FoldLifecycle IterationFold EventIdentities EventValidation Fold.
From S2P Require Import FoldFrames ValidationProperties HistoryProperties AttemptProperties.
From S2P Require Import ModelTypes EngineExternals ModelQueries Readiness ReadinessProperties.
From S2P Require Import Frontier FrontierProperties FrontierQueries DefinitionValidation.
From S2P Require Import HistoryRules CursorProperties.

Section accepted.
Context `{Externals} `{EngineExternals} (d : CompiledWorkflowDefinition) (hash : string) (events : list RunEvent).
Context (clock : nat → DateTime).

(** The check of one event by replay. *)
Abbreviation checked i event states states' :=
  (check_event d hash (H1 := replay_reader d hash) events (clock i) i event events states = Ok (events, states')).

(** The reader by replay has no state. *)
Lemma replay_keeps i event states c states' :
  check_event d hash (H1 := replay_reader d hash) events (clock i) i event events states = Ok (c, states') → c = events.
Proof.
  unfold check_event, check_rules, rule_attempt_started, rule_fork_branch_settled, require_ready, with_prefix. cbn.
  intros Hc. destruct event.(RunEvent.iteration); destruct event.(RunEvent.payload); cbn in Hc; invert_ok; simplify_eq; try done.
  all: repeat case_match; invert_ok; simplify_eq; done.
Qed.

(** An invariant of the child states along the loop. *)
Lemma check_events_invariant (P : nat → ChildStates → Prop) i rest states :
  rest = drop i events → P i states →
  (∀ i event states states', events !! i = Some event → P i states → checked i event states states' → P (S i) states') →
  check_events d hash (H1 := replay_reader d hash) events clock i rest events states = Ok tt →
  ∀ j event, i ≤ j → events !! j = Some event → ∃ states states', P j states ∧ checked j event states states'.
Proof.
  revert i states. induction rest as [|event rest IH]; intros i states Hrest HP Hstep Hc j event' Hij Hj.
  { apply lookup_lt_Some in Hj. apply (f_equal length) in Hrest. rewrite length_drop in Hrest. simpl in Hrest. lia. }
  assert (events !! i = Some event) as Hi by (rewrite <-(Nat.add_0_r i), <-lookup_drop, <-Hrest; done).
  assert (rest = drop (S i) events) as Hrest'.
  { rewrite (drop_S _ _ _ Hi) in Hrest. by simplify_eq. }
  simpl in Hc. apply result_bind_ok in Hc as ([c states'] & Hcheck & Hc). simpl in Hc.
  apply replay_keeps in Hcheck as Hcc. subst c.
  destruct (decide (i = j)) as [<-|Hne]; [simplify_eq; eauto|].
  eapply (IH (S i)); [done|by eapply Hstep|done|done|lia|done].
Qed.

(** An accepted history passes the loop by replay. *)
Lemma accepted_rules s :
  check_history d hash events clock = Ok s →
  from_events events = Ok s
  ∧ check_events d hash (H1 := replay_reader d hash) events clock 0 events events ∅ = Ok tt.
Proof.
  unfold check_history. rewrite (rules_sim d hash events _ (replay_reader d hash) _ clock _ _ (cursor_follows d hash events)).
  intros Hc. apply result_bind_ok in Hc as (s' & Hs%map_err_ok & Hc). apply result_bind_ok in Hc as ([] & Hr & Heq).
  apply Ok_inj in Heq as ->. done.
Qed.

Context (s : ProjectionFoldState) (Haccepted : check_history d hash events clock = Ok s).

Lemma accepted_event (P : nat → ChildStates → Prop) :
  P 0 ∅ →
  (∀ i event states states', events !! i = Some event → P i states → checked i event states states' → P (S i) states') →
  ∀ i event, events !! i = Some event → ∃ states states', P i states ∧ checked i event states states'.
Proof.
  intros HP Hstep i event Hi. destruct (accepted_rules s Haccepted) as [_ Hc].
  eapply check_events_invariant; [|done..|lia|done]. done.
Qed.

(** Every prefix of an accepted history folds. *)
Lemma accepted_prefix i : ∃ si, from_events (take i events) = Ok si.
Proof.
  destruct (accepted_rules s Haccepted) as [Hs _]. rewrite <-(take_drop i events) in Hs. unfold from_events in *.
  rewrite apply_all_app in Hs. apply result_bind_ok in Hs as (si & Hsi & _). by exists si.
Qed.

(** An event outside iterations is valid for the definition and passes its rules. *)
Lemma accepted_top i event :
  events !! i = Some event → event.(RunEvent.iteration) = None →
  validate_payload_against_definition d hash event.(RunEvent.payload) = Ok tt
  ∧ ∃ states states', check_rules d hash (H1 := replay_reader d hash) events (clock i) i event events states = Ok (events, states').
Proof.
  intros Hi Hit. destruct (accepted_event (λ _ _, True) I (λ _ _ _ _ _ _ _, I) i event Hi) as (st & st' & _ & Hc).
  unfold check_event in Hc. rewrite Hit in Hc. apply result_bind_ok in Hc as ([] & Hv & Hc). eauto.
Qed.

(** The projection that the rules of event [i] see. *)
Lemma replay_prefix i p : replay_at events i = Ok p ↔ ∃ si, from_events (take i events) = Ok si ∧ si.(ProjectionFoldState.projection) = p.
Proof.
  unfold replay_at, fold_events. rewrite map_err_ok, result_bind_ok. split; intros (si & Hs & Hp); exists si; split; try done.
  - by apply Ok_inj in Hp.
  - by rewrite Hp.
Qed.
End accepted.

Lemma any_m_true {E A} (f : A → result E bool) l : any_m f l = Ok true → ∃ a, a ∈ l ∧ f a = Ok true.
Proof.
  induction l as [|a l IH]; simpl; [done|]. destruct (f a) as [[]| |] eqn:Hf; simpl; try done.
  - intros _. exists a. split; [left|done].
  - intros (b & ? & ?)%IH. exists b. split; [by right|done].
Qed.

(** A node that the scan finds ready is ready. *)
Lemma is_ready_scan_ready workflow p now id :
  is_ready_scan (scan_topology workflow) workflow p now (latest_attempt p) id = Ok true →
  ∃ n, n.(CompiledWorkflowNode.id) = id ∧ ready_node workflow p now n.
Proof.
  intros (n & Hn & Hr)%any_m_true. case_bool_decide as Hid; [|done]. exists n. split; [done|]. by apply candidate_spec.
Qed.

Lemma replay_is_ready workflow hash p now id :
  view_is_ready (replay_view workflow hash p) now id = Ok true → ∃ n, n.(CompiledWorkflowNode.id) = id ∧ ready_node workflow p now n.
Proof.
  cbn. intros Hr. apply result_bind_ok in Hr as ([] & _ & Hr); cbn [negb] in Hr; [|done]. by apply is_ready_scan_ready.
Qed.

(** C5 Accepted attempts were ready: in an accepted history, every attempt of the main graph starts
    at a node that is ready in the projection of the events before it (reached by active edges, not
    complete, its predecessors complete, no attempt running, any retry due), with the handler of the
    node, within the attempts its policy allows, and from Model v6 on with the idempotency key that
    its run, definition and node determine. *)
Theorem accepted_attempts_ready `{Externals} `{EngineExternals} d hash events clock s i event data :
  check_history d hash events clock = Ok s →
  events !! i = Some event → event.(RunEvent.iteration) = None → event.(RunEvent.payload) = RunEventPayload.StepAttemptStarted data →
  ∃ si n n', from_events (take i events) = Ok si
    ∧ n.(CompiledWorkflowNode.id) = data.(StepAttemptStartedData.node_id) ∧ ready_node d si.(ProjectionFoldState.projection) event.(RunEvent.occurred_at) n
    ∧ node d data.(StepAttemptStartedData.node_id) = Some n' ∧ data.(StepAttemptStartedData.handler) = n'.(CompiledWorkflowNode.handler)
    ∧ (1 ≤ data.(StepAttemptStartedData.attempt) ≤ maximum_attempts n')%N
    ∧ ((COMPILED_MODEL_SCHEMA_VERSION_V6 ≤ d.(CompiledWorkflowDefinition.schema_version))%N →
        ∃ key, step_effect_idempotency_key event.(RunEvent.run_id) hash data.(StepAttemptStartedData.node_id) = Ok key
          ∧ data.(StepAttemptStartedData.idempotency_key) = Some key).
Proof.
  intros Hacc Hi Hit Hp. destruct (accepted_top _ _ _ _ _ Hacc i event Hi Hit) as (Hv & st & st' & Hr).
  rewrite Hp in Hv. cbn in Hv. unfold check_attempt_started in Hv.
  unfold check_rules in Hr. rewrite Hp in Hr. unfold rule_attempt_started in Hr. cbn in Hr.
  invert_ok. simplify_guards. simplify_eq.
  match goal with Hq : replay_at _ _ = Ok ?p, Hw : view_is_ready _ _ _ = Ok true |- _ =>
    apply replay_prefix in Hq as (si & Hsi & <-); apply replay_is_ready in Hw as (n & Hid & Hn) end.
  eexists si, n, _. split_and!; [done..|lia|done|]. intros Hv6.
  match goal with Hk : rule_attempt_key _ _ _ _ = Ok _ |- _ => unfold rule_attempt_key in Hk;
    rewrite (proj2 (N.leb_le _ _) Hv6) in Hk end. invert_ok. simplify_guards. eauto.
Qed.

(** ** Retries *)

(** Retries are exact: in an accepted history, every retry of the main graph is scheduled
    immediately after the thrown script it answers, for the next attempt, within the attempts of
    the policy, and due exactly the delay of the compiled backoff after the failure (chrono's sum
    of the time and the milliseconds). *)
Theorem accepted_retries_exact `{Externals} `{EngineExternals} d hash events clock s i event data :
  check_history d hash events clock = Ok s →
  events !! i = Some event → event.(RunEvent.iteration) = None → event.(RunEvent.payload) = RunEventPayload.StepRetryScheduled data →
  ∃ j previous failed policy delay, i = S j ∧ events !! j = Some previous
    ∧ previous.(RunEvent.payload) = RunEventPayload.StepAttemptFailed failed
    ∧ failed.(StepAttemptFailedData.node_id) = data.(StepRetryScheduledData.node_id)
    ∧ failed.(StepAttemptFailedData.attempt) = data.(StepRetryScheduledData.failed_attempt)
    ∧ failed.(StepAttemptFailedData.failure).(AttemptFailure.kind) = AttemptFailureKind.ScriptThrew
    ∧ retry_policy_of d data.(StepRetryScheduledData.node_id) = Some policy
    ∧ data.(StepRetryScheduledData.next_attempt) = u32_add data.(StepRetryScheduledData.failed_attempt) 1
    ∧ (2 ≤ data.(StepRetryScheduledData.next_attempt) ≤ policy.(RetryPolicy.max_attempts))%N
    ∧ delay_before_attempt policy data.(StepRetryScheduledData.next_attempt) = Some delay
    ∧ data.(StepRetryScheduledData.scheduled_at) = (previous.(RunEvent.occurred_at) + Z.of_N delay * NANOS_PER_MILLI)%Z.
Proof.
  intros Hacc Hi Hit Hp. destruct (accepted_top _ _ _ _ _ Hacc i event Hi Hit) as (Hv & st & st' & Hr).
  rewrite Hp in Hv. cbn in Hv. unfold check_retry_scheduled in Hv.
  unfold check_rules in Hr. rewrite Hp in Hr. cbn beta iota zeta in Hr.
  unfold rule_retry_scheduled in Hr. invert_ok. simplify_guards. simplify_eq.
  simplify_guards. destruct i as [|j]; [done|].
  match goal with Hd : delay_before_attempt _ _ = Some ?n, Hz : i64_try_from ?n = Some _ |- _ =>
    destruct (delay_bounds _ _ _ Hd) as [Hb _]; unfold i64_try_from in Hz; destruct (n <=? _)%N; simplify_eq/= end.
  match goal with Ht : datetime_add _ _ = Ok _ |- _ => apply expect_ok, add_milliseconds_spec in Ht end.
  eexists j, _, _, _, _. split_and!; try done; lia || congruence.
Qed.

(** No retryable failure is dropped: in an accepted history, a thrown script of the main graph
    with attempts left is followed immediately by its retry schedule, so that it is never the last
    event of the history. *)
Theorem accepted_failures_retried `{Externals} `{EngineExternals} d hash events clock s i event data policy :
  check_history d hash events clock = Ok s →
  events !! i = Some event → event.(RunEvent.iteration) = None → event.(RunEvent.payload) = RunEventPayload.StepAttemptFailed data →
  retry_policy_of d data.(StepAttemptFailedData.node_id) = Some policy →
  data.(StepAttemptFailedData.failure).(AttemptFailure.kind) = AttemptFailureKind.ScriptThrew →
  (data.(StepAttemptFailedData.attempt) < policy.(RetryPolicy.max_attempts))%N →
  ∃ next schedule, events !! S i = Some next ∧ next.(RunEvent.payload) = RunEventPayload.StepRetryScheduled schedule
    ∧ schedule.(StepRetryScheduledData.node_id) = data.(StepAttemptFailedData.node_id)
    ∧ schedule.(StepRetryScheduledData.failed_attempt) = data.(StepAttemptFailedData.attempt)
    ∧ schedule.(StepRetryScheduledData.next_attempt) = u32_add data.(StepAttemptFailedData.attempt) 1.
Proof.
  intros Hacc Hi Hit Hp Hpol Hk Hlt. destruct (accepted_top _ _ _ _ _ Hacc i event Hi Hit) as (_ & st & st' & Hr).
  unfold check_rules in Hr. rewrite Hp in Hr. cbn beta iota zeta in Hr. unfold rule_attempt_failed in Hr.
  rewrite Hpol, Hk, (proj2 (N.ltb_lt _ _) Hlt) in Hr. cbn -[lookup] in Hr.
  destruct (events !! S i) as [next|] eqn:Hn; [|done]. cbn in Hr.
  destruct next.(RunEvent.payload) eqn:Hnp; try done. invert_ok.
  match goal with Hg : _ && _ && negb _ = false |- _ =>
    rewrite (bool_decide_true (AttemptFailureKind.ScriptThrew = _)) in Hg by done; apply negb_false_iff in Hg end.
  simplify_guards. eauto 10.
Qed.

(** ** Compensation *)

Lemma max_by_key_spec {A} (key : A → N) l a :
  max_by_key key l = Some a → a ∈ l ∧ ∀ b, b ∈ l → (key b ≤ key a)%N.
Proof.
  unfold max_by_key. revert a. induction l as [|b l IH] using rev_ind; intros a; [done|].
  rewrite foldl_snoc. destruct (foldl _ None l) as [m|] eqn:Hm.
  - destruct (IH m eq_refl) as [Hin Hmax]. destruct (key m <=? key b)%N eqn:Hle; intros [= <-].
    + apply N.leb_le in Hle. split; [set_solver|]. intros c [Hc%Hmax|Hc%list_elem_of_singleton]%elem_of_app; [lia|by subst].
    + apply N.leb_gt in Hle. split; [set_solver|]. intros c [Hc%Hmax|Hc%list_elem_of_singleton]%elem_of_app; [done|subst; lia].
  - intros [= <-]. split; [set_solver|]. destruct l as [|c l] using rev_ind.
    + set_solver.
    + rewrite foldl_snoc in Hm. by repeat case_match.
Qed.

(** Compensations run in reverse: in an accepted history, the compensation that starts is one that
    waits to run in its saga, whose correction was not for success, and no compensation that waits
    belongs to a step that completed later. *)
Theorem accepted_compensations_reverse `{Externals} `{EngineExternals} d hash events clock s i event data :
  check_history d hash events clock = Ok s →
  events !! i = Some event → event.(RunEvent.iteration) = None → event.(RunEvent.payload) = RunEventPayload.CorrectionAttemptStarted data →
  data.(CorrectionAttemptIdentityData.action_kind) = CorrectiveActionKind.Compensation →
  ∃ si state action, from_events (take i events) = Ok si
    ∧ si.(ProjectionFoldState.projection).(RunProjection.sagas) !! data.(CorrectionAttemptIdentityData.saga_id) = Some state
    ∧ state.(SagaProjection.reason) ≠ Some SagaCorrectionReason.Success
    ∧ action ∈ btree_values state.(SagaProjection.actions) ∧ action.(CorrectionActionProjection.action_id) = data.(CorrectionAttemptIdentityData.action_id)
    ∧ awaits_attempt action.(CorrectionActionProjection.status) = true
    ∧ ∀ other, other ∈ btree_values state.(SagaProjection.actions) → other.(CorrectionActionProjection.action_kind) = CorrectiveActionKind.Compensation →
        awaits_attempt other.(CorrectionActionProjection.status) = true →
        (option_key other.(CorrectionActionProjection.completion_sequence) ≤ option_key action.(CorrectionActionProjection.completion_sequence))%N.
Proof.
  intros Hacc Hi Hit Hp Hk. destruct (accepted_top _ _ _ _ _ Hacc i event Hi Hit) as (_ & st & st' & Hr).
  unfold check_rules in Hr. rewrite Hp in Hr. cbn beta iota zeta in Hr. unfold with_prefix, rule_correction_started in Hr.
  cbn in Hr. rewrite Hk in Hr. unfold rule_compensation_started in Hr. invert_ok. simplify_guards. simplify_eq.
  match goal with Hq : replay_at _ _ = Ok _ |- _ => apply replay_prefix in Hq as (si & Hsi & <-) end.
  match goal with Hn : next_compensation _ = Some _ |- _ =>
    apply fmap_Some in Hn as (action & [Hin Hmax]%max_by_key_spec & Hid) end.
  apply elem_of_filterb in Hin as [Hin [_ Haw]%andb_true_iff].
  eexists si, _, action. split_and!; try done. intros other Ho Hko Hao. apply Hmax. apply elem_of_filterb.
  split; [done|]. rewrite Hao, andb_true_r. by apply bool_decide_eq_true.
Qed.

(** ** Outcomes *)

(** Outcomes wait for forks: in an accepted history, when the outcome of the run is decided,
    every fork that was opened has settled: its join is not pending, and every branch of the
    compiled fork has been recorded. *)
Theorem accepted_outcomes_settled `{Externals} `{EngineExternals} d hash events clock s i event data :
  check_history d hash events clock = Ok s →
  events !! i = Some event → event.(RunEvent.iteration) = None → event.(RunEvent.payload) = RunEventPayload.RunOutcomeDecided data →
  ∃ si, from_events (take i events) = Ok si ∧
    ∀ fork projected, fork ∈ unwrap_or_default d.(CompiledWorkflowDefinition.graph).(CompiledWorkflowGraph.forks) →
      si.(ProjectionFoldState.projection).(RunProjection.forks) !! fork.(CompiledFork.fork_id) = Some projected →
      projected.(ForkProjection.join_status) ≠ ForkJoinStatus.Pending
      ∧ ∀ branch, branch ∈ fork.(CompiledFork.branches) →
          is_Some (projected.(ForkProjection.branches) !! branch.(CompiledForkBranch.branch_id)).
Proof.
  intros Hacc Hi Hit Hp. destruct (accepted_top _ _ _ _ _ Hacc i event Hi Hit) as (_ & st & st' & Hr).
  unfold check_rules in Hr. rewrite Hp in Hr. cbn beta iota zeta in Hr. unfold with_prefix, rule_outcome_decided in Hr.
  cbn in Hr. invert_ok. simplify_guards. simplify_eq.
  match goal with Hq : replay_at _ _ = Ok _ |- _ => apply replay_prefix in Hq as (si & Hsi & <-) end.
  exists si. split; [done|]. intros fork projected Hf Hpr.
  match goal with Hall : forallb _ _ = true |- _ =>
    rewrite forallb_forall in Hall; apply list_elem_of_In, Hall in Hf end.
  unfold fork_settled in Hf. rewrite Hpr in Hf. apply negb_true_iff, orb_false_iff in Hf as [Hj Hb].
  apply bool_decide_eq_false in Hj. split; [done|]. intros branch Hbr.
  destruct (contains_key projected.(ForkProjection.branches) branch.(CompiledForkBranch.branch_id)) eqn:Hck;
    [by apply contains_key_true in Hck as [? ?]|].
  exfalso. apply not_true_iff_false in Hb. apply Hb, existsb_exists. exists branch. split; [by apply list_elem_of_In|].
  by rewrite Hck.
Qed.
