(* ===== verification/ParallelChildren.v ===== *)
(** * Parallel children

    The child states of the history check follow the attempts of the projection,
    so that an accepted history never runs more attempts of a parallel group at a
    time than its concurrency allows. *)

From S2P Require Import Prelude GraphSearch Strings Json EventTypes ProjectionTypes Guards.
From S2P Require Import FoldRun FoldControlFlow FoldCorrection FoldApprovals FoldOperations.
From S2P Require Import FoldLifecycle IterationFold EventIdentities EventValidation Fold.
From S2P Require Import FoldFrames ValidationProperties HistoryProperties AttemptProperties.
From S2P Require Import ModelTypes EngineExternals ModelQueries Readiness ReadinessProperties.
From S2P Require Import Frontier FrontierProperties FrontierQueries DefinitionValidation.
From S2P Require Import HistoryRules CursorProperties AcceptedHistories.

(** ** Running nodes *)

(** The latest attempt of the node is running. *)
Definition running (p : RunProjection) (node_id : string) : bool :=
  is_some_and (latest_attempt p node_id) (λ (a : AttemptProjection), attempt_is_started a.(AttemptProjection.status)).

Section running.
Context `{Externals}.

(** A running attempt is the latest of its node. *)
Definition started_latest (attempts : list AttemptProjection) : Prop :=
  ∀ i a, attempts !! i = Some a → attempt_is_started a.(AttemptProjection.status) = true →
    latest_ordinals attempts !! attempt_node a = Some i.

Lemma latest_ordinals_snoc attempts a :
  latest_ordinals (attempts ++ [a]) = <[attempt_node a := length attempts]> (latest_ordinals attempts).
Proof. apply last_ordinals_snoc. Qed.

Lemma latest_ordinals_settle (attempts : list AttemptProjection) i a status :
  attempts !! i = Some a →
  latest_ordinals (<[i := a <|AttemptProjection.status := status|>]> attempts) = latest_ordinals attempts.
Proof.
  intros Hi. unfold latest_ordinals. rewrite !(last_ordinals_keys attempt_node), list_fmap_insert. f_equal.
  apply list_insert_id. by rewrite list_lookup_fmap, Hi.
Qed.

#[global] Instance started_latest_invariant : Invariant (λ s, started_latest s.(ProjectionFoldState.projection).(RunProjection.attempts)).
Proof.
  apply (field_invariant RunProjection.attempts touches_attempts); [by intros ? ? ?|].
  intros s event p' indexes' _ Hst _ Ht _ Hp.
  destruct (apply_payload_attempts _ _ _ _ _ _ _ Hp Ht) as [data Hpay _ Hprev _ _|key i a status _ Hi Hs Hns].
  - intros j b Hj Hb. rewrite latest_ordinals_snoc.
    apply lookup_app_Some in Hj as [Hj|[Hge Hj]].
    + rewrite lookup_insert_ne; [by apply Hst|]. cbn. intros Heq.
      pose proof (Hst j b Hj Hb) as Ho.
      assert (latest_attempt s.(ProjectionFoldState.projection) data.(StepAttemptStartedData.node_id) = Some b) as Hl.
      { unfold latest_attempt. rewrite <-latest_ordinals_attempt. unfold attempt_node in *. cbn in Heq. by rewrite Heq, Ho. }
      apply Hprev in Hl. congruence.
    + apply list_lookup_singleton_Some in Hj as [Hj <-]. rewrite lookup_insert_eq. f_equal. lia.
  - intros j b Hj Hb. rewrite latest_ordinals_settle by done.
    apply list_lookup_insert_Some in Hj as [(<- & <- & _)|[_ Hj]]; [|by apply Hst].
    cbn in Hb. congruence.
Qed.

(** Only a start makes a node run. *)
Lemma running_step s event s' c :
  reachable s → apply s event = Ok s' → running s'.(ProjectionFoldState.projection) c = true →
  running s.(ProjectionFoldState.projection) c = true
  ∨ event.(RunEvent.iteration) = None ∧ ∃ data, event.(RunEvent.payload) = RunEventPayload.StepAttemptStarted data
      ∧ data.(StepAttemptStartedData.node_id) = c.
Proof.
  intros Hr Ha. pose proof (invariant_holds _ s Hr : started_latest _) as Hst.
  destruct (touches_attempts event.(RunEvent.payload) && negb (in_iteration event)) eqn:Ht.
  2:{ unfold running, latest_attempt.
      rewrite (apply_untouched RunProjection.attempts touches_attempts _ _ _ Ha Ht). auto. }
  apply andb_true_iff in Ht as [Ht Hi%negb_true_iff]. destruct (apply_ok _ _ _ Ha) as [p' Happ].
  pose proof (dispatch_top _ _ _ _ (applied_dispatch _ _ _ _ Happ) Hi) as Hp. unfold running, latest_attempt.
  rewrite (apply_field RunProjection.attempts touches_attempts _ _ _ _ Happ).
  destruct (apply_payload_attempts _ _ _ _ _ _ _ Hp Ht) as [data Hpay _ _ _ _|key i a status _ Hl Hs Hns].
  - rewrite latest_attempt_snoc. case_decide as Hc; [|auto]. intros _. right. split; [|by exists data].
    unfold in_iteration in Hi. rewrite Hpay in Hi. by destruct event.(RunEvent.iteration).
  - left. rewrite <-latest_ordinals_attempt in *. rewrite latest_ordinals_settle in * by done.
    destruct (latest_ordinals _ !! c) as [j|]; [|done]. simpl in *.
    destruct (decide (i = j)) as [->|Hne]; [|by rewrite list_lookup_insert_ne in * by done].
    rewrite list_lookup_insert_eq in * by (by eapply lookup_lt_Some). simpl in *. congruence.
Qed.

(** Settling the attempt of a node ends it. *)
Lemma settled_not_running s event s' node :
  reachable s → apply s event = Ok s' → event.(RunEvent.iteration) = None →
  (∃ data, event.(RunEvent.payload) = RunEventPayload.StepAttemptSucceeded data ∧ data.(StepAttemptSucceededData.node_id) = node)
  ∨ (∃ data, event.(RunEvent.payload) = RunEventPayload.StepAttemptFailed data ∧ data.(StepAttemptFailedData.node_id) = node) →
  running s'.(ProjectionFoldState.projection) node = false.
Proof.
  intros Hr Ha Hit Hev. pose proof (invariant_holds _ s Hr : started_latest _) as Hst.
  pose proof (invariant_holds coherent s Hr) as Hco. destruct (apply_ok _ _ _ Ha) as [p' Happ].
  assert (in_iteration event = false) as Hi by (unfold in_iteration; by rewrite Hit).
  pose proof (dispatch_top _ _ _ _ (applied_dispatch _ _ _ _ Happ) Hi) as Hp. unfold running, latest_attempt.
  rewrite (apply_field RunProjection.attempts touches_attempts _ _ _ _ Happ). unfold apply_payload in Hp.
  destruct Hev as [(data & Hpay & <-)|(data & Hpay & <-)]; rewrite Hpay in Hp; cbn beta iota zeta in Hp;
    invert_handler Hp; simplify_guards; simplify_eq; cbn -[latest_attempt_in].
  all: match goal with Hx : _ !! ?key = Some ?i, Hl : _ !! ?i = Some ?a, Hs : attempt_is_started _ = true |- _ =>
    apply Hco in Hx; rewrite Hl in Hx; cbn in Hx; injection Hx as Hx; pose proof (Hst i a Hl Hs) as Ho;
    rewrite <-latest_ordinals_attempt, latest_ordinals_settle by done; unfold attempt_node in Ho; rewrite Hx in Ho; cbn in Ho;
    rewrite Ho; cbn; rewrite list_lookup_insert_eq by (by eapply lookup_lt_Some); done end.
Qed.

(** A node whose retry is scheduled does not run. *)
Lemma scheduled_not_running s event s' data :
  apply s event = Ok s' → event.(RunEvent.iteration) = None → event.(RunEvent.payload) = RunEventPayload.StepRetryScheduled data →
  running s'.(ProjectionFoldState.projection) data.(StepRetryScheduledData.node_id) = false.
Proof.
  intros Ha Hit Hpay. destruct (apply_ok _ _ _ Ha) as [p' Happ].
  assert (in_iteration event = false) as Hi by (unfold in_iteration; by rewrite Hit).
  pose proof (dispatch_top _ _ _ _ (applied_dispatch _ _ _ _ Happ) Hi) as Hp.
  unfold running, latest_attempt. rewrite (apply_untouched RunProjection.attempts touches_attempts _ _ _ Ha) by (by rewrite Hpay).
  unfold apply_payload in Hp. rewrite Hpay in Hp. cbn beta iota zeta in Hp. invert_handler Hp. simplify_guards. simplify_eq.
  match goal with Hl : is_some_and (latest_attempt _ _) _ = true |- _ => unfold latest_attempt in Hl end.
  destruct (latest_attempt_in _ _) as [a|]; [|done]. simpl in *. simplify_guards.
  by destruct (AttemptProjection.status a).
Qed.
End running.

(** ** Child states *)

(** A durable wait owns the node. *)
Definition is_wait_node (d : CompiledWorkflowDefinition) (node_id : string) : bool :=
  existsb (λ wait, wait_node_id wait == node_id) (unwrap_or_default d.(CompiledWorkflowDefinition.graph).(CompiledWorkflowGraph.waits)).

(** A child of a parallel group that runs attempts and does not wait. *)
Definition script_child (d : CompiledWorkflowDefinition) (parallel_id node_id : string) : bool :=
  ((ParallelGroupDefinition.parallel_id <$> parallel_group_for_child d node_id) == Some parallel_id)
  && negb (is_wait_node d node_id).

(** The children of a group whose attempt is running. *)
Definition running_children (d : CompiledWorkflowDefinition) (group : ParallelGroupDefinition) (p : RunProjection) : list string :=
  List.filter (λ c, script_child d group.(ParallelGroupDefinition.parallel_id) c && running p c) (remove_dups group.(ParallelGroupDefinition.child_node_ids)).

Lemma wait_node_owned d wait_id wait : durable_wait d wait_id = Some wait → is_wait_node d (wait_node_id wait) = true.
Proof.
  intros [Hin _]%find_Some_elem. apply existsb_exists. exists wait. split; [by apply list_elem_of_In|].
  by apply bool_decide_eq_true.
Qed.

Lemma parallel_group_id d id g : parallel_group d id = Some g → g.(ParallelGroupDefinition.parallel_id) = id.
Proof.
  unfold parallel_group. intros Hg. destruct (node _ _) as [n|]; [|done]. simpl in Hg. destruct (_ != _); [done|].
  destruct (object_fields _); [|done]. simpl in Hg. destruct (_ ≫= literal_u64); [|done]. simpl in Hg.
  destruct (_ ≫= literal_str); [|done]. simpl in Hg. by simplify_eq.
Qed.

Lemma group_for_child_parallel d c g :
  parallel_group_for_child d c = Some g → parallel_group d g.(ParallelGroupDefinition.parallel_id) = Some g.
Proof.
  unfold parallel_group_for_child. intros Hg. destruct (List.find _ _) as [e|]; [|done]. simpl in Hg.
  destruct e.(CompiledWorkflowEdge.parallel_id) as [id|]; [|done]. simpl in Hg. by rewrite (parallel_group_id _ _ _ Hg).
Qed.

Lemma running_children_default d group : running_children d group default_projection = [].
Proof. unfold running_children. induction (remove_dups _) as [|c l IH]; [done|]. simpl. by rewrite andb_false_r. Qed.

Section children.
Context `{Externals} `{EngineExternals} (d : CompiledWorkflowDefinition) (hash : string) (events : list RunEvent).
Context (clock : nat → DateTime).

(** Every running child is active. *)
Definition tracks (states : ChildStates) (p : RunProjection) : Prop :=
  ∀ c parallel_id, script_child d parallel_id c = true → running p c = true → states !! c = Some ParallelChildState.Active.

(** The children that a rule records. *)
Lemma record_child_lookup states node_id state c :
  c ≠ node_id → record_child d states node_id state !! c = states !! c.
Proof. intros Hne. unfold record_child. destruct (is_some _); [|done]. by rewrite lookup_insert_ne. Qed.

Lemma record_wait_lookup states wait_id state c :
  is_wait_node d c = false → record_wait d states wait_id state !! c = states !! c.
Proof.
  intros Hc. unfold record_wait. destruct (durable_wait d wait_id) as [w|] eqn:Hw; [|done].
  apply record_child_lookup. intros ->. apply wait_node_owned in Hw. congruence.
Qed.

(** What one checked event does to the child states. *)
Definition next_states (event : RunEvent) (states : ChildStates) : ChildStates :=
  if is_some event.(RunEvent.iteration) then states
  else
    match event.(RunEvent.payload) with
    | RunEventPayload.StepAttemptStarted data => record_child d states data.(StepAttemptStartedData.node_id) ParallelChildState.Active
    | RunEventPayload.StepAttemptSucceeded data => record_child d states data.(StepAttemptSucceededData.node_id) ParallelChildState.Succeeded
    | RunEventPayload.StepAttemptFailed data =>
        record_child d states data.(StepAttemptFailedData.node_id) (ParallelChildState.Failed data.(StepAttemptFailedData.failure).(AttemptFailure.kind))
    | RunEventPayload.StepRetryScheduled data => record_child d states data.(StepRetryScheduledData.node_id) ParallelChildState.RetryPending
    | RunEventPayload.WaitRegistered data => record_child d states data.(WaitRegisteredData.node_id) ParallelChildState.Active
    | RunEventPayload.WaitSatisfied data => record_wait d states data.(WaitSatisfiedData.wait_id) ParallelChildState.Succeeded
    | RunEventPayload.WaitTimedOut data => record_wait d states data.(WaitTimedOutData.wait_id)
        (if data.(WaitTimedOutData.behavior) == DurableWaitTimeoutBehavior.Continue then ParallelChildState.Succeeded
         else ParallelChildState.Failed AttemptFailureKind.ServiceFailed)
    | RunEventPayload.WaitCancelled data =>
        record_wait d states data.(WaitCancelledData.wait_id) (ParallelChildState.Failed AttemptFailureKind.InvocationCancelled)
    | _ => states
    end.

Lemma child_started_states data p states states' :
  rule_child_started d data p states = Ok states' →
  states' = record_child d states data.(StepAttemptStartedData.node_id) ParallelChildState.Active.
Proof. unfold rule_child_started, record_child. destruct (parallel_group_for_child d _); intros Hr; invert_ok; by simplify_eq. Qed.

Lemma checked_states i event states c states' :
  check_event d hash (H1 := replay_reader d hash) events (clock i) i event events states = Ok (c, states') →
  states' = next_states event states.
Proof.
  intros Hc. unfold check_event, next_states in *. destruct event.(RunEvent.iteration) as [scope|] eqn:Hit; cbn [is_some].
  { apply result_bind_ok in Hc as ([] & _ & Hc). destruct (iteration_boundary _) eqn:Hb; [|by simplify_eq/=].
    unfold check_rules in Hc. destruct event.(RunEvent.payload); try discriminate Hb; by simplify_eq/=. }
  apply result_bind_ok in Hc as ([] & _ & Hc). unfold check_rules in Hc. destruct event.(RunEvent.payload) eqn:Hp.
  all: try (by simplify_eq/=).
  all: cbv beta zeta in Hc; invert_ok; simplify_eq; try done.
  - unfold rule_attempt_started in Hc. cbn in Hc. invert_ok. simplify_eq. by eapply child_started_states.
  - match goal with Hr : rule_attempt_failed _ _ _ _ = Ok _ |- _ => unfold rule_attempt_failed in Hr; destruct (retry_policy_of _ _) end;
      invert_ok; by simplify_eq.
  - match goal with Hr : rule_retry_scheduled _ _ _ _ = Ok _ |- _ => unfold rule_retry_scheduled in Hr end; invert_ok; by simplify_eq.
Qed.

(** A running child stays recorded as active. *)
Lemma next_states_tracks s event s' states :
  reachable s → apply s event = Ok s' → tracks states s.(ProjectionFoldState.projection) →
  tracks (next_states event states) s'.(ProjectionFoldState.projection).
Proof.
  intros Hr Ha Ht c parallel_id Hc Hrun. pose proof Hc as [Hg Hw%negb_true_iff]%andb_true_iff.
  assert (is_some (parallel_group_for_child d c) = true) as Hchild.
  { destruct (parallel_group_for_child d c); [done|]. by apply bool_decide_eq_true in Hg. }
  assert (∀ node state, (node = c → state = ParallelChildState.Active ∨ running s'.(ProjectionFoldState.projection) c = false) →
    (node ≠ c → states !! c = Some ParallelChildState.Active) →
    record_child d states node state !! c = Some ParallelChildState.Active) as Hrec.
  { intros node state Hsame Hother. destruct (decide (node = c)) as [->|Hne].
    - destruct (Hsame eq_refl) as [->|?]; [|congruence]. unfold record_child. by rewrite Hchild, lookup_insert_eq.
    - rewrite record_child_lookup by done. by apply Hother. }
  assert (∀ wait_id state, states !! c = Some ParallelChildState.Active →
    record_wait d states wait_id state !! c = Some ParallelChildState.Active) as Hwait.
  { intros. by rewrite record_wait_lookup. }
  destruct (running_step _ _ _ c Hr Ha Hrun) as [Hold|(Hit & data & Hp & <-)].
  2:{ unfold next_states. rewrite Hit, Hp. apply Hrec; auto. congruence. }
  specialize (Ht c parallel_id Hc Hold). unfold next_states.
  destruct event.(RunEvent.iteration) eqn:Hit; [done|]. cbn [is_some].
  destruct event.(RunEvent.payload) eqn:Hp; try done; try (by apply Hwait); apply Hrec; auto; intros <-; right.
  - eapply settled_not_running; [done..|]. left. eauto.
  - eapply settled_not_running; [done..|]. right. eauto.
  - by eapply scheduled_not_running.
Qed.

(** ** The cap *)

Lemma filter_length_mono {A} (f g : A → bool) l :
  (∀ a, a ∈ l → f a = true → g a = true) → length (List.filter f l) ≤ length (List.filter g l).
Proof.
  induction l as [|a l IH]; intros Hfg; [done|]. simpl. specialize (IH (λ b Hb, Hfg b (list_elem_of_further _ _ _ Hb))).
  destruct (f a) eqn:Hf; [rewrite (Hfg a) by (done || left); simpl; lia|]. destruct (g a); simpl; lia.
Qed.

Lemma filter_length_add {A} (f g : A → bool) x l :
  NoDup l → (∀ a, a ∈ l → f a = true → a = x ∨ g a = true) →
  length (List.filter f l) ≤ S (length (List.filter g l)).
Proof.
  induction 1 as [|a l Ha Hl IH]; intros Hfg; [simpl; lia|]. simpl.
  destruct (f a) eqn:Hf; [|specialize (IH (λ b Hb, Hfg b (list_elem_of_further _ _ _ Hb))); destruct (g a); simpl; lia].
  destruct (g a) eqn:Hg; [specialize (IH (λ b Hb, Hfg b (list_elem_of_further _ _ _ Hb))); simpl; lia|].
  destruct (Hfg a (list_elem_of_here _ _) Hf) as [->|?]; [|congruence]. simpl. apply le_n_S, filter_length_mono.
  intros b Hb Hfb. destruct (Hfg b (list_elem_of_further _ _ _ Hb) Hfb) as [->|?]; [done|done].
Qed.

Lemma filter_remove_dups_le (f : string → bool) l : length (List.filter f (remove_dups l)) ≤ length (List.filter f l).
Proof.
  induction l as [|a l IH]; [done|]. simpl. destruct (decide_rel _ a l); simpl; destruct (f a); simpl; lia.
Qed.

Definition capped (p : RunProjection) : Prop :=
  ∀ parallel_id group, parallel_group d parallel_id = Some group →
    (N.of_nat (length (running_children d group p)) ≤ group.(ParallelGroupDefinition.concurrency))%N.

(** Nothing new runs in a group that the started node does not belong to. *)
Lemma running_children_mono group s event s' :
  reachable s → apply s event = Ok s' →
  (∀ data, event.(RunEvent.iteration) = None → event.(RunEvent.payload) = RunEventPayload.StepAttemptStarted data →
     script_child d group.(ParallelGroupDefinition.parallel_id) data.(StepAttemptStartedData.node_id) = false) →
  length (running_children d group s'.(ProjectionFoldState.projection)) ≤ length (running_children d group s.(ProjectionFoldState.projection)).
Proof.
  intros Hr Ha Hnew. apply filter_length_mono. intros c _ [Hc Hrun]%andb_true_iff.
  destruct (running_step _ _ _ c Hr Ha Hrun) as [Hold|(Hit & data & Hp & <-)]; [by rewrite Hc, Hold|].
  rewrite (Hnew data Hit Hp) in Hc. done.
Qed.

(** A start in a group that has room. *)
Lemma running_children_start group s event s' data states :
  reachable s → apply s event = Ok s' → event.(RunEvent.payload) = RunEventPayload.StepAttemptStarted data →
  tracks states s.(ProjectionFoldState.projection) →
  length (running_children d group s'.(ProjectionFoldState.projection))
  ≤ S (length (List.filter (child_is states ParallelChildState.Active) group.(ParallelGroupDefinition.child_node_ids))).
Proof.
  intros Hr Ha Hp Ht. etrans; [|apply le_n_S, filter_remove_dups_le].
  apply (filter_length_add _ _ data.(StepAttemptStartedData.node_id)); [apply NoDup_remove_dups|].
  intros c _ [Hc Hrun]%andb_true_iff.
  destruct (running_step _ _ _ c Hr Ha Hrun) as [Hold|(_ & data' & Hp' & <-)]; [|left; congruence].
  right. by apply bool_decide_eq_true, (Ht c _ Hc).
Qed.

Lemma checked_capped i event states states' s s' :
  check_event d hash (H1 := replay_reader d hash) events (clock i) i event events states = Ok (events, states') →
  reachable s → apply s event = Ok s' → tracks states s.(ProjectionFoldState.projection) → capped s.(ProjectionFoldState.projection) →
  capped s'.(ProjectionFoldState.projection).
Proof.
  intros Hc Hr Ha Ht Hcap parallel_id group Hg. specialize (Hcap _ _ Hg).
  assert (∀ data, event.(RunEvent.iteration) = None → event.(RunEvent.payload) = RunEventPayload.StepAttemptStarted data →
    script_child d group.(ParallelGroupDefinition.parallel_id) data.(StepAttemptStartedData.node_id) = true →
    (N.of_nat (length (running_children d group s'.(ProjectionFoldState.projection))) ≤ group.(ParallelGroupDefinition.concurrency))%N) as Hstart.
  { intros data Hit Hp Hchild. apply andb_true_iff in Hchild as [Hchild%bool_decide_eq_true _].
    pose proof (running_children_start group s event s' data states Hr Ha Hp Ht) as Hlen.
    unfold check_event in Hc. rewrite Hit in Hc. apply result_bind_ok in Hc as ([] & _ & Hc).
    unfold check_rules in Hc. rewrite Hp in Hc. unfold rule_attempt_started in Hc. cbn in Hc. invert_ok.
    match goal with Hs : rule_child_started _ _ _ _ = Ok _ |- _ => unfold rule_child_started in Hs;
      destruct (parallel_group_for_child d _) as [g|] eqn:Hgc in Hs end; [|by rewrite Hgc in Hchild].
    rewrite Hgc in Hchild. simpl in Hchild. apply group_for_child_parallel in Hgc.
    apply parallel_group_id in Hg as Hid. assert (g = group) as -> by congruence. invert_ok. simplify_guards. lia. }
  pose proof (running_children_mono group s event s' Hr Ha) as Hm.
  destruct event.(RunEvent.iteration) eqn:Hit; [specialize (Hm ltac:(congruence)); lia|].
  destruct event.(RunEvent.payload) eqn:Hp; try (specialize (Hm ltac:(congruence)); lia).
  destruct (script_child d group.(ParallelGroupDefinition.parallel_id) data.(StepAttemptStartedData.node_id)) eqn:Hchild;
    [by eapply Hstart|].
  assert (length (running_children d group s'.(ProjectionFoldState.projection)) ≤ length (running_children d group s.(ProjectionFoldState.projection))); [|lia].
  apply Hm. intros data' _ [= <-]. done.
Qed.

(** Along an accepted history, the states track the running children and the groups are capped. *)
Lemma accepted_tracks s i event :
  check_history d hash events clock = Ok s → events !! i = Some event →
  ∃ states states', (∀ si, from_events (take i events) = Ok si →
      tracks states si.(ProjectionFoldState.projection) ∧ capped si.(ProjectionFoldState.projection))
    ∧ check_event d hash (H1 := replay_reader d hash) events (clock i) i event events states = Ok (events, states').
Proof.
  intros Hacc Hi. eapply (accepted_event d hash events clock s Hacc (λ i states, ∀ si, from_events (take i events) = Ok si →
      tracks states si.(ProjectionFoldState.projection) ∧ capped si.(ProjectionFoldState.projection))); [| |done].
  - intros si [= <-]. split; [by intros ? ? ? ?|]. intros parallel_id group _.
    cbn. rewrite running_children_default. simpl. lia.
  - intros j ev states states' Hj HP Hc si Hsi. rewrite (take_S_r _ _ _ Hj) in Hsi.
    apply from_events_snoc in Hsi as (s0 & Hs0 & Ha). destruct (HP s0 Hs0) as [Ht Hcap].
    assert (reachable s0) as Hr by by eexists. split.
    + rewrite (checked_states _ _ _ _ _ Hc). by eapply next_states_tracks.
    + by eapply checked_capped.
Qed.
End children.

(** C6 Concurrency is capped: at every point of an accepted history, at most as many children of a
    parallel group have a running attempt as the compiled group allows (a child that a durable wait
    owns is not counted: waits do not take part in the cap). *)
Theorem accepted_concurrency_capped `{Externals} `{EngineExternals} d hash events clock s i si parallel_id group :
  check_history d hash events clock = Ok s →
  from_events (take i events) = Ok si → parallel_group d parallel_id = Some group →
  (N.of_nat (length (running_children d group si.(ProjectionFoldState.projection))) ≤ group.(ParallelGroupDefinition.concurrency))%N.
Proof.
  intros Hacc Hsi Hg. destruct (decide (i < length events)) as [Hlt|Hge].
  - destruct (lookup_lt_is_Some_2 events i Hlt) as [event Hi].
    destruct (accepted_tracks d hash events clock s i event Hacc Hi) as (st & st' & HP & _).
    destruct (HP si Hsi) as [_ Hcap]. by eapply Hcap.
  - rewrite take_ge in Hsi by lia. destruct events as [|e l] using rev_ind.
    + apply Ok_inj in Hsi as <-. cbn. rewrite running_children_default. simpl. lia.
    + clear IHl.
      assert ((l ++ [e]) !! length l = Some e) as Hi by (by rewrite lookup_app_r, Nat.sub_diag by lia).
      destruct (accepted_tracks d hash (l ++ [e]) clock s (length l) e Hacc Hi) as (st & st' & HP & Hc).
      rewrite take_app_length in HP. apply from_events_snoc in Hsi as (s0 & Hs0 & Ha). destruct (HP s0 Hs0) as [Ht Hcap].
      eapply checked_capped; [done|by eexists|done..].
Qed.

(** ** Outputs of children *)

Section outputs.
Context `{Externals}.

(** Outputs are never removed. *)
Lemma outputs_persist s event s' id :
  apply s event = Ok s' → has_output s.(ProjectionFoldState.projection) id = true → has_output s'.(ProjectionFoldState.projection) id = true.
Proof.
  intros Ha. unfold has_output. refine (apply_field_step RunProjection.context touches_context (λ a b,
    map_contains_key a.(WorkflowContext.steps) id = true → map_contains_key b.(WorkflowContext.steps) id = true) s event s' Ha _).
  { by intros ?. }
  intros p' _ Ht _ Hp Hout. unfold apply_payload in Hp.
  destruct event.(RunEvent.payload) eqn:Hpay; try discriminate Ht; cbn beta iota zeta in Hp; invert_handler Hp; simplify_eq; cbn;
    rewrite ?map_contains_key_insert, ?Hout, ?orb_true_r; try done.
  all: case_match; cbn; rewrite ?map_contains_key_insert, ?Hout, ?orb_true_r; done.
Qed.

Lemma success_publishes s event s' data :
  apply s event = Ok s' → event.(RunEvent.iteration) = None → event.(RunEvent.payload) = RunEventPayload.StepAttemptSucceeded data →
  has_output s'.(ProjectionFoldState.projection) data.(StepAttemptSucceededData.node_id) = true.
Proof.
  intros Ha Hit Hpay. destruct (apply_ok _ _ _ Ha) as [p' Happ].
  assert (in_iteration event = false) as Hi by (unfold in_iteration; by rewrite Hit).
  pose proof (dispatch_top _ _ _ _ (applied_dispatch _ _ _ _ Happ) Hi) as Hp. unfold has_output.
  rewrite (apply_field RunProjection.context touches_context _ _ _ _ Happ). unfold apply_payload in Hp. rewrite Hpay in Hp.
  cbn beta iota zeta in Hp. invert_handler Hp. simplify_eq. cbn. rewrite map_contains_key_insert.
  by rewrite bool_decide_true.
Qed.
End outputs.

Section group_success.
Context `{Externals} `{EngineExternals} (d : CompiledWorkflowDefinition) (hash : string) (events : list RunEvent).
Context (clock : nat → DateTime).

(** A child recorded as succeeded has published its output. *)
Definition published (states : ChildStates) (p : RunProjection) : Prop :=
  ∀ c, is_wait_node d c = false → states !! c = Some ParallelChildState.Succeeded → has_output p c = true.

Lemma record_child_Some states node state c x :
  record_child d states node state !! c = Some x → (c = node ∧ x = state) ∨ states !! c = Some x.
Proof.
  unfold record_child. destruct (is_some _); [|auto]. intros [[<- <-]|[_ ?]]%lookup_insert_Some; auto.
Qed.

Lemma next_states_published s event s' states :
  apply s event = Ok s' → published states s.(ProjectionFoldState.projection) → published (next_states d event states) s'.(ProjectionFoldState.projection).
Proof.
  intros Ha Hp c Hw. assert (∀ x, states !! c = Some x → x = ParallelChildState.Succeeded → has_output s'.(ProjectionFoldState.projection) c = true) as Hold.
  { intros x Hx ->. eapply outputs_persist; [done|]. by apply Hp. }
  unfold next_states. destruct event.(RunEvent.iteration) eqn:Hit; cbn [is_some]; [intros; by eapply Hold|].
  destruct event.(RunEvent.payload) eqn:Hpay; try (intros; by eapply Hold);
    try (rewrite record_wait_lookup by done; intros; by eapply Hold);
    intros [[-> Hx]|Hx]%record_child_Some; try (by eapply Hold); try discriminate Hx.
  by eapply success_publishes.
Qed.
End group_success.

(** Successful groups are complete: in an accepted history, when a parallel group of the main
    graph completes successfully, every child of the compiled group that no durable wait owns has
    published an output. *)
Theorem accepted_groups_complete `{Externals} `{EngineExternals} d hash events clock s i event data :
  check_history d hash events clock = Ok s →
  events !! i = Some event → event.(RunEvent.iteration) = None → event.(RunEvent.payload) = RunEventPayload.ParallelGroupCompleted data →
  data.(ParallelGroupCompletedData.outcome) = ParallelGroupOutcome.Succeeded →
  ∃ si group, from_events (take i events) = Ok si
    ∧ parallel_group d data.(ParallelGroupCompletedData.parallel_id) = Some group
    ∧ ∀ child, child ∈ group.(ParallelGroupDefinition.child_node_ids) → is_wait_node d child = false →
        has_output si.(ProjectionFoldState.projection) child = true.
Proof.
  intros Hacc Hi Hit Hp Hout.
  destruct (accepted_event d hash events clock s Hacc (λ i states, ∀ si, from_events (take i events) = Ok si →
      published d states si.(ProjectionFoldState.projection))) with (i := i) (event := event) as (states & states' & HP & Hc); [| |done|].
  - by intros si [= <-] c _ ?.
  - intros j ev st st' Hj HP Hc si Hsi. rewrite (take_S_r _ _ _ Hj) in Hsi.
    apply from_events_snoc in Hsi as (s0 & Hs0 & Ha). rewrite (checked_states _ _ _ _ _ _ _ _ _ Hc).
    eapply next_states_published; [done|]. by apply HP.
  - unfold check_event in Hc. rewrite Hit in Hc. apply result_bind_ok in Hc as ([] & _ & Hc).
    unfold check_rules in Hc. rewrite Hp in Hc. cbv beta iota zeta in Hc. unfold rule_group_completed in Hc. rewrite Hout in Hc.
    invert_ok. simplify_guards. destruct (accepted_prefix d hash events clock s Hacc i) as [si Hsi].
    eexists si, _. split_and!; [done..|]. intros child Hchild Hw. apply (HP si Hsi); [done|].
    match goal with Hall : forallb _ _ = true |- _ => rewrite forallb_forall in Hall;
      by apply list_elem_of_In, Hall, bool_decide_eq_true in Hchild end.
Qed.
