(* ===== verification/DagEngine.v ===== *)
(** * The in-memory engine

    engine.rs (InMemoryDagEngine) over store.rs (InMemoryEventStore), and
    [run_event_schema_version_for_model] of lib.rs.  An operation takes the state
    and returns the new one with its result; a failed operation returns an error
    and leaves the state as it was.  The times the code reads from the clock are
    arguments.

    Every history the engine stores was accepted by the definition check, and
    appending refines an append-only log. *)

From S2P Require Import Prelude GraphSearch Strings Json EventTypes ProjectionTypes Guards.
From S2P Require Import FoldRun FoldControlFlow FoldCorrection FoldApprovals FoldOperations.
From S2P Require Import FoldLifecycle IterationFold EventIdentities EventValidation Fold.
From S2P Require Import FoldFrames ValidationProperties HistoryProperties AttemptProperties.
From S2P Require Import ModelTypes EngineExternals ModelQueries ModelIssues ModelContracts.
From S2P Require Import GraphContracts ForkContracts TopologicalOrder LoopContracts.
From S2P Require Import DurableContracts ModelValidation Readiness ReadinessProperties.
From S2P Require Import ModelProperties DefinitionValidation HistoryRules.

(** [run_event_schema_version_for_model], lib.rs: the version of the events of a model. *)
Definition run_event_schema_version_for_model (model_schema_version : N) : N :=
  if (21 <=? model_schema_version)%N then 20
  else if (20 <=? model_schema_version)%N then 19
  else if (19 <=? model_schema_version)%N then 18
  else if (18 <=? model_schema_version)%N then 17
  else if (17 <=? model_schema_version)%N then 16
  else if (16 <=? model_schema_version)%N then 15
  else if (15 <=? model_schema_version)%N then 14
  else if (14 <=? model_schema_version)%N then 13
  else if (13 <=? model_schema_version)%N then 12
  else if (12 <=? model_schema_version)%N then 11
  else if (11 <=? model_schema_version)%N then 10
  else if (10 <=? model_schema_version)%N then 9
  else if (8 <=? model_schema_version)%N then 8
  else if (7 <=? model_schema_version)%N then 7
  else if (6 <=? model_schema_version)%N then 6
  else if (5 <=? model_schema_version)%N then 5
  else if (4 <=? model_schema_version)%N then 4
  else if (3 <=? model_schema_version)%N then 3
  else if (2 <=? model_schema_version)%N then 2
  else 1.

(** ** The store *)

(** [EventStoreError], store.rs. *)
Module EventStoreError.
Inductive EventStoreError :=
| DuplicateEventId (event_id : string)
| InvalidHistory (error : FoldError).
End EventStoreError.
Abbreviation EventStoreError := EventStoreError.EventStoreError.

(** [InMemoryEventStore], store.rs. *)
Module InMemoryEventStore.
Record InMemoryEventStore := mk {
  runs : gmap string (list RunEvent);
  event_ids : gset string;
  projections : gmap string ProjectionFoldState
}.
End InMemoryEventStore.
Abbreviation InMemoryEventStore := InMemoryEventStore.InMemoryEventStore.

Section store.
Context `{Externals}.

Definition empty_store : InMemoryEventStore := InMemoryEventStore.mk ∅ ∅ ∅.

(** [InMemoryEventStore::events]. *)
Definition store_events (store : InMemoryEventStore) (run_id : string) : list RunEvent :=
  default [] (store.(InMemoryEventStore.runs) !! run_id).

(** [InMemoryEventStore::projection]. *)
Definition store_projection (store : InMemoryEventStore) (run_id : string) : RunProjection :=
  match store.(InMemoryEventStore.projections) !! run_id with
  | None => default_projection
  | Some state => state.(ProjectionFoldState.projection)
  end.

(** [InMemoryEventStore::append]. *)
Definition store_append (store : InMemoryEventStore) (event : RunEvent) :
    result EventStoreError (InMemoryEventStore * RunProjection) :=
  if bool_decide (event.(RunEvent.event_id) ∈ store.(InMemoryEventStore.event_ids)) then Err (EventStoreError.DuplicateEventId event.(RunEvent.event_id))
  else
    let candidate := default default_state (store.(InMemoryEventStore.projections) !! event.(RunEvent.run_id)) in
    let? candidate := map_err EventStoreError.InvalidHistory (apply candidate event) in
    Ok (InMemoryEventStore.mk
          (<[event.(RunEvent.run_id) := store_events store event.(RunEvent.run_id) ++ [event]]> store.(InMemoryEventStore.runs))
          ({[event.(RunEvent.event_id)]} ∪ store.(InMemoryEventStore.event_ids))
          (<[event.(RunEvent.run_id) := candidate]> store.(InMemoryEventStore.projections)),
        candidate.(ProjectionFoldState.projection)).
End store.

(** ** The engine *)

(** [EngineError], engine.rs. *)
Module EngineError.
Inductive EngineError :=
| InvalidModel (error : ModelValidationError)
| EventStore (error : EventStoreError)
| Fold (error : FoldError)
| Contract (message : string).
End EngineError.
Abbreviation EngineError := EngineError.EngineError.

(** [InMemoryDagEngine], engine.rs. *)
Module InMemoryDagEngine.
Record InMemoryDagEngine := mk {
  workflow : CompiledWorkflowDefinition;
  definition_hash : string;
  store : InMemoryEventStore
}.
End InMemoryDagEngine.
Abbreviation InMemoryDagEngine := InMemoryDagEngine.InMemoryDagEngine.

Section engine.
Context `{Externals} `{EngineExternals}.

(** The tail of both constructors. *)
Definition engine_of (workflow : CompiledWorkflowDefinition) (definition_hash : string) :
    result EngineError InMemoryDagEngine :=
  check fail_if (negb (is_definition_hash definition_hash))
    (EngineError.Contract "The engine requires a valid RFC 8785 SHA-256 definition hash.");
  Ok (InMemoryDagEngine.mk workflow definition_hash empty_store).

(** [InMemoryDagEngine::new]. *)
Definition engine_new (workflow : CompiledWorkflowDefinition) (definition_hash : string) :
    result EngineError InMemoryDagEngine :=
  check map_err EngineError.InvalidModel (validate_for_execution workflow);
  engine_of workflow definition_hash.

(** [InMemoryDagEngine::new_for_event_history]. *)
Definition engine_new_for_event_history (workflow : CompiledWorkflowDefinition) (definition_hash : string) :
    result EngineError InMemoryDagEngine :=
  check map_err EngineError.InvalidModel (validate_structure workflow);
  engine_of workflow definition_hash.

(** [InMemoryDagEngine::projection]. *)
Definition engine_projection (engine : InMemoryDagEngine) (run_id : string) : RunProjection :=
  store_projection engine.(InMemoryDagEngine.store) run_id.

(** [InMemoryDagEngine::ready_node_ids]; [now] is [Utc::now()]. *)
Definition engine_ready_node_ids (engine : InMemoryDagEngine) (run_id : string) (now : DateTime) :
    result EngineError (list string) :=
  let projection := engine_projection engine run_id in
  if projection.(RunProjection.status) != RunStatus.Running then Ok []
  else
    check fail_if ((projection.(RunProjection.workflow_id) != Some engine.(InMemoryDagEngine.workflow).(CompiledWorkflowDefinition.workflow_id))
                   || (projection.(RunProjection.definition_hash) != Some engine.(InMemoryDagEngine.definition_hash)))
      (EngineError.Contract "The run is not bound to this compiled workflow definition.");
    map_err EngineError.Contract (definition_ready_at engine.(InMemoryDagEngine.workflow) engine.(InMemoryDagEngine.definition_hash) projection now).

(** The checks of [append_event] that look at the payload and the state of the run. *)
Definition check_append (engine : InMemoryDagEngine) (event : RunEvent) (now : DateTime) : result EngineError unit :=
  match event.(RunEvent.payload) with
  | RunEventPayload.StepAttemptStarted data =>
      let? ready := engine_ready_node_ids engine event.(RunEvent.run_id) now in
      fail_if (negb (existsb (λ node_id, node_id == data.(StepAttemptStartedData.node_id)) ready))
        (EngineError.Contract "Node {:?} is not ready for execution.")
  | RunEventPayload.BranchSelected data =>
      check fail_if (contains_key (engine_projection engine event.(RunEvent.run_id)).(RunProjection.branch_selections) data.(BranchSelectedData.branch_id))
        (EngineError.Contract "Branch {:?} already has an immutable selection.");
      let? ready := engine_ready_node_ids engine event.(RunEvent.run_id) now in
      fail_if (negb (existsb (λ node_id, node_id == branch_selector_id data.(BranchSelectedData.branch_id)) ready))
        (EngineError.Contract "Branch selector {selector_id:?} is not ready for selection.")
  | _ => Ok tt
  end.

(** [InMemoryDagEngine::append_event]; [now] is the time of the readiness query, [clock] the times
    of the history check. *)
Definition append_event (engine : InMemoryDagEngine) (event : RunEvent) (now : DateTime) (clock : nat → DateTime) :
    result EngineError (InMemoryDagEngine * RunProjection) :=
  check fail_if (event.(RunEvent.event_schema_version) != run_event_schema_version_for_model engine.(InMemoryDagEngine.workflow).(CompiledWorkflowDefinition.schema_version))
    (EngineError.Contract "Compiled model v{} requires run-event schema v{expected_version}, received v{}.");
  check map_err EngineError.Contract
    (validate_payload_against_definition engine.(InMemoryDagEngine.workflow) engine.(InMemoryDagEngine.definition_hash) event.(RunEvent.payload));
  check check_append engine event now;
  let candidate := store_events engine.(InMemoryDagEngine.store) event.(RunEvent.run_id) ++ [event] in
  let? _ := map_err EngineError.Contract (check_history engine.(InMemoryDagEngine.workflow) engine.(InMemoryDagEngine.definition_hash) candidate clock) in
  let? appended := map_err EngineError.EventStore (store_append engine.(InMemoryDagEngine.store) event) in
  Ok (InMemoryDagEngine.mk engine.(InMemoryDagEngine.workflow) engine.(InMemoryDagEngine.definition_hash) appended.1, appended.2).

(** [InMemoryDagEngine::start_run]. *)
Definition start_run (engine : InMemoryDagEngine) (event_id run_id : string) (occurred_at : DateTime) (trigger : Map)
    (now : DateTime) (clock : nat → DateTime) : result EngineError (InMemoryDagEngine * RunProjection) :=
  append_event engine
    {| RunEvent.event_schema_version := run_event_schema_version_for_model engine.(InMemoryDagEngine.workflow).(CompiledWorkflowDefinition.schema_version);
       RunEvent.event_id := event_id;
       RunEvent.run_id := run_id;
       RunEvent.sequence := 1;
       RunEvent.occurred_at := occurred_at;
       RunEvent.iteration := None;
       RunEvent.payload := RunEventPayload.RunStarted (RunStartedData.mk engine.(InMemoryDagEngine.workflow).(CompiledWorkflowDefinition.workflow_id) engine.(InMemoryDagEngine.definition_hash)
         None None None None trigger) |} now clock.
End engine.

Section engine.
Context `{Externals} `{EngineExternals}.

(** The engines that the public operations produce; [start_run] appends an event. *)
Inductive engine_reachable : InMemoryDagEngine → Prop :=
| reach_new workflow hash engine : engine_new workflow hash = Ok engine → engine_reachable engine
| reach_new_for_event_history workflow hash engine :
    engine_new_for_event_history workflow hash = Ok engine → engine_reachable engine
| reach_append engine event now clock engine' projection :
    engine_reachable engine → append_event engine event now clock = Ok (engine', projection) →
    engine_reachable engine'.

Abbreviation runs_of engine := engine.(InMemoryDagEngine.store).(InMemoryEventStore.runs).
Abbreviation ids_of engine := engine.(InMemoryDagEngine.store).(InMemoryEventStore.event_ids).
Abbreviation states_of engine := engine.(InMemoryDagEngine.store).(InMemoryEventStore.projections).

(** What holds of the history of each run. *)
Definition run_ok (engine : InMemoryDagEngine) (run_id : string) (events : list RunEvent) : Prop :=
  events ≠ [] ∧ (∀ event, event ∈ events → event.(RunEvent.run_id) = run_id ∧ event.(RunEvent.event_id) ∈ ids_of engine)
  ∧ ∃ clock state, check_history engine.(InMemoryDagEngine.workflow) engine.(InMemoryDagEngine.definition_hash) events clock = Ok state
      ∧ states_of engine !! run_id = Some state.

Record engine_ok (engine : InMemoryDagEngine) : Prop := {
  engine_valid : validate_structure engine.(InMemoryDagEngine.workflow) = Ok tt;
  engine_runs : ∀ run_id events, runs_of engine !! run_id = Some events → run_ok engine run_id events;
  engine_no_run : ∀ run_id, runs_of engine !! run_id = None → states_of engine !! run_id = None;
}.

Lemma check_history_fold d hash events clock state : check_history d hash events clock = Ok state → from_events events = Ok state.
Proof.
  unfold check_history. intros Hc. apply result_bind_ok in Hc as (s & Hs%map_err_ok & Hc).
  apply result_bind_ok in Hc as (u & _ & Heq). by apply Ok_inj in Heq as <-.
Qed.

(** The state of a run is the fold of its history. *)
Lemma engine_state engine run_id :
  engine_ok engine →
  from_events (store_events engine.(InMemoryDagEngine.store) run_id) = Ok (default default_state (states_of engine !! run_id)).
Proof.
  intros [_ Hruns Hnone]. unfold store_events. destruct (runs_of engine !! run_id) as [events|] eqn:Hr.
  - destruct (Hruns _ _ Hr) as (_ & _ & clock & state & Hc & ->). simpl.
    by apply check_history_fold in Hc.
  - by rewrite (Hnone _ Hr).
Qed.

(** The parts of a successful append. *)
Lemma append_event_ok engine event now clock engine' projection :
  append_event engine event now clock = Ok (engine', projection) →
  ∃ state store, check_history engine.(InMemoryDagEngine.workflow) engine.(InMemoryDagEngine.definition_hash)
      (store_events engine.(InMemoryDagEngine.store) event.(RunEvent.run_id) ++ [event]) clock = Ok state
    ∧ store_append engine.(InMemoryDagEngine.store) event = Ok (store, projection)
    ∧ engine' = InMemoryDagEngine.mk engine.(InMemoryDagEngine.workflow) engine.(InMemoryDagEngine.definition_hash) store.
Proof.
  unfold append_event. intros Ha. apply result_bind_ok in Ha as (_ & _ & Ha). apply result_bind_ok in Ha as (_ & _ & Ha).
  apply result_bind_ok in Ha as (_ & _ & Ha). apply result_bind_ok in Ha as (state & Hs%map_err_ok & Ha).
  apply result_bind_ok in Ha as ([store p] & Hst%map_err_ok & Ha). apply Ok_inj in Ha. simplify_eq/=. eauto 10.
Qed.

(** The store appends what the fold accepts, unless the identifier was used before. *)
Lemma store_append_state engine event state :
  engine_ok engine →
  from_events (store_events engine.(InMemoryDagEngine.store) event.(RunEvent.run_id) ++ [event]) = Ok state →
  store_append engine.(InMemoryDagEngine.store) event =
    if bool_decide (event.(RunEvent.event_id) ∈ ids_of engine)
    then Err (EventStoreError.DuplicateEventId event.(RunEvent.event_id))
    else Ok (InMemoryEventStore.mk
      (<[event.(RunEvent.run_id) := store_events engine.(InMemoryDagEngine.store) event.(RunEvent.run_id) ++ [event]]> (runs_of engine))
      ({[event.(RunEvent.event_id)]} ∪ ids_of engine)
      (<[event.(RunEvent.run_id) := state]> (states_of engine)), state.(ProjectionFoldState.projection)).
Proof.
  intros Hok (s & Hs & Ha)%from_events_snoc. rewrite (engine_state engine _ Hok) in Hs. apply Ok_inj in Hs as <-.
  unfold store_append. case_bool_decide; [done|]. rewrite Ha. done.
Qed.

Lemma engine_append_ok engine event now clock engine' projection :
  engine_ok engine → append_event engine event now clock = Ok (engine', projection) → engine_ok engine'.
Proof.
  intros Hok (state & store & Hc & Hst & ->)%append_event_ok.
  apply check_history_fold in Hc as Hf.
  rewrite (store_append_state _ _ _ Hok Hf) in Hst. case_bool_decide as Hid; [done|]. apply Ok_inj in Hst. injection Hst as <- <-.
  assert (∀ e, e ∈ store_events engine.(InMemoryDagEngine.store) event.(RunEvent.run_id) →
            e.(RunEvent.run_id) = event.(RunEvent.run_id) ∧ e.(RunEvent.event_id) ∈ ids_of engine) as Hold.
  { unfold store_events. destruct (runs_of engine !! _) as [events|] eqn:Hr; [|set_solver]. apply (engine_runs _ Hok _ _ Hr). }
  split; simpl.
  - apply Hok.
  - intros run_id events Hr. destruct (decide (run_id = event.(RunEvent.run_id))) as [->|Hne].
    + rewrite lookup_insert_eq in Hr. injection Hr as <-. split_and!; [by destruct (store_events _ _)| |].
      * intros e [He%Hold|He%list_elem_of_singleton]%elem_of_app; simpl; [set_solver|]. subst e. set_solver.
      * exists clock, state. simpl. by rewrite lookup_insert_eq.
    + rewrite lookup_insert_ne in Hr by done. destruct (engine_runs _ Hok _ _ Hr) as (? & Hin & c & s & ? & ?).
      split_and!; [done| |].
      * intros e He. destruct (Hin e He). simpl. set_solver.
      * exists c, s. simpl. by rewrite lookup_insert_ne.
  - intros run_id Hr. destruct (decide (run_id = event.(RunEvent.run_id))) as [->|Hne].
    + by rewrite lookup_insert_eq in Hr.
    + rewrite lookup_insert_ne in Hr by done. rewrite lookup_insert_ne by done. by apply Hok.
Qed.

Lemma engine_of_ok workflow hash engine :
  validate_structure workflow = Ok tt → engine_of workflow hash = Ok engine → engine_ok engine.
Proof.
  intros Hv He. unfold engine_of in He. apply result_bind_ok in He as (_ & _ & He). apply Ok_inj in He as <-.
  split; [done| |]; simpl; intros run_id *; rewrite lookup_empty; done.
Qed.

Lemma validate_for_execution_structure workflow u : validate_for_execution workflow = Ok u → validate_structure workflow = Ok tt.
Proof. unfold validate_for_execution, validate_structure. by destruct (inspect_structure workflow). Qed.

Lemma reachable_engine_ok engine : engine_reachable engine → engine_ok engine.
Proof.
  induction 1 as [workflow hash engine He|workflow hash engine He|].
  - unfold engine_new in He. apply result_bind_ok in He as (u & Hv%map_err_ok%validate_for_execution_structure & He).
    by eapply engine_of_ok.
  - unfold engine_new_for_event_history in He. apply result_bind_ok in He as ([] & Hv%map_err_ok & He).
    by eapply engine_of_ok.
  - by eapply engine_append_ok.
Qed.

(** ** Errors *)

(** The errors of a computation are contract errors. *)
Definition contract_errors {A} (m : result EngineError A) : Prop :=
  ∀ error, m = Err error → ∃ message, error = EngineError.Contract message.

Lemma contract_errors_bind {A B} (k : A → result EngineError B) m :
  contract_errors m → (∀ a, contract_errors (k a)) → contract_errors (result_bind k m).
Proof using Type. intros Hm Hk error. destruct m as [a|e|]; simpl; [apply Hk| |done]. intros [= ->]. by apply Hm. Qed.

Lemma contract_errors_fail_if c message : contract_errors (fail_if c (EngineError.Contract message)).
Proof using Type. intros error. destruct c; simpl; [|done]. intros [= <-]. eauto. Qed.

Lemma contract_errors_map {A} (m : result string A) : contract_errors (map_err EngineError.Contract m).
Proof using Type. intros error. destruct m; simpl; [done| |done]. intros [= <-]. eauto. Qed.

Lemma contract_errors_ok {A} (a : A) : contract_errors (Ok a).
Proof using Type. by intros ?. Qed.

Lemma check_append_errors engine event now : contract_errors (check_append engine event now).
Proof using Type.
  assert (∀ run_id, contract_errors (engine_ready_node_ids engine run_id now)) as Hready.
  { intros run_id. unfold engine_ready_node_ids. case_match; [apply contract_errors_ok|].
    apply contract_errors_bind; [apply contract_errors_fail_if|]. intros []. apply contract_errors_map. }
  unfold check_append. destruct event.(RunEvent.payload); try apply contract_errors_ok.
  - apply contract_errors_bind; [apply Hready|]. intros ready. apply contract_errors_fail_if.
  - apply contract_errors_bind; [apply contract_errors_fail_if|]. intros [].
    apply contract_errors_bind; [apply Hready|]. intros ready. apply contract_errors_fail_if.
Qed.

(** An append that does not succeed fails with a contract error, or in the store after all checks. *)
Lemma append_event_err engine event now clock error :
  append_event engine event now clock = Err error →
  (∃ message, error = EngineError.Contract message)
  ∨ ∃ state store_error, check_history engine.(InMemoryDagEngine.workflow) engine.(InMemoryDagEngine.definition_hash)
        (store_events engine.(InMemoryDagEngine.store) event.(RunEvent.run_id) ++ [event]) clock = Ok state
      ∧ store_append engine.(InMemoryDagEngine.store) event = Err store_error ∧ error = EngineError.EventStore store_error.
Proof using Type.
  unfold append_event. set (history := _ ++ [event]).
  destruct (fail_if _ _) as [[]|e|] eqn:Hv; simpl; [| |done].
  2: { intros [= ->]. left. by eapply contract_errors_fail_if. }
  destruct (map_err _ (validate_payload_against_definition _ _ _)) as [[]|e|] eqn:Hp; simpl; [| |done].
  2: { intros [= ->]. left. by eapply contract_errors_map. }
  destruct (check_append engine event now) as [[]|e|] eqn:Hc; simpl; [| |done].
  2: { intros [= ->]. left. by eapply check_append_errors. }
  destruct (check_history _ _ history clock) as [state|e|] eqn:Hh; simpl; [| |done].
  2: { intros [= <-]. left. eauto. }
  destruct (store_append _ event) as [[store p]|e|] eqn:Hs; simpl; [done| |done].
  intros [= <-]. right. eauto.
Qed.
End engine.

(** C2 The engine keeps accepted histories: in every engine that its operations can reach, the
    definition is valid, each run has a non-empty history of its own events that the definition check
    accepts, and the state kept for the run is the fold of that history. *)
Theorem engine_histories_accepted `{Externals} `{EngineExternals} engine :
  engine_reachable engine →
  validate_structure engine.(InMemoryDagEngine.workflow) = Ok tt
  ∧ ∀ run_id events, engine.(InMemoryDagEngine.store).(InMemoryEventStore.runs) !! run_id = Some events →
      events ≠ [] ∧ (∀ event, event ∈ events → event.(RunEvent.run_id) = run_id)
      ∧ ∃ clock state, check_history engine.(InMemoryDagEngine.workflow) engine.(InMemoryDagEngine.definition_hash) events clock = Ok state
          ∧ engine_projection engine run_id = state.(ProjectionFoldState.projection).
Proof.
  intros Hok%reachable_engine_ok. split; [apply Hok|]. intros run_id events Hr.
  destruct (engine_runs _ Hok _ _ Hr) as (Hne & Hin & clock & state & Hc & Hs). split_and!; [done| |].
  - intros event He. by apply Hin.
  - exists clock, state. split; [done|]. unfold engine_projection, store_projection. by rewrite Hs.
Qed.

(** C7 Appending refines a log: an append to a reachable engine either fails and changes nothing, or
    adds the event at the end of the history of its run, returns the fold of the new history, and
    leaves the definition and the other runs alone.  The store refuses an event that the checks
    accepted only when its identifier was used before. *)
Theorem append_refines_log `{Externals} `{EngineExternals} engine event now clock :
  engine_reachable engine →
  let history := store_events engine.(InMemoryDagEngine.store) event.(RunEvent.run_id) in
  match append_event engine event now clock with
  | Ok (engine', projection) =>
      fold_events (history ++ [event]) = Ok projection
      ∧ event.(RunEvent.event_id) ∉ engine.(InMemoryDagEngine.store).(InMemoryEventStore.event_ids)
      ∧ engine'.(InMemoryDagEngine.workflow) = engine.(InMemoryDagEngine.workflow)
      ∧ engine'.(InMemoryDagEngine.definition_hash) = engine.(InMemoryDagEngine.definition_hash)
      ∧ engine'.(InMemoryDagEngine.store).(InMemoryEventStore.runs)
        = <[event.(RunEvent.run_id) := history ++ [event]]> engine.(InMemoryDagEngine.store).(InMemoryEventStore.runs)
  | Err (EngineError.EventStore error) =>
      error = EventStoreError.DuplicateEventId event.(RunEvent.event_id)
      ∧ event.(RunEvent.event_id) ∈ engine.(InMemoryDagEngine.store).(InMemoryEventStore.event_ids)
  | _ => True
  end.
Proof.
  intros Hok%reachable_engine_ok history. destruct (append_event engine event now clock) as [[engine' projection]|error|] eqn:Ha; [| |done].
  - apply append_event_ok in Ha as (state & store & Hc & Hst & ->). apply check_history_fold in Hc as Hf.
    rewrite (store_append_state _ _ _ Hok Hf) in Hst. case_bool_decide as Hid; [done|]. apply Ok_inj in Hst. injection Hst as <- <-.
    split_and!; [|done..]. unfold fold_events, history. by rewrite Hf.
  - apply append_event_err in Ha as [[message ->]|(state & store_error & Hc & Hst & ->)]; [done|].
    apply check_history_fold in Hc as Hf. rewrite (store_append_state _ _ _ Hok Hf) in Hst.
    case_bool_decide as Hid; [|done]. by injection Hst as <-.
Qed.
