(* ===== verification/PolicyTypes.v ===== *)
(** * Types of infrastructure policies

    infrastructure_policy.rs and infrastructure_policy_runtime.rs: policy bundles,
    the descriptors of operations, the evidence and the evaluator; and the request
    types of capability/contracts.rs they refer to.  Decisions, effects and
    execution modes are in EventTypes.v, because events record them. *)

From S2P Require Import Prelude Json EventTypes.

(** ** Policy bundles *)

(** [InfrastructurePolicyDefaultV1], infrastructure_policy.rs. *)
Module InfrastructurePolicyDefaultV1.
Inductive InfrastructurePolicyDefaultV1 :=
| Allow
| Deny.
#[global] Instance InfrastructurePolicyDefaultV1_eq_dec : EqDecision InfrastructurePolicyDefaultV1.
Proof. solve_decision. Defined.
End InfrastructurePolicyDefaultV1.
Abbreviation InfrastructurePolicyDefaultV1 := InfrastructurePolicyDefaultV1.InfrastructurePolicyDefaultV1.

(** [InfrastructurePolicyDecisionV1], infrastructure_policy.rs. *)
Module InfrastructurePolicyDecisionV1.
Inductive InfrastructurePolicyDecisionV1 :=
| Allow
| Deny.
#[global] Instance InfrastructurePolicyDecisionV1_eq_dec : EqDecision InfrastructurePolicyDecisionV1.
Proof. solve_decision. Defined.
End InfrastructurePolicyDecisionV1.
Abbreviation InfrastructurePolicyDecisionV1 := InfrastructurePolicyDecisionV1.InfrastructurePolicyDecisionV1.

(** [InfrastructurePolicySignatureV1], infrastructure_policy.rs. *)
Module InfrastructurePolicySignatureV1.
Record InfrastructurePolicySignatureV1 := mk {
  algorithm : string;
  key_id : string;
  value : string
}.
#[global] Instance InfrastructurePolicySignatureV1_eq_dec : EqDecision InfrastructurePolicySignatureV1.
Proof. solve_decision. Defined.
End InfrastructurePolicySignatureV1.
Abbreviation InfrastructurePolicySignatureV1 := InfrastructurePolicySignatureV1.InfrastructurePolicySignatureV1.

(** [InfrastructurePolicyDefaultsV1], infrastructure_policy.rs. *)
Module InfrastructurePolicyDefaultsV1.
Record InfrastructurePolicyDefaultsV1 := mk {
  read : InfrastructurePolicyDefaultV1;
  idempotent_write : InfrastructurePolicyDefaultV1;
  unsafe_write : InfrastructurePolicyDefaultV1
}.
#[global] Instance InfrastructurePolicyDefaultsV1_eq_dec : EqDecision InfrastructurePolicyDefaultsV1.
Proof. solve_decision. Defined.
End InfrastructurePolicyDefaultsV1.
Abbreviation InfrastructurePolicyDefaultsV1 := InfrastructurePolicyDefaultsV1.InfrastructurePolicyDefaultsV1.

(** [InfrastructurePolicyRuleMatchV1], infrastructure_policy.rs. *)
Module InfrastructurePolicyRuleMatchV1.
Record InfrastructurePolicyRuleMatchV1 := mk {
  capabilities : option (list string);
  operations : option (list string);
  effects : option (list InfrastructurePolicyEffectV1);
  workflows : option (list string);
  targets : option (list string);
  executables : option (list string);
  argument_prefix : option (list string);
  execution_modes : option (list InfrastructurePolicyExecutionModeV1)
}.
#[global] Instance InfrastructurePolicyRuleMatchV1_eq_dec : EqDecision InfrastructurePolicyRuleMatchV1.
Proof. solve_decision. Defined.
End InfrastructurePolicyRuleMatchV1.
Abbreviation InfrastructurePolicyRuleMatchV1 := InfrastructurePolicyRuleMatchV1.InfrastructurePolicyRuleMatchV1.

(** [InfrastructurePolicyApprovalRequirementV1], infrastructure_policy.rs. *)
Module InfrastructurePolicyApprovalRequirementV1.
Record InfrastructurePolicyApprovalRequirementV1 := mk {
  minimum : N;
  roles : list string;
  bind_review_digest : bool;
  max_age_ms : N
}.
#[global] Instance InfrastructurePolicyApprovalRequirementV1_eq_dec : EqDecision InfrastructurePolicyApprovalRequirementV1.
Proof. solve_decision. Defined.
End InfrastructurePolicyApprovalRequirementV1.
Abbreviation InfrastructurePolicyApprovalRequirementV1 := InfrastructurePolicyApprovalRequirementV1.InfrastructurePolicyApprovalRequirementV1.

(** [InfrastructurePolicyArtifactRequirementV1], infrastructure_policy.rs. *)
Module InfrastructurePolicyArtifactRequirementV1.
Record InfrastructurePolicyArtifactRequirementV1 := mk {
  minimum : N;
  verified_integrity : bool;
  bind_review_digest : bool
}.
#[global] Instance InfrastructurePolicyArtifactRequirementV1_eq_dec : EqDecision InfrastructurePolicyArtifactRequirementV1.
Proof. solve_decision. Defined.
End InfrastructurePolicyArtifactRequirementV1.
Abbreviation InfrastructurePolicyArtifactRequirementV1 := InfrastructurePolicyArtifactRequirementV1.InfrastructurePolicyArtifactRequirementV1.

(** [InfrastructurePolicyLockRequirementV1], infrastructure_policy.rs. *)
Module InfrastructurePolicyLockRequirementV1.
Record InfrastructurePolicyLockRequirementV1 := mk {
  key : string;
  minimum_remaining_ms : N
}.
#[global] Instance InfrastructurePolicyLockRequirementV1_eq_dec : EqDecision InfrastructurePolicyLockRequirementV1.
Proof. solve_decision. Defined.
End InfrastructurePolicyLockRequirementV1.
Abbreviation InfrastructurePolicyLockRequirementV1 := InfrastructurePolicyLockRequirementV1.InfrastructurePolicyLockRequirementV1.

(** [InfrastructurePolicyValidityRequirementV1], infrastructure_policy.rs. *)
Module InfrastructurePolicyValidityRequirementV1.
Record InfrastructurePolicyValidityRequirementV1 := mk {
  not_before : string;
  not_after : string
}.
#[global] Instance InfrastructurePolicyValidityRequirementV1_eq_dec : EqDecision InfrastructurePolicyValidityRequirementV1.
Proof. solve_decision. Defined.
End InfrastructurePolicyValidityRequirementV1.
Abbreviation InfrastructurePolicyValidityRequirementV1 := InfrastructurePolicyValidityRequirementV1.InfrastructurePolicyValidityRequirementV1.

(** [InfrastructurePolicyRequirementsV1], infrastructure_policy.rs. *)
Module InfrastructurePolicyRequirementsV1.
Record InfrastructurePolicyRequirementsV1 := mk {
  approval : option InfrastructurePolicyApprovalRequirementV1;
  artifacts : option InfrastructurePolicyArtifactRequirementV1;
  lock : option InfrastructurePolicyLockRequirementV1;
  valid_between : option InfrastructurePolicyValidityRequirementV1
}.
#[global] Instance InfrastructurePolicyRequirementsV1_eq_dec : EqDecision InfrastructurePolicyRequirementsV1.
Proof. solve_decision. Defined.
End InfrastructurePolicyRequirementsV1.
Abbreviation InfrastructurePolicyRequirementsV1 := InfrastructurePolicyRequirementsV1.InfrastructurePolicyRequirementsV1.

(** [InfrastructurePolicyRuleV1], infrastructure_policy.rs. *)
Module InfrastructurePolicyRuleV1.
Record InfrastructurePolicyRuleV1 := mk {
  id : string;
  description : option string;
  matcher : InfrastructurePolicyRuleMatchV1;
  decision : InfrastructurePolicyDecisionV1;
  requires : option InfrastructurePolicyRequirementsV1
}.
#[global] Instance InfrastructurePolicyRuleV1_eq_dec : EqDecision InfrastructurePolicyRuleV1.
Proof. solve_decision. Defined.
End InfrastructurePolicyRuleV1.
Abbreviation InfrastructurePolicyRuleV1 := InfrastructurePolicyRuleV1.InfrastructurePolicyRuleV1.

(** [InfrastructurePolicyBundleV1], infrastructure_policy.rs. *)
Module InfrastructurePolicyBundleV1.
Record InfrastructurePolicyBundleV1 := mk {
  contract : string;
  contract_version : N;
  id : string;
  version : string;
  environment : string;
  defaults : InfrastructurePolicyDefaultsV1;
  rules : list InfrastructurePolicyRuleV1;
  signature : option InfrastructurePolicySignatureV1
}.
#[global] Instance InfrastructurePolicyBundleV1_eq_dec : EqDecision InfrastructurePolicyBundleV1.
Proof. solve_decision. Defined.
#[global] Instance InfrastructurePolicyBundleV1_eta : Eta InfrastructurePolicyBundleV1 := λ r,
  mk r.(contract) r.(contract_version) r.(id) r.(version) r.(environment) r.(defaults) r.(rules) r.(signature).
#[global] Instance set_rules : Setter rules := ltac:(mk_setter).
#[global] Instance set_signature : Setter signature := ltac:(mk_setter).
End InfrastructurePolicyBundleV1.
Abbreviation InfrastructurePolicyBundleV1 := InfrastructurePolicyBundleV1.InfrastructurePolicyBundleV1.

(** [InfrastructurePolicyTrustV1], infrastructure_policy.rs. *)
Module InfrastructurePolicyTrustV1.
Record InfrastructurePolicyTrustV1 := mk {
  keys : gmap string string;
  revoked_key_ids : gset string;
  require_signature : bool
}.
End InfrastructurePolicyTrustV1.
Abbreviation InfrastructurePolicyTrustV1 := InfrastructurePolicyTrustV1.InfrastructurePolicyTrustV1.

(** [InfrastructurePolicySignatureStatusV1], infrastructure_policy.rs. *)
Module InfrastructurePolicySignatureStatusV1.
Inductive InfrastructurePolicySignatureStatusV1 :=
| Unsigned
| Verified.
#[global] Instance InfrastructurePolicySignatureStatusV1_eq_dec : EqDecision InfrastructurePolicySignatureStatusV1.
Proof. solve_decision. Defined.
End InfrastructurePolicySignatureStatusV1.
Abbreviation InfrastructurePolicySignatureStatusV1 := InfrastructurePolicySignatureStatusV1.InfrastructurePolicySignatureStatusV1.

(** [PreparedInfrastructurePolicyV1], infrastructure_policy.rs. *)
Module PreparedInfrastructurePolicyV1.
Record PreparedInfrastructurePolicyV1 := mk {
  bundle : InfrastructurePolicyBundleV1;
  digest : string;
  canonical_payload : string;
  signature_status : InfrastructurePolicySignatureStatusV1;
  signing_key_id : option string
}.
#[global] Instance PreparedInfrastructurePolicyV1_eq_dec : EqDecision PreparedInfrastructurePolicyV1.
Proof. solve_decision. Defined.
#[global] Instance PreparedInfrastructurePolicyV1_eta : Eta PreparedInfrastructurePolicyV1 := λ r,
  mk r.(bundle) r.(digest) r.(canonical_payload) r.(signature_status) r.(signing_key_id).
#[global] Instance set_bundle : Setter bundle := ltac:(mk_setter).
#[global] Instance set_signature_status : Setter signature_status := ltac:(mk_setter).
#[global] Instance set_signing_key_id : Setter signing_key_id := ltac:(mk_setter).
End PreparedInfrastructurePolicyV1.
Abbreviation PreparedInfrastructurePolicyV1 := PreparedInfrastructurePolicyV1.PreparedInfrastructurePolicyV1.

(** [InfrastructurePolicyError], infrastructure_policy.rs. *)
Module InfrastructurePolicyError.
Inductive InfrastructurePolicyError :=
| Unavailable
| TooLarge
| Invalid (message : string)
| SignatureInvalid (message : string).
#[global] Instance InfrastructurePolicyError_eq_dec : EqDecision InfrastructurePolicyError.
Proof. solve_decision. Defined.
End InfrastructurePolicyError.
Abbreviation InfrastructurePolicyError := InfrastructurePolicyError.InfrastructurePolicyError.

(** ** Capability calls *)

(** [CapabilityIdentityMode], capability/contracts.rs. *)
Module CapabilityIdentityMode.
Inductive CapabilityIdentityMode :=
| Automatic
| Named.
#[global] Instance CapabilityIdentityMode_eq_dec : EqDecision CapabilityIdentityMode.
Proof. solve_decision. Defined.
End CapabilityIdentityMode.
Abbreviation CapabilityIdentityMode := CapabilityIdentityMode.CapabilityIdentityMode.

(** [CapabilityCallIdentity], capability/contracts.rs. *)
Module CapabilityCallIdentity.
Record CapabilityCallIdentity := mk {
  mode : CapabilityIdentityMode;
  step_idempotency_key : string;
  operation_name : string;
  operation_key : string;
  provider_idempotency_key : option string
}.
#[global] Instance CapabilityCallIdentity_eq_dec : EqDecision CapabilityCallIdentity.
Proof. solve_decision. Defined.
End CapabilityCallIdentity.
Abbreviation CapabilityCallIdentity := CapabilityCallIdentity.CapabilityCallIdentity.

(** [CapabilityCallLimits], capability/contracts.rs. *)
Module CapabilityCallLimits.
Record CapabilityCallLimits := mk {
  input_bytes : N;
  result_bytes : N;
  timeout_ms : N
}.
#[global] Instance CapabilityCallLimits_eq_dec : EqDecision CapabilityCallLimits.
Proof. solve_decision. Defined.
End CapabilityCallLimits.
Abbreviation CapabilityCallLimits := CapabilityCallLimits.CapabilityCallLimits.

(** [CapabilityCallRequest], capability/contracts.rs. *)
Module CapabilityCallRequest.
Record CapabilityCallRequest := mk {
  contract : string;
  contract_version : N;
  message_type : string;
  invocation_id : string;
  call_id : string;
  run_id : string;
  node_id : string;
  attempt_number : N;
  capability : string;
  operation : string;
  input_contract_version : N;
  result_contract_version : N;
  identity : CapabilityCallIdentity;
  limits : CapabilityCallLimits;
  input : Value
}.
End CapabilityCallRequest.
Abbreviation CapabilityCallRequest := CapabilityCallRequest.CapabilityCallRequest.

(** [CapabilityEffect], capability/contracts.rs. *)
Module CapabilityEffect.
Inductive CapabilityEffect :=
| Read
| IdempotentWrite
| UnsafeWrite.
#[global] Instance CapabilityEffect_eq_dec : EqDecision CapabilityEffect.
Proof. solve_decision. Defined.
End CapabilityEffect.
Abbreviation CapabilityEffect := CapabilityEffect.CapabilityEffect.

(** [CapabilityDescriptor], capability/contracts.rs. *)
Module CapabilityDescriptor.
Record CapabilityDescriptor := mk {
  capability : string;
  operation : string;
  input_contract_version : N;
  result_contract_version : N;
  effect : CapabilityEffect;
  supports_cancellation : bool;
  supports_provider_idempotency : bool
}.
#[global] Instance CapabilityDescriptor_eq_dec : EqDecision CapabilityDescriptor.
Proof. solve_decision. Defined.
End CapabilityDescriptor.
Abbreviation CapabilityDescriptor := CapabilityDescriptor.CapabilityDescriptor.

(** ** Operations, evidence and the evaluator *)

(** [InfrastructurePolicyDescriptorContextV1], infrastructure_policy_runtime.rs. *)
Module InfrastructurePolicyDescriptorContextV1.
Record InfrastructurePolicyDescriptorContextV1 := mk {
  workflow_id : string;
  definition_hash : string;
  environment : string;
  effective_target : option string;
  execution_mode : InfrastructurePolicyExecutionModeV1;
  review_digest : option string
}.
#[global] Instance InfrastructurePolicyDescriptorContextV1_eq_dec : EqDecision InfrastructurePolicyDescriptorContextV1.
Proof. solve_decision. Defined.
End InfrastructurePolicyDescriptorContextV1.
Abbreviation InfrastructurePolicyDescriptorContextV1 := InfrastructurePolicyDescriptorContextV1.InfrastructurePolicyDescriptorContextV1.

(** [InfrastructurePolicyOperationMetadataV1], infrastructure_policy_runtime.rs. *)
Module InfrastructurePolicyOperationMetadataV1.
Record InfrastructurePolicyOperationMetadataV1 := mk {
  logical_target : option string;
  executable : option string;
  arguments : list string;
  argument_count : N;
  argument_digest : option string;
  facts : gmap string string
}.
#[global] Instance InfrastructurePolicyOperationMetadataV1_eq_dec : EqDecision InfrastructurePolicyOperationMetadataV1.
Proof. solve_decision. Defined.
#[global] Instance InfrastructurePolicyOperationMetadataV1_eta : Eta InfrastructurePolicyOperationMetadataV1 := λ r,
  mk r.(logical_target) r.(executable) r.(arguments) r.(argument_count) r.(argument_digest) r.(facts).
#[global] Instance set_logical_target : Setter logical_target := ltac:(mk_setter).
#[global] Instance set_executable : Setter executable := ltac:(mk_setter).
#[global] Instance set_arguments : Setter arguments := ltac:(mk_setter).
#[global] Instance set_argument_count : Setter argument_count := ltac:(mk_setter).
#[global] Instance set_argument_digest : Setter argument_digest := ltac:(mk_setter).
#[global] Instance set_facts : Setter facts := ltac:(mk_setter).
End InfrastructurePolicyOperationMetadataV1.
Abbreviation InfrastructurePolicyOperationMetadataV1 := InfrastructurePolicyOperationMetadataV1.InfrastructurePolicyOperationMetadataV1.

(** [InfrastructurePolicyOperationDescriptorV1], infrastructure_policy_runtime.rs. *)
Module InfrastructurePolicyOperationDescriptorV1.
Record InfrastructurePolicyOperationDescriptorV1 := mk {
  contract : string;
  contract_version : N;
  descriptor_digest : string;
  run_id : string;
  workflow_id : string;
  definition_hash : string;
  node_id : string;
  attempt_number : N;
  invocation_id : string;
  operation_key : string;
  capability : string;
  operation : string;
  effect : InfrastructurePolicyEffectV1;
  environment : string;
  target : option string;
  executable : option string;
  arguments : list string;
  argument_count : N;
  argument_digest : option string;
  execution_mode : InfrastructurePolicyExecutionModeV1;
  review_digest : option string;
  facts : gmap string string
}.
#[global] Instance InfrastructurePolicyOperationDescriptorV1_eq_dec : EqDecision InfrastructurePolicyOperationDescriptorV1.
Proof. solve_decision. Defined.
End InfrastructurePolicyOperationDescriptorV1.
Abbreviation InfrastructurePolicyOperationDescriptorV1 := InfrastructurePolicyOperationDescriptorV1.InfrastructurePolicyOperationDescriptorV1.

(** [InfrastructurePolicyCoverageV1], infrastructure_policy_runtime.rs. *)
Module InfrastructurePolicyCoverageV1.
Inductive InfrastructurePolicyCoverageV1 :=
| Supported
| Unsupported.
#[global] Instance InfrastructurePolicyCoverageV1_eq_dec : EqDecision InfrastructurePolicyCoverageV1.
Proof. solve_decision. Defined.
End InfrastructurePolicyCoverageV1.
Abbreviation InfrastructurePolicyCoverageV1 := InfrastructurePolicyCoverageV1.InfrastructurePolicyCoverageV1.

(** [InfrastructurePolicyEvidenceKindV1], infrastructure_policy_runtime.rs. *)
Module InfrastructurePolicyEvidenceKindV1.
Inductive InfrastructurePolicyEvidenceKindV1 :=
| Approval
| Artifact
| Backup
| Attestation
| Lock
| OperatorIdentity.
#[global] Instance InfrastructurePolicyEvidenceKindV1_eq_dec : EqDecision InfrastructurePolicyEvidenceKindV1.
Proof. solve_decision. Defined.
End InfrastructurePolicyEvidenceKindV1.
Abbreviation InfrastructurePolicyEvidenceKindV1 := InfrastructurePolicyEvidenceKindV1.InfrastructurePolicyEvidenceKindV1.

(** [InfrastructurePolicyEvidenceReferenceV1], infrastructure_policy_runtime.rs. *)
Module InfrastructurePolicyEvidenceReferenceV1.
Record InfrastructurePolicyEvidenceReferenceV1 := mk {
  contract : string;
  contract_version : N;
  evidence_id : string;
  evidence_digest : string;
  kind : InfrastructurePolicyEvidenceKindV1;
  authority : string;
  issued_at : DateTime;
  expires_at : option DateTime;
  run_id : string;
  node_id : option string;
  operation_key : option string;
  review_digest : option string;
  principal_id : option string;
  roles : gset string;
  verified_integrity : bool;
  lock_key : option string
}.
End InfrastructurePolicyEvidenceReferenceV1.
Abbreviation InfrastructurePolicyEvidenceReferenceV1 := InfrastructurePolicyEvidenceReferenceV1.InfrastructurePolicyEvidenceReferenceV1.

(** [InfrastructurePolicyEvaluationBudgetV1], infrastructure_policy_runtime.rs. [max_duration] is in
    nanoseconds. *)
Module InfrastructurePolicyEvaluationBudgetV1.
Record InfrastructurePolicyEvaluationBudgetV1 := mk {
  max_instructions : N;
  max_duration : N;
  max_evidence : N
}.
#[global] Instance InfrastructurePolicyEvaluationBudgetV1_eq_dec : EqDecision InfrastructurePolicyEvaluationBudgetV1.
Proof. solve_decision. Defined.
End InfrastructurePolicyEvaluationBudgetV1.
Abbreviation InfrastructurePolicyEvaluationBudgetV1 := InfrastructurePolicyEvaluationBudgetV1.InfrastructurePolicyEvaluationBudgetV1.

(** [InfrastructurePolicyPreparedEvaluatorV1], infrastructure_policy_runtime.rs. *)
Module InfrastructurePolicyPreparedEvaluatorV1.
Record InfrastructurePolicyPreparedEvaluatorV1 := mk {
  policy : PreparedInfrastructurePolicyV1;
  rules : list InfrastructurePolicyRuleV1;
  budget : InfrastructurePolicyEvaluationBudgetV1
}.
#[global] Instance InfrastructurePolicyPreparedEvaluatorV1_eq_dec : EqDecision InfrastructurePolicyPreparedEvaluatorV1.
Proof. solve_decision. Defined.
End InfrastructurePolicyPreparedEvaluatorV1.
Abbreviation InfrastructurePolicyPreparedEvaluatorV1 := InfrastructurePolicyPreparedEvaluatorV1.InfrastructurePolicyPreparedEvaluatorV1.

(** [EvaluationMeter], infrastructure_policy_runtime.rs. Instead of the instant
    [started] it counts the readings of the elapsed time, which a clock supplies. *)
Module EvaluationMeter.
Record EvaluationMeter := mk {
  budget : InfrastructurePolicyEvaluationBudgetV1;
  instructions : N;
  exhausted : bool;
  readings : nat
}.
#[global] Instance EvaluationMeter_eq_dec : EqDecision EvaluationMeter.
Proof. solve_decision. Defined.
#[global] Instance EvaluationMeter_eta : Eta EvaluationMeter := λ r,
  mk r.(budget) r.(instructions) r.(exhausted) r.(readings).
#[global] Instance set_instructions : Setter instructions := ltac:(mk_setter).
#[global] Instance set_exhausted : Setter exhausted := ltac:(mk_setter).
#[global] Instance set_readings : Setter readings := ltac:(mk_setter).
End EvaluationMeter.
Abbreviation EvaluationMeter := EvaluationMeter.EvaluationMeter.
