(* ===== verification/PolicyBundle.v ===== *)
(** * Infrastructure policy bundles

    infrastructure_policy.rs: validation, canonical identity and signature of a
    policy bundle, and the preparation of emergency overlays.  The crates chrono,
    base64, ring, serde_json and url are the class [PolicyExternals]; nothing is
    assumed about them here. *)

From S2P Require Import Prelude Strings Json EventTypes Guards PolicyTypes.

(** [reqwest::Url], with the parts the policy adapters read. *)
Module Url.
Record Url := mk {
  scheme : string;
  host_str : option string;
  port : option N;
  origin_ascii_serialization : string;
  path_segments : option (list string)
}.
End Url.
Abbreviation Url := Url.Url.

Class PolicyExternals := {
  (** [DateTime::parse_from_rfc3339(text)], as an instant in UTC. *)
  parse_from_rfc3339 : string → option DateTime;
  (** The serde encoding of a [DateTime<Utc>]. *)
  serialize_datetime : DateTime → string;
  (** [URL_SAFE_NO_PAD.decode] and [URL_SAFE_NO_PAD.encode]. *)
  base64url_decode : string → option string;
  base64url_encode : string → string;
  (** [UnparsedPublicKey::new(&ED25519, key).verify(message, signature).is_ok()]. *)
  ed25519_verify : string → string → string → bool;
  (** [serde_json::from_slice] into a value and into a bundle. *)
  value_from_slice : string → option Value;
  bundle_from_slice : string → option InfrastructurePolicyBundleV1;
  (** [reqwest::Url::parse]. *)
  url_parse : string → option Url;
}.

Definition INFRASTRUCTURE_POLICY_CONTRACT : string := "woml.infrastructure-policy".
Definition INFRASTRUCTURE_POLICY_CONTRACT_VERSION : N := 1.
Definition INFRASTRUCTURE_POLICY_MAX_BYTES : N := 1024 * 1024.
Definition INFRASTRUCTURE_POLICY_MAX_RULES : nat := N.to_nat 1024.
Definition INFRASTRUCTURE_POLICY_MAX_MATCH_VALUES : nat := 128.
Definition INFRASTRUCTURE_POLICY_MAX_ROLES : nat := 64.
Definition INFRASTRUCTURE_POLICY_MAX_JSON_DEPTH : N := 16.
Definition INFRASTRUCTURE_POLICY_MAX_JSON_VALUES : N := 100000.

Definition policy_result := result InfrastructurePolicyError.

Definition invalid (message : string) : InfrastructurePolicyError :=
  InfrastructurePolicyError.Invalid message.
Definition signature_invalid (message : string) : InfrastructurePolicyError :=
  InfrastructurePolicyError.SignatureInvalid message.

Definition error_code (error : InfrastructurePolicyError) : string :=
  match error with
  | InfrastructurePolicyError.Unavailable => "WOML_POLICY_UNAVAILABLE"
  | InfrastructurePolicyError.TooLarge | InfrastructurePolicyError.Invalid _ => "WOML_POLICY_INVALID"
  | InfrastructurePolicyError.SignatureInvalid _ => "WOML_POLICY_SIGNATURE_INVALID"
  end.

(** [value.contains('\0')]. *)
Definition contains_nul (value : string) : bool :=
  negb (bytes_all (λ b, negb (is_byte Ascii.zero b)) value).

(** ** Identifiers and sets *)

Definition is_pattern_byte (b : Ascii.ascii) : bool :=
  is_ascii_alphanumeric b || is_byte "." b || is_byte "_" b || is_byte "-" b.

Definition validate_pattern_string (value label : string) (lowercase_first : bool) :
    policy_result unit :=
  check fail_if (str_is_empty value || (128 <? str_len value)%N || contains_nul value)
    (invalid (label +:+ " has an invalid length"));
  let first_valid :=
    first_byte (if lowercase_first then is_ascii_lowercase else is_ascii_alphanumeric) value in
  fail_if (negb first_valid || negb (bytes_all is_pattern_byte (tail value)))
    (invalid (label +:+ " has an invalid format")).

Definition validate_identifier (value label : string) : policy_result unit :=
  validate_pattern_string value label true.

(** The loop that validates every value and inserts it into [unique]. *)
Fixpoint validate_unique_identifiers (label : string) (unique : gset string) (values : list string) :
    policy_result unit :=
  match values with
  | [] => Ok tt
  | value :: values =>
      check validate_identifier value label;
      check fail_if (bool_decide (value ∈ unique)) (invalid (label +:+ " contains duplicates"));
      validate_unique_identifiers label ({[value]} ∪ unique) values
  end.

Definition validate_identifier_set (values : list string) (label : string) : policy_result unit :=
  check fail_if (is_empty values || (INFRASTRUCTURE_POLICY_MAX_MATCH_VALUES <? length values)%nat)
    (invalid (label +:+ " contains too many values"));
  validate_unique_identifiers label ∅ values.

(** [value.bytes().enumerate().all(...)]: a lower-case letter, then role bytes. *)
Definition is_policy_role (value : string) : bool :=
  first_byte is_ascii_lowercase value
  && bytes_all (λ b, is_ascii_alphanumeric b || is_byte ":" b || is_byte "_" b || is_byte "-" b)
       (tail value).

Fixpoint validate_unique_roles (unique : gset string) (values : list string) : policy_result unit :=
  match values with
  | [] => Ok tt
  | value :: values =>
      check fail_if
        (str_is_empty value || (128 <? str_len value)%N || negb (is_policy_role value)
         || bool_decide (value ∈ unique))
        (invalid "approval roles are invalid or duplicated");
      validate_unique_roles ({[value]} ∪ unique) values
  end.

Definition validate_role_set (values : list string) : policy_result unit :=
  check fail_if (INFRASTRUCTURE_POLICY_MAX_ROLES <? length values)%nat
    (invalid "approval roles exceed their frozen limit");
  validate_unique_roles ∅ values.

(** [values.iter().any(|value| !unique.insert(value))]. *)
Fixpoint has_duplicate {A} `{EqDecision A} (values : list A) : bool :=
  match values with
  | [] => false
  | value :: values => bool_decide (value ∈ values) || has_duplicate values
  end.

Definition validate_enum_set {A} `{EqDecision A} (values : list A) (label : string) :
    policy_result unit :=
  check fail_if (is_empty values || (INFRASTRUCTURE_POLICY_MAX_MATCH_VALUES <? length values)%nat)
    (invalid (label +:+ " contains too many values"));
  fail_if (has_duplicate values) (invalid (label +:+ " contains duplicates")).

(** ** Matchers, requirements and bundles *)

(** [if let Some(value) = option { f(value)?; }]. *)
Definition if_some {E A} (o : option A) (f : A → result E unit) : result E unit :=
  match o with Some a => f a | None => Ok tt end.

Definition validate_matcher (matcher : InfrastructurePolicyRuleMatchV1) : policy_result unit :=
  check fail_if
    (is_none matcher.(InfrastructurePolicyRuleMatchV1.capabilities) && is_none matcher.(InfrastructurePolicyRuleMatchV1.operations) && is_none matcher.(InfrastructurePolicyRuleMatchV1.effects)
     && is_none matcher.(InfrastructurePolicyRuleMatchV1.workflows) && is_none matcher.(InfrastructurePolicyRuleMatchV1.targets) && is_none matcher.(InfrastructurePolicyRuleMatchV1.executables)
     && is_none matcher.(InfrastructurePolicyRuleMatchV1.argument_prefix) && is_none matcher.(InfrastructurePolicyRuleMatchV1.execution_modes))
    (invalid "a rule match must contain at least one matcher");
  check if_some matcher.(InfrastructurePolicyRuleMatchV1.capabilities) (λ values, validate_identifier_set values "capability matcher");
  check if_some matcher.(InfrastructurePolicyRuleMatchV1.operations) (λ values, validate_identifier_set values "operation matcher");
  check if_some matcher.(InfrastructurePolicyRuleMatchV1.workflows) (λ values, validate_identifier_set values "workflow matcher");
  check if_some matcher.(InfrastructurePolicyRuleMatchV1.targets) (λ values, validate_identifier_set values "target matcher");
  check if_some matcher.(InfrastructurePolicyRuleMatchV1.executables) (λ values, validate_identifier_set values "executable matcher");
  check if_some matcher.(InfrastructurePolicyRuleMatchV1.effects) (λ effects, validate_enum_set effects "effect matcher");
  check if_some matcher.(InfrastructurePolicyRuleMatchV1.execution_modes)
    (λ execution_modes, validate_enum_set execution_modes "execution-mode matcher");
  if_some matcher.(InfrastructurePolicyRuleMatchV1.argument_prefix) (λ arguments,
    fail_if
      (is_empty arguments || (INFRASTRUCTURE_POLICY_MAX_MATCH_VALUES <? length arguments)%nat
       || existsb (λ value, str_is_empty value || (4096 <? str_len value)%N || contains_nul value)
            arguments)
      (invalid "argument prefixes exceed their frozen limits")).

Section policy.
Context `{!Externals, !PolicyExternals}.

Definition parse_timestamp (value : string) : policy_result DateTime :=
  check fail_if ((64 <? str_len value)%N || negb (ends_with "Z" value))
    (invalid "validBetween timestamps must be bounded UTC RFC 3339");
  ok_or (parse_from_rfc3339 value) (invalid "validBetween timestamps must be valid RFC 3339").

Definition validate_approval_requirement (approval : InfrastructurePolicyApprovalRequirementV1) :
    policy_result unit :=
  check fail_if
    (negb (in_range 1 20 approval.(InfrastructurePolicyApprovalRequirementV1.minimum)) || (approval.(InfrastructurePolicyApprovalRequirementV1.max_age_ms) =? 0)%N
     || (365 * 24 * 60 * 60 * 1000 <? approval.(InfrastructurePolicyApprovalRequirementV1.max_age_ms))%N)
    (invalid "approval requirements exceed their frozen limits");
  validate_role_set approval.(InfrastructurePolicyApprovalRequirementV1.roles).

Definition validate_artifact_requirement (artifacts : InfrastructurePolicyArtifactRequirementV1) :
    policy_result unit :=
  fail_if (negb (in_range 1 32 artifacts.(InfrastructurePolicyArtifactRequirementV1.minimum)) || negb artifacts.(InfrastructurePolicyArtifactRequirementV1.verified_integrity))
    (invalid "artifact requirements exceed their frozen limits").

Definition validate_lock_requirement (lock : InfrastructurePolicyLockRequirementV1) :
    policy_result unit :=
  fail_if
    (str_is_empty lock.(InfrastructurePolicyLockRequirementV1.key) || (256 <? str_len lock.(InfrastructurePolicyLockRequirementV1.key))%N || contains_nul lock.(InfrastructurePolicyLockRequirementV1.key)
     || (lock.(InfrastructurePolicyLockRequirementV1.minimum_remaining_ms) =? 0)%N || (86400000 <? lock.(InfrastructurePolicyLockRequirementV1.minimum_remaining_ms))%N)
    (invalid "lock requirements exceed their frozen limits").

Definition validate_validity_requirement (validity : InfrastructurePolicyValidityRequirementV1) :
    policy_result unit :=
  let? not_before := parse_timestamp validity.(InfrastructurePolicyValidityRequirementV1.not_before) in
  let? not_after := parse_timestamp validity.(InfrastructurePolicyValidityRequirementV1.not_after) in
  fail_if (not_after <=? not_before)%Z (invalid "validBetween must end after it starts").

Definition validate_requirements (requirements : InfrastructurePolicyRequirementsV1) :
    policy_result unit :=
  check fail_if
    (is_none requirements.(InfrastructurePolicyRequirementsV1.approval) && is_none requirements.(InfrastructurePolicyRequirementsV1.artifacts) && is_none requirements.(InfrastructurePolicyRequirementsV1.lock)
     && is_none requirements.(InfrastructurePolicyRequirementsV1.valid_between))
    (invalid "policy requirements cannot be empty");
  check if_some requirements.(InfrastructurePolicyRequirementsV1.approval) validate_approval_requirement;
  check if_some requirements.(InfrastructurePolicyRequirementsV1.artifacts) validate_artifact_requirement;
  check if_some requirements.(InfrastructurePolicyRequirementsV1.lock) validate_lock_requirement;
  if_some requirements.(InfrastructurePolicyRequirementsV1.valid_between) validate_validity_requirement.

Definition validate_rule (rule : InfrastructurePolicyRuleV1) : policy_result unit :=
  check fail_if
    (is_some_and rule.(InfrastructurePolicyRuleV1.description) (λ value,
       str_is_empty value || (512 <? str_len value)%N || contains_nul value))
    (invalid "rule descriptions must contain 1 through 512 bytes");
  check validate_matcher rule.(InfrastructurePolicyRuleV1.matcher);
  match rule.(InfrastructurePolicyRuleV1.decision), rule.(InfrastructurePolicyRuleV1.requires) with
  | InfrastructurePolicyDecisionV1.Deny, Some _ => Err (invalid "deny rules cannot carry requirements")
  | _, Some requirements => validate_requirements requirements
  | _, None => Ok tt
  end.

(** The loop over the rules with the set of the identifiers seen so far. *)
Fixpoint validate_rules (rule_ids : gset string) (rules : list InfrastructurePolicyRuleV1) :
    policy_result unit :=
  match rules with
  | [] => Ok tt
  | rule :: rules =>
      check validate_identifier rule.(InfrastructurePolicyRuleV1.id) "rule id";
      check fail_if (bool_decide (rule.(InfrastructurePolicyRuleV1.id) ∈ rule_ids)) (invalid "policy rule IDs must be unique");
      check validate_rule rule;
      validate_rules ({[rule.(InfrastructurePolicyRuleV1.id)]} ∪ rule_ids) rules
  end.

Definition validate_signature (signature : InfrastructurePolicySignatureV1) : policy_result unit :=
  check fail_if (signature.(InfrastructurePolicySignatureV1.algorithm) != "ed25519")
    (signature_invalid "Infrastructure Policy v1 supports only Ed25519");
  check validate_identifier signature.(InfrastructurePolicySignatureV1.key_id) "signature key ID";
  fail_if (str_is_empty signature.(InfrastructurePolicySignatureV1.value) || (128 <? str_len signature.(InfrastructurePolicySignatureV1.value))%N)
    (signature_invalid "the signature encoding is invalid").

Definition validate_bundle (bundle : InfrastructurePolicyBundleV1) : policy_result unit :=
  check fail_if
    ((bundle.(InfrastructurePolicyBundleV1.contract) != INFRASTRUCTURE_POLICY_CONTRACT)
     || (bundle.(InfrastructurePolicyBundleV1.contract_version) != INFRASTRUCTURE_POLICY_CONTRACT_VERSION))
    (invalid "the document does not match Infrastructure Policy v1");
  check validate_identifier bundle.(InfrastructurePolicyBundleV1.id) "policy id";
  check validate_pattern_string bundle.(InfrastructurePolicyBundleV1.version) "policy version" false;
  check validate_identifier bundle.(InfrastructurePolicyBundleV1.environment) "policy environment";
  check fail_if (INFRASTRUCTURE_POLICY_MAX_RULES <? length bundle.(InfrastructurePolicyBundleV1.rules))%nat
    (invalid "the policy contains too many rules");
  check validate_rules ∅ bundle.(InfrastructurePolicyBundleV1.rules);
  if_some bundle.(InfrastructurePolicyBundleV1.signature) validate_signature.

(** ** Canonical identity *)

(** The serde encodings of the enums: [rename_all] kebab-case or lowercase. *)
Definition effect_text (effect : InfrastructurePolicyEffectV1) : string :=
  match effect with
  | InfrastructurePolicyEffectV1.Read => "read"
  | InfrastructurePolicyEffectV1.IdempotentWrite => "idempotent-write"
  | InfrastructurePolicyEffectV1.UnsafeWrite => "unsafe-write"
  end.
Definition default_text (default : InfrastructurePolicyDefaultV1) : string :=
  match default with
  | InfrastructurePolicyDefaultV1.Allow => "allow"
  | InfrastructurePolicyDefaultV1.Deny => "deny"
  end.
Definition decision_text (decision : InfrastructurePolicyDecisionV1) : string :=
  match decision with
  | InfrastructurePolicyDecisionV1.Allow => "allow"
  | InfrastructurePolicyDecisionV1.Deny => "deny"
  end.
Definition execution_mode_text (mode : InfrastructurePolicyExecutionModeV1) : string :=
  match mode with
  | InfrastructurePolicyExecutionModeV1.Normal => "normal"
  | InfrastructurePolicyExecutionModeV1.Compensation => "compensation"
  | InfrastructurePolicyExecutionModeV1.Cleanup => "cleanup"
  | InfrastructurePolicyExecutionModeV1.Recovery => "recovery"
  end.

Definition json_number (n : N) : Value := Value.Number (Number.PosInt n).
Definition json_strings (values : list string) : Value := Value.Array (Value.String <$> values).
(** An optional field with [skip_serializing_if = "Option::is_none"]. *)
Definition optional {A} (key : string) (encode : A → Value) (o : option A) : Map :=
  match o with Some a => [(key, encode a)] | None => [] end.

(** [serde_json::to_value] of the parts of a bundle: the fields in the order of the structs. *)
Definition matcher_value (matcher : InfrastructurePolicyRuleMatchV1) : Value :=
  Value.Object
    (optional "capabilities" json_strings matcher.(InfrastructurePolicyRuleMatchV1.capabilities)
     ++ optional "operations" json_strings matcher.(InfrastructurePolicyRuleMatchV1.operations)
     ++ optional "effects" (λ effects, json_strings (effect_text <$> effects)) matcher.(InfrastructurePolicyRuleMatchV1.effects)
     ++ optional "workflows" json_strings matcher.(InfrastructurePolicyRuleMatchV1.workflows)
     ++ optional "targets" json_strings matcher.(InfrastructurePolicyRuleMatchV1.targets)
     ++ optional "executables" json_strings matcher.(InfrastructurePolicyRuleMatchV1.executables)
     ++ optional "argumentPrefix" json_strings matcher.(InfrastructurePolicyRuleMatchV1.argument_prefix)
     ++ optional "executionModes" (λ modes, json_strings (execution_mode_text <$> modes))
          matcher.(InfrastructurePolicyRuleMatchV1.execution_modes)).

Definition approval_requirement_value (approval : InfrastructurePolicyApprovalRequirementV1) : Value :=
  Value.Object
    [("minimum", json_number approval.(InfrastructurePolicyApprovalRequirementV1.minimum));
     ("roles", json_strings approval.(InfrastructurePolicyApprovalRequirementV1.roles));
     ("bindReviewDigest", Value.Bool approval.(InfrastructurePolicyApprovalRequirementV1.bind_review_digest));
     ("maxAgeMs", json_number approval.(InfrastructurePolicyApprovalRequirementV1.max_age_ms))].
Definition artifact_requirement_value (artifacts : InfrastructurePolicyArtifactRequirementV1) : Value :=
  Value.Object
    [("minimum", json_number artifacts.(InfrastructurePolicyArtifactRequirementV1.minimum));
     ("verifiedIntegrity", Value.Bool artifacts.(InfrastructurePolicyArtifactRequirementV1.verified_integrity));
     ("bindReviewDigest", Value.Bool artifacts.(InfrastructurePolicyArtifactRequirementV1.bind_review_digest))].
Definition lock_requirement_value (lock : InfrastructurePolicyLockRequirementV1) : Value :=
  Value.Object
    [("key", Value.String lock.(InfrastructurePolicyLockRequirementV1.key));
     ("minimumRemainingMs", json_number lock.(InfrastructurePolicyLockRequirementV1.minimum_remaining_ms))].
Definition validity_requirement_value (validity : InfrastructurePolicyValidityRequirementV1) : Value :=
  Value.Object
    [("notBefore", Value.String validity.(InfrastructurePolicyValidityRequirementV1.not_before));
     ("notAfter", Value.String validity.(InfrastructurePolicyValidityRequirementV1.not_after))].
Definition requirements_value (requirements : InfrastructurePolicyRequirementsV1) : Value :=
  Value.Object
    (optional "approval" approval_requirement_value requirements.(InfrastructurePolicyRequirementsV1.approval)
     ++ optional "artifacts" artifact_requirement_value requirements.(InfrastructurePolicyRequirementsV1.artifacts)
     ++ optional "lock" lock_requirement_value requirements.(InfrastructurePolicyRequirementsV1.lock)
     ++ optional "validBetween" validity_requirement_value requirements.(InfrastructurePolicyRequirementsV1.valid_between)).

Definition rule_value (rule : InfrastructurePolicyRuleV1) : Value :=
  Value.Object
    ([("id", Value.String rule.(InfrastructurePolicyRuleV1.id))]
     ++ optional "description" Value.String rule.(InfrastructurePolicyRuleV1.description)
     ++ [("match", matcher_value rule.(InfrastructurePolicyRuleV1.matcher));
         ("decision", Value.String (decision_text rule.(InfrastructurePolicyRuleV1.decision)))]
     ++ optional "requires" requirements_value rule.(InfrastructurePolicyRuleV1.requires)).

Definition defaults_value (defaults : InfrastructurePolicyDefaultsV1) : Value :=
  Value.Object
    [("read", Value.String (default_text defaults.(InfrastructurePolicyDefaultsV1.read)));
     ("idempotent-write", Value.String (default_text defaults.(InfrastructurePolicyDefaultsV1.idempotent_write)));
     ("unsafe-write", Value.String (default_text defaults.(InfrastructurePolicyDefaultsV1.unsafe_write)))].
Definition signature_value (signature : InfrastructurePolicySignatureV1) : Value :=
  Value.Object
    [("algorithm", Value.String signature.(InfrastructurePolicySignatureV1.algorithm));
     ("keyId", Value.String signature.(InfrastructurePolicySignatureV1.key_id));
     ("value", Value.String signature.(InfrastructurePolicySignatureV1.value))].

Definition bundle_value (bundle : InfrastructurePolicyBundleV1) : Value :=
  Value.Object
    ([("contract", Value.String bundle.(InfrastructurePolicyBundleV1.contract));
      ("contractVersion", json_number bundle.(InfrastructurePolicyBundleV1.contract_version));
      ("id", Value.String bundle.(InfrastructurePolicyBundleV1.id));
      ("version", Value.String bundle.(InfrastructurePolicyBundleV1.version));
      ("environment", Value.String bundle.(InfrastructurePolicyBundleV1.environment));
      ("defaults", defaults_value bundle.(InfrastructurePolicyBundleV1.defaults));
      ("rules", Value.Array (rule_value <$> bundle.(InfrastructurePolicyBundleV1.rules)))]
     ++ optional "signature" signature_value bundle.(InfrastructurePolicyBundleV1.signature)).

(** [Map::remove], which with [preserve_order] moves the last entry to the place of the
    removed one. *)
Definition map_remove (m : Map) (key : string) : Map :=
  match position (λ entry : string * Value, entry.1 == key) m with
  | None => m
  | Some index =>
      let last := pred (length m) in
      if (index =? last)%nat then take last m
      else
        match m !! last with
        | Some entry => take index m ++ [entry] ++ drop (S index) (take last m)
        | None => m
        end
  end.

Definition canonical_payload_of (bundle : InfrastructurePolicyBundleV1) : policy_result string :=
  let payload := bundle_value bundle in
  let? object := ok_or (as_object payload) (invalid "the policy payload is not an object") in
  ok_or (canonical_json (Value.Object (map_remove object "signature")))
    (invalid "the policy cannot be serialized canonically").

(** ** Signatures *)

Definition is_base64url_byte (b : Ascii.ascii) : bool :=
  is_ascii_alphanumeric b || is_byte "_" b || is_byte "-" b.

Definition decode_base64url (value : string) (expected_length : N) (label : string) :
    policy_result string :=
  check fail_if (str_is_empty value || negb (bytes_all is_base64url_byte value))
    (signature_invalid ("the " +:+ label +:+ " is not canonical base64url"));
  let? decoded := ok_or (base64url_decode value)
    (signature_invalid ("the " +:+ label +:+ " cannot be decoded")) in
  check fail_if (negb (str_len decoded =? expected_length)%N || (base64url_encode decoded != value))
    (signature_invalid ("the " +:+ label +:+ " has an invalid length or encoding"));
  Ok decoded.

Definition verify_signature (trust : InfrastructurePolicyTrustV1)
    (signature : InfrastructurePolicySignatureV1) (canonical_payload : string) : policy_result unit :=
  check fail_if (bool_decide (signature.(InfrastructurePolicySignatureV1.key_id) ∈ trust.(InfrastructurePolicyTrustV1.revoked_key_ids)))
    (signature_invalid "the signing key is revoked");
  let? encoded_key := ok_or (trust.(InfrastructurePolicyTrustV1.keys) !! signature.(InfrastructurePolicySignatureV1.key_id))
    (signature_invalid "the signing key is not trusted") in
  let? public_key := decode_base64url encoded_key 32 "public key" in
  let? signature_bytes := decode_base64url signature.(InfrastructurePolicySignatureV1.value) 64 "signature" in
  fail_if (negb (ed25519_verify public_key canonical_payload signature_bytes))
    (signature_invalid "signature verification failed").

(** The status of the signature and the identifier of its key. *)
Definition signature_status_of (trust : InfrastructurePolicyTrustV1)
    (signature : option InfrastructurePolicySignatureV1) (canonical_payload : string) :
    policy_result (InfrastructurePolicySignatureStatusV1 * option string) :=
  match signature with
  | None =>
      if trust.(InfrastructurePolicyTrustV1.require_signature) then Err (signature_invalid "a signature is required")
      else Ok (InfrastructurePolicySignatureStatusV1.Unsigned, None)
  | Some signature =>
      check verify_signature trust signature canonical_payload;
      Ok (InfrastructurePolicySignatureStatusV1.Verified, Some signature.(InfrastructurePolicySignatureV1.key_id))
  end.

(** ** Preparation *)

Definition prepare_infrastructure_policy (bundle : InfrastructurePolicyBundleV1)
    (trust : InfrastructurePolicyTrustV1) : policy_result PreparedInfrastructurePolicyV1 :=
  check validate_bundle bundle;
  let? canonical_payload := canonical_payload_of bundle in
  check fail_if (INFRASTRUCTURE_POLICY_MAX_BYTES <? str_len canonical_payload)%N
    InfrastructurePolicyError.TooLarge;
  let digest := "sha256:" +:+ sha256_hex canonical_payload in
  let? (signature_status, signing_key_id) :=
    signature_status_of trust bundle.(InfrastructurePolicyBundleV1.signature) canonical_payload in
  Ok (PreparedInfrastructurePolicyV1.mk bundle digest canonical_payload signature_status
        signing_key_id).

Definition prepare_emergency_deny_overlay (bundle : InfrastructurePolicyBundleV1)
    (trust : InfrastructurePolicyTrustV1) : policy_result PreparedInfrastructurePolicyV1 :=
  let? prepared := prepare_infrastructure_policy bundle trust in
  let defaults := prepared.(PreparedInfrastructurePolicyV1.bundle).(InfrastructurePolicyBundleV1.defaults) in
  check fail_if
    ((defaults.(InfrastructurePolicyDefaultsV1.read) != InfrastructurePolicyDefaultV1.Allow)
     || (defaults.(InfrastructurePolicyDefaultsV1.idempotent_write) != InfrastructurePolicyDefaultV1.Allow)
     || (defaults.(InfrastructurePolicyDefaultsV1.unsafe_write) != InfrastructurePolicyDefaultV1.Allow))
    (invalid "an emergency deny overlay must use allow for every default");
  check fail_if
    (existsb (λ rule,
       (rule.(InfrastructurePolicyRuleV1.decision) != InfrastructurePolicyDecisionV1.Deny) || is_some rule.(InfrastructurePolicyRuleV1.requires))
       prepared.(PreparedInfrastructurePolicyV1.bundle).(InfrastructurePolicyBundleV1.rules))
    (invalid "an emergency deny overlay may contain only deny rules without requirements");
  Ok prepared.

(** ** Parsing *)

(** [usize::saturating_add]. *)
Definition usize_saturating_add (a b : N) : N := N.min (a + b) (usize_modulus - 1).

(** The inner function of [json_complexity]: the deepest level and the number of values. *)
Fixpoint visit (value : Value) (depth : N) (seen : N * N) : N * N :=
  let seen := (N.max seen.1 depth, usize_saturating_add seen.2 1) in
  match value with
  | Value.Array values =>
      foldl (λ seen value, visit value (usize_add depth 1) seen) seen values
  | Value.Object entries =>
      foldl (λ seen entry, visit entry.2 (usize_add depth 1) seen) seen entries
  | _ => seen
  end.

Definition json_complexity (value : Value) : N * N := visit value 0 (0%N, 0%N).

Definition parse_infrastructure_policy (source : string) (trust : InfrastructurePolicyTrustV1) :
    policy_result PreparedInfrastructurePolicyV1 :=
  check fail_if (INFRASTRUCTURE_POLICY_MAX_BYTES <? str_len source)%N
    InfrastructurePolicyError.TooLarge;
  let? value := ok_or (value_from_slice source) (invalid "the policy is not valid strict JSON") in
  let '(depth, values) := json_complexity value in
  check fail_if
    ((INFRASTRUCTURE_POLICY_MAX_JSON_DEPTH <? depth)%N
     || (INFRASTRUCTURE_POLICY_MAX_JSON_VALUES <? values)%N)
    (invalid "the policy exceeds its JSON complexity limit");
  let? bundle := ok_or (bundle_from_slice source)
    (invalid "the policy has missing, duplicate, unknown, or invalid fields") in
  prepare_infrastructure_policy bundle trust.
End policy.
