(* ===== verification/PolicyDescriptors.v ===== *)
(** * Operation descriptors and evidence

    infrastructure_policy_runtime.rs: the adapters that reduce a capability request
    to bounded policy metadata, the descriptor of an operation, and the evidence
    references that only the engine issues.  The part of durable_state.rs that the
    adapter of the state capability calls is here as well. *)

From S2P Require Import Prelude Strings Json EventTypes Guards PolicyTypes PolicyBundle.

Definition INFRASTRUCTURE_POLICY_DESCRIPTOR_CONTRACT : string := "woml.infrastructure-operation".
Definition INFRASTRUCTURE_POLICY_EVIDENCE_CONTRACT : string := "woml.infrastructure-evidence".
Definition INFRASTRUCTURE_POLICY_RUNTIME_CONTRACT_VERSION : N := 1.
Definition INFRASTRUCTURE_POLICY_MAX_METADATA_FIELDS : nat := 32.
Definition INFRASTRUCTURE_POLICY_MAX_METADATA_VALUE_BYTES : N := 512.

Definition capability_result := result CapabilityFailure.

Definition policy_input_unsupported (message : string) : CapabilityFailure :=
  CapabilityFailure.mk CapabilityFailureKind.ServiceRejected "WOML_POLICY_INPUT_UNSUPPORTED"
    message false false None.

(** ** Reading the input *)

(** The index that a segment of a JSON pointer names in an array. *)
Definition pointer_index (segment : string) : option nat :=
  if starts_with "+" segment || (starts_with "0" segment && negb (str_len segment =? 1)%N) then None
  else N.to_nat <$> parse_usize segment.

(** [Value::pointer] of the pointer with the given segments, which have no escapes. *)
Fixpoint pointer (value : Value) (segments : list string) : option Value :=
  match segments with
  | [] => Some value
  | segment :: segments =>
      match value with
      | Value.Object m => v ← map_get m segment; pointer v segments
      | Value.Array values => i ← pointer_index segment; v ← values !! i; pointer v segments
      | _ => None
      end
  end.

(** [Value::as_array]. *)
Definition as_array (value : Value) : option (list Value) :=
  match value with Value.Array values => Some values | _ => None end.

Definition string_at (value : Value) (segments : list string) : option string :=
  v ← pointer value segments; as_str v.

(** [map] and [collect] into a [Result] of the strings. *)
Fixpoint collect_strings (values : list Value) : capability_result (list string) :=
  match values with
  | [] => Ok []
  | value :: values =>
      let? text := ok_or (as_str value)
        (policy_input_unsupported "Process argument metadata is invalid.") in
      let? texts := collect_strings values in
      Ok (text :: texts)
  end.

Definition strings_at (value : Value) (segments : list string) : capability_result (list string) :=
  let? values := ok_or (v ← pointer value segments; as_array v)
    (policy_input_unsupported "Process argument metadata is unavailable.") in
  collect_strings values.

Definition cwd_class (value : option Value) : option string :=
  v ← value; cwd ← as_str v;
  Some (if (cwd == ".") || str_is_empty cwd then "project-root" else "project-relative").

Definition db_operation_class (operation : string) : string :=
  if (operation == "query") || (operation == "read") then "read"
  else if operation == "transaction" then "transaction"
  else "write".

(** [str::trim_start_matches(prefix)] for a prefix that is not empty. *)
Fixpoint trim_start_matches_fuel (fuel : nat) (prefix value : string) : string :=
  match fuel with
  | O => value
  | S fuel =>
      match strip_prefix prefix value with
      | Some rest => trim_start_matches_fuel fuel prefix rest
      | None => value
      end
  end.
Definition trim_start_matches (prefix value : string) : string :=
  trim_start_matches_fuel (String.length value) prefix value.

Definition insert_fact (metadata : InfrastructurePolicyOperationMetadataV1) (key : string)
    (value : option string) : InfrastructurePolicyOperationMetadataV1 :=
  match value with
  | Some value => metadata <| InfrastructurePolicyOperationMetadataV1.facts ::= <[key := value]> |>
  | None => metadata
  end.

Definition empty_metadata : InfrastructurePolicyOperationMetadataV1 :=
  InfrastructurePolicyOperationMetadataV1.mk None None [] 0 None ∅.

(** ** Identifiers and digests *)

Definition valid_policy_identifier (value : string) : bool :=
  negb (str_is_empty value || (128 <? str_len value)%N)
  && first_byte is_ascii_lowercase value && bytes_all is_pattern_byte (tail value).

(** [u64::to_be_bytes]. *)
Definition u64_to_be_bytes (n : N) : string :=
  u32_to_be_bytes (N.shiftr n 32) +:+ u32_to_be_bytes (N.land n 4294967295).

Definition effect_name (effect : CapabilityEffect) : InfrastructurePolicyEffectV1 :=
  match effect with
  | CapabilityEffect.Read => InfrastructurePolicyEffectV1.Read
  | CapabilityEffect.IdempotentWrite => InfrastructurePolicyEffectV1.IdempotentWrite
  | CapabilityEffect.UnsafeWrite => InfrastructurePolicyEffectV1.UnsafeWrite
  end.

(** [value.strip_prefix("sha256:")] of 64 hexadecimal digits of either case. *)
Definition valid_sha256 (value : string) : bool :=
  is_some_and (strip_prefix "sha256:" value) (λ digest,
    (str_len digest =? 64)%N
    && bytes_all (λ b, is_lower_hex b || byte_in 65 70 b) digest).

(** [BTreeSet::iter]. *)
Definition btree_set_iter (values : gset string) : list string :=
  merge_sort (λ a b, Is_true (String.leb a b)) (elements values).

(** ** Coverage *)

Definition supported_operations : list (string * list string) :=
  [("process", ["run"]);
   ("http", ["request"]);
   ("db", ["query"; "execute"; "read"; "insert"; "update"; "delete"; "transaction"]);
   ("storage", ["put"; "get"; "head"; "list"; "delete"]);
   ("cache", ["get"; "set"; "delete"; "has"; "increment"; "set_if_absent"]);
   ("state", ["get"; "has"; "set"; "delete"; "increment"; "set_if_absent"]);
   ("events", ["emit"]);
   ("workflows", ["call"; "start"]);
   ("artifacts", ["put"; "head"; "materialize"]);
   ("locks", ["acquire"; "assert-current"; "release"]);
   ("telegram", ["send"]);
   ("discord", ["send"]);
   ("whatsapp", ["send"])].

Definition infrastructure_policy_descriptor_coverage (capability operation : string) :
    InfrastructurePolicyCoverageV1 :=
  if existsb (λ '(name, operations), (capability == name) && bool_decide (operation ∈ operations))
       supported_operations
  then InfrastructurePolicyCoverageV1.Supported
  else InfrastructurePolicyCoverageV1.Unsupported.

(** ** Bounds *)

Definition invalid_text (limit : N) (value : string) : bool :=
  str_is_empty value || (limit <? str_len value)%N || contains_nul value.

Definition validate_descriptor_context (context : InfrastructurePolicyDescriptorContextV1) :
    capability_result unit :=
  check fail_if
    (existsb (invalid_text 256) [context.(InfrastructurePolicyDescriptorContextV1.workflow_id); context.(InfrastructurePolicyDescriptorContextV1.definition_hash); context.(InfrastructurePolicyDescriptorContextV1.environment)])
    (policy_input_unsupported "The trusted operation context exceeds its frozen limits.");
  fail_if
    (is_some_and context.(InfrastructurePolicyDescriptorContextV1.effective_target) (λ value, negb (valid_policy_identifier value))
     || is_some_and context.(InfrastructurePolicyDescriptorContextV1.review_digest) (λ value, negb (valid_sha256 value)))
    (policy_input_unsupported "The trusted target or review digest is invalid.").

Definition validate_policy_metadata (metadata : InfrastructurePolicyOperationMetadataV1) :
    capability_result unit :=
  fail_if
    (negb (N.of_nat (length metadata.(InfrastructurePolicyOperationMetadataV1.arguments)) =? metadata.(InfrastructurePolicyOperationMetadataV1.argument_count))%N
     || (256 <? length metadata.(InfrastructurePolicyOperationMetadataV1.arguments))%nat
     || (INFRASTRUCTURE_POLICY_MAX_METADATA_FIELDS <? size metadata.(InfrastructurePolicyOperationMetadataV1.facts))%nat
     || existsb (λ value, (32768 <? str_len value)%N || contains_nul value) metadata.(InfrastructurePolicyOperationMetadataV1.arguments)
     || existsb (λ '(key, value),
          str_is_empty key || (64 <? str_len key)%N
          || (INFRASTRUCTURE_POLICY_MAX_METADATA_VALUE_BYTES <? str_len value)%N
          || contains_nul key || contains_nul value)
          (btree_iter metadata.(InfrastructurePolicyOperationMetadataV1.facts))
     || is_some_and metadata.(InfrastructurePolicyOperationMetadataV1.logical_target) (λ value, negb (valid_policy_identifier value))
     || is_some_and metadata.(InfrastructurePolicyOperationMetadataV1.executable) (invalid_text 128))
    (policy_input_unsupported "The trusted policy metadata exceeds its frozen limits.").

Definition adapter_complete (capability operation : string)
    (metadata : InfrastructurePolicyOperationMetadataV1) : bool :=
  let has_target := is_some metadata.(InfrastructurePolicyOperationMetadataV1.logical_target) in
  let has_fact := contains_key metadata.(InfrastructurePolicyOperationMetadataV1.facts) in
  if capability == "process" then (operation == "run") && is_some metadata.(InfrastructurePolicyOperationMetadataV1.executable)
  else if capability == "http" then
    (operation == "request") && has_target && has_fact "method" && has_fact "origin"
  else if capability == "db" then has_target && has_fact "driver" && has_fact "operationClass"
  else if capability == "storage" then
    if operation == "list" then has_fact "action" else has_target
  else if capability == "cache" then has_target
  else if capability == "state" then
    has_target && has_fact "action" && has_fact "keyDigest"
    && is_some_and (metadata.(InfrastructurePolicyOperationMetadataV1.facts) !! "scopeClass") (λ scope, scope == "workflow")
  else if capability == "events" then (operation == "emit") && has_target
  else if capability == "workflows" then ((operation == "call") || (operation == "start")) && has_target
  else if (capability == "artifacts") || (capability == "locks") then has_target
  else if (capability == "telegram") || (capability == "discord") || (capability == "whatsapp") then
    (operation == "send") && has_target
  else false.

Definition validate_adapter_completeness (capability operation : string)
    (metadata : InfrastructurePolicyOperationMetadataV1) : capability_result unit :=
  fail_if (negb (adapter_complete capability operation metadata))
    (policy_input_unsupported
       "The trusted Infrastructure Policy adapter could not produce its required metadata.").

(** ** The key of a state request *)

(** [DurableStateError], durable_state.rs. *)
Module DurableStateError.
Inductive DurableStateError :=
| InvalidRequest | KeyInvalid | ValueInvalid | ValueTooLarge | Conflict | OperationNameInvalid
| OperationIdentityConflict | QuotaExceeded | IntegerRequired | IntegerOverflow
| StoreUnavailable | StoreCorrupt.
End DurableStateError.
Abbreviation DurableStateError := DurableStateError.DurableStateError.

(** The code and the message of an error. *)
Definition state_error_code (error : DurableStateError) : string :=
  match error with
  | DurableStateError.InvalidRequest => "WOML_STATE_VALUE_INVALID"
  | DurableStateError.KeyInvalid => "WOML_STATE_KEY_INVALID"
  | DurableStateError.ValueInvalid => "WOML_STATE_VALUE_INVALID"
  | DurableStateError.ValueTooLarge => "WOML_STATE_VALUE_TOO_LARGE"
  | DurableStateError.Conflict => "WOML_STATE_CONFLICT"
  | DurableStateError.OperationNameInvalid => "WOML_STATE_OPERATION_NAME_INVALID"
  | DurableStateError.OperationIdentityConflict => "WOML_STATE_OPERATION_IDENTITY_CONFLICT"
  | DurableStateError.QuotaExceeded => "WOML_STATE_QUOTA_EXCEEDED"
  | DurableStateError.IntegerRequired => "WOML_STATE_INTEGER_REQUIRED"
  | DurableStateError.IntegerOverflow => "WOML_STATE_INTEGER_OVERFLOW"
  | DurableStateError.StoreUnavailable => "WOML_STATE_STORE_UNAVAILABLE"
  | DurableStateError.StoreCorrupt => "WOML_STATE_STORE_CORRUPT"
  end.
Definition state_error_message (error : DurableStateError) : string :=
  match error with
  | DurableStateError.InvalidRequest => "Durable User State request is invalid."
  | DurableStateError.KeyInvalid =>
      "The state key must be non-empty and at most 256 UTF-8 bytes."
  | DurableStateError.ValueInvalid => "The state value is not valid canonical JSON."
  | DurableStateError.ValueTooLarge => "The state value exceeds its configured byte limit."
  | DurableStateError.Conflict => "The state version does not match."
  | DurableStateError.OperationNameInvalid =>
      "The state mutation requires a stable operation name."
  | DurableStateError.OperationIdentityConflict =>
      "The state mutation identity was reused with different input."
  | DurableStateError.QuotaExceeded => "The workflow state quota would be exceeded."
  | DurableStateError.IntegerRequired => "The existing state value is not a JSON safe integer."
  | DurableStateError.IntegerOverflow =>
      "The state increment would exceed the JSON safe integer range."
  | DurableStateError.StoreUnavailable => "The durable state store is unavailable."
  | DurableStateError.StoreCorrupt => "The durable state store failed its integrity checks."
  end.

Definition state_failure (error : DurableStateError) : CapabilityFailure :=
  let kind :=
    match error with
    | DurableStateError.InvalidRequest | DurableStateError.KeyInvalid
    | DurableStateError.ValueInvalid | DurableStateError.OperationNameInvalid =>
        CapabilityFailureKind.InvalidInput
    | DurableStateError.ValueTooLarge => CapabilityFailureKind.InputTooLarge
    | DurableStateError.StoreUnavailable => CapabilityFailureKind.TransportFailed
    | DurableStateError.StoreCorrupt => CapabilityFailureKind.InvalidResult
    | DurableStateError.Conflict | DurableStateError.OperationIdentityConflict
    | DurableStateError.QuotaExceeded | DurableStateError.IntegerRequired
    | DurableStateError.IntegerOverflow => CapabilityFailureKind.ServiceRejected
    end in
  CapabilityFailure.mk kind (state_error_code error) (state_error_message error)
    (match error with DurableStateError.StoreUnavailable => true | _ => false end) false None.

(** [StateRequest], durable_state.rs. *)
Module StateRequest.
Record StateRequest := mk {
  contract : string;
  contract_version : N;
  kind : string;
  operation : string;
  input : Map
}.
End StateRequest.
Abbreviation StateRequest := StateRequest.StateRequest.

(** The decoding that serde derives for a struct with [deny_unknown_fields]: an object with
    exactly the fields of the struct, or an array with one element per field. *)
Definition state_request_from_value (value : Value) : option StateRequest :=
  let decode contract version kind operation input :=
    contract ← as_str contract;
    version ← as_u64 version;
    guard (version < u32_modulus)%N;;
    kind ← as_str kind;
    operation ← as_str operation;
    input ← as_object input;
    Some (StateRequest.mk contract version kind operation input) in
  match value with
  | Value.Object m =>
      guard (Forall (λ key, key ∈ ["contract"; "contractVersion"; "kind"; "operation"; "input"])
               m.*1);;
      contract ← map_get m "contract";
      version ← map_get m "contractVersion";
      kind ← map_get m "kind";
      operation ← map_get m "operation";
      input ← map_get m "input";
      decode contract version kind operation input
  | Value.Array [contract; version; kind; operation; input] =>
      decode contract version kind operation input
  | _ => None
  end.

Definition STATE_CONTRACT : string := "woml.state".
Definition STATE_OPERATIONS : list string :=
  ["get"; "has"; "set"; "delete"; "increment"; "set_if_absent"].
Definition MAX_STATE_KEY_BYTES : N := 256.
Definition MAX_STATE_SAFE_INTEGER : N := 9007199254740991.

Definition state_key (input : Map) : result DurableStateError string :=
  ok_or
    (v ← map_get input "key"; key ← as_str v;
     if negb (str_is_empty key) && (str_len key <=? MAX_STATE_KEY_BYTES)%N then Some key else None)
    DurableStateError.KeyInvalid.

(** The fields of [input] that an operation allows. *)
Definition allowed_state_fields (operation : string) : option (list string) :=
  if (operation == "get") || (operation == "has") then Some ["key"]
  else if operation == "set" then Some ["key"; "value"; "ifVersion"]
  else if operation == "delete" then Some ["key"; "ifVersion"]
  else if operation == "increment" then Some ["key"; "amount"; "ifVersion"]
  else if operation == "set_if_absent" then Some ["key"; "value"]
  else None.

Definition parse_request (input : Value) (expected_operation : string) :
    result DurableStateError StateRequest :=
  let? request :=
    ok_or (state_request_from_value input) DurableStateError.InvalidRequest in
  check fail_if
    ((request.(StateRequest.contract) != STATE_CONTRACT) || (request.(StateRequest.contract_version) != 1%N)
     || (request.(StateRequest.kind) != "request") || (request.(StateRequest.operation) != expected_operation)
     || negb (bool_decide (request.(StateRequest.operation) ∈ STATE_OPERATIONS)))
    DurableStateError.InvalidRequest;
  let? allowed :=
    ok_or (allowed_state_fields request.(StateRequest.operation)) DurableStateError.InvalidRequest in
  check fail_if
    (existsb (λ key, negb (bool_decide (key ∈ allowed))) request.(StateRequest.input).*1
     || negb (map_contains_key request.(StateRequest.input) "key")
     || (((request.(StateRequest.operation) == "set") || (request.(StateRequest.operation) == "set_if_absent"))
         && negb (map_contains_key request.(StateRequest.input) "value"))
     || ((request.(StateRequest.operation) == "increment") && negb (map_contains_key request.(StateRequest.input) "amount")))
    DurableStateError.InvalidRequest;
  let? _ := state_key request.(StateRequest.input) in
  check if_some (map_get request.(StateRequest.input) "ifVersion") (λ version,
    fail_if (negb (is_some_and (as_u64 version) (λ n, (n <=? MAX_STATE_SAFE_INTEGER)%N)))
      DurableStateError.InvalidRequest);
  Ok request.

Definition validated_policy_key (input : Value) (expected_operation : string) :
    capability_result string :=
  let? parsed := map_err state_failure (parse_request input expected_operation) in
  map_err state_failure (state_key parsed.(StateRequest.input)).

(** ** Adapters *)

Section descriptors.
Context `{!Externals, !PolicyExternals}.

Definition digest_strings (values : list string) : string :=
  "sha256:" +:+ sha256_hex
    ("woml.infrastructure-policy.arguments" +:+ nul +:+ "v1" +:+ nul
     +:+ String.concat EmptyString ((λ value, u64_to_be_bytes (str_len value) +:+ value) <$> values)).

Definition digest_text (domain value : string) : string :=
  "sha256:" +:+ sha256_hex
    ("woml.infrastructure-policy" +:+ nul +:+ "v1" +:+ nul +:+ domain +:+ nul +:+ value).

Definition digest_json (value : Value) : capability_result string :=
  let? encoded := ok_or (canonical_json value)
    (policy_input_unsupported "The trusted descriptor cannot be canonicalized.") in
  Ok ("sha256:" +:+ sha256_hex encoded).

Definition opaque_target (prefix value : string) : string := prefix +:+ "-" +:+ sha256_hex value.

Definition matcher_target (prefix value : string) : string :=
  if valid_policy_identifier value then value else opaque_target prefix value.

Definition http_target (url : Url) : string :=
  let host := to_ascii_lowercase (default "unknown" url.(Url.host_str)) in
  let candidate :=
    match url.(Url.port) with
    | Some port => url.(Url.scheme) +:+ "-" +:+ host +:+ "-" +:+ decimal port
    | None => url.(Url.scheme) +:+ "-" +:+ host
    end in
  matcher_target "http" candidate.

Notation target := InfrastructurePolicyOperationMetadataV1.logical_target.

(** The opaque target of a key and the fact with its digest, where the key is present. *)
Definition with_opaque_key (prefix domain fact : string) (key : option string)
    (metadata : InfrastructurePolicyOperationMetadataV1) : InfrastructurePolicyOperationMetadataV1 :=
  match key with
  | Some key =>
      insert_fact (metadata <| target := Some (opaque_target prefix key) |>) fact
        (Some (digest_text domain key))
  | None => metadata
  end.

Definition adapt_process (input : Value) : capability_result InfrastructurePolicyOperationMetadataV1 :=
  let? arguments := strings_at input ["args"] in
  let metadata :=
    InfrastructurePolicyOperationMetadataV1.mk None (string_at input ["executable"]) arguments
      (N.of_nat (length arguments)) (Some (digest_strings arguments)) ∅ in
  Ok (insert_fact metadata "cwdClass" (cwd_class (pointer input ["cwd"]))).

Definition adapt_http (input : Value) : capability_result InfrastructurePolicyOperationMetadataV1 :=
  let? url := ok_or (string_at input ["url"])
    (policy_input_unsupported "Managed HTTP URL metadata is unavailable.") in
  let? parsed := ok_or (url_parse url)
    (policy_input_unsupported "Managed HTTP URL metadata is invalid.") in
  let metadata := empty_metadata <| target := Some (http_target parsed) |> in
  let metadata := insert_fact metadata "method" (string_at input ["method"]) in
  let metadata := insert_fact metadata "origin" (Some parsed.(Url.origin_ascii_serialization)) in
  let segments := from_option length 0 parsed.(Url.path_segments) in
  Ok (insert_fact metadata "pathClass" (Some ("segments:" +:+ decimal (N.of_nat segments)))).

Definition adapt_db (input : Value) (operation : string) : InfrastructurePolicyOperationMetadataV1 :=
  let metadata := insert_fact empty_metadata "driver" (string_at input ["driver"]) in
  let metadata := insert_fact metadata "operationClass" (Some (db_operation_class operation)) in
  with_opaque_key "database" "database-connection" "connectionDigest"
    (string_at input ["connection"]) metadata.

Definition adapt_storage (input : Value) (operation : string) :
    InfrastructurePolicyOperationMetadataV1 :=
  with_opaque_key "storage" "storage-key" "keyDigest"
    (or_else (string_at input ["input"; "key"]) (string_at input ["input"; "prefix"]))
    (insert_fact empty_metadata "action" (Some operation)).

Definition adapt_cache (input : Value) (operation : string) :
    InfrastructurePolicyOperationMetadataV1 :=
  with_opaque_key "cache" "cache-key" "keyDigest" (string_at input ["input"; "key"])
    (insert_fact empty_metadata "action" (Some operation)).

Definition adapt_state (input : Value) (operation : string) :
    capability_result InfrastructurePolicyOperationMetadataV1 :=
  let? key := validated_policy_key input operation in
  let metadata := empty_metadata <| target := Some (opaque_target "state" key) |> in
  let metadata := insert_fact metadata "action" (Some operation) in
  let metadata := insert_fact metadata "scopeClass" (Some "workflow") in
  Ok (insert_fact metadata "keyDigest" (Some (digest_text "state-key" key))).

Definition adapt_events (input : Value) : InfrastructurePolicyOperationMetadataV1 :=
  let event_name := string_at input ["input"; "name"] in
  insert_fact (empty_metadata <| target := matcher_target "event" <$> event_name |>)
    "eventName" event_name.

Definition adapt_workflows (input : Value) (operation : string) :
    InfrastructurePolicyOperationMetadataV1 :=
  insert_fact (empty_metadata <| target := string_at input ["workflowId"] |>)
    "invocationMode" (Some operation).

Definition adapt_artifacts (input : Value) (operation : string) :
    InfrastructurePolicyOperationMetadataV1 :=
  if operation == "put" then
    let metadata := empty_metadata
      <| target := matcher_target "artifact" <$> string_at input ["input"; "name"] |> in
    let metadata := insert_fact metadata "action" (Some "put") in
    insert_fact metadata "contentType" (string_at input ["input"; "contentType"])
  else
    let metadata := empty_metadata
      <| target := matcher_target "artifact" <$> string_at input ["input"; "artifact"; "id"] |> in
    let metadata := insert_fact metadata "action" (Some operation) in
    insert_fact metadata "artifactDigest"
      ((λ value, "sha256:" +:+ trim_start_matches "sha256:" value)
         <$> string_at input ["input"; "artifact"; "sha256"]).

Definition adapt_locks (input : Value) (operation : string) :
    InfrastructurePolicyOperationMetadataV1 :=
  if operation == "acquire" then
    insert_fact
      (with_opaque_key "lock" "lock-key" "keyDigest" (string_at input ["key"]) empty_metadata)
      "action" (Some "acquire")
  else
    insert_fact
      (with_opaque_key "lock-session" "lock-session" "sessionDigest"
         (string_at input ["sessionId"]) empty_metadata)
      "action" (Some operation).

Definition adapt_provider (input : Value) (provider : string) :
    InfrastructurePolicyOperationMetadataV1 :=
  insert_fact
    (with_opaque_key provider "provider-destination" "destinationDigest"
       (string_at input ["conversationId"]) empty_metadata)
    "provider" (Some provider).

(** The match on the capability of the handler; the operations that are not supported have been
    rejected before. *)
Definition adapt_capability (capability operation : string) (input : Value) :
    capability_result InfrastructurePolicyOperationMetadataV1 :=
  if capability == "process" then adapt_process input
  else if capability == "http" then adapt_http input
  else if capability == "db" then Ok (adapt_db input operation)
  else if capability == "storage" then Ok (adapt_storage input operation)
  else if capability == "cache" then Ok (adapt_cache input operation)
  else if capability == "state" then adapt_state input operation
  else if capability == "events" then Ok (adapt_events input)
  else if capability == "workflows" then Ok (adapt_workflows input operation)
  else if capability == "artifacts" then Ok (adapt_artifacts input operation)
  else if capability == "locks" then Ok (adapt_locks input operation)
  else if (capability == "telegram") || (capability == "discord") || (capability == "whatsapp")
  then Ok (adapt_provider input capability)
  else Err (policy_input_unsupported
              "No trusted Infrastructure Policy adapter covers this capability operation.").

Definition adapt_infrastructure_policy_metadata (handler : CapabilityDescriptor)
    (request : CapabilityCallRequest) :
    capability_result InfrastructurePolicyOperationMetadataV1 :=
  check fail_if
    (infrastructure_policy_descriptor_coverage handler.(CapabilityDescriptor.capability) handler.(CapabilityDescriptor.operation)
     != InfrastructurePolicyCoverageV1.Supported)
    (policy_input_unsupported
       "No trusted Infrastructure Policy adapter covers this capability operation.");
  let? metadata := adapt_capability handler.(CapabilityDescriptor.capability) handler.(CapabilityDescriptor.operation) request.(CapabilityCallRequest.input) in
  check validate_policy_metadata metadata;
  check validate_adapter_completeness handler.(CapabilityDescriptor.capability) handler.(CapabilityDescriptor.operation) metadata;
  Ok metadata.

(** ** Descriptors *)

(** [json!] of an optional string. *)
Definition json_optional (o : option string) : Value :=
  match o with Some text => Value.String text | None => Value.Null end.

Definition facts_value (facts : gmap string string) : Value :=
  Value.Object ((λ '(key, value), (key, Value.String value)) <$> btree_iter facts).

Definition build_descriptor (request : CapabilityCallRequest) (handler : CapabilityDescriptor)
    (effective_effect : CapabilityEffect) (context : InfrastructurePolicyDescriptorContextV1)
    (metadata : InfrastructurePolicyOperationMetadataV1) :
    capability_result InfrastructurePolicyOperationDescriptorV1 :=
  check fail_if
    ((request.(CapabilityCallRequest.capability) != handler.(CapabilityDescriptor.capability)) || (request.(CapabilityCallRequest.operation) != handler.(CapabilityDescriptor.operation)))
    (policy_input_unsupported
       "The capability handler identity does not match the policy operation.");
  check validate_descriptor_context context;
  check validate_policy_metadata metadata;
  let effect := effect_name effective_effect in
  let target := or_else context.(InfrastructurePolicyDescriptorContextV1.effective_target) metadata.(InfrastructurePolicyOperationMetadataV1.logical_target) in
  let? descriptor_digest := digest_json (Value.Object
    [("runId", Value.String request.(CapabilityCallRequest.run_id));
     ("workflowId", Value.String context.(InfrastructurePolicyDescriptorContextV1.workflow_id));
     ("definitionHash", Value.String context.(InfrastructurePolicyDescriptorContextV1.definition_hash));
     ("nodeId", Value.String request.(CapabilityCallRequest.node_id));
     ("attemptNumber", json_number request.(CapabilityCallRequest.attempt_number));
     ("invocationId", Value.String request.(CapabilityCallRequest.invocation_id));
     ("operationKey", Value.String request.(CapabilityCallRequest.identity).(CapabilityCallIdentity.operation_key));
     ("capability", Value.String request.(CapabilityCallRequest.capability));
     ("operation", Value.String request.(CapabilityCallRequest.operation));
     ("effect", Value.String (effect_text effect));
     ("environment", Value.String context.(InfrastructurePolicyDescriptorContextV1.environment));
     ("target", json_optional target);
     ("executable", json_optional metadata.(InfrastructurePolicyOperationMetadataV1.executable));
     ("argumentCount", json_number metadata.(InfrastructurePolicyOperationMetadataV1.argument_count));
     ("argumentDigest", json_optional metadata.(InfrastructurePolicyOperationMetadataV1.argument_digest));
     ("executionMode", Value.String (execution_mode_text context.(InfrastructurePolicyDescriptorContextV1.execution_mode)));
     ("reviewDigest", json_optional context.(InfrastructurePolicyDescriptorContextV1.review_digest));
     ("facts", facts_value metadata.(InfrastructurePolicyOperationMetadataV1.facts))]) in
  Ok (InfrastructurePolicyOperationDescriptorV1.mk
        INFRASTRUCTURE_POLICY_DESCRIPTOR_CONTRACT INFRASTRUCTURE_POLICY_RUNTIME_CONTRACT_VERSION
        descriptor_digest request.(CapabilityCallRequest.run_id) context.(InfrastructurePolicyDescriptorContextV1.workflow_id) context.(InfrastructurePolicyDescriptorContextV1.definition_hash)
        request.(CapabilityCallRequest.node_id) request.(CapabilityCallRequest.attempt_number) request.(CapabilityCallRequest.invocation_id)
        request.(CapabilityCallRequest.identity).(CapabilityCallIdentity.operation_key) request.(CapabilityCallRequest.capability) request.(CapabilityCallRequest.operation) effect
        context.(InfrastructurePolicyDescriptorContextV1.environment) target metadata.(InfrastructurePolicyOperationMetadataV1.executable) metadata.(InfrastructurePolicyOperationMetadataV1.arguments)
        metadata.(InfrastructurePolicyOperationMetadataV1.argument_count) metadata.(InfrastructurePolicyOperationMetadataV1.argument_digest) context.(InfrastructurePolicyDescriptorContextV1.execution_mode)
        context.(InfrastructurePolicyDescriptorContextV1.review_digest) metadata.(InfrastructurePolicyOperationMetadataV1.facts)).

(** ** Evidence *)

Definition evidence_kind_text (kind : InfrastructurePolicyEvidenceKindV1) : string :=
  match kind with
  | InfrastructurePolicyEvidenceKindV1.Approval => "approval"
  | InfrastructurePolicyEvidenceKindV1.Artifact => "artifact"
  | InfrastructurePolicyEvidenceKindV1.Backup => "backup"
  | InfrastructurePolicyEvidenceKindV1.Attestation => "attestation"
  | InfrastructurePolicyEvidenceKindV1.Lock => "lock"
  | InfrastructurePolicyEvidenceKindV1.OperatorIdentity => "operator_identity"
  end.

Definition issue (kind : InfrastructurePolicyEvidenceKindV1) (evidence_id authority : string)
    (issued_at : DateTime) (expires_at : option DateTime) (run_id : string)
    (node_id operation_key review_digest principal_id : option string) (roles : gset string)
    (verified_integrity : bool) (lock_key : option string) :
    result string InfrastructurePolicyEvidenceReferenceV1 :=
  check fail_if
    (existsb (invalid_text 256) [evidence_id; authority; run_id]
     || is_some_and node_id (invalid_text 256)
     || is_some_and operation_key (invalid_text 256)
     || is_some_and review_digest (λ value, negb (valid_sha256 value))
     || is_some_and principal_id (invalid_text 256)
     || (64 <? size roles)%nat
     || existsb (invalid_text 128) (btree_set_iter roles)
     || is_some_and lock_key (invalid_text 256)
     || is_some_and expires_at (λ expires, (expires <=? issued_at)%Z))
    "engine-owned evidence exceeds its frozen limits";
  let? encoded := ok_or (canonical_json (Value.Object
    [("kind", Value.String (evidence_kind_text kind));
     ("evidenceId", Value.String evidence_id);
     ("authority", Value.String authority);
     ("issuedAt", Value.String (serialize_datetime issued_at));
     ("expiresAt", json_optional (serialize_datetime <$> expires_at));
     ("runId", Value.String run_id);
     ("nodeId", json_optional node_id);
     ("operationKey", json_optional operation_key);
     ("reviewDigest", json_optional review_digest);
     ("principalId", json_optional principal_id);
     ("roles", json_strings (btree_set_iter roles));
     ("verifiedIntegrity", Value.Bool verified_integrity);
     ("lockKeyDigest", json_optional (digest_text "lock-key" <$> lock_key))]))
    "engine-owned evidence cannot be canonicalized" in
  Ok (InfrastructurePolicyEvidenceReferenceV1.mk
        INFRASTRUCTURE_POLICY_EVIDENCE_CONTRACT INFRASTRUCTURE_POLICY_RUNTIME_CONTRACT_VERSION
        evidence_id ("sha256:" +:+ sha256_hex encoded) kind authority issued_at expires_at run_id
        node_id operation_key review_digest principal_id roles verified_integrity lock_key).
End descriptors.
