(* ===== verification/PolicyEvaluation.v ===== *)
(** * Policy evaluation

    infrastructure_policy_runtime.rs: the meter, the matching of rules, the
    requirements of the matching rules, the decision and its record, and the
    emergency overlay.  The readings of the monotonic clock are the function
    [clock]: [clock n] is the time that has elapsed, in nanoseconds, at the n-th
    reading since the evaluation started. *)

From S2P Require Import Prelude Strings Json EventTypes Guards ModelTypes EngineExternals.
From S2P Require Import PolicyTypes PolicyBundle PolicyDescriptors.

Definition INFRASTRUCTURE_POLICY_DECISION_CONTRACT : string := "woml.infrastructure-decision".
Definition INFRASTRUCTURE_POLICY_MAX_EXPLANATION_BYTES : N := 1024.
Definition INFRASTRUCTURE_POLICY_MAX_EVIDENCE : N := 128.

(** An evaluation returns or panics. *)
Definition evaluation := result Empty_set.

Module DecisionSetters.
Import InfrastructurePolicyDecisionRecordV1.
#[global] Instance InfrastructurePolicyDecisionRecordV1_eta : Eta InfrastructurePolicyDecisionRecordV1 := λ r,
  mk r.(contract) r.(contract_version) r.(decision_id) r.(policy_id) r.(policy_version)
    r.(policy_digest) r.(descriptor_digest) r.(outcome) r.(matched_rule_ids) r.(operation)
    r.(reason_codes) r.(requirements) r.(explanation) r.(emergency_deny) r.(evaluated_at)
    r.(evaluation_duration_micros) r.(evaluation_instructions).
#[global] Instance set_decision_id : Setter decision_id := ltac:(mk_setter).
#[global] Instance set_outcome : Setter outcome := ltac:(mk_setter).
#[global] Instance set_reason_codes : Setter reason_codes := ltac:(mk_setter).
#[global] Instance set_explanation : Setter explanation := ltac:(mk_setter).
#[global] Instance set_emergency_deny : Setter emergency_deny := ltac:(mk_setter).
End DecisionSetters.

(** ** Preparation *)

(** [InfrastructurePolicyEvaluationBudgetV1::default]. *)
Definition default_budget : InfrastructurePolicyEvaluationBudgetV1 :=
  InfrastructurePolicyEvaluationBudgetV1.mk 250000 100000000 INFRASTRUCTURE_POLICY_MAX_EVIDENCE.

Definition prepare_with_budget (policy : PreparedInfrastructurePolicyV1)
    (budget : InfrastructurePolicyEvaluationBudgetV1) : InfrastructurePolicyPreparedEvaluatorV1 :=
  InfrastructurePolicyPreparedEvaluatorV1.mk policy
    (sort_by (by_key InfrastructurePolicyRuleV1.id) policy.(PreparedInfrastructurePolicyV1.bundle).(InfrastructurePolicyBundleV1.rules)) budget.

Definition prepare (policy : PreparedInfrastructurePolicyV1) :
    InfrastructurePolicyPreparedEvaluatorV1 :=
  prepare_with_budget policy default_budget.

(** ** Encodings *)

Definition outcome_text (outcome : InfrastructurePolicyDecisionOutcomeV1) : string :=
  match outcome with
  | InfrastructurePolicyDecisionOutcomeV1.Allow => "allow"
  | InfrastructurePolicyDecisionOutcomeV1.Deny => "deny"
  | InfrastructurePolicyDecisionOutcomeV1.RequirementsUnsatisfied => "requirements_unsatisfied"
  end.
Definition reason_text (reason : InfrastructurePolicyReasonCodeV1) : string :=
  match reason with
  | InfrastructurePolicyReasonCodeV1.ExplicitDeny => "explicit_deny"
  | InfrastructurePolicyReasonCodeV1.ExplicitAllow => "explicit_allow"
  | InfrastructurePolicyReasonCodeV1.DefaultAllow => "default_allow"
  | InfrastructurePolicyReasonCodeV1.DefaultDeny => "default_deny"
  | InfrastructurePolicyReasonCodeV1.EnvironmentMismatch => "environment_mismatch"
  | InfrastructurePolicyReasonCodeV1.RequirementsUnsatisfied => "requirements_unsatisfied"
  | InfrastructurePolicyReasonCodeV1.EvaluationBudgetExhausted => "evaluation_budget_exhausted"
  | InfrastructurePolicyReasonCodeV1.InputUnsupported => "input_unsupported"
  | InfrastructurePolicyReasonCodeV1.EmergencyDeny => "emergency_deny"
  end.
(** The derived order of the reason codes: that of their declaration. *)
Definition reason_rank (reason : InfrastructurePolicyReasonCodeV1) : nat :=
  match reason with
  | InfrastructurePolicyReasonCodeV1.ExplicitDeny => 0
  | InfrastructurePolicyReasonCodeV1.ExplicitAllow => 1
  | InfrastructurePolicyReasonCodeV1.DefaultAllow => 2
  | InfrastructurePolicyReasonCodeV1.DefaultDeny => 3
  | InfrastructurePolicyReasonCodeV1.EnvironmentMismatch => 4
  | InfrastructurePolicyReasonCodeV1.RequirementsUnsatisfied => 5
  | InfrastructurePolicyReasonCodeV1.EvaluationBudgetExhausted => 6
  | InfrastructurePolicyReasonCodeV1.InputUnsupported => 7
  | InfrastructurePolicyReasonCodeV1.EmergencyDeny => 8
  end.
Definition sort_reasons (reasons : list InfrastructurePolicyReasonCodeV1) :
    list InfrastructurePolicyReasonCodeV1 :=
  dedup (sort_by (λ a b, (reason_rank a <=? reason_rank b)%nat) reasons).

Definition requirement_result_value (item : InfrastructurePolicyRequirementResultV1) : Value :=
  Value.Object
    [("ruleId", Value.String item.(InfrastructurePolicyRequirementResultV1.rule_id));
     ("requirement", Value.String item.(InfrastructurePolicyRequirementResultV1.requirement));
     ("status", Value.String
        (match item.(InfrastructurePolicyRequirementResultV1.status) with
         | InfrastructurePolicyRequirementStatusV1.Satisfied => "satisfied"
         | InfrastructurePolicyRequirementStatusV1.Unsatisfied => "unsatisfied"
         end));
     ("required", json_number item.(InfrastructurePolicyRequirementResultV1.required));
     ("received", json_number item.(InfrastructurePolicyRequirementResultV1.received))].

Definition emergency_deny_value (overlay : InfrastructurePolicyEmergencyDenyV1) : Value :=
  Value.Object
    [("policyId", Value.String overlay.(InfrastructurePolicyEmergencyDenyV1.policy_id));
     ("policyVersion", Value.String overlay.(InfrastructurePolicyEmergencyDenyV1.policy_version));
     ("policyDigest", Value.String overlay.(InfrastructurePolicyEmergencyDenyV1.policy_digest));
     ("matchedRuleIds", json_strings overlay.(InfrastructurePolicyEmergencyDenyV1.matched_rule_ids))].

(** ** Explanations *)

(** [str::is_char_boundary]: the end, or a byte that does not continue a character. *)
Definition is_char_boundary (value : string) (index : nat) : bool :=
  match String.get index value with
  | Some byte => negb (byte_in 128 191 byte)
  | None => (index =? String.length value)%nat
  end.

(** [String::truncate], which panics inside a character. *)
Definition truncate (value : string) (length : nat) : evaluation string :=
  if is_char_boundary value length then Ok (String.substring 0 length value)
  else Panic "assertion failed: self.is_char_boundary(new_len)".

(** The explanation before it is bounded. *)
Definition explanation_text (outcome : InfrastructurePolicyDecisionOutcomeV1)
    (matched_rule_ids : list string)
    (requirements : list InfrastructurePolicyRequirementResultV1) : string :=
  let rule_text :=
    if is_empty matched_rule_ids then "the bundle default"
    else "rule(s) " +:+ String.concat ", " matched_rule_ids in
  let missing :=
    InfrastructurePolicyRequirementResultV1.requirement <$>
      List.filter (λ item,
        item.(InfrastructurePolicyRequirementResultV1.status) == InfrastructurePolicyRequirementStatusV1.Unsatisfied) requirements in
  match outcome with
  | InfrastructurePolicyDecisionOutcomeV1.Allow =>
      "The operation is allowed by " +:+ rule_text +:+ "."
  | InfrastructurePolicyDecisionOutcomeV1.Deny =>
      "The operation is denied by " +:+ rule_text +:+ "."
  | InfrastructurePolicyDecisionOutcomeV1.RequirementsUnsatisfied =>
      "The operation matched " +:+ rule_text
      +:+ ", but trusted evidence is missing or invalid for: "
      +:+ String.concat ", " missing +:+ "."
  end.

(** After the truncation the end is a character boundary, so the loop that follows it in the
    source does nothing. *)
Definition bounded_explanation (outcome : InfrastructurePolicyDecisionOutcomeV1)
    (matched_rule_ids : list string)
    (requirements : list InfrastructurePolicyRequirementResultV1) : evaluation string :=
  let explanation := explanation_text outcome matched_rule_ids requirements in
  if (INFRASTRUCTURE_POLICY_MAX_EXPLANATION_BYTES <? str_len explanation)%N
  then truncate explanation (N.to_nat INFRASTRUCTURE_POLICY_MAX_EXPLANATION_BYTES)
  else Ok explanation.

(** ** The meter *)

(** [u64::saturating_add]. *)
Definition u64_saturating_add (a b : N) : N := N.min (a + b) (usize_modulus - 1).

Definition meter_new (budget : InfrastructurePolicyEvaluationBudgetV1) : EvaluationMeter :=
  EvaluationMeter.mk budget 0 false 0.

Section evaluation.
Context `{!Externals, !EngineExternals, !PolicyExternals}.
Variable clock : nat → N.

Definition tick (meter : EvaluationMeter) (amount : N) : EvaluationMeter * bool :=
  let instructions := u64_saturating_add meter.(EvaluationMeter.instructions) amount in
  let meter := meter <| EvaluationMeter.instructions := instructions |> in
  if (meter.(EvaluationMeter.budget).(InfrastructurePolicyEvaluationBudgetV1.max_instructions) <? instructions)%N
  then (meter <| EvaluationMeter.exhausted := true |>, false)
  else
    let elapsed := clock meter.(EvaluationMeter.readings) in
    let meter := meter <| EvaluationMeter.readings ::= S |> in
    if (meter.(EvaluationMeter.budget).(InfrastructurePolicyEvaluationBudgetV1.max_duration) <? elapsed)%N
    then (meter <| EvaluationMeter.exhausted := true |>, false)
    else (meter, true).

(** ** Rules *)

Fixpoint is_prefix_of (prefix values : list string) : bool :=
  match prefix, values with
  | [], _ => true
  | a :: prefix, b :: values => (a == b) && is_prefix_of prefix values
  | _ :: _, [] => false
  end.

(** The array of checks of [rule_matches]. *)
Definition matcher_checks (matcher : InfrastructurePolicyRuleMatchV1)
    (descriptor : InfrastructurePolicyOperationDescriptorV1) : list bool :=
  [is_none_or matcher.(InfrastructurePolicyRuleMatchV1.capabilities) (λ values, bool_decide (descriptor.(InfrastructurePolicyOperationDescriptorV1.capability) ∈ values));
   is_none_or matcher.(InfrastructurePolicyRuleMatchV1.operations) (λ values, bool_decide (descriptor.(InfrastructurePolicyOperationDescriptorV1.operation) ∈ values));
   is_none_or matcher.(InfrastructurePolicyRuleMatchV1.effects) (λ values, bool_decide (descriptor.(InfrastructurePolicyOperationDescriptorV1.effect) ∈ values));
   is_none_or matcher.(InfrastructurePolicyRuleMatchV1.workflows) (λ values, bool_decide (descriptor.(InfrastructurePolicyOperationDescriptorV1.workflow_id) ∈ values));
   is_none_or matcher.(InfrastructurePolicyRuleMatchV1.targets) (λ values,
     is_some_and descriptor.(InfrastructurePolicyOperationDescriptorV1.target) (λ target, bool_decide (target ∈ values)));
   is_none_or matcher.(InfrastructurePolicyRuleMatchV1.executables) (λ values,
     is_some_and descriptor.(InfrastructurePolicyOperationDescriptorV1.executable) (λ executable, bool_decide (executable ∈ values)));
   is_none_or matcher.(InfrastructurePolicyRuleMatchV1.argument_prefix) (λ prefix, is_prefix_of prefix descriptor.(InfrastructurePolicyOperationDescriptorV1.arguments));
   is_none_or matcher.(InfrastructurePolicyRuleMatchV1.execution_modes) (λ values, bool_decide (descriptor.(InfrastructurePolicyOperationDescriptorV1.execution_mode) ∈ values))].

Definition rule_matches (matcher : InfrastructurePolicyRuleMatchV1)
    (descriptor : InfrastructurePolicyOperationDescriptorV1) (meter : EvaluationMeter) :
    EvaluationMeter * bool :=
  let checks := matcher_checks matcher descriptor in
  let meter := (tick meter (N.of_nat (length checks))).1 in
  (meter, negb meter.(EvaluationMeter.exhausted) && forallb id checks).

(** The loop over the rules, which stops when the meter does. *)
Fixpoint matching_rules (rules : list InfrastructurePolicyRuleV1)
    (descriptor : InfrastructurePolicyOperationDescriptorV1) (meter : EvaluationMeter) :
    EvaluationMeter * list InfrastructurePolicyRuleV1 :=
  match rules with
  | [] => (meter, [])
  | rule :: rules =>
      let (meter, within) := tick meter 1 in
      if within then
        let (meter, matched) := rule_matches rule.(InfrastructurePolicyRuleV1.matcher) descriptor meter in
        let (meter, matching) := matching_rules rules descriptor meter in
        (meter, if matched then rule :: matching else matching)
      else (meter, [])
  end.

(** ** Requirements *)

Definition evidence_in_scope (evidence : InfrastructurePolicyEvidenceReferenceV1)
    (descriptor : InfrastructurePolicyOperationDescriptorV1) (now : DateTime) : bool :=
  (evidence.(InfrastructurePolicyEvidenceReferenceV1.contract) == INFRASTRUCTURE_POLICY_EVIDENCE_CONTRACT)
  && (evidence.(InfrastructurePolicyEvidenceReferenceV1.contract_version) == INFRASTRUCTURE_POLICY_RUNTIME_CONTRACT_VERSION)
  && (evidence.(InfrastructurePolicyEvidenceReferenceV1.run_id) == descriptor.(InfrastructurePolicyOperationDescriptorV1.run_id))
  && is_none_or evidence.(InfrastructurePolicyEvidenceReferenceV1.node_id) (λ value, value == descriptor.(InfrastructurePolicyOperationDescriptorV1.node_id))
  && is_none_or evidence.(InfrastructurePolicyEvidenceReferenceV1.operation_key) (λ value, value == descriptor.(InfrastructurePolicyOperationDescriptorV1.operation_key))
  && (evidence.(InfrastructurePolicyEvidenceReferenceV1.issued_at) <=? now)%Z
  && is_none_or evidence.(InfrastructurePolicyEvidenceReferenceV1.expires_at) (λ expires, (now <? expires)%Z).

Definition requirement_result (rule_id requirement : string) (required received : N)
    (satisfied : bool) : InfrastructurePolicyRequirementResultV1 :=
  InfrastructurePolicyRequirementResultV1.mk rule_id requirement
    (if satisfied then InfrastructurePolicyRequirementStatusV1.Satisfied
     else InfrastructurePolicyRequirementStatusV1.Unsatisfied)
    required received.

(** [TimeDelta::num_milliseconds]. *)
Definition num_milliseconds (nanoseconds : Z) : Z := Z.quot nanoseconds NANOS_PER_MILLI.

(** The review digest that a requirement binds. *)
Definition review_bound (bind_review_digest : bool)
    (descriptor : InfrastructurePolicyOperationDescriptorV1)
    (item : InfrastructurePolicyEvidenceReferenceV1) : bool :=
  negb bind_review_digest
  || (is_some descriptor.(InfrastructurePolicyOperationDescriptorV1.review_digest) && (item.(InfrastructurePolicyEvidenceReferenceV1.review_digest) == descriptor.(InfrastructurePolicyOperationDescriptorV1.review_digest))).

Definition approval_counts (approval : InfrastructurePolicyApprovalRequirementV1)
    (descriptor : InfrastructurePolicyOperationDescriptorV1) (now : DateTime)
    (item : InfrastructurePolicyEvidenceReferenceV1) : bool :=
  let age := num_milliseconds (now - item.(InfrastructurePolicyEvidenceReferenceV1.issued_at))%Z in
  evidence_in_scope item descriptor now
  && (item.(InfrastructurePolicyEvidenceReferenceV1.kind) == InfrastructurePolicyEvidenceKindV1.Approval)
  && (0 <=? age)%Z
  && (Z.to_N age <=? approval.(InfrastructurePolicyApprovalRequirementV1.max_age_ms))%N
  && review_bound approval.(InfrastructurePolicyApprovalRequirementV1.bind_review_digest) descriptor item.

Definition artifact_counts (artifact : InfrastructurePolicyArtifactRequirementV1)
    (descriptor : InfrastructurePolicyOperationDescriptorV1) (now : DateTime)
    (item : InfrastructurePolicyEvidenceReferenceV1) : bool :=
  evidence_in_scope item descriptor now
  && match item.(InfrastructurePolicyEvidenceReferenceV1.kind) with
     | InfrastructurePolicyEvidenceKindV1.Artifact | InfrastructurePolicyEvidenceKindV1.Backup
     | InfrastructurePolicyEvidenceKindV1.Attestation => true
     | _ => false
     end
  && (negb artifact.(InfrastructurePolicyArtifactRequirementV1.verified_integrity) || item.(InfrastructurePolicyEvidenceReferenceV1.verified_integrity))
  && review_bound artifact.(InfrastructurePolicyArtifactRequirementV1.bind_review_digest) descriptor item.

Definition lock_counts (lock : InfrastructurePolicyLockRequirementV1)
    (descriptor : InfrastructurePolicyOperationDescriptorV1) (now minimum_expiry : DateTime)
    (item : InfrastructurePolicyEvidenceReferenceV1) : bool :=
  evidence_in_scope item descriptor now
  && (item.(InfrastructurePolicyEvidenceReferenceV1.kind) == InfrastructurePolicyEvidenceKindV1.Lock)
  && (item.(InfrastructurePolicyEvidenceReferenceV1.lock_key) == Some lock.(InfrastructurePolicyLockRequirementV1.key))
  && is_some_and item.(InfrastructurePolicyEvidenceReferenceV1.expires_at) (λ expires, (minimum_expiry <=? expires)%Z).

(** The loop over the evidence of approvals: the principals and roles that count, or [None] when
    the meter stops the evaluation of the requirements. *)
Fixpoint collect_approvals (counts : InfrastructurePolicyEvidenceReferenceV1 → bool)
    (evidence : list InfrastructurePolicyEvidenceReferenceV1) (meter : EvaluationMeter)
    (principals roles : gset string) : EvaluationMeter * option (gset string * gset string) :=
  match evidence with
  | [] => (meter, Some (principals, roles))
  | item :: evidence =>
      let (meter, within) := tick meter 1 in
      if within then
        if counts item then
          collect_approvals counts evidence meter
            (match item.(InfrastructurePolicyEvidenceReferenceV1.principal_id) with
             | Some principal => {[principal]} ∪ principals
             | None => principals
             end)
            (roles ∪ item.(InfrastructurePolicyEvidenceReferenceV1.roles))
        else collect_approvals counts evidence meter principals roles
      else (meter, None)
  end.

(** [evidence.iter().filter(...).count()] with a tick per item. *)
Fixpoint count_evidence (counts : InfrastructurePolicyEvidenceReferenceV1 → bool)
    (evidence : list InfrastructurePolicyEvidenceReferenceV1) (meter : EvaluationMeter) :
    EvaluationMeter * nat :=
  match evidence with
  | [] => (meter, 0%nat)
  | item :: evidence =>
      let meter := (tick meter 1).1 in
      let counted := negb meter.(EvaluationMeter.exhausted) && counts item in
      let (meter, count) := count_evidence counts evidence meter in
      (meter, if counted then S count else count)
  end.

(** [evidence.iter().any(...)] with a tick per item. *)
Fixpoint any_evidence (counts : InfrastructurePolicyEvidenceReferenceV1 → bool)
    (evidence : list InfrastructurePolicyEvidenceReferenceV1) (meter : EvaluationMeter) :
    EvaluationMeter * bool :=
  match evidence with
  | [] => (meter, false)
  | item :: evidence =>
      let meter := (tick meter 1).1 in
      if negb meter.(EvaluationMeter.exhausted) && counts item then (meter, true)
      else any_evidence counts evidence meter
  end.

(** [n as i64]. *)
Definition as_i64 (n : N) : Z :=
  if (n <? 9223372036854775808)%N then Z.of_N n else (Z.of_N n - 18446744073709551616)%Z.

Definition window_open (window : InfrastructurePolicyValidityRequirementV1) (now : DateTime) : bool :=
  match parse_from_rfc3339 window.(InfrastructurePolicyValidityRequirementV1.not_before), parse_from_rfc3339 window.(InfrastructurePolicyValidityRequirementV1.not_after) with
  | Some start, Some stop => (start <=? now)%Z && (now <=? stop)%Z
  | _, _ => false
  end.

(** [u32::from(bool)]. *)
Definition u32_from_bool (b : bool) : N := if b then 1 else 0.

(** The four parts of [evaluate_requirements]: the meter and the result that is pushed. *)
Definition evaluate_approval (rule_id : string) (approval : InfrastructurePolicyApprovalRequirementV1)
    (descriptor : InfrastructurePolicyOperationDescriptorV1)
    (evidence : list InfrastructurePolicyEvidenceReferenceV1) (now : DateTime)
    (meter : EvaluationMeter) : EvaluationMeter * option InfrastructurePolicyRequirementResultV1 :=
  let (meter, counted) :=
    collect_approvals (approval_counts approval descriptor now) evidence meter ∅ ∅ in
  (meter,
   (λ '(principals, roles),
      let roles_satisfied := forallb (λ role, bool_decide (role ∈ roles)) approval.(InfrastructurePolicyApprovalRequirementV1.roles) in
      let received := as_u32 (size principals) in
      requirement_result rule_id "approval" approval.(InfrastructurePolicyApprovalRequirementV1.minimum) received
        ((approval.(InfrastructurePolicyApprovalRequirementV1.minimum) <=? received)%N && roles_satisfied)) <$> counted).

Definition evaluate_artifacts (rule_id : string) (artifact : InfrastructurePolicyArtifactRequirementV1)
    (descriptor : InfrastructurePolicyOperationDescriptorV1)
    (evidence : list InfrastructurePolicyEvidenceReferenceV1) (now : DateTime)
    (meter : EvaluationMeter) : EvaluationMeter * InfrastructurePolicyRequirementResultV1 :=
  let (meter, count) := count_evidence (artifact_counts artifact descriptor now) evidence meter in
  let received := as_u32 count in
  (meter, requirement_result rule_id "artifacts" artifact.(InfrastructurePolicyArtifactRequirementV1.minimum) received
            (artifact.(InfrastructurePolicyArtifactRequirementV1.minimum) <=? received)%N).

Definition evaluate_lock (rule_id : string) (lock : InfrastructurePolicyLockRequirementV1)
    (descriptor : InfrastructurePolicyOperationDescriptorV1)
    (evidence : list InfrastructurePolicyEvidenceReferenceV1) (now : DateTime)
    (meter : EvaluationMeter) :
    evaluation (EvaluationMeter * InfrastructurePolicyRequirementResultV1) :=
  let? minimum_expiry := datetime_add now (as_i64 lock.(InfrastructurePolicyLockRequirementV1.minimum_remaining_ms)) in
  let (meter, found) := any_evidence (lock_counts lock descriptor now minimum_expiry) evidence meter in
  let received := u32_from_bool found in
  Ok (meter, requirement_result rule_id "lock" 1 received (received =? 1)%N).

Definition evaluate_window (rule_id : string) (window : InfrastructurePolicyValidityRequirementV1)
    (now : DateTime) (meter : EvaluationMeter) :
    EvaluationMeter * InfrastructurePolicyRequirementResultV1 :=
  let valid := window_open window now in
  ((tick meter 2).1, requirement_result rule_id "valid_between" 1 (u32_from_bool valid) valid).

(** The part after the approval. *)
Definition evaluate_other_requirements (rule_id : string)
    (requirements : InfrastructurePolicyRequirementsV1)
    (descriptor : InfrastructurePolicyOperationDescriptorV1)
    (evidence : list InfrastructurePolicyEvidenceReferenceV1) (now : DateTime)
    (meter : EvaluationMeter) (results : list InfrastructurePolicyRequirementResultV1) :
    evaluation (EvaluationMeter * list InfrastructurePolicyRequirementResultV1) :=
  let '(meter, results) :=
    match requirements.(InfrastructurePolicyRequirementsV1.artifacts) with
    | Some artifact =>
        let (meter, item) := evaluate_artifacts rule_id artifact descriptor evidence now meter in
        (meter, results ++ [item])
    | None => (meter, results)
    end in
  let? (meter, results) :=
    match requirements.(InfrastructurePolicyRequirementsV1.lock) with
    | Some lock =>
        let? (meter, item) := evaluate_lock rule_id lock descriptor evidence now meter in
        Ok (meter, results ++ [item])
    | None => Ok (meter, results)
    end in
  match requirements.(InfrastructurePolicyRequirementsV1.valid_between) with
  | Some window =>
      let (meter, item) := evaluate_window rule_id window now meter in
      Ok (meter, results ++ [item])
  | None => Ok (meter, results)
  end.

Definition evaluate_requirements (rule_id : string)
    (requirements : InfrastructurePolicyRequirementsV1)
    (descriptor : InfrastructurePolicyOperationDescriptorV1)
    (evidence : list InfrastructurePolicyEvidenceReferenceV1) (now : DateTime)
    (meter : EvaluationMeter) (results : list InfrastructurePolicyRequirementResultV1) :
    evaluation (EvaluationMeter * list InfrastructurePolicyRequirementResultV1) :=
  match requirements.(InfrastructurePolicyRequirementsV1.approval) with
  | Some approval =>
      let (meter, item) := evaluate_approval rule_id approval descriptor evidence now meter in
      match item with
      | Some item =>
          evaluate_other_requirements rule_id requirements descriptor evidence now meter
            (results ++ [item])
      | None => Ok (meter, results)
      end
  | None => evaluate_other_requirements rule_id requirements descriptor evidence now meter results
  end.

(** The loop over the matching rules that allow. *)
Fixpoint evaluate_rule_requirements (allows : list InfrastructurePolicyRuleV1)
    (descriptor : InfrastructurePolicyOperationDescriptorV1)
    (evidence : list InfrastructurePolicyEvidenceReferenceV1) (now : DateTime)
    (meter : EvaluationMeter) (results : list InfrastructurePolicyRequirementResultV1) :
    evaluation (EvaluationMeter * list InfrastructurePolicyRequirementResultV1) :=
  match allows with
  | [] => Ok (meter, results)
  | rule :: allows =>
      let? (meter, results) :=
        match rule.(InfrastructurePolicyRuleV1.requires) with
        | Some required =>
            evaluate_requirements rule.(InfrastructurePolicyRuleV1.id) required descriptor evidence now meter results
        | None => Ok (meter, results)
        end in
      evaluate_rule_requirements allows descriptor evidence now meter results
  end.

(** The order of the requirement results: by rule, then by requirement. *)
Definition requirement_leb (left right : InfrastructurePolicyRequirementResultV1) : bool :=
  match String.compare left.(InfrastructurePolicyRequirementResultV1.rule_id) right.(InfrastructurePolicyRequirementResultV1.rule_id) with
  | Lt => true
  | Eq => String.leb left.(InfrastructurePolicyRequirementResultV1.requirement) right.(InfrastructurePolicyRequirementResultV1.requirement)
  | Gt => false
  end.

(** ** Decisions *)

Definition default_for (evaluator : InfrastructurePolicyPreparedEvaluatorV1)
    (effect : InfrastructurePolicyEffectV1) : InfrastructurePolicyDefaultV1 :=
  match effect with
  | InfrastructurePolicyEffectV1.Read => evaluator.(InfrastructurePolicyPreparedEvaluatorV1.policy).(PreparedInfrastructurePolicyV1.bundle).(InfrastructurePolicyBundleV1.defaults).(InfrastructurePolicyDefaultsV1.read)
  | InfrastructurePolicyEffectV1.IdempotentWrite => evaluator.(InfrastructurePolicyPreparedEvaluatorV1.policy).(PreparedInfrastructurePolicyV1.bundle).(InfrastructurePolicyBundleV1.defaults).(InfrastructurePolicyDefaultsV1.idempotent_write)
  | InfrastructurePolicyEffectV1.UnsafeWrite => evaluator.(InfrastructurePolicyPreparedEvaluatorV1.policy).(PreparedInfrastructurePolicyV1.bundle).(InfrastructurePolicyBundleV1.defaults).(InfrastructurePolicyDefaultsV1.unsafe_write)
  end.

(** The identifier of a decision: a digest of its seed. *)
Definition decision_id_of (seed : Value) : string :=
  match canonical_json seed with
  | Some encoded => "decision_" +:+ sha256_hex encoded
  | None => "decision_unavailable"
  end.

Definition operation_summary (descriptor : InfrastructurePolicyOperationDescriptorV1) :
    InfrastructurePolicySafeOperationSummaryV1 :=
  InfrastructurePolicySafeOperationSummaryV1.mk descriptor.(InfrastructurePolicyOperationDescriptorV1.workflow_id) descriptor.(InfrastructurePolicyOperationDescriptorV1.capability)
    descriptor.(InfrastructurePolicyOperationDescriptorV1.operation) descriptor.(InfrastructurePolicyOperationDescriptorV1.effect) descriptor.(InfrastructurePolicyOperationDescriptorV1.target) descriptor.(InfrastructurePolicyOperationDescriptorV1.executable)
    descriptor.(InfrastructurePolicyOperationDescriptorV1.execution_mode).

Definition decision (evaluator : InfrastructurePolicyPreparedEvaluatorV1)
    (descriptor : InfrastructurePolicyOperationDescriptorV1) (evaluated_at : DateTime)
    (meter : EvaluationMeter) (outcome : InfrastructurePolicyDecisionOutcomeV1)
    (matched_rule_ids : list string) (reason_codes : list InfrastructurePolicyReasonCodeV1)
    (requirements : list InfrastructurePolicyRequirementResultV1) :
    evaluation InfrastructurePolicyDecisionRecordV1 :=
  let matched_rule_ids := dedup (sort_by String.leb matched_rule_ids) in
  let reason_codes := sort_reasons reason_codes in
  let decision_seed := Value.Object
    [("policyDigest", Value.String evaluator.(InfrastructurePolicyPreparedEvaluatorV1.policy).(PreparedInfrastructurePolicyV1.digest));
     ("descriptorDigest", Value.String descriptor.(InfrastructurePolicyOperationDescriptorV1.descriptor_digest));
     ("evaluatedAt", Value.String (serialize_datetime evaluated_at));
     ("matchedRuleIds", json_strings matched_rule_ids);
     ("reasonCodes", json_strings (reason_text <$> reason_codes));
     ("requirements", Value.Array (requirement_result_value <$> requirements));
     ("outcome", Value.String (outcome_text outcome))] in
  let? explanation := bounded_explanation outcome matched_rule_ids requirements in
  Ok (InfrastructurePolicyDecisionRecordV1.mk
        INFRASTRUCTURE_POLICY_DECISION_CONTRACT INFRASTRUCTURE_POLICY_RUNTIME_CONTRACT_VERSION
        (decision_id_of decision_seed) evaluator.(InfrastructurePolicyPreparedEvaluatorV1.policy).(PreparedInfrastructurePolicyV1.bundle).(InfrastructurePolicyBundleV1.id) evaluator.(InfrastructurePolicyPreparedEvaluatorV1.policy).(PreparedInfrastructurePolicyV1.bundle).(InfrastructurePolicyBundleV1.version)
        evaluator.(InfrastructurePolicyPreparedEvaluatorV1.policy).(PreparedInfrastructurePolicyV1.digest) descriptor.(InfrastructurePolicyOperationDescriptorV1.descriptor_digest) outcome matched_rule_ids
        (operation_summary descriptor) reason_codes requirements explanation None evaluated_at
        (clock meter.(EvaluationMeter.readings) / 1000)%N meter.(EvaluationMeter.instructions)).

Definition budget_denied (evaluator : InfrastructurePolicyPreparedEvaluatorV1)
    (descriptor : InfrastructurePolicyOperationDescriptorV1) (evaluated_at : DateTime)
    (meter : EvaluationMeter) : evaluation InfrastructurePolicyDecisionRecordV1 :=
  decision evaluator descriptor evaluated_at meter InfrastructurePolicyDecisionOutcomeV1.Deny []
    [InfrastructurePolicyReasonCodeV1.EvaluationBudgetExhausted] [].

(** The decision without a matching rule. *)
Definition decide_default (evaluator : InfrastructurePolicyPreparedEvaluatorV1)
    (descriptor : InfrastructurePolicyOperationDescriptorV1) (evaluated_at : DateTime)
    (meter : EvaluationMeter) (matched_rule_ids : list string) :
    evaluation InfrastructurePolicyDecisionRecordV1 :=
  let allowed := default_for evaluator descriptor.(InfrastructurePolicyOperationDescriptorV1.effect) == InfrastructurePolicyDefaultV1.Allow in
  decision evaluator descriptor evaluated_at meter
    (if allowed then InfrastructurePolicyDecisionOutcomeV1.Allow
     else InfrastructurePolicyDecisionOutcomeV1.Deny)
    matched_rule_ids
    [if allowed then InfrastructurePolicyReasonCodeV1.DefaultAllow
     else InfrastructurePolicyReasonCodeV1.DefaultDeny]
    [].

(** The decision by matching rules that allow. *)
Definition decide_allows (evaluator : InfrastructurePolicyPreparedEvaluatorV1)
    (descriptor : InfrastructurePolicyOperationDescriptorV1)
    (evidence : list InfrastructurePolicyEvidenceReferenceV1) (evaluated_at : DateTime)
    (meter : EvaluationMeter) (matched_rule_ids : list string)
    (allows : list InfrastructurePolicyRuleV1) : evaluation InfrastructurePolicyDecisionRecordV1 :=
  let? (meter, requirements) :=
    evaluate_rule_requirements allows descriptor evidence evaluated_at meter [] in
  if meter.(EvaluationMeter.exhausted) then budget_denied evaluator descriptor evaluated_at meter
  else
    let requirements := sort_by requirement_leb requirements in
    let unsatisfied :=
      existsb (λ item,
        item.(InfrastructurePolicyRequirementResultV1.status) == InfrastructurePolicyRequirementStatusV1.Unsatisfied) requirements in
    decision evaluator descriptor evaluated_at meter
      (if unsatisfied then InfrastructurePolicyDecisionOutcomeV1.RequirementsUnsatisfied
       else InfrastructurePolicyDecisionOutcomeV1.Allow)
      matched_rule_ids
      [if unsatisfied then InfrastructurePolicyReasonCodeV1.RequirementsUnsatisfied
       else InfrastructurePolicyReasonCodeV1.ExplicitAllow]
      requirements.

Definition rule_denies (rule : InfrastructurePolicyRuleV1) : bool :=
  rule.(InfrastructurePolicyRuleV1.decision) == InfrastructurePolicyDecisionV1.Deny.
Definition rule_allows (rule : InfrastructurePolicyRuleV1) : bool :=
  rule.(InfrastructurePolicyRuleV1.decision) == InfrastructurePolicyDecisionV1.Allow.

Definition evaluate (evaluator : InfrastructurePolicyPreparedEvaluatorV1)
    (descriptor : InfrastructurePolicyOperationDescriptorV1)
    (evidence : list InfrastructurePolicyEvidenceReferenceV1) (evaluated_at : DateTime) :
    evaluation InfrastructurePolicyDecisionRecordV1 :=
  let meter := meter_new evaluator.(InfrastructurePolicyPreparedEvaluatorV1.budget) in
  if descriptor.(InfrastructurePolicyOperationDescriptorV1.environment) != evaluator.(InfrastructurePolicyPreparedEvaluatorV1.policy).(PreparedInfrastructurePolicyV1.bundle).(InfrastructurePolicyBundleV1.environment) then
    decision evaluator descriptor evaluated_at meter InfrastructurePolicyDecisionOutcomeV1.Deny []
      [InfrastructurePolicyReasonCodeV1.EnvironmentMismatch] []
  else
    let meter :=
      if (evaluator.(InfrastructurePolicyPreparedEvaluatorV1.budget).(InfrastructurePolicyEvaluationBudgetV1.max_evidence) <? N.of_nat (length evidence))%N
      then meter <| EvaluationMeter.exhausted := true |> else meter in
    let (meter, matching) := matching_rules evaluator.(InfrastructurePolicyPreparedEvaluatorV1.rules) descriptor meter in
    if meter.(EvaluationMeter.exhausted) then budget_denied evaluator descriptor evaluated_at meter
    else
      let matched_rule_ids := InfrastructurePolicyRuleV1.id <$> matching in
      if existsb rule_denies matching then
        decision evaluator descriptor evaluated_at meter InfrastructurePolicyDecisionOutcomeV1.Deny
          matched_rule_ids [InfrastructurePolicyReasonCodeV1.ExplicitDeny] []
      else
        let allows := List.filter rule_allows matching in
        if is_empty allows then
          decide_default evaluator descriptor evaluated_at meter matched_rule_ids
        else
          decide_allows evaluator descriptor evidence evaluated_at meter matched_rule_ids allows.

(** ** Unsupported input and the emergency overlay *)

Definition input_unsupported_decision (evaluator : InfrastructurePolicyPreparedEvaluatorV1)
    (run_id workflow_id definition_hash node_id : string) (attempt_number : N)
    (invocation_id operation_key capability operation : string) (effect : CapabilityEffect)
    (execution_mode : InfrastructurePolicyExecutionModeV1) (evaluated_at : DateTime) :
    InfrastructurePolicyDecisionRecordV1 :=
  let descriptor_seed := Value.Object
    [("runId", Value.String run_id);
     ("workflowId", Value.String workflow_id);
     ("definitionHash", Value.String definition_hash);
     ("nodeId", Value.String node_id);
     ("attemptNumber", json_number attempt_number);
     ("invocationId", Value.String invocation_id);
     ("operationKey", Value.String operation_key);
     ("capability", Value.String capability);
     ("operation", Value.String operation);
     ("effect", Value.String (effect_text (effect_name effect)));
     ("environment", Value.String evaluator.(InfrastructurePolicyPreparedEvaluatorV1.policy).(PreparedInfrastructurePolicyV1.bundle).(InfrastructurePolicyBundleV1.environment));
     ("executionMode", Value.String (execution_mode_text execution_mode));
     ("normalization", Value.String "unsupported")] in
  let descriptor_digest :=
    "sha256:" +:+ sha256_hex (default "unsupported" (canonical_json descriptor_seed)) in
  let decision_seed := Value.Object
    [("policyDigest", Value.String evaluator.(InfrastructurePolicyPreparedEvaluatorV1.policy).(PreparedInfrastructurePolicyV1.digest));
     ("descriptorDigest", Value.String descriptor_digest);
     ("evaluatedAt", Value.String (serialize_datetime evaluated_at));
     ("reasonCodes", json_strings [reason_text InfrastructurePolicyReasonCodeV1.InputUnsupported]);
     ("outcome", Value.String (outcome_text InfrastructurePolicyDecisionOutcomeV1.Deny))] in
  InfrastructurePolicyDecisionRecordV1.mk
    INFRASTRUCTURE_POLICY_DECISION_CONTRACT INFRASTRUCTURE_POLICY_RUNTIME_CONTRACT_VERSION
    (decision_id_of decision_seed) evaluator.(InfrastructurePolicyPreparedEvaluatorV1.policy).(PreparedInfrastructurePolicyV1.bundle).(InfrastructurePolicyBundleV1.id) evaluator.(InfrastructurePolicyPreparedEvaluatorV1.policy).(PreparedInfrastructurePolicyV1.bundle).(InfrastructurePolicyBundleV1.version)
    evaluator.(InfrastructurePolicyPreparedEvaluatorV1.policy).(PreparedInfrastructurePolicyV1.digest) descriptor_digest InfrastructurePolicyDecisionOutcomeV1.Deny []
    (InfrastructurePolicySafeOperationSummaryV1.mk workflow_id capability operation
       (effect_name effect) None None execution_mode)
    [InfrastructurePolicyReasonCodeV1.InputUnsupported] []
    "The protected operation could not be normalized into a trusted policy descriptor." None
    evaluated_at 0 0.

Definition apply_emergency_deny_overlay (base overlay : InfrastructurePolicyDecisionRecordV1) :
    InfrastructurePolicyDecisionRecordV1 :=
  if overlay.(InfrastructurePolicyDecisionRecordV1.outcome) != InfrastructurePolicyDecisionOutcomeV1.Deny then base
  else
    let emergency_deny :=
      InfrastructurePolicyEmergencyDenyV1.mk overlay.(InfrastructurePolicyDecisionRecordV1.policy_id) overlay.(InfrastructurePolicyDecisionRecordV1.policy_version)
        overlay.(InfrastructurePolicyDecisionRecordV1.policy_digest) overlay.(InfrastructurePolicyDecisionRecordV1.matched_rule_ids) in
    let seed := Value.Object
      [("basePolicyDigest", Value.String base.(InfrastructurePolicyDecisionRecordV1.policy_digest));
       ("descriptorDigest", Value.String base.(InfrastructurePolicyDecisionRecordV1.descriptor_digest));
       ("evaluatedAt", Value.String (serialize_datetime base.(InfrastructurePolicyDecisionRecordV1.evaluated_at)));
       ("emergencyDeny", emergency_deny_value emergency_deny);
       ("outcome", Value.String (outcome_text InfrastructurePolicyDecisionOutcomeV1.Deny))] in
    base <| InfrastructurePolicyDecisionRecordV1.outcome := InfrastructurePolicyDecisionOutcomeV1.Deny |>
         <| InfrastructurePolicyDecisionRecordV1.reason_codes :=
              sort_reasons (base.(InfrastructurePolicyDecisionRecordV1.reason_codes) ++ [InfrastructurePolicyReasonCodeV1.EmergencyDeny]) |>
         <| InfrastructurePolicyDecisionRecordV1.explanation :=
              "An operator emergency-deny overlay blocked this protected effect." |>
         <| InfrastructurePolicyDecisionRecordV1.emergency_deny := Some emergency_deny |>
         <| InfrastructurePolicyDecisionRecordV1.decision_id := decision_id_of seed |>.
End evaluation.
