(* ===== verification/PolicyProperties.v ===== *)
(** * What a policy decides, and what it guarantees

    The verdict of a policy on an operation, stated without meter, order of rules or
    sorting, and the proof that the evaluator of PolicyEvaluation.v returns it, or
    denies because its budget is exhausted.  With enough budget it always returns the
    verdict: the cost of an evaluation is bounded by its rules and evidence.

    Then: the order of the rules does not matter, an emergency overlay only removes
    authority, a decision fits the event that records it, and the identity of a
    policy is that of its signed content. *)

From S2P Require Import Prelude Strings Json EventTypes Guards EventIdentities EventValidation.
From S2P Require Import ModelTypes EngineExternals PolicyTypes PolicyBundle PolicyDescriptors.
From S2P Require Import PolicyEvaluation.

(** ** The specification *)

(** [P] of the value, where there is one. *)
Definition when_some {A} (o : option A) (P : A → Prop) : Prop := ∀ a, o = Some a → P a.

(** A rule applies to an operation when every matcher it has admits it. *)
Record applies (rule : InfrastructurePolicyRuleV1)
    (descriptor : InfrastructurePolicyOperationDescriptorV1) : Prop := {
  applies_capability :
    when_some rule.(InfrastructurePolicyRuleV1.matcher).(InfrastructurePolicyRuleMatchV1.capabilities) (λ values, descriptor.(InfrastructurePolicyOperationDescriptorV1.capability) ∈ values);
  applies_operation :
    when_some rule.(InfrastructurePolicyRuleV1.matcher).(InfrastructurePolicyRuleMatchV1.operations) (λ values, descriptor.(InfrastructurePolicyOperationDescriptorV1.operation) ∈ values);
  applies_effect : when_some rule.(InfrastructurePolicyRuleV1.matcher).(InfrastructurePolicyRuleMatchV1.effects) (λ values, descriptor.(InfrastructurePolicyOperationDescriptorV1.effect) ∈ values);
  applies_workflow :
    when_some rule.(InfrastructurePolicyRuleV1.matcher).(InfrastructurePolicyRuleMatchV1.workflows) (λ values, descriptor.(InfrastructurePolicyOperationDescriptorV1.workflow_id) ∈ values);
  applies_target :
    when_some rule.(InfrastructurePolicyRuleV1.matcher).(InfrastructurePolicyRuleMatchV1.targets) (λ values,
      ∃ target, descriptor.(InfrastructurePolicyOperationDescriptorV1.target) = Some target ∧ target ∈ values);
  applies_executable :
    when_some rule.(InfrastructurePolicyRuleV1.matcher).(InfrastructurePolicyRuleMatchV1.executables) (λ values,
      ∃ executable, descriptor.(InfrastructurePolicyOperationDescriptorV1.executable) = Some executable ∧ executable ∈ values);
  applies_arguments :
    when_some rule.(InfrastructurePolicyRuleV1.matcher).(InfrastructurePolicyRuleMatchV1.argument_prefix) (λ prefix, prefix `prefix_of` descriptor.(InfrastructurePolicyOperationDescriptorV1.arguments));
  applies_mode :
    when_some rule.(InfrastructurePolicyRuleV1.matcher).(InfrastructurePolicyRuleMatchV1.execution_modes) (λ values, descriptor.(InfrastructurePolicyOperationDescriptorV1.execution_mode) ∈ values);
}.

Section specification.
Context `{!PolicyExternals}.
Variables (policy : PreparedInfrastructurePolicyV1)
  (descriptor : InfrastructurePolicyOperationDescriptorV1)
  (evidence : list InfrastructurePolicyEvidenceReferenceV1)
  (now : DateTime).

(** Enough distinct principals approved, and their roles cover the required ones. *)
Definition approval_holds (approval : InfrastructurePolicyApprovalRequirementV1) : Prop :=
  let counted := List.filter (approval_counts approval descriptor now) evidence in
  let principals : gset string :=
    list_to_set (omap InfrastructurePolicyEvidenceReferenceV1.principal_id counted) in
  (approval.(InfrastructurePolicyApprovalRequirementV1.minimum) ≤ N.of_nat (size principals))%N
  ∧ ∀ role, role ∈ approval.(InfrastructurePolicyApprovalRequirementV1.roles) →
      ∃ item, item ∈ counted ∧ role ∈ item.(InfrastructurePolicyEvidenceReferenceV1.roles).

Definition artifacts_hold (artifact : InfrastructurePolicyArtifactRequirementV1) : Prop :=
  (artifact.(InfrastructurePolicyArtifactRequirementV1.minimum)
   ≤ N.of_nat (length (List.filter (artifact_counts artifact descriptor now) evidence)))%N.

(** A lease on the key that lasts long enough. *)
Definition lock_holds (lock : InfrastructurePolicyLockRequirementV1) : Prop :=
  ∃ item, item ∈ evidence
    ∧ lock_counts lock descriptor now (now + as_i64 lock.(InfrastructurePolicyLockRequirementV1.minimum_remaining_ms) * NANOS_PER_MILLI)%Z item
      = true.

Definition window_holds (window : InfrastructurePolicyValidityRequirementV1) : Prop :=
  ∃ start stop, parse_from_rfc3339 window.(InfrastructurePolicyValidityRequirementV1.not_before) = Some start
    ∧ parse_from_rfc3339 window.(InfrastructurePolicyValidityRequirementV1.not_after) = Some stop ∧ (start ≤ now ≤ stop)%Z.

Definition requirements_hold (requirements : InfrastructurePolicyRequirementsV1) : Prop :=
  when_some requirements.(InfrastructurePolicyRequirementsV1.approval) approval_holds
  ∧ when_some requirements.(InfrastructurePolicyRequirementsV1.artifacts) artifacts_hold
  ∧ when_some requirements.(InfrastructurePolicyRequirementsV1.lock) lock_holds
  ∧ when_some requirements.(InfrastructurePolicyRequirementsV1.valid_between) window_holds.

(** The rules of the bundle that apply to the operation. *)
Definition applying (rule : InfrastructurePolicyRuleV1) : Prop :=
  rule ∈ policy.(PreparedInfrastructurePolicyV1.bundle).(InfrastructurePolicyBundleV1.rules) ∧ applies rule descriptor.

Definition bundle_default (effect : InfrastructurePolicyEffectV1) : InfrastructurePolicyDefaultV1 :=
  match effect with
  | InfrastructurePolicyEffectV1.Read => policy.(PreparedInfrastructurePolicyV1.bundle).(InfrastructurePolicyBundleV1.defaults).(InfrastructurePolicyDefaultsV1.read)
  | InfrastructurePolicyEffectV1.IdempotentWrite => policy.(PreparedInfrastructurePolicyV1.bundle).(InfrastructurePolicyBundleV1.defaults).(InfrastructurePolicyDefaultsV1.idempotent_write)
  | InfrastructurePolicyEffectV1.UnsafeWrite => policy.(PreparedInfrastructurePolicyV1.bundle).(InfrastructurePolicyBundleV1.defaults).(InfrastructurePolicyDefaultsV1.unsafe_write)
  end.

(** The verdict: another environment denies; one applying rule that denies suffices; without an
    applying rule the default of the effect decides; the requirements of every applying rule
    must hold. *)
Inductive verdict : InfrastructurePolicyDecisionOutcomeV1 → Prop :=
| verdict_environment :
    descriptor.(InfrastructurePolicyOperationDescriptorV1.environment) ≠ policy.(PreparedInfrastructurePolicyV1.bundle).(InfrastructurePolicyBundleV1.environment) →
    verdict InfrastructurePolicyDecisionOutcomeV1.Deny
| verdict_denied rule :
    descriptor.(InfrastructurePolicyOperationDescriptorV1.environment) = policy.(PreparedInfrastructurePolicyV1.bundle).(InfrastructurePolicyBundleV1.environment) →
    applying rule → rule.(InfrastructurePolicyRuleV1.decision) = InfrastructurePolicyDecisionV1.Deny →
    verdict InfrastructurePolicyDecisionOutcomeV1.Deny
| verdict_default_allow :
    descriptor.(InfrastructurePolicyOperationDescriptorV1.environment) = policy.(PreparedInfrastructurePolicyV1.bundle).(InfrastructurePolicyBundleV1.environment) →
    (∀ rule, ¬ applying rule) →
    bundle_default descriptor.(InfrastructurePolicyOperationDescriptorV1.effect) = InfrastructurePolicyDefaultV1.Allow →
    verdict InfrastructurePolicyDecisionOutcomeV1.Allow
| verdict_default_deny :
    descriptor.(InfrastructurePolicyOperationDescriptorV1.environment) = policy.(PreparedInfrastructurePolicyV1.bundle).(InfrastructurePolicyBundleV1.environment) →
    (∀ rule, ¬ applying rule) →
    bundle_default descriptor.(InfrastructurePolicyOperationDescriptorV1.effect) = InfrastructurePolicyDefaultV1.Deny →
    verdict InfrastructurePolicyDecisionOutcomeV1.Deny
| verdict_unsatisfied rule requirements :
    descriptor.(InfrastructurePolicyOperationDescriptorV1.environment) = policy.(PreparedInfrastructurePolicyV1.bundle).(InfrastructurePolicyBundleV1.environment) →
    (∀ other, applying other →
       other.(InfrastructurePolicyRuleV1.decision) = InfrastructurePolicyDecisionV1.Allow) →
    applying rule → rule.(InfrastructurePolicyRuleV1.requires) = Some requirements →
    ¬ requirements_hold requirements →
    verdict InfrastructurePolicyDecisionOutcomeV1.RequirementsUnsatisfied
| verdict_allowed rule :
    descriptor.(InfrastructurePolicyOperationDescriptorV1.environment) = policy.(PreparedInfrastructurePolicyV1.bundle).(InfrastructurePolicyBundleV1.environment) →
    applying rule →
    (∀ other, applying other →
       other.(InfrastructurePolicyRuleV1.decision) = InfrastructurePolicyDecisionV1.Allow
       ∧ when_some other.(InfrastructurePolicyRuleV1.requires) requirements_hold) →
    verdict InfrastructurePolicyDecisionOutcomeV1.Allow.
End specification.

(** A policy has at most one verdict. *)
Lemma verdict_functional `{!PolicyExternals} policy descriptor evidence now o1 o2 :
  verdict policy descriptor evidence now o1 → verdict policy descriptor evidence now o2 → o1 = o2.
Proof.
  destruct 1 as [He|r He Hr Hd|He Hn Hd|He Hn Hd|r req He Ha Hr Hq Hu|r He Hr Ha];
  destruct 1 as [He'|r' He' Hr' Hd'|He' Hn' Hd'|He' Hn' Hd'|r' req' He' Ha' Hr' Hq' Hu'|r' He' Hr' Ha'];
  try done; exfalso; try congruence;
  try (by eapply Hn); try (by eapply Hn');
  try (by specialize (Ha _ Hr'); congruence); try (by specialize (Ha' _ Hr); congruence);
  try (by destruct (Ha _ Hr'); congruence); try (by destruct (Ha' _ Hr); congruence).
  - destruct (Ha' _ Hr) as [_ Hh]. by apply Hu, Hh.
  - destruct (Ha _ Hr') as [_ Hh]. by apply Hu', Hh.
Qed.

(** ** Matching *)

Lemma is_none_or_true {A} (o : option A) (f : A → bool) :
  is_none_or o f = true ↔ when_some o (λ a, f a = true).
Proof. unfold when_some. destruct o; simpl; naive_solver. Qed.

Lemma is_some_and_true {A} (o : option A) (f : A → bool) :
  is_some_and o f = true ↔ ∃ a, o = Some a ∧ f a = true.
Proof. destruct o; simpl; naive_solver. Qed.

Lemma is_prefix_of_true prefix values :
  is_prefix_of prefix values = true ↔ prefix `prefix_of` values.
Proof.
  revert values. induction prefix as [|a prefix IH]; intros [|b values]; simpl.
  - split; [intros _; apply prefix_nil|done].
  - split; [intros _; apply prefix_nil|done].
  - split; [done|]. by intros ?%prefix_nil_not.
  - rewrite andb_true_iff, bool_decide_eq_true, IH. split.
    + intros [-> ?]. by apply prefix_cons.
    + intros Hp. split; [by eapply prefix_cons_inv_1|by eapply prefix_cons_inv_2].
Qed.

Definition rule_applies (descriptor : InfrastructurePolicyOperationDescriptorV1)
    (rule : InfrastructurePolicyRuleV1) : bool :=
  forallb id (matcher_checks rule.(InfrastructurePolicyRuleV1.matcher) descriptor).

#[global] Instance when_some_proper {A} (o : option A) :
  Proper (pointwise_relation _ iff ==> iff) (when_some o).
Proof. intros P Q HPQ. unfold when_some. by setoid_rewrite HPQ. Qed.

Lemma rule_applies_true descriptor rule :
  rule_applies descriptor rule = true ↔ applies rule descriptor.
Proof.
  unfold rule_applies, matcher_checks. cbn [forallb id]. rewrite !andb_true_iff, !is_none_or_true.
  setoid_rewrite is_some_and_true. setoid_rewrite bool_decide_eq_true.
  setoid_rewrite is_prefix_of_true.
  split; [intros (?&?&?&?&?&?&?&?&_); by split|by intros [? ? ? ? ? ? ? ?]].
Qed.

Lemma size_principals_le (l : list InfrastructurePolicyEvidenceReferenceV1) :
  size (list_to_set (omap InfrastructurePolicyEvidenceReferenceV1.principal_id l) : gset string)
  ≤ length l.
Proof.
  induction l as [|item l IH]; [done|]. csimpl.
  destruct (InfrastructurePolicyEvidenceReferenceV1.principal_id item); [|lia].
  rewrite list_to_set_cons. rewrite size_union_alt, size_singleton.
  enough (size (list_to_set (omap InfrastructurePolicyEvidenceReferenceV1.principal_id l) ∖ {[s]} : gset string)
    ≤ size (list_to_set (omap InfrastructurePolicyEvidenceReferenceV1.principal_id l) : gset string)) by lia.
  apply subseteq_size. set_solver.
Qed.

(** ** The meter *)

(** The meter has not stopped the evaluation. *)
Definition live (meter : EvaluationMeter) : Prop := meter.(EvaluationMeter.exhausted) = false.

Section evaluation.
Context `{!Externals, !EngineExternals, !PolicyExternals}.
Variables (clock : nat → N).

Lemma tick_live meter amount :
  live (tick clock meter amount).1 → live meter ∧ (tick clock meter amount).2 = true.
Proof. unfold tick, live. simpl. repeat case_match; done. Qed.

Lemma matching_rules_exact rules descriptor meter :
  live (matching_rules clock rules descriptor meter).1 →
  live meter
  ∧ (matching_rules clock rules descriptor meter).2 = List.filter (rule_applies descriptor) rules.
Proof.
  revert meter. induction rules as [|rule rules IH]; intros meter; [done|]. simpl.
  pose proof (tick_live meter 1) as Ht. destruct (tick clock meter 1) as [m within]. simpl in Ht.
  destruct within; simpl; [|by intros [_ ?]%Ht]. unfold rule_matches.
  pose proof (tick_live m (N.of_nat (length (matcher_checks rule.(InfrastructurePolicyRuleV1.matcher) descriptor)))) as Ht'.
  destruct (tick clock m _) as [m' w']. simpl in *. specialize (IH m').
  destruct (matching_rules clock rules descriptor m') as [m'' l]. simpl in *.
  intros [Hm' ->]%IH. destruct (Ht' Hm') as [Hm _]. destruct (Ht Hm) as [Hlive _].
  split; [done|]. unfold live in Hm'. by rewrite Hm'.
Qed.

Lemma collect_approvals_exact counts evidence meter principals roles :
  live (collect_approvals clock counts evidence meter principals roles).1 →
  live meter ∧ ∃ principals' roles',
    (collect_approvals clock counts evidence meter principals roles).2 = Some (principals', roles')
    ∧ principals' = principals ∪ list_to_set (omap InfrastructurePolicyEvidenceReferenceV1.principal_id
                                               (List.filter counts evidence))
    ∧ ∀ role, role ∈ roles' ↔ role ∈ roles
        ∨ ∃ item, item ∈ List.filter counts evidence
                  ∧ role ∈ item.(InfrastructurePolicyEvidenceReferenceV1.roles).
Proof.
  revert meter principals roles. induction evidence as [|item evidence IH];
    intros meter principals roles; simpl.
  { intros Hl. split; [done|]. exists principals, roles. split_and!; [done|set_solver|].
    intros role. split; [auto|]. intros [?|(? & ?%elem_of_nil & _)]; done. }
  pose proof (tick_live meter 1) as Ht. destruct (tick clock meter 1) as [m within]. simpl in Ht.
  destruct within; simpl; [|by intros [_ ?]%Ht].
  destruct (counts item); simpl; intros (Hm & p & r & -> & -> & Hr)%IH;
    (split; [by apply Ht|]); (eexists _, _; split_and!; [done| |]).
  - destruct (InfrastructurePolicyEvidenceReferenceV1.principal_id item); set_solver.
  - intros role. rewrite Hr, elem_of_union. setoid_rewrite elem_of_cons. naive_solver.
  - done.
  - done.
Qed.

Lemma count_evidence_exact counts evidence meter :
  live (count_evidence clock counts evidence meter).1 →
  live meter
  ∧ (count_evidence clock counts evidence meter).2 = length (List.filter counts evidence).
Proof.
  revert meter. induction evidence as [|item evidence IH]; intros meter; [done|]. simpl.
  pose proof (tick_live meter 1) as Ht. specialize (IH (tick clock meter 1).1).
  destruct (count_evidence clock counts evidence _) as [m count]. simpl in *.
  intros [Hm ->]%IH. split; [by apply Ht|]. unfold live in Hm. rewrite Hm. simpl.
  by destruct (counts item).
Qed.

Lemma any_evidence_exact counts evidence meter :
  live (any_evidence clock counts evidence meter).1 →
  live meter ∧ (any_evidence clock counts evidence meter).2 = existsb counts evidence.
Proof.
  revert meter. induction evidence as [|item evidence IH]; intros meter; [done|]. simpl.
  pose proof (tick_live meter 1) as Ht. specialize (IH (tick clock meter 1).1).
  destruct (negb _ && _) eqn:Hc; simpl.
  - intros Hl. split; [by apply Ht|]. apply andb_true_iff in Hc as [_ ->]. done.
  - intros [Hm ->]%IH. split; [by apply Ht|]. unfold live in Hm. rewrite Hm in Hc. simpl in Hc.
    by rewrite Hc.
Qed.

(** ** Requirements *)

Notation satisfied item :=
  (item.(InfrastructurePolicyRequirementResultV1.status)
   = InfrastructurePolicyRequirementStatusV1.Satisfied) (only parsing).

Lemma status_satisfied (b : bool) :
  (if b then InfrastructurePolicyRequirementStatusV1.Satisfied
   else InfrastructurePolicyRequirementStatusV1.Unsatisfied)
  = InfrastructurePolicyRequirementStatusV1.Satisfied ↔ b = true.
Proof. by destruct b. Qed.

Section exactness.
Variables (rule_id : string) (descriptor : InfrastructurePolicyOperationDescriptorV1)
  (evidence : list InfrastructurePolicyEvidenceReferenceV1) (now : DateTime).
Hypothesis Hevidence : (N.of_nat (length evidence) < u32_modulus)%N.

Lemma evaluate_approval_exact approval meter :
  live (evaluate_approval clock rule_id approval descriptor evidence now meter).1 →
  live meter ∧ ∃ item,
    (evaluate_approval clock rule_id approval descriptor evidence now meter).2 = Some item
    ∧ (satisfied item ↔ approval_holds descriptor evidence now approval).
Proof.
  unfold evaluate_approval.
  pose proof (collect_approvals_exact (approval_counts approval descriptor now) evidence meter ∅ ∅)
    as Hc. destruct (collect_approvals _ _ _ _ _ _) as [m counted]. simpl in *.
  intros (Hm & p & r & -> & -> & Hr)%Hc. split; [done|]. eexists; split; [done|].
  simpl. rewrite status_satisfied, andb_true_iff, N.leb_le, forallb_forall. unfold approval_holds.
  rewrite (left_id_L ∅ (∪)). rewrite as_u32_small.
  - apply and_iff_compat_l. setoid_rewrite <-list_elem_of_In.
    apply forall_proper; intros role. rewrite bool_decide_eq_true, Hr. set_solver.
  - eapply N.le_lt_trans; [|done].
    assert (size (list_to_set (omap InfrastructurePolicyEvidenceReferenceV1.principal_id
      (List.filter (approval_counts approval descriptor now) evidence)) : gset string)
      ≤ length evidence); [|lia].
    etrans; [apply size_principals_le|apply filter_length_le].
Qed.

Lemma evaluate_artifacts_exact artifact meter :
  live (evaluate_artifacts clock rule_id artifact descriptor evidence now meter).1 →
  live meter
  ∧ (satisfied (evaluate_artifacts clock rule_id artifact descriptor evidence now meter).2
     ↔ artifacts_hold descriptor evidence now artifact).
Proof.
  unfold evaluate_artifacts.
  pose proof (count_evidence_exact (artifact_counts artifact descriptor now) evidence meter) as Hc.
  destruct (count_evidence _ _ _ _) as [m count]. simpl in *. intros [Hm ->]%Hc. split; [done|].
  simpl. rewrite status_satisfied, N.leb_le, as_u32_small; [done|].
  pose proof (filter_length_le (artifact_counts artifact descriptor now) evidence). lia.
Qed.

Lemma evaluate_lock_exact lock meter m item :
  evaluate_lock clock rule_id lock descriptor evidence now meter = Ok (m, item) → live m →
  live meter ∧ (satisfied item ↔ lock_holds descriptor evidence now lock).
Proof.
  unfold evaluate_lock, datetime_add. intros Ho Hl. invert_ok.
  match goal with H : add_milliseconds _ _ = Some _ |- _ => apply add_milliseconds_spec in H as -> end.
  match goal with H : any_evidence _ ?counts _ _ = _ |- _ =>
    pose proof (any_evidence_exact counts evidence meter) as Ha; rewrite H in Ha end.
  simplify_eq/=. destruct (Ha Hl) as [Hm Hf]. subst. split; [done|].
  simpl. rewrite status_satisfied. unfold lock_holds.
  setoid_rewrite list_elem_of_In. rewrite <-existsb_exists. by destruct (existsb _ _).
Qed.

Lemma evaluate_window_exact window meter :
  live (evaluate_window clock rule_id window now meter).1 →
  live meter
  ∧ (satisfied (evaluate_window clock rule_id window now meter).2 ↔ window_holds now window).
Proof.
  unfold evaluate_window. simpl. intros [Hm _]%tick_live. split; [done|].
  simpl. rewrite status_satisfied. unfold window_open, window_holds.
  destruct (parse_from_rfc3339 _) as [start|]; [|naive_solver].
  destruct (parse_from_rfc3339 _) as [stop|]; [|naive_solver].
  rewrite andb_true_iff, !Z.leb_le. naive_solver.
Qed.

(** The results that an evaluation pushes hold exactly when [P] does. *)
Definition pushes (results results' : list InfrastructurePolicyRequirementResultV1) (P : Prop) : Prop :=
  ∃ items, results' = results ++ items
    ∧ (Forall (λ item : InfrastructurePolicyRequirementResultV1, satisfied item) items ↔ P).

#[global] Instance pushes_proper results results' : Proper (iff ==> iff) (pushes results results').
Proof. intros P Q HPQ. unfold pushes. by setoid_rewrite HPQ. Qed.

Lemma pushes_none results : pushes results results True.
Proof. exists []. by rewrite app_nil_r. Qed.

Lemma pushes_dec results results' P : pushes results results' P → P ∨ ¬ P.
Proof.
  intros (items & _ & HP). rewrite <-HP.
  destruct (decide (Forall (λ item, item.(InfrastructurePolicyRequirementResultV1.status)
    = InfrastructurePolicyRequirementStatusV1.Satisfied) items)); auto.
Qed.

Lemma pushes_one results item (P : Prop) : (satisfied item ↔ P) → pushes results (results ++ [item]) P.
Proof. intros HP. exists [item]. by rewrite Forall_singleton. Qed.

Lemma pushes_trans r1 r2 r3 (P Q R : Prop) :
  pushes r1 r2 P → pushes r2 r3 Q → (P ∧ Q ↔ R) → pushes r1 r3 R.
Proof.
  intros (i & -> & Hi) (j & -> & Hj) HR. exists (i ++ j). by rewrite app_assoc, Forall_app, Hi, Hj.
Qed.

Lemma when_some_Some {A} (a : A) (P : A → Prop) : when_some (Some a) P ↔ P a.
Proof. unfold when_some. naive_solver. Qed.
Lemma when_some_None {A} (P : A → Prop) : when_some None P ↔ True.
Proof. unfold when_some. naive_solver. Qed.

Lemma evaluate_other_requirements_exact requirements meter results m results' :
  evaluate_other_requirements clock rule_id requirements descriptor evidence now meter results
    = Ok (m, results') → live m →
  live meter ∧ pushes results results'
    (when_some requirements.(InfrastructurePolicyRequirementsV1.artifacts) (artifacts_hold descriptor evidence now)
     ∧ when_some requirements.(InfrastructurePolicyRequirementsV1.lock) (lock_holds descriptor evidence now)
     ∧ when_some requirements.(InfrastructurePolicyRequirementsV1.valid_between) (window_holds now)).
Proof.
  unfold evaluate_other_requirements. destruct requirements as [approval artifacts lock window].
  cbn [InfrastructurePolicyRequirementsV1.artifacts InfrastructurePolicyRequirementsV1.lock
       InfrastructurePolicyRequirementsV1.valid_between].
  destruct (match artifacts with Some _ => _ | None => _ end) as [m1 r1] eqn:Hs1.
  intros ([m2 r2] & Hs2 & Hs3)%result_bind_ok Hm.
  assert (live m2 ∧ pushes r2 results' (when_some window (window_holds now))) as [Hm2 Hw].
  { destruct window as [window|]; [|apply Ok_inj in Hs3; simplify_eq; rewrite when_some_None; split; [done|apply pushes_none]].
    pose proof (evaluate_window_exact window m2) as Hx.
    destruct (evaluate_window clock rule_id window now m2) as [mw iw].
    apply Ok_inj in Hs3. simplify_eq/=. destruct (Hx Hm). rewrite when_some_Some. split; [done|by apply pushes_one]. }
  assert (live m1 ∧ pushes r1 r2 (when_some lock (lock_holds descriptor evidence now))) as [Hm1 Hl].
  { destruct lock as [lock|]; [|apply Ok_inj in Hs2; simplify_eq; rewrite when_some_None; split; [done|apply pushes_none]].
    apply result_bind_ok in Hs2 as ([ml il] & Hx & Hs2). apply Ok_inj in Hs2. simplify_eq.
    apply evaluate_lock_exact in Hx as [? ?]; [|done]. rewrite when_some_Some. split; [done|by apply pushes_one]. }
  assert (live meter ∧ pushes results r1 (when_some artifacts (artifacts_hold descriptor evidence now))) as [Hm0 Ha].
  { destruct artifacts as [artifact|]; [|simplify_eq; rewrite when_some_None; split; [done|apply pushes_none]].
    pose proof (evaluate_artifacts_exact artifact meter) as Hx.
    destruct (evaluate_artifacts clock rule_id artifact descriptor evidence now meter) as [ma ia].
    simplify_eq/=. destruct (Hx Hm1). rewrite when_some_Some. split; [done|by apply pushes_one]. }
  split; [done|]. eapply pushes_trans; [exact Ha| |reflexivity].
  by eapply pushes_trans; [exact Hl|exact Hw|].
Qed.

Lemma evaluate_requirements_exact requirements meter results m results' :
  evaluate_requirements clock rule_id requirements descriptor evidence now meter results
    = Ok (m, results') → live m →
  live meter ∧ pushes results results' (requirements_hold descriptor evidence now requirements).
Proof.
  unfold evaluate_requirements, requirements_hold.
  destruct (InfrastructurePolicyRequirementsV1.approval requirements) as [approval|].
  - pose proof (evaluate_approval_exact approval meter) as Hx.
    destruct (evaluate_approval clock rule_id approval descriptor evidence now meter) as [ma [item|]]; simpl in *.
    + intros Ho Hm. apply evaluate_other_requirements_exact in Ho as [Hma Ho]; [|done].
      destruct (Hx Hma) as (Hmeter & i & [= <-] & Hi). split; [done|].
      eapply pushes_trans; [by apply pushes_one|exact Ho|]. by rewrite when_some_Some.
    + intros Ho Hm. apply Ok_inj in Ho. simplify_eq. destruct (Hx Hm) as (_ & i & ? & _). done.
  - intros Ho Hm. apply evaluate_other_requirements_exact in Ho as [Hma Ho]; [|done].
    split; [done|]. eapply pushes_trans; [apply pushes_none|exact Ho|]. by rewrite when_some_None.
Qed.
End exactness.

(** A rule of [allows] whose requirements do not hold. *)
Definition unsatisfied_rule (descriptor : InfrastructurePolicyOperationDescriptorV1)
    (evidence : list InfrastructurePolicyEvidenceReferenceV1) (now : DateTime)
    (allows : list InfrastructurePolicyRuleV1) : Prop :=
  ∃ rule requirements, rule ∈ allows
    ∧ rule.(InfrastructurePolicyRuleV1.requires) = Some requirements
    ∧ ¬ requirements_hold descriptor evidence now requirements.

Lemma evaluate_rule_requirements_exact allows descriptor evidence now meter results m results' :
  (N.of_nat (length evidence) < u32_modulus)%N →
  evaluate_rule_requirements clock allows descriptor evidence now meter results = Ok (m, results') →
  live m →
  live meter ∧ pushes results results'
    (∀ rule, rule ∈ allows →
       when_some rule.(InfrastructurePolicyRuleV1.requires) (requirements_hold descriptor evidence now))
  ∧ ((∀ rule, rule ∈ allows →
        when_some rule.(InfrastructurePolicyRuleV1.requires) (requirements_hold descriptor evidence now))
     ∨ unsatisfied_rule descriptor evidence now allows).
Proof.
  intros Hev. revert meter results. induction allows as [|rule allows IH]; simpl; intros meter results.
  { intros Ho ?. apply Ok_inj in Ho. simplify_eq. split_and!; [done| |left; by intros ? ?%elem_of_nil].
    exists []. rewrite app_nil_r. split; [done|]. split; [intros _ ? ?%elem_of_nil; done|constructor]. }
  intros ([m1 r1] & Hs1 & Hs2)%result_bind_ok Hm. apply IH in Hs2 as (Hm1 & Hrest & Hcases); [|done].
  assert (live meter ∧ pushes results r1 (when_some rule.(InfrastructurePolicyRuleV1.requires)
            (requirements_hold descriptor evidence now))) as [Hmeter Hfirst].
  { destruct (InfrastructurePolicyRuleV1.requires rule) as [req|].
    - apply evaluate_requirements_exact in Hs1 as [? ?]; [|done|done]. by rewrite when_some_Some.
    - apply Ok_inj in Hs1. simplify_eq. rewrite when_some_None. split; [done|apply pushes_none]. }
  split_and!; [done| |].
  { eapply pushes_trans; [exact Hfirst|exact Hrest|]. setoid_rewrite elem_of_cons. naive_solver. }
  destruct (pushes_dec _ _ _ Hfirst) as [Hyes|Hno].
  - destruct Hcases as [Hcases|(r & req & ? & ?)]; [left|right; exists r, req; set_solver].
    setoid_rewrite elem_of_cons. naive_solver.
  - right. unfold when_some in Hno. destruct (InfrastructurePolicyRuleV1.requires rule) as [req|] eqn:Hreq;
      [|by destruct Hno]. exists rule, req. split_and!; [left|done|]. naive_solver.
Qed.

(** ** Decisions *)

Lemma decision_ok evaluator descriptor now meter outcome ids reasons requirements r :
  decision clock evaluator descriptor now meter outcome ids reasons requirements = Ok r →
  r.(InfrastructurePolicyDecisionRecordV1.outcome) = outcome
  ∧ r.(InfrastructurePolicyDecisionRecordV1.reason_codes) = sort_reasons reasons.
Proof. unfold decision. intros (e & _ & Hr)%result_bind_ok. apply Ok_inj in Hr as <-. done. Qed.

Lemma existsb_filter {A} (f g : A → bool) (l : list A) :
  existsb f (List.filter g l) = true ↔ ∃ a, a ∈ l ∧ g a = true ∧ f a = true.
Proof.
  rewrite existsb_exists. setoid_rewrite filter_In. setoid_rewrite list_elem_of_In. naive_solver.
Qed.

Section refinement.
Variables (policy : PreparedInfrastructurePolicyV1) (budget : InfrastructurePolicyEvaluationBudgetV1)
  (descriptor : InfrastructurePolicyOperationDescriptorV1)
  (evidence : list InfrastructurePolicyEvidenceReferenceV1) (now : DateTime).
Notation evaluator := (prepare_with_budget policy budget).
Notation matching := (List.filter (rule_applies descriptor)
  (InfrastructurePolicyPreparedEvaluatorV1.rules evaluator)).

Lemma elem_of_matching rule : rule ∈ matching ↔ applying policy descriptor rule.
Proof.
  unfold applying. rewrite list_elem_of_In, filter_In, <-list_elem_of_In, rule_applies_true.
  unfold prepare_with_budget. simpl. by rewrite elem_of_sort_by.
Qed.

(** The denial of an evaluation that ran out of budget. *)
Definition budget_exhausted (r : InfrastructurePolicyDecisionRecordV1) : Prop :=
  r.(InfrastructurePolicyDecisionRecordV1.outcome) = InfrastructurePolicyDecisionOutcomeV1.Deny
  ∧ r.(InfrastructurePolicyDecisionRecordV1.reason_codes) = [InfrastructurePolicyReasonCodeV1.EvaluationBudgetExhausted].

Lemma budget_denied_exhausted meter r :
  budget_denied clock evaluator descriptor now meter = Ok r → budget_exhausted r.
Proof. unfold budget_denied, budget_exhausted. by intros [-> ->]%decision_ok. Qed.

Lemma decide_allows_verdict meter ids r :
  (N.of_nat (length evidence) < u32_modulus)%N →
  descriptor.(InfrastructurePolicyOperationDescriptorV1.environment)
    = policy.(PreparedInfrastructurePolicyV1.bundle).(InfrastructurePolicyBundleV1.environment) →
  (∀ rule, rule ∈ matching → rule_allows rule = true) →
  is_empty (List.filter rule_allows matching) = false →
  decide_allows clock evaluator descriptor evidence now meter ids (List.filter rule_allows matching)
    = Ok r →
  verdict policy descriptor evidence now r.(InfrastructurePolicyDecisionRecordV1.outcome)
  ∨ budget_exhausted r.
Proof.
  intros Hev Henv Hall Hne ([m results] & Hreq & Hd)%result_bind_ok. simpl in Hd.
  destruct (EvaluationMeter.exhausted m) eqn:Hm; [right; by eapply budget_denied_exhausted|]. left.
  apply evaluate_rule_requirements_exact in Hreq as (_ & (items & -> & Hitems) & Hcases); [|done|done].
  apply decision_ok in Hd as [-> _].
  assert (∀ rule, rule ∈ List.filter rule_allows matching ↔ applying policy descriptor rule) as Helem.
  { intros rule. rewrite <-elem_of_matching, list_elem_of_In, filter_In, <-list_elem_of_In.
    split; [by intros []|]. intros Hr. split; [done|by apply Hall]. }
  assert (∀ rule, applying policy descriptor rule →
    rule.(InfrastructurePolicyRuleV1.decision) = InfrastructurePolicyDecisionV1.Allow) as Hallow.
  { intros rule Hr. apply elem_of_matching, Hall in Hr. by apply bool_decide_eq_true in Hr. }
  destruct (List.filter rule_allows matching) as [|rule0 rest] eqn:Hl; [done|].
  assert (applying policy descriptor rule0) as Hrule0 by (apply Helem; left).
  destruct (existsb _ _) eqn:Hex.
  - apply existsb_exists in Hex as (item & Hin & Hst%bool_decide_eq_true).
    rewrite <-list_elem_of_In, elem_of_sort_by in Hin. simpl in Hin.
    destruct Hcases as [Hhold|(rule & req & Hr & Hreq & Hno)].
    + apply Hitems in Hhold. rewrite Forall_forall in Hhold. apply Hhold in Hin. congruence.
    + apply Helem in Hr. by apply (verdict_unsatisfied policy descriptor evidence now rule req).
  - apply (verdict_allowed policy descriptor evidence now rule0); [done..|]. intros rule Hr.
    split; [by apply Hallow|]. apply Helem in Hr. revert rule Hr. apply Hitems, Forall_forall.
    intros item Hin. destruct (InfrastructurePolicyRequirementResultV1.status item) eqn:Hst; [done|].
    rewrite <-not_true_iff_false, existsb_exists in Hex. destruct Hex. exists item.
    rewrite <-list_elem_of_In, elem_of_sort_by. by rewrite bool_decide_eq_true.
Qed.

(** The evaluator decides as the policy says, or denies for lack of budget; no clock and no
    budget makes it allow more. *)
Lemma evaluate_verdict r :
  (budget.(InfrastructurePolicyEvaluationBudgetV1.max_evidence) < u32_modulus)%N →
  evaluate clock evaluator descriptor evidence now = Ok r →
  verdict policy descriptor evidence now r.(InfrastructurePolicyDecisionRecordV1.outcome)
  ∨ budget_exhausted r.
Proof.
  intros Hbudget. unfold evaluate.
  destruct (_ != _) eqn:Henv; simplify_guards.
  { intros [-> _]%decision_ok. left. by apply verdict_environment. }
  set (m0 := if (_ <? _)%N then _ else _).
  pose proof (matching_rules_exact evaluator.(InfrastructurePolicyPreparedEvaluatorV1.rules) descriptor m0) as Hx.
  destruct (matching_rules clock _ descriptor m0) as [m l]. cbn [fst snd] in Hx.
  destruct (EvaluationMeter.exhausted m) eqn:Hm; [intros ?; right; by eapply budget_denied_exhausted|].
  destruct (Hx Hm) as [Hlive ->].
  assert (N.of_nat (length evidence) < u32_modulus)%N as Hev.
  { revert Hlive. unfold m0. destruct (_ <? _)%N eqn:Hlt; [done|]. simplify_guards. simpl in *. lia. }
  clear Hx m0 Hlive. destruct (existsb rule_denies matching) eqn:Hden.
  { intros [-> _]%decision_ok. left. apply existsb_exists in Hden as (rule & Hin & Hd%bool_decide_eq_true).
    rewrite <-list_elem_of_In in Hin. by apply (verdict_denied _ _ _ _ rule), Hd; [|apply elem_of_matching]. }
  assert (∀ rule, rule ∈ matching → rule_allows rule = true) as Hall.
  { intros rule Hr. apply not_true_iff_false in Hden. unfold rule_allows. apply bool_decide_eq_true.
    destruct (InfrastructurePolicyRuleV1.decision rule) eqn:Hd; [done|]. destruct Hden.
    apply existsb_exists. exists rule. rewrite <-list_elem_of_In. split; [done|]. by apply bool_decide_eq_true. }
  destruct (is_empty _) eqn:Hempty; [|by apply decide_allows_verdict].
  unfold decide_default. intros [-> _]%decision_ok. left.
  assert (∀ rule, ¬ applying policy descriptor rule) as Hnone.
  { intros rule Hr%elem_of_matching. pose proof (Hall rule Hr) as Ha.
    destruct (List.filter rule_allows matching) eqn:Hf; [|done].
    assert (In rule (List.filter rule_allows matching)) as Hin
      by (by rewrite filter_In, <-list_elem_of_In). by rewrite Hf in Hin. }
  case_bool_decide as Hdef; [by apply verdict_default_allow|]. apply verdict_default_deny; [done..|].
  change (bundle_default policy (InfrastructurePolicyOperationDescriptorV1.effect descriptor))
    with (default_for evaluator (InfrastructurePolicyOperationDescriptorV1.effect descriptor)).
  by destruct (default_for _ _).
Qed.
End refinement.
End evaluation.

(** ** ASCII strings *)

Definition is_ascii (value : string) : bool := bytes_all (byte_in 0 127) value.

Lemma byte_in_ascii lo hi b : (hi ≤ 127)%N → byte_in lo hi b = true → byte_in 0 127 b = true.
Proof. unfold byte_in, in_range. rewrite !andb_true_iff, !N.leb_le. lia. Qed.

Lemma is_byte_ascii c b : byte_in 0 127 c = true → is_byte c b = true → byte_in 0 127 b = true.
Proof. unfold is_byte. by intros Hc ->%Ascii.eqb_eq. Qed.

Lemma is_pattern_byte_ascii b : is_pattern_byte b = true → byte_in 0 127 b = true.
Proof.
  unfold is_pattern_byte, is_ascii_alphanumeric, is_ascii_alphabetic. rewrite !orb_true_iff.
  intros [[[[[H|H]|H]|H]|H]|H];
    first [by eapply byte_in_ascii; [|exact H]|by eapply is_byte_ascii; [|exact H]].
Qed.

Lemma get_ascii s n :
  is_ascii s = true → n < String.length s → ∃ b, String.get n s = Some b ∧ byte_in 0 127 b = true.
Proof.
  revert n. induction s as [|b s IH]; simpl; intros n; [lia|].
  intros [Hb Hs]%andb_true_iff Hn. destruct n as [|n]; [by exists b|]. apply IH; [done|lia].
Qed.

Lemma substring_prefix_length n s : n ≤ String.length s → String.length (String.substring 0 n s) = n.
Proof.
  revert n. induction s as [|b s IH]; intros [|n]; simpl; try lia. intros. by rewrite IH by lia.
Qed.

(** Truncating ASCII text does not panic. *)
Lemma truncate_ascii s n :
  is_ascii s = true → n < String.length s →
  ∃ s', truncate s n = Ok s' ∧ String.length s' = n.
Proof.
  intros Hs Hn. unfold truncate, is_char_boundary.
  destruct (get_ascii s n Hs Hn) as (b & -> & Hb).
  assert (byte_in 128 191 b = false) as ->.
  { apply not_true_iff_false. revert Hb. unfold byte_in, in_range.
    rewrite !andb_true_iff, !N.leb_le. lia. }
  eexists. split; [done|]. apply substring_prefix_length. lia.
Qed.

Lemma explanation_text_ascii outcome ids requirements :
  Forall (λ id, is_ascii id = true) ids →
  Forall (λ item : InfrastructurePolicyRequirementResultV1,
            is_ascii item.(InfrastructurePolicyRequirementResultV1.requirement) = true) requirements →
  is_ascii (explanation_text outcome ids requirements) = true.
Proof.
  intros Hids Hreqs. unfold explanation_text.
  set (rule_text := if is_empty ids then _ else _).
  set (missing := InfrastructurePolicyRequirementResultV1.requirement <$> _).
  assert (is_ascii rule_text = true) as Hrule.
  { unfold rule_text. destruct (is_empty ids); [done|]. unfold is_ascii. rewrite bytes_all_app.
    by apply andb_true_iff; split; [|apply bytes_all_concat]. }
  assert (is_ascii (String.concat ", " missing) = true) as Hmissing.
  { apply bytes_all_concat; [done|]. apply Forall_fmap.
    rewrite Forall_forall in Hreqs |- *. intros item Hin. apply Hreqs.
    rewrite list_elem_of_In, filter_In, <-list_elem_of_In in Hin. by destruct Hin. }
  unfold is_ascii in *. by destruct outcome; rewrite !bytes_all_app, ?Hrule, ?Hmissing.
Qed.

(** An explanation of ASCII identifiers is bounded and never panics. *)
Lemma bounded_explanation_ok outcome ids requirements :
  Forall (λ id, is_ascii id = true) ids →
  Forall (λ item : InfrastructurePolicyRequirementResultV1,
            is_ascii item.(InfrastructurePolicyRequirementResultV1.requirement) = true) requirements →
  ∃ explanation, bounded_explanation outcome ids requirements = Ok explanation
    ∧ (str_len explanation ≤ 1024)%N.
Proof.
  intros Hids Hreqs. unfold bounded_explanation. set (text := explanation_text _ _ _).
  assert (is_ascii text = true) as Htext by (by apply explanation_text_ascii).
  clearbody text. destruct (_ <? _)%N eqn:Hlen; simplify_guards; [|by eexists].
  destruct (truncate_ascii text (N.to_nat INFRASTRUCTURE_POLICY_MAX_EXPLANATION_BYTES)) as (t & -> & Hl).
  - done.
  - unfold str_len in Hlen. lia.
  - exists t. split; [done|]. unfold str_len. rewrite Hl. unfold INFRASTRUCTURE_POLICY_MAX_EXPLANATION_BYTES. lia.
Qed.
(** ** Prepared policies *)

Section prepared.
Context `{!Externals, !PolicyExternals}.

Lemma validate_rules_ok ids rules :
  validate_rules ids rules = Ok () →
  NoDup (InfrastructurePolicyRuleV1.id <$> rules)
  ∧ Forall (λ rule : InfrastructurePolicyRuleV1, rule.(InfrastructurePolicyRuleV1.id) ∉ ids) rules
  ∧ Forall (λ rule : InfrastructurePolicyRuleV1,
              validate_identifier rule.(InfrastructurePolicyRuleV1.id) "rule id" = Ok ()
              ∧ validate_rule rule = Ok ()) rules.
Proof.
  revert ids. induction rules as [|rule rules IH]; intros ids Hv; simpl in Hv.
  { split_and!; constructor. }
  invert_ok. simplify_guards.
  match goal with H : validate_rules _ _ = _ |- _ => apply IH in H as (Hnd & Hnew & Hrest) end.
  csimpl. rewrite NoDup_cons, !Forall_cons. split_and!; try done.
  - intros (other & Heq & Hin)%list_elem_of_fmap. rewrite Forall_forall in Hnew.
    apply Hnew in Hin. set_solver.
  - eapply Forall_impl; [exact Hnew|]. set_solver.
Qed.

Lemma validate_identifier_ascii value label :
  validate_identifier value label = Ok () → is_ascii value = true.
Proof.
  unfold validate_identifier, validate_pattern_string. intros Hv. invert_ok. simplify_guards.
  destruct value as [|b value]; [done|]. simpl in *. unfold is_ascii. simpl. apply andb_true_iff. split.
  - by eapply byte_in_ascii; [|done].
  - by eapply bytes_all_impl; [apply is_pattern_byte_ascii|].
Qed.

(** What preparation establishes about the rules. *)
Lemma prepared_policy bundle trust policy :
  prepare_infrastructure_policy bundle trust = Ok policy →
  policy.(PreparedInfrastructurePolicyV1.bundle) = bundle
  ∧ validate_bundle bundle = Ok ()
  ∧ canonical_payload_of bundle = Ok policy.(PreparedInfrastructurePolicyV1.canonical_payload)
  ∧ policy.(PreparedInfrastructurePolicyV1.digest)
      = "sha256:" +:+ sha256_hex policy.(PreparedInfrastructurePolicyV1.canonical_payload)
  ∧ signature_status_of trust bundle.(InfrastructurePolicyBundleV1.signature)
      policy.(PreparedInfrastructurePolicyV1.canonical_payload)
    = Ok (policy.(PreparedInfrastructurePolicyV1.signature_status),
          policy.(PreparedInfrastructurePolicyV1.signing_key_id)).
Proof.
  unfold prepare_infrastructure_policy. intros Hp.
  apply result_bind_ok in Hp as ([] & Hv & Hp). apply result_bind_ok in Hp as (payload & Hc & Hp).
  apply result_bind_ok in Hp as ([] & _ & Hp). apply result_bind_ok in Hp as ([st key] & Hs & Hp).
  apply Ok_inj in Hp as <-. done.
Qed.

Definition sound_rules (rules : list InfrastructurePolicyRuleV1) : Prop :=
  NoDup (InfrastructurePolicyRuleV1.id <$> rules)
  ∧ Forall (λ rule : InfrastructurePolicyRuleV1,
              is_ascii rule.(InfrastructurePolicyRuleV1.id) = true
              ∧ validate_rule rule = Ok ()) rules
  ∧ length rules ≤ INFRASTRUCTURE_POLICY_MAX_RULES.

Lemma prepared_rules_sound bundle trust policy :
  prepare_infrastructure_policy bundle trust = Ok policy →
  sound_rules policy.(PreparedInfrastructurePolicyV1.bundle).(InfrastructurePolicyBundleV1.rules).
Proof.
  intros (-> & Hv & _)%prepared_policy. unfold validate_bundle in Hv.
  repeat (apply result_bind_ok in Hv as ([] & ? & Hv)).
  match goal with H : validate_rules _ _ = _ |- _ => apply validate_rules_ok in H as (Hnd & _ & Hrules) end.
  match goal with H : fail_if (_ <? length _)%nat _ = _ |- _ => apply fail_if_ok, Nat.ltb_ge in H end.
  split_and!; [done| |done].
  eapply Forall_impl; [exact Hrules|]. intros rule [Hid Hrule]. split; [|done].
  by eapply validate_identifier_ascii.
Qed.
End prepared.

(** ** Evaluation within budget *)

Section budget.
Context `{!Externals, !EngineExternals, !PolicyExternals}.
Variables (clock : nat → N) (budget : InfrastructurePolicyEvaluationBudgetV1).
Hypothesis Hclock : ∀ n, (clock n ≤ budget.(InfrastructurePolicyEvaluationBudgetV1.max_duration))%N.
Hypothesis Hmax : (budget.(InfrastructurePolicyEvaluationBudgetV1.max_instructions) < usize_modulus)%N.

(** The meter is live and can pay [cost] more instructions. *)
Definition affords (meter : EvaluationMeter) (cost : N) : Prop :=
  live meter ∧ meter.(EvaluationMeter.budget) = budget
  ∧ (meter.(EvaluationMeter.instructions) + cost ≤ budget.(InfrastructurePolicyEvaluationBudgetV1.max_instructions))%N.

Lemma affords_le meter cost cost' : (cost' ≤ cost)%N → affords meter cost → affords meter cost'.
Proof. unfold affords. intros ? (? & ? & ?). split_and!; [done..|lia]. Qed.

Lemma tick_affords meter amount cost :
  affords meter (amount + cost) →
  affords (tick clock meter amount).1 cost ∧ (tick clock meter amount).2 = true.
Proof.
  intros (Hl & Hb & Hi). unfold affords, tick, u64_saturating_add, live in *. simpl. rewrite Hb.
  rewrite N.min_l by lia. destruct (_ <? _)%N eqn:Hlt; simplify_guards; [lia|].
  destruct (budget.(InfrastructurePolicyEvaluationBudgetV1.max_duration) <? _)%N eqn:Hd;
    simplify_guards; [pose proof (Hclock meter.(EvaluationMeter.readings)); lia|].
  simpl. split_and!; try done. lia.
Qed.

Lemma matching_rules_affords rules descriptor meter cost :
  affords meter (9 * N.of_nat (length rules) + cost) →
  affords (matching_rules clock rules descriptor meter).1 cost.
Proof.
  revert meter. induction rules as [|rule rules IH]; intros meter Ha; [by eapply affords_le, Ha; lia|].
  simpl. destruct (tick_affords meter 1 (8 + (9 * N.of_nat (length rules) + cost))) as [Hm Hw].
  { eapply affords_le, Ha. simpl. lia. }
  destruct (tick clock meter 1) as [m w]. simpl in *. subst w. unfold rule_matches. simpl.
  destruct (tick_affords m 8 (9 * N.of_nat (length rules) + cost)) as [Hm' _]; [done|].
  specialize (IH _ Hm'). by destruct (matching_rules clock rules descriptor _).
Qed.

Lemma collect_approvals_affords counts evidence meter principals roles cost :
  affords meter (N.of_nat (length evidence) + cost) →
  affords (collect_approvals clock counts evidence meter principals roles).1 cost.
Proof.
  revert meter principals roles. induction evidence as [|item evidence IH];
    intros meter principals roles Ha; [by eapply affords_le, Ha; lia|]. simpl.
  destruct (tick_affords meter 1 (N.of_nat (length evidence) + cost)) as [Hm Hw].
  { eapply affords_le, Ha. simpl. lia. }
  destruct (tick clock meter 1) as [m w]. simpl in *. subst w. destruct (counts item); by apply IH.
Qed.

Lemma count_evidence_affords counts evidence meter cost :
  affords meter (N.of_nat (length evidence) + cost) →
  affords (count_evidence clock counts evidence meter).1 cost.
Proof.
  revert meter. induction evidence as [|item evidence IH]; intros meter Ha; [by eapply affords_le, Ha; lia|].
  simpl. destruct (tick_affords meter 1 (N.of_nat (length evidence) + cost)) as [Hm _].
  { eapply affords_le, Ha. simpl. lia. }
  specialize (IH _ Hm). by destruct (count_evidence clock counts evidence _).
Qed.

Lemma any_evidence_affords counts evidence meter cost :
  affords meter (N.of_nat (length evidence) + cost) →
  affords (any_evidence clock counts evidence meter).1 cost.
Proof.
  revert meter. induction evidence as [|item evidence IH]; intros meter Ha; [by eapply affords_le, Ha; lia|].
  simpl. destruct (tick_affords meter 1 (N.of_nat (length evidence) + cost)) as [Hm _].
  { eapply affords_le, Ha. simpl. lia. }
  destruct (negb _ && _); [|by apply IH]. eapply affords_le, Hm. lia.
Qed.

(** The names of the requirements. *)
Definition named_results (results : list InfrastructurePolicyRequirementResultV1) : Prop :=
  Forall (λ item : InfrastructurePolicyRequirementResultV1,
            is_ascii item.(InfrastructurePolicyRequirementResultV1.requirement) = true) results.

Section requirements.
Variables (descriptor : InfrastructurePolicyOperationDescriptorV1)
  (evidence : list InfrastructurePolicyEvidenceReferenceV1) (now : DateTime).
Hypothesis Hnow : ∀ ms, (0 ≤ ms ≤ 86400000)%Z → is_Some (add_milliseconds now ms).
Notation items := (N.of_nat (length evidence)).

(** A step of the evaluation of requirements: it returns, pays at most [spent], and pushes at
    most [pushed] results. *)
Definition step_returns {E} (f : EvaluationMeter → list InfrastructurePolicyRequirementResultV1 →
      result E (EvaluationMeter * list InfrastructurePolicyRequirementResultV1))
    (spent : N) (pushed : nat) : Prop :=
  ∀ meter results cost, affords meter (spent + cost) → named_results results →
    ∃ m results', f meter results = Ok (m, results') ∧ affords m cost ∧ named_results results'
      ∧ length results' ≤ length results + pushed.

Lemma push_named results item :
  named_results results →
  is_ascii item.(InfrastructurePolicyRequirementResultV1.requirement) = true →
  named_results (results ++ [item]) ∧ length (results ++ [item]) ≤ length results + 1.
Proof. intros. unfold named_results. rewrite Forall_app, length_app, Forall_singleton. simpl. auto. Qed.

Lemma evaluate_lock_returns rule_id lock :
  validate_lock_requirement lock = Ok () →
  ∀ meter cost, affords meter (items + cost) → ∃ m item,
    evaluate_lock clock rule_id lock descriptor evidence now meter = Ok (m, item)
    ∧ affords m cost ∧ is_ascii item.(InfrastructurePolicyRequirementResultV1.requirement) = true.
Proof.
  unfold validate_lock_requirement. intros Hv meter cost Ha. invert_ok. simplify_guards.
  unfold evaluate_lock, datetime_add, as_i64.
  assert (InfrastructurePolicyLockRequirementV1.minimum_remaining_ms lock <? 9223372036854775808 = true)%N
    as -> by (apply N.ltb_lt; lia).
  destruct (Hnow (Z.of_N lock.(InfrastructurePolicyLockRequirementV1.minimum_remaining_ms))) as [sum ->]; [lia|].
  simpl. pose proof (any_evidence_affords (lock_counts lock descriptor now sum) evidence meter cost Ha) as Hx.
  destruct (any_evidence _ _ _ _) as [m found]. eexists m, _. by split_and!.
Qed.

Lemma other_requirements_return rule_id requirements :
  validate_requirements requirements = Ok () →
  step_returns (evaluate_other_requirements clock rule_id requirements descriptor evidence now)
    (2 * items + 2) 3.
Proof.
  intros Hv meter results cost Ha Hn. unfold validate_requirements in Hv.
  repeat (apply result_bind_ok in Hv as ([] & ? & Hv)). unfold evaluate_other_requirements.
  destruct requirements as [approval artifacts lock window].
  cbn [InfrastructurePolicyRequirementsV1.artifacts InfrastructurePolicyRequirementsV1.lock
       InfrastructurePolicyRequirementsV1.valid_between] in *.
  assert (∃ m1 r1, match artifacts with
    | Some artifact => let (meter, item) := evaluate_artifacts clock rule_id artifact descriptor evidence now meter in
        (meter, results ++ [item])
    | None => (meter, results) end = (m1, r1) ∧ affords m1 (items + (2 + cost)) ∧ named_results r1
    ∧ length r1 ≤ length results + 1) as (m1 & r1 & -> & Ha1 & Hn1 & Hl1).
  { destruct artifacts as [artifact|].
    - unfold evaluate_artifacts.
      pose proof (count_evidence_affords (artifact_counts artifact descriptor now) evidence meter (items + (2 + cost))) as Hx.
      destruct (count_evidence _ _ _ _) as [m1 n1]. eexists m1, _. split; [done|].
      split; [|by apply push_named]. apply Hx. eapply affords_le, Ha. lia.
    - exists meter, results. split_and!; [done| |done|lia]. eapply affords_le, Ha. lia. }
  assert (∃ m2 r2, match lock with
    | Some lock => let? (meter, item) := evaluate_lock clock rule_id lock descriptor evidence now m1 in
        Ok (E:=Empty_set) (meter, r1 ++ [item])
    | None => Ok (m1, r1) end = Ok (m2, r2) ∧ affords m2 (2 + cost) ∧ named_results r2
    ∧ length r2 ≤ length r1 + 1) as (m2 & r2 & -> & Ha2 & Hn2 & Hl2).
  { destruct lock as [lock|].
    - destruct (evaluate_lock_returns rule_id lock) with (meter := m1) (cost := (2 + cost)%N)
        as (m2 & item & -> & Hm2 & Hi); [done|done|].
      simpl. eexists m2, _. split; [done|]. split; [done|by apply push_named].
    - exists m1, r1. split_and!; [done| |done|lia]. eapply affords_le, Ha1. lia. }
  cbn [result_bind]. destruct window as [window|].
  - unfold evaluate_window. eexists _, _. split; [done|]. destruct (tick_affords m2 2 cost Ha2) as [Hm _].
    match goal with |- context [r2 ++ [?item]] => destruct (push_named r2 item) as [? ?]; [done|done|] end.
    split_and!; [done|done|lia].
  - exists m2, r2. split_and!; [done| |done|lia]. eapply affords_le, Ha2. lia.
Qed.

Lemma requirements_return rule_id requirements :
  validate_requirements requirements = Ok () →
  step_returns (evaluate_requirements clock rule_id requirements descriptor evidence now)
    (3 * items + 2) 4.
Proof.
  intros Hv meter results cost Ha Hn. unfold evaluate_requirements.
  destruct (InfrastructurePolicyRequirementsV1.approval requirements) as [approval|].
  - unfold evaluate_approval.
    set (counts := approval_counts approval descriptor now).
    pose proof (collect_approvals_affords counts evidence meter ∅ ∅ (2 * items + 2 + cost)) as Hx.
    pose proof (collect_approvals_exact clock counts evidence meter ∅ ∅) as He.
    destruct (collect_approvals clock counts evidence meter ∅ ∅) as [m1 counted]. simpl in *.
    assert (affords m1 (2 * items + 2 + cost)) as Ha1 by (apply Hx; eapply affords_le, Ha; lia).
    destruct He as (_ & p & r & -> & _); [apply Ha1|]. simpl.
    match goal with |- context [results ++ [?item]] => destruct (push_named results item) as [Hn1 Hl1]; [done|done|] end.
    destruct (other_requirements_return rule_id requirements Hv m1 _ cost Ha1 Hn1)
      as (m2 & r2 & Ho & Hm & Hn2 & Hl2). exists m2, r2. split_and!; [exact Ho|done|done|lia].
  - destruct (other_requirements_return rule_id requirements Hv meter results cost)
      as (m2 & r2 & Ho & Hm & Hn2 & Hl2); [eapply affords_le, Ha; lia|done|].
    exists m2, r2. split_and!; [exact Ho|done|done|lia].
Qed.

Lemma rule_requirements_return allows :
  Forall (λ rule, validate_rule rule = Ok ()) allows →
  step_returns (evaluate_rule_requirements clock allows descriptor evidence now)
    (N.of_nat (length allows) * (3 * items + 2)) (4 * length allows).
Proof.
  induction 1 as [|rule allows Hrule _ IH]; intros meter results cost Ha Hn; simpl.
  { exists meter, results. split_and!; [done| |done|lia]. eapply affords_le, Ha. lia. }
  assert (step_returns (E:=Empty_set) (λ meter results,
    match rule.(InfrastructurePolicyRuleV1.requires) with
    | Some required => evaluate_requirements clock rule.(InfrastructurePolicyRuleV1.id) required
                         descriptor evidence now meter results
    | None => Ok (meter, results) end) (3 * items + 2) 4) as Hstep.
  { unfold validate_rule in Hrule. repeat (apply result_bind_ok in Hrule as ([] & ? & Hrule)).
    destruct (InfrastructurePolicyRuleV1.requires rule) as [required|].
    - apply requirements_return. by destruct (InfrastructurePolicyRuleV1.decision rule).
    - intros m r c Hc Hr. exists m, r. split_and!; [done| |done|lia]. eapply affords_le, Hc. lia. }
  destruct (Hstep meter results (N.of_nat (length allows) * (3 * items + 2) + cost)%N)
    as (m1 & r1 & Ho & Ha1 & Hn1 & Hl1); [|done|].
  { eapply affords_le, Ha. simpl length. lia. }
  rewrite Ho. simpl. destruct (IH m1 r1 cost Ha1 Hn1) as (m2 & r2 & Ho2 & Ha2 & Hn2 & Hl2).
  exists m2, r2. split_and!; [exact Ho2|done|done|lia].
Qed.
End requirements.

(** The instructions that an evaluation needs at most. *)
Definition evaluation_cost (rules evidence : nat) : N :=
  N.of_nat rules * (11 + 3 * N.of_nat evidence).

Lemma decision_returns evaluator descriptor now meter outcome ids reasons requirements :
  Forall (λ id, is_ascii id = true) ids → named_results requirements →
  ∃ r, decision clock evaluator descriptor now meter outcome ids reasons requirements = Ok r.
Proof.
  intros Hids Hreqs. unfold decision.
  destruct (bounded_explanation_ok outcome (dedup (sort_by String.leb ids)) requirements)
    as (text & -> & _); [|done|by eexists].
  rewrite Forall_forall in Hids |- *. intros id Hin. apply Hids.
  by rewrite elem_of_dedup, elem_of_sort_by in Hin.
Qed.

Lemma sound_matching_ids policy descriptor :
  sound_rules policy.(PreparedInfrastructurePolicyV1.bundle).(InfrastructurePolicyBundleV1.rules) →
  Forall (λ id, is_ascii id = true)
    (InfrastructurePolicyRuleV1.id <$> List.filter (rule_applies descriptor)
       (prepare_with_budget policy budget).(InfrastructurePolicyPreparedEvaluatorV1.rules)).
Proof.
  intros (_ & Hrules & _). apply Forall_fmap, Forall_forall. intros rule Hin.
  rewrite list_elem_of_In, filter_In, <-list_elem_of_In in Hin. destruct Hin as [Hin _]. simpl in Hin.
  rewrite elem_of_sort_by in Hin. rewrite Forall_forall in Hrules. by apply Hrules in Hin as [? _].
Qed.

Lemma sort_by_named results : named_results results → named_results (sort_by requirement_leb results).
Proof. unfold named_results. by rewrite sort_by_Permutation. Qed.

(** With enough budget an evaluation returns, and what it returns is not a budget denial. *)
Lemma evaluate_returns policy descriptor evidence now :
  sound_rules policy.(PreparedInfrastructurePolicyV1.bundle).(InfrastructurePolicyBundleV1.rules) →
  (∀ ms, (0 ≤ ms ≤ 86400000)%Z → is_Some (add_milliseconds now ms)) →
  (N.of_nat (length evidence) ≤ budget.(InfrastructurePolicyEvaluationBudgetV1.max_evidence))%N →
  (evaluation_cost (length policy.(PreparedInfrastructurePolicyV1.bundle).(InfrastructurePolicyBundleV1.rules))
     (length evidence) ≤ budget.(InfrastructurePolicyEvaluationBudgetV1.max_instructions))%N →
  ∃ r, evaluate clock (prepare_with_budget policy budget) descriptor evidence now = Ok r
    ∧ ¬ budget_exhausted r.
Proof.
  intros Hsound Hnow Hev Hcost. pose proof (sound_matching_ids policy descriptor Hsound) as Hids.
  assert (∀ meter outcome ids reasons requirements,
    Forall (λ id, is_ascii id = true) ids → named_results requirements →
    sort_reasons reasons ≠ [InfrastructurePolicyReasonCodeV1.EvaluationBudgetExhausted] →
    ∃ r, decision clock (prepare_with_budget policy budget) descriptor now meter outcome ids reasons
           requirements = Ok r ∧ ¬ budget_exhausted r) as Hdecide.
  { intros meter outcome ids reasons requirements Hi Hr Hne.
    destruct (decision_returns (prepare_with_budget policy budget) descriptor now meter outcome ids reasons requirements)
      as [r Hd]; [done..|]. exists r. split; [done|]. apply decision_ok in Hd as [_ Hrc].
    intros [_ Hbad]. congruence. }
  unfold evaluate. destruct (_ != _); [by apply Hdecide; [constructor|constructor|]|].
  set (m0 := if (_ <? _)%N then _ else _).
  set (rules := (prepare_with_budget policy budget).(InfrastructurePolicyPreparedEvaluatorV1.rules)) in *.
  set (allow_cost := (N.of_nat (length rules) * (3 * N.of_nat (length evidence) + 2))%N).
  assert (length rules = length policy.(PreparedInfrastructurePolicyV1.bundle).(InfrastructurePolicyBundleV1.rules))
    as Hlen by apply sort_by_length.
  assert (affords m0 (9 * N.of_nat (length rules) + allow_cost)) as Ha0.
  { unfold m0. simpl. destruct (_ <? _)%N eqn:Hlt; simplify_guards; [simpl in *; lia|].
    split_and!; [done|done|]. unfold evaluation_cost, allow_cost in *. rewrite Hlen. simpl. lia. }
  clearbody m0. pose proof (matching_rules_affords rules descriptor m0 allow_cost Ha0) as Ha1.
  pose proof (matching_rules_exact clock rules descriptor m0) as Hx.
  destruct (matching_rules clock rules descriptor m0) as [m l]. cbn [fst snd] in *.
  destruct (Hx (proj1 Ha1)) as [_ ->]. destruct Ha1 as (Hlive & Hb & Hi). unfold live in Hlive.
  rewrite Hlive. destruct (existsb rule_denies _); [by apply Hdecide; [done|constructor|]|].
  destruct (is_empty _).
  { unfold decide_default. apply Hdecide; [done|constructor|]. by case_bool_decide. }
  unfold decide_allows.
  destruct (rule_requirements_return descriptor evidence now Hnow
    (List.filter rule_allows (List.filter (rule_applies descriptor) rules))) with
    (meter := m) (results := @nil InfrastructurePolicyRequirementResultV1) (cost := 0%N)
    as (m2 & r2 & Ho & (Hl2 & _) & Hn2 & _).
  - destruct Hsound as (_ & Hrules & _). apply Forall_forall. intros rule Hin.
    rewrite list_elem_of_In, !filter_In, <-list_elem_of_In in Hin. destruct Hin as [[Hin _] _].
    unfold rules in Hin. simpl in Hin. rewrite elem_of_sort_by in Hin.
    rewrite Forall_forall in Hrules. by apply Hrules in Hin as [_ ?].
  - split_and!; [done|done|]. etrans; [|exact Hi]. unfold allow_cost.
    pose proof (filter_length_le rule_allows (List.filter (rule_applies descriptor) rules)).
    pose proof (filter_length_le (rule_applies descriptor) rules). nia.
  - constructor.
  - rewrite Ho. simpl. unfold live in Hl2. rewrite Hl2.
    apply Hdecide; [done|by apply sort_by_named|]. by destruct (existsb _ _).
Qed.
End budget.

(** ** The theorems *)

Section theorems.
Context `{!Externals, !EngineExternals, !PolicyExternals}.
Implicit Types (clock : nat → N) (policy overlay : PreparedInfrastructurePolicyV1)
  (descriptor : InfrastructurePolicyOperationDescriptorV1)
  (evidence : list InfrastructurePolicyEvidenceReferenceV1) (now : DateTime)
  (r base : InfrastructurePolicyDecisionRecordV1).

(** C32 On every clock the evaluator returns the verdict of the policy, which is stated without
    meter or order of rules, or it denies because its budget is exhausted.  In particular it
    allows an operation only when no applying rule denies it and the requirements of every
    applying rule hold, or when no rule applies and the default allows. *)
Theorem evaluation_refines_verdict clock policy descriptor evidence now r :
  evaluate clock (prepare policy) descriptor evidence now = Ok r →
  verdict policy descriptor evidence now r.(InfrastructurePolicyDecisionRecordV1.outcome)
  ∨ budget_exhausted r.
Proof. by apply evaluate_verdict. Qed.

(** An evaluation of a prepared policy returns its verdict, without panic and without budget
    denial, when the clock stays within 100 ms, the evidence within 128 items, and the rules and
    evidence within the cost of 250000 instructions. *)
Theorem evaluation_within_budget clock bundle trust policy descriptor evidence now :
  prepare_infrastructure_policy bundle trust = Ok policy →
  (∀ n, (clock n ≤ 100000000)%N) →
  (∀ ms, (0 ≤ ms ≤ 86400000)%Z → is_Some (add_milliseconds now ms)) →
  (N.of_nat (length evidence) ≤ INFRASTRUCTURE_POLICY_MAX_EVIDENCE)%N →
  (evaluation_cost (length bundle.(InfrastructurePolicyBundleV1.rules)) (length evidence) ≤ 250000)%N →
  ∃ r, evaluate clock (prepare policy) descriptor evidence now = Ok r
    ∧ verdict policy descriptor evidence now r.(InfrastructurePolicyDecisionRecordV1.outcome).
Proof.
  intros Hp Hclock Hnow Hev Hcost.
  destruct (evaluate_returns clock default_budget Hclock eq_refl policy descriptor evidence now)
    as (r & Hr & Hne).
  - by eapply prepared_rules_sound.
  - done.
  - done.
  - apply prepared_policy in Hp as (-> & _). done.
  - exists r. split; [done|]. by destruct (evaluate_verdict clock policy default_budget descriptor evidence now r).
Qed.

(** *** The order of the rules *)

(** Two records with the same content; the digest of the policy and the identifier of the
    decision may differ. *)
Definition same_decision (r1 r2 : InfrastructurePolicyDecisionRecordV1) : Prop :=
  r1 <| InfrastructurePolicyDecisionRecordV1.decision_id := r2.(InfrastructurePolicyDecisionRecordV1.decision_id) |>
  = InfrastructurePolicyDecisionRecordV1.mk r2.(InfrastructurePolicyDecisionRecordV1.contract) r2.(InfrastructurePolicyDecisionRecordV1.contract_version) r2.(InfrastructurePolicyDecisionRecordV1.decision_id)
      r2.(InfrastructurePolicyDecisionRecordV1.policy_id) r2.(InfrastructurePolicyDecisionRecordV1.policy_version) r1.(InfrastructurePolicyDecisionRecordV1.policy_digest) r2.(InfrastructurePolicyDecisionRecordV1.descriptor_digest) r2.(InfrastructurePolicyDecisionRecordV1.outcome)
      r2.(InfrastructurePolicyDecisionRecordV1.matched_rule_ids) r2.(InfrastructurePolicyDecisionRecordV1.operation) r2.(InfrastructurePolicyDecisionRecordV1.reason_codes) r2.(InfrastructurePolicyDecisionRecordV1.requirements) r2.(InfrastructurePolicyDecisionRecordV1.explanation)
      r2.(InfrastructurePolicyDecisionRecordV1.emergency_deny) r2.(InfrastructurePolicyDecisionRecordV1.evaluated_at) r2.(InfrastructurePolicyDecisionRecordV1.evaluation_duration_micros) r2.(InfrastructurePolicyDecisionRecordV1.evaluation_instructions).

(** Evaluators that differ in the digest, the signature and the order of the rules of the bundle. *)
Record same_evaluator (e1 e2 : InfrastructurePolicyPreparedEvaluatorV1) : Prop := {
  same_rules : e1.(InfrastructurePolicyPreparedEvaluatorV1.rules) = e2.(InfrastructurePolicyPreparedEvaluatorV1.rules);
  same_budget : e1.(InfrastructurePolicyPreparedEvaluatorV1.budget) = e2.(InfrastructurePolicyPreparedEvaluatorV1.budget);
  same_id : e1.(InfrastructurePolicyPreparedEvaluatorV1.policy).(PreparedInfrastructurePolicyV1.bundle).(InfrastructurePolicyBundleV1.id) = e2.(InfrastructurePolicyPreparedEvaluatorV1.policy).(PreparedInfrastructurePolicyV1.bundle).(InfrastructurePolicyBundleV1.id);
  same_version : e1.(InfrastructurePolicyPreparedEvaluatorV1.policy).(PreparedInfrastructurePolicyV1.bundle).(InfrastructurePolicyBundleV1.version) = e2.(InfrastructurePolicyPreparedEvaluatorV1.policy).(PreparedInfrastructurePolicyV1.bundle).(InfrastructurePolicyBundleV1.version);
  same_environment : e1.(InfrastructurePolicyPreparedEvaluatorV1.policy).(PreparedInfrastructurePolicyV1.bundle).(InfrastructurePolicyBundleV1.environment) = e2.(InfrastructurePolicyPreparedEvaluatorV1.policy).(PreparedInfrastructurePolicyV1.bundle).(InfrastructurePolicyBundleV1.environment);
  same_defaults : e1.(InfrastructurePolicyPreparedEvaluatorV1.policy).(PreparedInfrastructurePolicyV1.bundle).(InfrastructurePolicyBundleV1.defaults) = e2.(InfrastructurePolicyPreparedEvaluatorV1.policy).(PreparedInfrastructurePolicyV1.bundle).(InfrastructurePolicyBundleV1.defaults);
}.

Lemma decision_same clock e1 e2 descriptor now meter outcome ids reasons requirements r1 :
  same_evaluator e1 e2 →
  decision clock e1 descriptor now meter outcome ids reasons requirements = Ok r1 →
  ∃ r2, decision clock e2 descriptor now meter outcome ids reasons requirements = Ok r2
    ∧ same_decision r1 r2.
Proof.
  intros [_ _ Hid Hversion _ _]. unfold decision. intros (text & -> & Hr)%result_bind_ok. simpl.
  apply Ok_inj in Hr as <-. eexists. split; [done|]. unfold same_decision. simpl.
  by rewrite Hid, Hversion.
Qed.

Lemma evaluate_same clock e1 e2 descriptor evidence now r1 :
  same_evaluator e1 e2 →
  evaluate clock e1 descriptor evidence now = Ok r1 →
  ∃ r2, evaluate clock e2 descriptor evidence now = Ok r2 ∧ same_decision r1 r2.
Proof.
  intros Hsame. pose proof Hsame as [Hrules Hbudget _ _ Henv Hdefaults].
  assert (∀ effect, default_for e1 effect = default_for e2 effect) as Hdef.
  { intros []; simpl; by rewrite Hdefaults. }
  unfold evaluate, budget_denied. rewrite Hrules, Hbudget, Henv.
  destruct (_ != _); [by apply decision_same|]. destruct (matching_rules _ _ _ _) as [m matching].
  destruct (EvaluationMeter.exhausted m); [by apply decision_same|].
  destruct (existsb rule_denies matching); [by apply decision_same|].
  destruct (is_empty _); [unfold decide_default; rewrite Hdef; by apply decision_same|].
  unfold decide_allows, budget_denied. destruct (evaluate_rule_requirements _ _ _ _ _ _ _) as [[m2 r2]| |]; [|done|done].
  simpl. destruct (EvaluationMeter.exhausted m2); by apply decision_same.
Qed.

(** The order in which a policy lists its rules does not matter: a prepared policy whose rules
    are permuted takes the same decision on every operation, with the same matched rules,
    requirements, reasons and explanation. *)
Theorem rule_order_irrelevant clock bundle rules trust1 trust2 p1 p2 descriptor evidence now r1 :
  prepare_infrastructure_policy bundle trust1 = Ok p1 →
  prepare_infrastructure_policy (bundle <| InfrastructurePolicyBundleV1.rules := rules |>) trust2 = Ok p2 →
  rules ≡ₚ bundle.(InfrastructurePolicyBundleV1.rules) →
  evaluate clock (prepare p1) descriptor evidence now = Ok r1 →
  ∃ r2, evaluate clock (prepare p2) descriptor evidence now = Ok r2 ∧ same_decision r1 r2.
Proof.
  intros Hp1 Hp2 Hperm. apply evaluate_same.
  pose proof (prepared_rules_sound _ _ _ Hp1) as (Hnd & _ & _).
  apply prepared_policy in Hp1 as (Hb1 & _). apply prepared_policy in Hp2 as (Hb2 & _).
  split; simpl; rewrite ?Hb1, ?Hb2; try done. rewrite Hb1 in Hnd. by apply sort_by_key_unique.
Qed.

(** *** The emergency overlay *)

Lemma overlay_rules bundle trust overlay :
  prepare_emergency_deny_overlay bundle trust = Ok overlay →
  prepare_infrastructure_policy bundle trust = Ok overlay
  ∧ (∀ effect, bundle_default overlay effect = InfrastructurePolicyDefaultV1.Allow)
  ∧ ∀ rule, rule ∈ overlay.(PreparedInfrastructurePolicyV1.bundle).(InfrastructurePolicyBundleV1.rules) →
      rule.(InfrastructurePolicyRuleV1.decision) = InfrastructurePolicyDecisionV1.Deny.
Proof.
  unfold prepare_emergency_deny_overlay. intros (prepared & Hp & Ho)%result_bind_ok.
  apply result_bind_ok in Ho as ([] & Hdef%fail_if_ok & Ho).
  apply result_bind_ok in Ho as ([] & Hrules%fail_if_ok & Ho). apply Ok_inj in Ho as ->.
  simplify_guards. split_and!; [done|by intros []|].
  intros rule Hin. destruct (InfrastructurePolicyRuleV1.decision rule) eqn:Hd; [|done].
  apply not_true_iff_false in Hrules. destruct Hrules. apply existsb_exists. exists rule.
  rewrite <-list_elem_of_In. split; [done|]. by rewrite Hd.
Qed.

(** The verdict of an overlay: it denies where one of its rules applies. *)
Lemma overlay_verdict bundle trust overlay descriptor evidence now outcome :
  prepare_emergency_deny_overlay bundle trust = Ok overlay →
  verdict overlay descriptor evidence now outcome →
  outcome = InfrastructurePolicyDecisionOutcomeV1.Deny
    ∧ (descriptor.(InfrastructurePolicyOperationDescriptorV1.environment)
         ≠ overlay.(PreparedInfrastructurePolicyV1.bundle).(InfrastructurePolicyBundleV1.environment)
       ∨ ∃ rule, applying overlay descriptor rule)
  ∨ outcome = InfrastructurePolicyDecisionOutcomeV1.Allow
    ∧ ∀ rule, ¬ applying overlay descriptor rule.
Proof.
  intros (_ & Hdef & Hrules)%overlay_rules.
  assert (∀ rule, applying overlay descriptor rule →
    rule.(InfrastructurePolicyRuleV1.decision) = InfrastructurePolicyDecisionV1.Deny) as Hdeny
    by (intros rule [? _]; auto).
  destruct 1 as [He|r He Hr Hd|He Hn Hd|He Hn Hd|r req He Ha Hr Hq Hu|r He Hr Ha]; eauto 10.
  - rewrite Hdef in Hd. done.
  - apply Hdeny in Hr as Hd. apply Ha in Hr. congruence.
  - apply Hdeny in Hr as Hd. apply Ha in Hr as [Hr _]. congruence.
Qed.

(** C33 An emergency overlay only removes authority: the final decision allows exactly when the
    base decision does and the overlay did not deny, in which case no rule of the overlay
    applies; an overlay that does not deny leaves the decision as it is, and the identity of the
    admitted policy, its matched rules and requirements are kept in every case. *)
Theorem overlay_removes_authority clock bundle trust overlay descriptor now base denial :
  prepare_emergency_deny_overlay bundle trust = Ok overlay →
  evaluate clock (prepare overlay) descriptor [] now = Ok denial →
  let final := apply_emergency_deny_overlay base denial in
  (final.(InfrastructurePolicyDecisionRecordV1.outcome) = InfrastructurePolicyDecisionOutcomeV1.Allow →
   final = base ∧ ∀ rule, ¬ applying overlay descriptor rule)
  ∧ (descriptor.(InfrastructurePolicyOperationDescriptorV1.environment)
       = overlay.(PreparedInfrastructurePolicyV1.bundle).(InfrastructurePolicyBundleV1.environment) →
     (∀ rule, ¬ applying overlay descriptor rule) → ¬ budget_exhausted denial → final = base)
  ∧ final.(InfrastructurePolicyDecisionRecordV1.policy_id) = base.(InfrastructurePolicyDecisionRecordV1.policy_id)
  ∧ final.(InfrastructurePolicyDecisionRecordV1.policy_version) = base.(InfrastructurePolicyDecisionRecordV1.policy_version)
  ∧ final.(InfrastructurePolicyDecisionRecordV1.policy_digest) = base.(InfrastructurePolicyDecisionRecordV1.policy_digest)
  ∧ final.(InfrastructurePolicyDecisionRecordV1.matched_rule_ids) = base.(InfrastructurePolicyDecisionRecordV1.matched_rule_ids)
  ∧ final.(InfrastructurePolicyDecisionRecordV1.requirements) = base.(InfrastructurePolicyDecisionRecordV1.requirements).
Proof.
  intros Ho Hd final.
  assert (denial.(InfrastructurePolicyDecisionRecordV1.outcome) = InfrastructurePolicyDecisionOutcomeV1.Deny
      ∧ (descriptor.(InfrastructurePolicyOperationDescriptorV1.environment)
           ≠ overlay.(PreparedInfrastructurePolicyV1.bundle).(InfrastructurePolicyBundleV1.environment)
         ∨ (∃ rule, applying overlay descriptor rule) ∨ budget_exhausted denial)
    ∨ denial.(InfrastructurePolicyDecisionRecordV1.outcome) = InfrastructurePolicyDecisionOutcomeV1.Allow
      ∧ ∀ rule, ¬ applying overlay descriptor rule) as Hcases.
  { apply evaluate_verdict in Hd as [Hv|Hb]; [| |done].
    - eapply overlay_verdict in Hv; [|done]. naive_solver.
    - left. split; [by destruct Hb|auto]. }
  unfold final, apply_emergency_deny_overlay.
  destruct Hcases as [[-> Hwhy]|[-> Hnone]]; simpl; split_and!; try done. naive_solver.
Qed.

(** *** Decisions and the events that record them *)

Lemma bounded_explanation_bound outcome ids requirements explanation :
  bounded_explanation outcome ids requirements = Ok explanation → (str_len explanation ≤ 1024)%N.
Proof.
  unfold bounded_explanation, truncate. intros Hb. invert_ok; simplify_guards; [|done].
  unfold INFRASTRUCTURE_POLICY_MAX_EXPLANATION_BYTES, str_len in *. rewrite substring_prefix_length; lia.
Qed.

Lemma requirements_length clock rule_id requirements descriptor evidence now meter results m results' :
  evaluate_requirements clock rule_id requirements descriptor evidence now meter results
    = Ok (m, results') → length results' ≤ length results + 4.
Proof.
  assert (∀ meter results, evaluate_other_requirements clock rule_id requirements descriptor
    evidence now meter results = Ok (m, results') → length results' ≤ length results + 3) as Hother.
  { intros meter' r. unfold evaluate_other_requirements.
    intros Ho. invert_ok; repeat (case_match; simplify_eq); invert_ok; simplify_eq/=;
      rewrite ?length_app; simpl; lia. }
  unfold evaluate_requirements. intros Ho.
  destruct (InfrastructurePolicyRequirementsV1.approval requirements); [|apply Hother in Ho; lia].
  destruct (evaluate_approval _ _ _ _ _ _ _) as [ma [item|]].
  - apply Hother in Ho. rewrite length_app in Ho. simpl in Ho. lia.
  - invert_ok. simplify_eq. lia.
Qed.

Lemma rule_requirements_length clock allows descriptor evidence now meter results m results' :
  evaluate_rule_requirements clock allows descriptor evidence now meter results = Ok (m, results') →
  length results' ≤ length results + 4 * length allows.
Proof.
  revert meter results. induction allows as [|rule allows IH]; simpl; intros meter results Ho.
  { apply Ok_inj in Ho. simplify_eq. lia. }
  apply result_bind_ok in Ho as ([m1 r1] & H1' & Ho). apply IH in Ho.
  destruct (InfrastructurePolicyRuleV1.requires rule).
  - apply requirements_length in H1'. lia.
  - apply Ok_inj in H1'. simplify_eq. lia.
Qed.

(** The bounds that a decision of an evaluator with [rules] rules respects. *)
Definition bounded_decision (rules : nat) r : Prop :=
  length r.(InfrastructurePolicyDecisionRecordV1.matched_rule_ids) ≤ rules
  ∧ length r.(InfrastructurePolicyDecisionRecordV1.requirements) ≤ 4 * rules
  ∧ (str_len r.(InfrastructurePolicyDecisionRecordV1.explanation) ≤ 1024)%N.

Lemma decision_bounded clock e descriptor now meter outcome ids reasons requirements r n :
  decision clock e descriptor now meter outcome ids reasons requirements = Ok r →
  length ids ≤ n → length requirements ≤ 4 * n → bounded_decision n r.
Proof.
  unfold decision. intros (text & Ht & Hr)%result_bind_ok Hids Hreqs. apply Ok_inj in Hr as <-.
  split_and!; simpl; [|done|by eapply bounded_explanation_bound].
  etrans; [apply dedup_length|]. by rewrite sort_by_length.
Qed.

Lemma evaluate_bounded clock e descriptor evidence now r :
  evaluate clock e descriptor evidence now = Ok r →
  bounded_decision (length e.(InfrastructurePolicyPreparedEvaluatorV1.rules)) r.
Proof.
  unfold evaluate, budget_denied, decide_default.
  destruct (_ != _); [intros; eapply decision_bounded; [done|simpl; lia..]|].
  set (m0 := if (_ <? _)%N then _ else _).
  pose proof (matching_rules_exact clock e.(InfrastructurePolicyPreparedEvaluatorV1.rules) descriptor m0) as Hx.
  destruct (matching_rules _ _ _ _) as [m matching]. cbn [fst snd] in Hx.
  destruct (EvaluationMeter.exhausted m) eqn:Hm; [intros; eapply decision_bounded; [done|simpl; lia..]|].
  destruct (Hx Hm) as [_ ->].
  pose proof (filter_length_le (rule_applies descriptor) e.(InfrastructurePolicyPreparedEvaluatorV1.rules)) as Hl.
  set (matching := List.filter (rule_applies descriptor) _) in *.
  destruct (existsb rule_denies matching); [intros; eapply decision_bounded; [done|by rewrite length_fmap|simpl; lia]|].
  destruct (is_empty _); [intros; eapply decision_bounded; [done|by rewrite length_fmap|simpl; lia]|].
  unfold decide_allows, budget_denied. intros ([m2 r2] & Ho & Hd)%result_bind_ok. simpl in Hd.
  destruct (EvaluationMeter.exhausted m2); [eapply decision_bounded; [done|simpl; lia..]|].
  eapply decision_bounded; [done|by rewrite length_fmap|]. rewrite sort_by_length.
  apply rule_requirements_length in Ho. simpl in Ho.
  pose proof (filter_length_le rule_allows matching). lia.
Qed.

Lemma decision_identity clock e descriptor now meter outcome ids reasons requirements r :
  decision clock e descriptor now meter outcome ids reasons requirements = Ok r →
  r.(InfrastructurePolicyDecisionRecordV1.policy_digest) = e.(InfrastructurePolicyPreparedEvaluatorV1.policy).(PreparedInfrastructurePolicyV1.digest)
  ∧ r.(InfrastructurePolicyDecisionRecordV1.descriptor_digest) = descriptor.(InfrastructurePolicyOperationDescriptorV1.descriptor_digest)
  ∧ r.(InfrastructurePolicyDecisionRecordV1.emergency_deny) = None
  ∧ ∃ seed, r.(InfrastructurePolicyDecisionRecordV1.decision_id) = decision_id_of seed.
Proof.
  unfold decision. intros (text & Ht & Hr)%result_bind_ok. apply Ok_inj in Hr as <-. simpl. eauto.
Qed.

Lemma evaluate_identity clock e descriptor evidence now r :
  evaluate clock e descriptor evidence now = Ok r →
  r.(InfrastructurePolicyDecisionRecordV1.policy_digest) = e.(InfrastructurePolicyPreparedEvaluatorV1.policy).(PreparedInfrastructurePolicyV1.digest)
  ∧ r.(InfrastructurePolicyDecisionRecordV1.descriptor_digest) = descriptor.(InfrastructurePolicyOperationDescriptorV1.descriptor_digest)
  ∧ r.(InfrastructurePolicyDecisionRecordV1.emergency_deny) = None
  ∧ ∃ seed, r.(InfrastructurePolicyDecisionRecordV1.decision_id) = decision_id_of seed.
Proof.
  unfold evaluate, budget_denied, decide_default, decide_allows. intros Hr.
  invert_ok; by eapply decision_identity.
Qed.

(** SHA-256 has 32 bytes, printed as 64 lower-case hexadecimal digits. *)
Definition sha256_shape : Prop :=
  ∀ bytes, str_len (sha256_hex bytes) = 64%N ∧ bytes_all is_lower_hex (sha256_hex bytes) = true.
(** The canonicalizer encodes every value. *)
Definition canonicalizer_total : Prop := ∀ value, is_Some (canonical_json value).

Lemma digest_valid bytes : sha256_shape → EventIdentities.valid_sha256 ("sha256:" +:+ sha256_hex bytes) = true.
Proof.
  intros Hsha. destruct (Hsha bytes) as [Hlen Hhex]. unfold EventIdentities.valid_sha256.
  rewrite strip_prefix_app. simpl. by rewrite Hlen, Hhex.
Qed.

Lemma decision_id_valid seed :
  sha256_shape → canonicalizer_total →
  starts_with "decision_" (decision_id_of seed) = true ∧ str_len (decision_id_of seed) = 73%N.
Proof.
  intros Hsha Htotal. unfold decision_id_of. destruct (Htotal seed) as [encoded ->].
  split; [apply starts_with_app|]. rewrite str_len_app. by destruct (Hsha encoded) as [-> _].
Qed.

(** The event that records a decision for an invocation. *)
Definition decision_event (invocation_id call_id operation_key : string) r :
    InfrastructurePolicyDecisionRecordedData :=
  InfrastructurePolicyDecisionRecordedData.mk invocation_id call_id operation_key r.

(** A decision of a prepared policy fits the event that records it: when its encoding is within
    256 KiB, the identifiers of the call and the digest of the descriptor are valid, event
    validation accepts the record. *)
Theorem decisions_recordable clock bundle trust policy descriptor evidence now r invocation_id
    call_id operation_key :
  sha256_shape → canonicalizer_total →
  prepare_infrastructure_policy bundle trust = Ok policy →
  EventIdentities.valid_sha256 descriptor.(InfrastructurePolicyOperationDescriptorV1.descriptor_digest) = true →
  valid_id invocation_id = true → valid_id call_id = true →
  EventIdentities.valid_sha256 operation_key = true →
  evaluate clock (prepare policy) descriptor evidence now = Ok r →
  is_some_and (policy_decision_encoded_len r) (λ len, (len <=? 262144)%N) = true →
  validate_infrastructure_policy_decision_recorded
    (decision_event invocation_id call_id operation_key r) = Ok ().
Proof.
  intros Hsha Htotal Hp Hdesc Hinv Hcall Hkey Hr Hlen.
  pose proof (prepared_rules_sound _ _ _ Hp) as (_ & _ & Hmax).
  apply prepared_policy in Hp as (_ & _ & _ & Hdigest & _).
  pose proof (evaluate_bounded _ _ _ _ _ _ Hr) as (Hids & Hreqs & Htext).
  apply evaluate_identity in Hr as (Hpd & Hdd & Hem & seed & Hid).
  destruct (decision_id_valid seed Hsha Htotal) as [Hstart Hidlen].
  simpl in Hids, Hreqs. rewrite sort_by_length in Hids, Hreqs.
  unfold INFRASTRUCTURE_POLICY_MAX_RULES in Hmax.
  apply fail_if_ok. simpl. rewrite Hinv, Hcall, Hkey, Hid, Hstart, Hidlen, Hpd, Hdd, Hdesc, Hem.
  simpl. rewrite Hdigest, (digest_valid _ Hsha). simpl.
  assert ((1024 <? length r.(InfrastructurePolicyDecisionRecordV1.matched_rule_ids))%nat = false)
    as -> by (apply Nat.ltb_ge; lia).
  assert ((4096 <? length r.(InfrastructurePolicyDecisionRecordV1.requirements))%nat = false)
    as -> by (apply Nat.ltb_ge; lia).
  assert ((1024 <? str_len r.(InfrastructurePolicyDecisionRecordV1.explanation))%N = false)
    as -> by (by apply N.ltb_ge).
  simpl. destruct (policy_decision_encoded_len r) as [len|]; [|done]. simpl in *.
  by apply N.ltb_ge, N.leb_le.
Qed.

Lemma unmatched_denial clock e descriptor evidence now r :
  evaluate clock e descriptor evidence now = Ok r →
  descriptor.(InfrastructurePolicyOperationDescriptorV1.environment)
    ≠ e.(InfrastructurePolicyPreparedEvaluatorV1.policy).(PreparedInfrastructurePolicyV1.bundle).(InfrastructurePolicyBundleV1.environment)
  ∨ budget_exhausted r →
  r.(InfrastructurePolicyDecisionRecordV1.outcome) = InfrastructurePolicyDecisionOutcomeV1.Deny
  ∧ r.(InfrastructurePolicyDecisionRecordV1.matched_rule_ids) = [].
Proof.
  assert (∀ meter outcome ids reasons requirements,
    decision clock e descriptor now meter outcome ids reasons requirements = Ok r →
    r.(InfrastructurePolicyDecisionRecordV1.outcome) = outcome
    ∧ r.(InfrastructurePolicyDecisionRecordV1.reason_codes) = sort_reasons reasons
    ∧ (ids = [] → r.(InfrastructurePolicyDecisionRecordV1.matched_rule_ids) = [])) as Hd.
  { unfold decision. intros * (text & _ & Hr)%result_bind_ok. apply Ok_inj in Hr as <-. simpl.
    split_and!; [done|done|]. by intros ->. }
  unfold evaluate, budget_denied, decide_default, decide_allows. intros Hr Hwhy.
  destruct (_ != _) eqn:Henv; [apply Hd in Hr as (? & _ & ?); auto|]. simplify_guards.
  destruct Hwhy as [?|[Hout Hreason]]; [done|]. split; [done|].
  assert (∀ meter outcome ids reasons requirements,
    decision clock e descriptor now meter outcome ids reasons requirements = Ok r →
    sort_reasons reasons ≠ [InfrastructurePolicyReasonCodeV1.EvaluationBudgetExhausted] → False) as Hbad.
  { intros * (_ & Hrc & _)%Hd Hne. congruence. }
  destruct (matching_rules _ _ _ _) as [m matching].
  destruct (EvaluationMeter.exhausted m); [apply Hd in Hr as (_ & _ & ?); auto|].
  destruct (existsb rule_denies _); [by apply Hbad in Hr|].
  destruct (is_empty _); [apply Hbad in Hr; [done|by case_bool_decide]|].
  apply result_bind_ok in Hr as ([m2 r2] & _ & Hr).
  destruct (EvaluationMeter.exhausted m2); [apply Hd in Hr as (_ & _ & ?); auto|].
  apply Hbad in Hr; [done|]. by destruct (existsb _ _).
Qed.

(** C40 An emergency overlay that denies without a matching rule, because it belongs to another
    environment or because its evaluation ran out of budget, produces a record that event
    validation rejects: the effect is blocked, but the denial cannot be recorded and the call ends
    with a contract error. *)
Theorem unmatched_overlay_unrecordable clock policy descriptor now base denial invocation_id call_id
    operation_key :
  evaluate clock (prepare policy) descriptor [] now = Ok denial →
  descriptor.(InfrastructurePolicyOperationDescriptorV1.environment)
    ≠ policy.(PreparedInfrastructurePolicyV1.bundle).(InfrastructurePolicyBundleV1.environment)
  ∨ budget_exhausted denial →
  validate_infrastructure_policy_decision_recorded
    (decision_event invocation_id call_id operation_key (apply_emergency_deny_overlay base denial))
  = Err (Invalid "infrastructure_policy_decision_recorded exceeds its safe durable contract.").
Proof.
  intros Hd Hwhy. eapply unmatched_denial in Hd as [Hout Hids]; [|exact Hwhy].
  unfold validate_infrastructure_policy_decision_recorded, apply_emergency_deny_overlay, fail_if.
  rewrite Hout. simpl. unfold invalid_emergency_deny. simpl. rewrite Hids. simpl.
  by rewrite !orb_true_r.
Qed.

(** *** Identity and signature *)

(** The canonical payload of a bundle leaves its signature out. *)
Lemma canonical_payload_unsigned bundle signature :
  canonical_payload_of (bundle <| InfrastructurePolicyBundleV1.signature := signature |>)
  = canonical_payload_of bundle.
Proof.
  unfold canonical_payload_of, bundle_value. simpl.
  by destruct signature, (InfrastructurePolicyBundleV1.signature bundle).
Qed.

(** C34 The identity of a prepared policy is that of its unsigned content: replacing or dropping
    the signature changes neither payload nor digest.  A policy counts as verified only when a
    trusted key that is not revoked verifies its signature over exactly that payload, and a trust
    store that requires signatures prepares no other policy. *)
Theorem prepared_policies_authentic bundle trust policy :
  prepare_infrastructure_policy bundle trust = Ok policy →
  (∀ signature trust' policy',
     prepare_infrastructure_policy (bundle <| InfrastructurePolicyBundleV1.signature := signature |>) trust'
       = Ok policy' →
     policy'.(PreparedInfrastructurePolicyV1.canonical_payload) = policy.(PreparedInfrastructurePolicyV1.canonical_payload)
     ∧ policy'.(PreparedInfrastructurePolicyV1.digest) = policy.(PreparedInfrastructurePolicyV1.digest))
  ∧ (trust.(InfrastructurePolicyTrustV1.require_signature) = true →
     policy.(PreparedInfrastructurePolicyV1.signature_status) = InfrastructurePolicySignatureStatusV1.Verified)
  ∧ (policy.(PreparedInfrastructurePolicyV1.signature_status) = InfrastructurePolicySignatureStatusV1.Verified →
     ∃ signature encoded_key public_key signature_bytes,
       bundle.(InfrastructurePolicyBundleV1.signature) = Some signature
       ∧ policy.(PreparedInfrastructurePolicyV1.signing_key_id) = Some signature.(InfrastructurePolicySignatureV1.key_id)
       ∧ signature.(InfrastructurePolicySignatureV1.algorithm) = "ed25519"
       ∧ signature.(InfrastructurePolicySignatureV1.key_id) ∉ trust.(InfrastructurePolicyTrustV1.revoked_key_ids)
       ∧ trust.(InfrastructurePolicyTrustV1.keys) !! signature.(InfrastructurePolicySignatureV1.key_id) = Some encoded_key
       ∧ base64url_decode encoded_key = Some public_key ∧ str_len public_key = 32%N
       ∧ base64url_decode signature.(InfrastructurePolicySignatureV1.value) = Some signature_bytes
       ∧ str_len signature_bytes = 64%N
       ∧ ed25519_verify public_key policy.(PreparedInfrastructurePolicyV1.canonical_payload) signature_bytes = true).
Proof.
  intros (_ & Hv & Hc & Hd & Hs)%prepared_policy. split_and!.
  - intros signature trust' policy' (_ & _ & Hc' & Hd' & _)%prepared_policy.
    rewrite canonical_payload_unsigned in Hc'. assert (PreparedInfrastructurePolicyV1.canonical_payload policy'
      = PreparedInfrastructurePolicyV1.canonical_payload policy) as Heq by congruence.
    split; [done|]. by rewrite Hd, Hd', Heq.
  - intros Hreq. unfold signature_status_of in Hs.
    destruct (InfrastructurePolicyBundleV1.signature bundle); [|by rewrite Hreq in Hs].
    invert_ok. by simplify_eq.
  - intros Hst. unfold signature_status_of in Hs.
    destruct (InfrastructurePolicyBundleV1.signature bundle) as [sig|] eqn:Hsig;
      [|invert_ok; simplify_eq; congruence].
    unfold validate_bundle in Hv. repeat (apply result_bind_ok in Hv as ([] & ? & Hv)).
    rewrite Hsig in Hv. unfold if_some, validate_signature in Hv.
    apply result_bind_ok in Hs as ([] & Hver & Hs). apply Ok_inj in Hs. simplify_eq.
    unfold verify_signature, decode_base64url in Hver. invert_ok. simplify_guards.
    eexists sig, _, _, _. split_and!; eauto; by apply N.eqb_eq.
Qed.
End theorems.
