(* ===== verification/PolicyCache.v ===== *)
(** * The cache of prepared evaluators

    [InfrastructurePolicyEvaluatorCacheV1], infrastructure_policy_runtime.rs: prepared
    evaluators by policy digest, evicted in the order of insertion.  [cache_prepare]
    is one call; the two critical sections of the source, [cache_lookup] and
    [cache_store], are also the steps of calls that overlap. *)

From S2P Require Import Prelude Strings Json EventTypes Guards ModelTypes EngineExternals.
From S2P Require Import PolicyTypes PolicyBundle PolicyDescriptors PolicyEvaluation.

Module InfrastructurePolicyEvaluatorCacheV1.
Record InfrastructurePolicyEvaluatorCacheV1 := mk {
  maximum_entries : N;
  entries : gmap string InfrastructurePolicyPreparedEvaluatorV1;
  order : list string
}.
End InfrastructurePolicyEvaluatorCacheV1.
Abbreviation InfrastructurePolicyEvaluatorCacheV1 :=
  InfrastructurePolicyEvaluatorCacheV1.InfrastructurePolicyEvaluatorCacheV1.

Definition cache_new (maximum_entries : N) : InfrastructurePolicyEvaluatorCacheV1 :=
  InfrastructurePolicyEvaluatorCacheV1.mk (N.max maximum_entries 1) ∅ [].

(** [InfrastructurePolicyEvaluatorCacheV1::default]. *)
Definition cache_default : InfrastructurePolicyEvaluatorCacheV1 := cache_new 64.

Definition cache_lookup (cache : InfrastructurePolicyEvaluatorCacheV1)
    (policy : PreparedInfrastructurePolicyV1) : option InfrastructurePolicyPreparedEvaluatorV1 :=
  cache.(InfrastructurePolicyEvaluatorCacheV1.entries) !! policy.(PreparedInfrastructurePolicyV1.digest).

(** The second critical section: evict the oldest entry of a full cache, then insert. *)
Definition cache_store (cache : InfrastructurePolicyEvaluatorCacheV1)
    (policy : PreparedInfrastructurePolicyV1) : InfrastructurePolicyEvaluatorCacheV1 :=
  let evaluator := prepare policy in
  let '(entries, order) :=
    if (cache.(InfrastructurePolicyEvaluatorCacheV1.maximum_entries) <=? N.of_nat (size cache.(InfrastructurePolicyEvaluatorCacheV1.entries)))%N then
      match cache.(InfrastructurePolicyEvaluatorCacheV1.order) with
      | oldest :: order => (delete oldest cache.(InfrastructurePolicyEvaluatorCacheV1.entries), order)
      | [] => (cache.(InfrastructurePolicyEvaluatorCacheV1.entries), [])
      end
    else (cache.(InfrastructurePolicyEvaluatorCacheV1.entries), cache.(InfrastructurePolicyEvaluatorCacheV1.order)) in
  InfrastructurePolicyEvaluatorCacheV1.mk cache.(InfrastructurePolicyEvaluatorCacheV1.maximum_entries)
    (<[policy.(PreparedInfrastructurePolicyV1.digest) := evaluator]> entries) (order ++ [policy.(PreparedInfrastructurePolicyV1.digest)]).

Definition cache_prepare (cache : InfrastructurePolicyEvaluatorCacheV1)
    (policy : PreparedInfrastructurePolicyV1) :
    InfrastructurePolicyEvaluatorCacheV1 * InfrastructurePolicyPreparedEvaluatorV1 :=
  match cache_lookup cache policy with
  | Some existing => (cache, existing)
  | None => (cache_store cache policy, prepare policy)
  end.

Definition cache_len (cache : InfrastructurePolicyEvaluatorCacheV1) : nat := size cache.(InfrastructurePolicyEvaluatorCacheV1.entries).
Definition cache_is_empty (cache : InfrastructurePolicyEvaluatorCacheV1) : bool :=
  (cache_len cache =? 0)%nat.

(** ** One call at a time *)

(** The order lists every entry once, the cache is bounded, and each entry is the evaluator of a
    policy with that digest that was prepared before. *)
Record cache_invariant (prepared : list PreparedInfrastructurePolicyV1)
    (cache : InfrastructurePolicyEvaluatorCacheV1) : Prop := {
  invariant_positive : (1 ≤ cache.(InfrastructurePolicyEvaluatorCacheV1.maximum_entries))%N;
  invariant_distinct : NoDup cache.(InfrastructurePolicyEvaluatorCacheV1.order);
  invariant_order : ∀ digest, digest ∈ cache.(InfrastructurePolicyEvaluatorCacheV1.order) ↔ is_Some (cache.(InfrastructurePolicyEvaluatorCacheV1.entries) !! digest);
  invariant_bound : (N.of_nat (size cache.(InfrastructurePolicyEvaluatorCacheV1.entries)) ≤ cache.(InfrastructurePolicyEvaluatorCacheV1.maximum_entries))%N;
  invariant_entries : ∀ digest evaluator, cache.(InfrastructurePolicyEvaluatorCacheV1.entries) !! digest = Some evaluator →
    ∃ policy, policy ∈ prepared ∧ policy.(PreparedInfrastructurePolicyV1.digest) = digest
      ∧ evaluator = prepare policy;
}.

Lemma cache_new_invariant n : cache_invariant [] (cache_new n).
Proof.
  split; simpl; [lia|by apply NoDup_nil_2| |rewrite map_size_empty; lia|by intros ? ? ?%lookup_empty_Some].
  intros digest. rewrite lookup_empty. split; [by intros ?%elem_of_nil|by intros []].
Qed.

(** A cache with room takes a new entry. *)
Lemma cache_insert_invariant prepared maximum entries order (policy : PreparedInfrastructurePolicyV1) :
  cache_invariant prepared (InfrastructurePolicyEvaluatorCacheV1.mk maximum entries order) →
  entries !! policy.(PreparedInfrastructurePolicyV1.digest) = None → (N.of_nat (size entries) < maximum)%N →
  cache_invariant (policy :: prepared)
    (InfrastructurePolicyEvaluatorCacheV1.mk maximum (<[policy.(PreparedInfrastructurePolicyV1.digest) := prepare policy]> entries)
       (order ++ [policy.(PreparedInfrastructurePolicyV1.digest)])).
Proof.
  intros [Hpos Hnd Hord Hbound Hent] Hmiss Hroom. simpl in *. split; simpl.
  - done.
  - apply NoDup_app. split_and!; [done| |apply NoDup_singleton]. intros x Hx ->%list_elem_of_singleton.
    apply Hord in Hx. rewrite Hmiss in Hx. by destruct Hx.
  - intros digest. rewrite elem_of_app, list_elem_of_singleton, Hord, lookup_insert_is_Some.
    destruct (decide (policy.(PreparedInfrastructurePolicyV1.digest) = digest)); naive_solver.
  - rewrite map_size_insert_None by done. lia.
  - intros digest e [[<- <-]|[_ He]]%lookup_insert_Some.
    + exists policy. split_and!; [left|done|done].
    + apply Hent in He as (p & ? & ? & ?). exists p. split_and!; [by right|done|done].
Qed.

(** Evicting the oldest entry makes room. *)
Lemma cache_evict_invariant prepared maximum entries oldest order :
  cache_invariant prepared (InfrastructurePolicyEvaluatorCacheV1.mk maximum entries (oldest :: order)) →
  cache_invariant prepared (InfrastructurePolicyEvaluatorCacheV1.mk maximum (delete oldest entries) order)
  ∧ (N.of_nat (size (delete oldest entries)) < maximum)%N.
Proof.
  intros [Hpos Hnd Hord Hbound Hent]. simpl in *. apply NoDup_cons in Hnd as [Hold Hnd].
  destruct (proj1 (Hord oldest)) as [e He]; [left|].
  assert (N.of_nat (size (delete oldest entries)) < maximum)%N as Hroom.
  { rewrite map_size_delete_Some by (by eexists).
    assert (size entries ≠ 0) by (intros ->%map_size_empty_inv; done). lia. }
  split; [|done]. split; simpl; [done|done| |lia|].
  - intros digest. rewrite lookup_delete_is_Some, <-Hord, elem_of_cons. naive_solver.
  - intros digest e' [_ He']%lookup_delete_Some. by apply Hent.
Qed.

Lemma cache_store_invariant prepared cache policy :
  cache_invariant prepared cache → cache_lookup cache policy = None →
  cache_invariant (policy :: prepared) (cache_store cache policy).
Proof.
  destruct cache as [maximum entries order]. unfold cache_lookup, cache_store. simpl.
  intros Hinv Hmiss. destruct (_ <=? _)%N eqn:Hfull; simplify_guards; [|by apply cache_insert_invariant].
  destruct order as [|oldest order].
  - destruct Hinv as [Hpos _ Hord _ _]. simpl in *. assert (entries = ∅) as ->.
    { apply map_empty. intros k. apply eq_None_not_Some. intros Hk%Hord. by apply elem_of_nil in Hk. }
    rewrite map_size_empty in Hfull. lia.
  - apply cache_evict_invariant in Hinv as [Hinv Hroom]. apply cache_insert_invariant; [done| |done].
    by apply lookup_delete_None; right.
Qed.

(** The cache after a sequence of calls, and the evaluators they returned. *)
Fixpoint cache_run (cache : InfrastructurePolicyEvaluatorCacheV1)
    (policies : list PreparedInfrastructurePolicyV1) :
    InfrastructurePolicyEvaluatorCacheV1 * list InfrastructurePolicyPreparedEvaluatorV1 :=
  match policies with
  | [] => (cache, [])
  | policy :: policies =>
      let '(cache, evaluator) := cache_prepare cache policy in
      let '(cache, evaluators) := cache_run cache policies in
      (cache, evaluator :: evaluators)
  end.

(** Policies that decide alike: they differ at most in their signature. *)
Definition same_policy (p1 p2 : PreparedInfrastructurePolicyV1) : Prop :=
  p1.(PreparedInfrastructurePolicyV1.digest) = p2.(PreparedInfrastructurePolicyV1.digest)
  ∧ p1.(PreparedInfrastructurePolicyV1.bundle) <| InfrastructurePolicyBundleV1.signature := None |>
    = p2.(PreparedInfrastructurePolicyV1.bundle) <| InfrastructurePolicyBundleV1.signature := None |>.

Section transparency.
Context `{!Externals, !EngineExternals, !PolicyExternals}.

Lemma evaluate_same_policy clock (p1 p2 : PreparedInfrastructurePolicyV1) descriptor evidence now :
  same_policy p1 p2 →
  evaluate clock (prepare p1) descriptor evidence now = evaluate clock (prepare p2) descriptor evidence now.
Proof.
  destruct p1 as [[] ? ? ? ?], p2 as [[] ? ? ? ?]. unfold same_policy. simpl.
  intros [-> Hb]. injection Hb as -> -> -> -> -> -> ->. done.
Qed.

Lemma cache_run_transparent prepared cache policies :
  cache_invariant prepared cache →
  (∀ p1 p2, p1 ∈ prepared ++ policies → p2 ∈ prepared ++ policies →
     p1.(PreparedInfrastructurePolicyV1.digest) = p2.(PreparedInfrastructurePolicyV1.digest) →
     same_policy p1 p2) →
  (∃ prepared', cache_invariant prepared' (cache_run cache policies).1)
  ∧ Forall2 (λ policy evaluator, ∀ clock descriptor evidence now,
        evaluate clock evaluator descriptor evidence now
        = evaluate clock (prepare policy) descriptor evidence now)
      policies (cache_run cache policies).2.
Proof.
  revert prepared cache. induction policies as [|policy policies IH]; intros prepared cache Hinv Hsame; simpl.
  { split; [by exists prepared|constructor]. }
  unfold cache_prepare. destruct (cache_lookup cache policy) as [existing|] eqn:Hl.
  - destruct (IH prepared cache Hinv) as [? ?]; [set_solver|].
    destruct (cache_run cache policies). split; [done|]. constructor; [|done].
    intros. apply (invariant_entries _ _ Hinv) in Hl as (p & Hin & Hd & ->).
    apply evaluate_same_policy, Hsame; set_solver.
  - destruct (IH (policy :: prepared) (cache_store cache policy)) as [? ?].
    + by apply cache_store_invariant.
    + set_solver.
    + destruct (cache_run (cache_store cache policy) policies). split; [done|]. by constructor.
Qed.

(** The evaluator cache is transparent and bounded: whatever sequence of policies is prepared
    through it, each returned evaluator takes the decisions of a freshly prepared one, as long as
    policies with one digest have one unsigned content, and the cache never exceeds its limit. *)
Theorem evaluator_cache_transparent maximum policies :
  (∀ p1 p2, p1 ∈ policies → p2 ∈ policies →
     p1.(PreparedInfrastructurePolicyV1.digest) = p2.(PreparedInfrastructurePolicyV1.digest) →
     same_policy p1 p2) →
  (N.of_nat (cache_len (cache_run (cache_new maximum) policies).1) ≤ N.max maximum 1)%N
  ∧ Forall2 (λ policy evaluator, ∀ clock descriptor evidence now,
        evaluate clock evaluator descriptor evidence now
        = evaluate clock (prepare policy) descriptor evidence now)
      policies (cache_run (cache_new maximum) policies).2.
Proof.
  intros Hsame.
  destruct (cache_run_transparent [] (cache_new maximum) policies) as [[p Hinv] Hall];
    [apply cache_new_invariant|done|]. split; [|done].
  assert (∀ cache, InfrastructurePolicyEvaluatorCacheV1.maximum_entries (cache_run cache policies).1
    = InfrastructurePolicyEvaluatorCacheV1.maximum_entries cache) as Hmax.
  { clear. induction policies as [|policy policies IH]; intros cache; simpl; [done|].
    unfold cache_prepare. destruct (cache_lookup cache policy).
    - specialize (IH cache). by destruct (cache_run cache policies).
    - specialize (IH (cache_store cache policy)). destruct (cache_run _ policies). simpl in *.
      rewrite IH. unfold cache_store. by repeat case_match. }
  pose proof (invariant_bound _ _ Hinv) as Hbound. rewrite Hmax in Hbound. exact Hbound.
Qed.
End transparency.

(** ** Overlapping calls *)

(** Two calls that both miss before either stores leave a digest twice in the order; a later
    insertion then evicts the stale copy instead of a cached evaluator, and a cache of two entries
    holds three.  The engine makes its calls under the lock of the store, so they do not overlap. *)
Lemma overlapping_calls_exceed_limit bundle :
  let policy digest := PreparedInfrastructurePolicyV1.mk bundle digest EmptyString
    InfrastructurePolicySignatureStatusV1.Unsigned None in
  cache_lookup (cache_new 2) (policy "p") = None
  ∧ cache_len (foldl cache_store (cache_new 2) (policy <$> ["p"; "p"; "q"; "s"; "t"])) = 3.
Proof. split; vm_compute; reflexivity. Qed.
