(* ===== verification/DurableState.v ===== *)
(** * Durable user state

    durable_state.rs: the key-value state of a workflow behind three tables of the
    SQLite store.  [StateDatabase] is what the tables hold; every call is one
    transaction, [execute], which returns the new tables or leaves them as they are.
    The constraints of the tables (durable/schema.rs) are checked by the statements
    that write them.  A SQL call that fails for another reason returns
    [StoreUnavailable] and rolls back; [state_step] has such failures as steps of
    their own.  [validate_store_integrity] is the check at startup. *)

From stdpp Require Import pretty.
From S2P Require Import Prelude Strings Json EventTypes Guards EventIdentities PolicyTypes.
From S2P Require Import PolicyBundle PolicyDescriptors.

Class StateExternals := {
  (** [DateTime::<Utc>::from_timestamp_millis]: [None] out of the range of dates. *)
  from_timestamp_millis : Z → option DateTime;
}.

(** ** The Rust standard library and serde_json *)

(** [String::from_utf8(bytes).is_ok()]: the well-formed byte sequences of UTF-8. *)
Definition is_continuation (b : Ascii.ascii) : bool := byte_in 128 191 b.
Fixpoint is_utf8 (s : string) : bool :=
  match s with
  | EmptyString => true
  | String a s1 =>
      if byte_in 0 127 a then is_utf8 s1
      else match s1 with
           | EmptyString => false
           | String b s2 =>
               if byte_in 194 223 a then is_continuation b && is_utf8 s2
               else match s2 with
                    | EmptyString => false
                    | String c s3 =>
                        if byte_in 224 239 a then
                          byte_in (if is_byte (Ascii.ascii_of_N 224) a then 160 else 128)
                                  (if is_byte (Ascii.ascii_of_N 237) a then 159 else 191) b
                          && is_continuation c && is_utf8 s3
                        else match s3 with
                             | EmptyString => false
                             | String d s4 =>
                                 byte_in 240 244 a
                                 && byte_in (if is_byte (Ascii.ascii_of_N 240) a then 144 else 128)
                                      (if is_byte (Ascii.ascii_of_N 244) a then 143 else 191) b
                                 && is_continuation c && is_continuation d && is_utf8 s4
                             end
                    end
           end
  end.

(** [u64::checked_add] and [u64::checked_sub]. *)
Definition u64_checked_add (a b : N) : option N :=
  if (a + b <? usize_modulus)%N then Some (a + b)%N else None.
Definition u64_checked_sub (a b : N) : option N :=
  if (b <=? a)%N then Some (a - b)%N else None.

(** [Value::as_i64], [Value::as_bool], [Value::is_number], [Value::get], the
    equality with a string or a number, and [json!] of an [i64]. *)
Definition value_as_i64 (v : Value) : option Z :=
  match v with
  | Value.Number (Number.PosInt n) => if (n <? 2 ^ 63)%N then Some (Z.of_N n) else None
  | Value.Number (Number.NegInt z) => Some z
  | _ => None
  end.
Definition as_bool (v : Value) : option bool :=
  match v with Value.Bool b => Some b | _ => None end.
Definition is_number (v : Value) : bool :=
  match v with Value.Number _ => true | _ => false end.
Definition value_get (v : Value) (key : string) : option Value :=
  m ← as_object v; map_get m key.
Definition is_text (v : Value) (text : string) : bool := as_str v == Some text.
Definition is_u64 (v : Value) (n : N) : bool := as_u64 v == Some n.
Definition value_from_i64 (z : Z) : Value :=
  Value.Number (if (0 <=? z)%Z then Number.PosInt (Z.to_N z) else Number.NegInt z).

(** How deep arrays and objects are nested.  [serde_json::from_str] refuses text nested deeper
    than 127. *)
Fixpoint nesting (v : Value) : nat :=
  match v with
  | Value.Array values => S (foldr (λ v n, Nat.max (nesting v) n) 0 values)
  | Value.Object entries => S (foldr (λ entry n, Nat.max (nesting entry.2) n) 0 entries)
  | _ => 0
  end.

(** The order of the primary key of the entries. *)
#[export] Instance pair_btree_key : BTreeKey (string * string) := λ a b,
  if a.1 == b.1 then String.leb a.2 b.2 else String.leb a.1 b.1.

(** ** Contract *)

Definition STATE_CONTRACT_VERSION : N := 1.
Definition MAX_STATE_VALUE_BYTES : N := 262144.
Definition DEFAULT_STATE_MAX_KEYS : N := 10000.
Definition DEFAULT_STATE_MAX_BYTES : N := 67108864.
Definition DURABLE_STORE_SCHEMA_VERSION : N := 20.

(** [DurableStateLimits]. *)
Module DurableStateLimits.
Record DurableStateLimits := mk {
  max_keys : N;
  max_bytes : N;
  max_value_bytes : N
}.
End DurableStateLimits.
Abbreviation DurableStateLimits := DurableStateLimits.DurableStateLimits.

Definition default_limits : DurableStateLimits :=
  DurableStateLimits.mk DEFAULT_STATE_MAX_KEYS DEFAULT_STATE_MAX_BYTES MAX_STATE_VALUE_BYTES.

(** [DurableStateExecution]. *)
Module DurableStateExecution.
Record DurableStateExecution := mk {
  result : Value;
  duplicate : bool;
  operation : string;
  key_digest : string;
  input_digest : string;
  result_digest : string;
  version : option N;
  value_bytes : option N;
  duration_ms : f64
}.
End DurableStateExecution.
Abbreviation DurableStateExecution := DurableStateExecution.DurableStateExecution.

Definition safe_metadata (execution : DurableStateExecution) : Map :=
  let metadata :=
    [("profile", Value.String "woml.state-operation-metadata/v1");
     ("operation", Value.String execution.(DurableStateExecution.operation));
     ("keyDigest", Value.String execution.(DurableStateExecution.key_digest));
     ("inputDigest", Value.String execution.(DurableStateExecution.input_digest));
     ("resultDigest", Value.String execution.(DurableStateExecution.result_digest));
     ("outcome", Value.String "succeeded");
     ("durationMs", Value.Number (Number.Float execution.(DurableStateExecution.duration_ms)))] in
  let metadata :=
    match execution.(DurableStateExecution.version) with
    | Some version => map_insert metadata "version" (json_number version)
    | None => metadata
    end in
  match execution.(DurableStateExecution.value_bytes) with
  | Some value_bytes => map_insert metadata "valueBytes" (json_number value_bytes)
  | None => metadata
  end.

(** ** Tables *)

(** [StateEntry], [MutationIdentity] and [StoredMutation]. *)
Module StateEntry.
Record StateEntry := mk {
  value_json : string;
  value_bytes : N;
  version : N;
  updated_at : string
}.
End StateEntry.
Abbreviation StateEntry := StateEntry.StateEntry.

Module MutationIdentity.
Record MutationIdentity := mk {
  operation_key : string;
  operation_name : string;
  input_digest : string
}.
End MutationIdentity.
Abbreviation MutationIdentity := MutationIdentity.MutationIdentity.

Module StoredMutation.
Record StoredMutation := mk {
  scope_digest : string;
  operation_name : string;
  operation : string;
  key_digest : string;
  input_digest : string;
  result_json : string;
  result_digest : string;
  committed_version : option N
}.
End StoredMutation.
Abbreviation StoredMutation := StoredMutation.StoredMutation.

(** A row of woml_state_entries, below its primary key of scope and key. *)
Module EntryRow.
Record EntryRow := mk {
  key_digest : string;
  entry : StateEntry
}.
End EntryRow.
Abbreviation EntryRow := EntryRow.EntryRow.

(** A row of woml_state_mutations, below its operation key. *)
Module MutationRow.
Record MutationRow := mk {
  stored : StoredMutation;
  committed_at : string
}.
End MutationRow.
Abbreviation MutationRow := MutationRow.MutationRow.

(** What the transactions read: the metadata of the store, the objects of its schema, the
    answers of the integrity pragmas and the three tables. *)
Module StateDatabase.
Record StateDatabase := mk {
  store_metadata : gmap string string;
  sqlite_master : gset (string * string);
  quick_check : string;
  foreign_key_failure : bool;
  entries : gmap (string * string) EntryRow;
  mutations : gmap string MutationRow;
  quotas : gmap string (N * N)
}.
#[global] Instance StateDatabase_eta : Eta StateDatabase := λ r,
  mk (store_metadata r) (sqlite_master r) (quick_check r) (foreign_key_failure r) (entries r)
    (mutations r) (quotas r).
#[global] Instance set_store_metadata : Setter store_metadata := ltac:(mk_setter).
#[global] Instance set_entries : Setter entries := ltac:(mk_setter).
#[global] Instance set_mutations : Setter mutations := ltac:(mk_setter).
#[global] Instance set_quotas : Setter quotas := ltac:(mk_setter).
End StateDatabase.
Abbreviation StateDatabase := StateDatabase.StateDatabase.

(** [DurableStateStore]; the clock is an argument of the calls that read it. *)
Module DurableStateStore.
Record DurableStateStore := mk {
  path : string;
  state_location_digest : string;
  limits : DurableStateLimits
}.
End DurableStateStore.
Abbreviation DurableStateStore := DurableStateStore.DurableStateStore.

Definition state_result := result DurableStateError.

(** ** Statements *)

Definition read_entry (db : StateDatabase) (scope key : string) : option StateEntry :=
  EntryRow.entry <$> db.(StateDatabase.entries) !! (scope, key).

Definition read_mutation (db : StateDatabase) (operation_key : string) : option StoredMutation :=
  MutationRow.stored <$> db.(StateDatabase.mutations) !! operation_key.

(** The constraint UNIQUE (scope_digest, key_digest) against the other rows. *)
Definition digest_taken (db : StateDatabase) (scope key key_digest : string) : bool :=
  existsb (λ item : (string * string) * EntryRow,
      (item.1.1 == scope) && (item.1.2 != key) && (item.2.(EntryRow.key_digest) == key_digest))
    (map_to_list db.(StateDatabase.entries)).

Definition write_entry (db : StateDatabase) (scope key_digest key value_json : string)
    (value_bytes version : N) (updated_at : string) : state_result StateDatabase :=
  check fail_if
    (negb (in_range 1 262144 value_bytes) || negb (in_range 1 9007199254740991 version)
     || digest_taken db scope key key_digest)
    DurableStateError.StoreUnavailable;
  Ok (db <| StateDatabase.entries ::=
        <[(scope, key) := EntryRow.mk key_digest
            (StateEntry.mk value_json value_bytes version updated_at)]> |>).

Definition delete_entry (db : StateDatabase) (scope key : string) : StateDatabase :=
  db <| StateDatabase.entries ::= delete (scope, key) |>.

(** SELECT MAX(committed_version) of the mutations of a key; NULL is ignored. *)
Definition sql_max (v : option N) (acc : option N) : option N :=
  match v, acc with
  | Some v, Some m => Some (N.max v m)
  | Some v, None => Some v
  | None, _ => acc
  end.
Definition take_version (scope key_digest : string) (_ : string) (row : MutationRow) (acc : option N) :
    option N :=
  if (row.(MutationRow.stored).(StoredMutation.scope_digest) == scope) && (row.(MutationRow.stored).(StoredMutation.key_digest) == key_digest)
  then sql_max row.(MutationRow.stored).(StoredMutation.committed_version) acc else acc.
Definition max_committed_version (db : StateDatabase) (scope key_digest : string) : option N :=
  map_fold (take_version scope key_digest) None db.(StateDatabase.mutations).

(** SELECT COUNT( * ), COALESCE(SUM(value_bytes), 0) of the entries of a scope. *)
Definition count_entry (scope : string) (id : string * string) (row : EntryRow) (acc : N * N) : N * N :=
  if id.1 == scope then (acc.1 + 1, acc.2 + row.(EntryRow.entry).(StateEntry.value_bytes))%N else acc.
Definition scope_usage (db : StateDatabase) (scope : string) : N * N :=
  map_fold (count_entry scope) (0, 0)%N db.(StateDatabase.entries).

(** INSERT INTO woml_state_quotas, with the CHECK constraints of the table. *)
Definition write_quota (db : StateDatabase) (scope : string) (live_keys value_bytes : N) :
    state_result StateDatabase :=
  check fail_if (negb (in_range 0 10000 live_keys) || negb (in_range 0 67108864 value_bytes))
    DurableStateError.StoreUnavailable;
  Ok (db <| StateDatabase.quotas ::= <[scope := (live_keys, value_bytes)]> |>).

Definition is_mutation (operation : string) : bool :=
  (operation == "set") || (operation == "delete") || (operation == "increment")
  || (operation == "set_if_absent").

(** INSERT INTO woml_state_mutations: a violated constraint is an identity conflict. *)
Definition insert_mutation (db : StateDatabase) (operation_key : string) (row : MutationRow) :
    state_result StateDatabase :=
  check fail_if
    (is_some (db.(StateDatabase.mutations) !! operation_key)
     || negb (is_mutation row.(MutationRow.stored).(StoredMutation.operation))
     || negb (is_none_or row.(MutationRow.stored).(StoredMutation.committed_version) (in_range 1 9007199254740991)))
    DurableStateError.OperationIdentityConflict;
  Ok (db <| StateDatabase.mutations ::= <[operation_key := row]> |>).

(** ** Checks of a request *)

Definition valid_operation_name (name : string) : bool :=
  first_byte is_ascii_lowercase name && (str_len name <=? 128)%N
  && bytes_all (λ b, is_ascii_lowercase b || is_ascii_digit b
                     || is_byte "." b || is_byte "_" b || is_byte "-" b) (tail name).

Definition enforce_version (input : Map) (current : option StateEntry) : state_result unit :=
  match v ← map_get input "ifVersion"; as_u64 v with
  | None => Ok tt
  | Some expected =>
      fail_if (negb (((expected =? 0)%N && is_none current)
                     || is_some_and current (λ entry, (entry.(StateEntry.version) =? expected)%N)))
        DurableStateError.Conflict
  end.

Definition next_version (db : StateDatabase) (scope key_digest : string)
    (current : option StateEntry) : state_result N :=
  let previous := max_committed_version db scope key_digest in
  check fail_if (is_some_and current (λ entry, previous != Some entry.(StateEntry.version)))
    DurableStateError.StoreCorrupt;
  ok_or
    (version ← u64_checked_add (default 0%N previous) 1;
     if (version <=? MAX_STATE_SAFE_INTEGER)%N then Some version else None)
    DurableStateError.StoreCorrupt.

Definition enforce_quota (db : StateDatabase) (scope : string) (current : option StateEntry)
    (replacement_bytes : option N) (limits : DurableStateLimits) : state_result StateDatabase :=
  let actual := scope_usage db scope in
  let stored := db.(StateDatabase.quotas) !! scope in
  check fail_if
    (is_some_and stored (λ stored, stored != actual) || (is_none stored && (actual != (0, 0)%N)))
    DurableStateError.StoreCorrupt;
  let? next_keys :=
    ok_or (match current, replacement_bytes with
           | None, Some _ => u64_checked_add actual.1 1
           | Some _, None => u64_checked_sub actual.1 1
           | _, _ => Some actual.1
           end) DurableStateError.StoreCorrupt in
  let? next_bytes :=
    ok_or (bytes ← u64_checked_sub actual.2 (from_option StateEntry.value_bytes 0%N current);
           u64_checked_add bytes (default 0%N replacement_bytes)) DurableStateError.StoreCorrupt in
  check fail_if ((limits.(DurableStateLimits.max_keys) <? next_keys) || (limits.(DurableStateLimits.max_bytes) <? next_bytes))%N
    DurableStateError.QuotaExceeded;
  write_quota db scope next_keys next_bytes.

Definition safe_integer (z : Z) : bool :=
  ((- Z.of_N MAX_STATE_SAFE_INTEGER <=? z) && (z <=? Z.of_N MAX_STATE_SAFE_INTEGER))%Z.

(** What a call has settled before it opens its transaction. *)
Module PreparedCall.
Record PreparedCall := mk {
  request : StateRequest;
  key : string;
  scope : string;
  key_digest : string;
  input_digest : string;
  mutation : option MutationIdentity
}.
End PreparedCall.
Abbreviation PreparedCall := PreparedCall.PreparedCall.

Section state.
Context `{!Externals, !PolicyExternals, !StateExternals}.

Definition digest (domain value : string) : string := "sha256:" +:+ sha256_hex (domain +:+ value).

(** The domains of the digests. *)
Definition KEY_DOMAIN : string := "woml.state-key" +:+ nul +:+ "v1" +:+ nul.
Definition INPUT_DOMAIN : string := "woml.state-input" +:+ nul +:+ "v1" +:+ nul.
Definition RESULT_DOMAIN : string := "woml.state-result" +:+ nul +:+ "v1" +:+ nul.
Definition LOCATION_DOMAIN : string := "woml.state-location" +:+ nul +:+ "v1" +:+ nul.

Definition canonical_string (value : Value) : state_result string :=
  let? encoded := ok_or (canonical_json value) DurableStateError.ValueInvalid in
  check fail_if (negb (is_utf8 encoded)) DurableStateError.ValueInvalid;
  Ok encoded.

Definition canonical_digest (domain : string) (value : Value) : state_result string :=
  let? encoded := canonical_string value in Ok (digest domain encoded).

Definition state_timestamp (milliseconds : Z) : state_result string :=
  ok_or (rfc3339_millis <$> from_timestamp_millis milliseconds) DurableStateError.StoreCorrupt.

Definition parse_stored_value (encoded : string) : state_result Value :=
  let? value := ok_or (value_from_slice encoded) DurableStateError.StoreCorrupt in
  let? canonical := canonical_string value in
  check fail_if (canonical != encoded) DurableStateError.StoreCorrupt;
  Ok value.

Definition parse_safe_integer (encoded : string) : state_result Z :=
  let? value := ok_or (value_from_slice encoded) DurableStateError.StoreCorrupt in
  match value_as_i64 value with
  | Some integer => if safe_integer integer then Ok integer else Err DurableStateError.IntegerOverflow
  | None => if is_number value then Err DurableStateError.IntegerOverflow
            else Err DurableStateError.IntegerRequired
  end.

Definition state_value (input : Map) (maximum : N) : state_result (string * N) :=
  let? value := ok_or (map_get input "value") DurableStateError.ValueInvalid in
  let? encoded := ok_or (canonical_json value) DurableStateError.ValueInvalid in
  check fail_if (maximum <? str_len encoded)%N DurableStateError.ValueTooLarge;
  check fail_if (negb (is_utf8 encoded)) DurableStateError.ValueInvalid;
  Ok (encoded, str_len encoded).

(** [derive_operation_key], capability/identity.rs. *)
Definition derive_operation_key (step_idempotency_key operation_name : string) : string :=
  "sha256:" +:+ sha256_hex
    ("woml.capability-operation" +:+ nul +:+ "v1" +:+ nul
     +:+ step_idempotency_key +:+ nul +:+ operation_name).

Definition validate_mutation_identity (call : CapabilityCallRequest) (operation input_digest : string) :
    state_result MutationIdentity :=
  check fail_if
    ((call.(CapabilityCallRequest.identity).(CapabilityCallIdentity.mode) != CapabilityIdentityMode.Named)
     || (call.(CapabilityCallRequest.identity).(CapabilityCallIdentity.operation_key)
         != derive_operation_key call.(CapabilityCallRequest.identity).(CapabilityCallIdentity.step_idempotency_key) call.(CapabilityCallRequest.identity).(CapabilityCallIdentity.operation_name)))
    DurableStateError.OperationNameInvalid;
  let? author_name :=
    ok_or (strip_prefix ("state." +:+ operation +:+ ".") call.(CapabilityCallRequest.identity).(CapabilityCallIdentity.operation_name))
      DurableStateError.OperationNameInvalid in
  check fail_if (negb (valid_operation_name author_name)) DurableStateError.OperationNameInvalid;
  Ok (MutationIdentity.mk call.(CapabilityCallRequest.identity).(CapabilityCallIdentity.operation_key) call.(CapabilityCallRequest.identity).(CapabilityCallIdentity.operation_name) input_digest).

(** [DurableStateStore::scope_digest]. *)
Definition scope_digest (store : DurableStateStore) (workflow_id : string) : string :=
  "sha256:" +:+ sha256_hex
    ("woml.state-scope" +:+ nul +:+ "v1" +:+ nul
     +:+ store.(DurableStateStore.state_location_digest) +:+ nul +:+ workflow_id).

(** ** The schema of the store *)

Definition state_objects : list (string * string) :=
  [("table", "woml_state_entries"); ("index", "woml_state_entries_scope");
   ("table", "woml_state_mutations"); ("index", "woml_state_mutations_scope_key");
   ("trigger", "woml_state_mutations_no_update"); ("trigger", "woml_state_mutations_no_delete");
   ("table", "woml_state_quotas")].

Definition validate_store (db : StateDatabase) : state_result unit :=
  check fail_if
    ((text ← db.(StateDatabase.store_metadata) !! "schema_version"; parse_u32 text)
     != Some DURABLE_STORE_SCHEMA_VERSION) DurableStateError.StoreCorrupt;
  fail_if (existsb (λ object, negb (bool_decide (object ∈ db.(StateDatabase.sqlite_master)))) state_objects)
    DurableStateError.StoreCorrupt.

(** ** Operations

    Each returns the tables, the data of the result, the committed version and the
    size of the value. *)

Definition outcome : Type := StateDatabase * Value * option N * option N.

Definition state_get (db : StateDatabase) (current : option StateEntry) : state_result outcome :=
  match current with
  | Some entry =>
      let? value := parse_stored_value entry.(StateEntry.value_json) in
      Ok (db, Value.Object
            [("found", Value.Bool true); ("value", value); ("version", json_number entry.(StateEntry.version));
             ("updatedAt", Value.String entry.(StateEntry.updated_at))], None, None)
  | None => Ok (db, Value.Object [("found", Value.Bool false)], None, None)
  end.

Definition state_has (db : StateDatabase) (current : option StateEntry) : outcome :=
  (db, match current with
       | Some entry =>
           Value.Object [("present", Value.Bool true); ("version", json_number entry.(StateEntry.version))]
       | None => Value.Object [("present", Value.Bool false)]
       end, None, None).

(** The write that set, increment and set_if_absent share: the next version, the quota and
    the entry. *)
Definition put_entry (store : DurableStateStore) (db : StateDatabase) (scope key_digest key : string)
    (current : option StateEntry) (value_json : string) (bytes : N) (now : string) :
    state_result (StateDatabase * N) :=
  let? version := next_version db scope key_digest current in
  let? db := enforce_quota db scope current (Some bytes) store.(DurableStateStore.limits) in
  let? db := write_entry db scope key_digest key value_json bytes version now in
  Ok (db, version).

Definition state_set (store : DurableStateStore) (db : StateDatabase)
    (scope key_digest key : string) (input : Map) (current : option StateEntry) (now : string) :
    state_result outcome :=
  check enforce_version input current;
  let? (value_json, bytes) := state_value input store.(DurableStateStore.limits).(DurableStateLimits.max_value_bytes) in
  let? (db, version) := put_entry store db scope key_digest key current value_json bytes now in
  Ok (db, Value.Object
        [("stored", Value.Bool true); ("version", json_number version);
         ("updatedAt", Value.String now)], Some version, Some bytes).

Definition state_delete (store : DurableStateStore) (db : StateDatabase)
    (scope key_digest key : string) (input : Map) (current : option StateEntry) :
    state_result outcome :=
  check enforce_version input current;
  let data deleted := Value.Object [("deleted", Value.Bool deleted)] in
  match current with
  | Some _ =>
      let? version := next_version db scope key_digest current in
      let? db := enforce_quota db scope current None store.(DurableStateStore.limits) in
      Ok (delete_entry db scope key, data true, Some version, None)
  | None => Ok (db, data false, None, None)
  end.

Definition state_increment (store : DurableStateStore) (db : StateDatabase)
    (scope key_digest key : string) (input : Map) (current : option StateEntry) (now : string) :
    state_result outcome :=
  check enforce_version input current;
  let? amount :=
    ok_or (v ← map_get input "amount"; value_as_i64 v) DurableStateError.IntegerOverflow in
  check fail_if (negb (safe_integer amount)) DurableStateError.IntegerOverflow;
  let? existing :=
    match current with
    | Some entry => parse_safe_integer entry.(StateEntry.value_json)
    | None => Ok 0%Z
    end in
  let? value :=
    ok_or (sum ← i64_checked_add existing amount; if safe_integer sum then Some sum else None)
      DurableStateError.IntegerOverflow in
  let value_json := i64_to_string value in
  let bytes := str_len value_json in
  let? (db, version) := put_entry store db scope key_digest key current value_json bytes now in
  Ok (db, Value.Object
        [("value", value_from_i64 value); ("version", json_number version);
         ("updatedAt", Value.String now)], Some version, Some bytes).

Definition state_set_if_absent (store : DurableStateStore) (db : StateDatabase)
    (scope key_digest key : string) (input : Map) (current : option StateEntry) (now : string) :
    state_result outcome :=
  let data stored value version updated_at := Value.Object
    [("stored", Value.Bool stored); ("value", value); ("version", json_number version);
     ("updatedAt", Value.String updated_at)] in
  match current with
  | Some entry =>
      let? value := parse_stored_value entry.(StateEntry.value_json) in
      Ok (db, data false value entry.(StateEntry.version) entry.(StateEntry.updated_at), Some entry.(StateEntry.version),
          Some entry.(StateEntry.value_bytes))
  | None =>
      let? (value_json, bytes) := state_value input store.(DurableStateStore.limits).(DurableStateLimits.max_value_bytes) in
      let? (db, version) := put_entry store db scope key_digest key None value_json bytes now in
      let? value := parse_stored_value value_json in
      Ok (db, data true value version now, Some version, Some bytes)
  end.

Definition apply_operation (store : DurableStateStore) (db : StateDatabase)
    (scope key_digest key : string) (request : StateRequest) (current : option StateEntry)
    (now : string) : state_result outcome :=
  let input := request.(StateRequest.input) in
  if request.(StateRequest.operation) == "get" then state_get db current
  else if request.(StateRequest.operation) == "has" then Ok (state_has db current)
  else if request.(StateRequest.operation) == "set" then state_set store db scope key_digest key input current now
  else if request.(StateRequest.operation) == "delete" then state_delete store db scope key_digest key input current
  else if request.(StateRequest.operation) == "increment" then
    state_increment store db scope key_digest key input current now
  else if request.(StateRequest.operation) == "set_if_absent" then
    state_set_if_absent store db scope key_digest key input current now
  else Err DurableStateError.InvalidRequest.

(** ** A call *)

(** [CapabilityCallRequest::validate], capability/contracts.rs. *)
Definition valid_call (call : CapabilityCallRequest) : bool :=
  (call.(CapabilityCallRequest.contract) == "woml.capability-call") && (call.(CapabilityCallRequest.contract_version) =? 1)%N
  && (call.(CapabilityCallRequest.message_type) == "request")
  && forallb (λ value, negb (str_is_empty value) && (str_len value <=? 256)%N)
       [call.(CapabilityCallRequest.invocation_id); call.(CapabilityCallRequest.call_id); call.(CapabilityCallRequest.run_id); call.(CapabilityCallRequest.node_id)]
  && in_range 1 10 call.(CapabilityCallRequest.attempt_number)
  && valid_capability_name call.(CapabilityCallRequest.capability) && valid_capability_name call.(CapabilityCallRequest.operation)
  && (0 <? call.(CapabilityCallRequest.input_contract_version))%N && (0 <? call.(CapabilityCallRequest.result_contract_version))%N
  && EventIdentities.valid_sha256 call.(CapabilityCallRequest.identity).(CapabilityCallIdentity.step_idempotency_key)
  && EventIdentities.valid_sha256 call.(CapabilityCallRequest.identity).(CapabilityCallIdentity.operation_key)
  && negb (str_is_empty call.(CapabilityCallRequest.identity).(CapabilityCallIdentity.operation_name))
  && (str_len call.(CapabilityCallRequest.identity).(CapabilityCallIdentity.operation_name) <=? 256)%N
  && is_none_or call.(CapabilityCallRequest.identity).(CapabilityCallIdentity.provider_idempotency_key)
       (λ value, negb (str_is_empty value) && (str_len value <=? 256)%N)
  && in_range 1 8388608 call.(CapabilityCallRequest.limits).(CapabilityCallLimits.input_bytes) && in_range 1 8388608 call.(CapabilityCallRequest.limits).(CapabilityCallLimits.result_bytes)
  && in_range 1 86400000 call.(CapabilityCallRequest.limits).(CapabilityCallLimits.timeout_ms).

Definition capability_request_validate (call : CapabilityCallRequest) : capability_result unit :=
  fail_if (negb (valid_call call))
    (CapabilityFailure.mk CapabilityFailureKind.InvalidInput "WOML_CAPABILITY_REQUEST_INVALID"
       "The capability call does not match Capability Call v1." false false None).

Definition prepare_call (store : DurableStateStore) (workflow_id : string)
    (call : CapabilityCallRequest) : state_result PreparedCall :=
  check fail_if (str_is_empty workflow_id || (256 <? str_len workflow_id)%N)
    DurableStateError.InvalidRequest;
  check map_err (λ _, DurableStateError.InvalidRequest) (capability_request_validate call);
  check fail_if
    ((call.(CapabilityCallRequest.capability) != "state") || (call.(CapabilityCallRequest.input_contract_version) != STATE_CONTRACT_VERSION)
     || (call.(CapabilityCallRequest.result_contract_version) != STATE_CONTRACT_VERSION))
    DurableStateError.InvalidRequest;
  let? request := parse_request call.(CapabilityCallRequest.input) call.(CapabilityCallRequest.operation) in
  let? key := state_key request.(StateRequest.input) in
  let scope := scope_digest store workflow_id in
  let key_digest := digest KEY_DOMAIN key in
  let? input_json := canonical_string call.(CapabilityCallRequest.input) in
  let input_digest := digest INPUT_DOMAIN input_json in
  let? mutation :=
    if is_mutation request.(StateRequest.operation) then
      let? identity := validate_mutation_identity call request.(StateRequest.operation) input_digest in
      Ok (Some identity)
    else Ok None in
  Ok (PreparedCall.mk request key scope key_digest input_digest mutation).

(** The answer to a mutation whose operation key is on record. *)
Definition replay_mutation (prepared : PreparedCall) (identity : MutationIdentity)
    (stored : StoredMutation) (duration_ms : f64) : state_result DurableStateExecution :=
  check fail_if
    ((stored.(StoredMutation.scope_digest) != prepared.(PreparedCall.scope))
     || (stored.(StoredMutation.operation_name) != identity.(MutationIdentity.operation_name))
     || (stored.(StoredMutation.operation) != prepared.(PreparedCall.request).(StateRequest.operation))
     || (stored.(StoredMutation.key_digest) != prepared.(PreparedCall.key_digest))
     || (stored.(StoredMutation.input_digest) != identity.(MutationIdentity.input_digest)))
    DurableStateError.OperationIdentityConflict;
  let? result := ok_or (value_from_slice stored.(StoredMutation.result_json)) DurableStateError.StoreCorrupt in
  let? result_digest := canonical_digest RESULT_DOMAIN result in
  check fail_if (result_digest != stored.(StoredMutation.result_digest)) DurableStateError.StoreCorrupt;
  Ok (DurableStateExecution.mk result true prepared.(PreparedCall.request).(StateRequest.operation) prepared.(PreparedCall.key_digest)
        prepared.(PreparedCall.input_digest) stored.(StoredMutation.result_digest) stored.(StoredMutation.committed_version) None duration_ms).

Definition state_result_value (operation : string) (data : Value) : Value :=
  Value.Object
    [("contract", Value.String STATE_CONTRACT);
     ("contractVersion", json_number STATE_CONTRACT_VERSION);
     ("kind", Value.String "result"); ("operation", Value.String operation); ("data", data)].

(** A call that is not a replay: the operation, its result and the record of the mutation. *)
Definition execute_fresh (store : DurableStateStore) (db : StateDatabase) (prepared : PreparedCall)
    (now_millis : Z) (duration_ms : f64) : state_result (StateDatabase * DurableStateExecution) :=
  let current := read_entry db prepared.(PreparedCall.scope) prepared.(PreparedCall.key) in
  let? now := state_timestamp now_millis in
  let? (db, data, committed_version, value_bytes) :=
    apply_operation store db prepared.(PreparedCall.scope) prepared.(PreparedCall.key_digest) prepared.(PreparedCall.key) prepared.(PreparedCall.request)
      current now in
  let result := state_result_value prepared.(PreparedCall.request).(StateRequest.operation) data in
  let? result_json := canonical_string result in
  let result_digest := digest RESULT_DOMAIN result_json in
  let? db :=
    match prepared.(PreparedCall.mutation) with
    | Some identity =>
        insert_mutation db identity.(MutationIdentity.operation_key)
          (MutationRow.mk
             (StoredMutation.mk prepared.(PreparedCall.scope) identity.(MutationIdentity.operation_name) prepared.(PreparedCall.request).(StateRequest.operation)
                prepared.(PreparedCall.key_digest) identity.(MutationIdentity.input_digest) result_json result_digest
                committed_version) now)
    | None => Ok db
    end in
  Ok (db, DurableStateExecution.mk result false prepared.(PreparedCall.request).(StateRequest.operation) prepared.(PreparedCall.key_digest)
            prepared.(PreparedCall.input_digest) result_digest committed_version value_bytes duration_ms).

(** [DurableStateStore::execute]; an error rolls the transaction back. *)
Definition execute (store : DurableStateStore) (db : StateDatabase) (workflow_id : string)
    (call : CapabilityCallRequest) (now_millis : Z) (duration_ms : f64) :
    state_result (StateDatabase * DurableStateExecution) :=
  let? prepared := prepare_call store workflow_id call in
  check validate_store db;
  match prepared.(PreparedCall.mutation) with
  | Some identity =>
      match read_mutation db identity.(MutationIdentity.operation_key) with
      | Some stored =>
          let? execution := replay_mutation prepared identity stored duration_ms in
          Ok (db, execution)
      | None => execute_fresh store db prepared now_millis duration_ms
      end
  | None => execute_fresh store db prepared now_millis duration_ms
  end.

(** ** The check at startup *)

(** [valid_digest], durable_state.rs. *)
Definition valid_digest (value : string) : bool :=
  (str_len value =? 71)%N && starts_with "sha256:" value
  && bytes_all is_lower_hex (String.substring 7 (String.length value - 7) value).

Definition valid_mutation_result (operation : string) (result : Value)
    (committed_version : option N) : bool :=
  match as_object result with
  | None => false
  | Some envelope =>
      if negb (length envelope =? 5)%nat then false
      else
        match data ← value_get result "data"; as_object data with
        | None => false
        | Some data =>
            let version_matches (value : option Value) :=
              ((v ← value; as_u64 v) == committed_version)
              && is_some_and committed_version
                   (λ version, (0 <? version)%N && (version <=? MAX_STATE_SAFE_INTEGER)%N) in
            let valid_time (value : option Value) :=
              is_some_and (v ← value; as_str v)
                (λ timestamp, is_some (parse_from_rfc3339 timestamp)) in
            if operation == "set" then
              (length data =? 3)%nat
              && (match map_get data "stored" with Some (Value.Bool true) => true | _ => false end)
              && version_matches (map_get data "version") && valid_time (map_get data "updatedAt")
            else if operation == "delete" then
              (length data =? 1)%nat
              && is_some_and (v ← map_get data "deleted"; as_bool v)
                   (λ deleted, Bool.eqb deleted (is_some committed_version))
            else if operation == "increment" then
              (length data =? 3)%nat
              && is_some_and (v ← map_get data "value"; value_as_i64 v) safe_integer
              && version_matches (map_get data "version") && valid_time (map_get data "updatedAt")
            else if operation == "set_if_absent" then
              (length data =? 4)%nat
              && is_some (v ← map_get data "stored"; as_bool v)
              && map_contains_key data "value"
              && version_matches (map_get data "version") && valid_time (map_get data "updatedAt")
            else false
        end
  end.

(** One row of the entries. *)
Definition check_entry_row (scope key : string) (row : EntryRow) : state_result unit :=
  let? parsed := ok_or (value_from_slice row.(EntryRow.entry).(StateEntry.value_json)) DurableStateError.StoreCorrupt in
  let? canonical := map_err (λ _, DurableStateError.StoreCorrupt) (canonical_string parsed) in
  fail_if
    (negb (valid_digest scope) || str_is_empty key || (MAX_STATE_KEY_BYTES <? str_len key)%N
     || (row.(EntryRow.key_digest) != digest KEY_DOMAIN key)
     || (canonical != row.(EntryRow.entry).(StateEntry.value_json))
     || (row.(EntryRow.entry).(StateEntry.value_bytes) != str_len row.(EntryRow.entry).(StateEntry.value_json))
     || (row.(EntryRow.entry).(StateEntry.value_bytes) =? 0)%N || (MAX_STATE_VALUE_BYTES <? row.(EntryRow.entry).(StateEntry.value_bytes))%N
     || (row.(EntryRow.entry).(StateEntry.version) =? 0)%N || (MAX_STATE_SAFE_INTEGER <? row.(EntryRow.entry).(StateEntry.version))%N
     || is_none (parse_from_rfc3339 row.(EntryRow.entry).(StateEntry.updated_at)))
    DurableStateError.StoreCorrupt.

(** The loop over the entries: the usage of each scope and the live versions. *)
Fixpoint scan_entries (rows : list ((string * string) * EntryRow))
    (actual_quotas : gmap string (N * N)) (live_versions : gmap (string * string) N) :
    state_result (gmap string (N * N) * gmap (string * string) N) :=
  match rows with
  | [] => Ok (actual_quotas, live_versions)
  | ((scope, key), row) :: rows =>
      check check_entry_row scope key row;
      let quota := default (0, 0)%N (actual_quotas !! scope) in
      let? keys := ok_or (u64_checked_add quota.1 1) DurableStateError.StoreCorrupt in
      let? bytes :=
        ok_or (u64_checked_add quota.2 row.(EntryRow.entry).(StateEntry.value_bytes)) DurableStateError.StoreCorrupt in
      scan_entries rows (<[scope := (keys, bytes)]> actual_quotas)
        (<[(scope, row.(EntryRow.key_digest)) := row.(EntryRow.entry).(StateEntry.version)]> live_versions)
  end.

(** One row of the mutations. *)
Definition check_mutation_row (operation_key : string) (row : MutationRow) : state_result unit :=
  let stored := row.(MutationRow.stored) in
  let? result := ok_or (value_from_slice stored.(StoredMutation.result_json)) DurableStateError.StoreCorrupt in
  let field name := value_get result name in
  check fail_if
    (negb (valid_digest operation_key) || negb (valid_digest stored.(StoredMutation.scope_digest))
     || negb (valid_digest stored.(StoredMutation.key_digest)) || negb (valid_digest stored.(StoredMutation.input_digest))
     || negb (valid_digest stored.(StoredMutation.result_digest))
     || negb (bool_decide (stored.(StoredMutation.operation) ∈ STATE_OPERATIONS)) || negb (is_mutation stored.(StoredMutation.operation))
     || is_none_or (strip_prefix ("state." +:+ stored.(StoredMutation.operation) +:+ ".") stored.(StoredMutation.operation_name))
          (λ name, negb (valid_operation_name name)))
    DurableStateError.StoreCorrupt;
  let? canonical := map_err (λ _, DurableStateError.StoreCorrupt) (canonical_string result) in
  check fail_if (canonical != stored.(StoredMutation.result_json)) DurableStateError.StoreCorrupt;
  let? result_digest :=
    map_err (λ _, DurableStateError.StoreCorrupt) (canonical_digest RESULT_DOMAIN result) in
  fail_if
    ((result_digest != stored.(StoredMutation.result_digest))
     || negb (is_some_and (field "contract") (λ v, is_text v STATE_CONTRACT))
     || negb (is_some_and (field "contractVersion") (λ v, is_u64 v STATE_CONTRACT_VERSION))
     || negb (is_some_and (field "kind") (λ v, is_text v "result"))
     || negb (is_some_and (field "operation") (λ v, is_text v stored.(StoredMutation.operation)))
     || negb (valid_mutation_result stored.(StoredMutation.operation) result stored.(StoredMutation.committed_version))
     || is_some_and stored.(StoredMutation.committed_version)
          (λ version, (version =? 0)%N || (MAX_STATE_SAFE_INTEGER <? version)%N)
     || is_none (parse_from_rfc3339 row.(MutationRow.committed_at)))
    DurableStateError.StoreCorrupt.

(** The loop over the mutations: the last committed version of each key. *)
Fixpoint scan_mutations (rows : list (string * MutationRow))
    (committed_versions : gmap (string * string) N) : state_result (gmap (string * string) N) :=
  match rows with
  | [] => Ok committed_versions
  | (operation_key, row) :: rows =>
      check check_mutation_row operation_key row;
      let id := (row.(MutationRow.stored).(StoredMutation.scope_digest), row.(MutationRow.stored).(StoredMutation.key_digest)) in
      scan_mutations rows
        (match row.(MutationRow.stored).(StoredMutation.committed_version) with
         | Some version =>
             <[id := match committed_versions !! id with
                     | Some current => N.max current version
                     | None => version
                     end]> committed_versions
         | None => committed_versions
         end)
  end.

(** The loop over the quotas; what remains of the usage has no quota. *)
Fixpoint scan_quotas (rows : list (string * (N * N))) (actual_quotas : gmap string (N * N)) :
    state_result (gmap string (N * N)) :=
  match rows with
  | [] => Ok actual_quotas
  | (scope, (live_keys, value_bytes)) :: rows =>
      check fail_if
        (negb (valid_digest scope) || (DEFAULT_STATE_MAX_KEYS <? live_keys)%N
         || (DEFAULT_STATE_MAX_BYTES <? value_bytes)%N
         || (default (0, 0)%N (actual_quotas !! scope) != (live_keys, value_bytes)))
        DurableStateError.StoreCorrupt;
      scan_quotas rows (delete scope actual_quotas)
  end.

Definition validate_store_integrity (db : StateDatabase) : state_result unit :=
  check fail_if (db.(StateDatabase.quick_check) != "ok") DurableStateError.StoreCorrupt;
  check fail_if db.(StateDatabase.foreign_key_failure) DurableStateError.StoreCorrupt;
  let? (actual_quotas, live_versions) := scan_entries (btree_iter db.(StateDatabase.entries)) ∅ ∅ in
  let? committed_versions := scan_mutations (btree_iter db.(StateDatabase.mutations)) ∅ in
  check fail_if
    (existsb (λ item : (string * string) * N, committed_versions !! item.1 != Some item.2)
       (map_to_list live_versions)) DurableStateError.StoreCorrupt;
  let? remaining := scan_quotas (btree_iter db.(StateDatabase.quotas)) actual_quotas in
  fail_if (negb (bool_decide (remaining = ∅))) DurableStateError.StoreCorrupt.

(** ** Opening a store *)

Definition valid_limits (limits : DurableStateLimits) : bool :=
  in_range 1 DEFAULT_STATE_MAX_KEYS limits.(DurableStateLimits.max_keys)
  && in_range 1 DEFAULT_STATE_MAX_BYTES limits.(DurableStateLimits.max_bytes)
  && in_range 1 MAX_STATE_VALUE_BYTES limits.(DurableStateLimits.max_value_bytes).

(** [DurableStateStore::open_with] on the canonical path of a store file that
    [DurableEventStore::open] accepts: the identity of the location is written once, then the
    tables are checked. *)
Definition open_with (canonical : string) (db : StateDatabase) (limits : DurableStateLimits) :
    state_result (StateDatabase * DurableStateStore) :=
  check fail_if (negb (valid_limits limits)) DurableStateError.InvalidRequest;
  let db :=
    match db.(StateDatabase.store_metadata) !! "state_location_identity_v1" with
    | Some _ => db
    | None => db <| StateDatabase.store_metadata ::=
                <["state_location_identity_v1" := digest LOCATION_DOMAIN canonical]> |>
    end in
  let? state_location_digest :=
    ok_or (db.(StateDatabase.store_metadata) !! "state_location_identity_v1") DurableStateError.StoreUnavailable in
  check fail_if (negb (valid_digest state_location_digest)) DurableStateError.StoreCorrupt;
  check validate_store db;
  check validate_store_integrity db;
  Ok (db, DurableStateStore.mk canonical state_location_digest limits).

(** ** The capability handler *)

(** [ManagedDurableStateHandler], for one operation. *)
Definition state_descriptor (operation : string) : CapabilityDescriptor :=
  CapabilityDescriptor.mk "state" operation STATE_CONTRACT_VERSION STATE_CONTRACT_VERSION
    (if (operation == "get") || (operation == "has") then CapabilityEffect.Read
     else CapabilityEffect.IdempotentWrite) true false.

Definition state_validate_request (operation : string) (request : CapabilityCallRequest) :
    capability_result unit :=
  let? _ := map_err state_failure (parse_request request.(CapabilityCallRequest.input) operation) in Ok tt.

Definition state_request_metadata (operation : string) (request : CapabilityCallRequest) :
    capability_result Map :=
  let? parsed := map_err state_failure (parse_request request.(CapabilityCallRequest.input) operation) in
  let? key := map_err state_failure (state_key parsed.(StateRequest.input)) in
  let? input_digest := map_err state_failure (canonical_digest INPUT_DOMAIN request.(CapabilityCallRequest.input)) in
  Ok [("profile", Value.String "woml.state-operation-metadata/v1");
      ("operation", Value.String operation);
      ("keyDigest", Value.String (digest KEY_DOMAIN key));
      ("inputDigest", Value.String input_digest)].

Definition state_result_metadata (operation : string) (result : Value) : Map :=
  let metadata :=
    [("profile", Value.String "woml.state-operation-metadata/v1");
     ("operation", Value.String operation); ("outcome", Value.String "succeeded")] in
  let metadata :=
    match canonical_digest RESULT_DOMAIN result with
    | Ok result_digest => map_insert metadata "resultDigest" (Value.String result_digest)
    | _ => metadata
    end in
  match data ← value_get result "data"; version ← value_get data "version"; as_u64 version with
  | Some version => map_insert metadata "version" (json_number version)
  | None => metadata
  end.

(** [execute_request_scoped], once its task runs: no scope, no configured store, a cancelled
    call, or a call of the store. *)
Definition state_execute_scoped (store : option DurableStateStore) (db : StateDatabase)
    (workflow_scope : option string) (cancelled : bool) (request : CapabilityCallRequest)
    (now_millis : Z) : capability_result (StateDatabase * Value) :=
  let? workflow_scope :=
    ok_or workflow_scope
      (CapabilityFailure.mk CapabilityFailureKind.ServiceRejected "WOML_STATE_SCOPE_UNAVAILABLE"
         "Durable User State requires an engine-owned workflow scope." false false None) in
  let? store := ok_or store (state_failure DurableStateError.StoreUnavailable) in
  check fail_if cancelled
    (CapabilityFailure.mk CapabilityFailureKind.Cancelled "WOML_STATE_CANCELLED"
       "The Durable User State operation was cancelled." false false None);
  let? (db, execution) :=
    map_err state_failure (execute store db workflow_scope request now_millis 0%N) in
  Ok (db, execution.(DurableStateExecution.result)).

(** ** Sequences of calls *)

(** One call on the tables: a transaction that commits, or an error, of the code or of
    SQLite, that leaves them as they are.  The clock is within the years that RFC 3339 writes
    with four digits, and the input was parsed by serde_json. *)
Inductive state_step (store : DurableStateStore) : StateDatabase → StateDatabase → Prop :=
| step_committed db db' workflow_id call now_millis duration_ms execution :
    (0 ≤ now_millis < 253402300800000)%Z → nesting call.(CapabilityCallRequest.input) ≤ 127 →
    execute store db workflow_id call now_millis duration_ms = Ok (db', execution) →
    state_step store db db'
| step_failed db : state_step store db db.
End state.
