(* ===== verification/DurableStateProperties.v ===== *)
(** * Properties of durable user state

    A store that only this code has written passes its own integrity check, keeps its
    quotas and never reports corruption; mutations commit exactly once; and the calls
    refine a family of versioned registers. *)

From stdpp Require Import pretty.
From S2P Require Import Prelude Strings Json EventTypes Guards EventIdentities PolicyTypes.
From S2P Require Import PolicyBundle PolicyDescriptors PolicyProperties DurableState.

(** ** Third-party code *)

(** [same_json v v']: [v'] is [v] up to the order of fields and the representation of numbers
    that are not safe integers. *)
Inductive same_json : Value → Value → Prop :=
| same_null : same_json Value.Null Value.Null
| same_bool b : same_json (Value.Bool b) (Value.Bool b)
| same_string s : same_json (Value.String s) (Value.String s)
| same_number n n' :
    (∀ z, safe_integer z = true → Value.Number n = value_from_i64 z →
          Value.Number n' = value_from_i64 z) →
    same_json (Value.Number n) (Value.Number n')
| same_array l l' : Forall2 same_json l l' → same_json (Value.Array l) (Value.Array l')
| same_object m m' :
    length m = length m' →
    (∀ key, option_Forall2 same_json (map_get m key) (map_get m' key)) →
    same_json (Value.Object m) (Value.Object m').

(** serde_json is built without [float_roundtrip] (Cargo.toml), so the text of a number need not
    be read back to that number. [number_exact n]: the canonical text of [n] is read back to a
    number with that text; [exact_json v]: this holds for every number in [v]. *)
Definition number_exact `{!Externals, !PolicyExternals} (n : Number) : Prop :=
  ∃ text n', canonical_json (Value.Number n) = Some text
    ∧ value_from_slice text = Some (Value.Number n')
    ∧ canonical_json (Value.Number n') = Some text.

Inductive exact_json `{!Externals, !PolicyExternals} : Value → Prop :=
| exact_null : exact_json Value.Null
| exact_bool b : exact_json (Value.Bool b)
| exact_string s : exact_json (Value.String s)
| exact_number n : number_exact n → exact_json (Value.Number n)
| exact_array l : Forall exact_json l → exact_json (Value.Array l)
| exact_object m : Forall (λ entry, exact_json entry.2) m → exact_json (Value.Object m).

(** Canonical JSON (RFC 8785) is UTF-8 text; serde_json, up to its recursion limit, parses the
    text of a value whose numbers are exact to that value, and the text of any value to one of the
    same nesting; a value that was parsed from its own canonical text has exact numbers, since
    each was read from its own text; safe integers are written in decimal; chrono parses the
    RFC 3339 text it writes; SHA-256 has 32 bytes. *)
Class StateLaws `{!Externals, !PolicyExternals, !StateExternals} : Prop := {
  canonical_utf8 v text : canonical_json v = Some text → is_utf8 text = true;
  canonical_reparsed v text :
    canonical_json v = Some text → exact_json v → nesting v ≤ 127 →
    ∃ v', value_from_slice text = Some v' ∧ canonical_json v' = Some text ∧ same_json v v';
  canonical_stable v text :
    value_from_slice text = Some v → canonical_json v = Some text → exact_json v;
  canonical_nesting v v' text :
    canonical_json v = Some text → value_from_slice text = Some v' → nesting v' = nesting v;
  canonical_integer z :
    safe_integer z = true →
    canonical_json (value_from_i64 z) = Some (i64_to_string z)
    ∧ value_from_slice (i64_to_string z) = Some (value_from_i64 z);
  timestamps_parsed ms time :
    (0 ≤ ms < 253402300800000)%Z → from_timestamp_millis ms = Some time →
    is_Some (parse_from_rfc3339 (rfc3339_millis time));
  sha256_digest_shape : sha256_shape;
}.

(** ** Tables *)

Implicit Types scope key key_digest kd operation_key operation now : string.
Implicit Types db : StateDatabase.
Implicit Types store : DurableStateStore.

Lemma count_entry_comm scope i j x y acc :
  count_entry scope i x (count_entry scope j y acc)
  = count_entry scope j y (count_entry scope i x acc).
Proof. unfold count_entry. repeat case_bool_decide; simpl; f_equal; lia. Qed.

Lemma take_version_comm scope key_digest i j x y acc :
  take_version scope key_digest i x (take_version scope key_digest j y acc)
  = take_version scope key_digest j y (take_version scope key_digest i x acc).
Proof.
  unfold take_version, sql_max. repeat case_match; simplify_eq; try done; f_equal; lia.
Qed.

(** Usage after an entry is written or removed. *)
Lemma usage_insert scope (id : string * string) (row : EntryRow) (entries : gmap (string * string) EntryRow) :
  entries !! id = None →
  map_fold (count_entry scope) (0, 0)%N (<[id := row]> entries)
  = count_entry scope id row (map_fold (count_entry scope) (0, 0)%N entries).
Proof. intros. apply map_fold_insert_L; [|done]. intros. apply count_entry_comm. Qed.

Lemma usage_delete scope (id : string * string) (row : EntryRow) (entries : gmap (string * string) EntryRow) :
  entries !! id = Some row →
  map_fold (count_entry scope) (0, 0)%N entries
  = count_entry scope id row (map_fold (count_entry scope) (0, 0)%N (delete id entries)).
Proof.
  intros Hid. rewrite <-usage_insert by apply lookup_delete_eq.
  by rewrite insert_delete_id.
Qed.

Lemma max_insert scope key_digest (operation_key : string) (row : MutationRow) (mutations : gmap string MutationRow) :
  mutations !! operation_key = None →
  map_fold (take_version scope key_digest) None (<[operation_key := row]> mutations)
  = take_version scope key_digest operation_key row
      (map_fold (take_version scope key_digest) None mutations).
Proof. intros. apply map_fold_insert_L; [|done]. intros. apply take_version_comm. Qed.

Lemma digest_taken_false db scope key kd :
  digest_taken db scope key kd = false →
  ∀ key' row, db.(StateDatabase.entries) !! (scope, key') = Some row →
    row.(EntryRow.key_digest) = kd → key' = key.
Proof.
  unfold digest_taken. intros Hnot key' row Hrow <-.
  destruct (decide (key' = key)) as [|Hne]; [done|].
  apply not_true_iff_false in Hnot. destruct Hnot. apply existsb_exists.
  exists ((scope, key'), row). split; [by apply list_elem_of_In, elem_of_map_to_list|].
  by rewrite !andb_true_iff, negb_true_iff, !bool_decide_eq_true, bool_decide_eq_false.
Qed.

(** ** The invariant *)

Section invariant.
Context `{!Externals, !PolicyExternals, !StateExternals}.

(** The text of an entry: the canonical encoding of a value that fits into a result. *)
Definition written_json (text : string) : Prop := ∃ v, canonical_json v = Some text ∧ nesting v ≤ 125.

(** The text is read back to a value with that encoding. *)
Definition stored_json (text : string) : Prop :=
  ∃ v, value_from_slice text = Some v ∧ canonical_string v = Ok text.

Definition entries_readable (db : StateDatabase) : Prop :=
  ∀ id row, db.(StateDatabase.entries) !! id = Some row → stored_json row.(EntryRow.entry).(StateEntry.value_json).

Record entry_sound (scope key : string) (row : EntryRow) : Prop := {
  entry_scope : valid_digest scope = true;
  entry_key : (1 ≤ str_len key ≤ MAX_STATE_KEY_BYTES)%N;
  entry_digest : row.(EntryRow.key_digest) = digest KEY_DOMAIN key;
  entry_json : written_json row.(EntryRow.entry).(StateEntry.value_json);
  entry_bytes : row.(EntryRow.entry).(StateEntry.value_bytes) = str_len row.(EntryRow.entry).(StateEntry.value_json);
  entry_size : (1 ≤ row.(EntryRow.entry).(StateEntry.value_bytes) ≤ MAX_STATE_VALUE_BYTES)%N;
  entry_version : (1 ≤ row.(EntryRow.entry).(StateEntry.version) ≤ MAX_STATE_SAFE_INTEGER)%N;
  entry_time : is_Some (parse_from_rfc3339 row.(EntryRow.entry).(StateEntry.updated_at));
}.

(** Tables that calls with some limits have written. *)
Record tables_sound (limits : DurableStateLimits) (db : StateDatabase) : Prop := {
  entries_sound scope key row :
    db.(StateDatabase.entries) !! (scope, key) = Some row → entry_sound scope key row;
  mutations_sound operation_key row :
    db.(StateDatabase.mutations) !! operation_key = Some row → check_mutation_row operation_key row = Ok tt;
  versions_live scope key row :
    db.(StateDatabase.entries) !! (scope, key) = Some row →
    max_committed_version db scope row.(EntryRow.key_digest) = Some row.(EntryRow.entry).(StateEntry.version);
  digests_unique scope key key' row row' :
    db.(StateDatabase.entries) !! (scope, key) = Some row → db.(StateDatabase.entries) !! (scope, key') = Some row' →
    row.(EntryRow.key_digest) = row'.(EntryRow.key_digest) → key = key';
  quotas_exact scope q :
    db.(StateDatabase.quotas) !! scope = Some q → valid_digest scope = true ∧ q = scope_usage db scope;
  quotas_complete scope : db.(StateDatabase.quotas) !! scope = None → scope_usage db scope = (0, 0)%N;
  usage_bounded scope :
    ((scope_usage db scope).1 ≤ limits.(DurableStateLimits.max_keys) ∧ (scope_usage db scope).2 ≤ limits.(DurableStateLimits.max_bytes))%N;
}.

(** ** Steps of a write *)

Lemma next_version_ok db scope kd current version :
  next_version db scope kd current = Ok version →
  version = (default 0 (max_committed_version db scope kd) + 1)%N
  ∧ (1 ≤ version ≤ MAX_STATE_SAFE_INTEGER)%N
  ∧ (∀ entry, current = Some entry →
       max_committed_version db scope kd = Some entry.(StateEntry.version)).
Proof.
  unfold next_version. intros Hok. invert_ok.
  match goal with H : _ ≫= _ = Some _ |- _ => apply bind_Some in H as (n & Hn & Hv) end.
  unfold u64_checked_add in Hn.
  destruct (_ <? usize_modulus)%N; simplify_eq. case_match; simplify_eq. simplify_guards.
  split_and!; [done|lia|done|]. intros entry ->. simpl in *. by simplify_guards.
Qed.

(** What a quota check leaves: the tables with the usage the write is going to have. *)
Lemma enforce_quota_ok db scope current bytes limits db' :
  enforce_quota db scope current bytes limits = Ok db' →
  ∃ keys size,
    db' = db <| StateDatabase.quotas ::= <[scope := (keys, size)]> |>
    ∧ (keys ≤ limits.(DurableStateLimits.max_keys))%N
    ∧ (size ≤ limits.(DurableStateLimits.max_bytes))%N
    ∧ (keys + (if current then 1 else 0) = (scope_usage db scope).1 + (if bytes then 1 else 0))%N
    ∧ (size + from_option StateEntry.value_bytes 0 current
       = (scope_usage db scope).2 + default 0 bytes)%N.
Proof.
  unfold enforce_quota, write_quota. intros Hok. invert_ok. simplify_guards.
  match goal with H : _ ≫= _ = Some _ |- _ => apply bind_Some in H as (n & Hn & Hsize) end.
  unfold u64_checked_sub, u64_checked_add in *.
  repeat (case_match; simplify_eq); simplify_guards; simpl in *;
    eexists _, _; split_and!; eauto; lia.
Qed.

Lemma write_entry_ok db scope kd key value_json bytes version now db' :
  write_entry db scope kd key value_json bytes version now = Ok db' →
  db' = db <| StateDatabase.entries ::=
          <[(scope, key) := EntryRow.mk kd (StateEntry.mk value_json bytes version now)]> |>
  ∧ (1 ≤ bytes ≤ MAX_STATE_VALUE_BYTES)%N ∧ (1 ≤ version ≤ MAX_STATE_SAFE_INTEGER)%N
  ∧ digest_taken db scope key kd = false.
Proof.
  unfold write_entry, in_range, MAX_STATE_VALUE_BYTES, MAX_STATE_SAFE_INTEGER. intros Hok. invert_ok.
  simplify_guards. split_and!; done.
Qed.

(** The tables between the write of an entry and the record of its mutation. *)
Record entry_written (limits : DurableStateLimits) (scope kd key : string) (row : option EntryRow)
    (version : N) (db db' : StateDatabase) : Prop := {
  written_entries :
    db'.(StateDatabase.entries) = match row with
                  | Some row => <[(scope, key) := row]> db.(StateDatabase.entries)
                  | None => delete (scope, key) db.(StateDatabase.entries)
                  end;
  written_mutations : db'.(StateDatabase.mutations) = db.(StateDatabase.mutations);
  written_metadata : db'.(StateDatabase.store_metadata) = db.(StateDatabase.store_metadata);
  written_schema : db'.(StateDatabase.sqlite_master) = db.(StateDatabase.sqlite_master);
  written_pragmas : db'.(StateDatabase.quick_check) = db.(StateDatabase.quick_check) ∧ db'.(StateDatabase.foreign_key_failure) = db.(StateDatabase.foreign_key_failure);
  written_quotas : db'.(StateDatabase.quotas) = <[scope := scope_usage db' scope]> db.(StateDatabase.quotas);
  written_bounded :
    ((scope_usage db' scope).1 ≤ limits.(DurableStateLimits.max_keys) ∧ (scope_usage db' scope).2 ≤ limits.(DurableStateLimits.max_bytes))%N;
  written_other scope' : scope' ≠ scope → scope_usage db' scope' = scope_usage db scope';
  written_version : version = (default 0 (max_committed_version db scope kd) + 1)%N;
  written_range : (1 ≤ version ≤ MAX_STATE_SAFE_INTEGER)%N;
}.

(** The usage of the scopes after a write, in terms of that before. *)
Lemma usage_replaced (entries : gmap (string * string) EntryRow) scope key scope' (row : EntryRow) :
  let usage := map_fold (count_entry scope') (0, 0)%N entries in
  let usage' := map_fold (count_entry scope') (0, 0)%N (<[(scope, key) := row]> entries) in
  let current : option StateEntry := EntryRow.entry <$> entries !! (scope, key) in
  if decide (scope' = scope) then
    (usage'.1 + (if current then 1 else 0) = usage.1 + 1)%N
    ∧ (usage'.2 + from_option StateEntry.value_bytes 0 current = usage.2 + row.(EntryRow.entry).(StateEntry.value_bytes))%N
  else usage' = usage.
Proof.
  simpl. rewrite <-insert_delete_eq, usage_insert by apply lookup_delete_eq.
  destruct (entries !! (scope, key)) as [old|] eqn:Hold; simpl.
  - rewrite (usage_delete _ _ _ _ Hold). unfold count_entry. simpl.
    destruct (decide (scope' = scope)) as [->|]; [rewrite bool_decide_true by done; simpl; lia|].
    by rewrite bool_decide_false by congruence.
  - rewrite delete_id by done. unfold count_entry. simpl.
    destruct (decide (scope' = scope)) as [->|]; [rewrite bool_decide_true by done; simpl; lia|].
    by rewrite bool_decide_false by congruence.
Qed.

Lemma usage_removed (entries : gmap (string * string) EntryRow) scope key scope' (row : EntryRow) :
  entries !! (scope, key) = Some row →
  let usage := map_fold (count_entry scope') (0, 0)%N entries in
  let usage' := map_fold (count_entry scope') (0, 0)%N (delete (scope, key) entries) in
  if decide (scope' = scope) then
    (usage'.1 + 1 = usage.1)%N ∧ (usage'.2 + row.(EntryRow.entry).(StateEntry.value_bytes) = usage.2)%N
  else usage' = usage.
Proof.
  intros Hrow. simpl. rewrite (usage_delete _ _ _ _ Hrow). unfold count_entry. simpl.
  destruct (decide (scope' = scope)) as [->|]; [rewrite bool_decide_true by done; simpl; lia|].
  by rewrite bool_decide_false by congruence.
Qed.

Lemma put_entry_written store db scope kd key value_json bytes now db' version :
  put_entry store db scope kd key (read_entry db scope key) value_json bytes now = Ok (db', version) →
  entry_written store.(DurableStateStore.limits) scope kd key
    (Some (EntryRow.mk kd (StateEntry.mk value_json bytes version now))) version db db'
  ∧ (1 ≤ bytes ≤ MAX_STATE_VALUE_BYTES)%N ∧ digest_taken db scope key kd = false.
Proof.
  unfold put_entry. intros Hok. invert_ok. simplify_eq.
  match goal with H : next_version _ _ _ _ = _ |- _ => apply next_version_ok in H as (? & ? & ?) end.
  match goal with H : enforce_quota _ _ _ _ _ = _ |- _ =>
    apply enforce_quota_ok in H as (keys & size & -> & ? & ? & ? & ?) end.
  match goal with H : write_entry _ _ _ _ _ _ _ _ = _ |- _ =>
    apply write_entry_ok in H as (-> & ? & ? & Htaken) end.
  unfold digest_taken, read_entry in *. simpl in *. split; [|by split].
  pose proof (λ scope', usage_replaced db.(StateDatabase.entries) scope key scope'
    (EntryRow.mk kd (StateEntry.mk value_json bytes version now))) as Husage. simpl in Husage.
  assert (scope_usage (db <| StateDatabase.entries ::= <[(scope, key) := EntryRow.mk kd (StateEntry.mk value_json bytes version now)]> |>) scope = (keys, size)) as Hscope.
  { specialize (Husage scope). rewrite decide_True in Husage by done. unfold scope_usage in *. simpl in *.
    apply injective_projections; simpl; destruct (_ <$> _); simpl in *; lia. }
  unfold scope_usage in *. simpl in *. constructor; simpl; try done.
  - unfold scope_usage. simpl. by rewrite Hscope.
  - unfold scope_usage. simpl. by rewrite Hscope.
  - intros scope' Hne. specialize (Husage scope'). by rewrite decide_False in Husage by done.
Qed.

Lemma delete_entry_written store db scope kd key entry version db' :
  read_entry db scope key = Some entry →
  next_version db scope kd (Some entry) = Ok version →
  enforce_quota db scope (Some entry) None store.(DurableStateStore.limits) = Ok db' →
  entry_written store.(DurableStateStore.limits) scope kd key None version db
    (delete_entry db' scope key).
Proof.
  unfold read_entry. intros Hread (? & ? & ?)%next_version_ok Hquota.
  apply fmap_Some in Hread as (row & Hrow & ->).
  apply enforce_quota_ok in Hquota as (keys & size & -> & ? & ? & ? & ?). simpl in *.
  pose proof (λ scope', usage_removed db.(StateDatabase.entries) scope key scope' _ Hrow) as Husage.
  simpl in Husage.
  assert (scope_usage (db <| StateDatabase.entries ::= delete (scope, key) |>) scope = (keys, size))
    as Hscope.
  { specialize (Husage scope). rewrite decide_True in Husage by done. unfold scope_usage in *.
    simpl in *. apply injective_projections; simpl; lia. }
  unfold scope_usage in *. simpl in *. constructor; simpl; try done.
  - unfold scope_usage. simpl. by rewrite Hscope.
  - unfold scope_usage. simpl. by rewrite Hscope.
  - intros scope' Hne. specialize (Husage scope'). by rewrite decide_False in Husage by done.
Qed.

(** ** Nesting *)

Lemma nesting_field m k v : map_get m k = Some v → S (nesting v) ≤ nesting (Value.Object m).
Proof.
  intros Hget. simpl. induction m as [|[k' v'] m IH]; [done|]. simpl in *.
  destruct (decide (k = k')); simplify_eq; [lia|]. specialize (IH Hget). lia.
Qed.

Lemma nesting_element l v : v ∈ l → S (nesting v) ≤ nesting (Value.Array l).
Proof.
  intros Hv. simpl. induction l as [|v' l IH]; [by apply not_elem_of_nil in Hv|]. simpl.
  apply elem_of_cons in Hv as [->|Hv]; [lia|]. specialize (IH Hv). lia.
Qed.

Lemma nesting_input value (request : StateRequest) :
  state_request_from_value value = Some request →
  S (nesting (Value.Object request.(StateRequest.input))) ≤ nesting value.
Proof.
  unfold state_request_from_value, as_object. intros Hreq.
  repeat match goal with
  | H : match ?x with _ => _ end = Some _ |- _ => is_var x; destruct x; simplify_eq
  | H : _ ≫= _ = Some _ |- _ => apply bind_Some in H as (? & ? & H)
  end.
  all: simplify_eq; cbn [StateRequest.input].
  all: first [apply nesting_element; set_solver | eapply nesting_field; eassumption].
Qed.

(** ** Exact values *)

Lemma exact_field m k v : exact_json (Value.Object m) → map_get m k = Some v → exact_json v.
Proof.
  inversion 1 as [| | | | |? Hm]; subst. intros Hget.
  induction Hm as [|[k' v'] m Hv Hm IH]; [done|]. simpl in Hget. case_decide; simplify_eq; auto.
  apply IH; [by constructor|done].
Qed.

Lemma exact_element l v : exact_json (Value.Array l) → v ∈ l → exact_json v.
Proof. inversion 1 as [| | | |? Hl|]; subst. by rewrite Forall_forall in Hl; auto. Qed.

Lemma exact_input value (request : StateRequest) :
  state_request_from_value value = Some request →
  exact_json value → exact_json (Value.Object request.(StateRequest.input)).
Proof.
  unfold state_request_from_value, as_object. intros Hreq Hexact.
  repeat match goal with
  | H : match ?x with _ => _ end = Some _ |- _ => is_var x; destruct x; simplify_eq
  | H : _ ≫= _ = Some _ |- _ => apply bind_Some in H as (? & ? & H)
  end.
  all: simplify_eq; cbn [StateRequest.input].
  all: first [eapply exact_element; [done|]; set_solver | by eapply exact_field].
Qed.

(** ** Results and their reparsed form *)

Lemma same_object_fields m v' :
  same_json (Value.Object m) v' →
  ∃ m', v' = Value.Object m' ∧ length m' = length m
    ∧ ∀ k v, map_get m k = Some v → ∃ w, map_get m' k = Some w ∧ same_json v w.
Proof.
  inversion 1 as [| | | | |? m' Hlen Hfields]; subst. exists m'. split_and!; [done|done|].
  intros k v Hv. specialize (Hfields k). rewrite Hv in Hfields. inversion Hfields; subst. eauto.
Qed.

Lemma same_string_inv s v' : same_json (Value.String s) v' → v' = Value.String s.
Proof. by inversion 1. Qed.
Lemma same_bool_inv b v' : same_json (Value.Bool b) v' → v' = Value.Bool b.
Proof. by inversion 1. Qed.
Lemma same_integer_inv z v' :
  safe_integer z = true → same_json (value_from_i64 z) v' → v' = value_from_i64 z.
Proof.
  intros Hz. unfold value_from_i64. inversion 1 as [| | |? ? Hn| |]; subst. by apply Hn.
Qed.
Lemma same_version_inv n v' :
  (n ≤ MAX_STATE_SAFE_INTEGER)%N → same_json (json_number n) v' → v' = json_number n.
Proof.
  intros Hn Hsame. replace (json_number n) with (value_from_i64 (Z.of_N n)) in *.
  - apply same_integer_inv; [|done]. unfold safe_integer, MAX_STATE_SAFE_INTEGER in *.
    apply andb_true_iff. rewrite !Z.leb_le. lia.
  - unfold value_from_i64, json_number. case_match; [by rewrite N2Z.id|].
    apply Z.leb_gt in H2. lia.
Qed.

(** The data that a mutation returns, with the version it commits. *)
Inductive result_data : string → Value → option N → Prop :=
| set_data version now :
    (1 ≤ version ≤ MAX_STATE_SAFE_INTEGER)%N → is_Some (parse_from_rfc3339 now) →
    result_data "set"
      (Value.Object [("stored", Value.Bool true); ("version", json_number version);
                     ("updatedAt", Value.String now)]) (Some version)
| delete_data version :
    is_Some version →
    result_data "delete" (Value.Object [("deleted", Value.Bool true)]) version
| delete_absent_data :
    result_data "delete" (Value.Object [("deleted", Value.Bool false)]) None
| increment_data z version now :
    safe_integer z = true → (1 ≤ version ≤ MAX_STATE_SAFE_INTEGER)%N →
    is_Some (parse_from_rfc3339 now) →
    result_data "increment"
      (Value.Object [("value", value_from_i64 z); ("version", json_number version);
                     ("updatedAt", Value.String now)]) (Some version)
| set_if_absent_data stored value version now :
    nesting value ≤ 125 → exact_json value → (1 ≤ version ≤ MAX_STATE_SAFE_INTEGER)%N →
    is_Some (parse_from_rfc3339 now) →
    result_data "set_if_absent"
      (Value.Object [("stored", Value.Bool stored); ("value", value);
                     ("version", json_number version); ("updatedAt", Value.String now)])
      (Some version).

Lemma result_data_nesting operation data version :
  result_data operation data version →
  nesting (state_result_value operation data) ≤ 127.
Proof. unfold value_from_i64. destruct 1; simpl; try lia; case_match; simpl; lia. Qed.

Context `{!StateLaws}.

(** ** Digests *)

Lemma substring_drop p s :
  String.substring (String.length p) (String.length (p +:+ s) - String.length p) (p +:+ s) = s.
Proof.
  induction p as [|b p IH]; [|done]. simpl. by rewrite Nat.sub_0_r, substring_all.
Qed.

Lemma valid_digest_app rest :
  str_len rest = 64%N → bytes_all is_lower_hex rest = true → valid_digest ("sha256:" +:+ rest) = true.
Proof.
  intros Hlen Hhex. unfold valid_digest.
  pose proof (substring_drop "sha256:" rest) as Hrest. cbn [String.length] in Hrest.
  rewrite str_len_app, Hlen, starts_with_app, Hrest. done.
Qed.

Lemma valid_digest_sha256 bytes : valid_digest ("sha256:" +:+ sha256_hex bytes) = true.
Proof. destruct (sha256_digest_shape bytes). by apply valid_digest_app. Qed.

Lemma digest_is_valid domain value : valid_digest (digest domain value) = true.
Proof. apply valid_digest_sha256. Qed.

Lemma sha256_valid_digest value :
  EventIdentities.valid_sha256 value = true → valid_digest value = true.
Proof.
  unfold EventIdentities.valid_sha256. intros Hv.
  destruct (strip_prefix "sha256:" value) as [rest|] eqn:Hstrip; [|done]. simpl in Hv.
  apply strip_prefix_Some in Hstrip as ->. apply andb_true_iff in Hv as [Hlen%N.eqb_eq Hhex].
  by apply valid_digest_app.
Qed.

Lemma integer_exact z : safe_integer z = true → exact_json (value_from_i64 z).
Proof.
  intros Hz. destruct (canonical_integer z Hz) as [Hjson Hparse].
  unfold value_from_i64 in *. constructor. by eexists _, _.
Qed.

Lemma json_number_from_i64 n : json_number n = value_from_i64 (Z.of_N n).
Proof.
  unfold value_from_i64, json_number. destruct (Z.leb_spec 0 (Z.of_N n)); [by rewrite N2Z.id|lia].
Qed.

Lemma version_safe n : (n ≤ MAX_STATE_SAFE_INTEGER)%N → safe_integer (Z.of_N n) = true.
Proof.
  intros Hn. unfold safe_integer, MAX_STATE_SAFE_INTEGER in *. apply andb_true_iff. rewrite !Z.leb_le. lia.
Qed.

Lemma version_exact n : (n ≤ MAX_STATE_SAFE_INTEGER)%N → exact_json (json_number n).
Proof. intros Hn. rewrite json_number_from_i64. by apply integer_exact, version_safe. Qed.

Ltac exact_fields :=
  repeat first [ done | progress cbn [snd] | by apply integer_exact | (apply version_exact; first [done | lia])
               | apply exact_bool | apply exact_string | apply exact_object
               | apply Forall_cons_2 | apply Forall_nil_2 ].

(** Only values that were read back exactly enter the result of a mutation. *)
Lemma result_data_exact operation data version :
  result_data operation data version → exact_json (state_result_value operation data).
Proof.
  intros Hdata. unfold state_result_value.
  assert (exact_json data) by (destruct Hdata; exact_fields).
  exact_fields.
Qed.

Lemma canonical_string_ok v text : canonical_string v = Ok text ↔ canonical_json v = Some text.
Proof.
  unfold canonical_string. split; [intros Hok; by invert_ok|]. intros Hv. rewrite Hv. simpl.
  by rewrite (canonical_utf8 v text).
Qed.

(** ** The record of a mutation *)

Ltac same_fields :=
  repeat match goal with
  | H : same_json (Value.Object _) _ |- _ =>
      let m := fresh "m" in let Hlen := fresh "Hlen" in let Hfields := fresh "Hfields" in
      apply same_object_fields in H as (m & -> & Hlen & Hfields)
  | H : same_json (Value.String _) _ |- _ => apply same_string_inv in H as ->
  | H : same_json (Value.Bool _) _ |- _ => apply same_bool_inv in H as ->
  | H : same_json (json_number _) _ |- _ => apply same_version_inv in H as ->; [|lia || done]
  | H : same_json (value_from_i64 _) _ |- _ => apply same_integer_inv in H as ->; [|done]
  end.

Ltac field_of Hfields name :=
  let w := fresh "w" in let Hw := fresh "Hw" in let Hsame := fresh "Hsame" in
  destruct (Hfields name _ eq_refl) as (w & Hw & Hsame).

Lemma value_as_i64_safe z :
  safe_integer z = true → value_as_i64 (value_from_i64 z) = Some z.
Proof.
  unfold safe_integer, MAX_STATE_SAFE_INTEGER, value_from_i64, value_as_i64. intros Hz.
  apply andb_true_iff in Hz. rewrite !Z.leb_le in Hz.
  destruct (Z.leb_spec 0 z); [|done]. rewrite (proj2 (N.ltb_lt _ _)); [|lia].
  by rewrite Z2N.id.
Qed.

(** The two tests of [valid_mutation_result] that several operations share. *)
Lemma version_matches_ok version :
  (1 ≤ version ≤ MAX_STATE_SAFE_INTEGER)%N →
  (as_u64 (json_number version) == Some version)
  && ((0 <? version)%N && (version <=? MAX_STATE_SAFE_INTEGER)%N) = true.
Proof.
  intros ?. rewrite bool_decide_true by done. simpl. apply andb_true_iff.
  rewrite N.ltb_lt, N.leb_le. lia.
Qed.

Lemma result_data_valid operation data version result :
  result_data operation data version →
  same_json (state_result_value operation data) result →
  valid_mutation_result operation result version = true
  ∧ value_get result "contract" = Some (Value.String STATE_CONTRACT)
  ∧ value_get result "contractVersion" = Some (json_number STATE_CONTRACT_VERSION)
  ∧ value_get result "kind" = Some (Value.String "result")
  ∧ value_get result "operation" = Some (Value.String operation).
Proof.
  intros Hdata Hresult. unfold state_result_value in Hresult. same_fields.
  field_of Hfields "contract". field_of Hfields "contractVersion". field_of Hfields "kind".
  field_of Hfields "operation". field_of Hfields "data". same_fields.
  unfold value_get, as_object. simpl. rewrite Hw, Hw0, Hw1, Hw2. split_and!; try done.
  unfold valid_mutation_result, value_get. simpl. rewrite Hlen, Hw3. simpl. clear Hfields.
  destruct Hdata; same_fields; simpl; rewrite Hlen0; simpl;
    repeat match goal with
    | Hf : ∀ k v, map_get [_; _; _; _] k = Some v → _ |- _ =>
        field_of Hf "stored"; field_of Hf "value"; field_of Hf "version"; field_of Hf "updatedAt";
        clear Hf
    | Hf : ∀ k v, map_get [(?k1, _); (?k2, _); (?k3, _)] k = Some v → _ |- _ =>
        field_of Hf k1; field_of Hf k2; field_of Hf k3; clear Hf
    | Hf : ∀ k v, map_get [(?k1, _)] k = Some v → _ |- _ => field_of Hf k1; clear Hf
    end; same_fields; unfold map_contains_key;
    repeat match goal with
    | H : map_get _ _ = Some _ |- _ => rewrite H; clear H
    | H : is_Some _ |- _ => destruct H as [? H]
    end; cbn [mbind option_bind is_some_and as_str as_bool is_some];
    rewrite ?value_as_i64_safe, ?version_matches_ok by done;
    repeat match goal with H : _ = Some _ |- _ => rewrite H; clear H end; simpl; by rewrite ?andb_true_r.
Qed.

(** The row that a committed mutation records passes the check at startup. *)
Lemma mutation_row_sound operation operation_key operation_name author scope kd input_digest data
    version text now :
  result_data operation data version → is_mutation operation = true →
  canonical_string (state_result_value operation data) = Ok text →
  valid_digest operation_key = true → valid_digest scope = true → valid_digest kd = true →
  valid_digest input_digest = true →
  strip_prefix ("state." +:+ operation +:+ ".") operation_name = Some author →
  valid_operation_name author = true → is_Some (parse_from_rfc3339 now) →
  is_none_or version (in_range 1 9007199254740991) = true →
  check_mutation_row operation_key
    (MutationRow.mk
       (StoredMutation.mk scope operation_name operation kd input_digest text
          (digest RESULT_DOMAIN text) version) now) = Ok tt.
Proof.
  intros Hdata Hop Htext Hkey Hscope Hkd Hinput Hprefix Hauthor [time Hnow] Hversion.
  apply canonical_string_ok in Htext as Hjson.
  destruct (canonical_reparsed _ _ Hjson) as (result & Hresult & Hagain & Hsame);
    [by eapply result_data_exact|by eapply result_data_nesting|].
  destruct (result_data_valid _ _ _ _ Hdata Hsame) as (Hvalid & Hc & Hcv & Hk & Ho).
  assert (bool_decide (operation ∈ STATE_OPERATIONS) = true) as Hknown.
  { unfold is_mutation in Hop. apply bool_decide_eq_true. unfold STATE_OPERATIONS.
    repeat (apply orb_true_iff in Hop as [Hop|Hop]); apply bool_decide_eq_true in Hop as ->;
      set_solver. }
  apply canonical_string_ok in Hagain.
  unfold check_mutation_row, canonical_digest.
  cbn [MutationRow.stored MutationRow.committed_at StoredMutation.scope_digest
    StoredMutation.operation_name StoredMutation.operation StoredMutation.key_digest
    StoredMutation.input_digest StoredMutation.result_json StoredMutation.result_digest
    StoredMutation.committed_version].
  rewrite Hresult. cbn [ok_or result_bind]. rewrite Hagain, Hc, Hcv, Hk, Ho, Hvalid, Hnow, Hkey, Hscope, Hkd.
  rewrite Hinput, Hop, Hprefix, Hknown, digest_is_valid.
  unfold is_none_or at 1. rewrite Hauthor.
  cbn [negb orb fail_if result_bind map_err is_some_and]. rewrite !bool_decide_true by done.
  cbn [negb orb fail_if result_bind map_err is_some_and]. unfold is_text, is_u64.
  rewrite !bool_decide_true by done. cbn [negb orb is_none is_some].
  destruct version as [version|]; [|done]. unfold is_none_or, in_range in Hversion. simpl.
  apply andb_true_iff in Hversion as [?%N.leb_le ?%N.leb_le].
  unfold MAX_STATE_SAFE_INTEGER. rewrite (proj2 (N.eqb_neq _ _)), (proj2 (N.ltb_ge _ _)) by lia. done.
Qed.

(** ** The effect of an operation *)

(** An operation leaves the tables and commits no version or that of the live entry, or it
    writes or removes the entry under the next version. *)
Definition operation_effect (limits : DurableStateLimits) (scope kd key : string)
    (db db' : StateDatabase) (version : option N) : Prop :=
  (db' = db
   ∧ (version = None
      ∨ ∃ row, db.(StateDatabase.entries) !! (scope, key) = Some row ∧ version = Some row.(EntryRow.entry).(StateEntry.version)))
  ∨ (∃ v row, version = Some v ∧ entry_written limits scope kd key row v db db'
       ∧ match row with
         | Some row =>
             entry_sound scope key row ∧ row.(EntryRow.entry).(StateEntry.version) = v
             ∧ digest_taken db scope key kd = false
         | None => is_Some (db.(StateDatabase.entries) !! (scope, key))
         end).

(** A key and the time of a call, as [execute] checks them. *)
Record call_context (scope kd key now : string) : Prop := {
  context_scope : valid_digest scope = true;
  context_key : (1 ≤ str_len key ≤ MAX_STATE_KEY_BYTES)%N;
  context_digest : kd = digest KEY_DOMAIN key;
  context_now : is_Some (parse_from_rfc3339 now);
}.

Lemma put_entry_effect store db scope kd key text now db' version :
  call_context scope kd key now → written_json text →
  put_entry store db scope kd key (read_entry db scope key) text (str_len text) now = Ok (db', version) →
  operation_effect store.(DurableStateStore.limits) scope kd key db db' (Some version)
  ∧ (1 ≤ version ≤ MAX_STATE_SAFE_INTEGER)%N.
Proof.
  intros [Hscope Hkey -> Hnow] Htext (Hwritten & Hbytes & Htaken)%put_entry_written.
  pose proof (written_range _ _ _ _ _ _ _ _ Hwritten). split; [|done].
  right. eexists _, _. split; [done|]. split; [done|]. split_and!; [by constructor|done|done].
Qed.

Lemma state_value_written input maximum text bytes :
  nesting (Value.Object input) ≤ 126 →
  state_value input maximum = Ok (text, bytes) → written_json text ∧ bytes = str_len text.
Proof.
  unfold state_value. intros Hnesting Hok. invert_ok. simplify_eq. split; [|done].
  match goal with H : map_get _ _ = Some _ |- _ => apply nesting_field in H end.
  eexists. split; [done|lia].
Qed.

Lemma state_value_stored input maximum text bytes :
  nesting (Value.Object input) ≤ 126 → exact_json (Value.Object input) →
  state_value input maximum = Ok (text, bytes) → stored_json text.
Proof.
  unfold state_value. intros Hnesting Hexact Hok. invert_ok. simplify_eq.
  match goal with H : map_get _ _ = Some ?v, Hc : canonical_json ?v = Some _ |- _ =>
    pose proof (nesting_field _ _ _ H); pose proof (exact_field _ _ _ Hexact H);
    destruct (canonical_reparsed v _ Hc) as (v' & Hparse & Hagain & _); [done|lia|] end.
  exists v'. split; [done|]. by apply canonical_string_ok.
Qed.

Lemma integer_stored z : safe_integer z = true → stored_json (i64_to_string z).
Proof.
  intros Hz. destruct (canonical_integer z Hz) as [Hjson Hparse]. eexists. split; [done|].
  by apply canonical_string_ok.
Qed.

Lemma integer_written z : safe_integer z = true → written_json (i64_to_string z).
Proof.
  intros Hz. destruct (canonical_integer z Hz) as [Hjson _]. eexists. split; [done|].
  unfold value_from_i64. case_match; simpl; lia.
Qed.

Lemma parse_stored_ok text v :
  written_json text → parse_stored_value text = Ok v →
  value_from_slice text = Some v ∧ canonical_string v = Ok text ∧ nesting v ≤ 125 ∧ exact_json v.
Proof.
  unfold parse_stored_value. intros (w & Hw & Hnesting) Hok. invert_ok. simplify_guards. simplify_eq.
  match goal with H : canonical_string v = Ok _ |- _ => pose proof H as Hv%canonical_string_ok end.
  split_and!; [done|done| |by eapply canonical_stable].
  by rewrite (canonical_nesting _ _ _ Hw) by done.
Qed.

Lemma read_entry_sound limits db scope key entry :
  tables_sound limits db → read_entry db scope key = Some entry →
  ∃ row, db.(StateDatabase.entries) !! (scope, key) = Some row ∧ entry = row.(EntryRow.entry)
         ∧ entry_sound scope key row.
Proof.
  intros Hsound Hread. apply fmap_Some in Hread as (row & Hrow & ->).
  exists row. split_and!; [done|done|]. by eapply entries_sound.
Qed.

Section effects.
Context (store : DurableStateStore) (db : StateDatabase) (scope kd key now : string) (input : Map).
Context (Hsound : tables_sound store.(DurableStateStore.limits) db).
Context (Hcall : call_context scope kd key now) (Hnesting : nesting (Value.Object input) ≤ 126).
Let effect := operation_effect store.(DurableStateStore.limits) scope kd key db.

Lemma set_effect db' data version bytes :
  state_set store db scope kd key input (read_entry db scope key) now = Ok (db', data, version, bytes) →
  effect db' version ∧ result_data "set" data version.
Proof.
  unfold state_set. intros Hok. invert_ok. simplify_eq.
  match goal with H : state_value _ _ = _ |- _ => apply state_value_written in H as [? ->]; [|done] end.
  match goal with H : put_entry _ _ _ _ _ _ _ _ _ = _ |- _ =>
    apply put_entry_effect in H as [? ?]; [|done|done] end.
  split; [done|]. constructor; [done|]. by eapply context_now.
Qed.

Lemma delete_effect db' data version bytes :
  state_delete store db scope kd key input (read_entry db scope key) = Ok (db', data, version, bytes) →
  effect db' version ∧ result_data "delete" data version.
Proof.
  unfold state_delete. destruct (read_entry db scope key) as [entry|] eqn:Hread;
    intros Hok; invert_ok; simplify_eq.
  - split; [|by constructor]. right. eexists _, None. split_and!; [done| |].
    + by eapply delete_entry_written.
    + unfold read_entry in Hread. apply fmap_Some in Hread as (row & -> & _). done.
  - split; [by left; auto|constructor].
Qed.

Lemma increment_effect db' data version bytes :
  state_increment store db scope kd key input (read_entry db scope key) now
    = Ok (db', data, version, bytes) →
  effect db' version ∧ result_data "increment" data version.
Proof.
  unfold state_increment. intros Hok.
  apply result_bind_ok in Hok as (? & _ & Hok). apply result_bind_ok in Hok as (amount & _ & Hok).
  apply result_bind_ok in Hok as (? & _ & Hok). apply result_bind_ok in Hok as (existing & _ & Hok).
  invert_ok. simplify_eq.
  match goal with H : _ ≫= _ = Some _ |- _ => apply bind_Some in H as (sum & _ & Hsafe) end.
  case_match; simplify_eq.
  match goal with H : put_entry _ _ _ _ _ _ _ _ _ = _ |- _ =>
    apply put_entry_effect in H as [? ?]; [|done|by apply integer_written] end.
  split; [done|]. constructor; [done|done|]. by eapply context_now.
Qed.

Lemma set_if_absent_effect db' data version bytes :
  state_set_if_absent store db scope kd key input (read_entry db scope key) now
    = Ok (db', data, version, bytes) →
  effect db' version ∧ result_data "set_if_absent" data version.
Proof.
  unfold state_set_if_absent. destruct (read_entry db scope key) as [entry|] eqn:Hread;
    intros Hok; invert_ok; simplify_eq.
  - apply (read_entry_sound _ _ _ _ _ Hsound) in Hread as (row & Hrow & -> & Hentry).
    match goal with H : parse_stored_value _ = _ |- _ =>
      apply parse_stored_ok in H as (? & ? & ? & ?); [|by eapply entry_json] end.
    split; [left; eauto|]. destruct Hentry. by constructor.
  - match goal with H : state_value _ _ = _ |- _ => apply state_value_written in H as [? ->]; [|done] end.
    rewrite <-Hread in *.
    match goal with H : put_entry _ _ _ _ _ _ _ _ _ = _ |- _ =>
      apply put_entry_effect in H as [? ?]; [|done|done] end.
    match goal with H : parse_stored_value _ = _ |- _ =>
      apply parse_stored_ok in H as (? & ? & ? & ?); [|done] end.
    split; [done|]. constructor; [done|done|done|]. by eapply context_now.
Qed.
End effects.

Lemma apply_operation_effect store db scope kd key now (request : StateRequest) db' data version bytes :
  tables_sound store.(DurableStateStore.limits) db → call_context scope kd key now →
  nesting (Value.Object request.(StateRequest.input)) ≤ 126 →
  apply_operation store db scope kd key request (read_entry db scope key) now
    = Ok (db', data, version, bytes) →
  operation_effect store.(DurableStateStore.limits) scope kd key db db' version
  ∧ if is_mutation request.(StateRequest.operation) then result_data request.(StateRequest.operation) data version
    else db' = db ∧ version = None.
Proof.
  intros Hsound Hcall Hnesting. unfold apply_operation.
  repeat (let Hop := fresh "Hop" in case_bool_decide as Hop);
    repeat match goal with
    | H : StateRequest.operation _ = _ |- _ => rewrite H; clear H
    | H : StateRequest.operation _ ≠ _ |- _ => clear H
    end; intros Hok.
  - unfold state_get in Hok. change (is_mutation "get") with false.
    invert_ok; simplify_eq; simpl; (split; [by left; auto|by split]).
  - unfold state_has in Hok. change (is_mutation "has") with false.
    invert_ok; simplify_eq; simpl; (split; [by left; auto|by split]).
  - by eapply (set_effect store).
  - by eapply (delete_effect store).
  - by eapply (increment_effect store).
  - by eapply (set_if_absent_effect store).
  - done.
Qed.

(** ** Recording a mutation *)

Lemma insert_mutation_ok db operation_key (row : MutationRow) db' :
  insert_mutation db operation_key row = Ok db' →
  db' = db <| StateDatabase.mutations ::= <[operation_key := row]> |>
  ∧ db.(StateDatabase.mutations) !! operation_key = None
  ∧ is_none_or row.(MutationRow.stored).(StoredMutation.committed_version) (in_range 1 9007199254740991) = true.
Proof.
  unfold insert_mutation. intros Hok. invert_ok. simplify_guards. split_and!; [done| |done].
  by apply is_some_false.
Qed.

(** The last version of a key after a mutation is recorded. *)
Lemma max_recorded db operation_key (row : MutationRow) scope kd :
  db.(StateDatabase.mutations) !! operation_key = None →
  max_committed_version (db <| StateDatabase.mutations ::= <[operation_key := row]> |>) scope kd
  = if decide (scope = row.(MutationRow.stored).(StoredMutation.scope_digest) ∧ kd = row.(MutationRow.stored).(StoredMutation.key_digest))
    then sql_max row.(MutationRow.stored).(StoredMutation.committed_version) (max_committed_version db scope kd)
    else max_committed_version db scope kd.
Proof.
  intros Hnew. unfold max_committed_version. simpl. rewrite max_insert by done.
  unfold take_version. case_decide as Hid.
  - destruct Hid as [-> ->]. by rewrite !bool_decide_true by done.
  - repeat case_bool_decide; simpl; try done. naive_solver.
Qed.

Lemma mutations_recorded limits db db' operation_key row :
  tables_sound limits db → db'.(StateDatabase.mutations) = db.(StateDatabase.mutations) →
  check_mutation_row operation_key row = Ok tt →
  ∀ operation_key' row',
    <[operation_key := row]> db'.(StateDatabase.mutations) !! operation_key' = Some row' →
    check_mutation_row operation_key' row' = Ok tt.
Proof.
  intros Hsound -> Hrow operation_key' row' Hlookup.
  apply lookup_insert_Some in Hlookup as [[<- <-]|[_ Hlookup]]; [done|].
  by eapply mutations_sound.
Qed.

(** A mutation that commits no version, or that of the live entry, leaves the last versions. *)
Lemma max_unchanged limits db scope kd key operation_key (row : MutationRow) :
  tables_sound limits db → kd = digest KEY_DOMAIN key →
  db.(StateDatabase.mutations) !! operation_key = None →
  row.(MutationRow.stored).(StoredMutation.scope_digest) = scope → row.(MutationRow.stored).(StoredMutation.key_digest) = kd →
  (row.(MutationRow.stored).(StoredMutation.committed_version) = None
   ∨ ∃ entry, db.(StateDatabase.entries) !! (scope, key) = Some entry
       ∧ row.(MutationRow.stored).(StoredMutation.committed_version) = Some entry.(EntryRow.entry).(StateEntry.version)) →
  ∀ scope' kd',
    max_committed_version (db <| StateDatabase.mutations ::= <[operation_key := row]> |>) scope' kd'
    = max_committed_version db scope' kd'.
Proof.
  intros Hsound Hkd Hnew Hscope Hdigest Hversion scope' kd'.
  rewrite max_recorded by done. case_decide as Hid; [|done].
  destruct Hid as [-> ->]. destruct Hversion as [->|(entry & Hentry & ->)]; [done|].
  pose proof (entry_digest _ _ _ (entries_sound _ _ Hsound _ _ _ Hentry)) as Hed.
  apply (versions_live _ _ Hsound) in Hentry. rewrite Hscope, Hdigest, Hkd, <-Hed, Hentry. simpl.
  by rewrite N.max_id.
Qed.

(** A mutation that leaves the entries as they are. *)
Lemma record_unchanged limits db scope kd key operation_key (row : MutationRow) :
  tables_sound limits db → kd = digest KEY_DOMAIN key →
  db.(StateDatabase.mutations) !! operation_key = None →
  check_mutation_row operation_key row = Ok tt →
  row.(MutationRow.stored).(StoredMutation.scope_digest) = scope → row.(MutationRow.stored).(StoredMutation.key_digest) = kd →
  (row.(MutationRow.stored).(StoredMutation.committed_version) = None
   ∨ ∃ entry, db.(StateDatabase.entries) !! (scope, key) = Some entry
       ∧ row.(MutationRow.stored).(StoredMutation.committed_version) = Some entry.(EntryRow.entry).(StateEntry.version)) →
  tables_sound limits (db <| StateDatabase.mutations ::= <[operation_key := row]> |>).
Proof.
  intros Hsound Hkd Hnew Hrow Hscope Hdigest Hversion.
  pose proof (max_unchanged _ _ _ _ _ _ _ Hsound Hkd Hnew Hscope Hdigest Hversion) as Hmax.
  constructor; try apply Hsound.
  - by eapply mutations_recorded.
  - intros scope' key' row' Hrow'. rewrite Hmax. by apply (versions_live _ _ Hsound _ key').
Qed.

(** The quotas and usages after a write; recording the mutation does not touch them. *)
Lemma written_quotas_sound limits scope kd key row version db db' db'' :
  tables_sound limits db → valid_digest scope = true →
  entry_written limits scope kd key row version db db' →
  db''.(StateDatabase.entries) = db'.(StateDatabase.entries) →
  db''.(StateDatabase.quotas) = db'.(StateDatabase.quotas) →
  (∀ scope q, db''.(StateDatabase.quotas) !! scope = Some q →
     valid_digest scope = true ∧ q = scope_usage db'' scope)
  ∧ (∀ scope, db''.(StateDatabase.quotas) !! scope = None → scope_usage db'' scope = (0, 0)%N)
  ∧ (∀ scope, (scope_usage db'' scope).1 ≤ limits.(DurableStateLimits.max_keys)
              ∧ (scope_usage db'' scope).2 ≤ limits.(DurableStateLimits.max_bytes))%N.
Proof.
  intros Hsound Hscope Hw Hentries Hquotas.
  assert (∀ scope, scope_usage db'' scope = scope_usage db' scope) as Husage
    by (intros; unfold scope_usage; by rewrite Hentries).
  rewrite Hquotas, (written_quotas _ _ _ _ _ _ _ _ Hw).
  split_and!; intros scope'; [intros q Hq|intros Hq|]; rewrite Husage.
  - apply lookup_insert_Some in Hq as [[<- <-]|[Hne Hq]]; [done|].
    rewrite (written_other _ _ _ _ _ _ _ _ Hw) by done. by eapply quotas_exact.
  - apply lookup_insert_None in Hq as [Hq Hne].
    rewrite (written_other _ _ _ _ _ _ _ _ Hw) by done. by eapply quotas_complete.
  - destruct (decide (scope' = scope)) as [->|]; [by eapply written_bounded|].
    rewrite (written_other _ _ _ _ _ _ _ _ Hw) by done. by eapply usage_bounded.
Qed.

(** A mutation that writes or removes the entry of its key. *)
Lemma record_written limits db db' scope kd key row version operation_key (mutation : MutationRow) :
  tables_sound limits db → valid_digest scope = true → kd = digest KEY_DOMAIN key →
  entry_written limits scope kd key row version db db' →
  match row with
  | Some row =>
      entry_sound scope key row ∧ row.(EntryRow.entry).(StateEntry.version) = version ∧ digest_taken db scope key kd = false
  | None => is_Some (db.(StateDatabase.entries) !! (scope, key))
  end →
  db'.(StateDatabase.mutations) !! operation_key = None →
  check_mutation_row operation_key mutation = Ok tt →
  mutation.(MutationRow.stored).(StoredMutation.scope_digest) = scope → mutation.(MutationRow.stored).(StoredMutation.key_digest) = kd →
  mutation.(MutationRow.stored).(StoredMutation.committed_version) = Some version →
  tables_sound limits (db' <| StateDatabase.mutations ::= <[operation_key := mutation]> |>).
Proof.
  intros Hsound Hscope Hkd Hw Hrow Hnew Hcheck Hms Hmk Hmv.
  pose proof (written_entries _ _ _ _ _ _ _ _ Hw) as Hentries.
  pose proof (written_mutations _ _ _ _ _ _ _ _ Hw) as Hmutations.
  assert (∀ scope kd, max_committed_version db' scope kd = max_committed_version db scope kd) as Hmax
    by (intros; unfold max_committed_version; by rewrite Hmutations).
  destruct (written_quotas_sound limits scope kd key row version db db'
    (db' <| StateDatabase.mutations ::= <[operation_key := mutation]> |>)) as (Hq1 & Hq2 & Hq3);
    try done.
  (* the other entries of the key's scope have other digests *)
  assert (∀ key' row', db.(StateDatabase.entries) !! (scope, key') = Some row' →
    row'.(EntryRow.key_digest) = kd → key' = key) as Hunique.
  { intros key' row' Hrow' Hd. destruct row as [row|].
    - destruct Hrow as (_ & _ & Htaken). by eapply digest_taken_false.
    - destruct Hrow as [old Hold]. symmetry. eapply (digests_unique _ _ Hsound); [done..|].
      rewrite Hd, Hkd. by eapply entry_digest, entries_sound. }
  constructor; simpl; try done.
  - intros scope' key' row' Hrow'. rewrite Hentries in Hrow'. destruct row as [row|].
    + apply lookup_insert_Some in Hrow' as [[[= <- <-] <-]|[_ Hrow']]; [by apply Hrow|].
      by eapply entries_sound.
    + apply lookup_delete_Some in Hrow' as [_ Hrow']. by eapply entries_sound.
  - by eapply mutations_recorded.
  - intros scope' key' row' Hrow'. rewrite Hentries in Hrow'.
    rewrite max_recorded, Hmax, Hms, Hmk, Hmv by done.
    destruct (decide ((scope', key') = (scope, key))) as [[= -> ->]|Hne].
    + destruct row as [row|]; [|by rewrite lookup_delete_eq in Hrow'].
      rewrite lookup_insert_eq in Hrow'. simplify_eq. destruct Hrow as (Hentry & <- & _).
      rewrite decide_True by (split; [done|]; by apply Hentry).
      pose proof (written_version _ _ _ _ _ _ _ _ Hw) as Hv.
      rewrite (entry_digest _ _ _ Hentry), Hv. destruct (max_committed_version _ _ _); simpl; f_equal; lia.
    + assert (db.(StateDatabase.entries) !! (scope', key') = Some row') as Hold.
      { destruct row; [by rewrite lookup_insert_ne in Hrow' by done|].
        by rewrite lookup_delete_ne in Hrow' by done. }
      rewrite decide_False; [by apply (versions_live _ _ Hsound _ key')|].
      intros [-> Hd]. by rewrite (Hunique key' row') in Hne.
  - intros scope' key1 key2 row1 row2 H1' H2' Hd. rewrite Hentries in *.
    destruct row as [row|].
    + destruct Hrow as (Hentry & _ & _). pose proof (entry_digest _ _ _ Hentry) as Hrd.
      apply lookup_insert_Some in H1' as [[[= <- <-] <-]|[Hne1 H1']];
        apply lookup_insert_Some in H2' as [[Heq2 <-]|[Hne2 H2']].
      * by simplify_eq.
      * symmetry. apply (Hunique key2 row2 H2'). congruence.
      * simplify_eq. apply (Hunique key1 row1 H1'). congruence.
      * by eapply (digests_unique _ _ Hsound).
    + apply lookup_delete_Some in H1' as [_ H1'], H2' as [_ H2'].
      by eapply (digests_unique _ _ Hsound).
Qed.

(** ** Calls *)

Lemma prepare_call_ok store workflow_id call (prepared : PreparedCall) :
  prepare_call store workflow_id call = Ok prepared →
  parse_request call.(CapabilityCallRequest.input) call.(CapabilityCallRequest.operation)
    = Ok prepared.(PreparedCall.request)
  ∧ prepared.(PreparedCall.scope) = scope_digest store workflow_id
  ∧ state_key prepared.(PreparedCall.request).(StateRequest.input) = Ok prepared.(PreparedCall.key)
  ∧ prepared.(PreparedCall.key_digest) = digest KEY_DOMAIN prepared.(PreparedCall.key)
  ∧ (∃ text, canonical_string call.(CapabilityCallRequest.input) = Ok text
       ∧ prepared.(PreparedCall.input_digest) = digest INPUT_DOMAIN text)
  ∧ valid_call call = true
  ∧ if is_mutation prepared.(PreparedCall.request).(StateRequest.operation)
    then ∃ identity, prepared.(PreparedCall.mutation) = Some identity
      ∧ validate_mutation_identity call prepared.(PreparedCall.request).(StateRequest.operation) prepared.(PreparedCall.input_digest) = Ok identity
    else prepared.(PreparedCall.mutation) = None.
Proof.
  unfold prepare_call, capability_request_validate. intros Hok.
  repeat (apply result_bind_ok in Hok as (? & ? & Hok)). apply Ok_inj in Hok as <-. simpl.
  split_and!; try done; [by eauto| |].
  - match goal with H : map_err _ (fail_if (negb (valid_call _)) _) = _ |- _ =>
      by apply map_err_ok, fail_if_ok, negb_false_iff in H end.
  - match goal with H : (if is_mutation ?o then _ else _) = Ok _ |- _ =>
      destruct (is_mutation o); [apply result_bind_ok in H as (identity & ? & H)|];
      apply Ok_inj in H as <-; eauto end.
Qed.

Lemma parse_request_ok input operation (request : StateRequest) :
  parse_request input operation = Ok request →
  state_request_from_value input = Some request ∧ request.(StateRequest.operation) = operation.
Proof.
  unfold parse_request. intros Hok.
  repeat (apply result_bind_ok in Hok as (? & ? & Hok)). apply Ok_inj in Hok as <-.
  invert_ok. simplify_guards. done.
Qed.

Lemma state_key_ok input key :
  state_key input = Ok key → (1 ≤ str_len key ≤ MAX_STATE_KEY_BYTES)%N.
Proof.
  unfold state_key. intros Hok. apply ok_or_ok in Hok.
  apply bind_Some in Hok as (v & _ & Hok). apply bind_Some in Hok as (k & _ & Hok).
  case_match; simplify_eq. simplify_guards. split; [|done].
  destruct key; [done|]. unfold str_len. simpl. lia.
Qed.

Lemma validate_mutation_identity_ok call operation input_digest (identity : MutationIdentity) :
  validate_mutation_identity call operation input_digest = Ok identity →
  identity.(MutationIdentity.operation_key) = call.(CapabilityCallRequest.identity).(CapabilityCallIdentity.operation_key)
  ∧ identity.(MutationIdentity.operation_name) = call.(CapabilityCallRequest.identity).(CapabilityCallIdentity.operation_name)
  ∧ identity.(MutationIdentity.input_digest) = input_digest
  ∧ ∃ author, strip_prefix ("state." +:+ operation +:+ ".") identity.(MutationIdentity.operation_name) = Some author
      ∧ valid_operation_name author = true.
Proof.
  unfold validate_mutation_identity. intros Hok.
  repeat (apply result_bind_ok in Hok as (? & ? & Hok)). apply Ok_inj in Hok as <-. simpl.
  invert_ok. simplify_guards. split_and!; [done|done|done|]. eexists. by split.
Qed.

Lemma prepared_context store workflow_id call (prepared : PreparedCall) now_millis now :
  prepare_call store workflow_id call = Ok prepared →
  (0 ≤ now_millis < 253402300800000)%Z → state_timestamp now_millis = Ok now →
  call_context prepared.(PreparedCall.scope) prepared.(PreparedCall.key_digest) prepared.(PreparedCall.key) now.
Proof.
  intros (_ & Hscope & Hkey & Hkd & _)%prepare_call_ok Hrange Hnow. constructor.
  - rewrite Hscope. apply valid_digest_sha256.
  - by eapply state_key_ok.
  - done.
  - unfold state_timestamp in Hnow. invert_ok.
    match goal with H : _ <$> _ = Some _ |- _ => apply fmap_Some in H as (time & Htime & ->) end.
    by eapply timestamps_parsed.
Qed.

(** A committed call keeps the tables sound. *)
Lemma execute_fresh_sound store db (prepared : PreparedCall) workflow_id call now_millis duration_ms
    db' execution :
  tables_sound store.(DurableStateStore.limits) db →
  prepare_call store workflow_id call = Ok prepared →
  (0 ≤ now_millis < 253402300800000)%Z → nesting call.(CapabilityCallRequest.input) ≤ 127 →
  execute_fresh store db prepared now_millis duration_ms = Ok (db', execution) →
  tables_sound store.(DurableStateStore.limits) db'.
Proof.
  intros Hsound Hprepare Hrange Hnesting Hok. unfold execute_fresh in Hok.
  apply result_bind_ok in Hok as (now & Hnow & Hok).
  apply result_bind_ok in Hok as ([[[db1 data] version] bytes] & Happly & Hok).
  apply result_bind_ok in Hok as (text & Htext & Hok).
  apply result_bind_ok in Hok as (db2 & Hinsert & Hok). simplify_eq.
  pose proof (prepared_context _ _ _ _ _ _ Hprepare Hrange Hnow) as Hcall.
  apply prepare_call_ok in Hprepare as (Hparse & _ & _ & _ & (input_text & _ & Hinput) & Hvalid & Hmutation).
  apply parse_request_ok in Hparse as [Hparse _]. apply nesting_input in Hparse.
  apply apply_operation_effect in Happly as [Heffect Hdata]; [|done|done|lia].
  destruct (is_mutation prepared.(PreparedCall.request).(StateRequest.operation)) eqn:Hop.
  - destruct Hmutation as (identity & Hid & Hidentity). rewrite Hid in Hinsert.
    apply validate_mutation_identity_ok in Hidentity as (Hkey & Hname & Hdigest & author & Hprefix & Hauthor).
    apply insert_mutation_ok in Hinsert as (-> & Hnew & Hversion). simpl in Hversion.
    assert (valid_digest identity.(MutationIdentity.operation_key) = true) as Hvk.
    { rewrite Hkey. apply sha256_valid_digest. unfold valid_call in Hvalid. simplify_guards. done. }
    destruct Hcall as [Hscope Hk Hkd Htime].
    assert (valid_digest prepared.(PreparedCall.key_digest) = true) as Hvkd by (rewrite Hkd; apply digest_is_valid).
    assert (valid_digest identity.(MutationIdentity.input_digest) = true) as Hvi
      by (rewrite Hdigest, Hinput; apply digest_is_valid).
    pose proof (mutation_row_sound _ _ _ _ _ _ _ _ _ _ _ Hdata Hop Htext Hvk Hscope Hvkd Hvi Hprefix
      Hauthor Htime Hversion) as Hrow.
    destruct Heffect as [[-> Hlive]|(v & row & -> & Hwritten & Hentry)].
    + by apply (record_unchanged _ _ prepared.(PreparedCall.scope) prepared.(PreparedCall.key_digest) prepared.(PreparedCall.key)).
    + by apply (record_written _ db _ prepared.(PreparedCall.scope) prepared.(PreparedCall.key_digest) prepared.(PreparedCall.key) row v).
  - rewrite Hmutation in Hinsert. apply Ok_inj in Hinsert as <-. by destruct Hdata as [-> _].
Qed.

Lemma execute_sound store db workflow_id call now_millis duration_ms db' execution :
  tables_sound store.(DurableStateStore.limits) db →
  (0 ≤ now_millis < 253402300800000)%Z → nesting call.(CapabilityCallRequest.input) ≤ 127 →
  execute store db workflow_id call now_millis duration_ms = Ok (db', execution) →
  tables_sound store.(DurableStateStore.limits) db'.
Proof.
  intros Hsound Hrange Hnesting Hok. unfold execute in Hok.
  apply result_bind_ok in Hok as (prepared & Hprepare & Hok).
  apply result_bind_ok in Hok as (? & _ & Hok).
  destruct prepared.(PreparedCall.mutation) as [identity|]; [|by eapply execute_fresh_sound].
  destruct (read_mutation _ _) as [stored|]; [|by eapply execute_fresh_sound].
  apply result_bind_ok in Hok as (? & _ & Hok). by simplify_eq.
Qed.

Lemma step_sound store db db' :
  state_step store db db' →
  tables_sound store.(DurableStateStore.limits) db → tables_sound store.(DurableStateStore.limits) db'.
Proof. destruct 1; [|done]. intros. by eapply execute_sound. Qed.

Lemma steps_sound store db db' :
  rtc (state_step store) db db' →
  tables_sound store.(DurableStateStore.limits) db → tables_sound store.(DurableStateStore.limits) db'.
Proof. induction 1; [done|]. eauto using step_sound. Qed.

(** ** Entries that are read back *)

Lemma written_readable limits scope kd key row version db db' :
  entry_written limits scope kd key row version db db' →
  (∀ row', row = Some row' → stored_json row'.(EntryRow.entry).(StateEntry.value_json)) →
  entries_readable db → entries_readable db'.
Proof.
  intros Hw Hrow Hreadable id row' Hlookup. rewrite (written_entries _ _ _ _ _ _ _ _ Hw) in Hlookup.
  destruct row as [row|].
  - apply lookup_insert_Some in Hlookup as [[_ <-]|[_ Hlookup]]; eauto.
  - apply lookup_delete_Some in Hlookup as [_ Hlookup]. eauto.
Qed.

Lemma put_entry_readable store db scope kd key text bytes now db' version :
  stored_json text → entries_readable db →
  put_entry store db scope kd key (read_entry db scope key) text bytes now = Ok (db', version) →
  entries_readable db'.
Proof.
  intros Htext Hreadable [Hwritten _]%put_entry_written. eapply written_readable; [done| |done].
  by intros row' [= <-].
Qed.

(** A call whose numbers are exact leaves entries that are read back. *)
Lemma apply_operation_readable store db scope kd key now (request : StateRequest) db' data version bytes :
  entries_readable db → nesting (Value.Object request.(StateRequest.input)) ≤ 126 →
  exact_json (Value.Object request.(StateRequest.input)) →
  apply_operation store db scope kd key request (read_entry db scope key) now
    = Ok (db', data, version, bytes) →
  entries_readable db'.
Proof.
  intros Hreadable Hnesting Hexact. unfold apply_operation.
  repeat case_bool_decide; try done; intros Hok.
  - unfold state_get in Hok. by invert_ok; simplify_eq.
  - unfold state_has in Hok. by invert_ok; simplify_eq.
  - unfold state_set in Hok. invert_ok. simplify_eq. eapply put_entry_readable; [|done|done].
    by eapply state_value_stored.
  - unfold state_delete in Hok. destruct (read_entry db scope key) as [entry|] eqn:Hread;
      invert_ok; simplify_eq; [|done].
    eapply (written_readable store.(DurableStateStore.limits)); [by eapply delete_entry_written|done|done].
  - unfold state_increment in Hok.
    apply result_bind_ok in Hok as (? & _ & Hok). apply result_bind_ok in Hok as (amount & _ & Hok).
    apply result_bind_ok in Hok as (? & _ & Hok). apply result_bind_ok in Hok as (existing & _ & Hok).
    invert_ok. simplify_eq.
    match goal with H : _ ≫= _ = Some _ |- _ => apply bind_Some in H as (sum & _ & Hsafe) end.
    case_match; simplify_eq. eapply put_entry_readable; [|done|done]. by apply integer_stored.
  - unfold state_set_if_absent in Hok. destruct (read_entry db scope key) as [entry|] eqn:Hread;
      invert_ok; simplify_eq; [done|]. rewrite <-Hread in *.
    eapply put_entry_readable; [|done|done]. by eapply state_value_stored.
Qed.

Lemma execute_readable store db workflow_id call now_millis duration_ms db' execution :
  entries_readable db → nesting call.(CapabilityCallRequest.input) ≤ 127 →
  exact_json call.(CapabilityCallRequest.input) →
  execute store db workflow_id call now_millis duration_ms = Ok (db', execution) →
  entries_readable db'.
Proof.
  intros Hreadable Hnesting Hexact Hok. unfold execute in Hok.
  apply result_bind_ok in Hok as (prepared & Hprepare & Hok).
  apply result_bind_ok in Hok as ([] & _ & Hok).
  assert (execute_fresh store db prepared now_millis duration_ms = Ok (db', execution) →
    entries_readable db') as Hfresh; [clear Hok; intros Hok|].
  { unfold execute_fresh in Hok. apply result_bind_ok in Hok as (now & Hnow & Hok).
    apply result_bind_ok in Hok as ([[[db1 data] version] bytes] & Happly & Hok).
    apply result_bind_ok in Hok as (text & _ & Hok).
    apply result_bind_ok in Hok as (db2 & Hinsert & Hok). simplify_eq.
    apply prepare_call_ok in Hprepare as (Hparse & _).
    apply parse_request_ok in Hparse as [Hparse _]. pose proof (nesting_input _ _ Hparse).
    apply apply_operation_readable in Happly; [|done|lia|by eapply exact_input].
    destruct prepared.(PreparedCall.mutation); [|by simplify_eq].
    apply insert_mutation_ok in Hinsert as (-> & _). done. }
  destruct prepared.(PreparedCall.mutation) as [identity|]; [|by apply Hfresh].
  destruct (read_mutation _ _) as [stored|]; [|by apply Hfresh].
  apply result_bind_ok in Hok as (? & _ & Hok). by simplify_eq.
Qed.

(** ** The check at startup *)

Lemma check_entry_row_sound scope key row :
  entry_sound scope key row → stored_json row.(EntryRow.entry).(StateEntry.value_json) →
  check_entry_row scope key row = Ok tt.
Proof.
  intros [Hscope Hkey Hkd _ Hbytes Hsize Hversion [time Htime]] (v & Hparse & Hcanonical).
  unfold check_entry_row. rewrite Hparse. cbn [ok_or result_bind]. rewrite Hcanonical.
  cbn [map_err result_bind]. rewrite Hscope, Htime, <-Hbytes. apply fail_if_ok.
  destruct key as [|b key]; [unfold str_len in Hkey; simpl in Hkey; lia|].
  rewrite !bool_decide_true by done. cbn [str_is_empty negb orb is_none is_some].
  rewrite !(proj2 (N.ltb_ge _ _)), !(proj2 (N.eqb_neq _ _)) by lia. done.
Qed.

(** A commutative fold does not depend on the order of iteration. *)
Lemma map_fold_iter `{Countable K, !BTreeKey K} {V B} (f : K → V → B → B) b (m : gmap K V) :
  (∀ i j x y b, f i x (f j y b) = f j y (f i x b)) →
  foldr (uncurry f) b (btree_iter m) = map_fold f b m.
Proof.
  intros Hcomm. rewrite map_fold_foldr. apply (foldr_permutation_proper (=) (uncurry f) b).
  - intros [i x] [j y] c. apply Hcomm.
  - apply btree_iter_Permutation.
Qed.

Lemma elem_of_btree_iter `{Countable K, !BTreeKey K} {V} (m : gmap K V) k v :
  (k, v) ∈ btree_iter m ↔ m !! k = Some v.
Proof. rewrite btree_iter_Permutation. apply elem_of_map_to_list. Qed.

Lemma usage_fold_acc scope id row b rows :
  foldr (uncurry (count_entry scope)) (count_entry scope id row b) rows
  = count_entry scope id row (foldr (uncurry (count_entry scope)) b rows).
Proof. apply foldr_comm_acc. intros [j y] c. apply count_entry_comm. Qed.

Lemma usage_fold_mono scope b rows :
  (b.1 ≤ (foldr (uncurry (count_entry scope)) b rows).1
   ∧ b.2 ≤ (foldr (uncurry (count_entry scope)) b rows).2)%N.
Proof.
  induction rows as [|[id row] rows IH]; simpl; [lia|]. unfold count_entry at 1 3.
  case_bool_decide; simpl; lia.
Qed.

Lemma scan_entries_ok rows quotas live :
  (∀ scope key row, ((scope, key), row) ∈ rows → check_entry_row scope key row = Ok tt) →
  (∀ scope, let usage := foldr (uncurry (count_entry scope)) (default (0, 0)%N (quotas !! scope)) rows in
     (usage.1 < usize_modulus ∧ usage.2 < usize_modulus)%N) →
  (∀ scope q, quotas !! scope = Some q → (1 ≤ q.1)%N) →
  ∃ quotas' live',
    scan_entries rows quotas live = Ok (quotas', live')
    ∧ (∀ scope, default (0, 0)%N (quotas' !! scope)
         = foldr (uncurry (count_entry scope)) (default (0, 0)%N (quotas !! scope)) rows)
    ∧ (∀ scope q, quotas' !! scope = Some q → (1 ≤ q.1)%N)
    ∧ (∀ id v, live' !! id = Some v → live !! id = Some v
         ∨ ∃ key row, ((id.1, key), row) ∈ rows ∧ row.(EntryRow.key_digest) = id.2 ∧ row.(EntryRow.entry).(StateEntry.version) = v).
Proof.
  revert quotas live. induction rows as [|[[scope key] row] rows IH]; intros quotas live Hrows Hbound Hpos.
  { eexists _, _. split_and!; eauto. }
  simpl. rewrite (Hrows scope key row) by left. simpl.
  set (quota := default (0, 0)%N (quotas !! scope)).
  assert (quota.1 + 1 < usize_modulus ∧ quota.2 + row.(EntryRow.entry).(StateEntry.value_bytes) < usize_modulus)%N
    as [Hkeys Hbytes].
  { specialize (Hbound scope). simpl in Hbound. fold quota in Hbound.
    pose proof (usage_fold_mono scope quota rows). unfold count_entry at 1 3 in Hbound. simpl in Hbound.
    rewrite bool_decide_true in Hbound by done. simpl in Hbound. lia. }
  unfold u64_checked_add. rewrite !(proj2 (N.ltb_lt _ _)) by done. simpl.
  assert (∀ scope', default (0, 0)%N (<[scope := (quota.1 + 1, quota.2 + row.(EntryRow.entry).(StateEntry.value_bytes))%N]> quotas !! scope')
    = count_entry scope' (scope, key) row (default (0, 0)%N (quotas !! scope'))) as Hdefault.
  { intros scope'. unfold count_entry. simpl. case_bool_decide; subst;
      [by rewrite lookup_insert_eq|by rewrite lookup_insert_ne by congruence]. }
  edestruct IH as (quotas' & live' & -> & Husage & Hpos' & Hlive).
  - intros. apply Hrows. by right.
  - intros scope'. rewrite Hdefault, usage_fold_acc. apply Hbound.
  - intros scope' q Hq. apply lookup_insert_Some in Hq as [[<- <-]|[_ Hq]]; [simpl; lia|eauto].
  - eexists _, _. split_and!; [done| |done|].
    + intros scope'. by rewrite Husage, Hdefault, usage_fold_acc.
    + intros id v Hv. apply Hlive in Hv as [Hv|(key' & row' & ? & ? & ?)].
      * apply lookup_insert_Some in Hv as [[<- <-]|[_ Hv]]; [|by left].
        right. exists key, row. split_and!; [by left|done|done].
      * right. exists key', row'. split_and!; [by right|done|done].
Qed.

Lemma scan_mutations_ok rows committed :
  (∀ operation_key row, (operation_key, row) ∈ rows → check_mutation_row operation_key row = Ok tt) →
  ∃ committed', scan_mutations rows committed = Ok committed'
    ∧ ∀ scope kd, committed' !! (scope, kd)
        = foldr (uncurry (take_version scope kd)) (committed !! (scope, kd)) rows.
Proof.
  revert committed. induction rows as [|[operation_key row] rows IH]; intros committed Hrows; [by eauto|].
  simpl. rewrite (Hrows operation_key row) by left. simpl.
  edestruct IH as (committed' & -> & Hmax); [intros; apply Hrows; by right|].
  eexists. split; [done|]. intros scope kd. rewrite Hmax. clear Hmax.
  rewrite <-(foldr_comm_acc (uncurry (take_version scope kd)) (take_version scope kd operation_key row))
    by (intros [j y] c; apply take_version_comm). f_equal. unfold take_version, sql_max.
  destruct row.(MutationRow.stored).(StoredMutation.committed_version) as [version|];
    [|by destruct (_ && _), (committed !! _)].
  repeat case_bool_decide; subst; simpl.
  - rewrite lookup_insert_eq. destruct (committed !! _); [by rewrite N.max_comm|done].
  - rewrite lookup_insert_ne by congruence. done.
  - rewrite lookup_insert_ne by congruence. done.
  - rewrite lookup_insert_ne by congruence. done.
Qed.

Lemma scan_quotas_ok rows quotas :
  NoDup rows.*1 →
  (∀ scope keys bytes, (scope, (keys, bytes)) ∈ rows →
     valid_digest scope = true ∧ (keys ≤ DEFAULT_STATE_MAX_KEYS ∧ bytes ≤ DEFAULT_STATE_MAX_BYTES)%N
     ∧ default (0, 0)%N (quotas !! scope) = (keys, bytes)) →
  ∃ rest, scan_quotas rows quotas = Ok rest
    ∧ ∀ scope q, rest !! scope = Some q → quotas !! scope = Some q ∧ scope ∉ rows.*1.
Proof.
  revert quotas. induction rows as [|[scope [keys bytes]] rows IH]; intros quotas Hnodup Hrows.
  { eexists. split; [done|]. intros scope q Hq. split; [done|]. apply not_elem_of_nil. }
  simpl. apply NoDup_cons in Hnodup as [Hnotin Hnodup].
  destruct (Hrows scope keys bytes) as (Hscope & [Hk Hb] & Hdefault); [by left|].
  rewrite Hscope, Hdefault, !(proj2 (N.ltb_ge _ _)), bool_decide_true by done. simpl.
  edestruct (IH (delete scope quotas)) as (rest & -> & Hrest); [done| |].
  - intros scope' keys' bytes' Hin. rewrite lookup_delete_ne; [apply Hrows; by right|].
    intros ->. apply Hnotin. by apply (list_elem_of_fmap_2 fst) in Hin.
  - eexists. split; [done|]. intros scope' q (Hq & Hnot)%Hrest.
    apply lookup_delete_Some in Hq as [Hne Hq]. split; [done|]. csimpl. set_solver.
Qed.

Lemma tables_pass_integrity limits db :
  valid_limits limits = true → tables_sound limits db → entries_readable db →
  db.(StateDatabase.quick_check) = "ok" → db.(StateDatabase.foreign_key_failure) = false →
  validate_store_integrity db = Ok tt.
Proof.
  intros Hlimits Hsound Hreadable Hquick Hforeign. unfold validate_store_integrity. rewrite Hquick, Hforeign. simpl.
  assert (∀ scope, (scope_usage db scope).1 ≤ DEFAULT_STATE_MAX_KEYS
                   ∧ (scope_usage db scope).2 ≤ DEFAULT_STATE_MAX_BYTES)%N as Hbounds.
  { intros scope. pose proof (usage_bounded _ _ Hsound scope). unfold valid_limits, in_range in Hlimits.
    simplify_guards. lia. }
  assert (∀ scope, foldr (uncurry (count_entry scope)) (0, 0)%N (btree_iter db.(StateDatabase.entries))
    = scope_usage db scope) as Husage
    by (intros; apply map_fold_iter; intros; apply count_entry_comm).
  destruct (scan_entries_ok (btree_iter db.(StateDatabase.entries)) ∅ ∅)
    as (quotas & live & -> & Hq & Hpos & Hlive).
  { intros scope key row Hin%elem_of_btree_iter. apply check_entry_row_sound; [by eapply entries_sound|by eapply Hreadable]. }
  { intros scope. simpl. rewrite lookup_empty. simpl. rewrite Husage.
    unfold DEFAULT_STATE_MAX_KEYS, DEFAULT_STATE_MAX_BYTES, usize_modulus in *.
    specialize (Hbounds scope). lia. }
  { done. }
  simpl. destruct (scan_mutations_ok (btree_iter db.(StateDatabase.mutations)) ∅)
    as (committed & -> & Hcommitted).
  { intros k row Hin%elem_of_btree_iter. by eapply mutations_sound. }
  simpl. destruct (existsb _ _) eqn:Hstale; simpl.
  { exfalso. apply existsb_exists in Hstale as ([[scope kd] v] & Hin & Hne).
    apply list_elem_of_In, elem_of_map_to_list, Hlive in Hin as [Hin|(key & row & Hrow & Hkd & Hv)]; [done|].
    simpl in Hrow, Hkd. subst kd v. apply elem_of_btree_iter, (versions_live _ _ Hsound) in Hrow. simpl in *.
    apply negb_true_iff, bool_decide_eq_false in Hne. apply Hne.
    rewrite Hcommitted, lookup_empty, <-Hrow. apply map_fold_iter. intros. apply take_version_comm. }
  setoid_rewrite lookup_empty in Hq. setoid_rewrite Husage in Hq. simpl in Hq.
  destruct (scan_quotas_ok (btree_iter db.(StateDatabase.quotas)) quotas) as (rest & -> & Hrest).
  { rewrite btree_iter_Permutation. apply NoDup_fst_map_to_list. }
  { intros scope keys bytes Hin%elem_of_btree_iter.
    apply (quotas_exact _ _ Hsound) in Hin as [? Heq]. specialize (Hbounds scope).
    rewrite <-Heq in Hbounds. by rewrite Hq, <-Heq. }
  simpl. rewrite bool_decide_true; [done|]. apply map_eq. intros scope. rewrite lookup_empty.
  destruct (rest !! scope) as [q|] eqn:Hrow; [|done]. exfalso.
  apply Hrest in Hrow as [Hrow Hnot]. pose proof (Hpos _ _ Hrow). specialize (Hq scope).
  rewrite Hrow in Hq. simpl in Hq. subst q. destruct (db.(StateDatabase.quotas) !! scope) as [q|] eqn:Hquota.
  - apply elem_of_btree_iter, (list_elem_of_fmap_2 fst) in Hquota. done.
  - apply (quotas_complete _ _ Hsound) in Hquota. rewrite Hquota in *. simpl in *. lia.
Qed.

(** ** The three kinds of committed calls *)

(** A replayed mutation, a read, or a mutation that commits now. *)
Inductive call_outcome (store : DurableStateStore) (db : StateDatabase) (prepared : PreparedCall)
    (db' : StateDatabase) (execution : DurableStateExecution) : Prop :=
| outcome_replayed identity stored :
    prepared.(PreparedCall.mutation) = Some identity →
    db' = db → read_mutation db identity.(MutationIdentity.operation_key) = Some stored →
    replay_mutation prepared identity stored execution.(DurableStateExecution.duration_ms) = Ok execution →
    call_outcome store db prepared db' execution
| outcome_read now data bytes :
    prepared.(PreparedCall.mutation) = None → db' = db →
    apply_operation store db prepared.(PreparedCall.scope) prepared.(PreparedCall.key_digest) prepared.(PreparedCall.key) prepared.(PreparedCall.request)
      (read_entry db prepared.(PreparedCall.scope) prepared.(PreparedCall.key)) now = Ok (db, data, None, bytes) →
    execution.(DurableStateExecution.result) = state_result_value prepared.(PreparedCall.request).(StateRequest.operation) data →
    execution.(DurableStateExecution.duplicate) = false → execution.(DurableStateExecution.version) = None →
    call_outcome store db prepared db' execution
| outcome_committed identity now data version bytes text db1 :
    prepared.(PreparedCall.mutation) = Some identity → is_mutation prepared.(PreparedCall.request).(StateRequest.operation) = true →
    call_context prepared.(PreparedCall.scope) prepared.(PreparedCall.key_digest) prepared.(PreparedCall.key) now →
    apply_operation store db prepared.(PreparedCall.scope) prepared.(PreparedCall.key_digest) prepared.(PreparedCall.key) prepared.(PreparedCall.request)
      (read_entry db prepared.(PreparedCall.scope) prepared.(PreparedCall.key)) now = Ok (db1, data, version, bytes) →
    operation_effect store.(DurableStateStore.limits) prepared.(PreparedCall.scope) prepared.(PreparedCall.key_digest) prepared.(PreparedCall.key)
      db db1 version →
    result_data prepared.(PreparedCall.request).(StateRequest.operation) data version →
    canonical_json (state_result_value prepared.(PreparedCall.request).(StateRequest.operation) data) = Some text →
    db.(StateDatabase.mutations) !! identity.(MutationIdentity.operation_key) = None →
    db' = db1 <| StateDatabase.mutations ::=
            <[identity.(MutationIdentity.operation_key) :=
                MutationRow.mk
                  (StoredMutation.mk prepared.(PreparedCall.scope) identity.(MutationIdentity.operation_name)
                     prepared.(PreparedCall.request).(StateRequest.operation) prepared.(PreparedCall.key_digest) identity.(MutationIdentity.input_digest) text
                     (digest RESULT_DOMAIN text) version) now]> |> →
    execution.(DurableStateExecution.result) = state_result_value prepared.(PreparedCall.request).(StateRequest.operation) data →
    execution.(DurableStateExecution.duplicate) = false → execution.(DurableStateExecution.version) = version →
    execution.(DurableStateExecution.result_digest) = digest RESULT_DOMAIN text →
    call_outcome store db prepared db' execution.

Lemma effect_mutations limits scope kd key db db' version :
  operation_effect limits scope kd key db db' version →
  db'.(StateDatabase.mutations) = db.(StateDatabase.mutations).
Proof. intros [[-> _]|(v & row & _ & Hw & _)]; [done|]. by eapply written_mutations. Qed.

Lemma execute_outcome store db workflow_id call now_millis duration_ms db' execution :
  tables_sound store.(DurableStateStore.limits) db →
  (0 ≤ now_millis < 253402300800000)%Z → nesting call.(CapabilityCallRequest.input) ≤ 127 →
  execute store db workflow_id call now_millis duration_ms = Ok (db', execution) →
  ∃ prepared, prepare_call store workflow_id call = Ok prepared
    ∧ call_outcome store db prepared db' execution.
Proof.
  intros Hsound Hrange Hnesting Hok. unfold execute in Hok.
  apply result_bind_ok in Hok as (prepared & Hprepare & Hok). exists prepared. split; [done|].
  apply result_bind_ok in Hok as ([] & _ & Hok).
  assert (execute_fresh store db prepared now_millis duration_ms = Ok (db', execution) →
    call_outcome store db prepared db' execution) as Hfresh; [clear Hok; intros Hok|].
  { unfold execute_fresh in Hok.
    apply result_bind_ok in Hok as (now & Hnow & Hok).
    apply result_bind_ok in Hok as ([[[db1 data] version] bytes] & Happly & Hok).
    apply result_bind_ok in Hok as (text & Htext & Hok).
    apply result_bind_ok in Hok as (db2 & Hinsert & Hok). simplify_eq.
    pose proof (prepared_context _ _ _ _ _ _ Hprepare Hrange Hnow) as Hcall.
    apply prepare_call_ok in Hprepare as (Hparse & _ & _ & _ & _ & _ & Hmutation).
    apply parse_request_ok in Hparse as [Hparse _]. apply nesting_input in Hparse.
    assert (nesting (Value.Object prepared.(PreparedCall.request).(StateRequest.input)) ≤ 126) as Hinput by lia.
    destruct (apply_operation_effect _ _ _ _ _ _ _ _ _ _ _ Hsound Hcall Hinput Happly)
      as [Heffect Hdata].
    destruct (is_mutation prepared.(PreparedCall.request).(StateRequest.operation)) eqn:Hop.
    - destruct Hmutation as (identity & Hid & _). rewrite Hid in Hinsert.
      apply insert_mutation_ok in Hinsert as (-> & Hnew & _).
      rewrite (effect_mutations _ _ _ _ _ _ _ Heffect) in Hnew.
      apply canonical_string_ok in Htext. by eapply outcome_committed.
    - rewrite Hmutation in Hinsert. apply Ok_inj in Hinsert as <-. destruct Hdata as [-> ->].
      by eapply outcome_read. }
  destruct prepared.(PreparedCall.mutation) as [identity|] eqn:Hmutation; [|by apply Hfresh].
  destruct (read_mutation _ _) as [stored|] eqn:Hread; [|by apply Hfresh].
  apply result_bind_ok in Hok as (execution' & Hreplay & Hok). simplify_eq.
  eapply outcome_replayed; [done|done|done|]. rewrite <-Hreplay.
  unfold replay_mutation in *. by invert_ok.
Qed.

Lemma outcome_schema store db prepared db' execution :
  call_outcome store db prepared db' execution →
  db'.(StateDatabase.store_metadata) = db.(StateDatabase.store_metadata)
  ∧ db'.(StateDatabase.sqlite_master) = db.(StateDatabase.sqlite_master)
  ∧ db'.(StateDatabase.quick_check) = db.(StateDatabase.quick_check)
  ∧ db'.(StateDatabase.foreign_key_failure) = db.(StateDatabase.foreign_key_failure).
Proof.
  destruct 1 as [| |??????????? Heffect]; subst; [done|done|]. simpl.
  destruct Heffect as [[-> _]|(v & row & _ & Hw & _)]; [done|].
  destruct (written_pragmas _ _ _ _ _ _ _ _ Hw).
  by rewrite (written_metadata _ _ _ _ _ _ _ _ Hw), (written_schema _ _ _ _ _ _ _ _ Hw).
Qed.

(** Mutations are never changed or removed. *)
Lemma outcome_mutations store db prepared db' execution operation_key row :
  call_outcome store db prepared db' execution →
  db.(StateDatabase.mutations) !! operation_key = Some row →
  db'.(StateDatabase.mutations) !! operation_key = Some row.
Proof.
  destruct 1 as [| |??????????? Heffect]; subst; [done|done|]. intros Hrow. simpl.
  rewrite (effect_mutations _ _ _ _ _ _ _ Heffect), lookup_insert_ne by congruence. done.
Qed.

(** ** Opening a store again *)

(** A store whose state tables are empty. *)
Definition new_state (db : StateDatabase) : Prop :=
  db.(StateDatabase.entries) = ∅ ∧ db.(StateDatabase.mutations) = ∅ ∧ db.(StateDatabase.quotas) = ∅.

Lemma new_state_sound limits db : new_state db → tables_sound limits db.
Proof.
  intros (Hentries & Hmutations & Hquotas).
  assert (∀ scope, scope_usage db scope = (0, 0)%N) as Husage
    by (intros; unfold scope_usage; by rewrite Hentries, map_fold_empty).
  constructor; try (intros *; rewrite ?Hentries, ?Hmutations, ?Hquotas, lookup_empty; done).
  intros scope. rewrite Husage. simpl. lia.
Qed.

Lemma open_with_ok canonical db limits db' store :
  open_with canonical db limits = Ok (db', store) →
  valid_limits limits = true ∧ store.(DurableStateStore.limits) = limits
  ∧ db'.(StateDatabase.store_metadata) !! "state_location_identity_v1"
    = Some store.(DurableStateStore.state_location_digest)
  ∧ valid_digest store.(DurableStateStore.state_location_digest) = true
  ∧ validate_store db' = Ok tt ∧ db'.(StateDatabase.quick_check) = "ok"
  ∧ db'.(StateDatabase.foreign_key_failure) = false
  ∧ db'.(StateDatabase.entries) = db.(StateDatabase.entries)
  ∧ db'.(StateDatabase.mutations) = db.(StateDatabase.mutations)
  ∧ db'.(StateDatabase.quotas) = db.(StateDatabase.quotas).
Proof.
  unfold open_with. intros Hok.
  apply result_bind_ok in Hok as ([] & Hlimits & Hok). apply fail_if_ok, negb_false_iff in Hlimits.
  set (db1 := match _ with Some _ => db | None => _ end) in Hok.
  assert (db1.(StateDatabase.entries) = db.(StateDatabase.entries)
    ∧ db1.(StateDatabase.mutations) = db.(StateDatabase.mutations)
    ∧ db1.(StateDatabase.quotas) = db.(StateDatabase.quotas)) as (? & ? & ?)
    by (unfold db1; by case_match).
  clearbody db1. apply result_bind_ok in Hok as (location & Hlocation & Hok).
  apply ok_or_ok in Hlocation.
  apply result_bind_ok in Hok as ([] & Hdigest & Hok). apply fail_if_ok, negb_false_iff in Hdigest.
  apply result_bind_ok in Hok as ([] & Hstore & Hok).
  apply result_bind_ok in Hok as ([] & Hintegrity & Hok). simplify_eq. simpl.
  unfold validate_store_integrity in Hintegrity.
  apply result_bind_ok in Hintegrity as ([] & Hquick & Hintegrity). apply fail_if_ok in Hquick.
  apply result_bind_ok in Hintegrity as ([] & Hforeign & _). apply fail_if_ok in Hforeign.
  apply negb_false_iff, bool_decide_eq_true in Hquick. split_and!; done.
Qed.

(** The tables of a store after any calls on it. *)
Record reached (store : DurableStateStore) (db : StateDatabase) : Prop := {
  reached_tables : tables_sound store.(DurableStateStore.limits) db;
  reached_limits : valid_limits store.(DurableStateStore.limits) = true;
  reached_location :
    db.(StateDatabase.store_metadata) !! "state_location_identity_v1"
    = Some store.(DurableStateStore.state_location_digest);
  reached_digest : valid_digest store.(DurableStateStore.state_location_digest) = true;
  reached_schema : validate_store db = Ok tt;
  reached_quick : db.(StateDatabase.quick_check) = "ok";
  reached_foreign : db.(StateDatabase.foreign_key_failure) = false;
}.

Lemma reached_step store db db' : state_step store db db' → reached store db → reached store db'.
Proof.
  intros Hstep Hreached. pose proof (step_sound _ _ _ Hstep (reached_tables _ _ Hreached)).
  destruct Hstep as [db db' workflow_id call now_millis duration_ms execution Hrange Hnesting Hok|]; [|done].
  destruct (execute_outcome _ _ _ _ _ _ _ _ (reached_tables _ _ Hreached) Hrange Hnesting Hok)
    as (prepared & _ & Houtcome).
  destruct (outcome_schema _ _ _ _ _ Houtcome) as (Hm & Hs & Hq & Hf).
  destruct Hreached. constructor; rewrite ?Hm, ?Hq, ?Hf; try done.
  unfold validate_store in *. by rewrite Hm, Hs.
Qed.

(** Calls on a store that was new when it was opened. *)
Definition history (canonical : string) (limits : DurableStateLimits) (store : DurableStateStore)
    (db : StateDatabase) : Prop :=
  ∃ db0 db1, new_state db0 ∧ open_with canonical db0 limits = Ok (db1, store)
    ∧ rtc (state_step store) db1 db.

Lemma history_reached canonical limits store db :
  history canonical limits store db → reached store db ∧ store.(DurableStateStore.limits) = limits.
Proof.
  intros (db0 & db1 & Hnew & Hopen & Hsteps).
  apply open_with_ok in Hopen as (Hl & <- & Hloc & Hd & Hs & Hq & Hf & He & Hm & Hquotas).
  split; [|done]. assert (reached store db1) as Hstart.
  { constructor; try done. apply new_state_sound. unfold new_state in *. by rewrite He, Hm, Hquotas. }
  clear -Hsteps Hstart H2. induction Hsteps; eauto using reached_step.
Qed.

(** Such calls whose numbers are all exact. *)
Inductive exact_step (store : DurableStateStore) : StateDatabase → StateDatabase → Prop :=
| exact_committed db db' workflow_id call now_millis duration_ms execution :
    (0 ≤ now_millis < 253402300800000)%Z → nesting call.(CapabilityCallRequest.input) ≤ 127 →
    exact_json call.(CapabilityCallRequest.input) →
    execute store db workflow_id call now_millis duration_ms = Ok (db', execution) →
    exact_step store db db'
| exact_failed db : exact_step store db db.

Definition exact_history (canonical : string) (limits : DurableStateLimits) (store : DurableStateStore)
    (db : StateDatabase) : Prop :=
  ∃ db0 db1, new_state db0 ∧ open_with canonical db0 limits = Ok (db1, store)
    ∧ rtc (exact_step store) db1 db.

Lemma exact_step_state store db db' : exact_step store db db' → state_step store db db'.
Proof. destruct 1; [by eapply step_committed|constructor]. Qed.

Lemma exact_history_history canonical limits store db :
  exact_history canonical limits store db → history canonical limits store db.
Proof.
  intros (db0 & db1 & Hnew & Hopen & Hsteps). exists db0, db1. split_and!; [done|done|].
  eapply rtc_subrel; [|done]. apply exact_step_state.
Qed.

Lemma exact_history_readable canonical limits store db :
  exact_history canonical limits store db → entries_readable db.
Proof.
  intros (db0 & db1 & (Hnew & _) & Hopen & Hsteps).
  apply open_with_ok in Hopen as (_ & _ & _ & _ & _ & _ & _ & Hentries & _).
  assert (entries_readable db1) as Hstart.
  { intros id row. by rewrite Hentries, Hnew, lookup_empty. }
  clear -Hsteps Hstart H2. induction Hsteps as [|db db1 db2 Hstep _ IH]; [done|]. apply IH.
  destruct Hstep; [by eapply execute_readable|done].
Qed.

(** ** Theorems *)

(** C23 A store that only committed calls have written passes the integrity check that opens it,
    whatever limits and path it is opened with, and keeps its identity; the quota of each scope
    counts its live keys and bytes exactly and respects the limits of the store. The numbers of
    the calls must be exact: serde_json, configured without [float_roundtrip], may read a fraction
    that the store wrote back as a number with another text, and the check refuses the store. *)
Theorem state_store_reopens canonical limits store db canonical' limits' :
  exact_history canonical limits store db → valid_limits limits' = true →
  open_with canonical' db limits'
  = Ok (db, DurableStateStore.mk canonical' store.(DurableStateStore.state_location_digest) limits')
  ∧ ∀ scope,
      default (0, 0)%N (db.(StateDatabase.quotas) !! scope) = scope_usage db scope
      ∧ ((scope_usage db scope).1 ≤ limits.(DurableStateLimits.max_keys)
         ∧ (scope_usage db scope).2 ≤ limits.(DurableStateLimits.max_bytes))%N.
Proof.
  intros Hexact Hvalid. pose proof (exact_history_readable _ _ _ _ Hexact) as Hreadable.
  apply exact_history_history, history_reached in Hexact
    as [[Hsound Hlimits Hlocation Hdigest Hschema Hquick Hforeign] <-]. split.
  - unfold open_with. rewrite Hvalid. simpl. rewrite !Hlocation. simpl.
    rewrite Hdigest. simpl. rewrite Hschema. simpl. by rewrite (tables_pass_integrity _ _ Hlimits Hsound Hreadable).
  - intros scope. split; [|by apply usage_bounded].
    destruct (db.(StateDatabase.quotas) !! scope) as [q|] eqn:Hq; simpl.
    + by apply (quotas_exact _ _ Hsound) in Hq as [_ ->].
    + by rewrite (quotas_complete _ _ Hsound).
Qed.

(** *** Replays *)

(** A stored mutation that answers a call answers every later one. *)
Lemma replay_again store db (prepared : PreparedCall) workflow_id call now_millis duration_ms
    (identity : MutationIdentity) stored execution :
  prepare_call store workflow_id call = Ok prepared → prepared.(PreparedCall.mutation) = Some identity →
  validate_store db = Ok tt → read_mutation db identity.(MutationIdentity.operation_key) = Some stored →
  replay_mutation prepared identity stored duration_ms = Ok execution →
  execute store db workflow_id call now_millis duration_ms = Ok (db, execution).
Proof.
  intros Hprepare Hmutation Hstore Hread Hreplay. unfold execute.
  rewrite Hprepare. simpl. rewrite Hstore. simpl. by rewrite Hmutation, Hread, Hreplay.
Qed.

(** The answer of a committed mutation, to the call that committed it. *)
Lemma committed_replay store db prepared db' execution (identity : MutationIdentity) :
  call_outcome store db prepared db' execution → prepared.(PreparedCall.mutation) = Some identity →
  ∃ row, db'.(StateDatabase.mutations) !! identity.(MutationIdentity.operation_key) = Some row
    ∧ (∃ text, canonical_json execution.(DurableStateExecution.result) = Some text)
    ∧ ∀ duration_ms, ∃ execution',
        replay_mutation prepared identity row.(MutationRow.stored) duration_ms = Ok execution'
        ∧ execution'.(DurableStateExecution.duplicate) = true
        ∧ execution'.(DurableStateExecution.version) = execution.(DurableStateExecution.version)
        ∧ execution'.(DurableStateExecution.result_digest) = execution.(DurableStateExecution.result_digest)
        ∧ canonical_json execution'.(DurableStateExecution.result)
          = canonical_json execution.(DurableStateExecution.result).
Proof.
  destruct 1 as [identity0 stored Hid -> Hread Hreplay|? ? ? Hnone|
    identity0 now data version bytes text db1 Hid Hop Hcontext Happly Heffect Hdata Htext Hnew ->
    Hresult Hdup Hversion Hdigest]; intros Hid'; [|congruence|].
  - assert (identity0 = identity) as -> by congruence. unfold read_mutation in Hread.
    apply fmap_Some in Hread as (row & Hrow & ->). exists row. split; [done|].
    unfold replay_mutation in Hreplay.
    apply result_bind_ok in Hreplay as ([] & Hguard & Hreplay). apply fail_if_ok in Hguard.
    apply result_bind_ok in Hreplay as (result & Hparse & Hreplay). apply ok_or_ok in Hparse.
    apply result_bind_ok in Hreplay as (rd & Hrd & Hreplay).
    apply result_bind_ok in Hreplay as ([] & Hsame & Hreplay). apply fail_if_ok in Hsame.
    apply Ok_inj in Hreplay as <-. simpl. split.
    { unfold canonical_digest in Hrd. apply result_bind_ok in Hrd as (text & Htext & _).
      exists text. by apply canonical_string_ok. }
    intros duration_ms. unfold replay_mutation. rewrite Hguard, Hparse. simpl. rewrite Hrd. simpl.
    rewrite Hsame. simpl. by eexists.
  - assert (identity0 = identity) as -> by congruence. rewrite Hresult, Hdigest, Hversion.
    eexists. split; [apply lookup_insert_eq|]. split; [by eauto|]. intros duration_ms.
    destruct (canonical_reparsed _ _ Htext) as (result' & Hparse & Hagain & _);
      [by eapply result_data_exact|by eapply result_data_nesting|].
    unfold replay_mutation, canonical_digest. simpl. rewrite !bool_decide_true by done. simpl.
    rewrite Hparse. simpl. rewrite (proj2 (canonical_string_ok result' text) Hagain). simpl.
    rewrite bool_decide_true by done. simpl. eexists. split_and!; try done. simpl. congruence.
Qed.

Lemma steps_mutations store db db' operation_key row :
  rtc (state_step store) db db' → tables_sound store.(DurableStateStore.limits) db →
  db.(StateDatabase.mutations) !! operation_key = Some row →
  db'.(StateDatabase.mutations) !! operation_key = Some row.
Proof.
  induction 1 as [|db db1 db2 Hstep Hsteps IH]; [done|]. intros Hsound Hrow.
  apply IH; [by eapply step_sound|].
  destruct Hstep as [db db1 ? ? ? ? ? Hrange Hnesting Hok|]; [|done].
  destruct (execute_outcome _ _ _ _ _ _ _ _ Hsound Hrange Hnesting Hok) as (prepared & _ & Houtcome).
  by eapply outcome_mutations.
Qed.

Lemma steps_reached store db db' :
  rtc (state_step store) db db' → reached store db → reached store db'.
Proof. induction 1; eauto using reached_step. Qed.

(** C20 A mutation commits exactly once: after it has returned, and after any other calls, the same
    call returns the recorded result again, marked as a duplicate, with the same version, digest
    and canonical text, and changes nothing. *)
Theorem mutations_commit_once canonical limits store db workflow_id call now_millis duration_ms db1
    execution db2 now_millis' duration_ms' :
  history canonical limits store db →
  (0 ≤ now_millis < 253402300800000)%Z → nesting call.(CapabilityCallRequest.input) ≤ 127 →
  execute store db workflow_id call now_millis duration_ms = Ok (db1, execution) →
  is_mutation call.(CapabilityCallRequest.operation) = true →
  rtc (state_step store) db1 db2 →
  ∃ execution' text,
    execute store db2 workflow_id call now_millis' duration_ms' = Ok (db2, execution')
    ∧ execution'.(DurableStateExecution.duplicate) = true
    ∧ execution'.(DurableStateExecution.version) = execution.(DurableStateExecution.version)
    ∧ execution'.(DurableStateExecution.result_digest) = execution.(DurableStateExecution.result_digest)
    ∧ canonical_json execution.(DurableStateExecution.result) = Some text
    ∧ canonical_json execution'.(DurableStateExecution.result) = Some text.
Proof.
  intros [Hreached _]%history_reached Hrange Hnesting Hok Hop Hsteps.
  pose proof (reached_tables _ _ Hreached) as Hsound.
  assert (reached store db1) as Hreached1
    by (eapply reached_step; [by eapply step_committed|done]).
  destruct (execute_outcome _ _ _ _ _ _ _ _ Hsound Hrange Hnesting Hok) as (prepared & Hprepare & Houtcome).
  destruct (prepare_call_ok _ _ _ _ Hprepare) as (Hparse & _ & _ & _ & _ & _ & Hmutation).
  apply parse_request_ok in Hparse as [_ Hoperation]. rewrite Hoperation, Hop in Hmutation.
  destruct Hmutation as (identity & Hid & _).
  destruct (committed_replay _ _ _ _ _ _ Houtcome Hid) as (row & Hrow & (text & Htext) & Hreplay).
  destruct (Hreplay duration_ms') as (execution' & Hr & ? & ? & ? & Hsame).
  exists execution', text. split_and!; try done; [|congruence].
  eapply replay_again; [done|done| | |done].
  - by eapply reached_schema, steps_reached.
  - unfold read_mutation. apply fmap_Some. exists row. split; [|done].
    eapply steps_mutations; [done|by apply reached_tables|done].
Qed.
End invariant.
