(* ===== verification/StateRegisters.v ===== *)
(** * Durable user state as versioned registers

    Each key of a workflow is a register: a live value with its version, and the last
    version that was ever committed.  Every committed call is a step of the register of
    its key and leaves the others alone.  From this: conditional writes lose no update,
    what is set is read back, and a store never reports corruption of its own making. *)

From stdpp Require Import pretty.
From S2P Require Import Prelude Strings Json EventTypes Guards EventIdentities PolicyTypes.
From S2P Require Import PolicyBundle PolicyDescriptors PolicyProperties DurableState.
From S2P Require Import DurableStateProperties.

Implicit Types scope key kd operation_key operation now : string.
Implicit Types db : StateDatabase.
Implicit Types store : DurableStateStore.

(** The canonical text of the live value with its version, and the last version. *)
Module Register.
Record Register := mk {
  live : option (string * N);
  last : N
}.
End Register.
Abbreviation Register := Register.Register.

Section registers.
Context `{!Externals, !PolicyExternals, !StateExternals}.

(** A conditional write expects the live version, or 0 for no live value. *)
Definition version_expected (input : Map) (register : Register) : Prop :=
  ∀ v expected, map_get input "ifVersion" = Some v → as_u64 v = Some expected →
    (expected = 0%N ∧ register.(Register.live) = None) ∨ ∃ text, register.(Register.live) = Some (text, expected).

(** The integer a register holds; an empty one counts as zero. *)
Definition register_integer (register : Register) (z : Z) : Prop :=
  match register.(Register.live) with
  | None => z = 0%Z
  | Some (text, _) => ∃ v, value_from_slice text = Some v ∧ value_as_i64 v = Some z
  end.

(** The steps of a register: the operation, the version it commits and the register after it. *)
Inductive register_step (input : Map) (register : Register) : string → option N → Register → Prop :=
| register_get : register_step input register "get" None register
| register_has : register_step input register "has" None register
| register_set value text :
    version_expected input register →
    map_get input "value" = Some value → canonical_json value = Some text →
    register_step input register "set" (Some (register.(Register.last) + 1)%N)
      (Register.mk (Some (text, register.(Register.last) + 1)%N) (register.(Register.last) + 1))
| register_delete entry :
    version_expected input register → register.(Register.live) = Some entry →
    register_step input register "delete" (Some (register.(Register.last) + 1)%N)
      (Register.mk None (register.(Register.last) + 1))
| register_delete_absent :
    version_expected input register → register.(Register.live) = None →
    register_step input register "delete" None register
| register_increment amount v z :
    version_expected input register →
    map_get input "amount" = Some v → value_as_i64 v = Some amount → register_integer register z →
    safe_integer (z + amount) = true →
    register_step input register "increment" (Some (register.(Register.last) + 1)%N)
      (Register.mk (Some (i64_to_string (z + amount), register.(Register.last) + 1)%N) (register.(Register.last) + 1))
| register_set_if_absent value text :
    register.(Register.live) = None → map_get input "value" = Some value → canonical_json value = Some text →
    register_step input register "set_if_absent" (Some (register.(Register.last) + 1)%N)
      (Register.mk (Some (text, register.(Register.last) + 1)%N) (register.(Register.last) + 1))
| register_present text version :
    register.(Register.live) = Some (text, version) →
    register_step input register "set_if_absent" (Some version) register.

(** The register of a key. *)
Definition register_of (db : StateDatabase) (scope kd key : string) : Register :=
  Register.mk
    ((λ entry, (entry.(StateEntry.value_json), entry.(StateEntry.version))) <$> read_entry db scope key)
    (default 0%N (max_committed_version db scope kd)).

(** The entry under a key, after an operation on it and in the tables before. *)
Definition others_kept (scope kd key : string) (db db' : StateDatabase) : Prop :=
  (∀ scope' key', (scope', key') ≠ (scope, key) →
     read_entry db' scope' key' = read_entry db scope' key')
  ∧ (∀ scope' kd', (scope', kd') ≠ (scope, kd) →
     max_committed_version db' scope' kd' = max_committed_version db scope' kd').

Lemma enforce_version_expected db scope kd key input :
  enforce_version input (read_entry db scope key) = Ok tt →
  version_expected input (register_of db scope kd key).
Proof.
  unfold enforce_version, version_expected. intros Hok v expected Hget Hv.
  rewrite Hget in Hok. simpl in Hok. rewrite Hv in Hok. apply fail_if_ok, negb_false_iff, orb_true_iff in Hok as [Hok|Hok].
  - apply andb_true_iff in Hok as [->%N.eqb_eq Hnone]. left. split; [done|]. simpl.
    by destruct (read_entry db scope key).
  - right. simpl. destruct (read_entry db scope key) as [entry|]; [|done].
    simpl in *. apply N.eqb_eq in Hok as <-. by eexists.
Qed.

Context `{!StateLaws}.

(** After a write, the register holds what was written under the next version. *)
Lemma written_register limits scope kd key row version db db' operation_key (mutation : MutationRow) :
  entry_written limits scope kd key row version db db' →
  db'.(StateDatabase.mutations) !! operation_key = None →
  mutation.(MutationRow.stored).(StoredMutation.scope_digest) = scope → mutation.(MutationRow.stored).(StoredMutation.key_digest) = kd →
  mutation.(MutationRow.stored).(StoredMutation.committed_version) = Some version →
  let db'' := db' <| StateDatabase.mutations ::= <[operation_key := mutation]> |> in
  version = ((register_of db scope kd key).(Register.last) + 1)%N
  ∧ register_of db'' scope kd key
    = Register.mk ((λ row, (row.(EntryRow.entry).(StateEntry.value_json), row.(EntryRow.entry).(StateEntry.version))) <$> row) version
  ∧ others_kept scope kd key db db''.
Proof.
  intros Hw Hnew Hms Hmk Hmv db''.
  pose proof (written_entries _ _ _ _ _ _ _ _ Hw) as Hentries.
  pose proof (written_version _ _ _ _ _ _ _ _ Hw) as Hversion.
  assert (∀ scope kd, max_committed_version db' scope kd = max_committed_version db scope kd) as Hmax
    by (intros; unfold max_committed_version; by rewrite (written_mutations _ _ _ _ _ _ _ _ Hw)).
  split; [done|]. unfold db''. split; [|split].
  - unfold register_of. rewrite max_recorded, Hms, Hmk, Hmv, Hmax, decide_True by done.
    f_equal.
    + unfold read_entry. simpl. rewrite Hentries. destruct row as [row|];
        [by rewrite lookup_insert_eq|by rewrite lookup_delete_eq].
    + destruct (max_committed_version db scope kd); simpl in *; lia.
  - intros scope' key' Hne. unfold read_entry. simpl. rewrite Hentries. destruct row as [row|];
      [by rewrite lookup_insert_ne by congruence|by rewrite lookup_delete_ne by congruence].
  - intros scope' kd' Hne. rewrite max_recorded, Hms, Hmk, Hmax by done.
    rewrite decide_False; [done|naive_solver].
Qed.

(** What an operation does to the register of its key, before the mutation is recorded. *)
Definition operation_register (limits : DurableStateLimits) (scope kd key : string) (input : Map)
    (operation : string) (db db' : StateDatabase) (version : option N) : Prop :=
  let register := register_of db scope kd key in
  (db' = db ∧ register_step input register operation version register)
  ∨ (∃ v row, version = Some v ∧ entry_written limits scope kd key row v db db'
       ∧ register_step input register operation version
           (Register.mk ((λ row, (row.(EntryRow.entry).(StateEntry.value_json), row.(EntryRow.entry).(StateEntry.version))) <$> row) v)).

Section operations.
Context (store : DurableStateStore) (db : StateDatabase) (scope kd key now : string) (input : Map).
Let register := register_of db scope kd key.
Let effect := operation_register store.(DurableStateStore.limits) scope kd key input.

(** A write of some text that the register accepts. *)
Lemma put_register operation text bytes db' version :
  put_entry store db scope kd key (read_entry db scope key) text bytes now = Ok (db', version) →
  register_step input register operation (Some (register.(Register.last) + 1)%N)
    (Register.mk (Some (text, register.(Register.last) + 1)%N) (register.(Register.last) + 1)) →
  effect operation db db' (Some version).
Proof.
  intros (Hw & _ & _)%put_entry_written Hstep. right. eexists _, _. split_and!; [done|done|].
  pose proof (written_version _ _ _ _ _ _ _ _ Hw) as Hv. simpl.
  change (register.(Register.last)) with (default 0 (max_committed_version db scope kd))%N in Hstep.
  by rewrite <-Hv in Hstep.
Qed.

Lemma state_value_text maximum text bytes :
  state_value input maximum = Ok (text, bytes) →
  ∃ value, map_get input "value" = Some value ∧ canonical_json value = Some text.
Proof. unfold state_value. intros Hok. invert_ok. simplify_eq. eauto. Qed.

Lemma set_register db' data version bytes :
  state_set store db scope kd key input (read_entry db scope key) now = Ok (db', data, version, bytes) →
  effect "set" db db' version.
Proof.
  unfold state_set. intros Hok. invert_ok. simplify_eq.
  match goal with H : state_value _ _ = _ |- _ => apply state_value_text in H as (value & ? & ?) end.
  eapply put_register; [done|]. econstructor; [|done|done]. by apply enforce_version_expected.
Qed.

Lemma delete_register db' data version bytes :
  state_delete store db scope kd key input (read_entry db scope key) = Ok (db', data, version, bytes) →
  effect "delete" db db' version.
Proof.
  unfold state_delete. intros Hok. apply result_bind_ok in Hok as ([] & Hversion & Hok).
  apply enforce_version_expected with (kd := kd) in Hversion.
  destruct (read_entry db scope key) as [entry|] eqn:Hread.
  - apply result_bind_ok in Hok as (v & Hnext & Hok).
    apply result_bind_ok in Hok as (db1 & Hquota & Hok). simplify_eq.
    pose proof (delete_entry_written _ _ _ _ _ _ _ _ Hread Hnext Hquota) as Hw.
    right. eexists _, None. split_and!; [done|done|].
    pose proof (written_version _ _ _ _ _ _ _ _ Hw) as ->. simpl.
    eapply (register_delete _ register); [done|]. unfold register, register_of. simpl. by rewrite Hread.
  - simplify_eq. left. split; [done|]. eapply register_delete_absent; [done|].
    unfold register_of. simpl. by rewrite Hread.
Qed.

Lemma increment_register db' data version bytes :
  state_increment store db scope kd key input (read_entry db scope key) now
    = Ok (db', data, version, bytes) →
  effect "increment" db db' version.
Proof.
  unfold state_increment. intros Hok.
  apply result_bind_ok in Hok as ([] & Hversion & Hok).
  apply enforce_version_expected with (kd := kd) in Hversion.
  apply result_bind_ok in Hok as (amount & Hamount & Hok).
  apply ok_or_ok, bind_Some in Hamount as (v & Hget & Hamount).
  apply result_bind_ok in Hok as ([] & _ & Hok).
  apply result_bind_ok in Hok as (existing & Hexisting & Hok).
  apply result_bind_ok in Hok as (sum & Hsum & Hok).
  apply ok_or_ok, bind_Some in Hsum as (sum' & Hadd & Hsum).
  destruct (safe_integer sum') eqn:Hsafe; [|done]. apply Some_inj in Hsum as ->.
  unfold i64_checked_add in Hadd. destruct (in_i64 _); simplify_eq.
  apply result_bind_ok in Hok as ([db1 version'] & Hput & Hok). simplify_eq.
  eapply put_register; [done|]. econstructor; [done|done|done| |done].
  unfold register_integer, register, register_of. simpl.
  destruct (read_entry db scope key) as [entry|]; simpl; [|by simplify_eq].
  unfold parse_safe_integer in Hexisting.
  apply result_bind_ok in Hexisting as (w & Hw & Hexisting). apply ok_or_ok in Hw.
  exists w. split; [done|]. destruct (value_as_i64 w); by repeat (case_match; simplify_eq).
Qed.

Lemma set_if_absent_register db' data version bytes :
  state_set_if_absent store db scope kd key input (read_entry db scope key) now
    = Ok (db', data, version, bytes) →
  effect "set_if_absent" db db' version.
Proof.
  unfold state_set_if_absent. destruct (read_entry db scope key) as [entry|] eqn:Hread; intros Hok.
  - invert_ok. simplify_eq. left. split; [done|]. eapply register_present.
    unfold register_of. simpl. by rewrite Hread.
  - apply result_bind_ok in Hok as ([text size] & Hvalue & Hok).
    apply result_bind_ok in Hok as ([db1 version'] & Hput & Hok). invert_ok. simplify_eq.
    apply state_value_text in Hvalue as (value & ? & ?). rewrite <-Hread in Hput.
    eapply put_register; [done|]. econstructor; [|done|done].
    unfold register, register_of. simpl. by rewrite Hread.
Qed.
End operations.

Lemma apply_operation_register store db scope kd key now (request : StateRequest) db' data version bytes :
  apply_operation store db scope kd key request (read_entry db scope key) now
    = Ok (db', data, version, bytes) →
  operation_register store.(DurableStateStore.limits) scope kd key request.(StateRequest.input) request.(StateRequest.operation)
    db db' version.
Proof.
  unfold apply_operation.
  repeat (let Hop := fresh "Hop" in case_bool_decide as Hop);
    repeat match goal with
    | H : StateRequest.operation _ = _ |- _ => rewrite H; clear H
    | H : StateRequest.operation _ ≠ _ |- _ => clear H
    end; intros Hok.
  - unfold state_get in Hok. invert_ok; simplify_eq; left; (split; [done|constructor]).
  - unfold state_has in Hok. invert_ok; simplify_eq; left; (split; [done|constructor]).
  - by eapply set_register.
  - by eapply delete_register.
  - by eapply increment_register.
  - by eapply set_if_absent_register.
  - done.
Qed.

(** A step that leaves its register commits no version or that of the live value. *)
Lemma register_step_same input register operation version :
  register_step input register operation version register →
  version = None ∨ ∃ text v, register.(Register.live) = Some (text, v) ∧ version = Some v.
Proof.
  intros Hstep. remember register as register' eqn:Heq in Hstep at 2.
  destruct Hstep; simplify_eq; eauto;
    by apply (f_equal Register.last) in Heq; simpl in Heq; lia.
Qed.

Lemma replay_duplicate prepared identity stored duration_ms execution :
  replay_mutation prepared identity stored duration_ms = Ok execution →
  execution.(DurableStateExecution.duplicate) = true.
Proof. unfold replay_mutation. intros Hok. by invert_ok. Qed.

Lemma execute_register store db workflow_id call now_millis duration_ms db'
    execution :
  tables_sound store.(DurableStateStore.limits) db →
  (0 ≤ now_millis < 253402300800000)%Z → nesting call.(CapabilityCallRequest.input) ≤ 127 →
  execute store db workflow_id call now_millis duration_ms = Ok (db', execution) →
  if execution.(DurableStateExecution.duplicate) then db' = db
  else ∃ request key,
    parse_request call.(CapabilityCallRequest.input) call.(CapabilityCallRequest.operation) = Ok request
    ∧ state_key request.(StateRequest.input) = Ok key
    ∧ let scope := scope_digest store workflow_id in
      let kd := digest KEY_DOMAIN key in
      register_step request.(StateRequest.input) (register_of db scope kd key) request.(StateRequest.operation)
        execution.(DurableStateExecution.version) (register_of db' scope kd key)
      ∧ others_kept scope kd key db db'.
Proof.
  intros Hsound Hrange Hnesting Hok.
  destruct (execute_outcome _ _ _ _ _ _ _ _ Hsound Hrange Hnesting Hok) as (prepared & Hprepare & Houtcome).
  destruct (prepare_call_ok _ _ _ _ Hprepare) as (Hparse & Hscope & Hkey & Hkd & _).
  destruct Houtcome as [identity stored _ -> _ Hreplay|now data bytes _ -> Happly _ Hdup Hversion|
    identity now data version bytes text db1 Hid Hop Hcontext Happly Heffect Hdata Htext Hnew ->
    Hresult Hdup Hversion Hdigest].
  - by rewrite (replay_duplicate _ _ _ _ _ Hreplay).
  - rewrite Hdup, Hversion. eexists _, _. split; [done|]. split; [done|]. simpl.
    rewrite <-Hscope, <-Hkd. split; [|by split].
    apply apply_operation_register in Happly as [[_ Hstep]|(v & row & [=] & _)]. done.
  - rewrite Hdup, Hversion. eexists _, _. split; [done|]. split; [done|]. simpl.
    rewrite <-Hscope, <-Hkd. rewrite <-(effect_mutations _ _ _ _ _ _ _ Heffect) in Hnew.
    destruct (apply_operation_register _ _ _ _ _ _ _ _ _ _ _ Happly)
      as [[-> Hstep]|(v & row & -> & Hw & Hstep)].
    + assert (version = None ∨ ∃ row,
        db.(StateDatabase.entries) !! (prepared.(PreparedCall.scope), prepared.(PreparedCall.key)) = Some row
        ∧ version = Some row.(EntryRow.entry).(StateEntry.version)) as Hlive.
      { apply register_step_same in Hstep as [->|(live & v & Hv & ->)]; [by left|right].
        unfold register_of, read_entry in Hv. simpl in Hv.
        destruct (db.(StateDatabase.entries) !! _) as [row|]; [|done]. simpl in Hv. simplify_eq. eauto. }
      match goal with |- context [<[_ := ?mutation]>] =>
        pose proof (max_unchanged _ _ _ _ _ _ mutation Hsound Hkd Hnew eq_refl eq_refl Hlive) as Hmax end.
      split; [|split; [done|intros; apply Hmax]].
      eassert (register_of (db <| StateDatabase.mutations ::= _ |>) _ _ _ = register_of db _ _ _)
        as ->; [unfold register_of; by rewrite Hmax|done].
    + match goal with |- context [<[_ := ?mutation]>] =>
        destruct (written_register _ _ _ _ _ _ _ _ _ mutation Hw Hnew eq_refl eq_refl eq_refl)
          as (Hlast & -> & Hothers) end.
      by split.
Qed.

(** C21 Every call that is not a replay is one step of the register of its key, under the version it
    returns, and leaves every other register as it is: an entry changes only with the next version
    of its key, a conditional write only when it expects the live version.  A replay changes
    nothing. *)
Theorem calls_refine_registers canonical limits store db workflow_id call now_millis duration_ms db'
    execution :
  history canonical limits store db →
  (0 ≤ now_millis < 253402300800000)%Z → nesting call.(CapabilityCallRequest.input) ≤ 127 →
  execute store db workflow_id call now_millis duration_ms = Ok (db', execution) →
  if execution.(DurableStateExecution.duplicate) then db' = db
  else ∃ request key,
    parse_request call.(CapabilityCallRequest.input) call.(CapabilityCallRequest.operation) = Ok request
    ∧ state_key request.(StateRequest.input) = Ok key
    ∧ let scope := scope_digest store workflow_id in
      let kd := digest KEY_DOMAIN key in
      register_step request.(StateRequest.input) (register_of db scope kd key) request.(StateRequest.operation)
        execution.(DurableStateExecution.version) (register_of db' scope kd key)
      ∧ others_kept scope kd key db db'.
Proof.
  intros [Hreached _]%history_reached. intros. eapply execute_register; [|done..].
  by apply reached_tables.
Qed.

(** The version of a live value is the last version of its key. *)
Lemma live_last limits db scope kd key text v :
  tables_sound limits db → kd = digest KEY_DOMAIN key →
  (register_of db scope kd key).(Register.live) = Some (text, v) →
  (register_of db scope kd key).(Register.last) = v.
Proof.
  intros Hsound -> Hlive. unfold register_of, read_entry in *. simpl in *.
  destruct (db.(StateDatabase.entries) !! (scope, key)) as [row|] eqn:Hrow; [|done].
  simpl in Hlive. simplify_eq.
  pose proof (entry_digest _ _ _ (entries_sound _ _ Hsound _ _ _ Hrow)) as <-.
  by rewrite (versions_live _ _ Hsound _ _ _ Hrow).
Qed.

(** *** Conditional writes *)

Lemma register_step_last input register operation version register' :
  register_step input register operation version register' →
  (register.(Register.last) ≤ register'.(Register.last))%N.
Proof. destruct 1; simpl; lia. Qed.

Lemma steps_last store db db' scope kd :
  rtc (state_step store) db db' → tables_sound store.(DurableStateStore.limits) db →
  (default 0 (max_committed_version db scope kd) ≤ default 0 (max_committed_version db' scope kd))%N.
Proof.
  induction 1 as [|db db1 db2 Hstep Hsteps IH]; [done|]. intros Hsound.
  specialize (IH (step_sound _ _ _ Hstep Hsound)).
  enough (default 0 (max_committed_version db scope kd)
          ≤ default 0 (max_committed_version db1 scope kd))%N by lia.
  destruct Hstep as [db db1 workflow_id call ? ? execution Hrange Hnesting Hok|]; [|done].
  pose proof (execute_register _ _ _ _ _ _ _ _ Hsound Hrange Hnesting Hok) as Hcall.
  destruct (DurableStateExecution.duplicate execution); [by subst|].
  destruct Hcall as (request & key & _ & _ & Hregister & _ & Hothers).
  destruct (decide ((scope, kd) = (scope_digest store workflow_id, digest KEY_DOMAIN key)))
    as [[= -> ->]|Hne]; [by apply register_step_last in Hregister|].
  by rewrite Hothers.
Qed.

Lemma map_get_key (m : Map) k v : map_get m k = Some v → k ∈ m.*1.
Proof.
  induction m as [|[k' v'] m IH]; [done|]. simpl. case_decide; subst; [left|]. right. auto.
Qed.

(** Only conditional operations carry an expected version. *)
Lemma conditional_step input operation (request : StateRequest) v register version register' :
  parse_request input operation = Ok request → map_get request.(StateRequest.input) "ifVersion" = Some v →
  register_step request.(StateRequest.input) register request.(StateRequest.operation) version register' →
  is_Some (as_u64 v) ∧ version_expected request.(StateRequest.input) register
  ∧ (register.(Register.live) ≠ None → register'.(Register.last) = (register.(Register.last) + 1)%N).
Proof.
  unfold parse_request. intros Hok Hv Hstep.
  repeat (apply result_bind_ok in Hok as (? & ? & Hok)). apply Ok_inj in Hok as ->.
  match goal with H : if_some _ _ = _ |- _ => rename H into Hif end.
  rewrite Hv in Hif. simpl in Hif. apply fail_if_ok, negb_false_iff in Hif.
  split; [by destruct (as_u64 v)|].
  match goal with H : fail_if (existsb _ _ || _ || _ || _) _ = _ |- _ =>
    apply fail_if_ok in H; rename H into Hallowed end.
  match goal with H : ok_or (allowed_state_fields _) _ = Ok ?fields |- _ =>
    apply ok_or_ok in H; rename H into Hfields; rename fields into allowed end.
  apply orb_false_iff in Hallowed as [Hallowed _]. apply orb_false_iff in Hallowed as [Hallowed _].
  apply orb_false_iff in Hallowed as [Hallowed _].
  assert ("ifVersion" ∈ allowed) as Hin.
  { apply map_get_key in Hv. apply not_true_iff_false in Hallowed.
    destruct (decide ("ifVersion" ∈ allowed)) as [|Hnot]; [done|]. destruct Hallowed.
    apply existsb_exists. exists "ifVersion". split; [by apply list_elem_of_In|].
    by rewrite bool_decide_eq_false_2. }
  revert Hfields Hstep. generalize (request.(StateRequest.operation)) as op. intros op Hfields Hstep.
  destruct Hstep; simpl; (split; [try done|try done]); exfalso;
    unfold allowed_state_fields in Hfields; simpl in Hfields; simplify_eq; set_solver.
Qed.

Lemma live_none db scope kd key :
  (register_of db scope kd key).(Register.live) = None → read_entry db scope key = None.
Proof. unfold register_of. simpl. by destruct (read_entry db scope key). Qed.

Lemma live_positive limits db scope kd key text v :
  tables_sound limits db → (register_of db scope kd key).(Register.live) = Some (text, v) → (1 ≤ v)%N.
Proof.
  unfold register_of. simpl. intros Hsound (entry & Hread & [= _ ->])%fmap_Some.
  destruct (read_entry_sound _ _ _ _ _ Hsound Hread) as (row & _ & -> & Hentry). apply Hentry.
Qed.

(** C22 Conditional writes lose no update: after a call that expected version [v] of a key has
    committed, and after any other calls, a call that expects version [v] of that key and succeeds
    is a replay. Version 0 expects a key without a value: a second such call commits only when
    the key has no value again. *)
Theorem no_lost_updates canonical limits store db workflow_id call1 request1 millis1
    duration1 db1 execution1 db2 call2 request2 millis2 duration2 db3 execution2 key v1 v2 v :
  history canonical limits store db →
  (0 ≤ millis1 < 253402300800000)%Z → nesting call1.(CapabilityCallRequest.input) ≤ 127 →
  (0 ≤ millis2 < 253402300800000)%Z → nesting call2.(CapabilityCallRequest.input) ≤ 127 →
  parse_request call1.(CapabilityCallRequest.input) call1.(CapabilityCallRequest.operation) = Ok request1 →
  parse_request call2.(CapabilityCallRequest.input) call2.(CapabilityCallRequest.operation) = Ok request2 →
  state_key request1.(StateRequest.input) = Ok key → state_key request2.(StateRequest.input) = Ok key →
  map_get request1.(StateRequest.input) "ifVersion" = Some v1 → as_u64 v1 = Some v →
  map_get request2.(StateRequest.input) "ifVersion" = Some v2 → as_u64 v2 = Some v →
  execute store db workflow_id call1 millis1 duration1 = Ok (db1, execution1) →
  execution1.(DurableStateExecution.duplicate) = false →
  rtc (state_step store) db1 db2 →
  execute store db2 workflow_id call2 millis2 duration2 = Ok (db3, execution2) →
  execution2.(DurableStateExecution.duplicate) = true
  ∨ v = 0%N ∧ read_entry db2 (scope_digest store workflow_id) key = None.
Proof.
  intros [Hreached _]%history_reached Hnow1 Hn1 Hnow2 Hn2 Hp1 Hp2 Hk1 Hk2 Hv1 Hu1 Hv2 Hu2 Hok1 Hdup1
    Hsteps Hok2.
  pose proof (reached_tables _ _ Hreached) as Hsound.
  pose proof (execute_sound _ _ _ _ _ _ _ _ Hsound Hnow1 Hn1 Hok1) as Hsound1.
  pose proof (steps_sound _ _ _ Hsteps Hsound1) as Hsound2.
  pose proof (execute_register _ _ _ _ _ _ _ _ Hsound Hnow1 Hn1 Hok1) as Hcall1.
  rewrite Hdup1 in Hcall1. destruct Hcall1 as (r1 & k1 & Hr1 & Hk1' & Hstep1 & _).
  rewrite Hp1 in Hr1. apply Ok_inj in Hr1 as <-. rewrite Hk1 in Hk1'. apply Ok_inj in Hk1' as <-.
  destruct execution2.(DurableStateExecution.duplicate) eqn:Hdup2; [by left|right].
  pose proof (execute_register _ _ _ _ _ _ _ _ Hsound2 Hnow2 Hn2 Hok2) as Hcall2.
  rewrite Hdup2 in Hcall2. destruct Hcall2 as (r2 & k2 & Hr2 & Hk2' & Hstep2 & _).
  rewrite Hp2 in Hr2. apply Ok_inj in Hr2 as <-. rewrite Hk2 in Hk2'. apply Ok_inj in Hk2' as <-.
  set (scope := scope_digest store workflow_id) in *. set (kd := digest KEY_DOMAIN key) in *.
  destruct (conditional_step _ _ _ _ _ _ _ Hp1 Hv1 Hstep1) as (_ & Hexpect1 & Hnext).
  destruct (conditional_step _ _ _ _ _ _ _ Hp2 Hv2 Hstep2) as (_ & Hexpect2 & _).
  destruct (Hexpect2 _ _ Hv2 Hu2) as [[-> Hnone]|[text2 Hlive2]]; [by split; [|eapply live_none]|exfalso].
  pose proof (live_positive _ _ _ _ _ _ _ Hsound2 Hlive2).
  destruct (Hexpect1 _ _ Hv1 Hu1) as [[-> _]|[text1 Hlive1]]; [lia|].
  specialize (Hnext ltac:(congruence)). rewrite (live_last _ _ scope kd key _ _ Hsound eq_refl Hlive1) in Hnext.
  pose proof (steps_last _ _ _ scope kd Hsteps Hsound1) as Hmono.
  pose proof (live_last _ _ scope kd key _ _ Hsound2 eq_refl Hlive2) as Hlast2. unfold register_of in Hnext, Hlast2. simpl in *. lia.
Qed.

(** *** Reading back *)

(** While a version of a key is live, its value is the one committed under that version. *)
Lemma steps_live store db db' scope kd key text v :
  kd = digest KEY_DOMAIN key →
  rtc (state_step store) db db' → tables_sound store.(DurableStateStore.limits) db →
  (register_of db scope kd key).(Register.live) = Some (text, v)
  ∨ (v < (register_of db scope kd key).(Register.last))%N →
  (register_of db' scope kd key).(Register.live) = Some (text, v)
  ∨ (v < (register_of db' scope kd key).(Register.last))%N.
Proof.
  intros Hkd. induction 1 as [|db db1 db2 Hstep Hsteps IH]; [done|]. intros Hsound Hlive.
  apply IH; [by eapply step_sound|].
  pose proof (steps_last store db db1 scope kd (rtc_once _ _ Hstep) Hsound) as Hmono.
  destruct Hlive as [Hlive|Hlive]; [|right; unfold register_of in *; simpl in *; lia].
  destruct Hstep as [db db1 workflow_id call ? ? execution Hrange Hnesting Hok|]; [|by left].
  pose proof (execute_register _ _ _ _ _ _ _ _ Hsound Hrange Hnesting Hok) as Hcall.
  destruct (DurableStateExecution.duplicate execution); [subst; by left|].
  destruct Hcall as (request & key' & _ & _ & Hregister & Hothers & _).
  destruct (decide ((scope, key) = (scope_digest store workflow_id, key'))) as [[= -> ->]|Hne].
  - rewrite <-Hkd in Hregister. pose proof (live_last _ _ _ _ _ _ _ Hsound Hkd Hlive) as Hlast.
    clear -Hregister Hlive Hlast. revert Hregister Hlive Hlast.
    generalize (register_of db1 (scope_digest store workflow_id) kd key').
    generalize (register_of db (scope_digest store workflow_id) kd key').
    intros register register' Hregister Hlive Hlast.
    destruct Hregister; simpl; rewrite ?Hlast; (by left) || (right; lia).
  - left. unfold register_of in *. simpl in *. by rewrite Hothers.
Qed.

(** A get of a live entry returns its value. *)
Lemma get_returns store db workflow_id call (prepared : PreparedCall) now_millis duration_ms now entry :
  reached store db → canonicalizer_total →
  prepare_call store workflow_id call = Ok prepared → prepared.(PreparedCall.request).(StateRequest.operation) = "get" →
  read_entry db prepared.(PreparedCall.scope) prepared.(PreparedCall.key) = Some entry → state_timestamp now_millis = Ok now →
  stored_json entry.(StateEntry.value_json) →
  ∃ value execution,
    execute store db workflow_id call now_millis duration_ms = Ok (db, execution)
    ∧ value_from_slice entry.(StateEntry.value_json) = Some value
    ∧ execution.(DurableStateExecution.result)
      = state_result_value "get"
          (Value.Object [("found", Value.Bool true); ("value", value);
             ("version", json_number entry.(StateEntry.version));
             ("updatedAt", Value.String entry.(StateEntry.updated_at))]).
Proof.
  intros Hreached Htotal Hprepare Hop Hread Hnow (value & Hvalue & Hcanonical).
  destruct (prepare_call_ok _ _ _ _ Hprepare) as (_ & _ & _ & _ & _ & _ & Hmutation).
  rewrite Hop in Hmutation. simpl in Hmutation.
  set (data := Value.Object [("found", Value.Bool true); ("value", value);
    ("version", json_number entry.(StateEntry.version));
    ("updatedAt", Value.String entry.(StateEntry.updated_at))]).
  destruct (Htotal (state_result_value "get" data)) as [text Htext]. apply canonical_string_ok in Htext.
  eexists value, _. split_and!; [|done|].
  - unfold execute. rewrite Hprepare. simpl. rewrite (reached_schema _ _ Hreached). simpl.
    rewrite Hmutation. unfold execute_fresh. rewrite Hnow. simpl. rewrite Hread.
    unfold apply_operation. rewrite Hop. simpl. unfold parse_stored_value. rewrite Hvalue. simpl.
    rewrite Hcanonical. simpl. rewrite bool_decide_true by done. simpl. fold data.
    rewrite Htext. simpl. by rewrite Hmutation.
  - done.
Qed.

(** C37 What is set is read back: as long as the version that a set committed is live, whatever calls
    came in between, a get of the key returns that version with a value that has the canonical
    text of the value that was set, equal to it up to the order of fields and the representation
    of large and fractional numbers. The numbers of the value that was set must be exact (their
    canonical text is read back to a number with that text), which serde_json guarantees for
    integers but, as it is configured, not for fractions; nothing is asked of the other calls. *)
Theorem values_read_back canonical limits store db workflow_id call request key value
    now_millis duration_ms db1 execution db2 entry get_call (prepared : PreparedCall)
    now_millis' duration_ms' now' :
  history canonical limits store db → canonicalizer_total →
  (0 ≤ now_millis < 253402300800000)%Z → nesting call.(CapabilityCallRequest.input) ≤ 127 →
  call.(CapabilityCallRequest.operation) = "set" →
  parse_request call.(CapabilityCallRequest.input) "set" = Ok request →
  state_key request.(StateRequest.input) = Ok key → map_get request.(StateRequest.input) "value" = Some value →
  exact_json value →
  execute store db workflow_id call now_millis duration_ms = Ok (db1, execution) →
  execution.(DurableStateExecution.duplicate) = false →
  rtc (state_step store) db1 db2 →
  read_entry db2 (scope_digest store workflow_id) key = Some entry →
  execution.(DurableStateExecution.version) = Some entry.(StateEntry.version) →
  prepare_call store workflow_id get_call = Ok prepared → prepared.(PreparedCall.request).(StateRequest.operation) = "get" →
  prepared.(PreparedCall.key) = key → state_timestamp now_millis' = Ok now' →
  ∃ value' execution',
    execute store db2 workflow_id get_call now_millis' duration_ms' = Ok (db2, execution')
    ∧ execution'.(DurableStateExecution.result)
      = state_result_value "get"
          (Value.Object [("found", Value.Bool true); ("value", value');
             ("version", json_number entry.(StateEntry.version));
             ("updatedAt", Value.String entry.(StateEntry.updated_at))])
    ∧ canonical_json value' = canonical_json value ∧ same_json value value'.
Proof.
  intros [Hreached _]%history_reached Htotal Hrange Hnesting Hop Hparse Hkey Hvalue Hexact Hok Hdup Hsteps
    Hread Hversion Hprepare Hget Hkey' Hnow'.
  pose proof (reached_tables _ _ Hreached) as Hsound.
  pose proof (execute_sound _ _ _ _ _ _ _ _ Hsound Hrange Hnesting Hok) as Hsound1.
  pose proof (execute_register _ _ _ _ _ _ _ _ Hsound Hrange Hnesting Hok) as Hcall.
  rewrite Hdup in Hcall. destruct Hcall as (r & k & Hr & Hk & Hstep & _).
  rewrite Hop, Hparse in Hr. apply Ok_inj in Hr as <-. rewrite Hkey in Hk. apply Ok_inj in Hk as <-.
  set (scope := scope_digest store workflow_id) in *. set (kd := digest KEY_DOMAIN key) in *.
  apply parse_request_ok in Hparse as [Hparse Hset]. rewrite Hset, Hversion in Hstep.
  assert (∃ text, canonical_json value = Some text
    ∧ (register_of db1 scope kd key).(Register.live) = Some (text, entry.(StateEntry.version)))
    as (text & Htext & Hlive).
  { remember (register_of db1 scope kd key) as r'. inversion Hstep; subst; simpl in *; simplify_eq. eauto. }
  assert (reached store db2) as Hreached2.
  { eapply steps_reached; [done|]. eapply reached_step; [by eapply step_committed|done]. }
  (* the live text is the one that was set *)
  assert (entry.(StateEntry.value_json) = text) as Hsame.
  { assert ((register_of db2 scope kd key).(Register.live)
      = Some (entry.(StateEntry.value_json), entry.(StateEntry.version))) as Hnow.
    { unfold register_of. simpl. by rewrite Hread. }
    destruct (steps_live _ _ _ scope kd key text entry.(StateEntry.version) eq_refl Hsteps Hsound1
      (or_introl Hlive)) as [Hstill|Hlater]; [congruence|].
    rewrite (live_last _ _ scope kd key _ _ (reached_tables _ _ Hreached2) eq_refl Hnow) in Hlater. lia. }
  apply nesting_input in Hparse. apply nesting_field in Hvalue.
  destruct (canonical_reparsed _ _ Htext Hexact) as (w & Hw & Hagain & Heq); [lia|].
  destruct (get_returns _ _ _ _ _ now_millis' duration_ms' now' entry Hreached2 Htotal Hprepare Hget) as
    (value' & execution' & Hexecute & Hparsed & Hresult); [|done| |].
  { destruct (prepare_call_ok _ _ _ _ Hprepare) as (_ & -> & _). by rewrite Hkey'. }
  { rewrite Hsame. exists w. split; [done|]. by apply canonical_string_ok. }
  exists value', execution'. split; [done|]. split; [done|].
  rewrite Hsame, Hw in Hparsed. apply Some_inj in Hparsed as <-. split; [congruence|done].
Qed.

(** *** Reports of corruption *)

Definition not_corrupt {A} (m : state_result A) : Prop := m ≠ Err DurableStateError.StoreCorrupt.

Lemma not_corrupt_bind {A B} (k : A → state_result B) (m : state_result A) :
  not_corrupt m → (∀ a, m = Ok a → not_corrupt (k a)) → not_corrupt (result_bind k m).
Proof. intros Hm Hk [?|(a & Ha & He)]%result_bind_err; [done|]. by apply (Hk a). Qed.

Lemma not_corrupt_fail_if c e : e ≠ DurableStateError.StoreCorrupt → not_corrupt (fail_if c e).
Proof. by intros He [_ ->]%fail_if_err. Qed.

Lemma not_corrupt_ok_or {A} (o : option A) e : e ≠ DurableStateError.StoreCorrupt → not_corrupt (ok_or o e).
Proof. by intros He [_ ->]%ok_or_err. Qed.

Lemma not_corrupt_canonical value : not_corrupt (canonical_string value).
Proof.
  unfold canonical_string. apply not_corrupt_bind; [by apply not_corrupt_ok_or|]. intros text _.
  apply not_corrupt_bind; [by apply not_corrupt_fail_if|done].
Qed.

Ltac not_corrupt_step :=
  first [ apply not_corrupt_bind; [|intros ? ?] | apply not_corrupt_fail_if; done
        | apply not_corrupt_ok_or; done | apply not_corrupt_canonical | done ].

Lemma not_corrupt_parse input operation : not_corrupt (parse_request input operation).
Proof.
  unfold parse_request, state_key, if_some. repeat not_corrupt_step.
  case_match; repeat not_corrupt_step.
Qed.

Lemma not_corrupt_prepare store workflow_id call : not_corrupt (prepare_call store workflow_id call).
Proof.
  unfold prepare_call, capability_request_validate, validate_mutation_identity, state_key.
  apply not_corrupt_bind; [repeat not_corrupt_step|intros ? _].
  apply not_corrupt_bind; [by destruct (fail_if _ _)|intros ? _].
  apply not_corrupt_bind; [repeat not_corrupt_step|intros ? _].
  apply not_corrupt_bind; [apply not_corrupt_parse|intros request _].
  repeat not_corrupt_step. case_match; repeat not_corrupt_step.
Qed.

Lemma not_corrupt_stored text : stored_json text → not_corrupt (parse_stored_value text).
Proof.
  intros (v & Hv & Hcanonical). unfold parse_stored_value. rewrite Hv. simpl. rewrite Hcanonical. simpl.
  by rewrite bool_decide_true.
Qed.

Section sound_tables.
Context (store : DurableStateStore) (db : StateDatabase) (scope key : string).
Context (Hreached : reached store db) (Hreadable : entries_readable db).
Context (Hexhausted : ∀ kd v, max_committed_version db scope kd = Some v → (v < MAX_STATE_SAFE_INTEGER)%N).
Let kd := digest KEY_DOMAIN key.
Let Hsound := reached_tables _ _ Hreached.

Lemma not_corrupt_next : not_corrupt (next_version db scope kd (read_entry db scope key)).
Proof.
  unfold next_version. intros Hcorrupt. apply result_bind_err in Hcorrupt as [Hcorrupt|([] & _ & Hcorrupt)].
  - apply fail_if_err in Hcorrupt as [Hstale _].
    destruct (read_entry db scope key) as [entry|] eqn:Hread; [|done]. simpl in Hstale.
    apply negb_true_iff, bool_decide_eq_false in Hstale.
    destruct (read_entry_sound _ _ _ _ _ Hsound Hread) as (row & Hrow & -> & Hentry).
    apply Hstale. unfold kd. rewrite <-(entry_digest _ _ _ Hentry). by apply (versions_live _ _ Hsound _ key).
  - apply ok_or_err in Hcorrupt as [Hnone _]. unfold u64_checked_add in Hnone.
    assert (default 0 (max_committed_version db scope kd) < MAX_STATE_SAFE_INTEGER)%N as Hlast
      by (destruct (max_committed_version db scope kd) eqn:E; [by eapply Hexhausted|]; simpl;
          unfold MAX_STATE_SAFE_INTEGER; lia).
    assert (MAX_STATE_SAFE_INTEGER < usize_modulus)%N as Hwidth
      by (unfold MAX_STATE_SAFE_INTEGER, usize_modulus; lia).
    clear -Hnone Hlast Hwidth. revert Hnone Hlast. generalize (default 0%N (max_committed_version db scope kd)).
    intros m Hnone Hlast. destruct (m + 1 <? usize_modulus)%N eqn:Hfits; [|simplify_guards; lia].
    cbn [mbind option_bind] in Hnone.
    destruct (m + 1 <=? MAX_STATE_SAFE_INTEGER)%N eqn:Hsafe; [done|simplify_guards; lia].
Qed.

(** The entry of a key counts in the usage of its scope. *)
Lemma entry_counted entry :
  read_entry db scope key = Some entry →
  (1 ≤ (scope_usage db scope).1 ∧ entry.(StateEntry.value_bytes) ≤ (scope_usage db scope).2)%N.
Proof.
  unfold read_entry. intros Hread. apply fmap_Some in Hread as (row & Hrow & ->).
  pose proof (usage_removed db.(StateDatabase.entries) scope key scope row Hrow) as Husage. simpl in Husage.
  rewrite decide_True in Husage by done. unfold scope_usage. lia.
Qed.

Lemma checked_sub_ok a b : (b ≤ a)%N → u64_checked_sub a b = Some (a - b)%N.
Proof. unfold u64_checked_sub. intros ?%N.leb_le. by destruct (b <=? a)%N. Qed.
Lemma checked_add_ok a b : (a + b < usize_modulus)%N → u64_checked_add a b = Some (a + b)%N.
Proof. unfold u64_checked_add. intros ?%N.ltb_lt. by destruct (a + b <? usize_modulus)%N. Qed.

Lemma not_corrupt_quota bytes :
  (default 0 bytes ≤ 2 * MAX_STATE_SAFE_INTEGER)%N →
  not_corrupt (enforce_quota db scope (read_entry db scope key) bytes store.(DurableStateStore.limits)).
Proof.
  intros Hbytes. unfold enforce_quota, write_quota. pose proof entry_counted as Hcounted.
  pose proof (usage_bounded _ _ Hsound scope) as Hbound.
  pose proof (reached_limits _ _ Hreached) as Hlimits. unfold valid_limits, in_range in Hlimits.
  unfold DEFAULT_STATE_MAX_KEYS, DEFAULT_STATE_MAX_BYTES in Hlimits. simplify_guards.
  apply not_corrupt_bind; [|intros _ _; apply not_corrupt_bind; [|intros keys _; apply not_corrupt_bind;
    [|intros size _; repeat not_corrupt_step]]].
  - intros [Hstale _]%fail_if_err. apply orb_true_iff in Hstale as [Hstale|Hstale].
    + destruct (db.(StateDatabase.quotas) !! scope) as [q|] eqn:Hq; [|done]. simpl in Hstale.
      apply (quotas_exact _ _ Hsound) in Hq as [_ ->]. by rewrite bool_decide_true in Hstale.
    + apply andb_true_iff in Hstale as [Hnone Hne].
      destruct (db.(StateDatabase.quotas) !! scope) as [q|] eqn:Hq; [done|].
      rewrite (quotas_complete _ _ Hsound _ Hq), bool_decide_true in Hne by done. done.
  - assert ((scope_usage db scope).1 + 1 < usize_modulus)%N as Hkeys by (unfold usize_modulus; lia).
    destruct (read_entry db scope key) as [entry|], bytes; try done.
    + destruct (Hcounted entry eq_refl). by rewrite checked_sub_ok.
    + by rewrite checked_add_ok.
  - rewrite checked_sub_ok by (destruct (read_entry db scope key); [by apply Hcounted|simpl; lia]).
    cbn [mbind option_bind]. rewrite checked_add_ok; [done|].
    unfold usize_modulus, MAX_STATE_SAFE_INTEGER in *. lia.
Qed.

Lemma not_corrupt_put text bytes now :
  (bytes ≤ 2 * MAX_STATE_SAFE_INTEGER)%N →
  not_corrupt (put_entry store db scope kd key (read_entry db scope key) text bytes now).
Proof.
  intros Hbytes. unfold put_entry, write_entry.
  apply not_corrupt_bind; [apply not_corrupt_next|intros version _].
  apply not_corrupt_bind; [by apply not_corrupt_quota|intros db' _]. repeat not_corrupt_step.
Qed.

Lemma pretty_go_length x s : (str_len (pretty_N_go x s) ≤ x + str_len s)%N.
Proof.
  revert s. induction (N.lt_wf_0 x) as [x _ IH]; intros s.
  assert (x = 0 ∨ 0 < x)%N as [->|?] by lia; [by rewrite pretty_N_go_0|].
  rewrite pretty_N_go_step by done. pose proof (N.div_lt x 10 ltac:(lia) ltac:(lia)) as Hlt.
  etrans; [by apply IH|]. unfold str_len. simpl. lia.
Qed.

Lemma integer_text_length z :
  safe_integer z = true → (str_len (i64_to_string z) ≤ 2 * MAX_STATE_SAFE_INTEGER)%N.
Proof.
  unfold safe_integer. intros [?%Z.leb_le ?%Z.leb_le]%andb_true_iff.
  assert (∀ n : N, str_len (pretty n) ≤ n + 1)%N as Hn.
  { intros n. unfold pretty, pretty_N. case_decide; [unfold str_len; simpl; lia|].
    pose proof (pretty_go_length n EmptyString). unfold str_len in *. simpl in *. lia. }
  unfold i64_to_string, MAX_STATE_SAFE_INTEGER in *.
  destruct z as [|p|p]; [unfold str_len; simpl; lia|..].
  - specialize (Hn (N.pos p)). change (pretty (Z.pos p)) with (pretty (N.pos p)). lia.
  - specialize (Hn (N.pos p)). change (pretty (Z.neg p)) with ("-" +:+ pretty (N.pos p)).
    rewrite str_len_app. change (str_len "-") with 1%N. lia.
Qed.

Lemma not_corrupt_apply (request : StateRequest) now :
  nesting (Value.Object request.(StateRequest.input)) ≤ 126 → exact_json (Value.Object request.(StateRequest.input)) →
  not_corrupt (apply_operation store db scope kd key request (read_entry db scope key) now).
Proof.
  intros Hnesting Hexact. unfold apply_operation.
  pose proof (reached_limits _ _ Hreached) as Hlimits. unfold valid_limits, in_range in Hlimits.
  apply andb_true_iff in Hlimits as [_ [_ Hmax%N.leb_le]%andb_true_iff].
  assert (∀ text bytes, state_value request.(StateRequest.input) store.(DurableStateStore.limits).(DurableStateLimits.max_value_bytes)
    = Ok (text, bytes) → (bytes ≤ 2 * MAX_STATE_SAFE_INTEGER)%N) as Hsize.
  { unfold state_value, MAX_STATE_VALUE_BYTES, MAX_STATE_SAFE_INTEGER in *. intros text bytes Hok. invert_ok.
    simplify_eq. simplify_guards. lia. }
  assert (not_corrupt (state_value request.(StateRequest.input) store.(DurableStateStore.limits).(DurableStateLimits.max_value_bytes)))
    as Hvalue by (unfold state_value; repeat not_corrupt_step).
  assert (∀ current, not_corrupt (enforce_version request.(StateRequest.input) current)) as Hversion
    by (intros; unfold enforce_version; case_match; repeat not_corrupt_step).
  repeat case_bool_decide; try done.
  - unfold state_get. destruct (read_entry db scope key) as [entry|] eqn:Hread; [|done].
    apply fmap_Some in Hread as (row & Hrow & ->).
    apply not_corrupt_bind; [by eapply not_corrupt_stored, Hreadable|done].
  - unfold state_set. apply not_corrupt_bind; [done|intros _ _].
    apply not_corrupt_bind; [done|intros [text bytes] Hok].
    apply not_corrupt_bind; [by apply not_corrupt_put; eapply Hsize|by intros []].
  - unfold state_delete. apply not_corrupt_bind; [done|intros _ _].
    destruct (read_entry db scope key) as [entry|] eqn:Hread; [|done]. rewrite <-Hread.
    apply not_corrupt_bind; [apply not_corrupt_next|intros version _].
    apply not_corrupt_bind; [apply not_corrupt_quota; simpl; lia|done].
  - unfold state_increment. apply not_corrupt_bind; [done|intros _ _].
    apply not_corrupt_bind; [repeat not_corrupt_step|intros amount _].
    apply not_corrupt_bind; [repeat not_corrupt_step|intros _ _].
    apply not_corrupt_bind.
    { destruct (read_entry db scope key) as [entry|] eqn:Hread; [|done].
      apply fmap_Some in Hread as (row & Hrow & ->).
      destruct (Hreadable _ _ Hrow) as (v & Hv & _). unfold parse_safe_integer. rewrite Hv. simpl.
      by repeat case_match. }
    intros existing _. apply not_corrupt_bind; [repeat not_corrupt_step|intros value Hok].
    apply not_corrupt_bind; [|by intros []]. apply not_corrupt_put, integer_text_length.
    apply ok_or_ok, bind_Some in Hok as (sum & _ & Hsum). by case_match; simplify_eq.
  - unfold state_set_if_absent. destruct (read_entry db scope key) as [entry|] eqn:Hread.
    + apply fmap_Some in Hread as (row & Hrow & ->).
      apply not_corrupt_bind; [by eapply not_corrupt_stored, Hreadable|done].
    + apply not_corrupt_bind; [done|intros [text bytes] Hok]. rewrite <-Hread.
      apply not_corrupt_bind; [by apply not_corrupt_put; eapply Hsize|intros [db' version] _].
      apply not_corrupt_bind; [|done]. apply not_corrupt_stored.
      by eapply state_value_stored.
Qed.
End sound_tables.

Lemma not_corrupt_replay limits db (prepared : PreparedCall) (identity : MutationIdentity) stored duration_ms :
  tables_sound limits db → read_mutation db identity.(MutationIdentity.operation_key) = Some stored →
  not_corrupt (replay_mutation prepared identity stored duration_ms).
Proof.
  intros Hsound Hread. unfold read_mutation in Hread. apply fmap_Some in Hread as (row & Hrow & ->).
  apply (mutations_sound _ _ Hsound) in Hrow. unfold check_mutation_row in Hrow.
  apply result_bind_ok in Hrow as (result & Hparse & Hrow). apply ok_or_ok in Hparse.
  apply result_bind_ok in Hrow as ([] & _ & Hrow).
  apply result_bind_ok in Hrow as (text & Htext & Hrow). apply map_err_ok in Htext.
  apply result_bind_ok in Hrow as ([] & _ & Hrow).
  apply result_bind_ok in Hrow as (rd & Hrd & Hrow). apply map_err_ok in Hrd.
  apply fail_if_ok in Hrow. repeat apply orb_false_iff in Hrow as [Hrow _].
  unfold replay_mutation. apply not_corrupt_bind; [repeat not_corrupt_step|intros _ _].
  rewrite Hparse. cbn [ok_or result_bind]. rewrite Hrd. cbn [result_bind]. by rewrite Hrow.
Qed.

(** C38 A store never reports corruption of its own making: on tables that only its calls have
    written, a call returns [StoreCorrupt] only when the clock is out of the range of dates or a
    key has used up its 9007199254740991 versions. The numbers of this call and of those that wrote
    the tables must be exact: serde_json, configured without [float_roundtrip], may read a
    fraction that the store wrote back as a number with another text, which is reported as
    corruption. *)
Theorem no_false_corruption canonical limits store db workflow_id call now_millis duration_ms :
  exact_history canonical limits store db →
  nesting call.(CapabilityCallRequest.input) ≤ 127 → exact_json call.(CapabilityCallRequest.input) →
  is_Some (from_timestamp_millis now_millis) →
  (∀ scope kd v, max_committed_version db scope kd = Some v → (v < MAX_STATE_SAFE_INTEGER)%N) →
  execute store db workflow_id call now_millis duration_ms ≠ Err DurableStateError.StoreCorrupt.
Proof.
  intros Hhistory Hnesting Hexact [time Htime] Hversions.
  pose proof (exact_history_readable _ _ _ _ Hhistory) as Hreadable.
  apply exact_history_history, history_reached in Hhistory as [Hreached _].
  change (not_corrupt (execute store db workflow_id call now_millis duration_ms)). unfold execute.
  apply not_corrupt_bind; [apply not_corrupt_prepare|intros prepared Hprepare].
  rewrite (reached_schema _ _ Hreached). cbn [result_bind].
  destruct (prepare_call_ok _ _ _ _ Hprepare) as (Hparse & _ & _ & Hkd & _).
  apply parse_request_ok in Hparse as [Hparse _]. pose proof (nesting_input _ _ Hparse).
  assert (not_corrupt (execute_fresh store db prepared now_millis duration_ms)) as Hfresh.
  { unfold execute_fresh, state_timestamp. rewrite Htime. cbn [fmap option_fmap option_map ok_or result_bind].
    rewrite Hkd. apply not_corrupt_bind.
    - apply not_corrupt_apply; [done|done|intros; by eapply Hversions|lia|by eapply exact_input].
    - intros [[[db1 data] version] bytes] _. apply not_corrupt_bind; [apply not_corrupt_canonical|intros text _].
      apply not_corrupt_bind; [|done]. unfold insert_mutation. case_match; repeat not_corrupt_step. }
  destruct prepared.(PreparedCall.mutation) as [identity|]; [|done].
  destruct (read_mutation _ _) as [stored|] eqn:Hread; [|done].
  apply not_corrupt_bind; [|done]. eapply not_corrupt_replay; [by apply reached_tables|done].
Qed.
End registers.
