(* ===== verification/Schedules.v ===== *)
(** * Schedules and intervals

    schedule.rs: the five fields of a cron expression, the instants it matches in a time zone, and
    the search for the next and the latest of them; interval.rs: the grid of a fixed interval.
    Instants of the IANA time zones ([chrono_tz]) and the range of dates of [chrono] are
    parameters.  The theorems: a printed expression is read back with its meaning, the searches
    find exactly the nearest instants, and the grid answers are exact. *)

From S2P Require Import Prelude GraphSearch Strings Json EventTypes ModelTypes EngineExternals ModelRoundTrips.

(** What an instant is on the clock of a time zone. *)
Module LocalTime.
Record LocalTime := mk {
  minute : N;
  hour : N;
  day : N;
  month : N;
  weekday : N   (* days from Sunday *)
}.
End LocalTime.
Abbreviation LocalTime := LocalTime.LocalTime.

Class ScheduleExternals := {
  (** [chrono_tz::Tz], [chrono_tz::UTC] and [Tz::from_str]. *)
  Tz : Type;
  tz_utc : Tz;
  tz_from_str : string → option Tz;
  (** [instant.with_timezone(&timezone)], field by field. *)
  local_time : Tz → DateTime → LocalTime;
  (** The range of [DateTime<Utc>]. *)
  valid_instant : DateTime → bool;
  (** [DateTime::from_timestamp_millis]: [None] out of the range of dates. *)
  instant_from_millis : Z → option DateTime;
  instant_from_millis_spec : ∀ ms time,
    instant_from_millis ms = Some time → time = (ms * NANOS_PER_MILLI)%Z;
}.

Definition SCHEDULE_PROGRESS_CONTRACT_VERSION : N := 1.
Definition MAX_SEARCH_MINUTES : N := 60 * 24 * 366 * 8.

Definition NANOS_PER_SECOND : Z := 1000000000.
Definition NANOS_PER_MINUTE : Z := 60000000000.

Module ScheduleMisfirePolicy.
Inductive ScheduleMisfirePolicy := Skip | RunOnce.
#[global] Instance ScheduleMisfirePolicy_eq_dec : EqDecision ScheduleMisfirePolicy.
Proof. solve_decision. Defined.
End ScheduleMisfirePolicy.
Abbreviation ScheduleMisfirePolicy := ScheduleMisfirePolicy.ScheduleMisfirePolicy.

Module ScheduleError.
Inductive ScheduleError :=
| InvalidFieldCount
| InvalidFieldSyntax (field : nat)
| FieldOutOfBounds (field : nat) (value minimum maximum : N)
| ZeroStep (field : nat)
| DescendingRange (field : nat)
| InvalidTimezone (value : string)
| InvalidMisfirePolicy (value : string)
| SearchExhausted
| ClockRange.
End ScheduleError.
Abbreviation ScheduleError := ScheduleError.ScheduleError.

Definition schedule_result := result ScheduleError.

Definition misfire_parse (value : string) : schedule_result ScheduleMisfirePolicy :=
  if value == "skip" then Ok ScheduleMisfirePolicy.Skip
  else if value == "run-once" then Ok ScheduleMisfirePolicy.RunOnce
  else Err (ScheduleError.InvalidMisfirePolicy value).

Definition misfire_as_str (policy : ScheduleMisfirePolicy) : string :=
  match policy with
  | ScheduleMisfirePolicy.Skip => "skip"
  | ScheduleMisfirePolicy.RunOnce => "run-once"
  end.

Module CronField.
Record CronField := mk {
  values : gset N;
  unrestricted : bool
}.
End CronField.
Abbreviation CronField := CronField.CronField.

(** ** Fields *)

Definition parse_number (field : nat) (source : string) (minimum maximum : N) : schedule_result N :=
  if str_is_empty source || negb (bytes_all is_ascii_digit source)
  then Err (ScheduleError.InvalidFieldSyntax field)
  else
    let? value := ok_or (parse_u32 source) (ScheduleError.InvalidFieldSyntax field) in
    check fail_if ((value <? minimum)%N || (maximum <? value)%N)
      (ScheduleError.FieldOutOfBounds field value minimum maximum);
    Ok value.

(** The base and the step of an item. *)
Definition parse_step (field : nat) (item : string) : schedule_result (string * N) :=
  match split_once "/" item with
  | Some (base, step) =>
      if negb (str_is_empty base) && negb (str_is_empty step) && negb (str_contains "/" step) then
        let? step := parse_number field step 1 (u32_modulus - 1) in
        check fail_if (step =? 0)%N (ScheduleError.ZeroStep field);
        Ok (base, step)
      else Err (ScheduleError.InvalidFieldSyntax field)
  | None => Ok (item, 1%N)
  end.

(** The first and the last value of an item. *)
Definition parse_range (field : nat) (item base : string) (minimum maximum : N) :
    schedule_result (N * N) :=
  if base == "*" then Ok (minimum, maximum)
  else
    match split_once "-" base with
    | Some (start, end_) =>
        if str_is_empty start || str_is_empty end_ || str_contains "-" end_
        then Err (ScheduleError.InvalidFieldSyntax field)
        else
          let? start := parse_number field start minimum maximum in
          let? end_ := parse_number field end_ minimum maximum in
          check fail_if (end_ <? start)%N (ScheduleError.DescendingRange field);
          Ok (start, end_)
    | None =>
        let? start := parse_number field base minimum maximum in
        Ok (start, if str_contains "/" item then maximum else start)
    end.

(** Sunday is 0 and 7 in the field of weekdays. *)
Definition field_value (field : nat) (value : N) : N :=
  if (field =? 4)%nat && (value =? 7)%N then 0 else value.

(** [while value <= end], with one unit of fuel for every value up to [end]. *)
Fixpoint step_values (fuel : nat) (field : nat) (value end_ step : N) (values : gset N) : gset N :=
  match fuel with
  | O => values
  | S fuel =>
      if (value <=? end_)%N then
        let values := {[field_value field value]} ∪ values in
        if (value + step <? u32_modulus)%N
        then step_values fuel field (value + step) end_ step values
        else values
      else values
  end.

Fixpoint parse_items (field : nat) (minimum maximum : N) (items : list string) (values : gset N) :
    schedule_result (gset N) :=
  match items with
  | [] => Ok values
  | item :: items =>
      check fail_if (str_is_empty item) (ScheduleError.InvalidFieldSyntax field);
      let? (base, step) := parse_step field item in
      let? (start, end_) := parse_range field item base minimum maximum in
      parse_items field minimum maximum items
        (step_values (S (N.to_nat (end_ - start))) field start end_ step values)
  end.

(** [(minimum..=maximum)], as the values of a field. *)
Definition every_value (field : nat) (minimum maximum : N) : gset N :=
  list_to_set ((λ n, field_value field (minimum + N.of_nat n)%N) <$> seq 0 (S (N.to_nat (maximum - minimum)))).

Definition parse_field (field : nat) (source : string) (minimum maximum : N) :
    schedule_result CronField :=
  let? values := parse_items field minimum maximum (split (is_byte ",") source) ∅ in
  check fail_if (bool_decide (values = ∅)) (ScheduleError.InvalidFieldSyntax field);
  Ok (CronField.mk values (bool_decide (values = every_value field minimum maximum))).

(** ** Schedules *)

Definition legacy_prefix : list string :=
  ["Africa/Asmera"; "America/Atka"; "America/Buenos_Aires"; "America/Ensenada"; "America/Fort_Wayne";
   "America/Indianapolis"; "America/Knox_IN"; "America/Louisville"; "America/Porto_Acre";
   "America/Rosario"; "Asia/Calcutta"; "Asia/Katmandu"; "Asia/Rangoon"; "Asia/Saigon"; "Australia/ACT";
   "Australia/NSW"; "Brazil/"; "Canada/"; "Chile/"; "Etc/"; "Europe/Belfast"; "Mexico/"; "SystemV/"; "US/"].

Section schedules.
Context {engine : EngineExternals} {zones : ScheduleExternals}.

Record WomlSchedule := mk_schedule {
  source : string;
  timezone_name : string;
  timezone : Tz;
  (** The five fields, in their order. *)
  minutes : CronField;
  hours : CronField;
  days : CronField;
  months : CronField;
  weekdays : CronField
}.

Definition canonical_timezone (value : string) : schedule_result Tz :=
  if value == "UTC" then Ok tz_utc
  else if negb (str_contains "/" value) || existsb (λ prefix, starts_with prefix value) legacy_prefix
  then Err (ScheduleError.InvalidTimezone value)
  else ok_or (tz_from_str value) (ScheduleError.InvalidTimezone value).

Definition is_ascii_whitespace (b : Ascii.ascii) : bool :=
  existsb (N.eqb (Ascii.N_of_ascii b)) [32; 9; 10; 12; 13]%N.

Definition schedule_bounds : list (N * N) := [(0, 59); (0, 23); (1, 31); (1, 12); (0, 7)]%N.

Fixpoint parse_fields (index : nat) (parts : list string) (bounds : list (N * N)) :
    schedule_result (list CronField) :=
  match parts with
  | [] => Ok []
  | part :: parts =>
      let? (minimum, maximum) := expect (head bounds) "index out of bounds" in
      let? field := parse_field index part minimum maximum in
      let? fields := parse_fields (S index) parts (List.tail bounds) in
      Ok (field :: fields)
  end.

Definition schedule_parse (cron zone : string) : schedule_result WomlSchedule :=
  check fail_if
    (str_is_empty cron || (256 <? str_len cron)%N || str_contains "  " cron
     || negb (bytes_all (λ b, negb (is_ascii_whitespace b) || is_byte " " b) cron))
    ScheduleError.InvalidFieldCount;
  let parts := split (is_byte " ") cron in
  check fail_if (negb (length parts =? 5)%nat || existsb str_is_empty parts)
    ScheduleError.InvalidFieldCount;
  let? parsed := parse_fields 0 parts schedule_bounds in
  let? timezone_value := canonical_timezone zone in
  match parsed with
  | [minutes; hours; days; months; weekdays] =>
      Ok (mk_schedule cron zone timezone_value minutes hours days months weekdays)
  | _ => Panic "five parsed cron fields"
  end.

(** [WomlSchedule::matches]. *)
Definition schedule_matches (schedule : WomlSchedule) (instant : DateTime) : bool :=
  let local := local_time (timezone schedule) instant in
  let minute_matches := bool_decide (LocalTime.minute local ∈ CronField.values (minutes schedule)) in
  let hour_matches := bool_decide (LocalTime.hour local ∈ CronField.values (hours schedule)) in
  let month_matches := bool_decide (LocalTime.month local ∈ CronField.values (months schedule)) in
  let day_of_month_matches := bool_decide (LocalTime.day local ∈ CronField.values (days schedule)) in
  let day_of_week_matches := bool_decide (LocalTime.weekday local ∈ CronField.values (weekdays schedule)) in
  let day_matches :=
    match CronField.unrestricted (days schedule), CronField.unrestricted (weekdays schedule) with
    | false, false => day_of_month_matches || day_of_week_matches
    | false, true => day_of_month_matches
    | true, false => day_of_week_matches
    | true, true => true
    end in
  minute_matches && hour_matches && month_matches && day_matches.

(** [DateTime::with_second(0)] and [DateTime::with_nanosecond(0)]. *)
Definition with_second_zero (instant : DateTime) : option DateTime :=
  let changed := (instant - instant mod NANOS_PER_MINUTE + instant mod NANOS_PER_SECOND)%Z in
  if valid_instant changed then Some changed else None.
Definition with_nanosecond_zero (instant : DateTime) : option DateTime :=
  let changed := (instant - instant mod NANOS_PER_SECOND)%Z in
  if valid_instant changed then Some changed else None.

Definition floor_minute (instant : DateTime) : schedule_result DateTime :=
  ok_or (with_second_zero instant ≫= with_nanosecond_zero) ScheduleError.ClockRange.

Definition add_minute (instant : DateTime) (amount : Z) : schedule_result DateTime :=
  ok_or (add_milliseconds instant (amount * 60000)) ScheduleError.ClockRange.

Fixpoint search_minutes (fuel : nat) (schedule : WomlSchedule) (candidate : DateTime) (direction : Z) :
    schedule_result DateTime :=
  match fuel with
  | O => Err ScheduleError.SearchExhausted
  | S fuel =>
      if schedule_matches schedule candidate then Ok candidate
      else
        let? candidate := add_minute candidate direction in
        search_minutes fuel schedule candidate direction
  end.

(** [WomlSchedule::search]. *)
Definition schedule_search (schedule : WomlSchedule) (start : DateTime) (direction : Z) :
    schedule_result DateTime :=
  search_minutes (N.to_nat MAX_SEARCH_MINUTES) schedule start direction.

Definition next_at_or_after (schedule : WomlSchedule) (instant : DateTime) : schedule_result DateTime :=
  let? candidate := floor_minute instant in
  let? candidate := if (candidate <? instant)%Z then add_minute candidate 1 else Ok candidate in
  schedule_search schedule candidate 1.

Definition next_after (schedule : WomlSchedule) (instant : DateTime) : schedule_result DateTime :=
  let? floor := floor_minute instant in
  let? start := add_minute floor 1 in
  schedule_search schedule start 1.

Definition latest_at_or_before (schedule : WomlSchedule) (instant : DateTime) : schedule_result DateTime :=
  let? floor := floor_minute instant in
  schedule_search schedule floor (-1).

(** [while occurrence < end_exclusive]; every round moves on by a minute or more. *)
Fixpoint collect_occurrences (fuel : nat) (schedule : WomlSchedule) (occurrence end_exclusive : DateTime) :
    schedule_result (list DateTime) :=
  if (occurrence <? end_exclusive)%Z then
    match fuel with
    | O => Panic "out of fuel"
    | S fuel =>
        let? next := next_after schedule occurrence in
        let? occurrences := collect_occurrences fuel schedule next end_exclusive in
        Ok (occurrence :: occurrences)
    end
  else Ok [].

Definition occurrences_between (schedule : WomlSchedule) (start_inclusive end_exclusive : DateTime) :
    schedule_result (list DateTime) :=
  if (end_exclusive <=? start_inclusive)%Z then Ok []
  else
    let? occurrence := next_at_or_after schedule start_inclusive in
    collect_occurrences (Z.to_nat ((end_exclusive - start_inclusive) / NANOS_PER_MINUTE + 1)) schedule
      occurrence end_exclusive.
End schedules.

(** ** Intervals *)

Definition MIN_INTERVAL_MS : N := 1000.
Definition MAX_INTERVAL_MS : N := 30 * 24 * 60 * 60 * 1000.

Module WomlInterval.
Record WomlInterval := mk { every_ms : N }.
End WomlInterval.
Abbreviation WomlInterval := WomlInterval.WomlInterval.

Module IntervalError.
Inductive IntervalError :=
| InvalidDuration
| InvalidSequence
| ClockRange
| NoDueOccurrence.
End IntervalError.
Abbreviation IntervalError := IntervalError.IntervalError.

Definition interval_result := result IntervalError.

Definition interval_new (every_ms : N) : interval_result WomlInterval :=
  check fail_if (negb (in_range MIN_INTERVAL_MS MAX_INTERVAL_MS every_ms)) IntervalError.InvalidDuration;
  Ok (WomlInterval.mk every_ms).

(** [DateTime::timestamp_millis], which rounds down. *)
Definition timestamp_millis (instant : DateTime) : Z := (instant / NANOS_PER_MILLI)%Z.

(** The value as a u64, and [i64::checked_sub]. *)
Definition u64_checked (n : N) : option N := if (n <? 2 ^ 64)%N then Some n else None.
Definition i64_checked_sub (a b : Z) : option Z := if in_i64 (a - b) then Some (a - b)%Z else None.

Section intervals.
Context {engine : EngineExternals} {zones : ScheduleExternals}.

Definition normalize_anchor (instant : DateTime) : interval_result DateTime :=
  ok_or (instant_from_millis (timestamp_millis instant)) IntervalError.ClockRange.

Definition planned_at (interval : WomlInterval) (anchor : DateTime) (sequence : N) : interval_result DateTime :=
  check fail_if (sequence =? 0)%N IntervalError.InvalidSequence;
  let? offset :=
    ok_or (u64_checked (interval.(WomlInterval.every_ms) * sequence) ≫= i64_try_from) IntervalError.ClockRange in
  ok_or (add_milliseconds anchor offset) IntervalError.ClockRange.

Definition next_sequence_after (interval : WomlInterval) (anchor instant : DateTime) : interval_result N :=
  let? elapsed :=
    ok_or (i64_checked_sub (timestamp_millis instant) (timestamp_millis anchor)) IntervalError.ClockRange in
  if (elapsed <? 0)%Z then Ok 1%N
  else
    ok_or (if (interval.(WomlInterval.every_ms) =? 0)%N then None
           else u64_checked (Z.to_N elapsed / interval.(WomlInterval.every_ms) + 1))
      IntervalError.ClockRange.

Definition latest_sequence_at_or_before (interval : WomlInterval) (anchor instant : DateTime) :
    interval_result N :=
  let? elapsed :=
    ok_or (i64_checked_sub (timestamp_millis instant) (timestamp_millis anchor)) IntervalError.ClockRange in
  let? every := ok_or (i64_try_from interval.(WomlInterval.every_ms)) IntervalError.ClockRange in
  if (elapsed <? every)%Z then Err IntervalError.NoDueOccurrence
  else
    ok_or
      (sequence ←
         (if (elapsed <? 0)%Z || (interval.(WomlInterval.every_ms) =? 0)%N then None
          else Some (Z.to_N elapsed / interval.(WomlInterval.every_ms))%N);
       if (1 <=? sequence)%N then Some sequence else None)
      IntervalError.ClockRange.
End intervals.

(** ** Occurrences *)

Section search_properties.
Context {engine : EngineExternals} {zones : ScheduleExternals}.
Implicit Types (schedule : WomlSchedule) (t u instant : DateTime).

(** The instants of a schedule are full minutes. *)
Definition occurrence schedule t : Prop :=
  (t mod NANOS_PER_MINUTE = 0)%Z ∧ schedule_matches schedule t = true.

Lemma add_minute_ok t n t' : add_minute t n = Ok t' → t' = (t + n * NANOS_PER_MINUTE)%Z.
Proof.
  unfold add_minute. intros Hadd%ok_or_ok%add_milliseconds_spec. rewrite Hadd.
  unfold NANOS_PER_MINUTE, NANOS_PER_MILLI. lia.
Qed.

Lemma floor_minute_ok t f : floor_minute t = Ok f → f = (t - t mod NANOS_PER_MINUTE)%Z.
Proof.
  unfold floor_minute. intros Hfl%ok_or_ok. apply bind_Some in Hfl as (c & Hc & Hf).
  unfold with_second_zero in Hc. destruct (valid_instant _); [|done]. injection Hc as <-.
  unfold with_nanosecond_zero in Hf. destruct (valid_instant _); [|done]. injection Hf as <-.
  unfold NANOS_PER_MINUTE, NANOS_PER_SECOND.
  pose proof (Z.div_mod t 60000000000 ltac:(lia)) as Hm. set (q := (t / 60000000000)%Z) in *.
  replace (t - t mod 60000000000)%Z with (q * 60 * 1000000000)%Z by lia.
  rewrite Z.add_comm, Z.mod_add, Z.mod_mod by lia. lia.
Qed.

Lemma minute_positive : (0 < NANOS_PER_MINUTE)%Z.
Proof. done. Qed.

Lemma floor_aligned t : ((t - t mod NANOS_PER_MINUTE) mod NANOS_PER_MINUTE = 0)%Z.
Proof. rewrite Zminus_mod_idemp_r, Z.sub_diag. done. Qed.

Lemma aligned_add t n :
  (t mod NANOS_PER_MINUTE = 0)%Z → ((t + n * NANOS_PER_MINUTE) mod NANOS_PER_MINUTE = 0)%Z.
Proof. intros Ht. by rewrite Z.mod_add. Qed.

(** Full minutes are a whole number of minutes apart. *)
Lemma aligned_distance t u :
  (t mod NANOS_PER_MINUTE = 0)%Z → (u mod NANOS_PER_MINUTE = 0)%Z →
  ∃ n, u = (t + n * NANOS_PER_MINUTE)%Z.
Proof.
  intros Ht Hu. exists (u / NANOS_PER_MINUTE - t / NANOS_PER_MINUTE)%Z.
  pose proof (Z.div_mod t NANOS_PER_MINUTE ltac:(done)). pose proof (Z.div_mod u NANOS_PER_MINUTE ltac:(done)). lia.
Qed.

Lemma search_minutes_spec fuel schedule candidate direction :
  let minute m := (candidate + m * (direction * NANOS_PER_MINUTE))%Z in
  match search_minutes fuel schedule candidate direction with
  | Ok t => ∃ n, (0 ≤ n < Z.of_nat fuel)%Z ∧ t = minute n ∧ schedule_matches schedule t = true
      ∧ ∀ m, (0 ≤ m < n)%Z → schedule_matches schedule (minute m) = false
  | Err ScheduleError.SearchExhausted =>
      ∀ m, (0 ≤ m < Z.of_nat fuel)%Z → schedule_matches schedule (minute m) = false
  | Err e => e = ScheduleError.ClockRange
  | Panic _ => False
  end.
Proof.
  revert candidate. induction fuel as [|fuel IH]; intros candidate minute.
  { simpl. intros m Hm. lia. }
  simpl. destruct (schedule_matches schedule candidate) eqn:Hc.
  { exists 0%Z. unfold minute. rewrite Z.mul_0_l, Z.add_0_r. split_and!; [lia..|done|done|]. intros m Hm. lia. }
  destruct (add_minute candidate direction) as [next|e|] eqn:Hn; simpl.
  2, 3: unfold add_minute, ok_or in Hn; destruct (add_milliseconds _ _); simplify_eq; done.
  apply add_minute_ok in Hn. specialize (IH next). simpl in IH.
  assert (∀ m, (0 < m)%Z → minute m = (next + (m - 1) * (direction * NANOS_PER_MINUTE))%Z) as Hshift
    by (intros m Hm; unfold minute; rewrite Hn; lia).
  assert (minute 0%Z = candidate) as H0 by (unfold minute; lia).
  destruct (search_minutes fuel schedule next direction) as [t|[]|]; try done.
  - destruct IH as (n & Hn' & -> & Hm & Hb). exists (n + 1)%Z. split_and!; [lia..| | |].
    + rewrite Hshift by lia. f_equal. lia.
    + done.
    + intros m Hm'. destruct (decide (m = 0%Z)) as [->|]; [by rewrite H0|].
      rewrite Hshift by lia. apply Hb. lia.
  - intros m Hm. destruct (decide (m = 0%Z)) as [->|]; [by rewrite H0|]. rewrite Hshift by lia. apply IH. lia.
Qed.

(** What a search forward from a full minute finds. *)
Lemma search_forward schedule start :
  (start mod NANOS_PER_MINUTE = 0)%Z →
  match schedule_search schedule start 1 with
  | Ok t => occurrence schedule t ∧ (start ≤ t)%Z ∧ ∀ u, occurrence schedule u → (start ≤ u)%Z → (t ≤ u)%Z
  | Err ScheduleError.SearchExhausted => ∀ u, occurrence schedule u → (start ≤ u)%Z →
      (start + Z.of_N MAX_SEARCH_MINUTES * NANOS_PER_MINUTE ≤ u)%Z
  | Err e => e = ScheduleError.ClockRange
  | Panic _ => False
  end.
Proof.
  intros Ha. unfold schedule_search. pose proof minute_positive as Hp.
  pose proof (search_minutes_spec (N.to_nat MAX_SEARCH_MINUTES) schedule start 1) as H. cbv zeta in H.
  rewrite N_nat_Z in H. generalize dependent (Z.of_N MAX_SEARCH_MINUTES). intros max H.
  destruct (search_minutes _ schedule start 1) as [t|[]|]; try done.
  - destruct H as (n & Hn & -> & Hm & Hb). rewrite Z.mul_1_l in *. split_and!.
    + split; [by apply aligned_add|done].
    + nia.
    + intros u [Hu Hmu] Hle. destruct (aligned_distance start u Ha Hu) as [m ->].
      destruct (decide (m < n)%Z) as [Hlt|]; [|nia]. specialize (Hb m ltac:(nia)). congruence.
  - intros u [Hu Hmu] Hle. destruct (aligned_distance start u Ha Hu) as [m ->].
    destruct (decide (m < max)%Z) as [Hlt|]; [|nia]. specialize (H m ltac:(nia)). rewrite Z.mul_1_l in H. congruence.
Qed.

Lemma search_backward schedule start :
  (start mod NANOS_PER_MINUTE = 0)%Z →
  match schedule_search schedule start (-1) with
  | Ok t => occurrence schedule t ∧ (t ≤ start)%Z ∧ ∀ u, occurrence schedule u → (u ≤ start)%Z → (u ≤ t)%Z
  | Err ScheduleError.SearchExhausted => ∀ u, occurrence schedule u → (u ≤ start)%Z →
      (u ≤ start - Z.of_N MAX_SEARCH_MINUTES * NANOS_PER_MINUTE)%Z
  | Err e => e = ScheduleError.ClockRange
  | Panic _ => False
  end.
Proof.
  intros Ha. unfold schedule_search. pose proof minute_positive as Hp.
  pose proof (search_minutes_spec (N.to_nat MAX_SEARCH_MINUTES) schedule start (-1)) as H. cbv zeta in H.
  rewrite N_nat_Z in H. generalize dependent (Z.of_N MAX_SEARCH_MINUTES). intros max H.
  destruct (search_minutes _ schedule start (-1)) as [t|[]|]; try done.
  - destruct H as (n & Hn & -> & Hm & Hb). split_and!.
    + split; [|done]. replace (start + n * (-1 * NANOS_PER_MINUTE))%Z with (start + - n * NANOS_PER_MINUTE)%Z by lia.
      by apply aligned_add.
    + nia.
    + intros u [Hu Hmu] Hle. destruct (aligned_distance start u Ha Hu) as [m ->].
      destruct (decide (- m < n)%Z) as [Hlt|]; [|nia]. specialize (Hb (- m)%Z ltac:(nia)).
      replace (start + - m * (-1 * NANOS_PER_MINUTE))%Z with (start + m * NANOS_PER_MINUTE)%Z in Hb by lia. congruence.
  - intros u [Hu Hmu] Hle. destruct (aligned_distance start u Ha Hu) as [m ->].
    destruct (decide (- m < max)%Z) as [Hlt|]; [|nia]. specialize (H (- m)%Z ltac:(nia)).
    replace (start + - m * (-1 * NANOS_PER_MINUTE))%Z with (start + m * NANOS_PER_MINUTE)%Z in H by lia. congruence.
Qed.

Lemma floor_minute_outcome t :
  floor_minute t = Ok (t - t mod NANOS_PER_MINUTE)%Z ∨ floor_minute t = Err ScheduleError.ClockRange.
Proof.
  destruct (floor_minute t) as [f|e|] eqn:Hf.
  - left. by rewrite (floor_minute_ok _ _ Hf).
  - right. unfold floor_minute, ok_or in Hf. destruct (_ ≫= _); by simplify_eq.
  - unfold floor_minute, ok_or in Hf. by destruct (_ ≫= _).
Qed.

Lemma add_minute_outcome t n :
  add_minute t n = Ok (t + n * NANOS_PER_MINUTE)%Z ∨ add_minute t n = Err ScheduleError.ClockRange.
Proof.
  destruct (add_minute t n) as [f|e|] eqn:Hf.
  - left. by rewrite (add_minute_ok _ _ _ Hf).
  - right. unfold add_minute, ok_or in Hf. destruct (add_milliseconds _ _); by simplify_eq.
  - unfold add_minute, ok_or in Hf. by destruct (add_milliseconds _ _).
Qed.

(** The start of a search: the first full minute that is not before, or that is after, an instant. *)
Lemma mod_bounds t : (0 ≤ t mod NANOS_PER_MINUTE < NANOS_PER_MINUTE)%Z.
Proof. by apply Z.mod_pos_bound. Qed.

(** A full minute not before [t] is not before the next full minute. *)
Lemma aligned_after t u :
  (u mod NANOS_PER_MINUTE = 0)%Z → (t < u)%Z → (t - t mod NANOS_PER_MINUTE + 1 * NANOS_PER_MINUTE ≤ u)%Z.
Proof.
  intros Hu Hlt. destruct (aligned_distance _ u (floor_aligned t) Hu) as [n ->]. clear Hu.
  pose proof (mod_bounds t) as Hb. generalize dependent (t mod NANOS_PER_MINUTE)%Z. intros r Hlt Hb.
  assert (1 ≤ n)%Z; nia.
Qed.

Lemma next_at_or_after_exact schedule instant :
  match next_at_or_after schedule instant with
  | Ok t => occurrence schedule t ∧ (instant ≤ t)%Z
      ∧ ∀ u, occurrence schedule u → (instant ≤ u)%Z → (t ≤ u)%Z
  | Err ScheduleError.SearchExhausted => ∀ u, occurrence schedule u → (instant ≤ u)%Z →
      (instant + Z.of_N MAX_SEARCH_MINUTES * NANOS_PER_MINUTE ≤ u)%Z
  | Err e => e = ScheduleError.ClockRange
  | Panic _ => False
  end.
Proof.
  unfold next_at_or_after. pose proof (mod_bounds instant) as Hb.
  destruct (floor_minute_outcome instant) as [-> | ->]; [|done]. cbn [result_bind].
  destruct (Z.ltb_spec (instant - instant mod NANOS_PER_MINUTE) instant) as [Hlt|Hge].
  - destruct (add_minute_outcome (instant - instant mod NANOS_PER_MINUTE) 1) as [-> | ->]; [|done]. cbn [result_bind].
    pose proof (search_forward schedule _ (aligned_add _ 1 (floor_aligned instant))) as H.
    assert (∀ u, occurrence schedule u → (instant ≤ u)%Z →
      (instant - instant mod NANOS_PER_MINUTE + 1 * NANOS_PER_MINUTE ≤ u)%Z) as Hnext.
    { intros u [Hu _] Hle. apply aligned_after; [done|]. destruct (decide (u = instant)) as [->|]; lia. }
    destruct (schedule_search _ _ _) as [t|[]|]; try done.
    + destruct H as (Ho & Hle & Hleast). split_and!; [done|lia|]. naive_solver.
    + intros u Hu Hle. specialize (H u Hu (Hnext u Hu Hle)). lia.
  - assert (instant mod NANOS_PER_MINUTE = 0)%Z as Hz by lia. cbn [result_bind].
    pose proof (search_forward schedule _ (floor_aligned instant)) as H.
    rewrite Hz, Z.sub_0_r in *. exact H.
Qed.

Lemma next_after_exact schedule instant :
  match next_after schedule instant with
  | Ok t => occurrence schedule t ∧ (instant < t)%Z ∧ ∀ u, occurrence schedule u → (instant < u)%Z → (t ≤ u)%Z
  | Err ScheduleError.SearchExhausted => ∀ u, occurrence schedule u → (instant < u)%Z →
      (instant + Z.of_N MAX_SEARCH_MINUTES * NANOS_PER_MINUTE < u)%Z
  | Err e => e = ScheduleError.ClockRange
  | Panic _ => False
  end.
Proof.
  unfold next_after. pose proof (mod_bounds instant) as Hb.
  destruct (floor_minute_outcome instant) as [-> | ->]; [|done]. cbn [result_bind].
  destruct (add_minute_outcome (instant - instant mod NANOS_PER_MINUTE) 1) as [-> | ->]; [|done]. cbn [result_bind].
  pose proof (search_forward schedule _ (aligned_add _ 1 (floor_aligned instant))) as H.
  assert (∀ u, occurrence schedule u → (instant < u)%Z →
    (instant - instant mod NANOS_PER_MINUTE + 1 * NANOS_PER_MINUTE ≤ u)%Z) as Hnext
    by (intros u [Hu _]; by apply aligned_after).
  destruct (schedule_search _ _ _) as [t|[]|]; try done.
  - destruct H as (Ho & Hle & Hleast). split_and!; [done|lia|]. naive_solver.
  - intros u Hu Hlt. specialize (H u Hu (Hnext u Hu Hlt)). lia.
Qed.

Lemma latest_at_or_before_exact schedule instant :
  match latest_at_or_before schedule instant with
  | Ok t => occurrence schedule t ∧ (t ≤ instant)%Z ∧ ∀ u, occurrence schedule u → (u ≤ instant)%Z → (u ≤ t)%Z
  | Err ScheduleError.SearchExhausted => ∀ u, occurrence schedule u → (u ≤ instant)%Z →
      (u ≤ instant - Z.of_N MAX_SEARCH_MINUTES * NANOS_PER_MINUTE)%Z
  | Err e => e = ScheduleError.ClockRange
  | Panic _ => False
  end.
Proof.
  unfold latest_at_or_before. pose proof (mod_bounds instant) as Hb.
  destruct (floor_minute_outcome instant) as [-> | ->]; [|done]. cbn [result_bind].
  pose proof (search_backward schedule _ (floor_aligned instant)) as H.
  assert (∀ u, occurrence schedule u → (u ≤ instant)%Z → (u ≤ instant - instant mod NANOS_PER_MINUTE)%Z) as Hprev.
  { intros u [Hu _] Hle. destruct (aligned_distance _ u (floor_aligned instant) Hu) as [n ->]. clear Hu H.
    generalize dependent (instant mod NANOS_PER_MINUTE)%Z. intros r Hb Hle. assert (n ≤ 0)%Z; nia. }
  destruct (schedule_search _ _ _) as [t|[]|]; try done.
  - destruct H as (Ho & Hle & Hmost). split_and!; [done|lia|]. naive_solver.
  - intros u Hu Hle. specialize (H u Hu (Hprev u Hu Hle)). lia.
Qed.

Lemma collect_occurrences_exact fuel schedule t end_exclusive :
  occurrence schedule t → (end_exclusive - t ≤ Z.of_nat fuel * NANOS_PER_MINUTE)%Z →
  match collect_occurrences fuel schedule t end_exclusive with
  | Ok l => StronglySorted Z.lt l
      ∧ ∀ u, u ∈ l ↔ occurrence schedule u ∧ (t ≤ u < end_exclusive)%Z
  | Err e => e = ScheduleError.SearchExhausted ∨ e = ScheduleError.ClockRange
  | Panic _ => False
  end.
Proof.
  revert t. induction fuel as [|fuel IH]; intros t Ht Hf.
  { simpl. rewrite (proj2 (Z.ltb_ge _ _)) by lia. split; [constructor|]. intros u. split; [by intros ?%elem_of_nil|lia]. }
  simpl. destruct (Z.ltb_spec t end_exclusive) as [Hlt|Hge].
  2: { split; [constructor|]. intros u. split; [by intros ?%elem_of_nil|lia]. }
  pose proof (next_after_exact schedule t) as Hn. destruct (next_after schedule t) as [n|[]|]; simpl; try naive_solver.
  destruct Hn as (Hon & Htn & Hleast).
  assert (t + NANOS_PER_MINUTE ≤ n)%Z as Hstep.
  { destruct Ht as [Hat _], Hon as [Han _]. destruct (aligned_distance _ _ Hat Han) as [k ->].
    clear -Htn. pose proof minute_positive as Hp. assert (1 ≤ k)%Z; nia. }
  specialize (IH n Hon ltac:(lia)). destruct (collect_occurrences fuel schedule n end_exclusive) as [l|e|]; simpl; [|done..].
  destruct IH as [Hs Hl]. split.
  - constructor; [done|]. apply Forall_forall. intros u [_ Hu]%Hl. lia.
  - intros u. rewrite elem_of_cons, Hl. split.
    + intros [->|[Hu Hr]]; split; [done|lia|done|lia].
    + intros [Hu Hr]. destruct (decide (u = t)) as [->|Hne]; [by left|right]. split; [done|].
      specialize (Hleast u Hu ltac:(lia)). lia.
Qed.

End search_properties.

(** ** The grid of an interval *)

Section interval_properties.
Context {engine : EngineExternals} {zones : ScheduleExternals}.

Lemma planned_at_ok interval anchor n t :
  planned_at interval anchor n = Ok t →
  (1 ≤ n)%N ∧ t = (anchor + Z.of_N interval.(WomlInterval.every_ms) * Z.of_N n * NANOS_PER_MILLI)%Z.
Proof.
  unfold planned_at. intros (? & Hn%fail_if_ok & (offset & Ho%ok_or_ok & Ha%ok_or_ok)%result_bind_ok)%result_bind_ok.
  apply bind_Some in Ho as (v & Hv & Ho). unfold u64_checked in Hv. destruct (_ <? _)%N; [|done]. injection Hv as <-.
  unfold i64_try_from in Ho. destruct (_ <=? _)%N; [|done]. injection Ho as <-.
  apply add_milliseconds_spec in Ha as ->. apply N.eqb_neq in Hn. split; lia.
Qed.

(** A time in whole milliseconds is not after another exactly when its milliseconds are not. *)
Lemma millis_le ms t : (ms * NANOS_PER_MILLI ≤ t)%Z ↔ (ms ≤ timestamp_millis t)%Z.
Proof.
  unfold timestamp_millis. pose proof (Z.div_mod t NANOS_PER_MILLI ltac:(done)) as Hd.
  pose proof (Z.mod_pos_bound t NANOS_PER_MILLI ltac:(done)) as Hm. unfold NANOS_PER_MILLI in *. lia.
Qed.

Lemma le_div (e x m : N) : (0 < e)%N → (m ≤ x / e ↔ e * m ≤ x)%N.
Proof.
  intros He. split; [|apply N.div_le_lower_bound; lia].
  intros Hm. transitivity (e * (x / e))%N; [by apply N.mul_le_mono_l|apply N.mul_div_le; lia].
Qed.

(** The grid of an interval is exact: for an anchor in whole milliseconds, the sequence after an
    instant is the number of its first planned time later than the instant, and the latest sequence
    is the number of the last one that is not later; there is no due occurrence exactly when every
    planned time is later. *)
Theorem interval_grid_exact every_ms interval raw_anchor anchor instant :
  interval_new every_ms = Ok interval → normalize_anchor raw_anchor = Ok anchor →
  (∀ n, next_sequence_after interval anchor instant = Ok n → (1 ≤ n)%N ∧
     ∀ m t, planned_at interval anchor m = Ok t → (instant < t)%Z ↔ (n ≤ m)%N)
  ∧ (∀ n, latest_sequence_at_or_before interval anchor instant = Ok n → (1 ≤ n)%N ∧
     ∀ m t, planned_at interval anchor m = Ok t → (t ≤ instant)%Z ↔ (m ≤ n)%N)
  ∧ (latest_sequence_at_or_before interval anchor instant = Err IntervalError.NoDueOccurrence →
     ∀ m t, planned_at interval anchor m = Ok t → (instant < t)%Z).
Proof.
  unfold interval_new. intros (? & Hr%fail_if_ok & [= <-])%result_bind_ok Ha.
  apply negb_false_iff, andb_true_iff in Hr as [Hlo%N.leb_le _].
  assert (0 < every_ms)%N as Hev by (unfold MIN_INTERVAL_MS in Hlo; lia). clear Hlo.
  apply ok_or_ok, instant_from_millis_spec in Ha. set (A := timestamp_millis raw_anchor) in Ha.
  assert (timestamp_millis anchor = A) as HA by (rewrite Ha; by apply Z.div_mul).
  set (I := timestamp_millis instant).
  assert (∀ m t, planned_at (WomlInterval.mk every_ms) anchor m = Ok t →
    (1 ≤ m)%N ∧ ((t ≤ instant)%Z ↔ (A + Z.of_N every_ms * Z.of_N m ≤ I)%Z)) as Hp.
  { intros m t [Hm ->]%planned_at_ok. split; [done|]. simpl. rewrite Ha.
    replace (A * NANOS_PER_MILLI + Z.of_N every_ms * Z.of_N m * NANOS_PER_MILLI)%Z
      with ((A + Z.of_N every_ms * Z.of_N m) * NANOS_PER_MILLI)%Z by lia. apply millis_le. }
  unfold next_sequence_after, latest_sequence_at_or_before. simpl. rewrite HA. fold I.
  clearbody A I. clear Ha HA. split_and!.
  - intros n Hn. apply result_bind_ok in Hn as (elapsed & He%ok_or_ok & Hn).
    unfold i64_checked_sub in He. destruct (in_i64 _); [|done]. injection He as <-.
    destruct (Z.ltb_spec (I - A) 0) as [Hneg|Hpos].
    + injection Hn as <-. split; [done|]. intros m t [Hm Ht]%Hp. split; [done|]. intros _.
      destruct (decide (t ≤ instant)%Z) as [Hle%Ht|]; [|lia].
      pose proof (Z.mul_nonneg_nonneg (Z.of_N every_ms) (Z.of_N m) ltac:(lia) ltac:(lia)). lia.
    + apply ok_or_ok in Hn. rewrite (proj2 (N.eqb_neq _ _)) in Hn by lia. unfold u64_checked in Hn.
      destruct (_ <? _)%N; [|done]. injection Hn as <-. split; [apply N.le_add_l|]. intros m t [Hm Ht]%Hp.
      pose proof (le_div every_ms (Z.to_N (I - A)) m Hev) as Hq.
      generalize dependent (Z.to_N (I - A) / every_ms)%N. intros q Hq.
      assert ((t ≤ instant)%Z ↔ (m ≤ q)%N) as Hiff by (rewrite Ht, Hq; lia). lia.
  - intros n Hn. apply result_bind_ok in Hn as (elapsed & He%ok_or_ok & Hn).
    unfold i64_checked_sub in He. destruct (in_i64 _); [|done]. injection He as <-.
    apply result_bind_ok in Hn as (every & Hv%ok_or_ok & Hn).
    unfold i64_try_from in Hv. destruct (_ <=? _)%N; [|done]. injection Hv as <-.
    destruct (Z.ltb_spec (I - A) (Z.of_N every_ms)) as [|Hge]; [done|]. apply ok_or_ok in Hn.
    rewrite (proj2 (Z.ltb_ge _ _)), (proj2 (N.eqb_neq _ _)) in Hn by lia. simpl in Hn.
    destruct (N.leb_spec 1 (Z.to_N (I - A) / every_ms)) as [Hq|]; [|done]. injection Hn as <-. split; [done|].
    intros m t [Hm Ht]%Hp. rewrite Ht, le_div by done. lia.
  - intros Hn m t [Hm Ht]%Hp. destruct (decide (t ≤ instant)%Z) as [Hc%Ht|]; [|lia].
    unfold i64_checked_sub, i64_try_from in Hn.
    destruct (in_i64 _); [|done]. simpl in Hn. destruct (_ <=? _)%N; [|done]. simpl in Hn.
    destruct (Z.ltb_spec (I - A) (Z.of_N every_ms)) as [Hlt|Hge]; [nia|].
    unfold ok_or in Hn. by destruct (_ ≫= _).
Qed.
End interval_properties.

(** ** The grammar of a field *)

(** An item of a field: all values, one value or a range, and a step. *)
Inductive cron_base :=
| star
| single (n : N)
| range (a b : N).
Record cron_item := mk_item {
  item_base : cron_base;
  item_step : option N
}.

Definition print_base (base : cron_base) : string :=
  match base with
  | star => "*"
  | single n => decimal n
  | range a b => decimal a +:+ String "-" (decimal b)
  end.
Definition print_item (item : cron_item) : string :=
  match item_step item with
  | Some step => print_base (item_base item) +:+ String "/" (decimal step)
  | None => print_base (item_base item)
  end.
Definition print_field (items : list cron_item) : string := String.concat "," (print_item <$> items).

(** The first and last value of an item; a single value with a step goes on to the maximum. *)
Definition item_span (lo hi : N) (item : cron_item) : N * N :=
  match item_base item with
  | star => (lo, hi)
  | single n => (n, if item_step item then hi else n)
  | range a b => (a, b)
  end.

(** The values of an item: every [step]-th of its span. *)
Definition denotes (lo hi : N) (item : cron_item) (v : N) : Prop :=
  ∃ k, v = ((item_span lo hi item).1 + k * default 1 (item_step item))%N ∧ (v ≤ (item_span lo hi item).2)%N.

Definition valid_item (lo hi : N) (item : cron_item) : Prop :=
  match item_base item with
  | star => True
  | single n => (lo ≤ n ≤ hi)%N
  | range a b => (lo ≤ a ∧ a ≤ b ∧ b ≤ hi)%N
  end
  ∧ from_option (λ step, 1 ≤ step < u32_modulus)%N True (item_step item).

(** What a field that stands for some items is. *)
Definition field_means (field : nat) (lo hi : N) (items : list cron_item) (f : CronField) : Prop :=
  (∀ v, v ∈ f.(CronField.values) ↔ ∃ item w, item ∈ items ∧ denotes lo hi item w ∧ v = field_value field w)
  ∧ (f.(CronField.unrestricted) = true ↔ ∀ w, (lo ≤ w ≤ hi)%N → field_value field w ∈ f.(CronField.values)).

Lemma step_values_spec fuel field value end_ step acc v :
  (1 ≤ step)%N → (end_ < value + N.of_nat fuel)%N → (end_ < u32_modulus)%N →
  v ∈ step_values fuel field value end_ step acc ↔
  v ∈ acc ∨ ∃ k, (value + k * step ≤ end_)%N ∧ v = field_value field (value + k * step).
Proof.
  intros Hs. revert value acc. induction fuel as [|fuel IH]; intros value acc Hf He; simpl.
  { split; [by left|]. intros [|(k & Hk & _)]; [done|]. nia. }
  destruct (N.leb_spec value end_) as [Hle|Hgt].
  2: { split; [by left|]. intros [|(k & Hk & _)]; [done|]. nia. }
  assert (∀ k, (value + k * step ≤ end_)%N ↔
    k = 0%N ∨ ∃ k', k = (k' + 1)%N ∧ (value + step + k' * step ≤ end_)%N) as Hk.
  { intros k. split.
    - intros H. destruct (decide (k = 0%N)) as [->|]; [by left|right]. exists (k - 1)%N. split; [lia|nia].
    - intros [->|(k' & -> & H)]; nia. }
  destruct (N.ltb_spec (value + step) u32_modulus) as [Hlt|Hge].
  - rewrite IH by lia. rewrite elem_of_union, elem_of_singleton. split.
    + intros [[->| ]|(k & Hle' & ->)]; [right; exists 0%N|by left|right; exists (k + 1)%N].
      * split; [lia|]. f_equal. lia.
      * split; [nia|]. f_equal. lia.
    + intros [|(k & [->|(k' & -> & Hle')]%Hk & ->)]; [by left; right|left; left; f_equal; lia|right].
      exists k'. split; [done|]. f_equal. lia.
  - rewrite elem_of_union, elem_of_singleton. split.
    + intros [->| ]; [right; exists 0%N|by left]. split; [lia|]. f_equal. lia.
    + intros [|(k & [->|(k' & -> & Hle')]%Hk & ->)]; [by right|left; f_equal; lia|]. nia.
Qed.

Lemma parse_number_decimal field n lo hi :
  (lo ≤ n ≤ hi)%N → (n < u32_modulus)%N → parse_number field (decimal n) lo hi = Ok n.
Proof.
  intros Hn Hu. unfold parse_number. destruct (decimal_digits n) as [Hd Hne]. rewrite Hd.
  assert (str_is_empty (decimal n) = false) as -> by (by destruct (decimal n)). simpl.
  unfold parse_u32. rewrite parse_decimal by (unfold u32_modulus, usize_modulus in *; lia). simpl.
  rewrite (proj2 (N.ltb_lt _ _)) by done. simpl.
  by rewrite (proj2 (N.ltb_ge _ _)), (proj2 (N.ltb_ge _ _)) by lia.
Qed.

(** The bytes of an item. *)
Definition item_byte (b : Ascii.ascii) : bool :=
  is_ascii_digit b || is_byte "*" b || is_byte "-" b || is_byte "/" b.

Lemma decimal_bytes f n : (∀ b, is_ascii_digit b = true → f b = true) → bytes_all f (decimal n) = true.
Proof. intros Hf. eapply bytes_all_impl; [exact Hf|apply decimal_digits]. Qed.

Lemma decimal_item n : bytes_all item_byte (decimal n) = true.
Proof. apply decimal_bytes. intros b Hb. unfold item_byte. by rewrite Hb. Qed.

Lemma decimal_free c n : is_ascii_digit c = false → free_of c (decimal n) = true.
Proof. intros Hc. apply digits_free; [done|apply decimal_digits]. Qed.

Lemma print_base_free base : free_of "/" (print_base base) = true.
Proof.
  destruct base; simpl; [done|by apply decimal_free|].
  unfold free_of. rewrite bytes_all_app. change (free_of "/" (decimal a) && free_of "/" (decimal b) = true).
  by rewrite !decimal_free.
Qed.

Lemma print_item_bytes item : bytes_all item_byte (print_item item) = true.
Proof.
  assert (bytes_all item_byte (print_base (item_base item)) = true) as Hb.
  { destruct (item_base item); simpl; [done|apply decimal_item|]. rewrite bytes_all_app. simpl. by rewrite !decimal_item. }
  unfold print_item. destruct (item_step item); [|done]. rewrite bytes_all_app. simpl. by rewrite Hb, decimal_item.
Qed.

Lemma app_nonempty a b : a ≠ "" → str_is_empty (a +:+ b) = false.
Proof. by destruct a. Qed.

Lemma print_base_nonempty base : print_base base ≠ "".
Proof.
  destruct base; simpl; [done|apply decimal_digits|]. destruct (decimal_digits a) as [_ Hne].
  by destruct (decimal a).
Qed.

Lemma print_item_nonempty item : str_is_empty (print_item item) = false.
Proof.
  unfold print_item. pose proof (print_base_nonempty (item_base item)).
  destruct (item_step item); [by apply app_nonempty|]. by destruct (print_base _).
Qed.

Lemma parse_step_print field item lo hi :
  valid_item lo hi item →
  parse_step field (print_item item) = Ok (print_base (item_base item), default 1%N (item_step item)).
Proof.
  intros [_ Hs]. unfold parse_step, print_item. destruct (item_step item) as [step|]; simpl in Hs.
  - rewrite split_once_byte by apply print_base_free.
    assert (str_is_empty (print_base (item_base item)) = false) as ->.
    { pose proof (print_base_nonempty (item_base item)). by destruct (print_base _). }
    destruct (decimal_digits step) as [_ Hne].
    assert (str_is_empty (decimal step) = false) as -> by (by destruct (decimal step)).
    rewrite contains_free by by apply decimal_free. simpl.
    rewrite parse_number_decimal by (unfold u32_modulus in *; lia). simpl.
    by rewrite (proj2 (N.eqb_neq _ _)) by lia.
  - by rewrite split_once_free by apply print_base_free.
Qed.

Lemma parse_range_print field item lo hi :
  valid_item lo hi item → (lo ≤ hi)%N → (hi < u32_modulus)%N →
  parse_range field (print_item item) (print_base (item_base item)) lo hi = Ok (item_span lo hi item).
Proof.
  intros [Hv _] Hlh Hhi. unfold parse_range, item_span. destruct (item_base item) as [|n|a b] eqn:Hb; simpl.
  - done.
  - assert (decimal n ≠ "*") as Hne by (intros He; destruct (decimal_digits n) as [Hd _]; by rewrite He in Hd).
    rewrite (proj2 (bool_decide_eq_false _)) by done. rewrite split_once_free by by apply decimal_free.
    rewrite parse_number_decimal by lia. simpl. unfold print_item. rewrite Hb. simpl.
    destruct (item_step item); [by rewrite contains_byte by by apply decimal_free|].
    by rewrite contains_free by by apply decimal_free.
  - assert (split_once "-" (decimal a +:+ String "-" (decimal b)) = Some (decimal a, decimal b)) as Hsp
      by (by apply split_once_byte, decimal_free).
    rewrite (proj2 (bool_decide_eq_false _)) by (intros He; by rewrite He in Hsp). rewrite Hsp.
    destruct (decimal_digits a) as [_ Ha], (decimal_digits b) as [_ Hbn].
    assert (str_is_empty (decimal a) = false) as -> by (by destruct (decimal a)).
    assert (str_is_empty (decimal b) = false) as -> by (by destruct (decimal b)).
    rewrite contains_free by by apply decimal_free. simpl.
    rewrite !parse_number_decimal by lia. simpl. by rewrite (proj2 (N.ltb_ge _ _)) by lia.
Qed.

Lemma item_span_bounds lo hi item :
  valid_item lo hi item → (lo ≤ hi)%N →
  (lo ≤ (item_span lo hi item).1 ∧ (item_span lo hi item).1 ≤ (item_span lo hi item).2 ∧ (item_span lo hi item).2 ≤ hi)%N.
Proof. intros [Hv _] Hlh. unfold item_span. destruct (item_base item), (item_step item); simpl in *; lia. Qed.

Lemma parse_items_print field lo hi items acc :
  Forall (valid_item lo hi) items → (lo ≤ hi)%N → (hi < u32_modulus)%N →
  ∃ values, parse_items field lo hi (print_item <$> items) acc = Ok values
    ∧ ∀ v, v ∈ values ↔ v ∈ acc ∨ ∃ item w, item ∈ items ∧ denotes lo hi item w ∧ v = field_value field w.
Proof.
  intros Hf Hlh Hhi. revert acc. induction Hf as [|item items Hv Hf IH]; intros acc.
  { exists acc. split; [done|]. intros v. split; [by left|]. intros [|(? & ? & []%elem_of_nil & _)]. done. }
  simpl. rewrite print_item_nonempty. simpl.
  rewrite (parse_step_print field item lo hi Hv). simpl. rewrite (parse_range_print field item lo hi Hv Hlh Hhi). simpl.
  pose proof (item_span_bounds lo hi item Hv Hlh) as Hb. unfold denotes.
  destruct (item_span lo hi item) as [start end_] eqn:Hsp. simpl in Hb |- *.
  destruct (IH (step_values (S (N.to_nat (end_ - start))) field start end_ (default 1%N (item_step item)) acc))
    as (values & Hp & Hm).
  exists values. split; [exact Hp|]. intros v. rewrite Hm, step_values_spec; [|by destruct Hv as [_ Hs]; destruct (item_step item); simpl in *; lia|lia|lia].
  split.
  - intros [[|(k & Hk & ->)]|(it & w & Hit & Hd & ->)]; [by left|right..].
    + exists item, (start + k * default 1 (item_step item))%N. rewrite Hsp. split_and!; [left|by exists k|done].
    + exists it, w. split_and!; [by right|done|done].
  - intros [|(it & w & [->|Hit]%elem_of_cons & Hd & ->)]; [by left; left|left; right|right; by exists it, w].
    destruct Hd as (k & -> & Hle). rewrite Hsp in *. by exists k.
Qed.

Lemma denotes_bounds lo hi item w :
  valid_item lo hi item → (lo ≤ hi)%N → denotes lo hi item w → (lo ≤ w ≤ hi)%N.
Proof. intros Hv Hlh (k & -> & Hle). pose proof (item_span_bounds lo hi item Hv Hlh). nia. Qed.

Lemma elem_of_every_value field lo hi v :
  (lo ≤ hi)%N → v ∈ every_value field lo hi ↔ ∃ w, (lo ≤ w ≤ hi)%N ∧ v = field_value field w.
Proof.
  intros Hlh. unfold every_value. rewrite elem_of_list_to_set, list_elem_of_fmap. split.
  - intros (n & -> & Hn%elem_of_seq). exists (lo + N.of_nat n)%N. split; [lia|done].
  - intros (w & Hw & ->). exists (N.to_nat (w - lo)). split; [f_equal; lia|]. apply elem_of_seq. lia.
Qed.

Lemma parse_field_print field lo hi items :
  items ≠ [] → Forall (valid_item lo hi) items → (lo ≤ hi)%N → (hi < u32_modulus)%N →
  ∃ f, parse_field field (print_field items) lo hi = Ok f ∧ field_means field lo hi items f.
Proof.
  intros Hne Hf Hlh Hhi. unfold parse_field, print_field.
  rewrite (split_concat ",").
  2: by destruct items. 
  2: { apply Forall_fmap, Forall_forall. intros item _. simpl. eapply bytes_all_impl; [|apply print_item_bytes].
       intros [[] [] [] [] [] [] [] []]; vm_compute; congruence. }
  destruct (parse_items_print field lo hi items ∅ Hf Hlh Hhi) as (values & -> & Hv). simpl.
  assert (values ≠ ∅) as Hvne.
  { destruct items as [|item items]; [done|]. inversion Hf as [|?? Hi _]; subst.
    pose proof (item_span_bounds lo hi item Hi Hlh) as Hb.
    assert (field_value field (item_span lo hi item).1 ∈ values) as Hin.
    { apply Hv. right. exists item, (item_span lo hi item).1. split_and!; [left| |done].
      exists 0%N. split; [lia|lia]. }
    intros ->. set_solver. }
  rewrite (bool_decide_eq_false_2 (values = ∅) Hvne). simpl. eexists. split; [done|]. split; simpl.
  - intros v. rewrite Hv. set_solver.
  - rewrite bool_decide_eq_true. split.
    + intros -> w Hw. apply elem_of_every_value; [done|]. by exists w.
    + intros Hall. apply set_eq. intros v. rewrite elem_of_every_value by done. split; [|by intros (w & Hw & ->); apply Hall].
      intros [?|(item & w & Hit & Hd & ->)]%Hv; [set_solver|]. exists w. split; [|done].
      eapply denotes_bounds; [by eapply Forall_forall|done|done].
Qed.

Section cron_properties.
Context {engine : EngineExternals} {zones : ScheduleExternals}.

(** A cron expression: the items of its five fields. *)
Record cron := mk_cron {
  cron_minutes : list cron_item;
  cron_hours : list cron_item;
  cron_days : list cron_item;
  cron_months : list cron_item;
  cron_weekdays : list cron_item
}.

Definition cron_fields (c : cron) : list (list cron_item) :=
  [cron_minutes c; cron_hours c; cron_days c; cron_months c; cron_weekdays c].
Definition print_cron (c : cron) : string := String.concat " " (print_field <$> cron_fields c).

Definition valid_field (bounds : N * N) (items : list cron_item) : Prop :=
  items ≠ [] ∧ Forall (valid_item bounds.1 bounds.2) items.
Definition valid_cron (c : cron) : Prop := Forall2 valid_field schedule_bounds (cron_fields c).

(** The bytes of a field. *)
Definition field_byte (b : Ascii.ascii) : bool := item_byte b || is_byte "," b.

Lemma print_field_bytes items : bytes_all field_byte (print_field items) = true.
Proof.
  apply bytes_all_concat; [done|]. apply Forall_fmap, Forall_forall. intros item _. simpl.
  eapply bytes_all_impl; [|apply print_item_bytes]. intros b Hb. unfold field_byte. by rewrite Hb.
Qed.

Lemma print_field_nonempty items : items ≠ [] → print_field items ≠ "".
Proof.
  unfold print_field. destruct items as [|item items]; [done|]. intros _.
  change (String.concat "," (print_item item :: (print_item <$> items)) ≠ "").
  pose proof (print_item_nonempty item) as Hi. destruct (print_item <$> items), (print_item item); done.
Qed.

Lemma print_fields_spaced c :
  valid_cron c → Forall (λ s, free_of " " s = true ∧ s ≠ "") (print_field <$> cron_fields c).
Proof.
  intros Hc. apply Forall_fmap. eapply Forall2_Forall_r; [exact Hc|].
  apply Forall_forall. intros bounds _ items [Hne _]. split; [|by apply print_field_nonempty].
  eapply bytes_all_impl; [|apply print_field_bytes]. intros [[] [] [] [] [] [] [] []]; vm_compute; congruence.
Qed.

(** Every byte of an expression passes the check of white space. *)
Lemma print_cron_bytes c :
  bytes_all (λ b, negb (is_ascii_whitespace b) || is_byte " " b) (print_cron c) = true.
Proof.
  apply bytes_all_concat; [done|]. apply Forall_fmap, Forall_forall. intros items _. simpl.
  eapply bytes_all_impl; [|apply print_field_bytes]. intros [[] [] [] [] [] [] [] []]; vm_compute; congruence.
Qed.

Lemma parse_fields_print index bounds fields :
  Forall2 valid_field bounds fields → Forall (λ b, b.1 ≤ b.2 < u32_modulus)%N bounds →
  ∃ parsed, parse_fields index (print_field <$> fields) bounds = Ok parsed
    ∧ length parsed = length fields
    ∧ ∀ i f lo hi items, parsed !! i = Some f → bounds !! i = Some (lo, hi) → fields !! i = Some items →
        field_means (index + i) lo hi items f.
Proof.
  intros Hf. revert index. induction Hf as [|[lo hi] items bounds fields [Hne Hv] Hf IH]; intros index Hb.
  { exists []. split_and!; [done|done|]. by intros [] ??????. }
  inversion Hb as [|?? Hlh Hb']; subst. simpl in Hlh, Hv.
  destruct (parse_field_print index lo hi items Hne Hv ltac:(lia) ltac:(lia)) as (f & Hp & Hm).
  destruct (IH (S index) Hb') as (parsed & Hps & Hlen & Hms). exists (f :: parsed).
  rewrite fmap_cons. cbn [parse_fields head List.tail expect result_bind]. rewrite Hp. cbn [result_bind].
  rewrite Hps. split_and!; [done|simpl; lia|]. intros [|i] f' lo' hi' items' Hi Hbi Hfi; simplify_eq/=.
  - by rewrite Nat.add_0_r.
  - replace (index + S i) with (S index + i) by lia. by eapply Hms.
Qed.

(** C28 Cron expressions mean what they say: a valid expression, printed and parsed, gives a schedule
    whose fields hold exactly the values that its items denote, and a field is unrestricted
    exactly when it holds every value of its range. *)
Theorem cron_roundtrip c zone tz :
  valid_cron c → (str_len (print_cron c) ≤ 256)%N → canonical_timezone zone = Ok tz →
  ∃ schedule, schedule_parse (print_cron c) zone = Ok schedule
    ∧ timezone schedule = tz
    ∧ field_means 0 0 59 (cron_minutes c) (minutes schedule)
    ∧ field_means 1 0 23 (cron_hours c) (hours schedule)
    ∧ field_means 2 1 31 (cron_days c) (days schedule)
    ∧ field_means 3 1 12 (cron_months c) (months schedule)
    ∧ field_means 4 0 7 (cron_weekdays c) (weekdays schedule).
Proof.
  intros Hc Hlen Hz. unfold schedule_parse. pose proof (print_fields_spaced c Hc) as Hsp.
  assert (str_is_empty (print_cron c) = false) as Hne.
  { unfold print_cron. inversion Hsp as [|?? [_ Hn] _]. simpl. by destruct (print_field (cron_minutes c)). }
  assert (split (is_byte " ") (print_cron c) = print_field <$> cron_fields c) as Hsplit.
  { apply (split_concat " "); [done|]. eapply Forall_impl; [exact Hsp|]. by intros s [Hs _]. }
  assert (has_pair " " " " (print_cron c) = false) as Hpair by by apply has_pair_concat.
  rewrite Hne, (proj2 (N.ltb_ge _ _)), (contains_pair " " " "), Hpair, print_cron_bytes by done.
  cbn [orb negb fail_if result_bind]. rewrite Hsplit.
  assert (existsb str_is_empty (print_field <$> cron_fields c) = false) as ->.
  { apply not_true_iff_false. intros (s & Hs%list_elem_of_In & He)%existsb_exists.
    eapply Forall_forall in Hsp as [_ Hn]; [|exact Hs]. by destruct s. }
  destruct (parse_fields_print 0 schedule_bounds (cron_fields c) Hc) as (parsed & Hp & Hl & Hm).
  { repeat constructor; unfold u32_modulus; simpl; lia. }
  rewrite length_fmap. simpl. unfold cron_fields in Hp. simpl in Hp. rewrite Hp. simpl. rewrite Hz. simpl.
  destruct parsed as [|f0 [|f1 [|f2 [|f3 [|f4 [|? ?]]]]]]; try done.
  eexists. split; [done|]. simpl. split_and!; [done|..].
  - by apply (Hm 0). - by apply (Hm 1). - by apply (Hm 2). - by apply (Hm 3). - by apply (Hm 4).
Qed.
End cron_properties.
