(* ===== verification/DurableStore.v ===== *)
(** * The durable event store

    durable/events/history.rs, durable/events/compatibility.rs, durable/events/commits.rs and
    the definitions of durable/definitions.rs: runs bound to registered definitions, and
    transactions that append events to their histories.  [StoreTables] is what the SQLite tables
    hold, with the JSON columns decoded; a transaction returns the new tables or an error that
    rolls it back.  Every append also writes the read models of its run (durable/indexes): the run
    summary and the rows of the runtime policy.  The correction indexes of events from version 18
    on are left out: no transaction modelled here reads them. *)

From S2P Require Import Prelude GraphSearch Strings Json EventTypes ProjectionTypes Guards.
From S2P Require Import FoldRun FoldControlFlow FoldCorrection FoldApprovals FoldOperations.
From S2P Require Import FoldLifecycle IterationFold EventIdentities EventValidation Fold.
From S2P Require Import FoldFrames ValidationProperties HistoryProperties ProjectionCache.
From S2P Require Import ModelTypes EngineExternals ModelQueries ModelIssues ModelContracts.
From S2P Require Import GraphContracts ForkContracts TopologicalOrder LoopContracts.
From S2P Require Import DurableContracts ModelValidation Readiness DefinitionValidation.
From S2P Require Import HistoryRules DagEngine.

Class StoreExternals := {
  (** The [n]-th [Uuid::new_v4().simple()] of the process. *)
  uuid_simple : nat → string;
  (** [DateTime::to_rfc3339]. *)
  to_rfc3339 : DateTime → string;
  (** Whether two definitions have the same serde encoding, as [serde_json::Value]s. *)
  same_definition_json : CompiledWorkflowDefinition → CompiledWorkflowDefinition → bool;
}.

(** [DurableStoreError], durable/errors.rs; the errors of SQLite, serde and the reviewer
    directory are kept without their content. *)
Module DurableStoreError.
Inductive DurableStoreError :=
| Sqlite
| Json
| Fold (error : FoldError)
| InvalidModel (error : ModelValidationError)
| UnsupportedStoreVersion (version : string)
| DefinitionNotFound (definition_hash : string)
| DefinitionConflict (definition_hash : string)
| RunNotFound (run_id : string)
| RunAlreadyExists (run_id : string)
| TriggerNotFound (workflow_id trigger_id : string)
| TriggerDefinitionMismatch
| TriggerHandlerMismatch
| TriggerIdempotencyConflict
| RuntimePolicyDefinitionConflict (workflow_id : string)
| RuntimePolicyQueueFull
| SchedulerClaimConflict (run_id : string)
| SchedulerRecoveryRequired (run_id : string)
| InternalEventIdempotencyConflict
| InternalEventCycle
| InternalEventDepthExceeded
| WorkflowCallIdempotencyConflict
| WorkflowCallDepthExceeded
| WorkflowCallCycle
| WorkflowCallDefinitionMismatch
| WorkflowCallHistoryInvalid (message : string)
| WorkflowRuntimeDuplicateOwner (workflow_id : string)
| DeploymentRuntimeOwned (deployment_id runtime_instance_id : string)
| ScheduleCursorConflict
| IntervalCursorConflict
| TriggerHistoryInvalid (message : string)
| InvalidStoredEvent (message : string)
| InvalidApprovalToken
| ExpiredApprovalToken
| ApprovalExpired
| ApprovalDecisionConflict
| RichApprovalNotFound
| RichApprovalBindingMismatch
| RichApprovalReviewerConflict
| ReviewerDirectory
| LockIdempotencyConflict
| LockWaitLimit
| LockFencingExhausted
| LockHistoryInvalid (message : string)
| ApprovalHasNoDeadline
| Contract (message : string).
End DurableStoreError.
Abbreviation DurableStoreError := DurableStoreError.DurableStoreError.

Definition store_result := result DurableStoreError.

(** ** Historical outcomes *)

(** [lifecycle_warnings_from_projection], durable/events/compatibility.rs. *)
Definition action_warning (hook : LifecycleHookProjection) (action : LifecycleActionProjection) :
    option LifecycleWarning :=
  failure ← action.(LifecycleActionProjection.failure);
  Some (LifecycleWarning.mk hook.(LifecycleHookProjection.hook_id) action.(LifecycleActionProjection.action_id)
          (match hook.(LifecycleHookProjection.subject).(LifecycleSubject.kind) with
           | LifecycleSubjectKind.Step => Some hook.(LifecycleHookProjection.subject).(LifecycleSubject.id)
           | LifecycleSubjectKind.Workflow => None
           end) None None failure.(LifecycleFailure.code)).
Definition lifecycle_warnings_from_projection (projection : RunProjection) : list LifecycleWarning :=
  flat_map (λ hook,
      omap (action_warning hook) (btree_values hook.(LifecycleHookProjection.actions)))
    (btree_values projection.(RunProjection.lifecycle_hooks)).

Definition lifecycle_failure_from_attempt (failure : AttemptFailure) : LifecycleFailure :=
  let kind :=
    match failure.(AttemptFailure.kind) with
    | AttemptFailureKind.ScriptThrew => LifecycleFailureKind.ScriptThrew
    | AttemptFailureKind.ScriptTimedOut => LifecycleFailureKind.TimedOut
    | AttemptFailureKind.InvalidScriptResult => LifecycleFailureKind.NonJson
    | AttemptFailureKind.ContextTooLarge | AttemptFailureKind.ResultTooLarge =>
        LifecycleFailureKind.SizeLimitExceeded
    | AttemptFailureKind.WorkerCrashed => LifecycleFailureKind.WorkerCrashed
    | AttemptFailureKind.HostCrashed => LifecycleFailureKind.HostCrashed
    | AttemptFailureKind.InvocationCancelled => LifecycleFailureKind.Cancelled
    | AttemptFailureKind.Interrupted => LifecycleFailureKind.Interrupted
    | AttemptFailureKind.ServiceFailed => LifecycleFailureKind.ProviderFailed
    end in
  LifecycleFailure.mk kind failure.(AttemptFailure.code) failure.(AttemptFailure.message).

Definition lifecycle_failure_from_legacy (data : RunFailedData) : LifecycleFailure :=
  match data with
  | RunFailedData.V1 data => lifecycle_failure_from_attempt data.(RunFailedDataV1.failure)
  | RunFailedData.V2 (RunFailedDataV2.Attempt _ _ _ failure) => lifecycle_failure_from_attempt failure
  | RunFailedData.V2 (RunFailedDataV2.Branch _ _ _ failure) =>
      let message :=
        match failure with
        | BranchFailure.BranchTestNotBoolean _ message _
        | BranchFailure.ReferenceNotAvailable _ message
        | BranchFailure.BranchSelectionInvalid _ message => message
        end in
      LifecycleFailure.mk LifecycleFailureKind.ProviderFailed (branch_failure_code failure) message
  | RunFailedData.V3 (RunFailedDataV3.Parallel _ _ _ _ _ failure) =>
      LifecycleFailure.mk LifecycleFailureKind.ProviderFailed failure.(ParallelFailure.code) failure.(ParallelFailure.message)
  | RunFailedData.V4 (RunFailedDataV4.Approval _ _ failure) =>
      LifecycleFailure.mk LifecycleFailureKind.TimedOut failure.(ApprovalFailure.code) failure.(ApprovalFailure.message)
  | RunFailedData.V5 (RunFailedDataV5.Notification _ _ _ failure) =>
      LifecycleFailure.mk LifecycleFailureKind.ProviderFailed failure.(NotificationRunFailure.code) failure.(NotificationRunFailure.message)
  end.

Section compatibility.
Context `{!Externals} (workflow : CompiledWorkflowDefinition) (run_id : string).

(** The request of a hook for a subject. *)
Definition hook_request (hook : CompiledLifecycleHook) (subject : LifecycleSubject) : RunEventPayload :=
  RunEventPayload.LifecycleHookRequested
    (LifecycleHookRequestedData.mk
       (derive_lifecycle_hook_invocation_id run_id hook.(CompiledLifecycleHook.hook_id) subject.(LifecycleSubject.kind) subject.(LifecycleSubject.id))
       hook.(CompiledLifecycleHook.hook_id) hook.(CompiledLifecycleHook.event) subject).

Definition step_hook_request (event : LifecycleEventName) (step_id : string) : option RunEventPayload :=
  hook ← lifecycle_hook_for_step_event workflow event step_id;
  Some (hook_request hook (LifecycleSubject.mk LifecycleSubjectKind.Step step_id)).

Definition workflow_hook_request (hook : CompiledLifecycleHook) : RunEventPayload :=
  hook_request hook (LifecycleSubject.mk LifecycleSubjectKind.Workflow run_id).

(** The outcome of a run, the request of its hook, and its end when it has no lifecycle. *)
Definition expand_outcome (outcome : RunOutcomeDecidedData) (business_outcome : BusinessOutcome)
    (event : LifecycleEventName) : list RunEventPayload :=
  let next_hook :=
    or_else (lifecycle_hook_for_event workflow event)
      (lifecycle_hook_for_event workflow LifecycleEventName.RunComplete) in
  RunEventPayload.RunOutcomeDecided outcome
    :: match next_hook with
       | Some hook => [workflow_hook_request hook]
       | None =>
           match workflow.(CompiledWorkflowDefinition.lifecycle) with
           | None => [RunEventPayload.RunFinalized (RunFinalizedData.mk business_outcome FinalLifecycleStatus.Completed [])]
           | Some _ => []
           end
       end.

Definition expand_model_v11_payload (payload : RunEventPayload) : list RunEventPayload :=
  match payload with
  | RunEventPayload.RunStarted _ | RunEventPayload.RunExecutionStarted _ =>
      payload :: option_list (workflow_hook_request <$>
                                lifecycle_hook_for_event workflow LifecycleEventName.RunStart)
  | RunEventPayload.StepAttemptStarted data =>
      if (data.(StepAttemptStartedData.attempt) =? 1)%N
      then payload :: option_list (step_hook_request LifecycleEventName.StepStart data.(StepAttemptStartedData.node_id))
      else [payload]
  | RunEventPayload.StepAttemptSucceeded data =>
      payload :: option_list
        (or_else (step_hook_request LifecycleEventName.StepSuccess data.(StepAttemptSucceededData.node_id))
           (step_hook_request LifecycleEventName.StepComplete data.(StepAttemptSucceededData.node_id)))
  | RunEventPayload.StepAttemptFailed data =>
      let retryable :=
        is_some_and (node ← node workflow data.(StepAttemptFailedData.node_id); node.(CompiledWorkflowNode.retry_policy))
          (λ policy,
             (data.(StepAttemptFailedData.failure).(AttemptFailure.kind) == AttemptFailureKind.ScriptThrew)
             && (data.(StepAttemptFailedData.attempt) <? policy.(RetryPolicy.max_attempts))%N) in
      if retryable then [payload]
      else
        let event :=
          if data.(StepAttemptFailedData.failure).(AttemptFailure.kind) == AttemptFailureKind.InvocationCancelled
          then LifecycleEventName.StepComplete else LifecycleEventName.StepFailure in
        payload :: option_list
          (or_else (step_hook_request event data.(StepAttemptFailedData.node_id))
             (if event != LifecycleEventName.StepComplete
              then step_hook_request LifecycleEventName.StepComplete data.(StepAttemptFailedData.node_id) else None))
  | RunEventPayload.RunSucceeded data =>
      expand_outcome (RunOutcomeDecidedData.Succeeded data.(RunSucceededData.result)) BusinessOutcome.Succeeded
        LifecycleEventName.RunSuccess
  | RunEventPayload.RunFailed data =>
      expand_outcome (RunOutcomeDecidedData.Failed (lifecycle_failure_from_legacy data)) BusinessOutcome.Failed
        LifecycleEventName.RunFailure
  | payload => [payload]
  end.
End compatibility.

(** ** Tables *)

(** The owner columns of woml_lock_resources, which are all null or all set. *)
Module LockOwner.
Record LockOwner := mk {
  lease_id : string;
  run_id : string;
  node_execution_id : string;
  fencing_token : Z;
  acquired_at : string;
  expires_at : string
}.
End LockOwner.
Abbreviation LockOwner := LockOwner.LockOwner.

(** A row of woml_lock_resources, below its key. *)
Module LockResource.
Record LockResource := mk {
  fencing_high_water : Z;
  owner : option LockOwner;
  updated_at : string
}.
End LockResource.
Abbreviation LockResource := LockResource.LockResource.

(** The status column of woml_lock_waiters. *)
Module WaiterStatus.
Inductive WaiterStatus :=
| waiting
| held
| released
| timed_out
| cancelled
| lost.
#[global] Instance WaiterStatus_eq_dec : EqDecision WaiterStatus.
Proof. solve_decision. Defined.
End WaiterStatus.
Abbreviation WaiterStatus := WaiterStatus.WaiterStatus.

(** A row of woml_lock_waiters, below its waiter_id. *)
Module LockWaiter.
Record LockWaiter := mk {
  key : string;
  run_id : string;
  node_execution_id : string;
  sequence : Z;
  registered_at : string;
  deadline : string;
  status : WaiterStatus;
  input_digest : string
}.
#[global] Instance LockWaiter_eta : Eta LockWaiter := λ r,
  mk (key r) (run_id r) (node_execution_id r) (sequence r) (registered_at r) (deadline r) (status r)
    (input_digest r).
#[global] Instance set_status : Setter status := ltac:(mk_setter).
End LockWaiter.
Abbreviation LockWaiter := LockWaiter.LockWaiter.

(** [RunDefinitionBinding], below its run. *)
Module RunDefinitionBinding.
Record RunDefinitionBinding := mk {
  workflow_id : string;
  definition_hash : string
}.
End RunDefinitionBinding.
Abbreviation RunDefinitionBinding := RunDefinitionBinding.RunDefinitionBinding.

(** [PublicRunStatus], durable/records/inspection.rs. *)
Module PublicRunStatus.
Inductive PublicRunStatus :=
| NotStarted
| Queued
| Running
| Waiting
| Cancelling
| Finalizing
| Succeeded
| Failed
| Cancelled.
#[global] Instance PublicRunStatus_eq_dec : EqDecision PublicRunStatus.
Proof. solve_decision. Defined.
End PublicRunStatus.
Abbreviation PublicRunStatus := PublicRunStatus.PublicRunStatus.

Definition public_run_status (value : RunStatus) : PublicRunStatus :=
  match value with
  | RunStatus.NotStarted => PublicRunStatus.NotStarted
  | RunStatus.Queued => PublicRunStatus.Queued
  | RunStatus.Running => PublicRunStatus.Running
  | RunStatus.Waiting => PublicRunStatus.Waiting
  | RunStatus.Cancelling => PublicRunStatus.Cancelling
  | RunStatus.Finalizing => PublicRunStatus.Finalizing
  | RunStatus.Succeeded => PublicRunStatus.Succeeded
  | RunStatus.Failed => PublicRunStatus.Failed
  | RunStatus.Cancelled => PublicRunStatus.Cancelled
  end.

(** [PolicyClaimWaitReason], durable/records/policy.rs, and the waiting_for column. *)
Module PolicyClaimWaitReason.
Inductive PolicyClaimWaitReason := Concurrency | RateLimit.
#[global] Instance PolicyClaimWaitReason_eq_dec : EqDecision PolicyClaimWaitReason.
Proof. solve_decision. Defined.
End PolicyClaimWaitReason.
Abbreviation PolicyClaimWaitReason := PolicyClaimWaitReason.PolicyClaimWaitReason.

(** A row of woml_run_summaries, below its run. *)
Module RunSummary.
Record RunSummary := mk {
  workflow_id : string;
  status : PublicRunStatus;
  admitted_at : string;
  started_at : option string;
  updated_at : string;
  queue_name : option string;
  waiting_for : option PolicyClaimWaitReason;
  eligible_at : option string
}.
End RunSummary.
Abbreviation RunSummary := RunSummary.RunSummary.

(** A row of woml_runtime_policy_bindings. *)
Module PolicyBinding.
Record PolicyBinding := mk {
  workflow_id : string;
  definition_hash : string;
  policy_hash : string;
  queue_name : string;
  admitted_at : string;
  occurrence_sequence : Z
}.
End PolicyBinding.
Abbreviation PolicyBinding := PolicyBinding.PolicyBinding.

(** A row of woml_runtime_policy_queue. *)
Module QueuedRun.
Record QueuedRun := mk {
  workflow_id : string;
  queue_name : string;
  admitted_at : string;
  occurrence_sequence : Z
}.
End QueuedRun.
Abbreviation QueuedRun := QueuedRun.QueuedRun.

(** A row of woml_runtime_policy_starts. *)
Module PolicyStart.
Record PolicyStart := mk {
  workflow_id : string;
  started_at : string
}.
End PolicyStart.
Abbreviation PolicyStart := PolicyStart.PolicyStart.

(** The read models, which are derived from the events. *)
Module RunIndexes.
Record RunIndexes := mk {
  run_summaries : gmap string RunSummary;
  policy_bindings : gmap string PolicyBinding;
  policy_queue : gmap string QueuedRun;
  policy_starts : gmap string PolicyStart
}.
#[global] Instance RunIndexes_eta : Eta RunIndexes := λ r,
  mk (run_summaries r) (policy_bindings r) (policy_queue r) (policy_starts r).
#[global] Instance set_run_summaries : Setter run_summaries := ltac:(mk_setter).
#[global] Instance set_policy_bindings : Setter policy_bindings := ltac:(mk_setter).
#[global] Instance set_policy_queue : Setter policy_queue := ltac:(mk_setter).
#[global] Instance set_policy_starts : Setter policy_starts := ltac:(mk_setter).
End RunIndexes.
Abbreviation RunIndexes := RunIndexes.RunIndexes.

(** A row of woml_scheduler_claims. *)
Module SchedulerClaim.
Record SchedulerClaim := mk {
  workflow_id : string;
  owner_id : string;
  claim_id : string;
  claimed_at : string;
  expires_at : string
}.
#[global] Instance SchedulerClaim_eta : Eta SchedulerClaim := λ r,
  mk (workflow_id r) (owner_id r) (claim_id r) (claimed_at r) (expires_at r).
#[global] Instance set_workflow_id : Setter workflow_id := ltac:(mk_setter).
#[global] Instance set_claimed_at : Setter claimed_at := ltac:(mk_setter).
#[global] Instance set_expires_at : Setter expires_at := ltac:(mk_setter).
End SchedulerClaim.
Abbreviation SchedulerClaim := SchedulerClaim.SchedulerClaim.

(** A row of woml_trigger_occurrences, below its occurrence_id. *)
Module StoredOccurrence.
Record StoredOccurrence := mk {
  workflow_id : string;
  trigger_id : string;
  trigger_handler : string;
  definition_hash : string;
  source_identity_hash : string;
  payload_hash : string;
  received_at : string;
  run_id : string
}.
End StoredOccurrence.
Abbreviation StoredOccurrence := StoredOccurrence.StoredOccurrence.

(** A row of woml_schedule_cursors, below its workflow and trigger. *)
Module StoredSchedule.
Record StoredSchedule := mk {
  definition_hash : string;
  cron : string;
  timezone : string;
  on_missed : string;
  next_scheduled_at : string;
  updated_at : string
}.
#[global] Instance StoredSchedule_eta : Eta StoredSchedule := λ r,
  mk (definition_hash r) (cron r) (timezone r) (on_missed r) (next_scheduled_at r) (updated_at r).
#[global] Instance set_next_scheduled_at : Setter next_scheduled_at := ltac:(mk_setter).
#[global] Instance set_updated_at : Setter updated_at := ltac:(mk_setter).
End StoredSchedule.
Abbreviation StoredSchedule := StoredSchedule.StoredSchedule.

(** A row of woml_interval_cursors, below its workflow and trigger. *)
Module StoredInterval.
Record StoredInterval := mk {
  definition_hash : string;
  every_ms : Z;
  on_missed : string;
  anchor_at : string;
  next_sequence : Z;
  next_scheduled_at : string;
  updated_at : string
}.
#[global] Instance StoredInterval_eta : Eta StoredInterval := λ r,
  mk (definition_hash r) (every_ms r) (on_missed r) (anchor_at r) (next_sequence r) (next_scheduled_at r)
    (updated_at r).
#[global] Instance set_next_sequence : Setter next_sequence := ltac:(mk_setter).
#[global] Instance set_next_scheduled_at : Setter next_scheduled_at := ltac:(mk_setter).
#[global] Instance set_updated_at : Setter updated_at := ltac:(mk_setter).
End StoredInterval.
Abbreviation StoredInterval := StoredInterval.StoredInterval.

(** A row of woml_internal_event_publications, below its publication_id. *)
Module StoredPublication.
Record StoredPublication := mk {
  parent_run_id : string;
  event_name : string;
  payload_hash : string;
  depth : N;
  emitted_at : string
}.
End StoredPublication.
Abbreviation StoredPublication := StoredPublication.StoredPublication.

(** The tables of triggers; a delivery, by publication, workflow and trigger, has the run. *)
Module TriggerTables.
Record TriggerTables := mk {
  occurrences : gmap string StoredOccurrence;
  schedule_cursors : gmap (string * string) StoredSchedule;
  interval_cursors : gmap (string * string) StoredInterval;
  publications : gmap string StoredPublication;
  deliveries : gmap (string * string * string) string
}.
#[global] Instance TriggerTables_eta : Eta TriggerTables := λ r,
  mk (occurrences r) (schedule_cursors r) (interval_cursors r) (publications r) (deliveries r).
#[global] Instance set_occurrences : Setter occurrences := ltac:(mk_setter).
#[global] Instance set_schedule_cursors : Setter schedule_cursors := ltac:(mk_setter).
#[global] Instance set_interval_cursors : Setter interval_cursors := ltac:(mk_setter).
#[global] Instance set_publications : Setter publications := ltac:(mk_setter).
#[global] Instance set_deliveries : Setter deliveries := ltac:(mk_setter).
End TriggerTables.
Abbreviation TriggerTables := TriggerTables.TriggerTables.

(** The tables of the store: definitions by hash, runs, their events in order of sequence, the
    read models, the locks, the claims of schedulers and the triggers; and how many UUIDs the process
    has drawn. *)
Module StoreTables.
Record StoreTables := mk {
  definitions : gmap string CompiledWorkflowDefinition;
  runs : gmap string RunDefinitionBinding;
  run_events : gmap string (list RunEvent);
  indexes : RunIndexes;
  lock_resources : gmap string LockResource;
  lock_waiters : gmap string LockWaiter;
  scheduler_claims : gmap string SchedulerClaim;
  triggers : TriggerTables;
  uuids_drawn : nat
}.
#[global] Instance StoreTables_eta : Eta StoreTables := λ r,
  mk (definitions r) (runs r) (run_events r) (indexes r) (lock_resources r) (lock_waiters r)
    (scheduler_claims r) (triggers r) (uuids_drawn r).
#[global] Instance set_definitions : Setter definitions := ltac:(mk_setter).
#[global] Instance set_runs : Setter runs := ltac:(mk_setter).
#[global] Instance set_run_events : Setter run_events := ltac:(mk_setter).
#[global] Instance set_indexes : Setter indexes := ltac:(mk_setter).
#[global] Instance set_lock_resources : Setter lock_resources := ltac:(mk_setter).
#[global] Instance set_lock_waiters : Setter lock_waiters := ltac:(mk_setter).
#[global] Instance set_scheduler_claims : Setter scheduler_claims := ltac:(mk_setter).
#[global] Instance set_triggers : Setter triggers := ltac:(mk_setter).
#[global] Instance set_uuids_drawn : Setter uuids_drawn := ltac:(mk_setter).
End StoreTables.
Abbreviation StoreTables := StoreTables.StoreTables.

(** [DurableEventStore]: the tables, and the projection cache of the process. *)
Module DurableEventStore.
Record DurableEventStore := mk {
  tables : StoreTables;
  projection_cache : Cache
}.
End DurableEventStore.
Abbreviation DurableEventStore := DurableEventStore.DurableEventStore.

Section tables.
Context `{!Externals, !EngineExternals, !StoreExternals}.

(** [generated_event_id]. *)
Definition generated_event_id (db : StoreTables) : StoreTables * string :=
  (db <| StoreTables.uuids_drawn ::= S |>, "evt_" +:+ uuid_simple db.(StoreTables.uuids_drawn)).

(** ** Definitions and bindings *)

(** [DurableEventStore::definition] and [definition_by_hash]. *)
Definition definition_by_hash (db : StoreTables) (definition_hash : string) :
    store_result CompiledWorkflowDefinition :=
  let? workflow := ok_or (db.(StoreTables.definitions) !! definition_hash) (DurableStoreError.DefinitionNotFound definition_hash) in
  check map_err DurableStoreError.InvalidModel (validate_structure workflow);
  Ok workflow.

Definition run_binding_in_transaction (db : StoreTables) (run_id : string) :
    store_result RunDefinitionBinding :=
  ok_or (db.(StoreTables.runs) !! run_id) (DurableStoreError.RunNotFound run_id).

Definition definition_for_run (db : StoreTables) (run_id : string) :
    store_result CompiledWorkflowDefinition :=
  let? workflow :=
    ok_or (binding ← db.(StoreTables.runs) !! run_id; db.(StoreTables.definitions) !! binding.(RunDefinitionBinding.definition_hash))
      (DurableStoreError.RunNotFound run_id) in
  check map_err DurableStoreError.InvalidModel (validate_structure workflow);
  Ok workflow.

(** [DurableEventStore::register_definition]. *)
Definition register_definition (db : StoreTables) (workflow : CompiledWorkflowDefinition)
    (definition_hash : string) : store_result StoreTables :=
  check map_err DurableStoreError.InvalidModel (validate_structure workflow);
  check fail_if (negb (is_definition_hash definition_hash))
    (DurableStoreError.Contract "A durable definition requires a valid RFC 8785 SHA-256 hash.");
  match db.(StoreTables.definitions) !! definition_hash with
  | Some stored =>
      check fail_if
        ((stored.(CompiledWorkflowDefinition.workflow_id) != workflow.(CompiledWorkflowDefinition.workflow_id)) || negb (same_definition_json stored workflow))
        (DurableStoreError.DefinitionConflict definition_hash);
      Ok db
  | None => Ok (db <| StoreTables.definitions ::= <[definition_hash := workflow]> |>)
  end.

(** ** Histories *)

Definition ensure_run_exists (db : StoreTables) (run_id : string) : store_result unit :=
  fail_if (is_none (db.(StoreTables.runs) !! run_id)) (DurableStoreError.RunNotFound run_id).

(** The rows of a run. *)
Definition stored_events (db : StoreTables) (run_id : string) : list RunEvent :=
  default [] (db.(StoreTables.run_events) !! run_id).

Fixpoint check_stored_events (run_id : string) (events : list RunEvent) : store_result unit :=
  match events with
  | [] => Ok tt
  | event :: events =>
      check fail_if (event.(RunEvent.run_id) != run_id)
        (DurableStoreError.InvalidStoredEvent "indexed event columns do not match event_json");
      check map_err (λ _, DurableStoreError.InvalidStoredEvent "{error}") (validate event);
      check_stored_events run_id events
  end.

Definition load_events (db : StoreTables) (run_id : string) : store_result (list RunEvent) :=
  check check_stored_events run_id (stored_events db run_id);
  Ok (stored_events db run_id).

(** INSERT INTO woml_run_events: event identifiers and the sequence numbers of a run are unique.
    A row that the fold accepts comes after those of its run. *)
Definition insert_event (db : StoreTables) (run_id : string) (event : RunEvent) :
    store_result StoreTables :=
  check fail_if
    (existsb (λ row : string * list RunEvent,
         existsb (λ stored, stored.(RunEvent.event_id) == event.(RunEvent.event_id)) row.2)
       (map_to_list db.(StoreTables.run_events))
     || existsb (λ stored, stored.(RunEvent.sequence) == event.(RunEvent.sequence)) (stored_events db run_id))
    DurableStoreError.Sqlite;
  Ok (db <| StoreTables.run_events ::= <[run_id := stored_events db run_id ++ [event]]> |>).

(** The event that an append stores. *)
Definition next_event (events : list RunEvent) (run_id event_id : string) (occurred_at : DateTime)
    (event_schema_version : N) (iteration : option ForEachIterationScope) (payload : RunEventPayload) :
    RunEvent :=
  {| RunEvent.event_schema_version := event_schema_version;
     RunEvent.event_id := event_id;
     RunEvent.run_id := run_id;
     RunEvent.sequence := u64_add (N.of_nat (length events)) 1;
     RunEvent.occurred_at := occurred_at;
     RunEvent.iteration := iteration;
     RunEvent.payload := payload |}.

(** The tail of both appends: the number must fit into an SQLite integer. *)
Definition store_event (db : StoreTables) (run_id : string) (event : RunEvent) : store_result StoreTables :=
  let? _ := ok_or (i64_try_from event.(RunEvent.sequence))
    (DurableStoreError.Contract "event sequence exceeds SQLite integer range") in
  insert_event db run_id event.

(** ** Read models *)

(** The workflow of a run; a run without a row is an error of SQLite. *)
Definition workflow_of_run (db : StoreTables) (run_id : string) : store_result string :=
  ok_or (RunDefinitionBinding.workflow_id <$> db.(StoreTables.runs) !! run_id) DurableStoreError.Sqlite.

(** The upsert leaves the columns of the wait of an existing row as they are. *)
Definition summary_row (workflow_id : string) (first : RunEvent) (updated_at : DateTime)
    (projection : RunProjection) (existing : option RunSummary) : RunSummary :=
  RunSummary.mk workflow_id (public_run_status projection.(RunProjection.status)) (to_rfc3339 first.(RunEvent.occurred_at))
    (to_rfc3339 <$> projection.(RunProjection.started_at)) (to_rfc3339 updated_at) projection.(RunProjection.queue)
    (existing ≫= RunSummary.waiting_for) (existing ≫= RunSummary.eligible_at).

Definition write_run_summary_from_projection (db : StoreTables) (first : RunEvent) (updated_at : DateTime)
    (projection : RunProjection) : store_result StoreTables :=
  let? workflow_id := workflow_of_run db first.(RunEvent.run_id) in
  let row := summary_row workflow_id first updated_at projection
               (db.(StoreTables.indexes).(RunIndexes.run_summaries) !! first.(RunEvent.run_id)) in
  Ok (db <| StoreTables.indexes ::= λ i, i <| RunIndexes.run_summaries ::= <[first.(RunEvent.run_id) := row]> |> |>).

Definition write_run_summary (db : StoreTables) (events : list RunEvent) : store_result StoreTables :=
  match head events, last events with
  | Some first, Some latest =>
      let? projection := map_err DurableStoreError.Fold (fold_events events) in
      write_run_summary_from_projection db first latest.(RunEvent.occurred_at) projection
  | _, _ => Ok db
  end.

Definition write_runtime_policy_indexes_from_projection (db : StoreTables) (run_id : string)
    (admission : RunAdmittedData) (projection : RunProjection) : store_result StoreTables :=
  let? workflow_id := workflow_of_run db run_id in
  let? occurrence_sequence :=
    ok_or (i64_try_from admission.(RunAdmittedData.occurrence_sequence))
      (DurableStoreError.Contract "occurrenceSequence exceeds SQLite integer range") in
  check fail_if (is_none (db.(StoreTables.definitions) !! admission.(RunAdmittedData.definition_hash))) DurableStoreError.Sqlite;
  let binding :=
    PolicyBinding.mk workflow_id admission.(RunAdmittedData.definition_hash) admission.(RunAdmittedData.policy_hash) admission.(RunAdmittedData.queue).(RunAdmissionQueue.name)
      (to_rfc3339 admission.(RunAdmittedData.admitted_at)) occurrence_sequence in
  let queued :=
    if projection.(RunProjection.status) == RunStatus.Queued
    then Some (QueuedRun.mk workflow_id admission.(RunAdmittedData.queue).(RunAdmissionQueue.name) (to_rfc3339 admission.(RunAdmittedData.admitted_at))
                 occurrence_sequence)
    else None in
  let started := (λ at_, PolicyStart.mk workflow_id (to_rfc3339 at_)) <$> projection.(RunProjection.started_at) in
  Ok (db <| StoreTables.indexes ::= λ i,
    i <| RunIndexes.policy_bindings ::= <[run_id := binding]> |>
      <| RunIndexes.policy_queue ::= partial_alter (λ _, queued) run_id |>
      <| RunIndexes.policy_starts ::= partial_alter (λ _, started) run_id |> |>).

Definition write_runtime_policy_indexes_for_run (db : StoreTables) (events : list RunEvent) :
    store_result StoreTables :=
  match head events with
  | Some first =>
      match first.(RunEvent.payload) with
      | RunEventPayload.RunAdmitted admission =>
          let? projection := map_err DurableStoreError.Fold (fold_events events) in
          write_runtime_policy_indexes_from_projection db first.(RunEvent.run_id) admission projection
      | _ => Ok db
      end
  | None => Ok db
  end.

(** What a commit writes of the read models from the projection at hand. *)
Definition write_read_models (db : StoreTables) (run_id : string) (events : list RunEvent)
    (updated_at : DateTime) (projection : RunProjection) : store_result StoreTables :=
  let? first := expect (head events) "called `Option::unwrap()` on a `None` value" in
  let? db := write_run_summary_from_projection db first updated_at projection in
  match first.(RunEvent.payload) with
  | RunEventPayload.RunAdmitted admission =>
      write_runtime_policy_indexes_from_projection db run_id admission projection
  | _ => Ok db
  end.

(** The reconstructions from the events of all runs, in the order of the runs' identifiers. *)
Definition run_ids_in_order (db : StoreTables) : list string := (btree_iter db.(StoreTables.runs)).*1.

Fixpoint for_runs (write : StoreTables → list RunEvent → store_result StoreTables) (db : StoreTables)
    (run_ids : list string) : store_result StoreTables :=
  match run_ids with
  | [] => Ok db
  | run_id :: run_ids =>
      let? events := load_events db run_id in
      let? db := write db events in
      for_runs write db run_ids
  end.

Definition rebuild_run_summary_index (db : StoreTables) : store_result StoreTables :=
  for_runs write_run_summary (db <| StoreTables.indexes ::= λ i, i <| RunIndexes.run_summaries := ∅ |> |>)
    (run_ids_in_order db).

Definition rebuild_runtime_policy_indexes (db : StoreTables) : store_result StoreTables :=
  for_runs write_runtime_policy_indexes_for_run
    (db <| StoreTables.indexes ::= λ i,
       i <| RunIndexes.policy_queue := ∅ |> <| RunIndexes.policy_starts := ∅ |>
         <| RunIndexes.policy_bindings := ∅ |> |>)
    (run_ids_in_order db).

(** SELECT COUNT( * ) of the rows with a property. *)
Definition count_rows {A} (f : A → bool) (rows : gmap string A) : nat :=
  length (filter (λ row : string * A, f row.2 = true) (map_to_list rows)).

Definition first_event_version (version : N) (events : list RunEvent) : bool :=
  existsb (λ event, (event.(RunEvent.sequence) =? 1)%N && (event.(RunEvent.event_schema_version) =? version)%N) events.

Definition runtime_policy_indexes_need_rebuild (db : StoreTables) : bool :=
  let i := db.(StoreTables.indexes) in
  negb (size db.(StoreTables.runs) =? size i.(RunIndexes.run_summaries))
  || negb (count_rows (first_event_version 11) db.(StoreTables.run_events) =? size i.(RunIndexes.policy_bindings))
  || negb (count_rows (λ s, RunSummary.status s == PublicRunStatus.Queued) i.(RunIndexes.run_summaries)
           =? size i.(RunIndexes.policy_queue))
  || negb (count_rows (λ s, is_some (RunSummary.queue_name s) && is_some (RunSummary.started_at s))
             i.(RunIndexes.run_summaries) =? size i.(RunIndexes.policy_starts)).

(** ** Appends *)

Definition append_single_to_history (db : StoreTables) (events : list RunEvent)
    (run_id event_id : string) (occurred_at : DateTime) (event_schema_version : N)
    (iteration : option ForEachIterationScope) (payload : RunEventPayload) :
    store_result (StoreTables * list RunEvent * RunEvent) :=
  let event := next_event events run_id event_id occurred_at event_schema_version iteration payload in
  let? _ := map_err DurableStoreError.Fold (fold_events (events ++ [event])) in
  let? db := store_event db run_id event in
  let? db := write_run_summary db (events ++ [event]) in
  let? db := write_runtime_policy_indexes_for_run db (events ++ [event]) in
  Ok (db, events ++ [event], event).

(** The same with the fold state of the history at hand. *)
Definition append_single_to_history_incremental (db : StoreTables) (events : list RunEvent)
    (state : ProjectionFoldState) (run_id event_id : string) (occurred_at : DateTime)
    (event_schema_version : N) (iteration : option ForEachIterationScope) (payload : RunEventPayload)
    (update_read_models : bool) :
    store_result (StoreTables * list RunEvent * ProjectionFoldState * RunEvent) :=
  let event := next_event events run_id event_id occurred_at event_schema_version iteration payload in
  let? state := map_err DurableStoreError.Fold (apply state event) in
  let? db := store_event db run_id event in
  let? db :=
    if update_read_models
    then write_read_models db run_id (events ++ [event]) occurred_at state.(ProjectionFoldState.projection)
    else Ok db in
  Ok (db, events ++ [event], state, event).

(** The schema versions whose payloads are expanded. *)
Definition expands (event_schema_version : N) : bool := in_range 10 20 event_schema_version.

Definition expanded_payloads (db : StoreTables) (run_id : string) (event_schema_version : N)
    (payload : RunEventPayload) : store_result (list RunEventPayload) :=
  if expands event_schema_version
     && match payload with RunEventPayload.RunSucceeded _ | RunEventPayload.RunFailed _ => true | _ => false end
  then
    let? workflow := definition_for_run db run_id in
    Ok (expand_model_v11_payload workflow run_id payload)
  else Ok [payload].

(** The identifier of the first event of an append is given, the others are generated. *)
Definition identifier (db : StoreTables) (first : option RunEvent) (event_id : string) :
    StoreTables * string :=
  match first with None => (db, event_id) | Some _ => generated_event_id db end.

Section append.
Context (run_id event_id : string) (occurred_at : DateTime) (event_schema_version : N).
Context (iteration : option ForEachIterationScope).

Fixpoint append_all (db : StoreTables) (events : list RunEvent) (payloads : list RunEventPayload)
    (first : option RunEvent) : store_result (StoreTables * list RunEvent * option RunEvent) :=
  match payloads with
  | [] => Ok (db, events, first)
  | payload :: payloads =>
      let '(db, id) := identifier db first event_id in
      let? (db, events, event) :=
        append_single_to_history db events run_id id occurred_at event_schema_version iteration
          payload in
      append_all db events payloads (or_else first (Some event))
  end.

Definition append_to_history_scoped (db : StoreTables) (events : list RunEvent)
    (payload : RunEventPayload) : store_result (StoreTables * list RunEvent * RunEvent) :=
  let? payloads := expanded_payloads db run_id event_schema_version payload in
  let? (db, events, first) := append_all db events payloads None in
  let? first := expect first "called `Option::unwrap()` on a `None` value" in
  Ok (db, events, first).

Fixpoint append_all_incremental (db : StoreTables) (events : list RunEvent) (state : ProjectionFoldState)
    (payloads : list RunEventPayload) (first : option RunEvent) (update_read_models : bool) :
    store_result (StoreTables * list RunEvent * ProjectionFoldState * option RunEvent) :=
  match payloads with
  | [] => Ok (db, events, state, first)
  | payload :: payloads =>
      let '(db, id) := identifier db first event_id in
      let? (db, events, state, event) :=
        append_single_to_history_incremental db events state run_id id occurred_at
          event_schema_version iteration payload update_read_models in
      append_all_incremental db events state payloads (or_else first (Some event)) update_read_models
  end.

Definition append_to_history_scoped_incremental (db : StoreTables) (events : list RunEvent)
    (state : ProjectionFoldState) (payload : RunEventPayload) (update_read_models : bool) :
    store_result (StoreTables * list RunEvent * ProjectionFoldState * RunEvent) :=
  let? payloads := expanded_payloads db run_id event_schema_version payload in
  let? (db, events, state, first) :=
    append_all_incremental db events state payloads None update_read_models in
  let? first := expect first "called `Option::unwrap()` on a `None` value" in
  Ok (db, events, state, first).
End append.

(** ** Commits *)

(** What [append_payload_scoped] does for the first event of a run: the new run, and the schema
    version of its events. *)
Definition start_binding (db : StoreTables) (run_id : string) (payload : RunEventPayload) :
    store_result (StoreTables * N) :=
  let create definition_hash (registered : CompiledWorkflowDefinition) version :=
    Ok (db <| StoreTables.runs ::=
          <[run_id := RunDefinitionBinding.mk registered.(CompiledWorkflowDefinition.workflow_id) definition_hash]> |>, version) in
  match payload with
  | RunEventPayload.RunAdmitted data =>
      check fail_if (is_some (db.(StoreTables.runs) !! run_id)) (DurableStoreError.RunAlreadyExists run_id);
      let? registered :=
        ok_or (db.(StoreTables.definitions) !! data.(RunAdmittedData.definition_hash)) (DurableStoreError.DefinitionNotFound data.(RunAdmittedData.definition_hash)) in
      let version := run_event_schema_version_for_model registered.(CompiledWorkflowDefinition.schema_version) in
      check fail_if (version <? 11)%N (DurableStoreError.Contract "run_admitted requires compiled Model v12 or later.");
      create data.(RunAdmittedData.definition_hash) registered version
  | RunEventPayload.RunStarted data =>
      check fail_if (is_some (db.(StoreTables.runs) !! run_id)) (DurableStoreError.RunAlreadyExists run_id);
      let? registered :=
        ok_or (db.(StoreTables.definitions) !! data.(RunStartedData.definition_hash)) (DurableStoreError.DefinitionNotFound data.(RunStartedData.definition_hash)) in
      check fail_if (registered.(CompiledWorkflowDefinition.workflow_id) != data.(RunStartedData.workflow_id))
        (DurableStoreError.Contract "run_started workflowId does not match its registered definition.");
      create data.(RunStartedData.definition_hash) registered (run_event_schema_version_for_model registered.(CompiledWorkflowDefinition.schema_version))
  | _ =>
      check ensure_run_exists db run_id;
      let? existing := load_events db run_id in
      let? first :=
        ok_or (head existing)
          (DurableStoreError.Contract "A non-start event cannot be appended before run_started.") in
      Ok (db, first.(RunEvent.event_schema_version))
  end.

Section commit.
Context (workflow : CompiledWorkflowDefinition) (definition_hash run_id : string).
Context (occurred_at : DateTime) (event_schema_version : N) (iteration : option ForEachIterationScope).

(** The check of a payload against the definition. *)
Definition check_payload (payload : RunEventPayload) : store_result unit :=
  map_err DurableStoreError.Contract
    (match iteration with
     | Some scope => validate_scoped_payload_against_definition workflow definition_hash run_id scope payload
     | None => validate_payload_against_definition workflow definition_hash payload
     end).

(** A branch is selected once, at a selector that is ready at the time [now] of the query. *)
Definition check_branch (projection : RunProjection) (payload : RunEventPayload) (now : DateTime) :
    store_result unit :=
  match iteration, payload with
  | None, RunEventPayload.BranchSelected data =>
      check fail_if (contains_key projection.(RunProjection.branch_selections) data.(BranchSelectedData.branch_id))
        (DurableStoreError.Contract "Branch {:?} already has an immutable selection.");
      let? ready :=
        map_err DurableStoreError.Contract (ready_node_ids_for_projection_at workflow definition_hash projection now) in
      fail_if (negb (existsb (λ node_id, node_id == branch_selector_id data.(BranchSelectedData.branch_id)) ready))
        (DurableStoreError.Contract "Branch selector {selector_id:?} is not ready for selection.")
  | _, _ => Ok tt
  end.

Fixpoint commit_payloads (db : StoreTables) (events : list RunEvent) (state : ProjectionFoldState)
    (event_id : string) (payloads : list RunEventPayload) (first : option RunEvent) (now : nat → DateTime) :
    store_result (StoreTables * list RunEvent * ProjectionFoldState * option RunEvent) :=
  match payloads with
  | [] => Ok (db, events, state, first)
  | payload :: payloads =>
      check check_payload payload;
      check check_branch state.(ProjectionFoldState.projection) payload (now 0%nat);
      let '(db, id) := identifier db first event_id in
      let? (db, events, state, event) :=
        append_to_history_scoped_incremental run_id id occurred_at event_schema_version iteration db
          events state payload true in
      commit_payloads db events state event_id payloads (or_else first (Some event)) (λ n, now (S n))
  end.
End commit.

(** [DurableEventStore::append_payload_scoped], from the lookup of the cache on; [now] are the
    times of its readiness queries, [clock] those of the history check. *)
Definition append_with_state (db : StoreTables) (events : list RunEvent) (state : ProjectionFoldState)
    (run_id event_id : string) (occurred_at : DateTime) (event_schema_version : N)
    (iteration : option ForEachIterationScope) (payload : RunEventPayload)
    (now clock : nat → DateTime) :
    store_result (StoreTables * list RunEvent * ProjectionFoldState * RunEvent) :=
  let? workflow := definition_for_run db run_id in
  let? binding := run_binding_in_transaction db run_id in
  let payloads :=
    if is_some iteration then [payload]
    else if expands event_schema_version then expand_model_v11_payload workflow run_id payload
    else [payload] in
  let? (db, events, state, first) :=
    commit_payloads workflow binding.(RunDefinitionBinding.definition_hash) run_id occurred_at event_schema_version iteration
      db events state event_id payloads None now in
  let? _ := map_err DurableStoreError.Contract (check_history workflow binding.(RunDefinitionBinding.definition_hash) events clock) in
  let? first := expect first "called `Option::unwrap()` on a `None` value" in
  Ok (db, events, state, first).

Section eviction.
Context (next_key : Cache → option string).

(** A transaction that works on the fold state of a run: the state leaves the cache when it is
    read and returns to it when the transaction commits. *)
Definition with_cached_state {A} (store : DurableEventStore) (db : StoreTables) (run_id : string)
    (events : list RunEvent)
    (transaction : ProjectionFoldState → store_result (StoreTables * ProjectionFoldState * A)) :
    DurableEventStore * store_result (A * RunProjection) :=
  let '(cache, looked_up) := projection_state_for_events store.(DurableEventStore.projection_cache) run_id events in
  match (let? state := map_err DurableStoreError.Fold looked_up in transaction state) with
  | Ok (db, state, result) =>
      (DurableEventStore.mk db (cache_projection_state next_key cache run_id state),
       Ok (result, state.(ProjectionFoldState.projection)))
  | Err e => (DurableEventStore.mk store.(DurableEventStore.tables) cache, Err e)
  | Panic message => (DurableEventStore.mk store.(DurableEventStore.tables) cache, Panic message)
  end.

Definition append_payload_scoped (store : DurableEventStore) (run_id event_id : string)
    (occurred_at : DateTime) (iteration : option ForEachIterationScope) (payload : RunEventPayload)
    (now clock : nat → DateTime) : DurableEventStore * store_result (RunEvent * RunProjection) :=
  match
    (let? (db, event_schema_version) := start_binding store.(DurableEventStore.tables) run_id payload in
     let? events := load_events db run_id in
     Ok (db, event_schema_version, events))
  with
  | Ok (db, event_schema_version, events) =>
      with_cached_state store db run_id events (λ state,
        let? (db, events, state, first) :=
          append_with_state db events state run_id event_id occurred_at event_schema_version iteration
            payload now clock in
        Ok (db, state, first))
  | Err e => (store, Err e)
  | Panic message => (store, Panic message)
  end.

(** [DurableEventStore::append_payload] and [DurableEventStore::start_run]. *)
Definition append_payload (store : DurableEventStore) (run_id event_id : string) (occurred_at : DateTime)
    (payload : RunEventPayload) (now clock : nat → DateTime) :
    DurableEventStore * store_result (RunEvent * RunProjection) :=
  append_payload_scoped store run_id event_id occurred_at None payload now clock.

Definition store_start_run (store : DurableEventStore) (event_id run_id : string) (occurred_at : DateTime)
    (workflow_id definition_hash : string) (trigger : Map) (now clock : nat → DateTime) :
    DurableEventStore * store_result (RunEvent * RunProjection) :=
  append_payload store run_id event_id occurred_at
    (RunEventPayload.RunStarted (RunStartedData.mk workflow_id definition_hash None None None None trigger)) now clock.

(** A registration of a compensation right after the success of its step gets the number of the
    success. *)
Definition sequence_registration (events : list RunEvent) (payload : RunEventPayload) : RunEventPayload :=
  match payload, last events with
  | RunEventPayload.CompensationRegistered registration, Some previous =>
      match previous.(RunEvent.payload) with
      | RunEventPayload.StepAttemptSucceeded succeeded =>
          if succeeded.(StepAttemptSucceededData.node_id) == registration.(CompensationRegisteredData.for_step_id)
          then RunEventPayload.CompensationRegistered
                 (CompensationRegisteredData.mk registration.(CompensationRegisteredData.saga_id) registration.(CompensationRegisteredData.action_id)
                    registration.(CompensationRegisteredData.for_step_id) previous.(RunEvent.sequence))
          else payload
      | _ => payload
      end
  | _, _ => payload
  end.

Section batch.
Context (workflow : CompiledWorkflowDefinition) (definition_hash run_id : string).
Context (event_schema_version : N) (iteration : option ForEachIterationScope).

Fixpoint batch_translated (db : StoreTables) (events : list RunEvent) (state : ProjectionFoldState)
    (event_id : string) (occurred_at : DateTime) (payloads : list RunEventPayload) (first : option RunEvent) :
    store_result (StoreTables * list RunEvent * ProjectionFoldState) :=
  match payloads with
  | [] => Ok (db, events, state)
  | payload :: payloads =>
      let payload := sequence_registration events payload in
      check check_payload workflow definition_hash run_id iteration payload;
      let '(db, id) := identifier db first event_id in
      let? (db, events, state, event) :=
        append_to_history_scoped_incremental run_id id occurred_at event_schema_version iteration db
          events state payload false in
      batch_translated db events state event_id occurred_at payloads (Some event)
  end.

Fixpoint batch_payloads (db : StoreTables) (events : list RunEvent) (state : ProjectionFoldState)
    (payloads : list (string * DateTime * RunEventPayload)) :
    store_result (StoreTables * list RunEvent * ProjectionFoldState) :=
  match payloads with
  | [] => Ok (db, events, state)
  | (event_id, occurred_at, payload) :: payloads =>
      let translated :=
        if expands event_schema_version then expand_model_v11_payload workflow run_id payload
        else [payload] in
      let? (db, events, state) := batch_translated db events state event_id occurred_at translated None in
      batch_payloads db events state payloads
  end.
End batch.

(** [DurableEventStore::append_payloads_scoped_atomically]. *)
Definition append_payloads_scoped_atomically (store : DurableEventStore) (run_id : string)
    (iteration : option ForEachIterationScope) (payloads : list (string * DateTime * RunEventPayload))
    (clock : nat → DateTime) : DurableEventStore * store_result RunProjection :=
  match
    (check fail_if (bool_decide (length payloads = 0)) (DurableStoreError.Contract "An atomic event batch must not be empty.");
     check ensure_run_exists store.(DurableEventStore.tables) run_id;
     load_events store.(DurableEventStore.tables) run_id)
  with
  | Ok events =>
      let '(store, appended) :=
        with_cached_state store store.(DurableEventStore.tables) run_id events (λ state,
          let? first :=
            ok_or (head events)
              (DurableStoreError.Contract "An atomic event batch cannot be appended before run_started.") in
          let? workflow := definition_for_run store.(DurableEventStore.tables) run_id in
          let? binding := run_binding_in_transaction store.(DurableEventStore.tables) run_id in
          let? (db, events, state) :=
            batch_payloads workflow binding.(RunDefinitionBinding.definition_hash) run_id first.(RunEvent.event_schema_version) iteration
              store.(DurableEventStore.tables) events state payloads in
          let? _ := map_err DurableStoreError.Contract (check_history workflow binding.(RunDefinitionBinding.definition_hash) events clock) in
          let? latest :=
            expect (last events) "an atomic event batch preserves a non-empty history" in
          let? db := write_read_models db run_id events latest.(RunEvent.occurred_at) state.(ProjectionFoldState.projection) in
          Ok (db, state, tt)) in
      (store, let? (_, projection) := appended in Ok projection)
  | Err e => (store, Err e)
  | Panic message => (store, Panic message)
  end.
End eviction.
End tables.
