(* ===== verification/LockQueue.v ===== *)
(** * The lock queue

    durable/transactions/locks/: leases on keys, granted in the order of registration, with
    increasing fencing tokens.  Each function is one transaction, or a part of one, on
    [StoreTables].  A lock of the workflow also appends events to the history of its run; a
    programmatic lease, which a script takes, only has its row.  [Err] rolls a transaction back. *)

From S2P Require Import Prelude GraphSearch Strings Json EventTypes ProjectionTypes Guards.
From S2P Require Import FoldRun FoldControlFlow FoldCorrection FoldApprovals FoldOperations.
From S2P Require Import FoldLifecycle IterationFold EventIdentities EventValidation Fold.
From S2P Require Import ModelTypes EngineExternals ModelQueries DefinitionValidation PolicyTypes.
From S2P Require Import PolicyBundle DurableStore.

(** [LockLeaseMaintenance], durable/records/locks.rs. *)
Module LockLeaseMaintenance.
Inductive LockLeaseMaintenance :=
| Renewed
| Lost
| NotHeld.
End LockLeaseMaintenance.
Abbreviation LockLeaseMaintenance := LockLeaseMaintenance.LockLeaseMaintenance.

(** [ProgrammaticLockLease], [ProgrammaticLockAcquireState] and [ProgrammaticLockAcquire]. *)
Module ProgrammaticLockLease.
Record ProgrammaticLockLease := mk {
  session_id : string;
  key : string;
  fencing_token : string;
  acquired_at : DateTime;
  expires_at : DateTime
}.
End ProgrammaticLockLease.
Abbreviation ProgrammaticLockLease := ProgrammaticLockLease.ProgrammaticLockLease.

Module ProgrammaticLockAcquireState.
Inductive ProgrammaticLockAcquireState :=
| Waiting
| Held
| TimedOut
| Cancelled
| Lost.
End ProgrammaticLockAcquireState.
Abbreviation ProgrammaticLockAcquireState := ProgrammaticLockAcquireState.ProgrammaticLockAcquireState.

Module ProgrammaticLockAcquire.
Record ProgrammaticLockAcquire := mk {
  state : ProgrammaticLockAcquireState;
  lease : option ProgrammaticLockLease
}.
End ProgrammaticLockAcquire.
Abbreviation ProgrammaticLockAcquire := ProgrammaticLockAcquire.ProgrammaticLockAcquire.

Definition LOCK_WAITERS_PER_KEY_LIMIT : N := 1024.
Definition LOCK_WAITERS_PER_STORE_LIMIT : N := 10000.

(** ** Identities *)

Definition PROGRAMMATIC_LOCK_IDENTITY_PREFIX : string := "capability:".

Definition programmatic_lock_execution_identity (session_id : string) (lease_ms : N) : string :=
  PROGRAMMATIC_LOCK_IDENTITY_PREFIX +:+ decimal lease_ms +:+ ":" +:+ session_id.

Definition programmatic_lock_lease_ms (execution_identity : string) : option N :=
  remainder ← strip_prefix PROGRAMMATIC_LOCK_IDENTITY_PREFIX execution_identity;
  '(lease_ms, session_id) ← split_once ":" remainder;
  lease_ms ← (if negb (str_is_empty session_id) then parse_usize lease_ms else None);
  if in_range 5000 600000 lease_ms then Some lease_ms else None.

(** [valid_lock_key], scope.rs. *)
Definition valid_lock_key (key : string) : bool :=
  negb (str_is_empty key) && (str_len key <=? 256)%N && is_trimmed key
  && negb (existsb is_control (chars key)) && negb (existsb str_is_empty (split (is_byte "/") key)).

Definition is_session_byte (b : Ascii.ascii) : bool :=
  is_ascii_alphanumeric b || is_byte "_" b || is_byte "-" b.

Definition validate_programmatic_lock_input (node_id invocation_id session_id key : string)
    (acquire_timeout_ms lease_ms : N) : store_result unit :=
  fail_if
    (str_is_empty node_id || str_is_empty invocation_id || str_is_empty session_id
     || (128 <? str_len session_id)%N || negb (bytes_all is_session_byte session_id)
     || negb (valid_lock_key key) || negb (in_range 1000 604800000 acquire_timeout_ms)
     || negb (in_range 5000 600000 lease_ms))
    (DurableStoreError.Contract "Programmatic lock acquisition input is invalid.").

(** ** Compiled scopes *)

(** The lock and the iteration that an execution identity stands for. *)
Definition resolve_lock_in_loop (projection : RunProjection) (execution_identity : string)
    (lock : CompiledLock) (loop_ : CompiledForEach) : option ForEachIterationScope :=
  rest ← strip_prefix (loop_.(CompiledForEach.for_each_id) +:+ ":") execution_identity;
  rest ← strip_suffix (":" +:+ lock.(CompiledLock.acquire_node_id)) rest;
  index ← parse_u32 rest;
  state ← projection.(RunProjection.for_each) !! loop_.(CompiledForEach.for_each_id);
  match state.(ForEachProjection.iterations) !! index with
  | Some ForEachIterationStatus.Started => Some (ForEachIterationScope.mk loop_.(CompiledForEach.for_each_id) index)
  | _ => None
  end.

Definition resolve_lock_execution (workflow : CompiledWorkflowDefinition) (projection : RunProjection)
    (execution_identity : string) : option (CompiledLock * option ForEachIterationScope) :=
  find_map (λ lock,
      if lock.(CompiledLock.acquire_node_id) == execution_identity then Some (lock, None)
      else
        scope ← find_map (resolve_lock_in_loop projection execution_identity lock)
          (List.filter (λ loop_,
               existsb (λ node, node.(CompiledWorkflowNode.id) == lock.(CompiledLock.acquire_node_id)) loop_.(CompiledForEach.body).(CompiledForEachBody.nodes))
             (unwrap_or_default workflow.(CompiledWorkflowDefinition.graph).(CompiledWorkflowGraph.for_each)));
        Some (lock, Some scope))
    (unwrap_or_default workflow.(CompiledWorkflowDefinition.graph).(CompiledWorkflowGraph.locks)).

(** Whether an identifier is that of a corrective action. *)
Definition corrective_action_matches (node_id : string) (action : CompiledCorrectiveAction) : bool :=
  match action.(CompiledCorrectiveAction.identity) with
  | CompiledCorrectionIdentity.Static action_id => action_id == node_id
  | CompiledCorrectionIdentity.ForEachIteration _ action_id_template =>
      is_some_and (split_once "{iterationKey}" action_id_template) (λ '(before, after),
        is_some_and (strip_prefix before node_id ≫= strip_suffix after) (λ index,
          is_some (parse_u32 index)))
  end.

Definition contains_node (lock : CompiledLock) (node_id : string) (edges : list CompiledWorkflowEdge) : bool :=
  search (search_fuel edges) as_stack (edge_targets edges) lock.(CompiledLock.body_terminal_node_id) node_id ∅
    [lock.(CompiledLock.body_entry_node_id)].

Definition lock_descriptor_for_protected_node (workflow : CompiledWorkflowDefinition) (node_id : string) :
    option CompiledLock :=
  let node_id :=
    from_option CompiledSaga.open_node_id node_id
      (List.find (λ saga,
           existsb (corrective_action_matches node_id) (saga.(CompiledSaga.compensations) ++ saga.(CompiledSaga.cleanup)))
         (unwrap_or_default workflow.(CompiledWorkflowDefinition.graph).(CompiledWorkflowGraph.sagas))) in
  List.find (λ lock,
      contains_node lock node_id workflow.(CompiledWorkflowDefinition.graph).(CompiledWorkflowGraph.edges)
      || existsb (λ loop_, contains_node lock node_id loop_.(CompiledForEach.body).(CompiledForEachBody.edges))
           (unwrap_or_default workflow.(CompiledWorkflowDefinition.graph).(CompiledWorkflowGraph.for_each)))
    (unwrap_or_default workflow.(CompiledWorkflowDefinition.graph).(CompiledWorkflowGraph.locks)).

(** The projected lock of a run, or of an iteration of it. *)
Definition projected_lock (projection : RunProjection) (iteration : option ForEachIterationScope)
    (lock_id : string) : option LockProjection :=
  match iteration with
  | Some scope =>
      loop_ ← projection.(RunProjection.for_each) !! scope.(ForEachIterationScope.for_each_id);
      execution ← loop_.(ForEachProjection.executions) !! scope.(ForEachIterationScope.index);
      execution.(ForEachIterationExecutionProjection.locks) !! lock_id
  | None => projection.(RunProjection.locks) !! lock_id
  end.

(** ** Statements *)

Section statements.
Implicit Types db : StoreTables.

(** UPDATE woml_lock_waiters SET status = .. WHERE run_id = .. AND node_execution_id = .. AND
    status = ..; the number of changed rows. *)
Definition waiter_matches (run_id node_execution_id : string) (status : WaiterStatus) (w : LockWaiter) : bool :=
  (w.(LockWaiter.run_id) == run_id) && (w.(LockWaiter.node_execution_id) == node_execution_id) && (w.(LockWaiter.status) == status).
Definition update_waiters (db : StoreTables) (run_id node_execution_id : string) (from to : WaiterStatus) :
    StoreTables * nat :=
  (db <| StoreTables.lock_waiters ::= fmap (λ w : LockWaiter,
           if waiter_matches run_id node_execution_id from w then w <| LockWaiter.status := to |> else w) |>,
   length (List.filter (λ item : string * LockWaiter, waiter_matches run_id node_execution_id from item.2)
             (map_to_list db.(StoreTables.lock_waiters)))).

(** UPDATE woml_lock_waiters SET status = 'held' WHERE waiter_id = .. AND status = 'waiting'. *)
Definition hold_waiter (db : StoreTables) (waiter_id : string) : StoreTables * nat :=
  match db.(StoreTables.lock_waiters) !! waiter_id with
  | Some w =>
      if w.(LockWaiter.status) == WaiterStatus.waiting
      then (db <| StoreTables.lock_waiters ::= <[waiter_id := w <| LockWaiter.status := WaiterStatus.held |>]> |>, 1)
      else (db, 0)
  | None => (db, 0)
  end.

(** The row of a run and execution; the pair is unique. *)
Definition find_waiter (db : StoreTables) (run_id node_execution_id : string) : option LockWaiter :=
  List.find (λ w, (w.(LockWaiter.run_id) == run_id) && (w.(LockWaiter.node_execution_id) == node_execution_id))
    (btree_values db.(StoreTables.lock_waiters)).

(** SELECT COUNT( * ) of the waiting rows, of a key and of the store. *)
Definition is_waiting (w : LockWaiter) : bool := w.(LockWaiter.status) == WaiterStatus.waiting.
Definition count_waiters (db : StoreTables) (f : LockWaiter → bool) : N :=
  N.of_nat (length (List.filter (λ item : string * LockWaiter, is_waiting item.2 && f item.2)
                      (map_to_list db.(StoreTables.lock_waiters)))).

(** SELECT MAX(sequence) of a key. *)
Definition max_sequence (db : StoreTables) (key : string) : option Z :=
  map_fold (λ _ w acc,
      if w.(LockWaiter.key) == key then Some (from_option (Z.max w.(LockWaiter.sequence)) w.(LockWaiter.sequence) acc) else acc)
    None db.(StoreTables.lock_waiters).

(** The waiting rows of a key whose deadline is not before a time, in the order of the queue. *)
Definition waiter_leb (a b : string * LockWaiter) : bool :=
  if (a.2.(LockWaiter.sequence) =? b.2.(LockWaiter.sequence))%Z then String.leb a.1 b.1
  else (a.2.(LockWaiter.sequence) <=? b.2.(LockWaiter.sequence))%Z.
Definition is_eligible (key now : string) (w : LockWaiter) : bool :=
  (w.(LockWaiter.key) == key) && is_waiting w && String.leb now w.(LockWaiter.deadline).
Definition older (a : string * LockWaiter) (b : option (string * LockWaiter)) : option (string * LockWaiter) :=
  match b with
  | Some b => if waiter_leb b a then Some b else Some a
  | None => Some a
  end.
Definition oldest_waiter (db : StoreTables) (key now : string) : option (string * LockWaiter) :=
  foldr older None
    (List.filter (λ item : string * LockWaiter, is_eligible key now item.2) (map_to_list db.(StoreTables.lock_waiters))).

(** The owner of a key. *)
Definition owner_of (db : StoreTables) (key : string) : option LockOwner :=
  resource ← db.(StoreTables.lock_resources) !! key; resource.(LockResource.owner).

(** UPDATE woml_lock_resources SET owner_lease_id = NULL, .. WHERE key = .. AND ..; whether the
    row changed. *)
Definition clear_owner (db : StoreTables) (key : string) (f : LockOwner → bool) (now : string) :
    StoreTables * bool :=
  match db.(StoreTables.lock_resources) !! key with
  | Some (LockResource.mk high_water (Some owner) _) =>
      if f owner
      then (db <| StoreTables.lock_resources ::= <[key := LockResource.mk high_water None now]> |>, true)
      else (db, false)
  | _ => (db, false)
  end.

(** UPDATE woml_lock_resources SET expires_at = .. WHERE key = .. AND ... *)
Definition extend_lease (db : StoreTables) (key : string) (f : LockOwner → bool) (expires_at now : string) :
    StoreTables * bool :=
  match db.(StoreTables.lock_resources) !! key with
  | Some (LockResource.mk high_water (Some owner) _) =>
      if f owner
      then (db <| StoreTables.lock_resources ::= <[key := LockResource.mk high_water
               (Some (LockOwner.mk owner.(LockOwner.lease_id) owner.(LockOwner.run_id) owner.(LockOwner.node_execution_id) owner.(LockOwner.fencing_token)
                        owner.(LockOwner.acquired_at) expires_at)) now]> |>, true)
      else (db, false)
  | _ => (db, false)
  end.

(** UPDATE woml_lock_resources SET fencing_high_water = .., owner_lease_id = .., .. WHERE key = ..
    AND owner_lease_id IS NULL AND fencing_high_water = ..; lease identifiers are unique. *)
Definition lease_taken (db : StoreTables) (lease_id : string) : bool :=
  existsb (λ item : string * LockResource,
      is_some_and item.2.(LockResource.owner) (λ owner, owner.(LockOwner.lease_id) == lease_id))
    (map_to_list db.(StoreTables.lock_resources)).
Definition grant_owner (db : StoreTables) (key : string) (current_high_water : Z) (owner : LockOwner)
    (now : string) : store_result (StoreTables * bool) :=
  match db.(StoreTables.lock_resources) !! key with
  | Some (LockResource.mk high_water None _) =>
      if (high_water =? current_high_water)%Z
      then
        check fail_if (lease_taken db owner.(LockOwner.lease_id)) DurableStoreError.Sqlite;
        Ok (db <| StoreTables.lock_resources ::=
              <[key := LockResource.mk owner.(LockOwner.fencing_token) (Some owner) now]> |>, true)
      else Ok (db, false)
  | _ => Ok (db, false)
  end.

(** INSERT INTO woml_lock_resources .. ON CONFLICT(key) DO NOTHING. *)
Definition insert_resource (db : StoreTables) (key now : string) : StoreTables :=
  match db.(StoreTables.lock_resources) !! key with
  | Some _ => db
  | None => db <| StoreTables.lock_resources ::= <[key := LockResource.mk 0 None now]> |>
  end.

(** INSERT INTO woml_lock_waiters, with the constraints of the table. *)
Definition insert_waiter (db : StoreTables) (waiter_id : string) (w : LockWaiter) :
    store_result StoreTables :=
  check fail_if
    (is_some (db.(StoreTables.lock_waiters) !! waiter_id) || is_some (find_waiter db w.(LockWaiter.run_id) w.(LockWaiter.node_execution_id))
     || (w.(LockWaiter.sequence) <? 1)%Z)
    DurableStoreError.Sqlite;
  Ok (db <| StoreTables.lock_waiters ::= <[waiter_id := w]> |>).
End statements.

Section locks.
Context `{!Externals, !EngineExternals, !PolicyExternals, !StoreExternals}.

(** [parse_stored_timestamp], durable/record_values.rs. *)
Definition parse_stored_timestamp (value : string) : store_result DateTime :=
  ok_or (parse_from_rfc3339 value) (DurableStoreError.Contract "Stored approval credential timestamp is invalid.").

(** [LockHistoryInvalid]. *)
Definition history_invalid (message : string) : DurableStoreError := DurableStoreError.LockHistoryInvalid message.

(** [now + Duration::milliseconds(i64::try_from(lease_ms)?)]. *)
Definition lease_end (now : DateTime) (lease_ms : N) : store_result DateTime :=
  let? ms := ok_or (i64_try_from lease_ms) (DurableStoreError.Contract "Lock lease exceeds the runtime clock.") in
  datetime_add now ms.

(** The schema version of a history. *)
Definition history_version (events : list RunEvent) (e : DurableStoreError) : store_result N :=
  let? first := ok_or (head events) e in Ok first.(RunEvent.event_schema_version).

(** An event of a lock, under a new identifier. *)
Definition append_lock_event (db : StoreTables) (events : list RunEvent) (run_id : string) (now : DateTime)
    (version : N) (iteration : option ForEachIterationScope) (payload : RunEventPayload) :
    store_result (StoreTables * list RunEvent) :=
  let '(db, event_id) := generated_event_id db in
  let? (db, events, _) :=
    append_to_history_scoped run_id event_id now version iteration db events payload in
  Ok (db, events).

(** ** The queue *)

Definition ensure_lock_wait_capacity (db : StoreTables) (key : string) : store_result unit :=
  let? resource := ok_or (db.(StoreTables.lock_resources) !! key) DurableStoreError.Sqlite in
  let occupied :=
    is_some resource.(LockResource.owner) || (0 <? count_waiters db (λ w, w.(LockWaiter.key) == key))%N in
  if negb occupied then Ok tt
  else
    fail_if ((LOCK_WAITERS_PER_KEY_LIMIT <=? count_waiters db (λ w, w.(LockWaiter.key) == key))%N
             || (LOCK_WAITERS_PER_STORE_LIMIT <=? count_waiters db (λ _, true))%N)
      DurableStoreError.LockWaitLimit.

(** Whether an effect is running under the lock of a run or iteration. *)
Definition is_active_operation (operation : OperationProjection) : bool :=
  match operation.(OperationProjection.status) with OperationStatus.Started => true | _ => false end.
Definition active_effect (projection : RunProjection) (iteration : option ForEachIterationScope) : bool :=
  match iteration with
  | None => existsb is_active_operation (btree_values projection.(RunProjection.operations))
  | Some scope =>
      is_some_and
        (loop_ ← projection.(RunProjection.for_each) !! scope.(ForEachIterationScope.for_each_id); loop_.(ForEachProjection.executions) !! scope.(ForEachIterationScope.index))
        (λ execution,
           existsb is_active_operation (btree_values execution.(ForEachIterationExecutionProjection.operations)))
  end.

(** The row of an owner, and that of its waiter, after the lease is lost. *)
Definition settle_lost (db : StoreTables) (key : string) (owner : LockOwner) (now : DateTime)
    (message : string) : store_result StoreTables :=
  let '(db, changed) :=
    clear_owner db key (λ o, (o.(LockOwner.run_id) == owner.(LockOwner.run_id)) && (o.(LockOwner.lease_id) == owner.(LockOwner.lease_id)))
      (to_rfc3339 now) in
  check fail_if (negb changed) (history_invalid message);
  Ok (update_waiters db owner.(LockOwner.run_id) owner.(LockOwner.node_execution_id) WaiterStatus.held WaiterStatus.lost).1.

Definition expire_lock_owner (db : StoreTables) (key : string) (now : DateTime) :
    store_result (StoreTables * bool) :=
  match owner_of db key with
  | None => Ok (db, false)
  | Some owner =>
      let? expired_at := parse_stored_timestamp owner.(LockOwner.expires_at) in
      if (now <? expired_at)%Z then Ok (db, false)
      else if is_some (programmatic_lock_lease_ms owner.(LockOwner.node_execution_id)) then
        let? db := settle_lost db key owner now
          "expired programmatic owner changed before lease-loss settlement" in
        Ok (db, true)
      else
        let? workflow := definition_for_run db owner.(LockOwner.run_id) in
        let? events := load_events db owner.(LockOwner.run_id) in
        let? projection := map_err DurableStoreError.Fold (fold_events events) in
        let? (descriptor, iteration) :=
          ok_or (resolve_lock_execution workflow projection owner.(LockOwner.node_execution_id))
            (history_invalid "expired owner has no exact active Model v18 execution identity") in
        let? held :=
          ok_or (projected_lock projection iteration descriptor.(CompiledLock.lock_id))
            (history_invalid "expired owner has no projected lock") in
        let fencing_token := i64_to_string owner.(LockOwner.fencing_token) in
        check fail_if
          ((held.(LockProjection.status) != LockStatus.Held) || (held.(LockProjection.key) != key)
           || (held.(LockProjection.lease_id) != Some owner.(LockOwner.lease_id)) || (held.(LockProjection.fencing_token) != Some fencing_token))
          (history_invalid "expired durable owner differs from projected held lease");
        let? version := history_version events (history_invalid "owner history is empty") in
        let? (db, _) :=
          append_lock_event db events owner.(LockOwner.run_id) now version iteration
            (RunEventPayload.LockLeaseLost (LockLeaseLostData.mk descriptor.(CompiledLock.lock_id) key owner.(LockOwner.lease_id) fencing_token
               expired_at now (active_effect projection iteration))) in
        let? db := settle_lost db key owner now "expired owner changed before lease-loss settlement" in
        Ok (db, true)
  end.

(** The lock, iteration and lease that a waiter asks for. *)
Definition waiter_lease (db : StoreTables) (run_id execution_identity : string) :
    store_result (option string * option ForEachIterationScope * N) :=
  match programmatic_lock_lease_ms execution_identity with
  | Some lease_ms => Ok (None, None, lease_ms)
  | None =>
      let? workflow := definition_for_run db run_id in
      let? events := load_events db run_id in
      let? projection := map_err DurableStoreError.Fold (fold_events events) in
      let? (descriptor, iteration) :=
        ok_or (resolve_lock_execution workflow projection execution_identity)
          (history_invalid "waiting acquisition has no exact active Model v18 execution identity") in
      Ok (Some descriptor.(CompiledLock.lock_id), iteration, descriptor.(CompiledLock.lease_ms))
  end.

(** The grant of a free key to a selected waiter. *)
Definition grant_waiter (db : StoreTables) (key : string) (now : DateTime) (waiter_id : string)
    (w : LockWaiter) : store_result StoreTables :=
  let? (descriptor, iteration, lease_ms) := waiter_lease db w.(LockWaiter.run_id) w.(LockWaiter.node_execution_id) in
  let? resource := ok_or (db.(StoreTables.lock_resources) !! key) DurableStoreError.Sqlite in
  let? next_token := ok_or (i64_checked_add resource.(LockResource.fencing_high_water) 1) DurableStoreError.LockFencingExhausted in
  let lease_id := "lease_" +:+ uuid_simple db.(StoreTables.uuids_drawn) in
  let db := db <| StoreTables.uuids_drawn ::= S |> in
  let? expires_at := lease_end now lease_ms in
  let? (db, changed) :=
    grant_owner db key resource.(LockResource.fencing_high_water)
      (LockOwner.mk lease_id w.(LockWaiter.run_id) w.(LockWaiter.node_execution_id) next_token (to_rfc3339 now)
         (to_rfc3339 expires_at)) (to_rfc3339 now) in
  check fail_if (negb changed) (history_invalid "atomic lock grant lost ownership race");
  let '(db, changed) := hold_waiter db waiter_id in
  check fail_if (negb (changed =? 1)%nat) (history_invalid "selected waiter changed before grant");
  match descriptor with
  | None => Ok db
  | Some lock_id =>
      let? events := load_events db w.(LockWaiter.run_id) in
      let? version :=
        history_version events (history_invalid "selected waiter run has no event history") in
      let? (db, _) :=
        append_lock_event db events w.(LockWaiter.run_id) now version iteration
          (RunEventPayload.LockAcquired (LockAcquiredData.mk lock_id key lease_id (i64_to_string next_token) now
             expires_at w.(LockWaiter.node_execution_id))) in
      Ok db
  end.

Definition grant_oldest_lock_waiter (db : StoreTables) (key : string) (now : DateTime) :
    store_result (StoreTables * option string) :=
  let? (db, _) := expire_lock_owner db key now in
  if is_some (owner_of db key) then Ok (db, None)
  else
    match oldest_waiter db key (to_rfc3339 now) with
    | None => Ok (db, None)
    | Some (waiter_id, w) =>
        let? db := grant_waiter db key now waiter_id w in
        Ok (db, Some w.(LockWaiter.run_id))
    end.

(** The identifier of a waiter. *)
Definition waiter_id_of (run_id execution_identity : string) : string :=
  "waiter_" +:+ sha256_hex (run_id +:+ nul +:+ execution_identity).

(** A new row at the end of the queue of a key. *)
Definition enqueue (db : StoreTables) (run_id execution_identity key : string)
    (registered_at deadline : DateTime) (input_digest : string) : store_result (StoreTables * Z) :=
  let db := insert_resource db key (to_rfc3339 registered_at) in
  check ensure_lock_wait_capacity db key;
  let? sequence := ok_or (i64_checked_add (default 0%Z (max_sequence db key)) 1) DurableStoreError.Sqlite in
  let? db :=
    insert_waiter db (waiter_id_of run_id execution_identity)
      (LockWaiter.mk key run_id execution_identity sequence (to_rfc3339 registered_at)
         (to_rfc3339 deadline) WaiterStatus.waiting input_digest) in
  Ok (db, sequence).

(** The execution identity of a compiled lock. *)
Definition lock_execution_identity (descriptor : CompiledLock) (iteration : option ForEachIterationScope) :
    string :=
  match iteration with
  | None => descriptor.(CompiledLock.acquire_node_id)
  | Some scope =>
      scope.(ForEachIterationScope.for_each_id) +:+ ":" +:+ decimal scope.(ForEachIterationScope.index) +:+ ":" +:+ descriptor.(CompiledLock.acquire_node_id)
  end.

(** [DurableEventStore::register_lock_waiter_atomically_scoped]. *)
Definition register_lock_waiter_atomically_scoped (db : StoreTables)
    (run_id lock_id key execution_identity : string) (iteration : option ForEachIterationScope)
    (registered_at deadline : DateTime) : store_result (StoreTables * RunProjection) :=
  check fail_if
    (negb (valid_lock_key key) || str_is_empty execution_identity || (deadline <? registered_at)%Z)
    (DurableStoreError.Contract "Lock acquisition input is invalid.");
  let input_digest := "sha256:" +:+ sha256_hex (key +:+ nul +:+ to_rfc3339 deadline) in
  check ensure_run_exists db run_id;
  let? workflow := definition_for_run db run_id in
  let? descriptor :=
    ok_or (durable_lock workflow lock_id)
      (DurableStoreError.Contract "Lock acquisition references an unknown Model v18 lock.") in
  check fail_if (lock_execution_identity descriptor iteration != execution_identity)
    (DurableStoreError.Contract "Lock execution identity does not match the compiled acquire node.");
  let? events := load_events db run_id in
  let? version :=
    history_version events (DurableStoreError.Contract "A lock cannot be registered before run_started.") in
  check fail_if (negb (in_range 17 20 version)) (DurableStoreError.Contract "Durable locks require Event v17.");
  let? db :=
    match find_waiter db run_id execution_identity with
    | Some w =>
        check fail_if ((w.(LockWaiter.key) != key) || (w.(LockWaiter.input_digest) != input_digest)) DurableStoreError.LockIdempotencyConflict;
        Ok db
    | None =>
        let? (db, sequence) :=
          enqueue db run_id execution_identity key registered_at deadline input_digest in
        let? (db, _) :=
          append_lock_event db events run_id registered_at version iteration
            (RunEventPayload.LockWaitRegistered (LockWaitRegisteredData.mk lock_id key (Z.to_N sequence) registered_at
               deadline execution_identity)) in
        Ok db
    end in
  let? (db, _) := grant_oldest_lock_waiter db key registered_at in
  let? events := load_events db run_id in
  let? projection := map_err DurableStoreError.Fold (fold_events events) in
  Ok (db, projection).

(** ** Leases *)

(** [DurableEventStore::release_lock_atomically_scoped]: a lease that has expired is settled and
    handed over in a transaction that commits, and the release is rejected. *)
Definition release_lock_atomically_scoped (db : StoreTables) (run_id lock_id : string)
    (iteration : option ForEachIterationScope) (result : Value) (released_at : DateTime) :
    store_result (StoreTables * store_result RunProjection) :=
  check ensure_run_exists db run_id;
  let? events := load_events db run_id in
  let? initial := map_err DurableStoreError.Fold (fold_events events) in
  let? initial_lock :=
    ok_or (projected_lock initial iteration lock_id) (history_invalid "release has no projected lock") in
  check fail_if (initial_lock.(LockProjection.status) != LockStatus.Held) (history_invalid "release requires one held lease");
  let? (db, _) := grant_oldest_lock_waiter db initial_lock.(LockProjection.key) released_at in
  let? events := load_events db run_id in
  let? projection := map_err DurableStoreError.Fold (fold_events events) in
  let? held :=
    ok_or (projected_lock projection iteration lock_id) (history_invalid "release has no projected lock") in
  if held.(LockProjection.status) != LockStatus.Held then
    Ok (db, Err (history_invalid "release rejected because the lease expired before settlement"))
  else
    let? lease_id := ok_or held.(LockProjection.lease_id) (history_invalid "held lock has no lease ID") in
    let? fencing_token := ok_or held.(LockProjection.fencing_token) (history_invalid "held lock has no fencing token") in
    let '(db, changed) :=
      clear_owner db held.(LockProjection.key) (λ o,
          (o.(LockOwner.run_id) == run_id) && (o.(LockOwner.lease_id) == lease_id)
          && (i64_to_string o.(LockOwner.fencing_token) == fencing_token)) (to_rfc3339 released_at) in
    check fail_if (negb changed) (history_invalid "durable owner differs from projected held lease");
    let db := (update_waiters db run_id held.(LockProjection.execution_identity) WaiterStatus.held WaiterStatus.released).1 in
    let? version := history_version events (history_invalid "release history is empty") in
    let? (db, events) :=
      append_lock_event db events run_id released_at version iteration
        (RunEventPayload.LockReleased (LockReleasedData.mk lock_id held.(LockProjection.key) lease_id fencing_token released_at result)) in
    let? (db, _) := grant_oldest_lock_waiter db held.(LockProjection.key) released_at in
    let? projection := map_err DurableStoreError.Fold (fold_events events) in
    Ok (db, Ok projection).

(** SELECT expires_at of the row of a lease. *)
Definition is_lease (run_id execution_identity lease_id fencing_token : string) (o : LockOwner) : bool :=
  (o.(LockOwner.run_id) == run_id) && (o.(LockOwner.node_execution_id) == execution_identity) && (o.(LockOwner.lease_id) == lease_id)
  && (i64_to_string o.(LockOwner.fencing_token) == fencing_token).
Definition lease_expiry (db : StoreTables) (key : string) (f : LockOwner → bool) : option string :=
  o ← owner_of db key; if f o then Some o.(LockOwner.expires_at) else None.

(** An expired owner is settled and the key handed over. *)
Definition hand_over (db : StoreTables) (key : string) (now : DateTime) : store_result StoreTables :=
  let? (db, _) := expire_lock_owner db key now in
  let? (db, _) := grant_oldest_lock_waiter db key now in
  Ok db.

(** [DurableEventStore::renew_lock_lease_atomically_scoped]. *)
Definition renew_lock_lease_atomically_scoped (db : StoreTables) (run_id lock_id : string)
    (iteration : option ForEachIterationScope) (now : DateTime) :
    store_result (StoreTables * LockLeaseMaintenance) :=
  check ensure_run_exists db run_id;
  let? workflow := definition_for_run db run_id in
  let? descriptor :=
    ok_or (durable_lock workflow lock_id)
      (DurableStoreError.Contract "Lock renewal references an unknown Model v18 lock.") in
  let? events := load_events db run_id in
  let? projection := map_err DurableStoreError.Fold (fold_events events) in
  match projected_lock projection iteration lock_id with
  | Some held =>
      if held.(LockProjection.status) != LockStatus.Held then Ok (db, LockLeaseMaintenance.NotHeld)
      else
        let? lease_id := ok_or held.(LockProjection.lease_id) (history_invalid "held lock has no lease ID") in
        let? fencing_token := ok_or held.(LockProjection.fencing_token) (history_invalid "held lock has no fencing token") in
        let this := is_lease run_id held.(LockProjection.execution_identity) lease_id fencing_token in
        match lease_expiry db held.(LockProjection.key) this with
        | None => Ok (db, LockLeaseMaintenance.Lost)
        | Some stored_expiry =>
            let? parsed_stored_expiry := parse_stored_timestamp stored_expiry in
            if (parsed_stored_expiry <=? now)%Z then
              let? db := hand_over db held.(LockProjection.key) now in
              Ok (db, LockLeaseMaintenance.Lost)
            else if is_some projection.(RunProjection.business_outcome) then Ok (db, LockLeaseMaintenance.NotHeld)
            else
              let? requested_expiry := lease_end now descriptor.(CompiledLock.lease_ms) in
              let next_expiry := Z.max requested_expiry parsed_stored_expiry in
              let '(db, changed) :=
                extend_lease db held.(LockProjection.key) (λ o, this o && (o.(LockOwner.expires_at) == stored_expiry))
                  (to_rfc3339 next_expiry) (to_rfc3339 now) in
              Ok (db, if changed then LockLeaseMaintenance.Renewed else LockLeaseMaintenance.Lost)
        end
  | None => Ok (db, LockLeaseMaintenance.NotHeld)
  end.

(** Whether the stored expiry of a lease, if any, is after a time. *)
Definition lease_is_current (expiry : option string) (now : DateTime) : store_result bool :=
  match expiry with
  | None => Ok false
  | Some expiry => let? expires_at := parse_stored_timestamp expiry in Ok (now <? expires_at)%Z
  end.

(** Whether a started attempt is that of an invocation. *)
Definition is_active_attempt (node_id invocation_id : string) (attempt : AttemptProjection) : bool :=
  (attempt.(AttemptProjection.identity).(AttemptIdentity.node_id) == node_id) && (attempt.(AttemptProjection.identity).(AttemptIdentity.invocation_id) == invocation_id)
  && match attempt.(AttemptProjection.status) with AttemptStatus.Started => true | _ => false end.

(** [DurableEventStore::managed_effect_has_current_lock]. *)
Definition managed_effect_has_current_lock (db : StoreTables) (run_id node_id invocation_id : string)
    (now : DateTime) : store_result (StoreTables * bool) :=
  check ensure_run_exists db run_id;
  let? workflow := definition_for_run db run_id in
  match lock_descriptor_for_protected_node workflow node_id with
  | None => Ok (db, true)
  | Some descriptor =>
      let? events := load_events db run_id in
      let? projection := map_err DurableStoreError.Fold (fold_events events) in
      let iteration_lock :=
        find_map (λ loop_,
            find_map (λ execution,
                if existsb (is_active_attempt node_id invocation_id) execution.(ForEachIterationExecutionProjection.attempts)
                then execution.(ForEachIterationExecutionProjection.locks) !! descriptor.(CompiledLock.lock_id) else None)
              (btree_values loop_.(ForEachProjection.executions)))
          (btree_values projection.(RunProjection.for_each)) in
      match or_else (projection.(RunProjection.locks) !! descriptor.(CompiledLock.lock_id)) iteration_lock with
      | Some held =>
          if held.(LockProjection.status) != LockStatus.Held then Ok (db, false)
          else
            let this := is_lease run_id held.(LockProjection.execution_identity) (default "" held.(LockProjection.lease_id))
              (default "" held.(LockProjection.fencing_token)) in
            let? current := lease_is_current (lease_expiry db held.(LockProjection.key) this) now in
            if (current : bool) then Ok (db, true)
            else
              let? db := hand_over db held.(LockProjection.key) now in
              Ok (db, false)
      | None => Ok (db, false)
      end
  end.

(** [DurableEventStore::timeout_lock_waiter_atomically_scoped]. *)
Definition timeout_lock_waiter_atomically_scoped (db : StoreTables) (run_id lock_id : string)
    (iteration : option ForEachIterationScope) (resolved_at : DateTime) :
    store_result (StoreTables * RunProjection) :=
  check ensure_run_exists db run_id;
  let? events := load_events db run_id in
  let? projection := map_err DurableStoreError.Fold (fold_events events) in
  let? waiting :=
    ok_or (projected_lock projection iteration lock_id)
      (history_invalid "timeout has no projected lock waiter") in
  if waiting.(LockProjection.status) == LockStatus.AcquireTimedOut then Ok (db, projection)
  else
    check fail_if ((waiting.(LockProjection.status) != LockStatus.Waiting) || (resolved_at <? waiting.(LockProjection.deadline))%Z)
      (history_invalid "lock timeout requires an expired waiting acquisition");
    let '(db, changed) :=
      update_waiters db run_id waiting.(LockProjection.execution_identity) WaiterStatus.waiting WaiterStatus.timed_out in
    check fail_if (negb (changed =? 1)%nat)
      (history_invalid "durable waiter changed before timeout settlement");
    let? version := history_version events (history_invalid "timeout history is empty") in
    let? (db, events) :=
      append_lock_event db events run_id resolved_at version iteration
        (RunEventPayload.LockAcquireTimedOut
           (LockAcquireTimedOutData.mk lock_id waiting.(LockProjection.key) waiting.(LockProjection.deadline) resolved_at)) in
    let? (db, _) := grant_oldest_lock_waiter db waiting.(LockProjection.key) resolved_at in
    let? projection := map_err DurableStoreError.Fold (fold_events events) in
    Ok (db, projection).

(** The waiting locks of a run and of its iterations. *)
Definition is_waiting_lock (lock : LockProjection) : bool := lock.(LockProjection.status) == LockStatus.Waiting.
Definition waiting_locks (projection : RunProjection) : list (LockProjection * option ForEachIterationScope) :=
  ((λ lock, (lock, None)) <$> List.filter is_waiting_lock (btree_values projection.(RunProjection.locks)))
  ++ flat_map (λ loop_ : string * ForEachProjection,
       flat_map (λ iteration : N * ForEachIterationExecutionProjection,
           (λ lock, (lock, Some (ForEachIterationScope.mk loop_.1 iteration.1)))
             <$> List.filter is_waiting_lock (btree_values iteration.2.(ForEachIterationExecutionProjection.locks)))
         (btree_iter loop_.2.(ForEachProjection.executions)))
     (btree_iter projection.(RunProjection.for_each)).

Fixpoint cancel_waiting (db : StoreTables) (events : list RunEvent) (run_id cancellation_id : string)
    (cancelled_at : DateTime) (version : N) (waiting : list (LockProjection * option ForEachIterationScope)) :
    store_result (StoreTables * list RunEvent) :=
  match waiting with
  | [] => Ok (db, events)
  | (lock, iteration) :: waiting =>
      let '(db, changed) :=
        update_waiters db run_id lock.(LockProjection.execution_identity) WaiterStatus.waiting WaiterStatus.cancelled in
      check fail_if (negb (changed =? 1)%nat)
        (history_invalid "lock waiter changed before cancellation settlement");
      let? (db, events) :=
        append_lock_event db events run_id cancelled_at version iteration
          (RunEventPayload.LockAcquisitionCancelled
             (LockAcquisitionCancelledData.mk lock.(LockProjection.lock_id) lock.(LockProjection.key) cancelled_at cancellation_id)) in
      let? (db, _) := grant_oldest_lock_waiter db lock.(LockProjection.key) cancelled_at in
      cancel_waiting db events run_id cancellation_id cancelled_at version waiting
  end.

(** [DurableEventStore::cancel_lock_waiters_atomically]. *)
Definition cancel_lock_waiters_atomically (db : StoreTables) (run_id cancellation_id : string)
    (cancelled_at : DateTime) : store_result (StoreTables * RunProjection) :=
  check ensure_run_exists db run_id;
  let? events := load_events db run_id in
  let? initial := map_err DurableStoreError.Fold (fold_events events) in
  check fail_if
    ((initial.(RunProjection.status) != RunStatus.Cancelling)
     || (initial.(RunProjection.cancellation_request_id) != Some cancellation_id))
    (history_invalid "lock waiter cancellation requires the matching durable run cancellation");
  let? version := history_version events (history_invalid "lock history is empty") in
  let? (db, events) :=
    cancel_waiting db events run_id cancellation_id cancelled_at version (waiting_locks initial) in
  let? projection := map_err DurableStoreError.Fold (fold_events events) in
  Ok (db, projection).

(** ** Programmatic leases *)

(** [programmatic_lock_state_in_transaction]. *)
Definition programmatic_lock_state_in_transaction (db : StoreTables) (run_id session_id : string)
    (lease_ms : N) (now : DateTime) : store_result ProgrammaticLockAcquire :=
  let identity := programmatic_lock_execution_identity session_id lease_ms in
  let? w :=
    ok_or (find_waiter db run_id identity) (history_invalid "programmatic lease session does not exist") in
  let without_lease state := Ok (ProgrammaticLockAcquire.mk state None) in
  match w.(LockWaiter.status) with
  | WaiterStatus.waiting => without_lease ProgrammaticLockAcquireState.Waiting
  | WaiterStatus.timed_out => without_lease ProgrammaticLockAcquireState.TimedOut
  | WaiterStatus.cancelled => without_lease ProgrammaticLockAcquireState.Cancelled
  | WaiterStatus.lost | WaiterStatus.released => without_lease ProgrammaticLockAcquireState.Lost
  | WaiterStatus.held =>
      match owner_of db w.(LockWaiter.key) with
      | Some owner =>
          if (owner.(LockOwner.run_id) == run_id) && (owner.(LockOwner.node_execution_id) == identity) then
            let? expires_at := parse_stored_timestamp owner.(LockOwner.expires_at) in
            if (expires_at <=? now)%Z then without_lease ProgrammaticLockAcquireState.Lost
            else
              let? acquired_at := parse_stored_timestamp owner.(LockOwner.acquired_at) in
              Ok (ProgrammaticLockAcquire.mk ProgrammaticLockAcquireState.Held
                    (Some (ProgrammaticLockLease.mk session_id w.(LockWaiter.key)
                             (i64_to_string owner.(LockOwner.fencing_token)) acquired_at expires_at)))
          else without_lease ProgrammaticLockAcquireState.Lost
      | None => without_lease ProgrammaticLockAcquireState.Lost
      end
  end.

(** Whether a run has the attempt that asks for a programmatic lease. *)
Definition has_active_attempt (projection : RunProjection) (node_id invocation_id : string) : bool :=
  is_some_and
    (find_map (λ saga,
         action ← saga.(SagaProjection.actions) !! node_id; action.(CorrectionActionProjection.active_attempt))
       (btree_values projection.(RunProjection.sagas)))
    (λ attempt, is_some (active_correction projection node_id attempt invocation_id))
  || existsb (is_active_attempt node_id invocation_id) projection.(RunProjection.attempts)
  || existsb (λ loop_state,
       existsb (λ execution,
           existsb (is_active_attempt node_id invocation_id) execution.(ForEachIterationExecutionProjection.attempts))
         (btree_values loop_state.(ForEachProjection.executions)))
     (btree_values projection.(RunProjection.for_each)).

(** [DurableEventStore::acquire_programmatic_lock_atomically]. *)
Definition acquire_programmatic_lock_atomically (db : StoreTables)
    (run_id node_id invocation_id session_id key : string) (acquire_timeout_ms lease_ms : N)
    (registered_at : DateTime) : store_result (StoreTables * ProgrammaticLockAcquire) :=
  check validate_programmatic_lock_input node_id invocation_id session_id key acquire_timeout_ms lease_ms;
  let? timeout := ok_or (i64_try_from acquire_timeout_ms)
    (DurableStoreError.Contract "Lock acquisition timeout exceeds the runtime clock.") in
  let? deadline := datetime_add registered_at timeout in
  let execution_identity := programmatic_lock_execution_identity session_id lease_ms in
  let input_digest :=
    "sha256:" +:+ sha256_hex (key +:+ nul +:+ node_id +:+ nul +:+ invocation_id +:+ nul
      +:+ decimal acquire_timeout_ms +:+ nul +:+ decimal lease_ms) in
  check ensure_run_exists db run_id;
  let? workflow := definition_for_run db run_id in
  check fail_if (is_some (lock_descriptor_for_protected_node workflow node_id))
    (DurableStoreError.Contract "services.locks.withLease() cannot run inside a markup <lock> scope.");
  let? events := load_events db run_id in
  let? projection := map_err DurableStoreError.Fold (fold_events events) in
  check fail_if (negb (has_active_attempt projection node_id invocation_id))
    (DurableStoreError.Contract "Programmatic lock acquisition requires its exact active script attempt.");
  let? db :=
    match find_waiter db run_id execution_identity with
    | Some w =>
        check fail_if ((w.(LockWaiter.key) != key) || (w.(LockWaiter.input_digest) != input_digest)) DurableStoreError.LockIdempotencyConflict;
        Ok db
    | None =>
        let? (db, _) := enqueue db run_id execution_identity key registered_at deadline input_digest in
        Ok db
    end in
  let? (db, _) := grant_oldest_lock_waiter db key registered_at in
  let? state := programmatic_lock_state_in_transaction db run_id session_id lease_ms registered_at in
  Ok (db, state).

(** [DurableEventStore::programmatic_lock_state]. *)
Definition programmatic_lock_state (db : StoreTables) (run_id session_id : string) (lease_ms : N)
    (now : DateTime) : store_result (StoreTables * ProgrammaticLockAcquire) :=
  check ensure_run_exists db run_id;
  let identity := programmatic_lock_execution_identity session_id lease_ms in
  let? db :=
    match find_waiter db run_id identity with
    | None => Ok db
    | Some waiter =>
        let? (db, _) := grant_oldest_lock_waiter db waiter.(LockWaiter.key) now in
        if is_some_and (find_waiter db run_id identity) is_waiting then
          let? deadline := parse_stored_timestamp waiter.(LockWaiter.deadline) in
          if (deadline <=? now)%Z then
            let db := (update_waiters db run_id identity WaiterStatus.waiting WaiterStatus.timed_out).1 in
            let? (db, _) := grant_oldest_lock_waiter db waiter.(LockWaiter.key) now in
            Ok db
          else Ok db
        else Ok db
    end in
  let? state := programmatic_lock_state_in_transaction db run_id session_id lease_ms now in
  Ok (db, state).

(** The key that a run and execution own; a waiter has one key, so there is at most one. *)
Definition is_owner (run_id node_execution_id : string) (o : LockOwner) : bool :=
  (o.(LockOwner.run_id) == run_id) && (o.(LockOwner.node_execution_id) == node_execution_id).
Definition find_owner (db : StoreTables) (run_id node_execution_id : string) : option (string * LockOwner) :=
  find_map (λ item : string * LockResource,
      o ← item.2.(LockResource.owner);
      if is_owner run_id node_execution_id o then Some (item.1, o) else None)
    (btree_iter db.(StoreTables.lock_resources)).

(** [DurableEventStore::renew_programmatic_lock_atomically]. *)
Definition renew_programmatic_lock_atomically (db : StoreTables) (run_id session_id : string)
    (lease_ms : N) (now : DateTime) : store_result (StoreTables * LockLeaseMaintenance) :=
  check ensure_run_exists db run_id;
  let identity := programmatic_lock_execution_identity session_id lease_ms in
  match find_owner db run_id identity with
  | None => Ok (db, LockLeaseMaintenance.NotHeld)
  | Some (key, owner) =>
      let? stored_expiry := parse_stored_timestamp owner.(LockOwner.expires_at) in
      if (stored_expiry <=? now)%Z then
        let? db := hand_over db key now in
        Ok (db, LockLeaseMaintenance.Lost)
      else
        let? requested_expiry := lease_end now lease_ms in
        let next_expiry := Z.max requested_expiry stored_expiry in
        let '(db, changed) :=
          extend_lease db key (λ o,
              is_owner run_id identity o && (o.(LockOwner.lease_id) == owner.(LockOwner.lease_id))
              && (o.(LockOwner.expires_at) == owner.(LockOwner.expires_at)))
            (to_rfc3339 next_expiry) (to_rfc3339 now) in
        Ok (db, if changed then LockLeaseMaintenance.Renewed else LockLeaseMaintenance.Lost)
  end.

(** [DurableEventStore::release_programmatic_lock_atomically]. *)
Definition release_programmatic_lock_atomically (db : StoreTables) (run_id session_id : string)
    (lease_ms : N) (released_at : DateTime) : store_result (StoreTables * bool) :=
  check ensure_run_exists db run_id;
  let identity := programmatic_lock_execution_identity session_id lease_ms in
  match find_waiter db run_id identity with
  | None => Ok (db, false)
  | Some w =>
      let? (db, _) := grant_oldest_lock_waiter db w.(LockWaiter.key) released_at in
      let '(db, changed) := clear_owner db w.(LockWaiter.key) (is_owner run_id identity) (to_rfc3339 released_at) in
      if changed then
        let db := (update_waiters db run_id identity WaiterStatus.held WaiterStatus.released).1 in
        let? (db, _) := grant_oldest_lock_waiter db w.(LockWaiter.key) released_at in
        Ok (db, true)
      else Ok (db, false)
  end.

(** [DurableEventStore::cancel_programmatic_lock_waiter_atomically]. *)
Definition cancel_programmatic_lock_waiter_atomically (db : StoreTables) (run_id session_id : string)
    (lease_ms : N) (cancelled_at : DateTime) : store_result (StoreTables * bool) :=
  check ensure_run_exists db run_id;
  let identity := programmatic_lock_execution_identity session_id lease_ms in
  let waiter := find_waiter db run_id identity in
  let '(db, changed) := update_waiters db run_id identity WaiterStatus.waiting WaiterStatus.cancelled in
  if (changed =? 1)%nat then
    let? db :=
      match waiter with
      | Some w => let? (db, _) := grant_oldest_lock_waiter db w.(LockWaiter.key) cancelled_at in Ok db
      | None => Ok db
      end in
    Ok (db, true)
  else Ok (db, false).
End locks.
