(* ===== verification/Admission.v ===== *)
(** * Occurrences of triggers, and their cursors

    durable/transactions/admission.rs: an occurrence of a trigger admits one run, an internal event
    is delivered to its subscribers; durable/transactions/schedules.rs and intervals.rs: the cursors
    of schedules and intervals, which advance in the transaction that admits their occurrence; and
    the rounds of webhook/schedules.rs and webhook/intervals.rs that drive them.  Each function
    is one transaction, or a part of one, on [StoreTables]; [Err] rolls it back. *)

From S2P Require Import Prelude GraphSearch Strings Json EventTypes ProjectionTypes Guards.
From S2P Require Import FoldRun FoldControlFlow FoldCorrection FoldApprovals FoldOperations.
From S2P Require Import FoldLifecycle IterationFold EventIdentities EventValidation Fold.
From S2P Require Import ModelTypes EngineExternals ModelQueries ModelIssues ModelContracts.
From S2P Require Import GraphContracts ForkContracts TopologicalOrder LoopContracts.
From S2P Require Import DurableContracts ModelValidation Readiness DefinitionValidation.
From S2P Require Import HistoryRules DagEngine PolicyTypes PolicyBundle Schedules DurableStore.

(** ** Records, durable/records/admission.rs *)

Module TriggerAdmissionRequest.
Record TriggerAdmissionRequest := mk {
  workflow_id : string;
  definition_hash : string;
  trigger_id : string;
  trigger_handler : string;
  source_identity : string;
  payload : Map;
  received_at : DateTime
}.
End TriggerAdmissionRequest.
Abbreviation TriggerAdmissionRequest := TriggerAdmissionRequest.TriggerAdmissionRequest.

Module TriggerOccurrence.
Record TriggerOccurrence := mk {
  occurrence_id : string;
  workflow_id : string;
  trigger_id : string;
  trigger_handler : string;
  definition_hash : string;
  source_identity_hash : string;
  payload_hash : string;
  received_at : DateTime;
  run_id : string
}.
End TriggerOccurrence.
Abbreviation TriggerOccurrence := TriggerOccurrence.TriggerOccurrence.

Module TriggerAdmissionOutcome.
Record TriggerAdmissionOutcome := mk {
  occurrence_id : string;
  run_id : string;
  duplicate : bool
}.
End TriggerAdmissionOutcome.
Abbreviation TriggerAdmissionOutcome := TriggerAdmissionOutcome.TriggerAdmissionOutcome.

Module InternalEventAdmissionRequest.
Record InternalEventAdmissionRequest := mk {
  publication_id : string;
  parent_run_id : string;
  event_name : string;
  trigger : TriggerAdmissionRequest;
  emitted_at : DateTime
}.
End InternalEventAdmissionRequest.
Abbreviation InternalEventAdmissionRequest := InternalEventAdmissionRequest.InternalEventAdmissionRequest.

Module ScheduleCursorRegistration.
Record ScheduleCursorRegistration := mk {
  workflow_id : string;
  trigger_id : string;
  definition_hash : string;
  cron : string;
  timezone : string;
  on_missed : string
}.
End ScheduleCursorRegistration.
Abbreviation ScheduleCursorRegistration := ScheduleCursorRegistration.ScheduleCursorRegistration.

Module ScheduleCursor.
Record ScheduleCursor := mk {
  workflow_id : string;
  trigger_id : string;
  definition_hash : string;
  cron : string;
  timezone : string;
  on_missed : string;
  next_scheduled_at : DateTime;
  updated_at : DateTime
}.
End ScheduleCursor.
Abbreviation ScheduleCursor := ScheduleCursor.ScheduleCursor.

Module IntervalCursorRegistration.
Record IntervalCursorRegistration := mk {
  workflow_id : string;
  trigger_id : string;
  definition_hash : string;
  every_ms : N;
  on_missed : string
}.
End IntervalCursorRegistration.
Abbreviation IntervalCursorRegistration := IntervalCursorRegistration.IntervalCursorRegistration.

Module IntervalCursor.
Record IntervalCursor := mk {
  workflow_id : string;
  trigger_id : string;
  definition_hash : string;
  every_ms : N;
  on_missed : string;
  anchor_at : DateTime;
  next_sequence : N;
  next_scheduled_at : DateTime;
  updated_at : DateTime
}.
End IntervalCursor.
Abbreviation IntervalCursor := IntervalCursor.IntervalCursor.

Definition RUNTIME_POLICY_QUEUE_CEILING : nat := 10000.

(** The statuses of a run that has not ended, as the SQL names them. *)
Definition active_status (status : PublicRunStatus) : bool :=
  match status with
  | PublicRunStatus.Queued | PublicRunStatus.Running | PublicRunStatus.Waiting
  | PublicRunStatus.Cancelling | PublicRunStatus.Finalizing => true
  | _ => false
  end.

Definition trigger_handlers : list string :=
  ["trigger.manual"; "trigger.webhook"; "trigger.slack"; "trigger.telegram"; "trigger.discord";
   "trigger.whatsapp"; "trigger.schedule"; "trigger.interval"; "trigger.event"].

Section admission.
Context {externals : Externals} {engine : EngineExternals} {policy : PolicyExternals}.
Context {stores : StoreExternals} {zones : ScheduleExternals}.

(** [sha256_prefixed] and [parse_durable_timestamp]. *)
Definition sha256_prefixed (bytes : string) : string := "sha256:" +:+ sha256_hex bytes.
Definition parse_durable_timestamp (value label : string) : store_result DateTime :=
  ok_or (parse_from_rfc3339 value) (DurableStoreError.Contract ("Stored " +:+ label +:+ " is not RFC 3339.")).

Definition canonical_payload_hash (payload : Map) : store_result string :=
  let? canonical := ok_or (canonical_json (Value.Object payload)) DurableStoreError.Json in
  Ok (sha256_prefixed canonical).

(** ** Occurrences *)

Definition validate_trigger_admission_request (request : TriggerAdmissionRequest) : store_result unit :=
  check fail_if (str_is_empty request.(TriggerAdmissionRequest.source_identity) || (512 <? str_len request.(TriggerAdmissionRequest.source_identity))%N)
    (DurableStoreError.Contract "Trigger sourceIdentity must contain between 1 and 512 UTF-8 bytes.");
  fail_if (negb (is_definition_hash request.(TriggerAdmissionRequest.definition_hash))) DurableStoreError.TriggerDefinitionMismatch.

(** The occurrence of a source identity, by the unique index. *)
Definition occurrence_of_identity (db : StoreTables) (workflow_id trigger_id source_identity_hash : string) :
    option (string * StoredOccurrence) :=
  List.find (λ row : string * StoredOccurrence,
      (row.2.(StoredOccurrence.workflow_id) == workflow_id)
      && (row.2.(StoredOccurrence.trigger_id) == trigger_id)
      && (row.2.(StoredOccurrence.source_identity_hash) == source_identity_hash))
    (btree_iter db.(StoreTables.triggers).(TriggerTables.occurrences)).

Definition valid_stored_id (value : string) : bool :=
  negb (str_is_empty value) && (chars_count value <=? 256)%N.

Definition trigger_occurrence_from_stored (occurrence_id : string) (stored : StoredOccurrence) :
    store_result TriggerOccurrence :=
  check fail_if
    (negb (valid_stored_id occurrence_id) || negb (valid_stored_id stored.(StoredOccurrence.workflow_id))
     || negb (valid_stored_id stored.(StoredOccurrence.trigger_id))
     || negb (existsb (String.eqb stored.(StoredOccurrence.trigger_handler)) trigger_handlers)
     || negb (is_definition_hash stored.(StoredOccurrence.definition_hash))
     || negb (is_definition_hash stored.(StoredOccurrence.source_identity_hash))
     || negb (is_definition_hash stored.(StoredOccurrence.payload_hash))
     || negb (valid_stored_id stored.(StoredOccurrence.run_id)))
    (DurableStoreError.TriggerHistoryInvalid "trigger occurrence contains an invalid identity or hash");
  let? received_at :=
    ok_or (parse_from_rfc3339 stored.(StoredOccurrence.received_at))
      (DurableStoreError.TriggerHistoryInvalid "trigger occurrence receivedAt is not RFC 3339") in
  Ok (TriggerOccurrence.mk occurrence_id stored.(StoredOccurrence.workflow_id) stored.(StoredOccurrence.trigger_id) stored.(StoredOccurrence.trigger_handler)
        stored.(StoredOccurrence.definition_hash) stored.(StoredOccurrence.source_identity_hash) stored.(StoredOccurrence.payload_hash) received_at stored.(StoredOccurrence.run_id)).

Definition load_trigger_occurrence_by_id (db : StoreTables) (occurrence_id : string) :
    store_result (option TriggerOccurrence) :=
  match db.(StoreTables.triggers).(TriggerTables.occurrences) !! occurrence_id with
  | Some stored =>
      let? occurrence := trigger_occurrence_from_stored occurrence_id stored in
      Ok (Some occurrence)
  | None => Ok None
  end.

Definition load_trigger_occurrence_by_identity (db : StoreTables)
    (workflow_id trigger_id source_identity_hash : string) : store_result (option TriggerOccurrence) :=
  match occurrence_of_identity db workflow_id trigger_id source_identity_hash with
  | Some (occurrence_id, _) => load_trigger_occurrence_by_id db occurrence_id
  | None => Ok None
  end.

(** The payload of the event that admitted the run of an occurrence, if it agrees with it. *)
Definition admitted_payload (occurrence : TriggerOccurrence) (first : RunEvent) : option Map :=
  match first.(RunEvent.payload) with
  | RunEventPayload.RunAdmitted admission =>
      if in_range 11 20 first.(RunEvent.event_schema_version)
         && (admission.(RunAdmittedData.definition_hash) == occurrence.(TriggerOccurrence.definition_hash))
         && (admission.(RunAdmittedData.trigger).(RunAdmissionTrigger.id) == occurrence.(TriggerOccurrence.trigger_id))
         && (admission.(RunAdmittedData.trigger).(RunAdmissionTrigger.handler) == occurrence.(TriggerOccurrence.trigger_handler))
         && (first.(RunEvent.occurred_at) =? occurrence.(TriggerOccurrence.received_at))%Z
         && (admission.(RunAdmittedData.admitted_at) =? occurrence.(TriggerOccurrence.received_at))%Z
      then Some admission.(RunAdmittedData.payload) else None
  | RunEventPayload.RunStarted start =>
      if in_range 7 10 first.(RunEvent.event_schema_version)
         && (start.(RunStartedData.workflow_id) == occurrence.(TriggerOccurrence.workflow_id))
         && (start.(RunStartedData.definition_hash) == occurrence.(TriggerOccurrence.definition_hash))
         && (start.(RunStartedData.trigger_id) == Some occurrence.(TriggerOccurrence.trigger_id))
         && (start.(RunStartedData.trigger_handler) == Some occurrence.(TriggerOccurrence.trigger_handler))
         && (start.(RunStartedData.trigger_occurrence_id) == Some occurrence.(TriggerOccurrence.occurrence_id))
         && (first.(RunEvent.occurred_at) =? occurrence.(TriggerOccurrence.received_at))%Z
      then Some start.(RunStartedData.trigger) else None
  | _ => None
  end.

Definition validate_trigger_occurrence_history (db : StoreTables) (occurrence : TriggerOccurrence)
    (clock : nat → DateTime) : store_result Map :=
  let? binding :=
    map_err (λ _, DurableStoreError.TriggerHistoryInvalid "occurrence run binding is missing or invalid: {error}")
      (run_binding_in_transaction db occurrence.(TriggerOccurrence.run_id)) in
  check fail_if
    ((binding.(RunDefinitionBinding.workflow_id) != occurrence.(TriggerOccurrence.workflow_id))
     || (binding.(RunDefinitionBinding.definition_hash) != occurrence.(TriggerOccurrence.definition_hash)))
    (DurableStoreError.TriggerHistoryInvalid "occurrence does not match its immutable run binding");
  let? workflow :=
    map_err (λ _, DurableStoreError.TriggerHistoryInvalid "occurrence definition is missing or invalid: {error}")
      (definition_for_run db occurrence.(TriggerOccurrence.run_id)) in
  let? events :=
    map_err (λ _, DurableStoreError.TriggerHistoryInvalid "occurrence event history cannot be loaded: {error}")
      (load_events db occurrence.(TriggerOccurrence.run_id)) in
  let? _ := map_err DurableStoreError.TriggerHistoryInvalid (check_history workflow occurrence.(TriggerOccurrence.definition_hash) events clock) in
  let? first :=
    ok_or (head events) (DurableStoreError.TriggerHistoryInvalid "occurrence run has no admission event") in
  let? payload :=
    ok_or (admitted_payload occurrence first)
      (DurableStoreError.TriggerHistoryInvalid "occurrence fields contradict its durable admission event") in
  let? hash := canonical_payload_hash payload in
  check fail_if (hash != occurrence.(TriggerOccurrence.payload_hash))
    (DurableStoreError.TriggerHistoryInvalid "occurrence payload contradicts its durable admission event");
  Ok payload.

(** ** Admission *)

(** An active run of the workflow is bound to another definition or policy. *)
Definition policy_conflict (db : StoreTables) (workflow_id definition_hash policy_hash : string) : bool :=
  existsb (λ row : string * PolicyBinding,
      (row.2.(PolicyBinding.workflow_id) == workflow_id)
      && is_some_and (db.(StoreTables.indexes).(RunIndexes.run_summaries) !! row.1)
           (λ summary, active_status summary.(RunSummary.status))
      && ((row.2.(PolicyBinding.definition_hash) != definition_hash)
          || (row.2.(PolicyBinding.policy_hash) != policy_hash)))
    (map_to_list db.(StoreTables.indexes).(RunIndexes.policy_bindings)).

(** The policy and the queue of a run of the workflow, from Model v12 on. *)
Definition runtime_policy_identity (db : StoreTables) (workflow : CompiledWorkflowDefinition)
    (workflow_id definition_hash : string) : store_result (option (string * string)) :=
  if (12 <=? workflow.(CompiledWorkflowDefinition.schema_version))%N then
    let? policy_hash :=
      ok_or (runtime_policy_hash workflow)
        (DurableStoreError.Contract "Model v12 is missing its runtime policy identity.") in
    let? queue_name :=
      ok_or (runtime_policy_queue_name workflow)
        (DurableStoreError.Contract "Model v12 is missing its runtime policy queue.") in
    check fail_if (policy_conflict db workflow_id definition_hash policy_hash)
      (DurableStoreError.RuntimePolicyDefinitionConflict workflow_id);
    Ok (Some (policy_hash, queue_name))
  else Ok None.

(** INSERT INTO woml_runs and INSERT INTO woml_trigger_occurrences. *)
Definition insert_run (db : StoreTables) (run_id workflow_id definition_hash : string) :
    store_result StoreTables :=
  check fail_if (is_some (db.(StoreTables.runs) !! run_id) || is_none (db.(StoreTables.definitions) !! definition_hash)) DurableStoreError.Sqlite;
  Ok (db <| StoreTables.runs ::= <[run_id := RunDefinitionBinding.mk workflow_id definition_hash]> |>).

Definition insert_occurrence (db : StoreTables) (occurrence_id : string) (row : StoredOccurrence) :
    store_result StoreTables :=
  check fail_if
    (is_some (db.(StoreTables.triggers).(TriggerTables.occurrences) !! occurrence_id)
     || existsb (λ other : string * StoredOccurrence, other.2.(StoredOccurrence.run_id) == row.(StoredOccurrence.run_id))
          (map_to_list db.(StoreTables.triggers).(TriggerTables.occurrences))
     || is_some (occurrence_of_identity db row.(StoredOccurrence.workflow_id) row.(StoredOccurrence.trigger_id) row.(StoredOccurrence.source_identity_hash))
     || is_none (db.(StoreTables.runs) !! row.(StoredOccurrence.run_id)))
    DurableStoreError.Sqlite;
  Ok (db <| StoreTables.triggers ::= λ t, t <| TriggerTables.occurrences ::= <[occurrence_id := row]> |> |>).

(** The first event of the run. *)
Definition admission_payload (request : TriggerAdmissionRequest) (occurrence_id : string)
    (identity : option (string * string)) : RunEventPayload :=
  match identity with
  | Some (policy_hash, queue_name) =>
      RunEventPayload.RunAdmitted
        (RunAdmittedData.mk request.(TriggerAdmissionRequest.definition_hash) policy_hash
           (RunAdmissionTrigger.mk request.(TriggerAdmissionRequest.trigger_id) request.(TriggerAdmissionRequest.trigger_handler)) request.(TriggerAdmissionRequest.payload)
           (RunAdmissionQueue.mk queue_name QueueDiscipline.WorkConservingFifo) request.(TriggerAdmissionRequest.received_at) 0)
  | None =>
      RunEventPayload.RunStarted
        (RunStartedData.mk request.(TriggerAdmissionRequest.workflow_id) request.(TriggerAdmissionRequest.definition_hash) (Some request.(TriggerAdmissionRequest.trigger_id))
           (Some request.(TriggerAdmissionRequest.trigger_handler)) (Some occurrence_id) None request.(TriggerAdmissionRequest.payload))
  end.

(** [Uuid::new_v4().simple()]. *)
Definition draw_uuid (db : StoreTables) : StoreTables * string :=
  (db <| StoreTables.uuids_drawn ::= S |>, uuid_simple db.(StoreTables.uuids_drawn)).

(** A new run for an occurrence that is not stored yet. *)
Definition admit_new_occurrence (db : StoreTables) (request : TriggerAdmissionRequest)
    (workflow : CompiledWorkflowDefinition) (identity : option (string * string))
    (source_identity_hash payload_hash : string) (clock : nat → DateTime) :
    store_result (StoreTables * TriggerAdmissionOutcome) :=
  check fail_if
    (is_some identity && (RUNTIME_POLICY_QUEUE_CEILING <=? size db.(StoreTables.indexes).(RunIndexes.policy_queue))%nat)
    DurableStoreError.RuntimePolicyQueueFull;
  let '(db, occurrence_uuid) := draw_uuid db in
  let '(db, run_uuid) := draw_uuid db in
  let occurrence_id := "occ_" +:+ occurrence_uuid in
  let run_id := "run_" +:+ run_uuid in
  let? db := insert_run db run_id request.(TriggerAdmissionRequest.workflow_id) request.(TriggerAdmissionRequest.definition_hash) in
  let payload := admission_payload request occurrence_id identity in
  check map_err DurableStoreError.Contract (validate_payload_against_definition workflow request.(TriggerAdmissionRequest.definition_hash) payload);
  let '(db, event_id) := generated_event_id db in
  let? (db, events, _) :=
    append_to_history_scoped run_id event_id request.(TriggerAdmissionRequest.received_at)
      (run_event_schema_version_for_model workflow.(CompiledWorkflowDefinition.schema_version)) None db [] payload in
  let? _ := map_err DurableStoreError.Contract (check_history workflow request.(TriggerAdmissionRequest.definition_hash) events clock) in
  let? db :=
    insert_occurrence db occurrence_id
      (StoredOccurrence.mk request.(TriggerAdmissionRequest.workflow_id) request.(TriggerAdmissionRequest.trigger_id) request.(TriggerAdmissionRequest.trigger_handler)
         request.(TriggerAdmissionRequest.definition_hash) source_identity_hash payload_hash (to_rfc3339 request.(TriggerAdmissionRequest.received_at)) run_id) in
  Ok (db, TriggerAdmissionOutcome.mk occurrence_id run_id false).

Definition admit_trigger_occurrence_in_transaction (db : StoreTables) (request : TriggerAdmissionRequest)
    (clock : nat → DateTime) : store_result (StoreTables * TriggerAdmissionOutcome) :=
  let source_identity_hash := sha256_prefixed request.(TriggerAdmissionRequest.source_identity) in
  let? payload_hash := canonical_payload_hash request.(TriggerAdmissionRequest.payload) in
  let? workflow := definition_by_hash db request.(TriggerAdmissionRequest.definition_hash) in
  check fail_if ((workflow.(CompiledWorkflowDefinition.schema_version) <? 7)%N || (workflow.(CompiledWorkflowDefinition.workflow_id) != request.(TriggerAdmissionRequest.workflow_id)))
    DurableStoreError.TriggerDefinitionMismatch;
  let? declared :=
    ok_or (trigger workflow request.(TriggerAdmissionRequest.trigger_id))
      (DurableStoreError.TriggerNotFound request.(TriggerAdmissionRequest.workflow_id) request.(TriggerAdmissionRequest.trigger_id)) in
  check fail_if (declared.(CompiledTrigger.handler) != request.(TriggerAdmissionRequest.trigger_handler)) DurableStoreError.TriggerHandlerMismatch;
  let? identity := runtime_policy_identity db workflow request.(TriggerAdmissionRequest.workflow_id) request.(TriggerAdmissionRequest.definition_hash) in
  let? existing :=
    load_trigger_occurrence_by_identity db request.(TriggerAdmissionRequest.workflow_id) request.(TriggerAdmissionRequest.trigger_id) source_identity_hash in
  match existing with
  | Some existing =>
      check fail_if (existing.(TriggerOccurrence.payload_hash) != payload_hash) DurableStoreError.TriggerIdempotencyConflict;
      let? _ := validate_trigger_occurrence_history db existing clock in
      Ok (db, TriggerAdmissionOutcome.mk existing.(TriggerOccurrence.occurrence_id) existing.(TriggerOccurrence.run_id) true)
  | None => admit_new_occurrence db request workflow identity source_identity_hash payload_hash clock
  end.

(** [DurableEventStore::admit_trigger_occurrence] and [DurableEventStore::trigger_occurrence]. *)
Definition admit_trigger_occurrence (db : StoreTables) (request : TriggerAdmissionRequest)
    (clock : nat → DateTime) : store_result (StoreTables * TriggerAdmissionOutcome) :=
  check validate_trigger_admission_request request;
  admit_trigger_occurrence_in_transaction db request clock.

Definition trigger_occurrence (db : StoreTables) (occurrence_id : string) : store_result TriggerOccurrence :=
  let? found := load_trigger_occurrence_by_id db occurrence_id in
  ok_or found (DurableStoreError.TriggerHistoryInvalid "trigger occurrence {occurrence_id:?} does not exist").

(** ** Internal events *)

Definition INTERNAL_EVENT_DEPTH : nat := 32.

(** The publication that a run was started by; [woml_internal_event_deliveries.run_id] is unique. *)
Definition delivery_of_run (db : StoreTables) (run_id : string) : option (string * string * string) :=
  fst <$> List.find (λ row : (string * string * string) * string, row.2 == run_id)
            (map_to_list db.(StoreTables.triggers).(TriggerTables.deliveries)).
Definition publication_of_run (db : StoreTables) (run_id : string) : option StoredPublication :=
  key ← delivery_of_run db run_id; db.(StoreTables.triggers).(TriggerTables.publications) !! key.1.1.

(** The workflow and the trigger of the occurrence of a run. *)
Definition source_of_run (db : StoreTables) (run_id : string) : option (string * string) :=
  row ← List.find (λ row : string * StoredOccurrence, row.2.(StoredOccurrence.run_id) == run_id)
          (map_to_list db.(StoreTables.triggers).(TriggerTables.occurrences));
  Some (row.2.(StoredOccurrence.workflow_id), row.2.(StoredOccurrence.trigger_id)).

(** [while let Some(run_id) = ancestor_run]: 32 runs are inspected at most. *)
Fixpoint check_ancestors (inspections : nat) (db : StoreTables) (subscriber : string * string)
    (ancestor_run : option string) : store_result unit :=
  match ancestor_run with
  | None => Ok tt
  | Some run_id =>
      match inspections with
      | O => Err DurableStoreError.InternalEventDepthExceeded
      | S inspections =>
          check fail_if (source_of_run db run_id == Some subscriber) DurableStoreError.InternalEventCycle;
          check_ancestors inspections db subscriber
            (StoredPublication.parent_run_id <$> publication_of_run db run_id)
      end
  end.

Definition u32_saturating_add (a b : N) : N := N.min (a + b) (u32_modulus - 1).

(** The publication is stored once, and a repetition must agree with it. *)
Definition record_publication (db : StoreTables) (request : InternalEventAdmissionRequest)
    (payload_hash : string) (depth : N) : store_result StoreTables :=
  match db.(StoreTables.triggers).(TriggerTables.publications) !! request.(InternalEventAdmissionRequest.publication_id) with
  | Some existing =>
      check fail_if
        ((existing.(StoredPublication.parent_run_id) != request.(InternalEventAdmissionRequest.parent_run_id)) || (existing.(StoredPublication.event_name) != request.(InternalEventAdmissionRequest.event_name))
         || (existing.(StoredPublication.payload_hash) != payload_hash) || negb (existing.(StoredPublication.depth) =? depth)%N)
        DurableStoreError.InternalEventIdempotencyConflict;
      Ok db
  | None =>
      let row :=
        StoredPublication.mk request.(InternalEventAdmissionRequest.parent_run_id) request.(InternalEventAdmissionRequest.event_name) payload_hash depth
          (to_rfc3339 request.(InternalEventAdmissionRequest.emitted_at)) in
      Ok (db <| StoreTables.triggers ::= λ t,
            t <| TriggerTables.publications ::= <[request.(InternalEventAdmissionRequest.publication_id) := row]> |> |>)
  end.

(** The delivery to a subscriber is stored once, with the run that it started; a run has at most
    one delivery. *)
Definition record_delivery (db : StoreTables) (key : string * string * string) (run_id : string) :
    store_result StoreTables :=
  match db.(StoreTables.triggers).(TriggerTables.deliveries) !! key with
  | Some existing =>
      check fail_if (existing != run_id) DurableStoreError.InternalEventIdempotencyConflict;
      Ok db
  | None =>
      check fail_if (is_some (delivery_of_run db run_id)) DurableStoreError.Sqlite;
      Ok (db <| StoreTables.triggers ::= λ t, t <| TriggerTables.deliveries ::= <[key := run_id]> |> |>)
  end.

(** The new tables, the depth and the outcome of the occurrence. *)
Definition admit_internal_event_occurrence (db : StoreTables) (request : InternalEventAdmissionRequest)
    (clock : nat → DateTime) : store_result (StoreTables * N * TriggerAdmissionOutcome) :=
  let subscriber := request.(InternalEventAdmissionRequest.trigger) in
  check validate_trigger_admission_request subscriber;
  check fail_if
    ((subscriber.(TriggerAdmissionRequest.trigger_handler) != "trigger.event")
     || negb (starts_with "internal:v1:sha256:" request.(InternalEventAdmissionRequest.publication_id))
     || negb (str_len request.(InternalEventAdmissionRequest.publication_id) =? 83)%N
     || str_is_empty request.(InternalEventAdmissionRequest.event_name) || (256 <? str_len request.(InternalEventAdmissionRequest.event_name))%N)
    (DurableStoreError.Contract "Internal event admission identity is invalid.");
  check ensure_run_exists db request.(InternalEventAdmissionRequest.parent_run_id);
  let? payload_hash := canonical_payload_hash subscriber.(TriggerAdmissionRequest.payload) in
  let parent_depth := StoredPublication.depth <$> publication_of_run db request.(InternalEventAdmissionRequest.parent_run_id) in
  let depth := u32_saturating_add (default 0%N parent_depth) 1 in
  check fail_if (32 <? depth)%N DurableStoreError.InternalEventDepthExceeded;
  check check_ancestors INTERNAL_EVENT_DEPTH db (subscriber.(TriggerAdmissionRequest.workflow_id), subscriber.(TriggerAdmissionRequest.trigger_id))
    (Some request.(InternalEventAdmissionRequest.parent_run_id));
  let? db := record_publication db request payload_hash depth in
  let? (db, outcome) := admit_trigger_occurrence_in_transaction db subscriber clock in
  let? db :=
    record_delivery db (request.(InternalEventAdmissionRequest.publication_id), subscriber.(TriggerAdmissionRequest.workflow_id), subscriber.(TriggerAdmissionRequest.trigger_id)) outcome.(TriggerAdmissionOutcome.run_id) in
  Ok (db, depth, outcome).

(** ** Cursors of schedules, durable/transactions/schedules.rs *)

Definition valid_on_missed (value : string) : bool := (value == "skip") || (value == "run-once").

Definition validate_schedule_cursor_registration (registration : ScheduleCursorRegistration) :
    store_result unit :=
  fail_if
    (str_is_empty registration.(ScheduleCursorRegistration.workflow_id) || str_is_empty registration.(ScheduleCursorRegistration.trigger_id)
     || str_is_empty registration.(ScheduleCursorRegistration.cron) || str_is_empty registration.(ScheduleCursorRegistration.timezone)
     || negb (valid_on_missed registration.(ScheduleCursorRegistration.on_missed))
     || negb (is_definition_hash registration.(ScheduleCursorRegistration.definition_hash)))
    (DurableStoreError.Contract "Schedule cursor registration is invalid.").

(** The literals of the configuration of a trigger. *)
Definition literal_text (fields : gmap string ValueExpression) (name : string) : option string :=
  match fields !! name with Some (ValueExpression.Literal value) => as_str value | _ => None end.
Definition literal_number (fields : gmap string ValueExpression) (name : string) : option N :=
  match fields !! name with Some (ValueExpression.Literal value) => as_u64 value | _ => None end.

(** The configuration of the trigger that a registration names. *)
Definition registered_config (db : StoreTables) (workflow_id trigger_id definition_hash handler : string) :
    store_result (gmap string ValueExpression) :=
  let? workflow :=
    ok_or (db.(StoreTables.definitions) !! definition_hash) (DurableStoreError.DefinitionNotFound definition_hash) in
  check fail_if (workflow.(CompiledWorkflowDefinition.workflow_id) != workflow_id) DurableStoreError.TriggerDefinitionMismatch;
  let? declared :=
    ok_or (trigger workflow trigger_id) (DurableStoreError.TriggerNotFound workflow_id trigger_id) in
  check fail_if (declared.(CompiledTrigger.handler) != handler) DurableStoreError.TriggerHandlerMismatch;
  match declared.(CompiledTrigger.config) with
  | ValueExpression.Object fields => Ok fields
  | _ => Err DurableStoreError.TriggerDefinitionMismatch
  end.

Definition validate_schedule_registration_definition (db : StoreTables)
    (registration : ScheduleCursorRegistration) : store_result unit :=
  let? fields :=
    registered_config db registration.(ScheduleCursorRegistration.workflow_id) registration.(ScheduleCursorRegistration.trigger_id) registration.(ScheduleCursorRegistration.definition_hash)
      "trigger.schedule" in
  fail_if
    ((literal_text fields "cron" != Some registration.(ScheduleCursorRegistration.cron))
     || (literal_text fields "timezone" != Some registration.(ScheduleCursorRegistration.timezone))
     || (literal_text fields "onMissed" != Some registration.(ScheduleCursorRegistration.on_missed)))
    DurableStoreError.TriggerDefinitionMismatch.

Definition load_schedule_cursor (db : StoreTables) (workflow_id trigger_id : string) :
    store_result (option ScheduleCursor) :=
  match db.(StoreTables.triggers).(TriggerTables.schedule_cursors) !! (workflow_id, trigger_id) with
  | Some stored =>
      let? next_scheduled_at := parse_durable_timestamp stored.(StoredSchedule.next_scheduled_at) "schedule next instant" in
      let? updated_at := parse_durable_timestamp stored.(StoredSchedule.updated_at) "schedule update instant" in
      Ok (Some (ScheduleCursor.mk workflow_id trigger_id stored.(StoredSchedule.definition_hash) stored.(StoredSchedule.cron) stored.(StoredSchedule.timezone)
                  stored.(StoredSchedule.on_missed) next_scheduled_at updated_at))
  | None => Ok None
  end.

Definition put_schedule (db : StoreTables) (key : string * string) (row : StoredSchedule) : StoreTables :=
  db <| StoreTables.triggers ::= λ t, t <| TriggerTables.schedule_cursors ::= <[key := row]> |> |>.

Definition update_schedule_cursor (db : StoreTables) (workflow_id trigger_id : string)
    (expected_next_scheduled_at next_scheduled_at updated_at : DateTime) : store_result StoreTables :=
  check fail_if (next_scheduled_at <=? expected_next_scheduled_at)%Z
    (DurableStoreError.Contract "A schedule cursor must advance to a later planned instant.");
  match db.(StoreTables.triggers).(TriggerTables.schedule_cursors) !! (workflow_id, trigger_id) with
  | Some stored =>
      check fail_if (stored.(StoredSchedule.next_scheduled_at) != to_rfc3339 expected_next_scheduled_at)
        DurableStoreError.ScheduleCursorConflict;
      Ok (put_schedule db (workflow_id, trigger_id)
            (stored <| StoredSchedule.next_scheduled_at := to_rfc3339 next_scheduled_at |>
                    <| StoredSchedule.updated_at := to_rfc3339 updated_at |>))
  | None => Err DurableStoreError.ScheduleCursorConflict
  end.

(** Whether a registration starts anew: there is no cursor, or it was made for something else. *)
Definition schedule_initialized (existing : option ScheduleCursor)
    (registration : ScheduleCursorRegistration) : bool :=
  match existing with
  | None => true
  | Some cursor =>
      (cursor.(ScheduleCursor.definition_hash) != registration.(ScheduleCursorRegistration.definition_hash)) || (cursor.(ScheduleCursor.cron) != registration.(ScheduleCursorRegistration.cron))
      || (cursor.(ScheduleCursor.timezone) != registration.(ScheduleCursorRegistration.timezone)) || (cursor.(ScheduleCursor.on_missed) != registration.(ScheduleCursorRegistration.on_missed))
  end.

(** The cursor, and whether it was initialized. *)
Definition register_schedule_cursor (db : StoreTables) (registration : ScheduleCursorRegistration)
    (initial_next_scheduled_at registered_at : DateTime) :
    store_result (StoreTables * ScheduleCursor * bool) :=
  check validate_schedule_cursor_registration registration;
  check validate_schedule_registration_definition db registration;
  let? existing := load_schedule_cursor db registration.(ScheduleCursorRegistration.workflow_id) registration.(ScheduleCursorRegistration.trigger_id) in
  let initialized := schedule_initialized existing registration in
  let db :=
    if initialized
    then put_schedule db (registration.(ScheduleCursorRegistration.workflow_id), registration.(ScheduleCursorRegistration.trigger_id))
           (StoredSchedule.mk registration.(ScheduleCursorRegistration.definition_hash) registration.(ScheduleCursorRegistration.cron) registration.(ScheduleCursorRegistration.timezone)
              registration.(ScheduleCursorRegistration.on_missed) (to_rfc3339 initial_next_scheduled_at) (to_rfc3339 registered_at))
    else db in
  let? stored := load_schedule_cursor db registration.(ScheduleCursorRegistration.workflow_id) registration.(ScheduleCursorRegistration.trigger_id) in
  let? cursor := ok_or stored (DurableStoreError.Contract "Schedule cursor was not stored.") in
  Ok (db, cursor, initialized).

Definition schedule_cursor (db : StoreTables) (workflow_id trigger_id : string) :
    store_result ScheduleCursor :=
  let? stored := load_schedule_cursor db workflow_id trigger_id in
  ok_or stored (DurableStoreError.Contract "Schedule cursor for workflow {workflow_id:?}, trigger {trigger_id:?} does not exist.").

Definition advance_schedule_cursor (db : StoreTables) (workflow_id trigger_id : string)
    (expected_next_scheduled_at next_scheduled_at updated_at : DateTime) :
    store_result (StoreTables * ScheduleCursor) :=
  let? db :=
    update_schedule_cursor db workflow_id trigger_id expected_next_scheduled_at next_scheduled_at updated_at in
  let? stored := load_schedule_cursor db workflow_id trigger_id in
  let? cursor := ok_or stored DurableStoreError.ScheduleCursorConflict in
  Ok (db, cursor).

Definition claim_schedule_occurrence (db : StoreTables)
    (expected_next_scheduled_at next_scheduled_at : DateTime) (request : TriggerAdmissionRequest)
    (clock : nat → DateTime) : store_result (StoreTables * TriggerAdmissionOutcome * ScheduleCursor) :=
  check validate_trigger_admission_request request;
  check fail_if (request.(TriggerAdmissionRequest.trigger_handler) != "trigger.schedule") DurableStoreError.TriggerHandlerMismatch;
  let? (db, outcome) := admit_trigger_occurrence_in_transaction db request clock in
  let? (db, cursor) :=
    advance_schedule_cursor db request.(TriggerAdmissionRequest.workflow_id) request.(TriggerAdmissionRequest.trigger_id) expected_next_scheduled_at
      next_scheduled_at request.(TriggerAdmissionRequest.received_at) in
  Ok (db, outcome, cursor).

(** ** Cursors of intervals, durable/transactions/intervals.rs *)

Definition validate_interval_cursor_registration (registration : IntervalCursorRegistration) :
    store_result unit :=
  fail_if
    (str_is_empty registration.(IntervalCursorRegistration.workflow_id) || str_is_empty registration.(IntervalCursorRegistration.trigger_id)
     || negb (valid_on_missed registration.(IntervalCursorRegistration.on_missed))
     || negb (is_definition_hash registration.(IntervalCursorRegistration.definition_hash))
     || negb (is_ok (interval_new registration.(IntervalCursorRegistration.every_ms))))
    (DurableStoreError.Contract "Interval cursor registration is invalid.").

Definition validate_interval_registration_definition (db : StoreTables)
    (registration : IntervalCursorRegistration) : store_result unit :=
  let? fields :=
    registered_config db registration.(IntervalCursorRegistration.workflow_id) registration.(IntervalCursorRegistration.trigger_id) registration.(IntervalCursorRegistration.definition_hash)
      "trigger.interval" in
  fail_if
    ((literal_number fields "everyMs" != Some registration.(IntervalCursorRegistration.every_ms))
     || (literal_text fields "onMissed" != Some registration.(IntervalCursorRegistration.on_missed)))
    DurableStoreError.TriggerDefinitionMismatch.

(** [u64::try_from] of an SQLite integer. *)
Definition u64_try_from (n : Z) : option N := if (n <? 0)%Z then None else Some (Z.to_N n).

Definition load_interval_cursor (db : StoreTables) (workflow_id trigger_id : string) :
    store_result (option IntervalCursor) :=
  match db.(StoreTables.triggers).(TriggerTables.interval_cursors) !! (workflow_id, trigger_id) with
  | Some stored =>
      let? every_ms :=
        ok_or (u64_try_from stored.(StoredInterval.every_ms)) (DurableStoreError.Contract "Stored interval duration is invalid.") in
      let? anchor_at := parse_durable_timestamp stored.(StoredInterval.anchor_at) "interval anchor" in
      let? next_sequence :=
        ok_or (u64_try_from stored.(StoredInterval.next_sequence)) (DurableStoreError.Contract "Stored interval sequence is invalid.") in
      let? next_scheduled_at := parse_durable_timestamp stored.(StoredInterval.next_scheduled_at) "interval next instant" in
      let? updated_at := parse_durable_timestamp stored.(StoredInterval.updated_at) "interval update instant" in
      Ok (Some (IntervalCursor.mk workflow_id trigger_id stored.(StoredInterval.definition_hash) every_ms stored.(StoredInterval.on_missed)
                  anchor_at next_sequence next_scheduled_at updated_at))
  | None => Ok None
  end.

Definition put_interval (db : StoreTables) (key : string * string) (row : StoredInterval) : StoreTables :=
  db <| StoreTables.triggers ::= λ t, t <| TriggerTables.interval_cursors ::= <[key := row]> |> |>.

Definition durable_sequence (sequence : N) : store_result Z :=
  ok_or (i64_try_from sequence) (DurableStoreError.Contract "Interval sequence exceeds the durable integer range.").

Definition update_interval_cursor (db : StoreTables) (workflow_id trigger_id : string)
    (expected_sequence : N) (expected_scheduled_at : DateTime) (next_sequence : N)
    (next_scheduled_at updated_at : DateTime) : store_result StoreTables :=
  check fail_if ((next_sequence <=? expected_sequence)%N || (next_scheduled_at <=? expected_scheduled_at)%Z)
    (DurableStoreError.Contract "An interval cursor must advance to a later sequence and planned instant.");
  let? expected_sequence := durable_sequence expected_sequence in
  let? next_sequence := durable_sequence next_sequence in
  match db.(StoreTables.triggers).(TriggerTables.interval_cursors) !! (workflow_id, trigger_id) with
  | Some stored =>
      check fail_if
        (negb (stored.(StoredInterval.next_sequence) =? expected_sequence)%Z
         || (stored.(StoredInterval.next_scheduled_at) != to_rfc3339 expected_scheduled_at))
        DurableStoreError.IntervalCursorConflict;
      Ok (put_interval db (workflow_id, trigger_id)
            (stored <| StoredInterval.next_sequence := next_sequence |>
                    <| StoredInterval.next_scheduled_at := to_rfc3339 next_scheduled_at |>
                    <| StoredInterval.updated_at := to_rfc3339 updated_at |>))
  | None => Err DurableStoreError.IntervalCursorConflict
  end.

Definition interval_initialized (existing : option IntervalCursor)
    (registration : IntervalCursorRegistration) : bool :=
  match existing with
  | None => true
  | Some cursor =>
      (cursor.(IntervalCursor.definition_hash) != registration.(IntervalCursorRegistration.definition_hash))
      || negb (cursor.(IntervalCursor.every_ms) =? registration.(IntervalCursorRegistration.every_ms))%N || (cursor.(IntervalCursor.on_missed) != registration.(IntervalCursorRegistration.on_missed))
  end.

Definition interval_contract {A} (r : interval_result A) : store_result A :=
  map_err (λ _, DurableStoreError.Contract "{error}") r.

Definition register_interval_cursor (db : StoreTables) (registration : IntervalCursorRegistration)
    (anchor_at registered_at : DateTime) : store_result (StoreTables * IntervalCursor * bool) :=
  check validate_interval_cursor_registration registration;
  let? interval := interval_contract (interval_new registration.(IntervalCursorRegistration.every_ms)) in
  let? anchor_at := interval_contract (normalize_anchor anchor_at) in
  let? initial_next_scheduled_at := interval_contract (planned_at interval anchor_at 1) in
  check validate_interval_registration_definition db registration;
  let? existing := load_interval_cursor db registration.(IntervalCursorRegistration.workflow_id) registration.(IntervalCursorRegistration.trigger_id) in
  let initialized := interval_initialized existing registration in
  let? db :=
    if initialized then
      let? every_ms :=
        ok_or (i64_try_from registration.(IntervalCursorRegistration.every_ms))
          (DurableStoreError.Contract "Interval duration exceeds the durable integer range.") in
      Ok (put_interval db (registration.(IntervalCursorRegistration.workflow_id), registration.(IntervalCursorRegistration.trigger_id))
            (StoredInterval.mk registration.(IntervalCursorRegistration.definition_hash) every_ms registration.(IntervalCursorRegistration.on_missed)
               (to_rfc3339 anchor_at) 1 (to_rfc3339 initial_next_scheduled_at) (to_rfc3339 registered_at)))
    else Ok db in
  let? stored := load_interval_cursor db registration.(IntervalCursorRegistration.workflow_id) registration.(IntervalCursorRegistration.trigger_id) in
  let? cursor := ok_or stored (DurableStoreError.Contract "Interval cursor was not stored.") in
  Ok (db, cursor, initialized).

Definition interval_cursor (db : StoreTables) (workflow_id trigger_id : string) :
    store_result IntervalCursor :=
  let? stored := load_interval_cursor db workflow_id trigger_id in
  ok_or stored (DurableStoreError.Contract "Interval cursor for workflow {workflow_id:?}, trigger {trigger_id:?} does not exist.").

Definition advance_interval_cursor (db : StoreTables) (workflow_id trigger_id : string)
    (expected_sequence : N) (expected_scheduled_at : DateTime) (next_sequence : N)
    (next_scheduled_at updated_at : DateTime) : store_result (StoreTables * IntervalCursor) :=
  let? db :=
    update_interval_cursor db workflow_id trigger_id expected_sequence expected_scheduled_at next_sequence
      next_scheduled_at updated_at in
  let? stored := load_interval_cursor db workflow_id trigger_id in
  let? cursor := ok_or stored DurableStoreError.IntervalCursorConflict in
  Ok (db, cursor).

Definition claim_interval_occurrence (db : StoreTables) (expected_sequence : N)
    (expected_scheduled_at : DateTime) (next_sequence : N) (next_scheduled_at : DateTime)
    (request : TriggerAdmissionRequest) (clock : nat → DateTime) :
    store_result (StoreTables * TriggerAdmissionOutcome * IntervalCursor) :=
  check validate_trigger_admission_request request;
  check fail_if (request.(TriggerAdmissionRequest.trigger_handler) != "trigger.interval") DurableStoreError.TriggerHandlerMismatch;
  let? (db, outcome) := admit_trigger_occurrence_in_transaction db request clock in
  let? (db, cursor) :=
    advance_interval_cursor db request.(TriggerAdmissionRequest.workflow_id) request.(TriggerAdmissionRequest.trigger_id) expected_sequence
      expected_scheduled_at next_sequence next_scheduled_at request.(TriggerAdmissionRequest.received_at) in
  Ok (db, outcome, cursor).

(** ** Rounds of schedules, webhook/schedules.rs *)

Record ScheduleRuntimeRegistration := mk_schedule_registration {
  schedule_workflow_id : string;
  schedule_definition_hash : string;
  schedule_trigger_id : string;
  schedule_of : WomlSchedule;
  schedule_on_missed : ScheduleMisfirePolicy
}.

Record IntervalRuntimeRegistration := mk_interval_registration {
  interval_workflow_id : string;
  interval_definition_hash : string;
  interval_trigger_id : string;
  interval_of : WomlInterval;
  interval_on_missed : ScheduleMisfirePolicy
}.

(** [ScheduleProgressReason] and [IntervalProgressReason]. *)
Inductive ProgressReason := Initialized | Restarted | Advanced | MisfireSkipped | MisfireRunOnce.

(** What a round of a trigger leads to: it goes on at once, it stops with a report, or the cursor
    has moved and a run may have been admitted. *)
Inductive round (cursor : Type) :=
| Again
| Stopped (message : string)
| Moved (cursor' : cursor) (reason : ProgressReason) (outcome : option TriggerAdmissionOutcome).
#[global] Arguments Again {_}.
#[global] Arguments Stopped {_} _.
#[global] Arguments Moved {_} _ _ _.

(** [return] with a report. *)
Definition or_stop {E A C} (db : StoreTables) (r : result E A) (k : A → StoreTables * round C) :
    StoreTables * round C :=
  match r with
  | Ok a => k a
  | Err _ => (db, Stopped "{error}")
  | Panic message => (db, Stopped message)
  end.

Definition trigger_payload (planned triggered_at : DateTime) : Map :=
  [("scheduledAt", Value.String (rfc3339_millis planned));
   ("triggeredAt", Value.String (rfc3339_millis triggered_at))].

Definition schedule_admission (registration : ScheduleRuntimeRegistration) (planned triggered_at : DateTime) :
    TriggerAdmissionRequest :=
  TriggerAdmissionRequest.mk (schedule_workflow_id registration) (schedule_definition_hash registration)
    (schedule_trigger_id registration) "trigger.schedule"
    (schedule_workflow_id registration +:+ ":" +:+ schedule_trigger_id registration +:+ ":"
     +:+ rfc3339_millis planned)
    (trigger_payload planned triggered_at) triggered_at.

(** A misfire: several instants have passed. *)
Definition skip_misfire (db : StoreTables) (registration : ScheduleRuntimeRegistration)
    (cursor : ScheduleCursor) (next now : DateTime) : StoreTables * round ScheduleCursor :=
  match advance_schedule_cursor db (schedule_workflow_id registration) (schedule_trigger_id registration)
          cursor.(ScheduleCursor.next_scheduled_at) next now with
  | Ok (db', advanced) => (db', Moved advanced MisfireSkipped None)
  | Err DurableStoreError.ScheduleCursorConflict => (db, Again)
  | Err _ => (db, Stopped "{error}")
  | Panic message => (db, Stopped message)
  end.

Definition claim_planned (db : StoreTables) (registration : ScheduleRuntimeRegistration)
    (cursor : ScheduleCursor) (planned next now : DateTime) (reason : ProgressReason)
    (clock : nat → DateTime) : StoreTables * round ScheduleCursor :=
  match claim_schedule_occurrence db cursor.(ScheduleCursor.next_scheduled_at) next
          (schedule_admission registration planned now) clock with
  | Ok (db', outcome, advanced) => (db', Moved advanced reason (Some outcome))
  | Err DurableStoreError.ScheduleCursorConflict => (db, Again)
  | Err DurableStoreError.RuntimePolicyQueueFull =>
      (db, Stopped "The durable WOML policy queue is full; the schedule cursor was not advanced.")
  | Err _ => (db, Stopped "{error}")
  | Panic message => (db, Stopped message)
  end.

(** The body of [run_schedule_loop], with the cursor it read and the time after its sleep. *)
Definition schedule_round (db : StoreTables) (registration : ScheduleRuntimeRegistration)
    (cursor : ScheduleCursor) (now : DateTime) (clock : nat → DateTime) :
    StoreTables * round ScheduleCursor :=
  let schedule := schedule_of registration in
  if (now <? cursor.(ScheduleCursor.next_scheduled_at))%Z then (db, Again)
  else
    or_stop db (next_after schedule cursor.(ScheduleCursor.next_scheduled_at)) (λ following,
      let multiple_elapsed := (following <=? now)%Z in
      if multiple_elapsed && (schedule_on_missed registration == ScheduleMisfirePolicy.Skip) then
        or_stop db (next_after schedule now) (λ next, skip_misfire db registration cursor next now)
      else if multiple_elapsed then
        or_stop db (latest_at_or_before schedule now) (λ planned,
          or_stop db (next_after schedule now) (λ next,
            claim_planned db registration cursor planned next now MisfireRunOnce clock))
      else claim_planned db registration cursor cursor.(ScheduleCursor.next_scheduled_at) following now Advanced clock).

Definition schedule_invalid {A} (r : schedule_result A) : store_result A :=
  map_err (λ _, DurableStoreError.Contract "{error}") r.

(** A transaction that fails leaves the tables as they were. *)
Definition committed_or_kept {A} (db : StoreTables) (r : store_result (StoreTables * A)) :
    StoreTables * store_result A :=
  match r with
  | Ok (db', a) => (db', Ok a)
  | Err e => (db, Err e)
  | Panic message => (db, Panic message)
  end.

(** What [initialize_schedules] does with the cursor that it registered. *)
Definition recover_schedule (db : StoreTables) (registration : ScheduleRuntimeRegistration)
    (cursor : ScheduleCursor) (initialized : bool) (now : DateTime) (clock : nat → DateTime) :
    store_result (StoreTables * round ScheduleCursor) :=
  let schedule := schedule_of registration in
  if negb initialized && (cursor.(ScheduleCursor.next_scheduled_at) <? now)%Z then
    let? next := schedule_invalid (next_after schedule now) in
    match schedule_on_missed registration with
    | ScheduleMisfirePolicy.Skip =>
        let? (db, cursor) :=
          advance_schedule_cursor db (schedule_workflow_id registration) (schedule_trigger_id registration)
            cursor.(ScheduleCursor.next_scheduled_at) next now in
        Ok (db, Moved cursor MisfireSkipped None)
    | ScheduleMisfirePolicy.RunOnce =>
        let? planned := schedule_invalid (latest_at_or_before schedule now) in
        let? (db, outcome, cursor) :=
          claim_schedule_occurrence db cursor.(ScheduleCursor.next_scheduled_at) next
            (schedule_admission registration planned now) clock in
        Ok (db, Moved cursor MisfireRunOnce (Some outcome))
    end
  else Ok (db, Moved cursor (if initialized then Initialized else Restarted) None).

(** One trigger of [initialize_schedules]: two transactions; an error keeps the runtime from
    starting. *)
Definition initialize_schedule (db : StoreTables) (registration : ScheduleRuntimeRegistration)
    (now : DateTime) (clock : nat → DateTime) : StoreTables * store_result (round ScheduleCursor) :=
  let schedule := schedule_of registration in
  match
    (let? initial_next := schedule_invalid (next_at_or_after schedule now) in
     register_schedule_cursor db
       (ScheduleCursorRegistration.mk (schedule_workflow_id registration) (schedule_trigger_id registration)
          (schedule_definition_hash registration) (source schedule) (timezone_name schedule)
          (misfire_as_str (schedule_on_missed registration)))
       initial_next now)
  with
  | Ok (db, cursor, initialized) =>
      committed_or_kept db (recover_schedule db registration cursor initialized now clock)
  | Err e => (db, Err e)
  | Panic message => (db, Panic message)
  end.

(** ** Rounds of intervals, webhook/intervals.rs *)

Definition interval_admission (registration : IntervalRuntimeRegistration) (anchor_at : DateTime)
    (sequence : N) (planned_at triggered_at : DateTime) : TriggerAdmissionRequest :=
  TriggerAdmissionRequest.mk (interval_workflow_id registration) (interval_definition_hash registration)
    (interval_trigger_id registration) "trigger.interval"
    (interval_workflow_id registration +:+ ":" +:+ interval_trigger_id registration +:+ ":"
     +:+ rfc3339_millis anchor_at +:+ ":" +:+ decimal sequence)
    (trigger_payload planned_at triggered_at) triggered_at.

Definition skip_interval_misfire (db : StoreTables) (registration : IntervalRuntimeRegistration)
    (cursor : IntervalCursor) (next_sequence : N) (next_scheduled_at now : DateTime) :
    StoreTables * round IntervalCursor :=
  match advance_interval_cursor db (interval_workflow_id registration) (interval_trigger_id registration)
          cursor.(IntervalCursor.next_sequence) cursor.(IntervalCursor.next_scheduled_at) next_sequence next_scheduled_at now with
  | Ok (db', advanced) => (db', Moved advanced MisfireSkipped None)
  | Err DurableStoreError.IntervalCursorConflict => (db, Again)
  | Err _ => (db, Stopped "{error}")
  | Panic message => (db, Stopped message)
  end.

Definition claim_planned_interval (db : StoreTables) (registration : IntervalRuntimeRegistration)
    (cursor : IntervalCursor) (planned_sequence : N) (planned_at : DateTime) (next_sequence : N)
    (next_scheduled_at now : DateTime) (reason : ProgressReason) (clock : nat → DateTime) :
    StoreTables * round IntervalCursor :=
  match claim_interval_occurrence db cursor.(IntervalCursor.next_sequence) cursor.(IntervalCursor.next_scheduled_at) next_sequence
          next_scheduled_at
          (interval_admission registration cursor.(IntervalCursor.anchor_at) planned_sequence planned_at now) clock with
  | Ok (db', outcome, advanced) => (db', Moved advanced reason (Some outcome))
  | Err DurableStoreError.IntervalCursorConflict => (db, Again)
  | Err DurableStoreError.RuntimePolicyQueueFull =>
      (db, Stopped "The durable WOML policy queue is full; the interval cursor was not advanced.")
  | Err _ => (db, Stopped "{error}")
  | Panic message => (db, Stopped message)
  end.

(** The body of [run_interval_loop]. *)
Definition interval_round (db : StoreTables) (registration : IntervalRuntimeRegistration)
    (cursor : IntervalCursor) (now : DateTime) (clock : nat → DateTime) :
    StoreTables * round IntervalCursor :=
  let interval := interval_of registration in
  let anchor := cursor.(IntervalCursor.anchor_at) in
  if (now <? cursor.(IntervalCursor.next_scheduled_at))%Z then (db, Again)
  else
    match u64_checked (cursor.(IntervalCursor.next_sequence) + 1) with
    | None => (db, Stopped "interval sequence exceeds the supported range")
    | Some following_sequence =>
        or_stop db (planned_at interval anchor following_sequence) (λ following_at,
          let multiple_elapsed := (following_at <=? now)%Z in
          if multiple_elapsed && (interval_on_missed registration == ScheduleMisfirePolicy.Skip) then
            or_stop db (next_sequence_after interval anchor now) (λ next_sequence,
              or_stop db (planned_at interval anchor next_sequence) (λ next_scheduled_at,
                skip_interval_misfire db registration cursor next_sequence next_scheduled_at now))
          else if multiple_elapsed then
            or_stop db (latest_sequence_at_or_before interval anchor now) (λ planned_sequence,
              or_stop db (planned_at interval anchor planned_sequence) (λ planned,
                or_stop db (next_sequence_after interval anchor now) (λ next_sequence,
                  or_stop db (planned_at interval anchor next_sequence) (λ next_at,
                    claim_planned_interval db registration cursor planned_sequence planned next_sequence
                      next_at now MisfireRunOnce clock))))
          else
            claim_planned_interval db registration cursor cursor.(IntervalCursor.next_sequence) cursor.(IntervalCursor.next_scheduled_at)
              following_sequence following_at now Advanced clock)
    end.

(** One trigger of [initialize_intervals]. *)
Definition recover_interval (db : StoreTables) (registration : IntervalRuntimeRegistration)
    (cursor : IntervalCursor) (initialized : bool) (now : DateTime) (clock : nat → DateTime) :
    store_result (StoreTables * round IntervalCursor) :=
  let interval := interval_of registration in
  let anchor := cursor.(IntervalCursor.anchor_at) in
  if negb initialized && (cursor.(IntervalCursor.next_scheduled_at) <? now)%Z then
    let? next_sequence := interval_contract (next_sequence_after interval anchor now) in
    let? next_scheduled_at := interval_contract (planned_at interval anchor next_sequence) in
    match interval_on_missed registration with
    | ScheduleMisfirePolicy.Skip =>
        let? (db, cursor) :=
          advance_interval_cursor db (interval_workflow_id registration) (interval_trigger_id registration)
            cursor.(IntervalCursor.next_sequence) cursor.(IntervalCursor.next_scheduled_at) next_sequence next_scheduled_at now in
        Ok (db, Moved cursor MisfireSkipped None)
    | ScheduleMisfirePolicy.RunOnce =>
        let? planned_sequence := interval_contract (latest_sequence_at_or_before interval anchor now) in
        let? planned := interval_contract (planned_at interval anchor planned_sequence) in
        let? (db, outcome, cursor) :=
          claim_interval_occurrence db cursor.(IntervalCursor.next_sequence) cursor.(IntervalCursor.next_scheduled_at) next_sequence
            next_scheduled_at (interval_admission registration anchor planned_sequence planned now) clock in
        Ok (db, Moved cursor MisfireRunOnce (Some outcome))
    end
  else Ok (db, Moved cursor (if initialized then Initialized else Restarted) None).

Definition initialize_interval (db : StoreTables) (registration : IntervalRuntimeRegistration)
    (now : DateTime) (clock : nat → DateTime) : StoreTables * store_result (round IntervalCursor) :=
  match
    register_interval_cursor db
      (IntervalCursorRegistration.mk (interval_workflow_id registration) (interval_trigger_id registration)
         (interval_definition_hash registration) (interval_of registration).(WomlInterval.every_ms)
         (misfire_as_str (interval_on_missed registration)))
      now now
  with
  | Ok (db, cursor, initialized) =>
      committed_or_kept db (recover_interval db registration cursor initialized now clock)
  | Err e => (db, Err e)
  | Panic message => (db, Panic message)
  end.
End admission.
