(* ===== verification/PolicyQueue.v ===== *)
(** * Queued runs and the claims of schedulers

    durable/transactions/policy.rs: a queued run starts when its workflow has capacity, its rate limit
    allows a start and no earlier run of the queue can start; a scheduler holds a claim on a run
    that executes.  Each function is one transaction on [StoreTables]; a transaction that returns
    before its commit leaves the tables as they were.  Durations are in milliseconds. *)

From S2P Require Import Prelude GraphSearch Strings Json EventTypes ProjectionTypes Guards.
From S2P Require Import FoldRun FoldControlFlow FoldCorrection FoldApprovals FoldOperations.
From S2P Require Import FoldLifecycle IterationFold EventIdentities EventValidation Fold.
From S2P Require Import ModelTypes EngineExternals ModelQueries DefinitionValidation HistoryRules.
From S2P Require Import PolicyTypes PolicyBundle Schedules DurableStore Admission.

Definition SUSPENDED_POLICY_WORKFLOW_ID : string := "__woml_policy_wait__".

(** [SchedulerClaimV1] and [PolicyExecutionClaimResult], durable/records/policy.rs. *)
Module SchedulerClaimV1.
Record SchedulerClaimV1 := mk {
  run_id : string;
  workflow_id : string;
  owner_id : string;
  claim_id : string;
  claimed_at : DateTime;
  expires_at : DateTime
}.
End SchedulerClaimV1.
Abbreviation SchedulerClaimV1 := SchedulerClaimV1.SchedulerClaimV1.

Module PolicyExecutionClaimResult.
Inductive PolicyExecutionClaimResult :=
| Claimed (claim : SchedulerClaimV1) (first_start : bool)
| Waiting (run_id workflow_id queue : string) (reason : PolicyClaimWaitReason)
    (eligible_at : option DateTime).
End PolicyExecutionClaimResult.
Abbreviation PolicyExecutionClaimResult := PolicyExecutionClaimResult.PolicyExecutionClaimResult.

Module PolicyRateEligibility.
Inductive PolicyRateEligibility :=
| Eligible
| Waiting (eligible_at : DateTime).
End PolicyRateEligibility.
Abbreviation PolicyRateEligibility := PolicyRateEligibility.PolicyRateEligibility.

(** ** Statements on woml_scheduler_claims *)

Definition claims_of (db : StoreTables) (workflow_id : string) : nat :=
  count_rows (λ claim, claim.(SchedulerClaim.workflow_id) == workflow_id) db.(StoreTables.scheduler_claims).

Definition delete_claims (f : string → SchedulerClaim → bool) (db : StoreTables) : StoreTables :=
  db <| StoreTables.scheduler_claims ::= filter (λ row : string * SchedulerClaim, f row.1 row.2 = false) |>.

(** DELETE FROM woml_scheduler_claims WHERE expires_at <= now. *)
Definition delete_expired_claims (db : StoreTables) (now : string) : StoreTables :=
  delete_claims (λ _ claim, String.leb claim.(SchedulerClaim.expires_at) now) db.

Definition is_claim (owner_id claim_id : string) (claim : SchedulerClaim) : bool :=
  (claim.(SchedulerClaim.owner_id) == owner_id) && (claim.(SchedulerClaim.claim_id) == claim_id).

(** UPDATE woml_scheduler_claims .. WHERE run_id = .. AND ..; whether the row changed. *)
Definition update_claim (db : StoreTables) (run_id : string) (f : SchedulerClaim → bool)
    (change : SchedulerClaim → SchedulerClaim) : StoreTables * bool :=
  match db.(StoreTables.scheduler_claims) !! run_id with
  | Some claim =>
      if f claim
      then (db <| StoreTables.scheduler_claims ::= <[run_id := change claim]> |>, true)
      else (db, false)
  | None => (db, false)
  end.

Definition insert_claim (db : StoreTables) (run_id : string) (row : SchedulerClaim) :
    store_result StoreTables :=
  check fail_if
    (is_some (db.(StoreTables.scheduler_claims) !! run_id)
     || existsb (λ other : string * SchedulerClaim, other.2.(SchedulerClaim.claim_id) == row.(SchedulerClaim.claim_id))
          (map_to_list db.(StoreTables.scheduler_claims)))
    DurableStoreError.Sqlite;
  Ok (db <| StoreTables.scheduler_claims ::= <[run_id := row]> |>).

Section policy_queue.
Context {externals : Externals} {engine : EngineExternals} {policies : PolicyExternals}.
Context {stores : StoreExternals} {zones : ScheduleExternals}.

(** ** Capacity *)

Definition workflow_has_policy_capacity (db : StoreTables) (workflow_id : string) (concurrency : option N) :
    bool :=
  match concurrency with
  | None => true
  | Some limit => (N.of_nat (claims_of db workflow_id) <? limit)%N
  end.

(** The starts of a workflow after a time, by their texts. *)
Definition starts_after (db : StoreTables) (workflow_id cutoff : string) : list string :=
  omap (λ row : string * PolicyStart,
      if (row.2.(PolicyStart.workflow_id) == workflow_id) && String.ltb cutoff row.2.(PolicyStart.started_at)
      then Some row.2.(PolicyStart.started_at) else None)
    (btree_iter db.(StoreTables.indexes).(RunIndexes.policy_starts)).

Fixpoint parse_starts (starts : list string) : store_result (list DateTime) :=
  match starts with
  | [] => Ok []
  | start :: starts =>
      let? time := parse_durable_timestamp start "runtime-policy start" in
      let? times := parse_starts starts in
      Ok (time :: times)
  end.

Definition workflow_rate_eligibility (db : StoreTables) (workflow_id : string)
    (rate_limit : option CompiledRateLimitPolicy) (now : DateTime) : store_result PolicyRateEligibility :=
  match rate_limit with
  | None => Ok PolicyRateEligibility.Eligible
  | Some rate_limit =>
      let? window :=
        ok_or (i64_try_from rate_limit.(CompiledRateLimitPolicy.window_ms))
          (DurableStoreError.Contract "Rate-limit window exceeds the runtime clock range.") in
      let? cutoff := datetime_add now (- window) in
      let? times := parse_starts (merge_sort (λ a b, Is_true (String.leb a b)) (starts_after db workflow_id (to_rfc3339 cutoff))) in
      let active := merge_sort (≤)%Z times in
      let count := N.to_nat rate_limit.(CompiledRateLimitPolicy.count) in
      if (length active <? count)%nat then Ok PolicyRateEligibility.Eligible
      else
        let? oldest := expect (active !! (length active - count)%nat) "index out of bounds" in
        let? eligible_at := datetime_add oldest window in
        Ok (PolicyRateEligibility.Waiting eligible_at)
  end.

(** The queued runs of a queue before a run, in the order of the queue. *)
Definition queue_leb (a b : string * QueuedRun) : bool :=
  if a.2.(QueuedRun.admitted_at) == b.2.(QueuedRun.admitted_at) then
    if (a.2.(QueuedRun.occurrence_sequence) =? b.2.(QueuedRun.occurrence_sequence))%Z
    then String.leb a.1 b.1
    else (a.2.(QueuedRun.occurrence_sequence) <=? b.2.(QueuedRun.occurrence_sequence))%Z
  else String.leb a.2.(QueuedRun.admitted_at) b.2.(QueuedRun.admitted_at).

Definition is_earlier (run_id queue admitted_at : string) (occurrence_sequence : Z)
    (row : string * QueuedRun) : bool :=
  (row.2.(QueuedRun.queue_name) == queue) && (row.1 != run_id)
  && (String.ltb row.2.(QueuedRun.admitted_at) admitted_at
      || ((row.2.(QueuedRun.admitted_at) == admitted_at)
          && (row.2.(QueuedRun.occurrence_sequence) <? occurrence_sequence)%Z)
      || ((row.2.(QueuedRun.admitted_at) == admitted_at)
          && (row.2.(QueuedRun.occurrence_sequence) =? occurrence_sequence)%Z
          && String.ltb row.1 run_id)).

Definition earlier_runs (db : StoreTables) (run_id queue admitted_at : string) (occurrence_sequence : Z) :
    list (string * QueuedRun) :=
  merge_sort (λ a b, Is_true (queue_leb a b))
    (filter (λ row, is_earlier run_id queue admitted_at occurrence_sequence row = true)
       (map_to_list db.(StoreTables.indexes).(RunIndexes.policy_queue))).

(** A queued run whose workflow has capacity and whose rate limit allows a start. *)
Definition can_start (db : StoreTables) (run_id workflow_id : string) (now : DateTime) : store_result bool :=
  let? binding := ok_or (db.(StoreTables.indexes).(RunIndexes.policy_bindings) !! run_id) DurableStoreError.Sqlite in
  let? workflow := ok_or (db.(StoreTables.definitions) !! binding.(PolicyBinding.definition_hash)) DurableStoreError.Sqlite in
  let? policy :=
    ok_or workflow.(CompiledWorkflowDefinition.runtime_policy) (DurableStoreError.Contract "Queued policy run has no Model v12 runtime policy.") in
  if workflow_has_policy_capacity db workflow_id policy.(CompiledRuntimePolicy.concurrency) then
    let? eligibility := workflow_rate_eligibility db workflow_id policy.(CompiledRuntimePolicy.rate_limit) now in
    Ok (match eligibility with PolicyRateEligibility.Eligible => true | _ => false end)
  else Ok false.

Fixpoint any_can_start (db : StoreTables) (rows : list (string * QueuedRun)) (now : DateTime) :
    store_result bool :=
  match rows with
  | [] => Ok false
  | row :: rows =>
      let? can := can_start db row.1 row.2.(QueuedRun.workflow_id) now in
      if (can : bool) then Ok true else any_can_start db rows now
  end.

Definition earlier_eligible_policy_run_exists (db : StoreTables) (run_id queue : string)
    (admitted_at : DateTime) (occurrence_sequence : N) (now : DateTime) : store_result bool :=
  let? occurrence_sequence :=
    ok_or (i64_try_from occurrence_sequence)
      (DurableStoreError.Contract "occurrenceSequence exceeds SQLite integer range") in
  any_can_start db (earlier_runs db run_id queue (to_rfc3339 admitted_at) occurrence_sequence) now.

(** ** Claims *)

Definition validate_runtime_policy_activation (db : StoreTables) (workflow : CompiledWorkflowDefinition)
    (definition_hash : string) : store_result unit :=
  if (workflow.(CompiledWorkflowDefinition.schema_version) <? 12)%N then Ok tt
  else
    let? policy_hash :=
      ok_or (runtime_policy_hash workflow)
        (DurableStoreError.Contract "Model v12 is missing its runtime policy identity.") in
    fail_if (policy_conflict db workflow.(CompiledWorkflowDefinition.workflow_id) definition_hash policy_hash)
      (DurableStoreError.RuntimePolicyDefinitionConflict workflow.(CompiledWorkflowDefinition.workflow_id)).

(** Work whose outcome is unknown after the loss of a claim. *)
Definition attempt_running (attempt : AttemptProjection) : bool :=
  match attempt.(AttemptProjection.status) with AttemptStatus.Started => true | _ => false end.
Definition operation_running (operation : OperationProjection) : bool :=
  match operation.(OperationProjection.status) with OperationStatus.Started => true | _ => false end.
Definition action_running (action : LifecycleActionProjection) : bool :=
  match action.(LifecycleActionProjection.status) with LifecycleActionStatus.Started => true | _ => false end.
Definition hook_pending (hook : LifecycleHookProjection) : bool :=
  match hook.(LifecycleHookProjection.status) with
  | LifecycleHookStatus.Requested | LifecycleHookStatus.Running => true | _ => false
  end.
Definition reusable_hook_pending (hook : ReusableLifecycleProjection) : bool :=
  match hook.(ReusableLifecycleProjection.status) with
  | ReusableLifecycleStatus.Requested | ReusableLifecycleStatus.Running => true | _ => false
  end.

Definition execution_ambiguous (execution : ForEachIterationExecutionProjection) : bool :=
  existsb attempt_running execution.(ForEachIterationExecutionProjection.attempts)
  || existsb operation_running (map_to_list execution.(ForEachIterationExecutionProjection.operations)).*2
  || existsb hook_pending (btree_values execution.(ForEachIterationExecutionProjection.lifecycle_hooks))
  || existsb reusable_hook_pending (btree_values execution.(ForEachIterationExecutionProjection.reusable_lifecycle_hooks)).

Definition has_ambiguous_work (projection : RunProjection) : bool :=
  existsb attempt_running projection.(RunProjection.attempts)
  || existsb operation_running (map_to_list projection.(RunProjection.operations)).*2
  || existsb (λ hook, existsb action_running (btree_values hook.(LifecycleHookProjection.actions)))
       (btree_values projection.(RunProjection.lifecycle_hooks))
  || existsb (λ loop,
         (loop.(ForEachProjection.status) == ForEachStatus.Open)
         && existsb execution_ambiguous (map_to_list loop.(ForEachProjection.executions)).*2)
       (btree_values projection.(RunProjection.for_each)).

(** The statuses of a run that no scheduler executes. *)
Definition not_executable (status : RunStatus) : bool :=
  match status with
  | RunStatus.NotStarted | RunStatus.Waiting | RunStatus.Succeeded | RunStatus.Failed
  | RunStatus.Cancelled => true
  | _ => false
  end.

(** UPDATE woml_run_summaries SET waiting_for = .., eligible_at = .., updated_at = .. *)
Definition update_wait (db : StoreTables) (run_id : string) (waiting_for : option PolicyClaimWaitReason)
    (eligible_at : option DateTime) (now : DateTime) : StoreTables :=
  db <| StoreTables.indexes ::= λ i, i <| RunIndexes.run_summaries ::=
    alter (λ row : RunSummary,
        RunSummary.mk row.(RunSummary.workflow_id) row.(RunSummary.status) row.(RunSummary.admitted_at)
          row.(RunSummary.started_at) (to_rfc3339 now) row.(RunSummary.queue_name) waiting_for
          (to_rfc3339 <$> eligible_at)) run_id |> |>.

(** The events of the first start of a run: its start, and the request of its start hook. *)
Fixpoint append_start_events (db : StoreTables) (events : list RunEvent) (run_id : string) (now : DateTime)
    (event_schema_version : N) (payloads : list RunEventPayload) :
    store_result (StoreTables * list RunEvent) :=
  match payloads with
  | [] => Ok (db, events)
  | payload :: payloads =>
      let '(db, event_id) := generated_event_id db in
      let? (db, events, _) :=
        append_to_history_scoped run_id event_id now event_schema_version None db events payload in
      append_start_events db events run_id now event_schema_version payloads
  end.

Definition start_run (db : StoreTables) (events : list RunEvent) (workflow : CompiledWorkflowDefinition)
    (definition_hash run_id : string) (timeout_ms : option N) (policy_now : DateTime)
    (clock : nat → DateTime) : store_result StoreTables :=
  let? timeout_at :=
    match timeout_ms with
    | Some ms =>
        let? at_ := datetime_add policy_now (default 9223372036854775807%Z (i64_try_from ms)) in Ok (Some at_)
    | None => Ok None
    end in
  let? first := ok_or (head events) (DurableStoreError.Contract "Policy run has no admission event.") in
  let payloads :=
    expand_model_v11_payload workflow run_id
      (RunEventPayload.RunExecutionStarted (RunExecutionStartedData.mk policy_now timeout_at)) in
  let? (db, events) :=
    append_start_events db events run_id policy_now first.(RunEvent.event_schema_version) payloads in
  let? _ := map_err DurableStoreError.Contract (check_history workflow definition_hash events clock) in
  Ok db.

(** The end of [DurableEventStore::open]: the read models are written anew if they do not count up, and
    the claims that have expired are deleted. *)
Definition recover_store (db : StoreTables) (now : DateTime) : store_result StoreTables :=
  let? db :=
    if runtime_policy_indexes_need_rebuild db then
      let? db := rebuild_runtime_policy_indexes db in
      rebuild_run_summary_index db
    else Ok db in
  Ok (delete_expired_claims db (to_rfc3339 now)).

Section claim.
Context (run_id owner_id : string) (lease_now policy_now expires_at : DateTime) (clock : nat → DateTime).

(** A run that already has a claim. *)
Definition existing_claim (binding : RunDefinitionBinding) (queue : string) (claim : SchedulerClaim) :
    store_result PolicyExecutionClaimResult :=
  if claim.(SchedulerClaim.owner_id) != owner_id then
    Ok (PolicyExecutionClaimResult.Waiting run_id binding.(RunDefinitionBinding.workflow_id) queue PolicyClaimWaitReason.Concurrency None)
  else
    let? claimed_at := parse_durable_timestamp claim.(SchedulerClaim.claimed_at) "scheduler claim instant" in
    let? expires_at := parse_durable_timestamp claim.(SchedulerClaim.expires_at) "scheduler claim expiry" in
    Ok (PolicyExecutionClaimResult.Claimed
          (SchedulerClaimV1.mk run_id binding.(RunDefinitionBinding.workflow_id) claim.(SchedulerClaim.owner_id) claim.(SchedulerClaim.claim_id) claimed_at expires_at)
          false).

(** Whether the claim must wait for capacity or for an earlier run. *)
Definition must_wait (db : StoreTables) (binding : RunDefinitionBinding) (policy : CompiledRuntimePolicy)
    (queue : string) (projection : RunProjection) : store_result bool :=
  if negb (workflow_has_policy_capacity db binding.(RunDefinitionBinding.workflow_id) policy.(CompiledRuntimePolicy.concurrency)) then Ok true
  else if projection.(RunProjection.status) == RunStatus.Queued then
    let? admitted_at :=
      ok_or projection.(RunProjection.admitted_at) (DurableStoreError.Contract "Queued policy run has no admittedAt.") in
    earlier_eligible_policy_run_exists db run_id queue admitted_at
      (default 0%N projection.(RunProjection.occurrence_sequence)) policy_now
  else Ok false.

(** A new claim, and the start of the run if it is queued. *)
Definition grant_claim (db : StoreTables) (events : list RunEvent) (workflow : CompiledWorkflowDefinition)
    (binding : RunDefinitionBinding) (policy : CompiledRuntimePolicy) (first_start : bool) :
    store_result (StoreTables * PolicyExecutionClaimResult) :=
  let '(db, uuid) := draw_uuid db in
  let claim_id := "claim_" +:+ uuid in
  let? db :=
    insert_claim db run_id
      (SchedulerClaim.mk binding.(RunDefinitionBinding.workflow_id) owner_id claim_id (to_rfc3339 lease_now)
         (to_rfc3339 expires_at)) in
  let? db :=
    if first_start
    then start_run db events workflow binding.(RunDefinitionBinding.definition_hash) run_id policy.(CompiledRuntimePolicy.timeout_ms) policy_now clock
    else Ok db in
  let db := update_wait db run_id None None policy_now in
  Ok (db, PolicyExecutionClaimResult.Claimed
            (SchedulerClaimV1.mk run_id binding.(RunDefinitionBinding.workflow_id) owner_id claim_id lease_now expires_at)
            first_start).

(** The claim of a run that has none. *)
Definition claim_unclaimed (db : StoreTables) (events : list RunEvent) (workflow : CompiledWorkflowDefinition)
    (binding : RunDefinitionBinding) (policy : CompiledRuntimePolicy) (queue : string)
    (projection : RunProjection) : store_result (StoreTables * PolicyExecutionClaimResult) :=
  check fail_if (has_ambiguous_work projection) (DurableStoreError.SchedulerRecoveryRequired run_id);
  let first_start := is_none projection.(RunProjection.started_at) && (projection.(RunProjection.status) == RunStatus.Queued) in
  let? rate_eligibility :=
    if first_start
    then workflow_rate_eligibility db binding.(RunDefinitionBinding.workflow_id) policy.(CompiledRuntimePolicy.rate_limit) policy_now
    else Ok PolicyRateEligibility.Eligible in
  match rate_eligibility with
  | PolicyRateEligibility.Waiting eligible_at =>
      Ok (update_wait db run_id (Some PolicyClaimWaitReason.RateLimit) (Some eligible_at) policy_now,
          PolicyExecutionClaimResult.Waiting run_id binding.(RunDefinitionBinding.workflow_id) queue PolicyClaimWaitReason.RateLimit
            (Some eligible_at))
  | PolicyRateEligibility.Eligible =>
      let? wait := must_wait db binding policy queue projection in
      if (wait : bool) then
        Ok (update_wait db run_id (Some PolicyClaimWaitReason.Concurrency) None policy_now,
            PolicyExecutionClaimResult.Waiting run_id binding.(RunDefinitionBinding.workflow_id) queue
              PolicyClaimWaitReason.Concurrency None)
      else grant_claim db events workflow binding policy first_start
  end.
End claim.

Definition try_claim_policy_run_at (db : StoreTables) (run_id owner_id : string)
    (lease_now policy_now : DateTime) (lease_ms : N) (clock : nat → DateTime) :
    store_result (StoreTables * PolicyExecutionClaimResult) :=
  check fail_if (str_is_empty owner_id || (320 <? str_len owner_id)%N || (lease_ms =? 0)%N)
    (DurableStoreError.Contract "A scheduler claim requires a valid owner and positive lease.");
  let? duration := ok_or (i64_try_from lease_ms) (DurableStoreError.Contract "Scheduler lease duration is out of range.") in
  let? expires_at := datetime_add lease_now duration in
  let before := db in
  let db := delete_expired_claims db (to_rfc3339 lease_now) in
  let? binding := run_binding_in_transaction db run_id in
  let? workflow := definition_for_run db run_id in
  let? policy := ok_or workflow.(CompiledWorkflowDefinition.runtime_policy) (DurableStoreError.Contract "Scheduler claims require compiled Model v12.") in
  let? queue :=
    ok_or (runtime_policy_queue_name workflow) (DurableStoreError.Contract "Model v12 has no runtime policy queue.") in
  let? events := load_events db run_id in
  let? state := map_err DurableStoreError.Contract (check_history workflow binding.(RunDefinitionBinding.definition_hash) events clock) in
  let projection := state.(ProjectionFoldState.projection) in
  check fail_if (not_executable projection.(RunProjection.status))
    (DurableStoreError.Contract "Only an executable Event v11 policy run may acquire a scheduler claim.");
  match db.(StoreTables.scheduler_claims) !! run_id with
  | Some claim =>
      let? outcome := existing_claim run_id owner_id binding queue claim in
      Ok (before, outcome)
  | None =>
      claim_unclaimed run_id owner_id lease_now policy_now expires_at clock db events workflow binding policy
        queue projection
  end.

(** [DurableEventStore::try_claim_policy_run] and [DurableEventStore::claim_policy_run], whose
    transaction has been committed when it reports the conflict. *)
Definition try_claim_policy_run (db : StoreTables) (run_id owner_id : string) (now : DateTime) (lease_ms : N)
    (clock : nat → DateTime) : store_result (StoreTables * PolicyExecutionClaimResult) :=
  try_claim_policy_run_at db run_id owner_id now now lease_ms clock.

Definition claim_policy_run (db : StoreTables) (run_id owner_id : string) (now : DateTime) (lease_ms : N)
    (clock : nat → DateTime) : store_result (StoreTables * store_result SchedulerClaimV1) :=
  let? (db, outcome) := try_claim_policy_run db run_id owner_id now lease_ms clock in
  Ok (db, match outcome with
          | PolicyExecutionClaimResult.Claimed claim _ => Ok claim
          | PolicyExecutionClaimResult.Waiting _ _ _ _ _ => Err (DurableStoreError.SchedulerClaimConflict run_id)
          end).

Definition renew_policy_claim (db : StoreTables) (run_id owner_id claim_id : string) (now : DateTime)
    (lease_ms : N) : store_result (StoreTables * SchedulerClaimV1) :=
  let? duration := ok_or (i64_try_from lease_ms) (DurableStoreError.Contract "Scheduler lease duration is out of range.") in
  let? expires_at := datetime_add now duration in
  let '(db, changed) :=
    update_claim db run_id
      (λ claim, is_claim owner_id claim_id claim && String.ltb (to_rfc3339 now) claim.(SchedulerClaim.expires_at))
      (λ claim,
         claim <| SchedulerClaim.claimed_at := to_rfc3339 now |>
               <| SchedulerClaim.expires_at := to_rfc3339 expires_at |>) in
  check fail_if (negb changed) (DurableStoreError.SchedulerClaimConflict run_id);
  let? binding := run_binding_in_transaction db run_id in
  Ok (db, SchedulerClaimV1.mk run_id binding.(RunDefinitionBinding.workflow_id) owner_id claim_id now expires_at).

Definition suspend_policy_claim (db : StoreTables) (run_id owner_id claim_id : string) : StoreTables * bool :=
  update_claim db run_id (is_claim owner_id claim_id)
    (λ claim, claim <| SchedulerClaim.workflow_id := SUSPENDED_POLICY_WORKFLOW_ID |>).

Definition resume_policy_claim (db : StoreTables) (run_id owner_id claim_id : string) (now : DateTime) :
    store_result (StoreTables * bool) :=
  let db := delete_expired_claims db (to_rfc3339 now) in
  let? binding := run_binding_in_transaction db run_id in
  let? workflow := definition_for_run db run_id in
  let? policy :=
    ok_or workflow.(CompiledWorkflowDefinition.runtime_policy) (DurableStoreError.Contract "Policy resume requires compiled Model v12.") in
  let suspended (claim : SchedulerClaim) :=
    is_claim owner_id claim_id claim
    && (claim.(SchedulerClaim.workflow_id) == SUSPENDED_POLICY_WORKFLOW_ID) in
  let owned :=
    is_some_and (db.(StoreTables.scheduler_claims) !! run_id)
      (λ claim, suspended claim && String.ltb (to_rfc3339 now) claim.(SchedulerClaim.expires_at)) in
  check fail_if (negb owned) (DurableStoreError.SchedulerClaimConflict run_id);
  if negb (workflow_has_policy_capacity db binding.(RunDefinitionBinding.workflow_id) policy.(CompiledRuntimePolicy.concurrency)) then Ok (db, false)
  else
    Ok (update_claim db run_id suspended
          (λ claim, claim <| SchedulerClaim.workflow_id := binding.(RunDefinitionBinding.workflow_id) |>)).

Definition release_policy_claim (db : StoreTables) (run_id owner_id claim_id : string) : StoreTables * bool :=
  (delete_claims (λ r claim, (r == run_id) && is_claim owner_id claim_id claim) db,
   is_some_and (db.(StoreTables.scheduler_claims) !! run_id) (is_claim owner_id claim_id)).

Definition active_policy_claim_count (db : StoreTables) (workflow_id : string) (now : DateTime) :
    store_result N :=
  let count :=
    N.of_nat (count_rows (λ claim,
        (claim.(SchedulerClaim.workflow_id) == workflow_id) && String.ltb (to_rfc3339 now) claim.(SchedulerClaim.expires_at))
      db.(StoreTables.scheduler_claims)) in
  check fail_if (u32_modulus <=? count)%N (DurableStoreError.Contract "Scheduler claim count exceeded u32.");
  Ok count.

Definition policy_run_has_live_claim (db : StoreTables) (run_id : string) (now : DateTime) :
    StoreTables * bool :=
  let db := delete_expired_claims db (to_rfc3339 now) in
  (db, is_some (db.(StoreTables.scheduler_claims) !! run_id)).
End policy_queue.
