(* ===== verification/DurableStoreProperties.v ===== *)
(** * Properties of the durable event store

    A commit extends the history of one run by events that fold and that the definition of the run
    accepts, or leaves the tables alone; the projection cache never shows. *)

From S2P Require Import Prelude GraphSearch Strings Json EventTypes ProjectionTypes Guards.
From S2P Require Import FoldRun FoldControlFlow FoldCorrection FoldApprovals FoldOperations.
From S2P Require Import FoldLifecycle IterationFold EventIdentities EventValidation Fold.
From S2P Require Import FoldFrames ValidationProperties HistoryProperties ProjectionCache.
From S2P Require Import ModelTypes EngineExternals ModelQueries DefinitionValidation HistoryRules.
From S2P Require Import DagEngine DurableStore.

Section properties.
Context `{!Externals, !EngineExternals, !StoreExternals}.

(** ** Read models *)

(** The columns of a summary that follow from the events: the others record the waits of claims. *)
Definition summary_facts (row : RunSummary) :
    string * PublicRunStatus * string * option string * option string :=
  (row.(RunSummary.workflow_id), row.(RunSummary.status), row.(RunSummary.admitted_at), row.(RunSummary.started_at), row.(RunSummary.queue_name)).

#[global] Arguments summary_facts : simpl never.

(** The rows of the read models for a run. *)
Definition policy_rows (i : RunIndexes) (run_id : string) :
    option PolicyBinding * option QueuedRun * option PolicyStart :=
  (i.(RunIndexes.policy_bindings) !! run_id, i.(RunIndexes.policy_queue) !! run_id, i.(RunIndexes.policy_starts) !! run_id).
Definition stored_rows (i : RunIndexes) (run_id : string) :=
  (summary_facts <$> i.(RunIndexes.run_summaries) !! run_id, policy_rows i run_id).

(** The same, as they follow from the binding and the events of the run. *)
Definition derived_policy (workflow_id : string) (first : RunEvent) (projection : RunProjection) :
    option PolicyBinding * option QueuedRun * option PolicyStart :=
  match first.(RunEvent.payload) with
  | RunEventPayload.RunAdmitted admission =>
      let sequence := Z.of_N admission.(RunAdmittedData.occurrence_sequence) in
      (Some (PolicyBinding.mk workflow_id admission.(RunAdmittedData.definition_hash) admission.(RunAdmittedData.policy_hash)
               admission.(RunAdmittedData.queue).(RunAdmissionQueue.name) (to_rfc3339 admission.(RunAdmittedData.admitted_at)) sequence),
       (if projection.(RunProjection.status) == RunStatus.Queued
        then Some (QueuedRun.mk workflow_id admission.(RunAdmittedData.queue).(RunAdmissionQueue.name) (to_rfc3339 admission.(RunAdmittedData.admitted_at)) sequence)
        else None),
       (λ at_, PolicyStart.mk workflow_id (to_rfc3339 at_)) <$> projection.(RunProjection.started_at))
  | _ => (None, None, None)
  end.
Definition derived_rows (binding : option RunDefinitionBinding) (events : list RunEvent) :=
  match binding, head events, from_events events with
  | Some binding, Some first, Ok state =>
      (Some (summary_facts (summary_row binding.(RunDefinitionBinding.workflow_id) first first.(RunEvent.occurred_at)
               state.(ProjectionFoldState.projection) None)),
       derived_policy binding.(RunDefinitionBinding.workflow_id) first state.(ProjectionFoldState.projection))
  | _, _, _ => (None, (None, None, None))
  end.

Definition is_admission (payload : RunEventPayload) : bool :=
  match payload with RunEventPayload.RunAdmitted _ => true | _ => false end.

(** The events are those of the run, and unless the first admits it, it has no rows of policy. *)
Definition indexable (db : StoreTables) (run_id : string) (events : list RunEvent) : Prop :=
  ∀ first, head events = Some first → first.(RunEvent.run_id) = run_id
    ∧ (is_admission first.(RunEvent.payload) = false → policy_rows db.(StoreTables.indexes) run_id = (None, None, None)).

(** The rows of the run are brought up to date, those of the others are as they were. *)
Definition refreshes (db db' : StoreTables) (run_id : string) (events : list RunEvent) : Prop :=
  indexable db run_id events →
  (∀ r, r ≠ run_id → stored_rows db'.(StoreTables.indexes) r = stored_rows db.(StoreTables.indexes) r)
  ∧ is_Some (db.(StoreTables.runs) !! run_id)
  ∧ stored_rows db'.(StoreTables.indexes) run_id = derived_rows (db.(StoreTables.runs) !! run_id) events.

Lemma workflow_of_run_ok db run_id workflow_id :
  workflow_of_run db run_id = Ok workflow_id →
  ∃ binding, db.(StoreTables.runs) !! run_id = Some binding ∧ binding.(RunDefinitionBinding.workflow_id) = workflow_id.
Proof. unfold workflow_of_run. intros Hw%ok_or_ok. by apply fmap_Some in Hw as (b & ? & ->); exists b. Qed.

(** The two writes, on the rows of the run of the first event. *)
Lemma write_summary_ok db first updated_at p db' :
  write_run_summary_from_projection db first updated_at p = Ok db' →
  ∃ binding row, db.(StoreTables.runs) !! first.(RunEvent.run_id) = Some binding
    ∧ summary_facts row = summary_facts (summary_row binding.(RunDefinitionBinding.workflow_id) first
                            first.(RunEvent.occurred_at) p None)
    ∧ db' = db <| StoreTables.indexes ::= λ i, i <| RunIndexes.run_summaries ::= <[first.(RunEvent.run_id) := row]> |> |>.
Proof.
  unfold write_run_summary_from_projection. intros Hw. invert_ok.
  match goal with H : workflow_of_run _ _ = _ |- _ => apply workflow_of_run_ok in H as (b & Hb & <-) end.
  eexists b, _. split; [done|]. split; [|reflexivity]. done.
Qed.

Lemma write_policy_ok db run_id admission p db' :
  write_runtime_policy_indexes_from_projection db run_id admission p = Ok db' →
  ∃ binding, db.(StoreTables.runs) !! run_id = Some binding
    ∧ ∀ first : RunEvent, first.(RunEvent.payload) = RunEventPayload.RunAdmitted admission →
      ∃ b q s, derived_policy binding.(RunDefinitionBinding.workflow_id) first p = (Some b, q, s)
        ∧ db' = db <| StoreTables.indexes ::= λ i,
            i <| RunIndexes.policy_bindings ::= <[run_id := b]> |>
              <| RunIndexes.policy_queue ::= partial_alter (λ _, q) run_id |>
              <| RunIndexes.policy_starts ::= partial_alter (λ _, s) run_id |> |>.
Proof.
  unfold write_runtime_policy_indexes_from_projection. intros Hw. invert_ok.
  match goal with H : workflow_of_run _ _ = _ |- _ => apply workflow_of_run_ok in H as (b & Hb & <-) end.
  match goal with H : i64_try_from _ = _ |- _ => unfold i64_try_from in H; case_match; simplify_eq/= end.
  exists b. split; [done|]. intros first Hp. unfold derived_policy. rewrite Hp. by do 3 eexists.
Qed.

Lemma write_read_models_ok db run_id events updated_at s db' :
  write_read_models db run_id events updated_at s.(ProjectionFoldState.projection) = Ok db' → from_events events = Ok s →
  refreshes db db' run_id events ∧ ∃ i, db' = db <| StoreTables.indexes := i |>.
Proof.
  unfold write_read_models. intros Hw Hs. apply result_bind_ok in Hw as (first & Hf%expect_ok & Hw).
  apply result_bind_ok in Hw as (db1 & (b & row & Hb & Hrow & ->)%write_summary_ok & Hw).
  unfold refreshes, indexable, stored_rows, policy_rows. setoid_rewrite Hf. unfold derived_rows. rewrite Hf, Hs.
  destruct (is_admission first.(RunEvent.payload)) eqn:Hadm.
  - destruct (RunEvent.payload first) as [] eqn:Hp; try done.
    apply write_policy_ok in Hw as (b' & Hb' & Hd). specialize (Hd first Hp) as (pb & q & st & Hd & ->). simpl in *.
    split; [|by eexists]. intros Hi. destruct (Hi _ eq_refl) as [Hr _]. subst. rewrite Hb in Hb' |- *. injection Hb' as <-.
    split_and!; [|done|].
    + intros r Hr. by rewrite !lookup_insert_ne, !lookup_partial_alter_ne by done.
    + by rewrite !lookup_insert_eq, !lookup_partial_alter_eq, Hd, <-Hrow.
  - assert (db' = db <| StoreTables.indexes ::= λ i,
      i <| RunIndexes.run_summaries ::= <[RunEvent.run_id first := row]> |> |>) as ->.
    { by destruct (RunEvent.payload first); simplify_eq/=. }
    simpl. split; [|by eexists]. intros Hi. destruct (Hi _ eq_refl) as [Hr Hpol]. subst. rewrite Hb.
    split_and!; [|done|].
    + intros r Hr. by rewrite lookup_insert_ne.
    + rewrite lookup_insert_eq, Hpol, <-Hrow by done. simpl. f_equal. unfold derived_policy.
      by destruct (RunEvent.payload first).
Qed.

(** The append that folds the whole history writes the same. *)
Lemma write_for_run_frame db events db1 db' :
  write_run_summary db events = Ok db1 → write_runtime_policy_indexes_for_run db1 events = Ok db' →
  ∃ i, db' = db <| StoreTables.indexes := i |>.
Proof.
  intros Hw Hw'. assert (∃ i, db1 = db <| StoreTables.indexes := i |>) as [i ->].
  { unfold write_run_summary in Hw. invert_ok; [|exists db1.(StoreTables.indexes); by destruct db1..].
    match goal with H : write_run_summary_from_projection _ _ _ _ = _ |- _ =>
      apply write_summary_ok in H as (? & ? & _ & _ & ->) end. by eexists. }
  unfold write_runtime_policy_indexes_for_run in Hw'. destruct (head events) as [first|]; [|invert_ok; by eexists].
  destruct (RunEvent.payload first) as [] eqn:Hp; try (invert_ok; by eexists).
  apply result_bind_ok in Hw' as (p & _ & (b & _ & Hd)%write_policy_ok).
  destruct (Hd _ Hp) as (? & ? & ? & _ & ->). by eexists.
Qed.

Lemma write_for_run_ok db run_id events s db1 db' :
  from_events events = Ok s → (∀ first : RunEvent, head events = Some first → first.(RunEvent.run_id) = run_id) →
  write_run_summary db events = Ok db1 → write_runtime_policy_indexes_for_run db1 events = Ok db' →
  events ≠ [] → ∃ updated_at, write_read_models db run_id events updated_at s.(ProjectionFoldState.projection) = Ok db'.
Proof.
  intros Hs Hr Hw Hw' Hne. destruct events as [|first events]; [done|]. simpl in *.
  unfold write_run_summary, write_runtime_policy_indexes_for_run, write_read_models, fold_events in *.
  rewrite Hs in *. destruct (last (first :: events)) as [latest|] eqn:Hl; [|by apply last_None in Hl].
  simpl in *. exists latest.(RunEvent.occurred_at). rewrite Hw. simpl. rewrite <-Hw'.
  destruct (RunEvent.payload first); try done. by rewrite (Hr first eq_refl).
Qed.

(** ** Appended events *)

(** The rows after events are appended to a run. *)
Definition with_events (rows : gmap string (list RunEvent)) (run_id : string) (new : list RunEvent) :
    gmap string (list RunEvent) :=
  match new with
  | [] => rows
  | _ => <[run_id := default [] (rows !! run_id) ++ new]> rows
  end.

Lemma with_events_app rows run_id new new' :
  with_events (with_events rows run_id new) run_id new' = with_events rows run_id (new ++ new').
Proof.
  destruct new as [|e new], new' as [|e' new']; simpl; rewrite ?app_nil_r; try done.
  by rewrite lookup_insert_eq, insert_insert_eq; simpl; rewrite <-(assoc_L (++)).
Qed.

(** What a transaction that appends [new] to a run leaves: everything but the events and the read
    models. *)
Record appends (db db' : StoreTables) (run_id : string) (new : list RunEvent) : Prop := {
  ap_events : db'.(StoreTables.run_events) = with_events db.(StoreTables.run_events) run_id new;
  ap_definitions : db'.(StoreTables.definitions) = db.(StoreTables.definitions);
  ap_runs : db'.(StoreTables.runs) = db.(StoreTables.runs);
  ap_resources : db'.(StoreTables.lock_resources) = db.(StoreTables.lock_resources);
  ap_waiters : db'.(StoreTables.lock_waiters) = db.(StoreTables.lock_waiters);
  ap_claims : db'.(StoreTables.scheduler_claims) = db.(StoreTables.scheduler_claims);
  ap_triggers : db'.(StoreTables.triggers) = db.(StoreTables.triggers);
  ap_indexes : new = [] → db'.(StoreTables.indexes) = db.(StoreTables.indexes);
  ap_tagged : Forall (λ event : RunEvent, event.(RunEvent.run_id) = run_id) new;
}.

Lemma appends_nil db run_id : appends db db run_id [].
Proof. by split. Qed.

Lemma appends_trans db db' db'' run_id new new' :
  appends db db' run_id new → appends db' db'' run_id new' → appends db db'' run_id (new ++ new').
Proof.
  intros [He ?????? Hi Ht] [He' ?????? Hi' Ht']. split; try congruence.
  - by rewrite He', He, with_events_app.
  - intros [-> ->]%app_eq_nil. by rewrite Hi', Hi.
  - by apply Forall_app.
Qed.

(** A change of the read models only. *)
Lemma appends_indexes db db' run_id new i :
  new ≠ [] → appends db db' run_id new → appends db (db' <| StoreTables.indexes := i |>) run_id new.
Proof. intros Hne [????????]. by split. Qed.

Lemma with_events_stored (db db' : StoreTables) run_id new r :
  db'.(StoreTables.run_events) = with_events db.(StoreTables.run_events) run_id new →
  stored_events db' r = stored_events db r ++ (if decide (r = run_id) then new else []).
Proof.
  intros He. unfold stored_events. rewrite He.
  destruct new as [|e new]; simpl; [by case_decide; rewrite app_nil_r|].
  case_decide as Hr; [subst; by rewrite lookup_insert_eq|].
  by rewrite lookup_insert_ne, app_nil_r.
Qed.

Lemma appends_stored db db' run_id new r :
  appends db db' run_id new →
  stored_events db' r = stored_events db r ++ (if decide (r = run_id) then new else []).
Proof. intros Ha. by apply with_events_stored, Ha. Qed.

Lemma identifier_appends db first event_id db' id run_id :
  identifier db first event_id = (db', id) → appends db db' run_id [].
Proof. destruct first; intros [= <- <-]; by split. Qed.

Lemma store_event_appends db run_id event db' :
  store_event db run_id event = Ok db' → event.(RunEvent.run_id) = run_id →
  appends db db' run_id [event] ∧ db'.(StoreTables.indexes) = db.(StoreTables.indexes)
  ∧ Forall (λ stored : RunEvent, stored.(RunEvent.sequence) ≠ event.(RunEvent.sequence)) (stored_events db run_id).
Proof.
  unfold store_event, insert_event. intros Hs Ht. invert_ok. simplify_guards. subst.
  split_and!; [split; try done; by repeat constructor|done|]. by apply existsb_eq_false.
Qed.

(** An append that works from the fold state of the history. *)
Lemma append_single_incremental db events state run_id event_id occurred_at version iteration payload
    update db' events' state' event :
  append_single_to_history_incremental db events state run_id event_id occurred_at version iteration
    payload update = Ok (db', events', state', event) →
  from_events events = Ok state →
  appends db db' run_id [event] ∧ events' = events ++ [event] ∧ from_events events' = Ok state'
  ∧ event = next_event events run_id event_id occurred_at version iteration payload
  ∧ (if update then refreshes db db' run_id events'
     else db'.(StoreTables.indexes) = db.(StoreTables.indexes)).
Proof.
  unfold append_single_to_history_incremental. intros Ha Hs.
  apply result_bind_ok in Ha as (state1 & Happ%map_err_ok & Ha).
  apply result_bind_ok in Ha as (db1 & Hst & Ha). apply store_event_appends in Hst as (Hap & Hi & _); [|done].
  assert (from_events (events ++ [next_event events run_id event_id occurred_at version iteration payload])
    = Ok state1) as Hf by (apply from_events_snoc; eauto).
  destruct update.
  - apply result_bind_ok in Ha as (db2 & Hw & Ha). invert_ok. simplify_eq.
    apply write_read_models_ok in Hw as [Hr [i ->]]; [|done]. split_and!; try done.
    + by apply appends_indexes.
    + intros Hix. rewrite <-Hi, <-(ap_runs _ _ _ _ Hap). apply Hr. unfold indexable. by rewrite Hi.
  - invert_ok. simplify_eq. by split_and!.
Qed.

(** The same for the append that folds the whole history. *)
Lemma append_single db events run_id event_id occurred_at version iteration payload db' events' event :
  append_single_to_history db events run_id event_id occurred_at version iteration payload
  = Ok (db', events', event) →
  appends db db' run_id [event] ∧ events' = events ++ [event]
  ∧ (∃ s, from_events events' = Ok s)
  ∧ event = next_event events run_id event_id occurred_at version iteration payload
  ∧ refreshes db db' run_id events'
  ∧ Forall (λ stored : RunEvent, stored.(RunEvent.sequence) ≠ event.(RunEvent.sequence)) (stored_events db run_id).
Proof.
  unfold append_single_to_history. intros Ha.
  apply result_bind_ok in Ha as (p & Hp%map_err_ok & Ha). unfold fold_events in Hp. invert_ok. simplify_eq.
  match goal with H : store_event _ _ _ = _ |- _ =>
    apply store_event_appends in H as (Hap & Hi & Hseq); [|done] end.
  match goal with H : from_events _ = Ok ?x, H1 : write_run_summary _ _ = _ |- _ =>
    rename H into Hs, H1 into Hw1; rename x into s end.
  match goal with H : write_runtime_policy_indexes_for_run _ _ = _ |- _ => rename H into Hw2 end.
  destruct (write_for_run_frame _ _ _ _ Hw1 Hw2) as [i Hframe]. split_and!; try done.
  - rewrite Hframe. by apply appends_indexes.
  - by eexists.
  - intros Hix. assert (∀ first : RunEvent, head (events ++ [next_event events run_id event_id occurred_at version iteration payload]) = Some first → first.(RunEvent.run_id) = run_id) as Hr
      by (intros first Hf; by apply (Hix first)).
    destruct (write_for_run_ok _ _ _ _ _ _ Hs Hr Hw1 Hw2) as [at_ Hw]; [by destruct events|].
    apply write_read_models_ok in Hw as [Hre _]; [|done].
    rewrite <-Hi, <-(ap_runs _ _ _ _ Hap). apply Hre. unfold indexable. by rewrite Hi.
Qed.

(** A payload that is not expanded is stored as it is, at the end of the history that it was numbered
    for. *)
Record stores (db db' : StoreTables) (run_id event_id : string) (occurred_at : DateTime) (version : N)
    (iteration : option ForEachIterationScope) (payload : RunEventPayload) (events : list RunEvent)
    (event : RunEvent) : Prop := {
  sto_appends : appends db db' run_id [event];
  sto_folds : ∃ s, from_events (events ++ [event]) = Ok s;
  sto_event : event = next_event events run_id event_id occurred_at version iteration payload;
  sto_refreshes : refreshes db db' run_id (events ++ [event]);
  sto_sequence : Forall (λ stored : RunEvent, stored.(RunEvent.sequence) ≠ u64_add (N.of_nat (length events)) 1)
    (stored_events db run_id);
}.

Definition is_outcome (payload : RunEventPayload) : bool :=
  match payload with RunEventPayload.RunSucceeded _ | RunEventPayload.RunFailed _ => true | _ => false end.

Lemma append_one run_id event_id occurred_at version iteration db events payload db' events' event :
  append_to_history_scoped run_id event_id occurred_at version iteration db events payload
  = Ok (db', events', event) → is_outcome payload = false →
  stores db db' run_id event_id occurred_at version iteration payload events event
  ∧ events' = events ++ [event].
Proof.
  unfold append_to_history_scoped, expanded_payloads. intros Ha Ho. unfold is_outcome in Ho.
  rewrite Ho, andb_false_r in Ha. simpl in Ha. invert_ok. simplify_eq.
  match goal with Hs : append_single_to_history _ _ _ _ _ _ _ _ = _ |- _ =>
    apply append_single in Hs as (Hap & -> & Hf & -> & Hre & Hseq) end.
  by split.
Qed.

(** The same under a generated identifier. *)
Lemma append_generated run_id occurred_at version iteration db db0 event_id events payload db' events' event :
  generated_event_id db = (db0, event_id) →
  append_to_history_scoped run_id event_id occurred_at version iteration db0 events payload
  = Ok (db', events', event) → is_outcome payload = false →
  stores db db' run_id event_id occurred_at version iteration payload events event
  ∧ events' = events ++ [event].
Proof.
  intros [= <- <-] Ha Ho. apply append_one in Ha as [[[????????] ????] ->]; [|done].
  split; [|done]. split; [by split|done..].
Qed.

(** ** Commits *)

(** The first of the appended events is the one that is reported, under the identifier it was
    given. *)
Definition reports (first first' : option RunEvent) (event_id : string) (new : list RunEvent) : Prop :=
  first' = or_else first (head new)
  ∧ (first = None → ∀ event : RunEvent, head new = Some event → event.(RunEvent.event_id) = event_id).

Lemma reports_nil first event_id : reports first first event_id [].
Proof. by destruct first. Qed.

Lemma reports_app db (first first' : option RunEvent) event_id db0 id event one new :
  identifier db first event_id = (db0, id) → head one = Some event → event.(RunEvent.event_id) = id →
  reports (or_else first (Some event)) first' event_id new → reports first first' event_id (one ++ new).
Proof.
  intros Hid Hone Hev [-> _]. destruct one as [|e one]; [done|]. injection Hone as ->.
  destruct first; [by split|]. injection Hid as -> ->. split; [done|]. by intros _ ? [= <-].
Qed.

(** What a series of appends to one run yields, each event with a payload in [Q]; the read models
    are brought up to date, or not written. *)
Record series (Q : RunEventPayload → Prop) (update : bool) (run_id : string) (db db' : StoreTables)
    (events events' : list RunEvent) (state' : ProjectionFoldState) (new : list RunEvent) : Prop := {
  series_appends : appends db db' run_id new;
  series_events : events' = events ++ new;
  series_folds : from_events events' = Ok state';
  series_payloads : Forall (λ event : RunEvent, Q event.(RunEvent.payload)) new;
  series_indexes :
    if update then new ≠ [] → refreshes db db' run_id events' else db'.(StoreTables.indexes) = db.(StoreTables.indexes);
}.

(** Histories that begin alike are indexed alike. *)
Lemma refreshes_trans db db' db'' run_id events new :
  db'.(StoreTables.runs) = db.(StoreTables.runs) → events ≠ [] →
  refreshes db db' run_id events → refreshes db' db'' run_id (events ++ new) →
  refreshes db db'' run_id (events ++ new).
Proof.
  intros Hruns Hne Hr Hr' Hix. destruct events as [|first events]; [done|]. simpl in *.
  destruct (Hix first eq_refl) as [Ht Hadm].
  destruct Hr as (Ho & Hb & Hrow); [by intros ? [= <-]|].
  destruct Hr' as (Ho' & Hb' & Hrow').
  - intros ? [= <-]. split; [done|]. intros Hp.
    change ((stored_rows db'.(StoreTables.indexes) run_id).2 = (None, None, None)). rewrite Hrow.
    unfold derived_rows, derived_policy. simpl. repeat case_match; done.
  - split_and!; [intros r Hne'; by rewrite Ho', Ho|done|]. by rewrite Hrow', Hruns.
Qed.

Lemma refreshes_same db db1 db' run_id events :
  db1.(StoreTables.runs) = db.(StoreTables.runs) → db1.(StoreTables.indexes) = db.(StoreTables.indexes) →
  refreshes db1 db' run_id events → refreshes db db' run_id events.
Proof. unfold refreshes, indexable. by intros -> ->. Qed.

(** The read models of a run are what its events say. *)
Record indexed (db : StoreTables) (run_id : string) : Prop := {
  ix_tagged : Forall (λ event : RunEvent, event.(RunEvent.run_id) = run_id) (stored_events db run_id);
  ix_bound : stored_events db run_id ≠ [] → is_Some (db.(StoreTables.runs) !! run_id);
  ix_rows : stored_rows db.(StoreTables.indexes) run_id = derived_rows (db.(StoreTables.runs) !! run_id) (stored_events db run_id);
}.

Lemma derived_unadmitted binding events first :
  head events = Some first → is_admission first.(RunEvent.payload) = false →
  (derived_rows binding events).2 = (None, None, None).
Proof. intros Hf Ha. unfold derived_rows, derived_policy. rewrite Hf. repeat case_match; done. Qed.

Lemma indexed_indexable db run_id new :
  indexed db run_id → Forall (λ event : RunEvent, event.(RunEvent.run_id) = run_id) new →
  indexable db run_id (stored_events db run_id ++ new).
Proof.
  intros [Ht _ Hrow] Hn first Hf. split.
  - apply head_Some in Hf as [rest Hf]. eapply Forall_app_2 in Hn; [|exact Ht]. rewrite Hf in Hn.
    by apply Forall_cons in Hn as [? _].
  - intros Ha. change ((stored_rows db.(StoreTables.indexes) run_id).2 = (None, None, None)). rewrite Hrow.
    destruct (stored_events db run_id) as [|e events] eqn:He; [|by eapply derived_unadmitted].
    unfold derived_rows. by destruct (StoreTables.runs db !! run_id).
Qed.

Lemma indexed_append db db' run_id new :
  (∀ r, indexed db r) → appends db db' run_id new →
  (new ≠ [] → refreshes db db' run_id (stored_events db run_id ++ new)) → ∀ r, indexed db' r.
Proof.
  intros Hix Hap Hre r. pose proof (appends_stored _ _ _ _ r Hap) as Hst. destruct (Hix r) as [Ht Hb Hrow].
  pose proof (ap_runs _ _ _ _ Hap) as Hruns.
  destruct (decide (new = [])) as [->|Hne].
  { assert (stored_events db' r = stored_events db r) as Hst' by (rewrite Hst; case_decide; by rewrite app_nil_r).
    split; rewrite ?Hst', ?Hruns, ?(ap_indexes _ _ _ _ Hap) by done; done. }
  destruct (Hre Hne) as (Ho & Hbd & Hrow'); [by apply indexed_indexable, Hap|].
  case_decide as Hr; [subst|rewrite app_nil_r in Hst]; split; rewrite Hst, ?Hruns; try done.
  - apply Forall_app. split; [done|apply Hap].
  - by rewrite Ho.
Qed.

(** The same for a change of the tables that keeps the events and the rows, and adds runs. *)
Lemma indexed_frame db db' :
  (∀ r, indexed db r) → db'.(StoreTables.run_events) = db.(StoreTables.run_events) →
  (∀ r, stored_rows db'.(StoreTables.indexes) r = stored_rows db.(StoreTables.indexes) r) →
  db.(StoreTables.runs) ⊆ db'.(StoreTables.runs) → ∀ r, indexed db' r.
Proof.
  intros Hix He Hi Hruns r. destruct (Hix r) as [Ht Hb Hrow].
  assert (stored_events db' r = stored_events db r) as Hst by (unfold stored_events; by rewrite He).
  split; rewrite Hst; [done| |].
  - intros [b ?]%Hb. exists b. by eapply lookup_weaken.
  - rewrite Hi, Hrow. destruct (stored_events db r) eqn:Hs.
    + unfold derived_rows. simpl. by repeat case_match.
    + destruct Hb as [b Hb]; [done|]. by rewrite Hb, (lookup_weaken _ _ _ _ Hb Hruns).
Qed.

Lemma series_nil Q update run_id db events state :
  from_events events = Ok state → series Q update run_id db db events events state [].
Proof. intros. split; [apply appends_nil|by rewrite app_nil_r|done|constructor|by destruct update]. Qed.

Lemma series_trans Q update run_id db db' db'' events events' events'' state' state'' new new' :
  series Q update run_id db db' events events' state' new →
  series Q update run_id db' db'' events' events'' state'' new' →
  series Q update run_id db db'' events events'' state'' (new ++ new').
Proof.
  intros [Ha -> Hf Hq Hi] [Ha' -> Hf' Hq' Hi']. split; [by eapply appends_trans|by rewrite (assoc_L (++))|done| |].
  { by apply Forall_app. }
  destruct update; [|by rewrite Hi'].
  intros Hne. destruct new' as [|e' new']; [|destruct new as [|e new]].
  - rewrite app_nil_r in Hne |- *. unfold refreshes. rewrite (ap_indexes _ _ _ _ Ha' eq_refl). by apply Hi.
  - rewrite app_nil_r in *. eapply refreshes_same; [apply Ha|by apply Ha|by apply Hi'].
  - eapply refreshes_trans; [apply Ha|by destruct events|by apply Hi|by apply Hi'].
Qed.

Lemma series_unmoved Q update run_id db0 db db' events events' state' new :
  appends db0 db run_id [] → series Q update run_id db db' events events' state' new →
  series Q update run_id db0 db' events events' state' new.
Proof.
  intros Ha [Ha' ??? Hi]. split; [by apply (appends_trans _ _ _ _ [] new Ha)|done..|].
  destruct update; [|by rewrite Hi, (ap_indexes _ _ _ _ Ha)].
  intros Hne. eapply refreshes_same; [apply Ha|by apply Ha|by apply Hi].
Qed.

Lemma append_single_series Q update db events state run_id event_id occurred_at version iteration payload
    db' events' state' event :
  append_single_to_history_incremental db events state run_id event_id occurred_at version iteration
    payload update = Ok (db', events', state', event) →
  from_events events = Ok state → Q payload → series Q update run_id db db' events events' state' [event].
Proof.
  intros Ha Hs Hq. destruct (append_single_incremental _ _ _ _ _ _ _ _ _ _ _ _ _ _ Ha Hs) as (? & ? & ? & -> & ?).
  split; [done..|by repeat constructor|by destruct update].
Qed.

(** Payloads that the store may put in place of others stay in [Q]. *)
Class Closed (Q : RunEventPayload → Prop) : Prop := {
  closed_expand : ∀ workflow run_id payload,
    Q payload → Forall Q (expand_model_v11_payload workflow run_id payload);
  closed_registration : ∀ events payload, Q payload → Q (sequence_registration events payload);
}.

Lemma Forall_option_list {A} (Q : A → Prop) (o : option A) :
  (∀ x, o = Some x → Q x) → Forall Q (option_list o).
Proof. intros Ho. destruct o; [|constructor]. apply Forall_cons_2; [by apply Ho|constructor]. Qed.

#[global] Instance closed_any : Closed (λ _, True).
Proof. split; [|done]. intros. by apply Forall_forall. Qed.

(** The events that only the transactions of locks and, when [claims_start] holds, those of claims
    commit. *)
Definition starts_execution (payload : RunEventPayload) : bool :=
  match payload with RunEventPayload.RunExecutionStarted _ => true | _ => false end.
Definition reserved_event (claims_start : bool) (payload : RunEventPayload) : bool :=
  lock_event payload || claims_start && starts_execution payload.

#[global] Instance closed_unreserved claims_start :
  Closed (λ payload, reserved_event claims_start payload = false).
Proof.
  destruct claims_start; (split; [intros workflow run_id payload Hp|
    intros events payload Hp; destruct payload; simpl in *; repeat case_match; done]).
  all: set (reserved := reserved_event _) in *.
  all: assert (∀ hook subject, reserved (hook_request run_id hook subject) = false) as Hh by done.
  all: assert (∀ event step payload', step_hook_request workflow run_id event step = Some payload' →
    reserved payload' = false) as Hs by (intros event step payload'; unfold step_hook_request;
      destruct (lifecycle_hook_for_step_event _ _ _); [by intros [= <-]|done]).
  all: destruct payload; simpl in *; try (by repeat constructor); try done.
  all: unfold expand_outcome, or_else, workflow_hook_request; repeat case_match; simplify_eq.
  all: repeat (apply Forall_cons_2 || apply Forall_nil_2 || apply Forall_option_list); eauto; try done.
  all: by intros x (hook & _ & ->)%fmap_Some.
Qed.

Section closed.
Context (Q : RunEventPayload → Prop) `{!Closed Q}.

Lemma expanded_closed db run_id version payload payloads :
  expanded_payloads db run_id version payload = Ok payloads → Q payload → Forall Q payloads.
Proof.
  unfold expanded_payloads. intros He Hq. invert_ok; [by apply closed_expand|by repeat constructor].
Qed.

Lemma append_all_series update run_id event_id occurred_at version iteration payloads :
  Forall Q payloads → ∀ db events state first db' events' state' first',
  append_all_incremental run_id event_id occurred_at version iteration db events state payloads first update
  = Ok (db', events', state', first') →
  from_events events = Ok state →
  ∃ new, series Q update run_id db db' events events' state' new ∧ reports first first' event_id new.
Proof.
  induction 1 as [|payload payloads Hq Hqs IH]; intros db events state first db' events' state' first' Ha Hs;
    simpl in Ha.
  { invert_ok. simplify_eq. exists []. split; [by apply series_nil|apply reports_nil]. }
  destruct (identifier db first event_id) as [db0 id] eqn:Hid.
  apply result_bind_ok in Ha as ([[[db1 events1] state1] event] & Hone & Ha).
  destruct (append_single_incremental _ _ _ _ _ _ _ _ _ _ _ _ _ _ Hone Hs) as (_ & _ & _ & Hev & _).
  apply (append_single_series Q) in Hone; [|done..].
  destruct (IH _ _ _ _ _ _ _ _ Ha (series_folds _ _ _ _ _ _ _ _ _ Hone)) as (new & Hnew & Hr).
  eexists. split; [eapply series_unmoved; [by eapply identifier_appends|by eapply series_trans]|].
  eapply reports_app; [done|done| |done]. by subst.
Qed.

Lemma append_scoped_series update run_id event_id occurred_at version iteration db events state payload
    db' events' state' event :
  append_to_history_scoped_incremental run_id event_id occurred_at version iteration db events state payload
    update = Ok (db', events', state', event) →
  from_events events = Ok state → Q payload →
  ∃ new, series Q update run_id db db' events events' state' new ∧ head new = Some event
    ∧ event.(RunEvent.event_id) = event_id.
Proof.
  unfold append_to_history_scoped_incremental. intros Ha Hs Hq.
  apply result_bind_ok in Ha as (payloads & Hp & Ha).
  apply result_bind_ok in Ha as ([[[db1 events1] state1] first] & Hall & Ha). invert_ok. simplify_eq.
  eapply append_all_series in Hall as (new & Hnew & Hf & Hid); [|by eapply expanded_closed|done].
  simpl in Hf. exists new. split_and!; [done|done|]. by apply Hid.
Qed.

Lemma commit_series workflow definition_hash run_id occurred_at version iteration event_id payloads :
  Forall Q payloads → ∀ now db events state first db' events' state' first',
  commit_payloads workflow definition_hash run_id occurred_at version iteration db events state event_id
    payloads first now = Ok (db', events', state', first') →
  from_events events = Ok state →
  ∃ new, series Q true run_id db db' events events' state' new ∧ reports first first' event_id new.
Proof.
  induction 1 as [|payload payloads Hq Hqs IH]; intros now db events state first db' events' state' first' Ha Hs;
    simpl in Ha.
  { invert_ok. simplify_eq. exists []. split; [by apply series_nil|apply reports_nil]. }
  apply result_bind_ok in Ha as ([] & _ & Ha). apply result_bind_ok in Ha as ([] & _ & Ha).
  destruct (identifier db first event_id) as [db0 id] eqn:Hid.
  apply result_bind_ok in Ha as ([[[db1 events1] state1] event] & Hone & Ha).
  apply append_scoped_series in Hone as (one & Hone & Hhead & Hev); [|done..].
  destruct (IH _ _ _ _ _ _ _ _ _ Ha (series_folds _ _ _ _ _ _ _ _ _ Hone)) as (new & Hnew & Hr).
  eexists. split; [eapply series_unmoved; [by eapply identifier_appends|by eapply series_trans]|].
  by eapply reports_app.
Qed.

Lemma batch_translated_series workflow definition_hash run_id version iteration event_id occurred_at payloads :
  Forall Q payloads → ∀ db events state first db' events' state',
  batch_translated workflow definition_hash run_id version iteration db events state event_id occurred_at
    payloads first = Ok (db', events', state') →
  from_events events = Ok state →
  ∃ new, series Q false run_id db db' events events' state' new ∧ (payloads ≠ [] → new ≠ []).
Proof.
  induction 1 as [|payload payloads Hq Hqs IH]; intros db events state first db' events' state' Ha Hs;
    simpl in Ha.
  { invert_ok. simplify_eq. exists []. split; [by apply series_nil|done]. }
  apply result_bind_ok in Ha as ([] & _ & Ha).
  destruct (identifier db first event_id) as [db0 id] eqn:Hid.
  apply result_bind_ok in Ha as ([[[db1 events1] state1] event] & Hone & Ha).
  apply append_scoped_series in Hone as (one & Hone & Hhead & _); [|done|by apply closed_registration].
  destruct (IH _ _ _ _ _ _ _ Ha (series_folds _ _ _ _ _ _ _ _ _ Hone)) as (new & Hnew & _).
  eexists. split; [eapply series_unmoved; [by eapply identifier_appends|by eapply series_trans]|].
  by destruct one.
Qed.

Lemma expand_not_empty workflow run_id payload : expand_model_v11_payload workflow run_id payload ≠ [].
Proof. unfold expand_model_v11_payload, expand_outcome. repeat case_match; done. Qed.

Lemma batch_series workflow definition_hash run_id version iteration payloads :
  Forall (λ item : string * DateTime * RunEventPayload, Q item.2) payloads →
  ∀ db events state db' events' state',
  batch_payloads workflow definition_hash run_id version iteration db events state payloads
  = Ok (db', events', state') →
  from_events events = Ok state →
  ∃ new, series Q false run_id db db' events events' state' new ∧ (payloads ≠ [] → new ≠ []).
Proof.
  induction 1 as [|[[event_id occurred_at] payload] payloads Hq Hqs IH];
    intros db events state db' events' state' Ha Hs; simpl in Ha.
  { invert_ok. simplify_eq. exists []. split; [by apply series_nil|done]. }
  apply result_bind_ok in Ha as ([[db1 events1] state1] & Hone & Ha).
  apply batch_translated_series in Hone as (one & Hone & Hne); [| |done].
  - destruct (IH _ _ _ _ _ _ Ha (series_folds _ _ _ _ _ _ _ _ _ Hone)) as (new & Hnew & _).
    eexists. split; [by eapply series_trans|]. intros _ [-> _]%app_eq_nil. apply Hne; [|done].
    case_match; [apply expand_not_empty|done].
  - destruct (expands version); [by apply closed_expand|by repeat constructor].
Qed.
End closed.

(** ** The store and its cache *)

(** The store as a world of histories and a cache. *)
Definition store_world (store : DurableEventStore) : world :=
  World store.(DurableEventStore.tables).(StoreTables.run_events) store.(DurableEventStore.projection_cache).

Section eviction.
Context (next_key : Cache → option string).

(** A transaction on the state of a run commits what it computed from the fold of the history, or
    leaves the tables as they are. *)
Lemma with_cached_state_spec {A} store db run_id
    (transaction : ProjectionFoldState → store_result (StoreTables * ProjectionFoldState * A)) store' r :
  cache_coherent (store_world store) →
  with_cached_state next_key store db run_id (stored_events store.(DurableEventStore.tables) run_id) transaction
  = (store', r) →
  match (let? state := map_err DurableStoreError.Fold (from_events (stored_events store.(DurableEventStore.tables) run_id)) in
         transaction state) with
  | Ok (db', state', a) =>
      store' = DurableEventStore.mk db' (cache_projection_state next_key
                 (delete run_id store.(DurableEventStore.projection_cache)) run_id state')
      ∧ r = Ok (a, state'.(ProjectionFoldState.projection))
  | Err e =>
      store' = DurableEventStore.mk store.(DurableEventStore.tables)
                 (delete run_id store.(DurableEventStore.projection_cache)) ∧ r = Err e
  | Panic message =>
      store' = DurableEventStore.mk store.(DurableEventStore.tables)
                 (delete run_id store.(DurableEventStore.projection_cache)) ∧ r = Panic message
  end.
Proof.
  intros Hc Hw. pose proof (lookup_folds (store_world store) run_id Hc) as Hl.
  pose proof (lookup_cache store.(DurableEventStore.projection_cache) run_id
    (stored_events store.(DurableEventStore.tables) run_id)) as Hd.
  unfold with_cached_state in Hw. unfold history in Hl. simpl in Hl.
  destruct (projection_state_for_events _ _ _) as [cache looked_up]. simpl in *. subst.
  unfold stored_events.
  destruct (let? state := _ in transaction state) as [[[db' s'] a]|e|m]; by simplify_eq.
Qed.

(** What a commit leaves: the history of one run extended by [new], with payloads in [Q], which
    folds to [state] and which the definition of the run accepts. *)
Record committed (Q : RunEventPayload → Prop) (store store' : DurableEventStore) (run_id : string)
    (clock : nat → DateTime) (new : list RunEvent) (state : ProjectionFoldState) : Prop := {
  cm_events : store'.(DurableEventStore.tables).(StoreTables.run_events) =
    with_events store.(DurableEventStore.tables).(StoreTables.run_events) run_id new;
  cm_new : new ≠ [];
  cm_payloads : Forall (λ event : RunEvent, Q event.(RunEvent.payload)) new;
  cm_folds : from_events (stored_events store.(DurableEventStore.tables) run_id ++ new) = Ok state;
  cm_accepted : ∃ workflow binding,
    definition_for_run store'.(DurableEventStore.tables) run_id = Ok workflow
    ∧ store'.(DurableEventStore.tables).(StoreTables.runs) !! run_id = Some binding
    ∧ check_history workflow binding.(RunDefinitionBinding.definition_hash)
        (stored_events store.(DurableEventStore.tables) run_id ++ new) clock = Ok state;
  cm_definitions : store'.(DurableEventStore.tables).(StoreTables.definitions)
    = store.(DurableEventStore.tables).(StoreTables.definitions);
  cm_runs : ∀ r, r ≠ run_id → store'.(DurableEventStore.tables).(StoreTables.runs) !! r
    = store.(DurableEventStore.tables).(StoreTables.runs) !! r;
  cm_bound : ∀ binding, store.(DurableEventStore.tables).(StoreTables.runs) !! run_id = Some binding →
    store'.(DurableEventStore.tables).(StoreTables.runs) !! run_id = Some binding;
  cm_binding : ∀ binding, store'.(DurableEventStore.tables).(StoreTables.runs) !! run_id = Some binding →
    store.(DurableEventStore.tables).(StoreTables.runs) !! run_id = Some binding
    ∨ ∃ workflow,
        store.(DurableEventStore.tables).(StoreTables.definitions) !! binding.(RunDefinitionBinding.definition_hash)
        = Some workflow ∧ workflow.(CompiledWorkflowDefinition.workflow_id) = binding.(RunDefinitionBinding.workflow_id);
  cm_resources : store'.(DurableEventStore.tables).(StoreTables.lock_resources)
    = store.(DurableEventStore.tables).(StoreTables.lock_resources);
  cm_waiters : store'.(DurableEventStore.tables).(StoreTables.lock_waiters)
    = store.(DurableEventStore.tables).(StoreTables.lock_waiters);
  cm_claims : store'.(DurableEventStore.tables).(StoreTables.scheduler_claims)
    = store.(DurableEventStore.tables).(StoreTables.scheduler_claims);
  cm_triggers : store'.(DurableEventStore.tables).(StoreTables.triggers)
    = store.(DurableEventStore.tables).(StoreTables.triggers);
  cm_indexes : refreshes
    (store.(DurableEventStore.tables)
       <| StoreTables.runs := store'.(DurableEventStore.tables).(StoreTables.runs) |>)
    store'.(DurableEventStore.tables) run_id
    (stored_events store.(DurableEventStore.tables) run_id ++ new);
  cm_tagged : Forall (λ event : RunEvent, event.(RunEvent.run_id) = run_id) new;
  cm_cache : store'.(DurableEventStore.projection_cache) =
    cache_projection_state next_key (delete run_id store.(DurableEventStore.projection_cache)) run_id state;
}.

(** The start of a run only adds its binding. *)
Record binds (db db' : StoreTables) (run_id : string) : Prop := {
  bi_events : db'.(StoreTables.run_events) = db.(StoreTables.run_events);
  bi_definitions : db'.(StoreTables.definitions) = db.(StoreTables.definitions);
  bi_resources : db'.(StoreTables.lock_resources) = db.(StoreTables.lock_resources);
  bi_waiters : db'.(StoreTables.lock_waiters) = db.(StoreTables.lock_waiters);
  bi_claims : db'.(StoreTables.scheduler_claims) = db.(StoreTables.scheduler_claims);
  bi_triggers : db'.(StoreTables.triggers) = db.(StoreTables.triggers);
  bi_indexes : db'.(StoreTables.indexes) = db.(StoreTables.indexes);
  bi_runs : ∀ r, r ≠ run_id → db'.(StoreTables.runs) !! r = db.(StoreTables.runs) !! r;
  bi_bound : ∀ binding, db.(StoreTables.runs) !! run_id = Some binding → db'.(StoreTables.runs) !! run_id = Some binding;
  bi_binding : ∀ binding, db'.(StoreTables.runs) !! run_id = Some binding → db.(StoreTables.runs) !! run_id = Some binding
    ∨ ∃ workflow, db.(StoreTables.definitions) !! binding.(RunDefinitionBinding.definition_hash) = Some workflow
        ∧ workflow.(CompiledWorkflowDefinition.workflow_id) = binding.(RunDefinitionBinding.workflow_id);
}.

Lemma start_binding_ok db run_id payload db' version :
  start_binding db run_id payload = Ok (db', version) → binds db db' run_id.
Proof.
  unfold start_binding. intros Hs.
  assert (∀ hash workflow, is_some (db.(StoreTables.runs) !! run_id) = false →
    db.(StoreTables.definitions) !! hash = Some workflow →
    binds db (db <| StoreTables.runs ::=
      <[run_id := RunDefinitionBinding.mk workflow.(CompiledWorkflowDefinition.workflow_id) hash]> |>) run_id) as Hnew.
  { intros hash workflow Hn%is_some_false Hw. split; try done; simpl; [by intros; rewrite lookup_insert_ne|..].
    - intros binding. by rewrite Hn.
    - intros binding. rewrite lookup_insert_eq. intros [= <-]. right. by exists workflow. }
  destruct payload; invert_ok; simplify_eq; first [by split; [..|left]|by apply Hnew; [|apply ok_or_ok]|by apply Hnew].
Qed.

Lemma load_events_ok db run_id events : load_events db run_id = Ok events → events = stored_events db run_id.
Proof. unfold load_events. intros. by invert_ok. Qed.

Lemma definition_for_run_frame db db' run_id :
  db'.(StoreTables.definitions) = db.(StoreTables.definitions) → db'.(StoreTables.runs) = db.(StoreTables.runs) →
  definition_for_run db' run_id = definition_for_run db run_id.
Proof. unfold definition_for_run. by intros -> ->. Qed.

Lemma check_history_state workflow hash events clock state checked :
  check_history workflow hash events clock = Ok checked → from_events events = Ok state → state = checked.
Proof. unfold check_history. intros Hc Hs. rewrite Hs in Hc. by invert_ok. Qed.

Lemma append_with_state_ok Q `{!Closed Q} db events state run_id event_id occurred_at version iteration payload
    now clock db' events' state' event :
  append_with_state db events state run_id event_id occurred_at version iteration payload now clock
  = Ok (db', events', state', event) →
  from_events events = Ok state → Q payload →
  ∃ new workflow binding,
    series Q true run_id db db' events events' state' new ∧ head new = Some event
    ∧ event.(RunEvent.event_id) = event_id
    ∧ definition_for_run db run_id = Ok workflow ∧ db.(StoreTables.runs) !! run_id = Some binding
    ∧ check_history workflow binding.(RunDefinitionBinding.definition_hash) events' clock = Ok state'.
Proof.
  unfold append_with_state, run_binding_in_transaction. intros Ha Hs Hq.
  apply result_bind_ok in Ha as (workflow & Hw & Ha).
  apply result_bind_ok in Ha as (binding & Hb%ok_or_ok & Ha).
  apply result_bind_ok in Ha as ([[[db1 events1] state1] first] & Hc & Ha).
  apply result_bind_ok in Ha as (checked & Hchecked%map_err_ok & Ha). invert_ok. simplify_eq.
  eapply commit_series in Hc as (new & Hnew & Hf & Hid); [|by apply _| |done].
  - simpl in Hf. exists new, workflow, binding. split_and!; try done; [by apply Hid|].
    by rewrite Hchecked, (check_history_state _ _ _ _ _ _ Hchecked (series_folds _ _ _ _ _ _ _ _ _ Hnew)).
  - repeat case_match; [by repeat constructor|by apply closed_expand|by repeat constructor].
Qed.

(** A commit of one payload either is [committed], or leaves the tables alone and the cache smaller. *)
Lemma append_payload_scoped_spec Q `{!Closed Q} store run_id event_id occurred_at iteration payload now clock
    store' r :
  cache_coherent (store_world store) → Q payload →
  append_payload_scoped next_key store run_id event_id occurred_at iteration payload now clock = (store', r) →
  match r with
  | Ok (event, projection) => ∃ new state,
      committed Q store store' run_id clock new state ∧ projection = state.(ProjectionFoldState.projection)
      ∧ head new = Some event ∧ event.(RunEvent.event_id) = event_id
  | _ =>
      store' = store
      ∨ store' = DurableEventStore.mk store.(DurableEventStore.tables)
                   (delete run_id store.(DurableEventStore.projection_cache))
  end.
Proof.
  intros Hc Hq. unfold append_payload_scoped.
  destruct (let? (db, event_schema_version) := _ in _) as [[[db version] events]|e|m] eqn:Hstart;
    [|intros [= <- <-]; by left..].
  apply result_bind_ok in Hstart as ([db0 version0] & Hb & Hstart). invert_ok. simplify_eq.
  apply start_binding_ok in Hb. match goal with H : load_events _ _ = _ |- _ => apply load_events_ok in H as -> end.
  assert (stored_events db run_id = stored_events store.(DurableEventStore.tables) run_id) as ->.
  { unfold stored_events. by rewrite (bi_events _ _ _ Hb). }
  intros Hw%with_cached_state_spec; [|done].
  destruct (from_events _) as [state|e|m] eqn:Hs; simpl in Hw; [|destruct Hw as [-> ->]; by right..].
  destruct (append_with_state _ _ _ _ _ _ _ _ _ _ _) as [[[[db' events'] state'] event]|e|m] eqn:Ha; simpl in Hw;
    destruct Hw as [-> ->]; [|by right..].
  eapply (append_with_state_ok Q) in Ha as (new & workflow & binding & Hnew & Hhead & Hid & Hd & Hbind & Hch);
    [|done..].
  destruct Hnew as [Hap -> Hf Hqs Hix], Hap as [He Hdefs Hruns Hres Hwait Hcl Htr _ Htag],
    Hb as [Be Bd Br Bw Bcl Btr Bi Bruns Bb Bbind].
  exists new, state'. split; [|done]. split; simpl; try congruence.
  - by destruct new.
  - exists workflow, binding. rewrite Hruns. split_and!; [|done|done].
    by rewrite (definition_for_run_frame db db' run_id).
  - intros r Hr. by rewrite Hruns, Bruns.
  - intros b Hb. rewrite Hruns. by apply Bb.
  - rewrite Hruns. apply Bbind.
  - eapply refreshes_same; [| |apply Hix; by destruct new]; simpl; congruence.
Qed.

Lemma append_payloads_scoped_spec Q `{!Closed Q} store run_id iteration payloads clock store' r :
  cache_coherent (store_world store) → Forall (λ item : string * DateTime * RunEventPayload, Q item.2) payloads →
  append_payloads_scoped_atomically next_key store run_id iteration payloads clock = (store', r) →
  match r with
  | Ok projection => ∃ new state,
      committed Q store store' run_id clock new state ∧ projection = state.(ProjectionFoldState.projection)
  | _ =>
      store' = store
      ∨ store' = DurableEventStore.mk store.(DurableEventStore.tables)
                   (delete run_id store.(DurableEventStore.projection_cache))
  end.
Proof.
  intros Hc Hq. unfold append_payloads_scoped_atomically, run_binding_in_transaction.
  destruct (check _; _) as [events|e|m] eqn:Hstart; [|intros [= <- <-]; by left..].
  apply result_bind_ok in Hstart as ([] & Hne%fail_if_ok & Hstart).
  apply result_bind_ok in Hstart as ([] & _ & ->%load_events_ok).
  destruct (with_cached_state _ _ _ _ _ _) as [store1 appended] eqn:Hw. apply with_cached_state_spec in Hw; [|done].
  intros [= <- <-]. destruct (from_events _) as [state|e|m] eqn:Hs; simpl in Hw;
    [|destruct Hw as [-> ->]; by right..].
  match type of Hw with match ?t with _ => _ end => destruct t as [[[db' state'] []]|e|m] eqn:Ha end;
    destruct Hw as [-> ->]; simpl; [|by right..].
  apply result_bind_ok in Ha as (first & _ & Ha). apply result_bind_ok in Ha as (workflow & Hd & Ha).
  apply result_bind_ok in Ha as (binding & Hbind%ok_or_ok & Ha).
  apply result_bind_ok in Ha as ([[db1 events1] state1] & Hb & Ha).
  apply result_bind_ok in Ha as (checked & Hch%map_err_ok & Ha).
  apply result_bind_ok in Ha as (latest & _ & Ha). apply result_bind_ok in Ha as (db2 & Hw & Ha).
  invert_ok. simplify_eq.
  eapply (batch_series Q) in Hb as (new & Hnew & Hnn); [|done..].
  destruct Hnew as [Hap -> Hf Hqs Hix], Hap as [He Hdefs Hruns Hres Hwait Hcl Htr _ Htag].
  apply write_read_models_ok in Hw as [Hre [i ->]]; [|done].
  exists new, state'. split; [|done]. split; simpl; try congruence.
  - apply Hnn. intros ->. by rewrite bool_decide_true in Hne.
  - exists workflow, binding. rewrite Hruns. split_and!; [|done|].
    + by rewrite (definition_for_run_frame store.(DurableEventStore.tables) (db1 <| StoreTables.indexes := i |>) run_id).
    + by rewrite Hch, (check_history_state _ _ _ _ _ _ Hch Hf).
  - rewrite Hruns. by left.
  - eapply refreshes_same; [| |exact Hre]; simpl; congruence.
Qed.

(** A commit is one step of the world of histories and a cache. *)
Lemma committed_world Q store store' run_id clock new state :
  cache_coherent (store_world store) → committed Q store store' run_id clock new state →
  world_step next_key (store_world store) (store_world store').
Proof.
  intros Hc [He Hn _ Hf _ _ _ _ _ _ _ _ _ _ _ Hcache].
  pose proof Hf as Hs. unfold from_events in Hs. rewrite apply_all_app in Hs.
  apply result_bind_ok in Hs as (s & Hs & Happ).
  pose proof (lookup_folds _ run_id Hc) as Hl.
  pose proof (step_commit next_key (store_world store) run_id new s state) as Hstep.
  rewrite lookup_cache in Hstep. unfold store_world at 2. rewrite He, Hcache.
  destruct new as [|e new]; [done|]. apply Hstep; [|done]. by rewrite Hl.
Qed.

Lemma rollback_world store run_id :
  world_step next_key (store_world store)
    (store_world (DurableEventStore.mk store.(DurableEventStore.tables)
       (delete run_id store.(DurableEventStore.projection_cache)))).
Proof.
  pose proof (step_rollback next_key (store_world store) run_id) as Hstep.
  rewrite lookup_cache in Hstep. done.
Qed.

(** Two stores with the same tables commit alike, whatever their caches hold. *)
Lemma with_cached_state_agree {A} store1 store2 db run_id
    (transaction : ProjectionFoldState → store_result (StoreTables * ProjectionFoldState * A)) :
  store1.(DurableEventStore.tables) = store2.(DurableEventStore.tables) →
  cache_coherent (store_world store1) → cache_coherent (store_world store2) →
  let c1 := with_cached_state next_key store1 db run_id
    (stored_events store1.(DurableEventStore.tables) run_id) transaction in
  let c2 := with_cached_state next_key store2 db run_id
    (stored_events store1.(DurableEventStore.tables) run_id) transaction in
  c1.2 = c2.2 ∧ c1.1.(DurableEventStore.tables) = c2.1.(DurableEventStore.tables).
Proof.
  intros Ht H1c H2c c1 c2. destruct c1 as [s1 r1] eqn:E1, c2 as [s2 r2] eqn:E2. subst c1 c2.
  apply with_cached_state_spec in E1; [|done]. rewrite Ht in E2. apply with_cached_state_spec in E2; [|done].
  rewrite <-Ht in E2. destruct (let? state := _ in transaction state) as [[[db' s'] a]|e|m];
    destruct E1 as [-> ->], E2 as [-> ->]; simpl; by rewrite <-?Ht.
Qed.

Lemma append_payload_scoped_agree store1 store2 run_id event_id occurred_at iteration payload now clock :
  store1.(DurableEventStore.tables) = store2.(DurableEventStore.tables) →
  cache_coherent (store_world store1) → cache_coherent (store_world store2) →
  let c1 := append_payload_scoped next_key store1 run_id event_id occurred_at iteration payload now clock in
  let c2 := append_payload_scoped next_key store2 run_id event_id occurred_at iteration payload now clock in
  c1.2 = c2.2 ∧ c1.1.(DurableEventStore.tables) = c2.1.(DurableEventStore.tables).
Proof.
  intros Ht H1c H2c. unfold append_payload_scoped. rewrite <-Ht.
  destruct (let? (db, event_schema_version) := _ in _) as [[[db version] events]|e|m] eqn:Hstart; [|done..].
  apply result_bind_ok in Hstart as ([db0 version0] & Hb & Hstart). invert_ok. simplify_eq.
  apply start_binding_ok in Hb. match goal with H : load_events _ _ = _ |- _ => apply load_events_ok in H as -> end.
  assert (stored_events db run_id = stored_events store1.(DurableEventStore.tables) run_id) as ->.
  { unfold stored_events. by rewrite (bi_events _ _ _ Hb). }
  by apply with_cached_state_agree.
Qed.

Lemma append_payloads_scoped_agree store1 store2 run_id iteration payloads clock :
  store1.(DurableEventStore.tables) = store2.(DurableEventStore.tables) →
  cache_coherent (store_world store1) → cache_coherent (store_world store2) →
  let c1 := append_payloads_scoped_atomically next_key store1 run_id iteration payloads clock in
  let c2 := append_payloads_scoped_atomically next_key store2 run_id iteration payloads clock in
  c1.2 = c2.2 ∧ c1.1.(DurableEventStore.tables) = c2.1.(DurableEventStore.tables).
Proof.
  intros Ht H1c H2c. unfold append_payloads_scoped_atomically. rewrite <-Ht.
  destruct (check _; _) as [events|e|m] eqn:Hstart; [|done..].
  apply result_bind_ok in Hstart as ([] & _ & Hstart).
  apply result_bind_ok in Hstart as ([] & _ & ->%load_events_ok).
  match goal with |- context [with_cached_state next_key store1 ?db ?r ?e ?t] =>
    pose proof (with_cached_state_agree store1 store2 db r t Ht H1c H2c) as [Hr Htab] end.
  destruct (with_cached_state next_key store1 _ _ _ _), (with_cached_state next_key store2 _ _ _ _).
  simpl in *. by subst.
Qed.
End eviction.
End properties.
