(* ===== verification/LockHistories.v ===== *)
(** * Leases in histories

    Which events make a run, or an iteration of it, the holder of a lease, and which end it. *)

From S2P Require Import Prelude GraphSearch Strings Json EventTypes ProjectionTypes Guards.
From S2P Require Import FoldRun FoldControlFlow FoldCorrection FoldApprovals FoldOperations.
From S2P Require Import FoldLifecycle IterationFold EventIdentities EventValidation Fold.
From S2P Require Import FoldFrames HistoryProperties LoopProperties ProjectionCache ModelTypes.
From S2P Require Import EngineExternals ModelQueries PolicyTypes PolicyBundle DurableStore.
From S2P Require Import LockQueue DurableStoreProperties.

(** A lock of the run or of an iteration is held. *)
Definition holds (p : RunProjection) (iteration : option ForEachIterationScope) (lock_id : string)
    (lock : LockProjection) : Prop :=
  projected_lock p iteration lock_id = Some lock ∧ lock.(LockProjection.status) = LockStatus.Held.

(** An event grants a lease. *)
Definition is_acquisition (payload : RunEventPayload) : bool :=
  match payload with RunEventPayload.LockAcquired _ => true | _ => false end.

(** The lock of a granted lease. *)
Record acquired (event : RunEvent) (data : LockAcquiredData) (iteration : option ForEachIterationScope)
    (lock_id : string) (lock : LockProjection) : Prop := {
  aq_payload : event.(RunEvent.payload) = RunEventPayload.LockAcquired data;
  aq_iteration : event.(RunEvent.iteration) = iteration;
  aq_lock : data.(LockAcquiredData.lock_id) = lock_id;
  aq_key : lock.(LockProjection.key) = data.(LockAcquiredData.key);
  aq_identity : lock.(LockProjection.execution_identity) = data.(LockAcquiredData.execution_identity);
  aq_lease : lock.(LockProjection.lease_id) = Some data.(LockAcquiredData.lease_id);
  aq_token : lock.(LockProjection.fencing_token) = Some data.(LockAcquiredData.fencing_token);
}.

(** A lock that is held after an event was held before, or the event granted the lease. *)
Definition held_by (event : RunEvent) (iteration : option ForEachIterationScope)
    (before after : gmap string LockProjection) : Prop :=
  ∀ lock_id lock, after !! lock_id = Some lock → lock.(LockProjection.status) = LockStatus.Held →
    before !! lock_id = Some lock ∨ ∃ data, acquired event data iteration lock_id lock.

Section with_externals.
Context `{!Externals}.

#[local] Instance held_by_reflexive event iteration : Reflexive (held_by event iteration).
Proof. intros locks lock_id lock Hl _. by left. Qed.

Lemma held_by_insert event iteration locks id lock :
  (lock.(LockProjection.status) = LockStatus.Held → ∃ data, acquired event data iteration id lock) →
  held_by event iteration locks (<[id := lock]> locks).
Proof.
  intros Hn lock_id l [[-> ->]|[_ Hl]]%lookup_insert_Some Hs; [right; by apply Hn|by left].
Qed.

Lemma scoped_lock_event event scope :
  lock_event event.(RunEvent.payload) = true → event.(RunEvent.iteration) = Some scope → in_iteration event = true.
Proof. unfold in_iteration. intros Hl ->. by destruct (RunEvent.payload event). Qed.

Lemma run_held_by s event s' :
  apply s event = Ok s' → held_by event None s.(ProjectionFoldState.projection).(RunProjection.locks) s'.(ProjectionFoldState.projection).(RunProjection.locks).
Proof.
  intros Happ. apply (apply_field_step RunProjection.locks lock_event (held_by event None) _ _ _ Happ).
  intros p' _ Hl Hi Ha. assert (event.(RunEvent.iteration) = None) as Hn.
  { destruct (RunEvent.iteration event) eqn:He; [|done]. by rewrite (scoped_lock_event _ _ Hl He) in Hi. }
  unfold apply_payload in Ha.
  destruct (RunEvent.payload event) as [] eqn:Hp; try discriminate Hl; cbn beta iota zeta in Ha;
    invert_handler Ha; simplify_guards; simplify_eq; cbn; apply held_by_insert; cbn; try done.
  intros _. eexists. by split.
Qed.

Lemma execution_held_by e scope event previous e' :
  event.(RunEvent.iteration) = Some scope → apply_to_execution e scope event previous = Ok e' →
  held_by event (Some scope) e.(ForEachIterationExecutionProjection.locks) e'.(ForEachIterationExecutionProjection.locks).
Proof.
  intros Hi Ha. unfold apply_to_execution in Ha.
  destruct (RunEvent.payload event) as [] eqn:Hp; try discriminate Ha; invert_arm Ha; simplify_guards;
    simplify_eq; cbn; try reflexivity; apply held_by_insert; cbn; try done.
  intros _. eexists. by split.
Qed.

Lemma projected_lock_sequence p n iteration lock_id :
  projected_lock (p <|RunProjection.last_sequence := n|>) iteration lock_id = projected_lock p iteration lock_id.
Proof. by destruct iteration. Qed.

(** The locks of an iteration, by its loop. *)
Lemma projected_lock_scoped p scope lock_id lock :
  projected_lock p (Some scope) lock_id = Some lock ↔
  ∃ loop execution, p.(RunProjection.for_each) !! scope.(ForEachIterationScope.for_each_id) = Some loop
    ∧ loop.(ForEachProjection.executions) !! scope.(ForEachIterationScope.index) = Some execution
    ∧ execution.(ForEachIterationExecutionProjection.locks) !! lock_id = Some lock.
Proof.
  unfold projected_lock. rewrite bind_Some. setoid_rewrite bind_Some. naive_solver.
Qed.

(** An event that grants nothing makes no iteration a holder. *)
Lemma loop_step_held context previous event loop loop' i execution' lock_id lock :
  loop_step context previous event loop loop' → is_acquisition event.(RunEvent.payload) = false →
  loop'.(ForEachProjection.executions) !! i = Some execution' → execution'.(ForEachIterationExecutionProjection.locks) !! lock_id = Some lock →
  lock.(LockProjection.status) = LockStatus.Held →
  ∃ execution, loop.(ForEachProjection.executions) !! i = Some execution ∧ execution.(ForEachIterationExecutionProjection.locks) !! lock_id = Some lock.
Proof.
  intros Hstep Hn He Hl Hs. destruct Hstep; cbn in He; eauto.
  - apply lookup_insert_Some in He as [[<- <-]|[_ He]]; [done|eauto].
  - apply lookup_alter_Some in He as [(<- & e & He & ->)|[_ He]]; eauto.
  - apply lookup_insert_Some in He as [[<- <-]|[_ He]]; [|eauto].
    match goal with Ha : apply_to_execution _ _ _ _ = _ |- _ => eapply execution_held_by in Ha; [|done];
      destruct (Ha _ _ Hl Hs) as [Hb|[data Hb]]; [eauto|] end.
    by rewrite (aq_payload _ _ _ _ _ Hb) in Hn.
Qed.

Lemma for_each_step_held s event for_each i lock_id lock :
  for_each_step s event for_each → is_acquisition event.(RunEvent.payload) = false →
  holds (s.(ProjectionFoldState.projection) <|RunProjection.for_each := for_each|>) (Some i) lock_id lock →
  holds s.(ProjectionFoldState.projection) (Some i) lock_id lock.
Proof.
  intros Hstep Hn [(loop & e & Hloop & He & Hl)%projected_lock_scoped Hs]. cbn in Hloop. split; [|done].
  apply projected_lock_scoped. destruct Hstep as [data|id l l' Hold Hls|]; [| |eauto].
  - apply lookup_insert_Some in Hloop as [[<- <-]|[_ Hloop]]; [done|eauto].
  - apply lookup_insert_Some in Hloop as [[<- <-]|[_ Hloop]]; [|eauto].
    destruct (loop_step_held _ _ _ _ _ _ _ _ _ Hls Hn He Hl Hs) as (e0 & ? & ?). eauto.
Qed.

(** A lock that is held after an event was held before, or the event granted the lease. *)
Lemma holds_after s event s' iteration lock_id lock :
  apply s event = Ok s' → holds s'.(ProjectionFoldState.projection) iteration lock_id lock →
  holds s.(ProjectionFoldState.projection) iteration lock_id lock ∨ ∃ data, acquired event data iteration lock_id lock.
Proof.
  intros Happ Hh. destruct iteration as [scope|].
  2: { destruct Hh as [Hl Hs]. destruct (run_held_by _ _ _ Happ _ _ Hl Hs); [by left|by right]. }
  destruct (is_acquisition event.(RunEvent.payload)) eqn:Hacq.
  2: { left. eapply for_each_step_held; [by apply apply_for_each|done|]. destruct Hh as [Hl Hs]. by split. }
  destruct (apply_ok _ _ _ Happ) as [p' Ha]. pose proof (applied_dispatch _ _ _ _ Ha) as Hd.
  destruct Hh as [Hl Hs]. rewrite (applied_projection _ _ _ _ Ha), projected_lock_sequence in Hl.
  destruct (in_iteration event) eqn:Hi.
  - apply dispatch_iteration in Hd as [Hd _]; [|done].
    apply apply_iteration_scoped_event_ok in Hd as (scope0 & loop0 & e0 & e0' & [_ Hsc Hloop _ _ Hex Hap ->]).
    apply projected_lock_scoped in Hl as (loop & e & Hloop' & He & Hl). cbn in Hloop'.
    apply lookup_insert_Some in Hloop' as [[Hid <-]|[_ Hloop']];
      [|left; split; [apply projected_lock_scoped; eauto|done]].
    cbn in He. apply lookup_insert_Some in He as [[Hix <-]|[_ He]];
      [|left; split; [apply projected_lock_scoped; rewrite <-Hid; eauto|done]].
    destruct (execution_held_by _ _ _ _ _ Hsc Hap _ _ Hl Hs) as [Hb|[data Hb]].
    + left. split; [apply projected_lock_scoped; rewrite <-Hid, <-Hix; eauto|done].
    + right. exists data. destruct scope, scope0; simpl in *. by subst.
  - apply dispatch_top, apply_payload_frame in Hd; [|done]. left. split; [|done].
    apply projected_lock_scoped in Hl. apply projected_lock_scoped.
    rewrite (frame_for_each _ _ _ Hd) in Hl; [done|]. by destruct (RunEvent.payload event).
Qed.

(** The lock of an event that ends a lease. *)
Definition ended_lock (payload : RunEventPayload) : option string :=
  match payload with
  | RunEventPayload.LockReleased data => Some data.(LockReleasedData.lock_id)
  | RunEventPayload.LockLeaseLost data => Some data.(LockLeaseLostData.lock_id)
  | _ => None
  end.

Lemma holds_ended s event s' lock_id lock :
  apply s event = Ok s' → ended_lock event.(RunEvent.payload) = Some lock_id →
  ~ holds s'.(ProjectionFoldState.projection) event.(RunEvent.iteration) lock_id lock.
Proof.
  intros [p' Ha]%apply_ok He [Hl Hs]. pose proof (applied_dispatch _ _ _ _ Ha) as Hd.
  rewrite (applied_projection _ _ _ _ Ha), projected_lock_sequence in Hl.
  destruct (in_iteration event) eqn:Hi.
  - apply dispatch_iteration in Hd as [Hd _]; [|done].
    apply apply_iteration_scoped_event_ok in Hd as (scope & loop & e & e' & [_ Hsc _ _ _ _ Hap ->]).
    rewrite Hsc in Hl. apply projected_lock_scoped in Hl as (loop' & e0 & Hloop & Hex & Hl). cbn in Hloop.
    rewrite lookup_insert_eq in Hloop. simplify_eq. cbn in Hex. rewrite lookup_insert_eq in Hex. simplify_eq.
    unfold apply_to_execution in Hap.
    destruct (RunEvent.payload event) as [] eqn:Hp; try discriminate He; cbn in He; invert_arm Hap; simplify_eq;
      cbn in Hl; rewrite lookup_insert_eq in Hl; by simplify_eq.
  - apply dispatch_top in Hd; [|done]. destruct (RunEvent.iteration event) eqn:Hit.
    { assert (lock_event event.(RunEvent.payload) = true) as Hle by (by destruct (RunEvent.payload event)).
      by rewrite (scoped_lock_event _ _ Hle Hit) in Hi. }
    unfold apply_payload in Hd.
    destruct (RunEvent.payload event) as [] eqn:Hp; try discriminate He; cbn in He; cbn beta iota zeta in Hd;
      invert_handler Hd; simplify_eq; cbn in Hl; rewrite lookup_insert_eq in Hl; by simplify_eq.
Qed.

(** Over a series of events none of which grants a lease. *)
Lemma holds_series s new s' iteration lock_id lock :
  apply_all s new = Ok s' → Forall (λ event : RunEvent, is_acquisition event.(RunEvent.payload) = false) new →
  holds s'.(ProjectionFoldState.projection) iteration lock_id lock → holds s.(ProjectionFoldState.projection) iteration lock_id lock.
Proof.
  intros Ha Hn Hh. revert s Ha. induction Hn as [|event new Hev _ IH]; intros s Ha; simpl in Ha.
  { by apply Ok_inj in Ha as ->. }
  apply result_bind_ok in Ha as (s1 & Happ & Ha).
  destruct (holds_after _ _ _ _ _ _ Happ (IH _ Ha)) as [|[data Hacq]]; [done|].
  by rewrite (aq_payload _ _ _ _ _ Hacq) in Hev.
Qed.
End with_externals.
