(* ===== verification/LockTables.v ===== *)
(** * The tables of the lock queue

    The invariant that couples the rows of the locks with the histories of the runs, what a
    transaction may do to the rows, and the statements that transactions are made of. *)

From S2P Require Import Prelude GraphSearch Strings Json EventTypes ProjectionTypes Guards.
From S2P Require Import FoldRun FoldControlFlow FoldCorrection FoldApprovals FoldOperations.
From S2P Require Import FoldLifecycle IterationFold EventIdentities EventValidation Fold.
From S2P Require Import FoldFrames HistoryProperties ProjectionCache ModelTypes EngineExternals.
From S2P Require Import ModelQueries PolicyTypes PolicyBundle DurableStore LockQueue.
From S2P Require Import DurableStoreProperties LockHistories.

(** ** What may happen to a row *)

(** A waiter is granted the lease, times out or is cancelled; a holder releases the lease or loses
    it. *)
Definition status_evolves (a b : WaiterStatus) : Prop :=
  a = b ∨ a = WaiterStatus.waiting
  ∨ (a = WaiterStatus.held ∧ (b = WaiterStatus.released ∨ b = WaiterStatus.lost)).

(** The lease has been granted. *)
Definition granted (status : WaiterStatus) : Prop :=
  status = WaiterStatus.held ∨ status = WaiterStatus.released ∨ status = WaiterStatus.lost.

Record row_evolves (w w' : LockWaiter) : Prop := {
  re_key : w'.(LockWaiter.key) = w.(LockWaiter.key);
  re_run : w'.(LockWaiter.run_id) = w.(LockWaiter.run_id);
  re_execution : w'.(LockWaiter.node_execution_id) = w.(LockWaiter.node_execution_id);
  re_sequence : w'.(LockWaiter.sequence) = w.(LockWaiter.sequence);
  re_deadline : w'.(LockWaiter.deadline) = w.(LockWaiter.deadline);
  re_digest : w'.(LockWaiter.input_digest) = w.(LockWaiter.input_digest);
  re_status : status_evolves w.(LockWaiter.status) w'.(LockWaiter.status);
}.

#[global] Instance row_evolves_preorder : PreOrder row_evolves.
Proof.
  split; [by split; try done; left|]. intros x y z [] []. split; try congruence.
  unfold status_evolves in *. destruct re_status0 as [|[|[]]], re_status1 as [|[|[]]]; naive_solver congruence.
Qed.

(** The same lease; its expiry may have been extended. *)
Record same_lease (o o' : LockOwner) : Prop := {
  sl_lease : o'.(LockOwner.lease_id) = o.(LockOwner.lease_id);
  sl_run : o'.(LockOwner.run_id) = o.(LockOwner.run_id);
  sl_execution : o'.(LockOwner.node_execution_id) = o.(LockOwner.node_execution_id);
  sl_token : o'.(LockOwner.fencing_token) = o.(LockOwner.fencing_token);
  sl_acquired : o'.(LockOwner.acquired_at) = o.(LockOwner.acquired_at);
}.

(** The high water of a key never falls, and a new lease has a token above it. *)
Record resource_evolves (x y : LockResource) : Prop := {
  se_high_water : (x.(LockResource.fencing_high_water) ≤ y.(LockResource.fencing_high_water))%Z;
  se_owner : ∀ o', y.(LockResource.owner) = Some o' →
    (∃ o, x.(LockResource.owner) = Some o ∧ same_lease o o') ∨ (x.(LockResource.fencing_high_water) < o'.(LockOwner.fencing_token))%Z;
}.

#[global] Instance resource_evolves_preorder : PreOrder resource_evolves.
Proof.
  split.
  - intros x. split; [done|]. intros o' Ho. left. by exists o'.
  - intros x y z [Hxy Hoxy] [Hyz Hoyz]. split; [lia|]. intros o'' Ho.
    destruct (Hoyz _ Ho) as [(o' & Ho' & Hs)|]; [|right; lia].
    destruct (Hoxy _ Ho') as [(o & Ho0 & Hs0)|Hlt].
    + left. exists o. split; [done|]. destruct Hs, Hs0. split; congruence.
    + right. by rewrite (sl_token _ _ Hs).
Qed.

(** ** What a transaction may do *)

Section evolution.
Implicit Types db : StoreTables.

Record evolves (db db' : StoreTables) : Prop := {
  ev_prefix : ∀ r, stored_events db r `prefix_of` stored_events db' r;
  ev_definitions : db.(StoreTables.definitions) ⊆ db'.(StoreTables.definitions);
  ev_runs : db.(StoreTables.runs) ⊆ db'.(StoreTables.runs);
  ev_resources : entries_evolve resource_evolves db.(StoreTables.lock_resources) db'.(StoreTables.lock_resources);
  ev_rows : entries_evolve row_evolves db.(StoreTables.lock_waiters) db'.(StoreTables.lock_waiters);
  ev_new_rows : ∀ id w id0 w0, db'.(StoreTables.lock_waiters) !! id = Some w → db.(StoreTables.lock_waiters) !! id = None →
    db.(StoreTables.lock_waiters) !! id0 = Some w0 → w0.(LockWaiter.key) = w.(LockWaiter.key) →
    (w0.(LockWaiter.sequence) < w.(LockWaiter.sequence))%Z;
}.

#[global] Instance evolves_preorder : PreOrder evolves.
Proof.
  split.
  - intros db. split; try done. intros. congruence.
  - intros db db1 db2 Ha Hb. pose proof Ha as [Hp Hd Hr Hs Hw Hn]. pose proof Hb as [Hp' Hd' Hr' Hs' Hw' Hn'].
    split; [intros r; trans (stored_events db1 r); auto|by etrans|by etrans|by etrans|by etrans|].
    intros id w id0 w0 Hid Hnone Hw0 Hk.
    destruct (Hw _ _ Hw0) as (w1 & Hw1 & E1). destruct (db1.(StoreTables.lock_waiters) !! id) as [w'|] eqn:Hid1.
    + destruct (Hw' _ _ Hid1) as (w2 & Hw2 & E2). simplify_eq.
      rewrite (re_sequence _ _ E2). eapply (Hn id); [done..|]. by rewrite <-(re_key _ _ E2).
    + rewrite <-(re_sequence _ _ E1). eapply (Hn' id); [done..|]. by rewrite (re_key _ _ E1).
Qed.

(** First come, first served: when a waiter is granted the lease of its key at [now], whether it has
    waited before or joins the queue in the same transaction, every waiter of the key that came
    before it and still waits has missed its deadline. *)
Definition fifo (now : string) (db db' : StoreTables) : Prop :=
  ∀ ida a idb b,
    db'.(StoreTables.lock_waiters) !! ida = Some a → a.(LockWaiter.status) = WaiterStatus.waiting →
    db'.(StoreTables.lock_waiters) !! idb = Some b → granted b.(LockWaiter.status) →
    (∀ b0, db.(StoreTables.lock_waiters) !! idb = Some b0 → ~ granted b0.(LockWaiter.status)) →
    a.(LockWaiter.key) = b.(LockWaiter.key) → (a.(LockWaiter.sequence) < b.(LockWaiter.sequence))%Z →
    String.leb now a.(LockWaiter.deadline) = false.

Lemma granted_dec_waiting status : granted status ∨ ~ granted status.
Proof. unfold granted. destruct status; naive_solver. Qed.

Lemma row_still_waiting w w' :
  row_evolves w w' → w'.(LockWaiter.status) = WaiterStatus.waiting → w.(LockWaiter.status) = WaiterStatus.waiting.
Proof. intros [_ _ _ _ _ _ Hs] Hw. rewrite Hw in Hs. unfold status_evolves in Hs. naive_solver. Qed.

(** A transaction of the lock queue appends events of locks only. *)
Definition lock_events (db db' : StoreTables) : Prop :=
  ∀ r, ∃ new, stored_events db' r = stored_events db r ++ new
    ∧ Forall (λ event : RunEvent, lock_event event.(RunEvent.payload) = true) new.

Record moves (now : string) (db db' : StoreTables) : Prop := {
  mv_evolves : evolves db db';
  mv_fifo : fifo now db db';
  mv_events : lock_events db db';
  mv_runs : db'.(StoreTables.runs) = db.(StoreTables.runs);
  mv_claims : db'.(StoreTables.scheduler_claims) = db.(StoreTables.scheduler_claims);
  mv_triggers : db'.(StoreTables.triggers) = db.(StoreTables.triggers);
}.

#[global] Instance moves_preorder now : PreOrder (moves now).
Proof.
  split.
  - intros db. split; [done| | |done..].
    + intros ida a idb b _ _ Hb Hg Hnew. by destruct (Hnew b).
    + intros r. exists []. by rewrite app_nil_r.
  - intros db db1 db2 [Ha Hfa He ???] [Hb Hfb He' ???]. split; [by etrans| | |congruence..].
    2: { intros r. destruct (He r) as (new & Hn & Hl), (He' r) as (new' & Hn' & Hl'). exists (new ++ new').
         rewrite Hn', Hn, (assoc_L (++)). split; [done|]. by apply Forall_app. }
    intros ida a idb b Hia Hsa Hib Hg Hnew Hk Hlt.
    destruct (db1.(StoreTables.lock_waiters) !! idb) as [b1|] eqn:Hb1.
    2: { eapply Hfb; [done..| |done|done]. congruence. }
    destruct (ev_rows _ _ Hb _ _ Hb1) as (b2 & Hb2 & Eb). simplify_eq.
    destruct (granted_dec_waiting b1.(LockWaiter.status)) as [Hg1|Hg1].
    2: { eapply Hfb; [done..| |done|done]. intros b0 Hb0. by simplify_eq. }
    destruct (db1.(StoreTables.lock_waiters) !! ida) as [a1|] eqn:Hia1.
    2: { pose proof (ev_new_rows _ _ Hb _ _ _ _ Hia Hia1 Hb1) as Hlater.
         rewrite <-(re_key _ _ Eb), <-(re_sequence _ _ Eb) in Hlater. specialize (Hlater (eq_sym Hk)). lia. }
    destruct (ev_rows _ _ Hb _ _ Hia1) as (a2 & Ha2 & Ea). simplify_eq. rewrite (re_deadline _ _ Ea).
    apply (Hfa ida a1 idb b1); try done; [by eapply row_still_waiting|..].
    + by rewrite <-(re_key _ _ Ea), <-(re_key _ _ Eb).
    + by rewrite <-(re_sequence _ _ Ea), <-(re_sequence _ _ Eb).
Qed.
End evolution.

(** ** The rows *)

Definition owner_in (resources : gmap string LockResource) (key : string) : option LockOwner :=
  resource ← resources !! key; resource.(LockResource.owner).

Definition waits_for (key : string) (w : LockWaiter) : Prop :=
  w.(LockWaiter.status) = WaiterStatus.waiting ∧ w.(LockWaiter.key) = key.
#[global] Instance waits_for_dec key w : Decision (waits_for key w).
Proof. unfold waits_for. apply _. Defined.
Definition waiters_of (rows : gmap string LockWaiter) (P : LockWaiter → Prop) `{!∀ w, Decision (P w)} : gset string :=
  dom (filter (λ item : string * LockWaiter, P item.2) rows).

(** The owner of a key has its latest token and the one held row of the key; a run and execution
    have at most one row; a key has at most 1024 waiters. *)
Record tables_ok (resources : gmap string LockResource) (rows : gmap string LockWaiter) : Prop := {
  to_token : ∀ key resource, resources !! key = Some resource →
    (0 ≤ resource.(LockResource.fencing_high_water))%Z
    ∧ ∀ o, resource.(LockResource.owner) = Some o →
        o.(LockOwner.fencing_token) = resource.(LockResource.fencing_high_water);
  to_held : ∀ id w, rows !! id = Some w → w.(LockWaiter.status) = WaiterStatus.held →
    ∃ o, owner_in resources w.(LockWaiter.key) = Some o ∧ o.(LockOwner.run_id) = w.(LockWaiter.run_id)
      ∧ o.(LockOwner.node_execution_id) = w.(LockWaiter.node_execution_id);
  to_owner : ∀ key o, owner_in resources key = Some o →
    ∃ id w, rows !! id = Some w ∧ w.(LockWaiter.status) = WaiterStatus.held ∧ w.(LockWaiter.key) = key
      ∧ w.(LockWaiter.run_id) = o.(LockOwner.run_id)
      ∧ w.(LockWaiter.node_execution_id) = o.(LockOwner.node_execution_id);
  to_unique : ∀ id w id' w', rows !! id = Some w → rows !! id' = Some w' →
    w.(LockWaiter.run_id) = w'.(LockWaiter.run_id) →
    w.(LockWaiter.node_execution_id) = w'.(LockWaiter.node_execution_id) → id = id';
  to_bound : ∀ key, (N.of_nat (size (waiters_of rows (waits_for key))) ≤ LOCK_WAITERS_PER_KEY_LIMIT)%N;
}.

Lemma elem_of_waiters_of rows P `{!∀ w, Decision (P w)} id :
  id ∈ waiters_of rows P ↔ ∃ w, rows !! id = Some w ∧ P w.
Proof.
  unfold waiters_of. rewrite elem_of_dom. unfold is_Some. setoid_rewrite map_lookup_filter_Some. naive_solver.
Qed.

(** The waiters of a key do not become more when rows only leave the state [waiting]. *)
Lemma bound_less rows rows' key :
  (∀ id w', rows' !! id = Some w' → waits_for key w' → ∃ w, rows !! id = Some w ∧ waits_for key w) →
  (N.of_nat (size (waiters_of rows (waits_for key))) ≤ LOCK_WAITERS_PER_KEY_LIMIT)%N →
  (N.of_nat (size (waiters_of rows' (waits_for key))) ≤ LOCK_WAITERS_PER_KEY_LIMIT)%N.
Proof.
  intros Hsub Hle. etrans; [|done].
  assert (waiters_of rows' (waits_for key) ⊆ waiters_of rows (waits_for key)) as Hs%subseteq_size; [|lia].
  intros id (w' & ? & ?)%elem_of_waiters_of. apply elem_of_waiters_of. eauto.
Qed.

(** A change of the status of the row of a run and execution. *)
Definition settle (run_id node_execution_id : string) (from to : WaiterStatus) (w : LockWaiter) : LockWaiter :=
  if waiter_matches run_id node_execution_id from w then w <| LockWaiter.status := to |> else w.

Lemma settle_cases run_id node_execution_id from to w :
  (settle run_id node_execution_id from to w = w
   ∧ ~ (w.(LockWaiter.run_id) = run_id ∧ w.(LockWaiter.node_execution_id) = node_execution_id
        ∧ w.(LockWaiter.status) = from))
  ∨ (settle run_id node_execution_id from to w = w <| LockWaiter.status := to |>
     ∧ w.(LockWaiter.run_id) = run_id ∧ w.(LockWaiter.node_execution_id) = node_execution_id
     ∧ w.(LockWaiter.status) = from).
Proof.
  unfold settle. destruct (waiter_matches _ _ _ _) eqn:Hm; unfold waiter_matches in Hm.
  - right. simplify_guards. by subst.
  - left. split; [done|]. intros (Hr & Hn & Hs). by rewrite !bool_decide_true in Hm by done.
Qed.

Lemma settle_evolves run_id node_execution_id from to w :
  status_evolves from to → row_evolves w (settle run_id node_execution_id from to w).
Proof.
  intros Hst. destruct (settle_cases run_id node_execution_id from to w) as [[-> _]|(-> & _ & _ & <-)]; [done|].
  by split.
Qed.

Lemma settled_rows_evolve (rows : gmap string LockWaiter) run_id node_execution_id from to :
  status_evolves from to →
  entries_evolve row_evolves rows (settle run_id node_execution_id from to <$> rows).
Proof. intros Hst id w Hw. eexists. rewrite lookup_fmap, Hw. split; [done|]. by apply settle_evolves. Qed.

(** A waiter that gives up. *)
Lemma tables_abandon resources rows run_id node_execution_id to :
  to = WaiterStatus.timed_out ∨ to = WaiterStatus.cancelled → tables_ok resources rows →
  tables_ok resources (settle run_id node_execution_id WaiterStatus.waiting to <$> rows).
Proof.
  intros Hto [Ht Hh Ho Hu Hb]. set (f := settle _ _ _ _).
  assert (∀ w, row_evolves w (f w)) as Hev by (intros w; apply settle_evolves; right; by left).
  split; [done|..].
  - intros id w' (w & <- & Hw)%lookup_fmap_Some Hs. destruct (Hev w) as [-> -> -> _ _ _ _].
    destruct (settle_cases run_id node_execution_id WaiterStatus.waiting to w) as [[Hf _]|[Hf _]];
      fold f in Hf; rewrite Hf in Hs; [by eapply Hh|]. simpl in Hs. destruct Hto; congruence.
  - intros key o Hown. destruct (Ho _ _ Hown) as (id & w & Hw & Hs & ? & ? & ?).
    exists id, w. split_and!; try done. rewrite lookup_fmap, Hw. simpl. f_equal.
    destruct (settle_cases run_id node_execution_id WaiterStatus.waiting to w) as [[Hf _]|(_ & _ & _ & Hf)];
      [done|congruence].
  - intros id w id' w' (w0 & <- & Hw)%lookup_fmap_Some (w0' & <- & Hw')%lookup_fmap_Some.
    destruct (Hev w0) as [_ -> -> _ _ _ _], (Hev w0') as [_ -> -> _ _ _ _]. by eapply Hu.
  - intros key. eapply bound_less, Hb. intros id w' (w & <- & Hw)%lookup_fmap_Some [Hs Hk].
    exists w. split; [done|]. split; [apply (row_still_waiting _ _ (Hev w) Hs)|by rewrite <-(re_key _ _ (Hev w))].
Qed.

(** The owner of a key that gives the lease up. *)
Lemma tables_clear resources rows key high_water o updated now to :
  to = WaiterStatus.released ∨ to = WaiterStatus.lost →
  resources !! key = Some (LockResource.mk high_water (Some o) updated) → tables_ok resources rows →
  tables_ok (<[key := LockResource.mk high_water None now]> resources)
    (settle o.(LockOwner.run_id) o.(LockOwner.node_execution_id) WaiterStatus.held to <$> rows).
Proof.
  intros Hto Hres [Ht Hh Ho Hu Hb]. set (f := settle _ _ _ _).
  assert (∀ w, row_evolves w (f w)) as Hev by (intros w; apply settle_evolves; right; right; destruct Hto; auto).
  assert (owner_in resources key = Some o) as Hown by (unfold owner_in; by rewrite Hres).
  assert (∀ k, k ≠ key → owner_in (<[key := LockResource.mk high_water None now]> resources) k = owner_in resources k)
    as Hne by (intros k Hk; unfold owner_in; by rewrite lookup_insert_ne).
  destruct (Ho _ _ Hown) as (ido & wo & Hwo & _ & Hko & Hro & Hno). split.
  - intros k res [[<- <-]|[_ Hk]]%lookup_insert_Some; [|by apply (Ht k)].
    split; [|done]. by destruct (Ht _ _ Hres).
  - intros id w' (w & <- & Hw)%lookup_fmap_Some Hs.
    destruct (settle_cases o.(LockOwner.run_id) o.(LockOwner.node_execution_id) WaiterStatus.held to w)
      as [[Hf Hn]|[Hf _]]; fold f in Hf; rewrite Hf in *; [|simpl in Hs; destruct Hto; congruence].
    destruct (Hh _ _ Hw Hs) as (o' & Ho' & Hr & He). rewrite Hne; [by eauto|]. intros Hk.
    rewrite Hk, Hown in Ho'. simplify_eq. by destruct Hn.
  - intros k o' Ho'. destruct (decide (k = key)) as [->|Hk].
    { unfold owner_in in Ho'. by rewrite lookup_insert_eq in Ho'. }
    rewrite Hne in Ho' by done. destruct (Ho _ _ Ho') as (id & w & Hw & Hs & Hkw & ? & ?).
    exists id, w. split_and!; try done. rewrite lookup_fmap, Hw. simpl. f_equal.
    destruct (settle_cases o.(LockOwner.run_id) o.(LockOwner.node_execution_id) WaiterStatus.held to w)
      as [[Hf _]|(_ & Hr & He & _)]; [done|].
    assert (id = ido) as -> by (eapply Hu; [done..| |]; congruence). simplify_eq.
  - intros id w id' w' (w0 & <- & Hw)%lookup_fmap_Some (w0' & <- & Hw')%lookup_fmap_Some.
    destruct (Hev w0) as [_ -> -> _ _ _ _], (Hev w0') as [_ -> -> _ _ _ _]. by eapply Hu.
  - intros k. eapply bound_less, Hb. intros id w' (w & <- & Hw)%lookup_fmap_Some [Hs Hkw].
    exists w. split; [done|]. split; [apply (row_still_waiting _ _ (Hev w) Hs)|by rewrite <-(re_key _ _ (Hev w))].
Qed.

(** A free key that goes to one of its waiters, with the next token. *)
Lemma tables_grant resources rows key high_water updated now id w o :
  resources !! key = Some (LockResource.mk high_water None updated) → rows !! id = Some w →
  w.(LockWaiter.status) = WaiterStatus.waiting → w.(LockWaiter.key) = key →
  o.(LockOwner.run_id) = w.(LockWaiter.run_id) →
  o.(LockOwner.node_execution_id) = w.(LockWaiter.node_execution_id) →
  o.(LockOwner.fencing_token) = (high_water + 1)%Z → tables_ok resources rows →
  tables_ok (<[key := LockResource.mk (LockOwner.fencing_token o) (Some o) now]> resources)
    (<[id := w <| LockWaiter.status := WaiterStatus.held |>]> rows).
Proof.
  intros Hres Hw Hs Hk Hr Hn Htok [Ht Hh Ho Hu Hb].
  assert (∀ k, k ≠ key → owner_in (<[key := LockResource.mk (LockOwner.fencing_token o) (Some o) now]> resources) k
    = owner_in resources k) as Hne by (intros k ?; unfold owner_in; by rewrite lookup_insert_ne).
  assert (owner_in resources key = None) as Hfree by (unfold owner_in; by rewrite Hres).
  assert (∀ id0 w0, (<[id := w <| LockWaiter.status := WaiterStatus.held |>]> rows) !! id0 = Some w0 →
    ∃ w1, rows !! id0 = Some w1 ∧ row_evolves w1 w0) as Hold.
  { intros id0 w0 [[<- <-]|[_ ?]]%lookup_insert_Some; [|by eexists]. exists w. split; [done|].
    split; try done. right. by left. }
  split.
  - intros k res [[<- <-]|[_ Hk']]%lookup_insert_Some; [|by apply (Ht k)]. simpl.
    destruct (Ht _ _ Hres) as [Hpos _]. simpl in Hpos. split; [lia|]. by intros o0 [= <-].
  - intros id0 w0 [[<- <-]|[Hid Hw0]]%lookup_insert_Some Hs0.
    + exists o. simpl. unfold owner_in. by rewrite Hk, lookup_insert_eq.
    + destruct (Hh _ _ Hw0 Hs0) as (o0 & Ho0 & ? & ?). exists o0. split; [|done]. rewrite Hne; [done|].
      intros Heq. by rewrite Heq, Hfree in Ho0.
  - intros k o0 Ho0. destruct (decide (k = key)) as [->|Hkk].
    + unfold owner_in in Ho0. rewrite lookup_insert_eq in Ho0. simplify_eq/=.
      exists id. eexists. rewrite lookup_insert_eq. by split_and!.
    + rewrite Hne in Ho0 by done. destruct (Ho _ _ Ho0) as (id0 & w0 & Hw0 & Hs0 & ? & ? & ?).
      exists id0, w0. split_and!; try done. rewrite lookup_insert_ne; [done|]. congruence.
  - intros id1 w1 id2 w2 (v1 & H1v & E1)%Hold (v2 & H2v & E2)%Hold.
    destruct E1 as [_ -> -> _ _ _ _], E2 as [_ -> -> _ _ _ _]. by eapply Hu.
  - intros k. eapply bound_less, Hb. intros id0 w0 (v & Hv & Ev)%Hold [Hs0 Hk0].
    exists v. split; [done|]. split; [by apply (row_still_waiting _ _ Ev)|by rewrite <-(re_key _ _ Ev)].
Qed.

(** A lease that is extended. *)
Lemma tables_extend resources rows key high_water o o' updated now :
  resources !! key = Some (LockResource.mk high_water (Some o) updated) → same_lease o o' →
  tables_ok resources rows →
  tables_ok (<[key := LockResource.mk high_water (Some o') now]> resources) rows.
Proof.
  intros Hres Hsl [Ht Hh Ho Hu Hb].
  assert (∀ k, owner_in (<[key := LockResource.mk high_water (Some o') now]> resources) k =
    if decide (k = key) then Some o' else owner_in resources k) as Hown.
  { intros k. unfold owner_in. case_decide as Hk; [subst; by rewrite lookup_insert_eq|by rewrite lookup_insert_ne]. }
  assert (owner_in resources key = Some o) as Hkey by (unfold owner_in; by rewrite Hres).
  split; [|..|done|done].
  - intros k res [[<- <-]|[_ Hk]]%lookup_insert_Some; [|by apply (Ht k)].
    destruct (Ht _ _ Hres) as [Hpos Hto]. split; [done|]. intros o0 [= <-]. rewrite (sl_token _ _ Hsl). by apply Hto.
  - intros id w Hw Hs. destruct (Hh _ _ Hw Hs) as (o0 & Ho0 & Hr & Hn). rewrite Hown. case_decide as Hk.
    + rewrite Hk, Hkey in Ho0. simplify_eq. exists o'. by rewrite (sl_run _ _ Hsl), (sl_execution _ _ Hsl).
    + by exists o0.
  - intros k o0. rewrite Hown. case_decide as Hk; [|by apply Ho]. intros [= <-]. subst k.
    rewrite (sl_run _ _ Hsl), (sl_execution _ _ Hsl). by apply Ho.
Qed.

(** A key that becomes known. *)
Lemma tables_resource resources rows key now :
  resources !! key = None → tables_ok resources rows →
  tables_ok (<[key := LockResource.mk 0 None now]> resources) rows.
Proof.
  intros Hn [Ht Hh Ho Hu Hb].
  assert (∀ k, owner_in (<[key := LockResource.mk 0 None now]> resources) k = owner_in resources k) as Hown.
  { intros k. unfold owner_in. destruct (decide (k = key)) as [->|]; [|by rewrite lookup_insert_ne].
    by rewrite lookup_insert_eq, Hn. }
  split; [|setoid_rewrite Hown; done..|done|done].
  intros k res [[<- <-]|[_ Hk]]%lookup_insert_Some; [by split|by apply (Ht k)].
Qed.

(** A waiter that joins the queue of a key with room for it. *)
Lemma tables_enqueue resources rows id w :
  rows !! id = None → w.(LockWaiter.status) = WaiterStatus.waiting →
  (∀ id0 w0, rows !! id0 = Some w0 → w0.(LockWaiter.run_id) = w.(LockWaiter.run_id) →
     w0.(LockWaiter.node_execution_id) = w.(LockWaiter.node_execution_id) → False) →
  (N.of_nat (size (waiters_of rows (waits_for w.(LockWaiter.key)))) < LOCK_WAITERS_PER_KEY_LIMIT)%N →
  tables_ok resources rows → tables_ok resources (<[id := w]> rows).
Proof.
  intros Hn Hs Huniq Hroom [Ht Hh Ho Hu Hb]. split; [done|..].
  - intros id0 w0 [[<- <-]|[_ Hw0]]%lookup_insert_Some Hs0; [congruence|by eapply Hh].
  - intros k o Hown. destruct (Ho _ _ Hown) as (id0 & w0 & Hw0 & ?). exists id0, w0. split; [|done].
    rewrite lookup_insert_ne; [done|]. congruence.
  - intros id1 w1 id2 w2 [[<- <-]|[_ H1w]]%lookup_insert_Some [[<- <-]|[_ H2w]]%lookup_insert_Some Hr He;
      [done|exfalso; by eapply Huniq..|by eapply Hu].
  - intros k. destruct (decide (k = w.(LockWaiter.key))) as [->|Hk].
    + assert (waiters_of (<[id := w]> rows) (waits_for w.(LockWaiter.key))
        ⊆ {[id]} ∪ waiters_of rows (waits_for w.(LockWaiter.key))) as Hsub%subseteq_size.
      { intros id0 (w0 & [[<- _]|[_ Hw0]]%lookup_insert_Some & Hwf)%elem_of_waiters_of; [set_solver|].
        apply elem_of_union_r, elem_of_waiters_of. eauto. }
      pose proof (size_union_alt (C:=gset string) {[id]} (waiters_of rows (waits_for w.(LockWaiter.key)))) as Hsz.
      pose proof (subseteq_size (waiters_of rows (waits_for w.(LockWaiter.key)) ∖ {[id]})
        (waiters_of rows (waits_for w.(LockWaiter.key))) ltac:(set_solver)).
      rewrite size_singleton in Hsz. lia.
    + eapply bound_less, Hb. intros id0 w0 [[<- <-]|[_ Hw0]]%lookup_insert_Some [Hs0 Hk0]; [congruence|].
      exists w0. by split.
Qed.

(** ** Rows and histories *)

(** The owner of a row has the lease of a projected lock. *)
Record leased_by (run_id : string) (lock : LockProjection) (o : LockOwner) : Prop := {
  lb_run : o.(LockOwner.run_id) = run_id;
  lb_execution : o.(LockOwner.node_execution_id) = lock.(LockProjection.execution_identity);
  lb_lease : lock.(LockProjection.lease_id) = Some o.(LockOwner.lease_id);
  lb_token : lock.(LockProjection.fencing_token) = Some (i64_to_string o.(LockOwner.fencing_token));
}.

Lemma app_if_nil {A} (P : Prop) `{!Decision P} (l : list A) : l ++ (if decide P then [] else []) = l.
Proof. case_decide; by rewrite app_nil_r. Qed.

Section invariant.
Context `{!Externals, !EngineExternals, !PolicyExternals, !StoreExternals}.

(** A lock that the committed history of a run says is held. *)
Definition holder (db : StoreTables) (run_id : string) (iteration : option ForEachIterationScope)
    (lock_id : string) (lock : LockProjection) : Prop :=
  ∃ s, from_events (stored_events db run_id) = Ok s ∧ holds s.(ProjectionFoldState.projection) iteration lock_id lock.

(** Every history folds and is indexed; the rows are in order; whoever holds a lock by its history owns the row of
    the key, with the same lease; and no two hold the same key. *)
Record locks_ok (db : StoreTables) : Prop := {
  lo_folds : ∀ run_id, ∃ s, from_events (stored_events db run_id) = Ok s;
  lo_indexed : ∀ run_id, indexed db run_id;
  lo_tables : tables_ok db.(StoreTables.lock_resources) db.(StoreTables.lock_waiters);
  lo_holder : ∀ run_id iteration lock_id lock, holder db run_id iteration lock_id lock →
    programmatic_lock_lease_ms lock.(LockProjection.execution_identity) = None
    ∧ ∃ o, owner_of db lock.(LockProjection.key) = Some o ∧ leased_by run_id lock o;
  lo_exclusive : ∀ run_id iteration lock_id lock run_id' iteration' lock_id' lock',
    holder db run_id iteration lock_id lock → holder db run_id' iteration' lock_id' lock' →
    lock.(LockProjection.key) = lock'.(LockProjection.key) → run_id = run_id' ∧ iteration = iteration' ∧ lock_id = lock_id';
}.

(** The events that the store appends keep the other tables and extend the histories. *)
Lemma appends_moves now db db' run_id new :
  appends db db' run_id new → Forall (λ event : RunEvent, lock_event event.(RunEvent.payload) = true) new →
  moves now db db'.
Proof.
  intros Ha Hl. pose proof Ha as [He Hd Hr Hres Hw Hcl Htr _ _]. split; [| | |done..].
  - split; rewrite ?Hd, ?Hr, ?Hres, ?Hw; try done; [|congruence].
    intros r. rewrite (appends_stored _ _ _ _ _ Ha). by eexists.
  - intros ida a idb b _ _ Hb Hg Hnew. rewrite Hw in Hb. by destruct (Hnew b).
  - intros r. rewrite (appends_stored _ _ _ _ _ Ha). eexists. split; [done|]. by case_decide.
Qed.

(** A holder after events that grant nothing. *)
Lemma holder_before db db' run_id new r iteration lock_id lock :
  locks_ok db → appends db db' run_id new →
  Forall (λ event : RunEvent, is_acquisition event.(RunEvent.payload) = false) new →
  holder db' r iteration lock_id lock → holder db r iteration lock_id lock.
Proof.
  intros Hok Ha Hn (s' & Hs' & Hh). rewrite (appends_stored _ _ _ _ _ Ha) in Hs'.
  destruct (lo_folds _ Hok r) as [s Hs]. exists s. split; [done|].
  unfold from_events in Hs, Hs'. rewrite apply_all_app, Hs in Hs'. simpl in Hs'.
  case_decide; [by eapply holds_series|]. by apply Ok_inj in Hs' as ->.
Qed.

Lemma append_neutral db db' run_id new :
  locks_ok db → appends db db' run_id new →
  (new ≠ [] → refreshes db db' run_id (stored_events db run_id ++ new)) →
  (∃ s, from_events (stored_events db run_id ++ new) = Ok s) →
  Forall (λ event : RunEvent, is_acquisition event.(RunEvent.payload) = false) new → locks_ok db'.
Proof.
  intros Hok Ha Hre Hs Hn. pose proof (λ r i id l, holder_before _ _ _ _ r i id l Hok Ha Hn) as Hb.
  pose proof Ha as [_ _ _ Hres Hw _ _ _ _]. split.
  - intros r. rewrite (appends_stored _ _ _ _ _ Ha). case_decide; [by subst|].
    rewrite app_nil_r. apply (lo_folds _ Hok).
  - eapply indexed_append; [apply (lo_indexed _ Hok)|done|done].
  - rewrite Hres, Hw. apply (lo_tables _ Hok).
  - intros r i id l Hh. unfold owner_of. rewrite Hres. eapply (lo_holder _ Hok), Hb, Hh.
  - intros r i id l r' i' id' l' Hh Hh'. eapply (lo_exclusive _ Hok); [apply Hb, Hh|apply Hb, Hh'].
Qed.

(** An event of a lock is stored as it is, at the end of the history that it was numbered for. *)
Lemma append_lock_event_ok db events run_id now version iteration payload db' events' :
  append_lock_event db events run_id now version iteration payload = Ok (db', events') →
  lock_event payload = true →
  ∃ event, appends db db' run_id [event] ∧ events' = events ++ [event]
    ∧ (∃ s, from_events (events ++ [event]) = Ok s)
    ∧ event.(RunEvent.payload) = payload ∧ event.(RunEvent.iteration) = iteration
    ∧ refreshes db db' run_id (events ++ [event])
    ∧ Forall (λ stored : RunEvent, stored.(RunEvent.sequence) ≠ u64_add (N.of_nat (length events)) 1)
        (stored_events db run_id).
Proof.
  unfold append_lock_event. intros Ha Hl. destruct (generated_event_id db) as [db0 id] eqn:Hid.
  apply result_bind_ok in Ha as ([[db1 events1] event] & Ha & [= <- <-]%Ok_inj).
  eapply append_generated in Ha as [[Hap Hf -> Hre Hseq] ->]; [|done|by destruct payload].
  eexists. by split_and!.
Qed.

(** A list that is not the whole history cannot be appended to: the number is taken. *)
Lemma stale_rejected events stored s :
  from_events stored = Ok s → events `prefix_of` stored →
  Forall (λ e : RunEvent, e.(RunEvent.sequence) ≠ u64_add (N.of_nat (length events)) 1) stored → events = stored.
Proof.
  intros Hs [rest ->] Hne. destruct rest as [|e rest]; [by rewrite app_nil_r|]. exfalso.
  destruct (from_events_records _ _ Hs) as [[Hlen Hseq _ _ _] Hlt].
  rewrite Hlen, length_app in Hlt. simpl in Hlt.
  assert ((events ++ e :: rest) !! length events = Some e) as Hl by by apply list_lookup_middle.
  rewrite Forall_forall in Hne. apply (Hne e); [by eapply list_elem_of_lookup_2|].
  rewrite (Hseq _ _ Hl). unfold u64_add. rewrite N.mod_small; lia.
Qed.

(** What an appended event of a lock does. *)
Record lock_appended (db db' : StoreTables) (run_id : string) (iteration : option ForEachIterationScope)
    (payload : RunEventPayload) (event : RunEvent) (s s' : ProjectionFoldState) : Prop := {
  la_appends : appends db db' run_id [event];
  la_payload : event.(RunEvent.payload) = payload;
  la_iteration : event.(RunEvent.iteration) = iteration;
  la_before : from_events (stored_events db run_id) = Ok s;
  la_after : from_events (stored_events db' run_id) = Ok s';
  la_applied : apply s event = Ok s';
  la_lock : lock_event payload = true;
  la_refreshes : refreshes db db' run_id (stored_events db run_id ++ [event]);
}.

Lemma append_lock_event_spec db events run_id now version iteration payload db' events' :
  (∃ s, from_events (stored_events db run_id) = Ok s) → events `prefix_of` stored_events db run_id →
  append_lock_event db events run_id now version iteration payload = Ok (db', events') →
  lock_event payload = true →
  events = stored_events db run_id ∧ events' = stored_events db' run_id
  ∧ ∃ event s s', lock_appended db db' run_id iteration payload event s s'.
Proof.
  intros [s Hs] Hpre Ha Hl. apply append_lock_event_ok in Ha as (event & Hap & -> & [s' Hs'] & Hp & Hi & Hre & Hne); [|done].
  pose proof (stale_rejected _ _ _ Hs Hpre Hne) as ->.
  rewrite (appends_stored _ _ _ _ _ Hap), decide_True by done. split_and!; [done|done|].
  pose proof Hs' as (s0 & Hs0 & Happ)%from_events_snoc. rewrite Hs in Hs0. simplify_eq.
  exists event, s0, s'. split; try done. by rewrite (appends_stored _ _ _ _ _ Hap), decide_True.
Qed.

(** *** Grants *)

(** The event of a grant, if the lock is one of the workflow. *)
Inductive grant_events (db : StoreTables) (key : string) (w : LockWaiter) (o : LockOwner) : list RunEvent → Prop :=
| grant_silent : grant_events db key w o []
| grant_recorded event data s s' :
    from_events (stored_events db w.(LockWaiter.run_id)) = Ok s → apply s event = Ok s' →
    event.(RunEvent.payload) = RunEventPayload.LockAcquired data → data.(LockAcquiredData.key) = key →
    data.(LockAcquiredData.lease_id) = o.(LockOwner.lease_id) →
    data.(LockAcquiredData.fencing_token) = i64_to_string o.(LockOwner.fencing_token) →
    data.(LockAcquiredData.execution_identity) = w.(LockWaiter.node_execution_id) →
    programmatic_lock_lease_ms w.(LockWaiter.node_execution_id) = None →
    grant_events db key w o [event].

(** A grant, on the tables and the history of the run. *)
Record grants (now : string) (db db' : StoreTables) (key id : string) (w : LockWaiter) (o : LockOwner)
    (high_water : Z) (new : list RunEvent) : Prop := {
  gr_events : grant_events db key w o new;
  gr_free : ∃ updated, db.(StoreTables.lock_resources) !! key = Some (LockResource.mk high_water None updated);
  gr_row : db.(StoreTables.lock_waiters) !! id = Some w;
  gr_waiting : w.(LockWaiter.status) = WaiterStatus.waiting;
  gr_key : w.(LockWaiter.key) = key;
  gr_run : o.(LockOwner.run_id) = w.(LockWaiter.run_id);
  gr_execution : o.(LockOwner.node_execution_id) = w.(LockWaiter.node_execution_id);
  gr_token : o.(LockOwner.fencing_token) = (high_water + 1)%Z;
  gr_histories : db'.(StoreTables.run_events) = with_events db.(StoreTables.run_events) w.(LockWaiter.run_id) new;
  gr_definitions : db'.(StoreTables.definitions) = db.(StoreTables.definitions);
  gr_runs : db'.(StoreTables.runs) = db.(StoreTables.runs);
  gr_indexed : ∀ r, indexed db' r;
  gr_claims : db'.(StoreTables.scheduler_claims) = db.(StoreTables.scheduler_claims);
  gr_triggers : db'.(StoreTables.triggers) = db.(StoreTables.triggers);
  gr_resources : db'.(StoreTables.lock_resources) =
    <[key := LockResource.mk (LockOwner.fencing_token o) (Some o) now]> db.(StoreTables.lock_resources);
  gr_rows : db'.(StoreTables.lock_waiters) = <[id := w <| LockWaiter.status := WaiterStatus.held |>]> db.(StoreTables.lock_waiters);
}.

Lemma holder_same_history db db' run_id iteration lock_id lock :
  stored_events db' run_id = stored_events db run_id →
  holder db' run_id iteration lock_id lock ↔ holder db run_id iteration lock_id lock.
Proof. unfold holder. by intros ->. Qed.

(** After a grant, the holder of another key is as before, and the holder of the key is the one of
    the grant. *)
Lemma grant_holder now db db' key id w o high_water new r iteration lock_id lock :
  locks_ok db → grants now db db' key id w o high_water new → holder db' r iteration lock_id lock →
  (holder db r iteration lock_id lock ∧ lock.(LockProjection.key) ≠ key)
  ∨ (∃ event data, new = [event] ∧ r = w.(LockWaiter.run_id) ∧ acquired event data iteration lock_id lock
       ∧ leased_by r lock o ∧ lock.(LockProjection.key) = key
       ∧ programmatic_lock_lease_ms lock.(LockProjection.execution_identity) = None).
Proof.
  intros Hok Hg Hh.
  assert (∀ r i id l, holder db r i id l → l.(LockProjection.key) ≠ key) as Hfree.
  { intros r' i' id' l' Hh' Hk. destruct (lo_holder _ Hok _ _ _ _ Hh') as (_ & o' & Ho' & _).
    destruct (gr_free _ _ _ _ _ _ _ _ _ Hg) as [u Hu]. unfold owner_of in Ho'. by rewrite Hk, Hu in Ho'. }
  pose proof (with_events_stored _ _ _ _ r (gr_histories _ _ _ _ _ _ _ _ _ Hg)) as Hst.
  destruct (gr_events _ _ _ _ _ _ _ _ _ Hg) as [|event data s s' Hs Happ Hp Hk Hl Htk Hx Hpr].
  { left. rewrite app_if_nil in Hst. rewrite holder_same_history in Hh by done. split; [done|by eapply Hfree]. }
  case_decide as Hr; [|rewrite app_nil_r in Hst; rewrite holder_same_history in Hh by done; left;
    split; [done|by eapply Hfree]].
  subst r. destruct Hh as (s0 & Hs0 & Hh). rewrite Hst in Hs0.
  assert (from_events (stored_events db w.(LockWaiter.run_id) ++ [event]) = Ok s') as Hs0'
    by (apply from_events_snoc; eauto).
  rewrite Hs0 in Hs0'. simplify_eq.
  destruct (holds_after _ _ _ _ _ _ Happ Hh) as [Hb|[data' Ha]].
  - left. assert (holder db w.(LockWaiter.run_id) iteration lock_id lock) by by eexists. split; [done|by eapply Hfree].
  - right. exists event, data'. pose proof Ha as [Hp' _ _ Hk' Hx' Hl' Htk']. rewrite Hp in Hp'. simplify_eq.
    split_and!; try done; [split; try congruence|by rewrite Hx', Hx].
    + apply (gr_run _ _ _ _ _ _ _ _ _ Hg).
    + by rewrite (gr_execution _ _ _ _ _ _ _ _ _ Hg), Hx'.
Qed.

Lemma locks_grant now db db' key id w o high_water new :
  locks_ok db → grants now db db' key id w o high_water new → locks_ok db'.
Proof.
  intros Hok Hg. pose proof (λ r i l lk, grant_holder _ _ _ _ _ _ _ _ _ r i l lk Hok Hg) as Hh.
  pose proof Hg as [Hev [u Hfree] Hrow Hw Hk Hr Hx Htok Hhist _ _ Hix _ _ Hres Hrows]. split; [|exact Hix|..].
  - intros r. rewrite (with_events_stored _ _ _ _ _ Hhist). destruct (lo_folds _ Hok r) as [s Hs].
    case_decide as Hd; [|rewrite app_nil_r; eauto]. subst r.
    destruct Hev as [|event data s0 s' Hs0 Happ]; [rewrite app_nil_r; eauto|].
    exists s'. apply from_events_snoc. eauto.
  - rewrite Hres, Hrows. eapply tables_grant; try done. apply (lo_tables _ Hok).
  - intros r i l lk [[Hb Hne]|(event & data & _ & _ & _ & Hl & Hkey & Hpr)]%Hh; unfold owner_of; rewrite Hres.
    + rewrite lookup_insert_ne by done. by apply (lo_holder _ Hok) in Hb.
    + rewrite Hkey, lookup_insert_eq. split; [done|]. by exists o.
  - intros r i l lk r' i' l' lk' [[Hb Hne]|(e & d & He & Hr1 & Ha & _ & Hk1 & _)]%Hh
      [[Hb' Hne']|(e' & d' & He' & Hr2 & Ha' & _ & Hk2 & _)]%Hh Heq; [by eapply (lo_exclusive _ Hok)|congruence..|].
    simplify_eq. destruct Ha as [Hp <- <- _ _ _ _], Ha' as [Hp' <- <- _ _ _ _]. rewrite Hp in Hp'. by simplify_eq.
Qed.

(** A grant to the oldest of the waiters in time keeps the order of the queue. *)
Lemma grant_moves now db db' key id w o high_water new :
  grants now db db' key id w o high_water new →
  (∀ ida a, db.(StoreTables.lock_waiters) !! ida = Some a → waits_for key a →
     (a.(LockWaiter.sequence) < w.(LockWaiter.sequence))%Z → String.leb now a.(LockWaiter.deadline) = false) →
  moves now db db'.
Proof.
  intros [Hev [u Hfree] Hrow Hw Hk Hr Hx Htok Hhist Hdef Hruns _ Hcl Htr Hres Hrows] Hold. split; [| | |done..].
  - split; rewrite ?Hdef, ?Hruns, ?Hres, ?Hrows; try done.
    + intros r. rewrite (with_events_stored _ _ _ _ _ Hhist). by eexists.
    + eapply (entries_evolve_change _); [done|]. split; simpl; [lia|]. intros o' [= <-]. right. simpl. lia.
    + eapply (entries_evolve_change _); [done|]. split; try done. right. by left.
    + intros id1 w1 id0 w0 [[<- <-]|[_ Hw1]]%lookup_insert_Some Hn; congruence.
  - intros ida a idb b. rewrite Hrows. intros Ha Hsa Hb Hg Hnew Hkk Hlt.
    apply lookup_insert_Some in Ha as [[<- <-]|[_ Ha]]; [done|].
    apply lookup_insert_Some in Hb as [[<- <-]|[_ Hb]]; simplify_eq.
    + eapply Hold; [done| |done]. split; [done|]. by rewrite Hkk.
    + by destruct (Hnew b).
  - intros r. rewrite (with_events_stored _ _ _ _ _ Hhist). eexists. split; [done|].
    case_decide; [|done]. destruct Hev as [|event data s s' _ _ Hp]; [done|]. apply Forall_singleton. by rewrite Hp.
Qed.

(** *** Other changes of the rows *)

Record retables (db db' : StoreTables) : Prop := {
  rt_events : db'.(StoreTables.run_events) = db.(StoreTables.run_events);
  rt_definitions : db'.(StoreTables.definitions) = db.(StoreTables.definitions);
  rt_runs : db'.(StoreTables.runs) = db.(StoreTables.runs);
  rt_indexes : db'.(StoreTables.indexes) = db.(StoreTables.indexes);
  rt_claims : db'.(StoreTables.scheduler_claims) = db.(StoreTables.scheduler_claims);
  rt_triggers : db'.(StoreTables.triggers) = db.(StoreTables.triggers);
}.

Lemma retables_holder db db' run_id iteration lock_id lock :
  retables db db' → holder db' run_id iteration lock_id lock ↔ holder db run_id iteration lock_id lock.
Proof. intros Hr. apply holder_same_history. unfold stored_events. by rewrite (rt_events _ _ Hr). Qed.

(** A change that keeps the leases of the holders. *)
Lemma locks_retable db db' :
  locks_ok db → retables db db' → tables_ok db'.(StoreTables.lock_resources) db'.(StoreTables.lock_waiters) →
  (∀ run_id iteration lock_id lock o, holder db run_id iteration lock_id lock →
     owner_of db lock.(LockProjection.key) = Some o → ∃ o', owner_of db' lock.(LockProjection.key) = Some o' ∧ same_lease o o') →
  locks_ok db'.
Proof.
  intros Hok Hr Ht Ho. split; [|by eapply indexed_frame; [apply (lo_indexed _ Hok)|apply Hr|rewrite (rt_indexes _ _ Hr)|rewrite (rt_runs _ _ Hr)]|done|..].
  - intros r. unfold stored_events. rewrite (rt_events _ _ Hr). apply (lo_folds _ Hok).
  - intros r i l lk Hh. rewrite retables_holder in Hh by done.
    destruct (lo_holder _ Hok _ _ _ _ Hh) as (Hp & o & Hown & [Hru Hx Hl Htk]). split; [done|].
    destruct (Ho _ _ _ _ _ Hh Hown) as (o' & Ho' & [El Er Ex Et _]). exists o'. split; [done|]. split; congruence.
  - intros r i l lk r' i' l' lk' Hh Hh'. rewrite retables_holder in Hh, Hh' by done. by eapply (lo_exclusive _ Hok).
Qed.

Lemma retables_evolves db db' :
  retables db db' → entries_evolve resource_evolves db.(StoreTables.lock_resources) db'.(StoreTables.lock_resources) →
  entries_evolve row_evolves db.(StoreTables.lock_waiters) db'.(StoreTables.lock_waiters) →
  (∀ id, db.(StoreTables.lock_waiters) !! id = None → db'.(StoreTables.lock_waiters) !! id = None) →
  evolves db db'.
Proof.
  intros [He Hd Hr _ _ _] Hres Hrows Hn. split; rewrite ?Hd, ?Hr; try done.
  - intros r. unfold stored_events. by rewrite He.
  - intros id w id0 w0 Hid Hnone. by rewrite Hn in Hid.
Qed.

(** A change that grants no waiter keeps the order of the queue. *)
Lemma no_grant_fifo now db db' :
  (∀ id w', db'.(StoreTables.lock_waiters) !! id = Some w' → granted w'.(LockWaiter.status) →
     ∃ w, db.(StoreTables.lock_waiters) !! id = Some w ∧ granted w.(LockWaiter.status)) →
  fifo now db db'.
Proof. intros Hn ida a idb b _ _ Hb Hg Hnew. destruct (Hn _ _ Hb Hg) as (w & Hw & Hgw). by destruct (Hnew w). Qed.
End invariant.
