(* ===== verification/LockTransactions.v ===== *)
(** * The transactions of the lock queue

    Every transaction of the lock queue keeps the invariant that couples rows and histories, moves
    rows along their life cycle and serves the waiters of a key in their order. *)

From S2P Require Import Prelude GraphSearch Strings Json EventTypes ProjectionTypes Guards.
From S2P Require Import FoldRun FoldControlFlow FoldCorrection FoldApprovals FoldOperations.
From S2P Require Import FoldLifecycle IterationFold EventIdentities EventValidation Fold.
From S2P Require Import FoldFrames HistoryProperties LoopProperties ProjectionCache ModelTypes.
From S2P Require Import EngineExternals ModelQueries PolicyTypes PolicyBundle DurableStore.
From S2P Require Import LockQueue DurableStoreProperties LockHistories LockTables.

(** ** The statements *)

Lemma update_waiters_rows db run_id node_execution_id from to :
  (update_waiters db run_id node_execution_id from to).1.(StoreTables.lock_waiters)
  = settle run_id node_execution_id from to <$> db.(StoreTables.lock_waiters).
Proof. done. Qed.

Lemma clear_owner_true db key f now db' :
  clear_owner db key f now = (db', true) →
  ∃ high_water o updated, db.(StoreTables.lock_resources) !! key = Some (LockResource.mk high_water (Some o) updated)
    ∧ f o = true
    ∧ db' = db <| StoreTables.lock_resources ::= <[key := LockResource.mk high_water None now]> |>.
Proof.
  unfold clear_owner. intros Hc. repeat case_match; simplify_eq. eauto 10.
Qed.

Lemma clear_owner_false db key f now db' : clear_owner db key f now = (db', false) → db' = db.
Proof. unfold clear_owner. intros Hc. by repeat case_match; simplify_eq. Qed.

Lemma extend_lease_ok db key f expires_at now db' changed :
  extend_lease db key f expires_at now = (db', changed) →
  db' = db ∨ ∃ high_water o o' updated,
    db.(StoreTables.lock_resources) !! key = Some (LockResource.mk high_water (Some o) updated) ∧ same_lease o o'
    ∧ db' = db <| StoreTables.lock_resources ::= <[key := LockResource.mk high_water (Some o') now]> |>.
Proof.
  unfold extend_lease. intros Hc. repeat case_match; simplify_eq; try by left.
  right. eexists _, _, _, _. split_and!; [done| |done]. by split.
Qed.

Lemma grant_owner_true db key high_water o now db' :
  grant_owner db key high_water o now = Ok (db', true) →
  (∃ updated, db.(StoreTables.lock_resources) !! key = Some (LockResource.mk high_water None updated))
  ∧ db' = db <| StoreTables.lock_resources ::=
            <[key := LockResource.mk (LockOwner.fencing_token o) (Some o) now]> |>.
Proof.
  unfold grant_owner. intros Hg. invert_ok; simplify_eq.
  match goal with H : (_ =? _)%Z = true |- _ => apply Z.eqb_eq in H as -> end. eauto.
Qed.

Lemma hold_waiter_one db id db' :
  hold_waiter db id = (db', 1) →
  ∃ w, db.(StoreTables.lock_waiters) !! id = Some w ∧ w.(LockWaiter.status) = WaiterStatus.waiting
    ∧ db' = db <| StoreTables.lock_waiters ::= <[id := w <| LockWaiter.status := WaiterStatus.held |>]> |>.
Proof.
  unfold hold_waiter. intros Hh. repeat case_match; simplify_eq. simplify_guards. eauto.
Qed.

(** The selected waiter is the one of the lowest number among those in time. *)
Lemma foldr_older l id w :
  foldr older None l = Some (id, w) →
  (id, w) ∈ l ∧ ∀ item : string * LockWaiter, item ∈ l → (w.(LockWaiter.sequence) ≤ item.2.(LockWaiter.sequence))%Z.
Proof.
  revert id w. induction l as [|[id1 w1] l IH]; intros id w Hf; simpl in Hf; [done|].
  destruct (foldr older None l) as [[id2 w2]|] eqn:Hl; simpl in Hf.
  - destruct (IH _ _ eq_refl) as [Hin Hmin]. unfold waiter_leb in Hf. simpl in Hf.
    destruct (Z.eqb_spec (LockWaiter.sequence w2) (LockWaiter.sequence w1)),
      (Z.leb_spec (LockWaiter.sequence w2) (LockWaiter.sequence w1)); repeat case_match; simplify_eq;
      (split; [set_solver|]); intros item [->|Hi]%elem_of_cons; simpl; try specialize (Hmin _ Hi); lia.
  - simplify_eq. split; [set_solver|]. intros item [->|Hi]%elem_of_cons; [done|].
    destruct l as [|b l]; [by apply not_elem_of_nil in Hi|]. simpl in Hl. destruct (foldr older None l); simpl in Hl; [|done].
    by repeat case_match.
Qed.

Lemma elem_of_eligible db key now id w :
  (id, w) ∈ List.filter (λ item : string * LockWaiter, is_eligible key now item.2)
              (map_to_list db.(StoreTables.lock_waiters)) ↔
  db.(StoreTables.lock_waiters) !! id = Some w ∧ waits_for key w
  ∧ String.leb now w.(LockWaiter.deadline) = true.
Proof.
  rewrite list_elem_of_In, filter_In, <-list_elem_of_In, elem_of_map_to_list. simpl.
  unfold is_eligible, is_waiting, waits_for. rewrite !andb_true_iff, !bool_decide_eq_true. naive_solver.
Qed.

Lemma oldest_waiter_some db key now id w :
  oldest_waiter db key now = Some (id, w) →
  db.(StoreTables.lock_waiters) !! id = Some w ∧ waits_for key w
  ∧ String.leb now w.(LockWaiter.deadline) = true
  ∧ ∀ ida a, db.(StoreTables.lock_waiters) !! ida = Some a → waits_for key a →
      (a.(LockWaiter.sequence) < w.(LockWaiter.sequence))%Z → String.leb now a.(LockWaiter.deadline) = false.
Proof.
  unfold oldest_waiter. intros [Hin Hmin]%foldr_older.
  apply elem_of_eligible in Hin as (Hw & Hwf & Hd). split_and!; [done|done|done|].
  intros ida a Ha Hwa Hlt. destruct (String.leb now a.(LockWaiter.deadline)) eqn:Hle; [|done].
  assert ((LockWaiter.sequence w ≤ LockWaiter.sequence a)%Z); [|lia].
  apply (Hmin (ida, a)), elem_of_eligible. auto.
Qed.

Lemma oldest_waiter_none db key now id w :
  oldest_waiter db key now = None → db.(StoreTables.lock_waiters) !! id = Some w → waits_for key w →
  String.leb now w.(LockWaiter.deadline) = false.
Proof.
  unfold oldest_waiter. intros Hn Hw Hwf. destruct (String.leb now w.(LockWaiter.deadline)) eqn:Hle; [|done].
  assert ((id, w) ∈ List.filter (λ item : string * LockWaiter, is_eligible key now item.2)
    (map_to_list db.(StoreTables.lock_waiters))) as Hin by (apply elem_of_eligible; auto).
  destruct (List.filter _ _) as [|b l]; [by apply not_elem_of_nil in Hin|]. simpl in Hn.
  destruct (foldr older None l); simpl in Hn; by repeat case_match.
Qed.

Section transactions.
Context `{!Externals, !EngineExternals, !PolicyExternals, !StoreExternals}.
Implicit Types (db : StoreTables) (now : DateTime).

(** A part of a transaction at [now] keeps the invariant and moves the rows as it may. *)
Definition safe now db db' : Prop := locks_ok db' ∧ moves (to_rfc3339 now) db db'.

Lemma safe_refl now db : locks_ok db → safe now db db.
Proof. by split. Qed.

Lemma safe_trans now db db1 db2 : safe now db db1 → safe now db1 db2 → safe now db db2.
Proof. intros [_ Hm] [Hok Hm']. split; [done|by etrans]. Qed.

Lemma safe_step now db db1 db2 : safe now db db1 → (locks_ok db1 → safe now db1 db2) → safe now db db2.
Proof. intros Ha Hb. eapply safe_trans; [done|]. by apply Hb, Ha. Qed.

Lemma safe_appended now db db' run_id iteration payload event s s' :
  locks_ok db → lock_appended db db' run_id iteration payload event s s' →
  is_acquisition payload = false → safe now db db'.
Proof.
  intros Hok [Ha Hp Hi Hs Hs' Happ Hl Hre] Hn.
  split; [|eapply appends_moves; [done|apply Forall_singleton; by rewrite Hp]].
  eapply append_neutral; [done|done|done| |].
  - exists s'. by rewrite (appends_stored _ _ _ _ _ Ha), decide_True in Hs'.
  - constructor; [by rewrite Hp|constructor].
Qed.

(** ** Changes of the rows *)

Lemma safe_rows now db db' :
  locks_ok db → retables db db' →
  tables_ok db'.(StoreTables.lock_resources) db'.(StoreTables.lock_waiters) →
  entries_evolve resource_evolves db.(StoreTables.lock_resources) db'.(StoreTables.lock_resources) →
  (∃ run_id node_execution_id from to, status_evolves from to ∧ (from = WaiterStatus.waiting → ~ granted to)
     ∧ db'.(StoreTables.lock_waiters) = settle run_id node_execution_id from to <$> db.(StoreTables.lock_waiters))
  ∨ db'.(StoreTables.lock_waiters) = db.(StoreTables.lock_waiters) →
  (∀ run_id iteration lock_id lock o, holder db run_id iteration lock_id lock →
     owner_of db lock.(LockProjection.key) = Some o → ∃ o', owner_of db' lock.(LockProjection.key) = Some o' ∧ same_lease o o') →
  safe now db db'.
Proof.
  intros Hok Hr Ht Hres Hrows Hown. split; [by eapply locks_retable|].
  assert (lock_events db db') as Hle.
  { intros r. exists []. unfold stored_events. by rewrite (rt_events _ _ Hr), app_nil_r. }
  destruct Hrows as [(r & n & from & to & Hev & Hg & Hrows)|Hrows].
  - split; [| |done|apply Hr..].
    + apply retables_evolves; [done|done|rewrite Hrows; by apply settled_rows_evolve|].
      intros id Hid. by rewrite Hrows, lookup_fmap, Hid.
    + apply no_grant_fifo. intros id w'. rewrite Hrows, lookup_fmap. intros (w & Hw & ->)%fmap_Some Hgw.
      exists w. split; [done|]. destruct (settle_cases r n from to w) as [[Hst _]|(Hst & _ & _ & Hfrom)].
      * by rewrite Hst in Hgw.
      * destruct (decide (from = WaiterStatus.waiting)) as [Hwait|Hwait]; [by destruct (Hg Hwait); rewrite Hst in Hgw|].
        rewrite Hfrom. destruct Hev as [->|[Hw'|[-> _]]]; [by rewrite Hst in Hgw|done|by left].
  - split; [| |done|apply Hr..].
    + apply retables_evolves; [done|done|by rewrite Hrows|by rewrite Hrows].
    + apply no_grant_fifo. intros id w'. rewrite Hrows. by exists w'.
Qed.

Lemma same_lease_refl o : same_lease o o.
Proof. by split. Qed.

Lemma abandon_safe now db run_id node_execution_id to :
  locks_ok db → to = WaiterStatus.timed_out ∨ to = WaiterStatus.cancelled →
  safe now db (update_waiters db run_id node_execution_id WaiterStatus.waiting to).1.
Proof.
  intros Hok Hto. apply safe_rows; [done|done| | | |].
  - apply tables_abandon; [done|apply (lo_tables _ Hok)].
  - done.
  - left. exists run_id, node_execution_id, WaiterStatus.waiting, to. split_and!; [right; by left| |done].
    intros _ [|[]]; destruct Hto; congruence.
  - intros r i l lk o _ Ho. exists o. split; [done|apply same_lease_refl].
Qed.

(** The row of an owner that no history holds any more. *)
Lemma clear_safe now db db' key high_water o updated at_ to :
  locks_ok db → db.(StoreTables.lock_resources) !! key = Some (LockResource.mk high_water (Some o) updated) →
  (∀ run_id iteration lock_id lock, holder db run_id iteration lock_id lock → lock.(LockProjection.key) ≠ key) →
  to = WaiterStatus.released ∨ to = WaiterStatus.lost → retables db db' →
  db'.(StoreTables.lock_resources) = <[key := LockResource.mk high_water None at_]> db.(StoreTables.lock_resources) →
  db'.(StoreTables.lock_waiters) = settle o.(LockOwner.run_id) o.(LockOwner.node_execution_id) WaiterStatus.held to
    <$> db.(StoreTables.lock_waiters) →
  safe now db db'.
Proof.
  intros Hok Hres Hfree Hto Hr Hres' Hrows'. apply safe_rows; [done|done| | | |].
  - rewrite Hres', Hrows'. eapply tables_clear; [done|done|apply (lo_tables _ Hok)].
  - rewrite Hres'. eapply (entries_evolve_change _); [done|]. by split.
  - left. exists o.(LockOwner.run_id), o.(LockOwner.node_execution_id), WaiterStatus.held, to.
    split_and!; [|done|done]. right; right. destruct Hto; auto.
  - intros r i l lk o' Hh Ho'. exists o'. split; [|apply same_lease_refl]. unfold owner_of.
    rewrite Hres', lookup_insert_ne; [done|]. by eapply not_eq_sym, Hfree.
Qed.

Lemma extend_safe now db key f expires_at at_ db' changed :
  locks_ok db → extend_lease db key f expires_at at_ = (db', changed) → safe now db db'.
Proof.
  intros Hok [->|(hw & o & o' & u & Hres & Hsl & ->)]%extend_lease_ok; [by apply safe_refl|].
  apply safe_rows; [done|done| | |by right|].
  - eapply tables_extend; [done|done|apply (lo_tables _ Hok)].
  - eapply (entries_evolve_change _); [done|]. split; [done|]. intros o0 [= <-]. left. by exists o.
  - intros r i l lk o0 _. unfold owner_of. simpl. destruct (decide (lk.(LockProjection.key) = key)) as [->|Hk].
    + rewrite Hres, lookup_insert_eq. intros [= <-]. by exists o'.
    + rewrite lookup_insert_ne by done. intros Ho. exists o0. split; [done|apply same_lease_refl].
Qed.

(** ** The end of a lease *)

Lemma fold_events_ok events p :
  fold_events events = Ok p → ∃ s, from_events events = Ok s ∧ p = s.(ProjectionFoldState.projection).
Proof. unfold fold_events. intros. invert_ok. eauto. Qed.

Lemma owner_of_some db key o :
  owner_of db key = Some o →
  ∃ high_water updated, db.(StoreTables.lock_resources) !! key = Some (LockResource.mk high_water (Some o) updated).
Proof. unfold owner_of. intros ([hw ow u] & Hr & Ho)%bind_Some. simpl in Ho. subst. eauto. Qed.

Lemma settle_lost_safe now db key owner message db' :
  locks_ok db → owner_of db key = Some owner →
  (∀ run_id iteration lock_id lock, holder db run_id iteration lock_id lock → lock.(LockProjection.key) ≠ key) →
  settle_lost db key owner now message = Ok db' → safe now db db' ∧ owner_of db' key = None.
Proof.
  intros Hok Hown Hfree. unfold settle_lost. destruct (clear_owner _ _ _ _) as [db1 changed] eqn:Hc.
  intros Hs. invert_ok. simplify_guards. subst.
  apply clear_owner_true in Hc as (hw & o & u & Hres & _ & ->).
  assert (o = owner) as -> by (unfold owner_of in Hown; rewrite Hres in Hown; by injection Hown).
  split; [by eapply clear_safe; eauto|]. unfold owner_of. simpl. by rewrite lookup_insert_eq.
Qed.

(** A lease that an event ends leaves no holder of its key. *)
Lemma ended_free db db' run_id iteration payload event s s' lock_id lock key :
  locks_ok db → lock_appended db db' run_id iteration payload event s s' → ended_lock payload = Some lock_id →
  holds s.(ProjectionFoldState.projection) iteration lock_id lock → lock.(LockProjection.key) = key →
  ∀ r i id l, holder db' r i id l → l.(LockProjection.key) ≠ key.
Proof.
  intros Hok Hla He Hh Hk r i id l Hh' Hk'. pose proof Hla as [Ha Hp Hi Hs Hs' Happ].
  assert (is_acquisition payload = false) as Hacq by (by destruct payload).
  assert (holder db r i id l) as Hold.
  { eapply holder_before; [done|done| |done]. constructor; [by rewrite Hp|constructor]. }
  destruct (lo_exclusive _ Hok r i id l run_id iteration lock_id lock) as (-> & -> & ->);
    [done|by exists s|congruence|]. destruct Hh' as (s1 & Hs1 & Hh1). rewrite Hs' in Hs1. apply Ok_inj in Hs1 as <-.
  rewrite <-Hp in He. rewrite <-Hi in Hh1. by eapply (holds_ended _ _ _ _ _ Happ He).
Qed.

Lemma owner_of_frame db db' key :
  db'.(StoreTables.lock_resources) = db.(StoreTables.lock_resources) → owner_of db' key = owner_of db key.
Proof. unfold owner_of. by intros ->. Qed.

Lemma expire_safe now db key db' expired :
  locks_ok db → expire_lock_owner db key now = Ok (db', expired) →
  safe now db db' ∧ if expired then owner_of db' key = None else db' = db.
Proof.
  intros Hok. unfold expire_lock_owner. destruct (owner_of db key) as [o|] eqn:Hown.
  2: { intros [= <- <-]. split; [by apply safe_refl|done]. }
  intros He. apply result_bind_ok in He as (expired_at & _ & He).
  destruct (now <? expired_at)%Z; [apply Ok_inj in He as [= <- <-]; split; [by apply safe_refl|done]|].
  destruct (programmatic_lock_lease_ms o.(LockOwner.node_execution_id)) as [ms|] eqn:Hprog.
  { simpl in He. apply result_bind_ok in He as (db1 & Hs & [= <- <-]%Ok_inj).
    eapply settle_lost_safe; [done|done| |done]. intros r i id l Hh Hk.
    destruct (lo_holder _ Hok _ _ _ _ Hh) as (Hp & o' & Ho' & Hl). rewrite Hk, Hown in Ho'. simplify_eq.
    by rewrite <-(lb_execution _ _ _ Hl), Hprog in Hp. }
  simpl in He. apply result_bind_ok in He as (workflow & _ & He).
  apply result_bind_ok in He as (events & ->%load_events_ok & He).
  apply result_bind_ok in He as (projection & Hf%map_err_ok & He).
  apply fold_events_ok in Hf as (s & Hs & ->).
  apply result_bind_ok in He as ([descriptor iteration] & _ & He).
  apply result_bind_ok in He as (held & Hheld%ok_or_ok & He).
  apply result_bind_ok in He as ([] & Hg%fail_if_ok & He). simplify_guards.
  apply result_bind_ok in He as (version & _ & He).
  apply result_bind_ok in He as ([db1 events1] & Ha & He).
  apply result_bind_ok in He as (db2 & Hl & [= <- <-]%Ok_inj).
  apply append_lock_event_spec in Ha as (_ & _ & event & s0 & s0' & Hla); [|by eauto|done|done].
  assert (s0 = s) as -> by (pose proof (la_before _ _ _ _ _ _ _ _ Hla); congruence).
  assert (safe now db db1) as Hsafe by (by eapply safe_appended).
  eapply settle_lost_safe in Hl as [Hsafe2 Hnone]; [|apply Hsafe|..].
  - split; [by eapply safe_trans|done].
  - by rewrite (owner_of_frame db db1), Hown by apply (la_appends _ _ _ _ _ _ _ _ Hla).
  - eapply ended_free; [done|done|done| |done]. by split.
Qed.

(** ** Grants *)

(** Both tables of a grant are changed before the event is appended. *)
Lemma grant_waiter_ok now db key id w db' :
  locks_ok db → db.(StoreTables.lock_waiters) !! id = Some w → waits_for key w →
  grant_waiter db key now id w = Ok db' →
  ∃ o high_water new, grants (to_rfc3339 now) db db' key id w o high_water new.
Proof.
  intros Hok Hrow [Hwait Hkey] Hg. unfold grant_waiter in Hg.
  apply result_bind_ok in Hg as ([[descriptor iteration] lease_ms] & Hlease & Hg).
  apply result_bind_ok in Hg as (resource & Hres%ok_or_ok & Hg).
  apply result_bind_ok in Hg as (token & Htok%ok_or_ok & Hg). cbv zeta in Hg.
  assert (token = (resource.(LockResource.fencing_high_water) + 1)%Z) as Htoken.
  { unfold i64_checked_add in Htok. destruct (in_i64 _); [by injection Htok|done]. }
  apply result_bind_ok in Hg as (expires_at & _ & Hg).
  match type of Hg with context [grant_owner _ _ _ ?owner _] => set (o := owner) in * end.
  apply result_bind_ok in Hg as ([db1 changed] & Ho & Hg).
  apply result_bind_ok in Hg as ([] & Hch%fail_if_ok & Hg). simplify_guards. subst changed.
  apply grant_owner_true in Ho as [Hfree ->].
  destruct (hold_waiter _ _) as [db2 n] eqn:Hhold. apply result_bind_ok in Hg as ([] & Hn%fail_if_ok & Hg).
  simplify_guards. apply Nat.eqb_eq in Hn as ->.
  apply hold_waiter_one in Hhold as (w0 & Hw0 & _ & ->). simpl in Hw0. rewrite Hrow in Hw0. injection Hw0 as <-.
  destruct descriptor as [lock_id|].
  - apply result_bind_ok in Hg as (events & ->%load_events_ok & Hg).
    apply result_bind_ok in Hg as (version & _ & Hg).
    apply result_bind_ok in Hg as ([db3 events3] & Ha & [= <-]%Ok_inj).
    apply append_lock_event_spec in Ha as (_ & _ & event & s & s' & [Hap Hp Hi Hs Hs' Happ _ Hre]);
      [|apply (lo_folds _ Hok)|done|done].
    pose proof Hap as [He Hd Hr Hr' Hw' Hcl Htr _ _].
    exists o, resource.(LockResource.fencing_high_water), [event]. split; try done.
    + eapply grant_recorded; [exact Hs|exact Happ|exact Hp|done..|]. simpl.
      unfold waiter_lease in Hlease. by destruct (programmatic_lock_lease_ms _).
    + eapply indexed_append; [|exact Hap|done]. by eapply indexed_frame; [apply (lo_indexed _ Hok)|..].
  - apply Ok_inj in Hg as <-. exists o, resource.(LockResource.fencing_high_water), []. split; try done; [constructor|].
    by eapply indexed_frame; [apply (lo_indexed _ Hok)|..].
Qed.

Lemma grant_oldest_safe now db key db' granted_run :
  locks_ok db → grant_oldest_lock_waiter db key now = Ok (db', granted_run) →
  safe now db db'
  ∧ (is_Some (owner_of db' key)
     ∨ ∀ id w, db'.(StoreTables.lock_waiters) !! id = Some w → waits_for key w →
         String.leb (to_rfc3339 now) w.(LockWaiter.deadline) = false).
Proof.
  intros Hok Hg. unfold grant_oldest_lock_waiter in Hg.
  apply result_bind_ok in Hg as ([db1 expired] & [Hsafe _]%expire_safe & Hg); [|done].
  destruct (owner_of db1 key) as [o|] eqn:Hown; simpl in Hg.
  { apply Ok_inj in Hg as [= <- <-]. split; [done|]. left. by exists o. }
  destruct (oldest_waiter db1 key (to_rfc3339 now)) as [[id w]|] eqn:Hold.
  - apply result_bind_ok in Hg as (db2 & Hw & [= <- <-]%Ok_inj).
    apply oldest_waiter_some in Hold as (Hrow & Hwf & _ & Hmin).
    apply grant_waiter_ok in Hw as (o & hw & new & Hgr); [|apply Hsafe|done|done]. split.
    + eapply safe_trans; [done|]. split; [eapply locks_grant; [apply Hsafe|done]|by eapply grant_moves].
    + left. exists o. unfold owner_of. by rewrite (gr_resources _ _ _ _ _ _ _ _ _ Hgr), lookup_insert_eq.
  - apply Ok_inj in Hg as [= <- <-]. split; [done|]. right. intros. by eapply oldest_waiter_none.
Qed.

(** ** Registration *)

Lemma count_filter (rows : gmap string LockWaiter) (f : LockWaiter → bool) (P : LockWaiter → Prop)
    `{!∀ w, Decision (P w)} :
  (∀ w, f w = true ↔ P w) →
  length (List.filter (λ item : string * LockWaiter, f item.2) (map_to_list rows)) = size (waiters_of rows P).
Proof.
  intros Hf. pose proof (NoDup_fst_map_to_list rows) as Hnd.
  set (l := List.filter _ _).
  assert (waiters_of rows P = list_to_set l.*1) as ->.
  { apply set_eq. intros id. rewrite elem_of_waiters_of, elem_of_list_to_set, list_elem_of_fmap. unfold l. split.
    - intros (w & Hw & HP). exists (id, w). split; [done|].
      rewrite list_elem_of_In, filter_In, <-list_elem_of_In, elem_of_map_to_list. by rewrite Hf.
    - intros ([id' w] & -> & Hin). rewrite list_elem_of_In, filter_In, <-list_elem_of_In, elem_of_map_to_list in Hin.
      rewrite Hf in Hin. by exists w. }
  rewrite size_list_to_set, length_fmap; [done|]. unfold l. clear l Hf. revert Hnd.
  induction (map_to_list rows) as [|[id w] l IH]; simpl; [done|]. intros [Hni Hnd]%NoDup_cons.
  destruct (f w); simpl; [|by apply IH]. apply NoDup_cons. split; [|by apply IH].
  intros (item & -> & Hin)%list_elem_of_fmap. apply Hni, list_elem_of_fmap. exists item. split; [done|].
  apply list_elem_of_In in Hin as [Hin _]%filter_In. by apply list_elem_of_In.
Qed.

Lemma count_waiters_size db key :
  count_waiters db (λ w, w.(LockWaiter.key) == key)
  = N.of_nat (size (waiters_of db.(StoreTables.lock_waiters) (waits_for key))).
Proof.
  unfold count_waiters. f_equal.
  rewrite <-(count_filter _ (λ w : LockWaiter, is_waiting w && bool_decide (LockWaiter.key w = key))); [done|].
  intros w. unfold is_waiting, waits_for. by rewrite andb_true_iff, !bool_decide_eq_true.
Qed.

Lemma find_waiter_none db run_id node_execution_id id w :
  find_waiter db run_id node_execution_id = None → db.(StoreTables.lock_waiters) !! id = Some w →
  w.(LockWaiter.run_id) = run_id → w.(LockWaiter.node_execution_id) = node_execution_id → False.
Proof.
  unfold find_waiter. intros Hf Hw Hr Hn. eapply (find_None_elem _ _ w) in Hf; [|apply elem_of_btree_values; eauto].
  simpl in Hf. by rewrite !bool_decide_true in Hf.
Qed.

Lemma max_sequence_le db key id w :
  db.(StoreTables.lock_waiters) !! id = Some w → w.(LockWaiter.key) = key →
  (w.(LockWaiter.sequence) ≤ default 0 (max_sequence db key))%Z.
Proof.
  intros Hw Hk. unfold max_sequence.
  cut (∃ m, map_fold (λ _ (w : LockWaiter) acc, if w.(LockWaiter.key) == key
      then Some (from_option (Z.max w.(LockWaiter.sequence)) w.(LockWaiter.sequence) acc) else acc)
    None db.(StoreTables.lock_waiters) = Some m ∧ (w.(LockWaiter.sequence) ≤ m)%Z).
  { intros (m & -> & ?). done. }
  revert Hw. apply (map_fold_weak_ind (λ acc m, m !! id = Some w →
    ∃ n, acc = Some n ∧ (w.(LockWaiter.sequence) ≤ n)%Z)); [done|].
  intros id0 w0 m acc _ IH [[<- <-]|[_ Hw]]%lookup_insert_Some.
  - rewrite bool_decide_true by done. destruct acc; simpl; eexists; split; [done|lia|done|lia].
  - destruct (IH Hw) as (n & -> & Hle). case_bool_decide; simpl; eexists; split; [done|lia|done|lia].
Qed.

Lemma capacity_room db key :
  ensure_lock_wait_capacity db key = Ok tt →
  (N.of_nat (size (waiters_of db.(StoreTables.lock_waiters) (waits_for key))) < LOCK_WAITERS_PER_KEY_LIMIT)%N.
Proof.
  unfold ensure_lock_wait_capacity. rewrite count_waiters_size. intros Hc. invert_ok; simplify_guards; [|done].
  unfold LOCK_WAITERS_PER_KEY_LIMIT. lia.
Qed.

Lemma insert_resource_safe now db key at_ : locks_ok db → safe now db (insert_resource db key at_).
Proof.
  intros Hok. unfold insert_resource. destruct (_ !! key) as [res|] eqn:Hres; [by apply safe_refl|].
  apply safe_rows; [done|done| | |by right|].
  - apply tables_resource; [done|apply (lo_tables _ Hok)].
  - by apply (entries_evolve_new _).
  - intros r i l lk o _ Ho. exists o. split; [|apply same_lease_refl]. unfold owner_of in *. simpl.
    rewrite lookup_insert_ne; [done|]. intros Hk. by rewrite <-Hk, Hres in Ho.
Qed.

Lemma enqueue_safe now db run_id execution_identity key registered_at deadline digest db' sequence :
  locks_ok db → enqueue db run_id execution_identity key registered_at deadline digest = Ok (db', sequence) →
  safe now db db' ∧ db'.(StoreTables.run_events) = db.(StoreTables.run_events).
Proof.
  intros Hok He. unfold enqueue, insert_waiter in He. set (db0 := insert_resource db key _) in *.
  pose proof (insert_resource_safe now db key (to_rfc3339 registered_at) Hok) as Hsafe. fold db0 in Hsafe.
  invert_ok. simplify_eq. simplify_guards.
  match goal with H : ensure_lock_wait_capacity _ _ = _ |- _ => apply capacity_room in H as Hroom end.
  match goal with H : is_some (find_waiter _ _ _) = false |- _ => apply is_some_false in H as Hfind end.
  match goal with H : is_some (_ !! waiter_id_of _ _) = false |- _ => apply is_some_false in H as Hnone end.
  match goal with H : i64_checked_add ?a _ = Some _ |- _ => assert (sequence = (a + 1)%Z) as Hseq
    by (unfold i64_checked_add in H; destruct (in_i64 _); [by injection H|done]) end.
  split; [|unfold db0, insert_resource; by case_match]. eapply safe_trans; [done|]. split; [|split; [| | |done..]].
  - apply (locks_retable db0); [apply Hsafe|done| |].
    + apply tables_enqueue; [done|done| |done|apply (lo_tables _ (proj1 Hsafe))].
      intros id0 w0 Hw0 Hr Hn. by eapply find_waiter_none.
    + intros r i l lk o _ Ho. exists o. split; [done|apply same_lease_refl].
  - split; try done.
    + by apply (entries_evolve_new _).
    + intros id w id0 w0 Hid Hn Hw0 Hk. simpl in Hid. apply lookup_insert_Some in Hid as [[<- <-]|[_ Hw]]; [|congruence]. simpl in *.
      pose proof (max_sequence_le _ _ _ _ Hw0 Hk). lia.
  - apply no_grant_fifo. intros id w Hw Hg. simpl in Hw.
    apply lookup_insert_Some in Hw as [[_ <-]|[_ Hw]]; [by destruct Hg as [|[]]|by exists w].
  - intros r. exists []. by rewrite app_nil_r.
Qed.

(** ** Transactions *)

Lemma hand_over_safe now db key db' : locks_ok db → hand_over db key now = Ok db' → safe now db db'.
Proof.
  intros Hok Hh. unfold hand_over in Hh.
  apply result_bind_ok in Hh as ([db1 b] & [Hs _]%expire_safe & Hh); [|done].
  apply result_bind_ok in Hh as ([db2 g] & Hg & [= <-]%Ok_inj).
  eapply safe_step; [done|]. intros Hok1. by apply grant_oldest_safe in Hg as [? _].
Qed.

(** An event of a lock that grants nothing, appended to the whole history. *)
Lemma append_event_safe now db events run_id at_ version iteration payload db' events' :
  locks_ok db → events `prefix_of` stored_events db run_id →
  append_lock_event db events run_id at_ version iteration payload = Ok (db', events') →
  lock_event payload = true → is_acquisition payload = false →
  safe now db db' ∧ events' = stored_events db' run_id.
Proof.
  intros Hok Hpre Ha Hl Hn. apply append_lock_event_spec in Ha as (_ & -> & event & s & s' & Hla);
    [|apply (lo_folds _ Hok)|done|done].
  split; [by eapply safe_appended|done].
Qed.

Lemma register_safe db run_id lock_id key execution_identity iteration registered_at deadline db' p :
  locks_ok db →
  register_lock_waiter_atomically_scoped db run_id lock_id key execution_identity iteration registered_at
    deadline = Ok (db', p) → safe registered_at db db'.
Proof.
  intros Hok Hr. unfold register_lock_waiter_atomically_scoped in Hr.
  do 3 (apply result_bind_ok in Hr as (? & _ & Hr)). apply result_bind_ok in Hr as (descriptor & _ & Hr).
  apply result_bind_ok in Hr as ([] & _ & Hr). apply result_bind_ok in Hr as (events & ->%load_events_ok & Hr).
  do 2 (apply result_bind_ok in Hr as (? & _ & Hr)).
  apply result_bind_ok in Hr as (db1 & Hq & Hr). apply result_bind_ok in Hr as ([db2 g] & Hg & Hr).
  do 2 (apply result_bind_ok in Hr as (? & _ & Hr)). apply Ok_inj in Hr as [= <- _].
  eapply (safe_step _ _ db1).
  2: { intros Hok1. by apply grant_oldest_safe in Hg as [? _]. }
  destruct (find_waiter db run_id execution_identity) as [w|].
  { invert_ok. by apply safe_refl. }
  apply result_bind_ok in Hq as ([db0 sequence] & He & Hq).
  apply result_bind_ok in Hq as ([dba ea] & Ha & [= <-]%Ok_inj).
  apply (enqueue_safe registered_at) in He as [Hs0 He0]; [|done].
  eapply safe_step; [done|]. intros Hok0. eapply append_event_safe in Ha as [? _]; [done|done| |done|done].
  unfold stored_events. by rewrite He0.
Qed.

(** A release, from the state in which the lease is still held. *)
Record releases (now : DateTime) (db db' : StoreTables) (run_id lock_id : string)
    (iteration : option ForEachIterationScope) (held : LockProjection) (o : LockOwner)
    (s' : ProjectionFoldState) : Prop := {
  rl_owner : owner_of db held.(LockProjection.key) = Some o;
  rl_leased : leased_by run_id held o;
  rl_folds : from_events (stored_events db' run_id) = Ok s';
  rl_released : ∃ released, projected_lock s'.(ProjectionFoldState.projection) iteration lock_id = Some released
    ∧ released.(LockProjection.status) = LockStatus.Released ∧ released.(LockProjection.key) = held.(LockProjection.key)
    ∧ released.(LockProjection.lease_id) = Some o.(LockOwner.lease_id)
    ∧ released.(LockProjection.fencing_token) = Some (i64_to_string o.(LockOwner.fencing_token));
  rl_free : owner_of db' held.(LockProjection.key) = None;
  rl_safe : safe now db db';
}.

(** What the event of a release does to the lock. *)
Lemma released_lock s event s' data :
  apply s event = Ok s' → event.(RunEvent.payload) = RunEventPayload.LockReleased data →
  ∃ released, projected_lock s'.(ProjectionFoldState.projection) event.(RunEvent.iteration) data.(LockReleasedData.lock_id) = Some released
    ∧ released.(LockProjection.status) = LockStatus.Released ∧ released.(LockProjection.key) = data.(LockReleasedData.key)
    ∧ released.(LockProjection.lease_id) = Some data.(LockReleasedData.lease_id)
    ∧ released.(LockProjection.fencing_token) = Some data.(LockReleasedData.fencing_token).
Proof.
  intros [p' Ha]%apply_ok Hp. pose proof (applied_dispatch _ _ _ _ Ha) as Hd.
  rewrite (applied_projection _ _ _ _ Ha). setoid_rewrite projected_lock_sequence.
  destruct (in_iteration event) eqn:Hi.
  - apply dispatch_iteration in Hd as [Hd _]; [|done].
    apply apply_iteration_scoped_event_ok in Hd as (scope & loop & e & e' & [_ Hsc Hloop _ _ Hex Hap ->]).
    rewrite Hsc. unfold apply_to_execution in Hap. rewrite Hp in Hap. invert_arm Hap. simplify_guards.
    eexists. split; [apply projected_lock_scoped; eexists _, _; cbn; rewrite lookup_insert_eq; split; [done|];
      cbn; rewrite lookup_insert_eq; split; [done|]; cbn; by rewrite lookup_insert_eq|]. by cbn.
  - apply dispatch_top in Hd; [|done]. destruct (RunEvent.iteration event) eqn:Hit.
    { assert (lock_event event.(RunEvent.payload) = true) as Hle by (by rewrite Hp).
      by rewrite (scoped_lock_event _ _ Hle Hit) in Hi. }
    unfold apply_payload in Hd. rewrite Hp in Hd. cbn beta iota zeta in Hd. invert_handler Hd. simplify_guards.
    simplify_eq. eexists. cbn. rewrite lookup_insert_eq. split; [done|]. by cbn.
Qed.

Lemma release_ok db run_id lock_id iteration result released_at db' outcome :
  locks_ok db →
  release_lock_atomically_scoped db run_id lock_id iteration result released_at = Ok (db', outcome) →
  ∃ db1, safe released_at db db1 ∧
    match outcome with
    | Ok p => ∃ held o db4 s g, releases released_at db1 db4 run_id lock_id iteration held o s
        ∧ p = s.(ProjectionFoldState.projection) ∧ grant_oldest_lock_waiter db4 held.(LockProjection.key) released_at = Ok (db', g)
    | _ => db' = db1
    end.
Proof.
  intros Hok Hr. unfold release_lock_atomically_scoped in Hr.
  do 3 (apply result_bind_ok in Hr as (? & _ & Hr)). apply result_bind_ok in Hr as (initial_lock & _ & Hr).
  apply result_bind_ok in Hr as ([] & _ & Hr).
  apply result_bind_ok in Hr as ([db1 g1] & [Hs1 _]%grant_oldest_safe & Hr); [|done].
  exists db1. split; [done|]. apply proj1 in Hs1. clear Hok. rename Hs1 into Hok.
  apply result_bind_ok in Hr as (events & ->%load_events_ok & Hr).
  apply result_bind_ok in Hr as (projection & (s & Hs & ->)%map_err_ok%fold_events_ok & Hr).
  apply result_bind_ok in Hr as (held & Hheld%ok_or_ok & Hr).
  destruct (LockProjection.status held != LockStatus.Held) eqn:Hst.
  { by apply Ok_inj in Hr as [= <- <-]. }
  apply negb_false_iff, bool_decide_eq_true in Hst.
  apply result_bind_ok in Hr as (lease_id & Hlease%ok_or_ok & Hr).
  apply result_bind_ok in Hr as (token & Htok%ok_or_ok & Hr).
  destruct (clear_owner _ _ _ _) as [db2 changed] eqn:Hc.
  apply result_bind_ok in Hr as ([] & Hch%fail_if_ok & Hr). simplify_guards. subst changed.
  apply clear_owner_true in Hc as (hw & o & u & Hres & _ & ->).
  apply result_bind_ok in Hr as (version & _ & Hr).
  apply result_bind_ok in Hr as ([db4 events4] & Ha & Hr).
  apply result_bind_ok in Hr as ([db5 g5] & Hg & Hr).
  apply result_bind_ok in Hr as (p & (s5 & Hs5 & ->)%map_err_ok%fold_events_ok & [= <- <-]%Ok_inj).
  assert (holder db1 run_id iteration lock_id held) as Hh by (exists s; by split).
  destruct (lo_holder _ Hok _ _ _ _ Hh) as (_ & o' & Ho' & Hlb).
  assert (o' = o) as -> by (unfold owner_of in Ho'; rewrite Hres in Ho'; by injection Ho').
  apply append_lock_event_spec in Ha as (_ & -> & event & s0 & s0' & Hla); [|by apply (lo_folds _ Hok)|done|done].
  assert (s0 = s) as -> by (pose proof (la_before _ _ _ _ _ _ _ _ Hla) as Hb; cbn in Hb; unfold stored_events in *;
    cbn in Hb; congruence).
  destruct Hla as [[He Hd Hru Hre Hwa] Hp Hi Hb Hb' Happ]. rewrite Hs5 in Hb'. apply Ok_inj in Hb' as ->.
  exists held, o, db4, s0', g5. split; [|done]. split; [done|done|done|..].
  - destruct (released_lock _ _ _ _ Happ Hp) as (l & Hl & Hls & Hlk & Hll & Hlt). rewrite Hi in Hl. exists l.
    split_and!; [done|done|done|..]; [rewrite Hll|rewrite Hlt]; cbn.
    + by rewrite <-Hlease, (lb_lease _ _ _ Hlb).
    + by rewrite <-Htok, (lb_token _ _ _ Hlb).
  - unfold owner_of. rewrite Hre. cbn. by rewrite lookup_insert_eq.
  - set (dbe := db4 <|StoreTables.lock_resources := db1.(StoreTables.lock_resources)|>
                    <|StoreTables.lock_waiters := db1.(StoreTables.lock_waiters)|>).
    assert (lock_appended db1 dbe run_id iteration _ event s s0') as Hla by (by split; [split|exact Hp|..]).
    assert (safe released_at db1 dbe) as Hse by (by eapply safe_appended).
    eapply safe_trans; [exact Hse|]. eapply clear_safe; [apply Hse|exact Hres| |by left|done|exact Hre|].
    + by eapply ended_free.
    + rewrite Hwa, (lb_run _ _ _ Hlb), (lb_execution _ _ _ Hlb). done.
Qed.

Lemma release_safe db run_id lock_id iteration result released_at db' outcome :
  locks_ok db →
  release_lock_atomically_scoped db run_id lock_id iteration result released_at = Ok (db', outcome) →
  safe released_at db db'.
Proof.
  intros Hok (db1 & Hs & Ho)%release_ok; [|done]. destruct outcome as [p| |]; [|by subst..].
  destruct Ho as (held & o & db4 & s & g & Hrl & _ & Hg). eapply safe_trans; [done|].
  eapply safe_step; [apply (rl_safe _ _ _ _ _ _ _ _ _ Hrl)|]. intros Hok4. by apply grant_oldest_safe in Hg as [? _].
Qed.

Lemma renew_safe db run_id lock_id iteration now db' outcome :
  locks_ok db → renew_lock_lease_atomically_scoped db run_id lock_id iteration now = Ok (db', outcome) →
  safe now db db'.
Proof.
  intros Hok Hr. unfold renew_lock_lease_atomically_scoped in Hr. invert_ok; simplify_eq;
    first [ by apply safe_refl | by eapply hand_over_safe | by eapply extend_safe ].
Qed.

Lemma managed_effect_safe db run_id node_id invocation_id now db' current :
  locks_ok db → managed_effect_has_current_lock db run_id node_id invocation_id now = Ok (db', current) →
  safe now db db'.
Proof.
  intros Hok Hr. unfold managed_effect_has_current_lock in Hr. invert_ok; simplify_eq;
    first [ by apply safe_refl | by eapply hand_over_safe ].
Qed.

Lemma timeout_safe db run_id lock_id iteration now db' p :
  locks_ok db → timeout_lock_waiter_atomically_scoped db run_id lock_id iteration now = Ok (db', p) →
  safe now db db'.
Proof.
  intros Hok Hr. unfold timeout_lock_waiter_atomically_scoped in Hr.
  apply result_bind_ok in Hr as ([] & _ & Hr). apply result_bind_ok in Hr as (events & ->%load_events_ok & Hr).
  apply result_bind_ok in Hr as (projection & _ & Hr). apply result_bind_ok in Hr as (waiting & _ & Hr).
  destruct (_ == LockStatus.AcquireTimedOut); [apply Ok_inj in Hr as [= <- _]; by apply safe_refl|].
  apply result_bind_ok in Hr as ([] & _ & Hr).
  destruct (update_waiters _ _ _ _ _) as [db1 n] eqn:Hu.
  apply result_bind_ok in Hr as ([] & _ & Hr). apply result_bind_ok in Hr as (version & _ & Hr).
  apply result_bind_ok in Hr as ([db2 events2] & Ha & Hr). apply result_bind_ok in Hr as ([db3 g] & Hg & Hr).
  apply result_bind_ok in Hr as (? & _ & [= <- _]%Ok_inj).
  pose proof (abandon_safe now db run_id waiting.(LockProjection.execution_identity) WaiterStatus.timed_out Hok) as Hs1.
  rewrite Hu in Hs1. eapply safe_step; [apply Hs1; by left|]. simpl. intros Hok1.
  eapply (append_event_safe now) in Ha as [Hs2 _]; [|done| |done|done].
  - eapply safe_step; [done|]. intros Hok2. by apply grant_oldest_safe in Hg as [? _].
  - unfold update_waiters in Hu. by injection Hu as <- _.
Qed.

Lemma cancel_waiting_safe run_id cancellation_id now version waiting : ∀ db events db' events',
  locks_ok db → events `prefix_of` stored_events db run_id →
  cancel_waiting db events run_id cancellation_id now version waiting = Ok (db', events') → safe now db db'.
Proof.
  induction waiting as [|[lock iteration] waiting IH]; intros db events db' events' Hok Hpre Hc; cbn [cancel_waiting] in Hc.
  { apply Ok_inj in Hc as [= <- _]. by apply safe_refl. }
  destruct (update_waiters _ _ _ _ _) as [db1 n] eqn:Hu.
  apply result_bind_ok in Hc as ([] & _ & Hc). apply result_bind_ok in Hc as ([db2 events2] & Ha & Hc).
  apply result_bind_ok in Hc as ([db3 g] & Hg & Hc).
  pose proof (abandon_safe now db run_id lock.(LockProjection.execution_identity) WaiterStatus.cancelled Hok) as Hs1.
  rewrite Hu in Hs1. eapply safe_step; [apply Hs1; by right|]. simpl. intros Hok1.
  eapply (append_event_safe now) in Ha as [Hs2 ->]; [|done| |done|done].
  2: { unfold update_waiters in Hu. by injection Hu as <- _. }
  eapply safe_step; [done|]. intros Hok2. apply grant_oldest_safe in Hg as [Hs3 _]; [|done].
  eapply safe_step; [done|]. intros Hok3. eapply IH; [done| |done].
  apply (ev_prefix _ _ (mv_evolves _ _ _ (proj2 Hs3))).
Qed.

Lemma cancel_safe db run_id cancellation_id now db' p :
  locks_ok db → cancel_lock_waiters_atomically db run_id cancellation_id now = Ok (db', p) → safe now db db'.
Proof.
  intros Hok Hr. unfold cancel_lock_waiters_atomically in Hr.
  apply result_bind_ok in Hr as ([] & _ & Hr). apply result_bind_ok in Hr as (events & ->%load_events_ok & Hr).
  do 3 (apply result_bind_ok in Hr as (? & _ & Hr)). apply result_bind_ok in Hr as ([db1 events1] & Hc & Hr).
  apply result_bind_ok in Hr as (? & _ & [= <- _]%Ok_inj). by eapply cancel_waiting_safe.
Qed.

(** *** Programmatic leases *)

Lemma acquire_programmatic_safe db run_id node_id invocation_id session_id key acquire_timeout_ms lease_ms now db' p :
  locks_ok db →
  acquire_programmatic_lock_atomically db run_id node_id invocation_id session_id key acquire_timeout_ms lease_ms
    now = Ok (db', p) → safe now db db'.
Proof.
  intros Hok Hr. unfold acquire_programmatic_lock_atomically in Hr.
  do 9 (apply result_bind_ok in Hr as (? & _ & Hr)).
  apply result_bind_ok in Hr as (db1 & Hq & Hr). apply result_bind_ok in Hr as ([db2 g] & Hg & Hr).
  apply result_bind_ok in Hr as (? & _ & [= <- _]%Ok_inj). eapply (safe_step _ _ db1).
  2: { intros Hok1. by apply grant_oldest_safe in Hg as [? _]. }
  destruct (find_waiter _ _ _); invert_ok; [by apply safe_refl|].
  match goal with He : enqueue _ _ _ _ _ _ _ = _ |- _ => by apply (enqueue_safe now) in He as [? _] end.
Qed.

Lemma programmatic_state_safe db run_id session_id lease_ms now db' p :
  locks_ok db → programmatic_lock_state db run_id session_id lease_ms now = Ok (db', p) → safe now db db'.
Proof.
  intros Hok Hr. unfold programmatic_lock_state in Hr. apply result_bind_ok in Hr as ([] & _ & Hr).
  apply result_bind_ok in Hr as (db1 & Hq & Hr). apply result_bind_ok in Hr as (? & _ & [= <- _]%Ok_inj).
  destruct (find_waiter _ _ _) as [w|]; [|apply Ok_inj in Hq as <-; by apply safe_refl].
  apply result_bind_ok in Hq as ([db2 g] & [Hs _]%grant_oldest_safe & Hq); [|done].
  eapply safe_step; [done|]. intros Hok2. destruct (is_some_and _ _); [|apply Ok_inj in Hq as <-; by apply safe_refl].
  apply result_bind_ok in Hq as (deadline & _ & Hq).
  destruct (deadline <=? now)%Z; [|apply Ok_inj in Hq as <-; by apply safe_refl].
  apply result_bind_ok in Hq as ([db3 g3] & Hg & [= <-]%Ok_inj).
  eapply safe_step; [by apply abandon_safe; [|left]|]. intros Hok3. by apply grant_oldest_safe in Hg as [? _].
Qed.

Lemma renew_programmatic_safe db run_id session_id lease_ms now db' outcome :
  locks_ok db → renew_programmatic_lock_atomically db run_id session_id lease_ms now = Ok (db', outcome) →
  safe now db db'.
Proof.
  intros Hok Hr. unfold renew_programmatic_lock_atomically in Hr. invert_ok; simplify_eq;
    first [ by apply safe_refl | by eapply hand_over_safe | by eapply extend_safe ].
Qed.

Lemma release_programmatic_safe db run_id session_id lease_ms now db' released :
  locks_ok db → is_some (programmatic_lock_lease_ms (programmatic_lock_execution_identity session_id lease_ms)) = true →
  release_programmatic_lock_atomically db run_id session_id lease_ms now = Ok (db', released) → safe now db db'.
Proof.
  intros Hok Hprog Hr. unfold release_programmatic_lock_atomically in Hr.
  apply result_bind_ok in Hr as ([] & _ & Hr).
  destruct (find_waiter _ _ _) as [w|]; [|apply Ok_inj in Hr as [= <- _]; by apply safe_refl].
  apply result_bind_ok in Hr as ([db1 g1] & [Hs1 _]%grant_oldest_safe & Hr); [|done].
  eapply safe_step; [done|]. clear Hok Hs1. intros Hok.
  destruct (clear_owner _ _ _ _) as [db2 changed] eqn:Hc. destruct changed.
  2: { apply clear_owner_false in Hc as ->. apply Ok_inj in Hr as [= <- _]. by apply safe_refl. }
  apply clear_owner_true in Hc as (hw & o & u & Hres & Hown & ->). unfold is_owner in Hown. simplify_guards. subst.
  apply result_bind_ok in Hr as ([db3 g3] & Hg & [= <- _]%Ok_inj).
  eapply safe_step; [|intros Hok3; by apply grant_oldest_safe in Hg as [? _]].
  eapply clear_safe; [done|exact Hres| |by left|done|done|].
  - intros r i id l Hh Hk. destruct (lo_holder _ Hok _ _ _ _ Hh) as (Hp & o' & Ho' & Hlb).
    unfold owner_of in Ho'. rewrite Hk, Hres in Ho'. injection Ho' as <-.
    rewrite <-(lb_execution _ _ _ Hlb) in Hp. match goal with H : LockOwner.node_execution_id o = _ |- _ =>
      rewrite H in Hp end. by rewrite Hp in Hprog.
  - match goal with H : LockOwner.node_execution_id o = _ |- _ => by rewrite H end.
Qed.

Lemma cancel_programmatic_safe db run_id session_id lease_ms now db' cancelled :
  locks_ok db → cancel_programmatic_lock_waiter_atomically db run_id session_id lease_ms now = Ok (db', cancelled) →
  safe now db db'.
Proof.
  intros Hok Hr. unfold cancel_programmatic_lock_waiter_atomically in Hr.
  apply result_bind_ok in Hr as ([] & _ & Hr). cbv zeta in Hr.
  destruct (update_waiters _ _ _ _ _) as [db1 n] eqn:Hu.
  pose proof (abandon_safe now db run_id (programmatic_lock_execution_identity session_id lease_ms)
    WaiterStatus.cancelled Hok) as Hs1. rewrite Hu in Hs1. eapply safe_step; [apply Hs1; by right|]. simpl.
  intros Hok1. destruct (n =? 1)%nat; [|apply Ok_inj in Hr as [= <- _]; by apply safe_refl].
  apply result_bind_ok in Hr as (db2 & Hq & [= <- _]%Ok_inj).
  destruct (find_waiter _ _ _) as [w|]; [|apply Ok_inj in Hq as <-; by apply safe_refl].
  apply result_bind_ok in Hq as ([db3 g] & Hg & [= <-]%Ok_inj). by apply grant_oldest_safe in Hg as [? _].
Qed.
End transactions.
