(* ===== verification/TriggerProperties.v ===== *)
(** * Transactions on triggers and claims

    What each transaction of Admission and PolicyQueue does to the store: it keeps the invariant of
    the locks and the read models, extends the histories, and keeps the rows of the occurrences, of
    the internal events and of the claims in order. *)

From S2P Require Import Prelude GraphSearch Strings Json EventTypes ProjectionTypes Guards.
From S2P Require Import FoldRun FoldControlFlow FoldCorrection FoldApprovals FoldOperations.
From S2P Require Import FoldLifecycle IterationFold EventIdentities EventValidation Fold.
From S2P Require Import FoldFrames HistoryProperties LockProperties ProjectionCache ModelTypes EngineExternals.
From S2P Require Import ModelQueries ModelIssues ModelContracts GraphContracts ForkContracts.
From S2P Require Import TopologicalOrder LoopContracts DurableContracts ModelValidation Readiness.
From S2P Require Import DefinitionValidation HistoryRules DagEngine PolicyTypes PolicyBundle Schedules.
From S2P Require Import DurableStore LockQueue Admission PolicyQueue DurableStoreProperties LockHistories.
From S2P Require Import LockTables LockTransactions.

Section transactions.
Context {externals : Externals} {engine : EngineExternals} {policies : PolicyExternals}.
Context {storage : StoreExternals} {zones : ScheduleExternals}.
Implicit Types db : StoreTables.

(** ** Changes that keep the locks *)

(** A change that keeps the invariant of the locks and the read models. *)
Definition sound db db' : Prop := locks_ok db → locks_ok db' ∧ evolves db db'.

Lemma sound_refl db : sound db db.
Proof. by split. Qed.

Lemma sound_trans db db1 db2 : sound db db1 → sound db1 db2 → sound db db2.
Proof. intros Ha Hb Hok. destruct (Ha Hok) as [Hok1 Hev]. destruct (Hb Hok1) as [? ?]. split; [done|by etrans]. Qed.

(** The invariant only speaks of the histories, the read models and the rows of the locks. *)
Lemma locks_ok_frame db db' :
  db'.(StoreTables.run_events) = db.(StoreTables.run_events) →
  db'.(StoreTables.lock_resources) = db.(StoreTables.lock_resources) →
  db'.(StoreTables.lock_waiters) = db.(StoreTables.lock_waiters) →
  (∀ r, stored_rows db'.(StoreTables.indexes) r = stored_rows db.(StoreTables.indexes) r) →
  db.(StoreTables.runs) ⊆ db'.(StoreTables.runs) → locks_ok db → locks_ok db'.
Proof.
  intros He Hr Hw Hi Hruns [Hf Hix Ht Hh Hx]. unfold holder, stored_events, owner_of in *.
  split; unfold holder, stored_events, owner_of; rewrite ?He, ?Hr, ?Hw; try done.
  by eapply indexed_frame.
Qed.

Lemma sound_frame db db' :
  db'.(StoreTables.run_events) = db.(StoreTables.run_events) →
  db'.(StoreTables.lock_resources) = db.(StoreTables.lock_resources) →
  db'.(StoreTables.lock_waiters) = db.(StoreTables.lock_waiters) →
  (∀ r, stored_rows db'.(StoreTables.indexes) r = stored_rows db.(StoreTables.indexes) r) →
  db.(StoreTables.runs) ⊆ db'.(StoreTables.runs) →
  db.(StoreTables.definitions) ⊆ db'.(StoreTables.definitions) → sound db db'.
Proof.
  intros He Hr Hw Hi Hruns Hd Hok. split; [by eapply locks_ok_frame|].
  split; rewrite ?Hr, ?Hw; try done; [|congruence]. intros r. unfold stored_events. by rewrite He.
Qed.

(** Events other than those of locks, at the end of a history. *)
Lemma sound_append db db' run_id new :
  appends db db' run_id new → (new ≠ [] → refreshes db db' run_id (stored_events db run_id ++ new)) →
  (∃ s, from_events (stored_events db run_id ++ new) = Ok s) →
  Forall (λ event : RunEvent, lock_event event.(RunEvent.payload) = false) new → sound db db'.
Proof.
  intros Ha Hre Hs Hn Hok. split.
  - eapply append_neutral; [done..|]. eapply Forall_impl; [exact Hn|]. intros e. simpl. by destruct (RunEvent.payload e).
  - pose proof Ha as [He Hd Hr Hres Hw _ _ _ _]. split; rewrite ?Hd, ?Hr, ?Hres, ?Hw; try done; [|congruence].
    intros r. rewrite (appends_stored _ _ _ _ _ Ha). by eexists.
Qed.

(** The same for one event that a transaction stores after the history that it has read. *)
Lemma sound_stores db db' run_id event_id occurred_at version iteration payload event :
  stores db db' run_id event_id occurred_at version iteration payload (stored_events db run_id) event →
  lock_event payload = false → sound db db'.
Proof.
  intros [Hap [s Hs] -> Hre _] Hl. eapply sound_append; [done|done|by exists s|].
  by apply Forall_singleton.
Qed.

(** ** Starts *)

(** Histories grow by events that start no execution. *)
Definition quiet db db' : Prop :=
  ∀ r, ∃ new, stored_events db' r = stored_events db r ++ new
    ∧ Forall (λ event : RunEvent, starts_execution event.(RunEvent.payload) = false) new.

#[global] Instance quiet_preorder : PreOrder quiet.
Proof.
  split.
  - intros db r. exists []. by rewrite app_nil_r.
  - intros db db1 db2 Ha Hb r. destruct (Ha r) as (new & Hn & Hq), (Hb r) as (new' & Hn' & Hq').
    exists (new ++ new'). rewrite Hn', Hn, (assoc_L (++)). split; [done|by apply Forall_app].
Qed.

Lemma quiet_same db db' : db'.(StoreTables.run_events) = db.(StoreTables.run_events) → quiet db db'.
Proof. intros He r. exists []. unfold stored_events. by rewrite He, app_nil_r. Qed.

(** The admitted run [run_id] of a workflow was started at a time. *)
Definition started db (workflow_id run_id : string) (at_ : DateTime) : Prop :=
  ∃ binding first s,
    db.(StoreTables.runs) !! run_id = Some binding ∧ binding.(RunDefinitionBinding.workflow_id) = workflow_id
    ∧ head (stored_events db run_id) = Some first ∧ is_admission first.(RunEvent.payload) = true
    ∧ from_events (stored_events db run_id) = Ok s ∧ s.(ProjectionFoldState.projection).(RunProjection.started_at) = Some at_.

(** In a history that an admission begins only [RunExecutionStarted] starts the run. *)
Lemma start_untouched events new s s' first :
  head (events ++ new) = Some first → is_admission first.(RunEvent.payload) = true →
  from_events events = Ok s → from_events (events ++ new) = Ok s' →
  Forall (λ event : RunEvent, starts_execution event.(RunEvent.payload) = false) new →
  s'.(ProjectionFoldState.projection).(RunProjection.started_at) = s.(ProjectionFoldState.projection).(RunProjection.started_at).
Proof.
  intros Hf Ha Hs. revert s' Hf. induction new as [|event new IH] using rev_ind; intros s' Hf Hs' Hq.
  { rewrite app_nil_r in Hs'. congruence. }
  apply Forall_app in Hq as [Hq Hev]. apply Forall_cons in Hev as [Hev _].
  rewrite (assoc_L (++)) in Hf, Hs'. apply from_events_snoc in Hs' as (s1 & Hs1 & Happ).
  destruct (events ++ new) as [|e l] eqn:El.
  - injection Hf as <-. apply app_eq_nil in El as [-> ->]. rewrite Hs in Hs1. injection Hs1 as <-.
    apply (apply_untouched RunProjection.started_at touches_start _ _ _ Happ). by destruct (RunEvent.payload event).
  - rewrite <-(IH s1) by done. apply (apply_untouched RunProjection.started_at touches_start _ _ _ Happ).
    apply not_true_iff_false. intros [Ht Hi]%andb_true_iff.
    assert (s1 = default_state) as ->.
    { eapply admission_first; [by eexists|done|]. rewrite Hi, andb_true_r. simpl in Hev. by destruct (RunEvent.payload event). }
    destruct (from_events_records _ _ Hs1) as [[Hlen _ _ _ _] _]. simpl in Hlen. done.
Qed.

Lemma quiet_started db db' workflow_id run_id at_ :
  locks_ok db → quiet db db' → db.(StoreTables.runs) ⊆ db'.(StoreTables.runs) →
  started db' workflow_id run_id at_ → started db workflow_id run_id at_.
Proof.
  intros Hok Hq Hruns (b & first & s' & Hb & Hw & Hf & Ha & Hs' & Hat).
  destruct (Hq run_id) as (new & Hn & Hqn). rewrite Hn in Hf, Hs'.
  destruct (lo_folds _ Hok run_id) as [s Hs]. rewrite (start_untouched _ _ _ _ _ Hf Ha Hs Hs' Hqn) in Hat.
  destruct (stored_events db run_id) as [|e l] eqn:El; [by apply Ok_inj in Hs as <-|].
  destruct (ix_bound _ _ (lo_indexed _ Hok run_id)) as [b' Hb']; [by rewrite El|].
  rewrite (lookup_weaken _ _ _ _ Hb' Hruns) in Hb. injection Hb as <-.
  exists b', first, s. rewrite El. by split_and!.
Qed.

(** ** Rows of a table *)

Lemma elem_of_rows {A} (m : gmap string A) row : row ∈ map_to_list m ↔ m !! row.1 = Some row.2.
Proof. destruct row. apply elem_of_map_to_list. Qed.
Lemma elem_of_btree {A} (m : gmap string A) row : row ∈ btree_iter m ↔ m !! row.1 = Some row.2.
Proof. rewrite (btree_iter_Permutation m). apply elem_of_rows. Qed.

(** ** The read models, written anew *)

Section rebuild.
Context {X Y : Type} (rows : RunIndexes → string → X) (kept : RunIndexes → Y) (none : X) (target : string → X).
Context (db : StoreTables) (write : StoreTables → list RunEvent → store_result StoreTables).

(** One run at a time. *)
Hypothesis write_row : ∀ i r db',
  rows i r = none ∨ rows i r = target r →
  write (db <| StoreTables.indexes := i |>) (stored_events db r) = Ok db' →
  ∃ i', db' = db <| StoreTables.indexes := i' |> ∧ kept i' = kept i ∧ rows i' r = target r
    ∧ ∀ r', r' ≠ r → rows i' r' = rows i r'.

Lemma for_runs_rows ids i db' :
  (∀ r, rows i r = none ∨ rows i r = target r) →
  for_runs write (db <| StoreTables.indexes := i |>) ids = Ok db' →
  ∃ i', db' = db <| StoreTables.indexes := i' |> ∧ kept i' = kept i
    ∧ ∀ r, rows i' r = if decide (r ∈ ids) then target r else rows i r.
Proof.
  revert i. induction ids as [|id ids IH]; intros i Hi Hf; simpl in Hf.
  { apply Ok_inj in Hf as <-. by exists i. }
  apply result_bind_ok in Hf as (events & ->%load_events_ok & Hf).
  apply result_bind_ok in Hf as (db1 & Hw & Hf).
  apply write_row in Hw as (i1 & -> & Hk & Hrow & Hother); [|apply Hi].
  destruct (IH i1) as (i' & -> & Hk' & Hrows); [|done|].
  { intros r. destruct (decide (r = id)) as [->|Hne]; [by right|by rewrite Hother]. }
  exists i'. split_and!; [done|congruence|]. intros r. rewrite Hrows.
  destruct (decide (r ∈ ids)) as [Hin|Hin]; [by rewrite decide_True by by apply elem_of_cons; right|].
  destruct (decide (r = id)) as [->|Hne].
  - by rewrite decide_True, Hrow by by apply elem_of_cons; left.
  - rewrite decide_False, Hother; [done..|]. by intros [|]%elem_of_cons.
Qed.
End rebuild.

Definition summary_rows (i : RunIndexes) (r : string) := summary_facts <$> i.(RunIndexes.run_summaries) !! r.
Definition policy_tables (i : RunIndexes) :=
  (i.(RunIndexes.policy_bindings), i.(RunIndexes.policy_queue), i.(RunIndexes.policy_starts)).

Lemma rebuild_policy_rows db i r db' :
  locks_ok db →
  policy_rows i r = (None, None, None) ∨ policy_rows i r = (derived_rows (db.(StoreTables.runs) !! r) (stored_events db r)).2 →
  write_runtime_policy_indexes_for_run (db <| StoreTables.indexes := i |>) (stored_events db r) = Ok db' →
  ∃ i', db' = db <| StoreTables.indexes := i' |> ∧ i'.(RunIndexes.run_summaries) = i.(RunIndexes.run_summaries)
    ∧ policy_rows i' r = (derived_rows (db.(StoreTables.runs) !! r) (stored_events db r)).2
    ∧ ∀ r', r' ≠ r → policy_rows i' r' = policy_rows i r'.
Proof.
  intros Hok Hi Hw. unfold write_runtime_policy_indexes_for_run in Hw.
  destruct (lo_indexed _ Hok r) as [Htag Hbound _]. destruct (lo_folds _ Hok r) as [s Hs].
  destruct (head (stored_events db r)) as [first|] eqn:Hf.
  2: { apply Ok_inj in Hw as <-. exists i. split_and!; try done.
       assert ((derived_rows (db.(StoreTables.runs) !! r) (stored_events db r)).2 = (None, None, None)) as Hn.
       { unfold derived_rows. rewrite Hf. by destruct (_ !! r). }
       rewrite Hn in *. by destruct Hi. }
  destruct (is_admission first.(RunEvent.payload)) eqn:Ha.
  2: { assert (db' = db <| StoreTables.indexes := i |>) as -> by by destruct (RunEvent.payload first); simplify_eq.
       exists i. split_and!; try done. rewrite (derived_unadmitted _ _ _ Hf Ha) in *. by destruct Hi. }
  destruct (RunEvent.payload first) as [] eqn:Hp; try done.
  apply result_bind_ok in Hw as (p & Hp'%map_err_ok & Hw).
  apply write_policy_ok in Hw as (b & Hb & Hd). destruct (Hd first Hp) as (pb & q & st & Hpb & ->).
  assert (first.(RunEvent.run_id) = r) as Hr.
  { apply head_Some in Hf as [rest Hf]. rewrite Hf in Htag. by apply Forall_cons in Htag as [? _]. }
  unfold fold_events in Hp'. rewrite Hs in Hp'. apply Ok_inj in Hp' as <-. rewrite Hr in *. simpl in Hb.
  eexists. split; [done|]. simpl. split_and!; [done| |].
  - unfold policy_rows. simpl. rewrite lookup_insert_eq, !lookup_partial_alter_eq.
    unfold derived_rows. rewrite Hf, Hs, Hb. by rewrite Hpb.
  - intros r' Hne. unfold policy_rows. simpl. by rewrite lookup_insert_ne, !lookup_partial_alter_ne by done.
Qed.

Lemma rebuild_summary_rows db i r db' :
  locks_ok db →
  summary_rows i r = None ∨ summary_rows i r = (derived_rows (db.(StoreTables.runs) !! r) (stored_events db r)).1 →
  write_run_summary (db <| StoreTables.indexes := i |>) (stored_events db r) = Ok db' →
  ∃ i', db' = db <| StoreTables.indexes := i' |> ∧ policy_tables i' = policy_tables i
    ∧ summary_rows i' r = (derived_rows (db.(StoreTables.runs) !! r) (stored_events db r)).1
    ∧ ∀ r', r' ≠ r → summary_rows i' r' = summary_rows i r'.
Proof.
  intros Hok Hi Hw. unfold write_run_summary in Hw.
  destruct (lo_indexed _ Hok r) as [Htag Hbound _]. destruct (lo_folds _ Hok r) as [s Hs].
  destruct (head (stored_events db r)) as [first|] eqn:Hf.
  2: { apply Ok_inj in Hw as <-. exists i. split_and!; try done.
       assert ((derived_rows (db.(StoreTables.runs) !! r) (stored_events db r)).1 = None) as Hn.
       { unfold derived_rows. rewrite Hf. by destruct (_ !! r). }
       rewrite Hn in *. by destruct Hi. }
  destruct (last (stored_events db r)) as [latest|] eqn:Hl.
  2: { apply last_None in Hl. by rewrite Hl in Hf. }
  apply result_bind_ok in Hw as (p & Hp'%map_err_ok & Hw).
  apply write_summary_ok in Hw as (b & row & Hb & Hrow & ->).
  assert (first.(RunEvent.run_id) = r) as Hr.
  { apply head_Some in Hf as [rest Hf]. rewrite Hf in Htag. by apply Forall_cons in Htag as [? _]. }
  unfold fold_events in Hp'. rewrite Hs in Hp'. apply Ok_inj in Hp' as <-. rewrite Hr in *. simpl in Hb.
  eexists. split; [done|]. simpl. split_and!; [done| |].
  - unfold summary_rows. simpl. rewrite lookup_insert_eq. unfold derived_rows. rewrite Hf, Hs, Hb. simpl. by rewrite Hrow.
  - intros r' Hne. unfold summary_rows. simpl. by rewrite lookup_insert_ne by done.
Qed.

Lemma run_ids_bound db r : r ∈ run_ids_in_order db ↔ is_Some (db.(StoreTables.runs) !! r).
Proof.
  unfold run_ids_in_order. rewrite list_elem_of_fmap. split.
  - intros ([r' b] & -> & Hb%elem_of_btree). by exists b.
  - intros [b Hb]. exists (r, b). split; [done|]. by apply elem_of_btree.
Qed.

Lemma unbound_rows db r :
  locks_ok db → r ∉ run_ids_in_order db → stored_rows db.(StoreTables.indexes) r = (None, (None, None, None)).
Proof.
  intros Hok Hr. rewrite (ix_rows _ _ (lo_indexed _ Hok r)). rewrite run_ids_bound in Hr.
  unfold derived_rows. by destruct (_ !! r); [destruct Hr|].
Qed.

Lemma rebuild_policy_ok db db' :
  locks_ok db → rebuild_runtime_policy_indexes db = Ok db' →
  ∃ i, db' = db <| StoreTables.indexes := i |> ∧ ∀ r, stored_rows i r = stored_rows db.(StoreTables.indexes) r.
Proof.
  intros Hok Hr. unfold rebuild_runtime_policy_indexes in Hr.
  apply (for_runs_rows policy_rows RunIndexes.run_summaries (None, None, None)
    (λ r, (derived_rows (db.(StoreTables.runs) !! r) (stored_events db r)).2)) in Hr as (i & -> & Hk & Hrows).
  - exists i. split; [done|]. intros r. unfold stored_rows. rewrite Hk, Hrows. simpl. case_decide as Hin.
    + pose proof (ix_rows _ _ (lo_indexed _ Hok r)) as Hrow. unfold stored_rows in Hrow. by rewrite <-Hrow.
    + pose proof (unbound_rows _ _ Hok Hin) as Hrow. apply (f_equal snd) in Hrow. simpl in Hrow. by rewrite Hrow.
  - intros i0 r db1. by apply rebuild_policy_rows.
  - intros r. by left.
Qed.

Lemma rebuild_summaries_ok db db' :
  locks_ok db → rebuild_run_summary_index db = Ok db' →
  ∃ i, db' = db <| StoreTables.indexes := i |> ∧ ∀ r, stored_rows i r = stored_rows db.(StoreTables.indexes) r.
Proof.
  intros Hok Hr. unfold rebuild_run_summary_index in Hr.
  apply (for_runs_rows summary_rows policy_tables None
    (λ r, (derived_rows (db.(StoreTables.runs) !! r) (stored_events db r)).1)) in Hr as (i & -> & Hk & Hrows).
  - exists i. split; [done|]. intros r. unfold policy_tables in Hk. injection Hk as Hk1 Hk2 Hk3. simpl in *.
    unfold stored_rows, policy_rows. rewrite Hk1, Hk2, Hk3. f_equal. change (summary_rows i r = summary_rows db.(StoreTables.indexes) r).
    rewrite Hrows. case_decide as Hin.
    + pose proof (ix_rows _ _ (lo_indexed _ Hok r)) as Hrow. by rewrite <-Hrow.
    + pose proof (unbound_rows _ _ Hok Hin) as Hrow. by apply (f_equal fst) in Hrow.
  - intros i0 r db1. by apply rebuild_summary_rows.
  - intros r. by left.
Qed.

(** Opening a store keeps its rows. *)
Lemma recover_ok db now db' :
  locks_ok db → recover_store db now = Ok db' →
  ∃ i, db' = delete_expired_claims (db <| StoreTables.indexes := i |>) (to_rfc3339 now)
    ∧ ∀ r, stored_rows i r = stored_rows db.(StoreTables.indexes) r.
Proof.
  intros Hok Hr. unfold recover_store in Hr. apply result_bind_ok in Hr as (db1 & Hre & Hr). apply Ok_inj in Hr as <-.
  destruct (runtime_policy_indexes_need_rebuild db).
  - apply result_bind_ok in Hre as (db2 & Hp & Hre). apply rebuild_policy_ok in Hp as (i & -> & Hi); [|done].
    assert (locks_ok (db <| StoreTables.indexes := i |>)) as Hok2 by by apply (locks_ok_frame db).
    apply rebuild_summaries_ok in Hre as (i' & -> & Hi'); [|done]. exists i'. split; [done|]. intros r. by rewrite Hi'.
  - apply Ok_inj in Hre as <-. exists db.(StoreTables.indexes). by destruct db.
Qed.

(** ** Occurrences *)

(** The first row that a query finds. *)
Lemma find_row_some {A} (f : A → bool) (l : list A) x : List.find f l = Some x → x ∈ l ∧ f x = true.
Proof. intros [Hin Hf]%List.find_some. split; [by apply list_elem_of_In|done]. Qed.
Lemma find_row_none {A} (f : A → bool) (l : list A) x : List.find f l = None → x ∈ l → f x = false.
Proof. intros Hf Hx%list_elem_of_In. by eapply List.find_none. Qed.

Definition same_identity (a b : StoredOccurrence) : Prop :=
  a.(StoredOccurrence.workflow_id) = b.(StoredOccurrence.workflow_id)
  ∧ a.(StoredOccurrence.trigger_id) = b.(StoredOccurrence.trigger_id)
  ∧ a.(StoredOccurrence.source_identity_hash) = b.(StoredOccurrence.source_identity_hash).

Lemma occurrence_of_identity_some db workflow_id trigger_id hash id row :
  occurrence_of_identity db workflow_id trigger_id hash = Some (id, row) →
  db.(StoreTables.triggers).(TriggerTables.occurrences) !! id = Some row
  ∧ row.(StoredOccurrence.workflow_id) = workflow_id ∧ row.(StoredOccurrence.trigger_id) = trigger_id
  ∧ row.(StoredOccurrence.source_identity_hash) = hash.
Proof.
  intros [Hin%elem_of_btree Hf]%find_row_some. simpl in *. by simplify_guards.
Qed.

Lemma occurrence_of_identity_none db workflow_id trigger_id hash id row :
  occurrence_of_identity db workflow_id trigger_id hash = None →
  db.(StoreTables.triggers).(TriggerTables.occurrences) !! id = Some row →
  ~ (row.(StoredOccurrence.workflow_id) = workflow_id ∧ row.(StoredOccurrence.trigger_id) = trigger_id
     ∧ row.(StoredOccurrence.source_identity_hash) = hash).
Proof.
  intros Hn Hrow (<- & <- & <-). apply (find_row_none _ _ (id, row)) in Hn; [|by apply elem_of_btree].
  simpl in Hn. by rewrite !bool_decide_eq_true_2 in Hn.
Qed.

(** The first event of the run of an occurrence, as the admission has written it. *)
Definition admitted_by (id : string) (row : StoredOccurrence) (first : RunEvent) : Prop :=
  ∃ request identity hash,
    first.(RunEvent.payload) = admission_payload request id identity
    ∧ first.(RunEvent.occurred_at) = request.(TriggerAdmissionRequest.received_at)
    ∧ canonical_payload_hash request.(TriggerAdmissionRequest.payload) = Ok hash
    ∧ row = StoredOccurrence.mk request.(TriggerAdmissionRequest.workflow_id)
              request.(TriggerAdmissionRequest.trigger_id) request.(TriggerAdmissionRequest.trigger_handler)
              request.(TriggerAdmissionRequest.definition_hash)
              (sha256_prefixed request.(TriggerAdmissionRequest.source_identity)) hash
              (to_rfc3339 request.(TriggerAdmissionRequest.received_at)) row.(StoredOccurrence.run_id).

Definition binding_of (row : StoredOccurrence) : RunDefinitionBinding :=
  RunDefinitionBinding.mk row.(StoredOccurrence.workflow_id) row.(StoredOccurrence.definition_hash).

Record occurrences_ok db : Prop := {
  oc_run : ∀ id row, db.(StoreTables.triggers).(TriggerTables.occurrences) !! id = Some row →
    db.(StoreTables.runs) !! row.(StoredOccurrence.run_id) = Some (binding_of row)
    ∧ ∃ first, head (stored_events db row.(StoredOccurrence.run_id)) = Some first ∧ admitted_by id row first;
  oc_identity : ∀ id row id' row',
    db.(StoreTables.triggers).(TriggerTables.occurrences) !! id = Some row →
    db.(StoreTables.triggers).(TriggerTables.occurrences) !! id' = Some row' → same_identity row row' → id = id';
  oc_runs : ∀ id row id' row',
    db.(StoreTables.triggers).(TriggerTables.occurrences) !! id = Some row →
    db.(StoreTables.triggers).(TriggerTables.occurrences) !! id' = Some row' →
    row.(StoredOccurrence.run_id) = row'.(StoredOccurrence.run_id) → id = id';
}.

Lemma head_prefix {A} (l l' : list A) x : l `prefix_of` l' → head l = Some x → head l' = Some x.
Proof. intros [k ->]. destruct l as [|a l]; simpl; [discriminate|done]. Qed.

Lemma occurrences_frame db db' :
  db'.(StoreTables.triggers).(TriggerTables.occurrences) = db.(StoreTables.triggers).(TriggerTables.occurrences) →
  db.(StoreTables.runs) ⊆ db'.(StoreTables.runs) →
  (∀ r, stored_events db r `prefix_of` stored_events db' r) → occurrences_ok db → occurrences_ok db'.
Proof.
  intros Ht Hruns Hpre [Hr Hi Hu]. split; rewrite Ht; [|done|done].
  intros id row Hrow. destruct (Hr _ _ Hrow) as (Hb & first & Hf & Ha). split; [by eapply lookup_weaken|].
  exists first. split; [eapply head_prefix; [apply Hpre|done]|done].
Qed.
(** What a new occurrence adds: its row, its run and the first event of the run. *)
Record admitted db db' (request : TriggerAdmissionRequest) (outcome : TriggerAdmissionOutcome) : Prop := {
  ad_sound : sound db db';
  ad_new : db.(StoreTables.runs) !! outcome.(TriggerAdmissionOutcome.run_id) = None
    ∧ db.(StoreTables.triggers).(TriggerTables.occurrences) !! outcome.(TriggerAdmissionOutcome.occurrence_id) = None
    ∧ outcome.(TriggerAdmissionOutcome.duplicate) = false;
  ad_runs : db'.(StoreTables.runs) = <[outcome.(TriggerAdmissionOutcome.run_id) :=
    RunDefinitionBinding.mk request.(TriggerAdmissionRequest.workflow_id)
      request.(TriggerAdmissionRequest.definition_hash)]> db.(StoreTables.runs);
  ad_row : ∃ row event,
    db'.(StoreTables.triggers) = db.(StoreTables.triggers) <| TriggerTables.occurrences ::=
      <[outcome.(TriggerAdmissionOutcome.occurrence_id) := row]> |>
    ∧ row.(StoredOccurrence.workflow_id) = request.(TriggerAdmissionRequest.workflow_id)
    ∧ row.(StoredOccurrence.trigger_id) = request.(TriggerAdmissionRequest.trigger_id)
    ∧ row.(StoredOccurrence.definition_hash) = request.(TriggerAdmissionRequest.definition_hash)
    ∧ row.(StoredOccurrence.source_identity_hash) = sha256_prefixed request.(TriggerAdmissionRequest.source_identity)
    ∧ row.(StoredOccurrence.run_id) = outcome.(TriggerAdmissionOutcome.run_id)
    ∧ canonical_payload_hash request.(TriggerAdmissionRequest.payload) = Ok row.(StoredOccurrence.payload_hash)
    ∧ admitted_by outcome.(TriggerAdmissionOutcome.occurrence_id) row event
    ∧ (is_admission event.(RunEvent.payload) = true ∨ ∃ data, event.(RunEvent.payload) = RunEventPayload.RunStarted data)
    ∧ ∀ r, stored_events db' r = stored_events db r
        ++ (if decide (r = outcome.(TriggerAdmissionOutcome.run_id)) then [event] else []);
  ad_definitions : db'.(StoreTables.definitions) = db.(StoreTables.definitions);
  ad_claims : db'.(StoreTables.scheduler_claims) = db.(StoreTables.scheduler_claims);
}.

Lemma insert_occurrence_ok db id row db' :
  insert_occurrence db id row = Ok db' →
  db' = db <| StoreTables.triggers ::= λ t, t <| TriggerTables.occurrences ::= <[id := row]> |> |>
  ∧ db.(StoreTables.triggers).(TriggerTables.occurrences) !! id = None
  ∧ (∀ id' row', db.(StoreTables.triggers).(TriggerTables.occurrences) !! id' = Some row' →
       row'.(StoredOccurrence.run_id) ≠ row.(StoredOccurrence.run_id) ∧ ~ same_identity row' row).
Proof.
  unfold insert_occurrence. intros Hi. invert_ok. simplify_guards.
  repeat match goal with H : is_some _ = false |- _ => apply is_some_false in H end. split_and!; [done|done|].
  intros id' row' Hrow'. split; [|by eapply occurrence_of_identity_none].
  match goal with H : existsb _ _ = false |- _ => rename H into Hex end.
  apply not_true_iff_false in Hex. intros Heq. apply Hex, existsb_exists.
  exists (id', row'). split; [by apply list_elem_of_In, elem_of_rows|]. by apply bool_decide_eq_true.
Qed.

Lemma insert_run_ok db run_id workflow_id definition_hash db' :
  insert_run db run_id workflow_id definition_hash = Ok db' →
  db.(StoreTables.runs) !! run_id = None
  ∧ is_Some (db.(StoreTables.definitions) !! definition_hash)
  ∧ db' = db <| StoreTables.runs ::= <[run_id := RunDefinitionBinding.mk workflow_id definition_hash]> |>.
Proof.
  unfold insert_run. intros Hi. invert_ok. simplify_guards.
  match goal with H : is_some _ = false |- _ => apply is_some_false in H end.
  split_and!; [done| |done]. by destruct (StoreTables.definitions db !! definition_hash).
Qed.

(** A run that is not bound has no history. *)
Lemma unbound_history db run_id :
  locks_ok db → db.(StoreTables.runs) !! run_id = None → stored_events db run_id = [].
Proof.
  intros Hok Hr. destruct (stored_events db run_id) eqn:He; [done|].
  destruct (ix_bound _ _ (lo_indexed _ Hok run_id)) as [b Hb]; [by rewrite He|]. congruence.
Qed.

Lemma admit_new_ok db request workflow identity payload_hash clock db' outcome :
  locks_ok db → canonical_payload_hash request.(TriggerAdmissionRequest.payload) = Ok payload_hash →
  admit_new_occurrence db request workflow identity
    (sha256_prefixed request.(TriggerAdmissionRequest.source_identity)) payload_hash clock = Ok (db', outcome) →
  admitted db db' request outcome.
Proof.
  intros Hok Hh Ha. unfold admit_new_occurrence in Ha.
  apply result_bind_ok in Ha as ([] & _ & Ha). cbn zeta beta iota delta [draw_uuid] in Ha.
  apply result_bind_ok in Ha as (db1 & (Hnew & Hdef & ->)%insert_run_ok & Ha).
  apply result_bind_ok in Ha as ([] & _ & Ha). cbv zeta in Ha.
  match type of Ha with (let '(db, event_id) := generated_event_id ?d in _) = _ => set (db1 := d) in * end.
  destruct (generated_event_id db1) as [db2 event_id] eqn:Hid.
  apply result_bind_ok in Ha as ([[db3 events] event] & Happ & Ha).
  apply result_bind_ok in Ha as (st & _ & Ha). apply result_bind_ok in Ha as (db4 & Hins & Ha).
  apply Ok_inj in Ha as [= <- <-].
  set (run_id := "run_" +:+ _) in *. set (occurrence_id := "occ_" +:+ _) in *.
  assert (stored_events db run_id = []) as Hempty by by apply unbound_history.
  eapply append_generated in Happ as [Hst ->]; [|exact Hid|by destruct identity as [[]|]].
  apply insert_occurrence_ok in Hins as (-> & Hfree & _). simpl in Hfree.
  pose proof (sto_appends _ _ _ _ _ _ _ _ _ _ Hst) as Hap. rewrite (ap_triggers _ _ _ _ Hap) in Hfree.
  assert (sound db db1) as Hs1.
  { apply sound_frame; try done. simpl. by apply insert_subseteq. }
  split; simpl.
  - eapply sound_trans; [exact Hs1|]. apply (sound_trans _ db3); [|by apply sound_frame].
    eapply (sound_stores _ _ run_id _ _ _ _ (admission_payload request occurrence_id identity));
      [|by destruct identity as [[]|]].
    change (stored_events db1 run_id) with (stored_events db run_id). rewrite Hempty. exact Hst.
  - done.
  - by rewrite (ap_runs _ _ _ _ Hap).
  - eexists _, event. split; [by rewrite (ap_triggers _ _ _ _ Hap)|]. split_and!; try done.
    + rewrite (sto_event _ _ _ _ _ _ _ _ _ _ Hst). exists request, identity, payload_hash. by split_and!.
    + rewrite (sto_event _ _ _ _ _ _ _ _ _ _ Hst). simpl. destruct identity as [[]|]; [by left|right; by eexists].
    + intros r. change (stored_events _ r) with (stored_events db3 r) at 1. by rewrite (appends_stored _ _ _ _ _ Hap).
  - by rewrite (ap_definitions _ _ _ _ Hap).
  - by rewrite (ap_claims _ _ _ _ Hap).
Qed.
(** The row of an identity that a request names. *)
Definition row_for (request : TriggerAdmissionRequest) (row : StoredOccurrence) : Prop :=
  row.(StoredOccurrence.workflow_id) = request.(TriggerAdmissionRequest.workflow_id)
  ∧ row.(StoredOccurrence.trigger_id) = request.(TriggerAdmissionRequest.trigger_id)
  ∧ row.(StoredOccurrence.source_identity_hash) = sha256_prefixed request.(TriggerAdmissionRequest.source_identity).

Definition no_row_for db (request : TriggerAdmissionRequest) : Prop :=
  ∀ id row, db.(StoreTables.triggers).(TriggerTables.occurrences) !! id = Some row → ~ row_for request row.

(** An occurrence that is stored already: nothing changes. *)
Record repeated db db' (request : TriggerAdmissionRequest) (outcome : TriggerAdmissionOutcome) : Prop := {
  rp_same : db' = db;
  rp_duplicate : outcome.(TriggerAdmissionOutcome.duplicate) = true;
  rp_row : ∃ row,
    db.(StoreTables.triggers).(TriggerTables.occurrences) !! outcome.(TriggerAdmissionOutcome.occurrence_id) = Some row
    ∧ row_for request row ∧ row.(StoredOccurrence.run_id) = outcome.(TriggerAdmissionOutcome.run_id)
    ∧ canonical_payload_hash request.(TriggerAdmissionRequest.payload) = Ok row.(StoredOccurrence.payload_hash);
}.

Definition bound_definition db (request : TriggerAdmissionRequest) : Prop :=
  ∃ workflow, db.(StoreTables.definitions) !! request.(TriggerAdmissionRequest.definition_hash) = Some workflow
    ∧ workflow.(CompiledWorkflowDefinition.workflow_id) = request.(TriggerAdmissionRequest.workflow_id).

Lemma occurrence_from_stored id row occurrence :
  trigger_occurrence_from_stored id row = Ok occurrence →
  occurrence.(TriggerOccurrence.occurrence_id) = id
  ∧ occurrence.(TriggerOccurrence.run_id) = row.(StoredOccurrence.run_id)
  ∧ occurrence.(TriggerOccurrence.payload_hash) = row.(StoredOccurrence.payload_hash).
Proof. unfold trigger_occurrence_from_stored. intros Ho. by invert_ok. Qed.

Lemma load_by_identity db workflow_id trigger_id hash found :
  load_trigger_occurrence_by_identity db workflow_id trigger_id hash = Ok found →
  match found with
  | Some occurrence => ∃ row,
      occurrence_of_identity db workflow_id trigger_id hash = Some (occurrence.(TriggerOccurrence.occurrence_id), row)
      ∧ occurrence.(TriggerOccurrence.run_id) = row.(StoredOccurrence.run_id)
      ∧ occurrence.(TriggerOccurrence.payload_hash) = row.(StoredOccurrence.payload_hash)
  | None => occurrence_of_identity db workflow_id trigger_id hash = None
  end.
Proof.
  unfold load_trigger_occurrence_by_identity, load_trigger_occurrence_by_id. intros Hl.
  destruct (occurrence_of_identity db workflow_id trigger_id hash) as [[id row]|] eqn:Ho; [|by invert_ok].
  pose proof (occurrence_of_identity_some _ _ _ _ _ _ Ho) as [Hrow _]. rewrite Hrow in Hl.
  apply result_bind_ok in Hl as (o & (<- & Hr & Hp)%occurrence_from_stored & Hl). invert_ok. by exists row.
Qed.

Lemma admit_ok db request clock db' outcome :
  locks_ok db → admit_trigger_occurrence_in_transaction db request clock = Ok (db', outcome) →
  bound_definition db request
  ∧ (repeated db db' request outcome ∨ (admitted db db' request outcome ∧ no_row_for db request)).
Proof.
  intros Hok Ha. unfold admit_trigger_occurrence_in_transaction in Ha. cbv zeta in Ha.
  apply result_bind_ok in Ha as (hash & Hh & Ha). apply result_bind_ok in Ha as (workflow & Hw & Ha).
  apply result_bind_ok in Ha as ([] & Hmis%fail_if_ok & Ha). simplify_guards.
  apply result_bind_ok in Ha as (declared & _ & Ha). apply result_bind_ok in Ha as ([] & _ & Ha).
  apply result_bind_ok in Ha as (identity & _ & Ha). apply result_bind_ok in Ha as (existing & Hl & Ha).
  split.
  { exists workflow. unfold definition_by_hash in Hw. by invert_ok. }
  apply load_by_identity in Hl. destruct existing as [existing|].
  - left. destruct Hl as (row & Hrow & Hrun & Hhash). apply occurrence_of_identity_some in Hrow as (Hrow & ? & ? & ?).
    apply result_bind_ok in Ha as ([] & Hp%fail_if_ok & Ha). simplify_guards.
    apply result_bind_ok in Ha as (payload & _ & Ha). apply Ok_inj in Ha as [= <- <-].
    split; [done|done|]. exists row. split_and!; [done|by split_and!|done|]. congruence.
  - right. split; [by eapply admit_new_ok|]. intros id row Hrow Hf. by eapply occurrence_of_identity_none.
Qed.

(** ** Invariants of the occurrences *)

Lemma admitted_occurrences db db' request outcome :
  locks_ok db → occurrences_ok db → admitted db db' request outcome → no_row_for db request → occurrences_ok db'.
Proof.
  intros Hok Hoc [Hs (Hnr & Hno & _) Hruns (row & event & Htr & Hw & Ht & Hd & Hi & Hr & _ & Hby & _ & Hev) _ _] Hnone.
  assert (∀ id row', db.(StoreTables.triggers).(TriggerTables.occurrences) !! id = Some row' →
    row'.(StoredOccurrence.run_id) ≠ row.(StoredOccurrence.run_id)) as Hfresh.
  { intros id row' Hrow' Heq. destruct (oc_run _ Hoc _ _ Hrow') as [Hb _]. congruence. }
  assert (∀ id row', db.(StoreTables.triggers).(TriggerTables.occurrences) !! id = Some row' →
    ~ same_identity row' row) as Hother.
  { intros id row' Hrow' (E1 & E2 & E3). apply (Hnone _ _ Hrow'). split_and!; congruence. }
  split; rewrite Htr; simpl.
  - intros id row' [[<- <-]|[Hne Hrow']]%lookup_insert_Some.
    + split; [rewrite Hruns, Hr, lookup_insert_eq; unfold binding_of; by rewrite Hw, Hd|].
      exists event. split; [|done]. by rewrite Hev, Hr, decide_True, unbound_history by done.
    + destruct (oc_run _ Hoc _ _ Hrow') as (Hb & first & Hf & Ha). pose proof (Hfresh _ _ Hrow'). split.
      * rewrite Hruns, lookup_insert_ne by congruence. done.
      * exists first. split; [|done]. rewrite Hev, decide_False by congruence. by rewrite app_nil_r.
  - intros id row1 id' row2 [[<- <-]|[Hne H1]]%lookup_insert_Some [[<- <-]|[Hne' H2]]%lookup_insert_Some Hsame; [done|..].
    + destruct (Hother _ _ H2). by destruct Hsame as (? & ? & ?).
    + by destruct (Hother _ _ H1).
    + by eapply (oc_identity _ Hoc).
  - intros id row1 id' row2 [[<- <-]|[Hne H1]]%lookup_insert_Some [[<- <-]|[Hne' H2]]%lookup_insert_Some Hsame; [done|..].
    + by destruct (Hfresh _ _ H2).
    + by destruct (Hfresh _ _ H1).
    + by eapply (oc_runs _ Hoc).
Qed.
(** ** Internal events *)

(** The run that published the event which started a run. *)
Definition parent_of db (run_id parent : string) : Prop :=
  StoredPublication.parent_run_id <$> publication_of_run db run_id = Some parent.

Record lineage_ok db : Prop := {
  ln_delivery : ∀ key run_id, db.(StoreTables.triggers).(TriggerTables.deliveries) !! key = Some run_id →
    is_Some (db.(StoreTables.triggers).(TriggerTables.publications) !! key.1.1)
    ∧ source_of_run db run_id = Some (key.1.2, key.2);
  ln_unique : ∀ key key' run_id, db.(StoreTables.triggers).(TriggerTables.deliveries) !! key = Some run_id →
    db.(StoreTables.triggers).(TriggerTables.deliveries) !! key' = Some run_id → key = key';
  ln_parent : ∀ id publication, db.(StoreTables.triggers).(TriggerTables.publications) !! id = Some publication →
    is_Some (db.(StoreTables.runs) !! publication.(StoredPublication.parent_run_id));
  ln_acyclic : ∀ run_id, ~ tc (parent_of db) run_id run_id;
}.

Lemma delivery_of_run_some db run_id key :
  lineage_ok db →
  delivery_of_run db run_id = Some key ↔ db.(StoreTables.triggers).(TriggerTables.deliveries) !! key = Some run_id.
Proof.
  intros Hln. unfold delivery_of_run. split.
  - intros ([k r] & [Hin%elem_of_map_to_list Hf]%find_row_some & ->)%fmap_Some. simpl in *.
    by apply bool_decide_eq_true in Hf as <-.
  - intros Hk. destruct (List.find _ _) as [[k r]|] eqn:Hf.
    + apply find_row_some in Hf as [Hin%elem_of_map_to_list Hf]. apply bool_decide_eq_true in Hf. simpl in *. subst.
      f_equal. by eapply ln_unique.
    + apply (find_row_none _ _ (key, run_id)) in Hf; [|by apply elem_of_map_to_list].
      simpl in Hf. by rewrite bool_decide_eq_true_2 in Hf.
Qed.

Lemma delivery_of_run_none db run_id key :
  delivery_of_run db run_id = None → db.(StoreTables.triggers).(TriggerTables.deliveries) !! key ≠ Some run_id.
Proof.
  unfold delivery_of_run. intros Hf%fmap_None Hk.
  apply (find_row_none _ _ (key, run_id)) in Hf; [|by apply elem_of_map_to_list].
  simpl in Hf. by rewrite bool_decide_eq_true_2 in Hf.
Qed.

Lemma parent_of_spec db run_id parent :
  lineage_ok db →
  parent_of db run_id parent ↔ ∃ key publication,
    db.(StoreTables.triggers).(TriggerTables.deliveries) !! key = Some run_id
    ∧ db.(StoreTables.triggers).(TriggerTables.publications) !! key.1.1 = Some publication
    ∧ publication.(StoredPublication.parent_run_id) = parent.
Proof.
  intros Hln. unfold parent_of, publication_of_run. rewrite fmap_Some. setoid_rewrite bind_Some.
  setoid_rewrite (delivery_of_run_some _ _ _ Hln). naive_solver.
Qed.

Lemma source_of_run_some db run_id source :
  occurrences_ok db →
  source_of_run db run_id = Some source ↔ ∃ id row,
    db.(StoreTables.triggers).(TriggerTables.occurrences) !! id = Some row
    ∧ row.(StoredOccurrence.run_id) = run_id
    ∧ source = (row.(StoredOccurrence.workflow_id), row.(StoredOccurrence.trigger_id)).
Proof.
  intros Hoc. unfold source_of_run. rewrite bind_Some. split.
  - intros ([id row] & [Hin%elem_of_rows Hf]%find_row_some & [= <-]). simpl in *.
    apply bool_decide_eq_true in Hf. by exists id, row.
  - intros (id & row & Hrow & Hr & ->). destruct (List.find _ _) as [[id' row']|] eqn:Hf.
    + apply find_row_some in Hf as [Hin%elem_of_rows Hf]. apply bool_decide_eq_true in Hf. simpl in *. subst.
      assert (id' = id) as -> by by eapply (oc_runs _ Hoc). simplify_eq. by eexists.
    + apply (find_row_none _ _ (id, row)) in Hf; [|by apply elem_of_rows].
      simpl in Hf. by rewrite bool_decide_eq_true_2 in Hf.
Qed.

(** The walk inspects every ancestor. *)
Lemma check_ancestors_ok n db subscriber start :
  check_ancestors n db subscriber (Some start) = Ok tt →
  ∀ run_id, rtc (parent_of db) start run_id → source_of_run db run_id ≠ Some subscriber.
Proof.
  revert start. induction n as [|n IH]; intros start Hc run_id Hr; simpl in Hc; [done|].
  apply result_bind_ok in Hc as ([] & Hne%fail_if_ok & Hc). apply bool_decide_eq_false in Hne.
  destruct Hr as [|start next run_id Hp Hr]; [done|]. unfold parent_of in Hp. rewrite Hp in Hc.
  by eapply IH.
Qed.

(** One more edge, from a run without a parent to a run that does not descend from it. *)
Lemma acyclic_edge (R R' : relation string) x y :
  (∀ r, ~ tc R r r) → (∀ r p, R' r p → R r p ∨ (r = x ∧ p = y)) → ~ rtc R y x → ∀ r, ~ tc R' r r.
Proof.
  intros Hac HR Hno.
  assert (∀ r p, tc R' r p → tc R r p ∨ (rtc R r x ∧ rtc R y p)) as Hpath.
  { intros r p Ht. induction Ht as [r p Hrp|r q p Hrq _ IH].
    - destruct (HR _ _ Hrp) as [|[-> ->]]; [left; by apply tc_once|right; by split].
    - destruct (HR _ _ Hrq) as [Hq|[-> ->]].
      + destruct IH as [Hqp|[Hqx Hyp]]; [left; by eapply tc_l|right]. split; [by eapply rtc_l|done].
      + destruct IH as [Hqp|[Hqx Hyp]]; [right|by destruct Hno]. split; [done|by apply tc_rtc]. }
  intros r [Ht|[Hrx Hyr]]%Hpath; [by eapply Hac|]. apply Hno. by etrans.
Qed.

Lemma lineage_frame db db' :
  db'.(StoreTables.triggers).(TriggerTables.publications) = db.(StoreTables.triggers).(TriggerTables.publications) →
  db'.(StoreTables.triggers).(TriggerTables.deliveries) = db.(StoreTables.triggers).(TriggerTables.deliveries) →
  (∀ r source, source_of_run db r = Some source → source_of_run db' r = Some source) →
  db.(StoreTables.runs) ⊆ db'.(StoreTables.runs) → lineage_ok db → lineage_ok db'.
Proof.
  intros Hp Hd Hs Hruns [H1 H2 H3 H4]. split; rewrite ?Hp, ?Hd; try done.
  - intros key r Hk. destruct (H1 _ _ Hk) as [? ?]. split; [done|by apply Hs].
  - intros id pub Hpub. destruct (H3 _ _ Hpub) as [b Hb]. exists b. by eapply lookup_weaken.
  - intros r. assert (∀ a b, parent_of db' a b ↔ parent_of db a b) as Heq.
    { intros a b. unfold parent_of, publication_of_run, delivery_of_run. by rewrite Hp, Hd. }
    assert (∀ a b, tc (parent_of db') a b → tc (parent_of db) a b) as Htc; [|by intros Ht%Htc; eapply H4].
    intros a b Ht. induction Ht as [a b Hab|a b c Hab _ IH]; [by apply tc_once, Heq|].
    eapply tc_l; [by apply Heq|done].
Qed.

Lemma source_grows db db' :
  occurrences_ok db → occurrences_ok db' →
  db.(StoreTables.triggers).(TriggerTables.occurrences) ⊆ db'.(StoreTables.triggers).(TriggerTables.occurrences) →
  ∀ r source, source_of_run db r = Some source → source_of_run db' r = Some source.
Proof.
  intros Hoc Hoc' Hsub r source (id & row & Hrow & Hr & ->)%source_of_run_some; [|done].
  apply source_of_run_some; [done|]. exists id, row. split_and!; [by eapply lookup_weaken|done|done].
Qed.
(** *** A delivery *)

Lemma record_publication_ok db request payload_hash depth db' :
  lineage_ok db → occurrences_ok db →
  is_Some (db.(StoreTables.runs) !! request.(InternalEventAdmissionRequest.parent_run_id)) →
  record_publication db request payload_hash depth = Ok db' →
  sound db db' ∧ lineage_ok db' ∧ occurrences_ok db'
  ∧ (∃ publications, db' = db <| StoreTables.triggers ::= λ t, t <| TriggerTables.publications := publications |> |>)
  ∧ (∃ publication,
       db'.(StoreTables.triggers).(TriggerTables.publications) !! request.(InternalEventAdmissionRequest.publication_id)
       = Some publication
       ∧ publication.(StoredPublication.parent_run_id) = request.(InternalEventAdmissionRequest.parent_run_id))
  ∧ (∀ r p, parent_of db' r p ↔ parent_of db r p).
Proof.
  intros Hln Hoc Hrun. unfold record_publication.
  destruct (_ !! InternalEventAdmissionRequest.publication_id request) as [existing|] eqn:Hex; intros Hr.
  { invert_ok. simplify_guards. split_and!; try done; [|by exists existing].
    exists db'.(StoreTables.triggers).(TriggerTables.publications). destruct db' as [? ? ? ? ? ? ? [] ?]. done. }
  invert_ok. set (db' := db <| StoreTables.triggers ::= _ |>).
  assert (∀ r p, parent_of db' r p ↔ parent_of db r p) as Hpar.
  { intros r p. unfold parent_of, publication_of_run. change (delivery_of_run db' r) with (delivery_of_run db r).
    destruct (delivery_of_run db r) as [key|] eqn:Hk; [|done]. simpl.
    apply delivery_of_run_some in Hk; [|done]. destruct (ln_delivery _ Hln _ _ Hk) as [[pub Hpub] _].
    rewrite lookup_insert_ne by congruence. done. }
  split_and!.
  - by apply sound_frame.
  - split; simpl.
    + intros key r Hk. destruct (ln_delivery _ Hln _ _ Hk) as [[pub Hpub] Hs]. split; [|done].
      rewrite lookup_insert_is_Some. destruct (decide (InternalEventAdmissionRequest.publication_id request = key.1.1)); [by left|right].
      split; [done|by eexists].
    + apply (ln_unique _ Hln).
    + intros id pub [[<- <-]|[_ Hpub]]%lookup_insert_Some; [done|by eapply (ln_parent _ Hln)].
    + assert (∀ a b, tc (parent_of db') a b → tc (parent_of db) a b) as Htc; [|by intros r Ht%Htc; eapply (ln_acyclic _ Hln)].
      intros a b Ht. induction Ht as [a b Hab|a b c Hab _ IH]; [by apply tc_once, Hpar|].
      eapply tc_l; [by apply Hpar|done].
  - by eapply occurrences_frame; [..|exact Hoc].
  - by eexists.
  - eexists. split; [simpl; by rewrite lookup_insert_eq|done].
  - done.
Qed.

Lemma record_delivery_ok db key run_id publication db' :
  lineage_ok db → occurrences_ok db →
  db.(StoreTables.triggers).(TriggerTables.publications) !! key.1.1 = Some publication →
  source_of_run db run_id = Some (key.1.2, key.2) →
  ~ rtc (parent_of db) publication.(StoredPublication.parent_run_id) run_id →
  record_delivery db key run_id = Ok db' →
  sound db db' ∧ lineage_ok db' ∧ occurrences_ok db'
  ∧ ∃ deliveries, db' = db <| StoreTables.triggers ::= λ t, t <| TriggerTables.deliveries := deliveries |> |>.
Proof.
  intros Hln Hoc Hpub Hsrc Hanc. unfold record_delivery.
  destruct (_ !! key) as [existing|] eqn:Hex; intros Hr.
  { invert_ok. split_and!; try done.
    exists db'.(StoreTables.triggers).(TriggerTables.deliveries). destruct db' as [? ? ? ? ? ? ? [] ?]. done. }
  invert_ok. match goal with H : is_some _ = false |- _ => apply is_some_false in H as Hnone end.
  set (db' := db <| StoreTables.triggers ::= _ |>).
  assert (∀ k r, db'.(StoreTables.triggers).(TriggerTables.deliveries) !! k = Some r →
    (k = key ∧ r = run_id) ∨ db.(StoreTables.triggers).(TriggerTables.deliveries) !! k = Some r) as Hk.
  { simpl. intros k r [[<- <-]|[_ Hk]]%lookup_insert_Some; [by left|by right]. }
  assert (∀ k k' r, db'.(StoreTables.triggers).(TriggerTables.deliveries) !! k = Some r →
    db'.(StoreTables.triggers).(TriggerTables.deliveries) !! k' = Some r → k = k') as Hu.
  { intros k k' r [[-> ->]|H1]%Hk [[-> Heq]|H2]%Hk; subst; [done|..|by eapply (ln_unique _ Hln)].
    - by destruct (delivery_of_run_none _ _ k' Hnone).
    - by destruct (delivery_of_run_none _ _ k Hnone). }
  split_and!; [by apply sound_frame| |by eapply occurrences_frame; [..|exact Hoc]|by eexists].
  split; [|exact Hu|apply (ln_parent _ Hln)|].
  - intros k r [[-> ->]|Hkr]%Hk; [by split; [eexists|]|by apply (ln_delivery _ Hln)].
  - eapply (acyclic_edge (parent_of db) _ run_id publication.(StoredPublication.parent_run_id));
      [apply (ln_acyclic _ Hln)| |exact Hanc].
    intros r p Hp. unfold parent_of, publication_of_run in Hp.
    apply fmap_Some in Hp as (pub & (k & Hkr & Hp)%bind_Some & ->).
    assert (db'.(StoreTables.triggers).(TriggerTables.deliveries) !! k = Some r) as Hkr'.
    { unfold delivery_of_run in Hkr. apply fmap_Some in Hkr as ([k' r'] & [Hin%elem_of_map_to_list Hf]%find_row_some & ->).
      by apply bool_decide_eq_true in Hf as <-. }
    simpl in Hp. apply Hk in Hkr' as [[-> ->]|Hold]; [right; rewrite Hpub in Hp; by simplify_eq|left].
    apply parent_of_spec; [done|]. by exists k, pub.
Qed.
(** *** Transactions on triggers *)

(** Runs are bound to definitions of their workflow. *)
Definition bindings_ok db : Prop :=
  ∀ r binding, db.(StoreTables.runs) !! r = Some binding → ∃ workflow,
    db.(StoreTables.definitions) !! binding.(RunDefinitionBinding.definition_hash) = Some workflow
    ∧ workflow.(CompiledWorkflowDefinition.workflow_id) = binding.(RunDefinitionBinding.workflow_id).

Record triggers_ok db : Prop := {
  tr_bindings : bindings_ok db;
  tr_occurrences : occurrences_ok db;
  tr_lineage : lineage_ok db;
}.

(** What a transaction on triggers does. *)
Record trigger_moves db db' : Prop := {
  tm_sound : sound db db';
  tm_triggers : locks_ok db → triggers_ok db → triggers_ok db';
  tm_claims : db'.(StoreTables.scheduler_claims) = db.(StoreTables.scheduler_claims);
  tm_definitions : db'.(StoreTables.definitions) = db.(StoreTables.definitions);
  tm_quiet : quiet db db';
  tm_occurrences : db.(StoreTables.triggers).(TriggerTables.occurrences)
    ⊆ db'.(StoreTables.triggers).(TriggerTables.occurrences);
}.

#[global] Instance trigger_moves_preorder : PreOrder trigger_moves.
Proof.
  split; [intros db; split; try done; apply sound_refl|].
  intros db db1 db2 [Hs Ht Hc Hd Hq Ho] [Hs' Ht' Hc' Hd' Hq' Ho']. split; try congruence; [|intros Hok|by etrans..].
  - by eapply sound_trans.
  - intros Htr. apply Ht'; [by apply Hs|by apply Ht].
Qed.

Lemma admit_moves db request clock db' outcome :
  locks_ok db → admit_trigger_occurrence_in_transaction db request clock = Ok (db', outcome) → trigger_moves db db'.
Proof.
  intros Hok Ha. destruct (admit_ok _ _ _ _ _ Hok Ha) as [(wf & Hwf & Hid) [[-> _ _]|[Hadm Hnone]]]; [done|].
  pose proof Hadm as [Hs (Hnew & Hnocc & _) Hruns (row & event & Htr & _ & _ & _ & _ & _ & _ & _ & Hp & Hev) Hd Hc].
  assert (db.(StoreTables.triggers).(TriggerTables.occurrences)
    ⊆ db'.(StoreTables.triggers).(TriggerTables.occurrences)) as Hsub.
  { rewrite Htr. simpl. by apply insert_subseteq. }
  split; try done.
  - intros _ [Hb Hoc Hln]. assert (occurrences_ok db') as Hoc' by by eapply admitted_occurrences.
    split; [|done|].
    + intros r b. rewrite Hruns, Hd. intros [[<- <-]|[_ Hr]]%lookup_insert_Some; [by exists wf|by apply (Hb r)].
    + eapply lineage_frame; [by rewrite Htr..| | |done]; [by apply source_grows|].
      rewrite Hruns. by apply insert_subseteq.
  - intros r. eexists. rewrite Hev. split; [done|]. case_decide; [|constructor].
    apply Forall_singleton. destruct Hp as [Hp|[data Hp]]; [by destruct (RunEvent.payload event)|by rewrite Hp].
Qed.

(** Cursors are apart from the rest. *)
Lemma cursor_moves db db' t :
  db' = db <| StoreTables.triggers := t |> →
  t.(TriggerTables.occurrences) = db.(StoreTables.triggers).(TriggerTables.occurrences) →
  t.(TriggerTables.publications) = db.(StoreTables.triggers).(TriggerTables.publications) →
  t.(TriggerTables.deliveries) = db.(StoreTables.triggers).(TriggerTables.deliveries) → trigger_moves db db'.
Proof.
  intros -> Ho Hp Hd. split; try done; simpl; [by apply sound_frame| |by apply quiet_same|by rewrite Ho].
  intros _ [Hb Hoc Hln]. split; [done|by eapply occurrences_frame|].
  eapply lineage_frame; [done|done| |done|done]. intros r source. unfold source_of_run. simpl. by rewrite Ho.
Qed.

Lemma advance_schedule_moves db workflow_id trigger_id expected next updated db' cursor :
  advance_schedule_cursor db workflow_id trigger_id expected next updated = Ok (db', cursor) → trigger_moves db db'.
Proof.
  unfold advance_schedule_cursor, update_schedule_cursor. intros Ha. invert_ok. simplify_eq.
  by eapply cursor_moves.
Qed.

Lemma advance_interval_moves db workflow_id trigger_id seq expected next_seq next updated db' cursor :
  advance_interval_cursor db workflow_id trigger_id seq expected next_seq next updated = Ok (db', cursor) →
  trigger_moves db db'.
Proof.
  unfold advance_interval_cursor, update_interval_cursor. intros Ha. invert_ok. simplify_eq.
  by eapply cursor_moves.
Qed.

Lemma register_schedule_moves db registration initial registered db' cursor initialized :
  register_schedule_cursor db registration initial registered = Ok (db', cursor, initialized) → trigger_moves db db'.
Proof.
  unfold register_schedule_cursor. intros Hr. invert_ok; simplify_eq. case_match; [by eapply cursor_moves|done].
Qed.

Lemma register_interval_moves db registration anchor registered db' cursor initialized :
  register_interval_cursor db registration anchor registered = Ok (db', cursor, initialized) → trigger_moves db db'.
Proof.
  unfold register_interval_cursor. intros Hr. invert_ok; simplify_eq; [by eapply cursor_moves|done].
Qed.

Lemma claim_schedule_moves db expected next request clock db' outcome cursor :
  locks_ok db → claim_schedule_occurrence db expected next request clock = Ok (db', outcome, cursor) →
  trigger_moves db db'.
Proof.
  unfold claim_schedule_occurrence. intros Hok Hc. apply result_bind_ok in Hc as ([] & _ & Hc).
  apply result_bind_ok in Hc as ([] & _ & Hc). apply result_bind_ok in Hc as ([db1 o] & Ha%admit_moves & Hc); [|done].
  apply result_bind_ok in Hc as ([db2 c] & Hadv%advance_schedule_moves & Hc). apply Ok_inj in Hc as [= <- _ _]. by etrans.
Qed.

Lemma claim_interval_moves db seq expected next_seq next request clock db' outcome cursor :
  locks_ok db → claim_interval_occurrence db seq expected next_seq next request clock = Ok (db', outcome, cursor) →
  trigger_moves db db'.
Proof.
  unfold claim_interval_occurrence. intros Hok Hc. apply result_bind_ok in Hc as ([] & _ & Hc).
  apply result_bind_ok in Hc as ([] & _ & Hc). apply result_bind_ok in Hc as ([db1 o] & Ha%admit_moves & Hc); [|done].
  apply result_bind_ok in Hc as ([db2 c] & Hadv%advance_interval_moves & Hc). apply Ok_inj in Hc as [= <- _ _]. by etrans.
Qed.

(** The ancestors of a run are runs. *)
Lemma ancestors_bound db run_id ancestor :
  lineage_ok db → rtc (parent_of db) run_id ancestor → is_Some (db.(StoreTables.runs) !! run_id) →
  is_Some (db.(StoreTables.runs) !! ancestor).
Proof.
  intros Hln Hr. induction Hr as [|run_id parent ancestor Hp _ IH]; [done|]. intros _. apply IH.
  apply parent_of_spec in Hp as (key & publication & _ & Hpub & <-); [|done]. by eapply ln_parent.
Qed.

Lemma rtc_same {A} (R R' : relation A) x y : (∀ a b, R a b ↔ R' a b) → rtc R x y → rtc R' x y.
Proof. intros HR Hr. induction Hr as [|x z y Hxz _ IH]; [done|]. eapply rtc_l; [by apply HR|done]. Qed.

(** The run that an admission reports has the source of the request. *)
Lemma admitted_source db db' request outcome :
  occurrences_ok db' → repeated db db' request outcome ∨ (admitted db db' request outcome ∧ no_row_for db request) →
  source_of_run db' outcome.(TriggerAdmissionOutcome.run_id)
  = Some (request.(TriggerAdmissionRequest.workflow_id), request.(TriggerAdmissionRequest.trigger_id)).
Proof.
  intros Hoc Hcase. apply source_of_run_some; [done|].
  destruct Hcase as [[-> _ (row & Hrow & (<- & <- & _) & Hr & _)]|[[_ _ _ (row & event & Htr & <- & <- & _ & _ & Hr & _) _ _] _]].
  - by eexists _, row.
  - eexists _, row. rewrite Htr. simpl. by rewrite lookup_insert_eq.
Qed.

Lemma internal_event_moves db request clock db' depth outcome :
  locks_ok db → triggers_ok db →
  admit_internal_event_occurrence db request clock = Ok (db', depth, outcome) → trigger_moves db db'.
Proof.
  intros Hok Htr Ha. unfold admit_internal_event_occurrence in Ha.
  apply result_bind_ok in Ha as ([] & _ & Ha). apply result_bind_ok in Ha as ([] & _ & Ha).
  apply result_bind_ok in Ha as ([] & Hrun & Ha). apply result_bind_ok in Ha as (hash & _ & Ha). cbv zeta in Ha.
  apply result_bind_ok in Ha as ([] & _ & Ha). apply result_bind_ok in Ha as ([] & Hanc & Ha).
  apply result_bind_ok in Ha as (db1 & Hpub & Ha). apply result_bind_ok in Ha as ([db2 o] & Hadm & Ha).
  apply result_bind_ok in Ha as (db3 & Hdel & Ha). apply Ok_inj in Ha as [= <- _ _].
  pose proof (check_ancestors_ok _ _ _ _ Hanc) as Hnot. destruct Htr as [Hb Hoc Hln].
  assert (is_Some (db.(StoreTables.runs) !! request.(InternalEventAdmissionRequest.parent_run_id))) as Hparent.
  { unfold ensure_run_exists in Hrun. invert_ok. by destruct (_ !! _). }
  apply record_publication_ok in Hpub as (Hs1 & Hln1 & Hoc1 & [pubs Hdb1] & (pub & Hpub & Hpp) & Hsame); [|done..].
  assert (triggers_ok db1) as Htr1 by (split; [by subst|done..]). destruct (Hs1 Hok) as [Hok1 _].
  assert (trigger_moves db db1) as Hm1.
  { subst. by split; [..|apply quiet_same|]. }
  pose proof (admit_moves _ _ _ _ _ Hok1 Hadm) as Hm2. destruct (tm_triggers _ _ Hm2 Hok1 Htr1) as [Hb2 Hoc2 Hln2].
  apply admit_ok in Hadm as [_ Hcase]; [|done]. pose proof (admitted_source _ _ _ _ Hoc2 Hcase) as Hsrc.
  assert (db2.(StoreTables.triggers).(TriggerTables.publications) = db1.(StoreTables.triggers).(TriggerTables.publications)
    ∧ ∀ a b, parent_of db2 a b ↔ parent_of db a b) as [Hpubs Hpar].
  { unfold parent_of, publication_of_run, delivery_of_run in *.
    destruct Hcase as [[-> _ _]|[[_ _ _ (row & event & Htr & _) _ _] _]]; [done|]. rewrite Htr. done. }
  eapply record_delivery_ok in Hdel as (Hs3 & Hln3 & Hoc3 & [dels Hdb3]); [|done|done|by rewrite Hpubs|done|].
  - etrans; [exact Hm1|]. etrans; [exact Hm2|]. subst db3. by split; [..|apply quiet_same|].
  - rewrite Hpp. intros Hr%(rtc_same _ (parent_of db)); [|done].
    destruct Hcase as [[-> _ _]|[[_ (Hnew & _) _ _ _ _] _]].
    + apply (Hnot _ Hr). rewrite <-Hsrc. by subst.
    + destruct (ancestors_bound _ _ _ Hln Hr Hparent) as [b Hbb]. subst db1. simpl in Hnew. congruence.
Qed.

(** ** Claims *)

Lemma count_rows_le {A} (f : A → bool) (m m' : gmap string A) (extra : list string) :
  (∀ k x, m' !! k = Some x → f x = true → k ∈ extra ∨ ∃ y, m !! k = Some y ∧ f y = true) →
  count_rows f m' ≤ length extra + count_rows f m.
Proof.
  intros Hin. unfold count_rows. rewrite <-!(length_fmap fst), <-length_app. apply submseteq_length, NoDup_submseteq.
  - eapply sublist_NoDup; [apply (NoDup_fst_map_to_list m')|]. apply fmap_sublist, sublist_filter.
  - intros k ([k' x] & -> & Hk)%list_elem_of_fmap. apply list_elem_of_filter in Hk as [Hf Hk%elem_of_map_to_list].
    apply elem_of_app. destruct (Hin _ _ Hk Hf) as [|(y & Hy & Hfy)]; [by left|right].
    apply list_elem_of_fmap. exists (k', y). split; [done|]. apply list_elem_of_filter.
    split; [done|by apply elem_of_map_to_list].
Qed.

(** The claims on the runs of a workflow grow within the limit of the definition of one of them. *)
Definition within_capacity db db' : Prop :=
  ∀ workflow_id, workflow_id ≠ SUSPENDED_POLICY_WORKFLOW_ID →
    claims_of db' workflow_id ≤ claims_of db workflow_id
    ∨ ∃ run_id binding workflow policy,
        db.(StoreTables.runs) !! run_id = Some binding
        ∧ binding.(RunDefinitionBinding.workflow_id) = workflow_id
        ∧ db.(StoreTables.definitions) !! binding.(RunDefinitionBinding.definition_hash) = Some workflow
        ∧ workflow.(CompiledWorkflowDefinition.runtime_policy) = Some policy
        ∧ ∀ n, policy.(CompiledRuntimePolicy.concurrency) = Some n →
            (N.of_nat (claims_of db' workflow_id) ≤ n)%N.

(** The run [run_id] is started at a time that the rate limit of its definition allows. *)
Definition start_granted db db' (run_id : string) (at_ : DateTime) : Prop :=
  ∃ binding workflow policy event rest timeout_at,
    db.(StoreTables.runs) !! run_id = Some binding
    ∧ db.(StoreTables.definitions) !! binding.(RunDefinitionBinding.definition_hash) = Some workflow
    ∧ workflow.(CompiledWorkflowDefinition.runtime_policy) = Some policy
    ∧ workflow_rate_eligibility db binding.(RunDefinitionBinding.workflow_id)
        policy.(CompiledRuntimePolicy.rate_limit) at_ = Ok PolicyRateEligibility.Eligible
    ∧ event.(RunEvent.payload) = RunEventPayload.RunExecutionStarted (RunExecutionStartedData.mk at_ timeout_at)
    ∧ Forall (λ event : RunEvent, starts_execution event.(RunEvent.payload) = false) rest
    ∧ ∀ r, stored_events db' r = stored_events db r ++ (if decide (r = run_id) then event :: rest else []).

(** What a transaction on claims does. *)
Record policy_moves db db' : Prop := {
  pm_sound : sound db db';
  pm_runs : db'.(StoreTables.runs) = db.(StoreTables.runs);
  pm_definitions : db'.(StoreTables.definitions) = db.(StoreTables.definitions);
  pm_triggers : db'.(StoreTables.triggers) = db.(StoreTables.triggers);
  pm_claims : within_capacity db db';
  pm_starts : quiet db db' ∨ ∃ run_id at_, start_granted db db' run_id at_;
}.

Lemma capacity_le db db' :
  (∀ workflow_id, workflow_id ≠ SUSPENDED_POLICY_WORKFLOW_ID → claims_of db' workflow_id ≤ claims_of db workflow_id) →
  within_capacity db db'.
Proof. intros Hle w Hw. left. by apply Hle. Qed.

Lemma capacity_trans db db1 db2 :
  (∀ workflow_id, claims_of db1 workflow_id ≤ claims_of db workflow_id) →
  db1.(StoreTables.runs) = db.(StoreTables.runs) → db1.(StoreTables.definitions) = db.(StoreTables.definitions) →
  within_capacity db1 db2 → within_capacity db db2.
Proof.
  intros Hle Hr Hd Hc w Hw. destruct (Hc w Hw) as [Hn|Hn]; [left; specialize (Hle w); lia|right].
  by rewrite <-Hr, <-Hd.
Qed.

(** Only the claims change. *)
Lemma policy_claims db db' claims :
  db' = db <| StoreTables.scheduler_claims := claims |> → within_capacity db db' → policy_moves db db'.
Proof. intros -> Hc. split; try done; [by apply sound_frame|left; by apply quiet_same]. Qed.

Lemma delete_claims_le f db workflow_id : claims_of (delete_claims f db) workflow_id ≤ claims_of db workflow_id.
Proof.
  apply (count_rows_le _ _ _ []). intros k x [Hk _]%map_lookup_filter_Some Hf. right. by exists x.
Qed.

Lemma update_claim_claims db run_id f change :
  ∃ claims, (update_claim db run_id f change).1 = db <| StoreTables.scheduler_claims := claims |>.
Proof.
  unfold update_claim. destruct (_ !! run_id); [case_match|]; simpl; [by eexists|..];
    exists db.(StoreTables.scheduler_claims); by destruct db.
Qed.

(** A claim that changes its workflow only to one that has room. *)
Lemma update_claim_le db run_id f change workflow_id :
  (∀ claim, f claim = true → (change claim).(SchedulerClaim.workflow_id) = workflow_id →
     claim.(SchedulerClaim.workflow_id) = workflow_id) →
  claims_of (update_claim db run_id f change).1 workflow_id ≤ claims_of db workflow_id.
Proof.
  intros Hch. unfold update_claim. destruct (_ !! run_id) as [claim|] eqn:Hc; [|done]. destruct (f claim) eqn:Hf; [|done].
  apply (count_rows_le _ _ _ []). simpl. intros k x [[<- <-]|[_ Hk]]%lookup_insert_Some Hx.
  - right. exists claim. split; [done|]. apply bool_decide_eq_true in Hx. apply bool_decide_eq_true. auto.
  - right. by exists x.
Qed.

Lemma put_claim_le db run_id row workflow_id :
  claims_of (db <| StoreTables.scheduler_claims ::= <[run_id := row]> |>) workflow_id
  ≤ S (claims_of db workflow_id)
  ∧ (row.(SchedulerClaim.workflow_id) ≠ workflow_id →
     claims_of (db <| StoreTables.scheduler_claims ::= <[run_id := row]> |>) workflow_id
     ≤ claims_of db workflow_id).
Proof.
  split.
  - apply (count_rows_le _ _ _ [run_id]). simpl. intros k x [[<- <-]|[_ Hk]]%lookup_insert_Some Hx.
    + left. by apply list_elem_of_singleton.
    + right. by exists x.
  - intros Hne. apply (count_rows_le _ _ _ []). simpl. intros k x [[<- <-]|[_ Hk]]%lookup_insert_Some Hx.
    + by apply bool_decide_eq_true in Hx.
    + right. by exists x.
Qed.

(** The row of a claim with room for it. *)
Lemma put_claim_capacity db run_id row run_id0 binding workflow policy :
  db.(StoreTables.runs) !! run_id0 = Some binding →
  db.(StoreTables.definitions) !! binding.(RunDefinitionBinding.definition_hash) = Some workflow →
  workflow.(CompiledWorkflowDefinition.runtime_policy) = Some policy →
  workflow_has_policy_capacity db binding.(RunDefinitionBinding.workflow_id)
    policy.(CompiledRuntimePolicy.concurrency) = true →
  row.(SchedulerClaim.workflow_id) = binding.(RunDefinitionBinding.workflow_id) →
  within_capacity db (db <| StoreTables.scheduler_claims ::= <[run_id := row]> |>).
Proof.
  intros Hb Hd Hp Hcap Hrow w Hw. destruct (put_claim_le db run_id row w) as [Hle Hne].
  destruct (decide (binding.(RunDefinitionBinding.workflow_id) = w)) as [<-|Hneq]; [|left; apply Hne; congruence].
  right. exists run_id0, binding, workflow, policy. split_and!; try done.
  intros n Hn. unfold workflow_has_policy_capacity in Hcap. rewrite Hn in Hcap. apply N.ltb_lt in Hcap. lia.
Qed.

Lemma definition_for_run_ok db run_id workflow :
  definition_for_run db run_id = Ok workflow →
  ∃ binding, db.(StoreTables.runs) !! run_id = Some binding
    ∧ db.(StoreTables.definitions) !! binding.(RunDefinitionBinding.definition_hash) = Some workflow.
Proof.
  unfold definition_for_run. intros Hd. apply result_bind_ok in Hd as (w & Hw%ok_or_ok & Hd). invert_ok.
  apply bind_Some in Hw as (b & Hb & Hw). by exists b.
Qed.

Lemma delete_claims_ok f db : policy_moves db (delete_claims f db).
Proof. eapply policy_claims; [done|]. apply capacity_le. intros w _. apply delete_claims_le. Qed.

Lemma suspend_claim_ok db run_id owner_id claim_id :
  policy_moves db (suspend_policy_claim db run_id owner_id claim_id).1.
Proof.
  unfold suspend_policy_claim.
  match goal with |- policy_moves _ (update_claim _ ?r ?f ?c).1 =>
    destruct (update_claim_claims db r f c) as [claims Hc]; pose proof (update_claim_le db r f c) as Hle end.
  rewrite Hc in Hle |- *. eapply policy_claims; [done|]. apply capacity_le. intros w Hw. apply Hle. intros claim _ Heq. done.
Qed.

Lemma renew_claim_ok db run_id owner_id claim_id now lease_ms db' claim :
  renew_policy_claim db run_id owner_id claim_id now lease_ms = Ok (db', claim) → policy_moves db db'.
Proof.
  unfold renew_policy_claim. intros Hr. apply result_bind_ok in Hr as (duration & _ & Hr).
  apply result_bind_ok in Hr as (expires_at & _ & Hr).
  match type of Hr with context [update_claim db ?r ?f ?c] =>
    destruct (update_claim_claims db r f c) as [claims Hc]; pose proof (update_claim_le db r f c) as Hle;
    destruct (update_claim db r f c) as [db1 changed] end.
  simpl in Hc, Hle. subst db1. invert_ok. simplify_eq. eapply policy_claims; [done|]. apply capacity_le. intros w Hw. by apply Hle.
Qed.

Lemma resume_claim_ok db run_id owner_id claim_id now db' resumed :
  resume_policy_claim db run_id owner_id claim_id now = Ok (db', resumed) → policy_moves db db'.
Proof.
  unfold resume_policy_claim. set (db1 := delete_expired_claims db _). intros Hr.
  assert (∀ w, claims_of db1 w ≤ claims_of db w) as Hle by (intros; apply delete_claims_le).
  apply result_bind_ok in Hr as (binding & Hb%ok_or_ok & Hr).
  apply result_bind_ok in Hr as (workflow & (b & Hb' & Hd)%definition_for_run_ok & Hr).
  rewrite Hb in Hb'. injection Hb' as <-.
  apply result_bind_ok in Hr as (policy & Hp%ok_or_ok & Hr). apply result_bind_ok in Hr as ([] & _ & Hr).
  destruct (workflow_has_policy_capacity _ _ _) eqn:Hcap; simpl in Hr.
  - apply Ok_inj in Hr. unfold update_claim in Hr.
    destruct (db1.(StoreTables.scheduler_claims) !! run_id) as [claim|]; [destruct (_ && _)|].
    2-3: injection Hr as <- <-; eapply policy_claims; [done|by apply capacity_le].
    injection Hr as <- <-. eapply policy_claims; [reflexivity|].
    eapply (capacity_trans _ db1); [done..|].
    eapply put_claim_capacity; [exact Hb|exact Hd|exact Hp|exact Hcap|done].
  - injection Hr as <- <-. eapply policy_claims; [done|by apply capacity_le].
Qed.

(** *** A claim *)

Lemma update_wait_rows db run_id waiting_for eligible_at now r :
  stored_rows (update_wait db run_id waiting_for eligible_at now).(StoreTables.indexes) r
  = stored_rows db.(StoreTables.indexes) r.
Proof.
  unfold stored_rows, update_wait. simpl. f_equal. destruct (decide (r = run_id)) as [->|Hne].
  - rewrite lookup_alter_eq. by destruct (_ !! run_id).
  - by rewrite lookup_alter_ne.
Qed.

Lemma update_wait_ok db run_id waiting_for eligible_at now :
  sound db (update_wait db run_id waiting_for eligible_at now).
Proof. apply sound_frame; try done. intros r. apply update_wait_rows. Qed.

Lemma append_start_ok run_id now version payloads :
  Forall (λ payload, lock_event payload = false ∧ is_outcome payload = false) payloads →
  ∀ db events db' events',
  append_start_events db events run_id now version payloads = Ok (db', events') →
  events = stored_events db run_id →
  ∃ new, appends db db' run_id new ∧ sound db db' ∧ RunEvent.payload <$> new = payloads.
Proof.
  induction 1 as [|payload payloads [Hl Ho] _ IH]; intros db events db' events' Ha ->; simpl in Ha.
  { invert_ok. simplify_eq. exists []. split_and!; [apply appends_nil|apply sound_refl|done]. }
  destruct (generated_event_id db) as [db0 event_id] eqn:Hid.
  apply result_bind_ok in Ha as ([[db1 events1] event] & Hone & Ha).
  eapply append_generated in Hone as [Hst ->]; [|done|done].
  pose proof (sto_appends _ _ _ _ _ _ _ _ _ _ Hst) as Hap.
  destruct (IH _ _ _ _ Ha) as (new & Hap' & Hs & Hp).
  { by rewrite (appends_stored _ _ _ _ _ Hap), decide_True. }
  exists (event :: new). split_and!.
  - by apply (appends_trans _ _ _ _ [event] new Hap).
  - eapply sound_trans; [by eapply sound_stores|done].
  - rewrite fmap_cons, Hp. f_equal. by rewrite (sto_event _ _ _ _ _ _ _ _ _ _ Hst).
Qed.

Lemma start_run_ok db workflow definition_hash run_id timeout_ms policy_now clock db' :
  start_run db (stored_events db run_id) workflow definition_hash run_id timeout_ms policy_now clock = Ok db' →
  ∃ event rest timeout_at,
    appends db db' run_id (event :: rest) ∧ sound db db'
    ∧ event.(RunEvent.payload) = RunEventPayload.RunExecutionStarted (RunExecutionStartedData.mk policy_now timeout_at)
    ∧ Forall (λ event : RunEvent, starts_execution event.(RunEvent.payload) = false) rest.
Proof.
  unfold start_run. intros Hs. apply result_bind_ok in Hs as (timeout_at & _ & Hs).
  apply result_bind_ok in Hs as (first & _ & Hs). apply result_bind_ok in Hs as ([db1 events] & Ha & Hs).
  apply result_bind_ok in Hs as (state & _ & Hs). apply Ok_inj in Hs as <-.
  apply append_start_ok in Ha as (new & Hap & Hso & Hp); [| |done].
  - destruct new as [|event rest]; [done|]. simpl in Hp. injection Hp as Hp Hrest.
    exists event, rest, timeout_at. split_and!; [done|done|done|].
    destruct (lifecycle_hook_for_event _ _); simpl in Hrest; [|by destruct rest].
    destruct rest as [|e [|]]; try done. injection Hrest as He. apply Forall_singleton. by rewrite He.
  - simpl. constructor; [done|]. destruct (lifecycle_hook_for_event _ _); simpl; by repeat constructor.
Qed.

Section claim.
Context (run_id owner_id : string) (lease_now policy_now expires_at : DateTime) (clock : nat → DateTime).
Context (db : StoreTables) (binding : RunDefinitionBinding) (workflow : CompiledWorkflowDefinition).
Context (policy : CompiledRuntimePolicy).
Hypothesis Hbinding : db.(StoreTables.runs) !! run_id = Some binding.
Hypothesis Hworkflow :
  db.(StoreTables.definitions) !! binding.(RunDefinitionBinding.definition_hash) = Some workflow.
Hypothesis Hpolicy : workflow.(CompiledWorkflowDefinition.runtime_policy) = Some policy.

Lemma update_wait_moves waiting_for eligible_at :
  policy_moves db (update_wait db run_id waiting_for eligible_at policy_now).
Proof.
  split; try done; [apply update_wait_ok|by apply capacity_le|left; by apply quiet_same].
Qed.

Lemma grant_claim_ok first_start db' outcome :
  workflow_has_policy_capacity db binding.(RunDefinitionBinding.workflow_id)
    policy.(CompiledRuntimePolicy.concurrency) = true →
  (first_start = true → workflow_rate_eligibility db binding.(RunDefinitionBinding.workflow_id)
     policy.(CompiledRuntimePolicy.rate_limit) policy_now = Ok PolicyRateEligibility.Eligible) →
  grant_claim run_id owner_id lease_now policy_now expires_at clock db (stored_events db run_id) workflow binding
    policy first_start = Ok (db', outcome) →
  policy_moves db db'.
Proof.
  intros Hcap Hrate. unfold grant_claim. cbn zeta beta iota delta [draw_uuid]. intros Hg.
  apply result_bind_ok in Hg as (db1 & Hins & Hg). unfold insert_claim in Hins.
  apply result_bind_ok in Hins as ([] & _ & Hins). apply Ok_inj in Hins.
  match type of Hins with ?d <| StoreTables.scheduler_claims ::= <[_ := ?r]> |> = _ =>
    pose proof (put_claim_capacity db run_id r run_id binding workflow policy Hbinding Hworkflow Hpolicy Hcap
      eq_refl) as Hroom end.
  apply result_bind_ok in Hg as (db2 & Hstart & Hg). apply Ok_inj in Hg as [= <- _].
  assert (sound db db1) as Hs1 by (subst; by apply sound_frame).
  assert (∃ new, appends db1 db2 run_id new ∧ sound db1 db2 ∧
    if first_start then ∃ event rest timeout_at, new = event :: rest
      ∧ event.(RunEvent.payload) = RunEventPayload.RunExecutionStarted (RunExecutionStartedData.mk policy_now timeout_at)
      ∧ Forall (λ event : RunEvent, starts_execution event.(RunEvent.payload) = false) rest
    else new = []) as (new & Hap & Hs2 & Hnew).
  { destruct first_start.
    - replace (stored_events db run_id) with (stored_events db1 run_id) in Hstart by by subst.
      apply start_run_ok in Hstart as (event & rest & timeout_at & Hap & Hs & Hp & Hr).
      exists (event :: rest). split_and!; [done|done|]. by exists event, rest, timeout_at.
    - apply Ok_inj in Hstart as <-. exists []. split_and!; [apply appends_nil|apply sound_refl|done]. }
  assert (∀ r, stored_events db2 r = stored_events db r ++ (if decide (r = run_id) then new else [])) as Hev.
  { intros r. rewrite (appends_stored _ _ _ _ _ Hap). by subst. }
  split; simpl; [|by rewrite ?(ap_runs _ _ _ _ Hap), ?(ap_definitions _ _ _ _ Hap), ?(ap_triggers _ _ _ _ Hap); subst..| |].
  - eapply sound_trans; [exact Hs1|]. eapply sound_trans; [exact Hs2|]. apply update_wait_ok.
  - intros w Hw. unfold claims_of. simpl. rewrite (ap_claims _ _ _ _ Hap). subst. apply (Hroom w Hw).
  - destruct first_start; [right|left].
    + destruct Hnew as (event & rest & timeout_at & -> & Hp & Hr). exists run_id, policy_now.
      exists binding, workflow, policy, event, rest, timeout_at. split_and!; try done. by apply Hrate.
    + subst new. intros r. exists []. split; [|done].
      change (stored_events _ r) with (stored_events db2 r) at 1. rewrite Hev. by destruct (decide _).
Qed.

Lemma claim_unclaimed_ok queue projection db' outcome :
  claim_unclaimed run_id owner_id lease_now policy_now expires_at clock db (stored_events db run_id) workflow
    binding policy queue projection = Ok (db', outcome) →
  policy_moves db db'.
Proof.
  unfold claim_unclaimed. intros Hc. apply result_bind_ok in Hc as ([] & _ & Hc).
  apply result_bind_ok in Hc as (rate & Hrate & Hc). destruct rate as [|eligible_at].
  - apply result_bind_ok in Hc as (wait & Hwait & Hc). destruct wait.
    + apply Ok_inj in Hc as [= <- _]. apply update_wait_moves.
    + eapply grant_claim_ok; [| |exact Hc].
      * unfold must_wait in Hwait. by destruct (workflow_has_policy_capacity _ _ _).
      * intros Hf. by rewrite Hf in Hrate.
  - apply Ok_inj in Hc as [= <- _]. apply update_wait_moves.
Qed.
End claim.

(** After claims have been deleted. *)
Lemma policy_moves_after db f db' : policy_moves (delete_claims f db) db' → policy_moves db db'.
Proof.
  intros [Hs Hr Hd Ht Hc Hst]. split; try done.
  - eapply sound_trans; [apply (pm_sound _ _ (delete_claims_ok f db))|done].
  - eapply capacity_trans; [apply delete_claims_le|done..].
Qed.

Lemma policy_moves_refl db : policy_moves db db.
Proof. split; try done; [by apply capacity_le|by left]. Qed.

Lemma try_claim_ok db run_id owner_id lease_now policy_now lease_ms clock db' outcome :
  try_claim_policy_run_at db run_id owner_id lease_now policy_now lease_ms clock = Ok (db', outcome) →
  policy_moves db db'.
Proof.
  unfold try_claim_policy_run_at. intros Hc. apply result_bind_ok in Hc as ([] & _ & Hc).
  apply result_bind_ok in Hc as (duration & _ & Hc). apply result_bind_ok in Hc as (expires_at & _ & Hc).
  cbv zeta in Hc. unfold delete_expired_claims in Hc.
  match type of Hc with context [delete_claims ?f db] => set (db1 := delete_claims f db) in * end.
  apply result_bind_ok in Hc as (binding & Hb%ok_or_ok & Hc).
  apply result_bind_ok in Hc as (workflow & (b & Hb' & Hd)%definition_for_run_ok & Hc).
  rewrite Hb in Hb'. injection Hb' as <-.
  apply result_bind_ok in Hc as (policy & Hp%ok_or_ok & Hc). apply result_bind_ok in Hc as (queue & _ & Hc).
  apply result_bind_ok in Hc as (events & ->%load_events_ok & Hc). apply result_bind_ok in Hc as (state & _ & Hc).
  apply result_bind_ok in Hc as ([] & _ & Hc).
  destruct (db1.(StoreTables.scheduler_claims) !! run_id) as [claim|].
  - apply result_bind_ok in Hc as (o & _ & Hc). apply Ok_inj in Hc as [= <- _]. apply policy_moves_refl.
  - eapply policy_moves_after. by eapply claim_unclaimed_ok.
Qed.
End transactions.
