(* ===== verification/StoreSafety.v ===== *)
(** * Safety of the durable store

    The store as a transition system: definitions, commits of events, transactions of the lock queue,
    of triggers and of claims, and openings, in any order.  In every state that can be reached a key
    has at most one holder, fencing tokens rise, the queue of a key is served in order and stays
    bounded. *)

From S2P Require Import Prelude GraphSearch Strings Json EventTypes ProjectionTypes Guards.
From S2P Require Import FoldRun FoldControlFlow FoldCorrection FoldApprovals FoldOperations.
From S2P Require Import FoldLifecycle IterationFold EventIdentities EventValidation Fold.
From S2P Require Import FoldFrames HistoryProperties ProjectionCache ModelTypes EngineExternals.
From S2P Require Import ModelQueries DefinitionValidation ModelRoundTrips HistoryRules.
From S2P Require Import PolicyTypes PolicyBundle Schedules DurableStore LockQueue Admission PolicyQueue.
From S2P Require Import DurableStoreProperties LockHistories LockTables LockTransactions TriggerProperties.

(** ** Identities of programmatic leases *)

Lemma programmatic_identity session_id lease_ms :
  session_id ≠ "" → (5000 ≤ lease_ms ≤ 600000)%N →
  programmatic_lock_lease_ms (programmatic_lock_execution_identity session_id lease_ms) = Some lease_ms.
Proof.
  intros Hs Hr. unfold programmatic_lock_lease_ms, programmatic_lock_execution_identity.
  rewrite strip_prefix_app. simpl. destruct (decimal_digits lease_ms) as [Hd _].
  change (decimal lease_ms +:+ ":" +:+ session_id) with (decimal lease_ms +:+ String ":" session_id).
  rewrite split_once_byte by by apply digits_free. simpl. assert (str_is_empty session_id = false) as -> by (by destruct session_id).
  simpl. rewrite parse_decimal by (unfold usize_modulus; lia). simpl. unfold in_range.
  by rewrite (proj2 (N.leb_le 5000 lease_ms)), (proj2 (N.leb_le lease_ms 600000)) by lia.
Qed.

(** ** The store as a transition system *)

Definition empty_tables : StoreTables :=
  {| StoreTables.definitions := ∅; StoreTables.runs := ∅; StoreTables.run_events := ∅;
     StoreTables.lock_resources := ∅; StoreTables.lock_waiters := ∅;
     StoreTables.indexes := RunIndexes.mk ∅ ∅ ∅ ∅; StoreTables.scheduler_claims := ∅;
     StoreTables.triggers := TriggerTables.mk ∅ ∅ ∅ ∅ ∅; StoreTables.uuids_drawn := 0 |}.

(** The leases a script may ask for, as [validate_programmatic_lock_input] admits them. *)
Definition valid_session (session_id : string) (lease_ms : N) : Prop :=
  session_id ≠ "" ∧ (5000 ≤ lease_ms ≤ 600000)%N.

Section system.
Context {externals : Externals} {engine : EngineExternals} {policies : PolicyExternals}.
Context {storage : StoreExternals} {zones : ScheduleExternals}.

(** A committed transaction of the lock queue at [now]. *)
Inductive lock_transaction (now : DateTime) (db db' : StoreTables) : Prop :=
| lt_register run_id lock_id key execution_identity iteration deadline p :
    register_lock_waiter_atomically_scoped db run_id lock_id key execution_identity iteration now deadline
    = Ok (db', p) → lock_transaction now db db'
| lt_release run_id lock_id iteration result outcome :
    release_lock_atomically_scoped db run_id lock_id iteration result now = Ok (db', outcome) →
    lock_transaction now db db'
| lt_renew run_id lock_id iteration outcome :
    renew_lock_lease_atomically_scoped db run_id lock_id iteration now = Ok (db', outcome) →
    lock_transaction now db db'
| lt_managed_effect run_id node_id invocation_id current :
    managed_effect_has_current_lock db run_id node_id invocation_id now = Ok (db', current) →
    lock_transaction now db db'
| lt_timeout run_id lock_id iteration p :
    timeout_lock_waiter_atomically_scoped db run_id lock_id iteration now = Ok (db', p) →
    lock_transaction now db db'
| lt_cancel run_id cancellation_id p :
    cancel_lock_waiters_atomically db run_id cancellation_id now = Ok (db', p) → lock_transaction now db db'
| lt_acquire_programmatic run_id node_id invocation_id session_id key acquire_timeout_ms lease_ms p :
    acquire_programmatic_lock_atomically db run_id node_id invocation_id session_id key acquire_timeout_ms
      lease_ms now = Ok (db', p) → lock_transaction now db db'
| lt_programmatic_state run_id session_id lease_ms p :
    programmatic_lock_state db run_id session_id lease_ms now = Ok (db', p) → lock_transaction now db db'
| lt_renew_programmatic run_id session_id lease_ms outcome :
    renew_programmatic_lock_atomically db run_id session_id lease_ms now = Ok (db', outcome) →
    lock_transaction now db db'
| lt_release_programmatic run_id session_id lease_ms released :
    valid_session session_id lease_ms →
    release_programmatic_lock_atomically db run_id session_id lease_ms now = Ok (db', released) →
    lock_transaction now db db'
| lt_cancel_programmatic run_id session_id lease_ms cancelled :
    cancel_programmatic_lock_waiter_atomically db run_id session_id lease_ms now = Ok (db', cancelled) →
    lock_transaction now db db'.

Lemma lock_transaction_safe now db db' : lock_transaction now db db' → locks_ok db → safe now db db'.
Proof.
  intros Ht Hok. destruct Ht as [ | | | | | | | | |run_id session_id lease_ms released [Hs Hl] Hr| ].
  10: eapply release_programmatic_safe; [done| |done]; by rewrite programmatic_identity.
  all: eauto using register_safe, release_safe, renew_safe, managed_effect_safe, timeout_safe, cancel_safe,
    acquire_programmatic_safe, programmatic_state_safe, renew_programmatic_safe, cancel_programmatic_safe.
Qed.

(** A committed transaction on triggers: an occurrence, an internal event or a cursor. *)
Inductive trigger_transaction (db db' : StoreTables) : Prop :=
| tt_admit request clock outcome :
    admit_trigger_occurrence db request clock = Ok (db', outcome) → trigger_transaction db db'
| tt_internal_event request clock depth outcome :
    admit_internal_event_occurrence db request clock = Ok (db', depth, outcome) → trigger_transaction db db'
| tt_register_schedule registration initial_next registered_at cursor initialized :
    register_schedule_cursor db registration initial_next registered_at = Ok (db', cursor, initialized) →
    trigger_transaction db db'
| tt_advance_schedule workflow_id trigger_id expected next updated_at cursor :
    advance_schedule_cursor db workflow_id trigger_id expected next updated_at = Ok (db', cursor) →
    trigger_transaction db db'
| tt_claim_schedule expected next request clock outcome cursor :
    claim_schedule_occurrence db expected next request clock = Ok (db', outcome, cursor) →
    trigger_transaction db db'
| tt_register_interval registration anchor_at registered_at cursor initialized :
    register_interval_cursor db registration anchor_at registered_at = Ok (db', cursor, initialized) →
    trigger_transaction db db'
| tt_advance_interval workflow_id trigger_id sequence expected next_sequence next updated_at cursor :
    advance_interval_cursor db workflow_id trigger_id sequence expected next_sequence next updated_at
    = Ok (db', cursor) → trigger_transaction db db'
| tt_claim_interval sequence expected next_sequence next request clock outcome cursor :
    claim_interval_occurrence db sequence expected next_sequence next request clock = Ok (db', outcome, cursor) →
    trigger_transaction db db'.

Lemma trigger_transaction_moves db db' :
  trigger_transaction db db' → locks_ok db → triggers_ok db → trigger_moves db db'.
Proof.
  intros Ht Hok Htr. destruct Ht as [request clock outcome Ha| | | | | | | ];
    [|eauto using internal_event_moves, register_schedule_moves, advance_schedule_moves, claim_schedule_moves,
        register_interval_moves, advance_interval_moves, claim_interval_moves..].
  apply result_bind_ok in Ha as ([] & _ & Ha). by eapply admit_moves.
Qed.

(** A committed transaction on the claims of schedulers. *)
Inductive policy_transaction (db db' : StoreTables) : Prop :=
| pt_claim run_id owner_id lease_now policy_now lease_ms clock outcome :
    try_claim_policy_run_at db run_id owner_id lease_now policy_now lease_ms clock = Ok (db', outcome) →
    policy_transaction db db'
| pt_renew run_id owner_id claim_id now lease_ms claim :
    renew_policy_claim db run_id owner_id claim_id now lease_ms = Ok (db', claim) → policy_transaction db db'
| pt_suspend run_id owner_id claim_id suspended :
    suspend_policy_claim db run_id owner_id claim_id = (db', suspended) → policy_transaction db db'
| pt_resume run_id owner_id claim_id now resumed :
    resume_policy_claim db run_id owner_id claim_id now = Ok (db', resumed) → policy_transaction db db'
| pt_release run_id owner_id claim_id released :
    release_policy_claim db run_id owner_id claim_id = (db', released) → policy_transaction db db'
| pt_live run_id now live : policy_run_has_live_claim db run_id now = (db', live) → policy_transaction db db'.

Lemma policy_transaction_moves db db' : policy_transaction db db' → policy_moves db db'.
Proof.
  intros Ht. destruct Ht as [ | |run_id owner_id claim_id s Hs| |run_id owner_id claim_id r Hr|run_id now l Hl].
  - by eapply try_claim_ok.
  - by eapply renew_claim_ok.
  - pose proof (suspend_claim_ok db run_id owner_id claim_id) as Hm. by rewrite Hs in Hm.
  - by eapply resume_claim_ok.
  - injection Hr as <- _. apply delete_claims_ok.
  - injection Hl as <- _. apply delete_claims_ok.
Qed.

Context (next_key : Cache → option string) (claims_start : bool).

(** One step of the store: a definition is registered, events other than those of locks (and, when
    [claims_start] holds, other than the starts of executions) are committed or rejected, a transaction of the lock queue, on triggers or on claims
    commits, or the store is opened anew. *)
Inductive store_step (store : DurableEventStore) : DurableEventStore → Prop :=
| st_definition workflow definition_hash db :
    register_definition store.(DurableEventStore.tables) workflow definition_hash = Ok db →
    store_step store (DurableEventStore.mk db store.(DurableEventStore.projection_cache))
| st_append run_id event_id occurred_at iteration payload now clock store' result :
    reserved_event claims_start payload = false →
    append_payload_scoped next_key store run_id event_id occurred_at iteration payload now clock
    = (store', result) → store_step store store'
| st_append_batch run_id iteration payloads clock store' result :
    Forall (λ item : string * DateTime * RunEventPayload, reserved_event claims_start item.2 = false) payloads →
    append_payloads_scoped_atomically next_key store run_id iteration payloads clock = (store', result) →
    store_step store store'
| st_lock now db :
    lock_transaction now store.(DurableEventStore.tables) db →
    store_step store (DurableEventStore.mk db store.(DurableEventStore.projection_cache))
| st_trigger db :
    trigger_transaction store.(DurableEventStore.tables) db →
    store_step store (DurableEventStore.mk db store.(DurableEventStore.projection_cache))
| st_policy db :
    policy_transaction store.(DurableEventStore.tables) db →
    store_step store (DurableEventStore.mk db store.(DurableEventStore.projection_cache))
| st_open now db :
    recover_store store.(DurableEventStore.tables) now = Ok db → store_step store (DurableEventStore.mk db ∅).

Inductive store_reachable : DurableEventStore → Prop :=
| sr_new : store_reachable (DurableEventStore.mk empty_tables ∅)
| sr_step store store' : store_reachable store → store_step store store' → store_reachable store'.

(** ** The invariant *)

Record store_ok (store : DurableEventStore) : Prop := {
  so_locks : locks_ok store.(DurableEventStore.tables);
  so_triggers : triggers_ok store.(DurableEventStore.tables);
  so_cache : cache_coherent (store_world store);
}.

(** What a step does to the tables. *)
Record effects (db db' : StoreTables) : Prop := {
  ef_evolves : evolves db db';
  ef_claims : within_capacity db db';
  ef_starts : claims_start = true → quiet db db' ∨ ∃ run_id at_, start_granted db db' run_id at_;
  ef_occurrences : db.(StoreTables.triggers).(TriggerTables.occurrences)
    ⊆ db'.(StoreTables.triggers).(TriggerTables.occurrences);
}.

Lemma empty_locks_ok : locks_ok empty_tables.
Proof.
  assert (∀ r i id l, ~ holder empty_tables r i id l) as Hn.
  { intros r i id l (s & Hs & [Hl _]). apply Ok_inj in Hs as <-. destruct i as [scope|]; [|done].
    by apply projected_lock_scoped in Hl as (? & ? & ? & _). }
  split; [intros r; by eexists|by intros r; split| |by intros ? ? ? ? ?%Hn|by intros ? ? ? ? ? ? ? ? ?%Hn].
  by split.
Qed.

Lemma empty_triggers_ok : triggers_ok empty_tables.
Proof.
  split; [done|by split|]. split; [done..|].
  by intros r [].
Qed.

(** The same claims. *)
Lemma same_claims db db' :
  db'.(StoreTables.scheduler_claims) = db.(StoreTables.scheduler_claims) → within_capacity db db'.
Proof. intros Hc. apply capacity_le. intros w _. unfold claims_of. by rewrite Hc. Qed.

Lemma effects_refl db : effects db db.
Proof. split; try done; [by apply same_claims|by left]. Qed.

(** The rows of the triggers only speak of the runs and of how their histories begin. *)
Lemma triggers_frame db db' :
  evolves db db' → db'.(StoreTables.triggers) = db.(StoreTables.triggers) →
  (∀ r binding, db'.(StoreTables.runs) !! r = Some binding → db.(StoreTables.runs) !! r = Some binding
     ∨ ∃ workflow,
         db.(StoreTables.definitions) !! binding.(RunDefinitionBinding.definition_hash) = Some workflow
         ∧ workflow.(CompiledWorkflowDefinition.workflow_id) = binding.(RunDefinitionBinding.workflow_id)) →
  triggers_ok db → triggers_ok db'.
Proof.
  intros Hev Ht Hr [Hb Hoc Hln]. split.
  - intros r b Hrb. destruct (Hr _ _ Hrb) as [Hold|(wf & Hwf & Hid)]; [destruct (Hb _ _ Hold) as (wf & Hwf & Hid)|];
      exists wf; (split; [eapply lookup_weaken; [done|apply Hev]|done]).
  - eapply occurrences_frame; [by rewrite Ht|apply Hev..|done].
  - eapply lineage_frame; [by rewrite Ht..| |apply Hev|done]. intros r source. unfold source_of_run. by rewrite Ht.
Qed.

(** A commit of events other than those of locks and starts. *)
Lemma committed_ok store store' run_id clock new state :
  store_ok store →
  committed next_key (λ payload, reserved_event claims_start payload = false) store store' run_id clock new state →
  store_ok store' ∧ effects store.(DurableEventStore.tables) store'.(DurableEventStore.tables).
Proof.
  intros [Hok Htr Hc] Hcm. pose proof Hcm as [He Hn Hq Hf _ Hd Hruns Hb Hbind Hr Hw Hcl Ht Hix Htag _].
  assert (store.(DurableEventStore.tables).(StoreTables.runs) ⊆ store'.(DurableEventStore.tables).(StoreTables.runs))
    as Hsub.
  { apply map_subseteq_spec. intros r b Hrb.
    destruct (decide (r = run_id)) as [->|Hne]; [by apply Hb|by rewrite Hruns]. }
  set (db1 := store.(DurableEventStore.tables)
    <|StoreTables.runs := store'.(DurableEventStore.tables).(StoreTables.runs)|>) in *.
  assert (locks_ok db1) as Hok1 by by apply (locks_ok_frame store.(DurableEventStore.tables)).
  assert (appends db1 store'.(DurableEventStore.tables) run_id new) as Hap by by split.
  assert (Forall (λ event : RunEvent, lock_event event.(RunEvent.payload) = false
    ∧ (claims_start = true → starts_execution event.(RunEvent.payload) = false)) new) as Hev.
  { eapply Forall_impl; [exact Hq|]. intros event [? Hs]%orb_false_iff. split; [done|]. by intros ->. }
  assert (sound db1 store'.(DurableEventStore.tables)) as Hs.
  { eapply sound_append; [done|done|by eexists|]. eapply Forall_impl; [exact Hev|]. by intros event [? _]. }
  assert (evolves store.(DurableEventStore.tables) store'.(DurableEventStore.tables)) as Hevo.
  { destruct (Hs Hok1) as [_ [Ep Ed Er Es Ew En]]. by split. }
  split; [split|split].
  - by apply Hs.
  - eapply triggers_frame; [done|done| |done]. intros r b Hrb.
    destruct (decide (r = run_id)) as [->|Hne]; [by apply Hbind|left; by rewrite <-Hruns].
  - eapply world_step_coherent; [|exact Hc]. by eapply committed_world.
  - done.
  - by apply same_claims.
  - intros Hcs. left. intros r. eexists. rewrite (with_events_stored _ _ _ _ _ He). split; [done|].
    case_decide; [|constructor]. eapply Forall_impl; [exact Hev|]. intros event [_ ?]. auto.
  - by rewrite Ht.
Qed.

Lemma definition_ok store workflow definition_hash db :
  store_ok store → register_definition store.(DurableEventStore.tables) workflow definition_hash = Ok db →
  store_ok (DurableEventStore.mk db store.(DurableEventStore.projection_cache))
  ∧ effects store.(DurableEventStore.tables) db.
Proof.
  intros [Hok Htr Hc] Hr. unfold register_definition in Hr. invert_ok; [by split; [|apply effects_refl]|].
  match goal with |- _ ∧ effects ?a ?b => assert (evolves a b) as Hev end.
  { split; try done; simpl; [|congruence]. by apply insert_subseteq. }
  split; [split; [by apply (locks_ok_frame store.(DurableEventStore.tables))| |done]|].
  - eapply triggers_frame; [done|done| |done]. by left.
  - split; [done|by apply same_claims|left; by apply quiet_same|done].
Qed.

(** An event list that grows behind a cache leaves it coherent. *)
Lemma coherent_prefix store db :
  cache_coherent (store_world store) → evolves store.(DurableEventStore.tables) db →
  cache_coherent (store_world (DurableEventStore.mk db store.(DurableEventStore.projection_cache))).
Proof.
  intros Hc Hev r s Hs. destruct (Hc r s Hs) as (Ht & rest & events & He & Hf). split; [done|].
  destruct (ev_prefix _ _ Hev r) as [more Hmore]. exists (rest ++ more), events. split; [|done].
  unfold history, stored_events in *. simpl in *. by rewrite Hmore, He, (assoc_L (++)).
Qed.

Lemma lock_effects now db db' : moves now db db' → effects db db'.
Proof.
  intros [Hev _ Hl Hr Hc Ht]. split; [done|by apply same_claims| |by rewrite Ht].
  left. intros r. destruct (Hl r) as (new & Hn & Hnew). exists new. split; [done|].
  eapply Forall_impl; [exact Hnew|]. intros event. simpl. by destruct (RunEvent.payload event).
Qed.

Lemma open_effects db now db' :
  recover_store db now = Ok db' → locks_ok db → triggers_ok db → locks_ok db' ∧ triggers_ok db' ∧ effects db db'.
Proof.
  intros Hr Hok Htr. apply recover_ok in Hr as (i & -> & Hi); [|done].
  match goal with |- locks_ok ?d ∧ _ => assert (sound db d) as Hs end. { by apply sound_frame. }
  destruct (Hs Hok) as [Hok' Hev]. split_and!; [done| |].
  - eapply triggers_frame; [done|done| |done]. by left.
  - split; [done| |left; by apply quiet_same|done].
    apply capacity_le. intros w _.
    change (claims_of db w) with (claims_of (db <| StoreTables.indexes := i |>) w). apply delete_claims_le.
Qed.

Lemma store_step_ok store store' :
  store_step store store' → store_ok store →
  store_ok store' ∧ effects store.(DurableEventStore.tables) store'.(DurableEventStore.tables).
Proof.
  intros Hstep [Hok Htr Hc].
  assert (∀ r, store_ok (DurableEventStore.mk store.(DurableEventStore.tables)
      (delete r store.(DurableEventStore.projection_cache)))) as Hdel.
  { intros r. split; [done|done|]. eapply world_step_coherent; [apply (rollback_world next_key)|done]. }
  destruct Hstep as [workflow hash db Hr|run_id event_id at_ iteration payload now clock store' r Hl Ha
                    |run_id iteration payloads clock store' r Hl Ha|now db Ht|db Ht|db Ht|now db Ho].
  - by eapply definition_ok.
  - eapply (append_payload_scoped_spec next_key (λ payload, reserved_event claims_start payload = false)) in Ha; [|done|done].
    destruct r as [[event p]|e|m]; [destruct Ha as (new & s & Hcm & _); by eapply committed_ok|..];
      destruct Ha as [-> | ->]; (split; [done || apply Hdel|apply effects_refl]).
  - eapply (append_payloads_scoped_spec next_key (λ payload, reserved_event claims_start payload = false)) in Ha; [|done|done].
    destruct r as [p|e|m]; [destruct Ha as (new & s & Hcm & _); by eapply committed_ok|..];
      destruct Ha as [-> | ->]; (split; [done || apply Hdel|apply effects_refl]).
  - destruct (lock_transaction_safe _ _ _ Ht Hok) as [Hok' Hmv]. pose proof (lock_effects _ _ _ Hmv) as Hef.
    split; [|done]. split; [done| |by apply coherent_prefix, Hef].
    eapply triggers_frame; [apply Hef|apply Hmv| |done]. left. by rewrite <-(mv_runs _ _ _ Hmv).
  - destruct (trigger_transaction_moves _ _ Ht Hok Htr) as [Hs Ht' Hcl _ Hq Hocc]. destruct (Hs Hok) as [Hok' Hev].
    split; [split; [done|by apply Ht'|by apply coherent_prefix]|]. split; [done|by apply same_claims|by left|done].
  - destruct (policy_transaction_moves _ _ Ht) as [Hs Hr Hd Ht' Hcl Hst]. destruct (Hs Hok) as [Hok' Hev].
    split; [split; [done| |by apply coherent_prefix]|split; [done|done|done|simpl; by rewrite Ht']].
    eapply triggers_frame; [done|done| |done]. left. by rewrite <-Hr.
  - destruct (open_effects _ _ _ Ho Hok Htr) as (Hok' & Htr' & Hef). split; [by split|done].
Qed.

Lemma reachable_ok store : store_reachable store → store_ok store.
Proof.
  induction 1 as [|store store' _ IH Hstep].
  - split; [apply empty_locks_ok|apply empty_triggers_ok|by intros ???].
  - by apply (store_step_ok _ _ Hstep).
Qed.

Lemma steps_evolve store store' :
  store_ok store → rtc store_step store store' →
  store_ok store' ∧ evolves store.(DurableEventStore.tables) store'.(DurableEventStore.tables).
Proof.
  intros Hok Hsteps. induction Hsteps as [|store store1 store' Hstep _ IH]; [done|].
  destruct (store_step_ok _ _ Hstep Hok) as [Hok1 Hef]. destruct (IH Hok1) as [? ?]. split; [done|].
  etrans; [apply Hef|done].
Qed.

(** ** Theorems *)

(** C3 A key has at most one holder: in every state of the store that definitions, commits, lock
    transactions and reopenings lead to, two locks of the workflow that committed histories say are
    held for the same key are one lock of one run and iteration; and its lease is the one of the row
    of the key, which no other waiter holds either. *)
Theorem keys_held_once store run_id iteration lock_id lock run_id' iteration' lock_id' lock' :
  store_reachable store →
  holder store.(DurableEventStore.tables) run_id iteration lock_id lock →
  holder store.(DurableEventStore.tables) run_id' iteration' lock_id' lock' →
  lock.(LockProjection.key) = lock'.(LockProjection.key) →
  run_id = run_id' ∧ iteration = iteration' ∧ lock_id = lock_id' ∧ lock = lock'
  ∧ ∃ o, owner_of store.(DurableEventStore.tables) lock.(LockProjection.key) = Some o ∧ leased_by run_id lock o
      ∧ ∀ id w, store.(DurableEventStore.tables).(StoreTables.lock_waiters) !! id = Some w →
          w.(LockWaiter.key) = lock.(LockProjection.key) → w.(LockWaiter.status) = WaiterStatus.held →
          w.(LockWaiter.run_id) = run_id ∧ w.(LockWaiter.node_execution_id) = lock.(LockProjection.execution_identity).
Proof.
  intros [Hok _ _]%reachable_ok Hh Hh' Hk.
  destruct (lo_exclusive _ Hok _ _ _ _ _ _ _ _ Hh Hh' Hk) as (<- & <- & <-).
  assert (lock = lock') as <-.
  { destruct Hh as (s & Hs & [Hl _]), Hh' as (s' & Hs' & [Hl' _]). congruence. }
  split_and!; try done. destruct (lo_holder _ Hok _ _ _ _ Hh) as (_ & o & Ho & Hlb).
  exists o. split_and!; [done|done|]. intros id w Hw Hkw Hs.
  destruct (to_held _ _ (lo_tables _ Hok) _ _ Hw Hs) as (o' & Ho' & <- & <-). rewrite Hkw in Ho'.
  unfold owner_of in Ho. unfold owner_in in Ho'. rewrite Ho in Ho'. injection Ho' as <-.
  by rewrite (lb_run _ _ _ Hlb), (lb_execution _ _ _ Hlb).
Qed.

(** C4 Fencing tokens rise: whatever the store does between two states, the later owner of a key
    has the same lease as the earlier one or a larger token, and the token of an owner is the
    largest that the key has given out. *)
Theorem fencing_tokens_rise store store' key o o' :
  store_reachable store → rtc store_step store store' →
  owner_of store.(DurableEventStore.tables) key = Some o →
  owner_of store'.(DurableEventStore.tables) key = Some o' →
  (same_lease o o' ∨ (o.(LockOwner.fencing_token) < o'.(LockOwner.fencing_token))%Z)
  ∧ LockResource.fencing_high_water <$> store'.(DurableEventStore.tables).(StoreTables.lock_resources) !! key
    = Some o'.(LockOwner.fencing_token).
Proof.
  intros Hok%reachable_ok Hsteps (hw & u & Hr)%owner_of_some (hw' & u' & Hr')%owner_of_some.
  destruct (steps_evolve _ _ Hok Hsteps) as [Hok' Hev].
  destruct (ev_resources _ _ Hev _ _ Hr) as (res & Hres & [_ Howner]). rewrite Hr' in Hres. injection Hres as <-.
  destruct (to_token _ _ (lo_tables _ (so_locks _ Hok)) _ _ Hr) as [_ Htok].
  destruct (to_token _ _ (lo_tables _ (so_locks _ Hok')) _ _ Hr') as [_ Htok'].
  rewrite Hr'. simpl. split; [|f_equal; by rewrite (Htok' o')].
  destruct (Howner o' eq_refl) as [(o0 & Ho0 & Hs)|Hlt]; [simpl in Ho0; simplify_eq; by left|right].
  by rewrite (Htok o).
Qed.

(** C14 The queue of a key is served in order: when a lock transaction at [now] grants a waiter its
    lease, whether it waited before the transaction or joined the queue in it, every waiter of the key
    with a smaller number that still waits afterwards has a deadline before [now]; and a waiter that
    joins the queue gets a number above all others of the key. *)
Theorem waiters_served_in_order store now db :
  store_reachable store → lock_transaction now store.(DurableEventStore.tables) db →
  (∀ ida a idb b,
     db.(StoreTables.lock_waiters) !! ida = Some a → a.(LockWaiter.status) = WaiterStatus.waiting →
     db.(StoreTables.lock_waiters) !! idb = Some b → granted b.(LockWaiter.status) →
     (∀ b0, store.(DurableEventStore.tables).(StoreTables.lock_waiters) !! idb = Some b0 →
        ~ granted b0.(LockWaiter.status)) →
     a.(LockWaiter.key) = b.(LockWaiter.key) → (a.(LockWaiter.sequence) < b.(LockWaiter.sequence))%Z →
     String.leb (to_rfc3339 now) a.(LockWaiter.deadline) = false)
  ∧ (∀ id w id0 w0, db.(StoreTables.lock_waiters) !! id = Some w →
       store.(DurableEventStore.tables).(StoreTables.lock_waiters) !! id = None →
       store.(DurableEventStore.tables).(StoreTables.lock_waiters) !! id0 = Some w0 →
       w0.(LockWaiter.key) = w.(LockWaiter.key) → (w0.(LockWaiter.sequence) < w.(LockWaiter.sequence))%Z).
Proof.
  intros [Hok _ _]%reachable_ok Ht. destruct (lock_transaction_safe _ _ _ Ht Hok) as [_ Hmv].
  split; [exact (mv_fifo _ _ _ Hmv)|apply (ev_new_rows _ _ (mv_evolves _ _ _ Hmv))].
Qed.

(** The rows of the lock queue are consistent in every state of the store: a key has an owner
    exactly when it has a held row, which is the owner's; at most 1024 waiters wait for a key; and a
    run has at most one row for an execution. *)
Theorem lock_rows_consistent store key :
  store_reachable store →
  (is_Some (owner_of store.(DurableEventStore.tables) key) ↔
     ∃ id w, store.(DurableEventStore.tables).(StoreTables.lock_waiters) !! id = Some w
       ∧ w.(LockWaiter.key) = key ∧ w.(LockWaiter.status) = WaiterStatus.held)
  ∧ (count_waiters store.(DurableEventStore.tables) (λ w, w.(LockWaiter.key) == key)
       ≤ LOCK_WAITERS_PER_KEY_LIMIT)%N
  ∧ (∀ id w id' w', store.(DurableEventStore.tables).(StoreTables.lock_waiters) !! id = Some w →
       store.(DurableEventStore.tables).(StoreTables.lock_waiters) !! id' = Some w' →
       w.(LockWaiter.run_id) = w'.(LockWaiter.run_id) →
       w.(LockWaiter.node_execution_id) = w'.(LockWaiter.node_execution_id) → id = id').
Proof.
  intros [Hok _ _]%reachable_ok. destruct (lo_tables _ Hok) as [_ Hh Ho Hu Hb]. split_and!.
  - split.
    + intros [o (id & w & ? & ? & ? & _)%Ho]. by exists id, w.
    + intros (id & w & Hw & <- & Hs). destruct (Hh _ _ Hw Hs) as (o & Hown & _). by exists o.
  - rewrite count_waiters_size. apply Hb.
  - exact Hu.
Qed.

(** C15 A release hands the key over: it ends the lease in the history of the run, and afterwards the
    key belongs to a lease with a larger token, or no waiter in time is left. *)
Theorem release_hands_over store run_id lock_id iteration result now db p :
  store_reachable store →
  release_lock_atomically_scoped store.(DurableEventStore.tables) run_id lock_id iteration result now
  = Ok (db, Ok p) →
  ∃ released token,
    projected_lock p iteration lock_id = Some released ∧ released.(LockProjection.status) = LockStatus.Released
    ∧ released.(LockProjection.fencing_token) = Some (i64_to_string token)
    ∧ match owner_of db released.(LockProjection.key) with
      | Some o => (token < o.(LockOwner.fencing_token))%Z
      | None => ∀ id w, db.(StoreTables.lock_waiters) !! id = Some w → waits_for released.(LockProjection.key) w →
          String.leb (to_rfc3339 now) w.(LockWaiter.deadline) = false
      end.
Proof.
  intros [Hok _ _]%reachable_ok (db1 & [Hok1 _] & held & o & db4 & s & g & Hrl & -> & Hg)%release_ok; [|done].
  destruct Hrl as [Ho Hlb _ (l & Hl & Hls & Hlk & _ & Hlt) Hfree [Hok4 Hmv4]]. pose proof (mv_evolves _ _ _ Hmv4) as Hev4.
  exists l, o.(LockOwner.fencing_token). split_and!; [done|done|done|]. rewrite Hlk.
  apply grant_oldest_safe in Hg as [[_ [Hev _ _ _ _ _]] Hnext]; [|done].
  destruct (owner_of_some _ _ _ Ho) as (hw & u & Hr1).
  destruct (ev_resources _ _ Hev4 _ _ Hr1) as (r4 & Hr4 & [Hle _]).
  destruct (ev_resources _ _ Hev _ _ Hr4) as (r5 & Hr5 & [_ Hown5]).
  destruct (to_token _ _ (lo_tables _ Hok1) _ _ Hr1) as [_ Htok]. specialize (Htok o eq_refl). simpl in Htok, Hle.
  unfold owner_of in Hfree, Hnext |- *. rewrite Hr4 in Hfree. rewrite Hr5 in Hnext |- *. simpl in *.
  destruct (LockResource.owner r5) as [o5|] eqn:Ho5; [|by destruct Hnext as [[]|]].
  destruct (Hown5 o5 eq_refl) as [(o4 & Ho4 & _)|Hlt5]; [congruence|lia].
Qed.

(** The history of a run that has ended never changes. *)
Lemma ended_history store store' run_id s :
  store_ok store → rtc store_step store store' →
  from_events (stored_events store.(DurableEventStore.tables) run_id) = Ok s →
  status_is_terminal s.(ProjectionFoldState.projection).(RunProjection.status) = true →
  store_ok store' ∧ from_events (stored_events store'.(DurableEventStore.tables) run_id) = Ok s.
Proof.
  intros Hok Hsteps Hs Ht. destruct (steps_evolve _ _ Hok Hsteps) as [Hok' Hev]. split; [done|].
  destruct (ev_prefix _ _ Hev run_id) as [more Hmore]. rewrite Hmore.
  destruct more as [|event more]; [by rewrite app_nil_r|].
  destruct (lo_folds _ (so_locks _ Hok') run_id) as [s' Hs']. rewrite Hmore in Hs'.
  destruct (apply_terminal _ event Ht) as [e He].
  unfold from_events in Hs, Hs'. rewrite apply_all_app, Hs in Hs'. simpl in Hs'. by rewrite He in Hs'.
Qed.

(** An expired owner whose run has ended cannot be settled. *)
Lemma ended_owner_stuck db run_id s iteration lock_id lock o expires_at now db' expired :
  locks_ok db → from_events (stored_events db run_id) = Ok s →
  status_is_terminal s.(ProjectionFoldState.projection).(RunProjection.status) = true → holds s.(ProjectionFoldState.projection) iteration lock_id lock →
  owner_of db lock.(LockProjection.key) = Some o → parse_stored_timestamp o.(LockOwner.expires_at) = Ok expires_at →
  (expires_at ≤ now)%Z → expire_lock_owner db lock.(LockProjection.key) now ≠ Ok (db', expired).
Proof.
  intros Hok Hs Ht Hh Ho Hp Hle He.
  assert (expired = true) as ->.
  { unfold expire_lock_owner in He. rewrite Ho, Hp in He. simpl in He.
    destruct (Z.ltb_spec now expires_at); [lia|]. destruct (is_some _); by invert_ok; simplify_eq. }
  apply expire_safe in He as [[Hok' [Hev _ _ _ _ _]] Hnone]; [|done].
  destruct (ev_prefix _ _ Hev run_id) as [more Hmore].
  destruct (lo_folds _ Hok' run_id) as [s' Hs']. assert (s' = s) as ->.
  { rewrite Hmore in Hs'. destruct more as [|event more]; [rewrite app_nil_r in Hs'; congruence|].
    destruct (apply_terminal _ event Ht) as [e He]. unfold from_events in Hs, Hs'.
    rewrite apply_all_app, Hs in Hs'. simpl in Hs'. by rewrite He in Hs'. }
  destruct (lo_holder _ Hok' run_id iteration lock_id lock) as (_ & o' & Ho' & _); [by exists s|]. congruence.
Qed.

(** C19 A run that has ended while its history holds a lock keeps the key for good: in every later
    state of the store the key belongs to the same lease of the finished run, so that no other run is
    ever granted it; and once the lease has expired every attempt to hand the key over fails. *)
Theorem finished_holder_blocks_key store store' run_id s iteration lock_id lock :
  store_reachable store → rtc store_step store store' →
  from_events (stored_events store.(DurableEventStore.tables) run_id) = Ok s →
  status_is_terminal s.(ProjectionFoldState.projection).(RunProjection.status) = true → holds s.(ProjectionFoldState.projection) iteration lock_id lock →
  ∃ o, owner_of store'.(DurableEventStore.tables) lock.(LockProjection.key) = Some o ∧ leased_by run_id lock o
    ∧ ∀ expires_at now, parse_stored_timestamp o.(LockOwner.expires_at) = Ok expires_at →
        (expires_at ≤ now)%Z → ∀ result,
        grant_oldest_lock_waiter store'.(DurableEventStore.tables) lock.(LockProjection.key) now ≠ Ok result.
Proof.
  intros Hok%reachable_ok Hsteps Hs Ht Hh. destruct (ended_history _ _ _ _ Hok Hsteps Hs Ht) as [[Hok' _ _] Hs'].
  destruct (lo_holder _ Hok' run_id iteration lock_id lock) as (_ & o & Ho & Hlb); [by exists s|].
  exists o. split_and!; [done|done|]. intros expires_at now Hp Hle [db g] Hg.
  unfold grant_oldest_lock_waiter in Hg. apply result_bind_ok in Hg as ([db1 expired] & He & _).
  by eapply ended_owner_stuck.
Qed.

(** C16 The projection cache never shows: in every state of the store a commit of one payload or of a
    batch returns the same result and leaves the same tables as it would with an empty cache, which
    folds the whole history. *)
Theorem commits_ignore_cache store run_id event_id occurred_at iteration payload now clock payloads :
  store_reachable store →
  let fresh := DurableEventStore.mk store.(DurableEventStore.tables) ∅ in
  let one st := append_payload_scoped next_key st run_id event_id occurred_at iteration payload now clock in
  let batch st := append_payloads_scoped_atomically next_key st run_id iteration payloads clock in
  (one store).2 = (one fresh).2
  ∧ (one store).1.(DurableEventStore.tables) = (one fresh).1.(DurableEventStore.tables)
  ∧ (batch store).2 = (batch fresh).2
  ∧ (batch store).1.(DurableEventStore.tables) = (batch fresh).1.(DurableEventStore.tables).
Proof.
  intros [_ _ Hc]%reachable_ok fresh one batch. assert (cache_coherent (store_world fresh)) as Hf by by intros ???.
  destruct (append_payload_scoped_agree next_key store fresh run_id event_id occurred_at iteration payload now
    clock eq_refl Hc Hf) as [H1r H1t].
  destruct (append_payloads_scoped_agree next_key store fresh run_id iteration payloads clock eq_refl Hc Hf)
    as [H2r H2t]. done.
Qed.

(** C13 A commit extends one history: when a payload is committed, the history of the run is extended
    by new events, the first of which is returned; the whole history folds to the projection that
    is returned and satisfies the definition of the run; nothing else in the tables changes but the
    binding of a new run.  A commit that fails leaves the tables as they were. *)
Theorem commit_extends_history store run_id event_id occurred_at iteration payload now clock store' r :
  store_reachable store →
  append_payload_scoped next_key store run_id event_id occurred_at iteration payload now clock = (store', r) →
  match r with
  | Ok (event, projection) => ∃ new workflow binding state,
      head new = Some event ∧ event.(RunEvent.event_id) = event_id ∧ projection = state.(ProjectionFoldState.projection)
      ∧ (∀ run_id', stored_events store'.(DurableEventStore.tables) run_id' =
           stored_events store.(DurableEventStore.tables) run_id' ++ (if decide (run_id' = run_id) then new else []))
      ∧ definition_for_run store'.(DurableEventStore.tables) run_id = Ok workflow
      ∧ store'.(DurableEventStore.tables).(StoreTables.runs) !! run_id = Some binding
      ∧ check_history workflow binding.(RunDefinitionBinding.definition_hash)
          (stored_events store'.(DurableEventStore.tables) run_id) clock = Ok state
      ∧ store'.(DurableEventStore.tables).(StoreTables.lock_waiters)
        = store.(DurableEventStore.tables).(StoreTables.lock_waiters)
      ∧ store'.(DurableEventStore.tables).(StoreTables.lock_resources)
        = store.(DurableEventStore.tables).(StoreTables.lock_resources)
      ∧ store.(DurableEventStore.tables).(StoreTables.runs) ⊆ store'.(DurableEventStore.tables).(StoreTables.runs)
  | _ => store'.(DurableEventStore.tables) = store.(DurableEventStore.tables)
  end.
Proof.
  intros [_ _ Hc]%reachable_ok Ha.
  eapply (append_payload_scoped_spec next_key (λ _, True)) in Ha; [|done|done].
  destruct r as [[event p]|e|m]; [|by destruct Ha as [-> | ->]..].
  destruct Ha as (new & state & Hcm & -> & Hhead & Hid).
  pose proof Hcm as [He Hn _ Hf (workflow & binding & Hw & Hbi & Hch) Hd Hruns Hb _ Hr Hwt _ _ _ _ _].
  pose proof (λ r, with_events_stored _ _ _ _ r He) as Hst.
  exists new, workflow, binding, state. split_and!; try done.
  - rewrite Hst, decide_True by done. done.
  - apply map_subseteq_spec. intros r b Hrb. destruct (decide (r = run_id)) as [->|Hne]; [by apply Hb|by rewrite Hruns].
Qed.
End system.
