(* ===== verification/QueueProperties.v ===== *)
(** * Admission, queues and claims

    In every state of the store that can be reached an occurrence of a trigger has admitted one run,
    internal events form no cycle, the claims on a workflow stay within its concurrency and its
    starts within its rate limit, and opening the store leaves the read models as the events
    say; a round of a schedule moves its cursor to the next instant and admits the latest one. *)

From S2P Require Import Prelude GraphSearch Strings Json EventTypes ProjectionTypes Guards.
From S2P Require Import FoldRun FoldControlFlow FoldCorrection FoldApprovals FoldOperations.
From S2P Require Import FoldLifecycle IterationFold EventIdentities EventValidation Fold.
From S2P Require Import FoldFrames HistoryProperties ProjectionCache ModelTypes EngineExternals.
From S2P Require Import ModelQueries DefinitionValidation ModelRoundTrips HistoryRules.
From S2P Require Import PolicyTypes PolicyBundle Schedules DurableStore LockQueue Admission PolicyQueue.
From S2P Require Import DurableStoreProperties LockHistories LockTables LockTransactions TriggerProperties.
From S2P Require Import StoreSafety.

Section queues.
Context {externals : Externals} {engine : EngineExternals} {policies : PolicyExternals}.
Context {storage : StoreExternals} {zones : ScheduleExternals}.
Context (next_key : Cache → option string) (claims_start : bool).
Implicit Types db : StoreTables.

Local Abbreviation reachable := (store_reachable next_key claims_start).
Local Abbreviation step := (store_step next_key claims_start).

(** ** Occurrences *)

Lemma steps_occurrences store store' :
  store_ok store → rtc step store store' →
  store_ok store' ∧ store.(DurableEventStore.tables).(StoreTables.triggers).(TriggerTables.occurrences)
    ⊆ store'.(DurableEventStore.tables).(StoreTables.triggers).(TriggerTables.occurrences).
Proof.
  intros Hok Hsteps. induction Hsteps as [|store store1 store' Hstep _ IH]; [done|].
  destruct (store_step_ok _ _ _ _ Hstep Hok) as [Hok1 Hef]. destruct (IH Hok1) as [? ?]. split; [done|].
  etrans; [apply Hef|done].
Qed.

(** The row of a request after its admission. *)
Lemma admission_row db request clock db' outcome :
  locks_ok db → admit_trigger_occurrence_in_transaction db request clock = Ok (db', outcome) →
  ∃ row, db'.(StoreTables.triggers).(TriggerTables.occurrences) !! outcome.(TriggerAdmissionOutcome.occurrence_id)
      = Some row
    ∧ row_for request row ∧ row.(StoredOccurrence.run_id) = outcome.(TriggerAdmissionOutcome.run_id)
    ∧ canonical_payload_hash request.(TriggerAdmissionRequest.payload) = Ok row.(StoredOccurrence.payload_hash)
    ∧ db'.(StoreTables.triggers).(TriggerTables.schedule_cursors)
      = db.(StoreTables.triggers).(TriggerTables.schedule_cursors).
Proof.
  intros Hok Ha.
  destruct (admit_ok _ _ _ _ _ Hok Ha) as [_ [[-> _ (row & Hrow & Hf & Hr & Hh)]|[Hadm _]]]; [by exists row|].
  destruct Hadm as [_ _ _ (row & event & Htr & Hw & Ht & _ & Hs & Hr & Hh & _) _ _].
  exists row. rewrite Htr. simpl. rewrite lookup_insert_eq. by split_and!.
Qed.

(** C10 An occurrence of a trigger admits one run: once a source identity of a trigger has been admitted,
    every later admission of it, whatever the store has done in between, changes nothing, reports
    the same run as a duplicate, and is accepted for the payload that was admitted only. *)
Theorem occurrences_admitted_once store request clock db outcome store' request' clock' db' outcome' :
  reachable store → admit_trigger_occurrence store.(DurableEventStore.tables) request clock = Ok (db, outcome) →
  rtc step (DurableEventStore.mk db store.(DurableEventStore.projection_cache)) store' →
  request'.(TriggerAdmissionRequest.workflow_id) = request.(TriggerAdmissionRequest.workflow_id) →
  request'.(TriggerAdmissionRequest.trigger_id) = request.(TriggerAdmissionRequest.trigger_id) →
  request'.(TriggerAdmissionRequest.source_identity) = request.(TriggerAdmissionRequest.source_identity) →
  admit_trigger_occurrence store'.(DurableEventStore.tables) request' clock' = Ok (db', outcome') →
  db' = store'.(DurableEventStore.tables)
  ∧ outcome' = TriggerAdmissionOutcome.mk outcome.(TriggerAdmissionOutcome.occurrence_id)
                 outcome.(TriggerAdmissionOutcome.run_id) true
  ∧ canonical_payload_hash request'.(TriggerAdmissionRequest.payload)
    = canonical_payload_hash request.(TriggerAdmissionRequest.payload).
Proof.
  intros Hok%reachable_ok Ha Hsteps Ew Et Es Ha'.
  destruct (proj1 (result_bind_ok _ _ _) Ha) as ([] & _ & Ha0).
  destruct (admission_row _ _ _ _ _ (so_locks _ Hok) Ha0) as (row & Hrow & (Fw & Ft & Fs) & Hr & Hh & _).
  destruct (store_step_ok next_key claims_start store (DurableEventStore.mk db store.(DurableEventStore.projection_cache)))
    as [Hok1 _]; [apply st_trigger; by eapply tt_admit|done|].
  destruct (steps_occurrences _ _ Hok1 Hsteps) as [Hok' Hsub].
  pose proof (lookup_weaken _ _ _ _ Hrow Hsub) as Hrow'.
  apply result_bind_ok in Ha' as ([] & _ & Ha').
  destruct (admit_ok _ _ _ _ _ (so_locks _ Hok') Ha') as [_ [[-> Hd (row' & Hr' & (Gw & Gt & Gs) & Hrun & Hh')]|[_ Hnone]]].
  - assert (outcome.(TriggerAdmissionOutcome.occurrence_id) = outcome'.(TriggerAdmissionOutcome.occurrence_id)) as Eid.
    { eapply (oc_identity _ (tr_occurrences _ (so_triggers _ Hok'))); [done|done|]. split_and!; congruence. }
    rewrite <-Eid in Hr'. assert (row' = row) as -> by congruence. split_and!; [done| |congruence].
    destruct outcome'. simpl in *. congruence.
  - destruct (Hnone _ _ Hrow'). unfold row_for. by rewrite Ew, Et, Es.
Qed.

(** C18 Internal events form no cycle: in no state of the store is a run, through the events that runs
    publish and the runs that they start, an ancestor of itself. *)
Theorem internal_events_acyclic store run_id :
  reachable store → ~ tc (parent_of store.(DurableEventStore.tables)) run_id run_id.
Proof. intros Hok%reachable_ok. apply (ln_acyclic _ (tr_lineage _ (so_triggers _ Hok))). Qed.

(** ** Schedules *)

Definition schedule_row db (registration : ScheduleRuntimeRegistration) : option StoredSchedule :=
  db.(StoreTables.triggers).(TriggerTables.schedule_cursors)
    !! (schedule_workflow_id registration, schedule_trigger_id registration).

(** A cursor moves from the instant that was expected to the next one, and nothing else changes. *)
Lemma cursor_advanced db registration expected next updated db' cursor :
  advance_schedule_cursor db (schedule_workflow_id registration) (schedule_trigger_id registration)
    expected next updated = Ok (db', cursor) →
  StoredSchedule.next_scheduled_at <$> schedule_row db registration = Some (to_rfc3339 expected)
  ∧ StoredSchedule.next_scheduled_at <$> schedule_row db' registration = Some (to_rfc3339 next)
  ∧ db'.(StoreTables.triggers).(TriggerTables.occurrences)
    = db.(StoreTables.triggers).(TriggerTables.occurrences).
Proof.
  unfold advance_schedule_cursor, update_schedule_cursor, schedule_row. intros Ha. invert_ok. simplify_eq.
  simplify_guards. unfold put_schedule. simpl. rewrite lookup_insert_eq. simpl.
  split_and!; [congruence|done|done].
Qed.

(** The first instant of a schedule after a time, and the last that is not after it. *)
Definition first_after (schedule : WomlSchedule) (now t : DateTime) : Prop :=
  occurrence schedule t ∧ (now < t)%Z ∧ ∀ u, occurrence schedule u → (now < u)%Z → (t ≤ u)%Z.
Definition last_until (schedule : WomlSchedule) (now t : DateTime) : Prop :=
  occurrence schedule t ∧ (t ≤ now)%Z ∧ ∀ u, occurrence schedule u → (u ≤ now)%Z → (u ≤ t)%Z.

Lemma next_after_first schedule now t : next_after schedule now = Ok t → first_after schedule now t.
Proof. intros Hn. pose proof (next_after_exact schedule now) as He. by rewrite Hn in He. Qed.
Lemma latest_last schedule now t : latest_at_or_before schedule now = Ok t → last_until schedule now t.
Proof. intros Hn. pose proof (latest_at_or_before_exact schedule now) as He. by rewrite Hn in He. Qed.

(** What a round that moved the cursor has done. *)
Definition round_moved db db' (registration : ScheduleRuntimeRegistration) (expected now : DateTime)
    (reason : ProgressReason) (outcome : option TriggerAdmissionOutcome) : Prop :=
  let schedule := schedule_of registration in
  (∃ next, first_after schedule now next
     ∧ StoredSchedule.next_scheduled_at <$> schedule_row db registration = Some (to_rfc3339 expected)
     ∧ StoredSchedule.next_scheduled_at <$> schedule_row db' registration = Some (to_rfc3339 next))
  ∧ match outcome with
    | Some outcome =>
        ∃ planned row, last_until schedule now planned
          ∧ (schedule_on_missed registration = ScheduleMisfirePolicy.Skip → planned = expected)
          ∧ reason = (if decide (planned = expected) then Advanced else MisfireRunOnce)
          ∧ db'.(StoreTables.triggers).(TriggerTables.occurrences)
              !! outcome.(TriggerAdmissionOutcome.occurrence_id) = Some row
          ∧ row_for (schedule_admission registration planned now) row
          ∧ row.(StoredOccurrence.run_id) = outcome.(TriggerAdmissionOutcome.run_id)
    | None =>
        schedule_on_missed registration = ScheduleMisfirePolicy.Skip ∧ reason = MisfireSkipped
        ∧ (∃ u, occurrence schedule u ∧ (expected < u ≤ now)%Z)
        ∧ db'.(StoreTables.triggers).(TriggerTables.occurrences)
          = db.(StoreTables.triggers).(TriggerTables.occurrences)
    end.

Lemma claim_planned_moved db registration cursor planned next now reason clock db' r :
  locks_ok db → first_after (schedule_of registration) now next →
  last_until (schedule_of registration) now planned →
  (schedule_on_missed registration = ScheduleMisfirePolicy.Skip →
     planned = cursor.(ScheduleCursor.next_scheduled_at)) →
  reason = (if decide (planned = cursor.(ScheduleCursor.next_scheduled_at)) then Advanced else MisfireRunOnce) →
  claim_planned db registration cursor planned next now reason clock = (db', r) →
  match r with
  | Moved _ reason outcome =>
      round_moved db db' registration cursor.(ScheduleCursor.next_scheduled_at) now reason outcome
  | _ => db' = db
  end.
Proof.
  intros Hok Hnext Hplanned Hskip Hreason. unfold claim_planned.
  destruct (claim_schedule_occurrence _ _ _ _ _) as [[[db1 outcome] cursor1]|[]|] eqn:Hc;
    intros [= <- <-]; try done.
  unfold claim_schedule_occurrence in Hc. apply result_bind_ok in Hc as ([] & _ & Hc).
  apply result_bind_ok in Hc as ([] & _ & Hc).
  apply result_bind_ok in Hc as ([db2 o] & Ha & Hc). apply result_bind_ok in Hc as ([db3 c] & Hadv & Hc).
  apply Ok_inj in Hc as [= -> -> ->].
  destruct (admission_row _ _ _ _ _ Hok Ha) as (row & Hrow & Hfor & Hrun & _ & Hcur).
  apply (cursor_advanced _ registration) in Hadv as (Hbefore & Hafter & Hocc).
  assert (schedule_row db registration = schedule_row db2 registration) as Hsame
    by (unfold schedule_row; by rewrite Hcur).
  split; [exists next; by rewrite Hsame|]. exists planned, row. rewrite Hocc. by split_and!.
Qed.

(** C17 A round of a schedule does what its policy says: when the planned instant of the cursor has come,
    the cursor moves, from that instant only, to the first instant of the schedule after now, and
    the run of the last instant that has come is admitted, in the same transaction; when
    several instants have come and missed ones are skipped, the cursor moves and no run is admitted.
    A round that does not move the cursor changes nothing. *)
Theorem schedule_round_exact store registration cursor now clock db' r :
  reachable store → occurrence (schedule_of registration) cursor.(ScheduleCursor.next_scheduled_at) →
  schedule_round store.(DurableEventStore.tables) registration cursor now clock = (db', r) →
  match r with
  | Moved _ reason outcome =>
      (cursor.(ScheduleCursor.next_scheduled_at) ≤ now)%Z
      ∧ round_moved store.(DurableEventStore.tables) db' registration
          cursor.(ScheduleCursor.next_scheduled_at) now reason outcome
  | _ => db' = store.(DurableEventStore.tables)
  end.
Proof.
  intros Hok%reachable_ok Hcur. unfold schedule_round.
  set (expected := cursor.(ScheduleCursor.next_scheduled_at)) in *. set (schedule := schedule_of registration) in *.
  destruct (Z.ltb_spec now expected) as [Hlt|Hge]; [by intros [= <- <-]|]. unfold or_stop at 1.
  destruct (next_after schedule expected) as [following|e|m] eqn:Hf; [|by intros [= <- <-]..].
  apply next_after_first in Hf as (Ho & Hlt & Hfirst).
  assert (∀ reason planned next, first_after schedule now next → last_until schedule now planned →
    (schedule_on_missed registration = ScheduleMisfirePolicy.Skip → planned = expected) →
    reason = (if decide (planned = expected) then Advanced else MisfireRunOnce) →
    claim_planned store.(DurableEventStore.tables) registration cursor planned next now reason clock = (db', r) →
    match r with
    | Moved _ reason outcome => (expected ≤ now)%Z
        ∧ round_moved store.(DurableEventStore.tables) db' registration expected now reason outcome
    | _ => db' = store.(DurableEventStore.tables)
    end) as Hclaim.
  { intros reason planned next Hn Hp Hs Hr Hc.
    pose proof (claim_planned_moved _ _ _ _ _ _ _ _ _ _ (so_locks _ Hok) Hn Hp Hs Hr Hc). by destruct r. }
  destruct (Z.leb_spec following now) as [Hle|Hgt].
  2: { (* one instant has come *)
    apply Hclaim; [|split_and!; [done|lia|]|done|by rewrite decide_True].
    - split_and!; [done|lia|]. intros u Hu Hn. apply Hfirst; [done|lia].
    - intros u Hu Hn. destruct (Z.le_gt_cases u expected); [done|]. specialize (Hfirst u Hu). lia. }
  cbn [andb]. case_bool_decide as Hskip; unfold or_stop.
  - destruct (next_after schedule now) as [next|e|m] eqn:Hn; [|by intros [= <- <-]..].
    apply next_after_first in Hn. unfold skip_misfire.
    destruct (advance_schedule_cursor _ _ _ _ _ _) as [[db1 cursor1]|[]|] eqn:Hadv; intros [= <- <-]; try done.
    apply cursor_advanced in Hadv as (? & ? & ?). split; [done|]. split; [by exists next|].
    split_and!; [done|done|by exists following|done].
  - destruct (latest_at_or_before schedule now) as [planned|e|m] eqn:Hp; [|by intros [= <- <-]..].
    apply latest_last in Hp as Hlast.
    destruct (next_after schedule now) as [next|e|m] eqn:Hn; [|by intros [= <- <-]..].
    apply Hclaim; [by apply next_after_first|done|done|].
    destruct Hlast as (_ & _ & Hmax). specialize (Hmax following Ho Hle). rewrite decide_False; [done|lia].
Qed.

(** ** Concurrency *)

(** Every definition of a workflow with a policy limits its concurrency to [limit]. *)
Definition concurrency_at_most db (workflow_id : string) (limit : N) : Prop :=
  ∀ hash workflow policy, db.(StoreTables.definitions) !! hash = Some workflow →
    workflow.(CompiledWorkflowDefinition.workflow_id) = workflow_id → workflow.(CompiledWorkflowDefinition.runtime_policy) = Some policy →
    ∃ n, policy.(CompiledRuntimePolicy.concurrency) = Some n ∧ (n ≤ limit)%N.

(** C11 The concurrency of a workflow is limited: when every definition of a workflow that the store
    holds limits its concurrency to [limit], at most [limit] of its runs are claimed by schedulers
    (claims of waiting runs are kept apart), in every state of the store. *)
Theorem concurrency_limited store workflow_id limit :
  reachable store → workflow_id ≠ SUSPENDED_POLICY_WORKFLOW_ID →
  concurrency_at_most store.(DurableEventStore.tables) workflow_id limit →
  (N.of_nat (claims_of store.(DurableEventStore.tables) workflow_id) ≤ limit)%N.
Proof.
  intros Hr Hne. induction Hr as [|store store' Hr IH Hstep]; intros Hlim; [by apply N.le_0_l|].
  pose proof (reachable_ok _ _ _ Hr) as Hok. destruct (store_step_ok _ _ _ _ Hstep Hok) as [_ Hef].
  pose proof (ev_definitions _ _ (ef_evolves _ _ _ Hef)) as Hd.
  destruct (ef_claims _ _ _ Hef workflow_id Hne) as [Hle|(r & b & wf & policy & Hb & Hw & Hwf & Hp & Hn)].
  - assert (concurrency_at_most store.(DurableEventStore.tables) workflow_id limit) as Hlim0.
    { intros hash wf policy Hwf. apply (Hlim hash). by eapply lookup_weaken. }
    specialize (IH Hlim0). lia.
  - destruct (tr_bindings _ (so_triggers _ Hok) _ _ Hb) as (wf' & Hwf' & Hid). simplify_eq.
    destruct (Hlim _ wf policy (lookup_weaken _ _ _ _ Hwf Hd) Hid Hp) as (n & Hn' & Hle).
    specialize (Hn n Hn'). lia.
Qed.

(** ** Rates *)

Definition rate_is db (workflow_id : string) (rate : CompiledRateLimitPolicy) : Prop :=
  ∀ hash workflow policy, db.(StoreTables.definitions) !! hash = Some workflow →
    workflow.(CompiledWorkflowDefinition.workflow_id) = workflow_id → workflow.(CompiledWorkflowDefinition.runtime_policy) = Some policy →
    policy.(CompiledRuntimePolicy.rate_limit) = Some rate.

(** The row of a start. *)
Lemma started_row db workflow_id run_id at_ :
  locks_ok db → started db workflow_id run_id at_ →
  db.(StoreTables.indexes).(RunIndexes.policy_starts) !! run_id = Some (PolicyStart.mk workflow_id (to_rfc3339 at_)).
Proof.
  intros Hok (b & first & s & Hb & Hw & Hf & Ha & Hs & Hat).
  pose proof (ix_rows _ _ (lo_indexed _ Hok run_id)) as Hrow. apply (f_equal snd) in Hrow.
  unfold derived_rows in Hrow. rewrite Hb, Hf, Hs in Hrow. simpl in Hrow. unfold policy_rows, derived_policy in Hrow.
  destruct (RunEvent.payload first); try done. apply (f_equal snd) in Hrow. simpl in Hrow. rewrite Hrow, Hat. simpl. by subst.
Qed.

Lemma parse_starts_length starts times : parse_starts starts = Ok times → length times = length starts.
Proof.
  revert times. induction starts as [|start starts IH]; intros times Hp; simpl in Hp; [by apply Ok_inj in Hp as <-|].
  invert_ok. simpl. f_equal. by apply IH.
Qed.

(** A start that the rate limit allows is one of less than [count] in its window. *)
Lemma eligible_starts db workflow_id rate at_ window rs :
  workflow_rate_eligibility db workflow_id (Some rate) at_ = Ok PolicyRateEligibility.Eligible →
  window = (Z.of_N rate.(CompiledRateLimitPolicy.window_ms) * NANOS_PER_MILLI)%Z →
  NoDup rs →
  (∀ r, r ∈ rs → ∃ t, db.(StoreTables.indexes).(RunIndexes.policy_starts) !! r
       = Some (PolicyStart.mk workflow_id (to_rfc3339 t))
     ∧ String.ltb (to_rfc3339 (at_ - window)) (to_rfc3339 t) = true) →
  length rs < N.to_nat rate.(CompiledRateLimitPolicy.count).
Proof.
  intros He -> Hnd Hrs. unfold workflow_rate_eligibility in He.
  apply result_bind_ok in He as (window & Hw%ok_or_ok & He).
  apply result_bind_ok in He as (cutoff & Hc%expect_ok%add_milliseconds_spec & He).
  apply result_bind_ok in He as (times & Hp%parse_starts_length & He). cbv zeta in He.
  rewrite merge_sort_Permutation in He. rewrite merge_sort_Permutation in Hp.
  destruct (Nat.ltb_spec (length times) (N.to_nat rate.(CompiledRateLimitPolicy.count))) as [Hlt|_].
  2: { apply result_bind_ok in He as (oldest & _ & He). by apply result_bind_ok in He as (? & _ & ?). }
  eapply Nat.le_lt_trans; [|exact Hlt]. rewrite Hp.
  assert (cutoff = (at_ - Z.of_N rate.(CompiledRateLimitPolicy.window_ms) * NANOS_PER_MILLI)%Z) as ->.
  { unfold i64_try_from in Hw. case_match; [|done]. injection Hw as <-. lia. }
  set (text := to_rfc3339 _) in *.
  set (rows := filter (λ row : string * PolicyStart,
    bool_decide (row.2.(PolicyStart.workflow_id) = workflow_id) && String.ltb text row.2.(PolicyStart.started_at) = true)
    (btree_iter db.(StoreTables.indexes).(RunIndexes.policy_starts))).
  assert (length (starts_after db workflow_id text) = length rows) as ->.
  { unfold starts_after, rows. induction (btree_iter _) as [|row l IH]; [done|].
    rewrite filter_cons. simpl. destruct (_ && _); simpl; [f_equal|]; exact IH. }
  rewrite <-(length_fmap fst rows). apply submseteq_length, NoDup_submseteq; [done|].
  intros r Hr. destruct (Hrs r Hr) as (t & Hrow & Ht). apply list_elem_of_fmap.
  eexists (r, _). split; [done|]. apply list_elem_of_filter. split; [|by apply elem_of_btree].
  simpl. by rewrite bool_decide_eq_true_2.
Qed.

(** The only run that a granted start starts. *)
Lemma granted_started db db' run_id at_ workflow_id r t :
  locks_ok db → db.(StoreTables.runs) ⊆ db'.(StoreTables.runs) → start_granted db db' run_id at_ →
  started db' workflow_id r t →
  started db workflow_id r t ∨ (r = run_id ∧ t = at_
    ∧ ∃ binding, db.(StoreTables.runs) !! run_id = Some binding
        ∧ binding.(RunDefinitionBinding.workflow_id) = workflow_id).
Proof.
  intros Hok Hruns (b & wf & policy & event & rest & timeout & Hb & _ & _ & _ & Hp & Hq & Hev) Hst.
  destruct Hst as (b' & first & s' & Hb' & Hw & Hf & Ha & Hs' & Hat).
  rewrite Hev in Hf, Hs'. case_decide as Hr.
  - right. subst r. rewrite (lookup_weaken _ _ _ _ Hb Hruns) in Hb'. injection Hb' as <-.
    split_and!; [done| |by exists b]. destruct (lo_folds _ Hok run_id) as [s Hs].
    rewrite (cons_middle event), (assoc_L (++)) in Hf, Hs'.
    pose proof Hs' as Hs1. unfold from_events in Hs1. rewrite apply_all_app in Hs1.
    apply result_bind_ok in Hs1 as (s1 & Hs1 & _).
    rewrite (start_untouched _ _ _ _ _ Hf Ha Hs1 Hs' Hq) in Hat.
    apply from_events_snoc in Hs1 as (s0 & _ & Happ).
    destruct (apply_ok _ _ _ Happ) as [p' Hap]. assert (in_iteration event = false) as Hi.
    { destruct (in_iteration event) eqn:Hi; [|done]. apply iteration_payload_ok in Happ; [|done]. by rewrite Hp in Happ. }
    pose proof (dispatch_top _ _ _ _ (applied_dispatch _ _ _ _ Hap) Hi) as Hd. unfold apply_payload in Hd.
    rewrite Hp in Hd. simpl in Hd. rewrite (applied_projection _ _ _ _ Hap) in Hat. simpl in Hat.
    unfold apply_run_execution_started in Hd. 
    apply result_bind_ok in Hd as (p1 & Hd & Hp1). apply result_bind_ok in Hd as ([] & _ & Hd).
    apply Ok_inj in Hd as <-. apply Ok_inj in Hp1 as [= <- _]. simpl in Hat. congruence.
  - rewrite app_nil_r in Hf, Hs'. left.
    destruct (ix_bound _ _ (lo_indexed _ Hok r)) as [b0 Hb0]; [by intros Hn; rewrite Hn in Hf|].
    rewrite (lookup_weaken _ _ _ _ Hb0 Hruns) in Hb'. injection Hb' as <-. by exists b0, first, s'.
Qed.

(** C12 The starts of a workflow respect its rate limit: when every definition of a workflow that the
    store holds allows [count] starts per window, at most [count] of its admitted runs have been
    started in any window of that length, however the clocks of the schedulers have run.  Starts of
    executions are committed by the claims of schedulers only, as the source does, and the order of
    the texts of times is assumed around the window. *)
Theorem rate_limited store workflow_id rate window from rs :
  store_reachable next_key true store → rate_is store.(DurableEventStore.tables) workflow_id rate →
  window = (Z.of_N rate.(CompiledRateLimitPolicy.window_ms) * NANOS_PER_MILLI)%Z →
  (∀ x y, (from - window ≤ x)%Z → (x < y)%Z → (y ≤ from + window)%Z →
     String.ltb (to_rfc3339 x) (to_rfc3339 y) = true) →
  NoDup rs →
  (∀ r, r ∈ rs → ∃ t, started store.(DurableEventStore.tables) workflow_id r t ∧ (from < t ≤ from + window)%Z) →
  length rs ≤ N.to_nat rate.(CompiledRateLimitPolicy.count).
Proof.
  intros Hr Hrate -> Htext. revert rs Hrate.
  induction Hr as [|store store' Hr IH Hstep]; intros rs Hrate Hnd Hrs.
  { destruct rs as [|r rs]; [simpl; lia|]. destruct (Hrs r) as (t & (b & _ & _ & Hb & _) & _); [by left|done]. }
  pose proof (reachable_ok _ _ _ Hr) as Hok. destruct (store_step_ok _ _ _ _ Hstep Hok) as [_ Hef].
  pose proof (ef_evolves _ _ _ Hef) as Hev. pose proof (ev_runs _ _ Hev) as Hruns.
  assert (rate_is store.(DurableEventStore.tables) workflow_id rate) as Hrate0.
  { intros hash wf policy Hwf. apply (Hrate hash). eapply lookup_weaken; [done|apply Hev]. }
  destruct (ef_starts _ _ _ Hef eq_refl) as [Hq|(run_id & at_ & Hg)].
  { apply IH; [done|done|]. intros r Hin. destruct (Hrs r Hin) as (t & Ht & Hb). exists t. split; [|done].
    eapply quiet_started; [apply Hok|done|done|done]. }
  assert (∀ r, r ∈ rs → r ≠ run_id → ∃ t, started store.(DurableEventStore.tables) workflow_id r t
    ∧ (from < t ≤ from + Z.of_N rate.(CompiledRateLimitPolicy.window_ms) * NANOS_PER_MILLI)%Z) as Hold.
  { intros r Hin Hne. destruct (Hrs r Hin) as (t & Ht & Hb). exists t. split; [|done].
    by destruct (granted_started _ _ _ _ _ _ _ (so_locks _ Hok) Hruns Hg Ht) as [|(-> & _)]. }
  destruct (decide (run_id ∈ rs)) as [Hin|Hnin].
  2: { apply IH; [done|done|]. intros r Hr'. apply Hold; [done|by intros ->]. }
  destruct (Hrs run_id Hin) as (t & Ht & Hb).
  destruct (granted_started _ _ _ _ _ _ _ (so_locks _ Hok) Hruns Hg Ht) as [Hbefore|(_ & -> & b & Hb' & Hw)].
  { apply IH; [done|done|]. intros r Hr'. destruct (decide (r = run_id)) as [->|]; [by exists t|by apply Hold]. }
  destruct Hg as (b2 & wf & policy & event & rest & timeout & Hb2 & Hwf & Hp & Hel & _). rewrite Hb' in Hb2.
  injection Hb2 as <-. destruct (tr_bindings _ (so_triggers _ Hok) _ _ Hb') as (wf' & Hwf' & Hid).
  rewrite Hwf in Hwf'. injection Hwf' as <-. rewrite Hw in Hid. rewrite (Hrate0 _ _ _ Hwf Hid Hp), Hw in Hel.
  apply elem_of_Permutation in Hin as [others Hperm]. rewrite Hperm in Hnd. rewrite Hperm. simpl.
  apply NoDup_cons in Hnd as [Hno Hnd].
  eapply (eligible_starts _ _ _ _ _ others) in Hel; [lia|reflexivity|done|].
  intros r Hr'. destruct (Hold r) as (t' & Ht' & Hb1); [rewrite Hperm; by right|by intros ->|].
  exists t'. split; [by eapply started_row; [apply Hok|]|]. apply Htext; lia.
Qed.
End queues.
