(* ===== verification/Scenarios.v ===== *)
(** * Concrete histories

    Small histories that the fold accepts, one per part of the engine.  They
    show that the hypotheses of the theorems can hold.  The third-party
    functions are instantiated by constant ones of the right shape. *)

From S2P Require Import Prelude Strings Json EventTypes ProjectionTypes Guards FoldRun.
From S2P Require Import FoldControlFlow FoldCorrection FoldApprovals FoldOperations FoldLifecycle.
From S2P Require Import IterationFold EventIdentities EventValidation Fold.

(** ** A concrete environment *)

Definition hex64 : string := "0123456789abcdef0123456789abcdef0123456789abcdef0123456789abcdef".
Definition sha : string := "sha256:" +:+ hex64.

#[export] Instance stand_ins : Externals := {
  serde_json_encoded_len := λ _, Some 2%N;
  policy_decision_encoded_len := λ _, Some 2%N;
  canonical_json := λ _, Some "{}";
  sha256_hex := λ _, hex64;
  rfc3339_millis := λ _, "1970-01-01T00:00:00.000Z";
}.

(** ** Building histories *)

(** One event without its number: its iteration and, for its time, its payload. *)
Record draft := Draft { draft_scope : option ForEachIterationScope; draft_payload : DateTime → RunEventPayload }.

(** The event numbered [n], at time [n], of the run [run]. *)
Definition event_of (version n : N) (d : draft) : RunEvent :=
  {| RunEvent.event_schema_version := version;
     RunEvent.event_id := "evt_" +:+ String (Ascii.ascii_of_N (n + 64)) EmptyString;
     RunEvent.run_id := "run";
     RunEvent.sequence := n;
     RunEvent.occurred_at := Z.of_N n;
     RunEvent.iteration := draft_scope d;
     RunEvent.payload := draft_payload d (Z.of_N n) |}.

Fixpoint numbered (version n : N) (drafts : list draft) : list RunEvent :=
  match drafts with
  | [] => []
  | d :: drafts => event_of version n d :: numbered version (n + 1)%N drafts
  end.

(** A payload that does not depend on the time, one that does, one in an iteration. *)
Definition plain (payload : RunEventPayload) : draft := Draft None (λ _, payload).
Definition timed (payload : DateTime → RunEventPayload) : draft := Draft None payload.
Definition scoped (index : N) (payload : RunEventPayload) : draft :=
  Draft (Some (ForEachIterationScope.mk "loop1" index)) (λ _, payload).

(** The admission and the start of a run. *)
Definition opening : list draft :=
  [timed (λ at_, RunEventPayload.RunAdmitted (RunAdmittedData.mk sha sha (RunAdmissionTrigger.mk "trigger1" "trigger.manual")
     [] (RunAdmissionQueue.mk "default" QueueDiscipline.WorkConservingFifo) at_ 1));
   timed (λ at_, RunEventPayload.RunExecutionStarted (RunExecutionStartedData.mk at_ None))].

Definition closing : list draft :=
  [plain (RunEventPayload.RunOutcomeDecided (RunOutcomeDecidedData.Succeeded Value.Null));
   plain (RunEventPayload.RunFinalized (RunFinalizedData.mk BusinessOutcome.Succeeded FinalLifecycleStatus.Completed []))].

Definition attempt_started (node : string) (n : N) (invocation : string) : RunEventPayload :=
  RunEventPayload.StepAttemptStarted (StepAttemptStartedData.mk node n invocation "script" (Some sha)).
Definition attempt_succeeded (node : string) (n : N) (invocation : string) : RunEventPayload :=
  RunEventPayload.StepAttemptSucceeded (StepAttemptSucceededData.mk node n invocation (Value.Bool true)).
Definition attempt_failed (node : string) (n : N) (invocation : string) : RunEventPayload :=
  RunEventPayload.StepAttemptFailed (StepAttemptFailedData.mk node n invocation
    (AttemptFailure.mk AttemptFailureKind.ScriptThrew "WOML_SCRIPT_THROWN" "boom" None None None None
       None None None)).

(** ** The histories *)

(** A step fails, is retried and succeeds, calling a service. *)
Definition retry_work : list draft :=
  opening ++
  [plain (attempt_started "step1" 1 "inv1");
   plain (RunEventPayload.OperationStarted (OperationStartedData.mk "step1" 1 "inv1" "call1" sha "http" "get"
     OperationExecutionMode.Managed []));
   plain (RunEventPayload.OperationFailed (OperationFailedData.mk "step1" 1 "inv1" "call1" sha "http" "get"
     OperationExecutionMode.Managed [] 0
     (CapabilityFailure.mk CapabilityFailureKind.TimedOut "TIMEOUT" "late" true false None)));
   plain (attempt_failed "step1" 1 "inv1");
   timed (λ at_, RunEventPayload.StepRetryScheduled (StepRetryScheduledData.mk "step1" 1 2 at_));
   plain (attempt_started "step1" 2 "inv2");
   plain (RunEventPayload.OperationStarted (OperationStartedData.mk "step1" 2 "inv2" "call1" sha "http" "get"
     OperationExecutionMode.Managed []));
   plain (RunEventPayload.OperationSucceeded (OperationSucceededData.mk "step1" 2 "inv2" "call1" sha "http" "get"
     OperationExecutionMode.Managed [] 0 2 sha));
   plain (attempt_succeeded "step1" 2 "inv2")].
Definition retry_run : list RunEvent := numbered 20 1 (retry_work ++ closing).

(** A run of schema v9. *)
Definition legacy_run : list RunEvent :=
  numbered 9 1
    [plain (RunEventPayload.RunStarted (RunStartedData.mk "flow" sha None None None (Some (RunIngress.WorkflowCall sha)) []));
     plain (attempt_started "step1" 1 "inv1");
     plain (attempt_succeeded "step1" 1 "inv1");
     plain (RunEventPayload.RunSucceeded (RunSucceededData.mk "step1" (Value.Bool true)))].

(** A loop over two items; the second iteration ends first, and the first retries. *)
Definition loop_work : list draft :=
  opening ++
  [plain (RunEventPayload.ForEachOpened (ForEachOpenedData.mk "loop1" 2 sha 2));
   scoped 0 (RunEventPayload.ForEachIterationStarted (ForEachIterationIdentityData.mk "loop1"));
   scoped 1 (RunEventPayload.ForEachIterationStarted (ForEachIterationIdentityData.mk "loop1"));
   scoped 1 (attempt_started "body" 1 "inv1");
   scoped 1 (attempt_succeeded "body" 1 "inv1");
   scoped 1 (RunEventPayload.ForEachIterationSucceeded (ForEachIterationSucceededData.mk "loop1" (Some (Value.Bool true)) (Some sha)));
   scoped 0 (attempt_started "body" 1 "inv2");
   scoped 0 (attempt_failed "body" 1 "inv2");
   scoped 0 (RunEventPayload.StepRetryScheduled (StepRetryScheduledData.mk "body" 1 2 11));
   scoped 0 (attempt_started "body" 2 "inv3");
   scoped 0 (attempt_succeeded "body" 2 "inv3");
   scoped 0 (RunEventPayload.ForEachIterationSucceeded (ForEachIterationSucceededData.mk "loop1" (Some (Value.Bool false)) (Some sha)))].
Definition loop_end : ForEachSettledData := ForEachSettledData.mk "loop1" 2 2 0 0 sha.
Definition loop_run : list RunEvent := numbered 20 1 (loop_work ++ [plain (RunEventPayload.ForEachSucceeded loop_end)]).

(** A lock is acquired and released; another is lost after the outcome was decided. *)
Definition lock_work (id lease : string) (sequence : N) : list draft :=
  [timed (λ at_, RunEventPayload.LockWaitRegistered (LockWaitRegisteredData.mk id "key" sequence at_ 100 "exec1"));
   timed (λ at_, RunEventPayload.LockAcquired (LockAcquiredData.mk id "key" lease "7" at_ (at_ + 2) "exec1"))].
Definition lock_run : list RunEvent :=
  numbered 20 1 (opening ++ lock_work "lock1" "lease_a" 1
    ++ [timed (λ at_, RunEventPayload.LockReleased (LockReleasedData.mk "lock1" "key" "lease_a" "7" at_ (Value.Object [])))]
    ++ lock_work "lock2" "lease_b" 2).
Definition lost_lease : LockLeaseLostData := LockLeaseLostData.mk "lock2" "key" "lease_b" "7" 9 9 true.
Definition decided_run : list RunEvent :=
  lock_run ++ numbered 20 8 [plain (RunEventPayload.RunOutcomeDecided (RunOutcomeDecidedData.Succeeded Value.Null))].
Definition lost_event : RunEvent := event_of 20 9 (plain (RunEventPayload.LockLeaseLost lost_lease)).

(** A saga whose step is compensated. *)
Definition saga_work : list draft :=
  opening ++
  [plain (RunEventPayload.SagaStarted (SagaIdentityData.mk "saga1"));
   plain (attempt_started "step1" 1 "inv1");
   plain (attempt_succeeded "step1" 1 "inv1");
   plain (RunEventPayload.CompensationRegistered (CompensationRegisteredData.mk "saga1" "undo1" "step1" 5));
   plain (RunEventPayload.SagaCorrectionStarted (SagaCorrectionStartedData.mk "saga1" SagaCorrectionReason.Failure));
   plain (RunEventPayload.CorrectionAttemptStarted (CorrectionAttemptIdentityData.mk "saga1" "undo1" CorrectiveActionKind.Compensation 1));
   plain (RunEventPayload.CorrectionAttemptSucceeded (CorrectionAttemptIdentityData.mk "saga1" "undo1" CorrectiveActionKind.Compensation 1))].
Definition saga_end : list draft := [plain (RunEventPayload.SagaCorrectionCompleted (SagaIdentityData.mk "saga1"))].
Definition saga_run : list RunEvent := numbered 20 1 (saga_work ++ saga_end).

(** An approval decided through a notification, then a rich approval in progress. *)
Definition delivery1 : string := "approve1:notify:0:channel:0".
Definition approval_work : list draft :=
  opening ++
  [plain (RunEventPayload.ApprovalRequested (ApprovalRequestedData.mk "approve1" "aprreq_abc" (Some 100%Z) ApprovalTimeoutPolicy.Reject));
   plain (RunEventPayload.NotificationDeliveryRequested (NotificationDeliveryRequestedData.mk "approve1" "aprreq_abc" delivery1 "telegram" "chat"));
   plain (RunEventPayload.NotificationDeliveryAttemptStarted (NotificationDeliveryAttemptStartedData.mk "approve1" "aprreq_abc" delivery1 1 "nattempt_abc" sha));
   plain (RunEventPayload.NotificationDeliverySucceeded (NotificationDeliverySucceededData.mk "approve1" "aprreq_abc" delivery1 1 "nattempt_abc"
     (ProviderMessageIdentity.Communication (CommunicationProviderMessageIdentity.mk "telegram" "bot" "chat" "m1" None))));
   plain (RunEventPayload.NotificationDecisionAccepted (NotificationDecisionAcceptedData.mk "approve1" "aprreq_abc" delivery1 "telegram" "telegram:12345" ApprovalDecision.Approved));
   plain (RunEventPayload.ApprovalResolved (ApprovalResolvedData.mk "approve1" "aprreq_abc"
     (Some (ApprovalResolution.Decision ApprovalDecision.Approved ApprovalDecisionSource.Human))
     None None None None None None None))].
Definition review_work : list draft :=
  [plain (RunEventPayload.ApprovalReviewRequested (ApprovalReviewRequestedData.mk "approve2" "aprreq_def" sha "v1" 1 []));
   plain (RunEventPayload.ApprovalReviewerDecisionRecorded (ApprovalReviewerDecisionRecordedData.mk "approve2" "aprreq_def" sha "alice" ApprovalDecision.Approved))].
Definition progress : ApprovalQuorumProgressedData :=
  ApprovalQuorumProgressedData.mk "approve2" "aprreq_def" sha 1 1 [] [].
Definition review_end : list draft :=
  [plain (RunEventPayload.ApprovalQuorumProgressed progress);
   plain (RunEventPayload.ApprovalResolved (ApprovalResolvedData.mk "approve2" "aprreq_def" None (Some sha)
     (Some ApprovalDecision.Approved) (Some RichApprovalResolutionReason.Quorum) (Some 1%N) (Some 1%N) (Some []) (Some [])))].
Definition approval_run : list RunEvent := numbered 20 1 (approval_work ++ review_work ++ review_end).

(** A branch, a choice, a fork that fails and a parallel group. *)
Definition control_work : list draft :=
  opening ++
  [plain (RunEventPayload.BranchSelected (BranchSelectedData.mk "branch1" "branch1:otherwise"));
   plain (RunEventPayload.ChoiceSelected (ChoiceSelectedData.mk "choice1" "choice1:a"));
   plain (RunEventPayload.ParallelGroupStarted (ParallelGroupStartedData.mk "par1"));
   plain (RunEventPayload.ForkOpened (ForkOpenedData.mk "fork1"));
   plain (RunEventPayload.ForkBranchSettled (ForkBranchSettledData.mk "fork1" "left" "step1" ForkBranchOutcome.Failed))].
Definition control_end : list draft :=
  [plain (RunEventPayload.ForkJoinSettled (ForkJoinSettledData.mk "fork1" ForkJoinOutcome.Failed (Some "left")));
   plain (RunEventPayload.ParallelGroupCompleted (ParallelGroupCompletedData.mk "par1" ParallelGroupOutcome.Succeeded [] []))].
Definition control_run : list RunEvent := numbered 20 1 (control_work ++ control_end).

(** A signal wait that a signal resolves. *)
Definition wait_work : list draft :=
  opening ++
  [timed (λ at_, RunEventPayload.WaitRegistered (WaitRegisteredData.mk "wait1" "wait1" DurableWaitKind.Signal at_ (Some 100%Z)
     (Some ["paid"]) (Some sha)));
   timed (λ at_, RunEventPayload.ExternalSignalReceived (ExternalSignalReceivedData.mk "sig1" "wait1" "paid" at_ sha Value.Null None None));
   timed (λ at_, RunEventPayload.WaitSatisfied (WaitSatisfiedData.mk "wait1" DurableWaitWinner.Signal (Value.Object []) at_))].
Definition wait_run : list RunEvent := numbered 20 1 (wait_work ++ closing).

(** A hook one of whose actions fails; the run ends with a warning. *)
Definition hook_failure : LifecycleFailure :=
  LifecycleFailure.mk LifecycleFailureKind.ScriptThrew "WOML_SCRIPT_THROWN" "boom".
Definition hook_work : list draft :=
  opening ++
  [plain (RunEventPayload.LifecycleHookRequested (LifecycleHookRequestedData.mk sha "hook1" LifecycleEventName.RunStart
     (LifecycleSubject.mk LifecycleSubjectKind.Workflow "flow")));
   plain (RunEventPayload.LifecycleActionAttemptStarted (LifecycleActionIdentityData.mk sha "act1" 1));
   plain (RunEventPayload.LifecycleActionFailed (LifecycleActionFailedData.mk sha "act1" 1 hook_failure))].
Definition hook_end : list draft :=
  [plain (RunEventPayload.LifecycleHookCompleted (LifecycleHookCompletedData.mk sha LifecycleHookCompletionStatus.CompletedWithWarnings 1));
   plain (RunEventPayload.RunOutcomeDecided (RunOutcomeDecidedData.Succeeded Value.Null));
   plain (RunEventPayload.RunFinalized (RunFinalizedData.mk BusinessOutcome.Succeeded FinalLifecycleStatus.CompletedWithWarnings
     [LifecycleWarning.mk "hook1" "act1" None None None "WOML_SCRIPT_THROWN"]))].
Definition hook_run : list RunEvent := numbered 20 1 (hook_work ++ hook_end).

(** ** Their folds *)

(** The state a history folds to. *)
Definition folded (events : list RunEvent) : ProjectionFoldState :=
  match from_events events with Ok s => s | _ => default_state end.

Definition accepted (events : list RunEvent) : bool := is_ok (from_events events).

Lemma folded_ok events : accepted events = true → from_events events = Ok (folded events).
Proof. unfold accepted, folded. by destruct (from_events events). Qed.
