(* ===== verification/Witnesses.v ===== *)
(** * Witnesses

    Each theorem with hypotheses, applied to a concrete history on which they
    hold.  The histories are those of Scenarios.v; [retry_work] and the like are
    their beginnings. *)

From S2P Require Import Prelude Strings Json EventTypes ProjectionTypes Guards FoldRun.
From S2P Require Import FoldControlFlow FoldCorrection FoldApprovals FoldOperations FoldLifecycle.
From S2P Require Import IterationFold EventIdentities EventValidation Fold FoldFrames.
From S2P Require Import ValidationProperties HistoryProperties AttemptProperties LoopProperties.
From S2P Require Import LockProperties RunProperties SagaProperties OperationProperties.
From S2P Require Import LifecycleProperties ProjectionCache Scenarios.

(** The projection a history folds to. *)
Definition view (events : list RunEvent) : RunProjection := (folded events).(ProjectionFoldState.projection).

(** Evaluate the fold on a concrete history. *)
Ltac run := vm_compute; reflexivity.
Ltac fold_run := apply folded_ok; run.
Ltac reached := eexists; fold_run.

(** ** Validation and histories *)

Lemma schema_window_sound_witness :
  validate lost_event = Ok tt
  ∧ ((schema_window lost_event.(RunEvent.payload)).1 ≤ 20 ≤ (schema_window lost_event.(RunEvent.payload)).2)%N.
Proof. split; [run|]. apply (schema_window_sound lost_event). run. Defined.

Lemma history_numbered_witness :
  accepted retry_run = true
  ∧ (view retry_run).(RunProjection.last_sequence) = N.of_nat (length retry_run)
  ∧ (∀ i event, retry_run !! i = Some event → event.(RunEvent.sequence) = (N.of_nat i + 1)%N)
  ∧ NoDup (RunEvent.event_id <$> retry_run).
Proof. split; [run|]. apply (history_numbered retry_run (folded retry_run)). fold_run. Defined.

Lemma history_homogeneous_witness :
  accepted retry_run = true
  ∧ ∃ first rest run_id version,
      retry_run = first :: rest ∧ touches_identity first.(RunEvent.payload) = true
      ∧ (view retry_run).(RunProjection.run_id) = Some run_id
      ∧ (view retry_run).(RunProjection.event_schema_version) = Some version
      ∧ Forall (λ event, event.(RunEvent.run_id) = run_id ∧ event.(RunEvent.event_schema_version) = version) retry_run.
Proof.
  split; [run|]. apply (history_homogeneous retry_run (folded retry_run)); [fold_run|].
  assert ((view retry_run).(RunProjection.status) = RunStatus.Succeeded) as Hs by run. unfold view in Hs. by rewrite Hs.
Defined.

Lemma history_final_witness :
  (view retry_run).(RunProjection.status) = RunStatus.Succeeded ∧ ∃ e, from_events (retry_run ++ [lost_event]) = Err e.
Proof.
  split; [run|]. apply (history_final retry_run lost_event [] (folded retry_run)); [fold_run|run].
Defined.

(** ** Attempts, loops and iterations *)

Lemma run_implements_attempt_ledger_witness :
  ledger_step 8 (run_ledger (view (take 7 retry_run))) (run_ledger (view (take 8 retry_run))).
Proof.
  apply (run_implements_attempt_ledger (folded (take 7 retry_run))
           (event_of 20 8 (plain (attempt_started "step1" 2 "inv2"))) (folded (take 8 retry_run)) 20); [run|run|lia].
Defined.

Lemma attempts_in_order_witness :
  length (view retry_run).(RunProjection.attempts) = 2 ∧ ledger_ok (run_ledger (view retry_run)).
Proof. split; [run|]. apply (attempts_in_order retry_run (folded retry_run) 20); [fold_run|run|lia]. Defined.

Lemma loop_settled_complete_witness :
  ∃ loop, (view loop_run).(RunProjection.for_each) !! "loop1" = Some loop
    ∧ loop.(ForEachProjection.status) = ForEachStatus.Succeeded
    ∧ (∀ i, (i < loop.(ForEachProjection.total))%N ↔ is_Some (loop.(ForEachProjection.iterations) !! i)).
Proof.
  eexists. split; [run|]. split; [run|].
  apply (loop_settled_complete loop_run (folded loop_run) "loop1"); [fold_run|run|done].
Defined.

Lemma loop_bounds_witness :
  ∃ loop, (view loop_run).(RunProjection.for_each) !! "loop1" = Some loop ∧ (loop.(ForEachProjection.total) ≤ 10000)%N.
Proof.
  eexists. split; [run|]. eapply (loop_bounds loop_run (folded loop_run) "loop1" _ 0); [fold_run|run].
Defined.

Lemma loop_output_ordered_witness :
  ∃ loop, (view (numbered 20 1 loop_work)).(RunProjection.for_each) !! "loop1" = Some loop
    ∧ omap (iteration_result loop) (index_range loop.(ForEachProjection.total)) = [Value.Bool false; Value.Bool true]
    ∧ map_get (view loop_run).(RunProjection.context).(WorkflowContext.steps) "loop1" =
        Some (Value.Object [("total", value_from_u32 2); ("succeeded", value_from_u32 2);
          ("results", Value.Array [Value.Bool false; Value.Bool true])]).
Proof.
  destruct (loop_output_ordered (folded (numbered 20 1 loop_work))
    (event_of 20 15 (plain (RunEventPayload.ForEachSucceeded loop_end))) loop_end (folded loop_run)) as (loop & Hl & Ho);
    [reached|run|done|done|].
  exists loop. split; [exact Hl|]. vm_compute in Hl. injection Hl as <-. split; [run|]. exact Ho.
Defined.

Lemma iterations_isolated_witness :
  ∃ e e', ledger_step 12 (execution_ledger e) (execution_ledger e')
    ∧ (folded (take 12 loop_run)).(ProjectionFoldState.attempt_indexes) = (folded (take 11 loop_run)).(ProjectionFoldState.attempt_indexes).
Proof.
  destruct (iterations_isolated (folded (take 11 loop_run))
    (event_of 20 12 (scoped 0 (attempt_started "body" 2 "inv3"))) (folded (take 12 loop_run)))
    as (scope & loop & e & e' & _ & _ & _ & _ & _ & Hl & Hi & _); [run|done|].
  exists e, e'. split; [exact Hl|exact Hi].
Defined.

Lemma iteration_attempts_in_order_witness :
  ∃ loop e, (view loop_run).(RunProjection.for_each) !! "loop1" = Some loop
    ∧ loop.(ForEachProjection.executions) !! 0%N = Some e ∧ length e.(ForEachIterationExecutionProjection.attempts) = 2 ∧ ledger_ok (execution_ledger e).
Proof.
  eexists _, _. split; [run|]. split; [run|]. split; [run|].
  eapply (iteration_attempts_in_order loop_run (folded loop_run) "loop1" _ 0); [fold_run|run|run].
Defined.

(** A dispatch event of an iteration: valid, but not accepted by the fold. *)
Definition scoped_dispatch : RunEvent :=
  event_of 20 6 (scoped 0 (RunEventPayload.RemoteDispatchTransitioned
    (RemoteDispatchTransitionedData.mk ("dispatch_" +:+ hex64) "body" 1 "inv1" "worker-a"
       RemoteDispatchStateV1.Requested None None))).

Lemma scoped_wait_or_dispatch_rejected_witness :
  validate scoped_dispatch = Ok tt ∧ ∃ e, apply (folded (take 5 loop_run)) scoped_dispatch = Err e.
Proof.
  split; [run|]. apply (scoped_wait_or_dispatch_rejected (folded (take 5 loop_run)) scoped_dispatch);
    [reached|done|done].
Defined.

(** ** Locks *)

Lemma locks_follow_life_cycle_witness :
  locks_step (view (take 3 lock_run)).(RunProjection.locks) (view (take 4 lock_run)).(RunProjection.locks)
  ∧ map_Forall lock_ok (view (take 4 lock_run)).(RunProjection.locks).
Proof.
  destruct (locks_follow_life_cycle (folded (take 3 lock_run))
    (event_of 20 4 (timed (λ at_, RunEventPayload.LockAcquired (LockAcquiredData.mk "lock1" "key" "lease_a" "7" at_ (at_ + 2) "exec1"))))
    (folded (take 4 lock_run))) as (Hs & Ho & _); [reached|run|].
  split; [exact Hs|exact Ho].
Defined.

Lemma locks_never_rewritten_witness :
  size (view (take 4 lock_run)).(RunProjection.locks) = 1
  ∧ entries_evolve lock_evolves (view (take 4 lock_run)).(RunProjection.locks) (view lock_run).(RunProjection.locks).
Proof.
  split; [run|].
  apply (locks_never_rewritten (take 4 lock_run) (drop 4 lock_run)); [fold_run|]. rewrite take_drop. fold_run.
Defined.

(** ** The run *)

Lemma run_status_transitions_witness :
  (view (take 2 retry_run)).(RunProjection.status) = (view (take 1 retry_run)).(RunProjection.status)
  ∨ run_edge (RunEventPayload.RunExecutionStarted (RunExecutionStartedData.mk 2 None))
      (view (take 1 retry_run)).(RunProjection.status) (view (take 2 retry_run)).(RunProjection.status).
Proof.
  apply (run_status_transitions (folded (take 1 retry_run))
    (event_of 20 2 (timed (λ at_, RunEventPayload.RunExecutionStarted (RunExecutionStartedData.mk at_ None))))
    (folded (take 2 retry_run))). run.
Defined.

Lemma run_status_monotone_witness :
  run_rank (view (take 3 retry_run)).(RunProjection.status) ≤ run_rank (view retry_run).(RunProjection.status).
Proof.
  apply (run_status_monotone (take 3 retry_run) (drop 3 retry_run)); [fold_run|rewrite take_drop; fold_run|].
  repeat (constructor; [by left|]). constructor.
Defined.

Lemma outcome_decided_once_witness :
  (view retry_run).(RunProjection.business_outcome) = Some BusinessOutcome.Succeeded.
Proof.
  apply (outcome_decided_once (take 12 retry_run) (drop 12 retry_run) (folded (take 12 retry_run)));
    [fold_run|rewrite take_drop; fold_run|run].
Defined.

Lemma final_status_matches_outcome_witness :
  ∃ o, (view retry_run).(RunProjection.business_outcome) = Some o ∧ (view retry_run).(RunProjection.status) = final_run_status o.
Proof. apply (final_status_matches_outcome retry_run (folded retry_run)); [fold_run|run]. Defined.

Lemma lost_lease_strands_run_witness :
  (view decided_run).(RunProjection.status) = RunStatus.Finalizing
  ∧ (view (decided_run ++ [lost_event])).(RunProjection.status) = RunStatus.Running
  ∧ status_is_terminal (view (decided_run ++ [lost_event; event_of 20 10 (plain (attempt_started "step1" 1 "inv1"))])).(RunProjection.status)
      = false.
Proof.
  split; [run|].
  apply (lost_lease_strands_run (folded decided_run) lost_event (folded (decided_run ++ [lost_event])) 20 lost_lease
    [event_of 20 10 (plain (attempt_started "step1" 1 "inv1"))]); [reached|run|lia|run|done|done|run|run].
Defined.

Lemma ended_run_settled_witness :
  length (view hook_run).(RunProjection.lifecycle_warnings) = 1
  ∧ warnings_match (view hook_run) (view hook_run).(RunProjection.lifecycle_warnings) = true.
Proof.
  split; [run|]. apply (ended_run_settled hook_run (folded hook_run) 20); [fold_run|run|lia|run].
Defined.

Lemma legacy_success_settled_witness :
  (view legacy_run).(RunProjection.status) = RunStatus.Succeeded ∧ (view legacy_run).(RunProjection.pending_retries) = ∅.
Proof.
  split; [run|]. apply (legacy_success_settled legacy_run (folded legacy_run) 9); [fold_run|run|lia|run].
Defined.

(** ** Sagas, operations, approvals and notifications *)

Lemma sagas_follow_protocol_witness :
  sagas_step 8 (view (take 7 saga_run)).(RunProjection.sagas) (view (take 8 saga_run)).(RunProjection.sagas).
Proof.
  apply (sagas_follow_protocol (folded (take 7 saga_run))
    (event_of 20 8 (plain (RunEventPayload.CorrectionAttemptStarted
       (CorrectionAttemptIdentityData.mk "saga1" "undo1" CorrectiveActionKind.Compensation 1))))
    (folded (take 8 saga_run))); [reached|run].
Defined.

Lemma sagas_one_active_attempt_witness :
  ∃ saga, (view (take 8 saga_run)).(RunProjection.sagas) !! "saga1" = Some saga ∧ saga_ok "saga1" saga.
Proof.
  eexists. split; [run|].
  apply (sagas_one_active_attempt (take 8 saga_run) (folded (take 8 saga_run)) "saga1"); [fold_run|run].
Defined.

Lemma compensation_not_repeated_witness :
  ∃ saga a saga' a', (view (take 9 saga_run)).(RunProjection.sagas) !! "saga1" = Some saga
    ∧ saga.(SagaProjection.actions) !! "undo1" = Some a ∧ a.(CorrectionActionProjection.status) = CorrectionActionStatus.Succeeded
    ∧ (view saga_run).(RunProjection.sagas) !! "saga1" = Some saga' ∧ saga'.(SagaProjection.actions) !! "undo1" = Some a'
    ∧ action_evolves a a'.
Proof.
  assert (∃ saga a, (view (take 9 saga_run)).(RunProjection.sagas) !! "saga1" = Some saga
    ∧ saga.(SagaProjection.actions) !! "undo1" = Some a ∧ a.(CorrectionActionProjection.status) = CorrectionActionStatus.Succeeded) as (saga & a & Hs & Ha & Hd).
  { eexists _, _. split; [run|]. split; run. }
  destruct (compensation_not_repeated (take 9 saga_run) (drop 9 saga_run) (folded (take 9 saga_run)) (folded saga_run)
    "saga1" saga "undo1" a) as (saga' & a' & Hs' & Ha' & He);
    [fold_run|rewrite take_drop; fold_run|exact Hs|exact Ha|].
  exists saga, a, saga', a'. split; [exact Hs|]. split; [exact Ha|]. split; [exact Hd|].
  split; [exact Hs'|]. split; [exact Ha'|exact He].
Defined.

Lemma operations_settle_once_witness :
  size (view (take 9 retry_run)).(RunProjection.operations) = 2
  ∧ entries_evolve operation_evolves (view (take 9 retry_run)).(RunProjection.operations) (view retry_run).(RunProjection.operations).
Proof.
  split; [run|].
  apply (operations_settle_once (take 9 retry_run) (drop 9 retry_run)); [fold_run|rewrite take_drop; fold_run].
Defined.

Lemma operation_keys_unique_witness : register_ok (view retry_run).(RunProjection.operations).
Proof. apply (operation_keys_unique retry_run). fold_run. Defined.

Lemma approvals_decided_once_witness :
  entries_evolve request_evolves (view (take 10 approval_run)).(RunProjection.approval_requests)
    (view approval_run).(RunProjection.approval_requests)
  ∧ entries_evolve rich_evolves (view (take 10 approval_run)).(RunProjection.rich_approval_requests)
      (view approval_run).(RunProjection.rich_approval_requests).
Proof.
  apply (approvals_decided_once (take 10 approval_run) (drop 10 approval_run)); [fold_run|rewrite take_drop; fold_run].
Defined.

Lemma approvals_respect_deadline_witness :
  ∃ request, (view approval_run).(RunProjection.approval_requests) !! "approve1" = Some request ∧ resolution_timely request.
Proof.
  eexists. split; [run|].
  apply (approvals_respect_deadline approval_run (folded approval_run) "approve1"); [fold_run|run].
Defined.

Lemma quorum_progress_capped_witness :
  ∃ request, (view (take 10 approval_run)).(RunProjection.rich_approval_requests) !! "approve2" = Some request
    ∧ (approved_count request ≤ request.(RichApprovalRequestProjection.required))%N.
Proof.
  destruct (quorum_progress_capped (folded (take 10 approval_run))
    (event_of 20 11 (plain (RunEventPayload.ApprovalQuorumProgressed progress))) (folded (take 11 approval_run)) progress)
    as (request & Hr & _ & _ & Hc); [run|done|].
  exists request. split; [exact Hr|exact Hc].
Defined.

Lemma deliveries_settle_once_witness :
  size (view (take 6 approval_run)).(RunProjection.notification_deliveries) = 1
  ∧ entries_evolve delivery_evolves (view (take 6 approval_run)).(RunProjection.notification_deliveries)
      (view approval_run).(RunProjection.notification_deliveries).
Proof.
  split; [run|].
  apply (deliveries_settle_once (take 6 approval_run) (drop 6 approval_run)); [fold_run|rewrite take_drop; fold_run].
Defined.

Lemma one_notification_decision_witness :
  length (view approval_run).(RunProjection.notification_decisions) = 1
  ∧ Forall (came_through (view approval_run).(RunProjection.notification_deliveries))
      (view approval_run).(RunProjection.notification_decisions).
Proof. split; [run|]. apply (one_notification_decision approval_run). fold_run. Defined.

(** ** Control flow, waits and hooks *)

Lemma control_flow_decided_once_witness :
  size (view (take 7 control_run)).(RunProjection.forks) = 1
  ∧ (view (take 7 control_run)).(RunProjection.branch_selections) ⊆ (view control_run).(RunProjection.branch_selections)
  ∧ entries_evolve fork_evolves (view (take 7 control_run)).(RunProjection.forks) (view control_run).(RunProjection.forks).
Proof.
  destruct (control_flow_decided_once (take 7 control_run) (drop 7 control_run)
    (folded (take 7 control_run)) (folded control_run)) as (Hb & _ & Hf & _);
    [fold_run|rewrite take_drop; fold_run|].
  split; [run|]. split; [exact Hb|exact Hf].
Defined.

Lemma fork_failures_proven_witness :
  ∃ fork, (view control_run).(RunProjection.forks) !! "fork1" = Some fork
    ∧ fork.(ForkProjection.join_status) = ForkJoinStatus.Failed ∧ fork_ok "fork1" fork.
Proof.
  eexists. split; [run|]. split; [run|].
  apply (fork_failures_proven control_run (folded control_run) "fork1"); [fold_run|run].
Defined.

Lemma waits_resolved_once_witness :
  waits_ok (waits_signals (view (take 5 wait_run)))
  ∧ entries_evolve wait_evolves (view (take 5 wait_run)).(RunProjection.durable_waits) (view wait_run).(RunProjection.durable_waits).
Proof.
  apply (waits_resolved_once (take 5 wait_run) (drop 5 wait_run)); [fold_run|rewrite take_drop; fold_run].
Defined.

Lemma hooks_in_order_witness :
  size (view (take 5 hook_run)).(RunProjection.lifecycle_hooks) = 1
  ∧ hooks_ok (view (take 5 hook_run)).(RunProjection.lifecycle_hooks)
  ∧ entries_evolve hook_evolves (view (take 5 hook_run)).(RunProjection.lifecycle_hooks) (view hook_run).(RunProjection.lifecycle_hooks).
Proof.
  split; [run|].
  apply (hooks_in_order (take 5 hook_run) (drop 5 hook_run)); [fold_run|rewrite take_drop; fold_run].
Defined.

(** ** The projection cache *)

(** A first key of the map. *)
Definition first_key (c : Cache) : option string := head (map_to_list c).*1.

Lemma first_key_present c : c ≠ ∅ → ∃ k, first_key c = Some k ∧ is_Some (c !! k).
Proof.
  intros Hc. unfold first_key. destruct (map_to_list c) as [|[k s] l] eqn:Hl.
  { by apply map_to_list_empty_iff in Hl. }
  exists k. split; [done|]. exists s. apply elem_of_map_to_list. rewrite Hl. by left.
Qed.

(** A store after one transaction that wrote five events. *)
Definition store : world :=
  World {[ "run" := take 5 retry_run ]}
    (cache_projection_state first_key ∅ "run" (folded (take 5 retry_run))).

Lemma store_reachable : world_reachable first_key store.
Proof.
  eapply world_next; [apply world_initial|].
  refine (step_commit first_key (World ∅ ∅) "run" (take 5 retry_run) default_state (folded (take 5 retry_run)) _ _);
    [run|fold_run].
Qed.

Lemma cache_transparent_witness :
  size (cache store) = 1
  ∧ (projection_state_for_events (cache store) "run" (history store "run")).2 = from_events (history store "run").
Proof. split; [run|]. apply (cache_transparent first_key store "run"), store_reachable. Defined.

Lemma cache_bounded_witness :
  size (cache store) = 1 ∧ size (cache store) ≤ MAX_ACTIVE_PROJECTION_CACHE_ENTRIES.
Proof.
  split; [run|]. apply (cache_bounded first_key store); [apply first_key_present|apply store_reachable].
Defined.
