(* ===== verification/EngineWitnesses.v ===== *)
(** * Concrete definitions, and witnesses

    A small workflow that passes validation, a fork and a saga, with histories that
    the definition check accepts, and each theorem about definitions, accepted
    histories and the engine applied to one of them. *)

From S2P Require Import Prelude GraphSearch Strings Json EventTypes ProjectionTypes Guards.
From S2P Require Import FoldRun FoldControlFlow FoldCorrection FoldApprovals FoldOperations.
From S2P Require Import FoldLifecycle IterationFold EventIdentities EventValidation Fold.
From S2P Require Import FoldFrames HistoryProperties ModelTypes EngineExternals ModelQueries.
From S2P Require Import ModelIssues ModelContracts GraphContracts ForkContracts TopologicalOrder.
From S2P Require Import LoopContracts DurableContracts ModelValidation Readiness.
From S2P Require Import ReadinessProperties ModelProperties Frontier FrontierProperties.
From S2P Require Import FrontierQueries DefinitionValidation ModelRoundTrips HistoryRules.
From S2P Require Import CursorProperties AcceptedHistories ParallelChildren DagEngine Scenarios.

(** ** A concrete environment *)

(** [powi] is exact on the powers of two, which are the only ones a valid policy asks for. *)
#[export] Program Instance engine_stand_ins : EngineExternals := {
  add_milliseconds := λ time ms, Some (time + ms * NANOS_PER_MILLI)%Z;
  serde_json_string := λ text, Some text;
  canonical_policy := λ _, Some "{}";
  is_rfc3339 := λ _, false;
  powi := λ _ exponent, u64_as_f64 (2 ^ Z.to_N exponent);
}.
Next Obligation. intros time ms sum [= <-]. done. Qed.

(** ** A workflow with a retried step and a parallel group *)

Definition script_node (id : string) (retry : option RetryPolicy) : CompiledWorkflowNode :=
  CompiledWorkflowNode.mk id "runtime.script" (ValueExpression.Object ∅) None retry None None None.
Definition inputs (fields : list (string * Value)) : ValueExpression :=
  ValueExpression.Object (list_to_map ((λ field, (field.1, ValueExpression.Literal field.2)) <$> fields)).
Definition plain_edge (id from to : string) : CompiledWorkflowEdge := CompiledWorkflowEdge.mk id from to EdgeCondition.Always None None None.
Definition parallel_edge (id from to : string) : CompiledWorkflowEdge :=
  CompiledWorkflowEdge.mk id from to EdgeCondition.Always None (Some "par") None.

(** Three attempts, 100 ms and 200 ms apart. *)
Definition policy1 : RetryPolicy := RetryPolicy.mk 3 (BackoffPolicy.Exponential 100 f64_two (Some 1000%N)).

Definition start_id : string := "__woml_parallel__par__start".
Definition pipeline_graph : CompiledWorkflowGraph :=
  CompiledWorkflowGraph.mk ["step1"]
    [script_node "step1" (Some policy1);
     CompiledWorkflowNode.mk start_id "engine.parallel-start"
       (inputs [("concurrency", Value.Number (Number.PosInt 1)); ("onError", Value.String "wait-all")]) None None None None None;
     script_node "a" None; script_node "b" None;
     CompiledWorkflowNode.mk "par" "engine.parallel-join" (ValueExpression.Object ∅) None None None None None;
     script_node "last" None]
    [plain_edge "e1" "step1" start_id;
     parallel_edge "par:child:0" start_id "a"; parallel_edge "par:child:1" start_id "b";
     parallel_edge "par:join:0" "a" "par"; parallel_edge "par:join:1" "b" "par";
     plain_edge "e2" "par" "last"]
    None None None None None None None None.
Definition pipeline : CompiledWorkflowDefinition :=
  CompiledWorkflowDefinition.mk 6 "flow" None [CompiledTrigger.mk "manual" "trigger.manual" (ValueExpression.Object ∅)] pipeline_graph
    None None None None None.

(** The time of the event number [n] of a run: one every 50 ms. *)
Definition tick (n : N) : Z := (Z.of_N n * 50000000)%Z.
Definition ticking (events : list RunEvent) : list RunEvent :=
  (λ event, {| RunEvent.event_schema_version := event.(RunEvent.event_schema_version); RunEvent.event_id := event.(RunEvent.event_id);
    RunEvent.run_id := event.(RunEvent.run_id); RunEvent.sequence := event.(RunEvent.sequence); RunEvent.occurred_at := tick event.(RunEvent.sequence);
    RunEvent.iteration := event.(RunEvent.iteration); RunEvent.payload := event.(RunEvent.payload) |}) <$> events.

Definition script_started (node : string) (n : N) (invocation : string) : RunEventPayload :=
  RunEventPayload.StepAttemptStarted (StepAttemptStartedData.mk node n invocation "runtime.script" (Some sha)).
Definition thrown (node : string) (n : N) (invocation : string) : StepAttemptFailedData :=
  StepAttemptFailedData.mk node n invocation
    (AttemptFailure.mk AttemptFailureKind.ScriptThrew "WOML_SCRIPT_THROWN" "boom" None None None None None None None).

(** The step fails and succeeds 100 ms later; the group runs one child at a time. *)
Definition pipeline_work : list draft :=
  [plain (RunEventPayload.RunStarted (RunStartedData.mk "flow" sha None None None None []));
   plain (script_started "step1" 1 "inv1");
   plain (RunEventPayload.StepAttemptFailed (thrown "step1" 1 "inv1"));
   plain (RunEventPayload.StepRetryScheduled (StepRetryScheduledData.mk "step1" 1 2 (tick 3 + 100 * NANOS_PER_MILLI)));
   plain (script_started "step1" 2 "inv2");
   plain (attempt_succeeded "step1" 2 "inv2");
   plain (RunEventPayload.ParallelGroupStarted (ParallelGroupStartedData.mk "par"));
   plain (script_started "a" 1 "inv3");
   plain (attempt_succeeded "a" 1 "inv3");
   plain (script_started "b" 1 "inv4");
   plain (attempt_succeeded "b" 1 "inv4");
   plain (RunEventPayload.ParallelGroupCompleted (ParallelGroupCompletedData.mk "par" ParallelGroupOutcome.Succeeded [] []));
   plain (script_started "last" 1 "inv5");
   plain (attempt_succeeded "last" 1 "inv5");
   plain (RunEventPayload.RunSucceeded (RunSucceededData.mk "last" (Value.Bool true)))].
Definition pipeline_run : list RunEvent := ticking (numbered 6 1 pipeline_work).

(** The step succeeds at once. *)
Definition smooth_run : list RunEvent :=
  ticking (numbered 6 1
    [plain (RunEventPayload.RunStarted (RunStartedData.mk "flow" sha None None None None []));
     plain (script_started "step1" 1 "inv1");
     plain (attempt_succeeded "step1" 1 "inv1");
     plain (RunEventPayload.ParallelGroupStarted (ParallelGroupStartedData.mk "par"));
     plain (script_started "b" 1 "inv2")]).

(** The clock of the checks. *)
Definition noon (n : nat) : DateTime := tick 1000.

(** ** A saga of two steps *)

Definition control_node (id handler : string) : CompiledWorkflowNode :=
  CompiledWorkflowNode.mk id handler (ValueExpression.Object ∅) None None None None None.
Definition bound_script (id : string) : CompiledWorkflowNode :=
  CompiledWorkflowNode.mk id "runtime.script" (inputs [("source", Value.String "return 1")]) None None
    (Some (ScriptRuntimeBindings.mk 1 ["context"; "attempt"; "services"; "secrets"] [])) None None.
Definition sees_nothing (id : string) : CompiledContextVisibility := CompiledContextVisibility.mk id [].
Definition runtime_policy1 : CompiledRuntimePolicy :=
  CompiledRuntimePolicy.mk 1 None None None (Some (CompiledQueuePolicy.mk "default" QueueDiscipline.WorkConservingFifo)).
Definition manual_trigger : CompiledTrigger := CompiledTrigger.mk "trigger1" "trigger.manual" (ValueExpression.Object ∅).
Definition settlement_id : string := "__woml_workflow__settlement".

Definition undo (action step : string) : CompiledCorrectiveAction :=
  CompiledCorrectiveAction.mk action (bound_script action) (CompiledCorrectionIdentity.Static action) [] (Some step).
Definition saga_open : string := "__woml_saga__saga1__open".
Definition saga_commit : string := "__woml_saga__saga1__commit".
Definition booking_saga : CompiledSaga :=
  CompiledSaga.mk "saga1" saga_open saga_commit "saga1" "step1" "step2" "step2" []
    [undo "undo1" "step1"; undo "undo2" "step2"] [] None.
Definition booking_graph : CompiledWorkflowGraph :=
  CompiledWorkflowGraph.mk [saga_open]
    [control_node saga_open "engine.saga-open"; bound_script "step1"; bound_script "step2";
     control_node saga_commit "engine.saga-commit"; control_node "saga1" "engine.saga-result";
     control_node settlement_id "engine.workflow-settlement"]
    [plain_edge "e1" saga_open "step1"; plain_edge "e2" "step1" "step2"; plain_edge "e3" "step2" saga_commit;
     plain_edge "e4" saga_commit "saga1"; plain_edge "e5" "saga1" settlement_id]
    (Some []) (Some []) (Some [sees_nothing "step1"; sees_nothing "step2"])
    (Some (CompiledWorkflowSettlement.mk settlement_id "saga1" [])) (Some []) (Some []) (Some []) (Some [booking_saga]).
Definition booking : CompiledWorkflowDefinition :=
  CompiledWorkflowDefinition.mk 19 "flow" None [manual_trigger] booking_graph None None (Some runtime_policy1) None None.

(** Both steps succeed; the second is undone first. *)
Definition undo_started (action : string) : CorrectionAttemptIdentityData :=
  CorrectionAttemptIdentityData.mk "saga1" action CorrectiveActionKind.Compensation 1.
Definition booking_run : list RunEvent :=
  numbered 18 1 (opening ++
    [plain (RunEventPayload.SagaStarted (SagaIdentityData.mk "saga1"));
     plain (script_started "step1" 1 "inv1");
     plain (attempt_succeeded "step1" 1 "inv1");
     plain (RunEventPayload.CompensationRegistered (CompensationRegisteredData.mk "saga1" "undo1" "step1" 5));
     plain (script_started "step2" 1 "inv2");
     plain (attempt_succeeded "step2" 1 "inv2");
     plain (RunEventPayload.CompensationRegistered (CompensationRegisteredData.mk "saga1" "undo2" "step2" 8));
     plain (RunEventPayload.SagaCorrectionStarted (SagaCorrectionStartedData.mk "saga1" SagaCorrectionReason.Failure));
     plain (RunEventPayload.CorrectionAttemptStarted (undo_started "undo2"));
     plain (RunEventPayload.CorrectionAttemptSucceeded (undo_started "undo2"));
     plain (RunEventPayload.CorrectionAttemptStarted (undo_started "undo1"))]).

(** ** A fork of two branches *)

Definition fork_open : string := "__woml_fork__fork1__open".
Definition fork_join : string := "__woml_fork__fork1__join".
Definition one_end : string := "__woml_fork__fork1__one__terminal".
Definition two_end : string := "__woml_fork__fork1__two__terminal".
Definition fork1 : CompiledFork :=
  CompiledFork.mk "fork1" fork_open fork_join
    [CompiledForkBranch.mk "one" "step1" one_end; CompiledForkBranch.mk "two" "step2" two_end] ["one"; "two"].
Definition forked_graph : CompiledWorkflowGraph :=
  CompiledWorkflowGraph.mk [fork_open]
    [control_node fork_open "engine.fork-open"; bound_script "step1"; bound_script "step2";
     control_node one_end "engine.fork-branch-terminal"; control_node two_end "engine.fork-branch-terminal";
     control_node fork_join "engine.fork-join"; bound_script "last"; control_node settlement_id "engine.workflow-settlement"]
    [plain_edge "e1" fork_open "step1"; plain_edge "e2" fork_open "step2"; plain_edge "e3" "step1" one_end;
     plain_edge "e4" "step2" two_end; plain_edge "e5" one_end fork_join; plain_edge "e6" two_end fork_join;
     plain_edge "e7" fork_join "last"; plain_edge "e8" "last" settlement_id;
     plain_edge "e9" one_end settlement_id; plain_edge "e10" two_end settlement_id]
    (Some [fork1]) (Some []) (Some [sees_nothing "step1"; sees_nothing "step2"; sees_nothing "last"])
    (Some (CompiledWorkflowSettlement.mk settlement_id "last" [one_end; two_end])) None None None None.
Definition forked : CompiledWorkflowDefinition :=
  CompiledWorkflowDefinition.mk 13 "flow" None [manual_trigger] forked_graph None None (Some runtime_policy1) None None.

Definition success_outcome : RunOutcomeDecidedData := RunOutcomeDecidedData.Succeeded Value.Null.
Definition forked_run : list RunEvent :=
  numbered 12 1 (opening ++
    [plain (RunEventPayload.ForkOpened (ForkOpenedData.mk "fork1"));
     plain (script_started "step1" 1 "inv1");
     plain (script_started "step2" 1 "inv2");
     plain (attempt_succeeded "step1" 1 "inv1");
     plain (attempt_succeeded "step2" 1 "inv2");
     plain (RunEventPayload.ForkBranchSettled (ForkBranchSettledData.mk "fork1" "one" one_end ForkBranchOutcome.Succeeded));
     plain (RunEventPayload.ForkBranchSettled (ForkBranchSettledData.mk "fork1" "two" two_end ForkBranchOutcome.Succeeded));
     plain (RunEventPayload.ForkJoinSettled (ForkJoinSettledData.mk "fork1" ForkJoinOutcome.Succeeded None));
     plain (script_started "last" 1 "inv3");
     plain (attempt_succeeded "last" 1 "inv3");
     plain (RunEventPayload.RunOutcomeDecided success_outcome)]).

(** ** A chain of two scripts *)

Definition chain_graph : CompiledWorkflowGraph :=
  CompiledWorkflowGraph.mk ["step1"] [script_node "step1" (Some policy1); script_node "step2" None]
    [plain_edge "e1" "step1" "step2"] None None None None None None None None.
Definition chain : CompiledWorkflowDefinition := CompiledWorkflowDefinition.mk 6 "flow" None [manual_trigger] chain_graph None None None None None.
Definition chain_run : list RunEvent := take 6 pipeline_run.

(** ** Their checks *)

(** The state of an accepted history. *)
Definition checked (d : CompiledWorkflowDefinition) (events : list RunEvent) : ProjectionFoldState :=
  match check_history d sha events noon with Ok s => s | _ => default_state end.

Lemma checked_ok d events :
  is_ok (check_history d sha events noon) = true → check_history d sha events noon = Ok (checked d events).
Proof. unfold checked. by destruct (check_history d sha events noon). Qed.

(** An engine that took a list of events. *)
Fixpoint append_all (engine : InMemoryDagEngine) (events : list RunEvent) : result EngineError InMemoryDagEngine :=
  match events with
  | [] => Ok engine
  | event :: events =>
      let? appended := append_event engine event (noon 0) noon in
      append_all appended.1 events
  end.
Definition started_engine (events : list RunEvent) : InMemoryDagEngine :=
  match (let? engine := engine_new_for_event_history pipeline sha in append_all engine events) with
  | Ok engine => engine
  | _ => InMemoryDagEngine.mk pipeline sha empty_store
  end.

Ltac run := vm_compute; reflexivity.
Ltac check_run := apply checked_ok; run.

(** The event at a position. *)
Definition event_at (events : list RunEvent) (i : nat) : RunEvent := nth i events lost_event.

(** The projection of the first events of the pipeline. *)
Definition pipeline_at (n : nat) : RunProjection := (folded (take n pipeline_run)).(ProjectionFoldState.projection).

(** ** Validation of definitions *)

Lemma valid_graphs_sound_witness :
  sound_graph pipeline ∧ ∃ terminal, terminal_node_id pipeline = Some terminal
    ∧ ∀ id, id ∈ node_ids pipeline → rtc (follows_edge pipeline) id terminal.
Proof. apply (valid_graphs_sound pipeline). run. Defined.

Lemma cycles_reported_exactly_witness :
  let ids : gset string := list_to_set (CompiledWorkflowNode.id <$> pipeline_graph.(CompiledWorkflowGraph.nodes)) in
  issue ModelIssueCode.CyclicGraph "Compiled graph contains a cycle." ∈ inspect_graph pipeline_graph ids
  ↔ ¬ ∃ rank : string → nat, ∀ edge, edge ∈ pipeline_graph.(CompiledWorkflowGraph.edges) → known_edge ids edge = true →
        rank edge.(CompiledWorkflowEdge.from) < rank edge.(CompiledWorkflowEdge.to).
Proof. apply (cycles_reported_exactly pipeline_graph). by apply (bool_decide_unpack _). Defined.

Lemma valid_definitions_return_witness :
  no_panic (ready_node_ids_for_projection_at pipeline sha (pipeline_at 7) (tick 8))
  ∧ no_panic (definition_ready_at pipeline sha (pipeline_at 7) (tick 8)).
Proof. apply (valid_definitions_return pipeline sha (pipeline_at 7) (tick 8)). run. Defined.

Lemma valid_retry_delays_witness :
  (policy1.(RetryPolicy.max_attempts) ≤ MAX_ATTEMPTS)%N
  ∧ ∃ delay, delay_before_attempt policy1 3 = Some delay ∧ (1 ≤ delay ≤ MAX_DELAY_MS)%N
    ∧ delay = N.min (100 * 2 ^ (3 - 2)) 1000.
Proof.
  apply (valid_retry_delays pipeline (script_node "step1" (Some policy1)) policy1 3).
  - intros e _. simpl. by rewrite N2Z.id.
  - run.
  - by left.
  - done.
  - simpl. lia.
Defined.

Lemma parallel_groups_decoded_witness :
  ∃ group, parallel_group pipeline "par" = Some group
    ∧ group.(ParallelGroupDefinition.child_node_ids)
      = CompiledWorkflowEdge.to <$> List.filter (λ (edge : CompiledWorkflowEdge), (edge.(CompiledWorkflowEdge.from) == parallel_start_node_id "par")
          && (edge.(CompiledWorkflowEdge.parallel_id) == Some "par")) (graph_edges pipeline)
    ∧ NoDup group.(ParallelGroupDefinition.child_node_ids)
    ∧ (1 ≤ group.(ParallelGroupDefinition.concurrency) ≤ len group.(ParallelGroupDefinition.child_node_ids))%N
    ∧ group.(ParallelGroupDefinition.on_error) ∈ ["fail-fast"; "wait-all"]
    ∧ ∀ child, child ∈ group.(ParallelGroupDefinition.child_node_ids) → parallel_group_for_child pipeline child = Some group.
Proof.
  apply (parallel_groups_decoded pipeline "par" (parallel_edge "par:child:0" start_id "a")); [run|run| |done].
  simpl. right. by left.
Defined.

Lemma correction_ids_roundtrip_witness :
  correction_identity_matches (CompiledCorrectionIdentity.ForEachIteration "loop1" "undo:{iterationKey}")
    (iteration_action_id "undo:{iterationKey}" 12) = negb (str_contains placeholder "").
Proof. apply (correction_ids_roundtrip "loop1" "undo:{iterationKey}" 12 "undo:" ""). run. Defined.

(** ** Readiness *)

Lemma readiness_indexes_transparent_witness :
  ready_node_ids_for_projection_at pipeline sha (pipeline_at 7) (tick 8) = reference_ready_at pipeline sha (pipeline_at 7) (tick 8)
  ∧ graph_is_ready_at (graph_new pipeline) sha (pipeline_at 7) (tick 8) "b" = Ok (bool_decide ("b" ∈ ["a"; "b"])).
Proof.
  destruct (readiness_indexes_transparent pipeline sha (pipeline_at 7) (tick 8)) as (Hr & _ & Hone).
  split; [done|]. apply Hone. run.
Defined.

Lemma ready_nodes_spec_witness :
  sublist ["a"; "b"] (node_ids pipeline)
  ∧ ∀ id, id ∈ ["a"; "b"] ↔ ∃ n, n.(CompiledWorkflowNode.id) = id ∧ ready_node pipeline (pipeline_at 7) (tick 8) n.
Proof. apply (ready_nodes_spec pipeline sha (pipeline_at 7) (tick 8) ["a"; "b"]); run. Defined.

(** The frontier of the chain before and after its first attempt. *)
Definition chain_at (n : nat) : RunProjection := (folded (take n chain_run)).(ProjectionFoldState.projection).
Definition chain_frontier : option Frontier :=
  match frontier_new chain (chain_at 1) (latest_ordinals (chain_at 1).(RunProjection.attempts)) with Ok f => f | _ => None end.
Definition next_frontier : option Frontier :=
  match chain_frontier with
  | Some f => match frontier_update f "step1" (chain_at 2) (latest_ordinals (chain_at 2).(RunProjection.attempts)) with Ok f => f | _ => None end
  | None => None
  end.

Lemma frontier_exact_witness :
  ∃ f, next_frontier = Some f
    ∧ frontier_ready_at f (tick 3) = ready_scan (scan_topology chain) chain (chain_at 2) (tick 3) (latest_attempt (chain_at 2)).
Proof.
  destruct chain_frontier as [f0|] eqn:Hf0; [|by vm_compute in Hf0].
  destruct next_frontier as [f|] eqn:Hf; [|by vm_compute in Hf].
  exists f. split; [done|]. apply (frontier_exact chain (chain_at 2) f (tick 3)); [|run].
  apply (follows_update chain (chain_at 1) (chain_at 2) f0 "step1").
  - apply follows_new. revert Hf0. unfold chain_frontier.
    by destruct (frontier_new _ _ _) as [[]| |] eqn:Hn; intros [= ->].
  - apply (attempt_event_changes (folded (take 1 chain_run)) (event_at chain_run 1) (folded (take 2 chain_run)));
      [exists (take 1 chain_run); apply folded_ok; run|run|run].
  - revert Hf. unfold next_frontier. rewrite Hf0.
    by destruct (frontier_update _ _ _ _) as [[]| |] eqn:Hn; intros [= ->].
Defined.

(** ** Accepted histories *)

Lemma accepted_attempts_ready_witness :
  ∃ si n n', from_events (take 4 pipeline_run) = Ok si
    ∧ n.(CompiledWorkflowNode.id) = "step1" ∧ ready_node pipeline si.(ProjectionFoldState.projection) (tick 5) n
    ∧ node pipeline "step1" = Some n' ∧ "runtime.script" = n'.(CompiledWorkflowNode.handler)
    ∧ (1 ≤ 2 ≤ maximum_attempts n')%N
    ∧ ((COMPILED_MODEL_SCHEMA_VERSION_V6 ≤ 6)%N →
        ∃ key, step_effect_idempotency_key "run" sha "step1" = Ok key ∧ Some sha = Some key).
Proof.
  apply (accepted_attempts_ready pipeline sha pipeline_run noon (checked pipeline pipeline_run) 4 (event_at pipeline_run 4)
    (StepAttemptStartedData.mk "step1" 2 "inv2" "runtime.script" (Some sha))); [check_run|run..].
Defined.

Definition schedule1 : StepRetryScheduledData := StepRetryScheduledData.mk "step1" 1 2 (tick 3 + 100 * NANOS_PER_MILLI).

Lemma accepted_retries_exact_witness :
  ∃ j previous failed policy delay, 3 = S j ∧ pipeline_run !! j = Some previous
    ∧ previous.(RunEvent.payload) = RunEventPayload.StepAttemptFailed failed
    ∧ failed.(StepAttemptFailedData.node_id) = "step1"
    ∧ failed.(StepAttemptFailedData.attempt) = 1%N
    ∧ failed.(StepAttemptFailedData.failure).(AttemptFailure.kind) = AttemptFailureKind.ScriptThrew
    ∧ retry_policy_of pipeline "step1" = Some policy
    ∧ 2%N = u32_add 1 1
    ∧ (2 ≤ 2 ≤ policy.(RetryPolicy.max_attempts))%N
    ∧ delay_before_attempt policy 2 = Some delay
    ∧ schedule1.(StepRetryScheduledData.scheduled_at) = (previous.(RunEvent.occurred_at) + Z.of_N delay * NANOS_PER_MILLI)%Z.
Proof.
  apply (accepted_retries_exact pipeline sha pipeline_run noon (checked pipeline pipeline_run) 3 (event_at pipeline_run 3)
    schedule1); [check_run|run..].
Defined.

Lemma accepted_failures_retried_witness :
  ∃ next schedule, pipeline_run !! 3 = Some next ∧ next.(RunEvent.payload) = RunEventPayload.StepRetryScheduled schedule
    ∧ schedule.(StepRetryScheduledData.node_id) = "step1"
    ∧ schedule.(StepRetryScheduledData.failed_attempt) = 1%N
    ∧ schedule.(StepRetryScheduledData.next_attempt) = u32_add 1 1.
Proof.
  apply (accepted_failures_retried pipeline sha pipeline_run noon (checked pipeline pipeline_run) 2 (event_at pipeline_run 2)
    (thrown "step1" 1 "inv1") policy1); [check_run|run..].
Defined.

Lemma accepted_concurrency_capped_witness :
  ∃ group, parallel_group pipeline "par" = Some group
    ∧ (N.of_nat (length (running_children pipeline group (pipeline_at 8))) ≤ group.(ParallelGroupDefinition.concurrency))%N.
Proof.
  destruct (parallel_group pipeline "par") as [group|] eqn:Hg; [|by vm_compute in Hg].
  exists group. split; [done|].
  apply (accepted_concurrency_capped pipeline sha pipeline_run noon (checked pipeline pipeline_run) 8
    (folded (take 8 pipeline_run)) "par" group); [check_run|apply folded_ok; run|done].
Defined.

Lemma accepted_groups_complete_witness :
  ∃ si group, from_events (take 11 pipeline_run) = Ok si ∧ parallel_group pipeline "par" = Some group
    ∧ ∀ child, child ∈ group.(ParallelGroupDefinition.child_node_ids) → is_wait_node pipeline child = false →
        has_output si.(ProjectionFoldState.projection) child = true.
Proof.
  apply (accepted_groups_complete pipeline sha pipeline_run noon (checked pipeline pipeline_run) 11 (event_at pipeline_run 11)
    (ParallelGroupCompletedData.mk "par" ParallelGroupOutcome.Succeeded [] [])); [check_run|run..].
Defined.

Lemma accepted_compensations_reverse_witness :
  ∃ si state action, from_events (take 10 booking_run) = Ok si
    ∧ si.(ProjectionFoldState.projection).(RunProjection.sagas) !! "saga1" = Some state
    ∧ state.(SagaProjection.reason) ≠ Some SagaCorrectionReason.Success
    ∧ action ∈ btree_values state.(SagaProjection.actions) ∧ action.(CorrectionActionProjection.action_id) = "undo2"
    ∧ awaits_attempt action.(CorrectionActionProjection.status) = true
    ∧ ∀ other, other ∈ btree_values state.(SagaProjection.actions) →
        other.(CorrectionActionProjection.action_kind) = CorrectiveActionKind.Compensation →
        awaits_attempt other.(CorrectionActionProjection.status) = true →
        (option_key other.(CorrectionActionProjection.completion_sequence) ≤ option_key action.(CorrectionActionProjection.completion_sequence))%N.
Proof.
  apply (accepted_compensations_reverse booking sha booking_run noon (checked booking booking_run) 10 (event_at booking_run 10)
    (undo_started "undo2")); [check_run|run..].
Defined.

Lemma accepted_outcomes_settled_witness :
  ∃ si, from_events (take 12 forked_run) = Ok si ∧
    ∀ fork projected, fork ∈ [fork1] → si.(ProjectionFoldState.projection).(RunProjection.forks) !! fork.(CompiledFork.fork_id) = Some projected →
      projected.(ForkProjection.join_status) ≠ ForkJoinStatus.Pending
      ∧ ∀ branch, branch ∈ fork.(CompiledFork.branches) →
          is_Some (projected.(ForkProjection.branches) !! branch.(CompiledForkBranch.branch_id)).
Proof.
  apply (accepted_outcomes_settled forked sha forked_run noon (checked forked forked_run) 12 (event_at forked_run 12)
    success_outcome); [check_run|run..].
Defined.

(** ** The engine *)

Lemma append_all_reachable events engine engine' :
  engine_reachable engine → append_all engine events = Ok engine' → engine_reachable engine'.
Proof.
  revert engine. induction events as [|event events IH]; simpl; intros engine Hr Ha; [by simplify_eq|].
  destruct (append_event engine event (noon 0) noon) as [[next projection]| |] eqn:Hn; simpl in Ha; [|done..].
  apply (IH next); [|done]. by apply (reach_append engine event (noon 0) noon next projection).
Qed.

Lemma started_engine_reachable events :
  is_ok (let? engine := engine_new_for_event_history pipeline sha in append_all engine events) = true →
  engine_reachable (started_engine events).
Proof.
  unfold started_engine. destruct (engine_new_for_event_history pipeline sha) as [engine| |] eqn:He; simpl; [|done..].
  destruct (append_all engine events) as [engine'| |] eqn:Ha; simpl; [|done..]. intros _.
  apply (append_all_reachable events engine); [|done]. by apply (reach_new_for_event_history pipeline sha).
Qed.

Lemma engine_histories_accepted_witness :
  let engine := started_engine (take 4 smooth_run) in
  validate_structure engine.(InMemoryDagEngine.workflow) = Ok tt
  ∧ ∀ run_id events, engine.(InMemoryDagEngine.store).(InMemoryEventStore.runs) !! run_id = Some events →
      events ≠ [] ∧ (∀ event, event ∈ events → event.(RunEvent.run_id) = run_id)
      ∧ ∃ clock state, check_history engine.(InMemoryDagEngine.workflow) engine.(InMemoryDagEngine.definition_hash) events clock = Ok state
          ∧ engine_projection engine run_id = state.(ProjectionFoldState.projection).
Proof.
  apply (engine_histories_accepted (started_engine (take 4 smooth_run))).
  apply started_engine_reachable. run.
Defined.

Lemma append_refines_log_witness :
  let engine := started_engine (take 4 smooth_run) in
  match append_event engine (event_at smooth_run 4) (noon 0) noon with
  | Ok (engine', projection) => fold_events (store_events engine.(InMemoryDagEngine.store) "run" ++ [event_at smooth_run 4]) = Ok projection
  | _ => False
  end.
Proof.
  intros engine.
  assert (is_ok (append_event engine (event_at smooth_run 4) (noon 0) noon) = true) as Hok by run.
  pose proof (append_refines_log engine (event_at smooth_run 4) (noon 0) noon
    (started_engine_reachable (take 4 smooth_run) ltac:(run))) as Hlog. cbv zeta in Hlog.
  destruct (append_event engine (event_at smooth_run 4) (noon 0) noon) as [[engine' projection]| |]; [|done..].
  exact (proj1 Hlog).
Defined.
