(* ===== verification/PolicyWitnesses.v ===== *)
(** * Concrete policies, and witnesses

    A signed policy for a production environment, an emergency overlay, operations and
    evidence, and each theorem about policies applied to them. *)

From S2P Require Import Prelude Strings Json EventTypes Guards EventIdentities EventValidation.
From S2P Require Import ModelTypes EngineExternals PolicyTypes PolicyBundle PolicyDescriptors.
From S2P Require Import PolicyEvaluation PolicyProperties PolicyCache Scenarios EngineWitnesses.

(** ** A concrete environment *)

(** Base64 and signatures are the identity and always valid; every timestamp parses to its
    length. *)
#[export] Instance policy_stand_ins : PolicyExternals := {
  parse_from_rfc3339 := λ text, Some (Z.of_N (str_len text));
  serialize_datetime := λ _, "1970-01-01T00:00:00Z";
  base64url_decode := λ text, Some text;
  base64url_encode := λ text, text;
  ed25519_verify := λ _ _ _, true;
  value_from_slice := λ _, None;
  bundle_from_slice := λ _, None;
  url_parse := λ _, None;
}.

(** A clock that does not move. *)
Definition still : nat → N := λ _, 0%N.

(** ** A signed policy *)

Definition process_match : InfrastructurePolicyRuleMatchV1 :=
  InfrastructurePolicyRuleMatchV1.mk (Some ["process"]) None None None None (Some ["kubectl"])
    (Some ["apply"]) None.
Definition unsafe_match : InfrastructurePolicyRuleMatchV1 :=
  InfrastructurePolicyRuleMatchV1.mk (Some ["db"]) None
    (Some [InfrastructurePolicyEffectV1.UnsafeWrite]) None None None None None.

Definition deploy_requirements : InfrastructurePolicyRequirementsV1 :=
  InfrastructurePolicyRequirementsV1.mk
    (Some (InfrastructurePolicyApprovalRequirementV1.mk 2 ["ops"] false 1000))
    None (Some (InfrastructurePolicyLockRequirementV1.mk "cluster" 500)) None.

Definition deploy_rule : InfrastructurePolicyRuleV1 :=
  InfrastructurePolicyRuleV1.mk "deploy" None process_match InfrastructurePolicyDecisionV1.Allow
    (Some deploy_requirements).
Definition database_rule : InfrastructurePolicyRuleV1 :=
  InfrastructurePolicyRuleV1.mk "database" (Some "No unsafe writes.") unsafe_match
    InfrastructurePolicyDecisionV1.Deny None.

Definition bundle_of (rules : list InfrastructurePolicyRuleV1) : InfrastructurePolicyBundleV1 :=
  InfrastructurePolicyBundleV1.mk INFRASTRUCTURE_POLICY_CONTRACT 1 "production" "1.0" "prod"
    (InfrastructurePolicyDefaultsV1.mk InfrastructurePolicyDefaultV1.Allow
       InfrastructurePolicyDefaultV1.Deny InfrastructurePolicyDefaultV1.Deny)
    rules (Some (InfrastructurePolicySignatureV1.mk "ed25519" "ops-key" hex64)).

Definition trust_store : InfrastructurePolicyTrustV1 :=
  InfrastructurePolicyTrustV1.mk {["ops-key" := "0123456789abcdef0123456789abcdef"]} ∅ true.

Definition prepared_of (bundle : InfrastructurePolicyBundleV1) : PreparedInfrastructurePolicyV1 :=
  PreparedInfrastructurePolicyV1.mk bundle sha "{}" InfrastructurePolicySignatureStatusV1.Verified
    (Some "ops-key").

Definition policy_bundle : InfrastructurePolicyBundleV1 := bundle_of [deploy_rule; database_rule].
Definition policy : PreparedInfrastructurePolicyV1 := prepared_of policy_bundle.

Lemma policy_prepared : prepare_infrastructure_policy policy_bundle trust_store = Ok policy.
Proof. vm_compute. reflexivity. Qed.

(** ** An operation and its evidence *)

Definition deploy_in (environment : string) : InfrastructurePolicyOperationDescriptorV1 :=
  InfrastructurePolicyOperationDescriptorV1.mk INFRASTRUCTURE_POLICY_DESCRIPTOR_CONTRACT 1 sha "run"
    "workflow" "hash" "node" 1 "invocation" sha "process" "run"
    InfrastructurePolicyEffectV1.UnsafeWrite environment None (Some "kubectl") ["apply"; "-f"] 2 None
    InfrastructurePolicyExecutionModeV1.Normal None ∅.
Definition deploy : InfrastructurePolicyOperationDescriptorV1 := deploy_in "prod".

Definition approval_by (principal : string) (roles : gset string) :
    InfrastructurePolicyEvidenceReferenceV1 :=
  InfrastructurePolicyEvidenceReferenceV1.mk INFRASTRUCTURE_POLICY_EVIDENCE_CONTRACT 1 principal sha
    InfrastructurePolicyEvidenceKindV1.Approval "authority" 0 None "run" None None None
    (Some principal) roles true None.
Definition cluster_lease : InfrastructurePolicyEvidenceReferenceV1 :=
  InfrastructurePolicyEvidenceReferenceV1.mk INFRASTRUCTURE_POLICY_EVIDENCE_CONTRACT 1 "lease" sha
    InfrastructurePolicyEvidenceKindV1.Lock "authority" 0 (Some 1000000000%Z) "run" None None None
    None ∅ true (Some "cluster").
Definition deploy_evidence : list InfrastructurePolicyEvidenceReferenceV1 :=
  [approval_by "alice" {["ops"]}; approval_by "bob" ∅; cluster_lease].

Definition now : DateTime := 1000000%Z.

Definition decision_of (e : InfrastructurePolicyPreparedEvaluatorV1)
    (descriptor : InfrastructurePolicyOperationDescriptorV1)
    (evidence : list InfrastructurePolicyEvidenceReferenceV1) : InfrastructurePolicyDecisionRecordV1 :=
  match evaluate still e descriptor evidence now with
  | Ok r => r
  | _ => input_unsupported_decision e "" "" "" "" 0 "" "" "" "" CapabilityEffect.Read
           InfrastructurePolicyExecutionModeV1.Normal 0
  end.
Definition deploy_decision : InfrastructurePolicyDecisionRecordV1 :=
  decision_of (prepare policy) deploy deploy_evidence.

(** The deployment is allowed with two approvals and a lease, and not with one approval twice. *)
Example deploy_allowed :
  deploy_decision.(InfrastructurePolicyDecisionRecordV1.outcome) = InfrastructurePolicyDecisionOutcomeV1.Allow.
Proof. vm_compute. reflexivity. Qed.
Example repeated_approval_insufficient :
  (decision_of (prepare policy) deploy [approval_by "alice" {["ops"]}; approval_by "alice" ∅; cluster_lease])
    .(InfrastructurePolicyDecisionRecordV1.outcome)
  = InfrastructurePolicyDecisionOutcomeV1.RequirementsUnsatisfied.
Proof. vm_compute. reflexivity. Qed.

Lemma evaluation_refines_verdict_witness :
  evaluate still (prepare policy) deploy deploy_evidence now = Ok deploy_decision
  ∧ (verdict policy deploy deploy_evidence now deploy_decision.(InfrastructurePolicyDecisionRecordV1.outcome)
     ∨ budget_exhausted deploy_decision).
Proof.
  split; [vm_compute; reflexivity|]. apply (evaluation_refines_verdict still). vm_compute. reflexivity.
Defined.

Lemma evaluation_within_budget_witness :
  ∃ r, evaluate still (prepare policy) deploy deploy_evidence now = Ok r
    ∧ verdict policy deploy deploy_evidence now r.(InfrastructurePolicyDecisionRecordV1.outcome).
Proof.
  apply (evaluation_within_budget still policy_bundle trust_store policy).
  - vm_compute. reflexivity.
  - intros n. vm_compute. discriminate.
  - intros ms _. by eexists.
  - vm_compute. discriminate.
  - vm_compute. discriminate.
Defined.

Lemma rule_order_irrelevant_witness :
  ∃ r, evaluate still (prepare (prepared_of (bundle_of [database_rule; deploy_rule]))) deploy
         deploy_evidence now = Ok r ∧ same_decision deploy_decision r.
Proof.
  apply (rule_order_irrelevant still policy_bundle [database_rule; deploy_rule] trust_store trust_store policy).
  - vm_compute. reflexivity.
  - vm_compute. reflexivity.
  - apply Permutation_swap.
  - vm_compute. reflexivity.
Defined.

(** ** An emergency overlay *)

Definition overlay_bundle : InfrastructurePolicyBundleV1 :=
  InfrastructurePolicyBundleV1.mk INFRASTRUCTURE_POLICY_CONTRACT 1 "incident" "1.0" "prod"
    (InfrastructurePolicyDefaultsV1.mk InfrastructurePolicyDefaultV1.Allow
       InfrastructurePolicyDefaultV1.Allow InfrastructurePolicyDefaultV1.Allow)
    [InfrastructurePolicyRuleV1.mk "stop" None process_match InfrastructurePolicyDecisionV1.Deny None]
    None.
Definition open_trust : InfrastructurePolicyTrustV1 := InfrastructurePolicyTrustV1.mk ∅ ∅ false.
Definition overlay : PreparedInfrastructurePolicyV1 :=
  PreparedInfrastructurePolicyV1.mk overlay_bundle sha "{}"
    InfrastructurePolicySignatureStatusV1.Unsigned None.
Definition overlay_decision : InfrastructurePolicyDecisionRecordV1 :=
  decision_of (prepare overlay) deploy [].

Lemma overlay_removes_authority_witness :
  let final := apply_emergency_deny_overlay deploy_decision overlay_decision in
  final.(InfrastructurePolicyDecisionRecordV1.outcome) = InfrastructurePolicyDecisionOutcomeV1.Deny
  ∧ final.(InfrastructurePolicyDecisionRecordV1.policy_id) = "production"
  ∧ final.(InfrastructurePolicyDecisionRecordV1.matched_rule_ids) = ["deploy"].
Proof.
  split; [vm_compute; reflexivity|].
  destruct (overlay_removes_authority still overlay_bundle open_trust overlay deploy now deploy_decision
    overlay_decision) as (_ & _ & Hid & _ & _ & Hids & _).
  - vm_compute. reflexivity.
  - vm_compute. reflexivity.
  - split; [rewrite Hid|rewrite Hids]; vm_compute; reflexivity.
Defined.

Lemma decisions_recordable_witness :
  validate_infrastructure_policy_decision_recorded
    (decision_event "invocation" "call" sha deploy_decision) = Ok ().
Proof.
  apply (decisions_recordable still policy_bundle trust_store policy deploy deploy_evidence now).
  - intros bytes. vm_compute. done.
  - intros value. by eexists.
  - vm_compute. reflexivity.
  - vm_compute. reflexivity.
  - vm_compute. reflexivity.
  - vm_compute. reflexivity.
  - vm_compute. reflexivity.
  - vm_compute. reflexivity.
  - vm_compute. reflexivity.
Defined.

(** An operation of another environment. *)
Lemma unmatched_overlay_unrecordable_witness :
  validate_infrastructure_policy_decision_recorded
    (decision_event "invocation" "call" sha
       (apply_emergency_deny_overlay deploy_decision (decision_of (prepare overlay) (deploy_in "staging") [])))
  = Err (Invalid "infrastructure_policy_decision_recorded exceeds its safe durable contract.").
Proof.
  apply (unmatched_overlay_unrecordable still overlay (deploy_in "staging") now).
  - vm_compute. reflexivity.
  - left. vm_compute. discriminate.
Defined.

Lemma prepared_policies_authentic_witness :
  policy.(PreparedInfrastructurePolicyV1.signature_status) = InfrastructurePolicySignatureStatusV1.Verified.
Proof.
  apply (prepared_policies_authentic policy_bundle trust_store policy).
  - vm_compute. reflexivity.
  - reflexivity.
Defined.

Lemma evaluator_cache_transparent_witness :
  (N.of_nat (cache_len (cache_run (cache_new 1) [policy; policy]).1) ≤ 1)%N.
Proof.
  apply (evaluator_cache_transparent 1 [policy; policy]).
  intros p1 p2 H1 H2 _. assert (p1 = policy) as -> by set_solver. assert (p2 = policy) as -> by set_solver.
  by split.
Defined.
