(* ===== verification/StateWitnesses.v ===== *)
(** * Concrete calls on durable user state, and witnesses

    Stand-ins for the encoders and the digest that satisfy [StateLaws], a store with a few
    committed calls, and each theorem about durable state applied to it. *)

From stdpp Require Import pretty.
From S2P Require Import Prelude Strings Json EventTypes Guards EventIdentities ModelRoundTrips.
From S2P Require Import PolicyTypes PolicyBundle PolicyDescriptors PolicyProperties DurableState.
From S2P Require Import DurableStateProperties StateRegisters.

(** ** An injective encoding of values *)

#[export] Instance number_eq_dec : EqDecision Number.
Proof. solve_decision. Defined.
#[export] Program Instance number_countable : Countable Number :=
  inj_countable'
    (λ n, match n with
          | Number.PosInt n => inl n
          | Number.NegInt z => inr (inl z)
          | Number.Float x => inr (inr x)
          end)
    (λ s, match s with
          | inl n => Number.PosInt n
          | inr (inl z) => Number.NegInt z
          | inr (inr x) => Number.Float x
          end) _.
Next Obligation. by intros []. Qed.

Abbreviation value_tree := (gen_tree (Number + string)).

Fixpoint tree_of_value (v : Value) : value_tree :=
  match v with
  | Value.Null => GenNode 0 []
  | Value.Bool b => GenNode (if b then 1 else 2) []
  | Value.Number n => GenLeaf (inl n)
  | Value.String s => GenLeaf (inr s)
  | Value.Array values => GenNode 3 (map tree_of_value values)
  | Value.Object entries =>
      GenNode 4 (map (λ entry, GenNode 5 [GenLeaf (inr entry.1); tree_of_value entry.2]) entries)
  end.

Fixpoint value_of_tree (t : value_tree) : Value :=
  match t with
  | GenLeaf (inl n) => Value.Number n
  | GenLeaf (inr s) => Value.String s
  | GenNode 0 _ => Value.Null
  | GenNode 1 _ => Value.Bool true
  | GenNode 2 _ => Value.Bool false
  | GenNode 3 trees => Value.Array (map value_of_tree trees)
  | GenNode _ trees =>
      Value.Object
        (map (λ tree, match tree with
                      | GenNode _ [GenLeaf (inr key); tree] => (key, value_of_tree tree)
                      | _ => (EmptyString, Value.Null)
                      end) trees)
  end.

Lemma value_ind' (P : Value → Prop) :
  P Value.Null → (∀ b, P (Value.Bool b)) → (∀ n, P (Value.Number n)) → (∀ s, P (Value.String s)) →
  (∀ values, Forall P values → P (Value.Array values)) →
  (∀ entries, Forall (λ entry, P entry.2) entries → P (Value.Object entries)) →
  ∀ v, P v.
Proof.
  intros Hnull Hbool Hnumber Hstring Harray Hobject.
  refine (fix go v := match v with
    | Value.Array values => Harray values _ | Value.Object entries => Hobject entries _ | _ => _ end);
    [done..| |].
  - induction values; constructor; auto.
  - induction entries; constructor; auto.
Qed.

Lemma value_of_tree_of_value v : value_of_tree (tree_of_value v) = v.
Proof.
  induction v as [|[]| | |values IH|entries IH] using value_ind'; try done; simpl; f_equal.
  - induction IH; simpl; congruence.
  - induction IH as [|[key v] entries Hv IH]; simpl in *; congruence.
Qed.

Lemma same_json_refl v : same_json v v.
Proof.
  induction v as [|[]| | |values IH|entries IH] using value_ind'; constructor; try done.
  - induction IH; constructor; auto.
  - intros key. induction IH as [|[k v] entries Hv IH]; simpl; [constructor|].
    case_decide; [by constructor|done].
Qed.

Fixpoint bits_of_positive (p : positive) : string :=
  match p with
  | xH => EmptyString
  | xO p => String "0" (bits_of_positive p)
  | xI p => String "1" (bits_of_positive p)
  end.
Fixpoint positive_of_bits (s : string) : positive :=
  match s with
  | EmptyString => xH
  | String b s => (if is_byte "1" b then xI else xO) (positive_of_bits s)
  end.

Lemma positive_of_bits_of_positive p : positive_of_bits (bits_of_positive p) = p.
Proof. induction p as [p IH|p IH|]; simpl; by rewrite ?IH. Qed.

(** Safe integers in decimal, every other value as its number in binary. *)
Definition value_safe_integer (v : Value) : option Z :=
  match v with
  | Value.Number (Number.PosInt n) => if (n <=? MAX_STATE_SAFE_INTEGER)%N then Some (Z.of_N n) else None
  | Value.Number (Number.NegInt z) => if safe_integer z && (z <? 0)%Z then Some z else None
  | _ => None
  end.
Definition encode_value (v : Value) : string :=
  match value_safe_integer v with
  | Some z => i64_to_string z
  | None => String "x" (bits_of_positive (encode (tree_of_value v)))
  end.
Definition decode_value (text : string) : option Value :=
  match text with
  | String "x" bits => value_of_tree <$> decode (positive_of_bits bits)
  | String "-" digits => (λ n, Value.Number (Number.NegInt (- Z.of_N n))) <$> parse_usize digits
  | _ => (λ n, Value.Number (Number.PosInt n)) <$> parse_usize text
  end.

Lemma decode_digits n :
  (n < usize_modulus)%N → decode_value (decimal n) = Some (Value.Number (Number.PosInt n)).
Proof.
  intros Hn. destruct (decimal_digits n) as [Hd Hne]. unfold decode_value.
  rewrite (parse_decimal _ Hn). destruct (decimal n) as [|b s]; [done|].
  apply andb_true_iff in Hd as [Hd _]. destruct b as [[] [] [] [] [] [] [] []]; done.
Qed.

Lemma decode_integer z :
  safe_integer z = true → decode_value (i64_to_string z) = Some (value_from_i64 z).
Proof.
  unfold safe_integer. intros [?%Z.leb_le ?%Z.leb_le]%andb_true_iff.
  unfold MAX_STATE_SAFE_INTEGER in *. destruct z as [|p|p].
  - done.
  - apply decode_digits. unfold usize_modulus. lia.
  - change (i64_to_string (Z.neg p)) with (String "-" (decimal (N.pos p))). simpl.
    rewrite parse_decimal by (unfold usize_modulus; lia). done.
Qed.

Lemma value_safe_integer_from v z :
  value_safe_integer v = Some z → v = value_from_i64 z ∧ safe_integer z = true.
Proof.
  unfold value_safe_integer, safe_integer. destruct v as [| |[n|w|]| | |]; try done.
  - case_match; [|done]. intros [= <-]. simplify_guards. unfold value_from_i64.
    destruct (0 <=? Z.of_N n)%Z eqn:E; [|lia]. rewrite N2Z.id. split; [done|].
    unfold MAX_STATE_SAFE_INTEGER in *. apply andb_true_iff. rewrite !Z.leb_le. lia.
  - case_match eqn:E; [|done]. intros [= <-]. apply andb_true_iff in E as [? ?%Z.ltb_lt].
    unfold value_from_i64. destruct (0 <=? w)%Z eqn:E; [lia|done].
Qed.

Lemma value_safe_integer_of z :
  safe_integer z = true → value_safe_integer (value_from_i64 z) = Some z.
Proof.
  intros Hsafe. pose proof Hsafe as [?%Z.leb_le ?%Z.leb_le]%andb_true_iff. unfold value_from_i64, value_safe_integer.
  destruct (0 <=? z)%Z eqn:E.
  - apply Z.leb_le in E. rewrite (proj2 (N.leb_le (Z.to_N z) MAX_STATE_SAFE_INTEGER)) by lia. f_equal. lia.
  - apply Z.leb_gt in E. rewrite Hsafe, (proj2 (Z.ltb_lt z 0)) by lia. done.
Qed.

Lemma decode_encode_value v : decode_value (encode_value v) = Some v.
Proof.
  unfold encode_value. destruct (value_safe_integer v) as [z|] eqn:Hz.
  - apply value_safe_integer_from in Hz as [-> Hsafe]. by apply decode_integer.
  - simpl. rewrite positive_of_bits_of_positive, decode_encode. simpl. by rewrite value_of_tree_of_value.
Qed.

Lemma ascii_utf8 s : bytes_all (byte_in 0 127) s = true → is_utf8 s = true.
Proof.
  induction s as [|b s IH]; [done|]. intros [Hb Hs]%andb_true_iff. cbn [is_utf8]. rewrite Hb. by apply IH.
Qed.

Lemma bits_ascii p : bytes_all (byte_in 0 127) (bits_of_positive p) = true.
Proof. induction p; done. Qed.

Lemma decimal_ascii n : bytes_all (byte_in 0 127) (decimal n) = true.
Proof.
  destruct (decimal_digits n) as [Hd _]. induction (decimal n) as [|b s IH]; [done|]. simpl in *.
  apply andb_true_iff in Hd as [Hb Hs]. rewrite (IH Hs), andb_true_r.
  destruct b as [[] [] [] [] [] [] [] []]; done.
Qed.

Lemma encode_value_utf8 v : is_utf8 (encode_value v) = true.
Proof.
  apply ascii_utf8. unfold encode_value. case_match.
  - match goal with z : Z |- _ => destruct z as [|p|p]; [done|apply (decimal_ascii (N.pos p))|apply (decimal_ascii (N.pos p))] end.
  - apply (bits_ascii _).
Qed.

(** ** A digest of the right shape *)

Fixpoint hex_digits (count : nat) (n : N) : string :=
  match count with
  | O => EmptyString
  | S count =>
      let d := N.land n 15 in
      String (Ascii.ascii_of_N (if (d <? 10)%N then d + 48 else d + 87)) (hex_digits count (N.shiftr n 4))
  end.
Fixpoint checksum (acc : N) (s : string) : N :=
  match s with
  | EmptyString => acc
  | String b s => checksum (N.land (acc * 257 + Ascii.N_of_ascii b) (2 ^ 32 - 1)) s
  end.

Lemma hex_digits_length count n : String.length (hex_digits count n) = count.
Proof. revert n. induction count; intros; simpl; auto. Qed.
Lemma hex_digits_hex count n : bytes_all is_lower_hex (hex_digits count n) = true.
Proof.
  revert n. induction count as [|count IH]; intros n; [done|]. simpl. rewrite IH, andb_true_r.
  assert (N.land n 15 < 16)%N as Hd.
  { change 15%N with (N.ones 4). rewrite N.land_ones. by apply N.mod_lt. }
  revert Hd. generalize (N.land n 15). intros d Hd.
  assert (∃ k, k < 16 ∧ d = N.of_nat k) as (k & Hk & ->) by (exists (N.to_nat d); lia).
  do 16 (destruct k as [|k]; [done|]). lia.
Qed.

#[export] Instance state_externals : Externals := {
  serde_json_encoded_len := λ v, Some (str_len (encode_value v));
  policy_decision_encoded_len := λ _, Some 2%N;
  canonical_json := λ v, Some (encode_value v);
  sha256_hex := λ s, hex_digits 64 (checksum 1 s);
  rfc3339_millis := λ time, i64_to_string time;
}.
#[export] Instance state_policy_externals : PolicyExternals := {
  parse_from_rfc3339 := λ text, Z.of_N <$> parse_usize text;
  serialize_datetime := λ time, i64_to_string time;
  base64url_decode := λ text, Some text;
  base64url_encode := λ text, text;
  ed25519_verify := λ _ _ _, true;
  value_from_slice := decode_value;
  bundle_from_slice := λ _, None;
  url_parse := λ _, None;
}.
#[export] Instance clock_externals : StateExternals := {
  from_timestamp_millis := λ ms, if (Z.abs ms <=? 8210266876799999)%Z then Some ms else None;
}.

(** Every value is read back as it was. *)
Lemma all_exact v : exact_json v.
Proof.
  induction v as [| |n| |values IH|entries IH] using value_ind'; constructor; try done.
  exists (encode_value (Value.Number n)), n. split; [done|]. split; [apply decode_encode_value|done].
Qed.

#[export] Instance state_laws : StateLaws.
Proof.
  split.
  - intros v text [= <-]. apply encode_value_utf8.
  - intros v text [= <-] _ _. exists v. cbn [value_from_slice state_policy_externals].
    rewrite decode_encode_value. auto using same_json_refl.
  - intros v text _ _. apply all_exact.
  - intros v v' text [= <-]. cbn [value_from_slice state_policy_externals].
    rewrite decode_encode_value. by intros [= <-].
  - intros z Hz. cbn [value_from_slice state_policy_externals canonical_json state_externals]. rewrite decode_integer by done. split; [|done]. unfold encode_value.
    by rewrite value_safe_integer_of.
  - intros ms time Hms. cbn [from_timestamp_millis clock_externals parse_from_rfc3339 state_policy_externals
      rfc3339_millis state_externals]. case_match; [|done]. intros [= <-].
    assert (∃ n, ms = Z.of_N n ∧ (n < usize_modulus)%N) as (n & -> & Hn)
      by (exists (Z.to_N ms); unfold usize_modulus; lia).
    replace (i64_to_string (Z.of_N n)) with (decimal n) by (by destruct n).
    rewrite parse_decimal by done. by eexists.
  - intros bytes. cbn [sha256_hex state_externals]. unfold str_len. by rewrite hex_digits_length, hex_digits_hex.
Qed.

(** ** A store and calls on it *)

Definition empty_database : StateDatabase :=
  StateDatabase.mk {["schema_version" := "20"]} (list_to_set state_objects) "ok" false ∅ ∅ ∅.
Definition small_limits : DurableStateLimits := DurableStateLimits.mk 2 4000 3000.

Definition opened : StateDatabase * DurableStateStore :=
  match open_with "/data/store.db" empty_database small_limits with
  | Ok opened => opened
  | _ => (empty_database, DurableStateStore.mk "" "" small_limits)
  end.
Definition state_store : DurableStateStore := opened.2.

Lemma store_opened : open_with "/data/store.db" empty_database small_limits = Ok (opened.1, state_store).
Proof.
  assert (is_ok (open_with "/data/store.db" empty_database small_limits) = true) as Hok
    by (vm_compute; reflexivity).
  unfold state_store, opened. by destruct (open_with _ _ _) as [[]| |].
Qed.

(** A call of an operation on durable state, named by its author. *)
Definition state_call (operation name : string) (input : Map) : CapabilityCallRequest :=
  let step_key := digest "step" "step1" in
  let operation_name := "state." +:+ operation +:+ "." +:+ name in
  CapabilityCallRequest.mk "woml.capability-call" 1 "request" "inv1" "call1" "run1" "node1" 1 "state"
    operation 1 1
    (CapabilityCallIdentity.mk CapabilityIdentityMode.Named step_key operation_name
       (derive_operation_key step_key operation_name) None)
    (CapabilityCallLimits.mk 8388608 8388608 1000)
    (Value.Object
       [("contract", Value.String STATE_CONTRACT); ("contractVersion", json_number 1);
        ("kind", Value.String "request"); ("operation", Value.String operation);
        ("input", Value.Object input)]).

Definition counter_key : string * Value := ("key", Value.String "counter").
Definition list_value : Value :=
  Value.Array [Value.Null; json_number 7; Value.Object [("b", Value.Bool true)]].

Definition set_counter : CapabilityCallRequest :=
  state_call "set" "first" [counter_key; ("value", value_from_i64 41)].
Definition increment_counter : CapabilityCallRequest :=
  state_call "increment" "second" [counter_key; ("amount", value_from_i64 1); ("ifVersion", json_number 1)].
Definition set_list : CapabilityCallRequest :=
  state_call "set" "third" [("key", Value.String "list"); ("value", list_value)].
Definition get_list : CapabilityCallRequest := state_call "get" "fourth" [("key", Value.String "list")].
Definition set_third_key : CapabilityCallRequest :=
  state_call "set" "fifth" [("key", Value.String "extra"); ("value", Value.Null)].
Definition delete_counter : CapabilityCallRequest :=
  state_call "delete" "sixth" [counter_key; ("ifVersion", json_number 2)].

Definition call_in (db : StateDatabase) (call : CapabilityCallRequest) :
    state_result (StateDatabase * DurableStateExecution) :=
  execute state_store db "flow" call 1700000000000 0%N.
Definition after (db : StateDatabase) (call : CapabilityCallRequest) : StateDatabase :=
  match call_in db call with Ok (db, _) => db | _ => db end.
Definition execution_of (db : StateDatabase) (call : CapabilityCallRequest) : DurableStateExecution :=
  match call_in db call with
  | Ok (_, execution) => execution
  | _ => DurableStateExecution.mk Value.Null false "" "" "" "" None None 0%N
  end.

Lemma call_ok db call :
  is_ok (call_in db call) = true → call_in db call = Ok (after db call, execution_of db call).
Proof. unfold after, execution_of. by destruct (call_in db call) as [[]| |]. Qed.

Lemma after_step db call :
  (nesting call.(CapabilityCallRequest.input) <=? 127)%nat = true →
  state_step state_store db (after db call).
Proof.
  intros Hn%Nat.leb_le. unfold after. destruct (call_in db call) as [[db' execution]| |] eqn:Hok;
    try constructor.
  by eapply step_committed; [|done|done].
Qed.

Lemma after_steps db calls :
  forallb (λ call, nesting call.(CapabilityCallRequest.input) <=? 127)%nat calls = true →
  rtc (state_step state_store) db (foldl after db calls).
Proof.
  revert db. induction calls as [|call calls IH]; intros db; simpl; [by constructor|].
  intros [Hcall Hcalls]%andb_true_iff. eapply rtc_l; [by apply after_step|by apply IH].
Qed.

Lemma exact_after_steps db calls :
  forallb (λ call, nesting call.(CapabilityCallRequest.input) <=? 127)%nat calls = true →
  rtc (exact_step state_store) db (foldl after db calls).
Proof.
  intros Hcalls. eapply rtc_subrel; [|by apply after_steps].
  intros db1 db2 [????????? Hok|]; [|constructor]. by eapply exact_committed; [..|apply all_exact|].
Qed.

Lemma calls_history calls :
  forallb (λ call, nesting call.(CapabilityCallRequest.input) <=? 127)%nat calls = true →
  history "/data/store.db" small_limits state_store (foldl after opened.1 calls).
Proof.
  intros. exists empty_database, opened.1. split; [done|]. split; [apply store_opened|].
  by apply after_steps.
Qed.

Lemma calls_exact_history calls :
  forallb (λ call, nesting call.(CapabilityCallRequest.input) <=? 127)%nat calls = true →
  exact_history "/data/store.db" small_limits state_store (foldl after opened.1 calls).
Proof.
  intros. exists empty_database, opened.1. split; [done|]. split; [apply store_opened|].
  by apply exact_after_steps.
Qed.

(** The counter is set and incremented once; a third key exceeds the quota of two; a deleted
    key frees its place and its next version follows the last one. *)
Definition calls1 : list CapabilityCallRequest := [set_counter].
Definition calls2 : list CapabilityCallRequest := [set_counter; increment_counter; set_list].

Example counter_incremented :
  (λ entry, (entry.(StateEntry.value_json), entry.(StateEntry.version)))
    <$> read_entry (foldl after opened.1 calls2) (scope_digest state_store "flow") "counter"
  = Some ("42", 2%N).
Proof. vm_compute. reflexivity. Qed.
Example third_key_refused :
  call_in (foldl after opened.1 calls2) set_third_key = Err DurableStateError.QuotaExceeded.
Proof. vm_compute. reflexivity. Qed.
Example deleted_key_frees_place :
  (execution_of (foldl after opened.1 (calls2 ++ [delete_counter])) set_third_key)
    .(DurableStateExecution.version) = Some 1%N.
Proof. vm_compute. reflexivity. Qed.

Definition database1 : StateDatabase := foldl after opened.1 calls1.
Definition database2 : StateDatabase := foldl after opened.1 calls2.

Lemma history1 : history "/data/store.db" small_limits state_store database1.
Proof. apply (calls_history calls1). done. Qed.
Lemma history2 : history "/data/store.db" small_limits state_store database2.
Proof. apply (calls_history calls2). done. Qed.

Lemma exact_history1 : exact_history "/data/store.db" small_limits state_store database1.
Proof. apply (calls_exact_history calls1). done. Qed.
Lemma exact_history2 : exact_history "/data/store.db" small_limits state_store database2.
Proof. apply (calls_exact_history calls2). done. Qed.

Lemma state_store_reopens_witness :
  open_with "/data/moved.db" database2 default_limits
  = Ok (database2, DurableStateStore.mk "/data/moved.db"
          state_store.(DurableStateStore.state_location_digest) default_limits)
  ∧ ∀ scope,
      default (0, 0)%N (database2.(StateDatabase.quotas) !! scope) = scope_usage database2 scope
      ∧ ((scope_usage database2 scope).1 ≤ 2 ∧ (scope_usage database2 scope).2 ≤ 4000)%N.
Proof.
  apply (state_store_reopens "/data/store.db" small_limits); [apply exact_history2|vm_compute; reflexivity].
Defined.

Lemma mutations_commit_once_witness :
  ∃ execution' text,
    execute state_store (foldl after (after database1 increment_counter) [set_list; get_list])
      "flow" increment_counter 1700000009999 5%N
    = Ok (foldl after (after database1 increment_counter) [set_list; get_list], execution')
    ∧ execution'.(DurableStateExecution.duplicate) = true
    ∧ execution'.(DurableStateExecution.version)
      = (execution_of database1 increment_counter).(DurableStateExecution.version)
    ∧ execution'.(DurableStateExecution.result_digest)
      = (execution_of database1 increment_counter).(DurableStateExecution.result_digest)
    ∧ canonical_json (execution_of database1 increment_counter).(DurableStateExecution.result) = Some text
    ∧ canonical_json execution'.(DurableStateExecution.result) = Some text.
Proof.
  apply (mutations_commit_once "/data/store.db" small_limits state_store database1 "flow"
    increment_counter 1700000000000 0%N (after database1 increment_counter)).
  - apply history1.
  - lia.
  - apply Nat.leb_le. vm_compute. reflexivity.
  - apply (call_ok database1 increment_counter). vm_compute. reflexivity.
  - reflexivity.
  - apply after_steps. reflexivity.
Defined.

Definition increment_request : StateRequest :=
  StateRequest.mk STATE_CONTRACT 1 "request" "increment"
    [counter_key; ("amount", value_from_i64 1); ("ifVersion", json_number 1)].

Lemma calls_refine_registers_witness :
  if (execution_of database1 increment_counter).(DurableStateExecution.duplicate)
  then after database1 increment_counter = database1
  else ∃ request key,
    parse_request increment_counter.(CapabilityCallRequest.input) "increment" = Ok request
    ∧ state_key request.(StateRequest.input) = Ok key
    ∧ let scope := scope_digest state_store "flow" in
      let kd := digest KEY_DOMAIN key in
      register_step request.(StateRequest.input) (register_of database1 scope kd key) request.(StateRequest.operation)
        (execution_of database1 increment_counter).(DurableStateExecution.version)
        (register_of (after database1 increment_counter) scope kd key)
      ∧ others_kept scope kd key database1 (after database1 increment_counter).
Proof.
  apply (calls_refine_registers "/data/store.db" small_limits state_store database1 "flow"
    increment_counter 1700000000000 0%N).
  - apply history1.
  - lia.
  - apply Nat.leb_le. vm_compute. reflexivity.
  - apply (call_ok database1 increment_counter). vm_compute. reflexivity.
Defined.

(** Version 0 expects no value: set, delete and set again all commit, as versions 1, 2 and 3. *)
Definition set_absent (name : string) : CapabilityCallRequest :=
  state_call "set" name [counter_key; ("value", Value.Null); ("ifVersion", json_number 0)].
Definition delete_first : CapabilityCallRequest :=
  state_call "delete" "between" [counter_key; ("ifVersion", json_number 1)].

Example absent_key_set_again :
  let execution := execution_of (foldl after opened.1 [set_absent "one"; delete_first]) (set_absent "two") in
  (execution.(DurableStateExecution.duplicate), execution.(DurableStateExecution.version))
  = (false, Some 3%N)
  ∧ call_in (after opened.1 (set_absent "one")) (set_absent "two") = Err DurableStateError.Conflict.
Proof. split; vm_compute; reflexivity. Qed.

(** The second of two writes that expect version 1 of the counter is a replay of the first. *)
Lemma no_lost_updates_witness :
  (execution_of (foldl after (after database1 increment_counter) [set_list]) increment_counter)
    .(DurableStateExecution.duplicate) = true
  ∨ 1%N = 0%N
    ∧ read_entry (foldl after (after database1 increment_counter) [set_list])
        (scope_digest state_store "flow") "counter" = None.
Proof.
  apply (no_lost_updates "/data/store.db" small_limits state_store database1 "flow"
    increment_counter increment_request 1700000000000 0%N (after database1 increment_counter)
    (execution_of database1 increment_counter)
    (foldl after (after database1 increment_counter) [set_list])
    increment_counter increment_request 1700000000000 0%N
    (after (foldl after (after database1 increment_counter) [set_list]) increment_counter) _ "counter"
    (json_number 1) (json_number 1) 1%N).
  - apply history1.
  - lia.
  - apply Nat.leb_le. vm_compute. reflexivity.
  - lia.
  - apply Nat.leb_le. vm_compute. reflexivity.
  - vm_compute. reflexivity.
  - vm_compute. reflexivity.
  - vm_compute. reflexivity.
  - vm_compute. reflexivity.
  - reflexivity.
  - reflexivity.
  - reflexivity.
  - reflexivity.
  - apply (call_ok database1 increment_counter). vm_compute. reflexivity.
  - vm_compute. reflexivity.
  - apply after_steps. reflexivity.
  - apply (call_ok (foldl after (after database1 increment_counter) [set_list]) increment_counter). vm_compute. reflexivity.
Defined.

Definition set_list_request : StateRequest :=
  StateRequest.mk STATE_CONTRACT 1 "request" "set" [("key", Value.String "list"); ("value", list_value)].
Definition prepared_get : PreparedCall :=
  PreparedCall.mk
    (StateRequest.mk STATE_CONTRACT 1 "request" "get" [("key", Value.String "list")]) "list"
    (scope_digest state_store "flow") (digest KEY_DOMAIN "list")
    (digest INPUT_DOMAIN (encode_value get_list.(CapabilityCallRequest.input))) None.
Definition list_entry : StateEntry :=
  StateEntry.mk (encode_value list_value) (str_len (encode_value list_value)) 1 "1700000000000".

Lemma values_read_back_witness :
  ∃ value' execution',
    execute state_store (foldl after (after database1 set_list) [increment_counter]) "flow" get_list
      1700000009999 0%N
    = Ok (foldl after (after database1 set_list) [increment_counter], execution')
    ∧ execution'.(DurableStateExecution.result)
      = state_result_value "get"
          (Value.Object [("found", Value.Bool true); ("value", value'); ("version", json_number 1);
             ("updatedAt", Value.String "1700000000000")])
    ∧ canonical_json value' = canonical_json list_value ∧ same_json list_value value'.
Proof.
  apply (values_read_back "/data/store.db" small_limits state_store database1 "flow" set_list
    set_list_request "list" list_value 1700000000000 0%N (after database1 set_list)
    (execution_of database1 set_list) (foldl after (after database1 set_list) [increment_counter])
    list_entry get_list prepared_get 1700000009999 0%N "1700000009999").
  - apply history1.
  - intros value. by eexists.
  - lia.
  - apply Nat.leb_le. vm_compute. reflexivity.
  - reflexivity.
  - vm_compute. reflexivity.
  - vm_compute. reflexivity.
  - reflexivity.
  - apply all_exact.
  - apply (call_ok database1 set_list). vm_compute. reflexivity.
  - vm_compute. reflexivity.
  - apply after_steps. reflexivity.
  - vm_compute. reflexivity.
  - vm_compute. reflexivity.
  - vm_compute. reflexivity.
  - reflexivity.
  - reflexivity.
  - vm_compute. reflexivity.
Defined.

Lemma versions_bounded db bound scope kd v :
  forallb (λ item : string * MutationRow,
      is_none_or item.2.(MutationRow.stored).(StoredMutation.committed_version) (λ v, v <=? bound)%N)
    (map_to_list db.(StateDatabase.mutations)) = true →
  max_committed_version db scope kd = Some v → (v ≤ bound)%N.
Proof.
  unfold max_committed_version. rewrite map_fold_foldr. revert v.
  induction (map_to_list db.(StateDatabase.mutations)) as [|[id row] rows IH]; intros v; [done|].
  simpl. intros [Hrow Hrows]%andb_true_iff. unfold take_version at 1. case_match; [|by apply IH].
  specialize (λ v, IH v Hrows). revert IH. generalize (foldr (uncurry (take_version scope kd)) None rows).
  intros [m|] IH; destruct row.(MutationRow.stored).(StoredMutation.committed_version) as [w|]; simpl in *; intros [= <-];
    try (by apply IH); simplify_guards; [|lia].
  specialize (IH m eq_refl). lia.
Qed.

Lemma no_false_corruption_witness :
  execute state_store database1 "flow" increment_counter 1700000000000 0%N
  ≠ Err DurableStateError.StoreCorrupt.
Proof.
  apply (no_false_corruption "/data/store.db" small_limits).
  - apply exact_history1.
  - apply Nat.leb_le. vm_compute. reflexivity.
  - apply all_exact.
  - by eexists.
  - intros scope kd v Hv. eapply N.le_lt_trans; [apply (versions_bounded database1 1) in Hv|].
    + exact Hv.
    + vm_compute. reflexivity.
    + vm_compute. reflexivity.
Defined.
