(* ===== verification/StoreWitnesses.v ===== *)
(** * A concrete store, and witnesses

    A workflow with a lock that passes validation, a store with two runs of it that ask for the same
    key, and each theorem about the store applied to it. *)

From S2P Require Import Prelude GraphSearch Strings Json EventTypes ProjectionTypes Guards.
From S2P Require Import FoldRun FoldControlFlow FoldCorrection FoldApprovals FoldOperations.
From S2P Require Import FoldLifecycle IterationFold EventIdentities EventValidation Fold.
From S2P Require Import FoldFrames HistoryProperties ProjectionCache ModelTypes EngineExternals.
From S2P Require Import ModelQueries ModelIssues ModelContracts GraphContracts ForkContracts.
From S2P Require Import TopologicalOrder LoopContracts DurableContracts ModelValidation Readiness.
From S2P Require Import DefinitionValidation ModelRoundTrips HistoryRules DagEngine PolicyTypes.
From S2P Require Import PolicyBundle Schedules DurableStore LockQueue Admission PolicyQueue.
From S2P Require Import DurableStoreProperties LockHistories LockTables LockTransactions TriggerProperties.
From S2P Require Import StoreSafety Scenarios EngineWitnesses.

(** ** A concrete environment *)

(** Times with twenty digits, so that their order is that of the texts. *)
Fixpoint digits (width : nat) (n : N) : string :=
  match width with
  | O => EmptyString
  | S width =>
      String (Ascii.ascii_of_N (48 + n / 10 ^ N.of_nat width)) (digits width (n mod 10 ^ N.of_nat width))
  end.

Fixpoint zeros (n : nat) : string := match n with O => EmptyString | S n => String "0" (zeros n) end.
Definition padded (width : nat) (text : string) : string := zeros (width - String.length text) +:+ text.

(** A digest of sixty-four digits. *)
Fixpoint mix (text : string) (sum : N) : N :=
  match text with
  | EmptyString => sum
  | String b text => mix text ((sum * 257 + Ascii.N_of_ascii b) mod 1000000007)%N
  end.

#[export] Instance store_digests : Externals := {
  serde_json_encoded_len := λ _, Some 2%N;
  policy_decision_encoded_len := λ _, Some 2%N;
  canonical_json := λ _, Some "{}";
  sha256_hex := λ text, padded 64 (decimal (mix text 0));
  rfc3339_millis := λ time, digits 20 (Z.to_N time);
}.

#[export] Instance store_policy_stand_ins : PolicyExternals := {
  parse_from_rfc3339 := λ text, Z.of_N <$> parse_usize text;
  serialize_datetime := λ _, "1970-01-01T00:00:00Z";
  base64url_decode := λ text, Some text;
  base64url_encode := λ text, text;
  ed25519_verify := λ _ _ _, true;
  value_from_slice := λ _, None;
  bundle_from_slice := λ _, None;
  url_parse := λ _, None;
}.

#[export] Instance store_stand_ins : StoreExternals := {
  uuid_simple := λ n, padded 32 (decimal (N.of_nat n));
  to_rfc3339 := λ time, digits 20 (Z.to_N time);
  same_definition_json := λ _ _, true;
}.

(** The clock of UTC. *)
Definition utc_time (time : DateTime) : LocalTime :=
  let minutes := (time / NANOS_PER_MINUTE)%Z in
  let days := (minutes / 1440)%Z in
  let day_of_era := ((days + 719468) mod 146097)%Z in
  let year_of_era :=
    ((day_of_era - day_of_era / 1460 + day_of_era / 36524 - day_of_era / 146096) / 365)%Z in
  let day_of_year := (day_of_era - (365 * year_of_era + year_of_era / 4 - year_of_era / 100))%Z in
  let month := ((5 * day_of_year + 2) / 153)%Z in
  LocalTime.mk (Z.to_N (minutes mod 60)) (Z.to_N (minutes / 60 mod 24))
    (Z.to_N (day_of_year - (153 * month + 2) / 5 + 1))
    (Z.to_N (if (month <? 10)%Z then month + 3 else month - 9)) (Z.to_N ((days + 4) mod 7)).

#[export] Program Instance utc_zone : ScheduleExternals := {
  Tz := unit;
  tz_utc := tt;
  tz_from_str := λ name, if (name == "UTC") then Some tt else None;
  local_time := λ _, utc_time;
  valid_instant := λ _, true;
  instant_from_millis := λ ms, Some (ms * NANOS_PER_MILLI)%Z;
}.
Next Obligation. intros ms time [= <-]. reflexivity. Qed.

(** ** A workflow with a lock *)

Definition acquire_id : string := "__woml_lock__lock1__acquire".
Definition release_id : string := "__woml_lock__lock1__release".
Definition shared_key : string := "orders/shared".
Definition lock1 : CompiledLock :=
  CompiledLock.mk "lock1" acquire_id release_id "lock1" "step1" "step1"
    (ValueExpression.Literal (Value.String shared_key)) 60000 5000 [] None.
Definition guarded_graph : CompiledWorkflowGraph :=
  CompiledWorkflowGraph.mk [acquire_id]
    [control_node acquire_id "engine.lock-acquire"; bound_script "step1";
     control_node release_id "engine.lock-release"; control_node "lock1" "engine.lock-result";
     control_node settlement_id "engine.workflow-settlement"]
    [plain_edge "e1" acquire_id "step1"; plain_edge "e2" "step1" release_id; plain_edge "e3" release_id "lock1";
     plain_edge "e4" "lock1" settlement_id]
    (Some []) (Some []) (Some [sees_nothing "step1"])
    (Some (CompiledWorkflowSettlement.mk settlement_id "lock1" [])) (Some []) (Some []) (Some [lock1]) None.
Definition guarded : CompiledWorkflowDefinition :=
  CompiledWorkflowDefinition.mk 18 "flow" None [manual_trigger] guarded_graph None None (Some runtime_policy1) None None.

(** ** Two runs of the workflow *)

Definition no_eviction (cache : Cache) : option string := None.
Definition empty_store : DurableEventStore := DurableEventStore.mk empty_tables ∅.

(** Commit one payload; keep the store as it was on an error. *)
Definition committed_store (store : DurableEventStore) (run_id event_id : string) (at_ : N)
    (payload : RunEventPayload) : DurableEventStore :=
  (append_payload_scoped no_eviction store run_id event_id (tick at_) None payload noon noon).1.
Definition commit_accepted (store : DurableEventStore) (run_id event_id : string) (at_ : N)
    (payload : RunEventPayload) : bool :=
  is_ok (append_payload_scoped no_eviction store run_id event_id (tick at_) None payload noon noon).2.

Definition admission (at_ : N) : RunEventPayload :=
  RunEventPayload.RunAdmitted (RunAdmittedData.mk sha ("sha256:" +:+ sha256_hex "{}") (RunAdmissionTrigger.mk "trigger1" "trigger.manual")
     [] (RunAdmissionQueue.mk "default" QueueDiscipline.WorkConservingFifo) (tick at_) 1).

(** A scheduler claims a run, which starts it. *)
Definition tables_of {A} (r : store_result (StoreTables * A)) : StoreTables :=
  match r with Ok (db, _) => db | _ => empty_tables end.
Definition claim_at (db : StoreTables) (run_id : string) (at_ : N) :=
  try_claim_policy_run_at db run_id "scheduler1" (tick at_) (tick at_) 60000 noon.
Definition claimed_store (store : DurableEventStore) (run_id : string) (at_ : N) : DurableEventStore :=
  DurableEventStore.mk (tables_of (claim_at store.(DurableEventStore.tables) run_id at_))
    store.(DurableEventStore.projection_cache).

Definition registered : StoreTables :=
  match register_definition empty_tables guarded sha with Ok db => db | _ => empty_tables end.
Definition store1 : DurableEventStore := DurableEventStore.mk registered ∅.
Definition store2 : DurableEventStore := committed_store store1 "run_a" "evt_a1" 1 (admission 1).
Definition store3 : DurableEventStore := claimed_store store2 "run_a" 2.
Definition store4 : DurableEventStore := committed_store store3 "run_b" "evt_b1" 3 (admission 3).
Definition store5 : DurableEventStore := claimed_store store4 "run_b" 4.

(** Both ask for the key; the first is granted it. *)
Definition register_until (db : StoreTables) (run_id : string) (at_ deadline : N) :=
  register_lock_waiter_atomically_scoped db run_id "lock1" shared_key acquire_id None (tick at_) (tick deadline).
Definition register_at (db : StoreTables) (run_id : string) (at_ : N) := register_until db run_id at_ (at_ + 1000).
Definition tables5 : StoreTables := store5.(DurableEventStore.tables).
Definition cache5 : Cache := store5.(DurableEventStore.projection_cache).
Definition tables6 : StoreTables := tables_of (register_at tables5 "run_a" 5).
Definition tables7 : StoreTables := tables_of (register_at tables6 "run_b" 6).
Definition store7 : DurableEventStore := DurableEventStore.mk tables7 cache5.

(** A third run: the second has waited past its deadline and the lease of the first has expired when
    the third asks for the key, and is granted it at once. *)
Definition storeC : DurableEventStore :=
  claimed_store (committed_store store5 "run_c" "evt_c1" 5 (admission 5)) "run_c" 6.
Definition tablesC : StoreTables := storeC.(DurableEventStore.tables).
Definition cacheC : Cache := storeC.(DurableEventStore.projection_cache).
Definition tablesD : StoreTables := tables_of (register_until tablesC "run_a" 7 1007).
Definition tablesE : StoreTables := tables_of (register_until tablesD "run_b" 8 9).
Definition tablesF : StoreTables := tables_of (register_until tablesE "run_c" 300 1300).
Definition storeE : DurableEventStore := DurableEventStore.mk tablesE cacheC.

(** The first releases it and the second is granted it. *)
Abbreviation release_at db run_id at_ :=
  (release_lock_atomically_scoped db run_id "lock1" None (Value.Object []) (tick at_)).
Definition tables8 : StoreTables := tables_of (release_at tables7 "run_a" 8).
Definition store8 : DurableEventStore := DurableEventStore.mk tables8 cache5.

(** The first is cancelled and ends while it holds the key. *)
Definition cancellation : RunEventPayload := RunEventPayload.RunCancellationRequested (RunCancellationRequestedData.mk "cancel1").
Definition cancelled_outcome : RunEventPayload := RunEventPayload.RunOutcomeDecided (RunOutcomeDecidedData.Cancelled "cancel1").
Definition cancelled_end : RunEventPayload :=
  RunEventPayload.RunFinalized (RunFinalizedData.mk BusinessOutcome.Cancelled FinalLifecycleStatus.Completed []).
Definition store9 : DurableEventStore := committed_store store7 "run_a" "evt_a5" 9 cancellation.
Definition store10 : DurableEventStore := committed_store store9 "run_a" "evt_a6" 10 cancelled_outcome.
Definition store11 : DurableEventStore := committed_store store10 "run_a" "evt_a7" 11 cancelled_end.

(** ** The states are reachable *)

Abbreviation reachable_store := (store_reachable no_eviction true).

Lemma committed_reachable store run_id event_id at_ payload :
  reserved_event true payload = false → reachable_store store →
  reachable_store (committed_store store run_id event_id at_ payload).
Proof.
  intros Hl Hr. unfold committed_store. destruct (append_payload_scoped _ _ _ _ _ _ _ _ _) as [store' r] eqn:Ha.
  eapply sr_step; [exact Hr|]. by eapply st_append.
Qed.

Lemma tables_of_ok {A} (r : store_result (StoreTables * A)) : is_ok r = true → ∃ a, r = Ok (tables_of r, a).
Proof. destruct r as [[db a]| |]; [|done..]. by exists a. Qed.

Lemma claimed_reachable store run_id at_ :
  is_ok (claim_at store.(DurableEventStore.tables) run_id at_) = true → reachable_store store →
  reachable_store (claimed_store store run_id at_).
Proof.
  intros [outcome Hc]%tables_of_ok Hr. eapply sr_step; [exact Hr|]. apply st_policy. by eapply pt_claim.
Qed.

Lemma lock_reachable db cache now db' :
  reachable_store (DurableEventStore.mk db cache) → lock_transaction now db db' →
  reachable_store (DurableEventStore.mk db' cache).
Proof. intros Hr Ht. eapply sr_step; [exact Hr|]. by apply (st_lock no_eviction true (DurableEventStore.mk db cache) now). Qed.

Lemma reachable_parts store :
  reachable_store store →
  reachable_store (DurableEventStore.mk store.(DurableEventStore.tables) store.(DurableEventStore.projection_cache)).
Proof. by destruct store. Qed.

Lemma store5_reachable : reachable_store store5.
Proof.
  do 2 (apply claimed_reachable; [vm_compute; reflexivity|]; apply committed_reachable; [done|]).
  eapply sr_step; [apply sr_new|].
  apply (st_definition no_eviction true empty_store guarded sha registered). vm_compute. reflexivity.
Qed.

Lemma register_transaction db run_id at_ deadline :
  is_ok (register_until db run_id at_ deadline) = true →
  lock_transaction (tick at_) db (tables_of (register_until db run_id at_ deadline)).
Proof. intros [p Hp]%tables_of_ok. by eapply lt_register. Qed.

Lemma storeE_reachable : reachable_store storeE.
Proof.
  apply (lock_reachable tablesD cacheC (tick 8) tablesE); [|apply register_transaction; vm_compute; reflexivity].
  apply (lock_reachable tablesC cacheC (tick 7) tablesD); [|apply register_transaction; vm_compute; reflexivity].
  apply (reachable_parts storeC), claimed_reachable; [vm_compute; reflexivity|].
  apply committed_reachable; [done|]. apply store5_reachable.
Qed.

Lemma transaction6 : lock_transaction (tick 5) tables5 tables6.
Proof. apply register_transaction. vm_compute. reflexivity. Qed.

Lemma transaction7 : lock_transaction (tick 6) tables6 tables7.
Proof. apply register_transaction. vm_compute. reflexivity. Qed.

Lemma store7_reachable : reachable_store store7.
Proof.
  apply (lock_reachable tables6 cache5 (tick 6) tables7); [|apply transaction7].
  apply (lock_reachable tables5 cache5 (tick 5) tables6); [|apply transaction6].
  apply (reachable_parts store5), store5_reachable.
Qed.

Lemma release_transaction_of db run_id at_ :
  is_ok (release_at db run_id at_) = true →
  lock_transaction (tick at_) db (tables_of (release_at db run_id at_)).
Proof. intros [p Hp]%tables_of_ok. by eapply lt_release. Qed.

Lemma release_transaction : lock_transaction (tick 8) tables7 tables8.
Proof. apply release_transaction_of. vm_compute. reflexivity. Qed.

Lemma store8_reachable : reachable_store store8.
Proof. apply (lock_reachable tables7 cache5 (tick 8) tables8); [apply store7_reachable|apply release_transaction]. Qed.

Lemma store11_reachable : reachable_store store11.
Proof. do 3 (apply committed_reachable; [done|]). apply store7_reachable. Qed.

(** The lock as the history of a run shows it. *)
Definition history_state (db : StoreTables) (run_id : string) : ProjectionFoldState :=
  match from_events (stored_events db run_id) with Ok s => s | _ => default_state end.
Definition lock_of (db : StoreTables) (run_id : string) : LockProjection :=
  default (waiting_lock (LockWaitRegisteredData.mk "" "" 0 0 0 ""))
    (projected_lock (history_state db run_id).(ProjectionFoldState.projection) None "lock1").

Lemma history_state_ok db run_id :
  is_ok (from_events (stored_events db run_id)) = true →
  from_events (stored_events db run_id) = Ok (history_state db run_id).
Proof. unfold history_state. by destruct (from_events _). Qed.

Lemma lock_of_ok (db : StoreTables) run_id :
  (lock_of db run_id).(LockProjection.status) == LockStatus.Held = true →
  holds (history_state db run_id).(ProjectionFoldState.projection) None "lock1" (lock_of db run_id).
Proof.
  intros Hs%bool_decide_eq_true. unfold lock_of in *. split; [|done].
  by destruct (projected_lock _ _ _).
Qed.

Abbreviation held_7 := (lock_of store7.(DurableEventStore.tables) "run_a").

Lemma holder_7 : holder store7.(DurableEventStore.tables) "run_a" None "lock1" held_7.
Proof.
  exists (history_state store7.(DurableEventStore.tables) "run_a").
  split; [apply history_state_ok|apply lock_of_ok]; vm_compute; reflexivity.
Qed.

Lemma held_7_key : held_7.(LockProjection.key) = shared_key.
Proof. vm_compute. reflexivity. Qed.

(** ** Witnesses *)

Lemma keys_held_once_witness :
  held_7.(LockProjection.key) = shared_key
  ∧ ∃ o, owner_of store7.(DurableEventStore.tables) held_7.(LockProjection.key) = Some o ∧ leased_by "run_a" held_7 o.
Proof.
  split; [exact held_7_key|].
  destruct (keys_held_once no_eviction true store7 "run_a" None "lock1" held_7 "run_a" None "lock1" held_7
    store7_reachable holder_7 holder_7 eq_refl) as (_ & _ & _ & _ & o & Ho & Hl & _).
  exists o. split; [exact Ho|exact Hl].
Defined.

Definition owner_at (db : StoreTables) : LockOwner :=
  default (LockOwner.mk "" "" "" 0 "" "") (owner_of db shared_key).

Lemma lock_step_of db cache now db' :
  lock_transaction now db db' →
  rtc (store_step no_eviction true) (DurableEventStore.mk db cache) (DurableEventStore.mk db' cache).
Proof. intros Ht. apply rtc_once. by apply (st_lock no_eviction true (DurableEventStore.mk db cache) now). Qed.

Lemma release_step : rtc (store_step no_eviction true) store7 store8.
Proof. apply (lock_step_of tables7 cache5 (tick 8) tables8 release_transaction). Qed.

Lemma fencing_tokens_rise_witness :
  same_lease (owner_at tables7) (owner_at tables8)
  ∨ ((owner_at tables7).(LockOwner.fencing_token) < (owner_at tables8).(LockOwner.fencing_token))%Z.
Proof.
  assert (owner_of store7.(DurableEventStore.tables) shared_key = Some (owner_at tables7)) as H7
    by (vm_compute; reflexivity).
  assert (owner_of store8.(DurableEventStore.tables) shared_key = Some (owner_at tables8)) as H8
    by (vm_compute; reflexivity).
  exact (proj1 (fencing_tokens_rise no_eviction true store7 store8 shared_key (owner_at tables7) (owner_at tables8)
    store7_reachable release_step H7 H8)).
Defined.

Definition waiter_row (db : StoreTables) (run_id : string) : LockWaiter :=
  default (LockWaiter.mk "" "" "" 0 "" "" WaiterStatus.waiting "") (db.(StoreTables.lock_waiters) !! waiter_id_of run_id acquire_id).

Abbreviation waiter_in db run_id := (StoreTables.lock_waiters db !! waiter_id_of run_id acquire_id).

Lemma waiter_in_row db run_id : is_some (waiter_in db run_id) = true → waiter_in db run_id = Some (waiter_row db run_id).
Proof. unfold waiter_row. by destruct (_ !! _). Qed.

(** The rows of the second and of the third run. *)
Lemma order_rows :
  waiter_in storeE.(DurableEventStore.tables) "run_b" = Some (waiter_row storeE.(DurableEventStore.tables) "run_b")
  ∧ waiter_in storeE.(DurableEventStore.tables) "run_c" = None
  ∧ waiter_in tablesF "run_b" = Some (waiter_row tablesF "run_b")
  ∧ waiter_in tablesF "run_c" = Some (waiter_row tablesF "run_c").
Proof. split_and!; first [apply waiter_in_row; vm_compute; reflexivity|vm_compute; reflexivity]. Qed.

Lemma order_statuses :
  (waiter_row tablesF "run_b").(LockWaiter.status) = WaiterStatus.waiting
  ∧ (waiter_row tablesF "run_c").(LockWaiter.status) = WaiterStatus.held
  ∧ (waiter_row tablesF "run_b").(LockWaiter.key) = (waiter_row tablesF "run_c").(LockWaiter.key)
  ∧ (waiter_row storeE.(DurableEventStore.tables) "run_b").(LockWaiter.key) = (waiter_row tablesF "run_c").(LockWaiter.key)
  ∧ ((waiter_row tablesF "run_b").(LockWaiter.sequence) <? (waiter_row tablesF "run_c").(LockWaiter.sequence))%Z = true.
Proof. split_and!; vm_compute; reflexivity. Qed.

Lemma order_transaction : lock_transaction (tick 300) storeE.(DurableEventStore.tables) tablesF.
Proof. apply register_transaction. vm_compute. reflexivity. Qed.

Lemma waiters_served_in_order_witness :
  (waiter_row tablesF "run_b").(LockWaiter.status) = WaiterStatus.waiting
  ∧ (waiter_row tablesF "run_c").(LockWaiter.status) = WaiterStatus.held
  ∧ waiter_in storeE.(DurableEventStore.tables) "run_c" = None
  ∧ String.leb (to_rfc3339 (tick 300)) (waiter_row tablesF "run_b").(LockWaiter.deadline) = false
  ∧ ((waiter_row storeE.(DurableEventStore.tables) "run_b").(LockWaiter.sequence)
     < (waiter_row tablesF "run_c").(LockWaiter.sequence))%Z.
Proof.
  destruct (waiters_served_in_order no_eviction true storeE (tick 300) tablesF storeE_reachable order_transaction)
    as [Horder Hnew].
  destruct order_rows as (Hb & Hn & Hb' & Hc'). destruct order_statuses as (Sb & Sc & Hk & Hk0 & Hlt).
  split; [exact Sb|]. split; [exact Sc|]. split; [exact Hn|]. split.
  - apply (Horder (waiter_id_of "run_b" acquire_id) (waiter_row tablesF "run_b")
      (waiter_id_of "run_c" acquire_id) (waiter_row tablesF "run_c") Hb' Sb Hc' (or_introl Sc)); [|exact Hk|apply Z.ltb_lt; exact Hlt].
    intros b0 Hb0. rewrite Hn in Hb0. discriminate.
  - exact (Hnew (waiter_id_of "run_c" acquire_id) (waiter_row tablesF "run_c")
      (waiter_id_of "run_b" acquire_id) (waiter_row storeE.(DurableEventStore.tables) "run_b") Hc' Hn Hb Hk0).
Defined.

Lemma lock_rows_consistent_witness :
  (count_waiters store7.(DurableEventStore.tables) (λ w, w.(LockWaiter.key) == shared_key)
   ≤ LOCK_WAITERS_PER_KEY_LIMIT)%N.
Proof. exact (proj1 (proj2 (lock_rows_consistent no_eviction true store7 shared_key store7_reachable))). Defined.

Lemma finished_holder_blocks_key_witness :
  ∃ o, owner_of store11.(DurableEventStore.tables) shared_key = Some o
    ∧ o.(LockOwner.run_id) = "run_a"
    ∧ ∀ result, grant_oldest_lock_waiter store11.(DurableEventStore.tables) shared_key (tick 300) ≠ Ok result.
Proof.
  set (db := store11.(DurableEventStore.tables)).
  assert (from_events (stored_events db "run_a") = Ok (history_state db "run_a")) as Hs
    by (apply history_state_ok; vm_compute; reflexivity).
  assert (status_is_terminal (history_state db "run_a").(ProjectionFoldState.projection).(RunProjection.status) = true) as Ht
    by (vm_compute; reflexivity).
  assert (holds (history_state db "run_a").(ProjectionFoldState.projection) None "lock1" (lock_of db "run_a")) as Hh
    by (apply lock_of_ok; vm_compute; reflexivity).
  assert ((lock_of db "run_a").(LockProjection.key) = shared_key) as Hk by (vm_compute; reflexivity).
  destruct (finished_holder_blocks_key no_eviction true store11 store11 "run_a" (history_state db "run_a") None "lock1"
    (lock_of db "run_a") store11_reachable (rtc_refl _ _) Hs Ht Hh) as (o & Ho & Hl & Hg).
  rewrite Hk in Ho, Hg. exists o. split; [exact Ho|]. split; [exact (lb_run _ _ _ Hl)|].
  assert (parse_stored_timestamp (owner_at db).(LockOwner.expires_at) = Ok (tick 105)) as Hp by (vm_compute; reflexivity).
  assert (owner_at db = o) as Hat by (unfold owner_at; fold db in Ho; rewrite Ho; reflexivity).
  rewrite Hat in Hp. apply (Hg (tick 105) (tick 300) Hp). vm_compute. discriminate.
Defined.

Lemma release_succeeds db run_id at_ :
  match release_at db run_id at_ with Ok (_, Ok _) => true | _ => false end = true →
  ∃ db' p, release_at db run_id at_ = Ok (db', Ok p).
Proof. destruct (release_at db run_id at_) as [[db' [p| |]]| |]; [|done..]. by exists db', p. Qed.

Lemma release_7 : ∃ db' p, release_at store7.(DurableEventStore.tables) "run_a" 8 = Ok (db', Ok p).
Proof. apply release_succeeds. vm_compute. reflexivity. Qed.

Lemma release_hands_over_witness :
  ∃ p released token, projected_lock p None "lock1" = Some released
    ∧ released.(LockProjection.fencing_token) = Some (i64_to_string token).
Proof.
  destruct release_7 as (db' & p & Hp).
  destruct (release_hands_over no_eviction true store7 "run_a" "lock1" None (Value.Object []) (tick 8) db' p
    store7_reachable Hp) as (released & token & Hl & _ & Ht & _).
  exists p, released, token. split; [exact Hl|exact Ht].
Defined.

Lemma commits_ignore_cache_witness :
  (append_payload_scoped no_eviction store7 "run_a" "evt_a5" (tick 9) None cancellation noon noon).2
  = (append_payload_scoped no_eviction (DurableEventStore.mk store7.(DurableEventStore.tables) ∅) "run_a" "evt_a5"
       (tick 9) None cancellation noon noon).2.
Proof.
  exact (proj1 (commits_ignore_cache no_eviction true store7 "run_a" "evt_a5" (tick 9) None cancellation noon noon []
    store7_reachable)).
Defined.

Abbreviation commit_7 :=
  (append_payload_scoped no_eviction store7 "run_a" "evt_a5" (tick 9) None cancellation noon noon).

Lemma commit_7_ok : ∃ store' event p, commit_7 = (store', Ok (event, p)).
Proof.
  assert (is_ok commit_7.2 = true) as Hok by (vm_compute; reflexivity). revert Hok.
  destruct commit_7 as [store' [[event p]| |]]; [|discriminate..]. intros _. by exists store', event, p.
Qed.

Lemma commit_extends_history_witness :
  ∃ store' event projection new,
    commit_7 = (store', Ok (event, projection)) ∧ head new = Some event
    ∧ stored_events store'.(DurableEventStore.tables) "run_a"
      = stored_events store7.(DurableEventStore.tables) "run_a" ++ new.
Proof.
  destruct commit_7_ok as (store' & event & p & Hc).
  destruct (commit_extends_history no_eviction true store7 "run_a" "evt_a5" (tick 9) None cancellation noon noon
    store' (Ok (event, p)) store7_reachable Hc) as (new & _ & _ & _ & Hh & _ & _ & Hs & _).
  exists store', event, p, new. split; [exact Hc|]. split; [exact Hh|]. rewrite Hs. reflexivity.
Defined.
