(* ===== verification/TriggerWitnesses.v ===== *)
(** * Triggers and claims of a concrete store, and witnesses

    A workflow with a manual, a scheduled and an internal trigger, a concurrency of two and a limited
    rate, runs of it that are admitted and claimed, and each theorem about triggers, schedules and
    claims applied to them. *)

From S2P Require Import Prelude GraphSearch Strings Json EventTypes ProjectionTypes Guards.
From S2P Require Import FoldRun FoldControlFlow FoldCorrection FoldApprovals FoldOperations.
From S2P Require Import FoldLifecycle IterationFold EventIdentities EventValidation Fold.
From S2P Require Import FoldFrames HistoryProperties ProjectionCache ModelTypes EngineExternals.
From S2P Require Import ModelQueries ModelIssues ModelContracts GraphContracts ForkContracts.
From S2P Require Import TopologicalOrder LoopContracts DurableContracts ModelValidation Readiness.
From S2P Require Import DefinitionValidation ModelRoundTrips HistoryRules DagEngine PolicyTypes.
From S2P Require Import PolicyBundle Schedules DurableStore LockQueue Admission PolicyQueue.
From S2P Require Import DurableStoreProperties LockHistories LockTables LockTransactions TriggerProperties.
From S2P Require Import StoreSafety QueueProperties Scenarios EngineWitnesses StoreWitnesses.

(** ** A workflow with three triggers *)

Definition text (value : string) : ValueExpression := ValueExpression.Literal (Value.String value).
Definition five_minutes : string := "*/5 * * * *".
Definition schedule_trigger : CompiledTrigger :=
  CompiledTrigger.mk "trigger2" "trigger.schedule"
    (ValueExpression.Object {["cron" := text five_minutes; "timezone" := text "UTC"; "onMissed" := text "run-once"]}).
Definition event_trigger : CompiledTrigger :=
  CompiledTrigger.mk "trigger3" "trigger.event" (ValueExpression.Object {["name" := text "order.paid"]}).
Definition two_per_second : CompiledRateLimitPolicy :=
  CompiledRateLimitPolicy.mk 2 1000 RateLimitAlgorithm.RollingWindow.
Definition limited_policy : CompiledRuntimePolicy :=
  CompiledRuntimePolicy.mk 1 (Some 2%N) None (Some two_per_second)
    (Some (CompiledQueuePolicy.mk "default" QueueDiscipline.WorkConservingFifo)).
Definition triggered : CompiledWorkflowDefinition :=
  CompiledWorkflowDefinition.mk 18 "flow" None [manual_trigger; schedule_trigger; event_trigger] guarded_graph None None
    (Some limited_policy) None None.

Definition tables_or_empty (r : store_result StoreTables) : StoreTables :=
  match r with Ok db => db | _ => empty_tables end.
Definition triggered_tables : StoreTables := tables_or_empty (register_definition empty_tables triggered sha).

Definition manual_request (identity : string) (at_ : N) : TriggerAdmissionRequest :=
  TriggerAdmissionRequest.mk "flow" sha "trigger1" "trigger.manual" identity [] (tick at_).
Definition admitted_tables (db : StoreTables) (identity : string) (at_ : N) : StoreTables :=
  tables_of (admit_trigger_occurrence db (manual_request identity at_) noon).

Definition tablesT1 : StoreTables := admitted_tables triggered_tables "order-1" 20.
Definition run1 : string := "run_" +:+ uuid_simple 1.
Definition tablesT2 : StoreTables := tables_of (claim_at tablesT1 run1 22).
Definition tablesT3 : StoreTables := admitted_tables tablesT2 "order-2" 23.
Definition run2 : string := "run_" +:+ uuid_simple 6.
Definition tablesT4 : StoreTables := tables_of (claim_at tablesT3 run2 24).

(** The first run publishes an event, which starts a third one. *)
Definition publication : string := "internal:v1:sha256:" +:+ hex64.
Definition paid (parent_run_id : string) : InternalEventAdmissionRequest :=
  InternalEventAdmissionRequest.mk publication parent_run_id "order.paid"
    (TriggerAdmissionRequest.mk "flow" sha "trigger3" "trigger.event" "paid-1" [] (tick 25)) (tick 25).
Definition event_admission (db : StoreTables) (parent_run_id : string) :
    store_result (StoreTables * (N * TriggerAdmissionOutcome)) :=
  let? (db, depth, outcome) := admit_internal_event_occurrence db (paid parent_run_id) noon in
  Ok (db, (depth, outcome)).
Definition tablesT5 : StoreTables := tables_of (event_admission tablesT4 run1).
Definition run3 : string := "run_" +:+ uuid_simple 11.

Definition outcome_of {A} (r : store_result (StoreTables * A)) : option A :=
  match r with Ok (_, a) => Some a | _ => None end.
Definition error_of {A} (r : store_result A) : option DurableStoreError :=
  match r with Err e => Some e | _ => None end.

(** A third start within a second waits for the rate limit, until the first leaves the window. *)
Example third_start_waits :
  outcome_of (claim_at tablesT5 run3 26)
  = Some (PolicyExecutionClaimResult.Waiting run3 "flow" "default" PolicyClaimWaitReason.RateLimit (Some (tick 42))).
Proof. vm_compute. reflexivity. Qed.

(** An event of the run that the event started would be delivered to the same trigger again. *)
Example event_cycle_refused : error_of (event_admission tablesT5 run3) = Some DurableStoreError.InternalEventCycle.
Proof. vm_compute. reflexivity. Qed.

(** ** A schedule *)

Definition no_values : CronField := CronField.mk ∅ false.
Definition every_five_minutes : WomlSchedule :=
  match schedule_parse five_minutes "UTC" with
  | Ok schedule => schedule
  | _ => mk_schedule "" "" tt no_values no_values no_values no_values no_values
  end.
Definition five_minute_registration : ScheduleRuntimeRegistration :=
  mk_schedule_registration "flow" sha "trigger2" every_five_minutes ScheduleMisfirePolicy.RunOnce.
Definition minute (n : Z) : DateTime := (n * NANOS_PER_MINUTE)%Z.
Definition cursor_registration : ScheduleCursorRegistration :=
  ScheduleCursorRegistration.mk "flow" "trigger2" sha five_minutes "UTC" "run-once".
Definition schedule_registered : store_result (StoreTables * (ScheduleCursor * bool)) :=
  let? (db, cursor, initialized) :=
    register_schedule_cursor tablesT5 cursor_registration (minute 5) (minute 1) in
  Ok (db, (cursor, initialized)).
Definition tablesT6 : StoreTables := tables_of schedule_registered.

(** ** The states are reachable *)

Abbreviation with_tables db := (DurableEventStore.mk db ∅).

Lemma trigger_reachable db db' :
  reachable_store (with_tables db) → trigger_transaction db db' → reachable_store (with_tables db').
Proof. intros Hr Ht. eapply sr_step; [exact Hr|]. by apply (st_trigger no_eviction true (with_tables db)). Qed.

Lemma policy_reachable db db' :
  reachable_store (with_tables db) → policy_transaction db db' → reachable_store (with_tables db').
Proof. intros Hr Ht. eapply sr_step; [exact Hr|]. by apply (st_policy no_eviction true (with_tables db)). Qed.

Lemma admitted_transaction db identity at_ :
  is_ok (admit_trigger_occurrence db (manual_request identity at_) noon) = true →
  trigger_transaction db (admitted_tables db identity at_).
Proof. intros [outcome Ha]%tables_of_ok. by eapply tt_admit. Qed.

Lemma claim_transaction db run_id at_ :
  is_ok (claim_at db run_id at_) = true → policy_transaction db (tables_of (claim_at db run_id at_)).
Proof. intros [outcome Hc]%tables_of_ok. by eapply pt_claim. Qed.

Lemma event_transaction db parent_run_id :
  is_ok (event_admission db parent_run_id) = true →
  trigger_transaction db (tables_of (event_admission db parent_run_id)).
Proof.
  intros Ho. unfold event_admission in *.
  destruct (admit_internal_event_occurrence _ _ _) as [[[db' depth] outcome]| |] eqn:Ha; [|done..].
  by eapply tt_internal_event.
Qed.

Lemma triggered_reachable : reachable_store (with_tables triggered_tables).
Proof.
  eapply sr_step; [apply sr_new|].
  apply (st_definition no_eviction true empty_store triggered sha triggered_tables). vm_compute. reflexivity.
Qed.

Lemma first_admitted : trigger_transaction triggered_tables tablesT1.
Proof. apply admitted_transaction. vm_compute. reflexivity. Qed.
Lemma first_claimed : policy_transaction tablesT1 tablesT2.
Proof. apply claim_transaction. vm_compute. reflexivity. Qed.
Lemma second_admitted : trigger_transaction tablesT2 tablesT3.
Proof. apply admitted_transaction. vm_compute. reflexivity. Qed.
Lemma second_claimed : policy_transaction tablesT3 tablesT4.
Proof. apply claim_transaction. vm_compute. reflexivity. Qed.
Lemma event_admitted : trigger_transaction tablesT4 tablesT5.
Proof. apply event_transaction. vm_compute. reflexivity. Qed.
Lemma schedule_added : trigger_transaction tablesT5 tablesT6.
Proof.
  assert (is_ok schedule_registered = true) as Ho by (vm_compute; reflexivity).
  unfold tablesT6. unfold schedule_registered in *.
  destruct (register_schedule_cursor _ _ _ _) as [[[db' cursor] initialized]| |] eqn:Ha; [|done..].
  by eapply tt_register_schedule.
Qed.

Lemma tablesT4_reachable : reachable_store (with_tables tablesT4).
Proof.
  apply (policy_reachable tablesT3); [|apply second_claimed].
  apply (trigger_reachable tablesT2); [|apply second_admitted].
  apply (policy_reachable tablesT1); [|apply first_claimed].
  apply (trigger_reachable triggered_tables); [apply triggered_reachable|apply first_admitted].
Qed.
Lemma tablesT5_reachable : reachable_store (with_tables tablesT5).
Proof. apply (trigger_reachable tablesT4); [apply tablesT4_reachable|apply event_admitted]. Qed.
Lemma tablesT6_reachable : reachable_store (with_tables tablesT6).
Proof. apply (trigger_reachable tablesT5); [apply tablesT5_reachable|apply schedule_added]. Qed.

Lemma later_steps : rtc (store_step no_eviction true) (with_tables tablesT1) (with_tables tablesT4).
Proof.
  eapply rtc_l; [apply (st_policy no_eviction true (with_tables tablesT1)), first_claimed|].
  eapply rtc_l; [apply (st_trigger no_eviction true (with_tables tablesT2)), second_admitted|].
  apply rtc_once, (st_policy no_eviction true (with_tables tablesT3)), second_claimed.
Qed.

(** ** Witnesses *)

Lemma admission_ok db request :
  is_ok (admit_trigger_occurrence db request noon) = true →
  ∃ outcome, admit_trigger_occurrence db request noon
    = Ok (tables_of (admit_trigger_occurrence db request noon), outcome).
Proof. apply tables_of_ok. Qed.

(** The first order comes again after two runs have started. *)
Lemma occurrences_admitted_once_witness :
  ∃ outcome outcome',
    admit_trigger_occurrence triggered_tables (manual_request "order-1" 20) noon = Ok (tablesT1, outcome)
    ∧ admit_trigger_occurrence tablesT4 (manual_request "order-1" 30) noon = Ok (tablesT4, outcome')
    ∧ outcome' = TriggerAdmissionOutcome.mk outcome.(TriggerAdmissionOutcome.occurrence_id)
                   outcome.(TriggerAdmissionOutcome.run_id) true.
Proof.
  destruct (admission_ok triggered_tables (manual_request "order-1" 20)) as [outcome Ha]; [vm_compute; reflexivity|].
  destruct (admission_ok tablesT4 (manual_request "order-1" 30)) as [outcome' Ha']; [vm_compute; reflexivity|].
  destruct (occurrences_admitted_once no_eviction true (with_tables triggered_tables) (manual_request "order-1" 20)
    noon tablesT1 outcome (with_tables tablesT4) (manual_request "order-1" 30) noon _ outcome'
    triggered_reachable Ha later_steps eq_refl eq_refl eq_refl Ha') as (Hdb & Ho & _).
  exists outcome, outcome'. split; [exact Ha|]. split; [|exact Ho]. rewrite Hdb in Ha'. exact Ha'.
Defined.

(** The third run was started by an event of the first. *)
Lemma internal_events_acyclic_witness :
  publication_of_run tablesT5 run3
    = Some (StoredPublication.mk run1 "order.paid" ("sha256:" +:+ sha256_hex "{}") 1 (to_rfc3339 (tick 25)))
  ∧ ~ tc (parent_of tablesT5) run1 run1.
Proof.
  split; [vm_compute; reflexivity|].
  exact (internal_events_acyclic no_eviction true (with_tables tablesT5) run1 tablesT5_reachable).
Defined.

(** A test of the policies of the definitions. *)
Definition policies_pass (db : StoreTables) (test : CompiledRuntimePolicy → bool) : bool :=
  forallb (λ row : string * CompiledWorkflowDefinition, is_none_or row.2.(CompiledWorkflowDefinition.runtime_policy) test)
    (map_to_list db.(StoreTables.definitions)).

Lemma policies_pass_ok db test hash workflow policy :
  policies_pass db test = true → db.(StoreTables.definitions) !! hash = Some workflow →
  workflow.(CompiledWorkflowDefinition.runtime_policy) = Some policy → test policy = true.
Proof.
  unfold policies_pass. rewrite forallb_forall. intros Hall Hd Hp.
  specialize (Hall (hash, workflow)). simpl in Hall. rewrite Hp in Hall. apply Hall.
  by apply list_elem_of_In, elem_of_map_to_list.
Qed.

Lemma limited_concurrency : concurrency_at_most tablesT5 "flow" 2.
Proof.
  assert (policies_pass tablesT5 (λ policy, bool_decide (policy.(CompiledRuntimePolicy.concurrency) = Some 2%N))
    = true) as Ht by (vm_compute; reflexivity).
  intros hash workflow policy Hd _ Hp. exists 2%N. split; [|reflexivity].
  by apply (policies_pass_ok _ _ _ _ _ Ht Hd), bool_decide_eq_true in Hp.
Qed.

Lemma concurrency_limited_witness :
  claims_of tablesT5 "flow" = 2 ∧ (N.of_nat (claims_of tablesT5 "flow") ≤ 2)%N.
Proof.
  split; [vm_compute; reflexivity|].
  apply (concurrency_limited no_eviction true (with_tables tablesT5) "flow" 2 tablesT5_reachable); [discriminate|].
  exact limited_concurrency.
Defined.

(** Texts of times with the same number of digits are ordered as the times. *)
Lemma digits_ordered width n m :
  (n < m)%N → (m < 10 ^ N.of_nat width)%N → String.ltb (digits width n) (digits width m) = true.
Proof.
  revert n m. induction width as [|width IH]; intros n m Hnm Hm; [simpl in Hm; lia|].
  cbn [digits]. set (p := (10 ^ N.of_nat width)%N).
  assert (0 < p)%N as Hp by (unfold p; apply N.neq_0_lt_0, N.pow_nonzero; lia).
  assert (m < p * 10)%N as Hm'.
  { rewrite Nat2N.inj_succ, N.pow_succ_r' in Hm. unfold p. lia. }
  pose proof (N.div_mod n p ltac:(lia)) as En. pose proof (N.div_mod m p ltac:(lia)) as Em.
  pose proof (N.mod_lt n p ltac:(lia)). pose proof (N.mod_lt m p ltac:(lia)).
  assert (m / p < 10)%N by (apply N.Div0.div_lt_upper_bound; lia).
  assert (n / p ≤ m / p)%N as [Hlt|Heq]%N.le_lteq by (apply N.Div0.div_le_mono; lia).
  - unfold String.ltb. cbn [String.compare]. unfold Ascii.compare.
    rewrite !Ascii.N_ascii_embedding by lia. by rewrite (proj2 (N.compare_lt_iff _ _)) by lia.
  - rewrite Heq. unfold String.ltb. cbn [String.compare]. unfold Ascii.compare. rewrite N.compare_refl.
    apply IH; [rewrite Heq in En; lia|done].
Qed.

Definition started_text (db : StoreTables) (run_id : string) : option (string * bool * option DateTime) :=
  binding ← db.(StoreTables.runs) !! run_id;
  first ← head (stored_events db run_id);
  Some (binding.(RunDefinitionBinding.workflow_id), is_admission first.(RunEvent.payload),
        (history_state db run_id).(ProjectionFoldState.projection).(RunProjection.started_at)).

Lemma started_computed db workflow_id run_id at_ :
  is_ok (from_events (stored_events db run_id)) = true →
  started_text db run_id = Some (workflow_id, true, Some at_) → started db workflow_id run_id at_.
Proof.
  intros Hok%history_state_ok. unfold started_text. intros (b & Hb & (first & Hf & [= Hw Ha Hs])%bind_Some)%bind_Some.
  by exists b, first, (history_state db run_id).
Qed.

Lemma first_started : started tablesT5 "flow" run1 (tick 22).
Proof. apply started_computed; vm_compute; reflexivity. Qed.
Lemma second_started : started tablesT5 "flow" run2 (tick 24).
Proof. apply started_computed; vm_compute; reflexivity. Qed.

Lemma second_rate : rate_is tablesT5 "flow" two_per_second.
Proof.
  assert (policies_pass tablesT5
    (λ policy, bool_decide (policy.(CompiledRuntimePolicy.rate_limit) = Some two_per_second)) = true) as Ht
    by (vm_compute; reflexivity).
  intros hash workflow policy Hd _ Hp. by apply (policies_pass_ok _ _ _ _ _ Ht Hd), bool_decide_eq_true in Hp.
Qed.

(** Both starts are in the second that follows the first. *)
Lemma rate_limited_witness :
  started tablesT5 "flow" run1 (tick 22) ∧ started tablesT5 "flow" run2 (tick 24) ∧ length [run1; run2] ≤ 2.
Proof.
  split; [exact first_started|]. split; [exact second_started|].
  apply (rate_limited no_eviction (with_tables tablesT5) "flow" two_per_second 1000000000 1000000000 [run1; run2]
    tablesT5_reachable second_rate).
  - reflexivity.
  - intros x y Hx Hxy Hy. cbn [to_rfc3339 store_stand_ins]. apply digits_ordered; [lia|].
    change (10 ^ N.of_nat 20)%N with 100000000000000000000%N. lia.
  - apply NoDup_cons_2; [|apply NoDup_singleton]. intros Hin%list_elem_of_singleton. discriminate.
  - intros r [->|[->|[]%not_elem_of_nil]%elem_of_cons]%elem_of_cons.
    + exists (tick 22). split; [exact first_started|]. unfold tick. lia.
    + exists (tick 24). split; [exact second_started|]. unfold tick. lia.
Defined.

(** The instants of minutes 5, 10 and 15 have passed at minute 17. *)
Definition cursor6 : ScheduleCursor :=
  ScheduleCursor.mk "flow" "trigger2" sha five_minutes "UTC" "run-once" (minute 5) (minute 1).
Definition round_of (r : StoreTables * round ScheduleCursor) : ProgressReason * option TriggerAdmissionOutcome :=
  match r.2 with Moved _ reason outcome => (reason, outcome) | _ => (Initialized, None) end.
Definition round6 : StoreTables * round ScheduleCursor :=
  schedule_round tablesT6 five_minute_registration cursor6 (minute 17) noon.

Lemma moved_round (store : DurableEventStore) (cursor : ScheduleCursor) registration now
    (r : StoreTables * round ScheduleCursor) :
  match r.2 with
  | Moved _ reason outcome =>
      (cursor.(ScheduleCursor.next_scheduled_at) ≤ now)%Z
      ∧ round_moved store.(DurableEventStore.tables) r.1 registration
          cursor.(ScheduleCursor.next_scheduled_at) now reason outcome
  | _ => r.1 = store.(DurableEventStore.tables)
  end →
  (round_of r).1 = MisfireRunOnce →
  round_moved store.(DurableEventStore.tables) r.1 registration cursor.(ScheduleCursor.next_scheduled_at) now
    MisfireRunOnce (round_of r).2.
Proof. destruct r as [db [| |cursor' reason outcome]]; simpl; [done..|]. by intros [_ Hm] ->. Qed.

Lemma schedule_round_exact_witness :
  schedule_cursor tablesT6 "flow" "trigger2" = Ok cursor6
  ∧ (round_of round6).1 = MisfireRunOnce
  ∧ round_moved tablesT6 round6.1 five_minute_registration (minute 5) (minute 17) MisfireRunOnce (round_of round6).2.
Proof.
  split; [vm_compute; reflexivity|]. assert ((round_of round6).1 = MisfireRunOnce) as Hreason by (vm_compute; reflexivity).
  split; [exact Hreason|].
  assert (occurrence (schedule_of five_minute_registration) (ScheduleCursor.next_scheduled_at cursor6)) as Ho
    by (split; vm_compute; reflexivity).
  apply (moved_round (with_tables tablesT6) cursor6); [|exact Hreason].
  exact (schedule_round_exact no_eviction true (with_tables tablesT6) five_minute_registration cursor6
    (minute 17) noon round6.1 round6.2 tablesT6_reachable Ho (surjective_pairing round6)).
Defined.

(** Every quarter of an hour from nine to five on working days, and at midnight. *)
Definition office_hours : cron :=
  mk_cron [mk_item star (Some 15%N)] [mk_item (single 0) None; mk_item (range 9 17) None] [mk_item star None]
    [mk_item star None] [mk_item (range 1 5) None].

Lemma cron_roundtrip_witness :
  print_cron office_hours = "*/15 0,9-17 * * 1-5"
  ∧ ∃ schedule, schedule_parse "*/15 0,9-17 * * 1-5" "UTC" = Ok schedule
      ∧ field_means 1 0 23 (cron_hours office_hours) (hours schedule).
Proof.
  assert (print_cron office_hours = "*/15 0,9-17 * * 1-5") as Hp by (vm_compute; reflexivity).
  split; [exact Hp|].
  destruct (cron_roundtrip office_hours "UTC" tz_utc) as (schedule & Hs & _ & _ & Hh & _).
  - repeat constructor; simpl; unfold u32_modulus; first [lia | discriminate].
  - vm_compute. discriminate.
  - reflexivity.
  - exists schedule. split; [|exact Hh]. rewrite <-Hp. exact Hs.
Defined.
